(* ===== verification/_CoqProject ===== *)
-Q . S2P
Prelude.v
SshUint.v
SshString.v
MsgBuffer.v
SimpleList.v
ListStore.v
SimpleHash.v
ChannelTable.v
RequestHash.v
NameList.v
KexCompare.v
ListLock.v
Locking.v
AttrBuffer.v
SystemStat.v
SftpAttr.v
FsPath.v
SftpWire.v
SftpRecv.v
SftpSend.v
FsHandle.v
SftpReply.v
SftpServer.v
SocketFrames.v
SshCipher.v
SshPacket.v
SshGeneric.v
SshReceive.v
SshReaders.v
SshSendQueue.v
SshPayload.v
SshChannelSend.v
SshChannel.v
SshChannelOpen.v
Names.v
Runs.v
SkipList.v
SkipFind.v
SkipInsert.v
SkipSorted.v
SshSetup.v
SshTransport.v
AlgoExchange.v
SshTransportSend.v
SshUserauth.v
UserMap.v
SftpAttrNames.v
SftpServerAttr.v
