(* ===== verification/Prelude.v ===== *)
(** * OSNS: a verification of its core in Rocq

    OSNS is a set of programs that give access to network services, mainly sftp
    over ssh, as a filesystem.  Its C code is layered: data types and containers
    (src/lib/datatypes, src/lib/list, src/lib/lock, src/lib/ssh) at the bottom, the
    sftp attributes and protocol (src/lib/sftp, src/sftp) and the ssh transport
    (src/ssh) on top of them, and the fuse filesystems and main programs above.
    This development models the bottom layer in full and the parts of the upper
    layers that are algorithms of their own.  Paths below are relative to the
    directory src of the repository.

    ** The program's parts and the files that model them

    - Prelude.v (this file): machine integers with their wrap-around, memory as
      lists of bytes, C strings, flag words, the option monad of undefined
      behaviour and the outcome type of loops with fuel, shared automation.
    - SshUint.v: lib/datatypes/ssh-uint.c, integers in network byte order.
    - SshString.v: lib/ssh/ssh-string.c, counted strings with their three kinds of
      storage, and the functions that read, write, create, compare and count them.
    - MsgBuffer.v: lib/datatypes/ssh-msg-buffer.c, messages written in two passes
      (count, then write) and read by callbacks.
    - SimpleList.v: lib/list/simple-list.c, doubly linked lists with a header that
      carries a table of operations for the empty list, one element and more, on
      an explicit heap.
    - ListStore.v: the interface of those lists for their users, a class of
      operations with laws, of which SimpleList is the instance, and tables made
      of rows of lists.
    - SimpleHash.v: lib/list/simple-hash.c, hash tables on that interface.
    - ChannelTable.v: ssh/channel/table.c, the table of the ssh channels.
    - RequestHash.v: sftp/request-hash.c, the table of outstanding sftp requests
      and the two threads that send and receive them, as a step relation.
    - NameList.v: lib/datatypes/ssh-namelist.c, comma separated names.
    - KexCompare.v: ssh/keyexchange/compare.c, the negotiation of algorithms from
      the two KEXINIT messages.
    - ListLock.v: lib/list/lock.c, the read/write lock of a list, for any number
      of threads.
    - Locking.v: lib/lock/locking.c, read, write and upgradable locks, for any
      number of users.
    - AttrBuffer.v: lib/datatypes/buffer.c, the cursor attributes are read and
      written with.
    - SystemStat.v: the accessors of lib/system/stat.c.
    - SftpAttr.v: lib/sftp/rw-attr-generic.c, lib/sftp/attr-context.c and
      lib/sftp/attr/ *-v03.c, the attributes of version 3 of the sftp protocol with
      the cache of callback orders.
    - FsPath.v: lib/fspath, paths in a buffer with a start and a length.
    - SftpWire.v: the frame of an sftp message and the cursor requests are
      written with, shared by the two files below.
    - SftpRecv.v: sftp/recv.c and sftp/recv/recv-v03.c to recv-v06.c, the replies
      an sftp client receives.
    - SftpSend.v: sftp/send.c, sftp/send/send-v03.c to send-v06.c and the ids of
      sftp/common.c, the requests it sends.
    - FsHandle.v: lib/system/fshandle.c and ssh/subsystem/sftp/handle.c, the open
      handles of the sftp server and their names on the wire.
    - SftpReply.v: ssh/subsystem/sftp/send.c, the replies of the server.
    - SftpServer.v: ssh/subsystem/sftp/path.c, cb-open.c, cb-close.c, cb-rm.c,
      cb-readlink.c and opendir of cb-opendir.c, with what they call of
      lib/system, over a record of system calls.
    - SocketFrames.v: the default callbacks of lib/socket/event.c that cut a stream
      into messages, with the threads of its events, and their use by
      lib/fuse/receive.c and ssh/subsystem/sftp/receive.c.
    - SshCipher.v: ssh/send/encrypt-generic.c, ssh/send/encrypt-chacha20-poly1305.c
      and their counterparts in ssh/receive, the actions on a packet over an
      abstract libgcrypt, with what the code relies on of it as a class of laws.
    - SshPacket.v: ssh/send/send.c up to the socket, ssh/send/write-socket.c and the
      opening of one packet of ssh/receive/read-buffer.c; the class of ciphers
      whose packets arrive, and that of those that open packets in any order, with
      two instances each.
    - SshGeneric.v: what becomes of packets of the generic ciphers, and a small
      library for concrete runs.
    - SshReceive.v: ssh/receive/read-buffer.c with the receive event of
      lib/socket/event.c, one call of the reader of the stream from begin to end.
    - SshReaders.v: any number of those calls at a time, as a step function, with the
      decryptors of ssh/receive/decryptors.c.
    - SshSendQueue.v: the queue of senders of ssh/send/send.c, for any number of
      threads, as a step function.
    - SshPayload.v: lib/ssh/payload.c, the queues of received payloads and the
      wait on them.
    - SshChannelSend.v: ssh/send/msg-channel.c, the messages of a channel.
    - SshChannel.v: ssh/receive/msg-channel.c and the table of handlers of
      ssh/receive/init.c, with the callbacks of a channel of ssh/channel/init.c and
      interface/sftp.c.
    - SshChannelOpen.v: ssh/channel/startclose.c and the start of a command of
      ssh/channel/utils.c, and the path of data from the stream to the sftp client.
    - Names.v: lib/datatypes/name.c and name-string.c, names with an index of their
      first characters.
    - Runs.v: the results of a call that takes locks (it returns, waits or faults).
    - SkipList.v, SkipFind.v, SkipInsert.v, SkipSorted.v: lib/sl, skip lists on a
      heap, with their locks: the data and operations, the search, the insertion, and
      the sorted list they implement.
    - SshSetup.v: ssh/connections/setup.c and the set up of a session of
      ssh/ssh-common.c, the phases of a connection with the union of their state.
    - SshTransport.v: ssh/receive/msg-transport.c and msg-userauth.c, what becomes of
      the messages of the transport and of the authentication in each phase.
    - AlgoExchange.v: ssh/keyexchange/algo-exchange.c, both sides of the exchange of
      KEXINIT, on KexCompare.
    - SshTransportSend.v: ssh/send/msg-transport.c, the messages of the transport.
    - SshUserauth.v: ssh/ssh-userauth.c, ssh/userauth and ssh/send/msg-userauth.c, the
      methods of authentication, the loop of the client and the answers.
    - UserMap.v: lib/users and ssh/users/mapping.c, the records of users, the
      callbacks that translate ids and names, and their set up on both sides.
    - SftpAttrNames.v: lib/sftp/attr/ *-v04.c to *-v06.c, the attributes with names on
      the generic part of SftpAttr, over an interface (mapcb) that UserMap meets.
    - SftpServerAttr.v: ssh/subsystem/sftp/cb-stat.c, cb-mk.c and readdir of
      cb-opendir.c, the requests of the server with attributes, and the whole table
      of its callbacks.

    SimpleHash, ChannelTable and RequestHash call the lists through ListStore;
    MsgBuffer, KexCompare and AttrBuffer call SshUint and SshString; SftpAttr calls
    AttrBuffer and SystemStat.  SftpRecv delivers to the table of requests through
    a class (RequestTable) of which the table of RequestHash is the instance, so
    that its last theorem is about both.  FsHandle keeps its table through
    ListStore, SftpServer calls FsHandle, FsPath, SftpReply and SystemStat.
    SshReceive and SshReaders are proved against the classes of ciphers of
    SshPacket, which the ciphers of SshCipher meet.
    SshChannel finds its channels with ChannelTable, and SshChannelOpen waits on
    the queues of SshPayload and composes SshReaders with SshChannel.
    SshTransport feeds SshSetup; AlgoExchange writes KEXINIT and
    composes it with KexCompare.  SftpAttrNames is proved against what a mapping
    promises ([writes_name], [reads_name]), which the mappings of UserMap keep, and
    its theorems are about those.
    SftpServerAttr joins SftpServer and the two files of attributes.
    ListLock, Locking and SshSendQueue stand on their own.

    ** How C is modelled

    An [unsigned int] is a [Z] with [u32] written where the code computes, an [int]
    with [sgn 32].  A pointer into memory is the list of the bytes from it to the
    end of its object; an access outside is [None], so a theorem that a function
    returns [Some] includes that it stays in bounds.  Structs are records and
    tables of function pointers inductive types.  The heap of SimpleList is a
    finite map, so that sharing and aliasing of list elements are real.  [malloc]
    is a boolean or function parameter that may fail, or gives the number of the
    new object.  System calls are a record of functions on a state of the system,
    with what their manual promises as named hypotheses.  Code behind callbacks (the
    id mapping of version 3, the start function of a channel) is a parameter, and so
    are the user database and the cache of users.  Threads are
    steps between two points where the mutex is free.

    ** What the theorems show

    - Wire formats: what is counted is what is written, writing stays in the
      buffer, and reading returns what was written, for messages
      ([msg_two_pass], [msg_write_in_bounds], [msg_fields_roundtrip]), strings
      ([ssh_string_write_read], [read_ssh_string_bounds]), attribute fields
      ([attr_fields_roundtrip]) and file attributes ([attr_v03_roundtrip], and
      [attr_names_roundtrip] for versions 4 to 6); the
      cache of callback orders changes nothing ([attr_cache_transparent],
      [attr_cache_sound]).
    - Containers: the pointer operations on lists refine operations on sequences
      ([list_add_refines], [list_remove_refines], [list_traversal] and more); hash
      tables, the channel table and the request table refine finite collections
      and keep their invariants on every branch.
    - Skip lists: a search is the search of the sorted list ([sl_find_correct]), an
      insertion puts an element at its place ([sl_insert_correct]), and every history
      of operations answers as the sorted list does ([skiplist_history]).
    - Concurrency: mutual exclusion, no lost wake-up and progress of the list lock;
      the invariant of the upgradable locks; a request has left the table when its
      thread returns, and a reply reaches the thread that waits; the messages of a
      stream are cut out of it and handed over once, whatever its parts and the order
      of the threads ([messages_reassembled]).
    - Negotiation: [compare_msg_kexinit_correct] gives the choice for all ten
      lists, or the error, as a function of the two messages.
    - The sftp client: every request is one frame with the fields the code has for its
      version ([send_request_frame]) under an id no other has ([request_ids_distinct]); a
      reply in a frame is delivered to the request with its id and to no other
      ([receive_reply_correct], and [reply_ends_wait] for the next check of the
      waiting thread); malformed and unknown replies end it with an error
      ([receive_malformed], [receive_refused]).
    - Paths: appending, comparing, splitting and cleaning stay in the buffer and
      give the bytes they should ([append_raw_correct], [compare_correct],
      [filename_correct], [get_target_correct], [remove_elements_bounds]).
    - The sftp server: the table of handles implements a stack of handles per
      connection, device and inode ([handle_table_refines],
      [handle_string_roundtrip]); every handler that returns has kept the invariant
      of the server and answered under the id of the request
      ([requests_keep_server]); open, read, write, close, removal and mkdir are
      described branch by branch, given that the byte behind a path is 0 ([open_correct],
      [read_correct], [write_correct], [close_correct], [remove_replies],
      [mkdir_correct]); every reply is understood by the client
      ([server_reply_received]), and a stat over the network gives what the system of
      the server gave ([stat_end_to_end]).  What the server hands to its handlers is
      not what the client sent: its header is laid over the bytes of the request
      ([requests_misframed]).
    - The ssh transport: the padding ([padding_completes_block]); a packet is sent
      completely ([write_socket_complete]); what is sealed is opened, and every
      packet of the stream is handed over once and with its number whatever the parts
      in which it arrives and the calls that read it ([stream_received]), though not
      always in order ([packets_overtake]); packets of many threads go
      out in the order of their numbers and with the keys of their time
      ([packets_in_order_with_keys])
      and the queue of senders does not lock up ([senders_complete]); the error
      exits of the reader ([reader_errors]).
    - Channels: a message written for a channel does at the other side to the
      channel with that number what it stands for, and to no other
      ([channel_message_roundtrip]); data in packets reaches the sftp client byte
      for byte, as the packets are handed over ([channel_data_stream]); a payload has one owner
      ([channel_payload_owned]) and the handlers stay inside it but for a length that
      wraps ([channel_handlers_bounds]); a wait gets the first payload it selects
      ([get_ssh_payload_first]); the opening of a channel and the start of a
      command on every branch ([start_channel_outcome], [start_command_output]).
    - The connection: channels carry messages only after the authentication
      ([channels_after_authentication]); the union of the phases is read as it was
      stored ([setup_union_safe]); one thread disconnects
      ([disconnect_granted_once]); every message gets the fate of its phase
      ([message_judged]), what a phase waits for reaches it
      ([awaited_messages_queued]), and an exchange of keys can start again
      ([rekey_finishes]); the messages that are written are those received
      ([transport_messages_received]); two sides agree on the algorithms
      ([negotiation_agrees], [exchange_result]); the authentication of a client, with
      passwords, public keys and host keys, ends ([userauth_client_ends]), its methods survive the wire
      ([auth_reply_roundtrip]) and answers are read inside them
      ([auth_failure_handled]).
    - Users: records are taken apart in bounds ([getent_fields_bounds]); a client maps
      ids and names as its set up says ([client_ids_mapped],
      [client_names_mapped]); with a shared database names come back to their ids
      ([shared_names_roundtrip]).
    - Where the code does not do what it means to, a theorem states what it does,
      for example [writelock_not_exclusive], [downgrade_does_nothing],
      [name_response_v03_swapped], [get_best_guess_nul], [read_int64_undefined],
      [parse_ssh_commalist_overruns], [request_outlived_by_receiver],
      [receive_length_underflow], [receive_data_overruns], [send_custom_length],
      [append_raw_stale], [remove_elements_keeps_slashes],
      [handle_any_connection], [handle_shadowed], [open_unterminated],
      [write_takes_stale], [open_flags_translated], [malformed_packet_escapes],
      [generic_hmac_span], [generic_block_span], [receive_race_corrupts],
      [full_buffer_closes], [packets_overtake], [failed_newkeys_switches],
      [hostbased_never_accepted], [requests_misframed], [copy_never_ends],
      [disconnected_sender_stays], [open_replies_overflow],
      [exit_requests], [start_command_spins], [stray_message_blocks],
      [server_ids_zero], [separator_is_length], [times_unreadable],
      [ex_root_misread], [stat_overflows], [readdir_lists_nothing] and
      [readdir_unknown_handle].

    ** Fuel

    Loops over lists and over bytes whose end is not structural take fuel.  Each
    theorem about such a loop states how much is enough, in terms of the length of
    the list or of the bytes, and that the loop then returns: [NoFuel] is excluded,
    not assumed away.  The search of a skip list takes turns that are bounded by its
    levels and elements, the loop over names of algorithms more turns than 65 for
    each entry of the table, the authentication of a client four, the scan of
    a row of users its length and one, and a readdir one more than the entries that
    are left.

    ** What is not modelled

    System calls, sockets, the event loop and fuse (src/lib/system, src/lib/socket
    but for the callbacks of event.c, src/lib/eventloop, src/lib/fuse, src/fuse):
    calls of the kernel and their glue.
    Cryptography, which is libgcrypt's (src/ssh/pk, most of src/ssh/keyexchange and
    with them the integers of any length), the greeter, the reading of keys and the
    bytes of signatures in the authentication, the cache of users (cache.c, domain.c and entity.c of
    src/lib/users), the extensions and the init message of the sftp server and the
    main programs.  Of files that are modelled, logging is left out, and the
    locking calls inside the containers, whose own properties are in ListLock.

    ** Order of the work

    Done: wire formats, containers, locks, negotiation, attributes of versions 3 to
    6, users, paths, the requests and replies of the sftp client, the handles and
    the requests of the sftp server, the packets and the messages of the ssh
    transport, the channels, the phases of a connection, the authentication of a
    client, the skip lists, the messages of a socket.  Left: the extensions of the server, the cache
    of users on the skip lists, the greeter, and the filesystems on fuse. *)

From stdpp Require Import base list list_numbers numbers option gmap.
From Stdlib Require Export ZArith Lia.

Global Set Default Goal Selector "!".

Declare Scope osns_scope.
Delimit Scope osns_scope with osns.
Open Scope Z_scope.

(** ** Machine integers

    An [unsigned int] / [uint32_t] value is a [Z] in [0, 2^32); the C operators
    wrap modulo 2^w, and the wrapping is written out wherever the source
    computes with the type. *)
Definition u8 (x : Z) : Z := x mod 2 ^ 8.
Definition u16 (x : Z) : Z := x mod 2 ^ 16.
Definition u32 (x : Z) : Z := x mod 2 ^ 32.
Definition u64 (x : Z) : Z := x mod 2 ^ 64.

(** Two's complement reading of the low [w] bits. *)
Definition sgn (w : Z) (x : Z) : Z :=
  (x + 2 ^ (w - 1)) mod 2 ^ w - 2 ^ (w - 1).

Definition is_u8 (x : Z) : Prop := 0 <= x < 2 ^ 8.
Definition is_u16 (x : Z) : Prop := 0 <= x < 2 ^ 16.
Definition is_u32 (x : Z) : Prop := 0 <= x < 2 ^ 32.
Definition is_u64 (x : Z) : Prop := 0 <= x < 2 ^ 64.

(** C's truth test of a flag: [x & m]. *)
Definition has (x m : Z) : bool := negb (Z.land x m =? 0).

(** ** Bytes and memory

    A [char *] is the list of the bytes from the pointer to the end of the
    object it points into; [ptr + n] is [drop n], and an access beyond the end
    is [None].  A byte is a [Z] in [0, 256). *)
Abbreviation bytes := (list Z).
Definition wf_bytes (b : bytes) : Prop := Forall is_u8 b.

Definition zlen {A} (l : list A) : Z := Z.of_nat (length l).

(** [memcpy (dst, p + i, n)]: the [n] bytes read. *)
Definition mem_read (p : bytes) (i n : Z) : option bytes :=
  if (0 <=? i) && (0 <=? n) && (i + n <=? zlen p)
  then Some (take (Z.to_nat n) (drop (Z.to_nat i) p)) else None.

(** [memcpy (p + i, d, length d)]: the object after the write. *)
Definition mem_write (p : bytes) (i : Z) (d : bytes) : option bytes :=
  if (0 <=? i) && (i + zlen d <=? zlen p)
  then Some (take (Z.to_nat i) p ++ d ++ drop (Z.to_nat i + length d) p) else None.

(** [memmove (p + dst, p + src, n)] inside one object. *)
Definition memmove (p : bytes) (dst src n : Z) : option bytes :=
  mem_read p src n ≫= mem_write p dst.

(** [memset (p + i, 0, n)]. *)
Definition memzero (p : bytes) (i n : Z) : option bytes :=
  if (0 <=? i) && (0 <=? n) && (i + n <=? zlen p)
  then mem_write p i (replicate (Z.to_nat n) 0) else None.

(** ** Automation *)

Create HintDb osns.
Create Rewrite HintDb zlen.

(** Case analysis on the boolean integer comparisons of the goal and of the
    hypotheses, leaving the corresponding (in)equalities. *)
Ltac bdestr :=
  repeat match goal with
  | |- context [?x <? ?y] => destruct (Z.ltb_spec x y)
  | |- context [?x <=? ?y] => destruct (Z.leb_spec x y)
  | |- context [?x =? ?y] => destruct (Z.eqb_spec x y)
  | H : context [?x <? ?y] |- _ => destruct (Z.ltb_spec x y)
  | H : context [?x <=? ?y] |- _ => destruct (Z.leb_spec x y)
  | H : context [?x =? ?y] |- _ => destruct (Z.eqb_spec x y)
  end; simpl in *.

(** One step of the option monad. *)
Ltac opt := cbn [mbind option_bind].

Ltac unfold_width := unfold is_u8, is_u16, is_u32, is_u64, u8, u16, u32, u64 in *.

(** ** Arithmetic of widths *)

Lemma u32_id x : is_u32 x -> u32 x = x.
Proof. unfold u32, is_u32. apply Z.mod_small. Qed.

Lemma u32_range x : is_u32 (u32 x).
Proof. unfold u32, is_u32. apply Z.mod_pos_bound. lia. Qed.

(** ** Flag words *)

Lemma has_lor x y m : has (Z.lor x y) m = has x m || has y m.
Proof.
  unfold has. rewrite Z.land_lor_distr_l. destruct (Z.eqb_spec (Z.lor (Z.land x m) (Z.land y m)) 0) as [E|E].
  - apply Z.lor_eq_0_iff in E as [-> ->]. done.
  - destruct (Z.eqb_spec (Z.land x m) 0) as [E1|]; [| done]. destruct (Z.eqb_spec (Z.land y m) 0) as [E2|]; [| done].
    rewrite E1, E2 in E. done.
Qed.

Lemma has_ldiff x y m : Z.land y m = 0 -> has (Z.ldiff x y) m = has x m.
Proof.
  intros H. unfold has. f_equal. f_equal. apply Z.bits_inj'. intros n Hn.
  rewrite !Z.land_spec, Z.ldiff_spec. apply (f_equal (fun z => Z.testbit z n)) in H. rewrite Z.land_spec, Z.bits_0 in H.
  destruct (Z.testbit x n), (Z.testbit y n), (Z.testbit m n); simpl in *; congruence.
Qed.

Lemma has_lor_same x m : 0 < m -> has (Z.lor x m) m = true.
Proof.
  intros Hm. unfold has. destruct (Z.eqb_spec (Z.land (Z.lor x m) m) 0) as [E|]; [| done].
  exfalso. rewrite Z.land_lor_distr_l, Z.land_diag in E. apply Z.lor_eq_0_iff in E. lia.
Qed.

Lemma has_ldiff_same x m : has (Z.ldiff x m) m = false.
Proof. unfold has. by rewrite Z.land_ldiff. Qed.

Lemma is_u8_land255 x : is_u8 (Z.land x 255).
Proof.
  change 255 with (Z.ones 8). rewrite Z.land_ones by lia.
  unfold is_u8. apply Z.mod_pos_bound. lia.
Qed.

Lemma land255_mod x : Z.land x 255 = x mod 256.
Proof. change 255 with (Z.ones 8). rewrite Z.land_ones by lia. done. Qed.

(** A disjoint [|] is an addition: the high part shifted by [n], the low part
    below [2^n]. *)
Lemma lor_shiftl_add a b n :
  0 <= n -> 0 <= b < 2 ^ n -> Z.lor (Z.shiftl a n) b = a * 2 ^ n + b.
Proof.
  intros Hn Hb. rewrite <- Z.shiftl_mul_pow2 by done.
  rewrite <- Z.lxor_lor, Z.add_nocarry_lxor; try done.
  all: apply Z.bits_inj'; intros i Hi; rewrite Z.land_spec, Z.bits_0.
  all: destruct (Z.lt_ge_cases i n).
  all: try (rewrite Z.shiftl_spec_low by lia; done).
  all: rewrite (Z.mod_small b (2 ^ n)) || idtac.
  all: replace (Z.testbit b i) with false; [apply andb_false_r |].
  all: symmetry; rewrite <- (Z.mod_small b (2 ^ n)) by done; apply Z.mod_pow2_bits_high; lia.
Qed.

#[export] Hint Resolve u32_range is_u8_land255 : osns.

(** ** Lemmas on memory views *)

Lemma zlen_app {A} (a b : list A) : zlen (a ++ b) = zlen a + zlen b.
Proof. unfold zlen. rewrite length_app. lia. Qed.

Lemma zlen_cons {A} (x : A) l : zlen (x :: l) = 1 + zlen l.
Proof. unfold zlen. simpl. lia. Qed.

Lemma zlen_nil {A} : zlen (@nil A) = 0.
Proof. done. Qed.

Lemma zlen_nonneg {A} (l : list A) : 0 <= zlen l.
Proof. unfold zlen. lia. Qed.

Lemma zlen_take {A} n (l : list A) : 0 <= n <= zlen l -> zlen (take (Z.to_nat n) l) = n.
Proof. unfold zlen. rewrite length_take. lia. Qed.

Lemma zlen_drop {A} n (l : list A) : 0 <= n <= zlen l -> zlen (drop (Z.to_nat n) l) = zlen l - n.
Proof. unfold zlen. rewrite length_drop. lia. Qed.

#[export] Hint Rewrite @zlen_app @zlen_cons @zlen_nil : zlen.

Lemma mem_read_Some p i n :
  0 <= i -> 0 <= n -> i + n <= zlen p ->
  mem_read p i n = Some (take (Z.to_nat n) (drop (Z.to_nat i) p)).
Proof. intros. unfold mem_read. bdestr; try lia; done. Qed.

Lemma mem_read_None p i n : zlen p < i + n -> mem_read p i n = None.
Proof. intros. unfold mem_read. bdestr; try lia; done. Qed.

Lemma mem_read_inv p i n d :
  mem_read p i n = Some d ->
  0 <= i /\ 0 <= n /\ i + n <= zlen p /\ d = take (Z.to_nat n) (drop (Z.to_nat i) p) /\ zlen d = n.
Proof.
  unfold mem_read. bdestr; try done. intros [= <-]. repeat split; try done.
  rewrite zlen_take; [done |]. rewrite zlen_drop by lia. lia.
Qed.

Lemma mem_write_Some p i d :
  0 <= i -> i + zlen d <= zlen p ->
  mem_write p i d = Some (take (Z.to_nat i) p ++ d ++ drop (Z.to_nat i + length d) p).
Proof. intros. unfold mem_write. bdestr; try lia; done. Qed.

Lemma mem_write_inv p i d q :
  mem_write p i d = Some q ->
  0 <= i /\ i + zlen d <= zlen p /\
  q = take (Z.to_nat i) p ++ d ++ drop (Z.to_nat i + length d) p.
Proof. unfold mem_write. bdestr; try done. intros [= <-]. done. Qed.

Lemma mem_write_len p i d q : mem_write p i d = Some q -> zlen q = zlen p.
Proof.
  intros (? & ? & ->)%mem_write_inv. unfold zlen in *.
  rewrite !length_app, length_take, length_drop. lia.
Qed.

(** What was written is what is read back ... *)
Lemma mem_read_write p i d q : mem_write p i d = Some q -> mem_read q i (zlen d) = Some d.
Proof.
  intros H. pose proof (mem_write_len _ _ _ _ H) as Hl.
  destruct (mem_write_inv _ _ _ _ H) as (? & ? & ->). pose proof (zlen_nonneg d).
  rewrite mem_read_Some by lia. f_equal.
  rewrite drop_app_length' by (rewrite length_take; unfold zlen in *; lia).
  rewrite take_app_length'; [done |]. unfold zlen. lia.
Qed.

(** ... and the bytes outside the written range are kept. *)
Lemma mem_write_lookup_out p i d q j :
  mem_write p i d = Some q ->
  (j < Z.to_nat i \/ Z.to_nat i + length d <= j)%nat -> q !! j = p !! j.
Proof.
  intros (? & ? & ->)%mem_write_inv Hj. unfold zlen in *.
  destruct Hj.
  - rewrite lookup_app_l by (rewrite length_take; lia). by rewrite lookup_take_lt by lia.
  - rewrite app_assoc, lookup_app_r by (rewrite length_app, length_take; lia).
    rewrite length_app, length_take, lookup_drop. f_equal. lia.
Qed.

Lemma memmove_front a d rest :
  memmove (a ++ d ++ rest) 0 (zlen a) (zlen d) = Some (d ++ drop (length d) (a ++ d ++ rest)).
Proof.
  unfold memmove. rewrite mem_read_Some by (autorewrite with zlen; unfold zlen; lia). unfold zlen. rewrite !Nat2Z.id.
  rewrite drop_app_length, take_app_length. simpl. rewrite mem_write_Some; [done | lia |].
  autorewrite with zlen. unfold zlen. lia.
Qed.

Lemma memmove_out p dst src n : zlen p < src + n -> memmove p dst src n = None.
Proof. intros. unfold memmove. by rewrite mem_read_None. Qed.

Lemma memzero_front p d n :
  0 <= n <= zlen d -> memzero (p ++ d) (zlen p) n = Some (p ++ replicate (Z.to_nat n) 0 ++ drop (Z.to_nat n) d).
Proof.
  intros Hn. pose proof (zlen_app p d). pose proof (zlen_nonneg p). unfold memzero. bdestr; [| lia ..].
  rewrite mem_write_Some by (unfold zlen in *; rewrite ?length_replicate; lia).
  unfold zlen. by rewrite Nat2Z.id, take_app_length, length_replicate, <- drop_drop, drop_app_length.
Qed.

Lemma mem_write_take p i d q : mem_write p i d = Some q -> take (Z.to_nat i) q = take (Z.to_nat i) p.
Proof.
  intros (? & ? & ->)%mem_write_inv. rewrite take_app_length'; [done |].
  rewrite length_take. unfold zlen in *. lia.
Qed.

Lemma mem_write_drop p i d q :
  mem_write p i d = Some q ->
  drop (Z.to_nat i + length d) q = drop (Z.to_nat i + length d) p.
Proof.
  intros (? & ? & ->)%mem_write_inv. rewrite app_assoc, drop_app_length'; [done |].
  rewrite length_app, length_take. unfold zlen in *. lia.
Qed.

(** A write into the free part of a buffer. *)
Lemma mem_write_free pre x d post :
  zlen x = zlen d -> mem_write (pre ++ x ++ post) (zlen pre) d = Some (pre ++ d ++ post).
Proof.
  intros Hx. pose proof (zlen_nonneg pre). pose proof (zlen_nonneg post).
  rewrite mem_write_Some by (rewrite ?zlen_app; lia). f_equal. unfold zlen in *.
  rewrite Nat2Z.id, take_app_length. do 2 f_equal.
  rewrite app_assoc, drop_app_length'; [done |]. rewrite length_app. lia.
Qed.

Lemma mem_write_one pre (x y : Z) post : mem_write (pre ++ x :: post) (zlen pre) [y] = Some (pre ++ y :: post).
Proof. by apply (mem_write_free pre [x] [y] post). Qed.

Lemma wf_bytes_app a b : wf_bytes (a ++ b) <-> wf_bytes a /\ wf_bytes b.
Proof. apply Forall_app. Qed.

Lemma mem_write_wf p i d q :
  mem_write p i d = Some q -> wf_bytes p -> wf_bytes d -> wf_bytes q.
Proof.
  intros (? & ? & ->)%mem_write_inv Hp Hd.
  repeat apply Forall_app_2; auto using Forall_take, Forall_drop.
Qed.

#[export] Hint Resolve mem_write_len mem_read_write mem_write_wf zlen_nonneg : osns.

(** ** Outcomes of a bounded execution

    [Ret a]: the code returns [a]; [Ub]: it performs an access outside an
    object, dereferences NULL or runs into another undefined behaviour;
    [NoFuel]: the bound on the number of loop iterations was too small. *)
Inductive outcome (A : Type) : Type := Ret (a : A) | Ub | NoFuel.
Arguments Ret {A} _.
Arguments Ub {A}.
Arguments NoFuel {A}.

Definition outcome_bind {A B} (m : outcome A) (k : A -> outcome B) : outcome B :=
  match m with Ret a => k a | Ub => Ub | NoFuel => NoFuel end.

Notation "'let!' x := m 'in' k" := (outcome_bind m (fun x => k))
  (at level 10, x pattern, k at level 200) : osns_scope.
Open Scope osns_scope.

(** [None] of a memory access is undefined behaviour of the whole run. *)
Definition lift {A} (m : option A) : outcome A :=
  match m with Some a => Ret a | None => Ub end.

(** ** C strings *)

(** [strlen]: the number of bytes before the first NUL; [None] when there is
    none in the object. *)
Fixpoint strlen (p : bytes) : option Z :=
  match p with
  | [] => None
  | c :: p => if c =? 0 then Some 0 else option_map (Z.add 1) (strlen p)
  end.

Definition no_nul (l : bytes) : Prop := Forall (fun c => c <> 0) l.

Lemma strlen_app l rest : no_nul l -> strlen (l ++ 0 :: rest) = Some (zlen l).
Proof.
  induction 1 as [|c l Hc Hl IH]; [done |]. simpl. rewrite IH.
  destruct (Z.eqb_spec c 0); [done |]. simpl. by rewrite zlen_cons.
Qed.

Lemma strlen_Some p n :
  strlen p = Some n -> 0 <= n < zlen p /\ no_nul (take (Z.to_nat n) p) /\ p !! Z.to_nat n = Some 0.
Proof.
  revert n. induction p as [|c p IH]; intros n; simpl; [done |].
  destruct (Z.eqb_spec c 0) as [-> | Hc].
  - intros [= <-]. rewrite zlen_cons. pose proof (zlen_nonneg p). repeat split; [lia | lia | constructor].
  - destruct (strlen p) as [m|]; [| done]. intros [= <-].
    destruct (IH m eq_refl) as (? & ? & ?). rewrite zlen_cons.
    replace (Z.to_nat (1 + m)) with (S (Z.to_nat m)) by lia.
    repeat split; [lia | lia | by constructor | done].
Qed.

(** A byte list compared by [memcmp]. *)
Definition bytes_eqb (a b : bytes) : bool := bool_decide (a = b).

(** ** The option monad of undefined behaviour *)

Notation "'let?' x := m 'in' k" := (mbind (M := option) (fun x => k) m)
  (at level 10, x pattern, k at level 200) : osns_scope.
Open Scope osns_scope.

(** The bytes of the string at [p], without its NUL. *)
Definition cstring (p : bytes) : option bytes := let? n := strlen p in Some (take (Z.to_nat n) p).

Lemma cstring_app l rest : no_nul l -> cstring (l ++ 0 :: rest) = Some l.
Proof.
  intros Hl. unfold cstring. rewrite strlen_app by done. opt. f_equal. apply take_app_length'. unfold zlen. lia.
Qed.
