(* ===== verification/SshUint.v ===== *)
(** * lib/datatypes/ssh-uint.c: unsigned integers in network byte order

    [store_uint16/32/64] and [get_uint16/32/64], [get_int64], translated shift
    by shift, and their relation to the reference big endian codec
    [be_encode]/[be_decode].  Every wire format of the program (ssh strings,
    message buffers, sftp attributes) goes through these functions. *)

From stdpp Require Import base list list_numbers numbers option.
From S2P Require Import Prelude.

Module SshUint.

(** [(value >> n) & 0xFF], as every [store_] function writes it. *)
Abbreviation byte_at value n := (Z.land (Z.shiftr value n) 255) (only parsing).

Definition store_uint16 (buff : bytes) (value : Z) : option bytes :=
  mem_write buff 0 [byte_at value 8; Z.land value 255].

Definition store_uint32 (buff : bytes) (value : Z) : option bytes :=
  mem_write buff 0
    [byte_at value 24; byte_at value 16; byte_at value 8; Z.land value 255].

Definition store_uint64 (buff : bytes) (value : Z) : option bytes :=
  mem_write buff 0
    [byte_at value 56; byte_at value 48; byte_at value 40; byte_at value 32;
     byte_at value 24; byte_at value 16; byte_at value 8; Z.land value 255].

Definition get_uint32 (buf : bytes) : option Z :=
  match buf with
  | t0 :: t1 :: t2 :: t3 :: _ =>
      Some (u32 (Z.lor (Z.lor (Z.lor (Z.shiftl t0 24) (Z.shiftl t1 16)) (Z.shiftl t2 8)) t3))
  | _ => None
  end.

Definition get_uint16 (buf : bytes) : option Z :=
  match buf with
  | t0 :: t1 :: _ => Some (u16 (Z.lor (Z.shiftl t0 8) t1))
  | _ => None
  end.

Definition get_uint64 (buf : bytes) : option Z :=
  match buf with
  | t0 :: t1 :: t2 :: t3 :: t4 :: t5 :: t6 :: t7 :: _ =>
      let a := u64 (Z.lor (Z.lor (Z.lor (Z.shiftl t0 56) (Z.shiftl t1 48)) (Z.shiftl t2 40)) (Z.shiftl t3 32)) in
      let b := u32 (Z.lor (Z.lor (Z.lor (Z.shiftl t4 24) (Z.shiftl t5 16)) (Z.shiftl t6 8)) t7) in
      Some (u64 (Z.lor a b))
  | _ => None
  end.

(** The signed shifts are read as two's complement; [b] is an [int32_t]
    expression stored in a [uint32_t]. *)
Definition get_int64 (buf : bytes) : option Z :=
  match buf with
  | t0 :: t1 :: t2 :: t3 :: t4 :: t5 :: t6 :: t7 :: _ =>
      let a := sgn 64 (Z.lor (Z.lor (Z.lor (Z.shiftl t0 56) (Z.shiftl t1 48)) (Z.shiftl t2 40)) (Z.shiftl t3 32)) in
      let b := u32 (sgn 32 (Z.lor (Z.lor (Z.lor (Z.shiftl t4 24) (Z.shiftl t5 16)) (Z.shiftl t6 8)) t7)) in
      Some (sgn 64 (Z.lor a b))
  | _ => None
  end.

(** ** Reference codec: the value of a byte string read in base 256 *)

Fixpoint be_decode (b : bytes) (acc : Z) : Z :=
  match b with [] => acc | x :: b => be_decode b (acc * 256 + x) end.

Fixpoint be_encode (n : nat) (v : Z) : bytes :=
  match n with O => [] | S n => be_encode n (v / 256) ++ [v mod 256] end.

Lemma length_be_encode n v : length (be_encode n v) = n.
Proof. revert v. induction n; intros; simpl; [done |]. rewrite length_app, IHn. simpl. lia. Qed.

Lemma zlen_be_encode n v : zlen (be_encode n v) = Z.of_nat n.
Proof. unfold zlen. by rewrite length_be_encode. Qed.

Lemma be_encode_wf n v : wf_bytes (be_encode n v).
Proof.
  revert v. induction n; intros; simpl; [constructor |].
  apply Forall_app_2; [apply IHn |]. repeat constructor; apply Z.mod_pos_bound; lia.
Qed.

Lemma be_decode_app a b acc : be_decode (a ++ b) acc = be_decode b (be_decode a acc).
Proof. revert acc. induction a; intros; simpl; auto. Qed.

Lemma be_decode_encode n v acc :
  0 <= v < 256 ^ Z.of_nat n -> be_decode (be_encode n v) acc = acc * 256 ^ Z.of_nat n + v.
Proof.
  revert v acc. induction n as [|n IH]; intros v acc Hv.
  - simpl in *. lia.
  - rewrite Nat2Z.inj_succ, Z.pow_succ_r in * by lia.
    simpl. rewrite be_decode_app, IH; simpl.
    + pose proof (Z.div_mod v 256). nia.
    + split; [apply Z.div_pos; lia | apply Z.div_lt_upper_bound; nia].
Qed.

Lemma be_decode_shift b acc : be_decode b acc = acc * 256 ^ zlen b + be_decode b 0.
Proof.
  revert acc. induction b as [|x b IH]; intros; cbn [be_decode].
  - unfold zlen. simpl. lia.
  - rewrite IH, (IH (0 * 256 + x)). rewrite zlen_cons, Z.pow_add_r by (pose proof (zlen_nonneg b); lia). lia.
Qed.

Lemma be_decode_range b : wf_bytes b -> 0 <= be_decode b 0 < 256 ^ zlen b.
Proof.
  induction b as [|x b IH]; intros Hb; cbn [be_decode]; [unfold zlen; simpl; lia |].
  apply Forall_cons_1 in Hb as [Hx Hb]. specialize (IH Hb). rewrite (be_decode_shift b (_ + x)).
  rewrite zlen_cons, Z.pow_add_r by (pose proof (zlen_nonneg b); lia). unfold is_u8 in Hx. nia.
Qed.

Lemma be_encode_decode b :
  wf_bytes b -> be_encode (length b) (be_decode b 0) = b.
Proof.
  induction b as [|x b IH] using rev_ind; intros Hb; [done |].
  apply wf_bytes_app in Hb as [Hb Hx]. apply Forall_cons_1 in Hx as [Hx _]. unfold is_u8 in Hx.
  rewrite length_app, Nat.add_comm. simpl. rewrite be_decode_app. simpl.
  rewrite (Z.add_comm _ x), Z.div_add, Z.div_small, Z.mod_add, Z.mod_small by lia.
  by rewrite Z.add_0_l, IH.
Qed.

Lemma be_encode_decode' n b :
  wf_bytes b -> length b = n -> be_encode n (be_decode b 0) = b.
Proof. intros ? <-. by apply be_encode_decode. Qed.

(** ** The code is the reference codec *)

Lemma shiftr_land255 v n : 0 <= n -> Z.land (Z.shiftr v n) 255 = (v / 2 ^ n) mod 256.
Proof. intros. rewrite land255_mod, Z.shiftr_div_pow2 by lia. done. Qed.

Lemma store_uint16_be buff v : store_uint16 buff v = mem_write buff 0 (be_encode 2 v).
Proof.
  unfold store_uint16. rewrite !shiftr_land255, land255_mod by lia. do 2 f_equal.
Qed.

Lemma store_uint32_be buff v : store_uint32 buff v = mem_write buff 0 (be_encode 4 v).
Proof.
  unfold store_uint32. rewrite !shiftr_land255, land255_mod by lia. cbn [be_encode app].
  rewrite !Z.div_div by lia. done.
Qed.

Lemma store_uint64_be buff v : store_uint64 buff v = mem_write buff 0 (be_encode 8 v).
Proof.
  unfold store_uint64. rewrite !shiftr_land255, land255_mod by lia. cbn [be_encode app].
  rewrite !Z.div_div by lia. done.
Qed.

(** Collects the shifted bytes of a [get_] function into an arithmetic sum. *)
Ltac sum_bytes :=
  repeat match goal with
  | |- context [Z.lor (Z.lor ?x (Z.shiftl ?y ?n)) ?z] =>
      rewrite <- (Z.lor_assoc x (Z.shiftl y n) z)
  end;
  repeat match goal with
  | |- context [Z.lor (Z.shiftl ?a ?n) ?b] =>
      rewrite (lor_shiftl_add a b n) by (rewrite ?Z.shiftl_mul_pow2 by lia; lia)
  end; rewrite ?Z.shiftl_mul_pow2 by lia.

Lemma get_uint16_be b rest : wf_bytes b -> length b = 2%nat -> get_uint16 (b ++ rest) = Some (be_decode b 0).
Proof.
  destruct b as [|t0 [|t1 [|]]]; try done. intros Hwf _.
  repeat (apply Forall_cons_1 in Hwf as [? Hwf]). unfold_width.
  cbn [get_uint16 app be_decode]. f_equal. sum_bytes. unfold_width.
  rewrite Z.mod_small; lia.
Qed.

Lemma get_uint32_be b rest : wf_bytes b -> length b = 4%nat -> get_uint32 (b ++ rest) = Some (be_decode b 0).
Proof.
  destruct b as [|t0 [|t1 [|t2 [|t3 [|]]]]]; try done. intros Hwf _.
  repeat (apply Forall_cons_1 in Hwf as [? Hwf]). unfold_width.
  cbn [get_uint32 app be_decode]. f_equal. sum_bytes. unfold_width.
  rewrite Z.mod_small; lia.
Qed.

Lemma get_uint64_be b rest : wf_bytes b -> length b = 8%nat -> get_uint64 (b ++ rest) = Some (be_decode b 0).
Proof.
  destruct b as [|t0 [|t1 [|t2 [|t3 [|t4 [|t5 [|t6 [|t7 [|]]]]]]]]]; try done. intros Hwf _.
  repeat (apply Forall_cons_1 in Hwf as [? Hwf]). unfold_width.
  cbn [get_uint64 app be_decode]. f_equal. sum_bytes. unfold u32, u64.
  set (A := (t0 * 2 ^ 24 + t1 * 2 ^ 16 + t2 * 2 ^ 8 + t3)).
  set (B := (t4 * 2 ^ 24 + (t5 * 2 ^ 16 + (t6 * 2 ^ 8 + t7)))).
  replace (t0 * 2 ^ 56 + _) with (A * 2 ^ 32) by (unfold A; lia).
  assert (0 <= A < 2 ^ 32) by (unfold A; lia). assert (0 <= B < 2 ^ 32) by (unfold B; lia).
  rewrite (Z.mod_small B), (Z.mod_small (A * _)) by lia.
  rewrite <- Z.shiftl_mul_pow2, lor_shiftl_add by lia.
  rewrite Z.mod_small by lia. unfold A, B. lia.
Qed.

(** [get_int64] is the two's complement reading of the same eight bytes. *)
Lemma sgn_mul a : sgn 64 (a * 2 ^ 32) = sgn 32 a * 2 ^ 32.
Proof.
  unfold sgn.
  change (2 ^ (64 - 1)) with (2 ^ 31 * 2 ^ 32). change (2 ^ 64) with (2 ^ 32 * 2 ^ 32).
  change (2 ^ (32 - 1)) with (2 ^ 31).
  rewrite <- Z.mul_add_distr_r, Z.mul_mod_distr_r by lia. lia.
Qed.

Lemma sgn_range w x : 0 < w -> - 2 ^ (w - 1) <= sgn w x < 2 ^ (w - 1).
Proof.
  intros Hw. unfold sgn.
  assert (2 ^ w = 2 * 2 ^ (w - 1)) by (rewrite <- Z.pow_succ_r by lia; f_equal; lia).
  assert (0 < 2 ^ (w - 1)) by (apply Z.pow_pos_nonneg; lia).
  pose proof (Z.mod_pos_bound (x + 2 ^ (w - 1)) (2 ^ w)). lia.
Qed.

Lemma sgn_small w x : 0 < w -> - 2 ^ (w - 1) <= x < 2 ^ (w - 1) -> sgn w x = x.
Proof.
  intros Hw Hx. unfold sgn.
  assert (2 ^ w = 2 * 2 ^ (w - 1)) by (rewrite <- Z.pow_succ_r by lia; f_equal; lia).
  rewrite Z.mod_small; lia.
Qed.

Lemma u32_sgn32 x : u32 (sgn 32 x) = u32 x.
Proof.
  unfold u32, sgn. rewrite Zminus_mod_idemp_l. f_equal. lia.
Qed.

Lemma get_int64_be b rest :
  wf_bytes b -> length b = 8%nat -> get_int64 (b ++ rest) = Some (sgn 64 (be_decode b 0)).
Proof.
  destruct b as [|t0 [|t1 [|t2 [|t3 [|t4 [|t5 [|t6 [|t7 [|]]]]]]]]]; try done. intros Hwf _.
  repeat (apply Forall_cons_1 in Hwf as [? Hwf]). unfold_width.
  cbn [get_int64 app be_decode]. f_equal. rewrite u32_sgn32. sum_bytes. unfold u32.
  set (A := (t0 * 2 ^ 24 + t1 * 2 ^ 16 + t2 * 2 ^ 8 + t3)).
  set (B := (t4 * 2 ^ 24 + (t5 * 2 ^ 16 + (t6 * 2 ^ 8 + t7)))).
  replace (t0 * 2 ^ 56 + _) with (A * 2 ^ 32) by (unfold A; lia).
  assert (0 <= A < 2 ^ 32) by (unfold A; lia). assert (0 <= B < 2 ^ 32) by (unfold B; lia).
  rewrite (Z.mod_small B) by lia.
  rewrite sgn_mul, <- Z.shiftl_mul_pow2, lor_shiftl_add by lia.
  replace (_ * 256 + t7) with (A * 2 ^ 32 + B) by (unfold A, B; lia).
  pose proof (sgn_range 32 A ltac:(lia)).
  unfold sgn in *. change (64 - 1) with 63 in *. change (32 - 1) with 31 in *.
  pose proof (Z.mod_pos_bound (A + 2 ^ 31) (2 ^ 32) ltac:(lia)).
  destruct (Z.lt_ge_cases A (2 ^ 31)).
  - rewrite (Z.mod_small (A + 2 ^ 31)) by lia. f_equal. f_equal. lia.
  - replace ((A + 2 ^ 31) mod 2 ^ 32) with (A + 2 ^ 31 - 2 ^ 32)
      by (rewrite <- (Z.mod_add _ (-1)), Z.mod_small; lia).
    f_equal. rewrite <- (Z.mod_add _ 1) by lia. f_equal. lia.
Qed.

#[global] Arguments be_encode : simpl never.
#[global] Arguments be_decode : simpl never.

(** ** Round trips *)

Lemma mem_write0 buff d q : mem_write buff 0 d = Some q -> q = d ++ drop (length d) buff.
Proof. by intros (_ & _ & ->)%mem_write_inv. Qed.

Lemma mem_write0_Some buff d :
  zlen d <= zlen buff -> mem_write buff 0 d = Some (d ++ drop (length d) buff).
Proof. intros. by rewrite mem_write_Some by lia. Qed.

Lemma store_uint32_app buff v :
  4 <= zlen buff -> store_uint32 buff v = Some (be_encode 4 v ++ drop 4 buff).
Proof.
  intros. rewrite store_uint32_be, mem_write0_Some; [done |]. done.
Qed.

Lemma store_uint64_app buff v :
  8 <= zlen buff -> store_uint64 buff v = Some (be_encode 8 v ++ drop 8 buff).
Proof. intros. rewrite store_uint64_be, mem_write0_Some; [done |]. done. Qed.

Lemma store_uint16_app buff v :
  2 <= zlen buff -> store_uint16 buff v = Some (be_encode 2 v ++ drop 2 buff).
Proof. intros. rewrite store_uint16_be, mem_write0_Some; [done |]. done. Qed.

Lemma get_uint32_encode v rest : is_u32 v -> get_uint32 (be_encode 4 v ++ rest) = Some v.
Proof.
  intros. rewrite get_uint32_be by auto using be_encode_wf, length_be_encode.
  rewrite be_decode_encode; [done |]. unfold_width. lia.
Qed.

Lemma get_uint64_encode v rest : is_u64 v -> get_uint64 (be_encode 8 v ++ rest) = Some v.
Proof.
  intros. rewrite get_uint64_be by auto using be_encode_wf, length_be_encode.
  rewrite be_decode_encode; [done |]. unfold_width. lia.
Qed.

Lemma get_uint16_encode v rest : is_u16 v -> get_uint16 (be_encode 2 v ++ rest) = Some v.
Proof.
  intros. rewrite get_uint16_be by auto using be_encode_wf, length_be_encode.
  rewrite be_decode_encode; [done |]. unfold_width. lia.
Qed.

Lemma get_uint32_inv buff v :
  wf_bytes buff -> get_uint32 buff = Some v -> is_u32 v /\ 4 <= zlen buff /\ be_encode 4 v = take 4 buff.
Proof.
  intros Hwf Hg. assert (4 <= zlen buff) as Hl.
  { destruct buff as [|? [|? [|? [|? ?]]]]; try done. unfold zlen. simpl. lia. }
  assert (length (take 4 buff) = 4%nat) as Hl4 by (rewrite length_take; unfold zlen in Hl; lia).
  assert (wf_bytes (take 4 buff)) as Hwf4 by by apply Forall_take.
  rewrite <- (take_drop 4 buff), get_uint32_be in Hg by done. injection Hg as <-.
  pose proof (be_decode_range _ Hwf4) as Hr. unfold zlen in Hr. rewrite Hl4 in Hr.
  rewrite be_encode_decode' by done. split; [exact Hr | done].
Qed.

(** storing an unsigned 16, 32 or 64 bit value and reading it back gives the
    value, and the bytes after it are kept; no access is out of bounds when the
    buffer holds 2, 4 or 8 bytes. *)
Theorem uint_store_get_roundtrip (buff : bytes) (v : Z) :
  (is_u16 v -> 2 <= zlen buff ->
     exists b, store_uint16 buff v = Some b /\ get_uint16 b = Some v /\ drop 2 b = drop 2 buff) /\
  (is_u32 v -> 4 <= zlen buff ->
     exists b, store_uint32 buff v = Some b /\ get_uint32 b = Some v /\ drop 4 b = drop 4 buff) /\
  (is_u64 v -> 8 <= zlen buff ->
     exists b, store_uint64 buff v = Some b /\ get_uint64 b = Some v /\ drop 8 b = drop 8 buff).
Proof.
  repeat split; intros Hv Hl; eexists;
    (split; [first [by apply store_uint16_app | by apply store_uint32_app | by apply store_uint64_app] |]);
    (split; [auto using get_uint16_encode, get_uint32_encode, get_uint64_encode | done]).
Qed.

(** every well formed byte string is canonical: reading an unsigned value
    and storing it again leaves the buffer as it was. *)
Theorem uint_get_store_roundtrip (buff : bytes) :
  wf_bytes buff ->
  (4 <= zlen buff -> exists v, get_uint32 buff = Some v /\ is_u32 v /\ store_uint32 buff v = Some buff) /\
  (8 <= zlen buff -> exists v, get_uint64 buff = Some v /\ is_u64 v /\ store_uint64 buff v = Some buff).
Proof.
  intros Hwf. split; intros Hl.
  - assert (length (take 4 buff) = 4%nat) as Hn by (rewrite length_take; unfold zlen in Hl; lia).
    assert (wf_bytes (take 4 buff)) as Hw by by apply Forall_take.
    exists (be_decode (take 4 buff) 0). pose proof (be_decode_range _ Hw) as Hr.
    unfold zlen in Hr. rewrite Hn in Hr. rewrite store_uint32_app by done.
    rewrite be_encode_decode', take_drop by done.
    rewrite <- (take_drop 4 buff) at 1. by rewrite get_uint32_be.
  - assert (length (take 8 buff) = 8%nat) as Hn by (rewrite length_take; unfold zlen in Hl; lia).
    assert (wf_bytes (take 8 buff)) as Hw by by apply Forall_take.
    exists (be_decode (take 8 buff) 0). pose proof (be_decode_range _ Hw) as Hr.
    unfold zlen in Hr. rewrite Hn in Hr. rewrite store_uint64_app by done.
    rewrite be_encode_decode', take_drop by done.
    rewrite <- (take_drop 8 buff) at 1. by rewrite get_uint64_be.
Qed.

(** a signed 64 bit value stored in two's complement by [store_uint64] is
    read back by [get_int64]. *)
Theorem int64_roundtrip (buff : bytes) (v : Z) :
  - 2 ^ 63 <= v < 2 ^ 63 -> 8 <= zlen buff ->
  exists b, store_uint64 buff (u64 v) = Some b /\ get_int64 b = Some v.
Proof.
  intros Hv Hl. eexists. split; [by apply store_uint64_app |].
  rewrite get_int64_be by auto using be_encode_wf, length_be_encode.
  rewrite be_decode_encode by (unfold_width; pose proof (Z.mod_pos_bound v (2 ^ 64)); lia).
  f_equal. unfold u64, sgn. simpl (0 * _). rewrite Z.add_0_l, Zplus_mod_idemp_l, Z.mod_small; lia.
Qed.

Lemma uint_store_get_roundtrip_witness :
  exists b, store_uint32 [0; 0; 0; 0; 9] 3735928559 = Some b /\ get_uint32 b = Some 3735928559 /\ drop 4 b = [9].
Proof.
  apply (proj1 (proj2 (uint_store_get_roundtrip [0; 0; 0; 0; 9] 3735928559))); done.
Defined.

Lemma uint_get_store_roundtrip_witness :
  exists v, get_uint32 [1; 2; 3; 255] = Some v /\ is_u32 v /\ store_uint32 [1; 2; 3; 255] v = Some [1; 2; 3; 255].
Proof.
  apply (proj1 (uint_get_store_roundtrip [1; 2; 3; 255] ltac:(repeat constructor; done))). done.
Defined.

Lemma int64_roundtrip_witness :
  exists b, store_uint64 [0; 0; 0; 0; 0; 0; 0; 0] (u64 (-5)) = Some b /\ get_int64 b = Some (-5).
Proof. apply (int64_roundtrip [0; 0; 0; 0; 0; 0; 0; 0] (-5)); done. Defined.

End SshUint.
