(* ===== verification/SshString.v ===== *)
(** * lib/ssh/ssh-string.c: counted strings

    A [struct ssh_string_s] is a length and a pointer, either into memory it
    does not own, or to memory it allocated (flag ALLOC), or to the flexible
    array [buffer] behind the struct ([size > 0]).  All operations of the file
    are modelled; [malloc] is a parameter that may fail. *)

From stdpp Require Import base list list_numbers numbers option.
From S2P Require Import Prelude SshUint.
Import SshUint.

Module SshString.

Definition SSH_STRING_FLAG_HEADER := 1.
Definition SSH_STRING_FLAG_DATA := 2.
Definition SSH_STRING_FLAG_ALLOC := 4.
Definition SSH_STRING_FLAG_COPY := 8.

(** [ptr]: NULL, the own flexible array, or other memory. *)
Inductive sptr := PNull | PInside | PMem (b : bytes).

Record ssh_string := mk_ssh_string {
  s_flags : Z;
  s_len : Z;
  s_size : Z;
  s_ptr : sptr;
  s_buffer : bytes
}.

(** The memory behind [s->ptr]. *)
Definition s_view (s : ssh_string) : option bytes :=
  match s_ptr s with
  | PNull => None
  | PInside => Some (s_buffer s)
  | PMem b => Some b
  end.

(** The [len] bytes of the string. *)
Definition s_data (s : ssh_string) : option bytes :=
  let? v := s_view s in mem_read v 0 (s_len s).

Definition set_flags f s := mk_ssh_string f (s_len s) (s_size s) (s_ptr s) (s_buffer s).
Definition set_len n s := mk_ssh_string (s_flags s) n (s_size s) (s_ptr s) (s_buffer s).
Definition set_ptr p s := mk_ssh_string (s_flags s) (s_len s) (s_size s) p (s_buffer s).
Definition set_buffer b s := mk_ssh_string (s_flags s) (s_len s) (s_size s) (s_ptr s) b.

Definition SSH_STRING_INIT : ssh_string := mk_ssh_string 0 0 0 PNull [].

(** [init_ssh_string]: the pointer may be NULL. *)
Definition init_ssh_string (s : option ssh_string) : option ssh_string :=
  option_map (fun s => mk_ssh_string 0 0 0 PNull (s_buffer s)) s.

(** The typed [void *ptr] argument of [set_], [compare_] and [write_ssh_string]:
    the type letter and what it points to. *)
Inductive sarg :=
| ArgC (p : bytes)                (* 'c': NUL terminated string *)
| ArgS (s : ssh_string)           (* 's' *)
| ArgL (p : option Z)             (* 'l': pointer to unsigned int, or NULL *)
| ArgOther.                       (* any other letter *)

(** [set_ssh_string (s, type, ptr)]; [None] for a NULL [ptr]. *)
Definition set_ssh_string (s : ssh_string) (a : option sarg) : option ssh_string :=
  if 0 <? s_size s then Some s else
  match a with
  | Some (ArgC p) => let? n := strlen p in Some (set_ptr (PMem p) (set_len (u32 n) s))
  | Some (ArgS t) =>
      Some (set_ptr (match s_view t with Some v => PMem v | None => PNull end) (set_len (s_len t) s))
  | Some _ => Some s
  | None => init_ssh_string (Some s)
  end.

Definition clear_ssh_string (s : ssh_string) : option ssh_string :=
  if s_size s =? 0 then
    let s := if has (s_flags s) SSH_STRING_FLAG_ALLOC
             then set_flags (Z.ldiff (s_flags s) SSH_STRING_FLAG_ALLOC) s else s in
    Some (set_ptr PNull s)
  else
    let? b := mem_write (s_buffer s) 0 (repeat 0 (Z.to_nat (s_size s))) in
    Some (set_buffer b s).

(** [free_ssh_string (p_s)]: the content of [*p_s] afterwards. *)
Definition free_ssh_string (p_s : option ssh_string) : option (option ssh_string) :=
  match p_s with
  | None => Some None
  | Some s =>
      let? s := clear_ssh_string s in
      if 0 <? s_size s then Some None else Some (Some s)
  end.

Definition ssh_string_isempty (s : option ssh_string) : Z :=
  match s with
  | Some s => match s_ptr s with PNull => 1 | _ => if 0 <? s_len s then 0 else 1 end
  | None => 0
  end.

Definition compare_ssh_string (t : ssh_string) (a : sarg) : option Z :=
  match a with
  | ArgS s =>
      if s_len s =? s_len t then
        let? x := s_data s in let? y := s_data t in
        Some (if bytes_eqb x y then 0 else -1)
      else Some (-1)
  | ArgC p =>
      let? len := strlen p in
      if u32 len =? s_len t then
        let? x := mem_read p 0 (s_len t) in let? y := s_data t in
        Some (if bytes_eqb x y then 0 else -1)
      else Some (-1)
  | _ => Some (-1)
  end.

Definition get_ssh_string_length (s : ssh_string) (flags : Z) : Z :=
  let len := if has flags SSH_STRING_FLAG_HEADER then 4 else 0 in
  if has flags SSH_STRING_FLAG_DATA then u32 (len + s_len s) else len.

(** ** Reading and writing *)

(** The [unsigned int *len] out-parameter is returned beside the result. *)
Definition read_ssh_string_header (buffer : bytes) (size : Z) : option (Z * option Z) :=
  if 4 <=? size then let? n := get_uint32 buffer in Some (4, Some n) else Some (0, None).

Definition write_ssh_string_header (buffer : bytes) (size len : Z) : option (Z * bytes) :=
  if u32 (4 + len) <=? size then let? b := store_uint32 buffer len in Some (4, b) else Some (0, buffer).

Definition read_ssh_string (buffer : bytes) (size : Z) (s : option ssh_string) : option (Z * ssh_string) :=
  let s := default SSH_STRING_INIT s in
  if s_size s =? 0 then
    let s := set_ptr PNull (set_len 0 s) in
    if 4 <=? size then
      let? n := get_uint32 buffer in
      let s := set_len n s in
      if u32 (4 + s_len s) <=? size
      then Some (u32 (4 + s_len s), set_ptr (PMem (drop 4 buffer)) s)
      else Some (0, s)
    else Some (0, s)
  else Some (0, s).

Definition copy_ssh_string_hlpr (buffer : option bytes) (data : option bytes) (len : Z) : option (Z * option bytes) :=
  match buffer with
  | Some b =>
      let? b := store_uint32 b len in
      match data with
      | Some d =>
          let? d := mem_read d 0 len in
          let? b := mem_write b 4 d in Some (u32 (4 + len), Some b)
      | None => Some (u32 (4 + len), Some b)
      end
  | None => Some (u32 (4 + len), None)
  end.

(** The result and the buffer after the call ([None]: NULL was passed). *)
Definition write_ssh_string (buffer : option bytes) (a : sarg) : option (Z * option bytes) :=
  match a with
  | ArgS s => copy_ssh_string_hlpr buffer (s_view s) (s_len s)
  | ArgC p => let? len := strlen p in copy_ssh_string_hlpr buffer (Some p) (u32 len)
  | ArgL p =>
      let len := default 0 p in
      match buffer with
      | Some b => let? b := store_uint32 b len in Some (4, Some b)
      | None => Some (4, None)
      end
  | ArgOther => Some (0, buffer)
  end.

(** [move_ssh_string (a, b, flags)]: both strings afterwards. *)
Definition move_ssh_string (a b : ssh_string) (flags : Z) : ssh_string * ssh_string :=
  if (s_size a =? 0) && (s_size b =? 0) then
    let p := match s_view b with Some v => PMem v | None => PNull end in
    let a := set_flags (s_flags b) (set_len (s_len b) (set_ptr p a)) in
    if has flags SSH_STRING_FLAG_COPY then (a, b)
    else (a, default b (init_ssh_string (Some b)))
  else (a, b).

(** The loop of [buffer_count_strings] between [readstring] and [out]. *)
Fixpoint count_strings_loop (fuel : nat) (buffer : bytes) (size max pos count : Z) : outcome Z :=
  match fuel with
  | O => NoFuel
  | S fuel =>
      match get_uint32 (drop (Z.to_nat pos) buffer) with
      | None => Ub
      | Some len =>
          if u32 (u32 (pos + 4) + len) <=? size then
            let pos := u32 (pos + u32 (4 + len)) in
            let count := u32 (count + 1) in
            if (0 <? max) && (count =? max) then Ret count
            else if pos <? size then count_strings_loop fuel buffer size max pos count
            else Ret count
          else Ret count
      end
  end.

Definition buffer_count_strings (fuel : nat) (buffer : bytes) (size max : Z) : outcome Z :=
  count_strings_loop fuel buffer size max 0 0.

(** ** Allocation *)

Section Allocation.
(** [malloc n]: [n] bytes of unspecified content, or NULL.  [malloc_string len]:
    a [struct ssh_string_s] with a flexible array of [len] bytes. *)
Context (malloc malloc_string : Z -> option bytes).

(** [realloc] of a string's struct: the flexible array keeps its content up to
    the new size. *)
Definition realloc_buffer (old : bytes) (len : Z) : option bytes :=
  option_map (fun fresh => take (Z.to_nat len) old ++ drop (length old) fresh) (malloc_string len).

Definition realloc_bytes (old : bytes) (len : Z) : option bytes :=
  option_map (fun fresh => take (Z.to_nat len) old ++ drop (length old) fresh) (malloc len).

(** [memcpy (dst, data, len)] with a possibly NULL source. *)
Definition memcpy (dst : bytes) (data : option bytes) (len : Z) : option bytes :=
  let? v := data in let? d := mem_read v 0 len in mem_write dst 0 d.

(** [if (data) memcpy (dst, data, len)]. *)
Definition memcpy_opt (dst : bytes) (data : option bytes) (len : Z) : option bytes :=
  match data with Some _ => memcpy dst data len | None => Some dst end.

Definition ptr_of (v : option bytes) : sptr :=
  match v with Some b => PMem b | None => PNull end.

(** The result is the returned pointer and the content of [*p_s]; [p_s = None]
    is a NULL [p_s], [Some None] a [p_s] with [*p_s == NULL]. *)
Definition create_ssh_string (p_s : option (option ssh_string)) (len : Z) (data : option bytes) (flags : Z)
  : option (option ssh_string * option ssh_string) :=
  match p_s with
  | None => None  (* the new string is stored through the NULL p_s *)
  | Some None =>
      match malloc_string len with
      | Some b =>
          let? b := (if (0 <? len) then memcpy_opt b data len else Some b) in
          let s := mk_ssh_string 0 len len PInside b in Some (Some s, Some s)
      | None => Some (None, None)
      end
  | Some (Some s) =>
      if s_size s =? 0 then
        if has flags SSH_STRING_FLAG_ALLOC then
          match malloc len with
          | Some b =>
              let? b := memcpy_opt b data len in
              let s := mk_ssh_string (Z.lor (s_flags s) SSH_STRING_FLAG_ALLOC) len (s_size s) (PMem b) (s_buffer s) in
              Some (Some s, Some s)
          | None => Some (None, Some (set_ptr PNull s))
          end
        else
          let s := if has (s_flags s) SSH_STRING_FLAG_ALLOC
                   then set_flags (u8 (s_flags s - SSH_STRING_FLAG_ALLOC)) s else s in
          let s := set_len len (set_ptr (ptr_of data) s) in
          Some (Some s, Some s)
      else
        if len =? s_len s then
          let? b := memcpy (s_buffer s) data len in
          let s := set_buffer b s in Some (Some s, Some s)
        else
          match realloc_buffer (s_buffer s) len with
          | Some b =>
              let? b := memcpy_opt b data len in
              let s := mk_ssh_string (s_flags s) len len PInside b in Some (Some s, Some s)
          | None => Some (None, None)
          end
  end.

(** [create_copy_ssh_string (p_t, s)] for a non NULL [p_t]: the result and the
    content of [*p_t]. *)
Definition create_copy_ssh_string (t : option ssh_string) (s : option ssh_string)
  : option (Z * option ssh_string) :=
  match s with
  | None => Some (-1, t)
  | Some s =>
      match t with
      | None =>
          if s_size s =? 0 then
            if has (s_flags s) SSH_STRING_FLAG_ALLOC then
              match malloc_string 0, malloc (s_len s) with
              | Some _, Some data =>
                  let? data := memcpy data (s_view s) (s_len s) in
                  Some (0, Some (mk_ssh_string (s_flags s) (s_len s) 0 (PMem data) []))
              | _, _ => Some (-1, None)
              end
            else
              match malloc_string 0 with
              | Some _ => Some (0, Some (mk_ssh_string (s_flags s) (s_len s) 0 (ptr_of (s_view s)) []))
              | None => Some (-1, None)
              end
          else
            match malloc_string (s_size s) with
            | Some b =>
                let? b := memcpy b (Some (s_buffer s)) (s_len s) in
                Some (0, Some (mk_ssh_string (s_flags s) (s_len s) (s_size s) PInside b))
            | None => Some (-1, None)
            end
      | Some t =>
          if s_size s =? 0 then
            if 0 <? s_size t then
              if s_len t =? s_len s then
                let? b := memcpy (s_buffer t) (s_view s) (s_len s) in Some (0, Some (set_buffer b t))
              else
                match realloc_buffer (s_buffer t) (s_len s) with
                | Some b =>
                    let? b := memcpy b (s_view s) (s_len s) in
                    Some (0, Some (mk_ssh_string (s_flags t) (s_len s) (s_len s) PInside b))
                | None => Some (-1, None)
                end
            else
              if s_len t =? s_len s then
                let? v := s_view t in
                let? v := memcpy v (s_view s) (s_len s) in Some (0, Some (set_ptr (PMem v) t))
              else
                match realloc_bytes (default [] (s_view t)) (s_len s) with
                | Some v =>
                    let? v := memcpy v (s_view s) (s_len s) in
                    Some (0, Some (set_ptr (PMem v) (set_len (s_len s) t)))
                | None => Some (-1, Some (set_ptr PNull t))
                end
          else
            if 0 <? s_size t then
              if s_size t =? s_size s then
                let? b := memcpy (s_buffer t) (Some (s_buffer s)) (s_len s) in
                Some (0, Some (set_buffer b (set_flags (s_flags s) t)))
              else
                match realloc_buffer (s_buffer t) (s_len s) with
                | Some b =>
                    let? b := memcpy b (Some (s_buffer s)) (s_len s) in
                    Some (0, Some (mk_ssh_string (s_flags s) (s_len s) (s_len s) PInside b))
                | None => Some (-1, None)
                end
            else
              if s_len s =? s_len t then
                let? v := s_view t in
                let? v := memcpy v (Some (s_buffer s)) (s_len s) in Some (0, Some (set_ptr (PMem v) t))
              else
                match realloc_bytes (default [] (s_view t)) (s_len s) with
                | Some v =>
                    let? v := memcpy v (Some (s_buffer s)) (s_len s) in
                    Some (0, Some (set_ptr (PMem v) (set_len (s_len s) t)))
                | None => Some (-1, Some (set_ptr PNull t))
                end
      end
  end.

End Allocation.

(** ** Well formed strings *)

(** The representation invariant: a string with [size > 0] is its own flexible
    array, filled completely; without, it points to at least [len] bytes, and
    an empty pointer means an empty string. *)
Definition s_ok (s : ssh_string) : Prop :=
  is_u32 (s_len s) /\ is_u32 (s_size s) /\
  (0 < s_size s -> s_ptr s = PInside /\ zlen (s_buffer s) = s_size s /\ s_len s = s_size s) /\
  (s_size s = 0 -> match s_ptr s with PMem b => s_len s <= zlen b | _ => s_len s = 0 end).

Lemma s_ok_view s : s_ok s -> 0 < s_len s -> exists v, s_view s = Some v /\ s_len s <= zlen v.
Proof.
  intros ([? ?] & [? ?] & Hin & Hout) Hl. unfold s_view.
  destruct (Z.eq_dec (s_size s) 0) as [E|E].
  - specialize (Hout E). destruct (s_ptr s); [lia | lia | eauto].
  - destruct Hin as (-> & ? & ?); [lia |]. eexists. split; [done | lia].
Qed.

Lemma s_data_view s v : s_view s = Some v -> 0 <= s_len s <= zlen v -> s_data s = Some (take (Z.to_nat (s_len s)) v).
Proof. intros Hv Hl. unfold s_data. rewrite Hv. simpl. by rewrite mem_read_Some by lia. Qed.

Lemma s_ok_data s : s_ok s -> 0 < s_len s -> exists d, s_data s = Some d /\ zlen d = s_len s.
Proof.
  intros Hs Hl. destruct (s_ok_view s Hs Hl) as (v & Hv & ?).
  exists (take (Z.to_nat (s_len s)) v). split; [by apply s_data_view; [| lia] |]. by rewrite zlen_take by lia.
Qed.

Lemma s_data_inv s d :
  s_data s = Some d ->
  exists v, s_view s = Some v /\ 0 <= s_len s <= zlen v /\ d = take (Z.to_nat (s_len s)) v /\ zlen d = s_len s.
Proof.
  unfold s_data. destruct (s_view s) as [v|]; simpl; [| done].
  intros (_ & ? & ? & Hd & ?)%mem_read_inv. rewrite drop_0 in Hd. exists v. repeat split; try done; lia.
Qed.

(** ** Reading and writing: the functional behaviour *)

Lemma read_ssh_string_spec buffer size s n :
  s_size s = 0 -> get_uint32 buffer = Some n -> 4 <= size ->
  read_ssh_string buffer size (Some s) =
    if u32 (4 + n) <=? size
    then Some (u32 (4 + n), mk_ssh_string (s_flags s) n 0 (PMem (drop 4 buffer)) (s_buffer s))
    else Some (0, mk_ssh_string (s_flags s) n 0 PNull (s_buffer s)).
Proof.
  intros Hs Hn Hl. unfold read_ssh_string. simpl.
  rewrite Hs, Hn. simpl. destruct (Z.leb_spec 4 size); [| lia].
  unfold set_ptr, set_len. simpl. rewrite Hs. done.
Qed.

Lemma copy_hlpr_spec b d v len :
  0 <= len <= zlen v -> is_u32 (4 + len) -> 4 + len <= zlen b -> d = take (Z.to_nat len) v ->
  copy_ssh_string_hlpr (Some b) (Some v) len
    = Some (4 + len, Some (be_encode 4 len ++ d ++ drop (Z.to_nat (4 + len)) b)).
Proof.
  intros Hl Hw Hb ->. unfold copy_ssh_string_hlpr. rewrite store_uint32_app by lia. opt.
  rewrite mem_read_Some by lia. rewrite drop_0. opt.
  assert (length (take (Z.to_nat len) v) = Z.to_nat len) as Hlen
    by (rewrite length_take; unfold zlen in *; lia).
  rewrite mem_write_Some by (autorewrite with zlen; unfold zlen in *; rewrite ?length_be_encode, ?Hlen, ?length_drop; lia).
  opt. rewrite u32_id by done. do 3 f_equal.
  rewrite take_app_length' by (by rewrite length_be_encode).
  do 2 f_equal. rewrite drop_app_ge by (rewrite length_be_encode; lia).
  rewrite length_be_encode, drop_drop, Hlen. f_equal. lia.
Qed.

Lemma write_ssh_string_s s d b :
  s_data s = Some d -> is_u32 (4 + s_len s) -> 4 + s_len s <= zlen b ->
  write_ssh_string (Some b) (ArgS s)
    = Some (4 + s_len s, Some (be_encode 4 (s_len s) ++ d ++ drop (Z.to_nat (4 + s_len s)) b)).
Proof.
  intros (v & Hv & Hl & -> & _)%s_data_inv Hw Hb. simpl. rewrite Hv.
  by apply copy_hlpr_spec.
Qed.

(** A string on the wire: the length, then the data. *)
Definition encode_string (d : bytes) : bytes := be_encode 4 (zlen d) ++ d.

Lemma zlen_encode_string d : zlen (encode_string d) = 4 + zlen d.
Proof. unfold encode_string. rewrite zlen_app. unfold zlen. rewrite length_be_encode. lia. Qed.

Lemma read_encode_string d rest size s :
  s_size s = 0 -> is_u32 (4 + zlen d) -> 4 + zlen d <= size ->
  read_ssh_string (encode_string d ++ rest) size (Some s)
    = Some (4 + zlen d, mk_ssh_string (s_flags s) (zlen d) 0 (PMem (d ++ rest)) (s_buffer s)).
Proof.
  intros Hs Hw Hl. pose proof (zlen_nonneg d). unfold encode_string. rewrite <- app_assoc.
  rewrite (read_ssh_string_spec _ _ _ (zlen d)); [| done | | lia].
  - rewrite u32_id by done. destruct (Z.leb_spec (4 + zlen d) size); [| lia].
    by rewrite drop_app_length' by (by rewrite length_be_encode).
  - apply get_uint32_encode. unfold_width. lia.
Qed.

(** a string written with [write_ssh_string] is read back by
    [read_ssh_string] with the same length and bytes; both return the number of
    bytes used, 4 more than the length, and nothing behind them changes. *)
Theorem ssh_string_write_read (s : ssh_string) (d b : bytes) (size : Z) :
  s_data s = Some d -> is_u32 (4 + s_len s) -> 4 + s_len s <= size <= zlen b ->
  exists b', write_ssh_string (Some b) (ArgS s) = Some (4 + s_len s, Some b') /\
    zlen b' = zlen b /\ drop (Z.to_nat (4 + s_len s)) b' = drop (Z.to_nat (4 + s_len s)) b /\
    exists t, read_ssh_string b' size None = Some (4 + s_len s, t) /\
      s_len t = s_len s /\ s_data t = Some d.
Proof.
  intros Hd Hw Hsz. pose proof (s_data_inv _ _ Hd) as (v & Hv & Hl & Hdv & Hzd).
  eexists. split; [apply write_ssh_string_s; [done | done | lia] |].
  rewrite app_assoc. rewrite <- Hzd. fold (encode_string d).
  assert (length (encode_string d) = Z.to_nat (4 + zlen d)) as Hle
    by (pose proof (zlen_encode_string d); unfold zlen in *; lia).
  split; [rewrite zlen_app, zlen_encode_string, zlen_drop; lia |].
  split; [by rewrite drop_app_length' by done |].
  exists (mk_ssh_string 0 (zlen d) 0 (PMem (d ++ drop (Z.to_nat (4 + zlen d)) b)) []).
  split; [apply (read_encode_string _ _ _ SSH_STRING_INIT); [done | by rewrite Hzd | lia] |].
  split; [done |]. erewrite s_data_view; [| done | simpl; rewrite zlen_app, zlen_drop; lia].
  simpl. rewrite take_app_length'; [done |]. unfold zlen. lia.
Qed.

(** [read_ssh_string] on a message of [size] bytes whose length field does
    not wrap the 32 bit sum [4 + len]: it returns 0 when the string does not
    fit, and otherwise the bytes used, with a string that lies inside the
    message. *)
Theorem read_ssh_string_bounds (buffer : bytes) (size n : Z) :
  wf_bytes buffer -> is_u32 size -> size <= zlen buffer ->
  get_uint32 buffer = Some n -> is_u32 (4 + n) ->
  exists r t, read_ssh_string buffer size None = Some (r, t) /\
    (r = 0 /\ s_ptr t = PNull /\ (size < 4 + n) \/
     r = 4 + n /\ s_len t = n /\ r <= size /\ s_data t = Some (take (Z.to_nat n) (drop 4 buffer))).
Proof.
  intros Hwf Hsz Hb Hn Hw. destruct (get_uint32_inv _ _ Hwf Hn) as ([? ?] & ? & _).
  change None with (@None ssh_string).
  destruct (Z.leb_spec 4 size) as [H4|H4].
  - change (read_ssh_string buffer size None) with (read_ssh_string buffer size (Some SSH_STRING_INIT)).
    rewrite (read_ssh_string_spec _ _ _ n) by done. rewrite u32_id by done.
    destruct (Z.leb_spec (4 + n) size); do 2 eexists; (split; [done |]); [right | left].
    + repeat split; try done. erewrite s_data_view; [done | done |]. simpl.
      change 4%nat with (Z.to_nat 4). rewrite zlen_drop; lia.
    + repeat split; done.
  - unfold read_ssh_string. simpl. destruct (Z.leb_spec 4 size); [lia |].
    do 2 eexists. split; [done |]. left. repeat split. lia.
Qed.

(** without the no-wrap condition the bound of [read_ssh_string] fails: for a
    length field of [2^32 - 1] the sum [4 + len] wraps to 3, and a 4 byte
    message yields a string that claims 4294967295 bytes. *)
Theorem read_ssh_string_wraps :
  exists t, read_ssh_string [255; 255; 255; 255] 4 None = Some (3, t) /\
    s_len t = 2 ^ 32 - 1 /\ s_ptr t = PMem [] /\ s_data t = None.
Proof. eexists. vm_compute. done. Qed.

Lemma ssh_string_write_read_witness :
  exists b', write_ssh_string (Some [9;9;9;9;9;9;9;9]) (ArgS (mk_ssh_string 0 3 0 (PMem [97;98;99]) []))
      = Some (7, Some b') /\
    zlen b' = 8 /\ drop 7 b' = [9] /\
    exists t, read_ssh_string b' 8 None = Some (7, t) /\ s_len t = 3 /\ s_data t = Some [97;98;99].
Proof.
  apply (ssh_string_write_read (mk_ssh_string 0 3 0 (PMem [97;98;99]) []) [97;98;99] [9;9;9;9;9;9;9;9] 8);
    vm_compute; done.
Defined.

Lemma read_ssh_string_bounds_witness :
  exists r t, read_ssh_string [0;0;0;1;65] 5 None = Some (r, t) /\
    (r = 0 /\ s_ptr t = PNull /\ (5 < 4 + 1) \/
     r = 4 + 1 /\ s_len t = 1 /\ r <= 5 /\ s_data t = Some (take (Z.to_nat 1) (drop 4 [0;0;0;1;65]))).
Proof.
  apply (read_ssh_string_bounds [0;0;0;1;65] 5 1); [repeat constructor; done | done | done | done | done].
Defined.

(** ** Comparison *)

(** [compare_ssh_string] returns 0 exactly when the other operand, an ssh
    string or a C string, has the same bytes, and -1 otherwise. *)
Theorem compare_ssh_string_correct (t : ssh_string) (x : bytes) :
  s_data t = Some x ->
  (forall s y, s_data s = Some y ->
     compare_ssh_string t (ArgS s) = Some (if bytes_eqb y x then 0 else -1)) /\
  (forall cs rest, no_nul cs -> is_u32 (zlen cs) ->
     compare_ssh_string t (ArgC (cs ++ 0 :: rest)) = Some (if bytes_eqb cs x then 0 else -1)).
Proof.
  intros Ht. destruct (s_data_inv _ _ Ht) as (v & Hv & Hl & Hx & Hzx). split.
  - intros s y Hs. destruct (s_data_inv _ _ Hs) as (w & _ & _ & _ & Hzy).
    simpl. destruct (Z.eqb_spec (s_len s) (s_len t)).
    + rewrite Hs, Ht. done.
    + unfold bytes_eqb. rewrite bool_decide_eq_false_2; [done |]. intros ->. lia.
  - intros cs rest Hn Hw. simpl. rewrite strlen_app by done. opt. rewrite u32_id by done.
    destruct (Z.eqb_spec (zlen cs) (s_len t)) as [E|E].
    + rewrite mem_read_Some by (autorewrite with zlen; pose proof (zlen_nonneg rest); lia).
      opt. rewrite Ht. opt. rewrite drop_0, take_app_length'; [done |]. unfold zlen in E. lia.
    + unfold bytes_eqb. rewrite bool_decide_eq_false_2; [done |]. intros ->. lia.
Qed.

Lemma compare_ssh_string_correct_witness :
  compare_ssh_string (mk_ssh_string 0 3 0 (PMem [115;115;104;7]) []) (ArgC [115;115;104;0]) = Some 0.
Proof.
  apply (proj2 (compare_ssh_string_correct (mk_ssh_string 0 3 0 (PMem [115;115;104;7]) []) [115;115;104] eq_refl)
    [115;115;104] []); [repeat constructor; done | done].
Defined.

(** ** Creation and copy *)

Lemma memcpy_ok dst v len :
  0 <= len <= zlen v -> len <= zlen dst ->
  exists b, memcpy dst (Some v) len = Some b /\ zlen b = zlen dst /\
    take (Z.to_nat len) b = take (Z.to_nat len) v.
Proof.
  intros Hv Hd. unfold memcpy. opt. rewrite mem_read_Some by lia. opt. rewrite drop_0.
  rewrite mem_write_Some by (rewrite ?zlen_take; lia).
  eexists. split; [done |]. simpl.
  assert (length (take (Z.to_nat len) v) = Z.to_nat len) as Hlen
    by (rewrite length_take; unfold zlen in *; lia).
  rewrite Hlen. split.
  - rewrite zlen_app, zlen_take, zlen_drop; lia.
  - by rewrite take_app_length' by done.
Qed.

Section AllocationProofs.
Context (malloc malloc_string : Z -> option bytes).
Hypothesis malloc_len : forall n b, malloc n = Some b -> zlen b = n.
Hypothesis malloc_string_len : forall n b, malloc_string n = Some b -> zlen b = n.

Lemma realloc_buffer_len old n b : 0 <= n -> realloc_buffer malloc_string old n = Some b -> zlen b = n.
Proof.
  unfold realloc_buffer. intros Hn. destruct (malloc_string n) as [f|] eqn:E; [| done].
  intros [= <-]. apply malloc_string_len in E. unfold zlen in *.
  rewrite length_app, length_take, length_drop. lia.
Qed.

Lemma realloc_bytes_len old n b : 0 <= n -> realloc_bytes malloc old n = Some b -> zlen b = n.
Proof.
  unfold realloc_bytes. intros Hn. destruct (malloc n) as [f|] eqn:E; [| done].
  intros [= <-]. apply malloc_len in E. unfold zlen in *.
  rewrite length_app, length_take, length_drop. lia.
Qed.

(** A well formed string of [n] bytes with content [d]. *)
Definition holds (s : ssh_string) (n : Z) (d : bytes) : Prop :=
  s_ok s /\ s_len s = n /\ s_data s = Some d.

Lemma holds_inside fl n b v :
  0 < n -> is_u32 n -> zlen b = n -> take (Z.to_nat n) b = take (Z.to_nat n) v ->
  holds (mk_ssh_string fl n n PInside b) n (take (Z.to_nat n) v).
Proof.
  intros Hn [? ?] Hb Ht. split; [| split; [done |]].
  - repeat split; simpl; try done; lia.
  - erewrite s_data_view; [| done | simpl; lia]. by rewrite <- Ht.
Qed.

Lemma holds_outside fl n b v buf :
  is_u32 n -> n <= zlen b -> take (Z.to_nat n) b = take (Z.to_nat n) v ->
  holds (mk_ssh_string fl n 0 (PMem b) buf) n (take (Z.to_nat n) v).
Proof.
  intros [? ?] Hb Ht. split; [| split; [done |]].
  - repeat split; simpl; try done; lia.
  - erewrite s_data_view; [| done | simpl; lia]. by rewrite <- Ht.
Qed.

(** Runs the [memcpy] of the goal and closes with the representation lemmas. *)
Ltac copied v n :=
  unfold memcpy_opt;
  match goal with
  | |- context [memcpy ?b (Some v) n] =>
      let b' := fresh "b" in let E := fresh "E" in
      destruct (memcpy_ok b v n) as (b' & E & ? & ?); [lia | lia |]; rewrite E; opt
  end.

Ltac held v :=
  first [apply (holds_inside _ _ _ v) | apply (holds_outside _ _ _ v)]; first [done | lia].

(** [create_ssh_string] on a new or a well formed string, with [len > 0] and
    [len] bytes of data, has no undefined behaviour; unless the allocator fails
    (the result is then NULL) the string is well formed and holds the data. *)
Theorem create_ssh_string_correct (o : option ssh_string) (len flags : Z) (v : bytes) :
  match o with Some s => s_ok s | None => True end ->
  is_u32 len -> 0 < len <= zlen v ->
  exists r o', create_ssh_string malloc malloc_string (Some o) len (Some v) flags = Some (r, o') /\
    match r with
    | Some s => o' = Some s /\ holds s len (take (Z.to_nat len) v)
    | None => True
    end.
Proof.
  intros Ho Hw Hl. unfold create_ssh_string.
  destruct o as [s|].
  - destruct Ho as (Hlen & [? ?] & Hin & _). destruct (Z.eqb_spec (s_size s) 0) as [E|E].
    + destruct (has flags SSH_STRING_FLAG_ALLOC).
      * destruct (malloc len) as [b|] eqn:Em; [| by do 2 eexists]. apply malloc_len in Em.
        copied v len. do 2 eexists. split; [done |]. split; [done |]. rewrite E. held v.
      * do 2 eexists. split; [done |]. split; [done |]. unfold set_len, set_ptr, set_flags.
        destruct (has (s_flags s) SSH_STRING_FLAG_ALLOC); simpl; rewrite E; held v.
    + destruct Hin as (Hp & Hb & Hls); [lia |]. destruct (Z.eqb_spec len (s_len s)) as [El|El].
      * copied v len. do 2 eexists. split; [done |]. split; [done |].
        unfold set_buffer. rewrite <- Hls, <- El, Hp. held v.
      * destruct (realloc_buffer malloc_string (s_buffer s) len) as [b|] eqn:Er; [| by do 2 eexists].
        apply realloc_buffer_len in Er; [| lia]. copied v len.
        do 2 eexists. split; [done |]. split; [done |]. held v.
  - destruct (malloc_string len) as [b|] eqn:Em; [| by do 2 eexists]. apply malloc_string_len in Em.
    destruct (Z.ltb_spec 0 len); [| lia]. copied v len.
    do 2 eexists. split; [done |]. split; [done |]. held v.
Qed.

(** The view of a well formed source string: inside strings are read through
    [buffer], the others through [ptr]. *)
Lemma s_ok_source s :
  s_ok s -> 0 < s_len s ->
  exists v, s_view s = Some v /\ s_len s <= zlen v /\
    (s_size s <> 0 -> v = s_buffer s /\ s_size s = s_len s).
Proof.
  intros Hs Hl. destruct (s_ok_view s Hs Hl) as (v & Hv & ?). exists v. split; [done |]. split; [done |].
  intros E. destruct Hs as (_ & [? ?] & Hin & _). destruct Hin as (Hp & ? & ?); [lia |].
  unfold s_view in Hv. rewrite Hp in Hv. by injection Hv as <-.
Qed.

(** What a call of [create_copy_ssh_string] with source [s] may give. *)
Definition copy_result (s : ssh_string) (x : option (Z * option ssh_string)) : Prop :=
  exists r o, x = Some (r, o) /\
    (r = -1 \/ r = 0 /\ exists t d, o = Some t /\ s_data s = Some d /\ holds t (s_len s) d).

Lemma copy_result_done s v t :
  s_view s = Some v -> 0 <= s_len s <= zlen v ->
  holds t (s_len s) (take (Z.to_nat (s_len s)) v) -> copy_result s (Some (0, Some t)).
Proof.
  intros Hv Hl Ht. do 2 eexists. split; [done |]. right. split; [done |].
  exists t, (take (Z.to_nat (s_len s)) v). by rewrite (s_data_view s v).
Qed.

Lemma copy_result_fail s x : copy_result s (Some (-1, x)).
Proof. do 2 eexists. split; [done |]. by left. Qed.

Lemma copy_new s :
  s_ok s -> 0 < s_len s -> copy_result s (create_copy_ssh_string malloc malloc_string None (Some s)).
Proof.
  intros Hs Hl. destruct (s_ok_source s Hs Hl) as (v & Hv & Hlv & Hsrc).
  pose proof Hs as (Hw & _). unfold create_copy_ssh_string. rewrite Hv. simpl ptr_of.
  destruct (Z.eqb_spec (s_size s) 0) as [E|E].
  - destruct (has (s_flags s) SSH_STRING_FLAG_ALLOC).
    + destruct (malloc_string 0); [| apply copy_result_fail].
      destruct (malloc (s_len s)) eqn:Em; [| apply copy_result_fail].
      apply malloc_len in Em. copied v (s_len s). eapply copy_result_done; [done | lia | held v].
    + destruct (malloc_string 0); [| apply copy_result_fail].
      eapply copy_result_done; [done | lia | held v].
  - destruct (Hsrc E) as [<- Es]. destruct (malloc_string (s_size s)) eqn:Em; [| apply copy_result_fail].
    apply malloc_string_len in Em. copied v (s_len s).
    eapply copy_result_done; [done | lia | rewrite Es; held v].
Qed.

Lemma copy_existing t s :
  s_ok t -> s_ok s -> 0 < s_len s ->
  copy_result s (create_copy_ssh_string malloc malloc_string (Some t) (Some s)).
Proof.
  intros Ht Hs Hl. destruct (s_ok_source s Hs Hl) as (v & Hv & Hlv & Hsrc).
  pose proof Hs as (Hw & _). pose proof Ht as (_ & [? ?] & Hin & _).
  unfold create_copy_ssh_string. rewrite Hv.
  destruct (Z.eqb_spec (s_size s) 0) as [E|E]; [| destruct (Hsrc E) as [<- Es]];
    (destruct (Z.ltb_spec 0 (s_size t)) as [Et|Et];
     [destruct (Hin Et) as (Hp & Hbt & Hlt) | assert (s_size t = 0) as Et0 by lia]);
    match goal with |- context [if ?a =? ?b then _ else _] => destruct (Z.eqb_spec a b) as [El|El] end.
  all: try (destruct (s_ok_view t Ht) as (w & Hvw & Hlw); [lia |]; rewrite Hvw; opt).
  all: try match goal with
    | |- context [realloc_buffer malloc_string ?x ?n] =>
        destruct (realloc_buffer malloc_string x n) eqn:Er; [apply realloc_buffer_len in Er; [| lia] | apply copy_result_fail]
    | |- context [realloc_bytes malloc ?x ?n] =>
        destruct (realloc_bytes malloc x n) eqn:Er; [apply realloc_bytes_len in Er; [| lia] | apply copy_result_fail]
    end.
  all: copied v (s_len s); eapply copy_result_done; [done | lia |].
  all: unfold set_buffer, set_flags, set_ptr, set_len; simpl.
  all: try rewrite Et0; try rewrite Hp;
    try replace (s_size t) with (s_len s) by lia; try replace (s_len t) with (s_len s) by lia.
  all: held v.
Qed.

(** [create_copy_ssh_string] of a non empty well formed string into a new
    one or into an existing well formed one has no undefined behaviour; result 0
    means the target is a well formed string with the source's bytes, and the
    only other result is -1, when the allocator fails. *)
Theorem create_copy_ssh_string_correct (o : option ssh_string) (s : ssh_string) :
  match o with Some t => s_ok t | None => True end ->
  s_ok s -> 0 < s_len s ->
  copy_result s (create_copy_ssh_string malloc malloc_string o (Some s)).
Proof. destruct o; intros; [by apply copy_existing | by apply copy_new]. Qed.

End AllocationProofs.

(** An allocator that always succeeds, with zeroed memory. *)
Definition calloc (n : Z) : option bytes :=
  if 0 <=? n then Some (repeat 0 (Z.to_nat n)) else None.

Lemma calloc_len n b : calloc n = Some b -> zlen b = n.
Proof.
  unfold calloc. destruct (Z.leb_spec 0 n); [| done]. intros [= <-].
  unfold zlen. rewrite repeat_length. lia.
Qed.

Lemma create_ssh_string_correct_witness :
  exists r o', create_ssh_string calloc calloc (Some None) 2 (Some [104;105;33]) 0 = Some (r, o') /\
    match r with
    | Some s => o' = Some s /\ holds s 2 (take (Z.to_nat 2) [104;105;33])
    | None => True
    end.
Proof.
  apply (create_ssh_string_correct calloc calloc calloc_len calloc_len None 2 0 [104;105;33]); done.
Defined.

Lemma create_copy_ssh_string_correct_witness :
  copy_result (mk_ssh_string 0 2 0 (PMem [104;105]) [])
    (create_copy_ssh_string calloc calloc (Some (mk_ssh_string 0 3 3 PInside [1;2;3]))
       (Some (mk_ssh_string 0 2 0 (PMem [104;105]) []))).
Proof.
  apply (create_copy_ssh_string_correct calloc calloc calloc_len calloc_len
    (Some (mk_ssh_string 0 3 3 PInside [1;2;3])) (mk_ssh_string 0 2 0 (PMem [104;105]) [])).
  - repeat split; simpl; try done; lia.
  - repeat split; simpl; try done; lia.
  - done.
Defined.

(** ** Counting strings *)

Definition encode_strings (ds : list bytes) : bytes := concat (map encode_string ds).

Lemma encode_strings_cons d ds : encode_strings (d :: ds) = encode_string d ++ encode_strings ds.
Proof. done. Qed.

Lemma encode_strings_pos ds : ds <> [] -> 0 < zlen (encode_strings ds).
Proof.
  destruct ds as [|d ds]; [done |]. intros _. rewrite encode_strings_cons, zlen_app, zlen_encode_string.
  pose proof (zlen_nonneg d). pose proof (zlen_nonneg (encode_strings ds)). lia.
Qed.

(** The number [buffer_count_strings] reports for [n] strings and limit [max]. *)
Definition counted (max n : Z) : Z := if 0 <? max then Z.min max n else n.

Lemma count_strings_loop_spec ds : forall fuel pre rest size max count,
  ds <> [] -> (length ds <= fuel)%nat ->
  size = zlen pre + zlen (encode_strings ds) -> is_u32 size ->
  0 <= count -> (0 < max -> count < max) -> is_u32 (count + zlen ds) ->
  count_strings_loop fuel (pre ++ encode_strings ds ++ rest) size max (zlen pre) count
    = Ret (counted max (count + zlen ds)).
Proof.
  induction ds as [|d ds IH]; intros fuel pre rest size max count Hne Hf Hs [_ Hw] Hc Hmax [_ Hwc]; [done |].
  destruct fuel as [|fuel]; [simpl in Hf; lia |]. cbn [count_strings_loop].
  pose proof (zlen_nonneg pre). pose proof (zlen_nonneg d). pose proof (zlen_nonneg ds).
  pose proof (zlen_nonneg (encode_strings ds)).
  rewrite encode_strings_cons, zlen_app, zlen_encode_string in Hs. rewrite zlen_cons in *.
  rewrite drop_app_length' by (unfold zlen; lia).
  rewrite encode_strings_cons. unfold encode_string at 1. rewrite <- !app_assoc.
  rewrite get_uint32_encode by (unfold_width; lia).
  rewrite !(u32_id (_ + 4)), (u32_id (4 + _)), !u32_id by (unfold_width; lia).
  destruct (Z.leb_spec (zlen pre + 4 + zlen d) size); [| lia].
  unfold counted. destruct (Z.ltb_spec 0 max) as [Hm|Hm].
  all: simpl andb; try destruct (Z.eqb_spec (count + 1) max); try (f_equal; lia).
  all: rewrite (app_assoc pre (encode_string d)); destruct ds as [|d' ds];
    [change (zlen (encode_strings [])) with 0 in *; change (zlen []) with 0 in *;
     destruct (Z.ltb_spec (zlen pre + (4 + zlen d)) size); [lia | f_equal; lia] |].
  all: pose proof (encode_strings_pos (d' :: ds) ltac:(done)).
  all: destruct (Z.ltb_spec (zlen pre + (4 + zlen d)) size); [| lia].
  all: replace (zlen pre + (4 + zlen d)) with (zlen (pre ++ encode_string d))
    by (rewrite zlen_app, zlen_encode_string; lia).
  all: rewrite IH; try done; try (simpl in *; lia); try (unfold_width; lia);
    try (rewrite zlen_app, zlen_encode_string; lia).
  all: unfold counted; destruct (Z.ltb_spec 0 max); try lia; f_equal; lia.
Qed.

(** on a buffer that holds a sequence of encoded strings,
    [buffer_count_strings] terminates, reads only inside the buffer and returns
    the number of strings, or [max] when a limit is set and reached; one
    iteration per string is enough. *)
Theorem buffer_count_strings_correct (ds : list bytes) (rest : bytes) (max : Z) (fuel : nat) :
  ds <> [] -> is_u32 (zlen (encode_strings ds)) -> is_u32 (zlen ds) -> (length ds <= fuel)%nat ->
  buffer_count_strings fuel (encode_strings ds ++ rest) (zlen (encode_strings ds)) max
    = Ret (counted max (zlen ds)).
Proof.
  intros Hne Hw Hn Hf. unfold buffer_count_strings.
  apply (count_strings_loop_spec ds fuel [] rest); try done; lia.
Qed.

(** the loop does not terminate on every input: a length field of
    [2^32 - 4] makes the 32 bit position wrap back to the same string, and
    without a limit every amount of fuel runs out. *)
Theorem buffer_count_strings_diverges (fuel : nat) :
  buffer_count_strings fuel [255; 255; 255; 252] 4 0 = NoFuel.
Proof.
  unfold buffer_count_strings. generalize 0 at 3 as c. induction fuel as [|fuel IH]; intros c; [done |].
  cbn [count_strings_loop]. exact (IH (u32 (c + 1))).
Qed.

Lemma buffer_count_strings_correct_witness :
  buffer_count_strings 2 (encode_strings [[1;2];[3]] ++ [7]) (zlen (encode_strings [[1;2];[3]])) 0
    = Ret (counted 0 (zlen [[1;2];[3]])).
Proof. apply (buffer_count_strings_correct [[1;2];[3]] [7] 0 2); done. Defined.

End SshString.
