(* ===== verification/MsgBuffer.v ===== *)
(** * lib/datatypes/ssh-msg-buffer.c: building and parsing messages

    A [struct msg_buffer_s] is used twice for every message: with the [no...]
    operations to compute the size, and with the [do...] operations to write it.
    The function pointers of the struct are always set together, by
    [set_msg_buffer_write] and [set_msg_buffer_nowrite]; the model keeps which of
    the two sets is installed in [mb_write]. *)

From stdpp Require Import base list list_numbers numbers option.
From S2P Require Import Prelude SshUint SshString.
Import SshUint SshString.

Module MsgBuffer.

Definition EIO := 5.
Definition ENOBUFS := 105.

Record msg_buffer := mk_mb {
  mb_data : option bytes;     (* NULL or the buffer *)
  mb_len : Z;
  mb_pos : Z;
  mb_error : Z;
  mb_write : bool             (* the installed operations: do... or no... *)
}.

Definition mb_set_pos p mb := mk_mb (mb_data mb) (mb_len mb) p (mb_error mb) (mb_write mb).
Definition mb_set_data d mb := mk_mb (Some d) (mb_len mb) (mb_pos mb) (mb_error mb) (mb_write mb).
Definition mb_set_error e mb := mk_mb (mb_data mb) (mb_len mb) (mb_pos mb) e (mb_write mb).

Definition init_msg_buffer : msg_buffer := mk_mb None 0 0 0 false.

(** [mb->pos += n] *)
Definition mb_skip n mb := mb_set_pos (u32 (mb_pos mb + n)) mb.

Definition set_msg_buffer_write mb := mk_mb (mb_data mb) (mb_len mb) (mb_pos mb) (mb_error mb) true.
Definition set_msg_buffer_nowrite mb := mk_mb (mb_data mb) (mb_len mb) (mb_pos mb) (mb_error mb) false.

Definition set_msg_buffer_fatal_error mb error := set_msg_buffer_nowrite (mb_set_error error mb).

Definition set_msg_buffer (mb : msg_buffer) (data : option bytes) (len : Z) : msg_buffer :=
  match data with
  | Some d => set_msg_buffer_write (mk_mb (Some d) len 0 0 (mb_write mb))
  | None => set_msg_buffer_nowrite (mk_mb None 0 0 0 (mb_write mb))
  end.

Definition set_msg_buffer_string (mb : msg_buffer) (s : ssh_string) : msg_buffer :=
  set_msg_buffer mb (s_view s) (s_len s).

(** [memcpy (&mb->data[i], d, length d)] *)
Definition mb_store (mb : msg_buffer) (i : Z) (d : bytes) : option msg_buffer :=
  let? b := mb_data mb in let? b := mem_write b i d in Some (mb_set_data b mb).

(** A write through a pointer [&mb->data[i]] by a function that returns the
    updated view. *)
Definition mb_at {A} (mb : msg_buffer) (i : Z) (f : bytes -> option (A * bytes)) : option (A * msg_buffer) :=
  let? b := mb_data mb in
  if (0 <=? i) && (i <=? zlen b) then
    let? (r, v) := f (drop (Z.to_nat i) b) in
    Some (r, mb_set_data (take (Z.to_nat i) b ++ v) mb)
  else None.

(** ** Write operations *)

Definition nowrite_byte (mb : msg_buffer) (b : Z) : option msg_buffer := Some (mb_skip 1 mb).

Definition dowrite_byte (mb : msg_buffer) (b : Z) : option msg_buffer :=
  let? mb := (if mb_pos mb <? mb_len mb then mb_store mb (mb_pos mb) [b]
              else Some (set_msg_buffer_fatal_error mb ENOBUFS)) in
  Some (mb_skip 1 mb).

Definition nowrite_bytes (mb : msg_buffer) (v : bytes) (len : Z) : option msg_buffer := Some (mb_skip len mb).

Definition dowrite_bytes (mb : msg_buffer) (v : bytes) (len : Z) : option msg_buffer :=
  let? mb := (if u32 (mb_pos mb + len) <=? mb_len mb
              then let? d := mem_read v 0 len in mb_store mb (mb_pos mb) d
              else Some (set_msg_buffer_fatal_error mb ENOBUFS)) in
  Some (mb_skip len mb).

(** [write_ssh_string (NULL, 0, type, ptr)] *)
Definition string_size (a : sarg) : option Z :=
  let? (n, _) := write_ssh_string None a in Some n.

Definition nowrite_ssh_string (mb : msg_buffer) (a : sarg) : option msg_buffer :=
  let? n := string_size a in Some (mb_skip n mb).

Definition write_ssh_string_at (a : sarg) (v : bytes) : option (Z * bytes) :=
  let? (n, b) := write_ssh_string (Some v) a in Some (n, default v b).

Definition dowrite_ssh_string (mb : msg_buffer) (a : sarg) : option msg_buffer :=
  let? len := string_size a in
  if u32 (mb_pos mb + len) <? mb_len mb then
    let? (n, mb) := mb_at mb (mb_pos mb) (write_ssh_string_at a) in
    Some (mb_skip n mb)
  else Some (mb_skip len (set_msg_buffer_fatal_error mb ENOBUFS)).

Definition nowrite_complete_ssh_string (mb : msg_buffer) (pos : Z) : option msg_buffer := Some mb.

Definition dowrite_complete_ssh_string (mb : msg_buffer) (pos : Z) : option msg_buffer :=
  let? n := string_size (ArgL None) in
  let len := u32 (u32 (mb_pos mb - pos) - n) in
  let? (_, mb) := mb_at mb pos (write_ssh_string_at (ArgL (Some len))) in Some mb.

Definition nostore_uint32 (mb : msg_buffer) (value : Z) : option msg_buffer := Some (mb_skip 4 mb).

Definition dostore_uint32 (mb : msg_buffer) (value : Z) : option msg_buffer :=
  if u32 (mb_pos mb + 4) <=? mb_len mb then
    let? (_, mb) := mb_at mb (mb_pos mb) (fun v => let? v := store_uint32 v value in Some (tt, v)) in
    Some (mb_skip 4 mb)
  else Some (mb_skip 4 (set_msg_buffer_fatal_error mb ENOBUFS)).

Definition nostore_uint64 (mb : msg_buffer) (value : Z) : option msg_buffer := Some (mb_skip 8 mb).

Definition dostore_uint64 (mb : msg_buffer) (value : Z) : option msg_buffer :=
  if u32 (mb_pos mb + 8) <=? mb_len mb then
    let? (_, mb) := mb_at mb (mb_pos mb) (fun v => let? v := store_uint64 v value in Some (tt, v)) in
    Some (mb_skip 8 mb)
  else Some (mb_skip 8 (set_msg_buffer_fatal_error mb ENOBUFS)).

Definition nowrite_complete_count (mb : msg_buffer) (pos count : Z) : option msg_buffer := Some mb.

Definition dowrite_complete_count (mb : msg_buffer) (pos count : Z) : option msg_buffer :=
  let? (_, mb) := mb_at mb pos (fun v => let? v := store_uint32 v count in Some (tt, v)) in Some mb.

(** ** The public write functions: the calls through the function pointers *)

Definition msg_write_byte mb b := if mb_write mb then dowrite_byte mb b else nowrite_byte mb b.
Definition msg_write_bytes mb v len := if mb_write mb then dowrite_bytes mb v len else nowrite_bytes mb v len.
Definition msg_write_ssh_string mb a := if mb_write mb then dowrite_ssh_string mb a else nowrite_ssh_string mb a.
Definition msg_complete_ssh_string mb pos :=
  if mb_write mb then dowrite_complete_ssh_string mb pos else nowrite_complete_ssh_string mb pos.
Definition msg_store_uint32 mb v := if mb_write mb then dostore_uint32 mb v else nostore_uint32 mb v.
Definition msg_store_uint64 mb v := if mb_write mb then dostore_uint64 mb v else nostore_uint64 mb v.
Definition msg_complete_count mb pos count :=
  if mb_write mb then dowrite_complete_count mb pos count else nowrite_complete_count mb pos count.

(** The position of the length field is returned beside the buffer. *)
Definition start_ssh_string (mb : msg_buffer) : option (Z * msg_buffer) :=
  let? mb' := msg_write_ssh_string mb (ArgL None) in Some (mb_pos mb, mb').

Definition start_count (mb : msg_buffer) : option (Z * msg_buffer) :=
  let? mb' := msg_store_uint32 mb 0 in Some (mb_pos mb, mb').

(** [_fill_commalist] with its callback. *)
Definition msg_fill_commalist (mb : msg_buffer) (cb : msg_buffer -> option msg_buffer) : option msg_buffer :=
  let? (pos, mb) := start_ssh_string mb in
  let? mb := cb mb in
  msg_complete_ssh_string mb pos.

(** ** Read operations: the value read ([None]: nothing was stored through the
    out-pointer) and the buffer *)

Definition msg_read_byte (mb : msg_buffer) : option (option Z * msg_buffer) :=
  if mb_error mb =? 0 then
    if mb_pos mb <? mb_len mb then
      let? d := mb_data mb in let? b := d !! Z.to_nat (mb_pos mb) in Some (Some b, mb_skip 1 mb)
    else Some (None, mb_set_error EIO mb)
  else Some (None, mb).

(** The bytes stored in the caller's array and the updated [*plen]. *)
Definition msg_read_bytes (mb : msg_buffer) (plen : Z) : option (bytes * Z * msg_buffer) :=
  if mb_error mb =? 0 then
    if mb_pos mb <? mb_len mb then
      let avail := u32 (mb_len mb - mb_pos mb) in
      let '(len, mb) := if avail <? plen then (avail, mb_set_error EIO mb) else (plen, mb) in
      let? d := mb_data mb in
      let? b := mem_read d (mb_pos mb) len in
      Some (b, len, mb_skip len mb)
    else Some ([], plen, mb_set_error EIO mb)
  else Some ([], plen, mb).

Definition msg_read_uint32 (mb : msg_buffer) : option (option Z * msg_buffer) :=
  if mb_error mb =? 0 then
    let? d := mb_data mb in
    let? v := get_uint32 (drop (Z.to_nat (mb_pos mb)) d) in
    Some (Some v, mb_skip 4 mb)
  else Some (None, mb).

Definition msg_read_uint64 (mb : msg_buffer) : option (option Z * msg_buffer) :=
  if mb_error mb =? 0 then
    let? d := mb_data mb in
    let? v := get_uint64 (drop (Z.to_nat (mb_pos mb)) d) in
    Some (Some v, mb_skip 8 mb)
  else Some (None, mb).

Definition msg_read_ssh_string_header (mb : msg_buffer) : option (option Z * msg_buffer) :=
  if (mb_error mb =? 0) && (mb_pos mb <? mb_len mb) then
    let? d := mb_data mb in
    let? (n, len) := read_ssh_string_header (drop (Z.to_nat (mb_pos mb)) d) (u32 (mb_len mb - mb_pos mb)) in
    Some (len, mb_skip n mb)
  else Some (None, mb).

(** The string [*s] is an in/out-parameter. *)
Definition msg_read_ssh_string (mb : msg_buffer) (s : ssh_string) : option (ssh_string * msg_buffer) :=
  if (mb_error mb =? 0) && (mb_pos mb <? mb_len mb) then
    let? d := mb_data mb in
    let? (n, s) := read_ssh_string (drop (Z.to_nat (mb_pos mb)) d) (u32 (mb_len mb - mb_pos mb)) (Some s) in
    Some (s, mb_skip n mb)
  else Some (s, mb).

Definition msg_count_strings (fuel : nat) (mb : msg_buffer) (max : Z) : outcome Z :=
  match mb_data mb with
  | None => Ret 0
  | Some d =>
      if mb_len mb <? u32 (mb_pos mb + 4) then Ret 0
      else buffer_count_strings fuel (drop (Z.to_nat (mb_pos mb)) d) (u32 (mb_len mb - mb_pos mb)) max
  end.

(** ** Messages as programs

    A message is written by a sequence of calls; [WList] is
    [msg_fill_commalist] (or a [start_ssh_string] / [msg_complete_ssh_string]
    pair) around the calls of its body, [WCount] the pair
    [msg_start_count] / [msg_complete_count]. *)
Inductive wprog :=
| WNil
| WByte (b : Z) (k : wprog)
| WBytes (v : bytes) (len : Z) (k : wprog)
| WStr (a : sarg) (k : wprog)
| WU32 (v : Z) (k : wprog)
| WU64 (v : Z) (k : wprog)
| WList (body k : wprog)
| WCount (count : Z) (body k : wprog).

Fixpoint run (p : wprog) (mb : msg_buffer) : option msg_buffer :=
  match p with
  | WNil => Some mb
  | WByte b k => let? mb := msg_write_byte mb b in run k mb
  | WBytes v len k => let? mb := msg_write_bytes mb v len in run k mb
  | WStr a k => let? mb := msg_write_ssh_string mb a in run k mb
  | WU32 v k => let? mb := msg_store_uint32 mb v in run k mb
  | WU64 v k => let? mb := msg_store_uint64 mb v in run k mb
  | WList body k => let? mb := msg_fill_commalist mb (run body) in run k mb
  | WCount n body k =>
      let? (pos, mb) := start_count mb in
      let? mb := run body mb in
      let? mb := msg_complete_count mb pos n in run k mb
  end.

(** The bytes an argument of [write_ssh_string] stands for. *)
Definition sarg_enc (a : sarg) : option bytes :=
  match a with
  | ArgS s => let? d := s_data s in Some (encode_string d)
  | ArgC p => let? n := strlen p in Some (encode_string (take (Z.to_nat n) p))
  | ArgL o => Some (be_encode 4 (default 0 o))
  | ArgOther => Some []
  end.

(** The message a program stands for; [None] when an argument is not valid. *)
Fixpoint enc (p : wprog) : option bytes :=
  match p with
  | WNil => Some []
  | WByte b k => let? r := enc k in Some ([b] ++ r)
  | WBytes v len k => let? d := mem_read v 0 len in let? r := enc k in Some (d ++ r)
  | WStr a k => let? d := sarg_enc a in let? r := enc k in Some (d ++ r)
  | WU32 v k => let? r := enc k in Some (be_encode 4 v ++ r)
  | WU64 v k => let? r := enc k in Some (be_encode 8 v ++ r)
  | WList body k => let? e := enc body in let? r := enc k in Some (encode_string e ++ r)
  | WCount n body k => let? e := enc body in let? r := enc k in Some ((be_encode 4 n ++ e) ++ r)
  end.

(** A buffer in write mode, [pre] written and [post] still free. *)
Definition wst (pre post : bytes) : msg_buffer :=
  mk_mb (Some (pre ++ post)) (zlen pre + zlen post) (zlen pre) 0 true.

#[local] Hint Rewrite zlen_be_encode zlen_encode_string : zlen.

Lemma string_size_enc a e : sarg_enc a = Some e -> is_u32 (zlen e) -> string_size a = Some (zlen e).
Proof.
  unfold string_size. destruct a as [p|s|o|]; simpl.
  - destruct (strlen p) as [n|] eqn:En; [| done]. opt. intros [= <-] Hw.
    destruct (strlen_Some _ _ En) as (? & _). rewrite zlen_encode_string, zlen_take in * by lia.
    simpl. rewrite (u32_id n), u32_id by (unfold_width; lia). done.
  - destruct (s_data s) as [d|] eqn:Ed; [| done]. opt. intros [= <-] Hw.
    destruct (s_data_inv _ _ Ed) as (v & _ & _ & _ & <-). rewrite zlen_encode_string in *.
    simpl. by rewrite u32_id.
  - intros [= <-] _. done.
  - intros [= <-] _. done.
Qed.

Lemma write_ssh_string_enc a e x post :
  sarg_enc a = Some e -> is_u32 (zlen e) -> zlen x = zlen e ->
  write_ssh_string (Some (x ++ post)) a = Some (zlen e, Some (e ++ post)).
Proof.
  intros He Hw Hx. assert (forall n, n = zlen e -> drop (Z.to_nat n) (x ++ post) = post) as Hdrop
    by (intros n ->; apply drop_app_length'; unfold zlen in *; lia).
  pose proof (zlen_nonneg post). destruct a as [p|s|o|]; cbn [write_ssh_string sarg_enc] in *.
  - destruct (strlen p) as [n|] eqn:En; [| done]. injection He as <-. opt.
    destruct (strlen_Some _ _ En) as (? & _). rewrite zlen_encode_string, zlen_take in * by lia.
    rewrite (u32_id n) by (unfold_width; lia).
    rewrite (copy_hlpr_spec (x ++ post) _ p n) by (done || rewrite ?zlen_app; lia).
    rewrite Hdrop by done. unfold encode_string. rewrite zlen_take by lia. by rewrite app_assoc.
  - destruct (s_data s) as [d|] eqn:Ed; [| done]. injection He as <-.
    destruct (s_data_inv _ _ Ed) as (v & Hv & Hl & Hd & Hzd). rewrite Hv.
    rewrite zlen_encode_string, Hzd in *.
    rewrite (copy_hlpr_spec (x ++ post) d v (s_len s)) by (done || rewrite ?zlen_app; lia).
    rewrite Hdrop by done. unfold encode_string. rewrite Hzd. by rewrite app_assoc.
  - injection He as <-. rewrite store_uint32_app by (rewrite zlen_app, Hx, zlen_be_encode; lia).
    opt. change 4%nat with (Z.to_nat 4). rewrite Hdrop by (by rewrite zlen_be_encode). by rewrite zlen_be_encode.
  - injection He as <-. change (zlen []) with 0 in *. by destruct x; [| unfold zlen in Hx; simpl in Hx; lia].
Qed.

(** Writing through a pointer into the free part, and into the written part. *)
Lemma mb_at_wst {A} pre y post len pos err w (f : bytes -> option (A * bytes)) r z :
  f (y ++ post) = Some (r, z ++ post) ->
  mb_at (mk_mb (Some (pre ++ y ++ post)) len pos err w) (zlen pre) f
    = Some (r, mk_mb (Some (pre ++ z ++ post)) len pos err w).
Proof.
  intros Hf. unfold mb_at. cbn [mb_data]. opt.
  assert (Z.to_nat (zlen pre) = length pre) as Hn by (unfold zlen; lia).
  rewrite Hn, drop_app_length, take_app_length, Hf. opt.
  pose proof (zlen_nonneg pre). pose proof (zlen_nonneg (y ++ post)).
  destruct (Z.leb_spec 0 (zlen pre)); [| lia].
  destruct (Z.leb_spec (zlen pre) (zlen (pre ++ y ++ post))); [done | rewrite !zlen_app in *; lia].
Qed.

Lemma wst_eq pre x e post n :
  zlen x = n -> zlen e = n -> is_u32 (zlen pre + n) ->
  mk_mb (Some (pre ++ e ++ post)) (zlen pre + zlen (x ++ post)) (u32 (zlen pre + n)) 0 true
  = wst (pre ++ e) post.
Proof.
  intros Hx <- Hw. rewrite u32_id by done. unfold wst. rewrite <- app_assoc, !zlen_app. f_equal. lia.
Qed.

(** The write stays inside the 32 bit positions. *)
Definition fits (pre x : bytes) : Prop := is_u32 (zlen pre + zlen x).

(** One byte must stay free: [dowrite_ssh_string] requires [pos + len < size]. *)
Lemma write_str_wst pre x post a e :
  sarg_enc a = Some e -> zlen x = zlen e -> fits pre x -> 0 < zlen post ->
  msg_write_ssh_string (wst pre (x ++ post)) a = Some (wst (pre ++ e) post).
Proof.
  intros He Hx [_ Hw] Hp. pose proof (zlen_nonneg pre). pose proof (zlen_nonneg e).
  assert (is_u32 (zlen e)) as Hwe by (unfold_width; lia).
  unfold msg_write_ssh_string, dowrite_ssh_string. cbn [mb_write wst].
  rewrite (string_size_enc a e He Hwe). opt. unfold wst at 1 2. cbn [mb_pos mb_len].
  rewrite u32_id by (unfold_width; lia).
  destruct (Z.ltb_spec (zlen pre + zlen e) (zlen pre + zlen (x ++ post))); [| rewrite zlen_app in *; lia].
  unfold wst at 1. cbn [mb_pos wst]. rewrite (mb_at_wst _ _ _ _ _ _ _ _ (zlen e) e).
  - opt. unfold mb_skip, mb_set_pos. simpl. rewrite (wst_eq pre x e post (zlen e)); [done | done | done | unfold_width; lia].
  - unfold write_ssh_string_at. by rewrite (write_ssh_string_enc _ e) by done.
Qed.

Lemma write_byte_wst pre x post b :
  zlen x = 1 -> fits pre x ->
  msg_write_byte (wst pre (x ++ post)) b = Some (wst (pre ++ [b]) post).
Proof.
  intros Hx [_ Hw]. pose proof (zlen_nonneg pre). pose proof (zlen_nonneg post).
  unfold msg_write_byte, dowrite_byte, mb_store. cbn [mb_write wst mb_pos mb_len mb_data].
  destruct (Z.ltb_spec (zlen pre) (zlen pre + zlen (x ++ post))); [| rewrite zlen_app in *; lia].
  unfold wst at 1. cbn [mb_data]. opt. rewrite (mem_write_free pre x [b] post) by done. opt.
  unfold mb_skip, mb_set_pos, mb_set_data. cbn [mb_data mb_len mb_pos mb_error mb_write].
  rewrite (wst_eq pre x [b] post 1); [done | done | done | unfold_width; lia].
Qed.

Lemma write_bytes_wst pre x post v len d :
  mem_read v 0 len = Some d -> zlen x = zlen d -> fits pre x ->
  msg_write_bytes (wst pre (x ++ post)) v len = Some (wst (pre ++ d) post).
Proof.
  intros Hd Hx [_ Hw]. pose proof (zlen_nonneg pre). pose proof (zlen_nonneg post).
  destruct (mem_read_inv _ _ _ _ Hd) as (_ & ? & _ & _ & Hl).
  unfold msg_write_bytes, dowrite_bytes. cbn [mb_write wst mb_pos mb_len].
  rewrite u32_id by (unfold_width; lia). rewrite zlen_app.
  destruct (Z.leb_spec (zlen pre + len) (zlen pre + (zlen x + zlen post))); [| lia].
  rewrite Hd. opt. unfold mb_store, wst at 1. cbn [mb_data mb_pos wst]. opt.
  rewrite (mem_write_free pre x d post) by done. opt.
  unfold mb_skip, mb_set_pos, mb_set_data. cbn [mb_data mb_len mb_pos mb_error mb_write].
  rewrite (wst_eq pre x d post len); [done | lia | done | unfold_width; lia].
Qed.

Lemma store_uint32_wst pre x post v :
  zlen x = 4 -> fits pre x ->
  msg_store_uint32 (wst pre (x ++ post)) v = Some (wst (pre ++ be_encode 4 v) post).
Proof.
  intros Hx [_ Hw]. pose proof (zlen_nonneg pre). pose proof (zlen_nonneg post).
  unfold msg_store_uint32, dostore_uint32. cbn [mb_write wst mb_pos mb_len].
  rewrite u32_id by (unfold_width; lia). rewrite zlen_app.
  destruct (Z.leb_spec (zlen pre + 4) (zlen pre + (zlen x + zlen post))); [| lia].
  unfold wst at 1. rewrite (mb_at_wst _ _ _ _ _ _ _ _ tt (be_encode 4 v)).
  - opt. unfold mb_skip, mb_set_pos. cbn [mb_data mb_len mb_pos mb_error mb_write].
    rewrite (wst_eq pre x (be_encode 4 v) post 4); [done | done | apply zlen_be_encode | unfold_width; lia].
  - rewrite store_uint32_app by (rewrite zlen_app; lia). opt.
    by rewrite drop_app_length' by (unfold zlen in Hx; lia).
Qed.

Lemma store_uint64_wst pre x post v :
  zlen x = 8 -> fits pre x ->
  msg_store_uint64 (wst pre (x ++ post)) v = Some (wst (pre ++ be_encode 8 v) post).
Proof.
  intros Hx [_ Hw]. pose proof (zlen_nonneg pre). pose proof (zlen_nonneg post).
  unfold msg_store_uint64, dostore_uint64. cbn [mb_write wst mb_pos mb_len].
  rewrite u32_id by (unfold_width; lia). rewrite zlen_app.
  destruct (Z.leb_spec (zlen pre + 8) (zlen pre + (zlen x + zlen post))); [| lia].
  unfold wst at 1. rewrite (mb_at_wst _ _ _ _ _ _ _ _ tt (be_encode 8 v)).
  - opt. unfold mb_skip, mb_set_pos. cbn [mb_data mb_len mb_pos mb_error mb_write].
    rewrite (wst_eq pre x (be_encode 8 v) post 8); [done | done | apply zlen_be_encode | unfold_width; lia].
  - rewrite store_uint64_app by (rewrite zlen_app; lia). opt.
    by rewrite drop_app_length' by (unfold zlen in Hx; lia).
Qed.

(** Completing a length or count field in the part already written. *)
Lemma complete_ssh_string_wst pre y e post :
  zlen y = 4 -> is_u32 (zlen pre + 4 + zlen e) ->
  msg_complete_ssh_string (wst ((pre ++ y) ++ e) post) (zlen pre)
    = Some (wst ((pre ++ be_encode 4 (zlen e)) ++ e) post).
Proof.
  intros Hy [_ Hw]. pose proof (zlen_nonneg pre). pose proof (zlen_nonneg e).
  unfold msg_complete_ssh_string, dowrite_complete_ssh_string, wst.
  cbn [mb_write mb_pos string_size write_ssh_string]. unfold string_size. cbn [write_ssh_string]. opt.
  rewrite !zlen_app, Hy, zlen_be_encode. rewrite (u32_id (_ - zlen pre)), u32_id by (unfold_width; lia).
  rewrite <- !app_assoc. rewrite (mb_at_wst _ y (e ++ post) _ _ _ _ _ 4 (be_encode 4 (zlen e))).
  - opt. do 2 f_equal; lia.
  - unfold write_ssh_string_at. rewrite (write_ssh_string_enc _ (be_encode 4 (zlen e))); [by opt | | done |].
    + simpl sarg_enc. do 2 f_equal. lia.
    + by rewrite zlen_be_encode.
Qed.

Lemma complete_count_wst pre y e post n :
  zlen y = 4 ->
  msg_complete_count (wst ((pre ++ y) ++ e) post) (zlen pre) n
    = Some (wst ((pre ++ be_encode 4 n) ++ e) post).
Proof.
  intros Hy. pose proof (zlen_nonneg e). pose proof (zlen_nonneg post).
  unfold msg_complete_count, dowrite_complete_count, wst. cbn [mb_write].
  rewrite !zlen_app, Hy, zlen_be_encode, <- !app_assoc.
  rewrite (mb_at_wst _ y (e ++ post) _ _ _ _ _ tt (be_encode 4 n)); [by opt |].
  rewrite store_uint32_app by (rewrite !zlen_app; lia). opt.
  by rewrite drop_app_length' by (unfold zlen in Hy; lia).
Qed.

(** ** What a write routine promises

    [Writes m d]: without a buffer [m] advances the position by the length of
    [d]; with a buffer it appends [d] at the position, or it reports ENOBUFS,
    leaves the bytes before the position alone, switches the buffer to counting
    and still advances the position by the length of [d]. *)

Definition written (pre post d : bytes) (mb : msg_buffer) : Prop :=
  zlen d <= zlen post /\ mb = wst (pre ++ d) (drop (length d) post).

Definition overflowed (pre post d : bytes) (mb : msg_buffer) : Prop :=
  zlen post <= zlen d /\
  exists b, zlen b = zlen pre + zlen post /\ take (length pre) b = pre /\
    mb = mk_mb (Some b) (zlen b) (zlen pre + zlen d) ENOBUFS false.

Class Writes (m : msg_buffer -> option msg_buffer) (d : bytes) : Prop := {
  writes_size mb :
    mb_write mb = false -> 0 <= mb_pos mb -> is_u32 (mb_pos mb + zlen d) ->
    m mb = Some (mb_set_pos (mb_pos mb + zlen d) mb);
  writes_data pre post :
    is_u32 (zlen pre + zlen d) ->
    exists mb, m (wst pre post) = Some mb /\ (written pre post d mb \/ overflowed pre post d mb)
}.

(** A primitive: it succeeds when a byte is left behind the data, and otherwise
    either succeeds or reports the error. *)
Lemma written_split pre post d (m : msg_buffer -> option msg_buffer) :
  zlen d <= zlen post ->
  (forall x post', zlen x = zlen d -> post = x ++ post' -> m (wst pre (x ++ post')) = Some (wst (pre ++ d) post')) ->
  exists mb, m (wst pre post) = Some mb /\ (written pre post d mb \/ overflowed pre post d mb).
Proof.
  intros Hl Hm. exists (wst (pre ++ d) (drop (length d) post)). split; [| by left].
  rewrite <- (take_drop (length d) post) at 1. apply Hm; [| by rewrite take_drop].
  unfold zlen in *. rewrite length_take. lia.
Qed.

Lemma overflow_result pre post d mb :
  is_u32 (zlen pre + zlen d) -> zlen post <= zlen d ->
  mb = mb_skip (zlen d) (set_msg_buffer_fatal_error (wst pre post) ENOBUFS) ->
  overflowed pre post d mb.
Proof.
  intros Hw Hl ->. split; [done |]. exists (pre ++ post). rewrite zlen_app, take_app_length.
  repeat split. unfold mb_skip, mb_set_pos. simpl. by rewrite u32_id.
Qed.

Ltac writes_size_tac :=
  intros mb Hm Hp Hw;
  unfold msg_write_byte, msg_write_bytes, msg_store_uint32, msg_store_uint64; rewrite Hm;
  unfold nowrite_byte, nowrite_bytes, nostore_uint32, nostore_uint64, mb_skip;
  rewrite u32_id by done; done.

#[export] Instance writes_nil : Writes Some [].
Proof.
  constructor.
  - intros [? ? p ? ?] _ _ _. unfold mb_set_pos. simpl. change (zlen []) with 0. by rewrite Z.add_0_r.
  - intros pre post _. eexists. split; [done |]. left. split; [apply zlen_nonneg |].
    by rewrite app_nil_r, drop_0.
Qed.

#[export] Instance writes_byte b : Writes (fun mb => msg_write_byte mb b) [b].
Proof.
  constructor; [writes_size_tac |]. intros pre post Hw. destruct (Z.leb_spec 1 (zlen post)) as [Hp|Hp].
  - apply (written_split _ _ _ (fun mb => msg_write_byte mb b)); [done |]. intros x post' Hx ->. apply write_byte_wst; [done |]. unfold fits. by rewrite Hx.
  - eexists. split; [| right; by apply overflow_result; [| change (zlen [b]) with 1; lia |]].
    unfold msg_write_byte, dowrite_byte. cbn [wst mb_write mb_pos mb_len].
    by destruct (Z.ltb_spec (zlen pre) (zlen pre + zlen post)); [lia |].
Qed.

Lemma writes_bytes v len d : mem_read v 0 len = Some d -> Writes (fun mb => msg_write_bytes mb v len) d.
Proof.
  intros Hd. destruct (mem_read_inv _ _ _ _ Hd) as (_ & ? & _ & _ & Hl). subst len.
  constructor; [writes_size_tac |]. intros pre post Hw. destruct (Z.leb_spec (zlen d) (zlen post)) as [Hp|Hp].
  - apply (written_split _ _ _ (fun mb => msg_write_bytes mb v (zlen d))); [done |]. intros x post' Hx ->. apply write_bytes_wst; [done | done |]. unfold fits. by rewrite Hx.
  - eexists. split; [| right; by apply overflow_result; [| lia |]].
    unfold msg_write_bytes, dowrite_bytes. cbn [wst mb_write mb_pos mb_len]. rewrite u32_id by done.
    by destruct (Z.leb_spec (zlen pre + zlen d) (zlen pre + zlen post)); [lia |].
Qed.

#[export] Instance writes_uint32 v : Writes (fun mb => msg_store_uint32 mb v) (be_encode 4 v).
Proof.
  pose proof (zlen_be_encode 4 v) as E. constructor; [rewrite E; writes_size_tac |].
  intros pre post Hw. destruct (Z.leb_spec 4 (zlen post)) as [Hp|Hp].
  - apply (written_split _ _ _ (fun mb => msg_store_uint32 mb v)); [lia |]. intros x post' Hx ->. rewrite E in Hx.
    apply store_uint32_wst; [done |]. unfold fits. by rewrite Hx, <- E.
  - eexists. split; [| right; by apply overflow_result; [| lia |]].
    unfold msg_store_uint32, dostore_uint32. cbn [wst mb_write mb_pos mb_len]. rewrite E in *. rewrite u32_id by done.
    by destruct (Z.leb_spec (zlen pre + 4) (zlen pre + zlen post)); [lia |].
Qed.

#[export] Instance writes_uint64 v : Writes (fun mb => msg_store_uint64 mb v) (be_encode 8 v).
Proof.
  pose proof (zlen_be_encode 8 v) as E. constructor; [rewrite E; writes_size_tac |].
  intros pre post Hw. destruct (Z.leb_spec 8 (zlen post)) as [Hp|Hp].
  - apply (written_split _ _ _ (fun mb => msg_store_uint64 mb v)); [lia |]. intros x post' Hx ->. rewrite E in Hx.
    apply store_uint64_wst; [done |]. unfold fits. by rewrite Hx, <- E.
  - eexists. split; [| right; by apply overflow_result; [| lia |]].
    unfold msg_store_uint64, dostore_uint64. cbn [wst mb_write mb_pos mb_len]. rewrite E in *. rewrite u32_id by done.
    by destruct (Z.leb_spec (zlen pre + 8) (zlen pre + zlen post)); [lia |].
Qed.

Lemma writes_ssh_string a d : sarg_enc a = Some d -> Writes (fun mb => msg_write_ssh_string mb a) d.
Proof.
  intros Ha. pose proof (zlen_nonneg d). constructor.
  - intros mb Hm Hp [? ?]. unfold msg_write_ssh_string, nowrite_ssh_string. rewrite Hm.
    rewrite (string_size_enc a d Ha) by (unfold_width; lia). opt. unfold mb_skip. by rewrite u32_id.
  - intros pre post [? ?]. pose proof (zlen_nonneg pre). destruct (Z.ltb_spec (zlen d) (zlen post)) as [Hp|Hp].
    + apply (written_split _ _ _ (fun mb => msg_write_ssh_string mb a)); [lia |]. intros x post' Hx ->. rewrite zlen_app in Hp.
      apply write_str_wst; [done | done | unfold fits; by rewrite Hx | lia].
    + eexists. split; [| right; by apply overflow_result; [| lia |]].
      unfold msg_write_ssh_string, dowrite_ssh_string. cbn [wst mb_write mb_pos mb_len].
      rewrite (string_size_enc a d Ha) by (unfold_width; lia). opt. rewrite u32_id by (unfold_width; lia).
      by destruct (Z.ltb_spec (zlen pre + zlen d) (zlen pre + zlen post)); [lia |].
Qed.

(** ** Composition *)

Lemma written_app pre post d r mb :
  zlen d <= zlen post -> written (pre ++ d) (drop (length d) post) r mb -> written pre post (d ++ r) mb.
Proof.
  intros Hl [Hr ->]. unfold zlen in *. rewrite length_drop in Hr. split.
  - unfold zlen. rewrite length_app. lia.
  - by rewrite app_assoc, drop_drop, length_app.
Qed.

Lemma overflowed_app pre post d r mb :
  zlen d <= zlen post -> overflowed (pre ++ d) (drop (length d) post) r mb -> overflowed pre post (d ++ r) mb.
Proof.
  intros Hl [Hr (b & Hb & Ht & ->)]. assert (zlen (drop (length d) post) = zlen post - zlen d) as E
    by (unfold zlen in *; rewrite length_drop; lia).
  rewrite E in *. rewrite !zlen_app in *. split; [rewrite zlen_app; lia |]. exists b.
  split; [lia |]. split.
  - apply (f_equal (take (length pre))) in Ht. rewrite take_take, take_app_length in Ht.
    rewrite length_app in Ht. by rewrite Nat.min_l in Ht by lia.
  - rewrite zlen_app. f_equal. lia.
Qed.

Lemma overflowed_more pre post d r mb :
  overflowed pre post d mb -> overflowed pre post (d ++ r) (mb_set_pos (mb_pos mb + zlen r) mb).
Proof.
  intros [Hl (b & Hb & Ht & ->)]. pose proof (zlen_nonneg r). split; [rewrite zlen_app; lia |].
  exists b. rewrite zlen_app. repeat split; [done | done |]. unfold mb_set_pos. simpl. f_equal. lia.
Qed.

Lemma overflowed_counting pre post d mb :
  overflowed pre post d mb -> mb_write mb = false /\ mb_pos mb = zlen pre + zlen d.
Proof. by intros [_ (b & _ & _ & ->)]. Qed.

Lemma writes_bind m k d r : Writes m d -> Writes k r -> Writes (fun mb => let? mb := m mb in k mb) (d ++ r).
Proof.
  intros Hm Hk. pose proof (zlen_nonneg d). pose proof (zlen_nonneg r). constructor.
  - intros mb Hf Hp [? ?]. rewrite zlen_app in *. rewrite (writes_size (m := m) (d := d)) by (done || unfold_width; lia).
    opt. rewrite (writes_size (m := k) (d := r)) by (simpl; done || lia || unfold_width; lia).
    unfold mb_set_pos. simpl. do 2 f_equal. lia.
  - intros pre post [? Hw]. rewrite zlen_app in Hw. pose proof (zlen_nonneg pre).
    destruct (writes_data (m := m) (d := d) pre post) as (mb & -> & [[Hl ->]|Ho]); [unfold_width; lia | |]; opt.
    + destruct (writes_data (m := k) (d := r) (pre ++ d) (drop (length d) post)) as (mb' & -> & Hr);
        [rewrite zlen_app; unfold_width; lia |].
      exists mb'. split; [done |].
      destruct Hr; [left; by apply written_app | right; by apply overflowed_app].
    + destruct (overflowed_counting _ _ _ _ Ho) as [? E].
      rewrite (writes_size (m := k) (d := r)) by (rewrite ?E; done || lia || unfold_width; lia).
      eexists. split; [done |]. right. by apply overflowed_more.
Qed.

(** A field of four bytes that is reserved, and completed after the body. *)
Lemma writes_reserved (m body : msg_buffer -> option msg_buffer) (c : msg_buffer -> Z -> option msg_buffer) y f e :
  zlen y = 4 -> zlen f = 4 ->
  Writes m y -> Writes body e ->
  (forall mb pos, mb_write mb = false -> c mb pos = Some mb) ->
  (forall pre post, is_u32 (zlen pre + 4 + zlen e) ->
     c (wst ((pre ++ y) ++ e) post) (zlen pre) = Some (wst ((pre ++ f) ++ e) post)) ->
  Writes (fun mb => let? mb1 := m mb in let? mb2 := body mb1 in c mb2 (mb_pos mb)) (f ++ e).
Proof.
  intros Hy Hf Hm Hb Hc Hcw. pose proof (writes_bind m body y e Hm Hb) as Hmb.
  assert (zlen (f ++ e) = zlen (y ++ e)) as E by (rewrite !zlen_app; lia). constructor.
  - intros mb Hmw Hp Hw. rewrite E in Hw. pose proof (writes_size (d := y ++ e) mb Hmw Hp Hw) as H.
    simpl in H. destruct (m mb) as [mb1|]; [| done]. cbn [mbind option_bind] in *. rewrite H. opt. rewrite Hc by done. by rewrite E.
  - intros pre post Hw. rewrite E in Hw. destruct (writes_data (d := y ++ e) pre post Hw) as (mb & H & Hr).
    destruct (m (wst pre post)) as [mb1|]; [| done]. cbn [mbind option_bind] in *. rewrite H. opt.
    cbn [wst mb_pos]. destruct Hr as [[Hl ->]|Ho].
    + rewrite app_assoc, Hcw by (rewrite zlen_app in Hw; unfold_width; lia).
      eexists. split; [done |]. left. split; [lia |]. rewrite app_assoc. do 2 f_equal. unfold zlen in E. lia.
    + destruct (overflowed_counting _ _ _ _ Ho). rewrite Hc by done.
      eexists. split; [done |]. right. destruct Ho as [Hl Ho]. split; [lia |]. by rewrite E.
Qed.

Lemma writes_commalist cb e : Writes cb e -> Writes (fun mb => msg_fill_commalist mb cb) (encode_string e).
Proof.
  intros Hcb. pose proof (writes_reserved (fun mb => msg_write_ssh_string mb (ArgL None)) cb msg_complete_ssh_string
    (be_encode 4 0) (be_encode 4 (zlen e)) e (zlen_be_encode _ _) (zlen_be_encode _ _)
    (writes_ssh_string (ArgL None) _ eq_refl) Hcb) as H.
  assert (forall mb, msg_fill_commalist mb cb =
    (let? mb1 := msg_write_ssh_string mb (ArgL None) in let? mb2 := cb mb1 in msg_complete_ssh_string mb2 (mb_pos mb))) as E.
  { intros mb. unfold msg_fill_commalist, start_ssh_string. by destruct (msg_write_ssh_string mb (ArgL None)). }
  destruct H as [H1 H2].
  - intros mb pos Hf. unfold msg_complete_ssh_string. by rewrite Hf.
  - intros. by apply complete_ssh_string_wst; [apply zlen_be_encode |].
  - constructor; intros; rewrite E; [by apply H1 | by apply H2].
Qed.

Lemma writes_count n body e :
  Writes body e ->
  Writes (fun mb => let? (pos, mb) := start_count mb in let? mb := body mb in msg_complete_count mb pos n) (be_encode 4 n ++ e).
Proof.
  intros Hcb. destruct (writes_reserved (fun mb => msg_store_uint32 mb 0) body (fun mb pos => msg_complete_count mb pos n)
    (be_encode 4 0) (be_encode 4 n) e (zlen_be_encode _ _) (zlen_be_encode _ _) _ Hcb) as [H1 H2].
  - intros mb pos Hf. unfold msg_complete_count. by rewrite Hf.
  - intros. by apply complete_count_wst, zlen_be_encode.
  - constructor; intros; unfold start_count.
    + rewrite <- H1 by done. clear. by destruct (msg_store_uint32 mb 0).
    + destruct (H2 pre post) as (mb & E & ?); [done |]. exists mb. split; [| done]. revert E.
      by destruct (msg_store_uint32 (wst pre post) 0).
Qed.

Lemma writes_ext m m' d : (forall mb, m' mb = m mb) -> Writes m d -> Writes m' d.
Proof. intros E [H1 H2]. constructor; intros; rewrite E; auto. Qed.

Lemma run_writes p : forall e, enc p = Some e -> Writes (run p) e.
Proof.
  induction p as [|b k IH|v len k IH|a k IH|v k IH|v k IH|body IHb k IH|n body IHb k IH]; intros e He;
    cbn [enc mbind option_bind] in He.
  - apply (inj Some) in He as <-. apply writes_nil.
  - destruct (enc k) as [r|]; [| done]. apply (inj Some) in He as <-. apply (writes_bind _ _ [b]); [apply writes_byte | by apply IH].
  - destruct (mem_read v 0 len) as [d|] eqn:Ed; [| done]. destruct (enc k) as [r|]; [| done]. apply (inj Some) in He as <-.
    apply (writes_bind (fun mb => msg_write_bytes mb v len)); [by apply writes_bytes | by apply IH].
  - destruct (sarg_enc a) as [d|] eqn:Ed; [| done]. destruct (enc k) as [r|]; [| done]. apply (inj Some) in He as <-.
    apply (writes_bind (fun mb => msg_write_ssh_string mb a)); [by apply writes_ssh_string | by apply IH].
  - destruct (enc k) as [r|]; [| done]. apply (inj Some) in He as <-.
    apply (writes_bind (fun mb => msg_store_uint32 mb v)); [apply writes_uint32 | by apply IH].
  - destruct (enc k) as [r|]; [| done]. apply (inj Some) in He as <-.
    apply (writes_bind (fun mb => msg_store_uint64 mb v)); [apply writes_uint64 | by apply IH].
  - destruct (enc body) as [d|]; [| done]. destruct (enc k) as [r|]; [| done]. apply (inj Some) in He as <-.
    apply (writes_bind (fun mb => msg_fill_commalist mb (run body))); [by apply writes_commalist, IHb | by apply IH].
  - destruct (enc body) as [d|]; [| done]. destruct (enc k) as [r|]; [| done]. apply (inj Some) in He as <-.
    eapply writes_ext; [| apply writes_bind; [apply (writes_count n (run body)), IHb; done | by apply IH]].
    intros mb. cbn [run]. destruct (start_count mb) as [[pos mb1]|]; [| done]. opt. by destruct (run body mb1).
Qed.

(** ** Messages: the two passes *)



(** C2: no message overruns its buffer: on a buffer of any size the calls stay
    inside it, the position afterwards is the size the message needs, and
    either all of it was written and the error is 0, or the error is ENOBUFS,
    which happens only when less than one byte would have been left. *)
Theorem msg_write_in_bounds (p : wprog) (e buf : bytes) (mb0 : msg_buffer) :
  enc p = Some e -> is_u32 (zlen e) ->
  exists mb b, run p (set_msg_buffer mb0 (Some buf) (zlen buf)) = Some mb /\
    mb_data mb = Some b /\ zlen b = zlen buf /\ mb_pos mb = zlen e /\
    (mb_error mb = 0 /\ b = e ++ drop (length e) buf \/ mb_error mb = ENOBUFS /\ zlen buf <= zlen e).
Proof.
  intros He Hw. pose proof (run_writes p e He) as Hr.
  change (set_msg_buffer _ (Some buf) (zlen buf)) with (wst [] buf).
  destruct (writes_data (m := run p) [] buf Hw) as (mb & -> & [[Hl ->]|[Hl (b & Hb & _ & ->)]]).
  - do 2 eexists. split; [done |]. split; [done |]. simpl. split; [| auto].
    unfold zlen in *. rewrite length_app, length_drop. lia.
  - do 2 eexists. split; [done |]. split; [done |]. simpl. auto.
Qed.

Lemma msg_write_in_bounds_witness :
  exists mb b, run (WU32 1 (WBytes [1;2;3;4] 3 WNil)) (set_msg_buffer init_msg_buffer (Some [9;9;9;9;9]) 5) = Some mb /\
    mb_data mb = Some b /\ zlen b = 5 /\ mb_pos mb = 7 /\
    (mb_error mb = 0 /\ b = [0;0;0;1;1;2;3] ++ [] \/ mb_error mb = ENOBUFS /\ 5 <= 7).
Proof.
  apply (msg_write_in_bounds (WU32 1 (WBytes [1;2;3;4] 3 WNil)) [0;0;0;1;1;2;3] [9;9;9;9;9] init_msg_buffer);
    [vm_compute; done | done].
Defined.

(** ** Reading back *)

(** The fields a message is parsed into, by their calls. *)
Inductive field := FByte (b : Z) | FU32 (v : Z) | FU64 (v : Z) | FStr (d : bytes).
Inductive kind := KByte | KU32 | KU64 | KStr.

Definition kind_of (f : field) : kind :=
  match f with FByte _ => KByte | FU32 _ => KU32 | FU64 _ => KU64 | FStr _ => KStr end.

Definition string_of (d : bytes) : ssh_string := mk_ssh_string 0 (zlen d) 0 (PMem d) [].

Fixpoint prog_of (fs : list field) : wprog :=
  match fs with
  | [] => WNil
  | FByte b :: fs => WByte b (prog_of fs)
  | FU32 v :: fs => WU32 v (prog_of fs)
  | FU64 v :: fs => WU64 v (prog_of fs)
  | FStr d :: fs => WStr (ArgS (string_of d)) (prog_of fs)
  end.

(** The reading call of a kind; [None] in the pair when nothing was read. *)
Definition read_field (k : kind) (mb : msg_buffer) : option (option field * msg_buffer) :=
  match k with
  | KByte => let? (o, mb) := msg_read_byte mb in Some (option_map FByte o, mb)
  | KU32 => let? (o, mb) := msg_read_uint32 mb in Some (option_map FU32 o, mb)
  | KU64 => let? (o, mb) := msg_read_uint64 mb in Some (option_map FU64 o, mb)
  | KStr => let? (s, mb) := msg_read_ssh_string mb SSH_STRING_INIT in Some (option_map FStr (s_data s), mb)
  end.

Fixpoint read_fields (ks : list kind) (mb : msg_buffer) : option (list (option field) * msg_buffer) :=
  match ks with
  | [] => Some ([], mb)
  | k :: ks =>
      let? (f, mb) := read_field k mb in
      let? (fs, mb) := read_fields ks mb in Some (f :: fs, mb)
  end.

Definition field_ok (f : field) : Prop :=
  match f with FByte b => is_u8 b | FU32 v => is_u32 v | FU64 v => is_u64 v | FStr d => is_u32 (4 + zlen d) end.

Definition field_enc (f : field) : bytes :=
  match f with
  | FByte b => [b] | FU32 v => be_encode 4 v | FU64 v => be_encode 8 v | FStr d => encode_string d
  end.

Definition fields_enc (fs : list field) : bytes := concat (map field_enc fs).

Lemma s_data_string_of d : s_data (string_of d) = Some d.
Proof.
  pose proof (zlen_nonneg d). unfold s_data, string_of, s_view. simpl. rewrite mem_read_Some by lia.
  rewrite drop_0, take_ge; [done |]. unfold zlen. lia.
Qed.

Lemma enc_prog_of fs : enc (prog_of fs) = Some (fields_enc fs).
Proof.
  induction fs as [|[b|v|v|d] fs IH]; [done | | | |]; unfold fields_enc in *; cbn [prog_of enc map concat field_enc];
    rewrite ?IH; [done | done | done |].
  unfold sarg_enc. by rewrite s_data_string_of.
Qed.

(** A buffer being read: [pre] was read, [d] is next. *)
Definition rst (pre d rest : bytes) (n : Z) (w : bool) : msg_buffer :=
  mk_mb (Some (pre ++ d ++ rest)) n (zlen pre) 0 w.

Lemma read_field_enc f pre rest n w :
  field_ok f -> is_u32 (zlen pre + zlen (field_enc f)) -> zlen pre + zlen (field_enc f) <= n -> is_u32 n ->
  read_field (kind_of f) (rst pre (field_enc f) rest n w)
    = Some (Some f, mb_set_pos (zlen pre + zlen (field_enc f)) (rst pre (field_enc f) rest n w)).
Proof.
  intros Hf Hw Hn Hwn. pose proof (zlen_nonneg pre).
  assert (forall x : bytes, drop (Z.to_nat (zlen pre)) (pre ++ x) = x) as Hd
    by (intros x; apply drop_app_length'; unfold zlen; lia).
  destruct f as [b|v|v|d]; cbn [kind_of field_enc read_field] in *.
  - unfold msg_read_byte, rst. cbn [mb_error mb_pos mb_len mb_data]. change (zlen [b]) with 1 in *.
    destruct (Z.ltb_spec (zlen pre) n); [| lia]. simpl. rewrite lookup_app_r by (unfold zlen; lia).
    replace (Z.to_nat (zlen pre) - length pre)%nat with 0%nat by (unfold zlen; lia). simpl.
    unfold mb_skip. simpl. by rewrite u32_id.
  - unfold msg_read_uint32, rst. cbn [mb_error mb_pos mb_len mb_data]. opt. rewrite Hd, get_uint32_encode by done.
    simpl. unfold mb_skip. simpl mb_pos. by rewrite zlen_be_encode, u32_id in *.
  - unfold msg_read_uint64, rst. cbn [mb_error mb_pos mb_len mb_data]. opt. rewrite Hd, get_uint64_encode by done.
    simpl. unfold mb_skip. simpl mb_pos. by rewrite zlen_be_encode, u32_id in *.
  - rewrite zlen_encode_string in *. pose proof (zlen_nonneg d). unfold msg_read_ssh_string, rst.
    cbn [mb_error mb_pos mb_len mb_data]. destruct (Z.ltb_spec (zlen pre) n); [| lia]. simpl andb. cbn match. opt.
    rewrite Hd. rewrite (u32_id (n - _)) by (unfold_width; lia).
    rewrite read_encode_string by (done || lia). opt.
    unfold mb_skip. simpl mb_pos. rewrite u32_id by done. do 2 f_equal.
    erewrite s_data_view; [| done | simpl; rewrite zlen_app; pose proof (zlen_nonneg rest); lia].
    simpl. by rewrite take_app_length' by (unfold zlen; lia).
Qed.

Lemma read_fields_enc fs : forall pre rest n w,
  Forall field_ok fs -> zlen pre + zlen (fields_enc fs) <= n -> is_u32 n ->
  read_fields (map kind_of fs) (rst pre (fields_enc fs) rest n w)
    = Some (map Some fs, mb_set_pos (zlen pre + zlen (fields_enc fs)) (rst pre (fields_enc fs) rest n w)).
Proof.
  induction fs as [|f fs IH]; intros pre rest n w Hok Hn [? ?].
  - simpl. unfold fields_enc, rst, mb_set_pos. simpl. do 3 f_equal. change (zlen []) with 0. lia.
  - apply Forall_cons_1 in Hok as [Hf Hok]. unfold fields_enc in *. cbn [map concat read_fields] in *.
    fold (fields_enc fs) in *. pose proof (zlen_nonneg (fields_enc fs)). pose proof (zlen_nonneg pre).
    pose proof (zlen_nonneg (field_enc f)). rewrite zlen_app in *.
    unfold rst. rewrite <- app_assoc. fold (rst pre (field_enc f) (fields_enc fs ++ rest) n w).
    rewrite read_field_enc by (done || lia || unfold_width; lia). opt.
    assert (mb_set_pos (zlen pre + zlen (field_enc f)) (rst pre (field_enc f) (fields_enc fs ++ rest) n w)
      = rst (pre ++ field_enc f) (fields_enc fs) rest n w) as ->
      by (unfold rst, mb_set_pos; simpl; by rewrite zlen_app, app_assoc).
    rewrite IH; [| done | rewrite zlen_app; lia | done]. opt.
    unfold rst, mb_set_pos. simpl. rewrite zlen_app, !app_assoc. do 3 f_equal. lia.
Qed.

(** C12: round trip of messages: the fields of a message written in two passes are
    read back from it, in the same order and with the same values, and the
    reader ends exactly at the end of the message without an error. *)
Theorem msg_fields_roundtrip (fs : list field) (buf : bytes) (mb0 : msg_buffer) :
  Forall field_ok fs -> zlen (fields_enc fs) < zlen buf -> is_u32 (zlen (fields_enc fs)) ->
  exists mb mb', run (prog_of fs) (set_msg_buffer mb0 (Some buf) (zlen buf)) = Some mb /\ mb_error mb = 0 /\
    read_fields (map kind_of fs) (set_msg_buffer mb (mb_data mb) (mb_pos mb)) = Some (map Some fs, mb') /\
    mb_pos mb' = mb_pos mb /\ mb_error mb' = 0.
Proof.
  intros Hok Hb Hw. pose proof (run_writes _ _ (enc_prog_of fs)) as Hr.
  change (set_msg_buffer mb0 (Some buf) (zlen buf)) with (wst [] buf).
  destruct (writes_data (m := run (prog_of fs)) [] buf Hw) as (mb & -> & [[Hl ->]|[Hl _]]); [| lia].
  do 2 eexists. split; [done |]. split; [done |].
  change (set_msg_buffer _ _ _) with (rst [] (fields_enc fs) (drop (length (fields_enc fs)) buf) (zlen (fields_enc fs)) true).
  by rewrite read_fields_enc.
Qed.

Lemma msg_fields_roundtrip_witness :
  exists mb mb', run (prog_of [FByte 101; FU32 70000; FStr [47;97]; FU64 5]) (set_msg_buffer init_msg_buffer (Some (repeat 0 32)) 32) = Some mb /\
    mb_error mb = 0 /\
    read_fields [KByte; KU32; KStr; KU64] (set_msg_buffer mb (mb_data mb) (mb_pos mb))
      = Some ([Some (FByte 101); Some (FU32 70000); Some (FStr [47;97]); Some (FU64 5)], mb') /\
    mb_pos mb' = mb_pos mb /\ mb_error mb' = 0.
Proof.
  apply (msg_fields_roundtrip [FByte 101; FU32 70000; FStr [47;97]; FU64 5] (repeat 0 32) init_msg_buffer);
    [repeat constructor; done | vm_compute; done | vm_compute; done].
Defined.

(** [msg_read_byte] and [msg_read_bytes] never read past the end of the
    message and report EIO there, whatever was asked for. *)
Theorem msg_read_bytes_bounded (mb : msg_buffer) (d : bytes) (plen : Z) :
  mb_data mb = Some d -> is_u32 (mb_len mb) -> mb_len mb <= zlen d -> is_u32 (mb_pos mb) -> is_u32 plen ->
  mb_error mb = 0 ->
  exists b len mb', msg_read_bytes mb plen = Some (b, len, mb') /\
    (mb_pos mb + plen <= mb_len mb /\ mb_pos mb < mb_len mb ->
       len = plen /\ mb_error mb' = 0 /\ mb_pos mb' = mb_pos mb + plen /\
       b = take (Z.to_nat plen) (drop (Z.to_nat (mb_pos mb)) d)) /\
    (mb_len mb < mb_pos mb + plen -> mb_error mb' = EIO /\ mb_pos mb' = Z.max (mb_pos mb) (mb_len mb)) /\
    zlen b <= plen.
Proof.
  intros Hd [? Hl] Hld [? ?] [? ?] He. unfold msg_read_bytes. rewrite He. simpl.
  destruct (Z.ltb_spec (mb_pos mb) (mb_len mb)) as [Hp|Hp].
  - rewrite u32_id by (unfold_width; lia).
    destruct (Z.ltb_spec (mb_len mb - mb_pos mb) plen) as [Hlt|Hge].
    + cbn [mb_set_error mb_data mb_pos]. rewrite Hd. opt. rewrite mem_read_Some by lia. opt.
      do 3 eexists. split; [done |]. unfold mb_skip. simpl.
      rewrite u32_id by (unfold_width; lia). rewrite zlen_take by (rewrite zlen_drop; lia).
      repeat split; lia.
    + rewrite Hd. opt. rewrite mem_read_Some by lia. opt. do 3 eexists. split; [done |].
      unfold mb_skip. simpl. rewrite u32_id by (unfold_width; lia). rewrite zlen_take by (rewrite zlen_drop; lia).
      repeat split; try done; lia.
  - do 3 eexists. split; [done |]. simpl. change (zlen []) with 0. repeat split; lia.
Qed.

Lemma msg_read_bytes_bounded_witness :
  exists b len mb', msg_read_bytes (mk_mb (Some [1;2;3]) 3 1 0 true) 5 = Some (b, len, mb') /\
    (1 + 5 <= 3 /\ 1 < 3 -> len = 5 /\ mb_error mb' = 0 /\ mb_pos mb' = 1 + 5 /\ b = [2;3]) /\
    (3 < 1 + 5 -> mb_error mb' = EIO /\ mb_pos mb' = 3) /\ zlen b <= 5.
Proof.
  apply (msg_read_bytes_bounded (mk_mb (Some [1;2;3]) 3 1 0 true) [1;2;3] 5); vm_compute; done.
Defined.

(** [msg_read_uint32] and [msg_read_uint64] have no such check: near the end
    of the message they read behind it. *)
Theorem msg_read_uint_unchecked (mb : msg_buffer) (d : bytes) :
  mb_data mb = Some d -> mb_error mb = 0 -> 0 <= mb_pos mb ->
  (zlen d < mb_pos mb + 4 -> msg_read_uint32 mb = None) /\
  (zlen d < mb_pos mb + 8 -> msg_read_uint64 mb = None).
Proof.
  intros Hd He Hp. unfold msg_read_uint32, msg_read_uint64. rewrite He, Hd. simpl Z.eqb. cbn match. opt.
  assert (forall n, (0 < n)%nat -> zlen d < mb_pos mb + Z.of_nat n -> (length (drop (Z.to_nat (mb_pos mb)) d) < n)%nat) as H
    by (intros n; unfold zlen; rewrite length_drop; lia).
  split; intros Hl.
  - specialize (H 4%nat ltac:(lia) Hl). by destruct (drop _ d) as [|? [|? [|? [|? ?]]]]; [done.. | simpl in H; lia].
  - specialize (H 8%nat ltac:(lia) Hl).
    by destruct (drop _ d) as [|? [|? [|? [|? [|? [|? [|? [|? ?]]]]]]]]; [done.. | simpl in H; lia].
Qed.

Lemma msg_read_uint_unchecked_witness :
  msg_read_uint32 (mk_mb (Some [1;2;3]) 3 0 0 true) = None.
Proof. apply (msg_read_uint_unchecked (mk_mb (Some [1;2;3]) 3 0 0 true) [1;2;3]); done. Defined.

(** [dowrite_ssh_string] refuses a string that ends exactly at the end of the
    buffer, which the other write operations accept. *)
Theorem dowrite_ssh_string_exact_fit (pre x d : bytes) :
  zlen x = zlen (encode_string d) -> is_u32 (zlen pre + zlen x) ->
  (exists mb, dowrite_ssh_string (wst pre x) (ArgS (string_of d)) = Some mb /\ mb_error mb = ENOBUFS) /\
  dowrite_bytes (wst pre x) (encode_string d) (zlen x) = Some (wst (pre ++ encode_string d) []).
Proof.
  intros Hx [? ?]. pose proof (zlen_nonneg pre). pose proof (zlen_nonneg x). split.
  - unfold dowrite_ssh_string. rewrite (string_size_enc _ (encode_string d)); opt.
    + cbn [wst mb_pos mb_len]. rewrite u32_id by (unfold_width; lia). rewrite <- Hx.
      destruct (Z.ltb_spec (zlen pre + zlen x) (zlen pre + zlen x)); [lia |]. by eexists.
    + unfold sarg_enc. by rewrite s_data_string_of.
    + unfold_width. lia.
  - rewrite <- (app_nil_r x) at 1. apply (write_bytes_wst pre x []); [| done | done].
    rewrite Hx, mem_read_Some by lia. rewrite drop_0, take_ge; [done |]. unfold zlen. lia.
Qed.

Lemma dowrite_ssh_string_exact_fit_witness :
  (exists mb, dowrite_ssh_string (wst [1] [0;0;0;0;0]) (ArgS (string_of [65])) = Some mb /\ mb_error mb = ENOBUFS) /\
  dowrite_bytes (wst [1] [0;0;0;0;0]) (encode_string [65]) 5 = Some (wst ([1] ++ encode_string [65]) []).
Proof. apply (dowrite_ssh_string_exact_fit [1] [0;0;0;0;0] [65]); done. Defined.

End MsgBuffer.
