(* ===== verification/SimpleList.v ===== *)
(** * lib/list/simple-list.c: intrusive doubly linked lists

    Lists are threaded through [struct list_element_s] fields of the program's
    objects; a header carries two sentinel elements and a table of operations
    that depends on the number of elements (empty, one, more).  The heap is a
    map from element pointers to elements and from header pointers to headers;
    a NULL or dangling pointer that is followed is [None].  The locks inside the
    structs are the subject of the file ListLock. *)

From stdpp Require Import base list list_numbers numbers option gmap.
From S2P Require Import Prelude.

Module SimpleList.

Definition SIMPLE_LIST_TYPE_EMPTY := 1.
Definition SIMPLE_LIST_TYPE_DEFAULT := 2.
Definition SIMPLE_LIST_TYPE_ONE := 3.
Definition SIMPLE_LIST_FLAG_INIT := 2.

(** A pointer to an element: [&h->head], [&h->tail], or an element of the
    program. *)
Inductive eptr := Head (h : nat) | Tail (h : nat) | Elt (e : nat).

#[export] Instance eptr_eq_dec : EqDecision eptr.
Proof. solve_decision. Defined.

#[export] Instance eptr_countable : Countable eptr.
Proof.
  apply (inj_countable'
    (fun p => match p with Head h => inl (inl h) | Tail h => inl (inr h) | Elt e => inr e end)
    (fun x => match x with inl (inl h) => Head h | inl (inr h) => Tail h | inr e => Elt e end)).
  by intros [].
Defined.

(** The tables [system_head_element_ops], [system_tail_element_ops],
    [standalone_element_ops], [default_element_ops]. *)
Inductive element_ops := OpsHead | OpsTail | OpsStandalone | OpsDefault.

(** The tables [empty_header_ops], [one_list_ops], [default_header_ops]. *)
Inductive header_ops := OpsEmpty | OpsOne | OpsMore.

Record list_element := mk_element {
  e_h : option nat;
  e_n : option eptr;
  e_p : option eptr;
  e_ops : option element_ops
}.

Record list_header := mk_header {
  h_flags : Z;
  h_count : Z;
  h_ops : option header_ops
}.

Record heap := mk_heap {
  elems : gmap eptr list_element;
  headers : gmap nat list_header
}.

Definition set_next n e := mk_element (e_h e) n (e_p e) (e_ops e).
Definition set_prev p e := mk_element (e_h e) (e_n e) p (e_ops e).

(** A store through an element or header pointer. *)
Definition upd (s : heap) (e : eptr) (f : list_element -> list_element) : option heap :=
  let? x := elems s !! e in Some (mk_heap (<[e := f x]> (elems s)) (headers s)).

Definition upd_header (s : heap) (h : nat) (f : list_header -> list_header) : option heap :=
  let? x := headers s !! h in Some (mk_heap (elems s) (<[h := f x]> (headers s))).

Definition set_header_ops (o : header_ops) (s : heap) (h : nat) : option heap :=
  upd_header s h (fun x => mk_header (h_flags x) (h_count x) (Some o)).
Definition set_header_ops_empty := set_header_ops OpsEmpty.
Definition set_header_ops_one := set_header_ops OpsOne.
Definition set_header_ops_default := set_header_ops OpsMore.

(** [h->count++] and [h->count--] on the 64 bit counter. *)
Definition add_count (d : Z) (s : heap) (h : nat) : option heap :=
  upd_header s h (fun x => mk_header (h_flags x) (u64 (h_count x + d)) (h_ops x)).

Definition init_list_element (s : heap) (e : eptr) (h : option nat) : option heap :=
  upd s e (fun _ => mk_element h None None (Some (match h with Some _ => OpsDefault | None => OpsStandalone end))).

(** ** Moving through a list *)

(** [n->ops->get_element (n)] *)
Definition get_element (s : heap) (n : eptr) : option (option eptr) :=
  let? x := elems s !! n in
  let? o := e_ops x in
  match o with OpsHead | OpsTail => Some None | OpsStandalone | OpsDefault => Some (Some n) end.

Definition _get_next_element (s : heap) (e : eptr) : option (option eptr) :=
  let? x := elems s !! e in let? n := e_n x in get_element s n.

Definition _get_prev_element (s : heap) (e : eptr) : option (option eptr) :=
  let? x := elems s !! e in let? p := e_p x in get_element s p.

Definition _get_next_element_head (s : heap) (e : eptr) : option (option eptr) :=
  let? x := elems s !! e in
  match e_h x with
  | Some h =>
      let? hd := headers s !! h in
      if 0 <? h_count hd then let? n := e_n x in get_element s n else Some None
  | None => Some None
  end.

Definition _get_prev_element_tail (s : heap) (e : eptr) : option (option eptr) :=
  let? x := elems s !! e in
  match e_h x with
  | Some h =>
      let? hd := headers s !! h in
      if 0 <? h_count hd then let? p := e_p x in get_element s p else Some None
  | None => Some None
  end.

Definition get_next_element (s : heap) (e : eptr) : option (option eptr) :=
  let? x := elems s !! e in
  let? o := e_ops x in
  match o with
  | OpsHead => _get_next_element_head s e
  | OpsTail | OpsStandalone => Some None
  | OpsDefault => _get_next_element s e
  end.

Definition get_prev_element (s : heap) (e : eptr) : option (option eptr) :=
  let? x := elems s !! e in
  let? o := e_ops x in
  match o with
  | OpsTail => _get_prev_element_tail s e
  | OpsHead | OpsStandalone => Some None
  | OpsDefault => _get_prev_element s e
  end.

(** ** Deleting and inserting *)

Definition _delete_element_common (s : heap) (h : nat) (e : eptr) : option heap :=
  let? x := elems s !! e in
  let? n := e_n x in
  let? p := e_p x in
  let? s := upd s n (set_prev (Some p)) in
  let? s := upd s p (set_next (Some n)) in
  init_list_element s e None.

Definition delete_element_default (s : heap) (h : nat) (e : eptr) : option heap :=
  let? s := _delete_element_common s h e in
  let? s := add_count (-1) s h in
  let? hd := headers s !! h in
  if h_count hd =? 1 then set_header_ops_one s h
  else if h_count hd =? 0 then set_header_ops_empty s h
  else Some s.

Definition insert_element_after_default (s : heap) (h : nat) (p e : eptr) : option heap :=
  let? x := elems s !! p in
  let? s := init_list_element s e (Some h) in
  let? n := e_n x in
  let? s := upd s n (set_prev (Some e)) in
  let? s := upd s p (set_next (Some e)) in
  let? s := upd s e (set_prev (Some p)) in
  let? s := upd s e (set_next (Some n)) in
  add_count 1 s h.

Definition insert_element_before_default (s : heap) (h : nat) (n e : eptr) : option heap :=
  let? x := elems s !! n in
  let? s := init_list_element s e (Some h) in
  let? p := e_p x in
  let? s := upd s p (set_next (Some e)) in
  let? s := upd s n (set_prev (Some e)) in
  let? s := upd s e (set_next (Some n)) in
  let? s := upd s e (set_prev (Some p)) in
  add_count 1 s h.

Definition delete_empty_header (s : heap) (h : nat) (e : eptr) : option heap := Some s.

Definition insert_common_empty_header (s : heap) (h : nat) (a e : eptr) : option heap :=
  let? s := insert_element_after_default s h (Head h) e in set_header_ops_one s h.

Definition delete_element_one (s : heap) (h : nat) (e : eptr) : option heap :=
  let? s := _delete_element_common s h e in
  let? s := add_count (-1) s h in set_header_ops_empty s h.

Definition insert_after_element_one (s : heap) (h : nat) (a e : eptr) : option heap :=
  let? s := insert_element_after_default s h a e in set_header_ops_default s h.

Definition insert_before_element_one (s : heap) (h : nat) (b e : eptr) : option heap :=
  let? s := insert_element_before_default s h b e in set_header_ops_default s h.

Definition get_head_empty_list (s : heap) (h : nat) : option (option eptr) := Some None.

Definition get_head_default (s : heap) (h : nat) : option (option eptr) :=
  let? x := elems s !! Head h in Some (e_n x).

Definition get_tail_default (s : heap) (h : nat) : option (option eptr) :=
  let? x := elems s !! Tail h in Some (e_p x).

(** The calls through the table of the header. *)
Definition ops_insert_after (s : heap) (h : nat) (a e : eptr) : option heap :=
  let? hd := headers s !! h in
  let? o := h_ops hd in
  match o with
  | OpsEmpty => insert_common_empty_header s h a e
  | OpsOne => insert_after_element_one s h a e
  | OpsMore => insert_element_after_default s h a e
  end.

Definition ops_insert_before (s : heap) (h : nat) (b e : eptr) : option heap :=
  let? hd := headers s !! h in
  let? o := h_ops hd in
  match o with
  | OpsEmpty => insert_common_empty_header s h b e
  | OpsOne => insert_before_element_one s h b e
  | OpsMore => insert_element_before_default s h b e
  end.

Definition ops_delete (s : heap) (h : nat) (o : header_ops) (e : eptr) : option heap :=
  match o with
  | OpsEmpty => delete_empty_header s h e
  | OpsOne => delete_element_one s h e
  | OpsMore => delete_element_default s h e
  end.

Definition _rm_default (s : heap) (e : eptr) : option heap :=
  let? x := elems s !! e in
  match e_h x with
  | None => Some s
  | Some h =>
      let? hd := headers s !! h in
      match h_ops hd with None => Some s | Some o => ops_delete s h o e end
  end.

(** ** The functions of the interface *)

Definition add_list_element_last (s : heap) (h : nat) (e : eptr) : option heap :=
  let? s := init_list_element s e (Some h) in ops_insert_before s h (Tail h) e.

Definition add_list_element_first (s : heap) (h : nat) (e : eptr) : option heap :=
  let? s := init_list_element s e (Some h) in ops_insert_after s h (Head h) e.

Definition add_list_element_after (s : heap) (h : nat) (p e : eptr) : option heap :=
  let? s := init_list_element s e (Some h) in ops_insert_after s h p e.

Definition add_list_element_before (s : heap) (h : nat) (n e : eptr) : option heap :=
  let? s := init_list_element s e (Some h) in ops_insert_before s h n e.

Definition remove_list_element (s : heap) (e : option eptr) : option heap :=
  match e with
  | None => Some s
  | Some e =>
      let? x := elems s !! e in
      match e_ops x with
      | Some OpsDefault => _rm_default s e
      | _ => Some s                       (* NULL, or [_rm_nothing] *)
      end
  end.

Definition get_list_head (s : heap) (h : nat) : option (option eptr) :=
  let? hd := headers s !! h in
  let? o := h_ops hd in
  match o with OpsEmpty => get_head_empty_list s h | _ => get_head_default s h end.

Definition get_list_tail (s : heap) (h : nat) : option (option eptr) :=
  let? hd := headers s !! h in
  let? o := h_ops hd in
  match o with OpsEmpty => get_head_empty_list s h | _ => get_tail_default s h end.

Definition remove_list_head (s : heap) (h : nat) : option (option eptr * heap) :=
  let? e := get_list_head s h in let? s := remove_list_element s e in Some (e, s).

Definition remove_list_tail (s : heap) (h : nat) : option (option eptr * heap) :=
  let? e := get_list_tail s h in let? s := remove_list_element s e in Some (e, s).

(** The loops of the searches; [condition e] is [condition (e, ptr) == 0]. *)
Fixpoint search_loop (fuel : nat) (step : eptr -> option (option eptr)) (condition : eptr -> bool) (e : option eptr)
  : outcome (option eptr) :=
  match fuel with
  | O => NoFuel
  | S fuel =>
      match e with
      | None => Ret None
      | Some x => if condition x then Ret (Some x)
                  else match step x with Some e => search_loop fuel step condition e | None => Ub end
      end
  end.

Definition search_list_element_forw (fuel : nat) (s : heap) (h : nat) (condition : eptr -> bool) : outcome (option eptr) :=
  match get_list_head s h with
  | Some e => search_loop fuel (_get_next_element s) condition e
  | None => Ub
  end.

Definition search_list_element_back (fuel : nat) (s : heap) (h : nat) (condition : eptr -> bool) : outcome (option eptr) :=
  match get_list_tail s h with
  | Some e => search_loop fuel (_get_prev_element s) condition e
  | None => Ub
  end.

(** [init_list_header (h, type, e)] for a header that is not NULL. *)
Definition init_list_header (s : heap) (h : nat) (type : Z) (e : option eptr) : option heap :=
  let? hd := headers s !! h in
  if has (h_flags hd) SIMPLE_LIST_FLAG_INIT then Some s else
  let? s := upd s (Head h) (fun _ => mk_element (Some h) (Some (Tail h)) (Some (Tail h)) (Some OpsHead)) in
  let? s := upd s (Tail h) (fun _ => mk_element (Some h) (Some (Head h)) (Some (Head h)) (Some OpsTail)) in
  let? s := upd_header s h (fun x => mk_header (Z.lor (h_flags x) SIMPLE_LIST_FLAG_INIT) 0 (h_ops x)) in
  let? s := set_header_ops_empty s h in
  if type =? SIMPLE_LIST_TYPE_ONE then
    match e with Some e => add_list_element_first s h e | None => Some s end
  else if type =? SIMPLE_LIST_TYPE_DEFAULT then set_header_ops_default s h
  else Some s.

Definition list_element_is_first (s : heap) (e : eptr) : option Z :=
  let? x := elems s !! e in
  let? h := e_h x in
  Some (if bool_decide (e_p x = Some (Head h)) then 0 else -1).

Definition list_element_is_last (s : heap) (e : eptr) : option Z :=
  let? x := elems s !! e in
  let? h := e_h x in
  Some (if bool_decide (e = Tail h) then 0 else -1).

(** ** The shape of a list *)

Definition next_of (m : gmap eptr list_element) (e : eptr) : option eptr := m !! e ≫= e_n.
Definition prev_of (m : gmap eptr list_element) (e : eptr) : option eptr := m !! e ≫= e_p.
Definition info_of (m : gmap eptr list_element) (e : eptr) : option (option nat * option element_ops) :=
  (fun x => (e_h x, e_ops x)) <$> m !! e.

Definition edge m a b : Prop := next_of m a = Some b /\ prev_of m b = Some a.

Fixpoint chain (m : gmap eptr list_element) (ns : list eptr) : Prop :=
  match ns with
  | a :: ((b :: _) as r) => edge m a b /\ chain m r
  | _ => True
  end.

Lemma chain_cons m a b r : chain m (a :: b :: r) <-> edge m a b /\ chain m (b :: r).
Proof. done. Qed.

Lemma chain_app m l1 a b l2 :
  chain m (l1 ++ a :: b :: l2) <-> chain m (l1 ++ [a]) /\ edge m a b /\ chain m (b :: l2).
Proof.
  induction l1 as [|x l1 IH]; [simpl; tauto |].
  destruct l1 as [|y l1]; simpl app in *; rewrite !chain_cons in *; tauto.
Qed.

Lemma chain_frame_l m m' l a :
  chain m (l ++ [a]) ->
  (forall x, x ∈ l -> next_of m' x = next_of m x) ->
  (forall x, x ∈ l ++ [a] -> prev_of m' x = prev_of m x) -> chain m' (l ++ [a]).
Proof.
  induction l as [|x l IH]; [done |]. intros H Hn Hp.
  assert (chain m (l ++ [a]) -> chain m' (l ++ [a])) as IH'
    by (intros; apply IH; [done | |]; intros; [apply Hn | apply Hp]; set_solver).
  destruct l as [|y l]; simpl app in *; apply chain_cons in H as [[H1 H2] H3]; apply chain_cons;
    (split; [split; [rewrite Hn by set_solver | rewrite Hp by set_solver]; done | auto]).
Qed.

Lemma chain_frame_r m m' l : forall b,
  chain m (b :: l) ->
  (forall x, x ∈ b :: l -> next_of m' x = next_of m x) ->
  (forall x, x ∈ l -> prev_of m' x = prev_of m x) -> chain m' (b :: l).
Proof.
  induction l as [|y l IH]; [done |]. intros b [[H1 H2] H3]%chain_cons Hn Hp. apply chain_cons. split.
  - split; [rewrite Hn by set_solver | rewrite Hp by set_solver]; done.
  - apply IH; [done | |]; intros; [apply Hn | apply Hp]; set_solver.
Qed.

Lemma chain_frame m m' ns :
  chain m ns -> (forall x, x ∈ ns -> next_of m' x = next_of m x) ->
  (forall x, x ∈ ns -> prev_of m' x = prev_of m x) -> chain m' ns.
Proof. destruct ns; [done |]. intros. apply (chain_frame_r m); [done.. | set_solver]. Qed.

(** The effect of linking [e] between [a] and [b], and of unlinking it. *)
Record links (m m' : gmap eptr list_element) (h : nat) (a b e : eptr) : Prop := {
  links_next x : next_of m' x = if decide (x = e) then Some b else if decide (x = a) then Some e else next_of m x;
  links_prev x : prev_of m' x = if decide (x = e) then Some a else if decide (x = b) then Some e else prev_of m x;
  links_info x : info_of m' x = if decide (x = e) then Some (Some h, Some OpsDefault) else info_of m x
}.

Record unlinks (m m' : gmap eptr list_element) (a b e : eptr) : Prop := {
  unlinks_next x : next_of m' x = if decide (x = e) then None else if decide (x = a) then Some b else next_of m x;
  unlinks_prev x : prev_of m' x = if decide (x = e) then None else if decide (x = b) then Some a else prev_of m x;
  unlinks_info x : info_of m' x = if decide (x = e) then Some (None, Some OpsStandalone) else info_of m x
}.

Lemma chain_insert m m' h l1 a b l2 e :
  links m m' h a b e -> NoDup (l1 ++ a :: b :: l2) -> e ∉ l1 ++ a :: b :: l2 ->
  chain m (l1 ++ a :: b :: l2) -> chain m' (l1 ++ a :: e :: b :: l2).
Proof.
  intros [Hn Hp _] Hnd He (H1 & H2 & H3)%chain_app. apply NoDup_app in Hnd as (_ & Hd1 & Hnd).
  apply NoDup_cons in Hnd as [Ha Hnd]. apply NoDup_cons in Hnd as [Hb Hnd].
  apply chain_app. split; [| split].
  - apply (chain_frame_l m); [done | |]; intros x Hx; rewrite ?Hn, ?Hp; repeat case_decide; subst; set_solver.
  - split; rewrite ?Hn, ?Hp; repeat case_decide; subst; set_solver.
  - apply chain_cons. split.
    + split; rewrite ?Hn, ?Hp; repeat case_decide; subst; set_solver.
    + apply (chain_frame_r m); [done | |]; intros x Hx; rewrite ?Hn, ?Hp; repeat case_decide; subst; set_solver.
Qed.

Lemma chain_delete m m' l1 a b l2 e :
  unlinks m m' a b e -> NoDup (l1 ++ a :: e :: b :: l2) ->
  chain m (l1 ++ a :: e :: b :: l2) -> chain m' (l1 ++ a :: b :: l2).
Proof.
  intros [Hn Hp _] Hnd (H1 & H2 & [H3 H4]%chain_cons)%chain_app. apply NoDup_app in Hnd as (_ & Hd1 & Hnd).
  apply NoDup_cons in Hnd as [Ha Hnd]. apply NoDup_cons in Hnd as [He Hnd]. apply NoDup_cons in Hnd as [Hb Hnd].
  apply chain_app. split; [| split].
  - apply (chain_frame_l m); [done | |]; intros x Hx; rewrite ?Hn, ?Hp; repeat case_decide; subst; set_solver.
  - split; rewrite ?Hn, ?Hp; repeat case_decide; subst; set_solver.
  - apply (chain_frame_r m); [done | |]; intros x Hx; rewrite ?Hn, ?Hp; repeat case_decide; subst; set_solver.
Qed.

(** ** The operations on the heap *)

Lemma edge_inv m a b :
  edge m a b -> exists x y, m !! a = Some x /\ e_n x = Some b /\ m !! b = Some y /\ e_p y = Some a.
Proof.
  unfold edge, next_of, prev_of. intros [H1 H2].
  destruct (m !! a) as [x|]; [| done]. destruct (m !! b) as [y|]; [| done]. by exists x, y.
Qed.

Ltac heap_lookup w a b e :=
  unfold next_of, prev_of, info_of; simpl;
  destruct (decide (w = e)) as [->|]; [| destruct (decide (w = a)) as [->|]; [| destruct (decide (w = b)) as [->|]]];
  repeat case_decide; simplify_map_eq; done.

Definition header_add (d : Z) (x : list_header) : list_header :=
  mk_header (h_flags x) (u64 (h_count x + d)) (h_ops x).

Lemma insert_after_spec s h hd a b e :
  is_Some (elems s !! e) -> edge (elems s) a b -> e <> a -> e <> b -> a <> b -> headers s !! h = Some hd ->
  exists s', insert_element_after_default s h a e = Some s' /\ links (elems s) (elems s') h a b e /\
    headers s' = <[h := header_add 1 hd]> (headers s).
Proof.
  intros [z He] (x & y & Ha & Hn & Hb & Hp)%edge_inv ? ? ? Hh.
  unfold insert_element_after_default, init_list_element, upd, add_count, upd_header.
  rewrite Ha. opt. rewrite He. opt. rewrite Hn. opt. simpl. simplify_map_eq.
  eexists. split; [done |]. split; [| done].
  constructor; intros w; heap_lookup w a b e.
Qed.

Lemma insert_before_spec s h hd a b e :
  is_Some (elems s !! e) -> edge (elems s) a b -> e <> a -> e <> b -> a <> b -> headers s !! h = Some hd ->
  exists s', insert_element_before_default s h b e = Some s' /\ links (elems s) (elems s') h a b e /\
    headers s' = <[h := header_add 1 hd]> (headers s).
Proof.
  intros [z He] (x & y & Ha & Hn & Hb & Hp)%edge_inv ? ? ? Hh.
  unfold insert_element_before_default, init_list_element, upd, add_count, upd_header.
  rewrite Hb. opt. rewrite He. opt. rewrite Hp. opt. simpl. simplify_map_eq.
  eexists. split; [done |]. split; [| done].
  constructor; intros w; heap_lookup w a b e.
Qed.

Lemma delete_common_spec s h a b e :
  edge (elems s) a e -> edge (elems s) e b -> e <> a -> e <> b -> a <> b ->
  exists s', _delete_element_common s h e = Some s' /\ unlinks (elems s) (elems s') a b e /\
    headers s' = headers s.
Proof.
  intros (x & z & Ha & Hn & He & Hp)%edge_inv (z' & y & He' & Hn' & Hb & Hp')%edge_inv ? ? ?.
  rewrite He in He'. injection He' as <-.
  unfold _delete_element_common, init_list_element, upd.
  rewrite He. opt. rewrite Hn'. opt. rewrite Hp. opt. simpl. simplify_map_eq.
  eexists. split; [done |]. split; [| done].
  constructor; intros w; heap_lookup w a b e.
Qed.

(** ** Abstract lists *)

Definition nodes (h : nat) (l : list nat) : list eptr := Head h :: (Elt <$> l) ++ [Tail h].

Definition ops_for (n : Z) : header_ops :=
  if n =? 0 then OpsEmpty else if n =? 1 then OpsOne else OpsMore.

Record rep (s : heap) (h : nat) (l : list nat) : Prop := {
  rep_header : exists fl, headers s !! h = Some (mk_header fl (zlen l) (Some (ops_for (zlen l)))) /\
    has fl SIMPLE_LIST_FLAG_INIT = true;
  rep_count : is_u64 (zlen l);
  rep_chain : chain (elems s) (nodes h l);
  rep_nodes e : e ∈ l -> info_of (elems s) (Elt e) = Some (Some h, Some OpsDefault);
  rep_head : info_of (elems s) (Head h) = Some (Some h, Some OpsHead);
  rep_tail : info_of (elems s) (Tail h) = Some (Some h, Some OpsTail);
  rep_nodup : NoDup l
}.

Lemma nodes_nodup h l : NoDup l -> NoDup (nodes h l).
Proof.
  intros Hl. unfold nodes. apply NoDup_cons. split.
  - rewrite elem_of_app, list_elem_of_fmap, list_elem_of_singleton. by intros [(? & ? & _)|?].
  - apply NoDup_app. repeat split; [by apply NoDup_fmap_2; [intros ? ? [=] |] | | apply NoDup_singleton].
    intros x (y & -> & _)%list_elem_of_fmap. by rewrite list_elem_of_singleton.
Qed.

(** The neighbours of a position between [l1] and [l2]. *)
Definition left_of (h : nat) (l1 : list nat) : eptr := from_option Elt (Head h) (last l1).
Definition right_of (h : nat) (l2 : list nat) : eptr := from_option Elt (Tail h) (head l2).

Lemma nodes_split h l1 l2 : exists x y,
  nodes h (l1 ++ l2) = x ++ left_of h l1 :: right_of h l2 :: y /\
  forall e, nodes h (l1 ++ e :: l2) = x ++ left_of h l1 :: Elt e :: right_of h l2 :: y.
Proof.
  unfold nodes, left_of, right_of.
  assert (exists x, Head h :: (Elt <$> l1) = x ++ [from_option Elt (Head h) (last l1)]) as [x Hx].
  { destruct l1 as [|e l _] using rev_ind; [by exists [] |]. exists (Head h :: (Elt <$> l)).
    by rewrite last_snoc, fmap_app. }
  assert (exists y, (Elt <$> l2) ++ [Tail h] = from_option Elt (Tail h) (head l2) :: y) as [y Hy]
    by (destruct l2; by eexists).
  exists x, y. split.
  - transitivity ((Head h :: (Elt <$> l1)) ++ (Elt <$> l2) ++ [Tail h]); [by rewrite fmap_app, <- app_assoc |].
    by rewrite Hx, Hy, <- app_assoc.
  - intros e. transitivity ((Head h :: (Elt <$> l1)) ++ Elt e :: ((Elt <$> l2) ++ [Tail h]));
      [by rewrite fmap_app, <- app_assoc |].
    by rewrite Hx, Hy, <- app_assoc.
Qed.

Lemma elem_of_nodes h l x : x ∈ nodes h l <-> x = Head h \/ (exists e, x = Elt e /\ e ∈ l) \/ x = Tail h.
Proof.
  unfold nodes. rewrite elem_of_cons, elem_of_app, list_elem_of_fmap, list_elem_of_singleton. naive_solver.
Qed.

Lemma rep_node_h s h l x : rep s h l -> x ∈ nodes h l -> exists o, info_of (elems s) x = Some (Some h, Some o).
Proof.
  intros Hr [-> | [(e & -> & He) | ->]]%elem_of_nodes; eexists;
    [apply (rep_head _ _ _ Hr) | by apply (rep_nodes _ _ _ Hr) | apply (rep_tail _ _ _ Hr)].
Qed.

Lemma rep_frame s s' h l :
  rep s h l -> headers s' !! h = headers s !! h ->
  (forall x, x ∈ nodes h l ->
     next_of (elems s') x = next_of (elems s) x /\ prev_of (elems s') x = prev_of (elems s) x /\
     info_of (elems s') x = info_of (elems s) x) ->
  rep s' h l.
Proof.
  intros [H1 H2 H3 H4 H5 H6 H7] Hh Hx. constructor; [by rewrite Hh | done | | | | | done].
  - apply (chain_frame (elems s)); [done | |]; intros x Hi; by apply Hx.
  - intros e He. rewrite <- (H4 e He). apply Hx, elem_of_nodes. eauto.
  - rewrite <- H5. apply Hx, elem_of_nodes. auto.
  - rewrite <- H6. apply Hx, elem_of_nodes. auto.
Qed.

Definition header_of (s : heap) (h : nat) (n : Z) : Prop :=
  exists fl, headers s !! h = Some (mk_header fl n (Some (ops_for n))) /\ has fl SIMPLE_LIST_FLAG_INIT = true.

Lemma zlen_insert {A} (l1 l2 : list A) e : zlen (l1 ++ e :: l2) = zlen (l1 ++ l2) + 1.
Proof. rewrite !zlen_app, zlen_cons. lia. Qed.

Lemma rep_insert s s' h l1 l2 e :
  rep s h (l1 ++ l2) -> e ∉ l1 ++ l2 -> is_u64 (zlen (l1 ++ l2) + 1) ->
  links (elems s) (elems s') h (left_of h l1) (right_of h l2) (Elt e) ->
  header_of s' h (zlen (l1 ++ l2) + 1) -> rep s' h (l1 ++ e :: l2).
Proof.
  intros Hr He Hw Hl Hh. destruct (nodes_split h l1 l2) as (x & y & Hn1 & Hn2).
  pose proof (nodes_nodup h _ (rep_nodup _ _ _ Hr)) as Hnd.
  assert (Elt e ∉ nodes h (l1 ++ l2)) as Hne by (rewrite elem_of_nodes; naive_solver).
  constructor; try (rewrite zlen_insert); [done | done | | | | |].
  - rewrite Hn2. rewrite Hn1 in Hnd, Hne. apply (chain_insert (elems s) _ h); [done.. |]. rewrite <- Hn1. apply Hr.
  - intros f Hf. rewrite (links_info _ _ _ _ _ _ Hl). case_decide; [done |]. apply (rep_nodes _ _ _ Hr). set_solver.
  - rewrite (links_info _ _ _ _ _ _ Hl). case_decide; [done | apply Hr].
  - rewrite (links_info _ _ _ _ _ _ Hl). case_decide; [done | apply Hr].
  - apply NoDup_app. pose proof (rep_nodup _ _ _ Hr) as (? & ? & ?)%NoDup_app.
    repeat split; [done | set_solver | apply NoDup_cons; set_solver].
Qed.

Lemma rep_delete s s' h l1 l2 e :
  rep s h (l1 ++ e :: l2) ->
  unlinks (elems s) (elems s') (left_of h l1) (right_of h l2) (Elt e) ->
  header_of s' h (zlen (l1 ++ l2)) -> rep s' h (l1 ++ l2).
Proof.
  intros Hr Hl Hh. destruct (nodes_split h l1 l2) as (x & y & Hn1 & Hn2). specialize (Hn2 e).
  pose proof (nodes_nodup h _ (rep_nodup _ _ _ Hr)) as Hnd. pose proof (rep_nodup _ _ _ Hr) as Hnd'.
  assert (e ∉ l1 ++ l2 /\ NoDup (l1 ++ l2)) as [He Hnd2].
  { apply NoDup_app in Hnd' as (? & Hd & [? ?]%NoDup_cons). split; [set_solver |].
    apply NoDup_app. repeat split; [done | set_solver | done]. }
  pose proof (rep_count _ _ _ Hr) as [? ?]. rewrite zlen_insert in *. pose proof (zlen_nonneg (l1 ++ l2)).
  constructor; [done | unfold_width; lia | | | | | done].
  - rewrite Hn1. rewrite Hn2 in Hnd. apply (chain_delete (elems s) _ _ _ _ _ (Elt e)); [done.. |]. rewrite <- Hn2. apply Hr.
  - intros f Hf. rewrite (unlinks_info _ _ _ _ _ Hl). case_decide as E; [injection E as ->; done |].
    apply (rep_nodes _ _ _ Hr). set_solver.
  - rewrite (unlinks_info _ _ _ _ _ Hl). case_decide; [done | apply Hr].
  - rewrite (unlinks_info _ _ _ _ _ Hl). case_decide; [done | apply Hr].
Qed.

(** The neighbours of a position of a list. *)
Lemma rep_edge s h l1 l2 :
  rep s h (l1 ++ l2) -> edge (elems s) (left_of h l1) (right_of h l2) /\ left_of h l1 <> right_of h l2 /\
  left_of h l1 ∈ nodes h (l1 ++ l2) /\ right_of h l2 ∈ nodes h (l1 ++ l2).
Proof.
  intros Hr. destruct (nodes_split h l1 l2) as (x & y & Hn & _). pose proof (rep_chain _ _ _ Hr) as Hc.
  pose proof (nodes_nodup h _ (rep_nodup _ _ _ Hr)) as Hnd. rewrite Hn in *.
  split; [by apply chain_app in Hc as (_ & ? & _) |]. split; [| split; set_solver].
  apply NoDup_app in Hnd as (_ & _ & [Hnd _]%NoDup_cons). intros E. apply Hnd. rewrite E. left.
Qed.

Lemma rep_edges s h l1 e l2 :
  rep s h (l1 ++ e :: l2) ->
  edge (elems s) (left_of h l1) (Elt e) /\ edge (elems s) (Elt e) (right_of h l2) /\
  left_of h l1 <> right_of h l2 /\ Elt e <> left_of h l1 /\ Elt e <> right_of h l2 /\
  left_of h l1 ∈ nodes h (l1 ++ e :: l2) /\ right_of h l2 ∈ nodes h (l1 ++ e :: l2).
Proof.
  intros Hr. destruct (nodes_split h l1 l2) as (x & y & _ & Hn). pose proof (rep_chain _ _ _ Hr) as Hc.
  pose proof (nodes_nodup h _ (rep_nodup _ _ _ Hr)) as Hnd. rewrite (Hn e) in *.
  apply chain_app in Hc as (_ & ? & [? _]%chain_cons).
  apply NoDup_app in Hnd as (_ & _ & [Hn1 [Hn2 _]%NoDup_cons]%NoDup_cons).
  split; [done |]. split; [done |].
  split; [intros E; rewrite E in *; set_solver |]. split; [intros E; rewrite E in *; set_solver |].
  split; [intros E; rewrite E in *; set_solver |]. split; set_solver.
Qed.

(** ** All the lists of a heap *)

Definition refines (s : heap) (A : gmap nat (list nat)) : Prop := forall h l, A !! h = Some l -> rep s h l.
Definition alloc (s : heap) (e : nat) : Prop := is_Some (elems s !! Elt e).
Definition unused (A : gmap nat (list nat)) (e : nat) : Prop := forall h l, A !! h = Some l -> e ∉ l.

(** Writing only to the nodes of one list and to an unused element keeps the
    other lists. *)
Lemma refines_update s s' A h l l' :
  refines s A -> A !! h = Some l -> rep s' h l' ->
  (forall h', h' <> h -> headers s' !! h' = headers s !! h') ->
  (forall x, (forall h2 l2, A !! h2 = Some l2 -> h2 <> h -> x ∉ nodes h2 l2) \/
     next_of (elems s') x = next_of (elems s) x /\ prev_of (elems s') x = prev_of (elems s) x /\
     info_of (elems s') x = info_of (elems s) x) ->
  refines s' (<[h := l']> A).
Proof.
  intros HR Hl Hr Hh Hx h2 l2. destruct (decide (h2 = h)) as [->|Hne].
  - rewrite lookup_insert. case_decide; [| done]. by intros [= <-].
  - rewrite lookup_insert_ne by done. intros H2. apply (rep_frame s); [by apply HR | by apply Hh |].
    intros x Hi. destruct (Hx x) as [Hd|]; [| done]. by destruct (Hd h2 l2).
Qed.

Lemma other_nodes s A h l x :
  refines s A -> A !! h = Some l -> x ∈ nodes h l ->
  forall h2 l2, A !! h2 = Some l2 -> h2 <> h -> x ∉ nodes h2 l2.
Proof.
  intros HR Hl Hi h2 l2 H2 Hne Hi2.
  destruct (rep_node_h s h l x) as (o & Ho); [by apply HR | done |].
  destruct (rep_node_h s h2 l2 x) as (o2 & Ho2); [by apply HR | done |]. congruence.
Qed.

Lemma unused_nodes A e : unused A e -> forall h l, A !! h = Some l -> Elt e ∉ nodes h l.
Proof. intros Hu h l Hl. rewrite elem_of_nodes. specialize (Hu h l Hl). naive_solver. Qed.

Lemma refines_insert s s' A h l1 l2 e :
  refines s A -> A !! h = Some (l1 ++ l2) -> unused A e -> is_u64 (zlen (l1 ++ l2) + 1) ->
  links (elems s) (elems s') h (left_of h l1) (right_of h l2) (Elt e) ->
  header_of s' h (zlen (l1 ++ l2) + 1) ->
  (forall h', h' <> h -> headers s' !! h' = headers s !! h') ->
  refines s' (<[h := l1 ++ e :: l2]> A).
Proof.
  intros HR Hl Hu Hw Hk Hh Ho. pose proof (HR _ _ Hl) as Hr. destruct (rep_edge s h l1 l2 Hr) as (_ & _ & Ha & Hb).
  apply (refines_update s _ _ _ (l1 ++ l2)); [done | done | | done |].
  - apply (rep_insert s); [done | by eapply Hu | done..].
  - intros x. destruct (decide (x = Elt e)) as [->|He]; [left; intros; by eapply unused_nodes |].
    destruct (decide (x = left_of h l1)) as [->|H1]; [left; by apply (other_nodes s A _ (l1 ++ l2)) |].
    destruct (decide (x = right_of h l2)) as [->|H2]; [left; by apply (other_nodes s A _ (l1 ++ l2)) |].
    right. rewrite (links_next _ _ _ _ _ _ Hk), (links_prev _ _ _ _ _ _ Hk), (links_info _ _ _ _ _ _ Hk).
    by repeat case_decide.
Qed.

Lemma refines_delete s s' A h l1 l2 e :
  refines s A -> A !! h = Some (l1 ++ e :: l2) ->
  unlinks (elems s) (elems s') (left_of h l1) (right_of h l2) (Elt e) ->
  header_of s' h (zlen (l1 ++ l2)) ->
  (forall h', h' <> h -> headers s' !! h' = headers s !! h') ->
  refines s' (<[h := l1 ++ l2]> A).
Proof.
  intros HR Hl Hk Hh Ho. pose proof (HR _ _ Hl) as Hr. destruct (rep_edges s h l1 e l2 Hr) as (_ & _ & _ & _ & _ & Ha & Hb).
  apply (refines_update s _ _ _ (l1 ++ e :: l2)); [done | done | | done |].
  - by apply (rep_delete s _ _ _ _ e).
  - intros x. destruct (decide (x = Elt e)) as [->|He].
    { left. apply (other_nodes s A _ (l1 ++ e :: l2)); [done.. |]. apply elem_of_nodes. set_solver. }
    destruct (decide (x = left_of h l1)) as [->|H1]; [left; by apply (other_nodes s A _ (l1 ++ e :: l2)) |].
    destruct (decide (x = right_of h l2)) as [->|H2]; [left; by apply (other_nodes s A _ (l1 ++ e :: l2)) |].
    right. rewrite (unlinks_next _ _ _ _ _ Hk), (unlinks_prev _ _ _ _ _ Hk), (unlinks_info _ _ _ _ _ Hk).
    by repeat case_decide.
Qed.

(** ** The operations on the abstract lists *)

Lemma alloc_info s e : alloc s e <-> is_Some (info_of (elems s) (Elt e)).
Proof. unfold alloc, info_of. by rewrite fmap_is_Some. Qed.

(** An element that is in no list. *)
Definition single (s : heap) (e : nat) : Prop := info_of (elems s) (Elt e) = Some (None, Some OpsStandalone).

(** What an operation on element [e] leaves alone. *)
Definition keeps (e : nat) (s s' : heap) : Prop :=
  forall f, (alloc s f -> alloc s' f) /\ (f <> e -> single s f -> single s' f).

Lemma keeps_trans e s1 s2 s3 : keeps e s1 s2 -> keeps e s2 s3 -> keeps e s1 s3.
Proof. intros H1 H2 f. destruct (H1 f), (H2 f). split; auto. Qed.

Lemma links_alloc s s' h a b e : links (elems s) (elems s') h a b (Elt e) -> keeps e s s'.
Proof.
  intros Hk f. unfold single. rewrite !alloc_info, (links_info _ _ _ _ _ _ Hk). by case_decide as E; [injection E as -> |].
Qed.

Lemma unlinks_alloc s s' a b e : unlinks (elems s) (elems s') a b (Elt e) -> keeps e s s'.
Proof.
  intros Hk f. unfold single. rewrite !alloc_info, (unlinks_info _ _ _ _ _ Hk). by case_decide as E; [injection E as -> |].
Qed.

Lemma init_element_spec s A e o :
  refines s A -> alloc s e -> unused A e ->
  exists s1, init_list_element s (Elt e) o = Some s1 /\ refines s1 A /\ keeps e s s1.
Proof.
  intros HR [x Hx] Hu. unfold init_list_element, upd. rewrite Hx. opt. eexists. split; [done |]. split.
  - intros h l Hl. apply (rep_frame s); [by apply HR | done |]. intros y Hy.
    assert (y <> Elt e) by (intros ->; by eapply unused_nodes).
    unfold next_of, prev_of, info_of. simpl. by simplify_map_eq.
  - intros f. unfold alloc, single, info_of. simpl. split; [intros Hz; apply lookup_insert_is_Some'; by right |].
    intros Hne Hf. by rewrite lookup_insert_ne by congruence.
Qed.

Lemma ops_for_cases l :
  zlen l = 0 /\ l = [] /\ ops_for (zlen (A := nat) l) = OpsEmpty \/
  zlen l = 1 /\ ops_for (zlen l) = OpsOne \/ 2 <= zlen l /\ ops_for (zlen l) = OpsMore.
Proof.
  destruct l as [|x [|y l]]; [by left | right; by left | right; right].
  rewrite !zlen_cons. pose proof (zlen_nonneg l). split; [lia |]. unfold ops_for. bdestr; lia || done.
Qed.

Lemma ops_for_more n : 2 <= n -> ops_for n = OpsMore.
Proof. intros. unfold ops_for. bdestr; lia || done. Qed.

(** Runs one of the two insertions and the change of table behind it. *)
Lemma insert_result s s1 A h hd l1 l2 e n :
  refines s A -> A !! h = Some (l1 ++ l2) -> unused A e -> is_u64 (zlen (l1 ++ l2) + 1) ->
  links (elems s) (elems s1) h (left_of h l1) (right_of h l2) (Elt e) ->
  headers s1 = <[h := header_add 1 hd]> (headers s) -> h_count hd = zlen (l1 ++ l2) ->
  has (h_flags hd) SIMPLE_LIST_FLAG_INIT = true ->
  n = zlen (l1 ++ l2) + 1 ->
  (forall s', set_header_ops (ops_for n) s1 h = Some s' ->
     refines s' (<[h := l1 ++ e :: l2]> A) /\ keeps e s s') /\
  is_Some (set_header_ops (ops_for n) s1 h) /\
  (h_ops hd = Some (ops_for n) -> refines s1 (<[h := l1 ++ e :: l2]> A) /\ keeps e s s1).
Proof.
  intros HR Hl Hu [? Hw] Hk Hh Hc Hf ->. pose proof (zlen_nonneg (l1 ++ l2)).
  assert (u64 (h_count hd + 1) = zlen (l1 ++ l2) + 1) as Ec
    by (rewrite Hc; unfold u64; apply Z.mod_small; unfold_width; lia).
  unfold set_header_ops, upd_header. rewrite Hh. split; [| split].
  - intros s'. simplify_map_eq. intros [= <-]. split; [| by eapply links_alloc].
    eapply (refines_insert s); simpl; [done.. | | intros; by simplify_map_eq].
    eexists. simpl. simplify_map_eq. rewrite Ec. eauto.
  - simplify_map_eq. eauto.
  - intros Ho. split; [| by eapply links_alloc]. eapply (refines_insert s); [done.. | |].
    + eexists. rewrite Hh. unfold header_add. simplify_map_eq. rewrite Ec, Ho. eauto.
    + intros. rewrite Hh. by simplify_map_eq.
Qed.

(** The three branches of a call through the table of the header. *)
Ltac insert_cases s h l1 l2 e spec :=
  lazymatch goal with
  | HR : refines s ?A, Hl : ?A !! h = Some (l1 ++ l2), Ha : alloc s e, Hu : unused ?A e |- _ =>
      let Hr := fresh "Hr" in let fl := fresh "fl" in let Hh := fresh "Hh" in let Hf := fresh "Hf" in
      pose proof (HR _ _ Hl) as Hr; destruct (rep_header _ _ _ Hr) as (fl & Hh & Hf);
      let He := fresh "He" in let Hab := fresh "Hab" in let Hna := fresh "Hna" in let Hnb := fresh "Hnb" in
      destruct (rep_edge s h l1 l2 Hr) as (He & Hab & Hna & Hnb);
      pose proof (unused_nodes A e Hu _ _ Hl) as Hne;
      let s1 := fresh "s1" in let E := fresh "E" in let Hk := fresh "Hk" in let Hh1 := fresh "Hh1" in
      destruct (spec s h _ (left_of h l1) (right_of h l2) (Elt e) Ha He
        ltac:(intros E0; rewrite E0 in Hne; done) ltac:(intros E0; rewrite E0 in Hne; done) Hab Hh) as (s1 & E & Hk & Hh1);
      destruct (insert_result s s1 A h _ l1 l2 e _ HR Hl Hu ltac:(done) Hk Hh1 eq_refl Hf eq_refl) as (H1 & [s2 H2] & H3);
      rewrite Hh; opt; simpl h_ops; opt
  end.

Lemma ops_insert_after_spec s A h l1 l2 e :
  refines s A -> A !! h = Some (l1 ++ l2) -> alloc s e -> unused A e -> is_u64 (zlen (l1 ++ l2) + 1) ->
  exists s', ops_insert_after s h (left_of h l1) (Elt e) = Some s' /\
    refines s' (<[h := l1 ++ e :: l2]> A) /\ keeps e s s'.
Proof.
  intros HR Hl Ha Hu Hw. unfold ops_insert_after. insert_cases s h l1 l2 e insert_after_spec.
  destruct (ops_for_cases (l1 ++ l2)) as [(E0 & En & ->) | [(E1 & ->) | (E2 & Em)]].
  - apply app_eq_nil in En as [-> ->]. unfold insert_common_empty_header.
    change (left_of h []) with (Head h) in *. rewrite E. opt. eauto.
  - unfold insert_after_element_one. rewrite E. opt. rewrite E1 in *. eauto.
  - rewrite Em, E. simpl in H3. rewrite Em in H3. rewrite ops_for_more in H3 by lia. eauto.
Qed.

Lemma ops_insert_before_spec s A h l1 l2 e :
  refines s A -> A !! h = Some (l1 ++ l2) -> alloc s e -> unused A e -> is_u64 (zlen (l1 ++ l2) + 1) ->
  exists s', ops_insert_before s h (right_of h l2) (Elt e) = Some s' /\
    refines s' (<[h := l1 ++ e :: l2]> A) /\ keeps e s s'.
Proof.
  intros HR Hl Ha Hu Hw. destruct (decide (l1 ++ l2 = [])) as [[-> ->]%app_eq_nil | Hne0].
  - destruct (ops_insert_after_spec s A h [] [] e) as (s' & E & ?); [done.. |]. exists s'. split; [| done].
    rewrite <- E. unfold ops_insert_before, ops_insert_after. destruct (rep_header _ _ _ (HR _ _ Hl)) as (fl & -> & _). done.
  - unfold ops_insert_before. insert_cases s h l1 l2 e insert_before_spec.
    destruct (ops_for_cases (l1 ++ l2)) as [(_ & ? & _) | [(E1 & ->) | (E2 & Em)]]; [done | |].
    + unfold insert_before_element_one. rewrite E. opt. rewrite E1 in *. eauto.
    + rewrite Em, E. simpl in H3. rewrite Em in H3. rewrite ops_for_more in H3 by lia. eauto.
Qed.

(** What an insertion gives: the operation succeeds and list [h] becomes [l]. *)
Definition becomes (s : heap) (e : nat) (r : option heap) (A : gmap nat (list nat)) (h : nat) (l : list nat) : Prop :=
  exists s', r = Some s' /\ refines s' (<[h := l]> A) /\ keeps e s s'.

Lemma add_after_init s A h l e (ins : heap -> option heap) :
  refines s A -> alloc s e -> unused A e ->
  (forall s1, refines s1 A -> alloc s1 e -> becomes s1 e (ins s1) A h l) ->
  becomes s e (let? s := init_list_element s (Elt e) (Some h) in ins s) A h l.
Proof.
  intros HR Ha Hu Hins. destruct (init_element_spec s A e (Some h)) as (s1 & -> & HR1 & Hk1); [done.. |]. opt.
  destruct (Hins s1 HR1 (proj1 (Hk1 e) Ha)) as (s' & -> & HR' & Hk'). exists s'. split; [done |]. split; [done |].
  by eapply keeps_trans.
Qed.

Lemma add_last_spec s A h l e :
  refines s A -> A !! h = Some l -> alloc s e -> unused A e -> is_u64 (zlen l + 1) ->
  becomes s e (add_list_element_last s h (Elt e)) A h (l ++ [e]).
Proof.
  intros HR Hl Ha Hu Hw. apply add_after_init; [done.. |]. intros s1 HR1 Ha1.
  apply (ops_insert_before_spec s1 A h l [] e); rewrite ?app_nil_r; done.
Qed.

Lemma add_first_spec s A h l e :
  refines s A -> A !! h = Some l -> alloc s e -> unused A e -> is_u64 (zlen l + 1) ->
  becomes s e (add_list_element_first s h (Elt e)) A h (e :: l).
Proof.
  intros HR Hl Ha Hu Hw. apply add_after_init; [done.. |]. intros s1 HR1 Ha1. by apply (ops_insert_after_spec s1 A h [] l e).
Qed.

(** C21: adding an element refines the operation on sequences: with [e] allocated
    and in no list, [add_list_element_last], [_first], [_after] and [_before]
    put [e] at the end, at the front, behind and before the given element of
    list [h], whatever table of operations the header has, and no other list of
    the heap changes. *)
Theorem list_add_refines (s : heap) (A : gmap nat (list nat)) (h e : nat) (l : list nat) :
  refines s A -> A !! h = Some l -> alloc s e -> unused A e -> is_u64 (zlen l + 1) ->
  becomes s e (add_list_element_last s h (Elt e)) A h (l ++ [e]) /\
  becomes s e (add_list_element_first s h (Elt e)) A h (e :: l) /\
  (forall l1 x l2, l = l1 ++ x :: l2 ->
     becomes s e (add_list_element_after s h (Elt x) (Elt e)) A h (l1 ++ x :: e :: l2) /\
     becomes s e (add_list_element_before s h (Elt x) (Elt e)) A h (l1 ++ e :: x :: l2)).
Proof.
  intros HR Hl Ha Hu Hw. split; [| split].
  - by apply add_last_spec.
  - by apply add_first_spec.
  - intros l1 x l2 ->. split; apply add_after_init; [done.. | | done | done | done |]; intros s1 HR1 Ha1.
    + pose proof (ops_insert_after_spec s1 A h (l1 ++ [x]) l2 e) as H. unfold left_of in H.
      rewrite last_snoc, <- !app_assoc in H. by apply H.
    + by apply (ops_insert_before_spec s1 A h l1 (x :: l2) e).
Qed.

(** Removal of a listed element. *)
Lemma delete_spec s A h l1 e l2 :
  refines s A -> A !! h = Some (l1 ++ e :: l2) ->
  exists s', remove_list_element s (Some (Elt e)) = Some s' /\
    refines s' (<[h := l1 ++ l2]> A) /\ keeps e s s' /\
    info_of (elems s') (Elt e) = Some (None, Some OpsStandalone).
Proof.
  intros HR Hl. pose proof (HR _ _ Hl) as Hr. destruct (rep_header _ _ _ Hr) as (fl & Hh & Hf).
  destruct (rep_edges s h l1 e l2 Hr) as (H1 & H2 & Hab & Hea & Heb & _).
  destruct (delete_common_spec s h _ _ _ H1 H2 Hea Heb Hab) as (s1 & E & Hk & Hh1).
  pose proof (rep_nodes _ _ _ Hr e ltac:(set_solver)) as Hi.
  pose proof (rep_count _ _ _ Hr) as [? Hw]. pose proof (zlen_nonneg (l1 ++ l2)).
  assert (forall s', elems s' = elems s1 -> headers s' = <[h := mk_header fl (zlen (l1 ++ l2)) (Some (ops_for (zlen (l1 ++ l2))))]> (headers s) ->
    refines s' (<[h := l1 ++ l2]> A) /\ keeps e s s' /\ info_of (elems s') (Elt e) = Some (None, Some OpsStandalone)) as Hdone.
  { intros s' He Hh'. rewrite <- He in Hk. split; [| split; [by eapply unlinks_alloc |]].
    - apply (refines_delete s _ _ _ _ _ e); [done | done | done | |].
      + exists fl. rewrite Hh'. by simplify_map_eq.
      + intros. rewrite Hh'. by simplify_map_eq.
    - rewrite (unlinks_info _ _ _ _ _ Hk). by case_decide. }
  unfold info_of in Hi. unfold remove_list_element, _rm_default.
  destruct (elems s !! Elt e) as [x|]; [| done]. injection Hi as Hxh Hxo. opt. rewrite Hxo, Hxh, Hh. opt. simpl h_ops.
  rewrite zlen_insert in *.
  assert (u64 (zlen (l1 ++ l2) + 1 + -1) = zlen (l1 ++ l2)) as Ec
    by (unfold u64; rewrite Z.mod_small; unfold_width; lia).
  unfold ops_for at 1. destruct (Z.eqb_spec (zlen (l1 ++ l2) + 1) 0); [lia |].
  destruct (Z.eqb_spec (zlen (l1 ++ l2) + 1) 1) as [E1|E1]; cbn [ops_delete].
  - unfold delete_element_one, add_count, set_header_ops_empty, set_header_ops, upd_header.
    rewrite E. opt. rewrite Hh1, Hh. opt. simpl. simplify_map_eq. eexists. split; [done |]. apply Hdone; [done |].
    simpl. rewrite insert_insert_eq, Ec. replace (zlen (l1 ++ l2)) with 0 by lia. done.
  - unfold delete_element_default, add_count, set_header_ops_one, set_header_ops_empty, set_header_ops, upd_header.
    rewrite E. opt. rewrite Hh1, Hh. opt. simpl. simplify_map_eq. rewrite Ec.
    destruct (Z.eqb_spec (zlen (l1 ++ l2)) 1) as [E2|E2].
    + eexists. split; [done |]. apply Hdone; [done |]. simpl. rewrite insert_insert_eq. by rewrite E2.
    + destruct (Z.eqb_spec (zlen (l1 ++ l2)) 0); [lia |]. eexists. split; [done |]. apply Hdone; [done |]. simpl.
      by rewrite !ops_for_more by lia.
Qed.

Lemma standalone_remove s e :
  info_of (elems s) (Elt e) = Some (None, Some OpsStandalone) -> remove_list_element s (Some (Elt e)) = Some s.
Proof.
  unfold info_of, remove_list_element. destruct (elems s !! Elt e) as [x|]; [| done]. intros [= _ Ho]. opt. by rewrite Ho.
Qed.

(** C32: [remove_list_element] takes exactly the given element out of its list,
    whatever table of operations the header has, leaves every other list alone,
    and makes the element stand alone, so that removing it again does nothing. *)
Theorem list_remove_refines (s : heap) (A : gmap nat (list nat)) (h e : nat) (l1 l2 : list nat) :
  refines s A -> A !! h = Some (l1 ++ e :: l2) ->
  exists s', remove_list_element s (Some (Elt e)) = Some s' /\
    refines s' (<[h := l1 ++ l2]> A) /\ remove_list_element s' (Some (Elt e)) = Some s'.
Proof.
  intros HR Hl. destruct (delete_spec s A h l1 e l2 HR Hl) as (s' & E & HR' & _ & Hi).
  exists s'. split; [done |]. split; [done | by apply standalone_remove].
Qed.

(** ** Traversal *)

Lemma next_of_lookup m a b : next_of m a = Some b -> exists x, m !! a = Some x /\ e_n x = Some b.
Proof. unfold next_of. destruct (m !! a) as [x|]; [| done]. by exists x. Qed.

Lemma prev_of_lookup m a b : prev_of m a = Some b -> exists x, m !! a = Some x /\ e_p x = Some b.
Proof. unfold prev_of. destruct (m !! a) as [x|]; [| done]. by exists x. Qed.

Lemma get_element_node s h l x :
  rep s h l -> x ∈ nodes h l -> get_element s x = Some (match x with Elt _ => Some x | _ => None end).
Proof.
  intros Hr Hx. unfold get_element. assert (info_of (elems s) x =
    Some (Some h, Some (match x with Head _ => OpsHead | Tail _ => OpsTail | Elt _ => OpsDefault end))) as Hi.
  { apply elem_of_nodes in Hx as [-> | [(e & -> & He) | ->]]; [apply Hr | by apply Hr | apply Hr]. }
  unfold info_of in Hi. destruct (elems s !! x) as [y|]; [| done]. injection Hi as _ Ho. opt. rewrite Ho. opt. by destruct x.
Qed.

Lemma _get_next_spec s h l1 e l2 :
  rep s h (l1 ++ e :: l2) -> _get_next_element s (Elt e) = Some (Elt <$> head l2).
Proof.
  intros Hr. destruct (rep_edges s h l1 e l2 Hr) as (_ & [H2 _] & _ & _ & _ & _ & Hin).
  apply next_of_lookup in H2 as (x & Hx & Hn). unfold _get_next_element. rewrite Hx. opt. rewrite Hn. opt.
  rewrite (get_element_node s h _ _ Hr Hin). by destruct l2.
Qed.

Lemma _get_prev_spec s h l1 e l2 :
  rep s h (l1 ++ e :: l2) -> _get_prev_element s (Elt e) = Some (Elt <$> last l1).
Proof.
  intros Hr. destruct (rep_edges s h l1 e l2 Hr) as ([_ H2] & _ & _ & _ & _ & Hin & _).
  apply prev_of_lookup in H2 as (x & Hx & Hn). unfold _get_prev_element. rewrite Hx. opt. rewrite Hn. opt.
  rewrite (get_element_node s h _ _ Hr Hin). unfold left_of. by destruct (last l1).
Qed.

Lemma get_list_head_spec s h l : rep s h l -> get_list_head s h = Some (Elt <$> head l).
Proof.
  intros Hr. destruct (rep_header _ _ _ Hr) as (fl & Hh & _). unfold get_list_head. rewrite Hh. opt. simpl h_ops. opt.
  destruct (rep_edge s h [] l Hr) as ([H1 _] & _). apply next_of_lookup in H1 as (x & Hx & Hn).
  assert (get_head_default s h = Some (Some (right_of h l))) as Hg
    by (unfold get_head_default; change (left_of h []) with (Head h) in Hx; rewrite Hx; opt; by rewrite Hn).
  destruct (ops_for_cases l) as [(E & -> & ->) | [(E & ->) | (E & ->)]]; [done | |];
    rewrite Hg; by destruct l.
Qed.

Lemma get_list_tail_spec s h l : rep s h l -> get_list_tail s h = Some (Elt <$> last l).
Proof.
  intros Hr. destruct (rep_header _ _ _ Hr) as (fl & Hh & _). unfold get_list_tail. rewrite Hh. opt. simpl h_ops. opt.
  destruct (rep_edge s h l []) as ([_ H1] & _); [by rewrite app_nil_r |]. apply prev_of_lookup in H1 as (x & Hx & Hn).
  assert (get_tail_default s h = Some (Some (left_of h l))) as Hg
    by (unfold get_tail_default; change (right_of h []) with (Tail h) in Hx; rewrite Hx; opt; by rewrite Hn).
  destruct (ops_for_cases l) as [(E & -> & ->) | [(E & ->) | (E & ->)]]; [done | |]; rewrite Hg;
    (destruct l as [|y l _] using rev_ind; [done |]); unfold left_of; by rewrite last_snoc.
Qed.

Lemma next_element_spec s h l1 e l2 :
  rep s h (l1 ++ e :: l2) -> get_next_element s (Elt e) = Some (Elt <$> head l2).
Proof.
  intros Hr. pose proof (rep_nodes _ _ _ Hr e ltac:(set_solver)) as Hi. unfold info_of in Hi. unfold get_next_element.
  destruct (elems s !! Elt e) as [x|] eqn:Ex; [| done]. injection Hi as _ Ho. opt. rewrite Ho. opt.
  by apply (_get_next_spec s h l1 e l2).
Qed.

(** moving through a list follows the sequence: head and tail are its first
    and last element (NULL for the empty list), [get_next_element] and
    [get_prev_element] give the neighbours and NULL at the ends, also from the
    sentinel elements. *)
Theorem list_traversal (s : heap) (A : gmap nat (list nat)) (h : nat) (l : list nat) :
  refines s A -> A !! h = Some l ->
  get_list_head s h = Some (Elt <$> head l) /\ get_list_tail s h = Some (Elt <$> last l) /\
  get_next_element s (Head h) = Some (Elt <$> head l) /\ get_prev_element s (Tail h) = Some (Elt <$> last l) /\
  (forall l1 e l2, l = l1 ++ e :: l2 ->
     get_next_element s (Elt e) = Some (Elt <$> head l2) /\ get_prev_element s (Elt e) = Some (Elt <$> last l1)).
Proof.
  intros HR Hl. pose proof (HR _ _ Hl) as Hr. destruct (rep_header _ _ _ Hr) as (fl & Hh & _).
  destruct (rep_edge s h [] l Hr) as ([Hn _] & _ & _ & Hi).
  destruct (rep_edge s h l []) as ([_ Hp] & _ & Hi' & _); [by rewrite app_nil_r |]. rewrite app_nil_r in Hi'.
  split; [by apply get_list_head_spec |]. split; [by apply get_list_tail_spec |].
  pose proof (rep_head _ _ _ Hr) as Hhd. pose proof (rep_tail _ _ _ Hr) as Htl. unfold info_of in Hhd, Htl.
  split; [| split].
  - apply next_of_lookup in Hn as (x & Hx & Hn). change (left_of h []) with (Head h) in Hx.
    unfold get_next_element, _get_next_element_head. rewrite Hx in *. injection Hhd as Hxh Hxo. opt.
    rewrite Hxo, Hxh, Hh. opt. simpl h_count. destruct (Z.ltb_spec 0 (zlen l)).
    + rewrite Hn. opt. rewrite (get_element_node s h l _ Hr Hi). by destruct l.
    + by destruct l.
  - apply prev_of_lookup in Hp as (x & Hx & Hp). change (right_of h []) with (Tail h) in Hx.
    unfold get_prev_element, _get_prev_element_tail. rewrite Hx in *. injection Htl as Hxh Hxo. opt.
    rewrite Hxo, Hxh, Hh. opt. simpl h_count. destruct (Z.ltb_spec 0 (zlen l)).
    + rewrite Hp. opt. rewrite (get_element_node s h l _ Hr Hi'). unfold left_of. by destruct (last l).
    + by destruct l.
  - intros l1 e l2 ->. pose proof (rep_nodes _ _ _ Hr e ltac:(set_solver)) as Hi2. unfold info_of in Hi2.
    unfold get_next_element, get_prev_element.
    destruct (elems s !! Elt e) as [x|] eqn:Ex; [| done]. injection Hi2 as _ Ho. opt. rewrite Ho. opt.
    by rewrite (_get_next_spec s h l1 e l2), (_get_prev_spec s h l1 e l2).
Qed.

Lemma pop_spec s A h l :
  refines s A -> A !! h = Some l ->
  exists s', remove_list_head s h = Some (Elt <$> head l, s') /\ refines s' (<[h := tail l]> A) /\ (forall f, alloc s f -> alloc s' f).
Proof.
  intros HR Hl. unfold remove_list_head. rewrite (get_list_head_spec s h l (HR _ _ Hl)). opt.
  destruct l as [|e l]; simpl.
  - exists s. split; [done |]. split; [by rewrite insert_id | by intros ?].
  - destruct (delete_spec s A h [] e l) as (s' & E & ? & Hk & _); [done.. |]. simpl in E. rewrite E. opt.
    exists s'. split; [done |]. split; [done |]. intros f. apply Hk.
Qed.

(** [remove_list_head] and [remove_list_tail] pop the first and the last
    element; on an empty list they return NULL and change nothing. *)
Theorem list_pop_refines (s : heap) (A : gmap nat (list nat)) (h : nat) (l : list nat) :
  refines s A -> A !! h = Some l ->
  (exists s', remove_list_head s h = Some (Elt <$> head l, s') /\ refines s' (<[h := tail l]> A)) /\
  (exists s', remove_list_tail s h = Some (Elt <$> last l, s') /\ refines s' (<[h := removelast l]> A)).
Proof.
  intros HR Hl. pose proof (HR _ _ Hl) as Hr. split; [destruct (pop_spec s A h l) as (s' & ? & ? & _); eauto |].
  unfold remove_list_tail. rewrite (get_list_tail_spec s h l Hr). opt.
  destruct l as [|e l _] using rev_ind.
  - exists s. split; [done |]. simpl. by rewrite insert_id.
  - rewrite last_snoc, removelast_last. simpl.
    destruct (delete_spec s A h l e []) as (s' & E & HR' & _); [done.. |]. simpl in E. rewrite E. opt.
    rewrite app_nil_r in HR'. eauto.
Qed.

Lemma search_forw_loop s h condition l2 : forall fuel l1,
  rep s h (l1 ++ l2) -> (length l2 < fuel)%nat ->
  search_loop fuel (_get_next_element s) condition (Elt <$> head l2)
    = Ret (Elt <$> head (filter (fun e => condition (Elt e) = true) l2)).
Proof.
  induction l2 as [|e l2 IH]; intros [|fuel] l1 Hr Hf; simpl in Hf; try lia; [done |]. simpl.
  rewrite filter_cons. destruct (condition (Elt e)) eqn:Ec; [by rewrite decide_True |].
  rewrite decide_False by done. rewrite (_get_next_spec s h l1 e l2) by done.
  apply (IH fuel (l1 ++ [e])); [by rewrite <- app_assoc | lia].
Qed.

Lemma search_back_loop s h condition : forall l1 l2 fuel,
  rep s h (l1 ++ l2) -> (length l1 < fuel)%nat ->
  search_loop fuel (_get_prev_element s) condition (Elt <$> last l1)
    = Ret (Elt <$> last (filter (fun e => condition (Elt e) = true) l1)).
Proof.
  induction l1 as [|e l1 IH] using rev_ind; intros l2 [|fuel] Hr Hf; rewrite ?length_app in Hf; simpl in Hf; try lia; [done |].
  rewrite last_snoc, filter_app, filter_cons, filter_nil. simpl.
  destruct (condition (Elt e)) eqn:Ec; [by rewrite decide_True, last_snoc |].
  rewrite decide_False, app_nil_r by done. rewrite <- app_assoc in Hr. rewrite (_get_prev_spec s h l1 e l2) by done.
  apply (IH (e :: l2)); [done | lia].
Qed.

(** the searches terminate (one iteration per element and one for the end
    are enough) and return the first, respectively the last, element of the list
    that meets the condition, or NULL when there is none. *)
Theorem list_search (s : heap) (A : gmap nat (list nat)) (h : nat) (l : list nat) (condition : eptr -> bool) (fuel : nat) :
  refines s A -> A !! h = Some l -> (length l < fuel)%nat ->
  search_list_element_forw fuel s h condition = Ret (Elt <$> head (filter (fun e => condition (Elt e) = true) l)) /\
  search_list_element_back fuel s h condition = Ret (Elt <$> last (filter (fun e => condition (Elt e) = true) l)).
Proof.
  intros HR Hl Hf. pose proof (HR _ _ Hl) as Hr. unfold search_list_element_forw, search_list_element_back.
  rewrite (get_list_head_spec s h l Hr), (get_list_tail_spec s h l Hr). split.
  - by apply (search_forw_loop s h condition l fuel []).
  - apply (search_back_loop s h condition l []); by rewrite ?app_nil_r.
Qed.

(** ** Initialization *)

Lemma init_empty s A h hd x y t e :
  refines s A -> A !! h = None -> headers s !! h = Some hd -> has (h_flags hd) SIMPLE_LIST_FLAG_INIT = false ->
  elems s !! Head h = Some x -> elems s !! Tail h = Some y ->
  exists s0, refines s0 (<[h := []]> A) /\ (forall f, keeps f s s0) /\
    init_list_header s h t e =
      if t =? SIMPLE_LIST_TYPE_ONE then match e with Some e => add_list_element_first s0 h e | None => Some s0 end
      else if t =? SIMPLE_LIST_TYPE_DEFAULT then set_header_ops_default s0 h else Some s0.
Proof.
  intros HR HA Hh Hf Hx Hy. unfold init_list_header. rewrite Hh. opt. rewrite Hf.
  unfold upd, upd_header, set_header_ops_empty, set_header_ops, upd_header. rewrite Hx. opt. simpl. simplify_map_eq.
  eexists. split; [| split; [| done]].
  - intros h2 l2 H2. destruct (decide (h2 = h)) as [->|Hne].
    + simplify_map_eq. constructor; simpl; simplify_map_eq; [| done | | | | | constructor].
      * eexists. split; [done |]. by apply has_lor_same.
      * split; [| done]. unfold edge, next_of, prev_of. by simplify_map_eq.
      * intros f Hf'. set_solver.
      * unfold info_of. by simplify_map_eq.
      * unfold info_of. by simplify_map_eq.
    + rewrite lookup_insert_ne in H2 by done. apply (rep_frame s); [by apply HR | by simplify_map_eq |].
      intros z Hz. apply elem_of_nodes in Hz.
      assert (z <> Head h /\ z <> Tail h) as [? ?] by (destruct Hz as [-> | [(f & -> & _) | ->]]; split; congruence).
      unfold next_of, prev_of, info_of. simpl. by simplify_map_eq.
  - intros e' f. unfold alloc, single, info_of. simpl. by rewrite !lookup_insert_ne by done.
Qed.

Lemma init_header_other s A h hd x y :
  refines s A -> A !! h = None -> headers s !! h = Some hd -> has (h_flags hd) SIMPLE_LIST_FLAG_INIT = false ->
  elems s !! Head h = Some x -> elems s !! Tail h = Some y ->
  exists s', init_list_header s h SIMPLE_LIST_TYPE_EMPTY None = Some s' /\ refines s' (<[h := []]> A) /\ (forall f, keeps f s s') /\
    forall h', h' <> h -> headers s' !! h' = headers s !! h' /\
      elems s' !! Head h' = elems s !! Head h' /\ elems s' !! Tail h' = elems s !! Tail h'.
Proof.
  intros HR HA Hh Hf Hx Hy. destruct (init_empty s A h hd x y SIMPLE_LIST_TYPE_EMPTY None) as (s0 & ? & ? & E); [done.. |].
  exists s0. rewrite E. repeat (split; [done |]). revert E. unfold init_list_header. rewrite Hh. opt. rewrite Hf.
  unfold upd, upd_header, set_header_ops_empty, set_header_ops, upd_header. rewrite Hx. opt. simpl. simplify_map_eq.
  intros [= <-] h' Hne. simpl. by rewrite !lookup_insert_ne by congruence.
Qed.

(** [init_list_header] makes an empty list of a header that is not
    initialized yet, a list of one element with type ONE and an element, and
    does nothing on a header that was initialized before. *)
Theorem init_list_header_refines (s : heap) (A : gmap nat (list nat)) (h e : nat) (hd : list_header) :
  refines s A -> A !! h = None -> headers s !! h = Some hd ->
  is_Some (elems s !! Head h) -> is_Some (elems s !! Tail h) -> alloc s e -> unused A e ->
  (has (h_flags hd) SIMPLE_LIST_FLAG_INIT = false ->
     becomes s e (init_list_header s h SIMPLE_LIST_TYPE_EMPTY None) A h [] /\
     becomes s e (init_list_header s h SIMPLE_LIST_TYPE_ONE (Some (Elt e))) A h [e]) /\
  (has (h_flags hd) SIMPLE_LIST_FLAG_INIT = true -> forall t o, init_list_header s h t o = Some s).
Proof.
  intros HR HA Hh [x Hx] [y Hy] Ha Hu. split.
  - intros Hf. split.
    + destruct (init_empty s A h hd x y SIMPLE_LIST_TYPE_EMPTY None) as (s0 & HR0 & Hk0 & ->); [done.. |]. by exists s0.
    + destruct (init_empty s A h hd x y SIMPLE_LIST_TYPE_ONE (Some (Elt e))) as (s0 & HR0 & Hk0 & ->); [done.. |]. simpl.
      assert (unused (<[h:=[]]> A) e) as Hu0
        by (intros h2 l2; rewrite lookup_insert; case_decide; [intros [= <-]; set_solver | apply Hu]).
      assert (becomes s0 e (add_list_element_first s0 h (Elt e)) (<[h:=[]]> A) h [e]) as (s' & E & HR' & Hk').
      { apply add_after_init; [done | by apply (Hk0 e e) | done |]. intros s1 HR1 Ha1.
        apply (ops_insert_after_spec s1 _ h [] [] e); [done | by simplify_map_eq | done | done | done]. }
      exists s'. rewrite insert_insert_eq in HR'. split; [done |]. split; [done |]. by eapply keeps_trans; [apply Hk0 |].
  - intros Hf t o. unfold init_list_header. rewrite Hh. opt. by rewrite Hf.
Qed.

(** [list_element_is_first] recognizes the first element of a list, but
    [list_element_is_last] compares the element itself, not its successor, with
    the tail sentinel: it is -1 for every element of every list. *)
Theorem list_element_is_first_last (s : heap) (A : gmap nat (list nat)) (h e : nat) (l1 l2 : list nat) :
  refines s A -> A !! h = Some (l1 ++ e :: l2) ->
  list_element_is_first s (Elt e) = Some (if decide (l1 = []) then 0 else -1) /\
  list_element_is_last s (Elt e) = Some (-1).
Proof.
  intros HR Hl. pose proof (HR _ _ Hl) as Hr. destruct (rep_edges s h l1 e l2 Hr) as ([_ Hp] & _).
  pose proof (rep_nodes _ _ _ Hr e ltac:(set_solver)) as Hi. unfold info_of in Hi.
  apply prev_of_lookup in Hp as (x & Hx & Hp). unfold list_element_is_first, list_element_is_last.
  rewrite Hx in *. injection Hi as Hxh _. opt. rewrite Hxh. opt. rewrite Hp. split; [| done].
  destruct (decide (l1 = [])) as [->|Hne]; [by rewrite bool_decide_eq_true_2 |].
  rewrite bool_decide_eq_false_2; [done |]. unfold left_of. intros [= E].
  destruct l1 as [|f l1 _] using rev_ind; [done |]. by rewrite last_snoc in E.
Qed.

(** ** A concrete heap: two lists and a spare element *)

Definition new_element : list_element := mk_element None None None (Some OpsStandalone).

(** [INIT_LIST_ELEMENT] and [INIT_LIST_HEADER] for [n] headers and [k] elements. *)
Definition new_heap (n k : nat) : heap :=
  mk_heap (list_to_map (((fun h => (Head h, new_element)) <$> seq 0 n) ++ ((fun h => (Tail h, new_element)) <$> seq 0 n) ++
                        ((fun e => (Elt e, new_element)) <$> seq 0 k)))
          (list_to_map ((fun h => (h, mk_header 0 0 None)) <$> seq 0 n)).

Definition example_heap : heap :=
  default (new_heap 2 4) (
    let? s := init_list_header (new_heap 2 4) 0 SIMPLE_LIST_TYPE_EMPTY None in
    let? s := init_list_header s 1 SIMPLE_LIST_TYPE_ONE (Some (Elt 3)) in
    let? s := add_list_element_last s 0 (Elt 0) in
    add_list_element_first s 0 (Elt 1)).

Definition example_lists : gmap nat (list nat) := {[0%nat := [1%nat; 0%nat]; 1%nat := [3%nat]]}.

Lemma example_refines : refines example_heap example_lists.
Proof.
  unfold refines, example_lists.
  intros h l [[<- <-] | [_ [<- <-]%lookup_singleton_Some]]%lookup_insert_Some; constructor;
    try (vm_compute; done); try (eexists; split; vm_compute; reflexivity);
    try (vm_compute; repeat split; done); try (repeat constructor; set_solver);
    intros e; rewrite ?elem_of_cons, ?elem_of_nil; naive_solver.
Qed.

Lemma example_unused : unused example_lists 2.
Proof.
  unfold unused, example_lists.
  intros h l [[<- <-] | [_ [<- <-]%lookup_singleton_Some]]%lookup_insert_Some; set_solver.
Qed.

Lemma list_add_refines_witness :
  becomes example_heap 2 (add_list_element_before example_heap 0 (Elt 0) (Elt 2)) example_lists 0 [1%nat; 2%nat; 0%nat].
Proof.
  apply (proj2 (proj2 (list_add_refines example_heap example_lists 0 2 [1%nat; 0%nat] example_refines eq_refl
    (ltac:(eexists; reflexivity)) example_unused (ltac:(done)))) [1%nat] 0%nat []). done.
Defined.

Lemma list_remove_refines_witness :
  exists s', remove_list_element example_heap (Some (Elt 0)) = Some s' /\
    refines s' (<[0%nat := [1%nat]]> example_lists) /\ remove_list_element s' (Some (Elt 0)) = Some s'.
Proof. apply (list_remove_refines example_heap example_lists 0 0 [1%nat] [] example_refines eq_refl). Defined.

Lemma list_traversal_witness : get_list_tail example_heap 0 = Some (Some (Elt 0)).
Proof. apply (list_traversal example_heap example_lists 0 [1%nat; 0%nat] example_refines eq_refl). Defined.

Lemma list_pop_refines_witness :
  (exists s', remove_list_head example_heap 0 = Some (Some (Elt 1), s') /\ refines s' (<[0%nat := [0%nat]]> example_lists)) /\
  (exists s', remove_list_tail example_heap 0 = Some (Some (Elt 0), s') /\ refines s' (<[0%nat := [1%nat]]> example_lists)).
Proof. apply (list_pop_refines example_heap example_lists 0 [1%nat; 0%nat] example_refines eq_refl). Defined.

Lemma list_search_witness :
  search_list_element_forw 3 example_heap 0 (fun x => match x with Elt 0 => true | _ => false end) = Ret (Some (Elt 0)).
Proof.
  apply (proj1 (list_search example_heap example_lists 0 [1%nat; 0%nat]
    (fun x => match x with Elt 0 => true | _ => false end) 3 example_refines eq_refl (ltac:(simpl; lia)))).
Defined.

Lemma init_list_header_refines_witness :
  becomes (new_heap 2 4) 3 (init_list_header (new_heap 2 4) 1 SIMPLE_LIST_TYPE_ONE (Some (Elt 3))) ∅ 1 [3%nat].
Proof.
  apply (init_list_header_refines (new_heap 2 4) ∅ 1 3 (mk_header 0 0 None));
    [by intros ? ? ? | done | done | by eexists | by eexists | by eexists | by intros ? ? ? | done].
Defined.

Lemma list_element_is_first_last_witness :
  list_element_is_first example_heap (Elt 0) = Some (-1) /\ list_element_is_last example_heap (Elt 0) = Some (-1).
Proof. apply (list_element_is_first_last example_heap example_lists 0 0 [1%nat] [] example_refines eq_refl). Defined.

(** a list initialized with type DEFAULT and still empty gives its own tail
    sentinel as head, not NULL. *)
Theorem init_default_head_is_sentinel :
  (let? s := init_list_header (new_heap 1 0) 0 SIMPLE_LIST_TYPE_DEFAULT None in get_list_head s 0) = Some (Some (Tail 0)).
Proof. reflexivity. Qed.

End SimpleList.
