(* ===== verification/ListStore.v ===== *)
(** * The list interface the rest of the program uses

    The tables of the program (hash tables, the channel table, the table of
    outstanding requests) use lists only through the functions of simple-list.h.
    The class states what those functions promise about the sequences of
    elements; the instance is discharged by the lemmas of the file SimpleList.
    An element is known by the object it is embedded in, so the conversion of a
    [struct list_element_s *] to its container is part of the interface. *)

From stdpp Require Import base list list_numbers numbers option gmap.
From S2P Require Import Prelude SimpleList.
Import SimpleList.

Module ListStore.

Class ListStore (S : Type) := {
  ls_refines : S -> gmap nat (list nat) -> Prop;   (* the lists of the store *)
  ls_alloc : S -> nat -> Prop;                     (* the element is an object of the program *)
  ls_single : S -> nat -> Prop;                    (* it is initialized and in no list *)
  ls_init : S -> nat -> option nat -> option S;    (* init_list_element (e, h) *)
  ls_init_header : S -> nat -> option S;           (* init_list_header (h, EMPTY, NULL) *)
  ls_raw_header : S -> nat -> Prop;                (* allocated, and its flags are zero *)
  ls_add_last : S -> nat -> nat -> option S;
  ls_add_first : S -> nat -> nat -> option S;
  ls_remove : S -> nat -> option S;
  ls_head : S -> nat -> option (option nat);
  ls_next : S -> nat -> option (option nat);
  ls_remove_head : S -> nat -> option (option nat * S);
  ls_owner : S -> nat -> option (option nat);      (* the field h of the element *)

  ls_init_spec s A e h :
    ls_refines s A -> ls_alloc s e -> unused A e ->
    exists s', ls_init s e h = Some s' /\ ls_refines s' A /\
      forall f, (ls_alloc s f -> ls_alloc s' f) /\ (f <> e -> ls_single s f -> ls_single s' f);
  ls_init_header_spec s A h :
    ls_refines s A -> A !! h = None -> ls_raw_header s h ->
    exists s', ls_init_header s h = Some s' /\ ls_refines s' (<[h := []]> A) /\
      (forall f, ls_alloc s f -> ls_alloc s' f) /\
      (forall h', h' <> h -> ls_raw_header s h' -> ls_raw_header s' h');
  ls_add_last_spec s A h l e :
    ls_refines s A -> A !! h = Some l -> ls_alloc s e -> unused A e -> is_u64 (zlen l + 1) ->
    exists s', ls_add_last s h e = Some s' /\ ls_refines s' (<[h := l ++ [e]]> A) /\
      forall f, (ls_alloc s f -> ls_alloc s' f) /\ (f <> e -> ls_single s f -> ls_single s' f);
  ls_add_first_spec s A h l e :
    ls_refines s A -> A !! h = Some l -> ls_alloc s e -> unused A e -> is_u64 (zlen l + 1) ->
    exists s', ls_add_first s h e = Some s' /\ ls_refines s' (<[h := e :: l]> A) /\
      forall f, (ls_alloc s f -> ls_alloc s' f) /\ (f <> e -> ls_single s f -> ls_single s' f);
  ls_remove_spec s A h l1 e l2 :
    ls_refines s A -> A !! h = Some (l1 ++ e :: l2) ->
    exists s', ls_remove s e = Some s' /\ ls_refines s' (<[h := l1 ++ l2]> A) /\ ls_single s' e /\
      forall f, (ls_alloc s f -> ls_alloc s' f) /\ (f <> e -> ls_single s f -> ls_single s' f);
  ls_remove_single s e : ls_single s e -> ls_remove s e = Some s;
  ls_head_spec s A h l :
    ls_refines s A -> A !! h = Some l -> ls_head s h = Some (head l);
  ls_next_spec s A h l1 e l2 :
    ls_refines s A -> A !! h = Some (l1 ++ e :: l2) -> ls_next s e = Some (head l2);
  ls_remove_head_spec s A h l :
    ls_refines s A -> A !! h = Some l ->
    exists s', ls_remove_head s h = Some (head l, s') /\ ls_refines s' (<[h := tail l]> A) /\
      (forall f, ls_alloc s f -> ls_alloc s' f);
  ls_owner_spec s A h l e : ls_refines s A -> A !! h = Some l -> e ∈ l -> ls_owner s e = Some (Some h);
  ls_owner_single s e : ls_single s e -> ls_owner s e = Some None;
  ls_nodup s A h l : ls_refines s A -> A !! h = Some l -> NoDup l;
  ls_disjoint s A h h' l l' e :
    ls_refines s A -> A !! h = Some l -> A !! h' = Some l' -> e ∈ l -> e ∈ l' -> h = h'
}.

(** The object an element is embedded in; a sentinel has none. *)
Definition container (e : option eptr) : option (option nat) :=
  match e with
  | None => Some None
  | Some (Elt n) => Some (Some n)
  | Some _ => None
  end.

Lemma container_Elt (o : option nat) : container (Elt <$> o) = Some o.
Proof. by destruct o. Qed.

#[export, refine] Instance simple_list_store : ListStore heap := {|
  ls_refines := refines;
  ls_alloc := alloc;
  ls_single := single;
  ls_init s e h := init_list_element s (Elt e) h;
  ls_init_header s h := init_list_header s h SIMPLE_LIST_TYPE_EMPTY None;
  ls_raw_header s h := (exists hd, headers s !! h = Some hd /\ has (h_flags hd) SIMPLE_LIST_FLAG_INIT = false) /\
    is_Some (elems s !! Head h) /\ is_Some (elems s !! Tail h);
  ls_add_last s h e := add_list_element_last s h (Elt e);
  ls_add_first s h e := add_list_element_first s h (Elt e);
  ls_remove s e := remove_list_element s (Some (Elt e));
  ls_head s h := let? e := get_list_head s h in container e;
  ls_next s e := let? e := get_next_element s (Elt e) in container e;
  ls_remove_head s h := let? (e, s) := remove_list_head s h in let? e := container e in Some (e, s);
  ls_owner s e := let? x := elems s !! Elt e in Some (e_h x)
|}.
Proof.
  - intros. by apply init_element_spec.
  - intros s A h HR HA ((hd & Hh & Hf) & [x Hx] & [y Hy]).
    destruct (init_header_other s A h hd x y) as (s' & ? & ? & H1 & Hother); [done.. |].
    exists s'. do 2 (split; [done |]). split; [by intros f; apply (H1 f f) |]. intros h' Hne Hraw. destruct (Hother h' Hne) as (-> & -> & ->). done.
  - intros. by apply add_last_spec.
  - intros. by apply add_first_spec.
  - intros. destruct (delete_spec s A h l1 e l2) as (s' & ? & ? & ? & ?); eauto 6.
  - intros. by apply standalone_remove.
  - intros s A h l HR Hl. rewrite (get_list_head_spec s h l (HR _ _ Hl)). opt. apply container_Elt.
  - intros s A h l1 e l2 HR Hl. rewrite (next_element_spec s h l1 e l2 (HR _ _ Hl)). opt. apply container_Elt.
  - intros s A h l HR Hl. destruct (pop_spec s A h l HR Hl) as (s' & -> & ? & ?). opt. rewrite container_Elt. opt. eauto.
  - intros s A h l e HR Hl He. pose proof (rep_nodes _ _ _ (HR _ _ Hl) e He) as H. unfold info_of in H.
    destruct (elems s !! Elt e); [| done]. injection H as E _. opt. by rewrite E.
  - intros s e H. unfold single, info_of in H. destruct (elems s !! Elt e); [| done]. injection H as E _. opt. by rewrite E.
  - intros s A h l HR Hl. apply (rep_nodup _ _ _ (HR _ _ Hl)).
  - intros s A h h' l l' e HR Hl Hl' He He'. pose proof (rep_nodes _ _ _ (HR _ _ Hl) e He) as H1.
    pose proof (rep_nodes _ _ _ (HR _ _ Hl') e He') as H2. congruence.
Defined.

(** ** The loops of the tables

    [list = get_list_head (h); while (list) { if (test (container)) break; list =
    get_next_element (list); }]: the element the loop stops at. *)
Section Loop.
Context {S : Type} `{!ListStore S}.

Fixpoint walk_list (fuel : nat) (st : S) (test : nat -> option bool) (list : option nat) : outcome (option nat) :=
  match fuel with
  | O => NoFuel
  | Datatypes.S fuel =>
      match list with
      | None => Ret None
      | Some e =>
          match test e with
          | None => Ub
          | Some true => Ret (Some e)
          | Some false => match ls_next st e with Some n => walk_list fuel st test n | None => Ub end
          end
      end
  end.

Definition find_in_list (fuel : nat) (st : S) (h : nat) (test : nat -> option bool) : outcome (option nat) :=
  match ls_head st h with Some e => walk_list fuel st test e | None => Ub end.

Lemma walk_list_spec st A h test l2 : forall fuel l1,
  ls_refines st A -> A !! h = Some (l1 ++ l2) -> Forall (fun e => is_Some (test e)) l2 -> (length l2 < fuel)%nat ->
  walk_list fuel st test (head l2) = Ret (head (filter (fun e => test e = Some true) l2)).
Proof.
  induction l2 as [|e l2 IH]; intros [|fuel] l1 HR Hl Hf Hlen; simpl in Hlen; try lia; [done |].
  apply Forall_cons_1 in Hf as [[[] Hd] Hf]; simpl; rewrite filter_cons, Hd; [by rewrite decide_True |].
  rewrite decide_False by congruence. rewrite (ls_next_spec _ A h l1 e l2) by done.
  apply (IH fuel (l1 ++ [e])); [done | by rewrite <- app_assoc | done | lia].
Qed.

Lemma find_in_list_spec st A h test l fuel :
  ls_refines st A -> A !! h = Some l -> Forall (fun e => is_Some (test e)) l -> (length l < fuel)%nat ->
  find_in_list fuel st h test = Ret (head (filter (fun e => test e = Some true) l)).
Proof.
  intros HR Hl Hf Hlen. unfold find_in_list. rewrite (ls_head_spec _ A _ l HR Hl).
  by apply (walk_list_spec st A h test l fuel []).
Qed.

(** With too little fuel the loop runs out of it, and returns nothing wrong. *)
Lemma walk_list_any st A h test l2 : forall fuel l1,
  ls_refines st A -> A !! h = Some (l1 ++ l2) -> Forall (fun e => is_Some (test e)) l2 ->
  walk_list fuel st test (head l2) = NoFuel \/
  walk_list fuel st test (head l2) = Ret (head (filter (fun e => test e = Some true) l2)).
Proof.
  induction l2 as [|e l2 IH]; intros [|fuel] l1 HR Hl Hf; auto.
  apply Forall_cons_1 in Hf as [[[] Hd] Hf]; simpl; rewrite filter_cons, Hd; [right; by rewrite decide_True |].
  rewrite decide_False by congruence. rewrite (ls_next_spec _ A h l1 e l2) by done.
  apply (IH fuel (l1 ++ [e])); [done | by rewrite <- app_assoc | done].
Qed.

(** The loop that initializes an array of headers. *)
Fixpoint init_headers (st : S) (hs : list nat) : option S :=
  match hs with
  | [] => Some st
  | h :: hs => let? st := ls_init_header st h in init_headers st hs
  end.

Lemma init_headers_spec hs : forall st A,
  NoDup hs -> ls_refines st A -> (forall h, h ∈ hs -> A !! h = None /\ ls_raw_header st h) ->
  exists st' A', init_headers st hs = Some st' /\ ls_refines st' A' /\
    (forall f, ls_alloc st f -> ls_alloc st' f) /\
    (forall h, h ∈ hs -> A' !! h = Some []) /\ (forall h, h ∉ hs -> A' !! h = A !! h).
Proof.
  induction hs as [|h hs IH]; intros st A Hnd HR Hh.
  - exists st, A. split; [done |]. split; [done |]. split; [done |]. split; [set_solver | done].
  - apply NoDup_cons in Hnd as [Hni Hnd]. destruct (Hh h ltac:(left)) as [HA Hraw]. cbn [init_headers].
    destruct (ls_init_header_spec st A h HR HA Hraw) as (st1 & -> & HR1 & Hk1 & Hraw1). opt.
    destruct (IH st1 (<[h := []]> A) Hnd HR1) as (st' & A' & -> & HR' & Hk & H1 & H2).
    + intros h' Hin. destruct (Hh h' ltac:(by right)). rewrite lookup_insert_ne by set_solver.
      split; [done |]. apply Hraw1; [set_solver | done].
    + exists st', A'. split; [done |]. split; [done |]. split; [auto |]. split.
      * intros h' [-> | Hin]%elem_of_cons; [rewrite H2 by done; by simplify_map_eq | by apply H1].
      * intros h' Hn. rewrite H2 by set_solver. by rewrite lookup_insert_ne by set_solver.
Qed.

End Loop.

Lemma head_filter_None (P : nat -> Prop) `{!forall x, Decision (P x)} l : head (filter P l) = None <-> forall x, x ∈ l -> ~ P x.
Proof.
  split.
  - intros Hn x Hx HP. assert (x ∈ filter P l) as Hf by (by apply list_elem_of_filter).
    destruct (filter P l); [set_solver | done].
  - intros Hn. destruct (filter P l) as [|y k] eqn:E; [done |].
    assert (y ∈ filter P l) as Hf by (rewrite E; left). apply list_elem_of_filter in Hf as [HP Hy]. by destruct (Hn y).
Qed.

Lemma head_filter_Some (P : nat -> Prop) `{!forall x, Decision (P x)} l x :
  head (filter P l) = Some x -> P x /\ exists l1 l2, l = l1 ++ x :: l2 /\ forall y, y ∈ l1 -> ~ P y.
Proof.
  induction l as [|y l IH]; [done |]. rewrite filter_cons. case_decide as Hy; simpl.
  - intros [= ->]. split; [done |]. exists [], l. split; [done |]. set_solver.
  - intros (HP & l1 & l2 & -> & Hn)%IH. split; [done |]. exists (y :: l1), l2. split; [done |].
    intros z [-> |]%elem_of_cons; auto.
Qed.

(** ** Arrays of headers: [len] rows, the first is header [base] *)
Section Rows.
Context (base : nat) (len : Z).

Definition row_header (i : Z) : nat := (base + Z.to_nat i)%nat.
Definition row_headers : list nat := (fun i => base + i)%nat <$> seq 0 (Z.to_nat len).

(** [e] is in one of the rows, respectively in a row other than [i]. *)
Definition row_member (A : gmap nat (list nat)) (e : nat) : Prop :=
  exists i l, 0 <= i < len /\ A !! row_header i = Some l /\ e ∈ l.

Definition row_elsewhere (A : gmap nat (list nat)) (i : Z) (e : nat) : Prop :=
  exists j k, 0 <= j < len /\ j <> i /\ A !! row_header j = Some k /\ e ∈ k.

Lemma row_header_inj i j : 0 <= i -> 0 <= j -> row_header i = row_header j -> i = j.
Proof. unfold row_header. lia. Qed.

Lemma row_headers_nodup : NoDup row_headers.
Proof. apply NoDup_fmap_2; [intros ? ? ?; lia | apply NoDup_seq]. Qed.

Lemma elem_of_row_headers h : h ∈ row_headers <-> exists i, 0 <= i < len /\ h = row_header i.
Proof.
  unfold row_headers, row_header. rewrite list_elem_of_fmap. split.
  - intros (i & -> & Hi%elem_of_seq). exists (Z.of_nat i). split; lia.
  - intros (i & Hi & ->). exists (Z.to_nat i). split; [done |]. apply elem_of_seq. lia.
Qed.

Lemma row_member_change A i l' f :
  0 <= i < len -> row_member (<[row_header i := l']> A) f <-> f ∈ l' \/ row_elsewhere A i f.
Proof.
  intros Hi. split.
  - intros (j & k & Hj & Hk & Hin). destruct (decide (j = i)) as [->|Hne]; [simplify_map_eq; by left |].
    rewrite lookup_insert_ne in Hk by (intros E; apply Hne; symmetry; apply row_header_inj in E; lia). right. by exists j, k.
  - intros [Hin | (j & k & Hj & Hne & Hk & Hin)]; [exists i, l'; by simplify_map_eq |].
    exists j, k. by rewrite lookup_insert_ne by (intros E; apply Hne; symmetry; apply row_header_inj in E; lia).
Qed.

Lemma row_member_bucket A i l f :
  0 <= i < len -> A !! row_header i = Some l -> row_member A f <-> f ∈ l \/ row_elsewhere A i f.
Proof. intros Hi Hl. rewrite <- (row_member_change A i l f Hi). by rewrite insert_id. Qed.

Lemma row_lookup_ne (A : gmap nat (list nat)) i j l : 0 <= i -> 0 <= j -> i <> j -> <[row_header i := l]> A !! row_header j = A !! row_header j.
Proof. intros ? ? Hne. apply lookup_insert_ne. intros E. apply Hne, row_header_inj; lia || done. Qed.

(** The number of elements of all rows. *)
Definition rows_total (A : gmap nat (list nat)) : Z :=
  foldr Z.add 0 ((fun h => zlen (default [] (A !! h))) <$> row_headers).

Lemma rows_total_change A i l l' :
  0 <= i < len -> A !! row_header i = Some l ->
  rows_total (<[row_header i := l']> A) = rows_total A + zlen l' - zlen l.
Proof.
  intros Hi Hl. unfold rows_total.
  assert (row_header i ∈ row_headers) as Hin by (apply elem_of_row_headers; eauto).
  pose proof row_headers_nodup as Hnd. induction row_headers as [|h hs IH]; [set_solver |].
  apply NoDup_cons in Hnd as [Hni Hnd]. cbn [fmap list_fmap foldr].
  destruct (decide (h = row_header i)) as [->|Hne].
  - rewrite lookup_insert, decide_True, Hl by done. simpl.
    assert (forall x, x ∈ hs -> <[row_header i := l']> A !! x = A !! x) as E
      by (intros x Hx; apply lookup_insert_ne; intros E; apply Hni; by rewrite E).
    rewrite (list_fmap_ext _ (fun h => zlen (default [] (A !! h))) hs); [lia |].
    intros j x Hx. rewrite E; [done |]. by eapply list_elem_of_lookup_2.
  - rewrite lookup_insert_ne by done. rewrite IH; [lia | set_solver | done].
Qed.

(** An element of row [i] is in no other row. *)
Lemma row_elsewhere_ne {S} `{!ListStore S} st A i l e f :
  ls_refines (S := S) st A -> 0 <= i -> A !! row_header i = Some l -> e ∈ l -> row_elsewhere A i f -> f <> e.
Proof.
  intros HR Hi Hl He (j & k & Hj & Hne & Hk & Hin) ->. apply Hne.
  apply row_header_inj; [lia | lia |]. by apply (ls_disjoint _ _ _ _ k l e HR).
Qed.

End Rows.

(** ** Concrete stores: [n] empty rows and [k] elements *)

Lemma list_to_map_is_Some {K V} `{Countable K} (l : list (K * V)) i : i ∈ l.*1 -> is_Some ((list_to_map l : gmap K V) !! i).
Proof.
  intros Hi. destruct ((list_to_map l : gmap K V) !! i) eqn:E; [by eexists |]. by apply not_elem_of_list_to_map in E.
Qed.

Lemma new_heap_raw (n k h : nat) : (h < n)%nat -> ls_raw_header (new_heap n k) h.
Proof.
  intros Hh. unfold new_heap. cbn [ls_raw_header simple_list_store elems headers]. split; [| split].
  - exists (mk_header 0 0 None). split; [| done]. apply elem_of_list_to_map_1.
    + rewrite <- list_fmap_compose. cbn. rewrite list_fmap_id. apply NoDup_seq.
    + apply list_elem_of_fmap. exists h. split; [done |]. apply elem_of_seq. lia.
  - apply list_to_map_is_Some. rewrite fmap_app, elem_of_app. left. rewrite <- list_fmap_compose. apply list_elem_of_fmap.
    exists h. split; [done |]. apply elem_of_seq. lia.
  - apply list_to_map_is_Some. rewrite !fmap_app, !elem_of_app. right. left. rewrite <- list_fmap_compose. apply list_elem_of_fmap.
    exists h. split; [done |]. apply elem_of_seq. lia.
Qed.

Lemma new_heap_alloc (n k e : nat) : (e < k)%nat -> ls_alloc (new_heap n k) e.
Proof.
  intros He. unfold new_heap. cbn [ls_alloc simple_list_store]. unfold alloc. cbn [elems]. apply list_to_map_is_Some.
  rewrite !fmap_app, !elem_of_app. right. right. rewrite <- list_fmap_compose. apply list_elem_of_fmap.
  exists e. split; [done |]. apply elem_of_seq. lia.
Qed.

Definition row_store (n : Z) (k : nat) : heap :=
  default (new_heap (Z.to_nat n) k) (init_headers (new_heap (Z.to_nat n) k) (row_headers 0 n)).

Lemma row_store_spec n k : exists A, ls_refines (row_store n k) A /\ (forall h l, A !! h = Some l -> l = []) /\
  (forall i, 0 <= i < n -> A !! row_header 0 i = Some []) /\ (forall e, (e < k)%nat -> ls_alloc (row_store n k) e).
Proof.
  destruct (init_headers_spec (row_headers 0 n) (new_heap (Z.to_nat n) k) ∅) as (st & A & E & HR & Hk & H1 & H2).
  - apply row_headers_nodup.
  - by intros ? ? ?.
  - intros h (i & Hi & ->)%elem_of_row_headers. split; [done |]. apply new_heap_raw. unfold row_header. lia.
  - assert (row_store n k = st) as -> by (unfold row_store; by rewrite E). clear E. exists A. split; [exact HR |]. split; [| split].
    + intros h l Hl. destruct (decide (h ∈ row_headers 0 n)) as [Hin|Hn].
      * rewrite H1 in Hl by done. by injection Hl as <-.
      * rewrite H2 in Hl by done. done.
    + intros i Hi. apply H1, elem_of_row_headers. eauto.
    + intros e He. by apply Hk, new_heap_alloc.
Qed.

Definition store64 : heap := row_store 64 2.

Lemma store64_spec : exists A, ls_refines store64 A /\ (forall h l, A !! h = Some l -> l = []) /\
  (forall i, 0 <= i < 64 -> A !! row_header 0 i = Some []) /\ (forall e, (e < 2)%nat -> ls_alloc store64 e).
Proof. apply row_store_spec. Qed.

Lemma nil_rows (A : gmap nat (list nat)) e :
  (forall h l, A !! h = Some l -> l = []) -> unused A e /\ (forall h l, A !! h = Some l -> is_u64 (zlen l + 1)).
Proof. intros H. split; intros h l ->%H; [set_solver | done]. Qed.

#[global] Opaque row_store store64.

End ListStore.
