(* ===== verification/SimpleHash.v ===== *)
(** * lib/list/simple-hash.c: hash tables of data pointers

    A [struct simple_hash_s] is an array of list headers and a hash function.
    A [struct hash_element_s] is a list element with a data pointer; it is known
    here by the number of its list element.  A data pointer is a number, 0 is
    NULL.  The array [group->hash] is the [len] headers from [base] on; the
    lists are used through the interface of the file ListStore.  [malloc] is a
    parameter of the calls that use it, its result a fresh element or NULL. *)

From stdpp Require Import base list list_numbers numbers option gmap.
From S2P Require Import Prelude SimpleList ListStore.
Import SimpleList ListStore.

Module SimpleHash.

Section Hash.
Context {S : Type} `{!ListStore S}.
Context (hashfunction : nat -> Z) (len : Z) (base : nat).

Record hash_state := mk_hash {
  hs_store : S;
  hs_data : gmap nat nat          (* element->data *)
}.

Definition set_store (st : S) (s : hash_state) : hash_state := mk_hash st (hs_data s).

Abbreviation hdr := (row_header base).

(** [hashfunction (data) % group->len]; the division by zero is undefined. *)
Definition bucket (data : nat) : option Z :=
  if len =? 0 then None else Some (hashfunction data mod len).

Definition create_hash_element (malloc : option nat) (s : hash_state) : option (option nat * hash_state) :=
  match malloc with
  | None => Some (None, s)
  | Some e => let? st := ls_init (hs_store s) e None in Some (Some e, mk_hash st (<[e := 0%nat]> (hs_data s)))
  end.

Definition insert_in_hash (s : hash_state) (e : nat) : option hash_state :=
  let? d := hs_data s !! e in
  let? i := bucket d in
  let? st := ls_add_last (hs_store s) (hdr i) e in Some (set_store st s).

Definition move_from_hash (s : hash_state) (e : nat) : option hash_state :=
  let? d := hs_data s !! e in
  let? i := bucket d in
  let? st := ls_remove (hs_store s) e in Some (set_store st s).

(** [element->data == data] *)
Definition data_is (s : hash_state) (data e : nat) : option bool :=
  let? d := hs_data s !! e in Some (Nat.eqb d data).

Definition lookup_simple_hash (fuel : nat) (s : hash_state) (data : nat) : outcome (option nat) :=
  match bucket data with
  | None => Ub
  | Some i => find_in_list fuel (hs_store s) (hdr i) (data_is s data)
  end.

(** The value returned and the new [*index]. *)
Definition get_next_hashed_value (s : hash_state) (index : option nat) (hashvalue : Z) : option (nat * option nat) :=
  let? list := (match index with
                | Some e => ls_next (hs_store s) e
                | None => if len =? 0 then None else ls_head (hs_store s) (hdr (hashvalue mod len))
                end) in
  match list with
  | Some e => let? d := hs_data s !! e in Some (d, Some e)
  | None => Some (0%nat, None)
  end.

Definition add_data_to_hash (malloc : option nat) (s : hash_state) (data : nat) : option hash_state :=
  let? (e, s) := create_hash_element malloc s in
  match e with
  | Some e =>
      let s := mk_hash (hs_store s) (<[e := data]> (hs_data s)) in
      let? st := ls_init (hs_store s) e None in
      insert_in_hash (set_store st s) e
  | None => Some s
  end.

(** [free (element)]: its data is gone. *)
Definition free_element (s : hash_state) (e : nat) : hash_state := mk_hash (hs_store s) (delete e (hs_data s)).

Definition remove_data_from_hash (fuel : nat) (s : hash_state) (data : nat) : outcome hash_state :=
  outcome_bind (lookup_simple_hash fuel s data) (fun e =>
    match e with
    | Some e => match move_from_hash s e with Some s => Ret (free_element s e) | None => Ub end
    | None => Ret s
    end).

(** The state and the new [*index]. *)
Definition remove_data_from_hash_index (s : hash_state) (index : option nat) : option (hash_state * option nat) :=
  match index with
  | Some e => let? s := move_from_hash s e in Some (free_element s e, None)
  | None => Some (s, None)
  end.

Definition get_hashvalue_index (s : hash_state) (index : option nat) : option Z :=
  match index with Some e => let? d := hs_data s !! e in bucket d | None => Some 0 end.

(** [initialize_group]; [locking_ok] and [malloc_ok]: [init_osns_locking] and
    [malloc] of the array succeed.  The result and [*error]. *)
Definition initialize_group (locking_ok malloc_ok : bool) (s : hash_state) : option (Z * Z * hash_state) :=
  if negb locking_ok then Some (-1, 12, s)
  else if 0 <? len then
    if malloc_ok then
      let? st := init_headers (hs_store s) (row_headers base len) in
      Some (0, 0, set_store st s)
    else Some (-1, 12, s)
  else Some (0, 12, s).

(** The inner loop of [free_group]: the data given to [free_data], in order. *)
Fixpoint free_bucket (fuel : nat) (s : hash_state) (h : nat) : outcome (list nat * hash_state) :=
  match fuel with
  | O => NoFuel
  | Datatypes.S fuel =>
      match ls_remove_head (hs_store s) h with
      | None => Ub
      | Some (None, st) => Ret ([], set_store st s)
      | Some (Some e, st) =>
          match hs_data s !! e with
          | None => Ub
          | Some d =>
              outcome_bind (free_bucket fuel (free_element (set_store st s) e) h) (fun '(ds, s) =>
                Ret ((if Nat.eqb d 0 then ds else d :: ds), s))
          end
      end
  end.

Fixpoint free_buckets (fuel : nat) (s : hash_state) (hs : list nat) : outcome (list nat * hash_state) :=
  match hs with
  | [] => Ret ([], s)
  | h :: hs =>
      outcome_bind (free_bucket fuel s h) (fun '(ds, s) =>
        outcome_bind (free_buckets fuel s hs) (fun '(ds', s) => Ret (ds ++ ds', s)))
  end.

Definition free_group (fuel : nat) (s : hash_state) : outcome (list nat * hash_state) :=
  free_buckets fuel s (row_headers base len).

(** ** The invariant: every element is in the bucket of its data *)

Definition in_bucket (s : hash_state) (i : Z) (e : nat) : Prop :=
  exists d, hs_data s !! e = Some d /\ hashfunction d mod len = i.

Record wf (s : hash_state) (A : gmap nat (list nat)) : Prop := {
  wf_store : ls_refines (hs_store s) A;
  wf_len : 0 < len;
  wf_buckets i : 0 <= i < len -> exists l, A !! hdr i = Some l /\ Forall (in_bucket s i) l
}.

(** [e] is an element of the table, and with data [d]. *)
Abbreviation member := (row_member base len).

Definition stored (s : hash_state) (A : gmap nat (list nat)) (e d : nat) : Prop :=
  hs_data s !! e = Some d /\ member A e.

Lemma bucket_Some d : 0 < len -> bucket d = Some (hashfunction d mod len).
Proof. intros H. unfold bucket. by destruct (Z.eqb_spec len 0); [lia |]. Qed.

Lemma bucket_range d : 0 < len -> 0 <= hashfunction d mod len < len.
Proof. apply Z.mod_pos_bound. Qed.

(** An element stored with data [d] is in the bucket of [d]. *)
Lemma stored_bucket s A e d l :
  wf s A -> A !! hdr (hashfunction d mod len) = Some l -> stored s A e d <-> hs_data s !! e = Some d /\ e ∈ l.
Proof.
  intros Hwf Hl. pose proof (bucket_range d (wf_len _ _ Hwf)). split.
  - intros (Hd & i & l' & Hi & Hl' & He). split; [done |].
    destruct (wf_buckets _ _ Hwf i Hi) as (l2 & Hl2 & Hf). rewrite Hl' in Hl2. injection Hl2 as <-.
    rewrite Forall_forall in Hf. destruct (Hf e He) as (d' & Hd' & Hm). rewrite Hd in Hd'. injection Hd' as <-.
    rewrite Hm in *. by rewrite Hl in Hl'; injection Hl' as ->.
  - intros [Hd He]. split; [done |]. by exists (hashfunction d mod len), l.
Qed.

Lemma data_is_true s d e : data_is s d e = Some true <-> hs_data s !! e = Some d.
Proof.
  unfold data_is. destruct (hs_data s !! e) as [c|]; [| done]. opt.
  split; [intros [= ->%Nat.eqb_eq] | intros [= ->]]; by rewrite ?Nat.eqb_refl.
Qed.

Lemma in_bucket_data s i l : Forall (in_bucket s i) l -> Forall (fun e => is_Some (hs_data s !! e)) l.
Proof. intros H. apply (Forall_impl _ _ _ H). intros e (d & -> & _). eauto. Qed.

Lemma in_bucket_test s i d l : Forall (in_bucket s i) l -> Forall (fun e => is_Some (data_is s d e)) l.
Proof. intros H. apply (Forall_impl _ _ _ H). intros e (c & Hc & _). unfold data_is. rewrite Hc. by eexists. Qed.

Lemma lookup_bucket s A d :
  wf s A -> exists l, A !! hdr (hashfunction d mod len) = Some l /\ Forall (in_bucket s (hashfunction d mod len)) l /\
    forall fuel, (length l < fuel)%nat ->
      lookup_simple_hash fuel s d = Ret (head (filter (fun e => data_is s d e = Some true) l)).
Proof.
  intros Hwf. pose proof (wf_len _ _ Hwf) as H0. pose proof (bucket_range d H0) as Hr.
  destruct (wf_buckets _ _ Hwf _ Hr) as (l & Hl & Hf). exists l. split; [done |]. split; [done |]. intros fuel Hlen.
  unfold lookup_simple_hash. rewrite bucket_Some by done.
  apply (find_in_list_spec _ A); [apply Hwf | done | by eapply in_bucket_test | done].
Qed.

(** [lookup_simple_hash] terminates within one iteration per element of the
    bucket and one more; it returns an element of the table whose data is the
    one looked for, and NULL exactly when no element of the whole table has it. *)
Theorem hash_lookup_correct (s : hash_state) (A : gmap nat (list nat)) (d : nat) (fuel : nat) :
  wf s A -> (forall h l, A !! h = Some l -> (length l < fuel)%nat) ->
  exists r, lookup_simple_hash fuel s d = Ret r /\
    match r with Some e => stored s A e d | None => forall e, ~ stored s A e d end.
Proof.
  intros Hwf Hfuel. destruct (lookup_bucket s A d Hwf) as (l & Hl & Hf & Hlk). eexists. split; [by eapply Hlk, Hfuel |].
  destruct (head _) as [e|] eqn:E.
  - apply head_filter_Some in E as (Hd%data_is_true & l1 & l2 & -> & _). apply (stored_bucket _ _ _ _ _ Hwf Hl). set_solver.
  - intros e [Hd He]%(stored_bucket _ _ _ _ _ Hwf Hl). by apply (proj1 (head_filter_None _ _) E e), data_is_true.
Qed.

(** ** Adding and removing *)

Abbreviation elsewhere := (row_elsewhere base len).

Lemma wf_change s A i l st data l' :
  wf s A -> 0 <= i < len -> A !! hdr i = Some l -> ls_refines st (<[hdr i := l']> A) ->
  (forall e, elsewhere A i e -> data !! e = hs_data s !! e) ->
  Forall (fun e => exists d, data !! e = Some d /\ hashfunction d mod len = i) l' ->
  wf (mk_hash st data) (<[hdr i := l']> A).
Proof.
  intros Hwf Hi Hl HR Hd Hf. constructor; [done | apply Hwf |]. intros j Hj.
  destruct (decide (j = i)) as [->|Hne].
  - exists l'. split; [by simplify_map_eq | done].
  - destruct (wf_buckets _ _ Hwf j Hj) as (k & Hk & Hfk). exists k.
    rewrite row_lookup_ne by lia. split; [done |].
    rewrite Forall_forall in *. intros e He. unfold in_bucket. simpl.
    rewrite Hd by (exists j, k; done). by apply Hfk.
Qed.

(** [add_data_to_hash] with a fresh element adds exactly that element with
    the data to the table; when [malloc] fails the table is unchanged. *)
Theorem hash_add_correct (s : hash_state) (A : gmap nat (list nat)) (e d : nat) :
  wf s A -> ls_alloc (hs_store s) e -> unused A e -> (forall h l, A !! h = Some l -> is_u64 (zlen l + 1)) ->
  add_data_to_hash None s d = Some s /\
  exists s' A', add_data_to_hash (Some e) s d = Some s' /\ wf s' A' /\
    forall f c, stored s' A' f c <-> (f = e /\ c = d) \/ stored s A f c.
Proof.
  intros Hwf Ha Hu Hw. split; [done |]. pose proof (wf_len _ _ Hwf) as H0. pose proof (bucket_range d H0) as Hr.
  unfold add_data_to_hash, create_hash_element.
  destruct (ls_init_spec _ A e None (wf_store _ _ Hwf) Ha Hu) as (s1 & -> & HR1 & Hk1). opt. simpl hs_store. simpl hs_data.
  destruct (ls_init_spec s1 A e None HR1 (proj1 (Hk1 e) Ha) Hu) as (s2 & -> & HR2 & Hk2). opt.
  unfold insert_in_hash, set_store. simpl hs_store. simpl hs_data. simplify_map_eq. rewrite bucket_Some by done. opt.
  destruct (wf_buckets _ _ Hwf _ Hr) as (l & Hl & Hf).
  destruct (ls_add_last_spec s2 A _ l e HR2 Hl) as (s3 & -> & HR3 & _); [by apply (proj1 (Hk2 e)), (proj1 (Hk1 e)) | done | by eapply Hw |]. opt.
  rewrite insert_insert_eq. eexists _, _. split; [done |]. split.
  - apply (wf_change s A (hashfunction d mod len) l); [done | done | done | done | |].
    + intros f (j & k & _ & _ & Hk & Hin). rewrite lookup_insert_ne; [done |]. intros <-. by apply (Hu _ _ Hk).
    + rewrite Forall_forall in *. intros f [Hin | ->%list_elem_of_singleton]%elem_of_app.
      * rewrite lookup_insert_ne by (intros <-; by apply (Hu _ _ Hl)). by apply Hf.
      * exists d. by simplify_map_eq.
  - intros f c. unfold stored. simpl. rewrite (row_member_change base len A _ _ f Hr), (row_member_bucket base len A _ l f Hr Hl).
    rewrite elem_of_app, list_elem_of_singleton. destruct (decide (f = e)) as [->|Hne].
    + simplify_map_eq. split; [intros [[= <-] _]; by left |]. intros [[_ ->] | [_ [Hin | (j & k & _ & _ & Hk & Hin)]]];
        [auto | by destruct (Hu _ _ Hl) | by destruct (Hu _ _ Hk)].
    + rewrite lookup_insert_ne by done. naive_solver.
Qed.

(** The removal of one element of bucket [i]. *)
Lemma move_free_spec s A e d l1 l2 :
  wf s A -> hs_data s !! e = Some d -> A !! hdr (hashfunction d mod len) = Some (l1 ++ e :: l2) ->
  exists s' A', move_from_hash s e = Some s' /\ wf (free_element s' e) A' /\
    forall f c, stored (free_element s' e) A' f c <-> f <> e /\ stored s A f c.
Proof.
  intros Hwf Hd Hl. pose proof (wf_len _ _ Hwf) as H0. pose proof (bucket_range d H0) as Hr.
  pose proof (ls_nodup _ _ _ _ (wf_store _ _ Hwf) Hl) as (_ & Hdis & [Hni _]%NoDup_cons)%NoDup_app.
  assert (forall f, elsewhere A (hashfunction d mod len) f -> f <> e) as Hel.
  { intros f. apply (row_elsewhere_ne base len (hs_store s) A _ (l1 ++ e :: l2)); [apply Hwf | lia | done | set_solver]. }
  unfold move_from_hash. rewrite Hd. opt. rewrite bucket_Some by done. opt.
  destruct (ls_remove_spec _ A _ l1 e l2 (wf_store _ _ Hwf) Hl) as (s1 & -> & HR1 & _). opt.
  eexists _, _. split; [done |]. destruct (wf_buckets _ _ Hwf _ Hr) as (l & Hl2 & Hf). rewrite Hl in Hl2. injection Hl2 as <-.
  split.
  - apply (wf_change s A (hashfunction d mod len) (l1 ++ e :: l2)); [done | done | done | done | |]; simpl.
    + intros f Hx. rewrite lookup_delete_ne; [done |]. intros <-. by apply (Hel e Hx).
    + rewrite Forall_forall in *. intros f Hin. rewrite lookup_delete_ne by (intros <-; set_solver). apply Hf. set_solver.
  - intros f c. unfold stored. simpl. rewrite (row_member_change base len A _ _ f Hr), (row_member_bucket base len A _ _ f Hr Hl).
    rewrite !elem_of_app, elem_of_cons. specialize (Hel f). destruct (decide (f = e)) as [->|Hne].
    + simplify_map_eq. naive_solver.
    + rewrite lookup_delete_ne by done. naive_solver.
Qed.

(** [remove_data_from_hash] terminates, and removes one element with the
    data and nothing else; when no element has the data the table is unchanged. *)
Theorem hash_remove_correct (s : hash_state) (A : gmap nat (list nat)) (d : nat) (fuel : nat) :
  wf s A -> (forall h l, A !! h = Some l -> (length l < fuel)%nat) ->
  (exists e s' A', stored s A e d /\ remove_data_from_hash fuel s d = Ret s' /\ wf s' A' /\
     forall f c, stored s' A' f c <-> f <> e /\ stored s A f c) \/
  (remove_data_from_hash fuel s d = Ret s /\ forall e, ~ stored s A e d).
Proof.
  intros Hwf Hfuel. destruct (lookup_bucket s A d Hwf) as (l & Hl & Hf & Hlk).
  unfold remove_data_from_hash. rewrite Hlk by (by eapply Hfuel). simpl.
  destruct (head _) as [e|] eqn:E.
  - left. apply head_filter_Some in E as (Hd%data_is_true & l1 & l2 & -> & _).
    destruct (move_free_spec s A e d l1 l2 Hwf Hd Hl) as (s' & A' & -> & Hwf' & Hst).
    exists e. eexists _, _. split; [| done]. apply (stored_bucket _ _ _ _ _ Hwf Hl). set_solver.
  - right. split; [done |]. intros e [Hd He]%(stored_bucket _ _ _ _ _ Hwf Hl). by apply (proj1 (head_filter_None _ _) E e), data_is_true.
Qed.

(** ** Iteration *)

(** The values a caller collects by calling [get_next_hashed_value] until the
    index is NULL, at most [n] times. *)
Fixpoint collect (n : nat) (s : hash_state) (index : option nat) (hashvalue : Z) : option (list nat) :=
  match n with
  | O => Some []
  | Datatypes.S n =>
      let? (v, index) := get_next_hashed_value s index hashvalue in
      match index with
      | None => Some []
      | Some e => let? vs := collect n s (Some e) hashvalue in Some (v :: vs)
      end
  end.

Lemma collect_spec s A h l2 : forall l1 e,
  ls_refines (hs_store s) A -> A !! h = Some (l1 ++ e :: l2) -> Forall (fun e => is_Some (hs_data s !! e)) l2 ->
  forall n v, (length l2 < n)%nat -> collect n s (Some e) v = Some (omap (fun f => hs_data s !! f) l2).
Proof.
  induction l2 as [|f l2 IH]; intros l1 e HR Hl Hf [|n] v Hn; simpl in Hn; try lia.
  - simpl. unfold get_next_hashed_value. by rewrite (ls_next_spec _ A h l1 e []).
  - apply Forall_cons_1 in Hf as [[c Hc] Hf]. cbn [collect]. unfold get_next_hashed_value.
    rewrite (ls_next_spec _ A h l1 e (f :: l2)) by done. simpl. rewrite Hc. opt.
    rewrite (IH (l1 ++ [e]) f); [done | done | by rewrite <- app_assoc | done | lia].
Qed.

(** iterating over a bucket with [get_next_hashed_value], from a NULL index
    until the index is NULL again, yields the data of the elements of that
    bucket in their order, each once. *)
Theorem hash_iteration_correct (s : hash_state) (A : gmap nat (list nat)) (hashvalue : Z) (l : list nat) (n : nat) :
  wf s A -> A !! hdr (hashvalue mod len) = Some l -> (length l < n)%nat ->
  collect n s None hashvalue = Some (omap (fun e => hs_data s !! e) l).
Proof.
  intros Hwf Hl Hn. pose proof (wf_len _ _ Hwf) as H0. pose proof (Z.mod_pos_bound hashvalue len H0) as Hr.
  destruct (wf_buckets _ _ Hwf _ Hr) as (l' & Hl' & Hf). rewrite Hl in Hl'. injection Hl' as <-.
  destruct n as [|n]; [lia |]. cbn [collect]. unfold get_next_hashed_value. destruct (Z.eqb_spec len 0); [lia |].
  rewrite (ls_head_spec _ A _ l (wf_store _ _ Hwf) Hl). opt. apply in_bucket_data in Hf.
  destruct l as [|e l]; [done |]. simpl. apply Forall_cons_1 in Hf as [[c Hc] Hf]. rewrite Hc. opt.
  rewrite (collect_spec s A (hdr (hashvalue mod len)) l [] e); [done | apply Hwf | done | done | simpl in Hn; lia].
Qed.

(** ** Creating and freeing a table *)

Abbreviation all_headers := (row_headers base len).

(** on a zeroed array of headers [initialize_group] makes an empty table, and
    it reports -1 when the lock or the array cannot be allocated. *)
Theorem hash_initialize_correct (s : hash_state) (A : gmap nat (list nat)) :
  0 < len -> ls_refines (hs_store s) A ->
  (forall i, 0 <= i < len -> A !! hdr i = None /\ ls_raw_header (hs_store s) (hdr i)) ->
  (exists s' A', initialize_group true true s = Some (0, 0, s') /\ wf s' A' /\ forall e d, ~ stored s' A' e d) /\
  (forall b, initialize_group false b s = Some (-1, 12, s)) /\ initialize_group true false s = Some (-1, 12, s).
Proof.
  intros H0 HR Hraw. split; [| split; [done |]]; unfold initialize_group; simpl.
  - destruct (Z.ltb_spec 0 len); [| lia].
    destruct (init_headers_spec all_headers (hs_store s) A (row_headers_nodup base len) HR) as (st' & A' & -> & HR' & _ & H1 & _).
    { intros h (i & Hi & ->)%elem_of_row_headers. by apply Hraw. }
    opt. exists (set_store st' s), A'. split; [done |]. split.
    + constructor; [done | done |]. intros i Hi. exists []. split; [| constructor]. apply H1, elem_of_row_headers. eauto.
    + intros e d (_ & i & l & Hi & Hl & Hin). rewrite H1 in Hl by (apply elem_of_row_headers; eauto).
      injection Hl as <-. set_solver.
  - by destruct (Z.ltb_spec 0 len); [| lia].
Qed.

(** The data [free_group] hands to [free_data] for the elements [l]. *)
Definition freed (data : gmap nat nat) (l : list nat) : list nat :=
  filter (fun d => d <> 0%nat) (omap (fun e => data !! e) l).

Lemma freed_frame data data' l : (forall e, e ∈ l -> data' !! e = data !! e) -> freed data' l = freed data l.
Proof.
  intros H. unfold freed. f_equal. unfold omap. induction l as [|e l IH]; [done |]. cbn [list_omap]. rewrite H by left.
  rewrite IH; [done |]. intros f Hf. apply H. by right.
Qed.

Lemma free_bucket_spec l : forall fuel s A h,
  ls_refines (hs_store s) A -> A !! h = Some l -> Forall (fun e => is_Some (hs_data s !! e)) l -> (length l < fuel)%nat ->
  exists s', free_bucket fuel s h = Ret (freed (hs_data s) l, s') /\ ls_refines (hs_store s') (<[h := []]> A) /\
    forall e, e ∉ l -> hs_data s' !! e = hs_data s !! e.
Proof.
  induction l as [|e l IH]; intros [|fuel] s A h HR Hl Hf Hlen; simpl in Hlen; try lia; cbn [free_bucket];
    destruct (ls_remove_head_spec _ A h _ HR Hl) as (st & -> & HR1 & _); simpl.
  - exists (set_store st s). done.
  - pose proof (ls_nodup _ _ _ _ HR Hl) as [Hni Hnd]%NoDup_cons. apply Forall_cons_1 in Hf as [[d Hd] Hf]. rewrite Hd.
    destruct (IH fuel (free_element (set_store st s) e) (<[h := l]> A) h) as (s' & -> & HR' & Hd').
    + done.
    + by simplify_map_eq.
    + rewrite Forall_forall in *. intros f Hin. simpl. rewrite lookup_delete_ne by (intros <-; done). by apply Hf.
    + lia.
    + rewrite insert_insert_eq in HR'. exists s'. simpl. split; [| split; [done |]].
      * rewrite (freed_frame (hs_data s)) by (intros f Hin; apply lookup_delete_ne; intros <-; done).
        unfold freed. simpl. rewrite Hd. simpl. rewrite filter_cons. by destruct d.
      * intros f Hin. rewrite Hd' by set_solver. simpl. rewrite lookup_delete_ne by set_solver. done.
Qed.

Definition row (A : gmap nat (list nat)) (h : nat) : list nat := default [] (A !! h).

Lemma free_buckets_spec hs : forall fuel s A,
  NoDup hs -> ls_refines (hs_store s) A ->
  (forall h, h ∈ hs -> exists l, A !! h = Some l /\ Forall (fun e => is_Some (hs_data s !! e)) l /\ (length l < fuel)%nat) ->
  exists s' A', free_buckets fuel s hs = Ret (concat ((fun h => freed (hs_data s) (row A h)) <$> hs), s') /\
    ls_refines (hs_store s') A' /\ (forall h, h ∈ hs -> A' !! h = Some []) /\ (forall h, h ∉ hs -> A' !! h = A !! h).
Proof.
  induction hs as [|h hs IH]; intros fuel s A Hnd HR Hh.
  - exists s, A. split; [done |]. split; [done |]. split; [set_solver | done].
  - apply NoDup_cons in Hnd as [Hni Hnd]. destruct (Hh h ltac:(left)) as (l & Hl & Hf & Hlen). cbn [free_buckets].
    destruct (free_bucket_spec l fuel s A h HR Hl Hf Hlen) as (s1 & -> & HR1 & Hd1). simpl.
    assert (forall h2 l2, h2 ∈ hs -> A !! h2 = Some l2 -> forall e, e ∈ l2 -> hs_data s1 !! e = hs_data s !! e) as Hsame.
    { intros h2 l2 Hin Hl2 e He. apply Hd1. intros He'. apply Hni. by rewrite (ls_disjoint _ _ h h2 l l2 e HR). }
    assert (forall h2, h2 ∈ hs -> <[h := []]> A !! h2 = A !! h2) as Hrow
      by (intros h2 Hin; rewrite lookup_insert_ne; set_solver).
    destruct (IH fuel s1 (<[h := []]> A) Hnd HR1) as (s' & A' & -> & HR' & H1 & H2).
    + intros h2 Hin. destruct (Hh h2 ltac:(by right)) as (l2 & Hl2 & Hf2 & Hlen2). exists l2.
      rewrite Hrow by done. split; [done |]. split; [| done]. rewrite Forall_forall in *. intros e He.
      rewrite (Hsame h2 l2) by done. by apply Hf2.
    + exists s', A'. simpl. split; [| split; [done | split]].
      * do 2 f_equal. unfold row at 2. rewrite Hl. f_equal. f_equal. apply list_fmap_ext. intros i h2 Hi.
        apply list_elem_of_lookup_2 in Hi. unfold row. rewrite Hrow by done.
        destruct (Hh h2 ltac:(by right)) as (l2 & Hl2 & _). rewrite Hl2. apply freed_frame. by apply (Hsame h2).
      * intros h' [-> | Hin]%elem_of_cons; [rewrite H2 by done; by simplify_map_eq | by apply H1].
      * intros h' Hn. rewrite H2 by set_solver. by rewrite lookup_insert_ne by set_solver.
Qed.

(** [free_group] terminates, empties every bucket and passes every non NULL
    data of the table to the callback exactly once, in the order of the buckets
    and of the elements in them. *)
Theorem hash_free_correct (s : hash_state) (A : gmap nat (list nat)) (fuel : nat) :
  wf s A -> (forall h l, A !! h = Some l -> (length l < fuel)%nat) ->
  exists s' A', free_group fuel s = Ret (concat ((fun h => freed (hs_data s) (row A h)) <$> all_headers), s') /\
    wf s' A' /\ forall e d, ~ stored s' A' e d.
Proof.
  intros Hwf Hfuel.
  destruct (free_buckets_spec all_headers fuel s A (row_headers_nodup base len) (wf_store _ _ Hwf)) as (s' & A' & E & HR' & H1 & _).
  { intros h (i & Hi & ->)%elem_of_row_headers. destruct (wf_buckets _ _ Hwf i Hi) as (l & Hl & Hf).
    exists l. split; [done |]. split; [by eapply in_bucket_data | by eapply Hfuel]. }
  exists s', A'. split; [done |]. split.
  - constructor; [done | apply Hwf |]. intros i Hi. exists []. split; [| constructor]. apply H1, elem_of_row_headers. eauto.
  - intros e d (_ & i & l & Hi & Hl & Hin). rewrite H1 in Hl by (apply elem_of_row_headers; eauto).
    injection Hl as <-. set_solver.
Qed.

End Hash.

(** ** A concrete table of two buckets on the heap of the file SimpleList *)

Definition example_hash : hash_state :=
  mk_hash example_heap {[1%nat := 2%nat; 0%nat := 4%nat; 3%nat := 5%nat]}.

Lemma example_wf : wf Z.of_nat 2 0 example_hash example_lists.
Proof.
  constructor; [exact example_refines | lia |]. intros i Hi.
  assert (i = 0 \/ i = 1) as [-> | ->] by lia.
  - exists [1%nat; 0%nat]. split; [done |]. repeat constructor; eexists; by split.
  - exists [3%nat]. split; [done |]. repeat constructor; eexists; by split.
Qed.

Lemma example_rows (P : nat -> list nat -> Prop) :
  P 0%nat [1%nat; 0%nat] -> P 1%nat [3%nat] -> forall h l, example_lists !! h = Some l -> P h l.
Proof.
  intros H1 H2 h l. unfold example_lists.
  by intros [[<- <-] | [_ [<- <-]%lookup_singleton_Some]]%lookup_insert_Some.
Qed.

Lemma hash_lookup_correct_witness :
  exists r, lookup_simple_hash Z.of_nat 2 0 3 example_hash 4 = Ret r /\
    match r with Some e => stored 2 0 example_hash example_lists e 4 | None => forall e, ~ stored 2 0 example_hash example_lists e 4 end.
Proof. apply (hash_lookup_correct Z.of_nat 2 0 example_hash example_lists 4 3 example_wf). apply example_rows; simpl; lia. Defined.

Lemma hash_add_correct_witness :
  add_data_to_hash Z.of_nat 2 0 None example_hash 7 = Some example_hash /\
  exists s' A', add_data_to_hash Z.of_nat 2 0 (Some 2%nat) example_hash 7 = Some s' /\ wf Z.of_nat 2 0 s' A' /\
    forall f c, stored 2 0 s' A' f c <-> (f = 2%nat /\ c = 7%nat) \/ stored 2 0 example_hash example_lists f c.
Proof.
  apply (hash_add_correct Z.of_nat 2 0 example_hash example_lists 2 7 example_wf);
    [by eexists | exact example_unused | apply example_rows; done].
Defined.

Lemma hash_remove_correct_witness :
  (exists e s' A', stored 2 0 example_hash example_lists e 4 /\
     remove_data_from_hash Z.of_nat 2 0 3 example_hash 4 = Ret s' /\ wf Z.of_nat 2 0 s' A' /\
     forall f c, stored 2 0 s' A' f c <-> f <> e /\ stored 2 0 example_hash example_lists f c) \/
  (remove_data_from_hash Z.of_nat 2 0 3 example_hash 4 = Ret example_hash /\
     forall e, ~ stored 2 0 example_hash example_lists e 4).
Proof. apply (hash_remove_correct Z.of_nat 2 0 example_hash example_lists 4 3 example_wf). apply example_rows; simpl; lia. Defined.

Lemma hash_iteration_correct_witness : collect 2 0 3 example_hash None 6 = Some [2%nat; 4%nat].
Proof.
  apply (hash_iteration_correct Z.of_nat 2 0 example_hash example_lists 6 [1%nat; 0%nat] 3 example_wf); [done | simpl; lia].
Defined.

Lemma hash_free_correct_witness :
  exists s' A', free_group 2 0 3 example_hash = Ret ([2%nat; 4%nat; 5%nat], s') /\
    wf Z.of_nat 2 0 s' A' /\ forall e d, ~ stored 2 0 s' A' e d.
Proof. apply (hash_free_correct Z.of_nat 2 0 example_hash example_lists 3 example_wf). apply example_rows; simpl; lia. Defined.

Lemma hash_initialize_correct_witness :
  (exists s' A', initialize_group 2 0 true true (mk_hash (new_heap 2 0) ∅) = Some (0, 0, s') /\
     wf Z.of_nat 2 0 s' A' /\ forall e d, ~ stored 2 0 s' A' e d) /\
  (forall b, initialize_group 2 0 false b (mk_hash (new_heap 2 0) ∅) = Some (-1, 12, mk_hash (new_heap 2 0) ∅)) /\
  initialize_group 2 0 true false (mk_hash (new_heap 2 0) ∅) = Some (-1, 12, mk_hash (new_heap 2 0) ∅).
Proof.
  apply (hash_initialize_correct Z.of_nat 2 0 (mk_hash (new_heap 2 0) ∅) ∅); [done | by intros ? ? ? |].
  intros i Hi. assert (i = 0 \/ i = 1) as [-> | ->] by lia;
    (split; [done |]; split; [by eexists | split; by eexists]).
Defined.

End SimpleHash.
