(* ===== verification/ChannelTable.v ===== *)
(** * ssh/channel/table.c: the table of the channels of all connections

    Channels are numbered by a global counter and kept in 64 lists by their
    local channel number [lcnr].  A [struct ssh_channel_s] is known by the number
    of its embedded list element; of its fields the table reads and writes
    [lcnr] and [flags].  The function pointers [start] and [close] of a channel
    and the callbacks are parameters; they do not touch the table.  The locks of
    the rows are the subject of the file ListLock. *)

From stdpp Require Import base list list_numbers numbers option gmap.
From S2P Require Import Prelude SimpleList ListStore.
Import SimpleList ListStore.

Module ChannelTable.

Definition SSH_CHANNELS_TABLE_SIZE := 64.
Definition SSH_CHANNEL_FLAG_TABLE := 2.
Definition SSH_CHANNEL_FLAG_SERVER_CLOSE := 32.
Definition SSH_CHANNEL_FLAG_CLIENT_CLOSE := 128.

Record channel := mk_channel { c_lcnr : Z; c_flags : Z }.

Section Table.
Context {S : Type} `{!ListStore S} (tablehash : nat).

Record table := mk_table {
  t_store : S;
  t_channels : gmap nat channel;
  t_channelctr : Z;
  t_tablecount : Z
}.

Definition t_set_store st t := mk_table st (t_channels t) (t_channelctr t) (t_tablecount t).
Definition t_set_channel e c t := mk_table (t_store t) (<[e := c]> (t_channels t)) (t_channelctr t) (t_tablecount t).
Definition t_add_count d t := mk_table (t_store t) (t_channels t) (t_channelctr t) (u32 (t_tablecount t + d)).

Abbreviation thdr := (row_header tablehash).

(** [channel->lcnr == lcnr] *)
Definition lcnr_is (t : table) (lcnr : Z) (e : nat) : option bool :=
  let? c := t_channels t !! e in Some (c_lcnr c =? lcnr).

(** The channel found is returned beside the result of the callback on it. *)
Definition lookup_ssh_channel_for_cb (fuel : nat) (t : table) (lcnr : Z) (cb : nat -> Z) : outcome (Z * option nat) :=
  outcome_bind (find_in_list fuel (t_store t) (thdr (lcnr mod SSH_CHANNELS_TABLE_SIZE)) (lcnr_is t lcnr)) (fun e =>
    match e with Some e => Ret (cb e, Some e) | None => Ret (-1, None) end).

(** [doiocb] calls the function of the channel and returns 0. *)
Definition doiocb (e : nat) : Z := 0.

Definition lookup_ssh_channel_for_iocb (fuel : nat) (t : table) (lcnr : Z) : outcome (Z * option nat) :=
  lookup_ssh_channel_for_cb fuel t lcnr doiocb.

(** [done]: [tablesignal != NULL]. *)
Definition init_ssh_channels_table (done : bool) (t : table) : option table :=
  if done then Some t
  else let? st := init_headers (t_store t) (row_headers tablehash SSH_CHANNELS_TABLE_SIZE) in Some (t_set_store st t).

(** The loop of [clear_ssh_channels_table] over one row: the channels freed. *)
Fixpoint clear_row (fuel : nat) (t : table) (h : nat) : outcome (list nat * table) :=
  match fuel with
  | O => NoFuel
  | Datatypes.S fuel =>
      match ls_remove_head (t_store t) h with
      | None => Ub
      | Some (None, st) => Ret ([], t_set_store st t)
      | Some (Some e, st) =>
          outcome_bind (clear_row fuel
            (mk_table st (delete e (t_channels t)) (t_channelctr t) (t_tablecount t)) h)
            (fun '(es, t) => Ret (e :: es, t))
      end
  end.

Fixpoint clear_rows (fuel : nat) (t : table) (hs : list nat) : outcome (list nat * table) :=
  match hs with
  | [] => Ret ([], t)
  | h :: hs =>
      outcome_bind (clear_row fuel t h) (fun '(es, t) =>
        outcome_bind (clear_rows fuel t hs) (fun '(es', t) => Ret (es ++ es', t)))
  end.

Definition clear_ssh_channels_table (fuel : nat) (t : table) : outcome (list nat * table) :=
  clear_rows fuel t (row_headers tablehash SSH_CHANNELS_TABLE_SIZE).

Definition get_next_ssh_channel (t : table) (channel : option nat) (hashvalue : Z) : option (option nat) :=
  if SSH_CHANNELS_TABLE_SIZE <=? hashvalue then Some None
  else match channel with
       | Some e => ls_next (t_store t) e
       | None => ls_head (t_store t) (thdr hashvalue)
       end.

Definition table_add_ssh_channel (t : table) (e : nat) : option table :=
  let? c := t_channels t !! e in
  if has (c_flags c) SSH_CHANNEL_FLAG_TABLE then Some t else
  let lcnr := t_channelctr t in
  let t := mk_table (t_store t) (<[e := mk_channel lcnr (c_flags c)]> (t_channels t))
             (u32 (t_channelctr t + 1)) (u32 (t_tablecount t + 1)) in
  let? st := ls_add_first (t_store t) (thdr (lcnr mod SSH_CHANNELS_TABLE_SIZE)) e in
  Some (t_set_channel e (mk_channel lcnr (Z.lor (c_flags c) SSH_CHANNEL_FLAG_TABLE)) (t_set_store st t)).

Definition table_remove_ssh_channel (t : table) (e : nat) : option table :=
  let? c := t_channels t !! e in
  if negb (has (c_flags c) SSH_CHANNEL_FLAG_TABLE) then Some t else
  let? st := ls_remove (t_store t) e in
  Some (t_set_channel e (mk_channel (c_lcnr c) (Z.ldiff (c_flags c) SSH_CHANNEL_FLAG_TABLE))
          (t_add_count (-1) (t_set_store st t))).

(** [start]: the result of [channel->start (channel, NULL)]. *)
Definition add_ssh_channel (t : table) (e : nat) (start : Z) : option (Z * table) :=
  let? t := table_add_ssh_channel t e in
  if start =? -1 then let? t := table_remove_ssh_channel t e in Some (-1, t) else Some (0, t).

(** Whether [channel->close] was called is returned beside the table. *)
Definition remove_ssh_channel (t : table) (e : nat) (flags : Z) : option (bool * table) :=
  let? t := table_remove_ssh_channel t e in
  Some (has flags (Z.lor SSH_CHANNEL_FLAG_CLIENT_CLOSE SSH_CHANNEL_FLAG_SERVER_CLOSE), t).

Definition get_ssh_channels_tablesize : Z := SSH_CHANNELS_TABLE_SIZE.

(** The inner loop of [walk_ssh_channels]; [cb e]: the callback returns non-zero. *)
Fixpoint walk_row (fuel : nat) (t : table) (cb : nat -> bool) (hashvalue : Z) (channel : option nat) : outcome (option nat) :=
  match fuel with
  | O => NoFuel
  | Datatypes.S fuel =>
      match channel with
      | None => Ret None
      | Some e =>
          match get_next_ssh_channel t (Some e) hashvalue with
          | None => Ub
          | Some next => if cb e then Ret (Some e) else walk_row fuel t cb hashvalue next
          end
      end
  end.

Fixpoint walk_rows (fuel rows : nat) (t : table) (cb : nat -> bool) (hashvalue : Z) : outcome (option nat) :=
  match rows with
  | O => Ret None
  | Datatypes.S rows =>
      match get_next_ssh_channel t None hashvalue with
      | None => Ub
      | Some channel =>
          outcome_bind (walk_row fuel t cb hashvalue channel) (fun r =>
            match r with Some e => Ret (Some e) | None => walk_rows fuel rows t cb (hashvalue + 1) end)
      end
  end.

Definition walk_ssh_channels (fuel : nat) (t : table) (cb : nat -> bool) : outcome (option nat) :=
  walk_rows fuel (Z.to_nat get_ssh_channels_tablesize) t cb 0.

(** ** The invariant *)

Abbreviation in_table := (row_member tablehash SSH_CHANNELS_TABLE_SIZE).

Definition row_channel (t : table) (i : Z) (e : nat) : Prop :=
  exists c, t_channels t !! e = Some c /\ has (c_flags c) SSH_CHANNEL_FLAG_TABLE = true /\
    0 <= c_lcnr c < t_channelctr t /\ c_lcnr c mod SSH_CHANNELS_TABLE_SIZE = i.

Record wf_table (t : table) (A : gmap nat (list nat)) : Prop := {
  wt_store : ls_refines (t_store t) A;
  wt_rows i : 0 <= i < SSH_CHANNELS_TABLE_SIZE -> exists l, A !! thdr i = Some l /\ Forall (row_channel t i) l;
  wt_flag e c : t_channels t !! e = Some c -> has (c_flags c) SSH_CHANNEL_FLAG_TABLE = true -> in_table A e;
  wt_unique e f c d : in_table A e -> in_table A f -> t_channels t !! e = Some c -> t_channels t !! f = Some d ->
    c_lcnr c = c_lcnr d -> e = f;
  wt_ctr : is_u32 (t_channelctr t);
  wt_count : t_tablecount t = u32 (rows_total tablehash SSH_CHANNELS_TABLE_SIZE A)
}.

Lemma mod_row n : 0 <= n mod SSH_CHANNELS_TABLE_SIZE < SSH_CHANNELS_TABLE_SIZE.
Proof. by apply Z.mod_pos_bound. Qed.

Lemma in_table_channel t A e :
  wf_table t A -> in_table A e -> exists c, t_channels t !! e = Some c /\ has (c_flags c) SSH_CHANNEL_FLAG_TABLE = true /\
    0 <= c_lcnr c < t_channelctr t /\
    exists l, A !! thdr (c_lcnr c mod SSH_CHANNELS_TABLE_SIZE) = Some l /\ e ∈ l.
Proof.
  intros Hwf (i & l & Hi & Hl & He). destruct (wt_rows _ _ Hwf i Hi) as (l' & Hl' & Hf). rewrite Hl in Hl'. injection Hl' as <-.
  rewrite Forall_forall in Hf. destruct (Hf e He) as (c & Hc & Hfl & Hlt & <-). exists c. repeat (split; [done |]). by exists l.
Qed.

(** [lookup_ssh_channel_for_cb] terminates and applies the callback to the
    one channel of the table with that local number, or returns -1 when the
    table has none. *)
Theorem channel_lookup_correct (t : table) (A : gmap nat (list nat)) (lcnr : Z) (cb : nat -> Z) (fuel : nat) :
  wf_table t A -> (forall h l, A !! h = Some l -> (length l < fuel)%nat) ->
  (exists e c, lookup_ssh_channel_for_cb fuel t lcnr cb = Ret (cb e, Some e) /\
     in_table A e /\ t_channels t !! e = Some c /\ c_lcnr c = lcnr /\
     forall f d, in_table A f -> t_channels t !! f = Some d -> c_lcnr d = lcnr -> f = e) \/
  (lookup_ssh_channel_for_cb fuel t lcnr cb = Ret (-1, None) /\
     forall f d, in_table A f -> t_channels t !! f = Some d -> c_lcnr d <> lcnr).
Proof.
  intros Hwf Hfuel. destruct (wt_rows _ _ Hwf _ (mod_row lcnr)) as (l & Hl & Hf).
  unfold lookup_ssh_channel_for_cb. rewrite (find_in_list_spec _ A _ _ l); [| apply Hwf | done | | by eapply Hfuel].
  2: { apply (Forall_impl _ _ _ Hf). intros e (c & Hc & _). unfold lcnr_is. rewrite Hc. by eexists. }
  assert (forall e, lcnr_is t lcnr e = Some true <-> exists c, t_channels t !! e = Some c /\ c_lcnr c = lcnr) as Hlc.
  { intros e. unfold lcnr_is. destruct (t_channels t !! e) as [c|]; simpl; [| naive_solver].
    split; [intros [= E%Z.eqb_eq]; eauto | intros (d & [= ->] & <-); by rewrite Z.eqb_refl]. }
  simpl. destruct (head _) as [e|] eqn:E.
  - left. apply head_filter_Some in E as ((c & Hc & Hcl)%Hlc & l1 & l2 & -> & _). exists e, c.
    assert (in_table A e) by (exists (lcnr mod SSH_CHANNELS_TABLE_SIZE), (l1 ++ e :: l2);
      split; [apply mod_row | split; [done | set_solver]]).
    repeat (split; [done |]). intros f d Hf' Hd Hdl. apply (wt_unique _ _ Hwf f e d c); congruence || done.
  - right. split; [done |]. intros f d Hf' Hd Hdl. destruct (in_table_channel t A f Hwf Hf') as (d' & Hd' & _ & _ & l' & Hl' & Hin).
    rewrite Hd in Hd'. injection Hd' as <-. rewrite Hdl, Hl in Hl'. injection Hl' as <-.
    apply (proj1 (head_filter_None _ _) E f Hin). apply Hlc. eauto.
Qed.

(** ** Adding and removing a channel *)

Lemma has_lor_flag x : has (Z.lor x SSH_CHANNEL_FLAG_TABLE) SSH_CHANNEL_FLAG_TABLE = true.
Proof. by apply has_lor_same. Qed.

Lemma has_ldiff_flag x : has (Z.ldiff x SSH_CHANNEL_FLAG_TABLE) SSH_CHANNEL_FLAG_TABLE = false.
Proof. apply has_ldiff_same. Qed.

Lemma u32_add_u32 a b : u32 (u32 a + b) = u32 (a + b).
Proof. unfold u32. apply Zplus_mod_idemp_l. Qed.

(** What [table_add_ssh_channel] does to a channel that is not in the table. *)
Lemma table_add_spec t A e c :
  wf_table t A -> t_channels t !! e = Some c -> has (c_flags c) SSH_CHANNEL_FLAG_TABLE = false ->
  ls_alloc (t_store t) e -> unused A e -> (forall h l, A !! h = Some l -> is_u64 (zlen l + 1)) -> is_u32 (t_channelctr t + 1) ->
  exists t' A', table_add_ssh_channel t e = Some t' /\ wf_table t' A' /\
    (exists h l, A !! h = Some l /\ A' = <[h := e :: l]> A) /\
    (forall f, in_table A' f <-> f = e \/ in_table A f) /\
    t_channels t' = <[e := mk_channel (t_channelctr t) (Z.lor (c_flags c) SSH_CHANNEL_FLAG_TABLE)]> (t_channels t) /\
    t_channelctr t' = t_channelctr t + 1 /\ t_tablecount t' = u32 (t_tablecount t + 1).
Proof.
  intros Hwf Hc Hfl Ha Hu Hw Hw32. pose proof (mod_row (t_channelctr t)) as Hr. pose proof (wt_ctr _ _ Hwf) as [? ?].
  destruct (wt_rows _ _ Hwf _ Hr) as (l & Hl & Hf).
  unfold table_add_ssh_channel. rewrite Hc. opt. rewrite Hfl. simpl t_store.
  destruct (ls_add_first_spec _ A _ l e (wt_store _ _ Hwf) Hl Ha Hu) as (st & -> & HR & _); [by eapply Hw |]. opt.
  assert (forall f, in_table (<[thdr (t_channelctr t mod SSH_CHANNELS_TABLE_SIZE) := e :: l]> A) f <-> f = e \/ in_table A f) as Hm.
  { intros f. rewrite (row_member_change _ _ _ _ _ _ Hr), (row_member_bucket _ _ _ _ _ f Hr Hl), elem_of_cons. tauto. }
  assert (forall f, in_table A f -> f <> e) as Hne by (intros f (j & k & _ & Hk & Hin) ->; by apply (Hu _ _ Hk)).
  eexists _, _. split; [done |]. unfold t_set_channel, t_set_store. simpl. rewrite insert_insert_eq, (u32_id (_ + 1)) by done.
  split; [constructor; simpl | split; [by eauto | split; [done | done]]].
  - done.
  - intros i Hi. assert (forall f k, A !! thdr i = Some k -> f ∈ k -> row_channel t i f -> row_channel
        (mk_table st (<[e := mk_channel (t_channelctr t) (Z.lor (c_flags c) SSH_CHANNEL_FLAG_TABLE)]> (t_channels t))
           (t_channelctr t + 1) (u32 (t_tablecount t + 1))) i f) as Hrow.
    { intros f k Hk Hin (d & Hd & ? & ? & ?). exists d. simpl. rewrite lookup_insert_ne by (intros <-; by apply (Hu _ _ Hk)).
      repeat split; [done | done | lia | lia | done]. }
    destruct (decide (i = t_channelctr t mod SSH_CHANNELS_TABLE_SIZE)) as [->|Hni].
    + exists (e :: l). split; [by simplify_map_eq |]. rewrite Forall_forall in *. intros f [-> | Hin]%elem_of_cons.
      * eexists. simpl. split; [by simplify_map_eq |]. simpl. rewrite has_lor_flag. repeat split; lia || done.
      * apply (Hrow f l); auto.
    + destruct (wt_rows _ _ Hwf _ Hi) as (k & Hk & Hfk). exists k. rewrite row_lookup_ne by lia. split; [done |].
      rewrite Forall_forall in *. intros f Hin. apply (Hrow f k); auto.
  - intros f d Hd Hfd. apply Hm. rewrite lookup_insert in Hd. case_decide; [by left |]. right. by apply (wt_flag _ _ Hwf f d).
  - intros f g cf cg Hf1 Hg1. apply Hm in Hf1, Hg1. rewrite !lookup_insert. repeat case_decide; subst; try done.
    + intros [= <-] Hg E. simpl in E. destruct Hg1 as [-> | Hg1]; [done |].
      destruct (in_table_channel t A g Hwf Hg1) as (d & Hd & _ & Hlt & _). rewrite Hg in Hd. injection Hd as <-. lia.
    + intros Hf2 [= <-] E. simpl in E. destruct Hf1 as [-> | Hf1]; [done |].
      destruct (in_table_channel t A f Hwf Hf1) as (d & Hd & _ & Hlt & _). rewrite Hf2 in Hd. injection Hd as <-. lia.
    + destruct Hf1 as [-> |]; [done |]. destruct Hg1 as [-> |]; [done |]. by apply (wt_unique _ _ Hwf).
  - done.
  - rewrite (rows_total_change _ _ _ _ _ _ Hr Hl), zlen_cons, (wt_count _ _ Hwf), u32_add_u32. f_equal. lia.
Qed.

(** What [table_remove_ssh_channel] does to a channel of the table. *)
Lemma table_remove_spec t A e c :
  wf_table t A -> t_channels t !! e = Some c -> has (c_flags c) SSH_CHANNEL_FLAG_TABLE = true ->
  exists t' A', table_remove_ssh_channel t e = Some t' /\ wf_table t' A' /\
    (forall f, in_table A' f <-> f <> e /\ in_table A f) /\
    t_channels t' = <[e := mk_channel (c_lcnr c) (Z.ldiff (c_flags c) SSH_CHANNEL_FLAG_TABLE)]> (t_channels t) /\
    t_channelctr t' = t_channelctr t /\ t_tablecount t' = u32 (t_tablecount t - 1).
Proof.
  intros Hwf Hc Hfl. destruct (in_table_channel t A e Hwf (wt_flag _ _ Hwf e c Hc Hfl)) as (c' & Hc' & _ & Hlt & l & Hl & Hin).
  rewrite Hc in Hc'. injection Hc' as <-. pose proof (mod_row (c_lcnr c)) as Hr. pose proof (wt_store _ _ Hwf) as HR.
  apply list_elem_of_split in Hin as (l1 & l2 & ->). pose proof (ls_nodup _ _ _ _ HR Hl) as (_ & Hd1 & [Hni _]%NoDup_cons)%NoDup_app.
  unfold table_remove_ssh_channel. rewrite Hc. opt. rewrite Hfl. simpl.
  destruct (ls_remove_spec _ A _ l1 e l2 HR Hl) as (st & -> & HR1 & _). opt.
  assert (forall f, row_elsewhere tablehash SSH_CHANNELS_TABLE_SIZE A (c_lcnr c mod SSH_CHANNELS_TABLE_SIZE) f -> f <> e) as Hel
    by (intros f; apply (row_elsewhere_ne _ _ (t_store t) A _ (l1 ++ e :: l2)); [done | lia | done | set_solver]).
  assert (forall f, in_table (<[thdr (c_lcnr c mod SSH_CHANNELS_TABLE_SIZE) := l1 ++ l2]> A) f <-> f <> e /\ in_table A f) as Hm.
  { intros f. rewrite (row_member_change _ _ _ _ _ _ Hr), (row_member_bucket _ _ _ _ _ f Hr Hl), !elem_of_app, elem_of_cons.
    assert (e ∉ l1) by set_solver. specialize (Hel f). destruct (decide (f = e)) as [->|]; naive_solver. }
  eexists _, _. split; [done |]. unfold t_set_channel, t_set_store, t_add_count. simpl.
  split; [constructor; simpl | split; [done | done]].
  - done.
  - intros i Hi. assert (forall f, f <> e -> row_channel t i f -> row_channel
        (mk_table st (<[e := mk_channel (c_lcnr c) (Z.ldiff (c_flags c) SSH_CHANNEL_FLAG_TABLE)]> (t_channels t))
           (t_channelctr t) (u32 (t_tablecount t + -1))) i f) as Hrow.
    { intros f Hne (d & Hd & ? & ? & ?). exists d. simpl. by rewrite lookup_insert_ne. }
    destruct (decide (i = c_lcnr c mod SSH_CHANNELS_TABLE_SIZE)) as [->|Hni'].
    + exists (l1 ++ l2). split; [by simplify_map_eq |]. destruct (wt_rows _ _ Hwf _ Hr) as (l & Hl2 & Hf).
      rewrite Hl in Hl2. injection Hl2 as <-. rewrite Forall_forall in *. intros f Hin. apply Hrow; [set_solver |]. apply Hf. set_solver.
    + destruct (wt_rows _ _ Hwf _ Hi) as (k & Hk & Hfk). exists k. rewrite row_lookup_ne by lia. split; [done |].
      rewrite Forall_forall in *. intros f Hin. apply Hrow; [| auto]. apply Hel. by exists i, k.
  - intros f d Hd Hfd. apply Hm. rewrite lookup_insert in Hd. case_decide.
    + injection Hd as <-. simpl in Hfd. by rewrite has_ldiff_flag in Hfd.
    + split; [done |]. by apply (wt_flag _ _ Hwf f d).
  - intros f g cf cg [Hf1 Hf2]%Hm [Hg1 Hg2]%Hm. rewrite !lookup_insert_ne by done. by apply (wt_unique _ _ Hwf).
  - apply Hwf.
  - rewrite (rows_total_change _ _ _ _ _ _ Hr Hl), zlen_insert, (wt_count _ _ Hwf), u32_add_u32. f_equal. lia.
Qed.


(** [add_ssh_channel] gives a channel that is not in the table the next
    number, enters it and counts it; when its start function fails it is taken
    out again, and the table holds the same channels with the same count as
    before.  Numbers stay unique as long as the 32 bit counter does not wrap. *)
Theorem channel_add_correct (t : table) (A : gmap nat (list nat)) (e : nat) (c : channel) (start : Z) :
  wf_table t A -> t_channels t !! e = Some c -> has (c_flags c) SSH_CHANNEL_FLAG_TABLE = false ->
  ls_alloc (t_store t) e -> unused A e -> (forall h l, A !! h = Some l -> is_u64 (zlen l + 1)) -> is_u32 (t_channelctr t + 1) ->
  exists r t' A', add_ssh_channel t e start = Some (r, t') /\ wf_table t' A' /\
    (start <> -1 -> r = 0 /\ (forall f, in_table A' f <-> f = e \/ in_table A f) /\
       option_map c_lcnr (t_channels t' !! e) = Some (t_channelctr t) /\ t_tablecount t' = u32 (t_tablecount t + 1)) /\
    (start = -1 -> r = -1 /\ (forall f, in_table A' f <-> in_table A f) /\ t_tablecount t' = t_tablecount t).
Proof.
  intros Hwf Hc Hfl Ha Hu Hw Hw32.
  destruct (table_add_spec t A e c) as (t1 & A1 & E1 & Hwf1 & _ & Hm1 & Hc1 & Hn1 & Ht1); [done.. |].
  unfold add_ssh_channel. rewrite E1. opt. destruct (Z.eqb_spec start (-1)) as [->|Hs].
  - destruct (table_remove_spec t1 A1 e (mk_channel (t_channelctr t) (Z.lor (c_flags c) SSH_CHANNEL_FLAG_TABLE)) Hwf1) as (t2 & A2 & -> & Hwf2 & Hm2 & _ & _ & Ht2);
      [rewrite Hc1; by simplify_map_eq | simpl; apply has_lor_flag |]. opt.
    eexists _, _, _. split; [done |]. split; [done |]. split; [done |]. intros _. split; [done |]. split.
    + intros f. rewrite Hm2, Hm1. assert (in_table A f -> f <> e) by (intros (j & k & _ & Hk & Hin) ->; by apply (Hu _ _ Hk)). naive_solver.
    + rewrite Ht2, Ht1, (wt_count _ _ Hwf). unfold Z.sub. rewrite u32_add_u32, <- Z.add_assoc, u32_add_u32. f_equal. lia.
  - eexists _, _, _. split; [done |]. split; [done |]. split; [| done]. intros _. split; [done |]. split; [done |].
    split; [rewrite Hc1; by simplify_map_eq | done].
Qed.

(** [remove_ssh_channel] takes exactly that channel out of the table, clears
    its flag and decrements the count; on a channel that is not in the table it
    leaves the table as it is.  The close function is called exactly when a close
    flag is given. *)
Theorem channel_remove_correct (t : table) (A : gmap nat (list nat)) (e : nat) (c : channel) (flags : Z) :
  wf_table t A -> t_channels t !! e = Some c ->
  exists t' A', remove_ssh_channel t e flags
      = Some (has flags (Z.lor SSH_CHANNEL_FLAG_CLIENT_CLOSE SSH_CHANNEL_FLAG_SERVER_CLOSE), t') /\ wf_table t' A' /\
    (forall f, in_table A' f <-> f <> e /\ in_table A f) /\
    t_tablecount t' = (if has (c_flags c) SSH_CHANNEL_FLAG_TABLE then u32 (t_tablecount t - 1) else t_tablecount t) /\
    remove_ssh_channel t' e 0 = Some (false, t').
Proof.
  intros Hwf Hc. unfold remove_ssh_channel. destruct (has (c_flags c) SSH_CHANNEL_FLAG_TABLE) eqn:Hfl.
  - destruct (table_remove_spec t A e c Hwf Hc Hfl) as (t1 & A1 & -> & Hwf1 & Hm1 & Hc1 & _ & Ht1). opt.
    eexists _, _. split; [done |]. repeat (split; [done |]).
    unfold table_remove_ssh_channel. rewrite Hc1. simplify_map_eq. by rewrite has_ldiff_flag.
  - unfold table_remove_ssh_channel. rewrite Hc. opt. rewrite Hfl. simpl. eexists _, _. split; [done |]. split; [done |].
    split; [| split; [done | by rewrite Hc; opt; rewrite Hfl]].
    intros f. split; [| tauto]. intros Hin. split; [| done]. intros ->.
    destruct (in_table_channel t A e Hwf Hin) as (c' & Hc' & Hfl' & _). congruence.
Qed.

(** ** Walking *)

Lemma walk_row_spec t A cb i l2 : forall fuel l1,
  ls_refines (t_store t) A -> A !! thdr i = Some (l1 ++ l2) -> i < SSH_CHANNELS_TABLE_SIZE -> (length l2 < fuel)%nat ->
  walk_row fuel t cb i (head l2) = Ret (head (filter (fun e => cb e = true) l2)).
Proof.
  induction l2 as [|e l2 IH]; intros [|fuel] l1 HR Hl Hi Hf; simpl in Hf; try lia; [done |]. simpl.
  unfold get_next_ssh_channel. destruct (Z.leb_spec SSH_CHANNELS_TABLE_SIZE i); [lia |].
  rewrite (ls_next_spec _ A _ l1 e l2) by done. rewrite filter_cons. destruct (cb e) eqn:Ec; [by rewrite decide_True |].
  rewrite decide_False by done. apply (IH fuel (l1 ++ [e])); [done | by rewrite <- app_assoc | done | lia].
Qed.

Lemma head_app_filter (P : nat -> Prop) `{!forall x, Decision (P x)} l l' :
  head (filter P (l ++ l')) = match head (filter P l) with Some e => Some e | None => head (filter P l') end.
Proof. rewrite filter_app. by destruct (filter P l). Qed.

Definition rows_from (A : gmap nat (list nat)) (i n : nat) : list nat :=
  concat ((fun j => default [] (A !! (tablehash + j)%nat)) <$> seq i n).

Lemma walk_rows_spec fuel n : forall t A cb i,
  wf_table t A -> (forall h l, A !! h = Some l -> (length l < fuel)%nat) -> (i + n = 64)%nat ->
  walk_rows fuel n t cb (Z.of_nat i) = Ret (head (filter (fun e => cb e = true) (rows_from A i n))).
Proof.
  induction n as [|n IH]; intros t A cb i Hwf Hfuel Hi; [done |]. cbn [walk_rows].
  destruct (wt_rows _ _ Hwf (Z.of_nat i)) as (l & Hl & _); [unfold SSH_CHANNELS_TABLE_SIZE; lia |].
  unfold get_next_ssh_channel. destruct (Z.leb_spec SSH_CHANNELS_TABLE_SIZE (Z.of_nat i)); [unfold SSH_CHANNELS_TABLE_SIZE in *; lia |].
  rewrite (ls_head_spec _ A _ l (wt_store _ _ Hwf) Hl).
  rewrite (walk_row_spec t A cb (Z.of_nat i) l fuel []); [| apply Hwf | done | done | by eapply Hfuel]. simpl.
  unfold rows_from. cbn [seq fmap list_fmap concat]. rewrite head_app_filter.
  unfold row_header in Hl. rewrite Nat2Z.id in Hl. rewrite Hl. simpl. destruct (head _); [done |].
  replace (Z.of_nat i + 1) with (Z.of_nat (Datatypes.S i)) by lia. apply (IH t A cb); [done | done | lia].
Qed.

(** [walk_ssh_channels] terminates and returns the first channel, row by row,
    for which the callback returns non-zero, and NULL exactly when there is none
    in the table. *)
Theorem channel_walk_correct (t : table) (A : gmap nat (list nat)) (cb : nat -> bool) (fuel : nat) :
  wf_table t A -> (forall h l, A !! h = Some l -> (length l < fuel)%nat) ->
  exists r, walk_ssh_channels fuel t cb = Ret r /\ r = head (filter (fun e => cb e = true) (rows_from A 0 64)) /\
    match r with Some e => in_table A e /\ cb e = true | None => forall e, in_table A e -> cb e = false end.
Proof.
  intros Hwf Hfuel. eexists. split; [by apply (walk_rows_spec fuel 64 t A cb 0) |]. split; [done |].
  assert (forall e, e ∈ rows_from A 0 64 <-> in_table A e) as Hin.
  { intros e. unfold rows_from. rewrite list_elem_of_In, in_concat. split.
    - intros (x & Hx & He). apply list_elem_of_In in Hx, He. apply list_elem_of_fmap in Hx as (j & -> & Hj%elem_of_seq).
      exists (Z.of_nat j). unfold row_header. rewrite Nat2Z.id. destruct (A !! (tablehash + j)%nat) as [l|]; simpl in He; [| set_solver].
      exists l. unfold SSH_CHANNELS_TABLE_SIZE. repeat split; [lia | lia | done].
    - intros (i & l & Hi & Hl & He). exists l. split; apply list_elem_of_In; [| done]. apply list_elem_of_fmap.
      exists (Z.to_nat i). unfold row_header in Hl. rewrite Hl. split; [done |].
      apply elem_of_seq. unfold SSH_CHANNELS_TABLE_SIZE in Hi. lia. }
  destruct (head _) as [e|] eqn:E.
  - apply head_filter_Some in E as (Hcb & l1 & l2 & El & _). split; [| done]. apply Hin. rewrite El. set_solver.
  - intros e He%Hin. destruct (cb e) eqn:Ec; [by destruct (proj1 (head_filter_None _ _) E e He) | done].
Qed.

End Table.

(** ** A concrete table: one channel in it, and one that was not added yet *)

Definition init_channels : gmap nat channel := {[0%nat := mk_channel 0 1; 1%nat := mk_channel 0 1]}.

Definition empty_table : table := mk_table store64 init_channels 0 0.

Definition example_table : table := default empty_table (table_add_ssh_channel 0 empty_table 0).

Lemma empty_table_wf : exists A, wf_table 0 empty_table A /\ (forall h l, A !! h = Some l -> l = []).
Proof.
  destruct store64_spec as (A & HR & Hnil & Hrow & _). exists A. split; [| done].
  constructor; [exact HR | | | | split; simpl; lia |].
  - intros i Hi. exists []. split; [by apply Hrow | constructor].
  - intros e c Hc. unfold empty_table, init_channels in Hc. simpl in Hc.
    apply lookup_insert_Some in Hc as [[_ <-] | [_ [_ <-]%lookup_singleton_Some]]; done.
  - intros e f c d (i & l & _ & Hl & He). apply Hnil in Hl. subst l. by apply elem_of_nil in He.
  - unfold rows_total. rewrite (list_fmap_ext _ (fun _ => 0)); [reflexivity |].
    intros i h Hi. destruct (A !! h) as [l|] eqn:El; [| done]. apply Hnil in El. by subst.
Qed.

Lemma empty_table_alloc e : (e < 2)%nat -> ls_alloc (t_store empty_table) e.
Proof. destruct store64_spec as (A & _ & _ & _ & Ha). apply Ha. Qed.

(** The table with channel 0 in row 0. *)
Lemma example_table_wf : exists A, wf_table 0 example_table A /\ (forall h l, A !! h = Some l -> (length l < 2)%nat) /\
  row_member 0 SSH_CHANNELS_TABLE_SIZE A 0 /\ t_channels example_table !! 0%nat = Some (mk_channel 0 3).
Proof.
  destruct empty_table_wf as (A & Hwf & Hnil). destruct (nil_rows A 0 Hnil) as [Hu Hw].
  assert (is_u32 (t_channelctr empty_table + 1)) as Hw32 by (split; simpl; lia).
  destruct (table_add_spec 0 empty_table A 0 (mk_channel 0 1) Hwf eq_refl eq_refl (empty_table_alloc 0 (ltac:(lia))) Hu Hw Hw32)
    as (t' & A' & E & Hwf' & (h & l & Hl & ->) & Hm & Hc & _).
  assert (example_table = t') as -> by (unfold example_table; by rewrite E).
  clear E. eexists. split; [exact Hwf' |]. split; [| split].
  - intros h2 l2 [[<- <-] | [_ ->%Hnil]]%lookup_insert_Some; [| simpl; lia]. rewrite (Hnil _ _ Hl). simpl. lia.
  - apply Hm. by left.
  - rewrite Hc, lookup_insert_eq. reflexivity.
Qed.

#[local] Opaque example_table.

Lemma channel_lookup_correct_witness :
  exists A, (exists e c, lookup_ssh_channel_for_cb 0 2 example_table 0 (fun _ => 7) = Ret (7, Some e) /\
     row_member 0 SSH_CHANNELS_TABLE_SIZE A e /\ t_channels example_table !! e = Some c /\ c_lcnr c = 0 /\
     forall f d, row_member 0 SSH_CHANNELS_TABLE_SIZE A f -> t_channels example_table !! f = Some d -> c_lcnr d = 0 -> f = e) \/
  (lookup_ssh_channel_for_cb 0 2 example_table 0 (fun _ => 7) = Ret (-1, None) /\
     forall f d, row_member 0 SSH_CHANNELS_TABLE_SIZE A f -> t_channels example_table !! f = Some d -> c_lcnr d <> 0).
Proof.
  destruct example_table_wf as (A & Hwf & Hlen & _ & _). exists A.
  apply (channel_lookup_correct 0 example_table A 0 (fun _ => 7) 2 Hwf Hlen).
Defined.

Lemma channel_add_correct_witness :
  exists A r t' A', add_ssh_channel 0 empty_table 1 0 = Some (r, t') /\ wf_table 0 t' A' /\
    (0 <> -1 -> r = 0 /\ (forall f, row_member 0 64 A' f <-> f = 1%nat \/ row_member 0 64 A f) /\
       option_map c_lcnr (t_channels t' !! 1%nat) = Some (t_channelctr empty_table) /\
       t_tablecount t' = u32 (t_tablecount empty_table + 1)) /\
    (0 = -1 -> r = -1 /\ (forall f, row_member 0 64 A' f <-> row_member 0 64 A f) /\ t_tablecount t' = t_tablecount empty_table).
Proof.
  destruct empty_table_wf as (A & Hwf & Hnil). destruct (nil_rows A 1 Hnil) as [Hu Hw]. exists A.
  assert (is_u32 (t_channelctr empty_table + 1)) as Hw32 by (split; simpl; lia).
  apply (channel_add_correct 0 empty_table A 1 (mk_channel 0 1) 0 Hwf eq_refl eq_refl (empty_table_alloc 1 (ltac:(lia))) Hu Hw Hw32).
Defined.

Lemma channel_remove_correct_witness :
  exists A t' A', remove_ssh_channel example_table 0 32 = Some (true, t') /\ wf_table 0 t' A' /\
    (forall f, row_member 0 64 A' f <-> f <> 0%nat /\ row_member 0 64 A f) /\
    t_tablecount t' = u32 (t_tablecount example_table - 1) /\ remove_ssh_channel t' 0 0 = Some (false, t').
Proof.
  destruct example_table_wf as (A & Hwf & _ & _ & Hc). exists A.
  apply (channel_remove_correct 0 example_table A 0 (mk_channel 0 3) 32 Hwf Hc).
Defined.

Lemma channel_walk_correct_witness :
  exists A r, walk_ssh_channels 0 2 example_table (fun e => Nat.eqb e 0) = Ret r /\
    r = head (filter (fun e => Nat.eqb e 0 = true) (rows_from 0 A 0 64)) /\
    match r with Some e => row_member 0 64 A e /\ Nat.eqb e 0 = true | None => forall e, row_member 0 64 A e -> Nat.eqb e 0 = false end.
Proof.
  destruct example_table_wf as (A & Hwf & Hlen & _ & _). exists A.
  apply (channel_walk_correct 0 example_table A (fun e => Nat.eqb e 0) 2 Hwf Hlen).
Defined.

End ChannelTable.
