(* ===== verification/RequestHash.v ===== *)
(** * sftp/request-hash.c: outstanding sftp requests

    A thread that sends a request enters it in a table by its id and waits; the
    thread that receives the reply looks the id up, takes the request out of the
    table, fills in the reply and signals.  The waiting thread also leaves on
    interruption, timeout or disconnect.  A [struct sftp_request_s] is known by
    the number of its embedded list element.  The table functions are modelled
    on the interface of the file ListStore, one iteration of the wait loop is a
    function of what it observes, and the two threads are a step relation. *)

From stdpp Require Import base list list_numbers numbers option gmap relations.
From S2P Require Import Prelude SimpleList ListStore.
Import SimpleList ListStore.

Module RequestHash.

Definition SFTP_SENDHASH_TABLE_SIZE_DEFAULT := 64.
Definition SFTP_REQUEST_STATUS_SEND := 1.
Definition SFTP_REQUEST_STATUS_WAITING := 2.
Definition SFTP_REQUEST_STATUS_RESPONSE := 4.
Definition SFTP_REQUEST_STATUS_FINISH := 8.
Definition SFTP_REQUEST_STATUS_INTERRUPT := 16.
Definition SFTP_REQUEST_STATUS_TIMEDOUT := 32.
Definition SFTP_REQUEST_STATUS_DISCONNECT := 64.
Definition SFTP_REQUEST_STATUS_ERROR := 128.

Definition EINTR := 4.
Definition EIO := 5.
Definition ECONNABORTED := 103.
Definition ENOTCONN := 107.
Definition ETIMEDOUT := 110.

(** The fields the file uses; [rq_blocked]: [send] is the blocked function. *)
Record sftp_request := mk_request {
  rq_id : Z;
  rq_status : Z;
  rq_error : Z;          (* reply.error *)
  rq_blocked : bool
}.

Definition set_status st r := mk_request (rq_id r) st (rq_error r) (rq_blocked r).
Definition set_error e r := mk_request (rq_id r) (rq_status r) e (rq_blocked r).
Definition or_status m r := set_status (Z.lor (rq_status r) m) r.
Definition clear_status m r := set_status (Z.ldiff (rq_status r) m) r.

Section Requests.
Context {S : Type} `{!ListStore S} (hashtable : nat).

Record rtable := mk_rtable {
  rt_store : S;
  rt_reqs : gmap nat sftp_request
}.

Abbreviation hashsize := SFTP_SENDHASH_TABLE_SIZE_DEFAULT.
Abbreviation rhdr := (row_header hashtable).

Definition upd_req (t : rtable) (r : nat) (f : sftp_request -> sftp_request) : option rtable :=
  let? q := rt_reqs t !! r in Some (mk_rtable (rt_store t) (<[r := f q]> (rt_reqs t))).

Definition add_request_hashtable (t : rtable) (r : nat) : option rtable :=
  let? q := rt_reqs t !! r in
  let? st := ls_add_last (rt_store t) (rhdr (rq_id q mod hashsize)) r in Some (mk_rtable st (rt_reqs t)).

Definition remove_request_hashtable (t : rtable) (r : nat) : option rtable :=
  let? st := ls_remove (rt_store t) r in Some (mk_rtable st (rt_reqs t)).

Definition id_is (t : rtable) (id : Z) (r : nat) : option bool :=
  let? q := rt_reqs t !! r in Some (rq_id q =? id).

Definition lookup_request_hashtable (fuel : nat) (t : rtable) (id : Z) : outcome (option nat * rtable) :=
  outcome_bind (find_in_list fuel (rt_store t) (rhdr (id mod hashsize)) (id_is t id)) (fun e =>
    match e with
    | Some r => match remove_request_hashtable t r with Some t => Ret (Some r, t) | None => Ub end
    | None => Ret (None, t)
    end).

(** A NULL result goes with the error NOTFOUND. *)
Definition get_sftp_request (fuel : nat) (t : rtable) (id : Z) : outcome (option nat * rtable) :=
  outcome_bind (lookup_request_hashtable fuel t id) (fun '(r, t) =>
    match r with
    | Some r =>
        match upd_req t r (fun q => or_status SFTP_REQUEST_STATUS_RESPONSE (clear_status SFTP_REQUEST_STATUS_WAITING q)) with
        | Some t => Ret (Some r, t)
        | None => Ub
        end
    | None => Ret (None, t)
    end).

Definition signal_sftp_received_id (t : rtable) (r : nat) : option (Z * rtable) :=
  let? q := rt_reqs t !! r in
  if has (rq_status q) SFTP_REQUEST_STATUS_RESPONSE then
    let? t := upd_req t r (fun q => or_status SFTP_REQUEST_STATUS_FINISH
                (set_status (rq_status q - SFTP_REQUEST_STATUS_RESPONSE) q)) in Some (0, t)
  else let? t := upd_req t r (or_status SFTP_REQUEST_STATUS_ERROR) in Some (-1, t).

Definition signal_sftp_received_id_error (t : rtable) (r : nat) : option rtable :=
  upd_req t r (or_status SFTP_REQUEST_STATUS_ERROR).

(** [r->send (...)]: [send_data] is the result of the send function of the client. *)
Definition send_sftp_request_data_default (t : rtable) (r : nat) (send_data : Z) : option (Z * rtable) :=
  let? t := upd_req t r (or_status SFTP_REQUEST_STATUS_SEND) in Some (send_data, t).

Definition send_sftp_request_data_blocked (t : rtable) (r : nat) : option (Z * rtable) := Some (-1, t).

Definition set_sftp_request_blocked (t : rtable) (r : nat) : option rtable :=
  upd_req t r (fun q => mk_request (rq_id q) (rq_status q) EINTR true).

(** ** The wait loop *)

(** What an iteration observes besides the status: the results of
    [cb_interrupted] and [break_request], whether the signal carries the
    sequence number of this request's reply, and whether the client is
    disconnected. *)
Record env := mk_env {
  env_interrupted : bool;
  env_break : bool;
  env_sequence : bool;
  env_disconnect : bool
}.

(** How an iteration goes on: return; leave, the lock is released and the request
    is still to be removed; wait on the condition variable. *)
Inductive check := Return (v : Z) | Leave | Wait.

Definition leave (t : rtable) (r : nat) (f : sftp_request -> sftp_request) : option (check * rtable) :=
  let? t := upd_req t r f in Some (Leave, t).

(** From [startcheckwait] up to [signal_condtimedwait]. *)
Definition wait_check (o : env) (t : rtable) (r : nat) : option (check * rtable) :=
  let? q := rt_reqs t !! r in
  if has (rq_status q) SFTP_REQUEST_STATUS_FINISH then Some (Return 1, t)
  else if env_interrupted o then
    if has (rq_status q) SFTP_REQUEST_STATUS_RESPONSE then
      let? t := upd_req t r (clear_status SFTP_REQUEST_STATUS_INTERRUPT) in Some (Wait, t)
    else leave t r (fun q => set_error EINTR (or_status SFTP_REQUEST_STATUS_INTERRUPT q))
  else if env_break o then leave t r (set_error ENOTCONN)
  else if has (rq_status q) SFTP_REQUEST_STATUS_ERROR then Some (Return 0, t)
  else if env_sequence o then leave t r (fun q => set_error EIO (or_status SFTP_REQUEST_STATUS_ERROR q))
  else if env_disconnect o then leave t r (fun q => set_error ECONNABORTED (or_status SFTP_REQUEST_STATUS_DISCONNECT q))
  else Some (Wait, t).

(** Behind the unlock of a leaving iteration; [result]: what
    [signal_condtimedwait] returned, 0 when the iteration did not wait.  The
    thread returns 0. *)
Definition wait_leave (result : Z) (t : rtable) (r : nat) : option rtable :=
  let? t := remove_request_hashtable t r in
  if 0 <? result then
    upd_req t r (if result =? ETIMEDOUT
                 then fun q => set_error ETIMEDOUT (or_status SFTP_REQUEST_STATUS_TIMEDOUT q)
                 else fun q => set_error result (or_status SFTP_REQUEST_STATUS_ERROR q))
  else Some t.

(** The start of [wait_sftp_response]. *)
Definition wait_start (t : rtable) (r : nat) : option rtable :=
  let? q := rt_reqs t !! r in
  let? st := ls_init (rt_store t) r (Some (rhdr (rq_id q mod hashsize))) in
  add_request_hashtable (mk_rtable st (rt_reqs t)) r.

Definition init_sftp_sendhash (initdone : bool) (t : rtable) : option rtable :=
  if initdone then Some t
  else let? st := init_headers (rt_store t) (row_headers hashtable hashsize) in Some (mk_rtable st (rt_reqs t)).

(** ** The invariant of the table *)

Abbreviation queued := (row_member hashtable hashsize).

Definition row_request (t : rtable) (i : Z) (r : nat) : Prop :=
  exists q, rt_reqs t !! r = Some q /\ rq_id q mod hashsize = i.

Record wf_requests (t : rtable) (A : gmap nat (list nat)) : Prop := {
  wr_store : ls_refines (rt_store t) A;
  wr_rows i : 0 <= i < hashsize -> exists l, A !! rhdr i = Some l /\ Forall (row_request t i) l
}.

Lemma mod_hash n : 0 <= n mod hashsize < hashsize.
Proof. by apply Z.mod_pos_bound. Qed.

(** Updates of requests that keep the id keep the invariant. *)
Lemma wf_upd t A r f t' :
  wf_requests t A -> (forall q, rq_id (f q) = rq_id q) -> upd_req t r f = Some t' -> wf_requests t' A.
Proof.
  intros Hwf Hid. unfold upd_req. destruct (rt_reqs t !! r) as [q|] eqn:Eq; [| done]. opt. intros [= <-].
  constructor; [apply Hwf |]. intros i Hi. destruct (wr_rows _ _ Hwf i Hi) as (l & Hl & Hf). exists l. split; [done |].
  apply (Forall_impl _ _ _ Hf). intros e (q' & Hq' & Hm). unfold row_request. simpl. rewrite lookup_insert. case_decide; [| eauto].
  subst e. eexists. split; [done |]. rewrite Hid. congruence.
Qed.

Lemma wf_store_change t A i l l' st :
  wf_requests t A -> 0 <= i < hashsize -> A !! rhdr i = Some l -> ls_refines st (<[rhdr i := l']> A) ->
  (forall e, e ∈ l' -> row_request t i e) -> wf_requests (mk_rtable st (rt_reqs t)) (<[rhdr i := l']> A).
Proof.
  intros Hwf Hi Hl HR Hf. constructor; [done |]. intros j Hj. destruct (decide (j = i)) as [->|Hne].
  - exists l'. split; [by simplify_map_eq |]. by apply Forall_forall.
  - rewrite row_lookup_ne by lia. by apply (wr_rows _ _ Hwf).
Qed.

Lemma add_request_spec t A r q :
  wf_requests t A -> rt_reqs t !! r = Some q -> ls_alloc (rt_store t) r -> unused A r ->
  (forall h l, A !! h = Some l -> is_u64 (zlen l + 1)) ->
  exists t' A', add_request_hashtable t r = Some t' /\ wf_requests t' A' /\ rt_reqs t' = rt_reqs t /\
    (forall f, queued A' f <-> f = r \/ queued A f) /\ exists h l, A !! h = Some l /\ A' = <[h := l ++ [r]]> A.
Proof.
  intros Hwf Hq Ha Hu Hw. pose proof (mod_hash (rq_id q)) as Hr. destruct (wr_rows _ _ Hwf _ Hr) as (l & Hl & Hf).
  unfold add_request_hashtable. rewrite Hq. opt.
  destruct (ls_add_last_spec _ A _ l r (wr_store _ _ Hwf) Hl Ha Hu) as (st & -> & HR & _); [by eapply Hw |]. opt.
  eexists _, _. split; [done |]. split; [| split; [done | split; [| by eauto]]].
  - eapply (wf_store_change t A _ l); [done | done | done | done |]. rewrite Forall_forall in Hf.
    intros e [He | ->%list_elem_of_singleton]%elem_of_app; [auto |]. by exists q.
  - intros f. rewrite (row_member_change _ _ _ _ _ _ Hr), (row_member_bucket _ _ _ _ _ f Hr Hl), elem_of_app, list_elem_of_singleton. tauto.
Qed.

(** Removal of a queued request. *)
Lemma remove_request_spec t A r :
  wf_requests t A -> queued A r ->
  exists t' A', remove_request_hashtable t r = Some t' /\ wf_requests t' A' /\ rt_reqs t' = rt_reqs t /\
    ls_single (rt_store t') r /\ forall f, queued A' f <-> f <> r /\ queued A f.
Proof.
  intros Hwf (i & l & Hi & Hl & Hin). pose proof (wr_store _ _ Hwf) as HR.
  apply list_elem_of_split in Hin as (l1 & l2 & ->). pose proof (ls_nodup _ _ _ _ HR Hl) as (_ & Hd1 & [Hni _]%NoDup_cons)%NoDup_app.
  unfold remove_request_hashtable. destruct (ls_remove_spec _ A _ l1 r l2 HR Hl) as (st & -> & HR1 & Hs1 & _). opt.
  eexists _, _. split; [done |]. split; [| split; [done | split; [done |]]].
  - apply (wf_store_change t A i (l1 ++ r :: l2)); [done | done | done | done |].
    destruct (wr_rows _ _ Hwf i Hi) as (l & Hl' & Hf). rewrite Hl in Hl'. injection Hl' as <-. rewrite Forall_forall in Hf.
    intros e He. apply Hf. set_solver.
  - intros f. rewrite (row_member_change _ _ _ _ _ _ Hi), (row_member_bucket _ _ _ _ _ f Hi Hl), !elem_of_app, elem_of_cons.
    pose proof (row_elsewhere_ne hashtable hashsize (rt_store t) A i (l1 ++ r :: l2) r f HR ltac:(lia) Hl ltac:(set_solver)) as Hel.
    assert (r ∉ l1) by set_solver. destruct (decide (f = r)) as [->|]; naive_solver.
Qed.

Lemma id_is_true t id e : id_is t id e = Some true <-> exists q, rt_reqs t !! e = Some q /\ rq_id q = id.
Proof.
  unfold id_is. destruct (rt_reqs t !! e) as [q|]; simpl; [| naive_solver].
  split; [intros [= E%Z.eqb_eq]; eauto | intros (d & [= ->] & <-); by rewrite Z.eqb_refl].
Qed.

(** What [lookup_request_hashtable] may return, once it does. *)
Definition lookup_result (t : rtable) (A : gmap nat (list nat)) (id : Z) (res : outcome (option nat * rtable)) : Prop :=
  (exists r q t' A', res = Ret (Some r, t') /\ wf_requests t' A' /\ ls_single (rt_store t') r /\
     rt_reqs t' = rt_reqs t /\ rt_reqs t !! r = Some q /\ rq_id q = id /\ queued A r /\
     forall f, queued A' f <-> f <> r /\ queued A f) \/
  (res = Ret (None, t) /\ forall r q, queued A r -> rt_reqs t !! r = Some q -> rq_id q <> id).

Lemma lookup_request_any fuel t A id :
  wf_requests t A ->
  lookup_request_hashtable fuel t id = NoFuel \/ lookup_result t A id (lookup_request_hashtable fuel t id).
Proof.
  intros Hwf. destruct (wr_rows _ _ Hwf _ (mod_hash id)) as (l & Hl & Hf).
  unfold lookup_request_hashtable, find_in_list. rewrite (ls_head_spec _ A _ l (wr_store _ _ Hwf) Hl).
  destruct (walk_list_any (rt_store t) A (rhdr (id mod hashsize)) (id_is t id) l fuel []) as [-> | ->]; [apply Hwf | done | | by left |].
  { apply (Forall_impl _ _ _ Hf). intros e (q & Hq & _). unfold id_is. rewrite Hq. by eexists. }
  right. simpl. destruct (head _) as [r|] eqn:E.
  - left. apply head_filter_Some in E as ((q & Hq & Hqi)%id_is_true & l1 & l2 & -> & _).
    assert (queued A r) as Hqd by (exists (id mod hashsize), (l1 ++ r :: l2); split; [apply mod_hash | split; [done | set_solver]]).
    destruct (remove_request_spec t A r Hwf Hqd) as (t' & A' & -> & Hwf' & Hrq & Hs & Hm). by exists r, q, t', A'.
  - right. split; [done |]. intros r q (i & k & Hi & Hk & Hin) Hq Hqi.
    destruct (wr_rows _ _ Hwf i Hi) as (k' & Hk' & Hfk). rewrite Hk in Hk'. injection Hk' as <-. rewrite Forall_forall in Hfk.
    destruct (Hfk r Hin) as (q' & Hq' & Hm). rewrite Hq in Hq'. injection Hq' as <-. rewrite Hqi in Hm. subst i.
    rewrite Hl in Hk. injection Hk as <-. apply (proj1 (head_filter_None _ _) E r Hin). apply id_is_true. eauto.
Qed.

Lemma lookup_request_spec fuel t A id :
  wf_requests t A -> (forall h l, A !! h = Some l -> (length l < fuel)%nat) ->
  lookup_result t A id (lookup_request_hashtable fuel t id).
Proof.
  intros Hwf Hfuel. destruct (lookup_request_any fuel t A id Hwf) as [E|]; [| done]. exfalso.
  destruct (wr_rows _ _ Hwf _ (mod_hash id)) as (l & Hl & Hf). unfold lookup_request_hashtable in E.
  rewrite (find_in_list_spec _ A _ _ l) in E; [| apply Hwf | done | | by eapply Hfuel].
  - simpl in E. destruct (head _) as [r|]; [by destruct (remove_request_hashtable t r) | done].
  - apply (Forall_impl _ _ _ Hf). intros e (q & Hq & _). unfold id_is. rewrite Hq. by eexists.
Qed.

(** What [get_sftp_request] may return. *)
Definition get_result (t : rtable) (A : gmap nat (list nat)) (id : Z) (res : outcome (option nat * rtable)) : Prop :=
  (exists r q t' A', res = Ret (Some r, t') /\ wf_requests t' A' /\
     rt_reqs t !! r = Some q /\ rq_id q = id /\ queued A r /\
     rt_reqs t' = <[r := or_status SFTP_REQUEST_STATUS_RESPONSE (clear_status SFTP_REQUEST_STATUS_WAITING q)]> (rt_reqs t) /\
     forall f, queued A' f <-> f <> r /\ queued A f) \/
  (res = Ret (None, t) /\ forall r q, queued A r -> rt_reqs t !! r = Some q -> rq_id q <> id).

Lemma get_request_any fuel t A id : wf_requests t A -> lookup_result t A id (lookup_request_hashtable fuel t id) ->
  get_result t A id (get_sftp_request fuel t id).
Proof.
  intros Hwf. unfold get_sftp_request.
  intros [(r & q & t' & A' & -> & Hwf' & _ & Hrq & Hq & Hid & Hqd & Hm) | [-> Hn]]; simpl.
  - left. destruct (upd_req t' r _) as [t2|] eqn:Eu; [| unfold upd_req in Eu; rewrite Hrq, Hq in Eu; done].
    exists r, q, t2, A'. split; [done |]. split; [by eapply (wf_upd t' A' r); [| | exact Eu] |]. repeat (split; [done |]). split; [| done].
    unfold upd_req in Eu. rewrite Hrq, Hq in Eu. by injection Eu as <-.
  - by right.
Qed.

(** As many requests as there are bound the length of a row. *)
Lemma row_length t A i l : wf_requests t A -> 0 <= i < hashsize -> A !! rhdr i = Some l -> (length l <= size (rt_reqs t))%nat.
Proof.
  intros Hwf Hi Hl. pose proof (ls_nodup _ _ _ _ (wr_store _ _ Hwf) Hl) as Hnd.
  rewrite <- (size_list_to_set (C := gset nat) l) by done. rewrite <- size_dom. apply subseteq_size. intros e He%elem_of_list_to_set.
  destruct (wr_rows _ _ Hwf i Hi) as (l' & Hl' & Hf). rewrite Hl in Hl'. injection Hl' as <-. rewrite Forall_forall in Hf.
  destruct (Hf e He) as (q & Hq & _). by apply elem_of_dom_2 in Hq.
Qed.

Lemma get_request_sized fuel t A id : wf_requests t A -> (size (rt_reqs t) < fuel)%nat -> get_result t A id (get_sftp_request fuel t id).
Proof.
  intros Hwf Hfuel. apply get_request_any; [done |]. destruct (lookup_request_any fuel t A id Hwf) as [E|]; [| done]. exfalso.
  destruct (wr_rows _ _ Hwf _ (mod_hash id)) as (l & Hl & Hf). unfold lookup_request_hashtable in E.
  rewrite (find_in_list_spec _ A _ _ l) in E; [| apply Hwf | done | |].
  - simpl in E. destruct (head _) as [r|]; [by destruct (remove_request_hashtable t r) | done].
  - apply (Forall_impl _ _ _ Hf). intros e (q & Hq & _). unfold id_is. rewrite Hq. by eexists.
  - pose proof (row_length t A _ l Hwf (mod_hash id) Hl). lia.
Qed.

(** [get_sftp_request] terminates; it returns a queued request with the id of
    the reply, takes it and only it out of the table and marks it RESPONSE, or
    returns NULL when no queued request has that id, and changes nothing. *)
Theorem get_sftp_request_correct (t : rtable) (A : gmap nat (list nat)) (id : Z) (fuel : nat) :
  wf_requests t A -> (forall h l, A !! h = Some l -> (length l < fuel)%nat) ->
  (exists r q t' A', get_sftp_request fuel t id = Ret (Some r, t') /\ wf_requests t' A' /\
     rt_reqs t !! r = Some q /\ rq_id q = id /\ queued A r /\
     rt_reqs t' = <[r := or_status SFTP_REQUEST_STATUS_RESPONSE (clear_status SFTP_REQUEST_STATUS_WAITING q)]> (rt_reqs t) /\
     forall f, queued A' f <-> f <> r /\ queued A f) \/
  (get_sftp_request fuel t id = Ret (None, t) /\ forall r q, queued A r -> rt_reqs t !! r = Some q -> rq_id q <> id).
Proof. intros Hwf Hfuel. apply (get_request_any fuel t A id Hwf). by apply lookup_request_spec. Qed.

(** ** The two threads

    The waiting thread of request [r] and the thread that receives replies.
    Status changes of the waiting thread happen under the lock of the signal,
    its removal of the request behind it; [th_holds]: the receiving thread got a
    pointer to the request from the table and did not signal it yet. *)

Inductive waiter := WStart | WCheck | WBlocked | WLeave (result : Z) | WDone (v : Z).

Record threads := mk_threads { th_table : rtable; th_wait : waiter; th_holds : bool }.

Inductive step (r : nat) : threads -> threads -> Prop :=
| step_start t t' h : wait_start t r = Some t' -> step r (mk_threads t WStart h) (mk_threads t' WCheck h)
| step_return o t v t' h :
    wait_check o t r = Some (Return v, t') -> step r (mk_threads t WCheck h) (mk_threads t' (WDone v) h)
| step_leave o t t' h :
    wait_check o t r = Some (Leave, t') -> step r (mk_threads t WCheck h) (mk_threads t' (WLeave 0) h)
| step_wait o t t' h :
    wait_check o t r = Some (Wait, t') -> step r (mk_threads t WCheck h) (mk_threads t' WBlocked h)
| step_wake t h : step r (mk_threads t WBlocked h) (mk_threads t WCheck h)
| step_expire result t h : 0 < result -> step r (mk_threads t WBlocked h) (mk_threads t (WLeave result) h)
| step_left result t t' h :
    wait_leave result t r = Some t' -> step r (mk_threads t (WLeave result) h) (mk_threads t' (WDone 0) h)
| step_get fuel id t t' w :
    get_sftp_request fuel t id = Ret (Some r, t') -> step r (mk_threads t w false) (mk_threads t' w true)
| step_signal v t t' w :
    signal_sftp_received_id t r = Some (v, t') -> step r (mk_threads t w true) (mk_threads t' w false)
| step_signal_error t t' w :
    signal_sftp_received_id_error t r = Some t' -> step r (mk_threads t w true) (mk_threads t' w false).

(** *** Bits of the status *)

Lemma status_minus_response x : has x SFTP_REQUEST_STATUS_RESPONSE = true ->
  x - SFTP_REQUEST_STATUS_RESPONSE = Z.ldiff x SFTP_REQUEST_STATUS_RESPONSE.
Proof.
  intros H. apply Z.sub_nocarry_ldiff. apply Z.bits_inj'. intros n Hn. rewrite Z.ldiff_spec, Z.bits_0.
  change SFTP_REQUEST_STATUS_RESPONSE with (2 ^ 2). rewrite Z.pow2_bits_eqb by lia.
  destruct (Z.eqb_spec 2 n) as [<-|]; [| done]. simpl. apply negb_false_iff.
  unfold has in H. apply negb_true_iff, Z.eqb_neq in H. destruct (Z.testbit x 2) eqn:E; [done |]. exfalso. apply H.
  apply Z.bits_inj'. intros n Hn'. rewrite Z.land_spec, Z.bits_0. change SFTP_REQUEST_STATUS_RESPONSE with (2 ^ 2).
  rewrite Z.pow2_bits_eqb by lia. destruct (Z.eqb_spec 2 n) as [<-|]; [by rewrite E | by rewrite andb_false_r].
Qed.

(** *** The invariant of the two threads *)

Definition gone (t : rtable) (A : gmap nat (list nat)) (r : nat) : Prop := ls_single (rt_store t) r /\ ~ queued A r.

Definition place (t : rtable) (A : gmap nat (list nat)) (r : nat) (q : sftp_request) (w : waiter) (holds : bool) : Prop :=
  match w with
  | WStart => ls_alloc (rt_store t) r /\ unused A r /\ (forall h l, A !! h = Some l -> is_u64 (zlen l + 1)) /\ holds = false /\
      has (rq_status q) SFTP_REQUEST_STATUS_FINISH = false /\ has (rq_status q) SFTP_REQUEST_STATUS_ERROR = false
  | WCheck | WBlocked =>
      (queued A r /\ holds = false /\ has (rq_status q) SFTP_REQUEST_STATUS_FINISH = false /\
       has (rq_status q) SFTP_REQUEST_STATUS_ERROR = false) \/ gone t A r
  | WLeave _ => (queued A r /\ holds = false) \/ gone t A r
  | WDone v => gone t A r /\ (v = 1 -> has (rq_status q) SFTP_REQUEST_STATUS_FINISH = true)
  end.

Definition inv (r : nat) (s : threads) : Prop :=
  exists A q, wf_requests (th_table s) A /\ rt_reqs (th_table s) !! r = Some q /\
    (th_holds s = true -> has (rq_status q) SFTP_REQUEST_STATUS_RESPONSE = true) /\
    place (th_table s) A r q (th_wait s) (th_holds s).

Lemma upd_req_inv t r f t' q : upd_req t r f = Some t' -> rt_reqs t !! r = Some q ->
  t' = mk_rtable (rt_store t) (<[r := f q]> (rt_reqs t)).
Proof. unfold upd_req. intros E Hq. rewrite Hq in E. by injection E as <-. Qed.

Lemma get_any fuel t A id r t' :
  wf_requests t A -> get_sftp_request fuel t id = Ret (Some r, t') ->
  queued A r /\ exists A' q, wf_requests t' A' /\ gone t' A' r /\ rt_reqs t !! r = Some q /\
    rt_reqs t' !! r = Some (or_status SFTP_REQUEST_STATUS_RESPONSE (clear_status SFTP_REQUEST_STATUS_WAITING q)).
Proof.
  intros Hwf. unfold get_sftp_request.
  destruct (lookup_request_any fuel t A id Hwf) as [-> | [(e & q & t1 & A' & -> & Hwf' & Hs & Hrq & Hq & Hid & Hqd & Hm) | [-> _]]]; [done | | done].
  simpl. destruct (upd_req t1 e _) as [t2|] eqn:Eu; [| done]. intros [= -> ->]. split; [done |]. exists A', q.
  pose proof (upd_req_inv _ _ _ _ q Eu ltac:(by rewrite Hrq)) as ->. split; [by eapply wf_upd; [| | exact Eu] |].
  split; [split; [done | naive_solver] |]. split; [done |]. simpl. rewrite Hrq. by simplify_map_eq.
Qed.

Lemma unused_queued A r : unused A r -> ~ queued A r.
Proof. intros Hu (i & l & _ & Hl & Hin). by apply (Hu _ _ Hl). Qed.

(** Updates of the status that keep RESPONSE and FINISH where they are set. *)
Definition only_adds (f : sftp_request -> sftp_request) : Prop :=
  forall q, rq_id (f q) = rq_id q /\
    (has (rq_status q) SFTP_REQUEST_STATUS_RESPONSE = true -> has (rq_status (f q)) SFTP_REQUEST_STATUS_RESPONSE = true).

Lemma inv_upd r t f t' w w' h :
  inv r (mk_threads t w h) -> upd_req t r f = Some t' -> only_adds f ->
  (forall A q, rt_reqs t !! r = Some q -> place t A r q w h -> place t' A r (f q) w' h) ->
  inv r (mk_threads t' w' h).
Proof.
  intros (A & q & Hwf & Hq & Hh & Hp) Eu Hf Hpl. simpl in *. exists A, (f q). simpl.
  split; [by eapply wf_upd; [| intros q'; apply Hf | exact Eu] |].
  pose proof (upd_req_inv _ _ _ _ _ Eu Hq) as E. split; [rewrite E; simpl; by simplify_map_eq |].
  split; [intros E2; apply Hf; auto | auto].
Qed.

(** Only the table fields of [place] that the update keeps matter. *)
Lemma place_store t t' A r q q' w h :
  rt_store t' = rt_store t -> place t A r q w h ->
  has (rq_status q') SFTP_REQUEST_STATUS_FINISH = has (rq_status q) SFTP_REQUEST_STATUS_FINISH ->
  has (rq_status q') SFTP_REQUEST_STATUS_ERROR = has (rq_status q) SFTP_REQUEST_STATUS_ERROR -> place t' A r q' w h.
Proof. intros Es Hp E1 E2. destruct w; unfold place, gone in *; rewrite ?Es, ?E1, ?E2; done. Qed.

Lemma check_inv o t r c t' h :
  wait_check o t r = Some (c, t') -> inv r (mk_threads t WCheck h) ->
  inv r (mk_threads t' (match c with Return v => WDone v | Leave => WLeave 0 | Wait => WBlocked end) h).
Proof.
  intros E Hinv. pose proof Hinv as (A & q & Hwf & Hq & Hh & Hp). simpl in *. unfold wait_check in E. rewrite Hq in E. simpl in E.
  assert (forall f t1, upd_req t r f = Some t1 -> only_adds f -> inv r (mk_threads t1 (WLeave 0) h)) as Hleave.
  { intros f t1 Eu Ha. apply (inv_upd r t f t1 WCheck _ h Hinv Eu Ha). intros A1 q1 Hq1 [(? & ? & _)|Hg]; [by left | right].
    by rewrite (upd_req_inv _ _ _ _ _ Eu Hq1). }
  assert (forall f, leave t r f = Some (c, t') -> only_adds f ->
    inv r (mk_threads t' (match c with Return v => WDone v | Leave => WLeave 0 | Wait => WBlocked end) h)) as Hlv.
  { intros f El Ha. unfold leave in El. destruct (upd_req t r f) as [t1|] eqn:Eu; [| done]. injection El as <- <-. by apply (Hleave f). }
  destruct (has (rq_status q) SFTP_REQUEST_STATUS_FINISH) eqn:Ef.
  - injection E as <- <-. exists A, q. split; [done |]. split; [done |]. split; [done |]. simpl.
    destruct Hp as [(_ & _ & ? & _)|?]; [congruence |]. split; [done | by rewrite Ef].
  - destruct (env_interrupted o); [destruct (has (rq_status q) SFTP_REQUEST_STATUS_RESPONSE) eqn:Er |].
    + destruct (upd_req t r _) as [t1|] eqn:Eu; [| done]. injection E as <- <-.
      apply (inv_upd r t _ t1 WCheck _ h Hinv Eu).
      * intros q'. split; [done |]. simpl. by rewrite has_ldiff.
      * intros A1 q1 Hq1 Hp1. rewrite (upd_req_inv _ _ _ _ _ Eu Hq1).
        eapply (place_store t _ A1 r q1 _ WBlocked); [done | exact Hp1 | simpl; by rewrite has_ldiff | simpl; by rewrite has_ldiff].
    + apply (Hlv _ E). intros q'. split; [done |]. simpl. intros Hr. by rewrite has_lor, Hr.
    + destruct (env_break o); [by apply (Hlv _ E) |]. destruct (has (rq_status q) SFTP_REQUEST_STATUS_ERROR) eqn:Ee.
      * injection E as <- <-. exists A, q. split; [done |]. split; [done |]. split; [done |]. simpl.
        destruct Hp as [(_ & _ & _ & ?)|?]; [congruence |]. by split.
      * destruct (env_sequence o); [apply (Hlv _ E); intros q'; split; [done |]; simpl; intros Hr; by rewrite has_lor, Hr |].
        destruct (env_disconnect o); [apply (Hlv _ E); intros q'; split; [done |]; simpl; intros Hr; by rewrite has_lor, Hr |].
        injection E as <- <-. exists A, q. repeat (split; [done |]).
        simpl. by rewrite Ef, Ee.
Qed.

Lemma leave_inv result t r t' h :
  wait_leave result t r = Some t' -> inv r (mk_threads t (WLeave result) h) -> inv r (mk_threads t' (WDone 0) h).
Proof.
  intros E (A & q & Hwf & Hq & Hh & Hp). simpl in *. unfold wait_leave in E.
  assert (exists t1 A1, remove_request_hashtable t r = Some t1 /\ wf_requests t1 A1 /\ rt_reqs t1 = rt_reqs t /\ gone t1 A1 r)
    as (t1 & A1 & Er & Hwf1 & Hrq & Hg).
  { destruct Hp as [[Hqd _]|[Hs Hn]].
    - destruct (remove_request_spec t A r Hwf Hqd) as (t1 & A1 & ? & ? & ? & ? & Hm). exists t1, A1.
      repeat (split; [done |]). naive_solver.
    - exists t, A. unfold remove_request_hashtable. rewrite ls_remove_single by done. opt. destruct t. done. }
  rewrite Er in E. simpl in E. rewrite <- Hrq in Hq. destruct (0 <? result).
  - destruct (result =? ETIMEDOUT); pose proof (upd_req_inv _ _ _ _ _ E Hq) as ->;
      (eexists A1, _; simpl; split; [by eapply wf_upd; [| | exact E] |]; split; [by simplify_map_eq |]; simpl;
       split; [intros Ht; rewrite has_lor, (Hh Ht); done | done]).
  - injection E as <-. exists A1, q. repeat (split; [done |]). discriminate.
Qed.

(** Every step keeps the invariant. *)
Lemma step_inv r s s' : step r s s' -> inv r s -> inv r s'.
Proof.
  intros Hstep Hinv. destruct Hstep as [t t' h E|o t v t' h E|o t t' h E|o t t' h E|t h|res t h Hr|res t t' h E|fuel id t t' w E|v t t' w E|t t' w E].
  - destruct Hinv as (A & q & Hwf & Hq & Hh & Hp). simpl in *. destruct Hp as (Hal & Hu & Hw & -> & Hf & He). unfold wait_start in E. rewrite Hq in E. simpl in E.
    destruct (ls_init_spec _ A r (Some (rhdr (rq_id q mod hashsize))) (wr_store _ _ Hwf) Hal Hu) as (st & Ei & HR & Hk).
    rewrite Ei in E. simpl in E.
    destruct (add_request_spec (mk_rtable st (rt_reqs t)) A r q) as (t1 & A1 & E1 & Hwf1 & Hrq & Hm & _);
      [constructor; [done | apply Hwf] | done | by apply Hk | done | done |].
    rewrite E1 in E. injection E as <-. exists A1, q. simpl. rewrite Hrq. split; [done |]. split; [done |]. split; [done |].
    left. split; [apply Hm; by left | done].
  - by apply (check_inv o t r (Return v)).
  - by apply (check_inv o t r Leave).
  - by apply (check_inv o t r Wait).
  - done.
  - destruct Hinv as (A & q & Hwf & Hq & Hh & Hp). exists A, q. split; [done |]. split; [done |]. split; [done |]. simpl in *. tauto.
  - by apply (leave_inv res t).
  - destruct Hinv as (A & q & Hwf & Hq & Hh & Hp). simpl in *.
    destruct (get_any fuel t A id r t' Hwf E) as (Hqd & A1 & q1 & Hwf1 & Hg & Hq1 & Hq2). eexists A1, _. simpl.
    split; [done |]. split; [done |]. split; [intros _; simpl; by rewrite has_lor, orb_true_r |].
    destruct w; simpl in *; [by destruct (unused_queued A r); tauto | by right | by right | by right |].
    by destruct Hp as [[_ ?] _].
  - destruct Hinv as (A & q & Hwf & Hq & Hh & Hp). simpl in *. specialize (Hh eq_refl). unfold signal_sftp_received_id in E. rewrite Hq in E.
    simpl in E. rewrite Hh in E. destruct (upd_req t r _) as [t1|] eqn:Eu; [| done]. injection E as _ <-.
    pose proof (upd_req_inv _ _ _ _ _ Eu Hq) as Et. eexists A, _. simpl.
    split; [by eapply wf_upd; [| | exact Eu] |]. split; [rewrite Et; simpl; by simplify_map_eq |]. split; [done |].
    rewrite Et. destruct w; simpl in *; unfold gone in *; simpl; [naive_solver | naive_solver | naive_solver | naive_solver |].
    split; [tauto |]. intros _. by rewrite has_lor, orb_true_r.
  - apply (inv_upd r t (or_status SFTP_REQUEST_STATUS_ERROR) t' w w true) in E; [| done | |].
    + destruct E as (A & q & ? & ? & ? & Hp). exists A, q. simpl in *. repeat (split; [done |]).
      destruct w; simpl in *; naive_solver.
    + intros q. split; [done |]. simpl. intros Hr. by rewrite has_lor, Hr.
    + intros A q Hq Hp. rewrite (upd_req_inv _ _ _ _ _ E Hq). destruct w; simpl in *; unfold gone in *; simpl; try naive_solver.
      destruct Hp as [? Hf]. split; [done |]. intros ->. by rewrite has_lor, Hf.
Qed.

(** Request [r] is allocated and in no list, the receiver does not know it, and
    its status has neither FINISH nor ERROR. *)
Definition initial (r : nat) (s : threads) (A : gmap nat (list nat)) : Prop :=
  wf_requests (th_table s) A /\ th_wait s = WStart /\ th_holds s = false /\ ls_alloc (rt_store (th_table s)) r /\
  unused A r /\ (forall h l, A !! h = Some l -> is_u64 (zlen l + 1)) /\
  exists q, rt_reqs (th_table s) !! r = Some q /\ has (rq_status q) SFTP_REQUEST_STATUS_FINISH = false /\
    has (rq_status q) SFTP_REQUEST_STATUS_ERROR = false.

Lemma reachable_inv r s A s' : initial r s A -> rtc (step r) s s' -> inv r s'.
Proof.
  intros (Hwf & Hw & Hh & Ha & Hu & Hb & q & Hq & Hf & He) Hrtc.
  assert (inv r s) as Hinv.
  { destruct s as [t w h]. simpl in *. subst. exists A, q. simpl. by repeat (split; [done |]). }
  clear - Hinv Hrtc. induction Hrtc as [|s1 s2 s3 H12 H23 IH]; [done |]. apply IH. by eapply step_inv.
Qed.

(** in every interleaving of the waiting and the receiving thread, once
    [wait_sftp_response] has returned the request is in no row of the table, so
    no later reply finds it (it lives on the stack of the waiting thread); the
    result is 1 only when the request is finished. *)
Theorem wait_leaves_table (r : nat) (s s' : threads) (A : gmap nat (list nat)) (v : Z) :
  initial r s A -> rtc (step r) s s' -> th_wait s' = WDone v ->
  exists A' q, wf_requests (th_table s') A' /\ ~ queued A' r /\ rt_reqs (th_table s') !! r = Some q /\
    (v = 1 -> has (rq_status q) SFTP_REQUEST_STATUS_FINISH = true) /\
    forall fuel id t, get_sftp_request fuel (th_table s') id <> Ret (Some r, t).
Proof.
  intros Hi Hrtc Hw. destruct (reachable_inv r s A s' Hi Hrtc) as (A' & q & Hwf & Hq & _ & Hp). rewrite Hw in Hp.
  destruct Hp as [[_ Hn] Hf]. exists A', q. repeat (split; [done |]). intros fuel id t E.
  destruct (get_any fuel _ A' id r t Hwf E) as [? _]. done.
Qed.

(** a reply reaches the waiting thread: when the reply for a queued request
    comes in and is signalled, the request is finished, and the next iteration
    of the wait loop returns 1, also when it is interrupted, broken off or
    disconnected at the same time. *)
Theorem reply_reaches_waiter (t : rtable) (A : gmap nat (list nat)) (r : nat) (q : sftp_request) (fuel : nat) :
  wf_requests t A -> queued A r -> rt_reqs t !! r = Some q ->
  (forall f q', queued A f -> rt_reqs t !! f = Some q' -> rq_id q' = rq_id q -> f = r) ->
  (forall h l, A !! h = Some l -> (length l < fuel)%nat) ->
  exists t1 t2, get_sftp_request fuel t (rq_id q) = Ret (Some r, t1) /\ signal_sftp_received_id t1 r = Some (0, t2) /\
    forall o, wait_check o t2 r = Some (Return 1, t2).
Proof.
  intros Hwf Hqd Hq Huniq Hfuel. unfold get_sftp_request.
  destruct (lookup_request_spec fuel t A (rq_id q) Hwf Hfuel) as [(e & q' & t1 & A' & -> & _ & _ & Hrq & Hq' & Hid & Hqe & _) | [_ Hn]];
    [| by destruct (Hn r q)].
  assert (e = r) as -> by (by apply (Huniq e q')). simpl. unfold upd_req at 1. rewrite Hrq, Hq. simpl.
  eexists _, _. split; [done |]. unfold signal_sftp_received_id, upd_req. simpl. rewrite lookup_insert_eq. simpl.
  rewrite has_lor, orb_true_r. split; [done |]. intros o. unfold wait_check. simpl. rewrite lookup_insert_eq. simpl.
  by rewrite has_lor, orb_true_r.
Qed.

End Requests.

(** ** A concrete table *)

Definition example_requests : rtable := mk_rtable store64 {[0%nat := mk_request 70 1 0 false]}.

Lemma example_requests_wf : exists A, wf_requests 0 example_requests A /\ (forall h l, A !! h = Some l -> l = []).
Proof.
  destruct store64_spec as (A & HR & Hnil & Hrow & _). exists A. split; [| done].
  constructor; [exact HR |]. intros i Hi. exists []. split; [by apply Hrow | constructor].
Qed.

Lemma example_initial : exists A, initial 0 0 (mk_threads example_requests WStart false) A.
Proof.
  destruct example_requests_wf as (A & Hwf & Hnil). destruct (nil_rows A 0 Hnil) as [Hu Hw]. exists A.
  split; [exact Hwf |]. do 2 (split; [done |]). split; [destruct store64_spec as (? & _ & _ & _ & Ha); apply Ha; lia |].
  split; [exact Hu |]. split; [exact Hw |]. eexists. split; [reflexivity |]. by split.
Qed.

(** The table with request 0, of id 70, queued in row 6. *)
Definition queued_requests : rtable := default example_requests (add_request_hashtable 0 example_requests 0).

Lemma queued_requests_wf : exists A, wf_requests 0 queued_requests A /\
  (forall h l, A !! h = Some l -> (length l < 2)%nat) /\ (forall f, row_member 0 64 A f <-> f = 0%nat) /\
  rt_reqs queued_requests = {[0%nat := mk_request 70 1 0 false]}.
Proof.
  destruct example_requests_wf as (A & Hwf & Hnil). destruct (nil_rows A 0 Hnil) as [Hu Hw].
  destruct (add_request_spec 0 example_requests A 0 (mk_request 70 1 0 false) Hwf eq_refl) as (t & A' & E & Hwf' & Hrq & Hm & h & l & Hl & ->);
    [destruct store64_spec as (? & _ & _ & _ & Ha); apply Ha; lia | exact Hu | exact Hw |].
  assert (queued_requests = t) as -> by (unfold queued_requests; by rewrite E). clear E.
  eexists. split; [exact Hwf' |]. split; [| split].
  - intros h2 l2 [[<- <-] | [_ ->%Hnil]]%lookup_insert_Some; [| simpl; lia]. rewrite (Hnil _ _ Hl). simpl. lia.
  - intros f. rewrite Hm. split; [| by left]. intros [-> | (i & k & _ & Hk%Hnil & Hin)]; [done |]. subst k. by apply elem_of_nil in Hin.
  - by rewrite Hrq.
Qed.

#[local] Opaque queued_requests.

Lemma get_sftp_request_correct_witness :
  exists A, (exists r q t' A', get_sftp_request 0 2 queued_requests 70 = Ret (Some r, t') /\ wf_requests 0 t' A' /\
     rt_reqs queued_requests !! r = Some q /\ rq_id q = 70 /\ row_member 0 64 A r /\
     rt_reqs t' = <[r := or_status SFTP_REQUEST_STATUS_RESPONSE (clear_status SFTP_REQUEST_STATUS_WAITING q)]> (rt_reqs queued_requests) /\
     forall f, row_member 0 64 A' f <-> f <> r /\ row_member 0 64 A f) \/
  (get_sftp_request 0 2 queued_requests 70 = Ret (None, queued_requests) /\
   forall r q, row_member 0 64 A r -> rt_reqs queued_requests !! r = Some q -> rq_id q <> 70).
Proof.
  destruct queued_requests_wf as (A & Hwf & Hlen & _). exists A.
  apply (get_sftp_request_correct 0 queued_requests A 70 2 Hwf Hlen).
Defined.

Lemma reply_reaches_waiter_witness :
  exists t1 t2, get_sftp_request 0 2 queued_requests 70 = Ret (Some 0%nat, t1) /\ signal_sftp_received_id t1 0 = Some (0, t2) /\
    forall o, wait_check o t2 0 = Some (Return 1, t2).
Proof.
  destruct queued_requests_wf as (A & Hwf & Hlen & Hm & Hrq).
  apply (reply_reaches_waiter 0 queued_requests A 0 (mk_request 70 1 0 false) 2 Hwf).
  - by apply Hm.
  - by rewrite Hrq.
  - by intros f q' ->%Hm _ _.
  - exact Hlen.
Defined.

(** Two schedules: the waiting thread times out; and the same, after the
    receiving thread has taken the request from the table. *)
Definition no_event : env := mk_env false false false false.

Definition table_of (o : option rtable) : rtable := default example_requests o.
Definition started : rtable := table_of (wait_start 0 example_requests 0).
Definition taken : rtable := match get_sftp_request 0 2 started 70 with Ret (_, t) => t | _ => example_requests end.
Definition timed_out (t : rtable) : rtable := table_of (wait_leave ETIMEDOUT t 0).

Definition isSome {A} (o : option A) : bool := match o with Some _ => true | None => false end.

Lemma table_of_ok o : isSome o = true -> o = Some (table_of o).
Proof. by destruct o. Qed.

Lemma started_ok : wait_start 0 example_requests 0 = Some started.
Proof. apply table_of_ok. vm_compute. reflexivity. Qed.

Lemma started_wait : wait_check no_event started 0 = Some (Wait, started).
Proof.
  unfold wait_check. assert (rt_reqs started !! 0%nat = Some (mk_request 70 1 0 false)) as -> by (vm_compute; reflexivity).
  reflexivity.
Qed.

Lemma taken_ok : get_sftp_request 0 2 started 70 = Ret (Some 0%nat, taken).
Proof.
  assert (match get_sftp_request 0 2 started 70 with Ret (Some O, _) => true | _ => false end = true) as E by (vm_compute; reflexivity).
  unfold taken. by destruct (get_sftp_request 0 2 started 70) as [[[[]|] t]| |].
Qed.

Lemma timed_out_ok : wait_leave ETIMEDOUT started 0 = Some (timed_out started) /\ wait_leave ETIMEDOUT taken 0 = Some (timed_out taken).
Proof. split; apply table_of_ok; vm_compute; reflexivity. Qed.

#[local] Opaque started taken.

Lemma schedule_timeout : rtc (step 0 0) (mk_threads example_requests WStart false) (mk_threads (timed_out started) (WDone 0) false).
Proof.
  eapply rtc_l; [apply step_start, started_ok |]. eapply rtc_l; [by eapply step_wait, started_wait |].
  eapply rtc_l; [by apply (step_expire _ _ ETIMEDOUT) |]. eapply rtc_l; [by eapply step_left, timed_out_ok |]. apply rtc_refl.
Qed.

Lemma wait_leaves_table_witness :
  exists A' q, wf_requests 0 (timed_out started) A' /\ ~ row_member 0 64 A' 0 /\ rt_reqs (timed_out started) !! 0%nat = Some q /\
    (0 = 1 -> has (rq_status q) SFTP_REQUEST_STATUS_FINISH = true) /\
    forall fuel id t, get_sftp_request 0 fuel (timed_out started) id <> Ret (Some 0%nat, t).
Proof.
  destruct example_initial as (A & Hi).
  apply (wait_leaves_table 0 0 (mk_threads example_requests WStart false)
    (mk_threads (timed_out started) (WDone 0) false) A 0 Hi schedule_timeout eq_refl).
Defined.

(** the status RESPONSE does not keep the waiting thread: there is a schedule
    in which it times out and returns 0, so that its request is gone from the
    stack, while the receiving thread still holds the request it took from the
    table and will write the reply and the status to it. *)
Theorem request_outlived_by_receiver :
  exists s', rtc (step 0 0) (mk_threads example_requests WStart false) s' /\ th_wait s' = WDone 0 /\ th_holds s' = true.
Proof.
  exists (mk_threads (timed_out taken) (WDone 0) true). split; [| done].
  eapply rtc_l; [apply step_start, started_ok |]. eapply rtc_l; [by eapply step_wait, started_wait |].
  eapply rtc_l; [by eapply step_get, taken_ok |]. eapply rtc_l; [by apply (step_expire _ _ ETIMEDOUT) |].
  eapply rtc_l; [by eapply step_left, timed_out_ok |]. apply rtc_refl.
Qed.

End RequestHash.
