(* ===== verification/NameList.v ===== *)
(** * lib/datatypes/ssh-namelist.c: comma separated lists of names

    A list is a NUL terminated string or a buffer with a length.  The reference
    notion is the list of words between the commas, [split_commas]. *)

From stdpp Require Import base list list_numbers numbers option sets.
From S2P Require Import Prelude.

Module NameList.

Definition ENAMETOOLONG := 36.
Definition COMMA := 44.

(** ** String functions of the C library *)

(** [strchr (p, c)] for [c <> 0]: the offset of the first [c] before the NUL;
    [None] when the string has no end inside its object. *)
Fixpoint strchr (p : bytes) (c : Z) : option (option Z) :=
  match p with
  | [] => None
  | b :: p =>
      if b =? c then Some (Some 0)
      else if b =? 0 then Some None
      else let? o := strchr p c in Some (option_map (Z.add 1) o)
  end.

(** [memchr (p, c, n)] *)
Fixpoint memchr (p : bytes) (c : Z) (n : nat) : option (option Z) :=
  match n with
  | O => Some None
  | S n =>
      match p with
      | [] => None
      | b :: p => if b =? c then Some (Some 0) else let? o := memchr p c n in Some (option_map (Z.add 1) o)
      end
  end.

Fixpoint starts_with (hay needle : bytes) : bool :=
  match needle, hay with
  | [], _ => true
  | n :: needle, h :: hay => (n =? h) && starts_with hay needle
  | _ :: _, [] => false
  end.

Fixpoint occurs (hay needle : bytes) : bool :=
  starts_with hay needle || match hay with [] => false | _ :: hay => occurs hay needle end.

(** [strstr (hay, needle) != NULL] *)
Definition strstr (hay needle : bytes) : option bool :=
  let? h := cstring hay in let? n := cstring needle in Some (occurs h n).

(** ** The functions of the file *)

Record commalist := mk_commalist {
  cl_list : option bytes;
  cl_len : Z;
  cl_size : Z
}.

(** The result, the list and [*error]. *)
Definition add_name_to_commalist (name : bytes) (clist : option commalist) : option (Z * option commalist * Z) :=
  let? lenname := strlen name in
  match clist with
  | None => Some (lenname + 1, None, 0)
  | Some cl =>
      if cl_size cl <? u32 (cl_len cl + lenname + 1) then Some (0, Some cl, ENAMETOOLONG)
      else
        let? l := cl_list cl in
        let? n := mem_read name 0 lenname in
        if cl_len cl =? 0 then
          let? l := mem_write l 0 n in
          Some (lenname, Some (mk_commalist (Some l) (cl_len cl + lenname) (cl_size cl)), 0)
        else
          let? l := mem_write l (cl_len cl) [COMMA] in
          let? l := mem_write l (cl_len cl + 1) n in
          Some (lenname + 1, Some (mk_commalist (Some l) (cl_len cl + lenname + 1) (cl_size cl)), 0)
  end.

Definition free_list_commalist (cl : commalist) : commalist := mk_commalist None 0 0.

Definition string_found_commalist (names name : bytes) : option Z :=
  let? lenlist := strlen names in
  let? l := mem_read names 0 lenlist in
  let? len := strlen name in
  let? n := mem_read name 0 len in
  let? b := strstr (COMMA :: l ++ [COMMA; 0]) (COMMA :: n ++ [COMMA; 0]) in
  Some (if (b : bool) then 1 else 0).

Definition name_found_namelist (cl : commalist) (name : bytes) : option Z :=
  if 0 <? cl_len cl then
    let? l := cl_list cl in
    let? d := mem_read l 0 (cl_len cl) in
    string_found_commalist (d ++ [0]) name
  else Some 0.

(** The loop of [parse_ssh_commalist] from [finditem] on: the entries given to
    the callback, as offset and length. *)
Fixpoint finditem (fuel : nat) (entries : bytes) (start left : Z) : outcome (list (Z * Z)) :=
  match fuel with
  | O => NoFuel
  | S fuel =>
      match memchr (drop (Z.to_nat start) entries) COMMA (Z.to_nat left) with
      | None => Ub
      | Some None => Ret [(start, u32 left)]
      | Some (Some n) =>
          let left := left - n in
          if 0 <? left then
            outcome_bind (finditem fuel entries (start + n + 1) left) (fun es => Ret ((start, n) :: es))
          else Ret [(start, n)]
      end
  end.

Definition parse_ssh_commalist (fuel : nat) (entries : bytes) (size : Z) : outcome (list (Z * Z)) :=
  match (if 0 <? size then Some size else strlen entries) with
  | Some n => finditem fuel entries 0 n
  | None => Ub
  end.

(** ** Words *)

Fixpoint split_commas (l : bytes) : list bytes :=
  match l with
  | [] => [[]]
  | c :: l =>
      if c =? COMMA then [] :: split_commas l
      else match split_commas l with w :: ws => (c :: w) :: ws | [] => [[c]] end
  end.

(** A comma before every word. *)
Definition wrap (ws : list bytes) : bytes := concat ((fun w => COMMA :: w) <$> ws).

Definition no_comma (w : bytes) : Prop := Forall (fun c => c <> COMMA) w.

Lemma split_commas_cons l : exists w ws, split_commas l = w :: ws.
Proof.
  induction l as [|c l (w & ws & IH)]; simpl; [eauto |]. destruct (c =? COMMA); [eauto |]. rewrite IH. eauto.
Qed.

Lemma wrap_cons w ws : wrap (w :: ws) = COMMA :: w ++ wrap ws.
Proof. done. Qed.

Lemma wrap_split l : wrap (split_commas l) = COMMA :: l.
Proof.
  induction l as [|c l IH]; [done |]. cbn [split_commas].
  destruct (Z.eqb_spec c COMMA) as [->|]; [by rewrite wrap_cons, IH |].
  destruct (split_commas_cons l) as (w & ws & E). rewrite E, wrap_cons in IH. injection IH as IH.
  rewrite E, wrap_cons. simpl. by rewrite IH.
Qed.

Lemma split_no_comma l : Forall no_comma (split_commas l).
Proof.
  induction l as [|c l IH]; simpl; [repeat constructor |].
  destruct (Z.eqb_spec c COMMA); [constructor; [constructor | done] |].
  destruct (split_commas_cons l) as (w & ws & E). rewrite E in *. apply Forall_cons_1 in IH as [? ?].
  constructor; [| done]. by constructor.
Qed.

Lemma split_no_nul l : no_nul l -> Forall no_nul (split_commas l).
Proof.
  induction 1 as [|c l Hc Hl IH]; simpl; [repeat constructor |].
  destruct (c =? COMMA); [constructor; [constructor | done] |].
  destruct (split_commas_cons l) as (w & ws & E). rewrite E in *. apply Forall_cons_1 in IH as [? ?].
  constructor; [| done]. by constructor.
Qed.

Lemma split_wf l : wf_bytes l -> Forall wf_bytes (split_commas l).
Proof.
  induction 1 as [|c l Hc Hl IH]; simpl; [repeat constructor |].
  destruct (c =? COMMA); [constructor; [constructor | done] |].
  destruct (split_commas_cons l) as (w & ws & E). rewrite E in *. apply Forall_cons_1 in IH as [? ?].
  constructor; [| done]. by constructor.
Qed.

Lemma split_length l : (length (split_commas l) <= S (length l))%nat.
Proof.
  induction l as [|c l IH]; simpl; [done |]. destruct (c =? COMMA); simpl; [lia |].
  destruct (split_commas_cons l) as (w & ws & E). rewrite E in *. simpl in *. lia.
Qed.

Lemma split_word w : no_comma w -> split_commas w = [w].
Proof.
  induction 1 as [|c w Hc Hw IH]; [done |]. simpl. destruct (Z.eqb_spec c COMMA); [done |]. by rewrite IH.
Qed.

Lemma split_app_comma d e : split_commas (d ++ COMMA :: e) = split_commas d ++ split_commas e.
Proof.
  induction d as [|c d IH]; [done |]. simpl. destruct (c =? COMMA); [by rewrite IH |].
  rewrite IH. by destruct (split_commas_cons d) as (w & ws & ->).
Qed.

Lemma free_split (free : bytes) n : 0 <= n <= zlen free -> exists x post, free = x ++ post /\ zlen x = n.
Proof.
  intros Hn. exists (take (Z.to_nat n) free), (drop (Z.to_nat n) free). rewrite take_drop. split; [done |]. by apply zlen_take.
Qed.

(** ** Searching a word between commas *)

Lemma starts_with_spec needle : forall hay, starts_with hay needle = true <-> exists r, hay = needle ++ r.
Proof.
  induction needle as [|n needle IH]; intros [|h hay]; simpl.
  - split; [by exists [] | done].
  - split; [by eexists | done].
  - split; [done | by intros (r & ?)].
  - rewrite andb_true_iff, Z.eqb_eq, IH. split.
    + intros (-> & r & ->). by exists r.
    + intros (r & [= -> ->]). eauto.
Qed.

Lemma no_comma_prefix w v a b : no_comma w -> no_comma v -> w ++ COMMA :: a = v ++ COMMA :: b -> w = v /\ a = b.
Proof.
  revert v. induction w as [|x w IH]; intros [|y v] Hw Hv; simpl; intros E.
  - by injection E as ->.
  - injection E as <- _. by apply Forall_cons_1 in Hv as [? _].
  - injection E as -> _. by apply Forall_cons_1 in Hw as [? _].
  - injection E as <- E. apply Forall_cons_1 in Hw as [_ Hw]. apply Forall_cons_1 in Hv as [_ Hv].
    by destruct (IH v Hw Hv E) as [-> ->].
Qed.

Lemma occurs_skip v rest needle :
  no_comma v -> occurs (v ++ rest) (COMMA :: needle) = occurs rest (COMMA :: needle).
Proof.
  induction 1 as [|c v Hc Hv IH]; [done |]. cbn [app occurs starts_with].
  destruct (Z.eqb_spec COMMA c); [congruence |]. simpl. exact IH.
Qed.

Lemma occurs_wrap ws : forall w,
  no_comma w -> Forall no_comma ws ->
  occurs (wrap ws ++ [COMMA]) (COMMA :: w ++ [COMMA]) = bool_decide (w ∈ ws).
Proof.
  induction ws as [|v ws IH]; intros w Hw Hws.
  - rewrite bool_decide_eq_false_2 by set_solver. unfold wrap. simpl.
    destruct w as [|? [|? ?]]; simpl; by rewrite ?andb_false_r.
  - apply Forall_cons_1 in Hws as [Hv Hws].
    assert (exists r, wrap ws ++ [COMMA] = COMMA :: r) as [r Er] by (destruct ws; by eexists).
    rewrite wrap_cons. cbn [app]. rewrite <- app_assoc.
    cbn [occurs]. rewrite occurs_skip, IH by done.
    destruct (starts_with (COMMA :: v ++ wrap ws ++ [COMMA]) (COMMA :: w ++ [COMMA])) eqn:E.
    + symmetry. apply bool_decide_eq_true_2. apply starts_with_spec in E as (r' & E). injection E as E.
      rewrite Er, <- app_assoc in E. apply no_comma_prefix in E as [-> _]; [left | done | done].
    + simpl. apply bool_decide_ext. rewrite elem_of_cons. split; [by right |]. intros [->|]; [exfalso | done].
      assert (starts_with (COMMA :: v ++ wrap ws ++ [COMMA]) (COMMA :: v ++ [COMMA]) = true) as E2; [| congruence].
      apply starts_with_spec. exists r. rewrite Er. simpl. by rewrite <- app_assoc.
Qed.

Lemma no_nul_comma l : no_nul l -> no_nul (COMMA :: l ++ [COMMA]).
Proof. intros. constructor; [done |]. apply Forall_app_2; [done |]. by constructor. Qed.

Lemma strstr_words l w rest rest' :
  no_nul l -> no_nul w -> no_comma w ->
  strstr (COMMA :: l ++ COMMA :: 0 :: rest) (COMMA :: w ++ COMMA :: 0 :: rest') = Some (bool_decide (w ∈ split_commas l)).
Proof.
  intros Hl Hw Hc. unfold strstr.
  assert (forall x r, no_nul x -> cstring (COMMA :: x ++ COMMA :: 0 :: r) = Some (COMMA :: x ++ [COMMA])) as E.
  { intros x r Hx. rewrite <- (cstring_app (COMMA :: x ++ [COMMA]) r) by (by apply no_nul_comma). simpl. by rewrite <- app_assoc. }
  rewrite !E by done. opt. change (COMMA :: l ++ [COMMA]) with ((COMMA :: l) ++ [COMMA]). rewrite <- (wrap_split l).
  by rewrite occurs_wrap by (done || apply split_no_comma).
Qed.

(** [string_found_commalist] is 1 exactly when the name is one of the words of
    the comma separated list; a name that is only a part of a word is not found. *)
Theorem string_found_commalist_correct (l w rest rest' : bytes) :
  no_nul l -> no_nul w -> no_comma w ->
  string_found_commalist (l ++ 0 :: rest) (w ++ 0 :: rest') = Some (if bool_decide (w ∈ split_commas l) then 1 else 0).
Proof.
  intros Hl Hw Hc. unfold string_found_commalist. rewrite strlen_app by done. opt.
  assert (forall x r, mem_read (x ++ 0 :: r) 0 (zlen x) = Some x) as Hm.
  { intros x r. pose proof (zlen_nonneg x). pose proof (zlen_nonneg r).
    rewrite mem_read_Some by (rewrite ?zlen_app, ?zlen_cons; lia). rewrite drop_0, take_app_length'; [done | unfold zlen; lia]. }
  rewrite Hm, strlen_app by done. opt. rewrite Hm. opt. by rewrite (strstr_words l w [] []).
Qed.

Lemma string_found_commalist_correct_witness :
  string_found_commalist ([97;98;44;97;98;99] ++ [0]) ([97;98;99] ++ [0]) = Some 1.
Proof. apply (string_found_commalist_correct [97;98;44;97;98;99] [97;98;99] [] []); repeat constructor; done. Defined.

(** a list built by [add_name_to_commalist] from names without commas has
    exactly the old words and the new name, in order; when the buffer is too
    small the list is unchanged and the error is ENAMETOOLONG. *)
Theorem add_name_to_commalist_correct (d free name rest : bytes) (size : Z) :
  no_nul name -> no_comma name -> is_u32 (zlen d + zlen name + 1) -> size = zlen d + zlen free -> is_u32 size ->
  exists r cl err, add_name_to_commalist (name ++ 0 :: rest) (Some (mk_commalist (Some (d ++ free)) (zlen d) size)) = Some (r, Some cl, err) /\
    (zlen d + zlen name + 1 <= size ->
       err = 0 /\ exists d' free', cl = mk_commalist (Some (d' ++ free')) (zlen d') size /\ zlen d' + zlen free' = size /\
         split_commas d' = (if decide (d = []) then [] else split_commas d) ++ [name]) /\
    (size < zlen d + zlen name + 1 -> err = ENAMETOOLONG /\ r = 0 /\ cl = mk_commalist (Some (d ++ free)) (zlen d) size).
Proof.
  intros Hn Hc Hw -> Hws. unfold add_name_to_commalist. rewrite strlen_app by done. opt. cbn [cl_size cl_len cl_list].
  rewrite u32_id by done. pose proof (zlen_nonneg d). pose proof (zlen_nonneg name). pose proof (zlen_nonneg rest).
  destruct (Z.ltb_spec (zlen d + zlen free) (zlen d + zlen name + 1)) as [Hlt|Hge].
  { eexists _, _, _. split; [done |]. split; [lia | done]. }
  opt. rewrite mem_read_Some by (rewrite ?zlen_app, ?zlen_cons; lia). opt.
  rewrite drop_0, take_app_length' by (unfold zlen; lia).
  pose proof (zlen_nonneg free). destruct (Z.eqb_spec (zlen d) 0) as [E0|E0].
  - destruct d; [| unfold zlen in E0; simpl in E0; lia]. change (zlen []) with 0 in *. simpl app.
    destruct (free_split free (zlen name)) as (x & post & -> & Hx); [lia |].
    pose proof (mem_write_free [] x name post Hx) as E. simpl in E. change (zlen []) with 0 in E. rewrite E. opt.
    eexists _, _, _. split; [done |]. split; [| lia]. intros _. split; [done |]. exists name, post.
    rewrite zlen_app in *. split; [done |]. split; [lia |]. simpl. by apply split_word.
  - destruct (free_split free (1 + zlen name)) as (x & post & -> & Hx); [lia |].
    destruct x as [|c x]; [change (zlen []) with 0 in Hx; lia |]. rewrite zlen_cons in Hx. simpl app in *.
    change (d ++ c :: x ++ post) with (d ++ [c] ++ x ++ post). rewrite (mem_write_free d [c] [COMMA] (x ++ post)) by done. opt.
    change ([COMMA] ++ x ++ post) with (COMMA :: x ++ post). rewrite cons_middle, app_assoc.
    replace (zlen d + 1) with (zlen (d ++ [COMMA])) by (by rewrite zlen_app).
    rewrite (mem_write_free (d ++ [COMMA]) x name post) by lia. opt.
    eexists _, _, _. split; [done |]. split; [| lia]. intros _. split; [done |]. exists (d ++ COMMA :: name), post.
    split; [| split].
    + f_equal; [by rewrite <- !app_assoc | rewrite zlen_app, zlen_cons; lia].
    + rewrite !zlen_app, !zlen_cons, zlen_app in *. lia.
    + rewrite decide_False by (by intros ->). rewrite split_app_comma. f_equal. by apply split_word.
Qed.

Lemma add_name_to_commalist_correct_witness :
  exists r cl err, add_name_to_commalist ([99] ++ [0]) (Some (mk_commalist (Some ([97;44;98] ++ [0;0;0])) 3 6)) = Some (r, Some cl, err) /\
    (3 + 1 + 1 <= 6 ->
       err = 0 /\ exists d' free', cl = mk_commalist (Some (d' ++ free')) (zlen d') 6 /\ zlen d' + zlen free' = 6 /\
         split_commas d' = [[97];[98]] ++ [[99]]) /\
    (6 < 3 + 1 + 1 -> err = ENAMETOOLONG /\ r = 0 /\ cl = mk_commalist (Some ([97;44;98] ++ [0;0;0])) 3 6).
Proof. apply (add_name_to_commalist_correct [97;44;98] [0;0;0] [99] [] 6); repeat constructor; done. Defined.

(** [parse_ssh_commalist] forgets the separator when it computes what is
    left: of the list "a,b" of three bytes the second entry is reported with
    length 2, and the search reads a byte behind the list. *)
Theorem parse_ssh_commalist_overruns :
  parse_ssh_commalist 3 [97; 44; 98; 120] 3 = Ret [(0, 1); (2, 2)] /\ parse_ssh_commalist 3 [97; 44; 98] 3 = Ub.
Proof. done. Qed.

End NameList.
