(* ===== verification/KexCompare.v ===== *)
(** * ssh/keyexchange/compare.c: algorithm negotiation

    The two KEXINIT messages carry ten comma separated lists each; for every list
    the first name of the client that the server has too is chosen (RFC 4253,
    7.1), and looked up in the table of supported algorithms.  The string
    functions work on the memory of the local arrays, with positions as offsets;
    following a NULL result or leaving the array is [Ub]. *)

From stdpp Require Import base list list_numbers numbers option sets.
From S2P Require Import Prelude SshUint SshString NameList.
Import SshUint SshString NameList.

Module KexCompare.

Definition SSH_ALGO_TYPE_HOSTKEY := 1.
Definition SSH_ALGO_TYPE_LANG_C2S := 8.
Definition SSH_ALGO_TYPE_LANG_S2C := 9.
Definition SSH_ALGO_TYPES_COUNT := 10.

(** [struct algo_list_s]: the fields that are read; the table ends with a
    negative type. *)
Record algo := mk_algo { a_type : Z; a_sshname : bytes }.

(** ** get_best_guess *)

(** The name at [c_name + 1] is cut at [c_sep] and copied when it fits. *)
Definition take_name (list_c : bytes) (c_name c_sep : Z) (name : bytes) (size : Z) : option bytes :=
  let? l := mem_write list_c c_sep [0] in
  let? len := strlen (drop (Z.to_nat (c_name + 1)) l) in
  if len <? size then let? d := mem_read l (c_name + 1) (len + 1) in mem_write name 0 d else Some name.

(** From [findname] on. *)
Fixpoint findname (fuel : nat) (list_c list_s : bytes) (c_name c_sep : Z) (name : bytes) (size : Z) : outcome bytes :=
  match fuel with
  | O => NoFuel
  | S fuel =>
      match list_c !! Z.to_nat (c_sep + 1) with
      | None => Ub
      | Some c_keep =>
          match (if 0 <? c_keep then mem_write list_c (c_sep + 1) [0] else Some list_c) with
          | None => Ub
          | Some l =>
              match strstr list_s (drop (Z.to_nat c_name) l) with
              | None => Ub
              | Some true => lift (take_name l c_name c_sep name size)
              | Some false =>
                  if 0 <? c_keep then
                    match mem_write l (c_sep + 1) [c_keep] with
                    | None => Ub
                    | Some l =>
                        match strchr (drop (Z.to_nat (c_sep + 1)) l) COMMA with
                        | Some (Some n) => findname fuel l list_s c_sep (c_sep + 1 + n) name size
                        | _ => Ub       (* off the array, or *(NULL + 1) *)
                        end
                    end
                  else Ret name
              end
          end
      end
  end.

(** [list[0] = ','; memcpy (&list[1], ptr, len); list[len + 1] = ','; list[len +
    2] = 0]; the array has [len + 3] bytes. *)
Definition comma_array (s : ssh_string) : option bytes :=
  let? d := s_data s in
  if s_len s + 3 <? 2 ^ 32 then Some (COMMA :: d ++ [COMMA; 0]) else None.

Definition get_best_guess (fuel : nat) (clist_c clist_s : ssh_string) (name : bytes) (size : Z) : outcome bytes :=
  if (s_len clist_c =? 0) || (match s_ptr clist_c with PNull => true | _ => false end) || (s_len clist_s =? 0)
  then Ret name
  else match comma_array clist_c, comma_array clist_s with
       | Some list_c, Some list_s =>
           match strchr (drop 1 list_c) COMMA, strchr (drop 1 list_s) COMMA with
           | Some (Some nc), Some (Some ns) =>
               let c_sep := 1 + nc in
               let s_sep := 1 + ns in
               if (c_sep =? s_sep) && bytes_eqb (take (Z.to_nat c_sep) list_c) (take (Z.to_nat c_sep) list_s)
               then lift (take_name list_c 0 c_sep name size)
               else findname fuel list_c list_s 0 c_sep name size
           | _, _ => Ub
           end
       | _, _ => Ub
       end.

(** ** get_index_algo *)

Fixpoint index_loop (algos : list algo) (name : bytes) (type ctr : Z) : option Z :=
  match algos with
  | [] => None                 (* no end marker: read behind the table *)
  | a :: algos =>
      if a_type a <? 0 then Some (-1)
      else
        if a_type a =? type then
          let? x := cstring (a_sshname a) in
          let? y := cstring name in
          if bytes_eqb x y then Some ctr else index_loop algos name type (ctr + 1)
        else index_loop algos name type (ctr + 1)
  end.

Definition get_index_algo (algos : list algo) (name : bytes) (type : Z) : option Z := index_loop algos name type 0.

(** ** compare_msg_kexinit *)

Record kex_state := mk_kex {
  k_chosen : list Z;                               (* kex->chosen[] *)
  k_stored : option (ssh_string * ssh_string)      (* store_algo_pubkey_negotiation *)
}.

Definition set_chosen (k : kex_state) (i v : Z) : option kex_state :=
  if (0 <=? i) && (i <? zlen (k_chosen k)) then Some (mk_kex (<[Z.to_nat i := v]> (k_chosen k)) (k_stored k)) else None.

(** The body of the loop for list [i] with both lists read: [None] in the pair
    is [goto error]. *)
Definition choose (fuel : nat) (algos : list algo) (main : bool) (i : Z) (sc ss : ssh_string) (k : kex_state)
  : outcome (option kex_state * kex_state) :=
  outcome_bind (lift (set_chosen k i (-1))) (fun k =>
  outcome_bind (get_best_guess fuel sc ss (repeat 0 65) 65) (fun name =>
  outcome_bind (lift (strlen name)) (fun len =>
    if 0 <? len then
      outcome_bind (lift (get_index_algo algos name i)) (fun index =>
        if index =? -1 then Ret (None, k)
        else
          outcome_bind (lift (set_chosen k i index)) (fun k =>
            let k := if main && (i =? SSH_ALGO_TYPE_HOSTKEY) then mk_kex (k_chosen k) (Some (sc, ss)) else k in
            Ret (Some k, k)))
    else if (i =? SSH_ALGO_TYPE_LANG_C2S) || (i =? SSH_ALGO_TYPE_LANG_S2C) then Ret (Some k, k)
    else Ret (None, k)))).

(** The loop over the lists, from list [i] on; [pc] and [ps]: the memory at
    [pos_client] and [pos_server]. *)
Fixpoint kex_loop (fuel : nat) (algos : list algo) (main : bool) (n : nat) (i : Z)
    (pc : bytes) (lc : Z) (ps : bytes) (ls : Z) (k : kex_state) : outcome (Z * kex_state) :=
  match n with
  | O => Ret (0, k)
  | S n =>
      outcome_bind (lift (read_ssh_string pc lc (Some SSH_STRING_INIT))) (fun '(nc, sc) =>
        if nc =? 0 then Ret (-1, k)
        else
          outcome_bind (lift (read_ssh_string ps ls (Some SSH_STRING_INIT))) (fun '(ns, ss) =>
            if ns =? 0 then Ret (-1, k)
            else
              outcome_bind (choose fuel algos main i sc ss k) (fun '(r, k) =>
                match r with
                | None => Ret (-1, k)
                | Some k =>
                    kex_loop fuel algos main n (i + 1) (drop (Z.to_nat nc) pc) (u32 (lc - nc))
                      (drop (Z.to_nat ns) ps) (u32 (ls - ns)) k
                end)))
  end.

(** [main]: the flag SSH_CONNECTION_FLAG_MAIN of the connection. *)
Definition compare_msg_kexinit (fuel : nat) (algos : list algo) (main : bool) (kexinit_client kexinit_server : ssh_string)
    (k : kex_state) : outcome (Z * kex_state) :=
  match s_view kexinit_client with
  | None => Ret (-1, k)
  | Some pc =>
      if s_len kexinit_client <=? 63 then Ret (-1, k)
      else match s_view kexinit_server with
      | None => Ret (-1, k)
      | Some ps =>
          if s_len kexinit_server <=? 63 then Ret (-1, k)
          else kex_loop fuel algos main (Z.to_nat SSH_ALGO_TYPES_COUNT) 0
                 (drop 17 pc) (u32 (s_len kexinit_client - 17)) (drop 17 ps) (u32 (s_len kexinit_server - 17)) k
      end
  end.

(** ** The name chosen *)

Definition best_name (c s : bytes) : option bytes := find (fun w => bool_decide (w ∈ split_commas s)) (split_commas c).

(** The content of [name] after [get_best_guess]. *)
Definition copied (name : bytes) (size : Z) (w : bytes) : bytes :=
  if zlen w <? size then w ++ 0 :: drop (length w + 1) name else name.

Lemma take_name_spec pre w x post name size :
  no_nul w -> size <= zlen name ->
  take_name (pre ++ COMMA :: w ++ x :: post) (zlen pre) (zlen pre + 1 + zlen w) name size = Some (copied name size w).
Proof.
  intros Hw Hs. unfold take_name, copied.
  replace (pre ++ COMMA :: w ++ x :: post) with ((pre ++ COMMA :: w) ++ [x] ++ post) by (by rewrite <- app_assoc).
  replace (zlen pre + 1 + zlen w) with (zlen (pre ++ COMMA :: w)) by (rewrite zlen_app, zlen_cons; lia).
  rewrite mem_write_free by done. opt.
  replace ((pre ++ COMMA :: w) ++ [0] ++ post) with ((pre ++ [COMMA]) ++ w ++ 0 :: post) by (by rewrite <- !app_assoc).
  assert (Z.to_nat (zlen pre + 1) = length (pre ++ [COMMA])) as E by (rewrite length_app; simpl; unfold zlen; lia).
  rewrite E, drop_app_length, strlen_app by done. opt. destruct (Z.ltb_spec (zlen w) size); [| done].
  pose proof (zlen_nonneg w). pose proof (zlen_nonneg pre). pose proof (zlen_nonneg post).
  rewrite mem_read_Some by (rewrite ?zlen_app, ?zlen_cons, ?(zlen_nil (A := Z)); lia). opt. rewrite E, drop_app_length.
  replace (take (Z.to_nat (zlen w + 1)) (w ++ 0 :: post)) with (w ++ [0]).
  - rewrite mem_write_Some by (rewrite ?zlen_app, ?zlen_cons, ?(zlen_nil (A := Z)); lia). f_equal.
    rewrite length_app, <- app_assoc. done.
  - replace (Z.to_nat (zlen w + 1)) with (length (w ++ [0])) by (rewrite length_app; unfold zlen; simpl; lia).
    rewrite <- (take_app_length (w ++ [0]) post) at 1. by rewrite <- app_assoc.
Qed.

Lemma strchr_comma w rest : no_nul w -> no_comma w -> strchr (w ++ COMMA :: rest) COMMA = Some (Some (zlen w)).
Proof.
  intros Hn Hc. induction w as [|c w IH]; [done |]. apply Forall_cons_1 in Hn as [? Hn]. apply Forall_cons_1 in Hc as [? Hc].
  simpl. destruct (Z.eqb_spec c COMMA); [done |]. destruct (Z.eqb_spec c 0); [done |]. rewrite IH by done.
  simpl. by rewrite zlen_cons.
Qed.

(** One iteration, at name [w]; [k] is the byte behind its closing comma. *)
Lemma findname_step fuel s rest pre w k post name size :
  no_comma w -> no_nul w -> no_nul s -> 0 <= k -> (k = 0 -> post = []) -> size <= zlen name ->
  findname (S fuel) (pre ++ COMMA :: w ++ COMMA :: k :: post) (COMMA :: s ++ COMMA :: 0 :: rest) (zlen pre) (zlen pre + 1 + zlen w) name size
    = if bool_decide (w ∈ split_commas s) then Ret (copied name size w)
      else if 0 <? k then
        match strchr (k :: post) COMMA with
        | Some (Some n) => findname fuel (pre ++ COMMA :: w ++ COMMA :: k :: post) (COMMA :: s ++ COMMA :: 0 :: rest)
                             (zlen pre + 1 + zlen w) (zlen pre + 1 + zlen w + 1 + n) name size
        | _ => Ub
        end
      else Ret name.
Proof.
  intros Hc Hn Hs Hk Hk0 Hsz. set (P := pre ++ COMMA :: w ++ [COMMA]).
  pose proof (zlen_nonneg pre). pose proof (zlen_nonneg w).
  assert (zlen pre + 1 + zlen w + 1 = zlen P) as EP by (unfold P; rewrite zlen_app, zlen_cons, zlen_app; change (zlen [COMMA]) with 1; lia).
  assert (forall t, pre ++ COMMA :: w ++ COMMA :: t = P ++ t) as Eshape
    by (intros t; unfold P; rewrite <- app_assoc; simpl; by rewrite <- app_assoc).
  assert (forall t, strstr (COMMA :: s ++ COMMA :: 0 :: rest) (drop (Z.to_nat (zlen pre)) (P ++ 0 :: t)) = Some (bool_decide (w ∈ split_commas s))) as Estr.
  { intros t. rewrite <- Eshape, drop_app_length' by (unfold zlen; lia). by apply strstr_words. }
  assert (forall t, take_name (P ++ t) (zlen pre) (zlen pre + 1 + zlen w) name size = Some (copied name size w)) as Etake
    by (intros t; rewrite <- Eshape; by apply take_name_spec).
  cbn [findname]. rewrite !Eshape, EP.
  rewrite list_lookup_middle by (unfold zlen; lia).
  destruct (Z.ltb_spec 0 k) as [Hpos|Hnp].
  - rewrite mem_write_one, Estr. case_bool_decide; [by rewrite Etake |].
    rewrite mem_write_one. by rewrite drop_app_length' by (unfold zlen; lia).
  - assert (k = 0) as -> by lia. rewrite Estr. case_bool_decide; [by rewrite Etake | done].
Qed.

(** The loop: [ws] are the names behind [w]. *)
Lemma findname_spec s rest name size ws : forall fuel pre w,
  Forall no_comma (w :: ws) -> Forall no_nul (w :: ws) -> Forall wf_bytes ws -> no_nul s -> size <= zlen name -> (length ws < fuel)%nat ->
  findname fuel (pre ++ wrap (w :: ws) ++ [COMMA; 0]) (COMMA :: s ++ COMMA :: 0 :: rest) (zlen pre) (zlen pre + 1 + zlen w) name size
    = Ret (match find (fun v => bool_decide (v ∈ split_commas s)) (w :: ws) with
           | Some v => copied name size v | None => name end).
Proof.
  induction ws as [|v ws IH]; intros [|fuel] pre w Hc Hn Hwf Hs Hsz Hf; simpl in Hf; try lia.
  all: apply Forall_cons_1 in Hc as [Hcw Hc]; apply Forall_cons_1 in Hn as [Hnw Hn]; rewrite wrap_cons.
  - change (wrap []) with (@nil Z). rewrite app_nil_r. change ((COMMA :: w) ++ [COMMA; 0]) with (COMMA :: w ++ [COMMA; 0]).
    rewrite findname_step by done. cbn [find]. by case_bool_decide.
  - apply Forall_cons_1 in Hwf as [Hv Hwf]. rewrite wrap_cons.
    assert (exists y, wrap ws ++ [COMMA; 0] = COMMA :: y) as [y Ey] by (destruct ws; by eexists).
    assert (exists k post, v ++ COMMA :: y = k :: post /\ 0 < k) as (k & post & Ek & Hk).
    { destruct v as [|c v]; [by exists COMMA, y |]. exists c, (v ++ COMMA :: y). split; [done |].
      apply Forall_cons_1 in Hv as [[? ?] _]. apply Forall_cons_1 in Hn as [Hnv _]. apply Forall_cons_1 in Hnv as [? _]. lia. }
    assert (pre ++ (COMMA :: w ++ COMMA :: v ++ wrap ws) ++ [COMMA; 0] = pre ++ COMMA :: w ++ COMMA :: k :: post) as Esh
      by (simpl; rewrite <- app_assoc; simpl; rewrite <- app_assoc, Ey; by rewrite Ek).
    rewrite Esh, findname_step by (done || lia). cbn [find]. case_bool_decide; [done |].
    destruct (Z.ltb_spec 0 k); [| lia]. rewrite <- Ek, strchr_comma by (by apply Forall_cons_1 in Hc as [? _], Hn as [? _]).
    specialize (IH fuel (pre ++ COMMA :: w) v Hc Hn Hwf Hs Hsz ltac:(lia)).
    replace (zlen (pre ++ COMMA :: w)) with (zlen pre + 1 + zlen w) in IH by (rewrite zlen_app, zlen_cons; lia).
    etransitivity; [| exact IH]. f_equal. rewrite wrap_cons, <- !app_assoc. simpl. by rewrite <- app_assoc, Ey, Ek.
Qed.

(** ** get_best_guess *)

Definition good_list (d : bytes) : Prop := wf_bytes d /\ no_nul d /\ is_u32 (zlen d + 3).

Lemma comma_array_spec s d : s_data s = Some d -> is_u32 (zlen d + 3) -> comma_array s = Some (COMMA :: d ++ [COMMA; 0]).
Proof.
  intros Hd [_ Hw]. destruct (s_data_inv _ _ Hd) as (_ & _ & _ & _ & El). unfold comma_array. rewrite Hd. opt. rewrite <- El.
  by destruct (Z.ltb_spec (zlen d + 3) (2 ^ 32)); [| lia].
Qed.

(** The first comma behind the opening one closes the first word. *)
Lemma first_word d w ws :
  split_commas d = w :: ws -> no_nul d ->
  strchr (d ++ [COMMA; 0]) COMMA = Some (Some (zlen w)) /\ exists t, COMMA :: d ++ [COMMA; 0] = COMMA :: w ++ COMMA :: t.
Proof.
  intros E Hn. pose proof (wrap_split d) as Hw. rewrite E, wrap_cons in Hw. injection Hw as Hw.
  pose proof (split_no_comma d) as Hc. pose proof (split_no_nul d Hn) as Hnn. rewrite E in Hc, Hnn.
  apply Forall_cons_1 in Hc as [Hc _], Hnn as [Hnn _].
  assert (exists t, d ++ [COMMA; 0] = w ++ COMMA :: t) as [t Et].
  { rewrite <- Hw, <- app_assoc. destruct ws as [|v ws]; [by exists [0] |]. rewrite wrap_cons. simpl. by eexists. }
  rewrite Et. split; [by apply strchr_comma | by exists t].
Qed.

Lemma get_best_guess_spec (c s : ssh_string) (dc ds name : bytes) (size : Z) (fuel : nat) :
  s_data c = Some dc -> s_data s = Some ds -> good_list dc -> good_list ds -> size <= zlen name -> (zlen dc < Z.of_nat fuel) ->
  get_best_guess fuel c s name size =
    Ret (if decide (dc = [] \/ ds = []) then name
         else match best_name dc ds with Some w => copied name size w | None => name end).
Proof.
  intros Hc Hs (Hcw & Hcn & Hc3) (Hsw & Hsn & Hs3) Hsz Hf. unfold get_best_guess.
  destruct (s_data_inv _ _ Hc) as (vc & Hvc & _ & _ & Elc). destruct (s_data_inv _ _ Hs) as (vs & Hvs & _ & _ & Els).
  assert (match s_ptr c with PNull => true | _ => false end = false) as -> by (unfold s_view in Hvc; by destruct (s_ptr c)).
  rewrite <- Elc, <- Els, orb_false_r.
  assert (forall d : bytes, (zlen d =? 0) = bool_decide (d = [])) as Ez
    by (intros [|? ?]; [done |]; rewrite zlen_cons; pose proof (zlen_nonneg l); rewrite bool_decide_eq_false_2 by done;
        destruct (Z.eqb_spec (1 + zlen l) 0); [lia | done]).
  rewrite !Ez. destruct (decide (dc = [] \/ ds = [])) as [Hor|Hor].
  { destruct Hor as [-> | ->]; [by rewrite bool_decide_eq_true_2 |]. rewrite (bool_decide_eq_true_2 ([] = [])) by done. by rewrite orb_true_r. }
  rewrite !bool_decide_eq_false_2 by tauto. simpl orb. cbn match.
  rewrite (comma_array_spec c dc), (comma_array_spec s ds) by done.
  destruct (split_commas_cons dc) as (w & ws & Ew). destruct (split_commas_cons ds) as (v & vs' & Ev).
  destruct (first_word dc w ws Ew Hcn) as (Esc & tc & Etc). destruct (first_word ds v vs' Ev Hsn) as (Ess & ts & Ets).
  change (drop 1 (COMMA :: dc ++ [COMMA; 0])) with (dc ++ [COMMA; 0]).
  change (drop 1 (COMMA :: ds ++ [COMMA; 0])) with (ds ++ [COMMA; 0]). rewrite Esc, Ess.
  pose proof (split_no_comma dc) as Hcc. pose proof (split_no_nul dc Hcn) as Hcnn. unfold best_name. rewrite Ew in *.
  assert (forall x t : bytes, take (Z.to_nat (1 + zlen x)) (COMMA :: x ++ COMMA :: t) = COMMA :: x) as Etk.
  { intros x t. replace (Z.to_nat (1 + zlen x)) with (length (COMMA :: x)) by (simpl; unfold zlen; lia).
    rewrite app_comm_cons. apply take_app_length. }
  assert (findname fuel (COMMA :: dc ++ [COMMA; 0]) (COMMA :: ds ++ [COMMA; 0]) 0 (1 + zlen w) name size
    = Ret (match find (fun v => bool_decide (v ∈ split_commas ds)) (w :: ws) with Some v => copied name size v | None => name end)) as Eloop.
  { pose proof (wrap_split dc) as Hw. rewrite Ew in Hw. rewrite app_comm_cons, <- Hw.
    apply (findname_spec ds [] name size ws fuel [] w); try done.
    - pose proof (split_wf dc Hcw) as Hwf. rewrite Ew in Hwf. by apply Forall_cons_1 in Hwf as [_ ?].
    - pose proof (split_length dc) as Hl. rewrite Ew in Hl. simpl in Hl. unfold zlen in Hf. lia. }
  destruct (Z.eqb_spec (1 + zlen w) (1 + zlen v)) as [El|El]; simpl andb; [| exact Eloop].
  assert (bytes_eqb (take (Z.to_nat (1 + zlen w)) (COMMA :: dc ++ [COMMA; 0])) (take (Z.to_nat (1 + zlen w)) (COMMA :: ds ++ [COMMA; 0]))
    = bool_decide (w = v)) as ->.
  { unfold bytes_eqb. rewrite Etc, Etk, Ets, El, Etk. apply bool_decide_ext. split; congruence. }
  case_bool_decide as Ewv; [subst v | exact Eloop]. cbn match. rewrite Etc.
  rewrite (take_name_spec [] w COMMA tc); [| by apply Forall_cons_1 in Hcnn as [? _] | done].
  simpl. rewrite Ev. by rewrite bool_decide_eq_true_2 by left.
Qed.

(** [get_best_guess] on two lists without NUL bytes terminates, stays inside
    its arrays and leaves in [name] the first name of the client's list that is
    also on the server's list (when it fits), or nothing when there is none or a
    list is empty. *)
Theorem get_best_guess_correct (c s : ssh_string) (dc ds name : bytes) (size : Z) (fuel : nat) :
  s_data c = Some dc -> s_data s = Some ds -> good_list dc -> good_list ds -> size <= zlen name -> (zlen dc < Z.of_nat fuel) ->
  get_best_guess fuel c s name size =
    Ret (if decide (dc = [] \/ ds = []) then name
         else match best_name dc ds with Some w => copied name size w | None => name end).
Proof. apply get_best_guess_spec. Qed.

Lemma get_best_guess_correct_witness :
  get_best_guess 8 (mk_ssh_string 0 5 0 (PMem [97;98;44;99;100]) []) (mk_ssh_string 0 4 0 (PMem [120;44;99;100]) []) (repeat 0 8) 8
    = Ret [99; 100; 0; 0; 0; 0; 0; 0].
Proof.
  apply (get_best_guess_correct (mk_ssh_string 0 5 0 (PMem [97;98;44;99;100]) []) (mk_ssh_string 0 4 0 (PMem [120;44;99;100]) [])
    [97;98;44;99;100] [120;44;99;100] (repeat 0 8) 8 8); try done; repeat split; repeat constructor; done.
Defined.

(** a NUL byte in the client's list, which the protocol forbids but nothing
    checks, makes [strchr] return NULL, and the NULL pointer is used. *)
Theorem get_best_guess_nul :
  get_best_guess 8 (mk_ssh_string 0 3 0 (PMem [97;0;99]) []) (mk_ssh_string 0 1 0 (PMem [98]) []) (repeat 0 65) 65 = Ub.
Proof. done. Qed.

(** ** The whole negotiation *)

(** A table of algorithms: its entries, and the end marker. *)
Definition good_table (tab : list algo) (e : algo) : Prop :=
  Forall (fun a => 0 <= a_type a /\ is_Some (cstring (a_sshname a))) tab /\ a_type e < 0.

Definition named (type : Z) (name : bytes) (a : algo) : Prop := a_type a = type /\ cstring (a_sshname a) = Some name.

#[local] Instance named_dec type name a : Decision (named type name a).
Proof. unfold named. apply _. Defined.

Definition index_of (tab : list algo) (name : bytes) (type : Z) : Z :=
  match list_find (named type name) tab with Some (i, _) => Z.of_nat i | None => -1 end.

Lemma index_loop_spec tab e more name w type : forall ctr,
  good_table tab e -> cstring name = Some w ->
  index_loop (tab ++ e :: more) name type ctr =
    Some (match list_find (named type w) tab with Some (i, _) => ctr + Z.of_nat i | None => -1 end).
Proof.
  induction tab as [|a tab IH]; intros ctr [Hf He] Hn.
  - simpl. by destruct (Z.ltb_spec (a_type e) 0); [| lia].
  - apply Forall_cons_1 in Hf as [[Ha [x Hx]] Hf]. cbn [app index_loop list_find].
    destruct (Z.ltb_spec (a_type a) 0); [lia |]. specialize (IH (ctr + 1) (conj Hf He) Hn).
    assert (Some (match list_find (named type w) tab with Some (i, _) => ctr + 1 + Z.of_nat i | None => -1 end)
      = Some (match prod_map S id <$> list_find (named type w) tab with Some (i, _) => ctr + Z.of_nat i | None => -1 end)) as Enext
      by (destruct (list_find (named type w) tab) as [[i ?]|]; simpl; [f_equal; lia | done]).
    destruct (Z.eqb_spec (a_type a) type) as [Et|Et].
    + rewrite Hx, Hn. opt. unfold bytes_eqb. case_bool_decide as Exw.
      * rewrite decide_True by (by subst). f_equal. simpl. lia.
      * rewrite decide_False by (unfold named; rewrite Hx; naive_solver). by rewrite IH.
    + rewrite decide_False by (unfold named; naive_solver). by rewrite IH.
Qed.

(** The name [compare_msg_kexinit] works with: [name] has 65 bytes. *)
Definition common_name (dc ds : bytes) : bytes :=
  if decide (dc = [] \/ ds = []) then []
  else match best_name dc ds with Some w => if zlen w <? 65 then w else [] | None => [] end.

Definition is_lang (i : Z) : bool := (i =? SSH_ALGO_TYPE_LANG_C2S) || (i =? SSH_ALGO_TYPE_LANG_S2C).

(** The algorithm chosen for list [i]; [None]: the negotiation fails. *)
Definition choice (tab : list algo) (i : Z) (dc ds : bytes) : option Z :=
  if decide (common_name dc ds = []) then (if is_lang i then Some (-1) else None)
  else let n := index_of tab (common_name dc ds) i in if n =? -1 then None else Some n.

Lemma best_name_in dc ds w : best_name dc ds = Some w -> w ∈ split_commas dc.
Proof. intros H%find_some. apply list_elem_of_In. tauto. Qed.

(** The array [name] holds [common_name]. *)
Lemma guess_name dc ds :
  no_nul dc -> exists rest,
  (if decide (dc = [] \/ ds = []) then repeat 0 65
   else match best_name dc ds with Some w => copied (repeat 0 65) 65 w | None => repeat 0 65 end) = common_name dc ds ++ 0 :: rest /\
  no_nul (common_name dc ds).
Proof.
  intros Hn. unfold common_name. destruct (decide (dc = [] \/ ds = [])); [by exists (repeat 0 64); split; [| constructor] |].
  destruct (best_name dc ds) as [w|] eqn:E; [| by exists (repeat 0 64); split; [| constructor]]. unfold copied.
  destruct (Z.ltb_spec (zlen w) 65); [| by exists (repeat 0 64); split; [| constructor]].
  eexists. split; [done |]. pose proof (split_no_nul dc Hn) as Hf. rewrite Forall_forall in Hf. apply Hf. by eapply best_name_in.
Qed.

Lemma set_chosen_spec k i v : 0 <= i < zlen (k_chosen k) ->
  set_chosen k i v = Some (mk_kex (<[Z.to_nat i := v]> (k_chosen k)) (k_stored k)).
Proof. intros H. unfold set_chosen. bdestr; lia || done. Qed.

Lemma choose_spec fuel tab e more main i sc ss dc ds k :
  good_table tab e -> s_data sc = Some dc -> s_data ss = Some ds -> good_list dc -> good_list ds -> zlen dc < Z.of_nat fuel ->
  0 <= i < zlen (k_chosen k) ->
  exists r k', choose fuel (tab ++ e :: more) main i sc ss k = Ret (r, k') /\
    match choice tab i dc ds with
    | Some v => r = Some k' /\ k_chosen k' = <[Z.to_nat i := v]> (k_chosen k)
    | None => r = None
    end.
Proof.
  intros Ht Hc Hs Hgc Hgs Hf Hi. unfold choose. rewrite set_chosen_spec by done. cbn [lift outcome_bind].
  rewrite (get_best_guess_spec sc ss dc ds) by done. cbn [outcome_bind].
  destruct (guess_name dc ds (proj1 (proj2 Hgc))) as (rest & -> & Hnn).
  rewrite strlen_app by done. cbn [lift outcome_bind]. unfold choice, is_lang.
  destruct (decide (common_name dc ds = [])) as [->|Hne].
  - change (0 <? zlen []) with false. cbn match. destruct (_ || _); eexists _, _; split; done.
  - destruct (Z.ltb_spec 0 (zlen (common_name dc ds))) as [_|Hz];
      [| destruct (common_name dc ds); [done | rewrite zlen_cons in Hz; pose proof (zlen_nonneg l); lia]].
    unfold get_index_algo. rewrite (index_loop_spec tab e more _ (common_name dc ds)); [| done | by apply cstring_app].
    cbn [lift outcome_bind].
    assert (match list_find (named i (common_name dc ds)) tab with Some (j, _) => 0 + Z.of_nat j | None => -1 end
      = index_of tab (common_name dc ds) i) as -> by (unfold index_of; by destruct (list_find _ _) as [[? ?]|]).
    destruct (index_of tab (common_name dc ds) i =? -1); [by eexists _, _ |].
    rewrite set_chosen_spec by (simpl; unfold zlen in *; rewrite length_insert; lia). simpl.
    destruct (main && _); eexists _, _; (split; [done |]); (split; [done |]); simpl; by rewrite list_insert_insert_eq.
Qed.

(** The choices for the lists from [i] on. *)
Fixpoint choices (tab : list algo) (i : Z) (ps : list (bytes * bytes)) : option (list Z) :=
  match ps with
  | [] => Some []
  | (dc, ds) :: ps => let? v := choice tab i dc ds in let? vs := choices tab (i + 1) ps in Some (v :: vs)
  end.

Lemma s_data_read d rest : s_data (mk_ssh_string 0 (zlen d) 0 (PMem (d ++ rest)) []) = Some d.
Proof.
  pose proof (zlen_nonneg d). pose proof (zlen_nonneg rest). unfold s_data, s_view. simpl.
  rewrite mem_read_Some by (rewrite ?zlen_app; lia). rewrite drop_0, take_app_length'; [done | unfold zlen; lia].
Qed.

Lemma take_insert_snoc (l : list Z) n v vs :
  (n < length l)%nat -> take (S n) (<[n := v]> l) ++ vs = take n l ++ v :: vs.
Proof.
  intros H. rewrite (take_S_r _ _ v) by (by apply list_lookup_insert_eq). rewrite take_insert_ge by lia. by rewrite <- app_assoc.
Qed.

Lemma kex_loop_spec fuel tab e more main ps : forall i rc lc rs ls k,
  good_table tab e -> Forall (fun p => good_list p.1 /\ good_list p.2 /\ zlen p.1 < Z.of_nat fuel) ps ->
  is_u32 lc -> is_u32 ls -> zlen (encode_strings (fst <$> ps)) <= lc -> zlen (encode_strings (snd <$> ps)) <= ls ->
  0 <= i -> zlen (k_chosen k) = i + zlen ps ->
  exists r k', kex_loop fuel (tab ++ e :: more) main (length ps) i (encode_strings (fst <$> ps) ++ rc) lc
      (encode_strings (snd <$> ps) ++ rs) ls k = Ret (r, k') /\
    match choices tab i ps with
    | Some vs => r = 0 /\ k_chosen k' = take (Z.to_nat i) (k_chosen k) ++ vs
    | None => r = -1
    end.
Proof.
  induction ps as [|[dc ds] ps IH]; intros i rc lc rs ls k Ht Hok Hlc Hls Hc Hs Hi Hlen.
  - exists 0, k. split; [done |]. simpl. split; [done |]. change (zlen []) with 0 in Hlen.
    rewrite app_nil_r, take_ge; [done |]. unfold zlen in Hlen. lia.
  - apply Forall_cons_1 in Hok as [(Hgc & Hgs & Hf) Hok]. cbn [fmap list_fmap fst snd] in *.
    rewrite encode_strings_cons, zlen_app, zlen_encode_string in Hc, Hs. rewrite zlen_cons in Hlen.
    pose proof (zlen_nonneg (encode_strings (fst <$> ps))). pose proof (zlen_nonneg (encode_strings (snd <$> ps))).
    pose proof (zlen_nonneg dc). pose proof (zlen_nonneg ds). pose proof (zlen_nonneg ps).
    cbn [length kex_loop]. rewrite !encode_strings_cons, <- !app_assoc.
    destruct Hlc as [? Hlc], Hls as [? Hls].
    rewrite !read_encode_string by (done || unfold_width; lia). cbn [lift outcome_bind].
    destruct (Z.eqb_spec (4 + zlen dc) 0); [lia |]. destruct (Z.eqb_spec (4 + zlen ds) 0); [lia |]. cbn [s_flags s_buffer SSH_STRING_INIT].
    destruct (choose_spec fuel tab e more main i _ _ dc ds k Ht (s_data_read dc (encode_strings (fst <$> ps) ++ rc)) (s_data_read ds (encode_strings (snd <$> ps) ++ rs)) Hgc Hgs Hf) as (r & k1 & E & Hr);
      [lia |]. rewrite E. cbn [outcome_bind choices]. destruct (choice tab i dc ds) as [v|]; [| subst r; by eexists _, _].
    destruct Hr as [-> Hk1]. opt.
    assert (forall d x : bytes, drop (Z.to_nat (4 + zlen d)) (encode_string d ++ x) = x) as Hdrop.
    { intros d x. apply drop_app_length'. pose proof (zlen_encode_string d). unfold zlen in *. lia. }
    rewrite !Hdrop. rewrite !u32_id by (unfold_width; lia).
    destruct (IH (i + 1) rc (lc - (4 + zlen dc)) rs (ls - (4 + zlen ds)) k1) as (r & k' & E' & Hr');
      [done | done | unfold_width; lia | unfold_width; lia | lia | lia | lia | rewrite Hk1; unfold zlen in *; rewrite length_insert; lia |].
    rewrite E'. eexists _, _. split; [done |]. destruct (choices tab (i + 1) ps) as [vs|]; [| done]. opt.
    destruct Hr' as [-> ->]. split; [done |]. rewrite Hk1. replace (Z.to_nat (i + 1)) with (S (Z.to_nat i)) by lia.
    apply take_insert_snoc. unfold zlen in *. lia.
Qed.

Lemma s_view_len s d : s_data s = Some d -> exists v, s_view s = Some v /\ s_len s = zlen d /\ exists r, v = d ++ r.
Proof.
  intros (v & Hv & Hl & -> & E)%s_data_inv. exists v. split; [done |]. split; [done |].
  exists (drop (Z.to_nat (s_len s)) v). by rewrite take_drop.
Qed.

Lemma compare_msg_kexinit_spec (tab more : list algo) (e : algo) (main : bool) (sc ss : ssh_string)
    (hc hs rc rs : bytes) (ps : list (bytes * bytes)) (k : kex_state) (fuel : nat) :
  good_table tab e -> length ps = 10%nat -> zlen (k_chosen k) = 10 -> zlen hc = 17 -> zlen hs = 17 ->
  s_data sc = Some (hc ++ encode_strings (fst <$> ps) ++ rc) -> s_data ss = Some (hs ++ encode_strings (snd <$> ps) ++ rs) ->
  63 < s_len sc < 2 ^ 32 -> 63 < s_len ss < 2 ^ 32 ->
  Forall (fun p => good_list p.1 /\ good_list p.2 /\ zlen p.1 < Z.of_nat fuel) ps ->
  exists r k', compare_msg_kexinit fuel (tab ++ e :: more) main sc ss k = Ret (r, k') /\
    match choices tab 0 ps with
    | Some vs => r = 0 /\ k_chosen k' = vs
    | None => r = -1
    end.
Proof.
  intros Ht Hn Hk Hhc Hhs Hc Hs Hlc Hls Hok. unfold compare_msg_kexinit.
  destruct (s_view_len _ _ Hc) as (vc & -> & Elc & xc & ->). destruct (s_view_len _ _ Hs) as (vs & -> & Els & xs & ->).
  destruct (Z.leb_spec (s_len sc) 63); [lia |]. destruct (Z.leb_spec (s_len ss) 63); [lia |].
  rewrite !zlen_app in *. rewrite !u32_id by (unfold_width; lia).
  assert (forall h x : bytes, zlen h = 17 -> drop 17 (h ++ x) = x) as Hd by (intros h x Hh; apply drop_app_length'; unfold zlen in Hh; lia).
  rewrite <- !app_assoc, !Hd by done. pose proof (zlen_nonneg rc). pose proof (zlen_nonneg rs).
  destruct (kex_loop_spec fuel tab e more main ps 0 (rc ++ xc) (s_len sc - 17) (rs ++ xs) (s_len ss - 17) k) as (r & k' & E & Hr);
    [done | done | unfold_width; lia | unfold_width; lia | lia | lia | lia | unfold zlen in *; lia |].
  change (Z.to_nat SSH_ALGO_TYPES_COUNT) with 10%nat. rewrite <- Hn, E. eauto.
Qed.

(** C22: for two KEXINIT messages with the type byte, the cookie and ten lists of
    names each, [compare_msg_kexinit] terminates without leaving the messages;
    it returns 0 exactly when every list has a common algorithm that is in the
    table (the two language lists may have none), and then [chosen] holds for
    each list the index of the first algorithm of the client the server
    supports. *)
Theorem compare_msg_kexinit_correct (tab more : list algo) (e : algo) (main : bool) (sc ss : ssh_string)
    (hc hs rc rs : bytes) (ps : list (bytes * bytes)) (k : kex_state) (fuel : nat) :
  good_table tab e -> length ps = 10%nat -> zlen (k_chosen k) = 10 -> zlen hc = 17 -> zlen hs = 17 ->
  s_data sc = Some (hc ++ encode_strings (fst <$> ps) ++ rc) -> s_data ss = Some (hs ++ encode_strings (snd <$> ps) ++ rs) ->
  63 < s_len sc < 2 ^ 32 -> 63 < s_len ss < 2 ^ 32 ->
  Forall (fun p => good_list p.1 /\ good_list p.2 /\ zlen p.1 < Z.of_nat fuel) ps ->
  exists r k', compare_msg_kexinit fuel (tab ++ e :: more) main sc ss k = Ret (r, k') /\
    match choices tab 0 ps with
    | Some vs => r = 0 /\ k_chosen k' = vs
    | None => r = -1
    end.
Proof. apply compare_msg_kexinit_spec. Qed.

(** ** A negotiation *)

Definition ex_algos : list algo :=
  [mk_algo 0 [97;0]; mk_algo 1 [98;0]] ++ ((fun i => mk_algo (Z.of_nat i) [99;0]) <$> seq 0 8).
Definition ex_lists : list (bytes * bytes) :=
  [([120;44;97], [97;44;121]); ([98], [98])] ++ repeat ([99;44;100], [100;44;99]) 6 ++ repeat ([], []) 2.
Definition ex_message (f : bytes * bytes -> bytes) : bytes := repeat 20 17 ++ encode_strings (f <$> ex_lists) ++ [0;0;0;0;0].
Definition ex_string (f : bytes * bytes -> bytes) : ssh_string := mk_ssh_string 0 (zlen (ex_message f)) 0 (PMem (ex_message f)) [].

Lemma compare_msg_kexinit_correct_witness :
  exists r k', compare_msg_kexinit 9 (ex_algos ++ mk_algo (-1) [0] :: []) true (ex_string fst) (ex_string snd) (mk_kex (repeat 0 10) None) = Ret (r, k') /\
    match choices ex_algos 0 ex_lists with Some vs => r = 0 /\ k_chosen k' = vs | None => r = -1 end.
Proof.
  apply (compare_msg_kexinit_correct ex_algos [] (mk_algo (-1) [0]) true (ex_string fst) (ex_string snd)
    (repeat 20 17) (repeat 20 17) [0;0;0;0;0] [0;0;0;0;0] ex_lists (mk_kex (repeat 0 10) None) 9).
  - split; [| done]. repeat constructor; done || by eexists.
  - done.
  - done.
  - done.
  - done.
  - vm_compute. done.
  - vm_compute. done.
  - vm_compute. done.
  - vm_compute. done.
  - unfold ex_lists, good_list. repeat constructor; done.
Defined.

End KexCompare.
