(* ===== verification/ListLock.v ===== *)
(** * lib/list/lock.c: the read/write lock of a list

    The word [value] of a [struct list_lock_s] holds the number of readers times
    four, a bit for the writer and a bit for a writer that waits ahead of the
    others.  The functions run under the mutex of the shared signal and give it
    up only in [signal_condwait], so a step of the model is what one thread does
    between two points where the mutex is free.  A condition variable may wake a
    thread without a broadcast, so a waiting thread may always be woken; [woken]
    records that a broadcast did reach it. *)

From stdpp Require Import base list list_numbers numbers option relations.
From S2P Require Import Prelude.

Module ListLock.

Definition SIMPLE_LOCK_PREWRITE := 1.
Definition SIMPLE_LOCK_WRITE := 2.
Definition SIMPLE_LOCK_READ := 4.

Record list_lock := mk_lock {
  value : Z;             (* unsigned int *)
  threadidw : Z;         (* pthread_t, 0: none *)
  threadidpw : Z
}.

(** Where a thread is: outside, in [signal_condwait] of the writer's loop with
    its two local bytes, in that of the reader's loop, or holding the lock. *)
Inductive thread :=
| Idle
| WaitWrite (block tmp : Z) (woken : bool)
| WaitRead (woken : bool)
| Writing
| Reading.

(** Lines 38-41 and 55-58. *)
Definition take_prewrite (self : Z) (l : list_lock) (block tmp : Z) : list_lock * Z * Z :=
  (mk_lock (Z.lor (value l) SIMPLE_LOCK_PREWRITE) (threadidw l) self,
   u8 (Z.land block (Z.lnot SIMPLE_LOCK_PREWRITE)), Z.lor tmp SIMPLE_LOCK_PREWRITE).

(** Lines 64-69; the [true] is the broadcast. *)
Definition write_acquire (self : Z) (l : list_lock) (tmp : Z) : list_lock * thread * bool :=
  (mk_lock (Z.land (Z.lor (value l) SIMPLE_LOCK_WRITE) (Z.lnot tmp)) self 0, Writing, true).

(** The condition of the loop, line 45. *)
Definition write_blocked (l : list_lock) (block : Z) : bool :=
  has (value l) block || (Z.lor SIMPLE_LOCK_WRITE SIMPLE_LOCK_PREWRITE <? value l).

Definition write_test (self : Z) (l : list_lock) (block tmp : Z) : list_lock * thread * bool :=
  if write_blocked l block then (l, WaitWrite block tmp false, false) else write_acquire self l tmp.

(** [write_lock_list] from the call to the first wait or to the return. *)
Definition write_lock_list (self : Z) (l : list_lock) : list_lock * thread * bool :=
  let block := Z.lor SIMPLE_LOCK_WRITE SIMPLE_LOCK_PREWRITE in
  let '(l1, block1, tmp1) :=
    if negb (has (value l) SIMPLE_LOCK_PREWRITE) || (threadidpw l =? self)
    then take_prewrite self l block 0 else (l, block, 0) in
  write_test self l1 block1 tmp1.

(** The body of the loop after [signal_condwait], lines 49-60, and the next test
    of its condition. *)
Definition write_lock_wake (self : Z) (l : list_lock) (block tmp : Z) : list_lock * thread * bool :=
  if negb (has (value l) block) && (value l <=? Z.lor SIMPLE_LOCK_WRITE SIMPLE_LOCK_PREWRITE)
  then write_acquire self l tmp
  else
    let '(l1, block1, tmp1) :=
      if has block SIMPLE_LOCK_PREWRITE && negb (has (value l) SIMPLE_LOCK_PREWRITE)
      then take_prewrite self l block tmp else (l, block, tmp) in
    write_test self l1 block1 tmp1.

Definition write_unlock_list (l : list_lock) : list_lock * thread * bool :=
  (mk_lock (Z.land (value l) (Z.lnot SIMPLE_LOCK_WRITE)) 0 (threadidpw l), Idle, true).

(** [read_lock_list] from the call, and again after [signal_condwait]. *)
Definition read_lock_list (l : list_lock) : list_lock * thread * bool :=
  if has (value l) (Z.lor SIMPLE_LOCK_WRITE SIMPLE_LOCK_PREWRITE) then (l, WaitRead false, false)
  else (mk_lock (u32 (value l + SIMPLE_LOCK_READ)) (threadidw l) (threadidpw l), Reading, false).

Definition read_unlock_list (l : list_lock) : list_lock * thread * bool :=
  (mk_lock (if SIMPLE_LOCK_READ <=? value l then value l - SIMPLE_LOCK_READ else value l)
     (threadidw l) (threadidpw l), Idle, true).

(** ** Threads *)

(** What a thread does next: a call, or the return from [signal_condwait]. *)
Inductive call := CallWrite | CallRead | CallUnlock | Wake.

Definition act (self : Z) (l : list_lock) (t : thread) (c : call) : option (list_lock * thread * bool) :=
  match t, c with
  | Idle, CallWrite => Some (write_lock_list self l)
  | Idle, CallRead => Some (read_lock_list l)
  | WaitWrite block tmp _, Wake => Some (write_lock_wake self l block tmp)
  | WaitRead _, Wake => Some (read_lock_list l)
  | Writing, CallUnlock => Some (write_unlock_list l)
  | Reading, CallUnlock => Some (read_unlock_list l)
  | _, _ => None
  end.

(** [signal_broadcast] *)
Definition wake (t : thread) : thread :=
  match t with WaitWrite b m _ => WaitWrite b m true | WaitRead _ => WaitRead true | _ => t end.

Definition broadcast (b : bool) (ts : list thread) : list thread := if b then wake <$> ts else ts.

(** [pthread_self ()] of the thread [i]: not zero. *)
Definition tid (i : nat) : Z := Z.of_nat i + 1.

Definition config := (list_lock * list thread)%type.

Definition step_of (i : nat) (c : call) (x : config) : option config :=
  let '(l, ts) := x in
  let? t := ts !! i in
  let? r := act (tid i) l t c in
  let '(l', t', b) := r in
  Some (l', <[i := t']> (broadcast b ts)).

Inductive step (x y : config) : Prop :=
| do_step i c : step_of i c x = Some y -> step x y.

Definition start (n : nat) : config := (mk_lock 0 0 0, replicate n Idle).

Definition reachable (n : nat) (x : config) : Prop := rtc step (start n) x.

(** ** Counting *)

Definition is_reading t := match t with Reading => true | _ => false end.
Definition is_writing t := match t with Writing => true | _ => false end.
Definition is_prewriting t := match t with WaitWrite _ tmp _ => negb (tmp =? 0) | _ => false end.
Definition is_waiting t := match t with WaitWrite _ _ _ | WaitRead _ => true | _ => false end.

Fixpoint count (p : thread -> bool) (ts : list thread) : Z :=
  match ts with [] => 0 | t :: r => Z.b2z (p t) + count p r end.

Lemma count_nonneg p ts : 0 <= count p ts.
Proof. induction ts as [|t r IH]; cbn; [lia |]. destruct (p t); cbn; lia. Qed.

Lemma count_bound p ts : count p ts <= zlen ts.
Proof. induction ts as [|t r IH]; cbn; [done |]. rewrite zlen_cons. destruct (p t); cbn; lia. Qed.

Lemma count_insert p ts : forall i t t', ts !! i = Some t -> count p (<[i := t']> ts) = count p ts - Z.b2z (p t) + Z.b2z (p t').
Proof.
  induction ts as [|x r IH]; intros [|i] t t' H; simplify_eq/=; [lia |].
  by rewrite (IH _ _ _ H); lia.
Qed.

Lemma count_wake p ts : (forall t, p (wake t) = p t) -> count p (wake <$> ts) = count p ts.
Proof. intros H. induction ts as [|x r IH]; cbn; [done |]. rewrite H. lia. Qed.

Lemma count_broadcast p b ts : (forall t, p (wake t) = p t) -> count p (broadcast b ts) = count p ts.
Proof. destruct b; [apply count_wake | done]. Qed.

Lemma count_lookup p ts i t : ts !! i = Some t -> p t = true -> 1 <= count p ts.
Proof.
  revert i. induction ts as [|x r IH]; intros [|i] H Hp; simplify_eq/=.
  - rewrite Hp. pose proof (count_nonneg p r). cbn. lia.
  - pose proof (IH _ H Hp). destruct (p x); cbn; lia.
Qed.

Lemma count_two p ts i j t u : i <> j -> ts !! i = Some t -> ts !! j = Some u -> p t = true -> p u = true -> 2 <= count p ts.
Proof.
  revert i j. induction ts as [|x r IH]; intros [|i] [|j] Hn Hi Hj Ht Hu; simplify_eq/=.
  - rewrite Ht. pose proof (count_lookup p r j u Hj Hu). cbn. lia.
  - rewrite Hu. pose proof (count_lookup p r i t Hi Ht). cbn. lia.
  - pose proof (IH i j ltac:(lia) Hi Hj Ht Hu). destruct (p x); cbn; lia.
Qed.

Lemma count_pos p ts : 1 <= count p ts -> exists i t, ts !! i = Some t /\ p t = true.
Proof.
  induction ts as [|x r IH]; cbn; [lia |]. destruct (p x) eqn:E; intros H.
  - by exists 0%nat, x.
  - destruct (IH H) as (i & t & ? & ?). by exists (S i), t.
Qed.

Lemma count_replicate p n : p Idle = false -> count p (replicate n Idle) = 0.
Proof. intros H. induction n as [|n IH]; cbn; [done |]. rewrite H, IH. done. Qed.

Lemma count_other p ts i j t u : i <> j -> ts !! i = Some t -> ts !! j = Some u -> p u = true -> Z.b2z (p t) + 1 <= count p ts.
Proof.
  intros Hn Hi Hj Hu. destruct (p t) eqn:E; cbn.
  - by pose proof (count_two p ts i j t u Hn Hi Hj E Hu).
  - by pose proof (count_lookup p ts j u Hj Hu).
Qed.

(** ** Bits of the word *)

Lemma land_word r c b : 0 <= r -> 0 <= c < 4 -> 0 <= b < 4 -> Z.land (4 * r + c) b = Z.land c b.
Proof.
  intros Hr Hc Hb. assert (c = 0 \/ c = 1 \/ c = 2 \/ c = 3) as Hc' by lia. assert (b = 0 \/ b = 1 \/ b = 2 \/ b = 3) as Hb' by lia.
  destruct r as [|r|r]; [| | lia]; destruct Hc' as [-> |[-> |[-> | ->]]]; by destruct Hb' as [-> |[-> |[-> | ->]]].
Qed.

Lemma lor_word r c b : 0 <= r -> 0 <= c < 4 -> 0 <= b < 4 -> Z.lor (4 * r + c) b = 4 * r + Z.lor c b.
Proof.
  intros Hr Hc Hb. assert (c = 0 \/ c = 1 \/ c = 2 \/ c = 3) as Hc' by lia. assert (b = 0 \/ b = 1 \/ b = 2 \/ b = 3) as Hb' by lia.
  destruct r as [|r|r]; [| | lia]; destruct Hc' as [-> |[-> |[-> | ->]]]; by destruct Hb' as [-> |[-> |[-> | ->]]].
Qed.

Lemma ldiff_word r c b : 0 <= r -> 0 <= c < 4 -> 0 <= b < 4 -> Z.land (4 * r + c) (Z.lnot b) = 4 * r + Z.land c (Z.lnot b).
Proof.
  intros Hr Hc Hb. assert (c = 0 \/ c = 1 \/ c = 2 \/ c = 3) as Hc' by lia. assert (b = 0 \/ b = 1 \/ b = 2 \/ b = 3) as Hb' by lia.
  destruct r as [|r|r]; [| | lia]; destruct Hc' as [-> |[-> |[-> | ->]]]; by destruct Hb' as [-> |[-> |[-> | ->]]].
Qed.

Definition word (r w p : Z) : Z := 4 * r + (2 * w + p).

(** ** The invariant *)

(** What is known of a thread in a state with [r] readers, [w] writers and [p]
    writers ahead: a thread no broadcast has reached is one the lock blocks. *)
Definition thread_ok (r w p : Z) (t : thread) : Prop :=
  match t with
  | WaitWrite b m k => (b = 3 /\ m = 0 /\ (k = false -> p = 1)) \/ (b = 2 /\ m = 1 /\ (k = false -> w = 1 \/ 0 < r))
  | WaitRead k => k = false -> w = 1 \/ p = 1
  | _ => True
  end.

Abbreviation readers := (count is_reading).
Abbreviation writers := (count is_writing).
Abbreviation prewriters := (count is_prewriting).

Record Inv (x : config) : Prop := {
  inv_value : value x.1 = word (readers x.2) (writers x.2) (prewriters x.2);
  inv_writers : writers x.2 <= 1;
  inv_prewriters : prewriters x.2 <= 1;
  inv_exclusive : writers x.2 = 1 -> readers x.2 = 0;
  inv_threads i t : x.2 !! i = Some t -> thread_ok (readers x.2) (writers x.2) (prewriters x.2) t;
  inv_idpw i t : x.2 !! i = Some t -> is_prewriting t = true -> threadidpw x.1 = tid i;
  inv_idw i : x.2 !! i = Some Writing -> threadidw x.1 = tid i
}.

Lemma thread_ok_wake r w p r' w' p' t : thread_ok r w p t -> thread_ok r' w' p' (wake t).
Proof. destruct t; cbn; naive_solver. Qed.

Lemma thread_ok_mono r w p r' w' p' t : r <= r' -> w <= w' <= 1 -> p <= p' <= 1 -> thread_ok r w p t -> thread_ok r' w' p' t.
Proof. intros Hr Hw Hp. destruct t as [|b m k|k| |]; cbn; [done | | | done | done]; destruct k; intuition lia. Qed.

Lemma lookup_broadcast b ts j u : broadcast b ts !! j = Some u -> exists t, ts !! j = Some t /\ u = if b then wake t else t.
Proof.
  destruct b; cbn; [| naive_solver]. rewrite list_lookup_fmap. destruct (ts !! j); cbn; naive_solver.
Qed.

(** The invariant after a step of thread [i] from [t] to [t']. *)
Lemma inv_update l ts i t l' t' b :
  Inv (l, ts) -> ts !! i = Some t ->
  let r' := readers ts - Z.b2z (is_reading t) + Z.b2z (is_reading t') in
  let w' := writers ts - Z.b2z (is_writing t) + Z.b2z (is_writing t') in
  let p' := prewriters ts - Z.b2z (is_prewriting t) + Z.b2z (is_prewriting t') in
  value l' = word r' w' p' -> w' <= 1 -> p' <= 1 -> (w' = 1 -> r' = 0) -> thread_ok r' w' p' t' ->
  (b = true \/ (readers ts <= r' /\ writers ts <= w' /\ prewriters ts <= p')) ->
  (is_prewriting t' = true -> threadidpw l' = tid i) ->
  (threadidpw l' = threadidpw l \/ prewriters ts = Z.b2z (is_prewriting t)) ->
  (is_writing t' = true -> threadidw l' = tid i) ->
  (threadidw l' = threadidw l \/ writers ts = Z.b2z (is_writing t)) ->
  Inv (l', <[i := t']> (broadcast b ts)).
Proof.
  intros HI Ht r' w' p' Hv Hw Hp Hx Hok Hb Hp1 Hp2 Hw1 Hw2.
  assert (broadcast b ts !! i = Some (if b then wake t else t)) as Hl.
  { destruct b; cbn; [by rewrite list_lookup_fmap, Ht | done]. }
  assert (forall f, (forall x, f (wake x) = f x) -> count f (<[i := t']> (broadcast b ts)) = count f ts - Z.b2z (f t) + Z.b2z (f t')) as Hc.
  { intros f Hf. rewrite (count_insert f _ _ _ _ Hl), count_broadcast by done. destruct b; [by rewrite Hf | done]. }
  assert (readers (<[i := t']> (broadcast b ts)) = r') as Hr by (apply Hc; by intros []).
  assert (writers (<[i := t']> (broadcast b ts)) = w') as Hw' by (apply Hc; by intros []).
  assert (prewriters (<[i := t']> (broadcast b ts)) = p') as Hp' by (apply Hc; by intros []).
  clearbody r' w' p'.
  split; cbn [fst snd]; rewrite ?Hr, ?Hw', ?Hp'; [done.. | | |]; intros j.
  - intros u. destruct (decide (j = i)) as [-> |Hn].
    + rewrite list_lookup_insert_eq by by eapply lookup_lt_Some. by intros [= <-].
    + rewrite list_lookup_insert_ne by done. intros (u' & Hu & ->)%lookup_broadcast. pose proof (inv_threads _ HI j u' Hu) as Ho. cbn in Ho.
      destruct b; [by eapply thread_ok_wake |]. destruct Hb as [? |(? & ? & ?)]; [done |].
      eapply thread_ok_mono; [| | | exact Ho]; lia.
  - intros u. destruct (decide (j = i)) as [-> |Hn].
    + rewrite list_lookup_insert_eq by by eapply lookup_lt_Some. by intros [= <-].
    + rewrite list_lookup_insert_ne by done. intros (u' & Hu & ->)%lookup_broadcast Hpre.
      assert (is_prewriting u' = true) as Hpre' by by destruct b, u'.
      destruct Hp2 as [-> | Hp2]; [by eapply (inv_idpw _ HI) |].
      pose proof (count_other is_prewriting ts i j t u' ltac:(done) Ht Hu Hpre'). lia.
  - destruct (decide (j = i)) as [-> |Hn].
    + rewrite list_lookup_insert_eq by by eapply lookup_lt_Some. intros [= ->]. by apply Hw1.
    + rewrite list_lookup_insert_ne by done. intros (u' & Hu & He)%lookup_broadcast.
      assert (u' = Writing) as -> by by destruct b, u'.
      destruct Hw2 as [-> | Hw2]; [by apply (inv_idw _ HI) |].
      pose proof (count_other is_writing ts i j t Writing ltac:(done) Ht Hu eq_refl). lia.
Qed.

(** The ranges of the three counts of a state with the invariant. *)
Lemma inv_counts l ts : Inv (l, ts) ->
  0 <= readers ts /\ (writers ts = 0 \/ writers ts = 1) /\ (prewriters ts = 0 \/ prewriters ts = 1).
Proof.
  intros HI. pose proof (count_nonneg is_reading ts). pose proof (count_nonneg is_writing ts). pose proof (count_nonneg is_prewriting ts).
  pose proof (inv_writers _ HI) as Hw. pose proof (inv_prewriters _ HI) as Hp. cbn [fst snd] in Hw, Hp. lia.
Qed.

Lemma has_word r w p b : 0 <= r -> w = 0 \/ w = 1 -> p = 0 \/ p = 1 -> 0 <= b < 4 -> has (word r w p) b = has (2 * w + p) b.
Proof. intros. unfold has, word. rewrite land_word; [done | lia..]. Qed.

Lemma write_blocked_3 l r w p : value l = word r w p -> 0 <= r -> w = 0 \/ w = 1 -> p = 0 \/ p = 1 ->
  write_blocked l 3 = false -> r = 0 /\ w = 0 /\ p = 0.
Proof.
  intros Hv Hr Hw Hp. unfold write_blocked. rewrite Hv, has_word by (done || lia). unfold word.
  intros [H1 H2]%orb_false_iff. apply Z.ltb_ge in H2. change (Z.lor SIMPLE_LOCK_WRITE SIMPLE_LOCK_PREWRITE) with 3 in H2. destruct Hw as [-> | ->], Hp as [-> | ->]; try done. lia.
Qed.

Lemma write_blocked_2 l r w p : value l = word r w p -> 0 <= r -> w = 0 \/ w = 1 -> p = 0 \/ p = 1 ->
  write_blocked l 2 = negb ((r =? 0) && (w =? 0)).
Proof.
  intros Hv Hr Hw Hp. unfold write_blocked. rewrite Hv, has_word by (done || lia). unfold word.
  destruct (Z.eqb_spec r 0) as [-> |Hn]; [by destruct Hw as [-> | ->], Hp as [-> | ->] |].
  apply orb_true_iff. right. apply Z.ltb_lt. change (Z.lor SIMPLE_LOCK_WRITE SIMPLE_LOCK_PREWRITE) with 3. lia.
Qed.

Ltac two_bits := repeat match goal with H : _ = 0 \/ _ = 1 |- _ => destruct H as [H|H] end.

(** A thread that has the lock for itself takes it. *)
Lemma inv_acquire l ts i t l1 tmp :
  Inv (l, ts) -> ts !! i = Some t -> is_reading t = false -> is_writing t = false ->
  readers ts = 0 -> writers ts = 0 -> prewriters ts = Z.b2z (is_prewriting t) ->
  value l1 = tmp -> tmp = 0 \/ tmp = 1 -> forall l' t' b, write_acquire (tid i) l1 tmp = (l', t', b) ->
  Inv (l', <[i := t']> (broadcast b ts)).
Proof.
  intros HI Ht Hr Hw Hr0 Hw0 Hp0 Hv Htmp l' t' b [= <- <- <-]. eapply inv_update; [exact HI | exact Ht | ..]; cbn.
  - rewrite Hv, Hr, Hw, Hr0, Hw0, Hp0. destruct Htmp as [-> | ->]; destruct (is_prewriting t); done.
  - rewrite Hw, Hw0. done.
  - rewrite Hp0. lia.
  - rewrite Hr, Hr0. done.
  - done.
  - by left.
  - done.
  - by right.
  - done.
  - right. by rewrite Hw, Hw0.
Qed.

(** The test of the loop with the locals of a thread that has the bit of the
    writer ahead, or that does not and sees it set. *)
Lemma inv_write_test l ts i t l1 block tmp :
  Inv (l, ts) -> ts !! i = Some t -> is_reading t = false -> is_writing t = false ->
  value l1 = word (readers ts) (writers ts) 1 ->
  (block = 3 /\ tmp = 0 /\ is_prewriting t = false /\ prewriters ts = 1) \/
  (block = 2 /\ tmp = 1 /\ threadidpw l1 = tid i /\ prewriters ts = Z.b2z (is_prewriting t)) ->
  threadidw l1 = threadidw l -> (threadidpw l1 = threadidpw l \/ prewriters ts = Z.b2z (is_prewriting t)) ->
  forall l' t' b, write_test (tid i) l1 block tmp = (l', t', b) -> Inv (l', <[i := t']> (broadcast b ts)).
Proof.
  intros HI Ht Hr Hw Hv Hb Hidw Hidp l' t' b. destruct (inv_counts _ _ HI) as (Hr0 & Hw0 & Hp0).
  unfold write_test. destruct (write_blocked l1 block) eqn:Eb.
  - intros [= <- <- <-]. eapply inv_update; [exact HI | exact Ht | ..]; cbn; rewrite ?Hr, ?Hw; cbn.
    + rewrite Hv. destruct Hb as [(-> & -> & Hn & ->)|(-> & -> & _ & ->)]; [rewrite Hn |]; unfold word; cbn; lia.
    + lia.
    + destruct Hb as [(-> & -> & Hn & ->)|(-> & -> & _ & ->)]; [rewrite Hn |]; cbn; lia.
    + intros Hw1. pose proof (inv_exclusive _ HI) as Hx. cbn [fst snd] in Hx. lia.
    + destruct Hb as [(-> & -> & Hn & Hp)|(-> & -> & _ & Hp)]; [left | right]; (split; [done | split; [done |]]); intros _.
      * rewrite Hn, Hp. done.
      * rewrite (write_blocked_2 l1 _ _ 1 Hv) in Eb by (done || lia). revert Eb. bdestr; intros; (done || lia).
    + right. destruct Hb as [(-> & -> & Hn & Hp)|(-> & -> & _ & Hp)]; [rewrite Hn |]; cbn; lia.
    + destruct Hb as [(-> & -> & _)|(-> & -> & Hid & _)]; [done |]. done.
    + done.
    + done.
    + by left.
  - intros Ha. destruct Hb as [(-> & -> & Hn & Hp)|(-> & -> & _ & Hp)].
    + destruct (write_blocked_3 l1 _ _ 1 Hv) as (_ & _ & ?); (done || lia).
    + rewrite (write_blocked_2 l1 _ _ 1 Hv) in Eb by (done || lia).
      apply negb_false_iff, andb_true_iff in Eb as [E1%Z.eqb_eq E2%Z.eqb_eq].
      eapply (inv_acquire l ts i t l1 1); try done; [| by right]. rewrite Hv, E1, E2. done.
Qed.

Lemma inv_write_lock l ts i l' t' b :
  Inv (l, ts) -> ts !! i = Some Idle -> write_lock_list (tid i) l = (l', t', b) -> Inv (l', <[i := t']> (broadcast b ts)).
Proof.
  intros HI Ht. destruct (inv_counts _ _ HI) as (Hr & Hw & Hp). pose proof (inv_value _ HI) as Hv. cbn [fst snd] in Hv.
  unfold write_lock_list. rewrite Hv, has_word by (done || lia).
  assert (Z.lor (word (readers ts) (writers ts) 0) 1 = word (readers ts) (writers ts) 1) as Hset.
  { unfold word. rewrite lor_word by lia. by destruct Hw as [-> | ->]. }
  destruct Hp as [Hp|Hp].
  - assert (negb (has (2 * writers ts + prewriters ts) SIMPLE_LOCK_PREWRITE) = true) as ->.
    { rewrite Hp. by destruct Hw as [-> | ->]. }
    cbn [orb]. unfold take_prewrite. apply inv_write_test with (l := l) (t := Idle); try done.
    + cbn. rewrite Hv, Hp. exact Hset.
    + right. done.
    + right. done.
  - assert (negb (has (2 * writers ts + prewriters ts) SIMPLE_LOCK_PREWRITE) = false) as ->.
    { rewrite Hp. by destruct Hw as [-> | ->]. }
    destruct (count_pos is_prewriting ts ltac:(lia)) as (j & u & Hj & Hu).
    pose proof (inv_idpw _ HI j u Hj Hu) as Hid. cbn [fst] in Hid. rewrite Hid. destruct (Z.eqb_spec (tid j) (tid i)) as [E|_].
    { assert (j = i) as -> by (unfold tid in E; lia). cbn in Hj. simplify_eq. }
    cbn [orb]. apply inv_write_test with (l := l) (t := Idle); try done; [congruence | left; done | by left].
Qed.

Lemma inv_write_wake l ts i block tmp k l' t' b :
  Inv (l, ts) -> ts !! i = Some (WaitWrite block tmp k) -> write_lock_wake (tid i) l block tmp = (l', t', b) ->
  Inv (l', <[i := t']> (broadcast b ts)).
Proof.
  intros HI Ht. destruct (inv_counts _ _ HI) as (Hr & Hw & Hp). pose proof (inv_value _ HI) as Hv. cbn [fst snd] in Hv.
  pose proof (inv_threads _ HI i _ Ht) as Hok. cbn [fst snd thread_ok] in Hok.
  unfold write_lock_wake. change (Z.lor SIMPLE_LOCK_WRITE SIMPLE_LOCK_PREWRITE) with 3.
  assert (negb (has (value l) block) && (value l <=? 3) = negb (write_blocked l block)) as ->.
  { unfold write_blocked. change (Z.lor SIMPLE_LOCK_WRITE SIMPLE_LOCK_PREWRITE) with 3. rewrite negb_orb. f_equal. bdestr; (done || lia). }
  destruct Hok as [(-> & -> & Hk)|(-> & -> & Hk)].
  - destruct (write_blocked l 3) eqn:Eb; cbn [negb].
    + rewrite Hv, (has_word (readers ts)) by (done || lia). destruct Hp as [Hp|Hp].
      * assert (has 3 SIMPLE_LOCK_PREWRITE && negb (has (2 * writers ts + prewriters ts) SIMPLE_LOCK_PREWRITE) = true) as ->.
        { rewrite Hp. by destruct Hw as [-> | ->]. }
        unfold take_prewrite. apply inv_write_test with (l := l) (t := WaitWrite 3 0 k); try done.
        -- cbn [value]. rewrite Hv, Hp. unfold word. rewrite lor_word by (done || lia). by destruct Hw as [-> | ->].
        -- right. done.
        -- right. done.
      * assert (has 3 SIMPLE_LOCK_PREWRITE && negb (has (2 * writers ts + prewriters ts) SIMPLE_LOCK_PREWRITE) = false) as ->.
        { rewrite Hp. by destruct Hw as [-> | ->]. }
        apply inv_write_test with (l := l) (t := WaitWrite 3 0 k); try done; [congruence | left; done | by left].
    + destruct (write_blocked_3 l _ _ _ Hv Hr Hw Hp Eb) as (E1 & E2 & E3).
      apply (inv_acquire l ts i (WaitWrite 3 0 k)); try done; [rewrite Hv, E1, E2, E3; done | by left].
  - pose proof (count_lookup is_prewriting ts i _ Ht eq_refl). assert (prewriters ts = 1) as Hp1 by lia.
    destruct (write_blocked l 2) eqn:Eb; cbn [negb].
    + change (has 2 SIMPLE_LOCK_PREWRITE) with false. cbn [andb].
      apply inv_write_test with (l := l) (t := WaitWrite 2 1 k); try done; [congruence | | by left].
      right. split_and!; try done. by eapply (inv_idpw _ HI i).
    + rewrite (write_blocked_2 l _ _ _ Hv) in Eb by done.
      apply negb_false_iff, andb_true_iff in Eb as [E1%Z.eqb_eq E2%Z.eqb_eq].
      apply (inv_acquire l ts i (WaitWrite 2 1 k)); try done; [rewrite Hv, E1, E2, Hp1; done | by right].
Qed.

Lemma inv_read_lock l ts i t l' t' b : zlen ts < 2 ^ 30 ->
  Inv (l, ts) -> ts !! i = Some t -> is_reading t = false -> is_writing t = false -> is_prewriting t = false ->
  read_lock_list l = (l', t', b) -> Inv (l', <[i := t']> (broadcast b ts)).
Proof.
  intros Hn HI Ht H1 H2 H3. destruct (inv_counts _ _ HI) as (Hr & Hw & Hp). pose proof (inv_value _ HI) as Hv. cbn [fst snd] in Hv.
  pose proof (inv_exclusive _ HI) as Hx. cbn [fst snd] in Hx.
  unfold read_lock_list. rewrite Hv, has_word by (done || cbn; lia).
  change (Z.lor SIMPLE_LOCK_WRITE SIMPLE_LOCK_PREWRITE) with 3. destruct (has (2 * writers ts + prewriters ts) 3) eqn:Eb.
  - intros [= <- <- <-]. eapply inv_update; [exact HI | exact Ht | ..]; cbn [is_reading is_writing is_prewriting thread_ok];
      rewrite ?H1, ?H2, ?H3; cbn [Z.b2z]; try done; try lia; try (by left).
    + rewrite Hv. f_equal; lia.
    + intros _. revert Eb. destruct Hw as [-> | ->], Hp as [-> | ->]; (done || auto).
  - assert (writers ts = 0 /\ prewriters ts = 0) as [Hw0 Hp0].
    { revert Eb. destruct Hw as [-> | ->], Hp as [-> | ->]; cbn; done. }
    pose proof (count_bound is_reading (<[i := Reading]> ts)) as Hbd. rewrite (count_insert is_reading ts i t Reading Ht) in Hbd.
    unfold zlen in Hbd, Hn. rewrite length_insert in Hbd. rewrite H1 in Hbd. cbn [is_reading Z.b2z] in Hbd.
    intros [= <- <- <-]. eapply inv_update; [exact HI | exact Ht | ..]; cbn [is_reading is_writing is_prewriting thread_ok];
      rewrite ?H1, ?H2, ?H3; cbn [Z.b2z]; try done; try lia; try (by left).
    + cbn [value]. unfold u32, word, SIMPLE_LOCK_READ. rewrite Z.mod_small by lia. lia.
Qed.

Lemma inv_unlock l ts i t l' t' b : ts !! i = Some t -> Inv (l, ts) ->
  (t = Writing /\ write_unlock_list l = (l', t', b)) \/ (t = Reading /\ read_unlock_list l = (l', t', b)) ->
  Inv (l', <[i := t']> (broadcast b ts)).
Proof.
  intros Ht HI H. destruct (inv_counts _ _ HI) as (Hr & Hw & Hp). pose proof (inv_value _ HI) as Hv. cbn [fst snd] in Hv.
  pose proof (inv_exclusive _ HI) as Hx. cbn [fst snd] in Hx.
  destruct H as [(-> & [= <- <- <-])|(-> & [= <- <- <-])];
    (eapply inv_update; [exact HI | exact Ht | ..]; cbn [is_reading is_writing is_prewriting thread_ok threadidpw threadidw Z.b2z]; try done; try lia; try (by left)).
  - pose proof (count_lookup is_writing ts i _ Ht eq_refl). cbn [value]. rewrite Hv. unfold word. rewrite ldiff_word by (done || lia).
    replace (writers ts) with 1 by lia. destruct Hp as [-> | ->]; [change (Z.land _ _) with 0 | change (Z.land _ _) with 1]; lia.
  - right. pose proof (count_lookup is_writing ts i _ Ht eq_refl). lia.
  - pose proof (count_lookup is_reading ts i _ Ht eq_refl). cbn [value]. rewrite Hv. unfold word, SIMPLE_LOCK_READ. bdestr; lia.
  - pose proof (count_lookup is_reading ts i _ Ht eq_refl). lia.
Qed.

Lemma inv_step x y : zlen x.2 < 2 ^ 30 -> Inv x -> step x y -> Inv y /\ length y.2 = length x.2.
Proof.
  intros Hn HI [i c Hs]. destruct x as [l ts]. unfold step_of in Hs.
  destruct (ts !! i) as [t|] eqn:Ht; [cbn [mbind option_bind] in Hs | done].
  destruct (act (tid i) l t c) as [[[l' t'] b]|] eqn:Ha; [cbn [mbind option_bind] in Hs | done].
  injection Hs as <-. split.
  - destruct t, c; cbn [act] in Ha; try done; apply (inj Some) in Ha; eauto using inv_write_lock, inv_write_wake.
    + by eapply (inv_read_lock l ts i Idle).
    + by eapply (inv_read_lock l ts i (WaitRead woken)).
    + eapply inv_unlock; [exact Ht | exact HI | left; split; [reflexivity | exact Ha]].
    + eapply inv_unlock; [exact Ht | exact HI | right; split; [reflexivity | exact Ha]].
  - cbn. rewrite length_insert. destruct b; cbn; [by rewrite length_fmap | done].
Qed.

Lemma inv_start n : Inv (start n).
Proof.
  assert (forall p, p Idle = false -> count p (replicate n Idle) = 0) as Hc by (intros; by apply count_replicate).
  split; cbn [start fst snd]; rewrite ?Hc by done; try done.
  - intros i t [-> _]%lookup_replicate. done.
  - intros i t [-> _]%lookup_replicate. done.
  - intros i [? _]%lookup_replicate. done.
Qed.

Lemma lock_reachable_inv n x : Z.of_nat n < 2 ^ 30 -> reachable n x -> Inv x /\ length x.2 = n.
Proof.
  intros Hn Hr. assert (Inv (start n) /\ length (start n).2 = n) as H0.
  { split; [apply inv_start | apply length_replicate]. }
  revert H0. induction Hr as [|a b' c Hab Hbc IH]; [done |]. intros [HI Hlen].
  apply IH. rewrite <- Hlen. apply inv_step; [| done..]. unfold zlen. lia.
Qed.

Definition holds (t : thread) : bool := is_reading t || is_writing t.
Definition is_woken (t : thread) : bool := match t with WaitWrite _ _ k | WaitRead k => k | _ => false end.

(** A schedule, for the examples. *)
Fixpoint run (cs : list (nat * call)) (x : config) : option config :=
  match cs with [] => Some x | (i, c) :: r => let? y := step_of i c x in run r y end.

Lemma lock_run_rtc cs : forall x y, run cs x = Some y -> rtc step x y.
Proof.
  induction cs as [|[i c] r IH]; intros x y H; cbn [run] in H; [injection H as <-; apply rtc_refl |].
  destruct (step_of i c x) as [z|] eqn:E; [cbn [mbind option_bind] in H | done].
  eapply rtc_l; [by econstructor | by apply IH].
Qed.

(** C33: mutual exclusion. In every state the threads can reach, in any order of
    calls and wake-ups, the thread that holds the lock for writing is the only
    one that holds it in any way, it is the one recorded in [threadidw], and the
    word counts the readers: it never wraps. *)
Theorem list_lock_exclusive (n : nat) (l : list_lock) (ts : list thread) :
  Z.of_nat n < 2 ^ 30 -> reachable n (l, ts) ->
  (forall i j t, ts !! i = Some Writing -> ts !! j = Some t -> holds t = true -> i = j) /\
  (forall i, ts !! i = Some Writing -> threadidw l = tid i) /\
  value l `div` SIMPLE_LOCK_READ = readers ts.
Proof.
  intros Hn Hx. destruct (lock_reachable_inv n _ Hn Hx) as [HI _]. destruct (inv_counts _ _ HI) as (Hr & Hw & Hp).
  pose proof (inv_exclusive _ HI) as Hex. pose proof (inv_value _ HI) as Hv. cbn [fst snd] in Hex, Hv. split_and!.
  - intros i j t Hi Hj Ht. destruct (decide (i = j)) as [|Hne]; [done |]. exfalso.
    pose proof (count_lookup is_writing ts i _ Hi eq_refl). destruct (is_writing t) eqn:E.
    + pose proof (count_two is_writing ts i j _ _ Hne Hi Hj eq_refl E). lia.
    + unfold holds in Ht. rewrite E, orb_false_r in Ht. pose proof (count_lookup is_reading ts j _ Hj Ht). lia.
  - intros i Hi. by apply (inv_idw _ HI).
  - rewrite Hv. unfold word, SIMPLE_LOCK_READ. symmetry. apply (Z.div_unique _ _ _ (2 * writers ts + prewriters ts)); lia.
Qed.

(** Thread 0 reads, 1 waits ahead, 2 waits, then 0 leaves and 1 writes. *)
Definition ex_schedule : list (nat * call) := [(0, CallRead); (1, CallWrite); (2, CallWrite); (0, CallUnlock); (1, Wake)]%nat.
Definition ex_writing : config := (mk_lock 2 2 0, [Idle; Writing; WaitWrite 3 0 true]).

Lemma ex_writing_reachable : reachable 3 ex_writing.
Proof. apply (lock_run_rtc ex_schedule). reflexivity. Qed.

Lemma list_lock_exclusive_witness : value (mk_lock 2 2 0) `div` SIMPLE_LOCK_READ = 0.
Proof. apply (list_lock_exclusive 3 _ _ ltac:(done) ex_writing_reachable). Defined.

(** no wake-up is lost. A waiting thread that no broadcast has reached since it
    began to wait would only wait again if it ran. *)
Theorem list_lock_no_lost_wakeup (n : nat) (l : list_lock) (ts : list thread) (i : nat) (t : thread) :
  Z.of_nat n < 2 ^ 30 -> reachable n (l, ts) -> ts !! i = Some t -> is_waiting t = true -> is_woken t = false ->
  act (tid i) l t Wake = Some (l, t, false).
Proof.
  intros Hn Hx Hi Hwt Hk. destruct (lock_reachable_inv n _ Hn Hx) as [HI _]. destruct (inv_counts _ _ HI) as (Hr & Hw & Hp).
  pose proof (inv_threads _ HI i t Hi) as Hok. pose proof (inv_value _ HI) as Hv. cbn [fst snd] in Hok, Hv.
  destruct t as [|b m k|k| |]; try done; cbn in Hk; subst k; cbn [act thread_ok] in *; f_equal.
  - unfold write_lock_wake, write_test. change (Z.lor SIMPLE_LOCK_WRITE SIMPLE_LOCK_PREWRITE) with 3.
    assert (write_blocked l b = true) as Hb.
    { destruct (write_blocked l b) eqn:E; [done |]. destruct Hok as [(-> & -> & Hk)|(-> & -> & Hk)].
      - destruct (write_blocked_3 l _ _ _ Hv Hr Hw Hp E) as (_ & _ & ?). specialize (Hk eq_refl). lia.
      - rewrite (write_blocked_2 l _ _ _ Hv) in E by done.
        apply negb_false_iff, andb_true_iff in E as [?%Z.eqb_eq ?%Z.eqb_eq]. specialize (Hk eq_refl). lia. }
    assert (negb (has (value l) b) && (value l <=? 3) = false) as ->.
    { apply negb_true_iff. rewrite negb_andb, negb_involutive, Z.leb_antisym, negb_involutive. exact Hb. }
    assert (has b SIMPLE_LOCK_PREWRITE && negb (has (value l) SIMPLE_LOCK_PREWRITE) = false) as ->.
    { destruct Hok as [(-> & -> & Hk)|(-> & -> & Hk)]; [| done]. rewrite Hv, (has_word (readers ts)), (Hk eq_refl) by (done || lia).
      by destruct Hw as [-> | ->]. }
    by rewrite Hb.
  - unfold read_lock_list. rewrite Hv, (has_word (readers ts)) by (done || lia). specialize (Hok eq_refl). revert Hok.
    destruct Hw as [-> | ->], Hp as [-> | ->]; intros Hok; (done || lia).
Qed.

(** Thread 1 waits while thread 0 writes. *)
Definition ex_blocked : config := (mk_lock 3 1 2, [Writing; WaitWrite 2 1 false]).

Lemma ex_blocked_reachable : reachable 2 ex_blocked.
Proof. apply (lock_run_rtc [(0, CallWrite); (1, CallWrite)]%nat). reflexivity. Qed.

Lemma list_lock_no_lost_wakeup_witness : act (tid 1) (mk_lock 3 1 2) (WaitWrite 2 1 false) Wake = Some (mk_lock 3 1 2, WaitWrite 2 1 false, false).
Proof. apply (list_lock_no_lost_wakeup 2 _ _ 1 _ ltac:(done) ex_blocked_reachable); done. Defined.

(** progress. When no thread holds the lock and some thread waits for it, a
    thread that a broadcast has reached gets the lock in its next step. *)
Theorem list_lock_progress (n : nat) (l : list_lock) (ts : list thread) :
  Z.of_nat n < 2 ^ 30 -> reachable n (l, ts) ->
  (forall i t, ts !! i = Some t -> holds t = false) -> (exists i t, ts !! i = Some t /\ is_waiting t = true) ->
  exists j u l' u' b, ts !! j = Some u /\ is_woken u = true /\ act (tid j) l u Wake = Some (l', u', b) /\ holds u' = true.
Proof.
  intros Hn Hx Hno (i & t & Hi & Ht). destruct (lock_reachable_inv n _ Hn Hx) as [HI _]. destruct (inv_counts _ _ HI) as (Hr & Hw & Hp).
  pose proof (inv_value _ HI) as Hv. cbn [fst snd] in Hv.
  assert (readers ts = 0) as Hr0.
  { destruct (Z.eq_dec (readers ts) 0) as [|Hne]; [done |]. destruct (count_pos is_reading ts ltac:(lia)) as (j & u & Hj & Hu).
    specialize (Hno j u Hj). unfold holds in Hno. by rewrite Hu in Hno. }
  assert (writers ts = 0) as Hw0.
  { destruct (Z.eq_dec (writers ts) 0) as [|Hne]; [done |]. destruct (count_pos is_writing ts ltac:(lia)) as (j & u & Hj & Hu).
    specialize (Hno j u Hj). unfold holds in Hno. by rewrite Hu, orb_true_r in Hno. }
  rewrite Hr0, Hw0 in Hv. destruct Hp as [Hp|Hp]; rewrite Hp in Hv.
  - pose proof (inv_threads _ HI i t Hi) as Hok. cbn [fst snd] in Hok. rewrite Hr0, Hw0, Hp in Hok.
    destruct t as [|b m k|k| |]; try done; (destruct k; [| cbn in Hok; naive_solver lia]).
    + destruct Hok as [(-> & -> & _)|(-> & -> & _)].
      * eexists i, _, _, _, _. split_and!; [done | done | cbn [act]; unfold write_lock_wake; rewrite Hv; reflexivity | done].
      * pose proof (count_lookup is_prewriting ts i _ Hi eq_refl). lia.
    + eexists i, _, _, _, _. split_and!; [done | done | cbn [act]; unfold read_lock_list; rewrite Hv; reflexivity | done].
  - destruct (count_pos is_prewriting ts ltac:(lia)) as (j & u & Hj & Hu).
    pose proof (inv_threads _ HI j u Hj) as Hok. cbn [fst snd] in Hok. rewrite Hr0, Hw0, Hp in Hok.
    destruct u as [|b m k|k| |]; try done. destruct Hok as [(-> & -> & _)|(-> & -> & Hk)]; [done |].
    destruct k; [| destruct (Hk eq_refl); lia].
    eexists j, _, _, _, _. split_and!; [done | done | cbn [act]; unfold write_lock_wake; rewrite Hv; reflexivity | done].
Qed.

(** The reader has left, a writer waits ahead and another behind it. *)
Definition ex_free : config := (mk_lock 1 0 2, [Idle; WaitWrite 2 1 true; WaitWrite 3 0 true]).

Lemma ex_free_reachable : reachable 3 ex_free.
Proof. apply (lock_run_rtc (take 4 ex_schedule)). reflexivity. Qed.

Lemma list_lock_progress_witness : exists j u l' u' b, ex_free.2 !! j = Some u /\ is_woken u = true /\
  act (tid j) ex_free.1 u Wake = Some (l', u', b) /\ holds u' = true.
Proof.
  apply (list_lock_progress 3 _ _ ltac:(done) ex_free_reachable).
  - intros [|[|[|]]] t [= <-]; done.
  - exists 1%nat, (WaitWrite 2 1 true). done.
Defined.

(** writers are not starved by readers. While a writer waits ahead no step of
    any thread ends with that thread reading, and the writer keeps its place
    until its own step takes the lock. *)
Theorem list_lock_writer_ahead (n : nat) (l : list_lock) (ts : list thread) (i j : nat) (t u : thread) (c : call) (y : config) :
  Z.of_nat n < 2 ^ 30 -> reachable n (l, ts) -> ts !! i = Some t -> is_prewriting t = true ->
  ts !! j = Some u -> step_of j c (l, ts) = Some y ->
  (exists u', y.2 !! j = Some u' /\ is_reading u' = false) /\
  (exists t', y.2 !! i = Some t' /\ (is_prewriting t' = true \/ (i = j /\ t' = Writing))).
Proof.
  intros Hn Hx Hi Ht Hj Hs. destruct (lock_reachable_inv n _ Hn Hx) as [HI _]. destruct (inv_counts _ _ HI) as (Hr & Hw & Hp).
  pose proof (count_lookup is_prewriting ts i _ Hi Ht). pose proof (inv_value _ HI) as Hv. cbn [fst snd] in Hv.
  assert (prewriters ts = 1) as Hp1 by lia.
  unfold step_of in Hs. rewrite Hj in Hs. cbn [mbind option_bind] in Hs.
  destruct (act (tid j) l u c) as [[[l' u'] b]|] eqn:Ha; [| done]. cbn [mbind option_bind] in Hs. injection Hs as <-. cbn [snd].
  assert (length (broadcast b ts) = length ts) as Hlen by (destruct b; cbn; rewrite ?length_fmap; done).
  assert (is_reading u' = false) as Hu'.
  { destruct u' eqn:E; try done. exfalso. destruct u, c; cbn [act] in Ha; try done; injection Ha as Ha;
      repeat (unfold write_lock_list, write_lock_wake, write_test, write_acquire, take_prewrite, write_unlock_list, read_unlock_list in Ha;
              repeat case_match; simplify_eq).
    all: unfold read_lock_list in Ha; rewrite Hv, has_word, Hp1 in Ha by (done || lia); by destruct Hw as [E'|E']; rewrite E' in Ha. }
  split.
  - exists u'. split; [| done]. apply list_lookup_insert_eq. rewrite Hlen. by eapply lookup_lt_Some.
  - destruct (decide (i = j)) as [-> |Hne].
    + rewrite Hi in Hj. injection Hj as <-. exists u'. split; [apply list_lookup_insert_eq; rewrite Hlen; by eapply lookup_lt_Some |].
      pose proof (inv_threads _ HI j t Hi) as Hok. destruct t as [|bl m k|k| |]; try done. cbn [thread_ok] in Hok.
      destruct Hok as [(-> & -> & _)|(-> & -> & _)]; [done |]. destruct c; try done. cbn [act] in Ha. injection Ha as Ha.
      unfold write_lock_wake, write_test, write_acquire in Ha. change (has 2 SIMPLE_LOCK_PREWRITE) with false in Ha. cbn [andb] in Ha.
      repeat case_match; simplify_eq; auto.
    + rewrite list_lookup_insert_ne by done. exists (if b then wake t else t). destruct b; cbn [broadcast]; [rewrite list_lookup_fmap, Hi | by auto].
      split; [done |]. left. by destruct t.
Qed.

Lemma list_lock_writer_ahead_witness :
  exists y, step_of 2 CallRead (mk_lock 3 1 2, [Writing; WaitWrite 2 1 false; Idle]) = Some y /\ exists u', y.2 !! 2%nat = Some u' /\ is_reading u' = false.
Proof.
  eexists. split; [reflexivity |].
  eapply (list_lock_writer_ahead 3 (mk_lock 3 1 2) [Writing; WaitWrite 2 1 false; Idle] 1 2 _ _ CallRead); try reflexivity.
  apply (lock_run_rtc [(0, CallWrite); (1, CallWrite)]%nat). reflexivity.
Defined.

End ListLock.
