(* ===== verification/Locking.v ===== *)
(** * lib/lock/locking.c: read, write and upgradable locks

    A [struct osns_locking_s] keeps the list of the read locks and the list of
    the write locks with their lengths; a [struct osns_lock_s] is one user of it,
    known here by a number, with its flags and its five operations.  The lists
    are those of lib/list, used through what the file SimpleList proves of them:
    linking an element that is linked already is undefined.  A function runs
    under the mutex and gives it up only in [pthread_cond_wait]; it is modelled
    as what happens up to there, and what happens when the wait returns. *)

From stdpp Require Import base list list_numbers numbers option gmap relations.
From S2P Require Import Prelude.

Module Locking.

Definition OSNS_LOCK_TYPE_NONE := 0.
Definition OSNS_LOCK_TYPE_READ := 1.
Definition OSNS_LOCK_TYPE_WRITE := 2.

Definition OSNS_LOCK_FLAG_LIST := 1.
Definition OSNS_LOCK_FLAG_EFFECTIVE := 4.
Definition OSNS_LOCK_FLAG_UPGRADED := 16.

Definition OSNS_LOCKING_FLAG_ALLOC_LOCK := 1.
Definition OSNS_LOCKING_FLAG_ALLOC_MUTEX := 2.
Definition OSNS_LOCKING_FLAG_ALLOC_COND := 4.
Definition OSNS_LOCKING_FLAG_UPGRADE := 8.

(** The functions the fields [lock], [unlock], [upgrade], [downgrade] and
    [prelock] point to. *)
Inductive osns_op :=
| OpNone | OpReadlock | OpReadunlock | OpWritelock | OpWriteunlock | OpUpgradeWrite
| OpPrewrite | OpUpgradeRead | OpDowngradeRead | OpPreread.

Record osns_lock := mk_lock {
  lk_type : Z;
  lk_flags : Z;          (* unsigned char *)
  lk_thread : Z;
  lk_lock : osns_op;
  lk_unlock : osns_op;
  lk_upgrade : osns_op;
  lk_downgrade : option osns_op;   (* None: not set *)
  lk_prelock : osns_op
}.

Record osns_locking := mk_locking {
  lg_flags : Z;
  lg_readlocks : list nat;
  lg_readers : Z;        (* unsigned int *)
  lg_writelocks : list nat;
  lg_writers : Z;
  lg_locks : gmap nat osns_lock
}.

(** How a call ends: with a result, or in one of the three waits. *)
Inductive pc := Done (ret : Z) | WaitReaders | WaitFirst | WaitUpgrade.

Definition set_flags (f : Z -> Z) (k : osns_lock) : osns_lock :=
  mk_lock (lk_type k) (f (lk_flags k)) (lk_thread k) (lk_lock k) (lk_unlock k) (lk_upgrade k) (lk_downgrade k) (lk_prelock k).
Definition set_thread (t : Z) (k : osns_lock) : osns_lock :=
  mk_lock (lk_type k) (lk_flags k) t (lk_lock k) (lk_unlock k) (lk_upgrade k) (lk_downgrade k) (lk_prelock k).

Definition set (m : Z) (k : osns_lock) : osns_lock := set_flags (fun x => Z.lor x m) k.
Definition clear (m : Z) (k : osns_lock) : osns_lock := set_flags (fun x => Z.ldiff x m) k.

Definition upd (s : osns_locking) (i : nat) (f : osns_lock -> osns_lock) : osns_locking :=
  mk_locking (lg_flags s) (lg_readlocks s) (lg_readers s) (lg_writelocks s) (lg_writers s) (alter f i (lg_locks s)).

Definition flags_of (s : osns_locking) (f : Z -> Z) : osns_locking :=
  mk_locking (f (lg_flags s)) (lg_readlocks s) (lg_readers s) (lg_writelocks s) (lg_writers s) (lg_locks s).

(** The two lists with their counters. *)
Definition linked (s : osns_locking) (i : nat) : bool := bool_decide (i ∈ lg_readlocks s) || bool_decide (i ∈ lg_writelocks s).

Definition add_reader (first : bool) (s : osns_locking) (i : nat) : option osns_locking :=
  if linked s i then None else
  Some (mk_locking (lg_flags s) (if first then i :: lg_readlocks s else lg_readlocks s ++ [i]) (u32 (lg_readers s + 1))
          (lg_writelocks s) (lg_writers s) (lg_locks s)).

Definition add_writer (first : bool) (s : osns_locking) (i : nat) : option osns_locking :=
  if linked s i then None else
  Some (mk_locking (lg_flags s) (lg_readlocks s) (lg_readers s)
          (if first then i :: lg_writelocks s else lg_writelocks s ++ [i]) (u32 (lg_writers s + 1)) (lg_locks s)).

(** [remove_list_element], which takes the element out of the list it is in. *)
Definition unlink (s : osns_locking) (i : nat) : osns_locking :=
  mk_locking (lg_flags s) (filter (.≠ i) (lg_readlocks s)) (lg_readers s) (filter (.≠ i) (lg_writelocks s)) (lg_writers s) (lg_locks s).

Definition dec_readers (s : osns_locking) : osns_locking :=
  mk_locking (lg_flags s) (lg_readlocks s) (u32 (lg_readers s - 1)) (lg_writelocks s) (lg_writers s) (lg_locks s).
Definition dec_writers (s : osns_locking) : osns_locking :=
  mk_locking (lg_flags s) (lg_readlocks s) (lg_readers s) (lg_writelocks s) (u32 (lg_writers s - 1)) (lg_locks s).

(** [list_element_is_first (&lock->list) == 0]; undefined on an element that is
    in no list. *)
Definition is_first (s : osns_locking) (i : nat) : option bool :=
  if linked s i then Some (bool_decide (head (lg_readlocks s) = Some i) || bool_decide (head (lg_writelocks s) = Some i)) else None.

(** The switch of a lock to the operations of a write lock, lines 332-337 and
    406-410; [down] is what the field [downgrade] becomes. *)
Definition to_writelock (down : option osns_op) (k : osns_lock) : osns_lock :=
  mk_lock OSNS_LOCK_TYPE_WRITE (lk_flags k) (lk_thread k) OpWritelock OpWriteunlock OpUpgradeWrite down OpPrewrite.

Definition to_readlock (k : osns_lock) : osns_lock :=
  mk_lock OSNS_LOCK_TYPE_READ (lk_flags k) (lk_thread k) OpReadlock OpReadunlock OpUpgradeRead (lk_downgrade k) OpPreread.

Definition init_osns_nonelock (old : osns_lock) : osns_lock :=
  mk_lock OSNS_LOCK_TYPE_NONE 0 0 OpNone OpNone OpNone (lk_downgrade old) OpNone.
Definition init_osns_readlock : osns_lock :=
  mk_lock OSNS_LOCK_TYPE_READ 0 0 OpReadlock OpReadunlock OpUpgradeRead (Some OpDowngradeRead) OpPreread.
Definition init_osns_writelock : osns_lock :=
  mk_lock OSNS_LOCK_TYPE_WRITE 0 0 OpWritelock OpWriteunlock OpUpgradeWrite (Some OpUpgradeWrite) OpPrewrite.

(** [init_osns_locking]; [mem]: the two allocations succeed. *)
Definition init_osns_locking (flags : Z) (mem : bool) (locks : gmap nat osns_lock) : option osns_locking :=
  if negb (flags =? 0) && negb (Z.ldiff flags OSNS_LOCKING_FLAG_ALLOC_LOCK =? 0) then None
  else if has flags OSNS_LOCKING_FLAG_ALLOC_LOCK then
    if mem then Some (mk_locking (Z.lor OSNS_LOCKING_FLAG_ALLOC_MUTEX OSNS_LOCKING_FLAG_ALLOC_COND) [] 0 [] 0 locks) else None
  else Some (mk_locking 0 [] 0 [] 0 locks).

(** The wait of [_osns_readlock] and what follows it. *)
Definition readlock_wait (s : osns_locking) (i : nat) : option (osns_locking * pc) :=
  if 0 <? lg_writers s then Some (s, WaitReaders)
  else
    let? s1 := add_reader false s i in
    Some (upd (upd s1 i (set OSNS_LOCK_FLAG_LIST)) i (set OSNS_LOCK_FLAG_EFFECTIVE), Done 0).

Definition _osns_readlock (self : Z) (s : osns_locking) (i : nat) : option (osns_locking * pc) :=
  let? k := lg_locks s !! i in
  let s1 := upd s i (set_thread self) in
  if negb (has (lk_flags k) OSNS_LOCK_FLAG_LIST) then readlock_wait s1 i
  else Some (upd s1 i (set OSNS_LOCK_FLAG_EFFECTIVE), Done 0).

Definition _osns_readunlock (s : osns_locking) (i : nat) : option (osns_locking * pc) :=
  let? k := lg_locks s !! i in
  let s1 := if has (lk_flags k) OSNS_LOCK_FLAG_LIST
            then dec_readers (upd (unlink s i) i (clear OSNS_LOCK_FLAG_LIST)) else s in
  Some (upd s1 i (clear OSNS_LOCK_FLAG_EFFECTIVE), Done 0).

(** The wait of [_osns_writelock]: the source joins the two conditions by [&&]. *)
Definition writelock_wait (s : osns_locking) (i : nat) : option (osns_locking * pc) :=
  let? (first : bool) := if 0 <? lg_readers s then is_first s i else Some true in
  if (0 <? lg_readers s) && negb first then Some (s, WaitFirst)
  else Some (upd s i (set OSNS_LOCK_FLAG_EFFECTIVE), Done 0).

Definition _osns_writelock (self : Z) (s : osns_locking) (i : nat) : option (osns_locking * pc) :=
  let? k := lg_locks s !! i in
  let s1 := upd s i (set_thread self) in
  let? s2 := if negb (has (lk_flags k) OSNS_LOCK_FLAG_LIST)
             then let? s2 := add_writer false s1 i in Some (upd s2 i (set OSNS_LOCK_FLAG_LIST)) else Some s1 in
  if negb (has (lk_flags k) OSNS_LOCK_FLAG_EFFECTIVE) then writelock_wait s2 i else Some (s2, Done 0).

Definition _osns_writeunlock (s : osns_locking) (i : nat) : option (osns_locking * pc) :=
  let? k := lg_locks s !! i in
  let s1 := if has (lk_flags k) OSNS_LOCK_FLAG_LIST
            then upd (dec_writers (unlink s i)) i (clear OSNS_LOCK_FLAG_LIST) else s in
  let s2 := if has (lk_flags k) OSNS_LOCK_FLAG_UPGRADED
            then upd (flags_of s1 (fun x => Z.ldiff x OSNS_LOCKING_FLAG_UPGRADE)) i (clear OSNS_LOCK_FLAG_UPGRADED) else s1 in
  Some (upd s2 i (clear OSNS_LOCK_FLAG_EFFECTIVE), Done 0).

Definition _osns_upgrade_writelock (s : osns_locking) (i : nat) : option (osns_locking * pc) := Some (s, Done 0).

Definition _osns_prewritelock (self : Z) (s : osns_locking) (i : nat) : option (osns_locking * pc) :=
  let? k := lg_locks s !! i in
  let s1 := upd s i (set_thread self) in
  if negb (has (lk_flags k) OSNS_LOCK_FLAG_LIST)
  then let? s2 := add_writer false s1 i in Some (upd s2 i (set OSNS_LOCK_FLAG_LIST), Done 0)
  else Some (s1, Done 0).

(** The wait of [_osns_upgrade_readlock] and what follows it. *)
Definition upgrade_wait (s : osns_locking) (i : nat) : option (osns_locking * pc) :=
  if 0 <? lg_readers s then Some (s, WaitUpgrade)
  else Some (upd s i (set OSNS_LOCK_FLAG_EFFECTIVE), Done 0).

Definition _osns_upgrade_readlock (s : osns_locking) (i : nat) : option (osns_locking * pc) :=
  let? k := lg_locks s !! i in
  if negb (lk_type k =? OSNS_LOCK_TYPE_READ) then Some (s, Done 0)
  else if has (lg_flags s) OSNS_LOCKING_FLAG_UPGRADE then Some (s, Done (-1))
  else
    let s1 := flags_of s (fun x => Z.lor x OSNS_LOCKING_FLAG_UPGRADE) in
    let s2 := if has (lk_flags k) OSNS_LOCK_FLAG_LIST then dec_readers (unlink s1 i) else s1 in
    let? s3 := add_writer true s2 i in
    let s4 := upd s3 i (fun k => set OSNS_LOCK_FLAG_UPGRADED
                 (to_writelock (Some OpPrewrite) (set OSNS_LOCK_FLAG_LIST k))) in
    upgrade_wait s4 i.

Definition _osns_downgrade_readlock (s : osns_locking) (i : nat) : option (osns_locking * pc) :=
  let? k := lg_locks s !! i in
  if negb (has (lk_flags k) OSNS_LOCK_FLAG_UPGRADED) || negb (lk_type k =? OSNS_LOCK_TYPE_WRITE) then Some (s, Done 0)
  else
    let s1 := flags_of s (fun x => Z.ldiff x OSNS_LOCKING_FLAG_UPGRADE) in
    let s2 := if has (lk_flags k) OSNS_LOCK_FLAG_LIST then dec_writers (unlink s1 i) else s1 in
    let? s3 := add_reader true s2 i in
    Some (upd s3 i (fun k => set OSNS_LOCK_FLAG_EFFECTIVE (clear OSNS_LOCK_FLAG_UPGRADED (to_readlock (set OSNS_LOCK_FLAG_LIST k)))), Done 0).

Definition _osns_prereadlock (s : osns_locking) (i : nat) : option (osns_locking * pc) :=
  let? k := lg_locks s !! i in
  let s1 := if has (lk_flags k) OSNS_LOCK_FLAG_LIST then dec_readers (unlink s i) else s in
  let? s2 := add_writer true s1 i in
  Some (upd s2 i (to_writelock (lk_downgrade k)), Done 0).

Definition call_op (self : Z) (s : osns_locking) (i : nat) (op : osns_op) : option (osns_locking * pc) :=
  match op with
  | OpNone => Some (s, Done 0)
  | OpReadlock => _osns_readlock self s i
  | OpReadunlock => _osns_readunlock s i
  | OpWritelock => _osns_writelock self s i
  | OpWriteunlock => _osns_writeunlock s i
  | OpUpgradeWrite => _osns_upgrade_writelock s i
  | OpPrewrite => _osns_prewritelock self s i
  | OpUpgradeRead => _osns_upgrade_readlock s i
  | OpDowngradeRead => _osns_downgrade_readlock s i
  | OpPreread => _osns_prereadlock s i
  end.

Definition osns_lock_call (self : Z) (s : osns_locking) (i : nat) : option (osns_locking * pc) :=
  let? k := lg_locks s !! i in call_op self s i (lk_lock k).
Definition osns_unlock (self : Z) (s : osns_locking) (i : nat) : option (osns_locking * pc) :=
  let? k := lg_locks s !! i in call_op self s i (lk_unlock k).
Definition osns_prelock (self : Z) (s : osns_locking) (i : nat) : option (osns_locking * pc) :=
  let? k := lg_locks s !! i in call_op self s i (lk_prelock k).
Definition osns_upgradelock (self : Z) (s : osns_locking) (i : nat) : option (osns_locking * pc) :=
  let? k := lg_locks s !! i in call_op self s i (lk_upgrade k).
Definition osns_downgradelock (self : Z) (s : osns_locking) (i : nat) : option (osns_locking * pc) :=
  let? k := lg_locks s !! i in let? d := lk_downgrade k in call_op self s i d.

(** The return of [pthread_cond_wait]. *)
Definition resume (s : osns_locking) (i : nat) (p : pc) : option (osns_locking * pc) :=
  match p with
  | WaitReaders => readlock_wait s i
  | WaitFirst => writelock_wait s i
  | WaitUpgrade => upgrade_wait s i
  | Done _ => None
  end.

(** [clear_osns_locking]: the state it leaves and the locks it frees, in order. *)
Definition clear_osns_locking (s : osns_locking) : osns_locking * list nat :=
  (mk_locking (Z.ldiff (Z.ldiff (lg_flags s) OSNS_LOCKING_FLAG_ALLOC_MUTEX) OSNS_LOCKING_FLAG_ALLOC_COND)
     [] (lg_readers s) [] (lg_writers s) (lg_locks s), lg_readlocks s ++ lg_writelocks s).

(** ** The lists and their counters *)

Record lists_ok (s : osns_locking) : Prop := {
  lo_nodup : NoDup (lg_readlocks s ++ lg_writelocks s);
  lo_readers : lg_readers s = zlen (lg_readlocks s);
  lo_writers : lg_writers s = zlen (lg_writelocks s);
  lo_known i : linked s i = true -> i ∈ dom (lg_locks s);
  lo_bound : Z.of_nat (size (dom (lg_locks s))) < 2 ^ 32
}.

Lemma linked_spec s i : linked s i = true <-> i ∈ lg_readlocks s \/ i ∈ lg_writelocks s.
Proof. unfold linked. rewrite orb_true_iff, !bool_decide_eq_true. done. Qed.

(** The lists of [s'] are those of [s] but for the lock [i], which is a read lock
    of [s'] when [r] and a write lock when [w]. *)
Record moves (s s' : osns_locking) (i : nat) (r w : bool) : Prop := {
  mv_locks : lg_locks s' = lg_locks s;
  mv_flags : lg_flags s' = lg_flags s;
  mv_read j : j ∈ lg_readlocks s' <-> if decide (j = i) then r = true else j ∈ lg_readlocks s;
  mv_write j : j ∈ lg_writelocks s' <-> if decide (j = i) then w = true else j ∈ lg_writelocks s
}.

Lemma moves_trans s1 s2 s3 i r w r' w' : moves s1 s2 i r w -> moves s2 s3 i r' w' -> moves s1 s3 i r' w'.
Proof.
  intros [] []. split; [congruence.. | |]; intros j; [rewrite mv_read1 | rewrite mv_write1]; case_decide; try done.
  - rewrite mv_read0, decide_False by done. done.
  - rewrite mv_write0, decide_False by done. done.
Qed.

Lemma filter_out (l : list nat) i : i ∉ l -> filter (.≠ i) l = l.
Proof.
  induction l as [|x l IH]; intros Hi; [done |]. apply not_elem_of_cons in Hi as [Hx Hi].
  rewrite filter_cons_True by done. by rewrite IH.
Qed.

Lemma zlen_filter (l : list nat) i : NoDup l -> i ∈ l -> zlen (filter (.≠ i) l) = zlen l - 1.
Proof.
  induction l as [|x l IH]; intros Hn Hi; [by apply elem_of_nil in Hi |]. apply NoDup_cons in Hn as [Hx Hn].
  destruct (decide (x = i)) as [-> |Hne].
  - rewrite filter_cons_False by naive_solver. rewrite filter_out, zlen_cons by done. lia.
  - rewrite filter_cons_True by done. rewrite !zlen_cons, IH; [lia | done |]. set_solver.
Qed.

Lemma nodup_parts s : lists_ok s -> NoDup (lg_readlocks s) /\ NoDup (lg_writelocks s) /\ (forall i, i ∈ lg_readlocks s -> i ∉ lg_writelocks s).
Proof. intros H. pose proof (lo_nodup s H) as (? & ? & ?)%NoDup_app. auto. Qed.

Lemma nodup_unlink s i : lists_ok s -> NoDup (filter (.≠ i) (lg_readlocks s) ++ filter (.≠ i) (lg_writelocks s)).
Proof. intros H. rewrite <- filter_app. apply NoDup_filter, H. Qed.

Lemma list_bound s : lists_ok s -> forall i, linked s i = false -> i ∈ dom (lg_locks s) ->
  zlen (lg_readlocks s) + zlen (lg_writelocks s) + 1 < 2 ^ 32.
Proof.
  intros H i Hi Hd. assert (length (i :: lg_readlocks s ++ lg_writelocks s) <= size (dom (lg_locks s)))%nat as Hb.
  { rewrite <- (size_list_to_set (C := gset nat)).
    - apply subseteq_size. intros j. rewrite elem_of_list_to_set, list_elem_of_In. intros [<-|Hj%list_elem_of_In]; [done |].
      apply (lo_known s H), linked_spec. by apply elem_of_app.
    - apply NoDup_cons. split; [| apply H]. rewrite elem_of_app. intros Hl. apply linked_spec in Hl. congruence. }
  pose proof (lo_bound s H). rewrite length_cons, length_app in Hb. unfold zlen. lia.
Qed.

Lemma remove_reader s i : lists_ok s -> i ∈ lg_readlocks s ->
  lists_ok (dec_readers (unlink s i)) /\ moves s (dec_readers (unlink s i)) i false false.
Proof.
  intros H Hi. destruct (nodup_parts s H) as (H1 & H2 & H3). split.
  - split; cbn.
    + by apply nodup_unlink.
    + rewrite zlen_filter, (lo_readers s H) by done. apply u32_id. pose proof (lo_known s H).
      assert (linked s i = true) as Hl by by (apply linked_spec; left).
      assert (length (lg_readlocks s) <= size (dom (lg_locks s)))%nat as Hb.
      { rewrite <- (size_list_to_set (C := gset nat)) by done. apply subseteq_size. intros j. rewrite elem_of_list_to_set. intros Hj.
        apply (lo_known s H), linked_spec. by left. }
      pose proof (lo_bound s H). destruct (lg_readlocks s); [by apply elem_of_nil in Hi |]. unfold is_u32, zlen in *. cbn in *. lia.
    + rewrite filter_out by naive_solver. apply H.
    + intros j Hj. apply (lo_known s H). apply linked_spec in Hj as [Hj|Hj]; apply linked_spec; cbn in Hj; apply list_elem_of_filter in Hj; naive_solver.
    + apply H.
  - split; cbn; [done.. | |]; intros j; rewrite list_elem_of_filter; case_decide; naive_solver.
Qed.

Lemma remove_writer s i : lists_ok s -> i ∈ lg_writelocks s ->
  lists_ok (dec_writers (unlink s i)) /\ moves s (dec_writers (unlink s i)) i false false.
Proof.
  intros H Hi. destruct (nodup_parts s H) as (H1 & H2 & H3). split.
  - split; cbn.
    + by apply nodup_unlink.
    + rewrite filter_out by naive_solver. apply H.
    + rewrite zlen_filter, (lo_writers s H) by done. apply u32_id.
      assert (length (lg_writelocks s) <= size (dom (lg_locks s)))%nat as Hb.
      { rewrite <- (size_list_to_set (C := gset nat)) by done. apply subseteq_size. intros j. rewrite elem_of_list_to_set. intros Hj.
        apply (lo_known s H), linked_spec. by right. }
      pose proof (lo_bound s H). destruct (lg_writelocks s); [by apply elem_of_nil in Hi |]. unfold is_u32, zlen in *. cbn in *. lia.
    + intros j Hj. apply (lo_known s H). apply linked_spec in Hj as [Hj|Hj]; apply linked_spec; cbn in Hj; apply list_elem_of_filter in Hj; naive_solver.
    + apply H.
  - split; cbn; [done.. | |]; intros j; rewrite list_elem_of_filter; case_decide; naive_solver.
Qed.

Lemma add_reader_ok first s i : lists_ok s -> linked s i = false -> i ∈ dom (lg_locks s) ->
  exists s', add_reader first s i = Some s' /\ lists_ok s' /\ moves s s' i true false.
Proof.
  intros H Hi Hd. unfold add_reader. rewrite Hi. eexists. split; [reflexivity |].
  assert (i ∉ lg_readlocks s ++ lg_writelocks s) as Hn.
  { rewrite elem_of_app. intros Hl%linked_spec. congruence. }
  pose proof (list_bound s H i Hi Hd) as Hb. pose proof (zlen_nonneg (lg_readlocks s)). pose proof (zlen_nonneg (lg_writelocks s)). split.
  - split; cbn.
    + pose proof (lo_nodup s H). destruct first; [apply NoDup_cons; done |]. rewrite <- app_assoc. cbn.
      rewrite <- Permutation_middle. by apply NoDup_cons.
    + rewrite (lo_readers s H), u32_id by (unfold is_u32; lia).
      destruct first; rewrite ?zlen_app, ?zlen_cons, ?(zlen_nil (A := nat)); lia.
    + apply H.
    + intros j Hj. apply linked_spec in Hj. cbn in Hj. destruct (decide (j = i)) as [-> |]; [done |].
      apply (lo_known s H), linked_spec. destruct first; set_solver.
    + apply H.
  - split; cbn; [done.. | |]; intros j; case_decide; subst; [destruct first | destruct first | |]; set_solver.
Qed.

Lemma add_writer_ok first s i : lists_ok s -> linked s i = false -> i ∈ dom (lg_locks s) ->
  exists s', add_writer first s i = Some s' /\ lists_ok s' /\ moves s s' i false true /\ lg_readers s' = lg_readers s /\
    (first = true -> head (lg_writelocks s') = Some i).
Proof.
  intros H Hi Hd. unfold add_writer. rewrite Hi. eexists. split; [reflexivity |].
  assert (i ∉ lg_readlocks s ++ lg_writelocks s) as Hn.
  { rewrite elem_of_app. intros Hl%linked_spec. congruence. }
  pose proof (list_bound s H i Hi Hd) as Hb. pose proof (zlen_nonneg (lg_readlocks s)). pose proof (zlen_nonneg (lg_writelocks s)).
  split_and!; [| | done | by intros ->].
  - split; cbn.
    + pose proof (lo_nodup s H). destruct first; [rewrite <- Permutation_middle; by apply NoDup_cons |]. rewrite app_assoc.
      rewrite <- Permutation_cons_append. by apply NoDup_cons.
    + apply H.
    + rewrite (lo_writers s H), u32_id by (unfold is_u32; lia).
      destruct first; rewrite ?zlen_app, ?zlen_cons, ?(zlen_nil (A := nat)); lia.
    + intros j Hj. apply linked_spec in Hj. cbn in Hj. destruct (decide (j = i)) as [-> |]; [done |].
      apply (lo_known s H), linked_spec. destruct first; set_solver.
    + apply H.
  - split; cbn; [done.. | |]; intros j; case_decide; subst; [| | destruct first | destruct first]; set_solver.
Qed.

(** ** The invariant *)

Definition listed (k : osns_lock) : bool := has (lk_flags k) OSNS_LOCK_FLAG_LIST.
Definition effective (k : osns_lock) : bool := has (lk_flags k) OSNS_LOCK_FLAG_EFFECTIVE.
Definition upgraded (k : osns_lock) : bool := has (lk_flags k) OSNS_LOCK_FLAG_UPGRADED.
Definition upgrading (s : osns_locking) : bool := has (lg_flags s) OSNS_LOCKING_FLAG_UPGRADE.
Definition is_type (k : osns_lock) (t : Z) : bool := lk_type k =? t.

Definition read_shape (f t : Z) : osns_lock :=
  mk_lock OSNS_LOCK_TYPE_READ f t OpReadlock OpReadunlock OpUpgradeRead (Some OpDowngradeRead) OpPreread.
Definition write_shape (f t : Z) (d : osns_op) : osns_lock :=
  mk_lock OSNS_LOCK_TYPE_WRITE f t OpWritelock OpWriteunlock OpUpgradeWrite (Some d) OpPrewrite.

(** A lock has the operations of its type; only a lock that was upgraded has the
    flag for that, and its [downgrade] is then [_osns_prewritelock]. *)
Inductive shape : osns_lock -> Prop :=
| shape_read f t : has f OSNS_LOCK_FLAG_UPGRADED = false -> shape (read_shape f t)
| shape_write f t d : d = OpUpgradeWrite \/ d = OpPrewrite \/ d = OpDowngradeRead ->
    (has f OSNS_LOCK_FLAG_UPGRADED = true -> d = OpPrewrite) -> shape (write_shape f t d).

(** The flag [LIST] is set exactly on the locks that are in the list of their
    type: [r] and [w] tell whether the lock is in the two lists. *)
Record lock_ok (r w : bool) (k : osns_lock) : Prop := {
  lk_shape : shape k;
  lk_read : r = is_type k OSNS_LOCK_TYPE_READ && listed k;
  lk_write : w = is_type k OSNS_LOCK_TYPE_WRITE && listed k
}.

Abbreviation in_read s i := (bool_decide (i ∈ lg_readlocks s)).
Abbreviation in_write s i := (bool_decide (i ∈ lg_writelocks s)).

Record SInv (s : osns_locking) : Prop := {
  si_lists : lists_ok s;
  si_locks i k : lg_locks s !! i = Some k -> lock_ok (in_read s i) (in_write s i) k;
  si_upgrade : upgrading s = true -> exists i k, lg_locks s !! i = Some k /\ upgraded k = true;
  si_upgraded i k : lg_locks s !! i = Some k -> upgraded k = true -> upgrading s = true;
  si_unique i j k k' : lg_locks s !! i = Some k -> lg_locks s !! j = Some k' -> upgraded k = true -> upgraded k' = true -> i = j
}.

Lemma alter_insert (m : gmap nat osns_lock) i k f : m !! i = Some k -> alter f i m = <[i := f k]> m.
Proof.
  intros H. apply map_eq. intros j. destruct (decide (j = i)) as [-> |Hn].
  - rewrite lookup_alter_eq, lookup_insert_eq, H. done.
  - by rewrite lookup_alter_ne, lookup_insert_ne.
Qed.

Lemma moves_refl s i : moves s s i (in_read s i) (in_write s i).
Proof. split; [done.. | |]; intros j; case_decide; subst; rewrite ?bool_decide_eq_true; done. Qed.

Lemma moves_in s s' i r w : moves s s' i r w -> in_read s' i = r /\ in_write s' i = w /\ linked s' i = r || w /\
  forall j, j <> i -> in_read s' j = in_read s j /\ in_write s' j = in_write s j.
Proof.
  intros [Hl Hf Hr Hw]. assert (in_read s' i = r) as E1.
  { specialize (Hr i). rewrite decide_True in Hr by done. destruct r; [by apply bool_decide_eq_true, Hr | apply bool_decide_eq_false; naive_solver]. }
  assert (in_write s' i = w) as E2.
  { specialize (Hw i). rewrite decide_True in Hw by done. destruct w; [by apply bool_decide_eq_true, Hw | apply bool_decide_eq_false; naive_solver]. }
  split_and!; [done.. | by unfold linked; rewrite E1, E2 |].
  intros j Hj. split; apply bool_decide_ext; [rewrite Hr | rewrite Hw]; by rewrite decide_False.
Qed.

(** What a step of the lock [i] has to show to keep the invariant. *)
Lemma sinv_change s s1 s' i k k' r w :
  SInv s -> lg_locks s !! i = Some k -> lists_ok s1 -> moves s s1 i r w ->
  lg_readlocks s' = lg_readlocks s1 -> lg_readers s' = lg_readers s1 ->
  lg_writelocks s' = lg_writelocks s1 -> lg_writers s' = lg_writers s1 ->
  lg_locks s' = <[i := k']> (lg_locks s) -> lock_ok r w k' ->
  (upgrading s' = upgrading s /\ upgraded k' = upgraded k) \/
  (upgrading s = false /\ upgrading s' = true /\ upgraded k' = true) \/
  (upgraded k = true /\ upgraded k' = false /\ upgrading s' = false) ->
  SInv s'.
Proof.
  intros HS Hk HL HM E1 E2 E3 E4 El Hok Hu. destruct (moves_in _ _ _ _ _ HM) as (M1 & M2 & _ & M3).
  assert (forall j, in_read s' j = in_read s1 j /\ in_write s' j = in_write s1 j) as Hin by (intros j; by rewrite E1, E3).
  split.
  - destruct HL. split; rewrite ?E1, ?E2, ?E3, ?E4, ?El; [done.. | |].
    + intros j Hj. rewrite dom_insert. rewrite (mv_locks _ _ _ _ _ HM) in lo_known0. apply elem_of_union_r, lo_known0.
      apply linked_spec in Hj. rewrite E1, E3 in Hj. by apply linked_spec.
    + rewrite (mv_locks _ _ _ _ _ HM) in lo_bound0. rewrite dom_insert_lookup_L by by rewrite Hk. done.
  - intros j q. rewrite El. destruct (Hin j) as [-> ->]. destruct (decide (j = i)) as [-> |Hn].
    + rewrite lookup_insert_eq. intros [= <-]. by rewrite M1, M2.
    + rewrite lookup_insert_ne by done. destruct (M3 j Hn) as [-> ->]. apply (si_locks s HS).
  - intros Hup. rewrite El. destruct Hu as [(Hu1 & Hu2)|[(_ & _ & Hu2)|(_ & _ & Hu2)]]; [| | congruence].
    + rewrite Hu1 in Hup. destruct (si_upgrade s HS Hup) as (j & q & Hj & Hq). destruct (decide (j = i)) as [-> |Hn].
      * exists i, k'. rewrite lookup_insert_eq. split; [done |]. congruence.
      * exists j, q. by rewrite lookup_insert_ne.
    + exists i, k'. by rewrite lookup_insert_eq.
  - intros j q. rewrite El. destruct (decide (j = i)) as [-> |Hn].
    + rewrite lookup_insert_eq. intros [= <-] Hq. destruct Hu as [(Hu1 & Hu2)|[(_ & Hu1 & _)|(_ & Hu2 & _)]]; [| done | congruence].
      rewrite Hu1. apply (si_upgraded s HS i k Hk). congruence.
    + rewrite lookup_insert_ne by done. intros Hj Hq. pose proof (si_upgraded s HS j q Hj Hq).
      destruct Hu as [(Hu1 & _)|[(Hu1 & _)|(Hu1 & _)]]; [congruence.. |]. by destruct (Hn (si_unique s HS j i q k Hj Hk Hq Hu1)).
  - intros j j' q q'. rewrite El. intros Hj Hj' Hq Hq'.
    destruct (decide (j = i)) as [-> |Hn]; [rewrite lookup_insert_eq in Hj | rewrite lookup_insert_ne in Hj by done];
      (destruct (decide (j' = i)) as [-> |Hn']; [rewrite lookup_insert_eq in Hj' | rewrite lookup_insert_ne in Hj' by done]); [done | | |].
    + injection Hj as <-. pose proof (si_upgraded s HS j' q' Hj' Hq').
      destruct Hu as [(_ & Hu1)|[(Hu1 & _)|(_ & Hu1 & _)]]; [| congruence..]. apply (si_unique s HS i j' k q'); congruence.
    + injection Hj' as <-. pose proof (si_upgraded s HS j q Hj Hq).
      destruct Hu as [(_ & Hu1)|[(Hu1 & _)|(_ & Hu1 & _)]]; [| congruence..]. apply (si_unique s HS j i q k); congruence.
    + by apply (si_unique s HS j j' q q').
Qed.

(** What holds of a lock whose thread waits. *)
Definition wait_ok (p : pc) (k : osns_lock) : Prop :=
  match p with
  | Done _ => True
  | WaitReaders => lk_type k = OSNS_LOCK_TYPE_READ /\ listed k = false
  | WaitFirst | WaitUpgrade => lk_type k = OSNS_LOCK_TYPE_WRITE /\ listed k = true
  end.

(** A step of the lock [i] is defined, keeps the invariant and touches no other
    lock. *)
Definition safe (s : osns_locking) (i : nat) (res : option (osns_locking * pc)) : Prop :=
  exists s' p k', res = Some (s', p) /\ SInv s' /\ lg_locks s' = <[i := k']> (lg_locks s) /\ wait_ok p k'.

Ltac const_has :=
  repeat match goal with
  | |- context [has ?a ?b] =>
      let v := eval vm_compute in (has a b) in
      match v with true => change (has a b) with true | false => change (has a b) with false end
  end.

(** Evaluates the flags of a lock after a sequence of [set] and [clear]. *)
Ltac flags :=
  unfold listed, effective, upgraded, is_type, set, clear, set_flags, set_thread, to_writelock, to_readlock, read_shape, write_shape in *;
  cbn [lk_type lk_flags lk_thread lk_downgrade] in *;
  rewrite ?has_lor, ?has_ldiff_same, ?has_ldiff by reflexivity;
  rewrite ?has_lor, ?has_ldiff_same, ?has_ldiff by reflexivity; const_has;
  rewrite ?orb_false_r, ?orb_true_r, ?andb_true_r, ?andb_false_r.

(** A change of the flags and the thread of a lock that leaves [LIST] and
    [UPGRADED] as they are. *)
Lemma safe_same s i k k' p s' :
  SInv s -> lg_locks s !! i = Some k -> lg_locks s' = <[i := k']> (lg_locks s) ->
  lg_flags s' = lg_flags s -> lg_readlocks s' = lg_readlocks s -> lg_readers s' = lg_readers s ->
  lg_writelocks s' = lg_writelocks s -> lg_writers s' = lg_writers s ->
  (exists f t, k' = mk_lock (lk_type k) f t (lk_lock k) (lk_unlock k) (lk_upgrade k) (lk_downgrade k) (lk_prelock k)) ->
  listed k' = listed k -> upgraded k' = upgraded k -> wait_ok p k' ->
  safe s i (Some (s', p)).
Proof.
  intros HS Hk El Ef E1 E2 E3 E4 (f & t & Hk') Hli Hup Hw. exists s', p, k'. split_and!; [done | | done | done].
  destruct (si_locks s HS i k Hk) as [Hsh Hr Hwr]. eapply (sinv_change s s s' i k k'); try done; [apply HS | apply moves_refl | | left; unfold upgrading; by rewrite Ef].
  split.
  - subst k'. destruct Hsh as [f0 t0 Hu|f0 t0 d Hd Hu]; cbn; [apply shape_read | apply shape_write; [done |]]; unfold upgraded in Hup; cbn in Hup; by rewrite Hup.
  - rewrite Hr, Hli. by subst k'.
  - rewrite Hwr, Hli. by subst k'.
Qed.

Lemma safe_id s i k : SInv s -> lg_locks s !! i = Some k -> forall v, safe s i (Some (s, Done v)).
Proof.
  intros HS Hk v. exists s, (Done v), k. split_and!; [done | done | by rewrite insert_id | done].
Qed.

Lemma linked_in s i k : SInv s -> lg_locks s !! i = Some k -> linked s i = listed k /\
  (in_read s i = is_type k OSNS_LOCK_TYPE_READ && listed k) /\ (in_write s i = is_type k OSNS_LOCK_TYPE_WRITE && listed k).
Proof.
  intros HS Hk. destruct (si_locks s HS i k Hk) as [Hsh Hr Hw]. unfold linked. rewrite Hr, Hw. split; [| done].
  destruct Hsh; flags; cbn; destruct (has f _); done.
Qed.

(** The lists after a lock has been taken out of the list it is in. *)
Lemma unlink_reader s i k : SInv s -> lg_locks s !! i = Some k -> lk_type k = OSNS_LOCK_TYPE_READ ->
  let s1 := if has (lk_flags k) OSNS_LOCK_FLAG_LIST then dec_readers (unlink s i) else s in
  lists_ok s1 /\ moves s s1 i false false.
Proof.
  intros HS Hk Ht s1. destruct (linked_in s i k HS Hk) as (_ & Hr & Hw). unfold is_type in Hr, Hw. rewrite Ht in Hr, Hw. cbn in Hr, Hw.
  subst s1. fold (listed k). destruct (listed k).
  - apply remove_reader; [apply HS |]. by apply bool_decide_eq_true in Hr.
  - split; [apply HS |]. pose proof (moves_refl s i) as HM. by rewrite Hr, Hw in HM.
Qed.

Lemma unlink_writer s i k : SInv s -> lg_locks s !! i = Some k -> lk_type k = OSNS_LOCK_TYPE_WRITE ->
  let s1 := if has (lk_flags k) OSNS_LOCK_FLAG_LIST then dec_writers (unlink s i) else s in
  lists_ok s1 /\ moves s s1 i false false.
Proof.
  intros HS Hk Ht s1. destruct (linked_in s i k HS Hk) as (_ & Hr & Hw). unfold is_type in Hr, Hw. rewrite Ht in Hr, Hw. cbn in Hr, Hw.
  subst s1. fold (listed k). destruct (listed k).
  - apply remove_writer; [apply HS |]. by apply bool_decide_eq_true in Hw.
  - split; [apply HS |]. pose proof (moves_refl s i) as HM. by rewrite Hr, Hw in HM.
Qed.

Lemma known_dom s i k : lg_locks s !! i = Some k -> i ∈ dom (lg_locks s).
Proof. intros H. by apply elem_of_dom_2 in H. Qed.

Lemma readlock_wait_safe s i k : SInv s -> lg_locks s !! i = Some k -> lk_type k = OSNS_LOCK_TYPE_READ -> listed k = false ->
  safe s i (readlock_wait s i).
Proof.
  intros HS Hk Ht Hl. unfold readlock_wait. destruct (0 <? lg_writers s).
  - exists s, WaitReaders, k. split_and!; [done | done | by rewrite insert_id | done].
  - destruct (linked_in s i k HS Hk) as (Hli & _). rewrite Hl in Hli.
    destruct (add_reader_ok false s i (si_lists s HS) Hli (known_dom _ _ _ Hk)) as (s1 & -> & HL & HM). opt.
    eexists _, _, _. split_and!; [reflexivity | | | done].
    + eapply (sinv_change s s1 _ i k); [done.. | | |].
      * cbn. rewrite !alter_alter_eq. rewrite (mv_locks _ _ _ _ _ HM). by apply alter_insert.
      * destruct (lk_shape _ _ _ (si_locks s HS i k Hk)) as [f t Hu|]; [| done]. split; cbn.
        -- apply shape_read. flags. done.
        -- by flags.
        -- by flags.
      * left. unfold upgrading. cbn. rewrite (mv_flags _ _ _ _ _ HM). split; [done |]. by flags.
    + cbn. rewrite !alter_alter_eq. rewrite (mv_locks _ _ _ _ _ HM). by apply alter_insert.
Qed.

Lemma safe_after s s1 i k1 res : SInv s1 -> lg_locks s1 = <[i := k1]> (lg_locks s) -> safe s1 i res -> safe s i res.
Proof.
  intros _ E (s' & p & k' & Hres & HS & El & Hw). exists s', p, k'. split_and!; try done. by rewrite El, E, insert_insert_eq.
Qed.

(** One step of a lock whose lists move as [moves] says. *)
Lemma safe_move s s1 s' i k k' r w p :
  SInv s -> lg_locks s !! i = Some k -> lists_ok s1 -> moves s s1 i r w ->
  lg_readlocks s' = lg_readlocks s1 -> lg_readers s' = lg_readers s1 ->
  lg_writelocks s' = lg_writelocks s1 -> lg_writers s' = lg_writers s1 ->
  lg_locks s' = <[i := k']> (lg_locks s) -> lock_ok r w k' ->
  (upgrading s' = upgrading s /\ upgraded k' = upgraded k) \/
  (upgrading s = false /\ upgrading s' = true /\ upgraded k' = true) \/
  (upgraded k = true /\ upgraded k' = false /\ upgrading s' = false) ->
  wait_ok p k' -> safe s i (Some (s', p)).
Proof.
  intros HS Hk HL HM E1 E2 E3 E4 El Hok Hu Hw. exists s', p, k'. split_and!; try done. by eapply sinv_change.
Qed.

Ltac locks_eq Hk := cbn [lg_locks upd flags_of dec_readers dec_writers unlink]; rewrite ?alter_alter_eq; apply alter_insert, Hk.

Lemma set_thread_sinv s i k t : SInv s -> lg_locks s !! i = Some k ->
  SInv (upd s i (set_thread t)) /\ lg_locks (upd s i (set_thread t)) = <[i := set_thread t k]> (lg_locks s).
Proof.
  intros HS Hk. assert (lg_locks (upd s i (set_thread t)) = <[i := set_thread t k]> (lg_locks s)) as El by locks_eq Hk.
  split; [| done]. destruct (safe_same s i k (set_thread t k) (Done 0) (upd s i (set_thread t))) as (? & ? & ? & [= <- <-] & ? & _); try done.
  by exists (lk_flags k), t.
Qed.

Lemma readlock_safe self s i k : SInv s -> lg_locks s !! i = Some k -> lk_type k = OSNS_LOCK_TYPE_READ -> safe s i (_osns_readlock self s i).
Proof.
  intros HS Hk Ht. unfold _osns_readlock. rewrite Hk. opt. destruct (set_thread_sinv s i k self HS Hk) as [HS1 El].
  fold (listed k). destruct (listed k) eqn:Hl; cbn [negb].
  - eapply (safe_same s i k); [done | done | locks_eq Hk | done.. | | | |]; cbn; [by eexists _, _ | by flags | by flags | done].
  - eapply safe_after; [exact HS1 | exact El |]. apply (readlock_wait_safe _ _ (set_thread self k)); [done | by rewrite El, lookup_insert_eq | done | done].
Qed.

Lemma readunlock_safe s i k : SInv s -> lg_locks s !! i = Some k -> lk_type k = OSNS_LOCK_TYPE_READ -> safe s i (_osns_readunlock s i).
Proof.
  intros HS Hk Ht. unfold _osns_readunlock. rewrite Hk. opt. destruct (unlink_reader s i k HS Hk Ht) as [HL HM].
  pose proof (lk_shape _ _ _ (si_locks s HS i k Hk)) as Hsh. destruct Hsh as [f t Hu|]; [| done].
  unfold read_shape in *. cbn [lk_flags] in *. destruct (has f OSNS_LOCK_FLAG_LIST) eqn:Hl.
  - eapply (safe_move s _ _ i); [done | exact Hk | exact HL | exact HM | done.. | locks_eq Hk | | | done].
    + split; cbn; [apply shape_read | |]; by flags.
    + left. split; [done |]. cbn. by flags.
  - eapply (safe_move s _ _ i); [done | exact Hk | exact HL | exact HM | done.. | locks_eq Hk | | | done].
    + split; cbn; [apply shape_read | |]; flags; rewrite ?Hl; done.
    + left. split; [done |]. cbn. by flags.
Qed.

Lemma writelock_wait_safe s i k : SInv s -> lg_locks s !! i = Some k -> lk_type k = OSNS_LOCK_TYPE_WRITE -> listed k = true ->
  safe s i (writelock_wait s i).
Proof.
  intros HS Hk Ht Hl. unfold writelock_wait, is_first. destruct (linked_in s i k HS Hk) as (-> & _). rewrite Hl.
  assert (safe s i (Some (upd s i (set OSNS_LOCK_FLAG_EFFECTIVE), Done 0))) as He.
  { eapply (safe_same s i k); [done | done | locks_eq Hk | done.. | | | |]; cbn; [by eexists _, _ | by flags | by flags | done]. }
  destruct (0 <? lg_readers s); opt; [| exact He]. destruct (_ || _); cbn [andb negb]; [exact He |].
  exists s, WaitFirst, k. split_and!; [done | done | by rewrite insert_id | done].
Qed.

(** The entry of a write lock in its list, for [_osns_writelock] and
    [_osns_prewritelock]. *)
Lemma enter_writer s i k : SInv s -> lg_locks s !! i = Some k -> lk_type k = OSNS_LOCK_TYPE_WRITE -> listed k = false ->
  exists s2, add_writer false s i = Some s2 /\ SInv (upd s2 i (set OSNS_LOCK_FLAG_LIST)) /\
    lg_locks (upd s2 i (set OSNS_LOCK_FLAG_LIST)) = <[i := set OSNS_LOCK_FLAG_LIST k]> (lg_locks s).
Proof.
  intros HS Hk Ht Hl. destruct (linked_in s i k HS Hk) as (Hli & _). rewrite Hl in Hli.
  destruct (add_writer_ok false s i (si_lists s HS) Hli (known_dom _ _ _ Hk)) as (s2 & Ha & HL & HM & _). exists s2. split; [done |].
  assert (lg_locks (upd s2 i (set OSNS_LOCK_FLAG_LIST)) = <[i := set OSNS_LOCK_FLAG_LIST k]> (lg_locks s)) as El.
  { cbn. rewrite (mv_locks _ _ _ _ _ HM). by apply alter_insert. }
  split; [| done]. eapply (sinv_change s s2 _ i k); [done.. | exact El | |].
  - destruct (lk_shape _ _ _ (si_locks s HS i k Hk)) as [|f t d Hd Hu]; [done |]. split; cbn; [apply shape_write; [done |] | |]; by flags.
  - left. unfold upgrading. cbn. rewrite (mv_flags _ _ _ _ _ HM). split; [done |]. by flags.
Qed.

Lemma writelock_safe self s i k : SInv s -> lg_locks s !! i = Some k -> lk_type k = OSNS_LOCK_TYPE_WRITE -> safe s i (_osns_writelock self s i).
Proof.
  intros HS Hk Ht. unfold _osns_writelock. rewrite Hk. opt. destruct (set_thread_sinv s i k self HS Hk) as [HS1 El].
  assert (lg_locks (upd s i (set_thread self)) !! i = Some (set_thread self k)) as Hk1 by by rewrite El, lookup_insert_eq.
  fold (listed k). destruct (listed k) eqn:Hl; cbn [negb]; opt.
  - destruct (has (lk_flags k) OSNS_LOCK_FLAG_EFFECTIVE); cbn [negb].
    + eapply safe_after; [exact HS1 | exact El |]. by eapply safe_id.
    + eapply safe_after; [exact HS1 | exact El |]. by apply (writelock_wait_safe _ _ (set_thread self k)).
  - destruct (enter_writer _ _ _ HS1 Hk1 Ht Hl) as (s2 & -> & HS2 & El2). opt.
    assert (lg_locks (upd s2 i (set OSNS_LOCK_FLAG_LIST)) !! i = Some (set OSNS_LOCK_FLAG_LIST (set_thread self k))) as Hk2 by by rewrite El2, lookup_insert_eq.
    eapply safe_after; [exact HS1 | exact El |]. eapply safe_after; [exact HS2 | exact El2 |].
    destruct (has (lk_flags k) OSNS_LOCK_FLAG_EFFECTIVE); cbn [negb]; [by eapply safe_id |].
    apply (writelock_wait_safe _ _ _ HS2 Hk2); [done |]. by flags.
Qed.

Lemma prewritelock_safe self s i k : SInv s -> lg_locks s !! i = Some k -> lk_type k = OSNS_LOCK_TYPE_WRITE -> safe s i (_osns_prewritelock self s i).
Proof.
  intros HS Hk Ht. unfold _osns_prewritelock. rewrite Hk. opt. destruct (set_thread_sinv s i k self HS Hk) as [HS1 El].
  assert (lg_locks (upd s i (set_thread self)) !! i = Some (set_thread self k)) as Hk1 by by rewrite El, lookup_insert_eq.
  eapply safe_after; [exact HS1 | exact El |]. fold (listed k). destruct (listed k) eqn:Hl; cbn [negb]; [by eapply safe_id |].
  destruct (enter_writer _ _ _ HS1 Hk1 Ht Hl) as (s2 & -> & HS2 & El2). opt.
  eapply safe_after; [exact HS2 | exact El2 |]. eapply safe_id; [done |]. rewrite El2. by apply lookup_insert_eq.
Qed.

Lemma writeunlock_safe s i k : SInv s -> lg_locks s !! i = Some k -> lk_type k = OSNS_LOCK_TYPE_WRITE -> safe s i (_osns_writeunlock s i).
Proof.
  intros HS Hk Ht. unfold _osns_writeunlock. rewrite Hk. opt. destruct (unlink_writer s i k HS Hk Ht) as [HL HM].
  pose proof (si_upgraded s HS i k Hk) as Hup.
  destruct (lk_shape _ _ _ (si_locks s HS i k Hk)) as [|f t d Hd Hu]; [done |].
  unfold write_shape in *. cbn [lk_flags] in *. destruct (has f OSNS_LOCK_FLAG_LIST) eqn:Hl, (has f OSNS_LOCK_FLAG_UPGRADED) eqn:Hg;
    (eapply (safe_move s _ _ i); [done | exact Hk | exact HL | exact HM | done.. | locks_eq Hk | | | done]).
  all: try (split; cbn; [apply shape_write; [done |] | |]; flags; rewrite ?Hl, ?Hg; done).
  all: first [right; right; split; [done |]; split; [cbn; by flags | unfold upgrading; cbn; apply has_ldiff_same]
            | left; split; [done |]; cbn; by flags].
Qed.

Lemma add_writer_flags b s f i : add_writer b (flags_of s f) i = (let? s' := add_writer b s i in Some (flags_of s' f)).
Proof. unfold add_writer. change (linked (flags_of s f) i) with (linked s i). by destruct (linked s i). Qed.

Lemma upgrade_wait_safe s i k : SInv s -> lg_locks s !! i = Some k -> lk_type k = OSNS_LOCK_TYPE_WRITE -> listed k = true -> safe s i (upgrade_wait s i).
Proof.
  intros HS Hk Ht Hl. unfold upgrade_wait. destruct (0 <? lg_readers s).
  - exists s, WaitUpgrade, k. split_and!; [done | done | by rewrite insert_id | done].
  - eapply (safe_same s i k); [done | done | locks_eq Hk | done.. | | | |]; cbn; [by eexists _, _ | by flags | by flags | done].
Qed.

(** The move of a read lock to the front of the write locks. *)
Lemma reader_to_front s i k : SInv s -> lg_locks s !! i = Some k -> lk_type k = OSNS_LOCK_TYPE_READ ->
  exists s3, add_writer true (if has (lk_flags k) OSNS_LOCK_FLAG_LIST then dec_readers (unlink s i) else s) i = Some s3 /\
    lists_ok s3 /\ moves s s3 i false true /\ head (lg_writelocks s3) = Some i.
Proof.
  intros HS Hk Ht. destruct (unlink_reader s i k HS Hk Ht) as [HL HM]. destruct (moves_in _ _ _ _ _ HM) as (_ & _ & Hli & _).
  destruct (add_writer_ok true _ i HL Hli) as (s3 & Ha & HL3 & HM3 & _ & Hh).
  { rewrite (mv_locks _ _ _ _ _ HM). by eapply known_dom. }
  exists s3. split_and!; [done | done | by eapply moves_trans | auto].
Qed.

(** [_osns_upgrade_readlock] on a read lock when no other lock is being upgraded:
    the state in which it begins to wait. *)
Lemma upgrade_enter s i k : SInv s -> lg_locks s !! i = Some k -> lk_type k = OSNS_LOCK_TYPE_READ -> upgrading s = false ->
  exists s4 k4, _osns_upgrade_readlock s i = upgrade_wait s4 i /\ SInv s4 /\ lg_locks s4 = <[i := k4]> (lg_locks s) /\
    head (lg_writelocks s4) = Some i /\ lk_type k4 = OSNS_LOCK_TYPE_WRITE /\ listed k4 = true /\ upgraded k4 = true /\
    lk_downgrade k4 = Some OpPrewrite.
Proof.
  intros HS Hk Ht Hn. unfold _osns_upgrade_readlock. rewrite Hk. opt. rewrite Ht. cbn [negb Z.eqb OSNS_LOCK_TYPE_READ Pos.eqb].
  fold (upgrading s). rewrite Hn. destruct (reader_to_front s i k HS Hk Ht) as (s3 & Ha & HL & HM & Hh).
  set (f := fun x => Z.lor x OSNS_LOCKING_FLAG_UPGRADE).
  replace (if has (lk_flags k) OSNS_LOCK_FLAG_LIST then dec_readers (unlink (flags_of s f) i) else flags_of s f)
    with (flags_of (if has (lk_flags k) OSNS_LOCK_FLAG_LIST then dec_readers (unlink s i) else s) f) by by destruct (has _ _).
  rewrite add_writer_flags, Ha. opt. eexists _, _. split; [reflexivity |].
  assert (forall g, lg_locks (upd (flags_of s3 f) i g) = <[i := g k]> (lg_locks s)) as El.
  { intros g. cbn. rewrite (mv_locks _ _ _ _ _ HM). by apply alter_insert. }
  split; [| split; [apply El | split; [exact Hh | flags; done]]].
  eapply (sinv_change s s3); [exact HS | exact Hk | exact HL | exact HM | done.. | apply El | |].
  - destruct (lk_shape _ _ _ (si_locks s HS i k Hk)) as [f' t Hu|]; [| done]. split; cbn; [apply shape_write; [by auto |] | |]; by flags.
  - right. left. split; [done |]. split; [unfold upgrading, f; cbn; rewrite has_lor; const_has; apply orb_true_r |]. flags. done.
Qed.

Lemma upgrade_safe s i k : SInv s -> lg_locks s !! i = Some k -> lk_type k = OSNS_LOCK_TYPE_READ -> safe s i (_osns_upgrade_readlock s i).
Proof.
  intros HS Hk Ht. destruct (upgrading s) eqn:Hn.
  - unfold _osns_upgrade_readlock. rewrite Hk. opt. rewrite Ht. cbn [negb Z.eqb OSNS_LOCK_TYPE_READ Pos.eqb]. fold (upgrading s). rewrite Hn.
    by eapply safe_id.
  - destruct (upgrade_enter s i k HS Hk Ht Hn) as (s4 & k4 & -> & HS4 & El & _ & Ht4 & Hl4 & _).
    eapply safe_after; [exact HS4 | exact El |]. apply (upgrade_wait_safe _ _ k4); [done | by rewrite El, lookup_insert_eq | done | done].
Qed.

(** No lock of a state with the invariant is one that [_osns_downgrade_readlock]
    would change: it is the [downgrade] of locks that were not upgraded only. *)
Lemma downgrade_nothing s i k : SInv s -> lg_locks s !! i = Some k -> lk_downgrade k = Some OpDowngradeRead -> _osns_downgrade_readlock s i = Some (s, Done 0).
Proof.
  intros HS Hk Hd. unfold _osns_downgrade_readlock. rewrite Hk. opt.
  destruct (lk_shape _ _ _ (si_locks s HS i k Hk)) as [f t Hu|f t d _ Hu]; cbn.
  - by rewrite Hu.
  - cbn in Hd. injection Hd as ->. destruct (has f OSNS_LOCK_FLAG_UPGRADED); [by specialize (Hu eq_refl) | done].
Qed.

Lemma preread_safe s i k : SInv s -> lg_locks s !! i = Some k -> lk_type k = OSNS_LOCK_TYPE_READ -> listed k = true -> safe s i (_osns_prereadlock s i).
Proof.
  intros HS Hk Ht Hl. unfold _osns_prereadlock. rewrite Hk. opt. destruct (reader_to_front s i k HS Hk Ht) as (s3 & -> & HL & HM & Hh). opt.
  eapply (safe_move s s3); [exact HS | exact Hk | exact HL | exact HM | done.. | | | | done].
  - cbn. rewrite (mv_locks _ _ _ _ _ HM). by apply alter_insert.
  - destruct (lk_shape _ _ _ (si_locks s HS i k Hk)) as [f' t Hu|]; [| done]. split; cbn; [apply shape_write; [by auto |] | |]; flags; rewrite ?Hl, ?Hu; done.
  - left. unfold upgrading. cbn. rewrite (mv_flags _ _ _ _ _ HM). split; [done |]. by flags.
Qed.

(** ** Users of the locks *)

Inductive call := CallLock | CallUnlock | CallPrelock | CallUpgrade | CallDowngrade.

Definition do_call (self : Z) (s : osns_locking) (i : nat) (c : call) : option (osns_locking * pc) :=
  match c with
  | CallLock => osns_lock_call self s i
  | CallUnlock => osns_unlock self s i
  | CallPrelock => osns_prelock self s i
  | CallUpgrade => osns_upgradelock self s i
  | CallDowngrade => osns_downgradelock self s i
  end.

(** The state and the locks whose threads wait. *)
Definition config := (osns_locking * gmap nat pc)%type.

Definition waits_after (w : gmap nat pc) (i : nat) (p : pc) : gmap nat pc :=
  match p with Done _ => delete i w | _ => <[i := p]> w end.

(** A lock may be used in any way by its thread, except that [osns_prelock] turns
    a read lock into a write lock only while it is held. *)
Definition allowed (s : osns_locking) (i : nat) (c : call) : bool :=
  match lg_locks s !! i with
  | Some k => match c with CallPrelock => negb (is_type k OSNS_LOCK_TYPE_READ) || listed k | _ => true end
  | None => false
  end.

(** One step of the thread of the lock [i]: a call, or the return from a wait. *)
Definition attempt (self : Z) (i : nat) (c : call) (x : config) : option (option config) :=
  let '(s, w) := x in
  match w !! i with
  | Some p => Some (let? r := resume s i p in Some (r.1, waits_after w i r.2))
  | None => if allowed s i c then Some (let? r := do_call self s i c in Some (r.1, waits_after w i r.2)) else None
  end.

Inductive step (x y : config) : Prop :=
| do_step self i c : attempt self i c x = Some (Some y) -> step x y.

(** Locks as [init_osns_readlock] and [init_osns_writelock] leave them. *)
Definition fresh (k : osns_lock) : Prop := k = init_osns_readlock \/ k = init_osns_writelock.

Definition initial (x : config) : Prop :=
  x.2 = ∅ /\ exists flags mem locks, init_osns_locking flags mem locks = Some x.1 /\
    (forall i k, locks !! i = Some k -> fresh k) /\ Z.of_nat (size (dom locks)) < 2 ^ 32.

Record Inv (x : config) : Prop := {
  inv_state : SInv x.1;
  inv_waits i p : x.2 !! i = Some p -> exists k, x.1.(lg_locks) !! i = Some k /\ wait_ok p k /\ (forall v, p <> Done v)
}.

Lemma call_safe self s i c : SInv s -> allowed s i c = true -> safe s i (do_call self s i c).
Proof.
  intros HS Ha. unfold allowed in Ha. destruct (lg_locks s !! i) as [k|] eqn:Hk; [| done].
  pose proof (downgrade_nothing s i k HS Hk) as Hdg. pose proof (lk_shape _ _ _ (si_locks s HS i k Hk)) as Hsh.
  destruct c; cbn [do_call]; unfold osns_lock_call, osns_unlock, osns_prelock, osns_upgradelock, osns_downgradelock; rewrite Hk; opt;
    destruct Hsh as [f t Hu|f t d Hd Hu]; cbn [call_op lk_lock lk_unlock lk_prelock lk_upgrade lk_downgrade read_shape write_shape]; opt.
  - by eapply readlock_safe.
  - by eapply writelock_safe.
  - by eapply readunlock_safe.
  - by eapply writeunlock_safe.
  - by eapply preread_safe.
  - by eapply prewritelock_safe.
  - by eapply upgrade_safe.
  - by eapply safe_id.
  - cbn [call_op]. rewrite Hdg by done. by eapply safe_id.
  - destruct Hd as [-> |[-> | ->]]; cbn [call_op]; [by eapply safe_id | by eapply prewritelock_safe | rewrite Hdg by done; by eapply safe_id].
Qed.

Lemma resume_safe s i p k : SInv s -> lg_locks s !! i = Some k -> wait_ok p k -> (forall v, p <> Done v) -> safe s i (resume s i p).
Proof.
  intros HS Hk Hw Hp. destruct p as [v| | |]; [by destruct (Hp v) | ..]; destruct Hw as [Ht Hl]; cbn [resume].
  - by eapply readlock_wait_safe.
  - by eapply writelock_wait_safe.
  - by eapply upgrade_wait_safe.
Qed.

Lemma inv_after s w i res : Inv (s, w) -> safe s i res -> exists y, (let? r := res in Some (r.1, waits_after w i r.2)) = Some y /\ Inv y.
Proof.
  intros [HS HW] (s' & p & k' & -> & HS' & El & Hw). opt. eexists. split; [reflexivity |]. split; cbn [fst snd]; [done |].
  intros j q Hq. cbn [fst snd] in HW. destruct (decide (j = i)) as [-> |Hn].
  - exists k'. rewrite El, lookup_insert_eq. split; [done |].
    destruct p; cbn [waits_after] in Hq; [by rewrite lookup_delete_eq in Hq | rewrite lookup_insert_eq in Hq; injection Hq as <-; done..].
  - rewrite El, lookup_insert_ne by done. apply HW. destruct p; cbn [waits_after] in Hq; by rewrite ?lookup_delete_ne, ?lookup_insert_ne in Hq by done.
Qed.

(** Every attempt of a step is defined and keeps the invariant. *)
Lemma attempt_safe self i c x r : Inv x -> attempt self i c x = Some r -> exists y, r = Some y /\ Inv y.
Proof.
  intros HI Ha. destruct x as [s w]. unfold attempt in Ha. destruct (w !! i) as [p|] eqn:Hp.
  - injection Ha as <-. destruct (inv_waits _ HI i p Hp) as (k & Hk & Hw & Hd).
    eapply inv_after; [done |]. by eapply resume_safe; [apply HI | ..].
  - destruct (allowed s i c) eqn:Hal; [| done]. injection Ha as <-. eapply inv_after; [done |]. apply call_safe; [apply HI | done].
Qed.

Lemma initial_inv x : initial x -> Inv x.
Proof.
  intros (Hw & flags & mem & locks & Hi & Hf & Hb). destruct x as [s w]. cbn in *. subst w.
  assert (exists g, s = mk_locking g [] 0 [] 0 locks /\ has g OSNS_LOCKING_FLAG_UPGRADE = false) as (g & -> & Hg).
  { unfold init_osns_locking in Hi. repeat case_match; simplify_eq; eexists; split; reflexivity. }
  split; cbn; [| by intros i p Hp; rewrite lookup_empty in Hp]. split.
  - split; cbn; [constructor | done | done | | done]. intros i Hl. apply linked_spec in Hl. cbn in Hl. set_solver.
  - cbn. intros i k Hk. destruct (Hf i k Hk) as [-> | ->]; (split; [| reflexivity | reflexivity]).
    + by apply shape_read.
    + by apply shape_write; [left |].
  - unfold upgrading. cbn. congruence.
  - cbn. intros i k Hk. destruct (Hf i k Hk) as [-> | ->]; done.
  - cbn. intros i j k k' Hk _. destruct (Hf i k Hk) as [-> | ->]; done.
Qed.

Lemma locking_reachable_inv x y : initial x -> rtc step x y -> Inv y.
Proof.
  intros Hi Hr. apply initial_inv in Hi. induction Hr as [|a b c [self i cl Ha] _ IH]; [done |].
  apply IH. by destruct (attempt_safe _ _ _ _ _ Hi Ha) as (? & [= ->] & ?).
Qed.

(** in every state the users of fresh locks can reach, the two counters are
    the lengths of the two lists, no lock is linked twice, the flag [LIST] is set
    exactly on the locks in the list of their type, and no next step, call or
    return from a wait, touches a list element that is linked in a wrong way. *)
Theorem locking_invariant (x : config) (s : osns_locking) (w : gmap nat pc) :
  initial x -> rtc step x (s, w) ->
  lg_readers s = zlen (lg_readlocks s) /\ lg_writers s = zlen (lg_writelocks s) /\ NoDup (lg_readlocks s ++ lg_writelocks s) /\
  (forall i k, lg_locks s !! i = Some k ->
     (i ∈ lg_readlocks s <-> lk_type k = OSNS_LOCK_TYPE_READ /\ listed k = true) /\
     (i ∈ lg_writelocks s <-> lk_type k = OSNS_LOCK_TYPE_WRITE /\ listed k = true)) /\
  (forall self i c, attempt self i c (s, w) <> Some None).
Proof.
  intros Hi Hr. pose proof (locking_reachable_inv _ _ Hi Hr) as HI. pose proof (inv_state _ HI) as HS. cbn [fst] in HS.
  destruct (si_lists s HS) as [H1 H2 H3 _ _]. split_and!; [done.. | |].
  - intros i k Hk. destruct (linked_in s i k HS Hk) as (_ & Hrd & Hwr). unfold is_type in Hrd, Hwr.
    rewrite <- (bool_decide_eq_true (i ∈ lg_readlocks s)), <- (bool_decide_eq_true (i ∈ lg_writelocks s)).
    by rewrite Hrd, Hwr, !andb_true_iff, !Z.eqb_eq.
  - intros self i c Ha. by destruct (attempt_safe _ _ _ _ _ HI Ha) as (? & ? & _).
Qed.

(** [_osns_upgrade_readlock] in a reachable state. While another lock is being
    upgraded it returns -1 and changes nothing. Otherwise the lock leaves the
    read locks, becomes the first of the write locks with the type and the flag of
    an upgraded lock, and the call returns at once exactly when there are no
    other readers; no two locks are upgraded at a time. *)
Theorem upgrade_correct (x : config) (s : osns_locking) (w : gmap nat pc) (i : nat) (k : osns_lock) :
  initial x -> rtc step x (s, w) -> lg_locks s !! i = Some k -> lk_type k = OSNS_LOCK_TYPE_READ ->
  (upgrading s = true -> _osns_upgrade_readlock s i = Some (s, Done (-1))) /\
  (upgrading s = false -> exists s' p k', _osns_upgrade_readlock s i = Some (s', p) /\ lg_locks s' !! i = Some k' /\
     head (lg_writelocks s') = Some i /\ i ∉ lg_readlocks s' /\ lk_type k' = OSNS_LOCK_TYPE_WRITE /\ upgraded k' = true /\
     p = (if lg_readers s' =? 0 then Done 0 else WaitUpgrade) /\
     (forall j q, lg_locks s' !! j = Some q -> upgraded q = true -> j = i)).
Proof.
  intros Hi Hr Hk Ht. pose proof (inv_state _ (locking_reachable_inv _ _ Hi Hr)) as HS. cbn [fst] in HS. split.
  - intros Hn. unfold _osns_upgrade_readlock. rewrite Hk. opt. rewrite Ht. cbn [negb Z.eqb OSNS_LOCK_TYPE_READ Pos.eqb].
    fold (upgrading s). by rewrite Hn.
  - intros Hn. destruct (upgrade_enter s i k HS Hk Ht Hn) as (s4 & k4 & -> & HS4 & El & Hh & Ht4 & Hl4 & Hu4 & _).
    assert (lg_locks s4 !! i = Some k4) as Hk4 by by rewrite El, lookup_insert_eq.
    assert (i ∉ lg_readlocks s4) as Hnr.
    { destruct (linked_in s4 i k4 HS4 Hk4) as (_ & Hrd & _). unfold is_type in Hrd. rewrite Ht4 in Hrd. by apply bool_decide_eq_false in Hrd. }
    pose proof (lo_readers s4 (si_lists s4 HS4)) as Hrs. pose proof (zlen_nonneg (lg_readlocks s4)).
    unfold upgrade_wait. destruct (Z.ltb_spec 0 (lg_readers s4)).
    + exists s4, WaitUpgrade, k4. split_and!; try done; [by rewrite (proj2 (Z.eqb_neq _ _)) by lia |].
      intros j q Hj Hq. by apply (si_unique s4 HS4 j i q k4).
    + exists (upd s4 i (set OSNS_LOCK_FLAG_EFFECTIVE)), (Done 0), (set OSNS_LOCK_FLAG_EFFECTIVE k4).
      split_and!; try done; [cbn; by rewrite lookup_alter_eq, Hk4 | by flags | cbn; by rewrite (proj2 (Z.eqb_eq _ _)) by lia |].
      intros j q. cbn. destruct (decide (j = i)) as [-> |Hne]; [done |]. rewrite lookup_alter_ne by done.
      intros Hj Hq. by apply (si_unique s4 HS4 j i q k4).
Qed.

(** [osns_downgradelock] does not undo an upgrade. The upgrade sets the field
    [downgrade] to [_osns_prewritelock], so in every reachable state the call
    leaves an upgraded lock what it is but for its thread, and the function
    written to undo the upgrade finds nothing to do wherever it is called. *)
Theorem downgrade_does_nothing (x : config) (s : osns_locking) (w : gmap nat pc) (i : nat) (k : osns_lock) (self : Z) :
  initial x -> rtc step x (s, w) -> lg_locks s !! i = Some k ->
  (upgraded k = true -> listed k = true -> osns_downgradelock self s i = Some (upd s i (set_thread self), Done 0)) /\
  (lk_downgrade k = Some OpDowngradeRead -> osns_downgradelock self s i = Some (s, Done 0)).
Proof.
  intros Hi Hr Hk. pose proof (inv_state _ (locking_reachable_inv _ _ Hi Hr)) as HS. cbn [fst] in HS.
  unfold osns_downgradelock. rewrite Hk. opt. split.
  - intros Hu Hl. destruct (lk_shape _ _ _ (si_locks s HS i k Hk)) as [f t Hf|f t d _ Hf]; [unfold upgraded in Hu; cbn in Hu; congruence |].
    specialize (Hf Hu). subst d. cbn. unfold _osns_prewritelock. rewrite Hk. opt. fold (listed (write_shape f t OpPrewrite)). by rewrite Hl.
  - intros Hd. rewrite Hd. opt. cbn [call_op]. by eapply downgrade_nothing.
Qed.

(** ** Examples *)

Fixpoint run (cs : list (nat * call)) (x : config) : option config :=
  match cs with
  | [] => Some x
  | (i, c) :: r => match attempt (Z.of_nat i + 1) i c x with Some (Some y) => run r y | _ => None end
  end.

Lemma locking_run_rtc cs : forall x y, run cs x = Some y -> rtc step x y.
Proof.
  induction cs as [|[i c] r IH]; intros x y H; cbn [run] in H; [injection H as <-; apply rtc_refl |].
  destruct (attempt _ i c x) as [[z|]|] eqn:E; [| done..]. eapply rtc_l; [by econstructor | by apply IH].
Qed.

(** Locks 0 and 1 for reading, 2 and 3 for writing. *)
Definition ex_locks : gmap nat osns_lock :=
  <[0%nat := init_osns_readlock]> (<[1%nat := init_osns_readlock]> (<[2%nat := init_osns_writelock]> (<[3%nat := init_osns_writelock]> ∅))).
Definition ex_start : config := (mk_locking 0 [] 0 [] 0 ex_locks, ∅).

Lemma ex_initial : initial ex_start.
Proof.
  split; [done |]. exists 0, false, ex_locks. split_and!; [done | | by vm_compute].
  intros i k. unfold ex_locks. rewrite !lookup_insert. repeat case_decide; intros [= <-]; [by left | by left | by right | by right].
Qed.

Definition state_after (cs : list (nat * call)) : config := default ex_start (run cs ex_start).

Lemma state_after_rtc cs : is_Some (run cs ex_start) -> rtc step ex_start (state_after cs).
Proof. intros [y Hy]. unfold state_after. rewrite Hy. by apply (locking_run_rtc cs). Qed.

(** Lock 0 reads, lock 2 takes the write lock, lock 3 waits for it. *)
Definition ex_queue : list (nat * call) := [(0, CallLock); (2, CallLock); (3, CallLock)]%nat.

Lemma ex_queue_rtc : rtc step ex_start (state_after ex_queue).
Proof. apply state_after_rtc. vm_compute. by eexists. Qed.

Lemma locking_invariant_witness : lg_writers (state_after ex_queue).1 = zlen (lg_writelocks (state_after ex_queue).1).
Proof. destruct (state_after ex_queue) as [s w] eqn:E. apply (locking_invariant ex_start s w ex_initial). rewrite <- E. apply ex_queue_rtc. Defined.

(** Locks 0 and 1 read; lock 0 is then upgraded, and waits. *)
Definition ex_upgrade : list (nat * call) := [(0, CallLock); (1, CallLock); (0, CallUpgrade)]%nat.

Lemma ex_upgrade_rtc : rtc step ex_start (state_after ex_upgrade).
Proof. apply state_after_rtc. vm_compute. by eexists. Qed.

Lemma upgrade_correct_witness : _osns_upgrade_readlock (state_after ex_upgrade).1 1 = Some ((state_after ex_upgrade).1, Done (-1)).
Proof.
  eapply (upgrade_correct ex_start (state_after ex_upgrade).1 (state_after ex_upgrade).2 1 (read_shape 5 2) ex_initial); [| vm_compute; reflexivity..].
  apply ex_upgrade_rtc.
Defined.

Lemma downgrade_does_nothing_witness :
  osns_downgradelock 7 (state_after ex_upgrade).1 0 = Some (upd (state_after ex_upgrade).1 0 (set_thread 7), Done 0).
Proof.
  eapply (downgrade_does_nothing ex_start (state_after ex_upgrade).1 (state_after ex_upgrade).2 0 (write_shape 21 1 OpPrewrite) 7 ex_initial);
    [| vm_compute; reflexivity..].
  apply ex_upgrade_rtc.
Defined.

Definition effective_in (x : config) (i : nat) (t : Z) : bool :=
  match lg_locks x.1 !! i with Some k => (lk_type k =? t) && effective k | None => false end.

(** the write lock is not exclusive. The comment in [_osns_writelock] asks for
    no readers and the first place in the list, the loop waits only while both are
    missing: there are reachable states with a reader and a writer that both have
    their lock, and with two writers that both have theirs. *)
Theorem writelock_not_exclusive :
  (exists y, rtc step ex_start y /\ effective_in y 0 OSNS_LOCK_TYPE_READ = true /\ effective_in y 2 OSNS_LOCK_TYPE_WRITE = true) /\
  (exists y, rtc step ex_start y /\ effective_in y 2 OSNS_LOCK_TYPE_WRITE = true /\ effective_in y 3 OSNS_LOCK_TYPE_WRITE = true).
Proof.
  split.
  - exists (state_after ex_queue). split; [apply ex_queue_rtc |]. by vm_compute.
  - exists (state_after [(2, CallLock); (3, CallLock)]%nat). split; [| by vm_compute].
    apply state_after_rtc. vm_compute. by eexists.
Qed.

(** a read lock that is turned into a write lock by [osns_prelock] keeps its
    flag [EFFECTIVE], so the [osns_lock] that follows returns at once even though
    another reader holds the lock. *)
Theorem prelocked_reader_skips_wait :
  exists y, rtc step ex_start y /\ effective_in y 0 OSNS_LOCK_TYPE_READ = true /\ effective_in y 1 OSNS_LOCK_TYPE_WRITE = true /\ y.2 = ∅.
Proof.
  exists (state_after [(0, CallLock); (1, CallLock); (1, CallPrelock); (1, CallLock)]%nat). split; [| by vm_compute].
  apply state_after_rtc. vm_compute. by eexists.
Qed.

End Locking.
