(* ===== verification/AttrBuffer.v ===== *)
(** * lib/datatypes/buffer.c: the cursor sftp attributes are read and written with

    A [struct attr_buffer_s] is a buffer with a position and what is left, and a
    table of operations: the one to read, the one to write and the one that only
    counts.  None of the functions tests the space that is left, except
    [read_string]; an access beyond the buffer is [None]. *)

From stdpp Require Import base list list_numbers numbers option.
From S2P Require Import Prelude SshUint SshString.
Import SshUint SshString.

Module AttrBuffer.

Definition ATTR_BUFFER_FLAG_READ := 4.
Definition ATTR_BUFFER_FLAG_WRITE := 8.
Definition ATTR_BUFFER_FLAG_NOWRITE := 16.

(** Which of the tables [ab_read], [ab_write] and [ab_nowrite] the field [ops]
    points to. *)
Inductive ab_mode := AbRead | AbWrite | AbNowrite.

Record attr_buffer := mk_ab {
  ab_flags : Z;
  ab_buffer : bytes;     (* NULL: no bytes *)
  ab_pos : Z;            (* unsigned int *)
  ab_left : Z;           (* int *)
  ab_len : Z;
  ab_count : Z;
  ab_ops : ab_mode
}.

(** ** Two's complement *)

Definition HIGHEST_BIT_32 := 2 ^ 31.
Definition HIGHEST_BIT_64 := 2 ^ 63.

(** [-value] of the least value is undefined. *)
Definition convert_int32_2c (value : Z) : option Z :=
  if 0 <=? value then Some (u32 value)
  else if value =? - 2 ^ 31 then None
  else Some (u32 (u32 (Z.lnot (- value)) + 1)).

Definition convert_2c_int32 (value : Z) : Z :=
  if has value HIGHEST_BIT_32 then sgn 32 (u32 (- u32 (Z.lnot (u32 (value - 1))))) else sgn 32 value.

Definition convert_int64_2c (value : Z) : option Z :=
  if 0 <=? value then Some (u64 value)
  else if value =? - 2 ^ 63 then None
  else Some (u64 (u64 (Z.lnot (u64 (- value))) + 1)).

Definition convert_2c_int64 (value : Z) : Z :=
  if has value HIGHEST_BIT_64 then sgn 64 (u64 (- u64 (Z.lnot (u64 (value - 1))))) else sgn 64 value.

(** ** Writing *)

Definition set_cursor (ab : attr_buffer) (b : bytes) (pos left : Z) : attr_buffer :=
  mk_ab (ab_flags ab) b pos left (ab_len ab) (ab_count ab) (ab_ops ab).

Definition copy_buffer_data (ab : attr_buffer) (data : bytes) : option attr_buffer :=
  let? b := mem_write (ab_buffer ab) (ab_pos ab) data in
  Some (set_cursor ab b (u32 (ab_pos ab + zlen data)) (sgn 32 (ab_left ab - zlen data))).

(** The counting functions move the position only. *)
Definition nowrite_skip (ab : attr_buffer) (len : Z) : option attr_buffer :=
  Some (set_cursor ab (ab_buffer ab) (u32 (ab_pos ab + len)) (ab_left ab)).

Definition write_skip (ab : attr_buffer) (len : Z) : option attr_buffer :=
  Some (set_cursor ab (ab_buffer ab) (u32 (ab_pos ab + len)) (sgn 32 (ab_left ab - len))).

Definition nowrite_uchar (ab : attr_buffer) (b : Z) : option attr_buffer := nowrite_skip ab 1.
Definition write_uchar (ab : attr_buffer) (b : Z) : option attr_buffer := copy_buffer_data ab [u8 b].

(** [bytes] is the memory at the pointer, [None] for NULL. *)
Definition nowrite_uchars (ab : attr_buffer) (p : option bytes) (len : Z) : option attr_buffer := nowrite_skip ab len.
Definition write_uchars (ab : attr_buffer) (p : option bytes) (len : Z) : option attr_buffer :=
  let? p := p in let? d := mem_read p 0 len in copy_buffer_data ab d.

Definition nowrite_uint16 (ab : attr_buffer) (value : Z) : option attr_buffer := nowrite_skip ab 2.
Definition write_uint16 (ab : attr_buffer) (value : Z) : option attr_buffer :=
  copy_buffer_data ab [u8 (Z.shiftr value 8); Z.land value 255].

Definition nowrite_uint32 (ab : attr_buffer) (value : Z) : option attr_buffer := nowrite_skip ab 4.
Definition write_uint32 (ab : attr_buffer) (value : Z) : option attr_buffer :=
  copy_buffer_data ab [byte_at value 24; byte_at value 16; byte_at value 8; Z.land value 255].

Definition nowrite_uint64 (ab : attr_buffer) (value : Z) : option attr_buffer := nowrite_skip ab 8.
Definition write_uint64 (ab : attr_buffer) (value : Z) : option attr_buffer :=
  copy_buffer_data ab [byte_at value 56; byte_at value 48; byte_at value 40; byte_at value 32;
                       byte_at value 24; byte_at value 16; byte_at value 8; Z.land value 255].

Definition nowrite_int64 (ab : attr_buffer) (value : Z) : option attr_buffer := nowrite_skip ab 8.
Definition write_int64 (ab : attr_buffer) (value : Z) : option attr_buffer :=
  let? tc_value := convert_int64_2c value in write_uint64 ab tc_value.

(** The calls through [ab->ops->rw.write]. *)
Definition ops_uchar (ab : attr_buffer) (b : Z) : option attr_buffer :=
  match ab_ops ab with AbWrite => write_uchar ab b | AbNowrite => nowrite_uchar ab b | AbRead => None end.
Definition ops_uchars (ab : attr_buffer) (p : option bytes) (len : Z) : option attr_buffer :=
  match ab_ops ab with AbWrite => write_uchars ab p len | AbNowrite => nowrite_uchars ab p len | AbRead => None end.
Definition ops_uint16 (ab : attr_buffer) (v : Z) : option attr_buffer :=
  match ab_ops ab with AbWrite => write_uint16 ab v | AbNowrite => nowrite_uint16 ab v | AbRead => None end.
Definition ops_uint32 (ab : attr_buffer) (v : Z) : option attr_buffer :=
  match ab_ops ab with AbWrite => write_uint32 ab v | AbNowrite => nowrite_uint32 ab v | AbRead => None end.
Definition ops_uint64 (ab : attr_buffer) (v : Z) : option attr_buffer :=
  match ab_ops ab with AbWrite => write_uint64 ab v | AbNowrite => nowrite_uint64 ab v | AbRead => None end.
Definition ops_int64 (ab : attr_buffer) (v : Z) : option attr_buffer :=
  match ab_ops ab with AbWrite => write_int64 ab v | AbNowrite => nowrite_int64 ab v | AbRead => None end.
Definition ops_skip (ab : attr_buffer) (len : Z) : option attr_buffer :=
  match ab_ops ab with AbWrite => write_skip ab len | AbNowrite => nowrite_skip ab len | AbRead => None end.

(** [write_string], the same in both tables. *)
Definition write_string (ab : attr_buffer) (s : ssh_string) : option attr_buffer :=
  let? ab := ops_uint32 ab (s_len s) in ops_uchars ab (s_view s) (s_len s).

(** ** Reading *)

Definition at_pos (ab : attr_buffer) : bytes := drop (Z.to_nat (ab_pos ab)) (ab_buffer ab).
Definition advance (ab : attr_buffer) (n : Z) : attr_buffer :=
  set_cursor ab (ab_buffer ab) (u32 (ab_pos ab + n)) (sgn 32 (ab_left ab - n)).

Definition read_uchar (ab : attr_buffer) : option (Z * attr_buffer) :=
  match at_pos ab with b :: _ => Some (b, advance ab 1) | [] => None end.

Definition read_uint16 (ab : attr_buffer) : option (Z * attr_buffer) :=
  let? v := get_uint16 (at_pos ab) in Some (v, advance ab 2).
Definition read_uint32 (ab : attr_buffer) : option (Z * attr_buffer) :=
  let? v := get_uint32 (at_pos ab) in Some (v, advance ab 4).
Definition read_uint64 (ab : attr_buffer) : option (Z * attr_buffer) :=
  let? v := get_uint64 (at_pos ab) in Some (v, advance ab 8).

(** A byte shifted as an [int]: undefined from 32 bits on. *)
Definition shift_int (b n : Z) : option Z := if n <? 32 then Some (Z.shiftl b n) else None.

Definition read_int64 (ab : attr_buffer) : option (Z * attr_buffer) :=
  match at_pos ab with
  | t0 :: t1 :: t2 :: t3 :: t4 :: t5 :: t6 :: t7 :: _ =>
      let? s0 := shift_int t0 56 in let? s1 := shift_int t1 48 in let? s2 := shift_int t2 40 in let? s3 := shift_int t3 32 in
      let a := u64 (Z.lor (Z.lor (Z.lor s0 s1) s2) s3) in
      let a := Z.lor a (u32 (Z.lor (Z.lor (Z.lor (Z.shiftl t4 24) (Z.shiftl t5 16)) (Z.shiftl t6 8)) t7)) in
      Some (convert_2c_int64 a, advance ab 8)
  | _ => None
  end.

(** The result, the string and whether the callback is called with it; [left] is
    compared as an unsigned value. *)
Definition read_string (ab : attr_buffer) (s : ssh_string) : option (Z * ssh_string * bool * attr_buffer) :=
  let? r := read_uint32 ab in
  let '(len, ab) := r in
  let s := set_len len s in
  if (0 <? len) && (len <=? u32 (ab_left ab))
  then if ab_pos ab <=? zlen (ab_buffer ab)
       then Some (u32 (len + 4), set_ptr (PMem (at_pos ab)) s, true, advance ab len) else None
  else Some (4, s, false, ab).

(** ** Setup *)

Definition set_attr_buffer_read (ab : attr_buffer) (buffer : bytes) (len : Z) : attr_buffer :=
  mk_ab ATTR_BUFFER_FLAG_READ buffer 0 (sgn 32 len) len 0 AbRead.
Definition set_attr_buffer_nowrite (ab : attr_buffer) : attr_buffer :=
  mk_ab ATTR_BUFFER_FLAG_NOWRITE (ab_buffer ab) (ab_pos ab) (ab_left ab) (ab_len ab) (ab_count ab) AbNowrite.
Definition set_attr_buffer_write (ab : attr_buffer) (buffer : bytes) (len : Z) : attr_buffer :=
  mk_ab ATTR_BUFFER_FLAG_WRITE buffer 0 (sgn 32 len) len 0 AbWrite.
Definition reset_attr_buffer_write (ab : attr_buffer) : attr_buffer :=
  mk_ab (ab_flags ab) (ab_buffer ab) 0 (sgn 32 (ab_len ab)) (ab_len ab) 0 (ab_ops ab).
Definition init_read_attr_buffer : attr_buffer := mk_ab ATTR_BUFFER_FLAG_READ [] 0 0 0 0 AbRead.
Definition init_nowrite_attr_buffer : attr_buffer := mk_ab ATTR_BUFFER_FLAG_NOWRITE [] 0 0 0 0 AbNowrite.
Definition set_attr_buffer_count (ab : attr_buffer) (count : Z) : attr_buffer :=
  mk_ab (ab_flags ab) (ab_buffer ab) (ab_pos ab) (ab_left ab) (ab_len ab) count (ab_ops ab).
Definition set_attr_buffer_flags (ab : attr_buffer) (flags : Z) : attr_buffer :=
  mk_ab (Z.lor (ab_flags ab) flags) (ab_buffer ab) (ab_pos ab) (ab_left ab) (ab_len ab) (ab_count ab) (ab_ops ab).

(** ** What an operation writes

    [Emits op enc]: with the writing table [op] replaces the next bytes of the
    buffer by [enc], with the counting table it moves the position over as many. *)

(** The cursor of [ab] after [n] bytes, with the buffer [b]. *)
Definition moved (ab : attr_buffer) (b : bytes) (n : Z) : attr_buffer :=
  set_cursor ab b (ab_pos ab + n) (sgn 32 (ab_left ab - n)).

Class Emits (op : attr_buffer -> option attr_buffer) (enc : bytes) : Prop := {
  emits_write ab pre x post : ab_ops ab = AbWrite -> ab_buffer ab = pre ++ x ++ post -> ab_pos ab = zlen pre ->
    zlen x = zlen enc -> zlen (ab_buffer ab) < 2 ^ 32 -> - 2 ^ 31 <= ab_left ab < 2 ^ 31 ->
    op ab = Some (moved ab (pre ++ enc ++ post) (zlen enc));
  emits_count ab : ab_ops ab = AbNowrite -> is_u32 (ab_pos ab) -> op ab = Some (set_cursor ab (ab_buffer ab) (u32 (ab_pos ab + zlen enc)) (ab_left ab))
}.

Lemma sgn_add w a b : sgn w (sgn w a + b) = sgn w (a + b).
Proof.
  unfold sgn. set (m := 2 ^ w). set (h := 2 ^ (w - 1)). f_equal.
  replace ((a + h) mod m - h + b + h) with ((a + h) mod m + b) by lia. rewrite Zplus_mod_idemp_l. f_equal. lia.
Qed.

Lemma moved_moved ab b b' n m : moved (moved ab b n) b' m = moved ab b' (n + m).
Proof.
  unfold moved, set_cursor. cbn. f_equal; [lia |].
  replace (sgn 32 (ab_left ab - n) - m) with (sgn 32 (ab_left ab - n) + - m) by lia. rewrite sgn_add. f_equal. lia.
Qed.

Lemma u32_add_l a b : u32 (u32 a + b) = u32 (a + b).
Proof. unfold u32. apply Zplus_mod_idemp_l. Qed.

Lemma copy_emits ab pre x post d : ab_buffer ab = pre ++ x ++ post -> ab_pos ab = zlen pre -> zlen x = zlen d ->
  zlen (ab_buffer ab) < 2 ^ 32 -> copy_buffer_data ab d = Some (moved ab (pre ++ d ++ post) (zlen d)).
Proof.
  intros Hb Hp Hx Hn. unfold copy_buffer_data. rewrite Hb, Hp, (mem_write_free pre x d post) by done. opt.
  unfold moved. rewrite Hp. rewrite u32_id; [done |]. rewrite Hb, !zlen_app in Hn.
  pose proof (zlen_nonneg pre). pose proof (zlen_nonneg d). pose proof (zlen_nonneg post). unfold is_u32. lia.
Qed.

(** The bytes a table entry writes are what the counting entry counts. *)
Lemma emits_copy (op : attr_buffer -> option attr_buffer) enc :
  (forall ab, ab_ops ab = AbWrite -> op ab = copy_buffer_data ab enc) ->
  (forall ab, ab_ops ab = AbNowrite -> op ab = nowrite_skip ab (zlen enc)) -> Emits op enc.
Proof.
  intros Hw Hn. split.
  - intros ab pre x post Hm Hb Hp Hx Hl _. rewrite Hw by done. by eapply copy_emits.
  - intros ab Hm _. by rewrite Hn.
Qed.

Lemma emits_some : Emits Some [].
Proof.
  split.
  - intros ab pre x post Hm Hb Hp Hx Hl Hr. rewrite (zlen_nil (A := Z)) in *.
    destruct x as [|c x]; [| rewrite zlen_cons in Hx; pose proof (zlen_nonneg x); lia].
    unfold moved, set_cursor. rewrite Z.add_0_r, Z.sub_0_r, sgn_small by lia. cbn in Hb. cbn [app]. rewrite <- Hb. by destruct ab.
  - intros ab Hm Hp. unfold set_cursor. rewrite (zlen_nil (A := Z)), Z.add_0_r, u32_id by done. by destruct ab.
Qed.

(** Two operations in sequence. *)
#[export] Instance emits_bind op1 op2 e1 e2 : Emits op1 e1 -> Emits op2 e2 -> Emits (fun ab => let? ab := op1 ab in op2 ab) (e1 ++ e2).
Proof.
  intros H1 H2. split.
  - intros ab pre x post Hm Hb Hp Hx Hl Hr. rewrite zlen_app in Hx. pose proof (zlen_nonneg e1). pose proof (zlen_nonneg e2).
    assert (x = take (Z.to_nat (zlen e1)) x ++ drop (Z.to_nat (zlen e1)) x) as Hxx by by rewrite take_drop.
    set (x1 := take (Z.to_nat (zlen e1)) x) in *. set (x2 := drop (Z.to_nat (zlen e1)) x) in *.
    assert (zlen x1 = zlen e1) as Hx1 by (apply zlen_take; lia). assert (zlen x2 = zlen e2) as Hx2 by (unfold x2; rewrite zlen_drop; lia).
    rewrite (emits_write (Emits := H1) ab pre x1 (x2 ++ post)); [opt | done | by rewrite Hb, Hxx, <- !app_assoc | done..].
    rewrite (emits_write (Emits := H2) _ (pre ++ e1) x2 post); [| done | cbn; by rewrite <- !app_assoc | cbn; rewrite zlen_app; lia | done | | by apply (sgn_range 32)].
    + rewrite moved_moved, zlen_app, <- !app_assoc. done.
    + cbn [moved set_cursor ab_buffer]. rewrite Hb, Hxx in Hl. rewrite !zlen_app in *. lia.
  - intros ab Hm Hp. rewrite (emits_count (Emits := H1)) by done. opt. rewrite (emits_count (Emits := H2)) by (done || apply u32_range).
    unfold set_cursor. cbn. rewrite u32_add_l, zlen_app. do 3 f_equal. lia.
Qed.

#[export] Instance emits_uchar v : Emits (fun ab => ops_uchar ab v) [u8 v].
Proof. apply emits_copy; intros ab Hm; unfold ops_uchar; by rewrite Hm. Qed.

#[export] Instance emits_uint16 v : Emits (fun ab => ops_uint16 ab v) (be_encode 2 v).
Proof.
  apply emits_copy; intros ab Hm; unfold ops_uint16; rewrite Hm; [| done]. unfold write_uint16. unfold be_encode; cbn [app].
  unfold u8. by rewrite land255_mod, Z.shiftr_div_pow2 by lia.
Qed.

#[export] Instance emits_uint32 v : Emits (fun ab => ops_uint32 ab v) (be_encode 4 v).
Proof.
  apply emits_copy; intros ab Hm; unfold ops_uint32; rewrite Hm; [| done]. unfold write_uint32. unfold be_encode; cbn [app].
  rewrite !shiftr_land255, land255_mod by lia. by rewrite !Z.div_div by lia.
Qed.

#[export] Instance emits_uint64 v : Emits (fun ab => ops_uint64 ab v) (be_encode 8 v).
Proof.
  apply emits_copy; intros ab Hm; unfold ops_uint64; rewrite Hm; [| done]. unfold write_uint64. unfold be_encode; cbn [app].
  rewrite !shiftr_land255, land255_mod by lia. by rewrite !Z.div_div by lia.
Qed.

Lemma emits_string s d : s_data s = Some d -> s_len s = zlen d -> Emits (fun ab => write_string ab s) (be_encode 4 (zlen d) ++ d).
Proof.
  intros Hd Hl. unfold s_data in Hd. destruct (s_view s) as [v|] eqn:Ev; [cbn [mbind option_bind] in Hd | done].
  unfold write_string. rewrite Hl, Ev. apply emits_bind; [apply emits_uint32 |]. apply emits_copy; intros ab Hm; unfold ops_uchars; rewrite Hm; [| done].
  unfold write_uchars. opt. rewrite Hl in Hd. by rewrite Hd.
Qed.

(** Two passes: the counting pass gives the size of the buffer the writing pass
    fills to the end. *)
Lemma emits_two_pass op enc buffer ab0 : Emits op enc -> zlen enc < 2 ^ 31 -> zlen buffer = zlen enc ->
  exists n w, op init_nowrite_attr_buffer = Some n /\ ab_pos n = zlen enc /\
    op (set_attr_buffer_write ab0 buffer (ab_pos n)) = Some w /\ ab_buffer w = enc /\ ab_pos w = zlen enc /\ ab_left w = 0.
Proof.
  intros He Hn Hb. pose proof (zlen_nonneg enc). eexists _, _. split; [by apply (emits_count (Emits := He)) |].
  split; [cbn; apply u32_id; unfold is_u32; lia |]. split.
  - apply (emits_write (Emits := He) _ [] buffer []); cbn; [done | by rewrite app_nil_r | done | done | lia | by apply (sgn_range 32)].
  - cbn [moved set_cursor set_attr_buffer_write init_nowrite_attr_buffer ab_buffer ab_pos ab_left app].
    rewrite app_nil_r, u32_id by (unfold is_u32; lia). split_and!; [done | done |]. rewrite Z.add_0_l.
    rewrite (sgn_small 32 (zlen enc)) by lia. by rewrite Z.sub_diag.
Qed.

(** ** What an operation reads

    [Accepts op enc v]: where the buffer has [enc] at the position and at least
    as many bytes left, [op] returns [v] and moves over it. *)
Class Accepts {A} (op : attr_buffer -> option (A * attr_buffer)) (enc : bytes) (v : A) : Prop :=
  accepts ab pre post : ab_buffer ab = pre ++ enc ++ post -> ab_pos ab = zlen pre -> zlen (ab_buffer ab) < 2 ^ 32 ->
    zlen enc <= ab_left ab < 2 ^ 31 -> op ab = Some (v, moved ab (ab_buffer ab) (zlen enc)).

Lemma at_pos_app ab pre r : ab_buffer ab = pre ++ r -> ab_pos ab = zlen pre -> at_pos ab = r.
Proof. intros Hb Hp. unfold at_pos. rewrite Hb, Hp. unfold zlen. rewrite Nat2Z.id. apply drop_app_length. Qed.

Lemma advance_moved ab pre d post : ab_buffer ab = pre ++ d ++ post -> ab_pos ab = zlen pre -> zlen (ab_buffer ab) < 2 ^ 32 ->
  advance ab (zlen d) = moved ab (ab_buffer ab) (zlen d).
Proof.
  intros Hb Hp Hn. unfold advance, moved. rewrite u32_id; [done |]. rewrite Hb, !zlen_app in Hn. rewrite Hp.
  pose proof (zlen_nonneg pre). pose proof (zlen_nonneg d). pose proof (zlen_nonneg post). unfold is_u32. lia.
Qed.

#[export] Instance accepts_uchar v : Accepts read_uchar [v] v.
Proof. intros ab pre post Hb Hp Hn Hl. unfold read_uchar. rewrite (at_pos_app _ _ _ Hb Hp). cbn. by rewrite <- (advance_moved ab pre [v] post). Qed.

Lemma accepts_uint16 v : is_u16 v -> Accepts read_uint16 (be_encode 2 v) v.
Proof.
  intros Hv ab pre post Hb Hp Hn Hl. unfold read_uint16. rewrite (at_pos_app _ _ _ Hb Hp), get_uint16_encode by done. opt.
  rewrite <- (advance_moved ab pre _ post) by done. by rewrite zlen_be_encode.
Qed.

Lemma accepts_uint32 v : is_u32 v -> Accepts read_uint32 (be_encode 4 v) v.
Proof.
  intros Hv ab pre post Hb Hp Hn Hl. unfold read_uint32. rewrite (at_pos_app _ _ _ Hb Hp), get_uint32_encode by done. opt.
  rewrite <- (advance_moved ab pre _ post) by done. by rewrite zlen_be_encode.
Qed.

Lemma accepts_uint64 v : is_u64 v -> Accepts read_uint64 (be_encode 8 v) v.
Proof.
  intros Hv ab pre post Hb Hp Hn Hl. unfold read_uint64. rewrite (at_pos_app _ _ _ Hb Hp), get_uint64_encode by done. opt.
  rewrite <- (advance_moved ab pre _ post) by done. by rewrite zlen_be_encode.
Qed.

Lemma accepts_bind {A B} (op1 : attr_buffer -> option (A * attr_buffer)) (op2 : A -> attr_buffer -> option (B * attr_buffer)) e1 e2 v1 v2 :
  Accepts op1 e1 v1 -> Accepts (op2 v1) e2 v2 -> Accepts (fun ab => let? r := op1 ab in op2 r.1 r.2) (e1 ++ e2) v2.
Proof.
  intros H1 H2 ab pre post Hb Hp Hn Hl. rewrite zlen_app in Hl. pose proof (zlen_nonneg e1). pose proof (zlen_nonneg e2).
  rewrite (H1 ab pre (e2 ++ post)); [opt; cbn [fst snd] | by rewrite Hb, <- app_assoc | done | done | lia].
  rewrite (H2 _ (pre ++ e1) post); cbn [moved set_cursor ab_buffer ab_pos ab_left].
  - f_equal. f_equal. fold (moved ab (ab_buffer ab) (zlen e1)). by rewrite moved_moved, zlen_app.
  - by rewrite Hb, <- !app_assoc.
  - rewrite zlen_app. lia.
  - done.
  - rewrite sgn_small; lia.
Qed.

Lemma accepts_ret {A} (v : A) : Accepts (fun ab => Some (v, ab)) [] v.
Proof.
  intros ab pre post Hb Hp Hn Hl. unfold moved, set_cursor. do 2 f_equal. rewrite (zlen_nil (A := Z)), Z.add_0_r, Z.sub_0_r in *.
  rewrite sgn_small by lia. by destruct ab.
Qed.

(** A string of the message, as the functions that read names use it. *)
Definition read_data (ab : attr_buffer) : option (bytes * attr_buffer) :=
  let? r := read_string ab SSH_STRING_INIT in
  let '(_, s, _, ab) := r in
  let? d := if s_len s =? 0 then Some [] else s_data s in Some (d, ab).

Lemma accepts_data d : zlen d < 2 ^ 31 -> Accepts read_data (be_encode 4 (zlen d) ++ d) d.
Proof.
  intros Hd ab pre post Hb Hp Hn Hl. pose proof (zlen_nonneg d). unfold read_data, read_string. rewrite zlen_app, zlen_be_encode in Hl.
  assert (Accepts read_uint32 (be_encode 4 (zlen d)) (zlen d)) as Ha by (apply accepts_uint32; unfold is_u32; lia).
  rewrite (Ha ab pre (d ++ post)); [opt | by rewrite Hb, <- app_assoc | done | done | rewrite zlen_be_encode; lia].
  rewrite zlen_be_encode. cbn [moved set_cursor ab_left ab_pos ab_buffer s_len set_len SSH_STRING_INIT].
  rewrite sgn_small, u32_id by (unfold is_u32; lia).
  assert (ab_buffer (moved ab (ab_buffer ab) (Z.of_nat 4)) = (pre ++ be_encode 4 (zlen d)) ++ d ++ post) as Hb1 by (cbn; by rewrite Hb, <- !app_assoc).
  assert (ab_pos (moved ab (ab_buffer ab) (Z.of_nat 4)) = zlen (pre ++ be_encode 4 (zlen d))) as Hp1 by (cbn [moved set_cursor ab_pos]; rewrite zlen_app, zlen_be_encode; lia).
  destruct (Z.ltb_spec 0 (zlen d)); cbn [andb].
  - rewrite (proj2 (Z.leb_le _ _)) by lia. rewrite (proj2 (Z.leb_le _ _)).
    + cbn [mbind option_bind]. cbn [s_len set_ptr set_len]. rewrite (proj2 (Z.eqb_neq _ _)) by lia.
      unfold s_data. cbn [s_view s_ptr set_ptr s_len set_len]. opt. fold (set_cursor ab (ab_buffer ab) (ab_pos ab + Z.of_nat 4) (sgn 32 (ab_left ab - Z.of_nat 4))).
      fold (moved ab (ab_buffer ab) (Z.of_nat 4)). rewrite (at_pos_app _ _ _ Hb1 Hp1), mem_read_Some by (rewrite ?zlen_app; pose proof (zlen_nonneg post); lia).
      opt. rewrite (advance_moved _ _ d post Hb1 Hp1) by done. f_equal. f_equal.
      * change (drop (Z.to_nat 0) (d ++ post)) with (d ++ post). unfold zlen. by rewrite Nat2Z.id, take_app_length.
      * rewrite moved_moved. rewrite zlen_app, zlen_be_encode. done.
    + rewrite Hb, !zlen_app, zlen_be_encode, Hp. pose proof (zlen_nonneg post). lia.
  - assert (d = []) as -> by (destruct d; [done | rewrite zlen_cons in *; pose proof (zlen_nonneg d); lia]).
    cbn [mbind option_bind s_len set_len Z.eqb zlen length Z.of_nat]. opt. by rewrite app_nil_r, zlen_be_encode.
Qed.

(** ** Sequences of fields *)

Inductive field := FUchar (v : Z) | FUint16 (v : Z) | FUint32 (v : Z) | FUint64 (v : Z) | FString (d : bytes).
Inductive kind := KUchar | KUint16 | KUint32 | KUint64 | KString.

Definition kind_of (f : field) : kind :=
  match f with FUchar _ => KUchar | FUint16 _ => KUint16 | FUint32 _ => KUint32 | FUint64 _ => KUint64 | FString _ => KString end.

Definition wf_field (f : field) : Prop :=
  match f with FUchar v => is_u8 v | FUint16 v => is_u16 v | FUint32 v => is_u32 v | FUint64 v => is_u64 v | FString d => zlen d < 2 ^ 31 end.

Definition encode_field (f : field) : bytes :=
  match f with
  | FUchar v => [v]
  | FUint16 v => be_encode 2 v
  | FUint32 v => be_encode 4 v
  | FUint64 v => be_encode 8 v
  | FString d => be_encode 4 (zlen d) ++ d
  end.

Definition write_field (f : field) (ab : attr_buffer) : option attr_buffer :=
  match f with
  | FUchar v => ops_uchar ab v
  | FUint16 v => ops_uint16 ab v
  | FUint32 v => ops_uint32 ab v
  | FUint64 v => ops_uint64 ab v
  | FString d => write_string ab (mk_ssh_string 0 (zlen d) 0 (PMem d) [])
  end.

Fixpoint write_fields (fs : list field) (ab : attr_buffer) : option attr_buffer :=
  match fs with [] => Some ab | f :: fs => let? ab := write_field f ab in write_fields fs ab end.

Definition read_field (k : kind) (ab : attr_buffer) : option (field * attr_buffer) :=
  match k with
  | KUchar => let? r := read_uchar ab in Some (FUchar r.1, r.2)
  | KUint16 => let? r := read_uint16 ab in Some (FUint16 r.1, r.2)
  | KUint32 => let? r := read_uint32 ab in Some (FUint32 r.1, r.2)
  | KUint64 => let? r := read_uint64 ab in Some (FUint64 r.1, r.2)
  | KString => let? r := read_data ab in Some (FString r.1, r.2)
  end.

Fixpoint read_fields (ks : list kind) (ab : attr_buffer) : option (list field * attr_buffer) :=
  match ks with
  | [] => Some ([], ab)
  | k :: ks => let? r := read_field k ab in let? q := read_fields ks r.2 in Some (r.1 :: q.1, q.2)
  end.

Lemma emits_field f : wf_field f -> Emits (write_field f) (encode_field f).
Proof.
  destruct f as [v|v|v|v|d]; cbn [write_field encode_field wf_field]; intros Hw.
  - replace [v] with [u8 v]; [apply emits_uchar |]. unfold u8, is_u8 in *. by rewrite Z.mod_small.
  - apply emits_uint16.
  - apply emits_uint32.
  - apply emits_uint64.
  - apply (emits_string (mk_ssh_string 0 (zlen d) 0 (PMem d) [])); [| done]. unfold s_data. cbn [s_view s_ptr s_len]. opt.
    rewrite mem_read_Some by (pose proof (zlen_nonneg d); lia). f_equal. unfold zlen. rewrite Nat2Z.id. cbn. apply take_ge. done.
Qed.

Lemma emits_fields fs : Forall wf_field fs -> Emits (write_fields fs) (concat (encode_field <$> fs)).
Proof.
  induction 1 as [|f fs Hf _ IH]; [apply emits_some |]. cbn [fmap list_fmap concat]. apply (emits_bind (write_field f) (write_fields fs)); [by apply emits_field | done].
Qed.

Lemma accepts_map {A B} (g : A -> B) (op : attr_buffer -> option (A * attr_buffer)) enc v :
  Accepts op enc v -> Accepts (fun ab => let? r := op ab in Some (g r.1, r.2)) enc (g v).
Proof. intros H ab pre post Hb Hp Hn Hl. by rewrite (H ab pre post). Qed.

Lemma accepts_field f : wf_field f -> Accepts (read_field (kind_of f)) (encode_field f) f.
Proof.
  destruct f as [v|v|v|v|d]; cbn [wf_field kind_of encode_field]; intros Hw.
  - apply (accepts_map FUchar), accepts_uchar.
  - by apply (accepts_map FUint16), accepts_uint16.
  - by apply (accepts_map FUint32), accepts_uint32.
  - by apply (accepts_map FUint64), accepts_uint64.
  - by apply (accepts_map FString), accepts_data.
Qed.

Lemma accepts_fields fs : Forall wf_field fs -> Accepts (read_fields (kind_of <$> fs)) (concat (encode_field <$> fs)) fs.
Proof.
  induction 1 as [|f fs Hf _ IH]; [apply accepts_ret |]. cbn [fmap list_fmap concat read_fields].
  eapply (accepts_bind (read_field (kind_of f)) (fun v ab => let? q := read_fields (kind_of <$> fs) ab in Some (v :: q.1, q.2))); [by apply accepts_field |].
  by apply (accepts_map (cons f)).
Qed.

(** Reading what a writing pass left in a buffer. *)
Lemma accepts_whole {A} (op : attr_buffer -> option (A * attr_buffer)) enc v ab0 : Accepts op enc v -> zlen enc < 2 ^ 31 ->
  exists r, op (set_attr_buffer_read ab0 enc (zlen enc)) = Some (v, r) /\ ab_pos r = zlen enc /\ ab_left r = 0.
Proof.
  intros Ha Hn. pose proof (zlen_nonneg enc). eexists. split.
  - apply (Ha _ [] []); cbn [set_attr_buffer_read ab_buffer ab_pos ab_left]; [by rewrite app_nil_r | done | lia |]. rewrite sgn_small; lia.
  - cbn [moved set_cursor set_attr_buffer_read ab_pos ab_left]. rewrite !sgn_small by (rewrite ?sgn_small; lia). lia.
Qed.

(** for every sequence of fields the counting table gives the exact size, the
    writing table fills a buffer of that size to the end without an access beyond
    it, and the reading table reads the same fields back and leaves nothing. *)
Theorem attr_fields_roundtrip (fs : list field) (buffer : bytes) (ab0 : attr_buffer) :
  Forall wf_field fs -> zlen (concat (encode_field <$> fs)) < 2 ^ 31 -> zlen buffer = zlen (concat (encode_field <$> fs)) ->
  exists n w r, write_fields fs init_nowrite_attr_buffer = Some n /\
    write_fields fs (set_attr_buffer_write ab0 buffer (ab_pos n)) = Some w /\ ab_left w = 0 /\
    read_fields (kind_of <$> fs) (set_attr_buffer_read ab0 (ab_buffer w) (ab_pos w)) = Some (fs, r) /\ ab_left r = 0.
Proof.
  intros Hf Hn Hb. destruct (emits_two_pass _ _ buffer ab0 (emits_fields fs Hf) Hn Hb) as (n & w & Hc & _ & Hw & Ebuf & Epos & Eleft).
  destruct (accepts_whole _ _ _ ab0 (accepts_fields fs Hf) Hn) as (r & Hr & _ & Hleft).
  exists n, w, r. by rewrite Ebuf, Epos.
Qed.

Definition ex_fields : list field := [FUchar 1; FUint32 70000; FUint64 5; FString [104; 105]; FUint16 513].

Lemma attr_fields_roundtrip_witness :
  exists n w r, write_fields ex_fields init_nowrite_attr_buffer = Some n /\
    write_fields ex_fields (set_attr_buffer_write init_read_attr_buffer (repeat 0 21) (ab_pos n)) = Some w /\ ab_left w = 0 /\
    read_fields (kind_of <$> ex_fields) (set_attr_buffer_read init_read_attr_buffer (ab_buffer w) (ab_pos w)) = Some (ex_fields, r) /\ ab_left r = 0.
Proof. apply (attr_fields_roundtrip ex_fields (repeat 0 21)); [repeat (constructor; [by vm_compute |]); constructor | reflexivity | reflexivity]. Defined.

(** [read_int64] is undefined on every buffer: it shifts [int] values by 32
    bits and more. *)
Theorem read_int64_undefined (ab : attr_buffer) : read_int64 ab = None.
Proof. unfold read_int64. by repeat case_match. Qed.

(** the test of [read_string] is no test once [left] is negative. A message of
    two bytes, in a larger buffer, is read as a string of 256 bytes that lie
    outside it. *)
Theorem read_string_ignores_end (rest : bytes) (ab0 : attr_buffer) : 256 <= zlen rest ->
  exists s ab, read_string (set_attr_buffer_read ab0 (0 :: 0 :: 1 :: 0 :: rest) 2) SSH_STRING_INIT = Some (260, s, true, ab) /\
    s_data s = Some (take 256 rest) /\ ab_left ab = -258.
Proof.
  intros Hr. unfold read_string.
  assert (read_uint32 (set_attr_buffer_read ab0 (0 :: 0 :: 1 :: 0 :: rest) 2) =
          Some (256, mk_ab ATTR_BUFFER_FLAG_READ (0 :: 0 :: 1 :: 0 :: rest) 4 (-2) 2 0 AbRead)) as -> by reflexivity.
  opt. cbn [ab_left ab_pos ab_buffer]. change ((0 <? 256) && (256 <=? u32 (-2))) with true. cbn match.
  rewrite !zlen_cons. rewrite (proj2 (Z.leb_le 4 _)) by lia. eexists _, _. split; [reflexivity |]. split; [| reflexivity].
  unfold s_data. cbn [s_view s_ptr set_ptr s_len set_len]. opt. unfold at_pos. cbn [set_cursor ab_pos ab_buffer].
  change (Z.to_nat 4) with 4%nat. cbn [drop]. rewrite drop_0, mem_read_Some by lia. done.
Qed.

Lemma read_string_ignores_end_witness :
  exists s ab, read_string (set_attr_buffer_read init_read_attr_buffer (0 :: 0 :: 1 :: 0 :: repeat 7 300) 2) SSH_STRING_INIT = Some (260, s, true, ab) /\
    s_data s = Some (take 256 (repeat 7 300)) /\ ab_left ab = -258.
Proof. apply (read_string_ignores_end (repeat 7 300)). by vm_compute. Defined.

End AttrBuffer.
