(* ===== verification/SystemStat.v ===== *)
(** * lib/system/stat.c: the attributes of a file

    The variant for systems with [statx]: a [struct system_stat_s] holds a
    [struct statx] and a mask of the attributes that were set.  The system calls
    themselves ([system_getstat] and the like) are not part of the model. *)

From stdpp Require Import base numbers option.
From S2P Require Import Prelude.

Module SystemStat.

Definition SYSTEM_STAT_TYPE := 1.      (* STATX_TYPE .. STATX_BTIME *)
Definition SYSTEM_STAT_MODE := 2.
Definition SYSTEM_STAT_NLINK := 4.
Definition SYSTEM_STAT_UID := 8.
Definition SYSTEM_STAT_GID := 16.
Definition SYSTEM_STAT_ATIME := 32.
Definition SYSTEM_STAT_MTIME := 64.
Definition SYSTEM_STAT_CTIME := 128.
Definition SYSTEM_STAT_SIZE := 512.
Definition SYSTEM_STAT_BTIME := 2048.

Definition S_IFMT := 61440.            (* 0170000 *)
Definition S_IRWXALL := 511.           (* S_IRWXU | S_IRWXG | S_IRWXO = 0777 *)

Record timespec := mk_time { st_sec : Z (* int64_t *); st_nsec : Z (* uint32_t *) }.
Definition SYSTEM_TIME_INIT : timespec := mk_time 0 0.

Record system_stat := mk_stat {
  sst_mask : Z;
  sst_mode : Z;          (* uint16_t *)
  sst_nlink : Z;         (* uint32_t, as uid and gid *)
  sst_uid : Z;
  sst_gid : Z;
  sst_size : Z;          (* uint64_t, as ino *)
  sst_ino : Z;
  sst_atime : timespec;
  sst_mtime : timespec;
  sst_ctime : timespec;
  sst_btime : timespec
}.

(** ** Reading a field *)

Definition get_ino_system_stat (s : system_stat) : Z := sst_ino s.
Definition get_type_system_stat (s : system_stat) : Z := Z.land (sst_mode s) S_IFMT.
Definition get_mode_system_stat (s : system_stat) : Z := u16 (Z.land (sst_mode s) (Z.lnot S_IFMT)).
Definition get_nlink_system_stat (s : system_stat) : Z := sst_nlink s.
Definition get_uid_system_stat (s : system_stat) : Z := sst_uid s.
Definition get_gid_system_stat (s : system_stat) : Z := sst_gid s.
Definition get_size_system_stat (s : system_stat) : Z := sgn 64 (sst_size s).     (* off_t *)
Definition get_atime_system_stat (s : system_stat) : timespec := sst_atime s.
Definition get_mtime_system_stat (s : system_stat) : timespec := sst_mtime s.
Definition get_ctime_system_stat (s : system_stat) : timespec := sst_ctime s.
Definition get_btime_system_stat (s : system_stat) : timespec := sst_btime s.

(** ** Setting a field *)

Definition with_mode (s : system_stat) (m mask : Z) : system_stat :=
  mk_stat (Z.lor (sst_mask s) mask) m (sst_nlink s) (sst_uid s) (sst_gid s) (sst_size s) (sst_ino s) (sst_atime s) (sst_mtime s) (sst_ctime s) (sst_btime s).

Definition set_type_system_stat (s : system_stat) (type : Z) : system_stat :=
  let perm := u16 (Z.land (sst_mode s) (Z.lnot S_IFMT)) in
  with_mode s (Z.lor (Z.land type S_IFMT) perm) SYSTEM_STAT_TYPE.

Definition set_mode_system_stat (s : system_stat) (mode : Z) : system_stat :=
  let type := Z.land (sst_mode s) S_IFMT in
  with_mode s (u16 (Z.lor type (Z.land mode (Z.lnot S_IFMT)))) SYSTEM_STAT_MODE.

Definition set_nlink_system_stat (s : system_stat) (nlink : Z) : system_stat :=
  mk_stat (Z.lor (sst_mask s) SYSTEM_STAT_NLINK) (sst_mode s) nlink (sst_uid s) (sst_gid s) (sst_size s) (sst_ino s) (sst_atime s) (sst_mtime s) (sst_ctime s) (sst_btime s).

(** The comparison converts [count] to unsigned. *)
Definition increase_nlink_system_stat (s : system_stat) (count : Z) : system_stat :=
  mk_stat (sst_mask s) (sst_mode s) (u32 (sst_nlink s + count)) (sst_uid s) (sst_gid s) (sst_size s) (sst_ino s) (sst_atime s) (sst_mtime s) (sst_ctime s) (sst_btime s).
Definition decrease_nlink_system_stat (s : system_stat) (count : Z) : system_stat :=
  let n := if sst_nlink s <? u32 count then 0 else u32 (sst_nlink s - count) in
  mk_stat (sst_mask s) (sst_mode s) n (sst_uid s) (sst_gid s) (sst_size s) (sst_ino s) (sst_atime s) (sst_mtime s) (sst_ctime s) (sst_btime s).

Definition set_uid_system_stat (s : system_stat) (uid : Z) : system_stat :=
  mk_stat (Z.lor (sst_mask s) SYSTEM_STAT_UID) (sst_mode s) (sst_nlink s) uid (sst_gid s) (sst_size s) (sst_ino s) (sst_atime s) (sst_mtime s) (sst_ctime s) (sst_btime s).
Definition set_gid_system_stat (s : system_stat) (gid : Z) : system_stat :=
  mk_stat (Z.lor (sst_mask s) SYSTEM_STAT_GID) (sst_mode s) (sst_nlink s) (sst_uid s) gid (sst_size s) (sst_ino s) (sst_atime s) (sst_mtime s) (sst_ctime s) (sst_btime s).

(** [size] is an [off_t]. *)
Definition set_size_system_stat (s : system_stat) (size : Z) : system_stat :=
  mk_stat (Z.lor (sst_mask s) SYSTEM_STAT_SIZE) (sst_mode s) (sst_nlink s) (sst_uid s) (sst_gid s) (u64 size) (sst_ino s) (sst_atime s) (sst_mtime s) (sst_ctime s) (sst_btime s).
Definition set_atime_system_stat (s : system_stat) (t : timespec) : system_stat :=
  mk_stat (Z.lor (sst_mask s) SYSTEM_STAT_ATIME) (sst_mode s) (sst_nlink s) (sst_uid s) (sst_gid s) (sst_size s) (sst_ino s) t (sst_mtime s) (sst_ctime s) (sst_btime s).
Definition set_mtime_system_stat (s : system_stat) (t : timespec) : system_stat :=
  mk_stat (Z.lor (sst_mask s) SYSTEM_STAT_MTIME) (sst_mode s) (sst_nlink s) (sst_uid s) (sst_gid s) (sst_size s) (sst_ino s) (sst_atime s) t (sst_ctime s) (sst_btime s).
Definition set_ctime_system_stat (s : system_stat) (t : timespec) : system_stat :=
  mk_stat (Z.lor (sst_mask s) SYSTEM_STAT_CTIME) (sst_mode s) (sst_nlink s) (sst_uid s) (sst_gid s) (sst_size s) (sst_ino s) (sst_atime s) (sst_mtime s) t (sst_btime s).
Definition set_btime_system_stat (s : system_stat) (t : timespec) : system_stat :=
  mk_stat (Z.lor (sst_mask s) SYSTEM_STAT_BTIME) (sst_mode s) (sst_nlink s) (sst_uid s) (sst_gid s) (sst_size s) (sst_ino s) (sst_atime s) (sst_mtime s) (sst_ctime s) t.

(** The parts of the times; the bits of the mask are left alone when one is set. *)
Definition get_atime_sec_system_stat (s : system_stat) : Z := st_sec (sst_atime s).
Definition get_atime_nsec_system_stat (s : system_stat) : Z := st_nsec (sst_atime s).
Definition get_mtime_sec_system_stat (s : system_stat) : Z := st_sec (sst_mtime s).
Definition get_mtime_nsec_system_stat (s : system_stat) : Z := st_nsec (sst_mtime s).
Definition get_ctime_sec_system_stat (s : system_stat) : Z := st_sec (sst_ctime s).
Definition get_ctime_nsec_system_stat (s : system_stat) : Z := st_nsec (sst_ctime s).
Definition get_btime_sec_system_stat (s : system_stat) : Z := st_sec (sst_btime s).
Definition get_btime_nsec_system_stat (s : system_stat) : Z := st_nsec (sst_btime s).

Definition with_times (s : system_stat) (a m c b : timespec) : system_stat :=
  mk_stat (sst_mask s) (sst_mode s) (sst_nlink s) (sst_uid s) (sst_gid s) (sst_size s) (sst_ino s) a m c b.

Definition set_atime_sec_system_stat (s : system_stat) (sec : Z) : system_stat := with_times s (mk_time sec (st_nsec (sst_atime s))) (sst_mtime s) (sst_ctime s) (sst_btime s).
Definition set_atime_nsec_system_stat (s : system_stat) (nsec : Z) : system_stat := with_times s (mk_time (st_sec (sst_atime s)) nsec) (sst_mtime s) (sst_ctime s) (sst_btime s).
Definition set_mtime_sec_system_stat (s : system_stat) (sec : Z) : system_stat := with_times s (sst_atime s) (mk_time sec (st_nsec (sst_mtime s))) (sst_ctime s) (sst_btime s).
Definition set_mtime_nsec_system_stat (s : system_stat) (nsec : Z) : system_stat := with_times s (sst_atime s) (mk_time (st_sec (sst_mtime s)) nsec) (sst_ctime s) (sst_btime s).
Definition set_ctime_sec_system_stat (s : system_stat) (sec : Z) : system_stat := with_times s (sst_atime s) (sst_mtime s) (mk_time sec (st_nsec (sst_ctime s))) (sst_btime s).
Definition set_ctime_nsec_system_stat (s : system_stat) (nsec : Z) : system_stat := with_times s (sst_atime s) (sst_mtime s) (mk_time (st_sec (sst_ctime s)) nsec) (sst_btime s).
Definition set_btime_sec_system_stat (s : system_stat) (sec : Z) : system_stat := with_times s (sst_atime s) (sst_mtime s) (sst_ctime s) (mk_time sec (st_nsec (sst_btime s))).
Definition set_btime_nsec_system_stat (s : system_stat) (nsec : Z) : system_stat := with_times s (sst_atime s) (sst_mtime s) (sst_ctime s) (mk_time (st_sec (sst_btime s)) nsec).

(** ** Type and permissions share a word *)

(** The values the fields can have. *)
Definition wf_stat (s : system_stat) : Prop :=
  is_u16 (sst_mode s) /\ is_u32 (sst_uid s) /\ is_u32 (sst_gid s) /\ is_u64 (sst_size s).

(** A word of 16 bits is its four bits of the type and its twelve others. *)
Lemma mode_split m : is_u16 m -> 0 <= m / 4096 < 16 /\ 0 <= m mod 4096 < 4096 /\ m = 4096 * (m / 4096) + m mod 4096.
Proof.
  unfold is_u16. intros Hm. split_and!; [apply Z.div_pos; lia | apply Z.div_lt_upper_bound; lia | apply Z.mod_pos_bound; lia.. | apply Z.div_mod; lia].
Qed.

Lemma land_ifmt m : Z.land m S_IFMT = 4096 * ((m / 4096) mod 16).
Proof.
  replace (4096 * ((m / 4096) mod 16)) with (Z.shiftl (Z.land (Z.shiftr m 12) (Z.ones 4)) 12).
  2: { rewrite Z.shiftl_mul_pow2, Z.land_ones, Z.shiftr_div_pow2 by lia. change (2 ^ 12) with 4096. change (2 ^ 4) with 16. lia. }
  change S_IFMT with (Z.shiftl (Z.ones 4) 12).
  apply Z.bits_inj'. intros n Hn. rewrite Z.land_spec, !Z.shiftl_spec by lia. destruct (Z.lt_ge_cases n 12).
  - rewrite !(Z.testbit_neg_r _ (n - 12)) by lia. apply andb_false_r.
  - rewrite Z.land_spec, Z.shiftr_spec by lia. do 2 f_equal. lia.
Qed.

Lemma land_not_ifmt m : is_u16 m -> Z.land m (Z.lnot S_IFMT) = m mod 4096.
Proof.
  intros Hm. rewrite <- Z.ldiff_land. change 4096 with (2 ^ 12). rewrite <- Z.land_ones by lia. apply Z.bits_inj'. intros n Hn.
  rewrite Z.ldiff_spec, Z.land_spec, Z.testbit_ones_nonneg by lia. change S_IFMT with (Z.shiftl (Z.ones 4) 12). rewrite Z.shiftl_spec by lia.
  destruct (Z.ltb_spec n 12).
  - rewrite (Z.testbit_neg_r _ (n - 12)) by lia. done.
  - rewrite Z.testbit_ones_nonneg by lia. destruct (Z.ltb_spec (n - 12) 4); [done |]. unfold is_u16 in Hm.
    replace (Z.testbit m n) with false; [done |]. symmetry. apply (Z.bits_above_log2 m n); [lia |].
    destruct (Z.eq_dec m 0) as [-> |]; [cbn; lia |]. apply Z.log2_lt_pow2; [lia |]. apply (Z.lt_le_trans _ (2 ^ 16)); [lia |]. apply Z.pow_le_mono_r; lia.
Qed.

Lemma lor_type_perm t p : 0 <= t < 16 -> 0 <= p < 4096 -> Z.lor (4096 * t) p = 4096 * t + p.
Proof.
  intros Ht Hp. rewrite Z.mul_comm. change 4096 with (2 ^ 12) at 1. rewrite <- Z.shiftl_mul_pow2 by lia.
  rewrite lor_shiftl_add by lia. change (2 ^ 12) with 4096. lia.
Qed.

Lemma get_type_value s : is_u16 (sst_mode s) -> get_type_system_stat s = 4096 * (sst_mode s / 4096).
Proof. intros H. unfold get_type_system_stat. rewrite land_ifmt, Z.mod_small; [done |]. apply mode_split, H. Qed.

Lemma get_mode_value s : is_u16 (sst_mode s) -> get_mode_system_stat s = sst_mode s mod 4096.
Proof.
  intros H. unfold get_mode_system_stat, u16. rewrite land_not_ifmt by done. apply Z.mod_small. pose proof (mode_split _ H). lia.
Qed.

(** [set_type_system_stat] and [set_mode_system_stat] each replace their part of
    the word and leave the other. *)
Lemma set_type_value s type : is_u16 (sst_mode s) -> is_u16 type -> sst_mode (set_type_system_stat s type) = 4096 * (type / 4096) + sst_mode s mod 4096.
Proof.
  intros Hs Ht. cbn. rewrite land_ifmt, land_not_ifmt by done. pose proof (mode_split _ Hs). pose proof (mode_split _ Ht).
  unfold u16. rewrite !Z.mod_small by lia. apply lor_type_perm; lia.
Qed.

Lemma set_mode_value s mode : is_u16 (sst_mode s) -> is_u16 mode -> sst_mode (set_mode_system_stat s mode) = 4096 * (sst_mode s / 4096) + mode mod 4096.
Proof.
  intros Hs Hm. cbn. rewrite land_ifmt, land_not_ifmt by done. pose proof (mode_split _ Hs). pose proof (mode_split _ Hm).
  rewrite (Z.mod_small (sst_mode s / 4096)) by lia. rewrite lor_type_perm by lia. unfold u16. apply Z.mod_small. lia.
Qed.

End SystemStat.
