(* ===== verification/SftpAttr.v ===== *)
(** * lib/sftp: reading and writing file attributes

    [rw-attr-generic.c], [attr-context.c] and the callbacks of version 3 of the
    protocol ([attr/init-attr-v03.c], [read-attr-v03.c], [write-attr-v03.c]).
    The attributes of a message are parsed in a fixed order by
    [parse_attributes_v03]; the order for a set of valid bits is kept in a hash
    table, and used instead when it is found there.  The id mapping, a table of
    callbacks in the source, is a parameter; the rows of the hash table are lists
    in the order of lib/list. *)

From stdpp Require Import strings base list list_numbers numbers option.
From S2P Require Import Prelude SshUint SshString NameList AttrBuffer SystemStat.
Import SshUint SshString NameList AttrBuffer SystemStat.

Module SftpAttr.

Definition SSH_FILEXFER_INDEX_SIZE : nat := 0.
Definition SSH_FILEXFER_INDEX_UIDGID : nat := 1.
Definition SSH_FILEXFER_INDEX_PERMISSIONS : nat := 2.
Definition SSH_FILEXFER_INDEX_ACMODTIME : nat := 3.
Definition SSH_FILEXFER_INDEX_EXTENDED : nat := 31.

Definition SSH_FILEXFER_ATTR_SIZE := 1.
Definition SSH_FILEXFER_ATTR_UIDGID := 2.
Definition SSH_FILEXFER_ATTR_PERMISSIONS := 4.
Definition SSH_FILEXFER_ATTR_ACMODTIME := 8.
Definition SSH_FILEXFER_ATTR_SUBSECOND_TIMES := 256.
Definition SSH_FILEXFER_ATTR_EXTENDED := 2 ^ 31.

Definition FATTR_MODE := 1.
Definition FATTR_UID := 2.
Definition FATTR_GID := 4.
Definition FATTR_SIZE := 8.
Definition FATTR_ATIME := 16.
Definition FATTR_MTIME := 32.

Definition RW_ATTR_RESULT_FLAG_READ := 1.
Definition RW_ATTR_RESULT_FLAG_WRITE := 2.
Definition RW_ATTR_RESULT_FLAG_CACHED := 4.

Definition HASH_ATTRCB_TABLE_SIZE := 17.
Definition ATTR_CONTEXT_COUNT_ATTR_CB : nat := 37.

Record sftp_valid := mk_valid { v_flags : Z; v_mask : Z }.

#[export] Instance sftp_valid_eq_dec : EqDecision sftp_valid.
Proof. solve_decision. Defined.

Record rw_attr_result := mk_result {
  r_flags : Z;
  r_valid : sftp_valid;
  r_todo : Z;
  r_done : Z;
  r_ignored : Z;
  r_stat_mask : Z
}.

Definition RW_ATTR_RESULT_INIT : rw_attr_result := mk_result 0 (mk_valid 0 0) 0 0 0 0.

(** A callback gets the buffer and the attributes of the file. *)
Definition rw_attr_cb := attr_buffer -> system_stat -> option (attr_buffer * system_stat).

Record rw_attrcb := mk_attrcb {
  cb_code : Z;
  cb_stat_mask : Z;
  cb_r_cb : option rw_attr_cb;       (* None: NULL *)
  cb_w_cb : option rw_attr_cb;
  cb_maxlength : Z;
  cb_fattr : Z                       (* FATTR bits of fuse *)
}.

Record hashed_attrcb := mk_hashed {
  h_valid : sftp_valid;
  h_version : Z;
  h_len : Z;
  h_stat_mask : Z;
  h_cb : list nat                    (* cb[0] .. cb[count - 1] *)
}.

(** [header_attrcbs]: the rows, each in the order of its list. *)
Abbreviation attr_cache := (list (list hashed_attrcb)).

(** The id mapping of the context: the two directions for users and groups. *)
Record idmapping := mk_mapping {
  user_p2l : Z -> Z;
  user_l2p : Z -> Z;
  group_p2l : Z -> Z;
  group_l2p : Z -> Z
}.

(** What the callbacks of [parse_attribute] see: the buffer, the result, the
    attributes, and the struct behind [r->ptr]: its array of indices, or the calls
    it passed on, and its number. *)
Record pstate := mk_pstate {
  ps_ab : attr_buffer;
  ps_r : rw_attr_result;
  ps_stat : system_stat;
  ps_cb : list nat;
  ps_len : Z
}.

Definition set_r (s : pstate) (r : rw_attr_result) : pstate := mk_pstate (ps_ab s) r (ps_stat s) (ps_cb s) (ps_len s).
Definition set_io (s : pstate) (ab : attr_buffer) (st : system_stat) : pstate := mk_pstate ab (ps_r s) st (ps_cb s) (ps_len s).

Definition parse_cb := pstate -> nat -> option pstate.

Record attr_context := mk_context {
  ac_version : Z;
  ac_w_valid : sftp_valid;
  ac_w_count : Z;
  ac_r_valid : sftp_valid;
  ac_r_count : Z;
  ac_attrcb : list rw_attrcb;
  ac_parse_attributes : parse_cb -> pstate -> option pstate
}.

(** ** Version 3: writing *)

Section V03.
Context (map : idmapping).

(** [rw_attr_cb_zero], [read_attr_zero] and [write_attr_zero]. *)
Definition rw_attr_cb_zero : rw_attr_cb := fun ab st => Some (ab, st).

Definition write_attr_size_v03 : rw_attr_cb := fun ab st =>
  let? ab := ops_uint64 ab (u64 (get_size_system_stat st)) in Some (ab, st).

Definition write_attr_uidgid_v03 : rw_attr_cb := fun ab st =>
  let? ab := ops_uint32 ab (user_l2p map (get_uid_system_stat st)) in
  let? ab := ops_uint32 ab (group_l2p map (get_gid_system_stat st)) in Some (ab, st).

Definition write_attr_permissions_v03 : rw_attr_cb := fun ab st =>
  let perm := Z.land (get_mode_system_stat st) S_IRWXALL in
  let type := get_type_system_stat st in
  let? ab := ops_uint32 ab (Z.lor perm type) in Some (ab, st).

Definition write_attr_acmodtime_v03 : rw_attr_cb := fun ab st =>
  let? ab := ops_uint32 ab (u32 (st_sec (get_atime_system_stat st))) in
  let? ab := ops_uint32 ab (u32 (st_sec (get_mtime_system_stat st))) in Some (ab, st).

Definition write_name_name_response_v03 (ab : attr_buffer) (name : ssh_string) : option attr_buffer :=
  let? ab := ops_uint32 ab 0 in write_string ab name.

(** ** Version 3: reading *)

Definition read_attr_size_v03 : rw_attr_cb := fun ab st =>
  let? r := read_uint64 ab in Some (r.2, set_size_system_stat st (sgn 64 r.1)).

Definition read_attr_uidgid_v03 : rw_attr_cb := fun ab st =>
  let? r := read_uint32 ab in
  let st := set_uid_system_stat st (user_p2l map r.1) in
  let? r := read_uint32 r.2 in
  Some (r.2, set_gid_system_stat st (group_p2l map r.1)).

Definition read_attr_permissions_v03 : rw_attr_cb := fun ab st =>
  let? r := read_uint32 ab in
  let type := u16 (Z.land r.1 S_IFMT) in
  let perm := u16 (Z.land r.1 S_IRWXALL) in
  Some (r.2, set_mode_system_stat (set_type_system_stat st type) perm).

Definition read_attr_acmodtime_v03 : rw_attr_cb := fun ab st =>
  let? r := read_uint32 ab in
  let st := set_atime_system_stat st (mk_time r.1 0) in
  let? r := read_uint32 r.2 in
  Some (r.2, set_mtime_system_stat st (mk_time r.1 0)).

(** The loop over the [count] pairs of an extended attribute. *)
Fixpoint read_extensions (count : nat) (ab : attr_buffer) (name data : ssh_string) : option attr_buffer :=
  match count with
  | O => Some ab
  | S count =>
      let? r := read_string ab name in
      let '(_, name, _, ab) := r in
      let? r := read_string ab data in
      let '(_, data, _, ab) := r in
      read_extensions count ab name data
  end.

Definition read_attr_extensions_v03 : rw_attr_cb := fun ab st =>
  let? r := read_uint32 ab in
  let? ab := read_extensions (Z.to_nat r.1) r.2 SSH_STRING_INIT SSH_STRING_INIT in Some (ab, st).

Definition read_name_name_response_v03 (ab : attr_buffer) (name : ssh_string) : option (ssh_string * attr_buffer) :=
  let? r := read_string ab name in
  let '(_, name, _, ab) := r in
  let? r := read_string ab SSH_STRING_INIT in
  let '(_, _, _, ab) := r in Some (name, ab).

(** ** The context of version 3 *)

Definition attrcb_zero : rw_attrcb := mk_attrcb 0 0 (Some rw_attr_cb_zero) (Some rw_attr_cb_zero) 0 0.

(** [init_attrcb_zero (attrcb, count)] *)
Definition init_attrcb_zero (count : nat) : list rw_attrcb := replicate count attrcb_zero.

Definition attrcb_v03 : list rw_attrcb :=
  <[SSH_FILEXFER_INDEX_EXTENDED := mk_attrcb SSH_FILEXFER_ATTR_EXTENDED 0 (Some read_attr_extensions_v03) None 0 0]>
  (<[SSH_FILEXFER_INDEX_ACMODTIME := mk_attrcb SSH_FILEXFER_ATTR_ACMODTIME (Z.lor SYSTEM_STAT_ATIME SYSTEM_STAT_MTIME)
       (Some read_attr_acmodtime_v03) (Some write_attr_acmodtime_v03) 8 (Z.lor FATTR_ATIME FATTR_MTIME)]>
  (<[SSH_FILEXFER_INDEX_PERMISSIONS := mk_attrcb SSH_FILEXFER_ATTR_PERMISSIONS (Z.lor SYSTEM_STAT_MODE SYSTEM_STAT_TYPE)
       (Some read_attr_permissions_v03) (Some write_attr_permissions_v03) 4 FATTR_MODE]>
  (<[SSH_FILEXFER_INDEX_UIDGID := mk_attrcb SSH_FILEXFER_ATTR_UIDGID (Z.lor SYSTEM_STAT_UID SYSTEM_STAT_GID)
       (Some read_attr_uidgid_v03) (Some write_attr_uidgid_v03) 8 (Z.lor FATTR_UID FATTR_GID)]>
  (<[SSH_FILEXFER_INDEX_SIZE := mk_attrcb SSH_FILEXFER_ATTR_SIZE SYSTEM_STAT_SIZE
       (Some read_attr_size_v03) (Some write_attr_size_v03) 8 FATTR_SIZE]>
     (init_attrcb_zero ATTR_CONTEXT_COUNT_ATTR_CB))))).

(** One line of [parse_attributes_v03]. *)
Definition parse_one (f : parse_cb) (code : Z) (ctr : nat) (s : pstate) : option pstate :=
  if has (r_todo (ps_r s)) code then f s ctr else Some s.

Definition parse_attributes_v03 (f : parse_cb) (s : pstate) : option pstate :=
  let? s := parse_one f SSH_FILEXFER_ATTR_SIZE SSH_FILEXFER_INDEX_SIZE s in
  let? s := parse_one f SSH_FILEXFER_ATTR_UIDGID SSH_FILEXFER_INDEX_UIDGID s in
  let? s := parse_one f SSH_FILEXFER_ATTR_PERMISSIONS SSH_FILEXFER_INDEX_PERMISSIONS s in
  let? s := parse_one f SSH_FILEXFER_ATTR_ACMODTIME SSH_FILEXFER_INDEX_ACMODTIME s in
  parse_one f SSH_FILEXFER_ATTR_EXTENDED SSH_FILEXFER_INDEX_EXTENDED s.

Definition w_mask_v03 : Z :=
  Z.lor (Z.lor (Z.lor SSH_FILEXFER_ATTR_SIZE SSH_FILEXFER_ATTR_UIDGID) SSH_FILEXFER_ATTR_PERMISSIONS) SSH_FILEXFER_ATTR_ACMODTIME.

(** [init_attr_context_v03] with what [set_sftp_attr_context] sets for a version
    up to 3. *)
Definition init_attr_context_v03 (version : Z) : attr_context :=
  mk_context version (mk_valid 0 w_mask_v03) 4 (mk_valid 0 (Z.lor w_mask_v03 SSH_FILEXFER_ATTR_EXTENDED)) 5
    attrcb_v03 parse_attributes_v03.

(** [strcmp (name, literal) == 0] *)
Definition is_name (name : bytes) (literal : string) : option bool :=
  let? n := cstring name in Some (bool_decide (n = ((fun c => Z.of_nat (Ascii.nat_of_ascii c)) <$> String.list_ascii_of_string literal))).

Definition enable (p : sftp_valid) (code : Z) : Z * sftp_valid := (1, mk_valid (v_flags p) (Z.lor (v_mask p) code)).

Definition enable_attr_v03 (p : sftp_valid) (name : bytes) : option (Z * sftp_valid) :=
  let? (size : bool) := is_name name "size"%string in
  let? (permissions : bool) := is_name name "permissions"%string in
  let? (user : bool) := is_name name "user"%string in
  let? (group : bool) := is_name name "group"%string in
  let? (atime : bool) := is_name name "atime"%string in
  let? (mtime : bool) := is_name name "mtime"%string in
  let? (extended : bool) := is_name name "extended"%string in
  Some (if size then enable p SSH_FILEXFER_ATTR_SIZE
        else if permissions then enable p SSH_FILEXFER_ATTR_PERMISSIONS
        else if user || group then enable p SSH_FILEXFER_ATTR_UIDGID
        else if atime || mtime then enable p SSH_FILEXFER_ATTR_ACMODTIME
        else if extended then enable p SSH_FILEXFER_ATTR_EXTENDED
        else (0, p)).

Definition get_property_v03 (flag : Z) : Z := 0.

End V03.

(** ** The cache *)

Definition row_of (valid : sftp_valid) : nat := Z.to_nat (v_mask valid mod HASH_ATTRCB_TABLE_SIZE).

Definition same_key (valid : sftp_valid) (version : Z) (h : hashed_attrcb) : bool :=
  bool_decide (h_valid h = valid) && (h_version h =? version).

Definition lookup_hashed_attrcb (c : attr_cache) (valid : sftp_valid) (version : Z) : option (option hashed_attrcb) :=
  let? row := c !! row_of valid in Some (find (same_key valid version) row).

Definition add_attrcb_hashtable (c : attr_cache) (hcb : hashed_attrcb) : option attr_cache :=
  let? row := c !! row_of (h_valid hcb) in
  match find (same_key (h_valid hcb) (h_version hcb)) row with
  | Some _ => Some c                                          (* free (hcb) *)
  | None => Some (<[row_of (h_valid hcb) := hcb :: row]> c)
  end.

(** [mem]: the allocation succeeds. *)
Definition create_hashed_attrcb (mem : bool) (c : attr_cache) (version : Z) (valid : sftp_valid) (cb : list nat) (len stat_mask : Z) : option attr_cache :=
  if mem then add_attrcb_hashtable c (mk_hashed valid version len stat_mask cb) else Some c.

Definition init_hashattr_generic : attr_cache := replicate (Z.to_nat HASH_ATTRCB_TABLE_SIZE) [].

(** ** Parsing with or without the cache *)

(** The loop over [hcb->cb]. *)
Fixpoint run_cbs (f : parse_cb) (cbs : list nat) (s : pstate) : option pstate :=
  match cbs with [] => Some s | ctr :: cbs => let? s := f s ctr in run_cbs f cbs s end.

Definition parse_attributes_generic (actx : attr_context) (c : attr_cache) (f : parse_cb) (s : pstate) (valid : sftp_valid) : option pstate :=
  let r := ps_r s in
  let supported := if has (r_flags r) RW_ATTR_RESULT_FLAG_WRITE then ac_w_valid actx else ac_r_valid actx in
  let v := mk_valid (Z.land (v_flags valid) (v_flags supported)) (Z.land (v_mask valid) (v_mask supported)) in
  let r := mk_result (r_flags r) v (v_mask v) 0 (Z.ldiff (v_mask valid) (v_mask v)) (r_stat_mask r) in
  let? h := lookup_hashed_attrcb c v (ac_version actx) in
  match h with
  | Some hcb =>
      run_cbs f (h_cb hcb) (set_r s (mk_result (Z.lor (r_flags r) RW_ATTR_RESULT_FLAG_CACHED) (r_valid r) (r_todo r) (r_done r) (r_ignored r) (r_stat_mask r)))
  | None => ac_parse_attributes actx f (set_r s r)
  end.

(** [r->stat_mask |= stat_mask; r->done |= code; r->todo &= ~code]. *)
Definition mark (r : rw_attr_result) (e : rw_attrcb) : rw_attr_result :=
  mk_result (r_flags r) (r_valid r) (Z.ldiff (r_todo r) (cb_code e)) (Z.lor (r_done r) (cb_code e)) (r_ignored r) (Z.lor (r_stat_mask r) (cb_stat_mask e)).

(** [hlp->cb[hlp->index] = ctr; hlp->len += maxlength; hlp->index++]: the array
    has ATTR_CONTEXT_COUNT_ATTR_CB places. *)
Definition note_cb (s : pstate) (ctr : nat) (e : rw_attrcb) : option pstate :=
  if bool_decide (length (ps_cb s) < ATTR_CONTEXT_COUNT_ATTR_CB)%nat
  then Some (mk_pstate (ps_ab s) (mark (ps_r s) e) (ps_stat s) (ps_cb s ++ [ctr]) (u32 (ps_len s + cb_maxlength e))) else None.

Definition _attr_read_cb (actx : attr_context) : parse_cb := fun s ctr =>
  let? e := ac_attrcb actx !! ctr in
  let? s := note_cb s ctr e in
  let? cb := cb_r_cb e in
  let? q := cb (ps_ab s) (ps_stat s) in Some (set_io s q.1 q.2).

Definition _attr_write_cb (actx : attr_context) : parse_cb := fun s ctr =>
  let? e := ac_attrcb actx !! ctr in
  let s := set_r s (mark (ps_r s) e) in
  let? cb := cb_w_cb e in
  let? q := cb (ps_ab s) (ps_stat s) in Some (set_io s q.1 q.2).

Definition _prepare_write_cb (actx : attr_context) : parse_cb := fun s ctr =>
  let? e := ac_attrcb actx !! ctr in note_cb s ctr e.

Definition or_flag (r : rw_attr_result) (m : Z) : rw_attr_result :=
  mk_result (Z.lor (r_flags r) m) (r_valid r) (r_todo r) (r_done r) (r_ignored r) (r_stat_mask r).

(** The new entry of the cache at the end of reading or preparing. *)
Definition remember (mem : bool) (actx : attr_context) (c : attr_cache) (s : pstate) : option attr_cache :=
  if bool_decide (0 < length (ps_cb s))%nat && negb (has (r_flags (ps_r s)) RW_ATTR_RESULT_FLAG_CACHED)
  then create_hashed_attrcb mem c (ac_version actx) (r_valid (ps_r s)) (ps_cb s) (ps_len s) (r_stat_mask (ps_r s)) else Some c.

Definition read_attributes_generic (mem : bool) (actx : attr_context) (c : attr_cache) (ab : attr_buffer) (r : rw_attr_result)
    (st : system_stat) (valid_bits : Z) : option (pstate * attr_cache) :=
  let valid := mk_valid (Z.land valid_bits SSH_FILEXFER_ATTR_SUBSECOND_TIMES) (Z.ldiff valid_bits SSH_FILEXFER_ATTR_SUBSECOND_TIMES) in
  let? s := parse_attributes_generic actx c (_attr_read_cb actx) (mk_pstate ab (or_flag r RW_ATTR_RESULT_FLAG_READ) st [] 0) valid in
  let? c := remember mem actx c s in Some (s, c).

Definition write_attributes_generic (actx : attr_context) (c : attr_cache) (ab : attr_buffer) (r : rw_attr_result)
    (st : system_stat) (valid : sftp_valid) : option pstate :=
  parse_attributes_generic actx c (_attr_write_cb actx) (mk_pstate ab (or_flag r RW_ATTR_RESULT_FLAG_WRITE) st [] 0) valid.

(** Buffer and attributes are NULL here: the callback uses neither. *)
Definition get_size_buffer_write_attributes (mem : bool) (actx : attr_context) (c : attr_cache) (ab : attr_buffer) (r : rw_attr_result)
    (st : system_stat) (valid : sftp_valid) : option (Z * pstate * attr_cache) :=
  let? s := parse_attributes_generic actx c (_prepare_write_cb actx) (mk_pstate ab (or_flag r RW_ATTR_RESULT_FLAG_WRITE) st [] 0) valid in
  let? c := remember mem actx c s in Some (ps_len s, s, c).

(** ** Masks *)

Definition _read_stat_mask_cb (actx : attr_context) : parse_cb := fun s ctr =>
  let? e := ac_attrcb actx !! ctr in
  let r := ps_r s in
  Some (set_r s (mk_result (r_flags r) (r_valid r) (r_todo r) (r_done r) (r_ignored r) (Z.lor (r_stat_mask r) (cb_stat_mask e)))).

(** The letter [what] of the functions below. *)
Inductive direction := DirRead | DirWrite | DirOther.

Definition direction_flag (what : direction) : Z :=
  match what with DirRead => RW_ATTR_RESULT_FLAG_READ | DirWrite => RW_ATTR_RESULT_FLAG_WRITE | DirOther => 0 end.

Definition translate_valid_2_stat_mask (actx : attr_context) (c : attr_cache) (valid : sftp_valid) (what : direction) (ab : attr_buffer) (st : system_stat) : option Z :=
  let? s := parse_attributes_generic actx c (_read_stat_mask_cb actx) (mk_pstate ab (or_flag RW_ATTR_RESULT_INIT (direction_flag what)) st [] 0) valid in
  Some (r_stat_mask (ps_r s)).

(** [ps_len] is the field [valid_mask] here; [stat_mask] does not change. *)
Definition _get_valid_flags_cb (actx : attr_context) (stat_mask : Z) : parse_cb := fun s ctr =>
  let? e := ac_attrcb actx !! ctr in
  let r := ps_r s in
  Some (mk_pstate (ps_ab s) (mk_result (r_flags r) (r_valid r) (Z.ldiff (r_todo r) (cb_code e)) (r_done r) (r_ignored r) (r_stat_mask r)) (ps_stat s) (ps_cb s)
          (if has (cb_stat_mask e) stat_mask then Z.lor (ps_len s) (cb_code e) else ps_len s)).

Definition get_supported_valid_flags (actx : attr_context) (what : direction) : option sftp_valid :=
  match what with DirRead => Some (ac_r_valid actx) | DirWrite => Some (ac_w_valid actx) | DirOther => None end.

(** A NULL [valid] is used without a test. *)
Definition translate_stat_mask_2_valid (actx : attr_context) (c : attr_cache) (stat_mask : Z) (what : direction) (ab : attr_buffer) (st : system_stat) : option Z :=
  let? valid := get_supported_valid_flags actx what in
  let? s := parse_attributes_generic actx c (_get_valid_flags_cb actx stat_mask) (mk_pstate ab (or_flag RW_ATTR_RESULT_INIT (direction_flag what)) st [] 0) valid in
  Some (ps_len s).

(** [ps_cb] is the sequence of the calls of [psm->cb], by their index. *)
Definition _parse_stat_mask_cb (actx : attr_context) : parse_cb := fun s ctr =>
  let? e := ac_attrcb actx !! ctr in
  Some (mk_pstate (ps_ab s) (mark (ps_r s) e) (ps_stat s) (ps_cb s ++ [ctr]) (ps_len s)).

Definition parse_sftp_attributes_stat_mask (actx : attr_context) (c : attr_cache) (r : rw_attr_result) (st : system_stat) (what : direction) (ab : attr_buffer) : option (rw_attr_result * list nat) :=
  match get_supported_valid_flags actx what with
  | None => Some (r, [])
  | Some valid =>
      let? s := parse_attributes_generic actx c (_parse_stat_mask_cb actx) (mk_pstate ab (or_flag r (direction_flag what)) st [] 0) valid in
      Some (ps_r s, ps_cb s)
  end.

Definition convert_sftp_valid_w (actx : attr_context) (bits : Z) : sftp_valid :=
  mk_valid (Z.land bits (v_flags (ac_w_valid actx))) (Z.land bits (v_mask (ac_w_valid actx))).
Definition convert_sftp_valid_r (actx : attr_context) (bits : Z) : sftp_valid :=
  mk_valid (Z.land bits (v_flags (ac_r_valid actx))) (Z.land bits (v_mask (ac_r_valid actx))).

(** The byte after the valid bits of an attribute block. *)
Definition peek_sftp_file_type (ab : attr_buffer) : option Z := ab_buffer ab !! Z.to_nat (u32 (ab_pos ab + 4)).

(** ** The life of the cache *)

(** [refcount], an [unsigned char], and the rows, none before the first call:
    [init_list_header] leaves a header that is initialized alone. *)
Definition init_hashattr (rc : Z * attr_cache) : Z * attr_cache :=
  (u8 (rc.1 + 1), if rc.1 =? 0 then match rc.2 with [] => init_hashattr_generic | c => c end else rc.2).

Definition clear_hashattr_generic (force : Z) (rc : Z * attr_cache) : Z * attr_cache :=
  let '(n, force) := if 0 <? rc.1 then (rc.1 - 1, if (force =? 0) && (rc.1 - 1 =? 0) then 1 else force) else (rc.1, force) in
  (n, if negb (force =? 0) then (fun _ => []) <$> rc.2 else rc.2).

(** ** The order of the attributes *)

(** The attributes of a mask, in the order of a table of codes and indices. *)
Definition order_of (attrs : list (Z * nat)) (mask : Z) : list nat :=
  (filter (fun a => has mask a.1 = true) attrs).*2.

Definition attributes_v03 : list (Z * nat) :=
  [(SSH_FILEXFER_ATTR_SIZE, SSH_FILEXFER_INDEX_SIZE); (SSH_FILEXFER_ATTR_UIDGID, SSH_FILEXFER_INDEX_UIDGID);
   (SSH_FILEXFER_ATTR_PERMISSIONS, SSH_FILEXFER_INDEX_PERMISSIONS); (SSH_FILEXFER_ATTR_ACMODTIME, SSH_FILEXFER_INDEX_ACMODTIME);
   (SSH_FILEXFER_ATTR_EXTENDED, SSH_FILEXFER_INDEX_EXTENDED)].

Definition order_v03 (mask : Z) : list nat := order_of attributes_v03 mask.

Fixpoint parse_all (f : parse_cb) (attrs : list (Z * nat)) (s : pstate) : option pstate :=
  match attrs with [] => Some s | a :: attrs => let? s := parse_one f a.1 a.2 s in parse_all f attrs s end.

(** A callback that leaves the bits of the other attributes to do. *)
Definition leaves_others (f : parse_cb) (attrs : list (Z * nat)) : Prop :=
  forall s s' a code, a ∈ attrs -> Z.land a.1 code = 0 -> f s a.2 = Some s' -> has (r_todo (ps_r s')) code = has (r_todo (ps_r s)) code.

Lemma order_same attrs m m' : Forall (fun a => has m' a.1 = has m a.1) attrs -> order_of attrs m' = order_of attrs m.
Proof.
  intros H. unfold order_of. f_equal. induction H as [|a attrs Ha _ IH]; [done |]. rewrite !filter_cons, Ha, IH. done.
Qed.

(** The sequence of tests runs the callback over the attributes of the mask. *)
Lemma parse_all_run f attrs : leaves_others f attrs -> ForallOrdPairs (fun a b => Z.land a.1 b.1 = 0) attrs ->
  forall s, parse_all f attrs s = run_cbs f (order_of attrs (r_todo (ps_r s))) s.
Proof.
  intros Hf Hd. induction Hd as [|a attrs Ha Hd IH]; intros s; [done |]. cbn [parse_all]. unfold order_of, parse_one. rewrite filter_cons.
  assert (leaves_others f attrs) as Hf' by (intros ?????; apply Hf; by right). case_decide as E.
  - rewrite E. cbn [fmap list_fmap run_cbs]. destruct (f s a.2) as [s1|] eqn:Es; opt; [| done].
    rewrite IH by done. f_equal. apply order_same. eapply Forall_impl; [| exact Ha]. intros b Hb. cbn in Hb. eapply (Hf s s1 a); [left | done | done].
  - destruct (has (r_todo (ps_r s)) a.1); [done |]. opt. by rewrite IH.
Qed.

Lemma parse_v03_all f s : parse_attributes_v03 f s = parse_all f attributes_v03 s.
Proof.
  unfold parse_attributes_v03. cbn [parse_all attributes_v03 fst snd]. repeat (destruct (parse_one _ _ _ _) as [?s0|]; opt; [| done]). done.
Qed.

Lemma attributes_v03_disjoint : ForallOrdPairs (fun a b => Z.land a.1 b.1 = 0) attributes_v03.
Proof. repeat constructor. Qed.

Section Version3.
Context (map : idmapping).

Abbreviation actx v := (init_attr_context_v03 map v).

Lemma attrcb_v03_code a : a ∈ attributes_v03 -> exists e, attrcb_v03 map !! a.2 = Some e /\ cb_code e = a.1.
Proof. intros Ha. repeat (apply elem_of_cons in Ha as [-> |Ha]; [by eexists |]). by apply elem_of_nil in Ha. Qed.

(** The three callbacks change the result in the same way. *)
Definition marking (f : parse_cb) : Prop :=
  forall s s' ctr, f s ctr = Some s' -> exists e, attrcb_v03 map !! ctr = Some e /\ ps_r s' = mark (ps_r s) e.

Lemma read_marking v : marking (_attr_read_cb (actx v)).
Proof.
  intros s s' ctr H. unfold _attr_read_cb in H. cbn [ac_attrcb init_attr_context_v03] in H.
  destruct (attrcb_v03 map !! ctr) as [e|]; cbn [mbind option_bind] in H; [| done]. exists e. split; [done |].
  unfold note_cb in H. case_bool_decide; cbn [mbind option_bind] in H; [| done]. destruct (cb_r_cb e) as [cb|]; cbn [mbind option_bind] in H; [| done].
  destruct (cb _ _) as [q|]; cbn [mbind option_bind] in H; [| done]. by injection H as <-.
Qed.

Lemma write_marking v : marking (_attr_write_cb (actx v)).
Proof.
  intros s s' ctr H. unfold _attr_write_cb in H. cbn [ac_attrcb init_attr_context_v03] in H.
  destruct (attrcb_v03 map !! ctr) as [e|]; cbn [mbind option_bind] in H; [| done]. exists e. split; [done |].
  destruct (cb_w_cb e) as [cb|]; cbn [mbind option_bind] in H; [| done].
  destruct (cb _ _) as [q|]; cbn [mbind option_bind] in H; [| done]. by injection H as <-.
Qed.

Lemma prepare_marking v : marking (_prepare_write_cb (actx v)).
Proof.
  intros s s' ctr H. unfold _prepare_write_cb in H. cbn [ac_attrcb init_attr_context_v03] in H.
  destruct (attrcb_v03 map !! ctr) as [e|]; cbn [mbind option_bind] in H; [| done]. exists e. split; [done |].
  unfold note_cb in H. case_bool_decide; [| done]. by injection H as <-.
Qed.

Lemma marking_leaves f : marking f -> leaves_others f attributes_v03.
Proof.
  intros Hf s s' a code Ha Hd H. destruct (Hf s s' a.2 H) as (e & He & ->). destruct (attrcb_v03_code a Ha) as (e' & He' & Hc).
  simplify_eq. cbn. rewrite Hc. by apply has_ldiff.
Qed.

(** The flags of the result play no part in the callbacks. *)
Definition with_flags (fl : Z) (s : pstate) : pstate :=
  set_r s (mk_result fl (r_valid (ps_r s)) (r_todo (ps_r s)) (r_done (ps_r s)) (r_ignored (ps_r s)) (r_stat_mask (ps_r s))).

Definition flagless (f : parse_cb) : Prop := forall fl s ctr, f (with_flags fl s) ctr = option_map (with_flags fl) (f s ctr).

Lemma read_flagless v : flagless (_attr_read_cb (actx v)).
Proof.
  intros fl s ctr. unfold _attr_read_cb. destruct (ac_attrcb (actx v) !! ctr) as [e|]; opt; [| done].
  unfold note_cb. change (ps_cb (with_flags fl s)) with (ps_cb s). case_bool_decide; opt; [| done].
  destruct (cb_r_cb e) as [cb|]; opt; [| done]. cbn. by destruct (cb _ _).
Qed.

Lemma write_flagless v : flagless (_attr_write_cb (actx v)).
Proof.
  intros fl s ctr. unfold _attr_write_cb. destruct (ac_attrcb (actx v) !! ctr) as [e|]; opt; [| done].
  destruct (cb_w_cb e) as [cb|]; opt; [| done]. cbn. by destruct (cb _ _).
Qed.

Lemma prepare_flagless v : flagless (_prepare_write_cb (actx v)).
Proof.
  intros fl s ctr. unfold _prepare_write_cb. destruct (ac_attrcb (actx v) !! ctr) as [e|]; opt; [| done].
  unfold note_cb. change (ps_cb (with_flags fl s)) with (ps_cb s). by case_bool_decide.
Qed.

Lemma run_flagless f fl cbs : flagless f -> forall s, run_cbs f cbs (with_flags fl s) = option_map (with_flags fl) (run_cbs f cbs s).
Proof.
  intros Hf. induction cbs as [|ctr cbs IH]; intros s; [done |]. cbn [run_cbs]. rewrite Hf. destruct (f s ctr); cbn; [apply IH | done].
Qed.

(** ** The cache holds the orders *)

(** Every entry for the version [v] has the order of its mask. *)
Record cache_ok (v : Z) (c : attr_cache) : Prop := {
  co_rows : length c = Z.to_nat HASH_ATTRCB_TABLE_SIZE;
  co_order i row h : c !! i = Some row -> h ∈ row -> h_version h = v -> h_cb h = order_v03 (v_mask (h_valid h))
}.

Lemma cache_init v : cache_ok v init_hashattr_generic.
Proof. split; [done |]. intros i row h Hr Hh _. apply lookup_replicate in Hr as [-> _]. by apply elem_of_nil in Hh. Qed.

Lemma row_some v c valid : cache_ok v c -> exists row, c !! row_of valid = Some row.
Proof.
  intros Hc. apply lookup_lt_is_Some_2. rewrite (co_rows v c Hc). unfold row_of, HASH_ATTRCB_TABLE_SIZE.
  pose proof (Z.mod_pos_bound (v_mask valid) 17 ltac:(lia)). lia.
Qed.

Lemma find_key row valid version h : find (same_key valid version) row = Some h -> h ∈ row /\ h_valid h = valid /\ h_version h = version.
Proof.
  intros H. apply find_some in H as [Hin Hk]. unfold same_key in Hk. apply andb_true_iff in Hk as [Hv Hn].
  apply bool_decide_eq_true in Hv. apply Z.eqb_eq in Hn. split; [by apply list_elem_of_In | done].
Qed.

Lemma cache_add v c h : cache_ok v c -> (h_version h = v -> h_cb h = order_v03 (v_mask (h_valid h))) ->
  exists c', add_attrcb_hashtable c h = Some c' /\ cache_ok v c'.
Proof.
  intros Hc Hh. unfold add_attrcb_hashtable. destruct (row_some v c (h_valid h) Hc) as [row Hr]. rewrite Hr. opt.
  destruct (find _ row); [by exists c |]. eexists. split; [done |]. split; [rewrite length_insert; apply Hc |].
  intros i row' h' Hi Hin. destruct (decide (i = row_of (h_valid h))) as [-> |Hn].
  - rewrite list_lookup_insert_eq in Hi by by eapply lookup_lt_Some. injection Hi as <-.
    apply elem_of_cons in Hin as [-> |Hin]; [done |]. by eapply (co_order v c Hc).
  - rewrite list_lookup_insert_ne in Hi by done. by eapply (co_order v c Hc).
Qed.

(** The result at the start of a parse, and the valid bits it works on. *)
Definition selected (ctx : attr_context) (r : rw_attr_result) (valid : sftp_valid) : sftp_valid :=
  let supported := if has (r_flags r) RW_ATTR_RESULT_FLAG_WRITE then ac_w_valid ctx else ac_r_valid ctx in
  mk_valid (Z.land (v_flags valid) (v_flags supported)) (Z.land (v_mask valid) (v_mask supported)).

Definition start_result (ctx : attr_context) (r : rw_attr_result) (valid : sftp_valid) : rw_attr_result :=
  let v := selected ctx r valid in mk_result (r_flags r) v (v_mask v) 0 (Z.ldiff (v_mask valid) (v_mask v)) (r_stat_mask r).

(** With or without an entry in the cache, a parse runs the callback over the
    attributes of the mask; only the flag for the cache tells the difference. *)
Lemma generic_run_any v c f s valid : cache_ok v c -> leaves_others f attributes_v03 -> flagless f ->
  exists fl, parse_attributes_generic (actx v) c f s valid =
    option_map (with_flags fl) (run_cbs f (order_v03 (v_mask (selected (actx v) (ps_r s) valid))) (set_r s (start_result (actx v) (ps_r s) valid))).
Proof.
  intros Hc Hm Hf. unfold parse_attributes_generic, lookup_hashed_attrcb.
  fold (selected (actx v) (ps_r s) valid). set (sel := selected (actx v) (ps_r s) valid).
  destruct (row_some v c sel Hc) as [row Hr]. rewrite Hr. opt. destruct (find (same_key sel (ac_version (actx v))) row) as [h|] eqn:Eh.
  - apply find_key in Eh as (Hin & Hv & Hver). rewrite (co_order v c Hc _ row h Hr Hin Hver), Hv.
    exists (Z.lor (r_flags (ps_r s)) RW_ATTR_RESULT_FLAG_CACHED). rewrite <- run_flagless by done. done.
  - exists (r_flags (ps_r s)). rewrite <- run_flagless by done. cbn [ac_parse_attributes init_attr_context_v03].
    rewrite parse_v03_all, parse_all_run; [done | done | apply attributes_v03_disjoint].
Qed.

Lemma generic_run v c f s valid : cache_ok v c -> marking f -> flagless f ->
  exists fl, parse_attributes_generic (actx v) c f s valid =
    option_map (with_flags fl) (run_cbs f (order_v03 (v_mask (selected (actx v) (ps_r s) valid))) (set_r s (start_result (actx v) (ps_r s) valid))).
Proof. intros Hc Hm. apply generic_run_any; [done | by apply marking_leaves]. Qed.

(** A callback that notes its index. *)
Definition noting (f : parse_cb) : Prop := forall s s' ctr, f s ctr = Some s' -> ps_cb s' = ps_cb s ++ [ctr].

Lemma read_noting v : noting (_attr_read_cb (actx v)).
Proof.
  intros s s' ctr H. unfold _attr_read_cb in H. destruct (_ !! ctr) as [e|]; cbn [mbind option_bind] in H; [| done].
  unfold note_cb in H. case_bool_decide; cbn [mbind option_bind] in H; [| done]. destruct (cb_r_cb e) as [cb|]; cbn [mbind option_bind] in H; [| done].
  destruct (cb _ _) as [q|]; cbn [mbind option_bind] in H; [| done]. by injection H as <-.
Qed.

Lemma prepare_noting v : noting (_prepare_write_cb (actx v)).
Proof.
  intros s s' ctr H. unfold _prepare_write_cb in H. destruct (_ !! ctr) as [e|]; cbn [mbind option_bind] in H; [| done].
  unfold note_cb in H. case_bool_decide; [| done]. by injection H as <-.
Qed.

Lemma run_notes f cbs : noting f -> marking f -> forall s s', run_cbs f cbs s = Some s' ->
  ps_cb s' = ps_cb s ++ cbs /\ r_valid (ps_r s') = r_valid (ps_r s).
Proof.
  intros Hn Hm. induction cbs as [|ctr cbs IH]; intros s s' H; cbn [run_cbs] in H.
  - injection H as <-. by rewrite app_nil_r.
  - destruct (f s ctr) as [s1|] eqn:E; cbn [mbind option_bind] in H; [| done]. destruct (IH s1 s' H) as [-> ->].
    rewrite (Hn _ _ _ E), <- app_assoc. destruct (Hm _ _ _ E) as (e & _ & ->). done.
Qed.

Lemma remember_ok v mem c s : cache_ok v c -> ps_cb s = order_v03 (v_mask (r_valid (ps_r s))) ->
  exists c', remember mem (actx v) c s = Some c' /\ cache_ok v c'.
Proof.
  intros Hc Hs. unfold remember, create_hashed_attrcb. destruct (_ && _); [| by exists c]. destruct mem; [| by exists c].
  by apply cache_add.
Qed.

(** A parse from an empty array leaves the order of its mask in it. *)
Lemma generic_notes v c f s s' valid : cache_ok v c -> marking f -> flagless f -> noting f -> ps_cb s = [] ->
  parse_attributes_generic (actx v) c f s valid = Some s' -> ps_cb s' = order_v03 (v_mask (r_valid (ps_r s'))).
Proof.
  intros Hc Hm Hf Hn He H. destruct (generic_run v c f s valid Hc Hm Hf) as [fl E]. rewrite E in H.
  destruct (run_cbs _ _ _) as [s1|] eqn:Er; [| done]. cbn in H. injection H as <-.
  destruct (run_notes f _ Hn Hm _ _ Er) as [E1 E2]. cbn. rewrite E1, E2. cbn. by rewrite He.
Qed.

(** C18: the cache of orders never changes what is read or written. For every
    cache whose entries are the orders of their masks, and in particular for
    every cache the program builds, writing, reading and computing the size give
    the results they give with an empty cache, the flag CACHED apart. *)
Theorem attr_cache_transparent (v : Z) (c : attr_cache) (ab : attr_buffer) (r : rw_attr_result) (st : system_stat) (mem : bool) :
  cache_ok v c ->
  (forall valid, option_map (with_flags 0) (write_attributes_generic (actx v) c ab r st valid) =
     option_map (with_flags 0) (write_attributes_generic (actx v) init_hashattr_generic ab r st valid)) /\
  (forall bits, option_map (fun x => with_flags 0 x.1) (read_attributes_generic mem (actx v) c ab r st bits) =
     option_map (fun x => with_flags 0 x.1) (read_attributes_generic mem (actx v) init_hashattr_generic ab r st bits)) /\
  (forall valid, option_map (fun x => (x.1.1, with_flags 0 x.1.2)) (get_size_buffer_write_attributes mem (actx v) c ab r st valid) =
     option_map (fun x => (x.1.1, with_flags 0 x.1.2)) (get_size_buffer_write_attributes mem (actx v) init_hashattr_generic ab r st valid)).
Proof.
  intros Hc. pose proof (cache_init v) as Hi.
  assert (forall f s valid, marking f -> flagless f -> option_map (with_flags 0) (parse_attributes_generic (actx v) c f s valid) =
            option_map (with_flags 0) (parse_attributes_generic (actx v) init_hashattr_generic f s valid)) as Hp.
  { intros f s valid Hm Hf. destruct (generic_run v c f s valid Hc Hm Hf) as [fl ->]. destruct (generic_run v _ f s valid Hi Hm Hf) as [fl' ->].
    by destruct (run_cbs _ _ _). }
  split_and!.
  - intros valid. apply Hp; [apply write_marking | apply write_flagless].
  - intros bits. unfold read_attributes_generic.
    match goal with |- context [parse_attributes_generic (actx v) c ?f ?s ?w] => specialize (Hp f s w (read_marking v) (read_flagless v));
      pose proof (generic_notes v c f s) as N1; pose proof (generic_notes v init_hashattr_generic f s) as N2 end.
    destruct (parse_attributes_generic (actx v) c _ _ _) as [s1|] eqn:E1, (parse_attributes_generic (actx v) init_hashattr_generic _ _ _) as [s2|] eqn:E2;
      try done; opt.
    destruct (remember_ok v mem c s1 Hc) as (c1 & -> & _); [by eapply (N1 s1); eauto using read_marking, read_flagless, read_noting |].
    destruct (remember_ok v mem init_hashattr_generic s2 Hi) as (c2 & -> & _); [by eapply (N2 s2); eauto using read_marking, read_flagless, read_noting |].
    exact Hp.
  - intros valid. unfold get_size_buffer_write_attributes.
    match goal with |- context [parse_attributes_generic (actx v) c ?f ?s ?w] => specialize (Hp f s w (prepare_marking v) (prepare_flagless v));
      pose proof (generic_notes v c f s) as N1; pose proof (generic_notes v init_hashattr_generic f s) as N2 end.
    destruct (parse_attributes_generic (actx v) c _ _ _) as [s1|] eqn:E1, (parse_attributes_generic (actx v) init_hashattr_generic _ _ _) as [s2|] eqn:E2;
      try done; opt.
    destruct (remember_ok v mem c s1 Hc) as (c1 & -> & _); [by eapply (N1 s1); eauto using prepare_marking, prepare_flagless, prepare_noting |].
    destruct (remember_ok v mem init_hashattr_generic s2 Hi) as (c2 & -> & _); [by eapply (N2 s2); eauto using prepare_marking, prepare_flagless, prepare_noting |].
    apply (inj Some) in Hp. opt. cbn [option_map fst snd].
    change (ps_len s1) with (ps_len (with_flags 0 s1)). change (ps_len s2) with (ps_len (with_flags 0 s2)). by rewrite Hp.
Qed.

(** the cache invariant. Every cache the program can have, from the empty one
    on through any reads and size computations, holds for each entry the order in
    which [parse_attributes_v03] visits the attributes of the entry's mask. *)
Theorem attr_cache_sound (v : Z) (c c' : attr_cache) (ab : attr_buffer) (r : rw_attr_result) (st : system_stat) (mem : bool) :
  cache_ok v init_hashattr_generic /\
  (forall bits s, cache_ok v c -> read_attributes_generic mem (actx v) c ab r st bits = Some (s, c') -> cache_ok v c') /\
  (forall valid n s, cache_ok v c -> get_size_buffer_write_attributes mem (actx v) c ab r st valid = Some (n, s, c') -> cache_ok v c').
Proof.
  split; [apply cache_init |]. split.
  - intros bits s Hc H. unfold read_attributes_generic in H.
    destruct (parse_attributes_generic _ _ _ _ _) as [s1|] eqn:E; cbn [mbind option_bind] in H; [| done].
    apply generic_notes in E; eauto using read_marking, read_flagless, read_noting.
    destruct (remember_ok v mem c s1 Hc E) as (c1 & Er & Hc1). rewrite Er in H. cbn [mbind option_bind] in H. by injection H as <- <-.
  - intros valid n s Hc H. unfold get_size_buffer_write_attributes in H.
    destruct (parse_attributes_generic _ _ _ _ _) as [s1|] eqn:E; cbn [mbind option_bind] in H; [| done].
    apply generic_notes in E; eauto using prepare_marking, prepare_flagless, prepare_noting.
    destruct (remember_ok v mem c s1 Hc E) as (c1 & Er & Hc1). rewrite Er in H. cbn [mbind option_bind] in H. by injection H as <- <- <-.
Qed.

(** ** Masks of attributes and masks of the protocol *)

Definition supported_stat_v03 : Z :=
  Z.lor (Z.lor (Z.lor SYSTEM_STAT_SIZE (Z.lor SYSTEM_STAT_UID SYSTEM_STAT_GID)) (Z.lor SYSTEM_STAT_MODE SYSTEM_STAT_TYPE)) (Z.lor SYSTEM_STAT_ATIME SYSTEM_STAT_MTIME).

(** The valid bits for a mask of attributes: one for each attribute of the
    protocol that carries one of them. *)
Definition valid_bits_v03 (sm : Z) : Z :=
  let b m code := if has m sm then code else 0 in
  Z.lor (Z.lor (Z.lor (b SYSTEM_STAT_SIZE SSH_FILEXFER_ATTR_SIZE) (b (Z.lor SYSTEM_STAT_UID SYSTEM_STAT_GID) SSH_FILEXFER_ATTR_UIDGID))
    (b (Z.lor SYSTEM_STAT_MODE SYSTEM_STAT_TYPE) SSH_FILEXFER_ATTR_PERMISSIONS)) (b (Z.lor SYSTEM_STAT_ATIME SYSTEM_STAT_MTIME) SSH_FILEXFER_ATTR_ACMODTIME).

Lemma valid_flags_leaves v sm : leaves_others (_get_valid_flags_cb (actx v) sm) attributes_v03.
Proof.
  intros s s' a code Ha Hd H. unfold _get_valid_flags_cb in H. cbn [ac_attrcb init_attr_context_v03] in H.
  destruct (attrcb_v03_code a Ha) as (e & He & Hc). rewrite He in H. cbn [mbind option_bind] in H. injection H as <-. cbn. rewrite Hc. by apply has_ldiff.
Qed.

Lemma valid_flags_flagless v sm : flagless (_get_valid_flags_cb (actx v) sm).
Proof. intros fl s ctr. unfold _get_valid_flags_cb. by destruct (ac_attrcb (actx v) !! ctr). Qed.

Lemma stat_mask_leaves v : leaves_others (_read_stat_mask_cb (actx v)) attributes_v03.
Proof.
  intros s s' a code Ha Hd H. unfold _read_stat_mask_cb in H. destruct (_ !! _) as [e|]; [| done]. cbn [mbind option_bind] in H. by injection H as <-.
Qed.

Lemma stat_mask_flagless v : flagless (_read_stat_mask_cb (actx v)).
Proof. intros fl s ctr. unfold _read_stat_mask_cb. by destruct (ac_attrcb (actx v) !! ctr). Qed.

Lemma stat_mask_2_valid_value v c sm ab st : cache_ok v c ->
  translate_stat_mask_2_valid (actx v) c sm DirWrite ab st = Some (valid_bits_v03 sm).
Proof.
  intros Hc. unfold translate_stat_mask_2_valid. cbn [get_supported_valid_flags]. opt.
  match goal with |- context [parse_attributes_generic _ c ?f ?s ?w] =>
    destruct (generic_run_any v c f s w Hc (valid_flags_leaves v sm) (valid_flags_flagless v sm)) as [fl ->] end.
  change (order_v03 _) with [0; 1; 2; 3]%nat. cbn. unfold valid_bits_v03.
  repeat match goal with |- context [has ?a sm] => destruct (has a sm) end; done.
Qed.

Lemma valid_2_stat_mask_run v c m ab st : cache_ok v c ->
  translate_valid_2_stat_mask (actx v) c (mk_valid 0 m) DirWrite ab st =
  Some (foldl (fun x ctr => Z.lor x (default 0 (cb_stat_mask <$> attrcb_v03 map !! ctr))) 0 (order_v03 (Z.land m w_mask_v03))).
Proof.
  intros Hc. unfold translate_valid_2_stat_mask.
  match goal with |- context [parse_attributes_generic _ c ?f ?s ?w] =>
    destruct (generic_run_any v c f s w Hc (stat_mask_leaves v) (stat_mask_flagless v)) as [fl ->] end.
  change (v_mask (selected _ _ _)) with (Z.land m w_mask_v03). set (cbs := order_v03 _).
  assert (Forall (fun ctr => is_Some (attrcb_v03 map !! ctr)) cbs) as Hcbs.
  { apply Forall_forall. intros ctr Hin%list_elem_of_In. subst cbs. unfold order_v03, order_of in Hin. apply list_elem_of_fmap in Hin as (a & -> & Ha).
    apply list_elem_of_filter in Ha as [_ Ha]. destruct (attrcb_v03_code a Ha) as (e & He & _). by exists e. }
  clearbody cbs.
  assert (forall s, exists s', run_cbs (_read_stat_mask_cb (actx v)) cbs s = Some s' /\
    r_stat_mask (ps_r s') = foldl (fun x ctr => Z.lor x (default 0 (cb_stat_mask <$> attrcb_v03 map !! ctr))) (r_stat_mask (ps_r s)) cbs) as H.
  { induction Hcbs as [|ctr cbs [e He] _ IH]; intros s; [by exists s |]. cbn [run_cbs foldl]. unfold _read_stat_mask_cb at 2.
    cbn [ac_attrcb init_attr_context_v03]. rewrite He. opt. match goal with |- context [run_cbs _ cbs ?x] => destruct (IH x) as (s' & -> & E) end.
    exists s'. split; [done |]. by rewrite E. }
  match goal with |- context [run_cbs _ cbs ?x] => destruct (H x) as (s' & -> & E) end. cbn [option_map]. opt. cbn [with_flags set_r ps_r r_stat_mask]. by rewrite E.
Qed.

(** ** What version 3 writes *)

Definition mode_v03 (st : system_stat) : Z := Z.lor (Z.land (get_mode_system_stat st) S_IRWXALL) (get_type_system_stat st).

(** The bytes of the attribute with the index [ctr]. *)
Definition encode_v03 (st : system_stat) (ctr : nat) : bytes :=
  match ctr with
  | 0 => be_encode 8 (u64 (get_size_system_stat st))
  | 1 => be_encode 4 (user_l2p map (get_uid_system_stat st)) ++ be_encode 4 (group_l2p map (get_gid_system_stat st))
  | 2 => be_encode 4 (mode_v03 st)
  | 3 => be_encode 4 (u32 (st_sec (get_atime_system_stat st))) ++ be_encode 4 (u32 (st_sec (get_mtime_system_stat st)))
  | _ => []
  end%nat.

(** An index the writer uses. *)
Definition writable (ctr : nat) : Prop := (ctr < 4)%nat.

Lemma write_cb_emits st ctr : writable ctr -> exists e cb op, attrcb_v03 map !! ctr = Some e /\ cb_w_cb e = Some cb /\
  (forall ab, cb ab st = (let? ab := op ab in Some (ab, st))) /\ Emits op (encode_v03 st ctr) /\ cb_maxlength e = zlen (encode_v03 st ctr).
Proof.
  intros H. destruct ctr as [|[|[|[|ctr]]]]; [| | | | unfold writable in H; lia];
    (eexists _, _, _; split; [reflexivity | split; [reflexivity |]]); cbn [encode_v03 cb_maxlength]; rewrite ?zlen_app, ?zlen_be_encode.
  - split; [intros ab; reflexivity |]. split; [apply emits_uint64 | done].
  - split; [| split; [apply emits_bind; [apply emits_uint32 | apply emits_uint32] | done]].
    intros ab. unfold write_attr_uidgid_v03. destruct (ops_uint32 ab _) as [ab1|]; opt; [| done]. reflexivity.
  - split; [intros ab; reflexivity |]. split; [apply emits_uint32 | done].
  - split; [| split; [apply emits_bind; [apply emits_uint32 | apply emits_uint32] | done]].
    intros ab. unfold write_attr_acmodtime_v03. destruct (ops_uint32 ab _) as [ab1|]; opt; [| done]. reflexivity.
Qed.

Definition encoding (st : system_stat) (cbs : list nat) : bytes := concat (encode_v03 st <$> cbs).

Lemma run_write v st cbs : Forall writable cbs -> exists op, Emits op (encoding st cbs) /\
  forall s, ps_stat s = st -> exists r', run_cbs (_attr_write_cb (actx v)) cbs s =
    (let? ab := op (ps_ab s) in Some (mk_pstate ab r' st (ps_cb s) (ps_len s))).
Proof.
  induction 1 as [|ctr cbs Hctr _ (op2 & He2 & H2)].
  - exists Some. split; [apply emits_some |]. intros s <-. exists (ps_r s). by destruct s.
  - destruct (write_cb_emits st ctr Hctr) as (e & cb & op1 & Hcb & Hw & Hop & He1 & _).
    exists (fun ab => let? ab := op1 ab in op2 ab). split; [by apply emits_bind |]. intros s Hs. cbn [run_cbs].
    unfold _attr_write_cb at 2. cbn [ac_attrcb init_attr_context_v03]. rewrite Hcb. opt. rewrite Hw. opt. cbn [ps_ab ps_stat set_r]. rewrite Hs, Hop.
    destruct (op1 (ps_ab s)) as [ab1|]; opt; [| by exists (ps_r s)]. cbn [fst snd set_io set_r ps_r ps_cb ps_len].
    match goal with |- context [run_cbs _ cbs ?x] => destruct (H2 x eq_refl) as [r' ->] end. by exists r'.
Qed.

(** The counting callback adds up the lengths. *)
Lemma run_prepare v st cbs : Forall writable cbs -> forall s, (length (ps_cb s) + length cbs <= ATTR_CONTEXT_COUNT_ATTR_CB)%nat ->
  exists s', run_cbs (_prepare_write_cb (actx v)) cbs s = Some s' /\ u32 (ps_len s') = u32 (ps_len s + zlen (encoding st cbs)) /\ (is_u32 (ps_len s) -> is_u32 (ps_len s')).
Proof.
  induction 1 as [|ctr cbs Hctr _ IH]; intros s Hl.
  - exists s. split; [done |]. by rewrite Z.add_0_r.
  - cbn [length] in Hl. destruct (write_cb_emits st ctr Hctr) as (e & cb & op1 & Hcb & _ & _ & _ & Hm).
    cbn [run_cbs]. unfold _prepare_write_cb at 2. cbn [ac_attrcb init_attr_context_v03]. rewrite Hcb. opt. unfold note_cb.
    rewrite bool_decide_eq_true_2 by lia. opt. match goal with |- context [run_cbs _ cbs ?x] => destruct (IH x) as (s' & -> & E & Hu) end.
    { cbn. rewrite length_app. cbn. lia. }
    exists s'. split; [done |]. split; [| intros _; apply Hu, u32_range]. rewrite E. cbn [ps_len]. rewrite u32_add_l.
    unfold encoding. cbn [fmap list_fmap concat]. rewrite zlen_app, Hm. f_equal. unfold encoding. lia.
Qed.

Lemma has_land m k c : has (Z.land m k) c = has m (Z.land k c).
Proof. unfold has. by rewrite Z.land_assoc. Qed.

Lemma order_selected m : order_v03 (Z.land m w_mask_v03) =
  (if has m SSH_FILEXFER_ATTR_SIZE then [0%nat] else []) ++ (if has m SSH_FILEXFER_ATTR_UIDGID then [1%nat] else []) ++
  (if has m SSH_FILEXFER_ATTR_PERMISSIONS then [2%nat] else []) ++ (if has m SSH_FILEXFER_ATTR_ACMODTIME then [3%nat] else []).
Proof.
  assert (forall a l, filter (fun a => has (Z.land m w_mask_v03) a.1 = true) (a :: l) =
    (if has m (Z.land w_mask_v03 a.1) then [a] else []) ++ filter (fun a : Z * nat => has (Z.land m w_mask_v03) a.1 = true) l) as Hf.
  { intros a l. rewrite filter_cons, <- has_land. case_decide as E; [by rewrite E |]. by destruct (has _ _). }
  unfold order_v03, order_of, attributes_v03. rewrite !Hf. cbn [fst].
  change (Z.land w_mask_v03 SSH_FILEXFER_ATTR_SIZE) with SSH_FILEXFER_ATTR_SIZE. change (Z.land w_mask_v03 SSH_FILEXFER_ATTR_UIDGID) with SSH_FILEXFER_ATTR_UIDGID.
  change (Z.land w_mask_v03 SSH_FILEXFER_ATTR_PERMISSIONS) with SSH_FILEXFER_ATTR_PERMISSIONS. change (Z.land w_mask_v03 SSH_FILEXFER_ATTR_ACMODTIME) with SSH_FILEXFER_ATTR_ACMODTIME.
  change (Z.land w_mask_v03 SSH_FILEXFER_ATTR_EXTENDED) with 0. replace (has m 0) with false by (unfold has; by rewrite Z.land_0_r).
  by destruct (has m SSH_FILEXFER_ATTR_SIZE), (has m SSH_FILEXFER_ATTR_UIDGID), (has m SSH_FILEXFER_ATTR_PERMISSIONS), (has m SSH_FILEXFER_ATTR_ACMODTIME).
Qed.

Lemma order_writable m : Forall writable (order_v03 (Z.land m w_mask_v03)).
Proof.
  rewrite order_selected. rewrite !Forall_app. unfold writable. split_and!; case_match; repeat constructor; lia.
Qed.

Lemma order_short m : (length (order_v03 (Z.land m w_mask_v03)) <= 4)%nat.
Proof. rewrite order_selected, !length_app. repeat case_match; cbn; lia. Qed.

(** the two translations of masks fit together. For every mask of attributes
    of a file the valid bits are those of the protocol's attributes that carry one
    of them, and translated back they name every attribute of the mask that
    version 3 can carry. *)
Theorem stat_mask_translation (v : Z) (c : attr_cache) (sm : Z) (ab : attr_buffer) (st : system_stat) : cache_ok v c ->
  exists m sm', translate_stat_mask_2_valid (actx v) c sm DirWrite ab st = Some m /\
    (forall ctr e, writable ctr -> attrcb_v03 map !! ctr = Some e -> has m (cb_code e) = has (cb_stat_mask e) sm) /\
    translate_valid_2_stat_mask (actx v) c (mk_valid 0 m) DirWrite ab st = Some sm' /\
    Z.ldiff (Z.land sm supported_stat_v03) sm' = 0.
Proof.
  intros Hc. exists (valid_bits_v03 sm). eexists. rewrite stat_mask_2_valid_value, valid_2_stat_mask_run by done.
  split; [done |]. split; [| split; [done |]].
  - intros ctr e Hw He. destruct ctr as [|[|[|[|ctr]]]]; [| | | | unfold writable in Hw; lia]; injection He as <-; cbn [cb_code cb_stat_mask]; unfold valid_bits_v03;
      repeat match goal with |- context [has ?a sm] => destruct (has a sm) end; done.
  - set (b := fun m => if has m sm then m else 0).
    match goal with |- Z.ldiff _ ?x = 0 => assert (x = Z.lor (Z.lor (Z.lor (b SYSTEM_STAT_SIZE) (b (Z.lor SYSTEM_STAT_UID SYSTEM_STAT_GID)))
      (b (Z.lor SYSTEM_STAT_MODE SYSTEM_STAT_TYPE))) (b (Z.lor SYSTEM_STAT_ATIME SYSTEM_STAT_MTIME))) as -> end.
    { rewrite order_selected. unfold valid_bits_v03, b. repeat match goal with |- context [has ?a sm] => destruct (has a sm) end; reflexivity. }
    assert (forall m, Z.land sm m = Z.land sm (b m)) as Hb.
    { intros m. unfold b. destruct (has m sm) eqn:E; [done |]. unfold has in E. apply negb_false_iff, Z.eqb_eq in E. by rewrite Z.land_comm, E, Z.land_0_r. }
    unfold supported_stat_v03. rewrite !(Z.land_lor_distr_r sm (Z.lor _ _)), (Z.land_lor_distr_r sm SYSTEM_STAT_SIZE).
    rewrite (Hb SYSTEM_STAT_SIZE), (Hb (Z.lor SYSTEM_STAT_UID SYSTEM_STAT_GID)), (Hb (Z.lor SYSTEM_STAT_MODE SYSTEM_STAT_TYPE)), (Hb (Z.lor SYSTEM_STAT_ATIME SYSTEM_STAT_MTIME)).
    rewrite <- !Z.land_lor_distr_r. apply Z.bits_inj'. intros n _. rewrite Z.bits_0, Z.ldiff_spec, Z.land_spec.
    by destruct (Z.testbit sm n), (Z.testbit (Z.lor _ _) n).
Qed.

Lemma encoding_short m st : zlen (encoding st (order_v03 (Z.land m w_mask_v03))) <= 28.
Proof.
  assert (forall a b, encoding st (a ++ b) = encoding st a ++ encoding st b) as Ha.
  { intros a b. unfold encoding. by rewrite fmap_app, concat_app. }
  rewrite order_selected, !Ha, !zlen_app. unfold encoding.
  repeat case_match; cbn [fmap list_fmap concat encode_v03]; rewrite ?app_nil_r, ?zlen_app, ?zlen_be_encode, ?(zlen_nil (A := Z)); lia.
Qed.

(** Writing the attributes of a mask, through any sound cache: what the size
    computation announces is what is written. *)
Lemma size_and_write v c mem m st ab0 : cache_ok v c ->
  let enc := encoding st (order_v03 (Z.land m w_mask_v03)) in
  (exists s1 c1, get_size_buffer_write_attributes mem (actx v) c ab0 RW_ATTR_RESULT_INIT st (mk_valid 0 m) = Some (zlen enc, s1, c1) /\ cache_ok v c1) /\
  (forall buffer, zlen buffer = zlen enc -> exists s2,
     write_attributes_generic (actx v) c (set_attr_buffer_write ab0 buffer (zlen enc)) RW_ATTR_RESULT_INIT st (mk_valid 0 m) = Some s2 /\
     ab_buffer (ps_ab s2) = enc /\ ab_left (ps_ab s2) = 0).
Proof.
  intros Hc enc. pose proof (order_writable m) as Hw. pose proof (order_short m) as Hl. pose proof (encoding_short m st) as Hn. fold enc in Hn.
  pose proof (zlen_nonneg enc). split.
  - unfold get_size_buffer_write_attributes.
    match goal with |- context [parse_attributes_generic _ c ?f ?s ?w] =>
      destruct (generic_run v c f s w Hc (prepare_marking v) (prepare_flagless v)) as [fl E]; pose proof (generic_notes v c f s) as N end.
    cbn [ps_r] in E. change (v_mask (selected _ _ _)) with (Z.land m w_mask_v03) in E.
    match type of E with context [run_cbs _ _ ?x] => destruct (run_prepare v st _ Hw x) as (s1 & Hs1 & El & Hu) end; [unfold ATTR_CONTEXT_COUNT_ATTR_CB; cbn [ps_cb set_r length]; lia |].
    rewrite Hs1 in E. cbn [option_map] in E. rewrite E. opt. cbn [ps_len set_r] in El, Hu. fold enc in El.
    destruct (remember_ok v mem c (with_flags fl s1) Hc) as (c1 & -> & Hc1).
    { eapply N; [exact Hc | apply prepare_marking | apply prepare_flagless | apply prepare_noting | done | exact E]. }
    opt. exists (with_flags fl s1), c1. split; [| done]. do 3 f_equal. cbn [ps_len with_flags set_r].
    rewrite Z.add_0_l, !u32_id in El; [exact El | unfold is_u32; lia | apply Hu; unfold is_u32; lia].
  - intros buffer Hb. unfold write_attributes_generic.
    match goal with |- context [parse_attributes_generic _ c ?f ?s ?w] => destruct (generic_run v c f s w Hc (write_marking v) (write_flagless v)) as [fl E] end.
    cbn [ps_r] in E. change (v_mask (selected _ _ _)) with (Z.land m w_mask_v03) in E. rewrite E.
    destruct (run_write v st _ Hw) as (op & He & Hop). fold enc in He.
    match goal with |- context [run_cbs _ _ ?x] => destruct (Hop x eq_refl) as [r' ->] end. cbn [set_r ps_ab].
    destruct (emits_two_pass op enc buffer ab0 He) as (n & w & _ & En & Hwr & Ebuf & _ & Eleft); [lia | done |]. rewrite En in Hwr. rewrite Hwr.
    opt. eexists. split; [reflexivity |]. done.
Qed.

End Version3.

(** ** What version 3 reads back *)

(** The two sides have an id mapping each: [wmap] of the writer, [map] of the reader.
    The ids on the wire are unsigned integers of 32 bits. *)
Section ReadBack.
Context (wmap map : idmapping).
Hypothesis map_user : forall id, is_u32 (user_l2p wmap id).
Hypothesis map_group : forall id, is_u32 (group_l2p wmap id).

Abbreviation actx v := (init_attr_context_v03 map v).
Abbreviation wctx v := (init_attr_context_v03 wmap v).

(** The id of a user and of a group, as the reader has it. *)
Definition user_read (id : Z) : Z := user_p2l map (user_l2p wmap id).
Definition group_read (id : Z) : Z := group_p2l map (group_l2p wmap id).

(** The attributes [st0] after the attribute [ctr] of [st] has been read. *)
Definition apply_v03 (st st0 : system_stat) (ctr : nat) : system_stat :=
  match ctr with
  | 0 => set_size_system_stat st0 (sgn 64 (u64 (get_size_system_stat st)))
  | 1 => set_gid_system_stat (set_uid_system_stat st0 (user_read (get_uid_system_stat st))) (group_read (get_gid_system_stat st))
  | 2 => set_mode_system_stat (set_type_system_stat st0 (u16 (Z.land (mode_v03 st) S_IFMT))) (u16 (Z.land (mode_v03 st) S_IRWXALL))
  | 3 => set_mtime_system_stat (set_atime_system_stat st0 (mk_time (u32 (st_sec (sst_atime st))) 0)) (mk_time (u32 (st_sec (sst_mtime st))) 0)
  | _ => st0
  end%nat.

Lemma land_rwx m : Z.land m S_IRWXALL = m mod 512.
Proof. change S_IRWXALL with (Z.ones 9). by rewrite Z.land_ones by lia. Qed.

Lemma mode_v03_value st : wf_stat st -> mode_v03 st = 4096 * (sst_mode st / 4096) + sst_mode st mod 512.
Proof.
  intros (Hm & _). unfold mode_v03. rewrite land_rwx, get_mode_value, get_type_value by done. pose proof (mode_split _ Hm).
  replace ((sst_mode st mod 4096) mod 512) with (sst_mode st mod 512).
  - rewrite Z.lor_comm, lor_type_perm; [done | lia |]. pose proof (Z.mod_pos_bound (sst_mode st) 512 ltac:(lia)). lia.
  - change 4096 with (512 * 8). rewrite Z.rem_mul_r by lia. rewrite Z.mul_comm, Z.mod_add, Z.mod_mod by lia. done.
Qed.

Lemma mode_v03_u32 st : wf_stat st -> is_u32 (mode_v03 st).
Proof.
  intros Hs. rewrite mode_v03_value by done. destruct Hs as (Hm & _). pose proof (mode_split _ Hm). pose proof (Z.mod_pos_bound (sst_mode st) 512 ltac:(lia)).
  unfold is_u32. lia.
Qed.

(** A read callback as a reader of attributes. *)
Definition stat_reader (cb : rw_attr_cb) (st0 : system_stat) (ab : attr_buffer) : option (system_stat * attr_buffer) :=
  let? q := cb ab st0 in Some (q.2, q.1).

Lemma accepts_pair (cb : rw_attr_cb) st0 (g : Z -> Z -> system_stat) a b :
  (forall ab, cb ab st0 = (let? r := read_uint32 ab in let? q := read_uint32 r.2 in Some (q.2, g r.1 q.1))) ->
  is_u32 a -> is_u32 b -> Accepts (stat_reader cb st0) (be_encode 4 a ++ be_encode 4 b) (g a b).
Proof.
  intros Hcb Ha Hb. assert (Accepts (fun ab => let? r := read_uint32 ab in (fun x ab => let? q := read_uint32 ab in Some (g x q.1, q.2)) r.1 r.2)
    (be_encode 4 a ++ be_encode 4 b) (g a b)) as H.
  { apply (accepts_bind read_uint32 (fun x ab => let? q := read_uint32 ab in Some (g x q.1, q.2)) _ _ a); [by apply accepts_uint32 |].
    by apply (accepts_map (g a)), accepts_uint32. }
  intros ab pre post H1 H2 H3 H4. rewrite <- (H ab pre post H1 H2 H3 H4). unfold stat_reader. rewrite Hcb.
  destruct (read_uint32 ab) as [r|]; opt; [| done]. by destruct (read_uint32 r.2).
Qed.

Lemma read_cb_accepts st st0 ctr : writable ctr -> wf_stat st -> exists e cb, attrcb_v03 map !! ctr = Some e /\ cb_r_cb e = Some cb /\
  Accepts (stat_reader cb st0) (encode_v03 wmap st ctr) (apply_v03 st st0 ctr).
Proof.
  intros H Hs. pose proof Hs as (Hm & Hu & Hg & Hz).
  destruct ctr as [|[|[|[|ctr]]]]; [| | | | unfold writable in H; lia]; (eexists _, _; split; [reflexivity | split; [reflexivity |]]); cbn [encode_v03 apply_v03].
  - intros ab pre post H1 H2 H3 H4. unfold stat_reader, read_attr_size_v03.
    assert (Accepts read_uint64 (be_encode 8 (u64 (get_size_system_stat st))) (u64 (get_size_system_stat st))) as Ha.
    { apply accepts_uint64. unfold is_u64, u64. apply Z.mod_pos_bound. lia. }
    by rewrite (Ha ab pre post).
  - unfold user_read, group_read.
    apply (accepts_pair _ _ (fun a b => set_gid_system_stat (set_uid_system_stat st0 (user_p2l map a)) (group_p2l map b))); done.
  - intros ab pre post H1 H2 H3 H4. unfold stat_reader, read_attr_permissions_v03.
    assert (Accepts read_uint32 (be_encode 4 (mode_v03 st)) (mode_v03 st)) as Ha by by apply accepts_uint32, mode_v03_u32.
    by rewrite (Ha ab pre post).
  - apply (accepts_pair _ _ (fun a b => set_mtime_system_stat (set_atime_system_stat st0 (mk_time a 0)) (mk_time b 0))); [done | apply u32_range | apply u32_range].
Qed.

Lemma run_read v st cbs : Forall writable cbs -> wf_stat st -> forall s st0, (length (ps_cb s) + length cbs <= ATTR_CONTEXT_COUNT_ATTR_CB)%nat ->
  Accepts (fun ab => let? s' := run_cbs (_attr_read_cb (actx v)) cbs (set_io s ab st0) in Some (ps_stat s', ps_ab s'))
    (encoding wmap st cbs) (foldl (apply_v03 st) st0 cbs).
Proof.
  intros Hcbs Hs. induction Hcbs as [|ctr cbs Hctr _ IH]; intros s st0 Hl; [exact (accepts_ret st0) |].
  destruct (read_cb_accepts st st0 ctr Hctr Hs) as (e & cb & He & Hcb & Ha). cbn [length] in Hl. cbn [foldl].
  set (s1 := mk_pstate (ps_ab s) (mark (ps_r s) e) (ps_stat s) (ps_cb s ++ [ctr]) (u32 (ps_len s + cb_maxlength e))).
  assert (Accepts (fun ab => let? q := stat_reader cb st0 ab in
    (fun x ab => let? s' := run_cbs (_attr_read_cb (actx v)) cbs (set_io s1 ab x) in Some (ps_stat s', ps_ab s')) q.1 q.2)
    (encoding wmap st (ctr :: cbs)) (foldl (apply_v03 st) (apply_v03 st st0 ctr) cbs)) as H.
  { unfold encoding. cbn [fmap list_fmap concat].
    apply (accepts_bind (stat_reader cb st0) (fun x ab => let? s' := run_cbs (_attr_read_cb (actx v)) cbs (set_io s1 ab x) in Some (ps_stat s', ps_ab s')) _ _ (apply_v03 st st0 ctr));
      [exact Ha |]. apply IH. cbn. rewrite length_app. cbn. lia. }
  intros ab pre post H1 H2 H3 H4. rewrite <- (H ab pre post H1 H2 H3 H4). cbn [run_cbs]. unfold _attr_read_cb at 2.
  cbn [ac_attrcb init_attr_context_v03]. rewrite He. opt. unfold note_cb. cbn [ps_cb set_io]. rewrite bool_decide_eq_true_2 by lia. opt.
  rewrite Hcb. opt. cbn [ps_ab ps_stat set_io]. unfold stat_reader. destruct (cb ab st0) as [q|]; opt; done.
Qed.

(** The attributes of [st'] for a mask: those of [st] that the mask names, as far
    as version 3 carries them, and those of [st0] for the rest. *)
Record agree (m : Z) (st st0 st' : system_stat) : Prop := {
  ag_size : sst_size st' = if has m SSH_FILEXFER_ATTR_SIZE then sst_size st else sst_size st0;
  ag_uid : sst_uid st' = if has m SSH_FILEXFER_ATTR_UIDGID then user_read (sst_uid st) else sst_uid st0;
  ag_gid : sst_gid st' = if has m SSH_FILEXFER_ATTR_UIDGID then group_read (sst_gid st) else sst_gid st0;
  ag_type : get_type_system_stat st' = get_type_system_stat (if has m SSH_FILEXFER_ATTR_PERMISSIONS then st else st0);
  ag_mode : get_mode_system_stat st' = if has m SSH_FILEXFER_ATTR_PERMISSIONS then Z.land (get_mode_system_stat st) S_IRWXALL else get_mode_system_stat st0;
  ag_atime : sst_atime st' = if has m SSH_FILEXFER_ATTR_ACMODTIME then mk_time (u32 (st_sec (sst_atime st))) 0 else sst_atime st0;
  ag_mtime : sst_mtime st' = if has m SSH_FILEXFER_ATTR_ACMODTIME then mk_time (u32 (st_sec (sst_mtime st))) 0 else sst_mtime st0;
  ag_rest : sst_nlink st' = sst_nlink st0 /\ sst_ino st' = sst_ino st0 /\ sst_ctime st' = sst_ctime st0 /\ sst_btime st' = sst_btime st0
}.

Lemma size_back z : is_u64 z -> u64 (sgn 64 (u64 (sgn 64 z))) = z.
Proof.
  intros Hz. assert (forall x, u64 (sgn 64 x) = u64 x) as H.
  { intros x. unfold u64, sgn. rewrite Zminus_mod, Zmod_mod, <- Zminus_mod. f_equal. lia. }
  rewrite !H. unfold u64. rewrite Zmod_mod, Z.mod_small; [done |]. exact Hz.
Qed.

Lemma mode_back st st0 : wf_stat st -> is_u16 (sst_mode st0) -> let st' := apply_v03 st st0 2 in
  get_type_system_stat st' = get_type_system_stat st /\ get_mode_system_stat st' = Z.land (get_mode_system_stat st) S_IRWXALL.
Proof.
  intros Hs Hm0 st'. pose proof Hs as (Hm & _). pose proof (mode_split _ Hm) as Hsp.
  pose proof (Z.mod_pos_bound (sst_mode st) 512 ltac:(lia)) as Hp. set (t := sst_mode st / 4096) in *. set (p := sst_mode st mod 512) in *.
  assert (u16 (Z.land (mode_v03 st) S_IFMT) = 4096 * t) as Et.
  { rewrite land_ifmt, mode_v03_value by done. fold t p. replace ((4096 * t + p) / 4096) with t by (apply (Z.div_unique _ _ _ p); lia).
    unfold u16. rewrite (Z.mod_small t) by lia. apply Z.mod_small. lia. }
  assert (u16 (Z.land (mode_v03 st) S_IRWXALL) = p) as Ep.
  { rewrite land_rwx, mode_v03_value by done. fold t p. replace ((4096 * t + p) mod 512) with p by (apply (Z.mod_unique _ _ (8 * t)); lia).
    unfold u16. apply Z.mod_small. lia. }
  assert (sst_mode (set_type_system_stat st0 (4096 * t)) = 4096 * t + sst_mode st0 mod 4096) as E1.
  { rewrite set_type_value by (done || unfold is_u16; lia). f_equal. f_equal. rewrite Z.mul_comm. by apply Z.div_mul. }
  pose proof (Z.mod_pos_bound (sst_mode st0) 4096 ltac:(lia)) as Hp0.
  assert (sst_mode st' = 4096 * t + p) as E.
  { subst st'. cbn [apply_v03]. rewrite Et, Ep, set_mode_value; [| rewrite E1; unfold is_u16; lia | unfold is_u16; lia]. rewrite E1.
    replace ((4096 * t + sst_mode st0 mod 4096) / 4096) with t by (apply (Z.div_unique _ _ _ (sst_mode st0 mod 4096)); lia). f_equal. apply Z.mod_small. lia. }
  assert (is_u16 (sst_mode st')) as Hm' by (rewrite E; unfold is_u16; lia). split.
  - rewrite !get_type_value by done. rewrite E. f_equal. symmetry. apply (Z.div_unique _ _ _ p); lia.
  - rewrite !get_mode_value, land_rwx by done. rewrite E. replace ((4096 * t + p) mod 4096) with p by (apply (Z.mod_unique _ _ t); lia).
    unfold p. change 4096 with (512 * 8). rewrite Z.rem_mul_r by lia. rewrite (Z.mul_comm 512), Z.mod_add, Z.mod_mod by lia. done.
Qed.

Lemma agree_order m st st0 : wf_stat st -> wf_stat st0 -> agree m st st0 (foldl (apply_v03 st) st0 (order_v03 (Z.land m w_mask_v03))).
Proof.
  intros Hs Hs0. pose proof Hs as (_ & _ & _ & Hz). pose proof (size_back _ Hz) as Hsz.
  rewrite order_selected, !foldl_app.
  set (s1 := foldl (apply_v03 st) st0 (if has m SSH_FILEXFER_ATTR_SIZE then _ else _)).
  set (s2 := foldl (apply_v03 st) s1 (if has m SSH_FILEXFER_ATTR_UIDGID then _ else _)).
  assert (sst_mode s2 = sst_mode st0) as Hm by (subst s1 s2; by destruct (has m SSH_FILEXFER_ATTR_SIZE), (has m SSH_FILEXFER_ATTR_UIDGID)).
  assert (is_u16 (sst_mode s2)) as Hs2 by (rewrite Hm; by destruct Hs0).
  destruct (mode_back st s2 Hs Hs2) as [Ht Hmo].
  assert (get_type_system_stat s2 = get_type_system_stat st0 /\ get_mode_system_stat s2 = get_mode_system_stat st0) as [Et Em].
  { unfold get_type_system_stat, get_mode_system_stat. by rewrite Hm. }
  clear Hs2 Hm. split.
  all: destruct (has m SSH_FILEXFER_ATTR_PERMISSIONS), (has m SSH_FILEXFER_ATTR_ACMODTIME); cbn [foldl]; (exact Ht || exact Hmo || exact Et || exact Em || idtac).
  all: subst s1 s2; by destruct (has m SSH_FILEXFER_ATTR_SIZE), (has m SSH_FILEXFER_ATTR_UIDGID).
Qed.

(** Reading them back. *)
Lemma read_back v c mem m st st0 ab0 : cache_ok v c -> wf_stat st -> wf_stat st0 ->
  let enc := encoding wmap st (order_v03 (Z.land m w_mask_v03)) in
  exists s3 c3, read_attributes_generic mem (actx v) c (set_attr_buffer_read ab0 enc (zlen enc)) RW_ATTR_RESULT_INIT st0 (Z.land m w_mask_v03) = Some (s3, c3) /\
    cache_ok v c3 /\ ab_left (ps_ab s3) = 0 /\ agree m st st0 (ps_stat s3).
Proof.
  intros Hc Hs Hs0 enc. pose proof (order_writable m) as Hw. pose proof (order_short m) as Hl. pose proof (encoding_short wmap m st) as Hn. fold enc in Hn.
  unfold read_attributes_generic.
  match goal with |- context [parse_attributes_generic _ c ?f ?s ?w] =>
    destruct (generic_run map v c f s w Hc (read_marking map v) (read_flagless map v)) as [fl E]; pose proof (generic_notes map v c f s) as N end.
  cbn [ps_r] in E.
  match type of E with context [order_v03 ?x] => assert (x = Z.land m w_mask_v03) as Hsel end.
  { cbn [v_mask selected r_flags or_flag RW_ATTR_RESULT_INIT ac_r_valid init_attr_context_v03]. apply Z.bits_inj'. intros n Hn'.
    rewrite !Z.land_spec, Z.ldiff_spec, !Z.land_spec. change (v_mask (if has _ _ then _ else _)) with (Z.lor w_mask_v03 SSH_FILEXFER_ATTR_EXTENDED).
    rewrite Z.lor_spec. destruct (Z.testbit m n); [| done]. cbn [andb]. destruct (Z.testbit w_mask_v03 n) eqn:Ew; [| done].
    cbn [andb orb]. rewrite andb_true_r. apply negb_true_iff.
    destruct (Z.testbit SSH_FILEXFER_ATTR_SUBSECOND_TIMES n) eqn:Es; [| done].
    change SSH_FILEXFER_ATTR_SUBSECOND_TIMES with (2 ^ 8) in Es. rewrite Z.pow2_bits_eqb in Es by lia. apply Z.eqb_eq in Es. subst n. by vm_compute in Ew. }
  rewrite Hsel in E.
  match type of E with context [run_cbs _ _ ?x] => pose proof (run_read v st _ Hw Hs x (ps_stat x)) as Ha end.
  destruct (accepts_whole _ enc _ ab0 (Ha ltac:(unfold ATTR_CONTEXT_COUNT_ATTR_CB; cbn [ps_cb set_r length]; lia)) ltac:(lia)) as (r & Hr & _ & Hleft).
  match type of Hr with context [run_cbs ?f ?l ?x] => destruct (run_cbs f l x) as [s1|] eqn:E1; [| done] end. cbn [mbind option_bind] in Hr.
  injection Hr as Hst Hab.
  match type of E with context [run_cbs ?f ?l ?x] => assert (run_cbs f l x = Some s1) as E2 by exact E1; rewrite E2 in E end. cbn [option_map] in E. rewrite E. opt.
  destruct (remember_ok map v mem c (with_flags fl s1) Hc) as (c3 & -> & Hc3).
  { eapply N; [exact Hc | apply read_marking | apply read_flagless | apply read_noting | done | exact E]. }
  opt. eexists _, _. split; [reflexivity |]. split; [done |]. cbn [with_flags set_r ps_ab ps_stat]. rewrite Hab, Hst. split; [done |]. by apply agree_order.
Qed.

(** C6: the attributes of version 3 survive the wire. For every mask of valid bits,
    any id mappings of the two sides and any caches the two can have: the size
    that is computed beforehand is exactly what is written, the writer fills a
    buffer of that size, and the reader consumes all of it and gets the attributes
    the mask names (size, type and permission bits, the seconds of the times
    modulo 2^32, and for owner and group what its mapping makes of the ids that
    the mapping of the writer has put on the wire), and changes no other attribute. *)
Theorem attr_v03_roundtrip (v : Z) (c cr : attr_cache) (mem memr : bool) (m : Z) (st st0 : system_stat) (ab0 : attr_buffer) :
  cache_ok v c -> cache_ok v cr -> wf_stat st -> wf_stat st0 ->
  exists n s1 c1, get_size_buffer_write_attributes mem (wctx v) c ab0 RW_ATTR_RESULT_INIT st (mk_valid 0 m) = Some (n, s1, c1) /\
    forall buffer, zlen buffer = n -> exists s2 s3 c3,
      write_attributes_generic (wctx v) c1 (set_attr_buffer_write ab0 buffer n) RW_ATTR_RESULT_INIT st (mk_valid 0 m) = Some s2 /\
      ab_left (ps_ab s2) = 0 /\
      read_attributes_generic memr (actx v) cr (set_attr_buffer_read ab0 (ab_buffer (ps_ab s2)) n) RW_ATTR_RESULT_INIT st0 (Z.land m w_mask_v03) = Some (s3, c3) /\
      ab_left (ps_ab s3) = 0 /\ agree m st st0 (ps_stat s3).
Proof.
  intros Hc Hcr Hs Hs0. destruct (size_and_write wmap v c mem m st ab0 Hc) as [(s1 & c1 & Hn & Hc1) _].
  destruct (size_and_write wmap v c1 mem m st ab0 Hc1) as [_ Hw]. destruct (read_back v cr memr m st st0 ab0 Hcr Hs Hs0) as (s3 & c3 & Hr & _ & Hl & Ha).
  eexists _, s1, c1. split; [exact Hn |]. intros buffer Hb. destruct (Hw buffer Hb) as (s2 & Hw2 & Ebuf & El).
  exists s2, s3, c3. by rewrite Ebuf.
Qed.

End ReadBack.

(** ** Examples *)

(** The mapping of a host that shares its users with the other side. *)
Definition same_ids : idmapping := mk_mapping (fun x => x) (fun x => x) (fun x => x) (fun x => x).

Definition ex_time (s : Z) : timespec := mk_time s 500.
Definition ex_stat : system_stat := mk_stat 0 33188 1 1000 100 4096 77 (ex_time 1700000000) (ex_time 1700000001) (ex_time 5) (ex_time 6).
Definition zero_stat : system_stat := mk_stat 0 0 0 0 0 0 0 (mk_time 0 0) (mk_time 0 0) (mk_time 0 0) (mk_time 0 0).

Lemma ex_stat_wf : wf_stat ex_stat.
Proof. by vm_compute. Qed.
Lemma zero_stat_wf : wf_stat zero_stat.
Proof. by vm_compute. Qed.

(** A cache with one entry, as the first computation of a size leaves it. *)
Definition ex_cache : attr_cache := <[13%nat := [mk_hashed (mk_valid 0 13) 3 20 0 [0; 2; 3]%nat]]> init_hashattr_generic.

Lemma ex_cache_ok : cache_ok 3 ex_cache.
Proof.
  split; [done |]. intros i row h Hi Hh _. unfold ex_cache in Hi. destruct (decide (i = 13%nat)) as [-> |Hn].
  - injection Hi as <-. apply elem_of_cons in Hh as [-> |Hh]; [done | by apply elem_of_nil in Hh].
  - rewrite list_lookup_insert_ne in Hi by done. apply lookup_replicate in Hi as [-> _]. by apply elem_of_nil in Hh.
Qed.

(** The mappings of a client by ids, of a user 1000 that is 500 on the server: root is
    root, and everything else is this user; and of a server that uses its ids as they are. *)
Definition one_user : idmapping :=
  mk_mapping (fun id => if id =? 0 then 0 else 1000) (fun id => if id =? 0 then 0 else 500)
    (fun id => if id =? 0 then 0 else 1000) (fun id => if id =? 0 then 0 else 500).
Definition own_ids : idmapping := mk_mapping u32 u32 u32 u32.

Lemma attr_v03_roundtrip_witness :
  exists n s1 c1, get_size_buffer_write_attributes true (init_attr_context_v03 own_ids 3) ex_cache init_read_attr_buffer RW_ATTR_RESULT_INIT ex_stat (mk_valid 0 15) = Some (n, s1, c1) /\
    forall buffer, zlen buffer = n -> exists s2 s3 c3,
      write_attributes_generic (init_attr_context_v03 own_ids 3) c1 (set_attr_buffer_write init_read_attr_buffer buffer n) RW_ATTR_RESULT_INIT ex_stat (mk_valid 0 15) = Some s2 /\
      ab_left (ps_ab s2) = 0 /\
      read_attributes_generic true (init_attr_context_v03 one_user 3) ex_cache (set_attr_buffer_read init_read_attr_buffer (ab_buffer (ps_ab s2)) n) RW_ATTR_RESULT_INIT zero_stat (Z.land 15 w_mask_v03) = Some (s3, c3) /\
      ab_left (ps_ab s3) = 0 /\ agree own_ids one_user 15 ex_stat zero_stat (ps_stat s3).
Proof.
  apply (attr_v03_roundtrip own_ids one_user); [intros id; apply u32_range | intros id; apply u32_range | apply ex_cache_ok | apply ex_cache_ok | apply ex_stat_wf | apply zero_stat_wf].
Defined.

Lemma stat_mask_translation_witness :
  exists m sm', translate_stat_mask_2_valid (init_attr_context_v03 same_ids 3) ex_cache 520 DirWrite init_read_attr_buffer zero_stat = Some m /\
    (forall ctr e, writable ctr -> attrcb_v03 same_ids !! ctr = Some e -> has m (cb_code e) = has (cb_stat_mask e) 520) /\
    translate_valid_2_stat_mask (init_attr_context_v03 same_ids 3) ex_cache (mk_valid 0 m) DirWrite init_read_attr_buffer zero_stat = Some sm' /\
    Z.ldiff (Z.land 520 supported_stat_v03) sm' = 0.
Proof. apply (stat_mask_translation same_ids 3 ex_cache 520 init_read_attr_buffer zero_stat ex_cache_ok). Defined.

(** Values of the two translations and of [enable_attr_v03]. *)
Lemma ex_translations :
  translate_stat_mask_2_valid (init_attr_context_v03 same_ids 3) ex_cache 520 DirWrite init_read_attr_buffer zero_stat = Some 3 /\
  translate_valid_2_stat_mask (init_attr_context_v03 same_ids 3) ex_cache (mk_valid 0 3) DirWrite init_read_attr_buffer zero_stat = Some 536 /\
  enable_attr_v03 (mk_valid 0 1) [103; 114; 111; 117; 112; 0] = Some (1, mk_valid 0 3).
Proof. by vm_compute. Qed.

Lemma attr_cache_transparent_witness :
  option_map (with_flags 0) (write_attributes_generic (init_attr_context_v03 same_ids 3) ex_cache (set_attr_buffer_write init_read_attr_buffer (repeat 0 20) 20) RW_ATTR_RESULT_INIT ex_stat (mk_valid 0 13)) =
  option_map (with_flags 0) (write_attributes_generic (init_attr_context_v03 same_ids 3) init_hashattr_generic (set_attr_buffer_write init_read_attr_buffer (repeat 0 20) 20) RW_ATTR_RESULT_INIT ex_stat (mk_valid 0 13)).
Proof. apply (attr_cache_transparent same_ids 3 ex_cache _ RW_ATTR_RESULT_INIT ex_stat true ex_cache_ok). Defined.

Lemma attr_cache_sound_witness : cache_ok 3 (default [] (snd <$> get_size_buffer_write_attributes true (init_attr_context_v03 same_ids 3) ex_cache init_read_attr_buffer RW_ATTR_RESULT_INIT ex_stat (mk_valid 0 3))).
Proof.
  destruct (get_size_buffer_write_attributes true (init_attr_context_v03 same_ids 3) ex_cache init_read_attr_buffer RW_ATTR_RESULT_INIT ex_stat (mk_valid 0 3)) as [[[n s] c]|] eqn:E; [| by vm_compute in E].
  cbn. eapply (attr_cache_sound same_ids 3 ex_cache c init_read_attr_buffer RW_ATTR_RESULT_INIT ex_stat true); [apply ex_cache_ok | exact E].
Defined.

(** the two sides of a NAME response of version 3 disagree about the order.
    [write_name_name_response_v03] writes the empty longname before the name,
    [read_name_name_response_v03] reads the name first: whatever name is written,
    the reader gets the empty one. *)
Theorem name_response_v03_swapped (d : bytes) (ab0 : attr_buffer) : zlen d < 2 ^ 31 - 8 ->
  exists w s r, write_name_name_response_v03 (set_attr_buffer_write ab0 (repeat 0 (Z.to_nat (8 + zlen d))) (8 + zlen d)) (mk_ssh_string 0 (zlen d) 0 (PMem d) []) = Some w /\
    ab_buffer w = be_encode 4 0 ++ be_encode 4 (zlen d) ++ d /\
    read_name_name_response_v03 (set_attr_buffer_read ab0 (ab_buffer w) (8 + zlen d)) SSH_STRING_INIT = Some (s, r) /\ s_len s = 0.
Proof.
  intros Hd. pose proof (zlen_nonneg d). set (enc := be_encode 4 0 ++ be_encode 4 (zlen d) ++ d).
  assert (zlen enc = 8 + zlen d) as Hz by (unfold enc; rewrite !zlen_app, !zlen_be_encode; lia).
  assert (s_data (mk_ssh_string 0 (zlen d) 0 (PMem d) []) = Some d) as Hsd.
  { unfold s_data. cbn [s_view s_ptr s_len]. opt. rewrite mem_read_Some by lia. f_equal. unfold zlen. rewrite Nat2Z.id. cbn [Z.to_nat drop]. by apply take_ge. }
  assert (Emits (fun ab => write_name_name_response_v03 ab (mk_ssh_string 0 (zlen d) 0 (PMem d) [])) enc) as He.
  { apply emits_bind; [apply emits_uint32 | by apply emits_string]. }
  destruct (emits_two_pass _ enc (repeat 0 (Z.to_nat (8 + zlen d))) ab0 He) as (n & w & _ & En & Hw & Eb & _ & _).
  { lia. }
  { rewrite Hz. unfold zlen at 1. rewrite length_replicate || rewrite repeat_length. lia. }
  rewrite En, Hz in Hw. exists w.
  assert (Accepts read_uint32 (be_encode 4 0) 0) as H0 by by apply accepts_uint32.
  assert (Accepts read_uint32 (be_encode 4 (zlen d)) (zlen d)) as H1 by (apply accepts_uint32; unfold is_u32; lia).
  unfold read_name_name_response_v03, read_string. rewrite Eb.
  set (ab := set_attr_buffer_read ab0 enc (8 + zlen d)).
  assert (zlen (ab_buffer ab) < 2 ^ 32) as Hlen by (cbn [ab set_attr_buffer_read ab_buffer]; lia).
  rewrite (H0 ab [] (be_encode 4 (zlen d) ++ d)); [| done | done | done | cbn [ab set_attr_buffer_read ab_left]; rewrite sgn_small, zlen_be_encode; lia].
  opt. cbn [Z.ltb Z.compare andb]. opt.
  rewrite (H1 _ (be_encode 4 0) d); cbn [moved set_cursor ab set_attr_buffer_read ab_buffer ab_pos ab_left]; [| done | rewrite !zlen_be_encode; done | lia |].
  2: { rewrite !zlen_be_encode, !sgn_small by (rewrite ?sgn_small; lia). lia. }
  opt. cbn [moved set_cursor ab_left ab_pos ab_buffer set_attr_buffer_read ab]. rewrite !zlen_be_encode.
  replace (_ <=? zlen enc) with true by (symmetry; apply Z.leb_le; lia).
  destruct (_ && _); opt; (eexists _, _; split; [exact Hw | split; [done | split; [reflexivity | done]]]).
Qed.

Lemma name_response_v03_swapped_witness :
  exists w s r, write_name_name_response_v03 (set_attr_buffer_write init_read_attr_buffer (repeat 0 (Z.to_nat (8 + zlen [97; 98]))) (8 + zlen [97; 98])) (mk_ssh_string 0 (zlen [97; 98]) 0 (PMem [97; 98]) []) = Some w /\
    ab_buffer w = be_encode 4 0 ++ be_encode 4 (zlen [97; 98]) ++ [97; 98] /\
    read_name_name_response_v03 (set_attr_buffer_read init_read_attr_buffer (ab_buffer w) (8 + zlen [97; 98])) SSH_STRING_INIT = Some (s, r) /\ s_len s = 0.
Proof. apply (name_response_v03_swapped [97; 98]). by vm_compute. Defined.

End SftpAttr.
