(* ===== verification/FsPath.v ===== *)
(** * lib/fspath: paths in a buffer

    A [struct fs_path_s] is a part of a buffer: [len] bytes from [start], in an
    object of [size] bytes, without a terminating zero of its own.  The functions
    that set, copy, append, combine, compare and shorten paths, and the one that
    reads the target of a symbolic link.  [realloc] and [readlink] are arguments. *)

From stdpp Require Import base list list_numbers numbers option.
From S2P Require Import Prelude SshString.
Import SshString.

Module FsPath.

Definition FS_PATH_FLAG_BUFFER_ALLOC := 2.
Definition slash := 47.
Definition dot := 46.
Definition EINVAL := 22.
Definition ENOMEM := 12.

Record fs_path := mk_path {
  fp_flags : Z;
  fp_back : Z;
  fp_size : Z;
  fp_start : Z;
  fp_len : Z;
  fp_buffer : option bytes      (* NULL or the object *)
}.

Definition FS_PATH_INIT := mk_path 0 0 0 0 0 None.

Definition set_len v p := mk_path (fp_flags p) (fp_back p) (fp_size p) (fp_start p) v (fp_buffer p).
Definition set_start v p := mk_path (fp_flags p) (fp_back p) (fp_size p) v (fp_len p) (fp_buffer p).
Definition set_buffer v p := mk_path (fp_flags p) (fp_back p) (fp_size p) (fp_start p) (fp_len p) v.
Definition set_size v p := mk_path (fp_flags p) (fp_back p) v (fp_start p) (fp_len p) (fp_buffer p).
Definition set_back v p := mk_path (fp_flags p) v (fp_size p) (fp_start p) (fp_len p) (fp_buffer p).
Definition set_flags v p := mk_path v (fp_back p) (fp_size p) (fp_start p) (fp_len p) (fp_buffer p).

(** What the [type] byte and [ptr] of several functions stand for: a C string, an
    ssh string, a path, a [struct name_string_s]; any other byte. *)
Inductive path_arg :=
| ArgC (s : bytes)
| ArgS (ptr : option bytes) (len : Z)
| ArgP (p : fs_path)
| ArgN (ptr : option bytes) (len : Z)
| ArgOther.

(** ** set.c, copy.c, misc.c: assignments *)

Definition fs_path_assign_buffer (buffer : option bytes) (size : Z) : fs_path := mk_path 0 0 size 0 0 buffer.

(** The path and, for type p, the other path, to which the [memcpy] writes. *)
Definition fs_path_set (path : fs_path) (arg : path_arg) : option (fs_path * path_arg) :=
  match arg with
  | ArgS ptr len => Some (fs_path_assign_buffer ptr len, arg)
  | ArgP other => Some (path, ArgP path)
  | ArgC s => let? n := strlen s in Some (fs_path_assign_buffer (Some s) (u32 n), arg)
  | ArgN ptr len => Some (fs_path_assign_buffer ptr len, arg)
  | ArgOther => Some (path, arg)
  end.

(** With whether the buffer is freed. *)
Definition fs_path_clear (path : fs_path) : bool * fs_path :=
  (has (fp_flags path) FS_PATH_FLAG_BUFFER_ALLOC, fs_path_assign_buffer None 0).

Definition fs_path_get_length (path : fs_path) : Z := match fp_buffer path with Some _ => fp_len path | None => 0 end.

(** A pointer is an offset in the buffer of the path. *)
Definition fs_path_get_start (path : fs_path) : option Z := match fp_buffer path with Some _ => Some (fp_start path) | None => None end.

(** The result and the destination. *)
Definition fs_path_copy (path : fs_path) (dest : bytes) (size : Z) : option (Z * bytes) :=
  match fp_buffer path with
  | Some b =>
      if fp_len path <=? size
      then let? d := mem_read b (fp_start path) (fp_len path) in let? dest := mem_write dest 0 d in Some (fp_len path, dest)
      else Some (0, dest)
  | None => Some (0, dest)
  end.

(** ** append.c *)

(** What [realloc] does: it fails, or it returns the block where it was or
    somewhere else. *)
Inductive realloc_result := ReallocNull | ReallocSame | ReallocMoved.

(** [pstart1] is computed before the [realloc]: when the block has moved, the
    [memcpy] writes to memory that is freed. *)
Definition fs_path_append_raw (r : realloc_result) (path : fs_path) (pstart2 : bytes) (plen2 : Z) : option (Z * fs_path) :=
  let? b := fp_buffer path in
  let pstart1 := fp_start path + fp_len path in
  let pleft1 := u32 (fp_size path - fp_start path - fp_len path) in
  let copy (b : bytes) (path : fs_path) :=
    let? d := mem_read pstart2 0 plen2 in
    let? b := mem_write b pstart1 d in
    Some (plen2, set_len (u32 (fp_len path + plen2)) (set_buffer (Some b) path)) in
  if pleft1 <=? plen2 then
    let extra := u32 (plen2 + 1) in
    if has (fp_flags path) FS_PATH_FLAG_BUFFER_ALLOC then
      match r with
      | ReallocNull => Some (0, set_buffer None path)
      | ReallocMoved => None
      | ReallocSame =>
          copy (take (Z.to_nat (fp_size path)) b ++ replicate (Z.to_nat extra) 0) (set_size (u32 (fp_size path + extra)) path)
      end
    else Some (0, path)
  else copy b path.

(** [pstart2] and [plen2] of a [switch] on the type. *)
Definition arg_view (arg : path_arg) : option (option bytes * Z) :=
  match arg with
  | ArgC s => let? n := strlen s in Some (Some s, u32 n)
  | ArgS ptr len => Some (ptr, len)
  | ArgP other =>
      match fp_buffer other with Some b => Some (Some (drop (Z.to_nat (fp_start other)) b), fp_len other) | None => Some (None, 0) end
  | ArgN ptr len => Some (ptr, len)
  | ArgOther => Some (None, 0)
  end.

Definition fs_path_append (r : realloc_result) (path : fs_path) (arg : path_arg) : option (Z * fs_path) :=
  match fp_buffer path with
  | None => Some (0, path)
  | Some _ =>
      let? (pstart2, plen2) := arg_view arg in
      match pstart2 with Some s => fs_path_append_raw r path s plen2 | None => Some (0, path) end
  end.

(** For the types c, p, s and n. *)
Definition fs_path_get_append_required_size (path : fs_path) (arg : path_arg) : option Z :=
  match arg with
  | ArgC s => let? n := strlen s in Some (u32 (fp_len path + 2 + n))
  | ArgP other => Some (u32 (fp_len path + 2 + fp_len other))
  | ArgS _ len | ArgN _ len => Some (u32 (fp_len path + 2 + len))
  | ArgOther => Some 0
  end.

Definition fs_path_prepend_init (path : fs_path) : option fs_path :=
  let start := u32 (fp_size path - 1) in
  let? b := fp_buffer path in let? b := mem_write b start [0] in
  Some (set_len 1 (set_start start (set_buffer (Some b) path))).

Definition fs_path_prepend_raw (path : fs_path) (pstart2 : bytes) (plen2 : Z) : option fs_path :=
  let start := u32 (fp_start path - plen2) in
  let? b := fp_buffer path in let? d := mem_read pstart2 0 plen2 in let? b := mem_write b start d in
  Some (set_len (u32 (fp_len path + plen2)) (set_start start (set_buffer (Some b) path))).

(** ** filename.c *)

(** [memrchr (s, '/', length s)]: the offset of the last slash. *)
Fixpoint memrchr_slash (s : bytes) : option Z :=
  match s with
  | [] => None
  | c :: s => match memrchr_slash s with Some i => Some (1 + i) | None => if c =? slash then Some 0 else None end
  end.

(** The offset in the buffer of the name, and the string [filename] when it is
    written: its offset and length. *)
Definition fs_path_get_filename (path : fs_path) : option (option Z * option (Z * Z)) :=
  match fp_buffer path with
  | Some b =>
      let? s := mem_read b (fp_start path) (fp_len path) in
      match memrchr_slash s with
      | Some i => Some (Some (fp_start path + i), Some (fp_start path + i, u32 (fp_len path - i)))
      | None => Some (None, None)
      end
  | None => Some (None, None)
  end.

(** [filename]: the offset of a string in the buffer of the path, and its length. *)
Definition fs_path_remove_filename (path : fs_path) (filename : Z * Z) : fs_path :=
  match fp_buffer path with
  | Some b =>
      let (ptr, len) := filename in
      let pstart := fp_start path in
      let pend := pstart + fp_len path in
      if ptr =? pstart then
        if ptr <? pend then set_len (u32 (fp_len path - len)) (set_start ptr path) else path
      else if ptr + len =? pend then
        if pstart <? ptr then set_len (u32 (fp_len path - len)) path else path
      else path
  | None => path
  end.

(** ** compare.c *)

(** The result and, when the [memcmp] finds a prefix, what is stored in [sub]: an
    offset and a length; [None] for the difference with a NULL pointer. *)
Definition fs_path_compare (path : fs_path) (arg : path_arg) : option (Z * option (option (Z * Z))) :=
  let? (pstart2, plen2) := arg_view arg in
  match fp_buffer path, pstart2 with
  | Some b, Some q =>
      let plen1 := fp_len path in
      if plen1 =? plen2 then
        let? s := mem_read b (fp_start path) plen1 in let? p := mem_read q 0 plen1 in
        Some (if bytes_eqb s p then 1 else 0, None)
      else if plen2 <? plen1 then
        let? s := mem_read b (fp_start path) plen2 in let? p := mem_read q 0 plen2 in
        if bytes_eqb s p then
          let? last := q !! Z.to_nat (u32 (plen2 - 1)) in
          if last =? slash then Some (2, Some (Some (fp_start path + plen2 - 1, plen1 - plen2 + 1)))
          else
            let? next := b !! Z.to_nat (fp_start path + plen2) in
            if next =? slash then Some (2, Some (Some (fp_start path + plen2, plen1 - plen2))) else Some (0, Some None)
        else Some (0, None)
      else Some (0, None)
  | _, _ => Some (0, None)
  end.

(** ** combine.c *)

(** [snprintf] of [%.*s/%.*s]: a string argument is read up to its precision or
    its first zero byte; the result is the number of bytes without the limit. *)
Fixpoint until_nul (n : nat) (s : bytes) : option bytes :=
  match n with
  | O => Some []
  | S n => match s with [] => None | c :: s => if c =? 0 then Some [] else let? r := until_nul n s in Some (c :: r) end
  end.

Definition fs_path_combine (result path : fs_path) (arg : path_arg) : option (Z * fs_path) :=
  match fp_buffer result with
  | None => Some (0, result)
  | Some rb =>
      if fp_size result =? 0 then Some (0, result)
      else
        let? (pstart2, plen2) := arg_view arg in
        match pstart2 with
        | None => Some (0, result)
        | Some q =>
            let? b := fp_buffer path in
            let? rb := memzero rb 0 (fp_size result) in
            let? s1 := until_nul (Z.to_nat (fp_len path)) (drop (Z.to_nat (fp_start path)) b) in
            let? s2 := until_nul (Z.to_nat plen2) q in
            let out := s1 ++ slash :: s2 in
            let? rb := mem_write rb 0 (take (Z.to_nat (fp_size result - 1)) out ++ [0]) in
            Some (zlen out, set_len (zlen out) (set_start 0 (set_buffer (Some rb) result)))
        end
  end.

(** ** misc.c: the target of a symbolic link *)

(** [readlink]: the error, or the target, of which at most [size] bytes are
    stored.  The loop enlarges the buffer by 64 bytes until the target is shorter
    than it. *)
Fixpoint read_target (fuel : nat) (readlink : Z + bytes) (alloc : Z -> bool) (size : Z) : outcome (Z + (bytes * Z * Z)) :=
  match fuel with
  | O => NoFuel
  | S fuel =>
      if alloc size then
        match readlink with
        | inl e => Ret (inl (- e))
        | inr target =>
            let got := take (Z.to_nat size) target in
            if size <=? zlen got then read_target fuel readlink alloc (u32 (size + 64))
            else Ret (inr (got ++ replicate (Z.to_nat (size - zlen got)) 0, size, zlen got))
        end
      else Ret (inl (- ENOMEM))
  end.

Definition fs_path_get_target_unix_symlink (fuel : nat) (readlink : Z + bytes) (alloc : Z -> bool) (path target : fs_path) : outcome (Z * fs_path) :=
  if 0 <? fs_path_get_length path then
    let! (_, tmp) := lift (fs_path_copy path (replicate (Z.to_nat (fp_len path + 1)) 0) (fp_len path)) in
    let! r := read_target fuel readlink alloc 64 in
    match r with
    | inl e => Ret (e, target)
    | inr (buffer, size, n) =>
        Ret (0, mk_path (Z.lor (fp_flags target) FS_PATH_FLAG_BUFFER_ALLOC) (fp_back target) size 0 n (Some buffer))
    end
  else Ret (- EINVAL, target).

(** ** misc.c: removal of elements *)

Inductive action := Append | Ignore | Up.

(** [strncmp (pos, lit, length lit) == 0]. *)
Definition starts (b : bytes) (pos : Z) (lit : bytes) : option bool :=
  let? d := mem_read b pos (zlen lit) in Some (bytes_eqb d lit).

(** The first literal that matches decides. *)
Fixpoint first_match (b : bytes) (pos : Z) (cases : list (bytes * action)) (len : Z) : option (action * Z) :=
  match cases with
  | [] => Some (Append, len)
  | (lit, a) :: cases => let? m := starts b pos lit in if m : bool then Some (a, zlen lit) else first_match b pos cases len
  end.

Definition handle_path_element (b : bytes) (pos len : Z) : option (action * Z) :=
  if 3 <=? len then
    first_match b pos
      ((if 4 <=? len then [([slash; dot; dot; slash], Up)] else []) ++
       (if len =? 3 then [([slash; dot; dot], Up); ([dot; dot; slash], Up)] else []) ++
       [([slash; dot; slash], Ignore); ([slash; slash; slash], Ignore); ([slash; slash], Ignore); ([slash; dot], Ignore)]) len
  else if len =? 2 then first_match b pos [([slash; dot], Ignore); ([slash; slash], Ignore)] len
  else if len =? 1 then first_match b pos [([dot], Ignore)] len
  else Some (Append, len).

(** [memchr (s, '/', length s)]. *)
Fixpoint memchr_slash (s : bytes) : option Z :=
  match s with [] => None | c :: s => if c =? slash then Some 0 else option_map (Z.add 1) (memchr_slash s) end.

(** The first half of an iteration; [h1] is [hlpr[1]]. *)
Definition next_element (start : Z) (b : bytes) (pos left : Z) (h1 : option Z) : option (action * Z) :=
  match h1 with
  | None => handle_path_element b pos left
  | Some h => if start <? h then handle_path_element b pos (h - pos + 1) else Some (Append, 1)
  end.

(** The [while] loop: the buffer, [pos], [left], [len], [hlpr[0]] and [back];
    pointers are offsets in the buffer. *)
Fixpoint remove_loop (fuel : nat) (start : Z) (b : bytes) (pos left len : Z) (h0 : option Z) (back : Z) : outcome (bytes * Z * Z) :=
  match fuel with
  | O => NoFuel
  | S fuel =>
      if 0 <? left then
        let! s := lift (mem_read b pos left) in
        let h1 := option_map (Z.add pos) (memchr_slash s) in
        let! (act, n) := lift (next_element start b pos left h1) in
        match act with
        | Append => remove_loop fuel start b (pos + n) (left - n) (len + n) (match h1 with Some h => Some h | None => h0 end) back
        | Ignore =>
            let! b := lift (memmove b pos (pos + n) (left - n)) in
            remove_loop fuel start b (pos + n) (left - n) len h0 back
        | Up =>
            match h0 with
            | Some h => let! b := lift (memmove b (h + 1) (pos + n) (left - n)) in remove_loop fuel start b (h + 1) (left - n) len h0 back
            | None => let! b := lift (memmove b start (pos + n) (left - n)) in remove_loop fuel start b start (left - n) len h0 (u8 (back + 1))
            end
        end
      else Ret (b, len, back)
  end.

Definition fs_path_remove_unneeded_elements (fuel : nat) (path : fs_path) : outcome (Z * fs_path) :=
  let! b := lift (fp_buffer path) in
  let plen := fp_len path in
  let! (b, len, back) := remove_loop fuel (fp_start path) b (fp_start path) plen 0 None (fp_back path) in
  let path := set_back back path in
  if len <? plen then
    let! b := lift (memzero b (fp_start path + len) (plen - len)) in
    Ret (len, set_len len (set_buffer (Some b) path))
  else Ret (len, set_buffer (Some b) path).

(** ** Well formed paths *)

Definition wf_path (p : fs_path) : Prop :=
  exists b, fp_buffer p = Some b /\ is_u32 (fp_size p) /\ fp_size p <= zlen b /\
    0 <= fp_start p /\ 0 <= fp_len p /\ fp_start p + fp_len p <= fp_size p.

(** The bytes of the path. *)
Definition path_bytes (p : fs_path) : bytes :=
  match fp_buffer p with Some b => take (Z.to_nat (fp_len p)) (drop (Z.to_nat (fp_start p)) b) | None => [] end.

(** The part of a path that the buffer still has room for. *)
Definition room (p : fs_path) : Z := fp_size p - fp_start p - fp_len p.

Lemma view_split (b : bytes) start len : 0 <= start -> 0 <= len -> start + len <= zlen b ->
  exists x v y, b = x ++ v ++ y /\ zlen x = start /\ zlen v = len /\ v = take (Z.to_nat len) (drop (Z.to_nat start) b).
Proof.
  intros Hs Hl Hb. exists (take (Z.to_nat start) b), (take (Z.to_nat len) (drop (Z.to_nat start) b)), (drop (Z.to_nat len) (drop (Z.to_nat start) b)).
  rewrite !take_drop. repeat split; [apply zlen_take; lia | apply zlen_take; rewrite zlen_drop; lia].
Qed.

Lemma take_drop_middle_app (x v y : bytes) : take (length v) (drop (length x) (x ++ v ++ y)) = v.
Proof. by rewrite drop_app_length, take_app_length. Qed.

(** [memcpy] behind the end of the path. *)
Lemma write_behind b start len d b' :
  0 <= start -> 0 <= len -> mem_write b (start + len) d = Some b' ->
  take (Z.to_nat (len + zlen d)) (drop (Z.to_nat start) b') = take (Z.to_nat len) (drop (Z.to_nat start) b) ++ d.
Proof.
  intros Hs Hl Hw. pose proof (mem_write_inv _ _ _ _ Hw) as (_ & Hb & _).
  destruct (view_split b start len Hs Hl) as (x & v & y & -> & Hx & Hv & Ev); [pose proof (zlen_nonneg d); lia |]. rewrite <- Ev.
  rewrite app_assoc in Hw, Hb. rewrite !zlen_app in Hb. replace (start + len) with (zlen (x ++ v)) in Hw by (rewrite zlen_app; lia).
  destruct (view_split y 0 (zlen d)) as (z & e & y' & -> & Hz & He & _); [lia | apply zlen_nonneg | lia |].
  destruct z; [| rewrite zlen_cons in Hz; pose proof (zlen_nonneg z0); lia]. simpl in Hw.
  rewrite mem_write_free in Hw by done. injection Hw as <-.
  replace (Z.to_nat start) with (length x) by (unfold zlen in *; lia).
  replace (Z.to_nat (len + zlen d)) with (length (v ++ d)) by (rewrite length_app; unfold zlen in *; lia).
  rewrite <- (app_assoc x v), (app_assoc v d). apply take_drop_middle_app.
Qed.

(** ** Appending *)

Lemma wf_path_intro f bk size start len b :
  is_u32 size -> size <= zlen b -> 0 <= start -> 0 <= len -> start + len <= size -> wf_path (mk_path f bk size start len (Some b)).
Proof. intros. exists b. by repeat (split; [done |]). Qed.

(** The [memcpy] of [fs_path_append_raw] in a buffer that has room. *)
Lemma append_copy p s n b :
  wf_path p -> 0 <= n <= zlen s -> fp_buffer p = Some b -> n < room p ->
  exists b', (let? d := mem_read s 0 n in mem_write b (fp_start p + fp_len p) d) = Some b' /\
    let p' := set_len (fp_len p + n) (set_buffer (Some b') p) in wf_path p' /\ path_bytes p' = path_bytes p ++ take (Z.to_nat n) s.
Proof.
  intros (b0 & Eb & Hu & Hsz & Hs & Hl & Hb) Hn E Hroom. rewrite Eb in E. injection E as ->. unfold room in Hroom.
  rewrite mem_read_Some by lia. opt. rewrite drop_0. set (d := take (Z.to_nat n) s).
  assert (zlen d = n) as Hd by (by apply zlen_take). destruct (mem_write b (fp_start p + fp_len p) d) as [b'|] eqn:Ew;
    [| rewrite mem_write_Some in Ew by lia; done].
  exists b'. split; [done |]. pose proof (mem_write_len _ _ _ _ Ew). split.
  - destruct Hu. apply (wf_path_intro _ _ _ _ _ b'); cbn; (done || lia).
  - unfold path_bytes. cbn [fp_len fp_start fp_buffer set_len set_buffer]. rewrite Eb. rewrite <- Hd. by apply write_behind.
Qed.

(** [fs_path_append_raw] appends: when there is room for the bytes and one more,
    the path becomes the path followed by them; when there is not, it returns 0
    and leaves a path in a buffer of the caller as it is, and a path in an
    allocated buffer is enlarged and appended to, provided that [realloc] leaves
    the block where it is. *)
Theorem append_raw_correct (r : realloc_result) (p : fs_path) (s : bytes) (n : Z) :
  wf_path p -> 0 <= n <= zlen s -> is_u32 (fp_size p + n + 1) ->
  (n < room p -> exists p', fs_path_append_raw r p s n = Some (n, p') /\ wf_path p' /\ path_bytes p' = path_bytes p ++ take (Z.to_nat n) s) /\
  (room p <= n -> has (fp_flags p) FS_PATH_FLAG_BUFFER_ALLOC = false -> fs_path_append_raw r p s n = Some (0, p)) /\
  (room p <= n -> has (fp_flags p) FS_PATH_FLAG_BUFFER_ALLOC = true -> r = ReallocSame ->
   exists p', fs_path_append_raw r p s n = Some (n, p') /\ wf_path p' /\ path_bytes p' = path_bytes p ++ take (Z.to_nat n) s).
Proof.
  intros Hwf Hn Hbig. pose proof Hwf as (b & Eb & Hu & Hsz & Hs & Hl & Hb). unfold is_u32 in Hbig, Hu. unfold fs_path_append_raw. rewrite Eb. opt. fold (room p).
  assert (u32 (room p) = room p) as -> by (apply u32_id; unfold is_u32, room; lia). split; [| split].
  - intros Hroom. destruct (Z.leb_spec (room p) n); [lia |]. destruct (append_copy p s n b Hwf Hn Eb Hroom) as (b' & E & Hp').
    destruct (mem_read s 0 n) as [d|]; [| done]. cbn [mbind option_bind] in *. rewrite E. opt. rewrite u32_id by (unfold is_u32, room in *; lia). eauto.
  - intros Hroom ->. destruct (Z.leb_spec (room p) n); [done | lia].
  - intros Hroom -> ->. destruct (Z.leb_spec (room p) n); [| lia]. rewrite (u32_id (n + 1)) by (unfold is_u32; lia).
    rewrite (u32_id (fp_size p + (n + 1))) by (unfold is_u32; lia).
    set (b1 := take (Z.to_nat (fp_size p)) b ++ replicate (Z.to_nat (n + 1)) 0).
    assert (zlen b1 = fp_size p + (n + 1)) as Hb1 by (unfold b1; rewrite zlen_app, zlen_take by lia; unfold zlen; rewrite length_replicate; lia).
    set (p1 := set_size (fp_size p + (n + 1)) (set_buffer (Some b1) p)).
    assert (wf_path p1) as Hwf1 by (apply wf_path_intro; cbn [fp_start fp_len set_buffer]; unfold is_u32; lia).
    destruct (append_copy p1 s n b1 Hwf1 Hn eq_refl) as (b' & E & Hw & Hv); [unfold room in *; cbn; lia |].
    destruct (mem_read s 0 n) as [d|]; [| done]. cbn [mbind option_bind] in *. change (fp_start p1 + fp_len p1) with (fp_start p + fp_len p) in E.
    rewrite E. opt. rewrite u32_id by (cbn; unfold is_u32; lia). eexists. split; [done |]. split; [exact Hw |].
    etransitivity; [exact Hv |]. f_equal. unfold path_bytes, p1, b1. cbn. rewrite Eb. cbn.
    rewrite !take_drop_commute, take_app_le by (rewrite length_take; unfold zlen in *; lia). by rewrite take_take, Nat.min_l by lia.
Qed.

(** when [realloc] moves the block, [fs_path_append_raw] writes through the old
    pointer. *)
Theorem append_raw_stale (p : fs_path) (s : bytes) (n : Z) :
  wf_path p -> room p <= n -> has (fp_flags p) FS_PATH_FLAG_BUFFER_ALLOC = true -> fs_path_append_raw ReallocMoved p s n = None.
Proof.
  intros (b & Eb & Hu & Hsz & Hs & Hl & Hb) Hroom Ha. unfold fs_path_append_raw. rewrite Eb, Ha. opt. fold (room p). unfold is_u32 in Hu.
  rewrite u32_id by (unfold is_u32, room; lia). by destruct (Z.leb_spec (room p) n); [| lia].
Qed.

(** ** Comparing *)

Lemma read_path p b : wf_path p -> fp_buffer p = Some b -> mem_read b (fp_start p) (fp_len p) = Some (path_bytes p).
Proof.
  intros (b' & Eb & Hu & Hsz & Hs & Hl & Hb) E. rewrite Eb in E. injection E as ->. unfold path_bytes. rewrite Eb. apply mem_read_Some; lia.
Qed.

Lemma zlen_path_bytes p : wf_path p -> zlen (path_bytes p) = fp_len p.
Proof.
  intros Hwf. pose proof Hwf as (b & Eb & _). pose proof (read_path p b Hwf Eb) as E. by apply mem_read_inv in E as (_ & _ & _ & _ & ?).
Qed.

Lemma bytes_eqb_true a b : bytes_eqb a b = true <-> a = b.
Proof. apply bool_decide_eq_true. Qed.

(** The bytes of the path behind offset [i]. *)
Lemma path_part p b i n : wf_path p -> fp_buffer p = Some b -> 0 <= i -> 0 <= n -> i + n <= fp_len p ->
  mem_read b (fp_start p + i) n = Some (take (Z.to_nat n) (drop (Z.to_nat i) (path_bytes p))).
Proof.
  intros (b' & Eb & Hu & Hsz & Hs & Hl & Hb) E Hi Hn Hin. rewrite Eb in E. injection E as ->. rewrite mem_read_Some by lia. f_equal.
  unfold path_bytes. rewrite Eb. rewrite skipn_firstn_comm, take_take, drop_drop, Nat.min_l by lia. do 2 f_equal. lia.
Qed.

Lemma path_lookup p b i : fp_buffer p = Some b -> 0 <= fp_start p -> 0 <= i < fp_len p -> b !! Z.to_nat (fp_start p + i) = path_bytes p !! Z.to_nat i.
Proof. intros Eb Hs Hi. unfold path_bytes. rewrite Eb. rewrite lookup_take, lookup_drop, decide_True by lia. f_equal. lia. Qed.

Definition ends_slash (q : bytes) : Prop := q !! Z.to_nat (zlen q - 1) = Some slash.

#[export] Instance ends_slash_dec q : Decision (ends_slash q).
Proof. apply _. Defined.

Lemma ends_slash_take (s : bytes) n : 0 < n <= zlen s -> ends_slash (take (Z.to_nat n) s) <-> s !! Z.to_nat (n - 1) = Some slash.
Proof. intros Hn. unfold ends_slash. by rewrite zlen_take, lookup_take, decide_True by lia. Qed.

Definition border (q rest : bytes) : Prop := ends_slash q \/ rest !! 0%nat = Some slash.

(** The case of a proper prefix. *)
Lemma compare_prefix p b s n :
  wf_path p -> fp_buffer p = Some b -> 0 < n <= zlen s -> is_u32 n -> n < fp_len p ->
  let q := take (Z.to_nat n) s in take (Z.to_nat n) (path_bytes p) = q ->
  exists r sub,
    (let? last := s !! Z.to_nat (u32 (n - 1)) in
     if last =? slash then Some (2, Some (Some (fp_start p + n - 1, fp_len p - n + 1)))
     else let? next := b !! Z.to_nat (fp_start p + n) in
          if next =? slash then Some (2, Some (Some (fp_start p + n, fp_len p - n))) else Some (0, Some None)) = Some (r, sub) /\
    (r = 1 <-> path_bytes p = q) /\
    (r = 2 <-> exists rest, path_bytes p = q ++ rest /\ rest <> [] /\ border q rest) /\
    (r = 2 -> exists off l b rest, sub = Some (Some (off, l)) /\ fp_buffer p = Some b /\ path_bytes p = q ++ rest /\
       mem_read b off l = Some (if decide (ends_slash q) then slash :: rest else rest)).
Proof.
  intros Hwf Eb Hn Hu Hlt q E. pose proof Hwf as (b' & Eb' & _ & Hsz & Hs & Hl & Hb). rewrite Eb in Eb'. injection Eb' as <-.
  pose proof (zlen_path_bytes p Hwf) as Hv. assert (zlen q = n) as Hq by (apply zlen_take; lia).
  set (rest := drop (Z.to_nat n) (path_bytes p)). assert (path_bytes p = q ++ rest) as Ev by (unfold rest; by rewrite <- E, take_drop).
  assert (zlen rest = fp_len p - n) as Hr by (unfold rest; rewrite zlen_drop; lia).
  assert (rest <> []) as Hne by (intros Hz; rewrite Hz in Hr; unfold zlen in Hr; simpl in Hr; lia).
  assert (forall rest', path_bytes p = q ++ rest' -> rest' = rest) as Huniq by (intros rest' E'; rewrite Ev in E'; by apply app_inv_head in E').
  assert (path_bytes p <> q) as Hneq by (intros Hz; rewrite Hz in Hv; lia).
  unfold is_u32 in Hu. rewrite u32_id by (unfold is_u32; lia).
  destruct (lookup_lt_is_Some_2 s (Z.to_nat (n - 1))) as [c Ec]; [unfold zlen in Hn; lia |]. rewrite Ec. opt.
  pose proof (ends_slash_take s n Hn) as Hes. fold q in Hes. rewrite Ec in Hes.
  assert (path_bytes p !! Z.to_nat n = rest !! 0%nat) as En by (unfold rest; rewrite lookup_drop; f_equal; lia).
  rewrite (path_lookup p b n Eb), En by lia. clearbody rest. destruct rest as [|c2 rest']; [done |]. cbn [lookup list_lookup]. opt.
  destruct (Z.eqb_spec c slash) as [->|Hc].
  - eexists _, _. split; [done |]. split; [done |]. split; [split; [intros _ | done]; eexists; repeat split; [done | done | left; by apply Hes] |].
    intros _. eexists _, _, b, _. split; [done |]. split; [done |]. split; [done |]. rewrite decide_True by (by apply Hes).
    rewrite <- Z.add_sub_assoc, (path_part p b (n - 1)) by (done || lia). f_equal.
    rewrite (drop_S _ slash) by (rewrite Ev, lookup_app_l by (unfold zlen in Hq; lia); rewrite <- Hq; by apply Hes).
    replace (S (Z.to_nat (n - 1))) with (Z.to_nat n) by lia. rewrite take_ge.
    + f_equal. rewrite Ev. apply drop_app_length'. unfold zlen in Hq. lia.
    + simpl. rewrite length_drop. unfold zlen in *. lia.
  - assert (~ ends_slash q) as Hns by naive_solver. destruct (Z.eqb_spec c2 slash) as [->|Hc2].
    + eexists _, _. split; [done |]. split; [done |]. split; [split; [intros _ | done]; eexists; repeat split; [done | done | by right] |].
      intros _. eexists _, _, b, _. split; [done |]. split; [done |]. split; [done |]. rewrite decide_False by done.
      rewrite (path_part p b n) by (done || lia). f_equal. rewrite take_ge by (rewrite length_drop; unfold zlen in *; lia).
      rewrite Ev. apply drop_app_length'. unfold zlen in Hq. lia.
    + eexists _, _. split; [done |]. split; [done |]. split; [| done]. split; [done |]. intros (r' & E' & _ & [Hb1 | Hb2]); [done |].
      rewrite (Huniq r' E') in Hb2. naive_solver.
Qed.

(** [fs_path_compare] with a prefix that is not empty: the result is 1 when the
    two are equal, 2 when the path continues the prefix at the border of an
    element, and 0 otherwise; with 2 the part reported is the rest of the path
    with the slash in front. *)
Theorem compare_correct (p : fs_path) (s : bytes) (n : Z) :
  wf_path p -> 0 < n <= zlen s -> is_u32 n ->
  exists r sub, fs_path_compare p (ArgS (Some s) n) = Some (r, sub) /\
    let q := take (Z.to_nat n) s in
    (r = 1 <-> path_bytes p = q) /\
    (r = 2 <-> exists rest, path_bytes p = q ++ rest /\ rest <> [] /\ border q rest) /\
    (r = 2 -> exists off l b rest, sub = Some (Some (off, l)) /\ fp_buffer p = Some b /\ path_bytes p = q ++ rest /\
       mem_read b off l = Some (if decide (ends_slash q) then slash :: rest else rest)).
Proof.
  intros Hwf Hn Hnu. pose proof Hwf as (b & Eb & Hu & Hsz & Hs & Hl & Hb). pose proof (zlen_path_bytes p Hwf) as Hv.
  unfold fs_path_compare, arg_view. opt. rewrite Eb. set (q := take (Z.to_nat n) s).
  assert (zlen q = n) as Hq by (apply zlen_take; lia). destruct (Z.eqb_spec (fp_len p) n) as [El|El].
  - rewrite (read_path p b Hwf Eb), El, mem_read_Some by lia. opt. rewrite drop_0. fold q. eexists _, _. split; [done |]. cbv zeta.
    destruct (bytes_eqb (path_bytes p) q) eqn:E; [apply bytes_eqb_true in E | apply not_true_iff_false in E; rewrite bytes_eqb_true in E].
    all: split; [naive_solver |]; split; [| done]; split; [done |]; intros (rest & Er & Hne & _); exfalso.
    all: apply (f_equal zlen) in Er; rewrite zlen_app in Er; destruct rest; [done | rewrite zlen_cons in Er; pose proof (zlen_nonneg rest); lia].
  - destruct (Z.ltb_spec n (fp_len p)) as [Hlt|Hge].
    2: { eexists _, _. split; [done |]. cbv zeta. split; [split; [done | intros <-; lia] |]. split; [| done]. split; [done |].
         intros (rest & Er & _). apply (f_equal zlen) in Er. rewrite zlen_app in Er. pose proof (zlen_nonneg rest). lia. }
    pose proof (path_part p b 0 n Hwf Eb) as Ep. rewrite Z.add_0_r, drop_0 in Ep. rewrite Ep by lia. opt.
    rewrite mem_read_Some by lia. opt. rewrite drop_0. fold q.
    destruct (bytes_eqb (take (Z.to_nat n) (path_bytes p)) q) eqn:E; [apply bytes_eqb_true in E | apply not_true_iff_false in E; rewrite bytes_eqb_true in E].
    + rewrite <- Eb. by apply (compare_prefix p b s n).
    + eexists _, _. split; [done |]. cbv zeta. split; [split; [done |] |].
      * intros Ev. exfalso. apply E. rewrite Ev. apply take_ge. unfold zlen in Hq. lia.
      * split; [| done]. split; [done |]. intros (rest & Ev & _). exfalso. apply E. rewrite Ev, take_app_le by (unfold zlen in Hq; lia).
        apply take_ge. unfold zlen in Hq. lia.
Qed.

(** ** The last element *)

Lemma memrchr_none s : slash ∉ s -> memrchr_slash s = None.
Proof.
  induction s as [|c s IH]; intros Hn; [done |]. apply not_elem_of_cons in Hn as [Hc Hn]. cbn. rewrite IH by done.
  by destruct (Z.eqb_spec c slash).
Qed.

Lemma memrchr_last d name : slash ∉ name -> memrchr_slash (d ++ slash :: name) = Some (zlen d).
Proof.
  intros Hn. induction d as [|c d IH]; cbn; [by rewrite memrchr_none |]. rewrite IH. by rewrite zlen_cons.
Qed.

(** The path cut to its first [n] bytes. *)
Lemma path_cut p n : wf_path p -> 0 <= n <= fp_len p -> wf_path (set_len n p) /\ path_bytes (set_len n p) = take (Z.to_nat n) (path_bytes p).
Proof.
  intros (b & Eb & Hu & Hsz & Hs & Hl & Hb) Hn. split; [exists b; cbn; repeat (split; [done |]); lia |].
  unfold path_bytes. cbn. rewrite Eb, take_take. f_equal. lia.
Qed.

(** [fs_path_get_filename] finds the last element with its slash, and
    [fs_path_remove_filename] with what it found leaves the directory; on a path
    without a slash nothing is found. *)
Theorem filename_correct (p : fs_path) :
  wf_path p ->
  (forall d name, path_bytes p = d ++ slash :: name -> slash ∉ name ->
     exists off, fs_path_get_filename p = Some (Some off, Some (off, 1 + zlen name)) /\ off = fp_start p + zlen d /\
       wf_path (fs_path_remove_filename p (off, 1 + zlen name)) /\ path_bytes (fs_path_remove_filename p (off, 1 + zlen name)) = d) /\
  (slash ∉ path_bytes p -> fs_path_get_filename p = Some (None, None)).
Proof.
  intros Hwf. pose proof Hwf as (b & Eb & Hu & Hsz & Hs & Hl & Hb). unfold is_u32 in Hu.
  unfold fs_path_get_filename. rewrite Eb, (read_path p b Hwf Eb). opt. split; [| intros Hn; by rewrite memrchr_none].
  intros d name E Hn. rewrite E, memrchr_last by done. exists (fp_start p + zlen d).
  pose proof (zlen_path_bytes p Hwf) as Hz. rewrite E, zlen_app, zlen_cons in Hz. pose proof (zlen_nonneg d). pose proof (zlen_nonneg name).
  rewrite u32_id by (unfold is_u32; lia). split; [do 4 f_equal; lia |]. split; [done |].
  assert (fs_path_remove_filename p (fp_start p + zlen d, 1 + zlen name) = set_len (zlen d) p) as ->.
  { unfold fs_path_remove_filename. rewrite Eb, u32_id by (unfold is_u32; lia). replace (fp_len p - (1 + zlen name)) with (zlen d) by lia.
    destruct (Z.eqb_spec (fp_start p + zlen d) (fp_start p)) as [E0|].
    - rewrite E0. destruct (Z.ltb_spec (fp_start p) (fp_start p + fp_len p)); [by destruct p | lia].
    - destruct (Z.eqb_spec (fp_start p + zlen d + (1 + zlen name)) (fp_start p + fp_len p)); [| lia].
      by destruct (Z.ltb_spec (fp_start p) (fp_start p + zlen d)); [| lia]. }
  destruct (path_cut p (zlen d) Hwf) as [Hw ->]; [lia |]. split; [done |]. rewrite E. unfold zlen. by rewrite Nat2Z.id, take_app_length.
Qed.

(** ** Combining *)

Lemma until_nul_take n s : (n <= length s)%nat -> no_nul (take n s) -> until_nul n s = Some (take n s).
Proof.
  revert s. induction n as [|n IH]; intros s Hl Hn; [done |]. destruct s as [|c s]; [simpl in Hl; lia |]. simpl in *.
  apply Forall_cons_1 in Hn as [Hc Hn]. destruct (Z.eqb_spec c 0); [done |]. rewrite IH by (done || lia). done.
Qed.

(** [fs_path_combine] writes the path, a slash and the argument into the buffer of
    the result; when they do not fit with a zero behind them they are cut off,
    but the length of the result is the length without the limit. *)
Theorem combine_correct (result p : fs_path) (s : bytes) (n : Z) :
  wf_path result -> wf_path p -> 0 <= n <= zlen s -> 0 < fp_size result -> no_nul (path_bytes p) -> no_nul (take (Z.to_nat n) s) ->
  exists result', let out := path_bytes p ++ slash :: take (Z.to_nat n) s in
    fs_path_combine result p (ArgS (Some s) n) = Some (zlen out, result') /\
    (zlen out < fp_size result -> wf_path result' /\ path_bytes result' = out) /\
    (fp_size result <= zlen out -> fp_len result' = zlen out /\ path_bytes result' <> out).
Proof.
  intros (rb & Er & Hru & Hrs & _) Hwf Hn Hpos Hnp Hns. pose proof Hwf as (b & Eb & Hu & Hsz & Hs & Hl & Hb).
  unfold fs_path_combine, arg_view. rewrite Er, Eb. opt. destruct (Z.eqb_spec (fp_size result) 0); [lia |].
  pose proof (memzero_front [] rb (fp_size result)) as Ez. cbn [app] in Ez. change (zlen (@nil Z)) with 0 in Ez. rewrite Ez by lia. opt.
  rewrite (until_nul_take (Z.to_nat (fp_len p))); [| rewrite length_drop; unfold zlen in *; lia | unfold path_bytes in Hnp; by rewrite Eb in Hnp]. opt.
  rewrite until_nul_take by (done || (unfold zlen in *; lia)). opt.
  assert (path_bytes p = take (Z.to_nat (fp_len p)) (drop (Z.to_nat (fp_start p)) b)) as Ep by (unfold path_bytes; by rewrite Eb). rewrite <- Ep.
  set (out := path_bytes p ++ slash :: take (Z.to_nat n) s). pose proof (zlen_nonneg out) as Ho.
  set (rb0 := replicate (Z.to_nat (fp_size result)) 0 ++ drop (Z.to_nat (fp_size result)) rb).
  assert (zlen rb0 = zlen rb) as Hz0 by (unfold rb0, zlen in *; rewrite length_app, length_replicate, length_drop; lia).
  set (d := take (Z.to_nat (fp_size result - 1)) out ++ [0]).
  assert (zlen d = Z.min (fp_size result) (zlen out + 1)) as Hd by (unfold d, zlen in *; rewrite length_app, length_take; simpl; lia).
  rewrite mem_write_Some by lia. opt. change (take (Z.to_nat 0) rb0) with (@nil Z). rewrite app_nil_l.
  change (Z.to_nat 0 + length d)%nat with (length d). eexists. split; [done |]. unfold is_u32 in Hru. split.
  - intros Hfit. split.
    + unfold set_len, set_start, set_buffer. cbn [fp_size fp_start fp_flags fp_back fp_len fp_buffer].
      apply (wf_path_intro _ _ _ _ _ (d ++ drop (length d) rb0)); [unfold is_u32; lia | | lia .. ].
      unfold zlen in *. rewrite length_app, length_drop. lia.
    + unfold path_bytes. cbn [fp_start fp_len fp_buffer set_len set_start set_buffer]. rewrite drop_0. unfold d. rewrite (take_ge out) by (unfold zlen in *; lia). rewrite <- (app_assoc out).
      replace (Z.to_nat (zlen out)) with (length out) by (unfold zlen; lia). apply take_app_length.
  - intros Hbig. split; [done |]. unfold path_bytes. cbn [fp_start fp_len fp_buffer set_len set_start set_buffer]. rewrite drop_0. intros Eo.
    assert (no_nul out) as Hno by (apply Forall_app; split; [done | by constructor]).
    assert (out !! Z.to_nat (fp_size result - 1) = Some 0) as E0.
    { rewrite <- Eo, lookup_take, decide_True by lia. unfold d. rewrite lookup_app_l by (rewrite length_app, length_take; unfold zlen in *; simpl; lia).
      rewrite lookup_app_r by (rewrite length_take; lia). rewrite length_take, Nat.min_l, Nat.sub_diag by (unfold zlen in *; lia). done. }
    by apply (Forall_lookup_1 _ _ _ _ Hno E0).
Qed.

(** ** The target of a symbolic link *)

Lemma read_target_spec target alloc fuel size :
  (forall n, alloc n = true) -> 0 < size -> is_u32 (zlen target + 64) -> size <= zlen target + 64 ->
  zlen target < size + 64 * (Z.of_nat fuel - 1) ->
  exists size', zlen target < size' <= zlen target + 64 /\
    read_target fuel (inr target) alloc size = Ret (inr (target ++ replicate (Z.to_nat (size' - zlen target)) 0, size', zlen target)).
Proof.
  intros Ha. revert size. induction fuel as [|fuel IH]; intros size Hp Hu Hs Hf; [pose proof (zlen_nonneg target); lia |].
  cbn [read_target]. rewrite Ha. unfold is_u32 in Hu. destruct (decide (zlen target < size)) as [Hlt|Hge].
  - rewrite take_ge by (unfold zlen in *; lia). destruct (Z.leb_spec size (zlen target)); [lia |]. by exists size.
  - rewrite zlen_take by lia. rewrite Z.leb_refl. apply IH; rewrite ?u32_id by (unfold is_u32; lia); unfold is_u32; lia.
Qed.

(** [fs_path_get_target_unix_symlink] returns with the whole target, however long
    it is, in a buffer of its own that ends it with a zero: after at most one
    iteration for every 64 bytes of the target. *)
Theorem get_target_correct (p target : fs_path) (link : bytes) (fuel : nat) :
  wf_path p -> 0 < fp_len p -> is_u32 (zlen link + 64) -> zlen link < 64 * Z.of_nat fuel ->
  exists target', fs_path_get_target_unix_symlink fuel (inr link) (fun _ => true) p target = Ret (0, target') /\
    wf_path target' /\ path_bytes target' = link /\ has (fp_flags target') FS_PATH_FLAG_BUFFER_ALLOC = true /\ 0 < room target'.
Proof.
  intros Hwf Hl Hu Hf. pose proof Hwf as (b & Eb & _ & _ & _). unfold fs_path_get_target_unix_symlink, fs_path_get_length, fs_path_copy.
  rewrite Eb. destruct (Z.ltb_spec 0 (fp_len p)); [| lia]. rewrite Z.leb_refl, (read_path p b Hwf Eb). opt.
  rewrite mem_write_Some by (rewrite ?zlen_path_bytes by done; unfold zlen; rewrite ?length_replicate; lia). cbn [lift outcome_bind mbind option_bind].
  destruct (read_target_spec link (fun _ => true) fuel 64) as (size & Hs & ->); [done | lia | done | pose proof (zlen_nonneg link); lia | lia |].
  cbn [outcome_bind]. eexists. split; [done |]. pose proof (zlen_nonneg link). split; [| split; [| split]].
  - apply wf_path_intro; [unfold is_u32 in *; lia | | lia ..]. rewrite zlen_app. unfold zlen at 2. rewrite length_replicate. lia.
  - unfold path_bytes. cbn [fp_start fp_len fp_buffer]. rewrite drop_0. unfold zlen. by rewrite Nat2Z.id, take_app_length.
  - by apply has_lor_same.
  - unfold room. cbn [fp_start fp_len fp_size]. lia.
Qed.

(** ** Removal of elements: bounds and termination *)

(** The literals with their actions; every one of them removes something. *)
Definition removes (len : Z) (p : bytes * action) : Prop := 0 < zlen p.1 <= len /\ p.2 <> Append.

Lemma first_match_spec b pos cases len :
  0 <= pos -> Forall (removes len) cases -> 0 < len -> pos + len <= zlen b ->
  exists a n, first_match b pos cases len = Some (a, n) /\ 0 < n <= len /\ (a = Append -> n = len).
Proof.
  intros Hp Hc Hl Hb. induction Hc as [|[lit a] cases [Hlit Ha] Hc IH]; cbn [first_match]; [exists Append, len; split; [done | split; [lia | done]] |].
  cbn [fst snd] in *. unfold starts. rewrite mem_read_Some by lia. opt.
  destruct (bytes_eqb _ lit); [exists a, (zlen lit); repeat split; [lia | lia | done] | done].
Qed.

(** The literals of an element of [len] bytes. *)
Definition element_cases (len : Z) : list (bytes * action) :=
  if 3 <=? len then
    (if 4 <=? len then [([slash; dot; dot; slash], Up)] else []) ++
    (if len =? 3 then [([slash; dot; dot], Up); ([dot; dot; slash], Up)] else []) ++
    [([slash; dot; slash], Ignore); ([slash; slash; slash], Ignore); ([slash; slash], Ignore); ([slash; dot], Ignore)]
  else if len =? 2 then [([slash; dot], Ignore); ([slash; slash], Ignore)]
  else if len =? 1 then [([dot], Ignore)] else [].

Lemma handle_cases b pos len : handle_path_element b pos len = first_match b pos (element_cases len) len.
Proof. unfold handle_path_element, element_cases. destruct (3 <=? len), (len =? 2), (len =? 1); done. Qed.

Lemma element_cases_remove len : Forall (removes len) (element_cases len).
Proof.
  unfold element_cases, removes. destruct (Z.leb_spec 3 len), (Z.leb_spec 4 len), (Z.eqb_spec len 3), (Z.eqb_spec len 2), (Z.eqb_spec len 1);
    cbn [app]; repeat constructor; cbn [fst snd]; try done; unfold zlen; simpl; lia.
Qed.

Lemma handle_path_element_spec b pos len :
  0 <= pos -> 0 < len -> pos + len <= zlen b ->
  exists a n, handle_path_element b pos len = Some (a, n) /\ 0 < n <= len /\ (a = Append -> n = len).
Proof. intros. rewrite handle_cases. apply first_match_spec; [done | apply element_cases_remove | done | done]. Qed.

Lemma memchr_slash_Some s i : memchr_slash s = Some i -> 0 <= i < zlen s /\ s !! Z.to_nat i = Some slash.
Proof.
  revert i. induction s as [|c s IH]; intros i; cbn [memchr_slash]; [done |]. rewrite zlen_cons. pose proof (zlen_nonneg s).
  destruct (Z.eqb_spec c slash) as [->|]; [intros [= <-]; split; [lia | done] |].
  destruct (memchr_slash s) as [j|]; [| done]. intros [= <-]. destruct (IH j eq_refl) as [Hj Hs]. split; [lia |].
  by replace (Z.to_nat (1 + j)) with (S (Z.to_nat j)) by lia.
Qed.

Lemma memmove_down b dst src n : 0 <= dst <= src -> 0 <= n -> src + n <= zlen b ->
  exists b', memmove b dst src n = Some b' /\ zlen b' = zlen b /\
    forall j, (j < Z.to_nat dst \/ Z.to_nat (dst + n) <= j)%nat -> b' !! j = b !! j.
Proof.
  intros Hd Hn Hb. unfold memmove. rewrite mem_read_Some by lia. opt. set (d := take _ _).
  assert (zlen d = n) as Hdn by (apply zlen_take; rewrite zlen_drop; lia).
  destruct (mem_write b dst d) as [b'|] eqn:E; [| rewrite mem_write_Some in E by lia; done].
  exists b'. split; [done |]. split; [by apply mem_write_len in E |]. intros j Hj. eapply mem_write_lookup_out; [exact E |].
  unfold zlen in Hdn. lia.
Qed.

Lemma path_element_spec start b pos left s :
  0 <= start <= pos -> zlen s = left -> 0 < left -> pos + left <= zlen b ->
  let h1 := option_map (Z.add pos) (memchr_slash s) in
  exists a n, next_element start b pos left h1 = Some (a, n) /\ 0 < n <= left /\ (a = Append -> forall h, h1 = Some h -> start <= h < pos + n).
Proof.
  intros Hs Hl Hp Hb h1. unfold h1, next_element. destruct (memchr_slash s) as [i|] eqn:Ei; cbn [option_map].
  - apply memchr_slash_Some in Ei as [Hi _]. destruct (Z.ltb_spec start (pos + i)).
    + destruct (handle_path_element_spec b pos (pos + i - pos + 1)) as (a & n & -> & Hn & Ha); [lia .. |]. exists a, n.
      split; [done |]. split; [lia |]. intros Ea h [= <-]. specialize (Ha Ea). lia.
    + exists Append, 1. split; [done |]. split; [lia |]. intros _ h [= <-]. lia.
  - destruct (handle_path_element_spec b pos left) as (a & n & -> & Hn & _); [lia .. |]. by exists a, n.
Qed.

(** One iteration takes at least one byte, and the buffer only changes inside the
    path. *)
Lemma remove_loop_spec fuel start plen b pos left len h0 back :
  left < Z.of_nat fuel -> 0 <= start <= pos -> 0 <= left -> pos + left <= start + plen -> start + plen <= zlen b ->
  (forall h, h0 = Some h -> start <= h < pos) ->
  exists b' len' back', remove_loop fuel start b pos left len h0 back = Ret (b', len', back') /\ len <= len' <= len + left /\ zlen b' = zlen b /\
    forall j, (j < Z.to_nat start \/ Z.to_nat (start + plen) <= j)%nat -> b' !! j = b !! j.
Proof.
  revert b pos left len h0 back. induction fuel as [|fuel IH]; intros b pos left len h0 back Hf Hp Hl Hpl Hb Hh; [lia |].
  cbn [remove_loop]. destruct (Z.ltb_spec 0 left) as [Hpos|]; [| exists b, len, back; repeat split; [lia | lia]].
  rewrite mem_read_Some by lia. cbn [lift outcome_bind]. set (s := take _ _). assert (zlen s = left) as Hs by (apply zlen_take; rewrite zlen_drop; lia).
  set (h1 := option_map (Z.add pos) (memchr_slash s)).
  destruct (path_element_spec start b pos left s) as (a & n & E1 & Hn & Happ); [lia .. |]. fold h1 in E1, Happ. rewrite E1.
  cbn [lift outcome_bind]. destruct a.
  - destruct (IH b (pos + n) (left - n) (len + n) (match h1 with Some h => Some h | None => h0 end) back)
      as (b' & len' & back' & -> & Hlen & Hrest); [lia .. | | eexists _, _, _; split; [done |]; split; [lia | done]].
    intros h E. destruct h1 as [h'|]; [injection E as ->; by apply Happ | apply Hh in E; lia].
  - destruct (memmove_down b pos (pos + n) (left - n)) as (b1 & -> & Hz & Hout); [lia .. |]. cbn [lift outcome_bind].
    destruct (IH b1 (pos + n) (left - n) len h0 back) as (b' & len' & back' & -> & Hlen & Hz' & Hrest); [lia .. | intros h E; apply Hh in E; lia |].
    eexists _, _, _. split; [done |]. split; [lia |]. split; [lia |]. intros j Hj. rewrite Hrest by done. apply Hout. lia.
  - assert (exists dst back1, start <= dst <= pos /\ (forall h, h0 = Some h -> start <= h < dst) /\ match h0 with
      | Some h => let! b := lift (memmove b (h + 1) (pos + n) (left - n)) in remove_loop fuel start b (h + 1) (left - n) len h0 back
      | None => let! b := lift (memmove b start (pos + n) (left - n)) in remove_loop fuel start b start (left - n) len h0 (u8 (back + 1))
      end = let! b := lift (memmove b dst (pos + n) (left - n)) in remove_loop fuel start b dst (left - n) len h0 back1) as (dst & back1 & Hdst & Hh' & ->).
    { destruct h0 as [h|]; [exists (h + 1), back | exists start, (u8 (back + 1))]; (split; [|split; [| done]]).
      - specialize (Hh h eq_refl). lia.
      - intros h' [= ->]. specialize (Hh h' eq_refl). lia.
      - lia.
      - done. }
    destruct (memmove_down b dst (pos + n) (left - n)) as (b1 & -> & Hz & Hout); [lia .. |]. cbn [lift outcome_bind].
    destruct (IH b1 dst (left - n) len h0 back1) as (b' & len' & back' & -> & Hlen & Hz' & Hrest); [lia .. | done |].
    eexists _, _, _. split; [done |]. split; [lia |]. split; [lia |]. intros j Hj. rewrite Hrest by done. apply Hout. lia.
Qed.

(** [fs_path_remove_unneeded_elements] returns, whatever the path holds, after at
    most as many iterations as the path has bytes; it stays inside the path, the
    bytes around it keep their values, and the path does not become longer. *)
Theorem remove_elements_bounds (p : fs_path) (b : bytes) (fuel : nat) :
  wf_path p -> fp_buffer p = Some b -> fp_len p < Z.of_nat fuel ->
  exists n p' b', fs_path_remove_unneeded_elements fuel p = Ret (n, p') /\ wf_path p' /\ fp_len p' = n /\ 0 <= n <= fp_len p /\
    fp_start p' = fp_start p /\ fp_buffer p' = Some b' /\
    forall j, (j < Z.to_nat (fp_start p) \/ Z.to_nat (fp_start p + fp_len p) <= j)%nat -> b' !! j = b !! j.
Proof.
  intros (b0 & Eb & Hu & Hsz & Hs & Hl & Hb) E Hf. rewrite E in Eb. injection Eb as <-. unfold fs_path_remove_unneeded_elements. rewrite E.
  cbn [lift outcome_bind]. destruct (remove_loop_spec fuel (fp_start p) (fp_len p) b (fp_start p) (fp_len p) 0 None (fp_back p))
    as (b1 & n & back & -> & Hn & Hz & Hout); [lia .. | done |]. cbn [outcome_bind fp_start set_back].
  destruct (Z.ltb_spec n (fp_len p)) as [Hlt|Hge].
  - unfold memzero. bdestr; [| lia ..]. destruct (mem_write b1 (fp_start p + n) _) as [b2|] eqn:Ew.
    2: { rewrite mem_write_Some in Ew; [done | lia |]. unfold zlen at 1. rewrite length_replicate. lia. }
    cbn [lift outcome_bind]. pose proof (mem_write_len _ _ _ _ Ew). eexists _, _, b2. split; [done |].
    split; [apply wf_path_intro; cbn [fp_size fp_start set_back set_buffer]; (done || lia) |]. repeat split; [lia | lia |].
    intros j Hj. rewrite <- Hout by done. eapply mem_write_lookup_out; [exact Ew |]. rewrite length_replicate. lia.
  - assert (n = fp_len p) as -> by lia. eexists _, _, b1. split; [done |].
    split; [apply wf_path_intro; cbn [fp_size fp_start fp_len set_back set_buffer]; (done || lia) |]. repeat split; [lia | lia | done].
Qed.

(** ** What is not removed *)

Lemma first_match_none b pos cases len c :
  0 <= pos -> b !! Z.to_nat pos = Some c -> pos + len <= zlen b -> Forall (removes len) cases ->
  Forall (fun p => head (p.1) <> Some c) cases -> first_match b pos cases len = Some (Append, len).
Proof.
  intros Hp Hc Hb Hr Hh. induction cases as [|[lit a] cases IH]; [done |]. cbn [first_match].
  apply Forall_cons_1 in Hr as [[Hlit _] Hr]. apply Forall_cons_1 in Hh as [Hhead Hh]. cbn [fst] in *.
  unfold starts. rewrite mem_read_Some by lia. opt. destruct (bytes_eqb _ lit) eqn:E; [| by apply IH]. exfalso.
  apply bytes_eqb_true in E. apply Hhead. rewrite (drop_S b c) in E by done. destruct (Z.to_nat (zlen lit)) eqn:En; [lia |]. by rewrite <- E.
Qed.

(** An element that starts with neither a dot nor a slash, or is one slash. *)
Lemma element_kept b pos len c :
  0 <= pos -> 0 < len -> b !! Z.to_nat pos = Some c -> pos + len <= zlen b -> c <> dot -> (c = slash -> len = 1) ->
  handle_path_element b pos len = Some (Append, len).
Proof.
  intros Hp Hl Hc Hb Hd Hs. rewrite handle_cases. apply (first_match_none b pos _ len c); [done | done | done | apply element_cases_remove |].
  unfold element_cases. destruct (Z.leb_spec 3 len), (Z.leb_spec 4 len), (Z.eqb_spec len 3), (Z.eqb_spec len 2), (Z.eqb_spec len 1); cbn [app];
    repeat constructor; cbn [fst head]; intros [= <-]; solve [done | lia | specialize (Hs eq_refl); lia].
Qed.

Lemma memchr_slash_first s i c : memchr_slash s = Some i -> s !! 0%nat = Some c -> c = slash -> i = 0.
Proof. destruct s as [|x s]; [done |]. cbn. intros E [= ->] ->. cbn in E. by injection E. Qed.

Lemma remove_loop_keeps fuel start b pos left len h0 back :
  left < Z.of_nat fuel -> 0 <= start <= pos -> 0 <= left -> pos + left <= zlen b ->
  dot ∉ take (Z.to_nat left) (drop (Z.to_nat pos) b) ->
  remove_loop fuel start b pos left len h0 back = Ret (b, len + left, back).
Proof.
  revert pos left len h0. induction fuel as [|fuel IH]; intros pos left len h0 Hf Hp Hl Hb Hd; [lia |]. cbn [remove_loop].
  destruct (Z.ltb_spec 0 left); [| by replace left with 0 by lia; rewrite Z.add_0_r]. rewrite mem_read_Some by lia. cbn [lift outcome_bind].
  set (s := take _ _) in *. assert (zlen s = left) as Hs by (apply zlen_take; rewrite zlen_drop; lia).
  destruct (lookup_lt_is_Some_2 s 0) as [c Hc]; [unfold zlen in Hs; lia |].
  assert (b !! Z.to_nat pos = Some c) as Hbc by (unfold s in Hc; rewrite lookup_take, lookup_drop, Nat.add_0_r, decide_True in Hc by lia; done).
  assert (c <> dot) as Hcd by (intros ->; apply Hd; by apply list_elem_of_lookup_2 in Hc).
  assert (exists n, next_element start b pos left (option_map (Z.add pos) (memchr_slash s)) = Some (Append, n) /\ 0 < n <= left) as (n & -> & Hn).
  { unfold next_element. destruct (memchr_slash s) as [i|] eqn:Ei; cbn [option_map].
    - pose proof (memchr_slash_Some _ _ Ei) as [Hi _]. destruct (start <? pos + i); [| exists 1; split; [done | lia]].
      eexists. split; [apply (element_kept b pos _ c); [lia | lia | done | lia | done |] | lia].
      intros Ec. rewrite (memchr_slash_first s i c Ei Hc Ec). lia.
    - exists left. split; [| lia]. apply (element_kept b pos _ c); [lia | lia | done | lia | done |].
      intros ->. exfalso. destruct s; [done |]. injection Hc as ->. by cbn in Ei. }
  cbn [lift outcome_bind]. rewrite IH; [do 3 f_equal; lia | lia .. |]. intros Hin. apply Hd. unfold s.
  apply list_elem_of_lookup in Hin as (k & Hk). rewrite lookup_take, lookup_drop in Hk. case_decide; [| done].
  apply (list_elem_of_lookup_2 _ (Z.to_nat n + k)). rewrite lookup_take, lookup_drop, decide_True by lia. rewrite <- Hk. f_equal. lia.
Qed.

(** a path without a dot is left as it is: the double slashes the function is to
    remove stay. *)
Theorem remove_elements_keeps_slashes (p : fs_path) (fuel : nat) :
  wf_path p -> dot ∉ path_bytes p -> fp_len p < Z.of_nat fuel -> fs_path_remove_unneeded_elements fuel p = Ret (fp_len p, p).
Proof.
  intros (b & Eb & Hu & Hsz & Hs & Hl & Hb) Hd Hf. unfold fs_path_remove_unneeded_elements, path_bytes in *. rewrite Eb in *. cbn [lift outcome_bind].
  rewrite remove_loop_keeps by (done || lia). cbn [outcome_bind]. rewrite Z.add_0_l, Z.ltb_irrefl. destruct p. cbn in *. by rewrite Eb.
Qed.

(** ** Concrete paths *)

(** The path of the given bytes in a buffer with [n] bytes behind it. *)
Definition path_of (flags : Z) (s : bytes) (n : nat) : fs_path := mk_path flags 0 (zlen s + Z.of_nat n) 0 (zlen s) (Some (s ++ replicate n 0)).

Lemma path_of_wf flags s n : is_u32 (zlen s + Z.of_nat n) -> wf_path (path_of flags s n).
Proof.
  intros Hu. pose proof (zlen_nonneg s). apply wf_path_intro; [done | | lia ..]. rewrite zlen_app. unfold zlen at 3. rewrite length_replicate. lia.
Qed.

(** /a/../b becomes /a/b: the double dot goes, the element it is to remove stays. *)
Example remove_elements_parent :
  fs_path_remove_unneeded_elements 9 (path_of 0 [47; 97; 47; 46; 46; 47; 98] 0) =
  Ret (4, mk_path 0 0 7 0 4 (Some [47; 97; 47; 98; 0; 0; 0])).
Proof. vm_compute. reflexivity. Qed.

(** a/./b and a/b/.. stay as they are. *)
Example remove_elements_dot :
  fs_path_remove_unneeded_elements 9 (path_of 0 [97; 47; 46; 47; 98] 0) = Ret (5, path_of 0 [97; 47; 46; 47; 98] 0) /\
  fs_path_remove_unneeded_elements 9 (path_of 0 [97; 47; 98; 47; 46; 46] 0) = Ret (6, path_of 0 [97; 47; 98; 47; 46; 46] 0).
Proof. vm_compute. done. Qed.

Definition home : fs_path := path_of 0 [47; 97] 4.

Lemma home_wf : wf_path home.
Proof. by apply path_of_wf. Qed.

Lemma append_raw_correct_witness :
  exists p', fs_path_append_raw ReallocMoved home [47; 98; 99] 2 = Some (2, p') /\ wf_path p' /\ path_bytes p' = [47; 97; 47; 98].
Proof. destruct (append_raw_correct ReallocMoved home [47; 98; 99] 2 home_wf) as [H _]; [done | done | by apply H]. Defined.

Lemma append_raw_stale_witness : fs_path_append_raw ReallocMoved (path_of 2 [47; 97] 1) [47; 98] 2 = None.
Proof. by apply (append_raw_stale (path_of 2 [47; 97] 1) [47; 98] 2 (path_of_wf 2 [47; 97] 1 ltac:(done))). Defined.

Lemma compare_correct_witness :
  exists r sub, fs_path_compare (path_of 0 [47; 97; 47; 98] 0) (ArgS (Some [47; 97]) 2) = Some (r, sub) /\ r = 2 /\ sub = Some (Some (2, 2)).
Proof.
  destruct (compare_correct (path_of 0 [47; 97; 47; 98] 0) [47; 97] 2 (path_of_wf 0 [47; 97; 47; 98] 0 ltac:(done))) as (r & sub & E & _); [done | done |].
  exists r, sub. split; [done |]. vm_compute in E. by injection E as <- <-.
Defined.

Lemma filename_correct_witness :
  exists off, fs_path_get_filename (path_of 0 [47; 97; 47; 98] 0) = Some (Some off, Some (off, 2)) /\ off = 2 /\
    path_bytes (fs_path_remove_filename (path_of 0 [47; 97; 47; 98] 0) (off, 2)) = [47; 97].
Proof.
  destruct (filename_correct (path_of 0 [47; 97; 47; 98] 0) (path_of_wf 0 [47; 97; 47; 98] 0 ltac:(done))) as [H _].
  destruct (H [47; 97] [98]) as (off & E & Eo & _ & Er); [done | by intros ?%list_elem_of_singleton |]. by exists off.
Defined.

Lemma combine_correct_witness :
  exists r, fs_path_combine (path_of 0 [] 9) home (ArgS (Some [98; 99]) 2) = Some (5, r) /\ path_bytes r = [47; 97; 47; 98; 99].
Proof.
  destruct (combine_correct (path_of 0 [] 9) home [98; 99] 2 (path_of_wf 0 [] 9 ltac:(done)) home_wf) as (r & E & Hfit & _);
    [done | done | repeat (constructor; [done |]); constructor .. |].
  exists r. split; [exact E |]. by apply Hfit.
Defined.

Lemma get_target_correct_witness :
  exists t, fs_path_get_target_unix_symlink 2 (inr (replicate 70 97)) (fun _ => true) home FS_PATH_INIT = Ret (0, t) /\ path_bytes t = replicate 70 97.
Proof.
  destruct (get_target_correct home FS_PATH_INIT (replicate 70 97) 2 home_wf) as (t & E & _ & Ht & _); [done | done | done |]. by exists t.
Defined.

Lemma remove_elements_bounds_witness :
  exists n p', fs_path_remove_unneeded_elements 9 (path_of 0 [47; 97; 47; 46; 46; 47; 98] 0) = Ret (n, p') /\ wf_path p' /\ 0 <= n <= 7.
Proof.
  destruct (remove_elements_bounds (path_of 0 [47; 97; 47; 46; 46; 47; 98] 0) _ 9 (path_of_wf 0 [47; 97; 47; 46; 46; 47; 98] 0 ltac:(done)) eq_refl)
    as (n & p' & b' & E & Hw & _ & Hn & _); [done |]. by exists n, p'.
Defined.

Lemma remove_elements_keeps_slashes_witness :
  fs_path_remove_unneeded_elements 9 (path_of 0 [47; 47; 97; 47; 47; 98] 0) = Ret (6, path_of 0 [47; 47; 97; 47; 47; 98] 0).
Proof.
  apply (remove_elements_keeps_slashes (path_of 0 [47; 47; 97; 47; 47; 98] 0) 9 (path_of_wf 0 [47; 47; 97; 47; 47; 98] 0 ltac:(done))); [| done].
  change (path_bytes _) with [47; 47; 97; 47; 47; 98]. rewrite !elem_of_cons, elem_of_nil. intros Hin. by destruct_or! Hin.
Defined.

End FsPath.
