(* ===== verification/SftpWire.v ===== *)
(** * The wire format of sftp

    What the client (sftp/send, sftp/recv) and the server (ssh/subsystem/sftp)
    share: the codes of lib/sftp/protocol.h, the frame of a message, reads at a
    position, and the array with a position that both sides fill. *)

From stdpp Require Import base list list_numbers numbers option.
From S2P Require Import Prelude SshUint SshString.
Import SshUint SshString.

Module SftpWire.

Definition SSH_FXP_INIT := 1.
Definition SSH_FXP_VERSION := 2.
Definition SSH_FXP_OPEN := 3.
Definition SSH_FXP_CLOSE := 4.
Definition SSH_FXP_READ := 5.
Definition SSH_FXP_WRITE := 6.
Definition SSH_FXP_LSTAT := 7.
Definition SSH_FXP_FSTAT := 8.
Definition SSH_FXP_SETSTAT := 9.
Definition SSH_FXP_FSETSTAT := 10.
Definition SSH_FXP_OPENDIR := 11.
Definition SSH_FXP_READDIR := 12.
Definition SSH_FXP_REMOVE := 13.
Definition SSH_FXP_MKDIR := 14.
Definition SSH_FXP_RMDIR := 15.
Definition SSH_FXP_REALPATH := 16.
Definition SSH_FXP_STAT := 17.
Definition SSH_FXP_RENAME := 18.
Definition SSH_FXP_READLINK := 19.
Definition SSH_FXP_SYMLINK := 20.
Definition SSH_FXP_LINK := 21.
Definition SSH_FXP_BLOCK := 22.
Definition SSH_FXP_UNBLOCK := 23.
Definition SSH_FXP_STATUS := 101.
Definition SSH_FXP_HANDLE := 102.
Definition SSH_FXP_DATA := 103.
Definition SSH_FXP_NAME := 104.
Definition SSH_FXP_ATTRS := 105.
Definition SSH_FXP_EXTENDED := 200.
Definition SSH_FXP_EXTENDED_REPLY := 201.

(** ** Frames *)

Definition uint32_at (b : bytes) (pos : Z) : option Z := get_uint32 (drop (Z.to_nat pos) b).
Definition uint64_at (b : bytes) (pos : Z) : option Z := get_uint64 (drop (Z.to_nat pos) b).
Definition byte_of (b : bytes) (pos : Z) : option Z := b !! Z.to_nat pos.

Definition frame (type id : Z) (payload : bytes) : bytes :=
  be_encode 4 (5 + zlen payload) ++ type :: be_encode 4 id ++ payload.

Lemma uint32_at_app a v rest pos : zlen a = pos -> is_u32 v -> uint32_at (a ++ be_encode 4 v ++ rest) pos = Some v.
Proof. intros <- Hv. unfold uint32_at, zlen. rewrite Nat2Z.id, drop_app_length. by apply get_uint32_encode. Qed.

Lemma uint64_at_app a v rest pos : zlen a = pos -> is_u64 v -> uint64_at (a ++ be_encode 8 v ++ rest) pos = Some v.
Proof. intros <- Hv. unfold uint64_at, zlen. rewrite Nat2Z.id, drop_app_length. by apply get_uint64_encode. Qed.

Lemma uint32_at_0 v rest : is_u32 v -> uint32_at (be_encode 4 v ++ rest) 0 = Some v.
Proof. apply (uint32_at_app []). done. Qed.

Lemma byte_of_app a x rest pos : zlen a = pos -> byte_of (a ++ x :: rest) pos = Some x.
Proof. intros <-. unfold byte_of, zlen. rewrite Nat2Z.id, list_lookup_middle; done. Qed.

Lemma frame_reads type id payload tail :
  is_u32 id -> is_u32 (5 + zlen payload) ->
  let b := frame type id payload ++ tail in
  uint32_at b 0 = Some (5 + zlen payload) /\ byte_of b 4 = Some type /\ uint32_at b 5 = Some id /\
  memmove b 0 9 (zlen payload) = Some (payload ++ drop (length payload) b).
Proof.
  intros Hid Hl b. unfold b, frame. rewrite <- app_assoc, <- app_comm_cons, <- app_assoc. split; [by apply uint32_at_0 |].
  split; [apply byte_of_app; by rewrite zlen_be_encode |]. split.
  - rewrite (cons_middle type), app_assoc. apply uint32_at_app; [| done]. by rewrite zlen_app, zlen_be_encode.
  - rewrite app_comm_cons, (app_assoc (be_encode 4 (5 + _))).
    replace 9 with (zlen (be_encode 4 (5 + zlen payload) ++ type :: be_encode 4 id)) at 1 by (rewrite zlen_app, zlen_cons, !zlen_be_encode; lia).
    apply memmove_front.
Qed.

Lemma zlen_frame type id payload : zlen (frame type id payload) = 9 + zlen payload.
Proof. unfold frame. rewrite zlen_app, zlen_cons, zlen_app, !zlen_be_encode. lia. Qed.

Lemma uint32_at_Some b pos : wf_bytes b -> 0 <= pos -> pos + 4 <= zlen b -> exists v, uint32_at b pos = Some v /\ is_u32 v.
Proof.
  intros Hb Hp Hl. unfold uint32_at. assert (zlen (drop (Z.to_nat pos) b) = zlen b - pos) as Hd by (apply zlen_drop; lia).
  assert (wf_bytes (drop (Z.to_nat pos) b)) as Hw by (by apply Forall_drop).
  destruct (drop (Z.to_nat pos) b) as [|t0 [|t1 [|t2 [|t3 rest]]]]; unfold zlen in Hd, Hl; simpl in Hd; [lia .. |].
  eexists. split; [reflexivity | apply u32_range].
Qed.

Lemma byte_of_Some b pos : 0 <= pos < zlen b -> exists x, byte_of b pos = Some x.
Proof. intros Hp. unfold byte_of. apply lookup_lt_is_Some. unfold zlen in Hp. lia. Qed.

(** ** Replies *)

(** What a server sends; [eof]: the optional last byte of version 6. *)
Inductive message :=
| MStatus (code : Z) (text language data : bytes)
| MHandle (handle : bytes)
| MData (data : bytes) (eof : option Z)
| MName (count : Z) (names : bytes)
| MAttrs (attrs : bytes)
| MExtendedReply (data : bytes).

Definition message_type (m : message) : Z :=
  match m with
  | MStatus _ _ _ _ => SSH_FXP_STATUS
  | MHandle _ => SSH_FXP_HANDLE
  | MData _ _ => SSH_FXP_DATA
  | MName _ _ => SSH_FXP_NAME
  | MAttrs _ => SSH_FXP_ATTRS
  | MExtendedReply _ => SSH_FXP_EXTENDED_REPLY
  end.

Definition eof_byte (eof : option Z) : bytes := match eof with Some e => [e] | None => [] end.

Definition message_payload (m : message) : bytes :=
  match m with
  | MStatus code text language data => be_encode 4 code ++ encode_string text ++ encode_string language ++ data
  | MHandle handle => encode_string handle
  | MData data eof => encode_string data ++ eof_byte eof
  | MName count names => be_encode 4 count ++ names
  | MAttrs d => d
  | MExtendedReply d => d
  end.

(** ** The array that is filled *)

(** [char data[n]] and [unsigned int pos]. *)
Abbreviation writer := (bytes * Z)%type.

(** A write through [&data[pos]]. *)
Definition store_at (data : bytes) (pos : Z) (f : bytes -> option bytes) : option bytes :=
  if pos <=? zlen data
  then let? q := f (drop (Z.to_nat pos) data) in Some (take (Z.to_nat pos) data ++ q) else None.

(** Each of these is a statement with the change of [pos] behind it. *)
Definition put_uint32 (v : Z) (w : writer) : option writer :=
  let (data, pos) := w in let? data := store_at data pos (fun p => store_uint32 p v) in Some (data, u32 (pos + 4)).
Definition put_uint64 (v : Z) (w : writer) : option writer :=
  let (data, pos) := w in let? data := store_at data pos (fun p => store_uint64 p v) in Some (data, u32 (pos + 8)).
Definition put_byte (v : Z) (w : writer) : option writer :=
  let (data, pos) := w in let? data := store_at data pos (fun p => mem_write p 0 [u8 v]) in Some (data, u32 (pos + 1)).
Definition put_bytes (p : bytes) (n : Z) (w : writer) : option writer :=
  let (data, pos) := w in
  let? d := mem_read p 0 n in let? data := store_at data pos (fun q => mem_write q 0 d) in Some (data, u32 (pos + n)).

(** [store_uint32(&data[0], pos - 4)]. *)
Definition put_length (w : writer) : option writer :=
  let (data, pos) := w in let? data := store_uint32 data (u32 (pos - 4)) in Some (data, pos).

(** The bytes that are sent: [pos] bytes from [data]. *)
Definition written (w : writer) : option bytes := let (data, pos) := w in mem_read data 0 pos.

(** An array of [n] bytes; what it holds before it is written is [fill]. *)
Definition array (fill n : Z) (pos : Z) : writer := (replicate (Z.to_nat n) fill, pos).

(** [done] is written, [free] is left. *)
Definition at_end (done free : bytes) : writer := (done ++ free, zlen done).

(** A statement that writes [e]. *)
Definition puts (f : writer -> option writer) (e : bytes) : Prop :=
  forall done free, zlen e <= zlen free -> is_u32 (zlen done + zlen e) ->
    f (at_end done free) = Some (at_end (done ++ e) (drop (length e) free)).

Lemma puts_store f e n :
  zlen e = n -> (forall p, zlen e <= zlen p -> f p = Some (e ++ drop (length e) p)) ->
  puts (fun w : writer => let (data, pos) := w in let? data := store_at data pos f in Some (data, u32 (pos + n))) e.
Proof.
  intros Hn Hf done free Hl Hu. unfold at_end, store_at. rewrite zlen_app. pose proof (zlen_nonneg free).
  destruct (Z.leb_spec (zlen done) (zlen done + zlen free)); [| lia]. replace (Z.to_nat (zlen done)) with (length done) by (unfold zlen; lia).
  rewrite drop_app_length, take_app_length.
  rewrite Hf by done. opt. rewrite <- Hn, u32_id by done. by rewrite zlen_app, app_assoc.
Qed.

Lemma puts_uint32 v : puts (put_uint32 v) (be_encode 4 v).
Proof. apply puts_store; [by rewrite zlen_be_encode |]. intros p Hp. rewrite store_uint32_be. by apply mem_write0_Some. Qed.

Lemma puts_uint64 v : puts (put_uint64 v) (be_encode 8 v).
Proof. apply puts_store; [by rewrite zlen_be_encode |]. intros p Hp. rewrite store_uint64_be. by apply mem_write0_Some. Qed.

Lemma puts_byte v : is_u8 v -> puts (put_byte v) [v].
Proof. intros Hv. apply puts_store; [done |]. intros p Hp. unfold u8. rewrite Z.mod_small by done. by apply mem_write0_Some. Qed.

Lemma puts_bytes p n : 0 <= n <= zlen p -> puts (put_bytes p n) (take (Z.to_nat n) p).
Proof.
  intros Hn done free. unfold put_bytes, at_end. rewrite mem_read_Some by lia. opt. rewrite drop_0.
  refine (puts_store _ (take (Z.to_nat n) p) n _ _ done free); [by apply zlen_take |]. intros q Hq. by apply mem_write0_Some.
Qed.

(** Statements one after the other. *)
Lemma puts_bind f g e e' : puts f e -> puts g e' -> puts (fun w => f w ≫= g) (e ++ e').
Proof.
  intros Hf Hg done free Hl Hu. rewrite zlen_app in Hl, Hu. pose proof (zlen_nonneg e). pose proof (zlen_nonneg e'). pose proof (zlen_nonneg done). unfold is_u32 in Hu.
  rewrite Hf by (unfold is_u32; lia). opt. rewrite Hg; [| | unfold is_u32; rewrite zlen_app; lia].
  - by rewrite length_app, drop_drop, app_assoc.
  - replace (length e) with (Z.to_nat (zlen e)) by (unfold zlen; lia). rewrite zlen_drop; lia.
Qed.

(** A message: the array, the statements, and the bytes that are sent. *)
Definition sent (fill n : Z) (body : writer -> option writer) : option bytes :=
  let? w := body (array fill n 0) in written w.

(** The same with the length stored last; [pos] starts at [start]. *)
Definition sent_patched (fill n start : Z) (body : writer -> option writer) : option bytes :=
  let? w := body (array fill n start) in let? w := put_length w in written w.

Lemma array_start fill n start : 0 <= start <= n -> array fill n start = at_end (replicate (Z.to_nat start) fill) (replicate (Z.to_nat (n - start)) fill).
Proof.
  intros Hs. unfold array, at_end, zlen. rewrite <- replicate_add, length_replicate. f_equal; [f_equal; lia | lia].
Qed.

Lemma zlen_replicate n (x : Z) : 0 <= n -> zlen (replicate (Z.to_nat n) x) = n.
Proof. intros. unfold zlen. rewrite length_replicate. lia. Qed.

Lemma written_at_end done free : written (at_end done free) = Some done.
Proof.
  unfold written, at_end. rewrite mem_read_Some; [| lia | apply zlen_nonneg | rewrite zlen_app; pose proof (zlen_nonneg free); lia].
  unfold zlen. by rewrite Nat2Z.id, drop_0, take_app_length.
Qed.

Lemma sent_spec fill n body e : puts body e -> zlen e <= n -> is_u32 n -> sent fill n body = Some e.
Proof.
  intros Hb He Hn. unfold is_u32 in Hn. pose proof (zlen_nonneg e). unfold sent. rewrite array_start by lia.
  rewrite Hb by (rewrite ?zlen_replicate by lia; unfold is_u32, zlen in *; simpl; lia). opt. apply written_at_end.
Qed.

Lemma put_length_spec h e free :
  zlen h = 4 -> is_u32 (4 + zlen e) -> (put_length (at_end (h ++ e) free) ≫= written) = Some (be_encode 4 (zlen e) ++ e).
Proof.
  intros Hh Hu. unfold at_end, put_length. rewrite zlen_app, Hh. pose proof (zlen_nonneg e). unfold is_u32 in Hu.
  rewrite u32_id by (unfold is_u32; lia). replace (4 + zlen e - 4) with (zlen e) by lia.
  rewrite store_uint32_be, mem_write0_Some by (rewrite zlen_be_encode, !zlen_app; pose proof (zlen_nonneg free); lia). opt.
  rewrite length_be_encode, <- app_assoc. replace 4%nat with (length h) at 2 by (unfold zlen in Hh; lia). rewrite drop_app_length, app_assoc.
  replace (4 + zlen e) with (zlen (be_encode 4 (zlen e) ++ e)) by (rewrite zlen_app, zlen_be_encode; lia). apply written_at_end.
Qed.

Lemma sent_patched_spec fill n body e :
  puts body e -> 4 + zlen e <= n -> is_u32 n -> sent_patched fill n 4 body = Some (be_encode 4 (zlen e) ++ e).
Proof.
  intros Hb He Hn. unfold is_u32 in Hn. pose proof (zlen_nonneg e). unfold sent_patched. rewrite array_start by lia.
  rewrite Hb by (rewrite ?zlen_replicate by lia; unfold is_u32; lia). opt.
  apply put_length_spec; [by rewrite zlen_replicate | unfold is_u32; lia].
Qed.

Lemma sent_patched_spec0 fill n body e :
  puts body e -> 4 + zlen e <= n -> is_u32 n ->
  sent_patched fill n 0 (fun w => put_uint32 0 w ≫= body) = Some (be_encode 4 (zlen e) ++ e).
Proof.
  intros Hb He Hn. unfold is_u32 in Hn. pose proof (zlen_nonneg e). unfold sent_patched. rewrite array_start by lia.
  rewrite (puts_bind _ _ _ _ (puts_uint32 0) Hb) by (rewrite zlen_app, zlen_be_encode, ?zlen_replicate by lia; unfold is_u32, zlen in *; simpl; lia). opt.
  change (replicate (Z.to_nat 0) fill) with (@nil Z). rewrite app_nil_l.
  apply put_length_spec; [by rewrite zlen_be_encode | unfold is_u32; lia].
Qed.

(** A message with the length stored first, and one with the length stored last. *)
Lemma sent_frame fill n body len type id payload :
  puts body (be_encode 4 len ++ [type] ++ be_encode 4 id ++ payload) -> len = 5 + zlen payload -> 9 + zlen payload <= n -> is_u32 n ->
  sent fill n body = Some (frame type id payload).
Proof.
  intros Hb -> Hn Hu. apply sent_spec; [exact Hb | | done]. rewrite zlen_frame. lia.
Qed.

Lemma frame_length type id payload : frame type id payload =
  be_encode 4 (zlen ([type] ++ be_encode 4 id ++ payload)) ++ [type] ++ be_encode 4 id ++ payload.
Proof. unfold frame. rewrite !zlen_app, zlen_be_encode. do 2 f_equal. unfold zlen at 2. simpl. lia. Qed.

Lemma sent_patched_frame fill n body type id payload :
  puts body ([type] ++ be_encode 4 id ++ payload) -> 9 + zlen payload <= n -> is_u32 n ->
  sent_patched fill n 4 body = Some (frame type id payload).
Proof.
  intros Hb Hn Hu. rewrite frame_length. apply sent_patched_spec; [exact Hb | | done]. rewrite !zlen_app, zlen_be_encode. unfold zlen at 1. simpl. lia.
Qed.

Lemma sent_patched_frame0 fill n body type id payload :
  puts body ([type] ++ be_encode 4 id ++ payload) -> 9 + zlen payload <= n -> is_u32 n ->
  sent_patched fill n 0 (fun w => put_uint32 0 w ≫= body) = Some (frame type id payload).
Proof.
  intros Hb Hn Hu. rewrite frame_length. apply sent_patched_spec0; [exact Hb | | done]. rewrite !zlen_app, zlen_be_encode. unfold zlen at 1. simpl. lia.
Qed.

Create HintDb puts.
#[export] Hint Resolve puts_bind puts_uint32 puts_uint64 puts_byte puts_bytes : puts.
#[global] Opaque put_uint32 put_uint64 put_byte put_bytes.

End SftpWire.
