(* ===== verification/SftpRecv.v ===== *)
(** * sftp/recv.c and sftp/recv: replies of the sftp server

    The data of the ssh channel is handed to [receive_sftp_data], which takes the
    frame apart and calls the function of the protocol version for the type of
    the reply.  That function takes the request with the id of the reply from the
    table of outstanding requests, fills in its reply and wakes the thread that
    waits.  The table is used through the class [RequestTable], of which the
    table of RequestHash is an instance at the end of the file. *)

From stdpp Require Import base list list_numbers numbers option gmap.
From S2P Require Import Prelude SshUint SshString ListStore RequestHash SftpWire.
Import SshUint SshString ListStore RequestHash SftpWire.

(** ** What the receiver needs of the table of requests *)

Module RequestTable.

(** [rq_waits t W]: the table is consistent and the requests in it, with their
    ids, are those of [W]. *)
Class RequestTable (T : Type) := {
  rq_get : T -> Z -> outcome (option nat * T);
  rq_signal : T -> nat -> option (Z * T);
  rq_signal_error : T -> nat -> option T;
  rq_state : T -> nat -> option Z;
  rq_waits : T -> gmap nat Z -> Prop;
  rq_get_spec t W id : rq_waits t W ->
    (exists r t' st, rq_get t id = Ret (Some r, t') /\ W !! r = Some id /\ rq_waits t' (delete r W) /\
       rq_state t' r = Some st /\ has st SFTP_REQUEST_STATUS_RESPONSE = true /\
       forall f, f <> r -> rq_state t' f = rq_state t f) \/
    (rq_get t id = Ret (None, t) /\ forall r, W !! r <> Some id);
  rq_signal_spec t W r st : rq_waits t W -> rq_state t r = Some st -> has st SFTP_REQUEST_STATUS_RESPONSE = true ->
    exists t' st', rq_signal t r = Some (0, t') /\ rq_waits t' W /\ rq_state t' r = Some st' /\
      has st' SFTP_REQUEST_STATUS_FINISH = true /\ forall f, f <> r -> rq_state t' f = rq_state t f;
  rq_signal_error_spec t W r st : rq_waits t W -> rq_state t r = Some st ->
    exists t' st', rq_signal_error t r = Some t' /\ rq_waits t' W /\ rq_state t' r = Some st' /\
      has st' SFTP_REQUEST_STATUS_ERROR = true /\ forall f, f <> r -> rq_state t' f = rq_state t f
}.

End RequestTable.
Import RequestTable.

Module SftpRecv.

Definition SFTP_HANDLE_MAXSIZE := 255.
Definition SFTP_RESPONSE_FLAG_EOF_SUPPORTED := 1.
Definition SFTP_RESPONSE_FLAG_EOF := 2.

Definition EPERM := 1.
Definition ENOENT := 2.
Definition EWOULDBLOCK := 11.
Definition EACCES := 13.
Definition EEXIST := 17.
Definition ENODEV := 19.
Definition ENOTDIR := 20.
Definition EISDIR := 21.
Definition EINVAL := 22.
Definition ENOSPC := 28.
Definition ENOLCK := 37.
Definition ENOTEMPTY := 39.
Definition ELOOP := 40.
Definition ENODATA := 61.
Definition EBADMSG := 74.
Definition EOPNOTSUPP := 95.
Definition ESHUTDOWN := 108.
Definition EINPROGRESS := 115.
Definition EDQUOT := 122.

(** The tables are indexed by the status codes, which count from 0. *)
Definition linux_error_map_v03 : list Z :=
  [0; ENODATA; ENOENT; EPERM; EIO; EBADMSG; ENOTCONN; ESHUTDOWN; EOPNOTSUPP].
Definition linux_error_map_v04 : list Z :=
  [0; ENODATA; ENOENT; EPERM; EIO; EBADMSG; ENOTCONN; ESHUTDOWN; EOPNOTSUPP; EINVAL; ENOENT; EEXIST; EACCES; ENODEV].
Definition linux_error_map_v05 : list Z :=
  [0; ENODATA; ENOENT; EPERM; EIO; EBADMSG; ENOTCONN; ESHUTDOWN; EOPNOTSUPP; EINVAL; ENOENT; EEXIST; EACCES; ENODEV;
   ENOSPC; EDQUOT; EIO; EWOULDBLOCK].
Definition linux_error_map_v06 : list Z :=
  [0; ENODATA; ENOENT; EPERM; EIO; EBADMSG; ENOTCONN; ESHUTDOWN; EOPNOTSUPP; EINVAL; ENOENT; EEXIST; EACCES; ENODEV;
   ENOSPC; EDQUOT; EIO; EWOULDBLOCK; ENOTEMPTY; ENOTDIR; EINVAL; ELOOP; EPERM; EINVAL; EISDIR; EPERM; EPERM;
   EINPROGRESS; EIO; EINVAL; EINVAL; ENOLCK].

Definition map_error (m : list Z) (ssh_fx_error : Z) : Z :=
  if ssh_fx_error <? zlen m then nth (Z.to_nat ssh_fx_error) m EIO else EIO.

Definition map_sftp_error_v03 := map_error linux_error_map_v03.
Definition map_sftp_error_v04 := map_error linux_error_map_v04.
Definition map_sftp_error_v05 := map_error linux_error_map_v05.
Definition map_sftp_error_v06 := map_error linux_error_map_v06.

(** [union sftp_response_u]: the member written last. *)
Inductive sftp_response :=
| Status (code linux_error : Z)
| Data (flags : Z)
| Name (flags count : Z).

(** [rp_data]: NULL, or the bytes from the pointer to the end of the buffer. *)
Record sftp_reply := mk_reply {
  rp_type : Z;
  rp_response : sftp_response;
  rp_data : option bytes;
  rp_size : Z
}.

Definition set_type v r := mk_reply v (rp_response r) (rp_data r) (rp_size r).
Definition set_response v r := mk_reply (rp_type r) v (rp_data r) (rp_size r).
Definition set_data v r := mk_reply (rp_type r) (rp_response r) (Some v) (rp_size r).
Definition set_size v r := mk_reply (rp_type r) (rp_response r) (rp_data r) v.

Record sftp_header := mk_header {
  h_type : Z;
  h_id : Z;
  h_seq : Z;
  h_len : Z;
  h_buffer : bytes
}.

(** [receive.receive_data] and [recv_ops]. *)
Inductive receive_fn := ReceiveInit | ReceiveReply.
Inductive recv_ops := RecvV03 | RecvV04 | RecvV05 | RecvV06.

Section Receive.
Context {T : Type} `{!RequestTable T}.

(** [cl_seq] to [cl_sigerror] are fields of [signal]; [cl_replies]: the [reply]
    of each request. *)
Record client := mk_client {
  cl_table : T;
  cl_replies : gmap nat sftp_reply;
  cl_seq : Z;
  cl_seqtype : Z;
  cl_seqset : Z;
  cl_sigerror : bool;
  cl_receive : receive_fn;
  cl_ops : option recv_ops;
  cl_version : Z
}.

Definition set_table v c := mk_client v (cl_replies c) (cl_seq c) (cl_seqtype c) (cl_seqset c) (cl_sigerror c) (cl_receive c) (cl_ops c) (cl_version c).
Definition set_replies v c := mk_client (cl_table c) v (cl_seq c) (cl_seqtype c) (cl_seqset c) (cl_sigerror c) (cl_receive c) (cl_ops c) (cl_version c).
Definition set_receive v c := mk_client (cl_table c) (cl_replies c) (cl_seq c) (cl_seqtype c) (cl_seqset c) (cl_sigerror c) v (cl_ops c) (cl_version c).
Definition set_ops v c := mk_client (cl_table c) (cl_replies c) (cl_seq c) (cl_seqtype c) (cl_seqset c) (cl_sigerror c) (cl_receive c) v (cl_version c).

(** The shape of every function that handles a reply: the request with the id is
    taken from the table, the assignments [body] are made to its reply, and the
    thread is woken with [signal_sftp_received_id], or with
    [signal_sftp_received_id_error] when [body] finds an error.  The boolean says
    whether there was a request. *)
Definition answer (c : client) (id : Z) (body : sftp_reply -> option (sftp_reply * bool)) : outcome (bool * client) :=
  let! (req, t) := rq_get (cl_table c) id in
  match req with
  | Some r =>
      let! reply := lift (cl_replies c !! r) in
      let! (reply, valid) := lift (body reply) in
      let c := set_replies (<[r := reply]> (cl_replies c)) c in
      if valid : bool then let! (_, t) := lift (rq_signal t r) in Ret (true, set_table t c)
      else let! t := lift (rq_signal_error t r) in Ret (true, set_table t c)
  | None => Ret (false, set_table t c)
  end.

Definition handle_reply (c : client) (header : sftp_header) (body : sftp_reply -> option (sftp_reply * bool)) : outcome client :=
  let! (_, c) := answer c (h_id header) body in Ret c.

(** ** The functions for the types of replies *)

Definition receive_sftp_status_v03 (map_sftp_error : Z -> Z) (c : client) (header : sftp_header) : outcome client :=
  handle_reply c header (fun reply =>
    let reply := set_type (h_type header) reply in
    let? code := uint32_at (h_buffer header) 0 in
    Some (set_response (Status code (map_sftp_error code)) reply, true)).

(** The error message is only copied for the log. *)
Definition receive_sftp_status_v05 (map_sftp_error : Z -> Z) (c : client) (header : sftp_header) : outcome client :=
  handle_reply c header (fun reply =>
    let buffer := h_buffer header in
    let reply := set_type (h_type header) reply in
    let? code := uint32_at buffer 0 in
    let reply := set_response (Status code (map_sftp_error code)) reply in
    let? len := uint32_at buffer 4 in
    let? pos := if 0 <? len then let? _ := mem_read buffer 8 len in Some (u32 (8 + len)) else Some 8 in
    if u32 (pos + 4) <? h_len header then
      let? len := uint32_at buffer pos in
      let pos := u32 (pos + 4) in
      if u32 (pos + len) <? h_len header then
        let pos := u32 (pos + len) in
        let size := u32 (h_len header - pos) in
        let? buffer := memmove buffer 0 pos size in
        Some (set_data buffer (set_size size reply), true)
      else Some (reply, true)
    else Some (reply, true)).

Definition receive_sftp_handle_v03 (c : client) (header : sftp_header) : outcome client :=
  handle_reply c header (fun reply =>
    let buffer := h_buffer header in
    let reply := set_type (h_type header) reply in
    let? size := uint32_at buffer 0 in
    let reply := set_size size reply in
    if (size <=? SFTP_HANDLE_MAXSIZE) && (u32 (size + 4) <=? h_len header) then
      let? buffer := memmove buffer 0 4 size in Some (set_data buffer reply, true)
    else Some (reply, false)).

Definition receive_sftp_data_v03 (c : client) (header : sftp_header) : outcome client :=
  handle_reply c header (fun reply =>
    let buffer := h_buffer header in
    let reply := set_response (Data 0) (set_type (h_type header) reply) in
    let? size := uint32_at buffer 0 in
    let? buffer := memmove buffer 0 4 size in
    Some (set_data buffer (set_size size reply), true)).

Definition receive_sftp_data_v06 (c : client) (header : sftp_header) : outcome client :=
  handle_reply c header (fun reply =>
    let buffer := h_buffer header in
    let reply := set_type (h_type header) reply in
    let flags := SFTP_RESPONSE_FLAG_EOF_SUPPORTED in
    let? size := uint32_at buffer 0 in
    let? flags :=
      if u32 (size + 4) <? h_len header then
        let? eof := byte_of buffer (u32 (size + 4)) in
        Some (Z.lor flags (if eof =? 0 then 0 else SFTP_RESPONSE_FLAG_EOF))
      else Some flags in
    let? buffer := memmove buffer 0 4 size in
    Some (set_data buffer (set_size size (set_response (Data flags) reply)), true)).

(** [receive_sftp_name_v03] and [receive_sftp_name_v06] differ in the flags. *)
Definition receive_sftp_name (flags : Z) (c : client) (header : sftp_header) : outcome client :=
  handle_reply c header (fun reply =>
    let buffer := h_buffer header in
    let reply := set_type (h_type header) reply in
    let? count := uint32_at buffer 0 in
    let reply := set_response (Name flags count) reply in
    let size := u32 (h_len header - 4) in
    let? buffer := memmove buffer 0 4 size in
    Some (set_data buffer (set_size size reply), true)).

Definition receive_sftp_name_v03 := receive_sftp_name 0.
Definition receive_sftp_name_v06 := receive_sftp_name SFTP_RESPONSE_FLAG_EOF_SUPPORTED.

Definition receive_sftp_attr_v03 (c : client) (header : sftp_header) : outcome client :=
  handle_reply c header (fun reply =>
    Some (set_data (h_buffer header) (set_size (h_len header) (set_type (h_type header) reply)), true)).

Definition receive_sftp_extension_v03 (c : client) (header : sftp_header) : outcome client := Ret c.

Definition receive_sftp_extension_reply_v03 (c : client) (header : sftp_header) : outcome client :=
  handle_reply c header (fun reply =>
    Some (set_data (h_buffer header) (set_size (h_len header) (set_type (h_type header) reply)), true)).

(** The tables [recv_ops_v03] to [recv_ops_v06], member by member. *)
Definition ops_status (o : recv_ops) : client -> sftp_header -> outcome client :=
  match o with
  | RecvV03 => receive_sftp_status_v03 map_sftp_error_v03
  | RecvV04 => receive_sftp_status_v03 map_sftp_error_v04
  | RecvV05 => receive_sftp_status_v05 map_sftp_error_v05
  | RecvV06 => receive_sftp_status_v05 map_sftp_error_v06
  end.
Definition ops_data (o : recv_ops) : client -> sftp_header -> outcome client :=
  match o with RecvV06 => receive_sftp_data_v06 | _ => receive_sftp_data_v03 end.
Definition ops_name (o : recv_ops) : client -> sftp_header -> outcome client :=
  match o with RecvV06 => receive_sftp_name_v06 | _ => receive_sftp_name_v03 end.

(** ** recv.c *)

(** The result: 0 when there is a request, -1 when not. *)
Definition signal_sftp_reply_invalid (c : client) (id type : Z) : outcome (Z * client) :=
  let! (found, c) := answer c id (fun reply => Some (set_type type reply, false)) in
  Ret (if found : bool then 0 else -1, c).

(** The fall back on the sequence number; [now] is the system time. *)
Definition signal_sequence (now : Z) (c : client) (seq type : Z) : client :=
  mk_client (cl_table c) (cl_replies c) seq type now true (cl_receive c) (cl_ops c) (cl_version c).

Definition process_receive_sftp_reply_error (now : Z) (c : client) (buffer : bytes) (size seq : Z) : outcome client :=
  let! (result, c) :=
    if 9 <=? size then
      let! type := lift (byte_of buffer 4) in
      let! id := lift (uint32_at buffer 5) in
      signal_sftp_reply_invalid c id type
    else Ret (-1, c) in
  if result =? 0 then Ret c
  else
    let! type := if 5 <=? size then lift (byte_of buffer 4) else Ret 0 in
    Ret (signal_sequence now c seq type).

(** The [switch] on the type; [recv_ops] is read where a function is called. *)
Definition dispatch_reply (c : client) (header : sftp_header) : outcome client :=
  let type := h_type header in
  if type =? SSH_FXP_STATUS then let! o := lift (cl_ops c) in ops_status o c header
  else if type =? SSH_FXP_HANDLE then let! _ := lift (cl_ops c) in receive_sftp_handle_v03 c header
  else if type =? SSH_FXP_DATA then let! o := lift (cl_ops c) in ops_data o c header
  else if type =? SSH_FXP_NAME then let! o := lift (cl_ops c) in ops_name o c header
  else if type =? SSH_FXP_ATTRS then let! _ := lift (cl_ops c) in receive_sftp_attr_v03 c header
  else if type =? SSH_FXP_EXTENDED then let! _ := lift (cl_ops c) in receive_sftp_extension_v03 c header
  else if type =? SSH_FXP_EXTENDED_REPLY then let! _ := lift (cl_ops c) in receive_sftp_extension_reply_v03 c header
  else let! (_, c) := signal_sftp_reply_invalid c (h_id header) type in Ret c.

Definition _receive_sftp_reply (now : Z) (c : client) (buffer : bytes) (size seq : Z) : outcome client :=
  if size <? 9 then process_receive_sftp_reply_error now c buffer size seq
  else
    let! len := lift (uint32_at buffer 0) in
    if size <? u32 (4 + len) then process_receive_sftp_reply_error now c buffer size seq
    else
      let! type := lift (byte_of buffer 4) in
      let len := u32 (len - 1) in
      let! id := lift (uint32_at buffer 5) in
      let len := u32 (len - 4) in
      let! buffer := lift (memmove buffer 0 9 len) in
      let! buffer := lift (memzero buffer len (u32 (size - len))) in
      dispatch_reply c (mk_header type id seq len buffer).

(** On a size below 5 the code passes [*buffer] for the pointer [buffer]; the
    function called does not access it for such a size, and is given no object. *)
Definition _receive_sftp_init (now : Z) (c : client) (buffer : bytes) (size seq : Z) : outcome client :=
  let c := set_receive ReceiveReply c in
  if 5 <=? size then
    let! len := lift (uint32_at buffer 0) in
    let! type := lift (byte_of buffer 4) in
    let len := u32 (len - 1) in
    if (u32 (5 + len) <=? size) && (type =? SSH_FXP_VERSION) then
      let! buffer := lift (memmove buffer 0 5 len) in
      let! (found, c) := answer c (2 ^ 32 - 1) (fun reply => Some (set_data buffer (set_size len (set_type type reply)), true)) in
      if found : bool then Ret c else Ub   (* signal_sftp_received_id_error on NULL *)
    else Ret c
  else
    let! _ := lift (byte_of buffer 0) in
    process_receive_sftp_reply_error now c [] size seq.

Definition receive_sftp_data (now : Z) (c : client) (buffer : bytes) (size seq : Z) : outcome client :=
  match cl_receive c with
  | ReceiveInit => _receive_sftp_init now c buffer size seq
  | ReceiveReply => _receive_sftp_reply now c buffer size seq
  end.

Definition init_sftp_receive (c : client) : client := set_receive ReceiveInit c.

(** [what] is compared with the strings init and session. *)
Definition switch_sftp_receive (c : client) (what : bytes) : client :=
  if bytes_eqb what [105; 110; 105; 116] then set_receive ReceiveInit c
  else if bytes_eqb what [115; 101; 115; 115; 105; 111; 110] then set_receive ReceiveReply c
  else c.

Definition set_sftp_recv_version (c : client) : client :=
  let version := cl_version c in
  if version =? 3 then set_ops (Some RecvV03) c
  else if version =? 4 then set_ops (Some RecvV04) c
  else if version =? 5 then set_ops (Some RecvV05) c
  else if version =? 6 then set_ops (Some RecvV06) c
  else c.

(** ** Answering a request *)

(** Every request in the table has a reply to fill in. *)
Definition wf_client (c : client) (W : gmap nat Z) : Prop :=
  rq_waits (cl_table c) W /\ forall r id, W !! r = Some id -> is_Some (cl_replies c !! r).

(** What a reply for [id] does: the request that waits for it leaves the table
    with [flag] in its status and its reply changed as [P] says, every other
    request keeps its reply and its status, and nothing else of the client
    changes; or no request waits for [id], and nothing changes at all. *)
Definition answered (c : client) (W : gmap nat Z) (id flag : Z) (P : sftp_reply -> sftp_reply -> Prop) (res : outcome client) : Prop :=
  (exists r rp rp' t' st, W !! r = Some id /\ cl_replies c !! r = Some rp /\ P rp rp' /\
     res = Ret (set_table t' (set_replies (<[r := rp']> (cl_replies c)) c)) /\ rq_waits t' (delete r W) /\
     rq_state t' r = Some st /\ has st flag = true /\ forall f, f <> r -> rq_state t' f = rq_state (cl_table c) f) \/
  ((forall r, W !! r <> Some id) /\ res = Ret c).

Definition flag_of (valid : bool) : Z := if valid then SFTP_REQUEST_STATUS_FINISH else SFTP_REQUEST_STATUS_ERROR.

Lemma set_table_same c : set_table (cl_table c) c = c.
Proof. by destruct c. Qed.

Lemma answer_spec c W id body valid (P : sftp_reply -> sftp_reply -> Prop) :
  wf_client c W -> (forall rp, exists rp', body rp = Some (rp', valid) /\ P rp rp') ->
  exists found c', answer c id body = Ret (found, c') /\ answered c W id (flag_of valid) P (Ret c') /\
    if found then exists r, W !! r = Some id else c' = c /\ forall r, W !! r <> Some id.
Proof.
  intros [HW Hr] Hb. unfold answer.
  destruct (rq_get_spec (cl_table c) W id HW) as [(r & t1 & st & -> & Hin & HW1 & Hst & Hresp & Hoth) | [-> Hno]]; cbn [outcome_bind].
  - destruct (Hr r id Hin) as [rp Hrp]. rewrite Hrp. cbn [lift outcome_bind].
    destruct (Hb rp) as (rp' & -> & HP). cbn [lift outcome_bind]. destruct valid.
    + destruct (rq_signal_spec t1 _ r st HW1 Hst Hresp) as (t2 & st' & -> & HW2 & Hst2 & Hf & Hoth2). cbn [lift outcome_bind].
      eexists true, _. split; [done |]. split; [| eauto]. left. exists r, rp, rp', t2, st'. repeat (split; [done |]). intros f Hne. by rewrite Hoth2, Hoth.
    + destruct (rq_signal_error_spec t1 _ r st HW1 Hst) as (t2 & st' & -> & HW2 & Hst2 & Hf & Hoth2). cbn [lift outcome_bind].
      eexists true, _. split; [done |]. split; [| eauto]. left. exists r, rp, rp', t2, st'. repeat (split; [done |]). intros f Hne. by rewrite Hoth2, Hoth.
  - exists false, c. rewrite set_table_same. split; [done |]. split; [by right | done].
Qed.

Lemma handle_reply_spec c W h body valid (P : sftp_reply -> sftp_reply -> Prop) :
  wf_client c W -> (forall rp, exists rp', body rp = Some (rp', valid) /\ P rp rp') ->
  answered c W (h_id h) (flag_of valid) P (handle_reply c h body).
Proof.
  intros Hwf Hb. unfold handle_reply. destruct (answer_spec c W (h_id h) body valid P Hwf Hb) as (found & c' & -> & Ha & _). done.
Qed.

Lemma invalid_spec c W id type :
  wf_client c W -> exists v c', signal_sftp_reply_invalid c id type = Ret (v, c') /\
    answered c W id SFTP_REQUEST_STATUS_ERROR (fun rp rp' => rp' = set_type type rp) (Ret c') /\
    (v = 0 /\ (exists r, W !! r = Some id) \/ v = -1 /\ c' = c /\ forall r, W !! r <> Some id).
Proof.
  intros Hwf. unfold signal_sftp_reply_invalid.
  destruct (answer_spec c W id (fun reply => Some (set_type type reply, false)) false (fun rp rp' => rp' = set_type type rp) Hwf)
    as (found & c' & -> & Ha & Hn); [eauto |].
  cbn [outcome_bind]. eexists _, c'. split; [done |]. split; [done |]. destruct found; [by left | by right].
Qed.

(** ** Frames and messages *)

(** The frame is taken apart: its type and id are in the header, the buffer
    starts with the payload, and is cleared up to its size. *)
Lemma open_frame now c type id payload tail size seq :
  is_u32 id -> 9 + zlen payload <= size <= 9 + zlen payload + zlen tail -> is_u32 size ->
  exists rest, zlen rest = 9 + zlen tail /\
    _receive_sftp_reply now c (frame type id payload ++ tail) size seq =
    dispatch_reply c (mk_header type id seq (zlen payload) (payload ++ rest)).
Proof.
  intros Hid Hsize Hu. unfold is_u32 in Hu. pose proof (zlen_nonneg payload).
  destruct (frame_reads type id payload tail Hid) as (E0 & E4 & E5 & Em); [unfold is_u32; lia |].
  set (b := frame type id payload ++ tail) in *. unfold _receive_sftp_reply. destruct (Z.ltb_spec size 9); [lia |].
  rewrite E0, E4, E5. cbn [lift outcome_bind]. rewrite (u32_id (4 + _)) by (unfold is_u32; lia).
  destruct (Z.ltb_spec size (4 + (5 + zlen payload))); [lia |].
  rewrite (u32_id (5 + zlen payload - 1)) by (unfold is_u32; lia). rewrite (u32_id (_ - 4)) by (unfold is_u32; lia).
  replace (5 + zlen payload - 1 - 4) with (zlen payload) by lia. rewrite Em. cbn [lift outcome_bind].
  assert (zlen (drop (length payload) b) = 9 + zlen tail) as Hd.
  { replace (length payload) with (Z.to_nat (zlen payload)) by (unfold zlen; lia).
    rewrite zlen_drop; unfold b; rewrite zlen_app, zlen_frame; pose proof (zlen_nonneg tail); lia. }
  rewrite u32_id by (unfold is_u32; lia). rewrite memzero_front by lia. cbn [lift outcome_bind]. eexists. split; [| done].
  rewrite zlen_app, zlen_drop by lia. unfold zlen at 1. rewrite length_replicate. lia.
Qed.

Definition wf_message (m : message) : Prop :=
  match m with
  | MStatus code _ _ _ => is_u32 code
  | MHandle handle => zlen handle <= SFTP_HANDLE_MAXSIZE
  | MName count _ => is_u32 count
  | _ => True
  end.

(** The data of the reply is [d]. *)
Definition content (rp : sftp_reply) (d : bytes) : Prop :=
  rp_size rp = zlen d /\ exists rest, rp_data rp = Some (d ++ rest).

Definition error_map (o : recv_ops) : list Z :=
  match o with
  | RecvV03 => linux_error_map_v03
  | RecvV04 => linux_error_map_v04
  | RecvV05 => linux_error_map_v05
  | RecvV06 => linux_error_map_v06
  end.

Definition eof_flag (o : recv_ops) (eof : option Z) : Z :=
  match o, eof with
  | RecvV06, Some e => if e =? 0 then 1 else 3
  | RecvV06, None => 1
  | _, _ => 0
  end.

(** What the message means for the reply of the request. *)
Definition delivered (o : recv_ops) (m : message) (rp rp' : sftp_reply) : Prop :=
  rp_type rp' = message_type m /\
  match m with
  | MStatus code text language data =>
      rp_response rp' = Status code (map_error (error_map o) code) /\
      match o with
      | RecvV05 | RecvV06 => if decide (data = []) then rp_data rp' = rp_data rp /\ rp_size rp' = rp_size rp else content rp' data
      | _ => rp_data rp' = rp_data rp /\ rp_size rp' = rp_size rp
      end
  | MHandle handle => rp_response rp' = rp_response rp /\ content rp' handle
  | MData data eof => rp_response rp' = Data (eof_flag o eof) /\ content rp' data
  | MName count names => rp_response rp' = Name (eof_flag o None) count /\ content rp' names
  | MAttrs d | MExtendedReply d => rp_response rp' = rp_response rp /\ content rp' d
  end.

(** The counted string at the front of a buffer is moved over its count. *)
Lemma take_counted d rest : is_u32 (zlen d) -> let b := encode_string d ++ rest in
  uint32_at b 0 = Some (zlen d) /\ exists rest', memmove b 0 4 (zlen d) = Some (d ++ rest').
Proof.
  intros Hd b. unfold b, encode_string. rewrite <- app_assoc. split; [by apply uint32_at_0 |].
  replace 4 with (zlen (be_encode 4 (zlen d))) at 2 by (by rewrite zlen_be_encode). eexists. apply memmove_front.
Qed.

Ltac message_bounds :=
  unfold is_u32, SFTP_HANDLE_MAXSIZE in *; rewrite ?zlen_app, ?zlen_encode_string, ?zlen_be_encode, ?zlen_cons in *; change (zlen (@nil Z)) with 0 in *;
  repeat match goal with x : bytes |- _ => lazymatch goal with _ : 0 <= zlen x |- _ => fail | _ => pose proof (zlen_nonneg x) end end; lia.

Section Delivery.
Context (c : client) (W : gmap nat Z) (id seq : Z) (rest : bytes) (Hwf : wf_client c W).

Abbreviation header_of m := (mk_header (message_type m) id seq (zlen (message_payload m)) (message_payload m ++ rest)).
Abbreviation delivers o m := (answered c W id SFTP_REQUEST_STATUS_FINISH (delivered o m)).

Lemma deliver_handle o handle : wf_message (MHandle handle) ->
  delivers o (MHandle handle) (receive_sftp_handle_v03 c (header_of (MHandle handle))).
Proof.
  intros Hm. apply (handle_reply_spec c W (header_of (MHandle handle)) _ true); [done |]. intros rp. cbn [h_buffer h_len h_type message_payload].
  destruct (take_counted handle rest) as (-> & rest' & Em); [simpl in Hm; message_bounds |]. opt.
  rewrite Em. simpl in Hm. rewrite u32_id by message_bounds. rewrite zlen_encode_string. bdestr; [| message_bounds ..]. opt.
  eexists. split; [done |]. do 2 (split; [done |]). split; [done |]. by exists rest'.
Qed.

Lemma deliver_data_v03 o data eof : o <> RecvV06 -> is_u32 (zlen (message_payload (MData data eof))) ->
  delivers o (MData data eof) (receive_sftp_data_v03 c (header_of (MData data eof))).
Proof.
  intros Ho Hu. apply (handle_reply_spec c W (header_of (MData data eof)) _ true); [done |]. intros rp. cbn [h_buffer h_len h_type message_payload] in *.
  rewrite <- app_assoc. destruct (take_counted data (eof_byte eof ++ rest)) as (-> & rest' & Em);
    [pose proof (zlen_nonneg (eof_byte eof)); message_bounds |]. opt. rewrite Em. opt.
  eexists. split; [done |]. split; [done |]. split; [by destruct o |]. split; [done |]. by exists rest'.
Qed.

Lemma deliver_data_v06 data eof : is_u32 (zlen (message_payload (MData data eof))) ->
  delivers RecvV06 (MData data eof) (receive_sftp_data_v06 c (header_of (MData data eof))).
Proof.
  intros Hu. apply (handle_reply_spec c W (header_of (MData data eof)) _ true); [done |]. intros rp. cbn [h_buffer h_len h_type message_payload] in *.
  rewrite <- app_assoc. destruct (take_counted data (eof_byte eof ++ rest)) as (-> & rest' & Em);
    [pose proof (zlen_nonneg (eof_byte eof)); message_bounds |]. opt. rewrite Em. destruct eof as [e|]; cbn [eof_byte] in *.
  - rewrite u32_id by message_bounds. destruct (Z.ltb_spec (zlen data + 4) (zlen (encode_string data ++ [e]))); [| message_bounds].
    cbn [app]. rewrite byte_of_app by message_bounds. opt. eexists. split; [done |]. split; [done |]. split; [| by split; [| exists rest']].
    cbn. by destruct (e =? 0).
  - rewrite u32_id by message_bounds. destruct (Z.ltb_spec (zlen data + 4) (zlen (encode_string data ++ []))); [message_bounds |]. opt.
    eexists. split; [done |]. do 2 (split; [done |]). split; [done |]. by exists rest'.
Qed.

Lemma deliver_name o flags count names : is_u32 count -> is_u32 (zlen (message_payload (MName count names))) -> flags = eof_flag o None ->
  delivers o (MName count names) (receive_sftp_name flags c (header_of (MName count names))).
Proof.
  intros Hc Hu ->. apply (handle_reply_spec c W (header_of (MName count names)) _ true); [done |]. intros rp.
  cbn [h_buffer h_len h_type message_payload] in *. rewrite <- app_assoc, uint32_at_0 by done. opt.
  rewrite u32_id by message_bounds. replace (zlen (be_encode 4 count ++ names) - 4) with (zlen names) by message_bounds.
  replace 4 with (zlen (be_encode 4 count)) at 2 by message_bounds. rewrite memmove_front. opt.
  eexists. split; [done |]. do 2 (split; [done |]). split; [done |]. by eexists.
Qed.

Lemma deliver_whole o m d body : m = MAttrs d \/ m = MExtendedReply d ->
  body = (fun reply => Some (set_data (d ++ rest) (set_size (zlen d) (set_type (message_type m) reply)), true)) ->
  delivers o m (handle_reply c (header_of m) body).
Proof.
  intros Hm ->. apply (handle_reply_spec c W (header_of m) _ true); [done |]. intros rp. eexists. split; [done |].
  destruct Hm as [-> | ->]; do 2 (split; [done |]); (split; [done |]); by exists rest.
Qed.

Lemma deliver_status_v03 o code text language data : is_u32 code -> o = RecvV03 \/ o = RecvV04 ->
  delivers o (MStatus code text language data)
    (receive_sftp_status_v03 (map_error (error_map o)) c (header_of (MStatus code text language data))).
Proof.
  intros Hc Ho. apply (handle_reply_spec c W (header_of (MStatus code text language data)) _ true); [done |]. intros rp.
  cbn [h_buffer h_len h_type message_payload]. rewrite <- app_assoc, uint32_at_0 by done. opt.
  eexists. split; [done |]. do 2 (split; [done |]). destruct Ho as [-> | ->]; done.
Qed.

(** The message for the log is copied, whether it is empty or not. *)
Lemma status_text code text more : is_u32 (8 + zlen text) -> let b := be_encode 4 code ++ encode_string text ++ more in
  uint32_at b 4 = Some (zlen text) /\
  (if 0 <? zlen text then let? _ := mem_read b 8 (zlen text) in Some (u32 (8 + zlen text)) else Some 8) = Some (8 + zlen text).
Proof.
  intros Hu b. split.
  - unfold b, encode_string. rewrite <- app_assoc. apply uint32_at_app; [by rewrite zlen_be_encode | message_bounds].
  - destruct (Z.ltb_spec 0 (zlen text)); [| f_equal; message_bounds]. rewrite mem_read_Some; [opt; by rewrite u32_id | lia | lia |].
    unfold b. message_bounds.
Qed.

Lemma deliver_status_v05 o code text language data : is_u32 code -> o = RecvV05 \/ o = RecvV06 ->
  is_u32 (zlen (message_payload (MStatus code text language data))) ->
  delivers o (MStatus code text language data)
    (receive_sftp_status_v05 (map_error (error_map o)) c (header_of (MStatus code text language data))).
Proof.
  intros Hc Ho Hu. apply (handle_reply_spec c W (header_of (MStatus code text language data)) _ true); [done |]. intros rp.
  cbn [h_buffer h_len h_type message_payload] in *. set (len := zlen (_ ++ _ ++ _ ++ data)) in *.
  assert (len = 12 + zlen text + zlen language + zlen data) as Hl by (unfold len; message_bounds). clearbody len.
  rewrite <- !app_assoc, uint32_at_0 by done. opt.
  destruct (status_text code text (encode_string language ++ data ++ rest)) as [-> Epos]; [message_bounds |]. opt. rewrite Epos. opt.
  rewrite (u32_id (8 + zlen text + 4)) by message_bounds.
  replace (uint32_at _ (8 + zlen text)) with (Some (zlen language)).
  2: { symmetry. rewrite (app_assoc (be_encode 4 code)). apply uint32_at_app; message_bounds. }
  opt. rewrite (u32_id (8 + zlen text + 4 + zlen language)) by message_bounds. rewrite (u32_id (len - _)) by message_bounds.
  destruct (decide (data = [])) as [-> | Hne].
  - change (zlen (@nil Z)) with 0 in Hl. destruct (Z.ltb_spec (8 + zlen text + 4 + zlen language) len); [message_bounds |].
    eexists (set_response _ (set_type _ rp)). split; [by destruct (8 + zlen text + 4 <? len) |]. by destruct Ho as [-> | ->].
  - assert (0 < zlen data) by (destruct data; [done | rewrite zlen_cons; pose proof (zlen_nonneg data); lia]).
    destruct (Z.ltb_spec (8 + zlen text + 4) len); [| message_bounds]. destruct (Z.ltb_spec (8 + zlen text + 4 + zlen language) len); [| message_bounds].
    replace (len - (8 + zlen text + 4 + zlen language)) with (zlen data) by message_bounds.
    rewrite !(app_assoc _ _ (data ++ rest)). set (pre := be_encode 4 code ++ encode_string text ++ encode_string language).
    replace (8 + zlen text + 4 + zlen language) with (zlen pre) by (unfold pre; message_bounds). rewrite memmove_front. opt.
    eexists. split; [done |]. do 2 (split; [done |]). destruct Ho as [-> | ->]; simpl; (rewrite decide_False by done; split; [done | by eexists]).
Qed.

End Delivery.

Lemma dispatch_delivers c W o m id seq rest :
  wf_client c W -> cl_ops c = Some o -> wf_message m -> is_u32 (zlen (message_payload m)) ->
  answered c W id SFTP_REQUEST_STATUS_FINISH (delivered o m)
    (dispatch_reply c (mk_header (message_type m) id seq (zlen (message_payload m)) (message_payload m ++ rest))).
Proof.
  intros Hwf Ho Hm Hu. unfold dispatch_reply. destruct m as [code text language data | handle | data eof | count names | d | d];
    cbn -[receive_sftp_handle_v03 receive_sftp_attr_v03 receive_sftp_extension_reply_v03 answered message_payload zlen]; rewrite Ho; cbn [lift outcome_bind].
  - destruct o; by first [apply (deliver_status_v03 c W); auto | apply (deliver_status_v05 c W); auto].
  - by apply deliver_handle.
  - destruct o; by first [apply deliver_data_v06 | apply deliver_data_v03].
  - destruct o; by apply deliver_name.
  - eapply (deliver_whole c W id seq rest); [done | by left | done].
  - eapply (deliver_whole c W id seq rest); [done | by right | done].
Qed.

(** C7: whatever the version of the protocol, a well formed reply, followed by
    anything, is delivered: the request with its id leaves the table, its reply
    has the type, the status with the error of the system, the flags, the count
    and the data of the message, it is finished, and no other request is
    touched; when no request has the id, nothing changes. *)
Theorem receive_reply_correct (now : Z) (c : client) (W : gmap nat Z) (o : recv_ops) (m : message) (id : Z) (tail : bytes) (size seq : Z) :
  wf_client c W -> cl_receive c = ReceiveReply -> cl_ops c = Some o -> wf_message m -> is_u32 id -> is_u32 size ->
  9 + zlen (message_payload m) <= size <= 9 + zlen (message_payload m) + zlen tail ->
  answered c W id SFTP_REQUEST_STATUS_FINISH (delivered o m)
    (receive_sftp_data now c (frame (message_type m) id (message_payload m) ++ tail) size seq).
Proof.
  intros Hwf Hr Ho Hm Hid Hu Hsize. unfold receive_sftp_data. rewrite Hr.
  destruct (open_frame now c (message_type m) id (message_payload m) tail size seq Hid Hsize Hu) as (rest & _ & ->).
  apply dispatch_delivers; [done | done | done |]. pose proof (zlen_nonneg (message_payload m)). unfold is_u32 in *. lia.
Qed.

(** ** Replies that are not well formed *)

(** What an invalid message does: the request with the id in its place is
    woken with an error; without such a request, or when the message is too short
    to have an id, the sequence number is signalled, which only the thread whose
    request has that number looks at. *)
Definition rejected (now : Z) (c : client) (W : gmap nat Z) (b : bytes) (size seq : Z) (res : outcome client) : Prop :=
  (9 <= size /\ exists type id, byte_of b 4 = Some type /\ uint32_at b 5 = Some id /\ (exists r, W !! r = Some id) /\
     answered c W id SFTP_REQUEST_STATUS_ERROR (fun rp rp' => rp' = set_type type rp) res) \/
  ((size < 9 \/ exists id, uint32_at b 5 = Some id /\ forall r, W !! r <> Some id) /\
   exists type, type = (if 5 <=? size then default 0 (byte_of b 4) else 0) /\ res = Ret (signal_sequence now c seq type)).

Lemma process_error_spec now c W b size seq :
  wf_client c W -> wf_bytes b -> size <= zlen b -> rejected now c W b size seq (process_receive_sftp_reply_error now c b size seq).
Proof.
  intros Hwf Hb Hsize. unfold process_receive_sftp_reply_error, rejected. destruct (Z.leb_spec 9 size).
  - destruct (byte_of_Some b 4) as [type Et]; [lia |]. destruct (uint32_at_Some b 5 Hb) as (id & Ei & _); [lia | lia |].
    rewrite Et, Ei. cbn [lift outcome_bind]. destruct (invalid_spec c W id type Hwf) as (v & c' & -> & Ha & Hv). cbn [outcome_bind].
    destruct Hv as [[-> Hr] | (-> & -> & Hno)].
    + left. split; [done |]. by exists type, id.
    + right. split; [by right; eauto |]. destruct (Z.leb_spec 5 size); [| lia]. cbn. by exists type.
  - right. split; [by left |]. destruct (Z.leb_spec 5 size); [| by exists 0].
    destruct (byte_of_Some b 4) as [type Et]; [lia |]. rewrite Et. by exists type.
Qed.

(** a message shorter than nine bytes, or shorter than its length field says,
    is read only as far as it reaches and is not taken for a reply: the request
    with its id is woken with an error, or the sequence number is signalled. *)
Theorem receive_malformed (now : Z) (c : client) (W : gmap nat Z) (b : bytes) (size seq len : Z) :
  wf_client c W -> cl_receive c = ReceiveReply -> wf_bytes b -> size <= zlen b ->
  size < 9 \/ uint32_at b 0 = Some len /\ len < 2 ^ 32 - 4 /\ size < 4 + len ->
  rejected now c W b size seq (receive_sftp_data now c b size seq).
Proof.
  intros Hwf Hr Hb Hsize Hbad. unfold receive_sftp_data, _receive_sftp_reply. rewrite Hr.
  destruct (Z.ltb_spec size 9); [by apply process_error_spec |]. destruct Hbad as [? | (E & Hw & Hl)]; [lia |].
  rewrite E. cbn [lift outcome_bind]. rewrite u32_id by (unfold is_u32; lia). destruct (Z.ltb_spec size (4 + len)); [| lia].
  by apply process_error_spec.
Qed.

(** The frames of the right length that are refused: an unknown type, and a
    handle that is too long or longer than the payload. *)
Definition refused (type : Z) (payload : bytes) : Prop :=
  type ∉ [SSH_FXP_STATUS; SSH_FXP_HANDLE; SSH_FXP_DATA; SSH_FXP_NAME; SSH_FXP_ATTRS; SSH_FXP_EXTENDED; SSH_FXP_EXTENDED_REPLY] \/
  type = SSH_FXP_HANDLE /\ exists n d, is_u32 n /\ payload = be_encode 4 n ++ d /\ (SFTP_HANDLE_MAXSIZE < n \/ zlen d < n).

Lemma dispatch_refused c W type id seq payload rest :
  wf_client c W -> is_Some (cl_ops c) -> refused type payload ->
  answered c W id SFTP_REQUEST_STATUS_ERROR (fun rp rp' => rp_type rp' = type /\ rp_data rp' = rp_data rp /\ rp_response rp' = rp_response rp)
    (dispatch_reply c (mk_header type id seq (zlen payload) (payload ++ rest))).
Proof.
  intros Hwf [o Ho] [Ht | (-> & n & d & Hn & -> & Hbad)]; unfold dispatch_reply; cbn [h_type h_id].
  - rewrite !not_elem_of_cons in Ht. destruct Ht as (? & ? & ? & ? & ? & ? & ? & _).
    repeat (rewrite (proj2 (Z.eqb_neq _ _)) by done).
    destruct (invalid_spec c W id type Hwf) as (v & c' & -> & Ha & _). cbn [outcome_bind].
    destruct Ha as [(r & rp & rp' & t' & st & Hin & Hrp & -> & Hrest) | Hno]; [| by right].
    left. by exists r, rp, (set_type type rp), t', st.
  - cbn -[receive_sftp_handle_v03 answered zlen]. rewrite Ho. cbn [lift outcome_bind].
    apply (handle_reply_spec c W (mk_header SSH_FXP_HANDLE id seq (zlen (be_encode 4 n ++ d)) ((be_encode 4 n ++ d) ++ rest)) _ false); [done |].
    intros rp. cbn [h_buffer h_len h_type].
    rewrite <- app_assoc, uint32_at_0 by done. opt. rewrite zlen_app, zlen_be_encode. change SFTP_HANDLE_MAXSIZE with 255 in *.
    destruct (Z.leb_spec n 255); cbn [andb]; [| by eexists]. rewrite u32_id by (unfold is_u32 in *; lia).
    destruct (Z.leb_spec (n + 4) (Z.of_nat 4 + zlen d)); [lia |]. by eexists.
Qed.

(** a reply of an unknown type, or with a handle that is too long or longer
    than the message, wakes the request with its id with an error and delivers
    no data; when there is no such request, nothing changes. *)
Theorem receive_refused (now : Z) (c : client) (W : gmap nat Z) (type id : Z) (payload tail : bytes) (size seq : Z) :
  wf_client c W -> cl_receive c = ReceiveReply -> is_Some (cl_ops c) -> refused type payload -> is_u32 id -> is_u32 size ->
  9 + zlen payload <= size <= 9 + zlen payload + zlen tail ->
  answered c W id SFTP_REQUEST_STATUS_ERROR (fun rp rp' => rp_type rp' = type /\ rp_data rp' = rp_data rp /\ rp_response rp' = rp_response rp)
    (receive_sftp_data now c (frame type id payload ++ tail) size seq).
Proof.
  intros Hwf Hr Ho Hre Hid Hu Hsize. unfold receive_sftp_data. rewrite Hr.
  destruct (open_frame now c type id payload tail size seq Hid Hsize Hu) as (rest & _ & ->). by apply dispatch_refused.
Qed.

(** ** Lengths the code does not check *)

(** the length field has to be at least five, and [4 + len] is computed
    in 32 bits; the code checks neither.  For any smaller value, and for the four
    largest, the test passes, [header.len] is about 2^32, and [memmove] leaves the
    buffer. *)
Theorem receive_length_underflow (now : Z) (c : client) (b : bytes) (size seq len : Z) :
  cl_receive c = ReceiveReply -> wf_bytes b -> 9 <= size <= zlen b -> zlen b < 2 ^ 32 ->
  uint32_at b 0 = Some len -> 0 <= len < 5 \/ 2 ^ 32 - 4 <= len < 2 ^ 32 ->
  receive_sftp_data now c b size seq = Ub.
Proof.
  intros Hr Hb Hsize Hz El Hlen. unfold receive_sftp_data, _receive_sftp_reply. rewrite Hr, El. destruct (Z.ltb_spec size 9); [lia |].
  cbn [lift outcome_bind]. assert (u32 (4 + len) <= 8) as Hw.
  { unfold u32. clear - Hlen. Z.to_euclidean_division_equations. lia. }
  destruct (Z.ltb_spec size (u32 (4 + len))); [lia |].
  destruct (byte_of_Some b 4) as [type ->]; [lia |]. destruct (uint32_at_Some b 5 Hb) as (id & -> & _); [lia | lia |]. cbn [lift outcome_bind].
  assert (2 ^ 32 - 9 <= u32 (u32 (len - 1) - 4)) as Hbig.
  { unfold u32. clear - Hlen. Z.to_euclidean_division_equations. lia. }
  rewrite memmove_out by lia. done.
Qed.

(** the count of a DATA reply is not compared with the length of the message:
    when it exceeds the buffer and a request waits, [memmove] leaves the buffer. *)
Theorem receive_data_overruns (now : Z) (c : client) (W : gmap nat Z) (o : recv_ops) (id n : Z) (d tail : bytes) (size seq : Z) (e : nat) :
  wf_client c W -> W !! e = Some id -> cl_receive c = ReceiveReply -> cl_ops c = Some o -> is_u32 id -> is_u32 n -> is_u32 size ->
  13 + zlen d <= size <= 13 + zlen d + zlen tail -> 13 + zlen d + zlen tail < 4 + n ->
  receive_sftp_data now c (frame SSH_FXP_DATA id (be_encode 4 n ++ d) ++ tail) size seq = Ub.
Proof.
  intros [HW Hrep] Hin Hr Ho Hid Hn Hu Hsize Hover. unfold receive_sftp_data. rewrite Hr.
  destruct (open_frame now c SSH_FXP_DATA id (be_encode 4 n ++ d) tail size seq Hid) as (rest & Hrest & ->);
    [rewrite zlen_app, zlen_be_encode; lia | done |].
  unfold dispatch_reply. cbn -[ops_data zlen]. rewrite Ho. cbn [lift outcome_bind].
  assert (zlen (be_encode 4 n ++ d ++ rest) < 4 + n) as Hlen by (rewrite !zlen_app, zlen_be_encode; lia).
  destruct o; unfold ops_data, receive_sftp_data_v03, receive_sftp_data_v06, handle_reply, answer; cbn [h_id h_buffer h_type h_len];
    (destruct (rq_get_spec (cl_table c) W id HW) as [(r' & t1 & st & -> & Hin' & _) | [_ Hno]]; [| by destruct (Hno e)]);
    cbn [outcome_bind]; destruct (Hrep r' id Hin') as [rp ->]; cbn [lift outcome_bind];
    rewrite <- app_assoc, uint32_at_0 by done; opt; rewrite memmove_out by lia; [done | done | done |].
  by destruct (if u32 (n + 4) <? zlen (be_encode 4 n ++ d) then _ else _).
Qed.

(** ** The first reply *)

(** in the initial state the VERSION reply is delivered to the request with
    the id 2^32 - 1, and the client then expects replies with ids. *)
Theorem receive_version_correct (now : Z) (c : client) (W : gmap nat Z) (d tail : bytes) (size seq : Z) (e : nat) :
  wf_client c W -> W !! e = Some (2 ^ 32 - 1) -> cl_receive c = ReceiveInit -> is_u32 size ->
  5 + zlen d <= size <= 5 + zlen d + zlen tail ->
  answered (set_receive ReceiveReply c) W (2 ^ 32 - 1) SFTP_REQUEST_STATUS_FINISH
    (fun rp rp' => rp_type rp' = SSH_FXP_VERSION /\ rp_response rp' = rp_response rp /\ content rp' d)
    (receive_sftp_data now c (be_encode 4 (1 + zlen d) ++ SSH_FXP_VERSION :: d ++ tail) size seq).
Proof.
  intros Hwf Hin Hr Hu Hsize. unfold receive_sftp_data, _receive_sftp_init. rewrite Hr. pose proof (zlen_nonneg d).
  unfold is_u32 in Hu. destruct (Z.leb_spec 5 size); [| lia]. rewrite uint32_at_0 by (unfold is_u32; lia). cbn [lift outcome_bind].
  rewrite byte_of_app by (by rewrite zlen_be_encode). cbn [lift outcome_bind].
  rewrite (u32_id (1 + zlen d - 1)) by (unfold is_u32; lia). replace (1 + zlen d - 1) with (zlen d) by lia.
  rewrite u32_id by (unfold is_u32; lia). destruct (Z.leb_spec (5 + zlen d) size); [| lia]. rewrite Z.eqb_refl. cbn [andb].
  rewrite cons_middle, app_assoc. replace 5 with (zlen (be_encode 4 (1 + zlen d) ++ [SSH_FXP_VERSION])) at 3 by (by rewrite zlen_app, zlen_be_encode).
  rewrite memmove_front. cbn [lift outcome_bind].
  match goal with |- answered _ _ _ _ ?P (outcome_bind (answer _ _ ?body) _) =>
    destruct (answer_spec (set_receive ReceiveReply c) W (2 ^ 32 - 1) body true P) as (found & c' & -> & Ha & Hf) end;
    [exact Hwf | | cbn [outcome_bind]; destruct found; [exact Ha | by destruct Hf as [_ Hno]; destruct (Hno e)]].
  intros rp. eexists. split; [done |]. do 2 (split; [done |]). split; [done |]. by eexists.
Qed.

End Receive.

(** ** The table of RequestHash as the table of the receiver *)

Section Hash.
Context {S : Type} `{!ListStore S} (hashtable : nat).

Abbreviation table := (@rtable S).
Abbreviation queued := (row_member hashtable SFTP_SENDHASH_TABLE_SIZE_DEFAULT).

Definition hash_waits (t : table) (W : gmap nat Z) : Prop :=
  exists A, wf_requests hashtable t A /\ forall r id, W !! r = Some id <-> queued A r /\ exists q, rt_reqs t !! r = Some q /\ rq_id q = id.

Definition hash_state (t : table) (r : nat) : option Z := rq_status <$> rt_reqs t !! r.

Lemma hash_upd (t : table) W r f q :
  hash_waits t W -> (forall q, rq_id (f q) = rq_id q) -> rt_reqs t !! r = Some q ->
  exists t', upd_req t r f = Some t' /\ hash_waits t' W /\ hash_state t' r = Some (rq_status (f q)) /\
    forall e, e <> r -> hash_state t' e = hash_state t e.
Proof.
  intros (A & Hwf & HW) Hid Hq. destruct (upd_req t r f) as [t'|] eqn:E; [| unfold upd_req in E; rewrite Hq in E; done].
  exists t'. split; [done |]. split; [| unfold upd_req in E; rewrite Hq in E; injection E as <-; unfold hash_state; simpl; split].
  - exists A. split; [by eapply (wf_upd hashtable t A r f) |]. unfold upd_req in E. rewrite Hq in E. injection E as <-. simpl.
    intros e id. rewrite HW, lookup_insert. case_decide; [| done]. subst e. rewrite Hq. pose proof (Hid q). naive_solver congruence.
  - by rewrite lookup_insert_eq.
  - intros e He. by rewrite lookup_insert_ne.
Qed.

#[refine] Instance hash_request_table : RequestTable table := {|
  rq_get t id := get_sftp_request hashtable (Datatypes.S (size (rt_reqs t))) t id;
  rq_signal := signal_sftp_received_id;
  rq_signal_error := signal_sftp_received_id_error;
  rq_state := hash_state;
  rq_waits := hash_waits
|}.
Proof.
  - intros t W id (A & Hwf & HW).
    destruct (get_request_sized hashtable (Datatypes.S (size (rt_reqs t))) t A id Hwf) as [(r & q & t' & A' & -> & Hwf' & Hq & Hid & Hqd & Hrq & Hm) | [-> Hno]];
      [lia | |].
    + left. exists r, t', (rq_status (or_status SFTP_REQUEST_STATUS_RESPONSE (clear_status SFTP_REQUEST_STATUS_WAITING q))).
      split; [done |]. split; [apply HW; eauto |]. unfold hash_state. rewrite Hrq, lookup_insert_eq. split.
      * exists A'. split; [done |]. intros e id'. rewrite Hm, lookup_delete, Hrq. case_decide as Hd; [naive_solver |].
        rewrite HW, lookup_insert_ne by done. naive_solver.
      * split; [done |]. split; [by apply has_lor_same |]. intros f Hf. by rewrite lookup_insert_ne.
    + right. split; [done |]. intros r (Hqd & q & Hq & Hid)%HW. by destruct (Hno r q).
  - intros t W r st HW Hst Hresp. unfold hash_state in Hst. destruct (rt_reqs t !! r) as [q|] eqn:Hq; [| done]. injection Hst as <-.
    unfold signal_sftp_received_id. rewrite Hq. opt. rewrite Hresp.
    destruct (hash_upd t W r (fun q => or_status SFTP_REQUEST_STATUS_FINISH (set_status (rq_status q - SFTP_REQUEST_STATUS_RESPONSE) q)) q HW)
      as (t' & -> & HW' & Hst' & Hoth); [done | done |]. eexists _, _. split; [done |]. do 2 (split; [done |]). split; [by apply has_lor_same | done].
  - intros t W r st HW Hst. unfold hash_state in Hst. destruct (rt_reqs t !! r) as [q|] eqn:Hq; [| done]. injection Hst as <-.
    destruct (hash_upd t W r (or_status SFTP_REQUEST_STATUS_ERROR) q HW) as (t' & E & HW' & Hst' & Hoth); [done | done |].
    eexists _, _. split; [exact E |]. do 2 (split; [done |]). split; [by apply has_lor_same | done].
Defined.

(** the receiver and the table of requests together: a well formed reply for
    the only queued request with its id is delivered to that request, and the
    next look of the thread that waits for it ends the wait with success. *)
Theorem reply_ends_wait (now : Z) (c : client (T := table)) (W : gmap nat Z) (o : recv_ops) (m : message) (id : Z) (tail : bytes) (size seq : Z) (r : nat) :
  wf_client c W -> W !! r = Some id -> (forall f, W !! f = Some id -> f = r) ->
  cl_receive c = ReceiveReply -> cl_ops c = Some o -> wf_message m -> is_u32 id -> is_u32 size ->
  9 + zlen (message_payload m) <= size <= 9 + zlen (message_payload m) + zlen tail ->
  exists c' rp rp', receive_sftp_data now c (frame (message_type m) id (message_payload m) ++ tail) size seq = Ret c' /\
    cl_replies c !! r = Some rp /\ cl_replies c' !! r = Some rp' /\ delivered o m rp rp' /\ rq_waits (cl_table c') (delete r W) /\
    forall e, wait_check e (cl_table c') r = Some (Return 1, cl_table c').
Proof.
  intros Hwf Hin Huniq Hr Ho Hm Hid Hu Hsize. unfold receive_sftp_data. rewrite Hr.
  destruct (open_frame now c (message_type m) id (message_payload m) tail size seq Hid Hsize Hu) as (rest & _ & ->).
  pose proof (zlen_nonneg (message_payload m)).
  destruct (dispatch_delivers c W o m id seq rest Hwf Ho Hm) as [(f & rp & rp' & t' & st & Hf & Hrp & Hd & -> & HW' & Hst & Hflag & _) | [Hno _]];
    [unfold is_u32 in *; lia | | by destruct (Hno r)].
  rewrite (Huniq f Hf) in *. eexists _, rp, rp'. split; [done |]. split; [done |]. simpl. split; [by rewrite lookup_insert_eq |].
  do 2 (split; [done |]). intros e. unfold wait_check. simpl in Hst. unfold hash_state in Hst.
  destruct (rt_reqs t' !! r) as [q|]; [| done]. injection Hst as <-. opt. by rewrite Hflag.
Qed.

End Hash.
(** ** Concrete runs *)

(** The simplest table: the ids that wait and the status words. *)
Record plain_table := mk_plain { pt_waits : gmap nat Z; pt_state : gmap nat Z }.

Definition plain_set (t : plain_table) (W : gmap nat Z) (r : nat) (st : Z) : plain_table := mk_plain W (<[r := st]> (pt_state t)).

#[refine] Instance plain_request_table : RequestTable plain_table := {|
  rq_get t id :=
    match list_find (fun p => p.2 = id) (map_to_list (pt_waits t)) with
    | Some (_, (r, _)) => Ret (Some r, plain_set t (delete r (pt_waits t)) r SFTP_REQUEST_STATUS_RESPONSE)
    | None => Ret (None, t)
    end;
  rq_signal t r := let? _ := pt_state t !! r in Some (0, plain_set t (pt_waits t) r SFTP_REQUEST_STATUS_FINISH);
  rq_signal_error t r := let? _ := pt_state t !! r in Some (plain_set t (pt_waits t) r SFTP_REQUEST_STATUS_ERROR);
  rq_state t r := pt_state t !! r;
  rq_waits t W := pt_waits t = W
|}.
Proof.
  - intros t W id <-. destruct (list_find _ _) as [[i [r id']]|] eqn:E.
    + apply list_find_Some in E as (Hl & Hid & _). simpl in Hid. subst id'. apply list_elem_of_lookup_2, elem_of_map_to_list in Hl. left.
      eexists r, _, _. split; [done |]. do 2 (split; [done |]). simpl. rewrite lookup_insert_eq. do 2 (split; [done |]).
      intros f Hf. by rewrite lookup_insert_ne.
    + right. split; [done |]. intros r Hr%elem_of_map_to_list. apply list_find_None in E. rewrite Forall_forall in E. by apply (E _ Hr).
  - intros t W r st <- Hst _. rewrite Hst. opt. eexists _, _. split; [done |]. split; [done |]. simpl. rewrite lookup_insert_eq.
    do 2 (split; [done |]). intros f Hf. by rewrite lookup_insert_ne.
  - intros t W r st <- Hst. rewrite Hst. opt. eexists _, _. split; [done |]. split; [done |]. simpl. rewrite lookup_insert_eq.
    do 2 (split; [done |]). intros f Hf. by rewrite lookup_insert_ne.
Defined.

Definition empty_reply : sftp_reply := mk_reply 0 (Status 0 0) None 0.

(** One request with the id 70 waits, and the one for the first reply. *)
Definition ids : gmap nat Z := {[0%nat := 70; 1%nat := 2 ^ 32 - 1]}.
Definition example_client (f : receive_fn) (o : recv_ops) : client :=
  mk_client (mk_plain ids {[0%nat := 3; 1%nat := 3]}) {[0%nat := empty_reply; 1%nat := empty_reply]} 0 0 0 false f (Some o) 3.

Lemma example_client_wf f o : wf_client (example_client f o) ids.
Proof.
  split; [done |]. intros r id Hr. unfold ids in Hr.
  apply lookup_insert_Some in Hr as [[<- _] | [_ [<- _]%lookup_singleton_Some]]; by eexists.
Qed.

(** The reply of request [r] after a run. *)
Definition reply_after (res : outcome (client (T := plain_table))) (r : nat) : option (sftp_reply * option Z) :=
  match res with Ret c => let? rp := cl_replies c !! r in Some (rp, pt_state (cl_table c) !! r) | _ => None end.

Example receive_handle_run :
  reply_after (receive_sftp_data 0 (example_client ReceiveReply RecvV03)
                 ([0; 0; 0; 12; 102; 0; 0; 0; 70; 0; 0; 0; 3; 7; 8; 9]) 16 1) 0 =
  Some (mk_reply 102 (Status 0 0) (Some [7; 8; 9; 3; 7; 8; 9; 0; 0; 0; 0; 0; 0; 0; 0; 0]) 3, Some SFTP_REQUEST_STATUS_FINISH).
Proof. vm_compute. reflexivity. Qed.

Lemma receive_reply_correct_witness :
  answered (example_client ReceiveReply RecvV06) ids 70 SFTP_REQUEST_STATUS_FINISH (delivered RecvV06 (MData [7; 8; 9] (Some 1)))
    (receive_sftp_data 0 (example_client ReceiveReply RecvV06) (frame SSH_FXP_DATA 70 (message_payload (MData [7; 8; 9] (Some 1))) ++ [5]) 17 1).
Proof.
  apply (receive_reply_correct 0 (example_client ReceiveReply RecvV06) ids RecvV06 (MData [7; 8; 9] (Some 1)) 70 [5] 17 1 (example_client_wf _ _));
    vm_compute; repeat (done || split).
Defined.

Lemma receive_malformed_witness :
  rejected 0 (example_client ReceiveReply RecvV03) ids [0; 0; 0; 99; 102; 0; 0; 0; 70] 9 1
    (receive_sftp_data 0 (example_client ReceiveReply RecvV03) [0; 0; 0; 99; 102; 0; 0; 0; 70] 9 1).
Proof.
  apply (receive_malformed 0 (example_client ReceiveReply RecvV03) ids [0; 0; 0; 99; 102; 0; 0; 0; 70] 9 1 99 (example_client_wf _ _));
    [done | by repeat constructor | done |]. right. by vm_compute.
Defined.

Lemma receive_refused_witness :
  answered (example_client ReceiveReply RecvV03) ids 70 SFTP_REQUEST_STATUS_ERROR
    (fun rp rp' => rp_type rp' = SSH_FXP_HANDLE /\ rp_data rp' = rp_data rp /\ rp_response rp' = rp_response rp)
    (receive_sftp_data 0 (example_client ReceiveReply RecvV03) (frame SSH_FXP_HANDLE 70 (be_encode 4 9 ++ [1; 2]) ++ []) 15 1).
Proof.
  apply (receive_refused 0 (example_client ReceiveReply RecvV03) ids SSH_FXP_HANDLE 70 (be_encode 4 9 ++ [1; 2]) [] 15 1 (example_client_wf _ _));
    [done | by eexists | | done | done | done]. right. split; [done |]. exists 9, [1; 2]. repeat (split; [done |]). by right.
Defined.

Lemma receive_length_underflow_witness :
  receive_sftp_data 0 (example_client ReceiveReply RecvV03) [0; 0; 0; 4; 102; 0; 0; 0; 70] 9 1 = Ub.
Proof.
  apply (receive_length_underflow 0 (example_client ReceiveReply RecvV03) [0; 0; 0; 4; 102; 0; 0; 0; 70] 9 1 4);
    [done | by repeat constructor | done | done | done | by left].
Defined.

Lemma receive_data_overruns_witness :
  receive_sftp_data 0 (example_client ReceiveReply RecvV06) (frame SSH_FXP_DATA 70 (be_encode 4 64 ++ [1; 2]) ++ []) 15 1 = Ub.
Proof. by apply (receive_data_overruns 0 (example_client ReceiveReply RecvV06) ids RecvV06 70 64 [1; 2] [] 15 1 0 (example_client_wf _ _)). Defined.

Lemma receive_version_correct_witness :
  answered (set_receive ReceiveReply (example_client ReceiveInit RecvV03)) ids (2 ^ 32 - 1) SFTP_REQUEST_STATUS_FINISH
    (fun rp rp' => rp_type rp' = SSH_FXP_VERSION /\ rp_response rp' = rp_response rp /\ content rp' [0; 0; 0; 3])
    (receive_sftp_data 0 (example_client ReceiveInit RecvV03) (be_encode 4 5 ++ SSH_FXP_VERSION :: [0; 0; 0; 3] ++ []) 9 0).
Proof. by apply (receive_version_correct 0 (example_client ReceiveInit RecvV03) ids [0; 0; 0; 3] [] 9 0 1 (example_client_wf _ _)). Defined.

#[local] Opaque queued_requests.

Definition hash_client : client (T := @rtable _) :=
  mk_client queued_requests {[0%nat := empty_reply]} 0 0 0 false ReceiveReply (Some RecvV03) 3.

Lemma hash_client_wf : @wf_client _ (hash_request_table 0) hash_client {[0%nat := 70]}.
Proof.
  destruct queued_requests_wf as (A & Hwf & _ & Hm & Hrq). split.
  - exists A. split; [exact Hwf |]. intros r id. cbn [cl_table hash_client]. rewrite Hm, Hrq. clear Hwf Hm Hrq A.
    rewrite lookup_singleton_Some. setoid_rewrite lookup_singleton_Some. naive_solver.
  - intros r id [<- _]%lookup_singleton_Some. done.
Qed.

Lemma reply_ends_wait_witness :
  exists c' rp rp', @receive_sftp_data _ (hash_request_table 0) 0 hash_client (frame SSH_FXP_STATUS 70 (message_payload (MStatus 2 [65] [] [])) ++ []) 22 1 = Ret c' /\
    cl_replies hash_client !! 0%nat = Some rp /\ cl_replies c' !! 0%nat = Some rp' /\ delivered RecvV03 (MStatus 2 [65] [] []) rp rp' /\
    hash_waits 0 (cl_table c') (delete 0%nat {[0%nat := 70]}) /\ forall e, wait_check e (cl_table c') 0 = Some (Return 1, cl_table c').
Proof.
  apply (reply_ends_wait 0 0 hash_client {[0%nat := 70]} RecvV03 (MStatus 2 [65] [] []) 70 [] 22 1 0 hash_client_wf);
    [done | by intros f [<- _]%lookup_singleton_Some | done | done | done | done | done | done].
Defined.

End SftpRecv.
