(* ===== verification/SftpSend.v ===== *)
(** * sftp/send: the requests of the sftp client

    One function per request and version of the protocol (send-v03.c to
    send-v06.c), the tables of functions per version, the flags of an open, of a
    rename and of a lock, and the counter that gives a request its id.  A function
    fills an array on the stack and hands it to the send function of the request;
    the model returns the bytes that are handed over. *)

From stdpp Require Import base list list_numbers numbers option.
From S2P Require Import Prelude SshUint SshString SftpWire.
Import SshUint SshString SftpWire.

Module SftpSend.

Definition O_WRONLY := 1.
Definition O_RDWR := 2.
Definition O_CREAT := 64.
Definition O_EXCL := 128.
Definition O_TRUNC := 512.
Definition O_APPEND := 1024.

Definition SSH_FXF_READ := 1.
Definition SSH_FXF_WRITE := 2.
Definition SSH_FXF_APPEND := 4.
Definition SSH_FXF_CREAT := 8.
Definition SSH_FXF_TRUNC := 16.
Definition SSH_FXF_EXCL := 32.

Definition SSH_FXF_ACCESS_DISPOSITION := 7.
Definition SSH_FXF_CREATE_NEW := 0.
Definition SSH_FXF_CREATE_TRUNCATE := 1.
Definition SSH_FXF_OPEN_EXISTING := 2.
Definition SSH_FXF_OPEN_OR_CREATE := 3.
Definition SSH_FXF_TRUNCATE_EXISTING := 4.
Definition SSH_FXF_APPEND_DATA := 8.
Definition SSH_FXF_APPEND_DATA_ATOMIC := 16.

Definition ACE4_READ_DATA := 1.
Definition ACE4_WRITE_DATA := 2.
Definition ACE4_APPEND_DATA := 4.
Definition ACE4_READ_ATTRIBUTES := 128.
Definition ACE4_WRITE_ATTRIBUTES := 256.

Definition SSH_FXF_RENAME_OVERWRITE := 1.
Definition SSH_FXF_RENAME_NATIVE := 4.
Definition RENAME_NOREPLACE := 1.

Definition SSH_FXF_BLOCK_READ := 64.
Definition SSH_FXF_BLOCK_WRITE := 128.
Definition SSH_FXF_BLOCK_DELETE := 256.
Definition SSH_FXF_BLOCK_ADVISORY := 512.
Definition F_RDLCK := 0.
Definition F_WRLCK := 1.
Definition LOCK_SH := 1.
Definition LOCK_EX := 2.

Definition SSH_FILEXFER_TYPE_REGULAR := 1.
Definition SSH_FXP_REALPATH_STAT_ALWAYS := 3.
Definition ENOSYS := 38.

(** ** Flags *)

Record sftp_openmode := mk_openmode { om_access : Z; om_flags : Z }.

Definition or_access m o := mk_openmode (Z.lor (om_access o) m) (om_flags o).
Definition or_flags m o := mk_openmode (om_access o) (Z.lor (om_flags o) m).

Definition get_sftp_openmode_v03 (posix_flags : Z) (openmode : sftp_openmode) : sftp_openmode :=
  let openmode :=
    if has posix_flags O_WRONLY then or_flags SSH_FXF_WRITE openmode
    else if has posix_flags O_RDWR then or_flags (Z.lor SSH_FXF_WRITE SSH_FXF_READ) openmode
    else or_flags SSH_FXF_READ openmode in
  let openmode := if has posix_flags O_APPEND then or_flags SSH_FXF_APPEND openmode else openmode in
  if has posix_flags O_CREAT then
    let openmode := or_flags SSH_FXF_CREAT openmode in
    if has posix_flags O_EXCL then or_flags SSH_FXF_EXCL openmode
    else if has posix_flags O_TRUNC then or_flags SSH_FXF_TRUNC openmode else openmode
  else openmode.

Definition get_sftp_openmode (posix_flags : Z) (openmode : sftp_openmode) : sftp_openmode :=
  let openmode :=
    if has posix_flags O_RDWR then
      or_access (Z.lor (Z.lor (Z.lor ACE4_READ_DATA ACE4_READ_ATTRIBUTES) ACE4_WRITE_DATA) ACE4_WRITE_ATTRIBUTES) openmode
    else if has posix_flags O_WRONLY then or_access (Z.lor ACE4_WRITE_DATA ACE4_WRITE_ATTRIBUTES) openmode
    else or_access (Z.lor ACE4_READ_DATA ACE4_READ_ATTRIBUTES) openmode in
  let openmode :=
    if has posix_flags O_APPEND then
      or_flags SSH_FXF_APPEND_DATA_ATOMIC
        (or_access (Z.lor (Z.lor ACE4_WRITE_DATA ACE4_WRITE_ATTRIBUTES) ACE4_APPEND_DATA) openmode)
    else openmode in
  if has posix_flags O_CREAT && has posix_flags O_TRUNC then or_flags SSH_FXF_CREATE_TRUNCATE openmode
  else if has posix_flags O_CREAT then
    or_flags (if has posix_flags O_EXCL then SSH_FXF_CREATE_NEW else SSH_FXF_OPEN_OR_CREATE) openmode
  else if has posix_flags O_TRUNC then or_flags SSH_FXF_TRUNCATE_EXISTING openmode
  else or_flags SSH_FXF_OPEN_EXISTING openmode.

Definition get_sftp_lockflags_posix (type : Z) : Z :=
  let flags := SSH_FXF_BLOCK_ADVISORY in
  if type =? F_RDLCK then Z.lor flags SSH_FXF_BLOCK_READ
  else if type =? F_WRLCK then Z.lor flags SSH_FXF_BLOCK_WRITE else flags.

Definition get_sftp_lockflags_flock (type : Z) : Z :=
  let flags := SSH_FXF_BLOCK_ADVISORY in
  if has type LOCK_SH then Z.lor flags (Z.lor SSH_FXF_BLOCK_WRITE SSH_FXF_BLOCK_DELETE)
  else if has type LOCK_EX then Z.lor flags SSH_FXF_BLOCK_READ else flags.

(** ** The parameters of a request: the union [call] of [struct sftp_request_s] *)

(** A pointer with its length. *)
Record buf := mk_buf { b_ptr : bytes; b_len : Z }.

Inductive call :=
| CInit (version : Z)
| COpen (path : buf) (posix_flags : Z) (attr : buf)
| COpendir (path : buf)
| CRead (handle : buf) (offset size : Z)
| CWrite (handle : buf) (offset : Z) (data : buf)
| CReaddir (handle : buf)
| CClose (handle : buf)
| CRemove (path : buf)
| CRename (path target : buf) (posix_flags : Z)
| CMkdir (path attr : buf)
| CRmdir (path : buf)
| CStat (path : buf)
| CLstat (path : buf)
| CFstat (handle : buf)
| CSetstat (path attr : buf)
| CFsetstat (handle attr : buf)
| CReadlink (path : buf)
| CSymlink (path target : buf)
| CBlock (handle : buf) (offset size type : Z)
| CUnblock (handle : buf) (offset size : Z)
| CRealpath (path : buf)
| CExtension (name data : buf)
| CCustom (nr : Z) (data : buf).

Section Send.
Context (fill : Z).   (* what the stack holds *)

Definition _write_sftp_init (version : Z) (w : writer) : option writer :=
  let? w := put_uint32 5 w in let? w := put_byte SSH_FXP_INIT w in put_uint32 version w.

Definition send_sftp_init_v03 (version : Z) : option bytes := sent fill 9 (_write_sftp_init version).

(** The requests with one path or handle. *)
Definition send_string (type id : Z) (s : buf) : option bytes :=
  sent fill (u32 (13 + b_len s)) (fun w =>
    let? w := put_uint32 (u32 (9 + b_len s)) w in
    let? w := put_byte type w in
    let? w := put_uint32 id w in
    let? w := put_uint32 (b_len s) w in
    put_bytes (b_ptr s) (b_len s) w).

Definition send_sftp_opendir_v03 := send_string SSH_FXP_OPENDIR.
Definition send_sftp_readdir_v03 := send_string SSH_FXP_READDIR.
Definition send_sftp_close_v03 := send_string SSH_FXP_CLOSE.
Definition send_sftp_remove_v03 := send_string SSH_FXP_REMOVE.
Definition send_sftp_rmdir_v03 := send_string SSH_FXP_RMDIR.
Definition send_sftp_stat_v03 := send_string SSH_FXP_STAT.
Definition send_sftp_lstat_v03 := send_string SSH_FXP_LSTAT.
Definition send_sftp_fstat_v03 := send_string SSH_FXP_FSTAT.
Definition send_sftp_readlink_v03 := send_string SSH_FXP_READLINK.
Definition send_sftp_realpath_v03 := send_string SSH_FXP_REALPATH.

(** The requests with a path or handle and a block of attributes or data. *)
Definition send_string_block (type id : Z) (s block : buf) : option bytes :=
  sent fill (u32 (13 + b_len s + b_len block)) (fun w =>
    let? w := put_uint32 (u32 (9 + b_len s + b_len block)) w in
    let? w := put_byte type w in
    let? w := put_uint32 id w in
    let? w := put_uint32 (b_len s) w in
    let? w := put_bytes (b_ptr s) (b_len s) w in
    put_bytes (b_ptr block) (b_len block) w).

Definition send_sftp_mkdir_v03 := send_string_block SSH_FXP_MKDIR.
Definition send_sftp_setstat_v03 := send_string_block SSH_FXP_SETSTAT.
Definition send_sftp_fsetstat_v03 := send_string_block SSH_FXP_FSETSTAT.
Definition send_sftp_extension_v03 := send_string_block SSH_FXP_EXTENDED.

(** The requests with two paths. *)
Definition send_two_strings (type id : Z) (s target : buf) : option bytes :=
  sent fill (u32 (17 + b_len s + b_len target)) (fun w =>
    let? w := put_uint32 (u32 (13 + b_len s + b_len target)) w in
    let? w := put_byte type w in
    let? w := put_uint32 id w in
    let? w := put_uint32 (b_len s) w in
    let? w := put_bytes (b_ptr s) (b_len s) w in
    let? w := put_uint32 (b_len target) w in
    put_bytes (b_ptr target) (b_len target) w).

Definition send_sftp_rename_v03 := send_two_strings SSH_FXP_RENAME.
Definition send_sftp_symlink_v03 := send_two_strings SSH_FXP_SYMLINK.

(** The end of an open: the attributes, or none and the type of a file. *)
Definition put_open_attr (attr : buf) (w : writer) : option writer :=
  if 0 <? b_len attr then put_bytes (b_ptr attr) (b_len attr) w
  else let? w := put_uint32 0 w in put_byte SSH_FILEXFER_TYPE_REGULAR w.

Definition send_sftp_open_v03 (id : Z) (path : buf) (posix_flags : Z) (attr : buf) : option bytes :=
  let openmode := get_sftp_openmode_v03 posix_flags (mk_openmode 0 0) in
  sent_patched fill (u32 (17 + b_len path + b_len attr + 5)) 0 (fun w =>
    let? w := put_uint32 0 w in
    let? w := put_byte SSH_FXP_OPEN w in
    let? w := put_uint32 id w in
    let? w := put_uint32 (b_len path) w in
    let? w := put_bytes (b_ptr path) (b_len path) w in
    let? w := put_uint32 (om_flags openmode) w in
    put_open_attr attr w).

Definition send_sftp_open_v05 (id : Z) (path : buf) (posix_flags : Z) (attr : buf) : option bytes :=
  let openmode := get_sftp_openmode posix_flags (mk_openmode 0 0) in
  sent_patched fill (u32 (21 + b_len path + b_len attr + 5)) 0 (fun w =>
    let? w := put_uint32 0 w in
    let? w := put_byte SSH_FXP_OPEN w in
    let? w := put_uint32 id w in
    let? w := put_uint32 (b_len path) w in
    let? w := put_bytes (b_ptr path) (b_len path) w in
    let? w := put_uint32 (om_access openmode) w in
    let? w := put_uint32 (om_flags openmode) w in
    put_open_attr attr w).

(** The size is a 64 bit number, of which 32 bits are sent. *)
Definition send_sftp_read_v03 (id : Z) (handle : buf) (offset size : Z) : option bytes :=
  sent fill (u32 (25 + b_len handle)) (fun w =>
    let? w := put_uint32 (u32 (21 + b_len handle)) w in
    let? w := put_byte SSH_FXP_READ w in
    let? w := put_uint32 id w in
    let? w := put_uint32 (b_len handle) w in
    let? w := put_bytes (b_ptr handle) (b_len handle) w in
    let? w := put_uint64 offset w in
    put_uint32 (u32 size) w).

Definition send_sftp_write_v03 (id : Z) (handle : buf) (offset : Z) (data : buf) : option bytes :=
  sent fill (u64 (u32 (25 + b_len handle) + b_len data)) (fun w =>
    let? w := put_uint32 (u32 (u64 (u32 (21 + b_len handle) + b_len data))) w in
    let? w := put_byte SSH_FXP_WRITE w in
    let? w := put_uint32 id w in
    let? w := put_uint32 (b_len handle) w in
    let? w := put_bytes (b_ptr handle) (b_len handle) w in
    let? w := put_uint64 offset w in
    let? w := put_uint32 (u32 (b_len data)) w in
    put_bytes (b_ptr data) (b_len data) w).

Definition send_sftp_custom_v03 (id nr : Z) (data : buf) : option bytes :=
  sent fill (u32 (9 + b_len data)) (fun w =>
    let? w := put_uint32 (u32 (9 + b_len data)) w in
    let? w := put_byte nr w in
    let? w := put_uint32 id w in
    put_bytes (b_ptr data) (b_len data) w).

(** From version 4 on a request for attributes says which. *)
Definition send_string_flags (type id : Z) (s : buf) (flags : Z) : option bytes :=
  sent fill (u32 (17 + b_len s)) (fun w =>
    let? w := put_uint32 (u32 (13 + b_len s)) w in
    let? w := put_byte type w in
    let? w := put_uint32 id w in
    let? w := put_uint32 (b_len s) w in
    let? w := put_bytes (b_ptr s) (b_len s) w in
    put_uint32 flags w).

Definition send_sftp_stat_v04_generic := send_string_flags SSH_FXP_STAT.
Definition send_sftp_lstat_v04_generic := send_string_flags SSH_FXP_LSTAT.
Definition send_sftp_fstat_v04_generic := send_string_flags SSH_FXP_FSTAT.

Definition send_sftp_rename_v05 (id : Z) (path target : buf) (posix_flags : Z) : option bytes :=
  let flags := if has posix_flags RENAME_NOREPLACE then SSH_FXF_RENAME_NATIVE
               else Z.lor SSH_FXF_RENAME_NATIVE SSH_FXF_RENAME_OVERWRITE in
  sent fill (u32 (21 + b_len path + b_len target)) (fun w =>
    let? w := put_uint32 (u32 (17 + b_len path + b_len target)) w in
    let? w := put_byte SSH_FXP_RENAME w in
    let? w := put_uint32 id w in
    let? w := put_uint32 (b_len path) w in
    let? w := put_bytes (b_ptr path) (b_len path) w in
    let? w := put_uint32 (b_len target) w in
    let? w := put_bytes (b_ptr target) (b_len target) w in
    put_uint32 flags w).

Definition send_sftp_symlink_v06 (id : Z) (path target : buf) : option bytes :=
  sent fill (u32 (18 + b_len path + b_len target)) (fun w =>
    let? w := put_uint32 (u32 (14 + b_len path + b_len target)) w in
    let? w := put_byte SSH_FXP_LINK w in
    let? w := put_uint32 id w in
    let? w := put_uint32 (b_len path) w in
    let? w := put_bytes (b_ptr path) (b_len path) w in
    let? w := put_uint32 (b_len target) w in
    let? w := put_bytes (b_ptr target) (b_len target) w in
    put_byte 1 w).

Definition send_sftp_block_v06 (id : Z) (handle : buf) (offset size type : Z) : option bytes :=
  let mask := get_sftp_lockflags_flock type in
  sent fill (u32 (33 + b_len handle)) (fun w =>
    let? w := put_uint32 (u32 (29 + b_len handle)) w in
    let? w := put_byte SSH_FXP_BLOCK w in
    let? w := put_uint32 id w in
    let? w := put_uint32 (b_len handle) w in
    let? w := put_bytes (b_ptr handle) (b_len handle) w in
    let? w := put_uint64 offset w in
    let? w := put_uint64 size w in
    put_uint32 mask w).

Definition send_sftp_unblock_v06 (id : Z) (handle : buf) (offset size : Z) : option bytes :=
  sent fill (u32 (29 + b_len handle)) (fun w =>
    let? w := put_uint32 (u32 (25 + b_len handle)) w in
    let? w := put_byte SSH_FXP_UNBLOCK w in
    let? w := put_uint32 id w in
    let? w := put_uint32 (b_len handle) w in
    let? w := put_bytes (b_ptr handle) (b_len handle) w in
    let? w := put_uint64 offset w in
    put_uint64 size w).

Definition send_sftp_realpath_v06 (id : Z) (path : buf) : option bytes :=
  sent fill (u32 (14 + b_len path)) (fun w =>
    let? w := put_uint32 (u32 (10 + b_len path)) w in
    let? w := put_byte SSH_FXP_REALPATH w in
    let? w := put_uint32 id w in
    let? w := put_uint32 (b_len path) w in
    let? w := put_bytes (b_ptr path) (b_len path) w in
    put_byte SSH_FXP_REALPATH_STAT_ALWAYS w).

(** ** The tables of functions *)

Inductive send_ops := SendV03 | SendV04 | SendV05 | SendV06.

(** The result of a send function: the bytes handed to [send], or the error of
    the request, with which it returns -1. *)
Inductive result := Sent (data : bytes) | Refused (error : Z).

Definition sends (m : option bytes) : option result := let? d := m in Some (Sent d).

(** [valid]: the mask and flags of the attributes the client asks for. *)
Definition send_call (ops : send_ops) (valid id : Z) (c : call) : option result :=
  match c with
  | CInit version => sends (send_sftp_init_v03 version)
  | COpen path flags attr =>
      sends (match ops with SendV03 | SendV04 => send_sftp_open_v03 id path flags attr | _ => send_sftp_open_v05 id path flags attr end)
  | COpendir path => sends (send_sftp_opendir_v03 id path)
  | CRead handle offset size => sends (send_sftp_read_v03 id handle offset size)
  | CWrite handle offset data => sends (send_sftp_write_v03 id handle offset data)
  | CReaddir handle => sends (send_sftp_readdir_v03 id handle)
  | CClose handle => sends (send_sftp_close_v03 id handle)
  | CRemove path => sends (send_sftp_remove_v03 id path)
  | CRename path target flags =>
      sends (match ops with SendV03 | SendV04 => send_sftp_rename_v03 id path target | _ => send_sftp_rename_v05 id path target flags end)
  | CMkdir path attr => sends (send_sftp_mkdir_v03 id path attr)
  | CRmdir path => sends (send_sftp_rmdir_v03 id path)
  | CStat path => sends (match ops with SendV03 => send_sftp_stat_v03 id path | _ => send_sftp_stat_v04_generic id path valid end)
  | CLstat path => sends (match ops with SendV03 => send_sftp_lstat_v03 id path | _ => send_sftp_lstat_v04_generic id path valid end)
  | CFstat handle => sends (match ops with SendV03 => send_sftp_fstat_v03 id handle | _ => send_sftp_fstat_v04_generic id handle valid end)
  | CSetstat path attr => sends (send_sftp_setstat_v03 id path attr)
  | CFsetstat handle attr => sends (send_sftp_fsetstat_v03 id handle attr)
  | CReadlink path => sends (send_sftp_readlink_v03 id path)
  | CSymlink path target => sends (match ops with SendV06 => send_sftp_symlink_v06 id path target | _ => send_sftp_symlink_v03 id path target end)
  | CBlock handle offset size type =>
      match ops with SendV06 => sends (send_sftp_block_v06 id handle offset size type) | _ => Some (Refused ENOSYS) end
  | CUnblock handle offset size =>
      match ops with SendV06 => sends (send_sftp_unblock_v06 id handle offset size) | _ => Some (Refused ENOSYS) end
  | CRealpath path => sends (match ops with SendV06 => send_sftp_realpath_v06 id path | _ => send_sftp_realpath_v03 id path end)
  | CExtension name data => sends (send_sftp_extension_v03 id name data)
  | CCustom nr data => sends (send_sftp_custom_v03 id nr data)
  end.

(** [set_sftp_send_version]: [None] leaves the table as it was. *)
Definition set_sftp_send_version (version : Z) (ops : option send_ops) : option send_ops :=
  if version <=? 3 then Some SendV03
  else if version =? 4 then Some SendV04
  else if version =? 5 then Some SendV05
  else if version =? 6 then Some SendV06
  else ops.

(** [get_sftp_request_id]: the id, and the counter after it. *)
Definition get_sftp_request_id (counter : Z) : Z * Z := (counter, u32 (counter + 1)).

(** Whether the function takes an id: not INIT, and not a lock it refuses. *)
Definition takes_id (ops : send_ops) (c : call) : bool :=
  match c with
  | CInit _ => false
  | CBlock _ _ _ _ | CUnblock _ _ _ => match ops with SendV06 => true | _ => false end
  | _ => true
  end.

(** A request through the table: its result, its id and the counter. *)
Definition send_request (ops : send_ops) (valid counter : Z) (c : call) : option (result * option Z * Z) :=
  if takes_id ops c then
    let (id, counter) := get_sftp_request_id counter in
    let? r := send_call ops valid id c in Some (r, Some id, counter)
  else let? r := send_call ops valid 0 c in Some (r, None, counter).

(** ** What a request looks like *)

Definition str (s : buf) : bytes := take (Z.to_nat (b_len s)) (b_ptr s).
Definition wf_buf (s : buf) : Prop := 0 <= b_len s <= zlen (b_ptr s).

Definition request_type (ops : send_ops) (c : call) : Z :=
  match c with
  | CInit _ => SSH_FXP_INIT
  | COpen _ _ _ => SSH_FXP_OPEN
  | COpendir _ => SSH_FXP_OPENDIR
  | CRead _ _ _ => SSH_FXP_READ
  | CWrite _ _ _ => SSH_FXP_WRITE
  | CReaddir _ => SSH_FXP_READDIR
  | CClose _ => SSH_FXP_CLOSE
  | CRemove _ => SSH_FXP_REMOVE
  | CRename _ _ _ => SSH_FXP_RENAME
  | CMkdir _ _ => SSH_FXP_MKDIR
  | CRmdir _ => SSH_FXP_RMDIR
  | CStat _ => SSH_FXP_STAT
  | CLstat _ => SSH_FXP_LSTAT
  | CFstat _ => SSH_FXP_FSTAT
  | CSetstat _ _ => SSH_FXP_SETSTAT
  | CFsetstat _ _ => SSH_FXP_FSETSTAT
  | CReadlink _ => SSH_FXP_READLINK
  | CSymlink _ _ => match ops with SendV06 => SSH_FXP_LINK | _ => SSH_FXP_SYMLINK end
  | CBlock _ _ _ _ => SSH_FXP_BLOCK
  | CUnblock _ _ _ => SSH_FXP_UNBLOCK
  | CRealpath _ => SSH_FXP_REALPATH
  | CExtension _ _ => SSH_FXP_EXTENDED
  | CCustom nr _ => nr
  end.

(** The attributes of an open, or none with the type of a file. *)
Definition open_attr (attr : buf) : bytes :=
  if 0 <? b_len attr then str attr else be_encode 4 0 ++ [SSH_FILEXFER_TYPE_REGULAR].

(** The fields behind the id, in the order of the drafts, with the values the code has
    for them: the flags of an open are those of [get_sftp_openmode_v03] and
    [get_sftp_openmode], and an open without attributes has a byte for the type of
    the file behind its valid bits in version 3 too, where the draft has none. *)
Definition request_payload (ops : send_ops) (valid : Z) (c : call) : bytes :=
  match c with
  | CInit version => []
  | COpen path flags attr =>
      match ops with
      | SendV03 | SendV04 =>
          encode_string (str path) ++ be_encode 4 (om_flags (get_sftp_openmode_v03 flags (mk_openmode 0 0))) ++ open_attr attr
      | _ =>
          encode_string (str path) ++ be_encode 4 (om_access (get_sftp_openmode flags (mk_openmode 0 0))) ++
          be_encode 4 (om_flags (get_sftp_openmode flags (mk_openmode 0 0))) ++ open_attr attr
      end
  | CRead handle offset size => encode_string (str handle) ++ be_encode 8 offset ++ be_encode 4 (u32 size)
  | CWrite handle offset data => encode_string (str handle) ++ be_encode 8 offset ++ encode_string (str data)
  | CRename path target flags =>
      encode_string (str path) ++ encode_string (str target) ++
      match ops with SendV03 | SendV04 => [] | _ => be_encode 4 (if has flags RENAME_NOREPLACE then 4 else 5) end
  | CMkdir s attr | CSetstat s attr | CFsetstat s attr | CExtension s attr => encode_string (str s) ++ str attr
  | CStat s | CLstat s | CFstat s => encode_string (str s) ++ match ops with SendV03 => [] | _ => be_encode 4 valid end
  | CSymlink path target => encode_string (str path) ++ encode_string (str target) ++ match ops with SendV06 => [1] | _ => [] end
  | CBlock handle offset size type =>
      encode_string (str handle) ++ be_encode 8 offset ++ be_encode 8 size ++ be_encode 4 (get_sftp_lockflags_flock type)
  | CUnblock handle offset size => encode_string (str handle) ++ be_encode 8 offset ++ be_encode 8 size
  | CRealpath path => encode_string (str path) ++ match ops with SendV06 => [SSH_FXP_REALPATH_STAT_ALWAYS] | _ => [] end
  | COpendir s | CReaddir s | CClose s | CRemove s | CRmdir s | CReadlink s => encode_string (str s)
  | CCustom nr data => str data
  end.

(** The pointers of a request hold as many bytes as their lengths say. *)
Definition wf_call (c : call) : Prop :=
  match c with
  | CInit _ => True
  | CRename s t _ | CMkdir s t | CSetstat s t | CFsetstat s t | CExtension s t | CSymlink s t | COpen s _ t | CWrite s _ t => wf_buf s /\ wf_buf t
  | CRead s _ _ | CBlock s _ _ _ | CUnblock s _ _ | CStat s | CLstat s | CFstat s | CRealpath s
  | COpendir s | CReaddir s | CClose s | CRemove s | CRmdir s | CReadlink s => wf_buf s
  | CCustom nr s => is_u8 nr /\ wf_buf s
  end.

(** The requests of the protocol with an id, as far as the version has them. *)
Definition regular (ops : send_ops) (c : call) : bool :=
  match c with CInit _ | CCustom _ _ => false | _ => takes_id ops c end.

Lemma zlen_str s : wf_buf s -> zlen (str s) = b_len s.
Proof. intros Hs. by apply zlen_take. Qed.

Lemma encode_str s : wf_buf s -> encode_string (str s) = be_encode 4 (b_len s) ++ str s.
Proof. intros Hs. unfold encode_string. by rewrite zlen_str. Qed.

Lemma puts_str s : wf_buf s -> puts (put_bytes (b_ptr s) (b_len s)) (str s).
Proof. apply puts_bytes. Qed.

Lemma puts_open_attr attr : wf_buf attr -> puts (put_open_attr attr) (open_attr attr).
Proof.
  intros Ha. unfold put_open_attr, open_attr. destruct (0 <? b_len attr); [by apply puts_str |].
  apply (puts_bind _ (put_byte 1)); [apply puts_uint32 | by apply puts_byte].
Qed.

Lemma zlen_open_attr attr : wf_buf attr -> zlen (open_attr attr) <= b_len attr + 5.
Proof.
  intros Ha. unfold open_attr. destruct (0 <? b_len attr); [rewrite zlen_str by done; lia |].
  rewrite zlen_app, zlen_be_encode. destruct Ha. unfold zlen. simpl. lia.
Qed.

(** The statements of a function write the frame piece by piece; [send_lengths]
    computes the length of the payload. *)
Ltac send_lengths :=
  repeat match goal with H : wf_buf ?s |- _ =>
    lazymatch goal with _ : zlen (str s) = _ |- _ => fail | _ => pose proof (zlen_str s H) end end;
  unfold wf_buf, is_u32, is_u64, u64 in *;
  rewrite ?zlen_app, ?zlen_encode_string, ?zlen_be_encode, ?zlen_cons in *; change (zlen (@nil Z)) with 0 in *;
  repeat match goal with
  | |- context [u32 ?x] => rewrite (u32_id x) by (unfold is_u32; lia)
  | |- context [?x mod 2 ^ 64] => rewrite (Z.mod_small x (2 ^ 64)) by lia
  end; lia.

Ltac send_puts :=
  repeat (refine (puts_bind _ _ _ _ _ _); [first [apply puts_uint32 | apply puts_uint64 | by apply puts_byte | by apply puts_str] |]);
  first [apply puts_uint32 | apply puts_uint64 | by apply puts_byte | by apply puts_str].

Lemma send_string_frame type id s :
  is_u8 type -> wf_buf s -> is_u32 (13 + b_len s) -> send_string type id s = Some (frame type id (encode_string (str s))).
Proof.
  intros Ht Hs Hu. unfold send_string. rewrite (encode_str s Hs). eapply sent_frame; [send_puts | send_lengths ..].
Qed.

Lemma send_string_flags_frame type id s flags :
  is_u8 type -> wf_buf s -> is_u32 (17 + b_len s) ->
  send_string_flags type id s flags = Some (frame type id (encode_string (str s) ++ be_encode 4 flags)).
Proof.
  intros Ht Hs Hu. unfold send_string_flags. rewrite (encode_str s Hs), <- !app_assoc. eapply sent_frame; [send_puts | send_lengths ..].
Qed.

Lemma send_string_block_frame type id s block :
  is_u8 type -> wf_buf s -> wf_buf block -> is_u32 (13 + b_len s + b_len block) ->
  send_string_block type id s block = Some (frame type id (encode_string (str s) ++ str block)).
Proof.
  intros Ht Hs Hb Hu. unfold send_string_block. rewrite (encode_str s Hs), <- !app_assoc. eapply sent_frame; [send_puts | send_lengths ..].
Qed.

Lemma send_two_strings_frame type id s target :
  is_u8 type -> wf_buf s -> wf_buf target -> is_u32 (17 + b_len s + b_len target) ->
  send_two_strings type id s target = Some (frame type id (encode_string (str s) ++ encode_string (str target))).
Proof.
  intros Ht Hs Hb Hu. unfold send_two_strings. rewrite (encode_str s Hs), (encode_str target Hb), <- !app_assoc.
  eapply sent_frame; [send_puts | send_lengths ..].
Qed.

Lemma send_read_frame id s offset size :
  wf_buf s -> is_u32 (25 + b_len s) ->
  send_sftp_read_v03 id s offset size = Some (frame SSH_FXP_READ id (encode_string (str s) ++ be_encode 8 offset ++ be_encode 4 (u32 size))).
Proof.
  intros Hs Hu. unfold send_sftp_read_v03. rewrite (encode_str s Hs), <- !app_assoc. generalize (u32 size). intros v.
  eapply sent_frame; [send_puts | send_lengths ..].
Qed.

Lemma send_write_frame id s offset data :
  wf_buf s -> wf_buf data -> is_u32 (25 + b_len s + b_len data) ->
  send_sftp_write_v03 id s offset data = Some (frame SSH_FXP_WRITE id (encode_string (str s) ++ be_encode 8 offset ++ encode_string (str data))).
Proof.
  intros Hs Hd Hu. unfold send_sftp_write_v03. rewrite (encode_str s Hs), (encode_str data Hd), <- !app_assoc.
  rewrite (u32_id (b_len data)) by send_lengths. eapply sent_frame; [send_puts | send_lengths ..].
Qed.

Lemma send_rename_v05_frame id s target flags :
  wf_buf s -> wf_buf target -> is_u32 (21 + b_len s + b_len target) ->
  send_sftp_rename_v05 id s target flags =
  Some (frame SSH_FXP_RENAME id (encode_string (str s) ++ encode_string (str target) ++ be_encode 4 (if has flags RENAME_NOREPLACE then 4 else 5))).
Proof.
  intros Hs Hb Hu. unfold send_sftp_rename_v05. rewrite (encode_str s Hs), (encode_str target Hb), <- !app_assoc.
  change (Z.lor SSH_FXF_RENAME_NATIVE SSH_FXF_RENAME_OVERWRITE) with 5. eapply sent_frame; [send_puts | send_lengths ..].
Qed.

Lemma send_symlink_v06_frame id s target :
  wf_buf s -> wf_buf target -> is_u32 (18 + b_len s + b_len target) ->
  send_sftp_symlink_v06 id s target = Some (frame SSH_FXP_LINK id (encode_string (str s) ++ encode_string (str target) ++ [1])).
Proof.
  intros Hs Hb Hu. unfold send_sftp_symlink_v06. rewrite (encode_str s Hs), (encode_str target Hb), <- !app_assoc.
  eapply sent_frame; [send_puts | send_lengths ..].
Qed.

Lemma send_block_frame id s offset size type :
  wf_buf s -> is_u32 (33 + b_len s) ->
  send_sftp_block_v06 id s offset size type =
  Some (frame SSH_FXP_BLOCK id (encode_string (str s) ++ be_encode 8 offset ++ be_encode 8 size ++ be_encode 4 (get_sftp_lockflags_flock type))).
Proof.
  intros Hs Hu. unfold send_sftp_block_v06. rewrite (encode_str s Hs), <- !app_assoc. eapply sent_frame; [send_puts | send_lengths ..].
Qed.

Lemma send_unblock_frame id s offset size :
  wf_buf s -> is_u32 (29 + b_len s) ->
  send_sftp_unblock_v06 id s offset size = Some (frame SSH_FXP_UNBLOCK id (encode_string (str s) ++ be_encode 8 offset ++ be_encode 8 size)).
Proof.
  intros Hs Hu. unfold send_sftp_unblock_v06. rewrite (encode_str s Hs), <- !app_assoc. eapply sent_frame; [send_puts | send_lengths ..].
Qed.

Lemma send_realpath_v06_frame id s :
  wf_buf s -> is_u32 (14 + b_len s) ->
  send_sftp_realpath_v06 id s = Some (frame SSH_FXP_REALPATH id (encode_string (str s) ++ [SSH_FXP_REALPATH_STAT_ALWAYS])).
Proof.
  intros Hs Hu. unfold send_sftp_realpath_v06. rewrite (encode_str s Hs), <- !app_assoc. eapply sent_frame; [send_puts | send_lengths ..].
Qed.

(** The array of an open is larger than needed by up to five bytes. *)
Lemma send_open_frame id path flags attr :
  wf_buf path -> wf_buf attr -> is_u32 (26 + b_len path + b_len attr) ->
  send_sftp_open_v03 id path flags attr = Some (frame SSH_FXP_OPEN id (request_payload SendV03 0 (COpen path flags attr))) /\
  send_sftp_open_v05 id path flags attr = Some (frame SSH_FXP_OPEN id (request_payload SendV05 0 (COpen path flags attr))).
Proof.
  intros Hp Ha Hu. pose proof (zlen_open_attr attr Ha). pose proof (puts_open_attr attr Ha). pose proof (zlen_nonneg (open_attr attr)).
  unfold send_sftp_open_v03, send_sftp_open_v05, request_payload. rewrite (encode_str path Hp), <- !app_assoc.
  generalize (get_sftp_openmode_v03 flags (mk_openmode 0 0)) (get_sftp_openmode flags (mk_openmode 0 0)). intros o3 o5.
  split; refine (sent_patched_frame0 _ _ (fun w => put_byte SSH_FXP_OPEN w ≫= _) _ _ _ _ _ _).
  all: try (repeat (refine (puts_bind _ _ _ _ _ _); [first [apply puts_uint32 | by apply puts_byte | by apply puts_str] |]); assumption).
  all: send_lengths.
Qed.

Lemma sends_frame m f : m = Some f -> sends m = Some (Sent f).
Proof. by intros ->. Qed.

Ltac frame_by lem := cbn [request_payload] in *; rewrite ?app_nil_r in *; apply sends_frame, lem; try done; send_lengths.

(** C13: every request of every version of the protocol but init and custom ones is sent
    as one frame: its length, its type, its id and the fields that
    [request_payload] lists for the version, each path and handle with its
    length; the array on the stack is filled without going over its end.  The locks,
    which only version 6 has, are refused with ENOSYS in the others.  What the fields
    hold is what the code puts in them: an open differs from the draft in its flags
    and, in version 3, in a byte for the type of the file. *)
Theorem send_request_frame (ops : send_ops) (valid id : Z) (c : call) :
  wf_call c -> is_u32 (26 + zlen (request_payload ops valid c)) ->
  if regular ops c then send_call ops valid id c = Some (Sent (frame (request_type ops c) id (request_payload ops valid c)))
  else match c with CBlock _ _ _ _ | CUnblock _ _ _ => send_call ops valid id c = Some (Refused ENOSYS) | _ => True end.
Proof.
  intros Hwf Hu. destruct c as [ver|path flags attr|s|s offset size|s offset data|s|s|s|s t flags|s t|s|s|s|s|s t|s t|s|s t|s offset size ty|s offset size|s|s t|nr s];
    cbn [regular takes_id wf_call request_type] in *; try (lazymatch type of Hwf with _ /\ _ => destruct Hwf as [Hwf Hwf2] end); try done; unfold send_call.
  - assert (is_u32 (26 + b_len path + b_len attr)) as Hb.
    { unfold request_payload, open_attr in Hu. destruct (Z.ltb_spec 0 (b_len attr)), ops; send_lengths. }
    destruct (send_open_frame id path flags attr Hwf Hwf2 Hb) as [E3 E5]. destruct ops; first [rewrite E3 | rewrite E5]; done.
  - frame_by send_string_frame.
  - frame_by send_read_frame.
  - frame_by send_write_frame.
  - frame_by send_string_frame.
  - frame_by send_string_frame.
  - frame_by send_string_frame.
  - destruct ops; [frame_by send_two_strings_frame .. | frame_by send_rename_v05_frame | frame_by send_rename_v05_frame].
  - frame_by send_string_block_frame.
  - frame_by send_string_frame.
  - destruct ops; [frame_by send_string_frame | frame_by send_string_flags_frame ..].
  - destruct ops; [frame_by send_string_frame | frame_by send_string_flags_frame ..].
  - destruct ops; [frame_by send_string_frame | frame_by send_string_flags_frame ..].
  - frame_by send_string_block_frame.
  - frame_by send_string_block_frame.
  - frame_by send_string_frame.
  - destruct ops; [frame_by send_two_strings_frame .. | frame_by send_symlink_v06_frame].
  - destruct ops; [done .. | frame_by send_block_frame].
  - destruct ops; [done .. | frame_by send_unblock_frame].
  - destruct ops; [frame_by send_string_frame .. | frame_by send_realpath_v06_frame].
  - frame_by send_string_block_frame.
Qed.

(** a custom request carries in its length field the number of all its bytes,
    where every other message carries the number of bytes behind that field. *)
Theorem send_custom_length (id nr : Z) (data : buf) :
  is_u8 nr -> wf_buf data -> is_u32 (9 + b_len data) ->
  exists d, send_sftp_custom_v03 id nr data = Some d /\ uint32_at d 0 = Some (zlen d).
Proof.
  intros Hn Hd Hu. pose proof (zlen_str data Hd) as Hs. exists (be_encode 4 (9 + b_len data) ++ [nr] ++ be_encode 4 id ++ str data).
  assert (zlen (be_encode 4 (9 + b_len data) ++ [nr] ++ be_encode 4 id ++ str data) = 9 + b_len data) as Hz
    by (rewrite !zlen_app, !zlen_be_encode, Hs; unfold zlen; simpl; lia).
  split; [| rewrite Hz; by apply uint32_at_0]. unfold send_sftp_custom_v03. rewrite (u32_id (9 + b_len data)) by done.
  apply sent_spec; [send_puts | lia | done].
Qed.

(** ** Ids *)

(** Requests one after the other, each with the counter the last one left. *)
Fixpoint send_requests (ops : send_ops) (valid counter : Z) (cs : list call) : option (list (result * option Z) * Z) :=
  match cs with
  | [] => Some ([], counter)
  | c :: cs =>
      let? (r, id, counter) := send_request ops valid counter c in
      let? (rs, counter) := send_requests ops valid counter cs in Some ((r, id) :: rs, counter)
  end.

Definition ids_of (rs : list (result * option Z)) : list Z := omap snd rs.

Lemma ids_count ops valid counter cs rs counter' :
  send_requests ops valid counter cs = Some (rs, counter') ->
  is_u32 counter -> exists n, ids_of rs = (fun k => u32 (counter + Z.of_nat k)) <$> seq 0 n /\ (n <= length cs)%nat.
Proof.
  revert counter rs. induction cs as [|c cs IH]; intros counter rs; cbn [send_requests]; [intros [= <- <-] _; by exists 0%nat |].
  unfold send_request, get_sftp_request_id. intros E Hc. destruct (takes_id ops c).
  - destruct (send_call ops valid counter c) as [r|]; [| done]. cbn [mbind option_bind] in E.
    destruct (send_requests ops valid (u32 (counter + 1)) cs) as [[rs' c']|] eqn:Er; [| done]. injection E as <- <-.
    destruct (IH _ _ Er (u32_range _)) as (n & En & Hn). exists (S n). split; [| simpl; lia]. cbn [ids_of omap list_omap snd seq].
    change (omap snd rs') with (ids_of rs'). rewrite En, fmap_cons. f_equal; [by rewrite Z.add_0_r, u32_id |]. rewrite <- fmap_S_seq, <- list_fmap_compose.
    apply list_fmap_ext. intros _ k _. simpl. unfold u32. rewrite Zplus_mod_idemp_l. f_equal. lia.
  - destruct (send_call ops valid 0 c) as [r|]; [| done]. cbn [mbind option_bind] in E.
    destruct (send_requests ops valid counter cs) as [[rs' c']|] eqn:Er; [| done]. injection E as <- <-.
    destruct (IH _ _ Er Hc) as (n & En & Hn). exists n. split; [exact En | simpl; lia].
Qed.

(** up to 2^32 requests in a row have different ids, wherever the counter
    starts, so that no reply can be taken for the reply to another of them. *)
Theorem request_ids_distinct (ops : send_ops) (valid counter : Z) (cs : list call) (rs : list (result * option Z)) (counter' : Z) :
  is_u32 counter -> Z.of_nat (length cs) <= 2 ^ 32 -> send_requests ops valid counter cs = Some (rs, counter') -> NoDup (ids_of rs).
Proof.
  intros Hc Hl E. destruct (ids_count _ _ _ _ _ _ E Hc) as (n & -> & Hn). apply NoDup_fmap_2_strong; [| apply NoDup_seq].
  intros x y Hx%elem_of_seq Hy%elem_of_seq Hxy. unfold u32 in Hxy. unfold is_u32 in Hc.
  assert ((Z.of_nat x - Z.of_nat y) mod 2 ^ 32 = 0) as H0.
  { rewrite <- (Z.add_simpl_r (Z.of_nat x - Z.of_nat y) 0), Z.sub_0_r.
    replace (Z.of_nat x - Z.of_nat y + 0) with ((counter + Z.of_nat x) - (counter + Z.of_nat y)) by lia.
    by rewrite Zminus_mod, Hxy, Z.sub_diag. }
  Z.to_euclidean_division_equations. lia.
Qed.

(** ** Flags of an open in version 3 *)

(** in version 3 the truncation of a file that is opened and not created is not
    asked for: the flags of the message do not depend on O_TRUNC. *)
Theorem openmode_v03_drops_truncate (f : Z) (o : sftp_openmode) :
  has f O_CREAT = false -> get_sftp_openmode_v03 f o = get_sftp_openmode_v03 (Z.ldiff f O_TRUNC) o.
Proof.
  intros Hc. unfold get_sftp_openmode_v03. by rewrite !has_ldiff, Hc by done.
Qed.

End Send.
(** ** Concrete requests *)

Definition example_path : buf := mk_buf [47; 97; 98; 0] 3.

Lemma send_request_frame_witness :
  send_call 204 SendV06 0 9 (COpen example_path O_RDWR (mk_buf [] 0)) =
  Some (Sent (frame SSH_FXP_OPEN 9 (request_payload SendV06 0 (COpen example_path O_RDWR (mk_buf [] 0))))).
Proof. apply (send_request_frame 204 SendV06 0 9 (COpen example_path O_RDWR (mk_buf [] 0))); [done | by vm_compute]. Defined.

Example send_open_run :
  send_call 204 SendV06 0 9 (COpen example_path O_RDWR (mk_buf [] 0)) =
  Some (Sent [0; 0; 0; 25; 3; 0; 0; 0; 9; 0; 0; 0; 3; 47; 97; 98; 0; 0; 1; 131; 0; 0; 0; 2; 0; 0; 0; 0; 1]).
Proof. vm_compute. reflexivity. Qed.

Lemma send_custom_length_witness : exists d, send_sftp_custom_v03 204 9 210 (mk_buf [1; 2] 2) = Some d /\ uint32_at d 0 = Some (zlen d).
Proof. by apply (send_custom_length 204 9 210 (mk_buf [1; 2] 2)). Defined.

Definition three_requests : option (list (result * option Z) * Z) :=
  send_requests 204 SendV03 0 (2 ^ 32 - 1) [CClose example_path; CBlock example_path 0 0 1; CStat example_path].

Lemma request_ids_distinct_witness :
  exists rs, (fst <$> three_requests) = Some rs /\ ids_of rs = [2 ^ 32 - 1; 0] /\ NoDup (ids_of rs).
Proof.
  destruct three_requests as [[rs counter']|] eqn:E; [| by vm_compute in E]. exists rs. split; [done |].
  split; [by vm_compute in E; injection E as <- <- |]. eapply (request_ids_distinct 204); [| | exact E]; by vm_compute.
Defined.

Lemma openmode_v03_drops_truncate_witness :
  get_sftp_openmode_v03 (Z.lor O_RDWR O_TRUNC) (mk_openmode 0 0) = get_sftp_openmode_v03 (Z.ldiff (Z.lor O_RDWR O_TRUNC) O_TRUNC) (mk_openmode 0 0).
Proof. by apply (openmode_v03_drops_truncate (Z.lor O_RDWR O_TRUNC)). Defined.

End SftpSend.
