(* ===== verification/FsHandle.v ===== *)
(** * lib/system/fshandle.c and ssh/subsystem/sftp/handle.c: the handles of the sftp server

    An open file or directory is a [struct fs_handle_s].  The handles of all
    connections are kept in 128 lists, by inode number; the string that names a
    handle on the wire holds the connection, the device and the inode.  A handle
    is known by the number of its list element; its socket (the open file of the
    system) is of any type.  The device number is split and joined by [major],
    [minor] and [makedev] of the C library. *)

From stdpp Require Import base list list_numbers numbers option gmap.
From S2P Require Import Prelude SshUint SimpleList ListStore SftpWire.
Import SshUint SimpleList ListStore SftpWire.

Module FsHandle.

Definition FS_HANDLE_HASHTABLE_SIZE := 128.
Definition FS_HANDLE_TYPE_DIR := 1.
Definition FS_HANDLE_TYPE_FILE := 2.
Definition HANDLE_FLAG_ALLOC := 1.
Definition HANDLE_SUBSYSTEM_TYPE_SFTP := 1.
Definition SSH_FXF_BLOCK_READ := 64.
Definition SSH_FXF_BLOCK_WRITE := 128.
Definition SSH_FXF_BLOCK_DELETE := 256.
Definition SSH_FXF_DELETE_ON_CLOSE := 2048.
Definition FS_HANDLE_BLOCK_READ := 1.
Definition FS_HANDLE_BLOCK_WRITE := 2.
Definition FS_HANDLE_BLOCK_DELETE := 4.

(** ** Device numbers: 64 bits, of which 8 to 19 and 44 to 63 are the major *)

Definition major (dev : Z) : Z := Z.lor (Z.land (Z.shiftr dev 8) 0xfff) (Z.land (Z.shiftr dev 32) 0xfffff000).
Definition minor (dev : Z) : Z := Z.lor (Z.land dev 0xff) (Z.land (Z.shiftr dev 12) 0xffffff00).

Definition makedev (maj min : Z) : Z :=
  Z.lor (Z.lor (Z.shiftl (Z.land maj 0xfff) 8) (Z.shiftl (Z.land maj 0xfffff000) 32))
        (Z.lor (Z.land min 0xff) (Z.shiftl (Z.land min 0xffffff00) 12)).

(** ** The handles *)

(** The functions [get_access] and [get_flags] of a handle. *)
Inductive handle_ops := DefaultOps | SftpOps.

Record sftp_handle_data := mk_data { hd_access : Z; hd_flags : Z }.

Section Handles.
Context {S : Type} `{!ListStore S} {sock : Type} (hashtable : nat).

Record fs_handle := mk_handle {
  fh_type : Z;
  fh_flags : Z;
  fh_subsystem : Z;
  fh_connectionid : Z;
  fh_dev : Z;
  fh_ino : Z;
  fh_socket : sock;
  fh_ops : handle_ops;
  fh_data : sftp_handle_data            (* [buffer], zero for a handle without *)
}.

Record table := mk_table { ht_store : S; ht_handles : gmap nat fs_handle }.

Definition set_socket (s : sock) (h : fs_handle) : fs_handle :=
  mk_handle (fh_type h) (fh_flags h) (fh_subsystem h) (fh_connectionid h) (fh_dev h) (fh_ino h) s (fh_ops h) (fh_data h).

Definition set_hflags (flags : Z) (h : fs_handle) : fs_handle :=
  mk_handle (fh_type h) flags (fh_subsystem h) (fh_connectionid h) (fh_dev h) (fh_ino h) (fh_socket h) (fh_ops h) (fh_data h).

Definition set_key (connectionid dev ino : Z) (h : fs_handle) : fs_handle :=
  mk_handle (fh_type h) (fh_flags h) (fh_subsystem h) connectionid dev ino (fh_socket h) (fh_ops h) (fh_data h).

Definition set_sftp (data : sftp_handle_data) (h : fs_handle) : fs_handle :=
  mk_handle (fh_type h) (fh_flags h) HANDLE_SUBSYSTEM_TYPE_SFTP (fh_connectionid h) (fh_dev h) (fh_ino h) (fh_socket h) SftpOps data.

Abbreviation hrow := (row_header hashtable).

Definition init_fs_handle_hashtable (t : table) : option table :=
  let? st := init_headers (ht_store t) (row_headers hashtable FS_HANDLE_HASHTABLE_SIZE) in Some (mk_table st (ht_handles t)).

Definition key_is (t : table) (connectionid maj min ino : Z) (e : nat) : option bool :=
  let? h := ht_handles t !! e in
  Some ((fh_connectionid h =? connectionid) && (fh_ino h =? ino) && (fh_dev h =? makedev maj min)).

Definition find_fs_handle (fuel : nat) (t : table) (connectionid maj min ino : Z) : outcome (option nat) :=
  find_in_list fuel (ht_store t) (hrow (ino mod FS_HANDLE_HASHTABLE_SIZE)) (key_is t connectionid maj min ino).

(** The handle and what is added to the counter of bytes read; the parameter
    [connectionid] is overwritten by the one in the buffer. *)
Definition get_fs_handle (fuel : nat) (t : table) (connectionid : Z) (buffer : bytes) (size : Z) : outcome (option nat * Z) :=
  if size <? 20 then Ret (None, 0) else
  let! connectionid := lift (uint32_at buffer 0) in
  let! maj := lift (uint32_at buffer 4) in
  let! min := lift (uint32_at buffer 8) in
  let! ino := lift (uint64_at buffer 12) in
  let! e := find_fs_handle fuel t connectionid maj min ino in
  Ret (e, 20).

Definition get_access (h : fs_handle) : Z :=
  match fh_ops h with
  | DefaultOps => if fh_type h =? FS_HANDLE_TYPE_DIR then 1 else 0
  | SftpOps => hd_access (fh_data h)
  end.

Definition translate_sftp_flags_2_fs_handle (sftpflags : Z) : Z :=
  let r := if has sftpflags SSH_FXF_BLOCK_READ then Z.lor 0 FS_HANDLE_BLOCK_READ else 0 in
  let r := if has sftpflags SSH_FXF_BLOCK_WRITE then Z.lor r FS_HANDLE_BLOCK_WRITE else r in
  if has sftpflags (Z.lor SSH_FXF_BLOCK_DELETE SSH_FXF_DELETE_ON_CLOSE) then Z.lor r FS_HANDLE_BLOCK_DELETE else r.

Definition get_flags (h : fs_handle) : Z :=
  match fh_ops h with
  | DefaultOps => 0
  | SftpOps => translate_sftp_flags_2_fs_handle (hd_flags (fh_data h))
  end.

Definition put_handle (h : fs_handle) (w : writer) : option writer :=
  let? w := put_uint32 (fh_connectionid h) w in
  let? w := put_uint32 (major (fh_dev h)) w in
  let? w := put_uint32 (minor (fh_dev h)) w in
  put_uint64 (fh_ino h) w.

(** The number of bytes written or needed, and the buffer. *)
Definition write_handle_default (h : fs_handle) (buffer : bytes) (size : Z) : option (Z * bytes) :=
  if size <? 20 then Some (20, buffer) else
  let? (buffer, pos) := put_handle h (buffer, 0) in Some (pos, buffer).

Definition get_fs_handle_buffer_size : Z := 20.

(** [e]: the memory [malloc] gives; [s]: the socket after [init_fs_socket]. *)
Definition create_fs_handle (t : table) (e : option nat) (s : sock) (type : Z) : option nat * table :=
  match e with
  | None => (None, t)
  | Some e =>
      let ty := if (type =? FS_HANDLE_TYPE_DIR) || (type =? FS_HANDLE_TYPE_FILE) then type else 0 in
      (Some e, mk_table (ht_store t) (<[e := mk_handle ty HANDLE_FLAG_ALLOC 0 0 0 0 s DefaultOps (mk_data 0 0)]> (ht_handles t)))
  end.

Definition insert_fs_handle (t : table) (e : nat) (connectionid dev ino : Z) : option table :=
  let? h := ht_handles t !! e in
  let? st := ls_add_first (ht_store t) (hrow (ino mod FS_HANDLE_HASHTABLE_SIZE)) e in
  Some (mk_table st (<[e := set_key connectionid dev ino h]> (ht_handles t))).

(** The handle is freed, with its socket, which is cleared. *)
Definition free_fs_handle (t : table) (e : option nat) : option (option sock * table) :=
  match e with
  | None => Some (None, t)
  | Some e =>
      let? h := ht_handles t !! e in
      let? owner := ls_owner (ht_store t) e in
      let? st := match owner with Some _ => ls_remove (ht_store t) e | None => Some (ht_store t) end in
      Some (Some (fh_socket h), mk_table st (delete e (ht_handles t)))
  end.

(** handle.c *)
Definition sftp_create_fs_handle (t : table) (e : option nat) (s : sock) (unique dev ino flags access : Z) (dir : bool) :
    option (option nat * table) :=
  match create_fs_handle t e s (if dir then FS_HANDLE_TYPE_DIR else FS_HANDLE_TYPE_FILE) with
  | (None, t) => Some (None, t)
  | (Some e, t) =>
      let? h := ht_handles t !! e in
      let? t := insert_fs_handle (mk_table (ht_store t) (<[e := set_sftp (mk_data access flags) h]> (ht_handles t))) e unique dev ino in
      Some (Some e, t)
  end.

Definition sftp_find_fs_handle (fuel : nat) (t : table) (unique : Z) (buffer : bytes) (size : Z) : outcome (option nat * Z) :=
  get_fs_handle fuel t unique buffer size.

(** ** The invariant, and the stack of handles behind a key *)

Definition key_of (h : fs_handle) : Z * Z * Z := (fh_connectionid h, fh_dev h, fh_ino h).

Definition row_handle (t : table) (i : Z) (e : nat) : Prop :=
  exists h, ht_handles t !! e = Some h /\ fh_ino h mod FS_HANDLE_HASHTABLE_SIZE = i.

Record wf_handles (t : table) (A : gmap nat (list nat)) : Prop := {
  wh_store : ls_refines (ht_store t) A;
  wh_rows i : 0 <= i < FS_HANDLE_HASHTABLE_SIZE -> exists l, A !! hrow i = Some l /\ Forall (row_handle t i) l;
  wh_listed e : is_Some (ht_handles t !! e) -> row_member hashtable FS_HANDLE_HASHTABLE_SIZE A e
}.

(** The handles with key [k], the one opened last first. *)
Definition has_key (t : table) (k : Z * Z * Z) (e : nat) : Prop := key_of <$> ht_handles t !! e = Some k.

#[global] Instance has_key_dec t k e : Decision (has_key t k e) := option_eq_dec _ _.

Definition stack (t : table) (A : gmap nat (list nat)) (k : Z * Z * Z) : list nat :=
  filter (has_key t k) (default [] (A !! hrow (k.2 mod FS_HANDLE_HASHTABLE_SIZE))).

Lemma mod_handle n : 0 <= n mod FS_HANDLE_HASHTABLE_SIZE < FS_HANDLE_HASHTABLE_SIZE.
Proof. by apply Z.mod_pos_bound. Qed.

Lemma key_is_true t c maj min ino e : key_is t c maj min ino e = Some true <-> has_key t (c, makedev maj min, ino) e.
Proof.
  unfold key_is, has_key, key_of. destruct (ht_handles t !! e) as [h|]; [| by split; intros H; discriminate H]. opt. cbn [fmap option_fmap option_map].
  rewrite !(inj_iff Some), !andb_true_iff, !Z.eqb_eq. split; [by intros [[-> ->] ->] | by intros [= -> -> ->]].
Qed.

Lemma find_spec t A fuel c maj min ino :
  wf_handles t A -> (forall h l, A !! h = Some l -> (length l < fuel)%nat) ->
  find_fs_handle fuel t c maj min ino = Ret (head (stack t A (c, makedev maj min, ino))).
Proof.
  intros Hwf Hfuel. destruct (wh_rows _ _ Hwf _ (mod_handle ino)) as (l & Hl & Hf). unfold find_fs_handle, stack.
  rewrite (find_in_list_spec _ A _ _ l); [| apply Hwf | done | | by eapply Hfuel].
  - cbn [snd]. rewrite Hl. cbn [default from_option id]. f_equal. f_equal. apply list_filter_iff. intros e. apply key_is_true.
  - apply (Forall_impl _ _ _ Hf). intros e (h & Hh & _). unfold key_is. rewrite Hh. by eexists.
Qed.

(** The string that names a handle. *)
Definition handle_string (c maj min ino : Z) : bytes :=
  be_encode 4 c ++ be_encode 4 maj ++ be_encode 4 min ++ be_encode 8 ino.

Lemma zlen_handle_string c maj min ino : zlen (handle_string c maj min ino) = 20.
Proof. unfold handle_string. by rewrite !zlen_app, !zlen_be_encode. Qed.

Lemma get_spec t A fuel c c' maj min ino rest size :
  wf_handles t A -> (forall h l, A !! h = Some l -> (length l < fuel)%nat) ->
  is_u32 c -> is_u32 maj -> is_u32 min -> is_u64 ino -> 20 <= size ->
  get_fs_handle fuel t c' (handle_string c maj min ino ++ rest) size = Ret (head (stack t A (c, makedev maj min, ino)), 20).
Proof.
  intros Hwf Hfuel Hc Hmaj Hmin Hino Hs. unfold get_fs_handle. rewrite (proj2 (Z.ltb_ge size 20) Hs).
  unfold handle_string. rewrite <- !app_assoc, uint32_at_0 by done. cbn [lift outcome_bind].
  rewrite uint32_at_app by (by rewrite ?zlen_be_encode || done). cbn [lift outcome_bind].
  rewrite (app_assoc (be_encode 4 c)), uint32_at_app by (by rewrite ?zlen_app, ?zlen_be_encode || done). cbn [lift outcome_bind].
  rewrite (app_assoc (_ ++ _)), uint64_at_app by (by rewrite ?zlen_app, ?zlen_be_encode || done). cbn [lift outcome_bind].
  by rewrite (find_spec t A).
Qed.

(** ** Splitting and joining device numbers *)

Lemma land_mask x lo n i :
  0 <= lo -> 0 <= n -> Z.testbit (Z.land x (Z.shiftl (Z.ones n) lo)) i = Z.testbit x i && ((lo <=? i) && (i <? lo + n)).
Proof.
  intros Hlo Hn. destruct (Z.ltb_spec i 0) as [Hi|Hi]; [by rewrite !(Z.testbit_neg_r _ i) by done |].
  rewrite Z.land_spec. f_equal. rewrite Z.shiftl_spec by lia.
  destruct (Z.leb_spec lo i); [| by rewrite Z.testbit_neg_r by lia]. cbn [andb].
  destruct (Z.ltb_spec i (lo + n)); [apply Z.ones_spec_low; lia | apply Z.ones_spec_high; lia].
Qed.

(** Bits of masked and shifted numbers at a position whose range is known. *)
Ltac mask_bits :=
  repeat rewrite ?Z.lor_spec, ?(Z.shiftl_spec (Z.land _ _)), ?land_mask by lia;
  repeat match goal with
  | |- context [?a <=? ?b] => first [rewrite (proj2 (Z.leb_le a b)) by lia | rewrite (proj2 (Z.leb_gt a b)) by lia]
  | |- context [?a <? ?b] => first [rewrite (proj2 (Z.ltb_lt a b)) by lia | rewrite (proj2 (Z.ltb_ge a b)) by lia]
  end;
  cbn [andb]; rewrite ?andb_false_r, ?andb_true_r, ?orb_false_r; cbn [orb].

Lemma high_bits x n i : 0 <= x < 2 ^ n -> n <= i -> 0 <= n -> Z.testbit x i = false.
Proof. intros Hx Hi Hn. rewrite <- (Z.mod_small x (2 ^ n)) by done. by apply Z.mod_pow2_bits_high. Qed.

Ltac dev_masks :=
  change 0xfff with (Z.shiftl (Z.ones 12) 0); change 0xfffff000 with (Z.shiftl (Z.ones 20) 12);
  change 0xff with (Z.shiftl (Z.ones 8) 0); change 0xffffff00 with (Z.shiftl (Z.ones 24) 8).

Lemma makedev_split dev : is_u64 dev -> makedev (major dev) (minor dev) = dev.
Proof.
  intros Hd. unfold makedev, major, minor. dev_masks. apply Z.bits_inj'. intros i Hi.
  assert (i < 8 \/ 8 <= i < 20 \/ 20 <= i < 44 \/ 44 <= i < 64 \/ 64 <= i) as [?|[?|[?|[?|?]]]] by lia; mask_bits;
    rewrite ?Z.shiftr_spec by lia; try (f_equal; lia). symmetry. by apply (high_bits dev 64).
Qed.

Lemma u32_bits x : (forall i, 32 <= i -> Z.testbit x i = false) -> is_u32 x.
Proof.
  intros H. assert (x mod 2 ^ 32 = x) as <-.
  - apply Z.bits_inj'. intros i Hi. destruct (Z.ltb_spec i 32); [by apply Z.mod_pow2_bits_low | rewrite H, Z.mod_pow2_bits_high; done].
  - by apply Z.mod_pos_bound.
Qed.

Lemma major_u32 dev : is_u32 (major dev).
Proof. apply u32_bits. intros i Hi. unfold major. dev_masks. by mask_bits. Qed.

Lemma minor_u32 dev : is_u32 (minor dev).
Proof. apply u32_bits. intros i Hi. unfold minor. dev_masks. by mask_bits. Qed.

(** ** Writing a handle *)

Definition wf_key (k : Z * Z * Z) : Prop := is_u32 k.1.1 /\ is_u64 k.1.2 /\ is_u64 k.2.

Definition string_of (h : fs_handle) : bytes := handle_string (fh_connectionid h) (major (fh_dev h)) (minor (fh_dev h)) (fh_ino h).

Lemma puts_handle h : puts (put_handle h) (string_of h).
Proof. unfold put_handle, string_of, handle_string. eauto with puts. Qed.

Lemma write_handle_spec h buffer size :
  size <= zlen buffer -> 20 <= size -> write_handle_default h buffer size = Some (20, string_of h ++ drop 20 buffer).
Proof.
  intros Hl Hs. unfold write_handle_default. rewrite (proj2 (Z.ltb_ge size 20) Hs). change (buffer, 0) with (at_end [] buffer).
  pose proof (zlen_handle_string (fh_connectionid h) (major (fh_dev h)) (minor (fh_dev h)) (fh_ino h)) as Hz. fold (string_of h) in Hz.
  rewrite puts_handle; [| lia | by rewrite Hz]. opt. unfold at_end. rewrite app_nil_l, Hz.
  by replace (length (string_of h)) with 20%nat by (unfold zlen in Hz; lia).
Qed.

(** ** Opening and closing handles *)

Lemma filter_ext_in (P Q : nat -> Prop) `{!forall x, Decision (P x), !forall x, Decision (Q x)} (l : list nat) :
  (forall x, x ∈ l -> P x <-> Q x) -> filter P l = filter Q l.
Proof.
  induction l as [|x l IH]; intros Hx; [done |]. rewrite !filter_cons, IH by (intros y Hy; apply Hx; set_solver).
  pose proof (Hx x ltac:(left)). by repeat case_decide; try tauto.
Qed.

Lemma has_key_row t i e k : row_handle t i e -> has_key t k e -> k.2 mod FS_HANDLE_HASHTABLE_SIZE = i.
Proof. intros (h & Hh & Hi) Hk. unfold has_key in Hk. rewrite Hh in Hk. injection Hk as <-. done. Qed.

Lemma wf_lookup t A k : wf_handles t A ->
  exists l, A !! hrow (k.2 mod FS_HANDLE_HASHTABLE_SIZE) = Some l /\ stack t A k = filter (has_key t k) l /\
    Forall (row_handle t (k.2 mod FS_HANDLE_HASHTABLE_SIZE)) l.
Proof. intros Hwf. destruct (wh_rows _ _ Hwf _ (mod_handle k.2)) as (l & Hl & Hf). exists l. unfold stack. by rewrite Hl. Qed.

(** [t'] is [t] with element [e] entered in row [i] with handle [h], or taken out. *)
Lemma stack_enter t A st e h l k :
  wf_handles t A -> ht_handles t !! e = None -> unused A e -> A !! hrow (fh_ino h mod FS_HANDLE_HASHTABLE_SIZE) = Some l ->
  stack (mk_table st (<[e := h]> (ht_handles t))) (<[hrow (fh_ino h mod FS_HANDLE_HASHTABLE_SIZE) := e :: l]> A) k
    = if decide (k = key_of h) then e :: stack t A k else stack t A k.
Proof.
  intros Hwf He Hu Hl. set (t' := mk_table st _). destruct (wf_lookup t A k Hwf) as (l' & Hl' & -> & _). unfold stack.
  assert (forall x, x ∈ l' -> has_key t' k x <-> has_key t k x) as Hx.
  { intros x Hx. unfold has_key, t'. cbn [ht_handles]. rewrite lookup_insert_ne; [done |]. intros <-. by apply (Hu _ _ Hl'). }
  assert (has_key t' k e <-> k = key_of h) as Hk.
  { unfold has_key, t'. cbn [ht_handles]. rewrite lookup_insert_eq. cbn. split; [by intros [= ->] | by intros ->]. }
  destruct (decide (fh_ino h mod FS_HANDLE_HASHTABLE_SIZE = k.2 mod FS_HANDLE_HASHTABLE_SIZE)) as [Hr|Hr].
  - rewrite <- Hr in *. rewrite lookup_insert_eq. cbn [default from_option id]. rewrite Hl in Hl'. injection Hl' as <-. rewrite filter_cons.
    rewrite (filter_ext_in _ _ l Hx). by repeat case_decide; try tauto.
  - rewrite row_lookup_ne, Hl' by (by apply mod_handle || done). cbn [default from_option id]. rewrite (filter_ext_in _ _ l' Hx).
    case_decide as Hd; [| done]. by rewrite Hd in Hr.
Qed.

Lemma wf_enter t A st e h l :
  wf_handles t A -> ht_handles t !! e = None -> unused A e -> A !! hrow (fh_ino h mod FS_HANDLE_HASHTABLE_SIZE) = Some l ->
  ls_refines st (<[hrow (fh_ino h mod FS_HANDLE_HASHTABLE_SIZE) := e :: l]> A) ->
  wf_handles (mk_table st (<[e := h]> (ht_handles t))) (<[hrow (fh_ino h mod FS_HANDLE_HASHTABLE_SIZE) := e :: l]> A).
Proof.
  intros Hwf He Hu Hl HR. pose proof (mod_handle (fh_ino h)) as Hm. constructor; cbn [ht_store ht_handles]; [done | |].
  - intros i Hi. destruct (wh_rows _ _ Hwf i Hi) as (k & Hk & Hf).
    assert (Forall (row_handle (mk_table st (<[e := h]> (ht_handles t))) i) k) as Hf'.
    { rewrite Forall_forall in *. intros x Hx. destruct (Hf x Hx) as (g & Hg & ?). exists g. cbn. rewrite lookup_insert_ne; [done |].
      intros <-. by apply (Hu _ _ Hk). }
    destruct (decide (fh_ino h mod FS_HANDLE_HASHTABLE_SIZE = i)) as [<-|Hne].
    + rewrite lookup_insert_eq. exists (e :: l). split; [done |]. rewrite Hl in Hk. injection Hk as <-. constructor; [| done].
      exists h. cbn. by rewrite lookup_insert_eq.
    + rewrite row_lookup_ne by lia. eauto.
  - intros f Hf. rewrite (row_member_change _ _ _ _ _ _ Hm). destruct (decide (f = e)) as [->|Hne]; [left; left |].
    rewrite lookup_insert_ne in Hf by done. apply (wh_listed _ _ Hwf), (row_member_bucket _ _ _ _ _ _ Hm Hl) in Hf as [?|?]; [left; by right | by right].
Qed.

(** The handle [sftp_create_fs_handle] makes. *)
Definition new_handle (s : sock) (unique dev ino flags access : Z) (dir : bool) : fs_handle :=
  mk_handle (if dir then FS_HANDLE_TYPE_DIR else FS_HANDLE_TYPE_FILE) HANDLE_FLAG_ALLOC HANDLE_SUBSYSTEM_TYPE_SFTP
    unique dev ino s SftpOps (mk_data access flags).

(** What [malloc] gives: memory that is no handle, outside the lists. *)
Record fresh (t : table) (A : gmap nat (list nat)) (e : nat) : Prop := {
  fr_none : ht_handles t !! e = None;
  fr_alloc : ls_alloc (ht_store t) e;
  fr_unused : unused A e
}.

Lemma create_spec t A e s unique dev ino flags access dir :
  wf_handles t A -> fresh t A e -> (forall h l, A !! h = Some l -> is_u64 (zlen l + 1)) ->
  let h := new_handle s unique dev ino flags access dir in
  exists t' A', sftp_create_fs_handle t (Some e) s unique dev ino flags access dir = Some (Some e, t') /\ wf_handles t' A' /\
    ht_handles t' = <[e := h]> (ht_handles t) /\
    (forall k, stack t' A' k = if decide (k = key_of h) then e :: stack t A k else stack t A k) /\
    (exists r l, A !! r = Some l /\ A' = <[r := e :: l]> A) /\ (forall f, ls_alloc (ht_store t) f -> ls_alloc (ht_store t') f).
Proof.
  intros Hwf [He Ha Hu] Hw h. destruct (wh_rows _ _ Hwf _ (mod_handle ino)) as (l & Hl & _).
  destruct (ls_add_first_spec _ A _ l e (wh_store _ _ Hwf) Hl Ha Hu (Hw _ _ Hl)) as (st & E & HR & Hk).
  assert (sftp_create_fs_handle t (Some e) s unique dev ino flags access dir
    = Some (Some e, mk_table st (<[e := h]> (ht_handles t)))) as ->.
  { unfold sftp_create_fs_handle, create_fs_handle, insert_fs_handle. cbn [ht_handles ht_store]. rewrite lookup_insert_eq. opt.
    rewrite lookup_insert_eq. opt. rewrite E. opt. rewrite !insert_insert_eq. by destruct dir. }
  eexists _, _. split; [done |]. split; [by apply (wf_enter t A st e h l) |]. split; [done |].
  split; [intros k; by apply stack_enter |]. split; [eauto |]. intros f Hf. by apply Hk.
Qed.

Lemma stack_leave t A st e h l1 l2 k :
  wf_handles t A -> ht_handles t !! e = Some h -> A !! hrow (fh_ino h mod FS_HANDLE_HASHTABLE_SIZE) = Some (l1 ++ e :: l2) ->
  stack (mk_table st (delete e (ht_handles t))) (<[hrow (fh_ino h mod FS_HANDLE_HASHTABLE_SIZE) := l1 ++ l2]> A) k
    = filter (.≠ e) (stack t A k).
Proof.
  intros Hwf He Hl. set (t' := mk_table st _). destruct (wf_lookup t A k Hwf) as (l' & Hl' & -> & Hf). unfold stack.
  pose proof (ls_nodup _ _ _ _ (wh_store _ _ Hwf) Hl) as (_ & Hd1 & [Hni _]%NoDup_cons)%NoDup_app.
  assert (forall x, x <> e -> has_key t' k x <-> has_key t k x) as Hx.
  { intros x Hx. unfold has_key, t'. cbn [ht_handles]. by rewrite lookup_delete_ne. }
  assert (forall m : list nat, e ∉ m -> filter (has_key t' k) m = filter (.≠ e) (filter (has_key t k) m)) as Hm.
  { intros m Hm. rewrite (filter_ext_in (has_key t' k) (has_key t k)) by (intros x ?; apply Hx; set_solver).
    rewrite list_filter_filter. apply filter_ext_in. intros x ?. assert (x <> e) by set_solver. tauto. }
  destruct (decide (fh_ino h mod FS_HANDLE_HASHTABLE_SIZE = k.2 mod FS_HANDLE_HASHTABLE_SIZE)) as [Hr|Hr].
  - rewrite <- Hr in *. rewrite lookup_insert_eq. cbn [default from_option id]. rewrite Hl in Hl'. injection Hl' as <-.
    rewrite !filter_app, !Hm by set_solver. f_equal. rewrite filter_cons. case_decide; [| done]. rewrite filter_cons. by case_decide.
  - rewrite row_lookup_ne, Hl' by (by apply mod_handle || done). cbn [default from_option id]. apply Hm. intros Hin.
    rewrite Forall_forall in Hf. destruct (Hf e Hin) as (g & Hg & Hi). rewrite He in Hg. by injection Hg as <-.
Qed.

Lemma wf_leave t A st e h l1 l2 :
  wf_handles t A -> ht_handles t !! e = Some h -> A !! hrow (fh_ino h mod FS_HANDLE_HASHTABLE_SIZE) = Some (l1 ++ e :: l2) ->
  ls_refines st (<[hrow (fh_ino h mod FS_HANDLE_HASHTABLE_SIZE) := l1 ++ l2]> A) ->
  wf_handles (mk_table st (delete e (ht_handles t))) (<[hrow (fh_ino h mod FS_HANDLE_HASHTABLE_SIZE) := l1 ++ l2]> A).
Proof.
  intros Hwf He Hl HR. pose proof (mod_handle (fh_ino h)) as Hm.
  pose proof (ls_nodup _ _ _ _ (wh_store _ _ Hwf) Hl) as (_ & Hd1 & [Hni _]%NoDup_cons)%NoDup_app.
  assert (forall i x, x <> e -> row_handle t i x -> row_handle (mk_table st (delete e (ht_handles t))) i x) as Hx.
  { intros i x Hne (g & Hg & ?). exists g. cbn. by rewrite lookup_delete_ne. }
  constructor; cbn [ht_store ht_handles]; [done | |].
  - intros i Hi. destruct (wh_rows _ _ Hwf i Hi) as (k & Hk & Hf). rewrite Forall_forall in Hf.
    destruct (decide (fh_ino h mod FS_HANDLE_HASHTABLE_SIZE = i)) as [<-|Hne].
    + rewrite lookup_insert_eq. eexists. split; [done |]. rewrite Hl in Hk. injection Hk as <-. apply Forall_forall.
      intros x Hin. apply Hx; [set_solver | apply Hf; set_solver].
    + rewrite row_lookup_ne by lia. exists k. split; [done |]. apply Forall_forall. intros x Hin. apply Hx; [| auto].
      intros ->. destruct (Hf e Hin) as (g & Hg & Hi'). rewrite He in Hg. by injection Hg as <-.
  - intros f [Hf1 Hf2]%lookup_delete_is_Some. apply (wh_listed _ _ Hwf), (row_member_bucket _ _ _ _ _ _ Hm Hl) in Hf2.
    rewrite (row_member_change _ _ _ _ _ _ Hm). set_solver.
Qed.

Lemma free_spec t A e h :
  wf_handles t A -> ht_handles t !! e = Some h ->
  exists t' A', free_fs_handle t (Some e) = Some (Some (fh_socket h), t') /\ wf_handles t' A' /\
    ht_handles t' = delete e (ht_handles t) /\ (forall k, stack t' A' k = filter (.≠ e) (stack t A k)) /\
    (forall r l, A' !! r = Some l -> exists l0, A !! r = Some l0 /\ (length l <= length l0)%nat) /\
    (forall f, ls_alloc (ht_store t) f -> ls_alloc (ht_store t') f).
Proof.
  intros Hwf He. destruct (wh_listed _ _ Hwf e ltac:(eauto)) as (i & l & Hi & Hl & Hin).
  destruct (wh_rows _ _ Hwf i Hi) as (l' & Hl' & Hf). rewrite Hl in Hl'. injection Hl' as <-. rewrite Forall_forall in Hf.
  destruct (Hf e Hin) as (g & Hg & Hgi). rewrite He in Hg. injection Hg as <-. subst i.
  pose proof (ls_owner_spec _ _ _ _ e (wh_store _ _ Hwf) Hl Hin) as Ho. apply list_elem_of_split in Hin as (l1 & l2 & ->).
  destruct (ls_remove_spec _ A _ l1 e l2 (wh_store _ _ Hwf) Hl) as (st & E & HR & _ & Hk).
  unfold free_fs_handle. rewrite He. opt. rewrite Ho. opt. rewrite E. opt.
  eexists _, _. split; [done |]. split; [by apply (wf_leave t A st e h l1 l2) |]. split; [done |].
  split; [intros k; by apply (stack_leave t A st e h l1 l2) |].
  split; [| intros f Hf'; by apply Hk].
  intros r l Hr. destruct (decide (r = hrow (fh_ino h mod FS_HANDLE_HASHTABLE_SIZE))) as [->|Hne].
  - rewrite lookup_insert_eq in Hr. injection Hr as <-. eexists. split; [done |]. rewrite !length_app. cbn [length]. lia.
  - rewrite lookup_insert_ne in Hr by done. eauto.
Qed.

(** ** The theorems *)

Definition bounded (A : gmap nat (list nat)) (fuel : nat) : Prop :=
  (forall h l, A !! h = Some l -> (length l < fuel)%nat) /\ (forall h l, A !! h = Some l -> is_u64 (zlen l + 1)).

Definition key_string (k : Z * Z * Z) : bytes := handle_string k.1.1 (major k.1.2) (minor k.1.2) k.2.

Lemma get_key t A fuel c' k rest size :
  wf_handles t A -> bounded A fuel -> wf_key k -> 20 <= size ->
  get_fs_handle fuel t c' (key_string k ++ rest) size = Ret (head (stack t A k), 20).
Proof.
  intros Hwf [Hf _] (Hc & Hd & Hi) Hs. destruct k as [[c dev] ino]. cbn in Hc, Hd, Hi. unfold key_string. cbn [fst snd].
  rewrite (get_spec t A) by (done || apply major_u32 || apply minor_u32). cbn [fst snd]. by rewrite makedev_split.
Qed.

(** C39: the table of handles implements a stack of handles per key, a key being
    connection, device and inode: the string of a key finds the top of its stack,
    or nothing when it is empty; opening a file pushes one new handle on the
    stack of its key and leaves all others; closing a handle takes it out of its
    stack, gives back its socket to be cleared, and leaves all others.  The
    invariant of the table is kept. *)
Theorem handle_table_refines (t : table) (A : gmap nat (list nat)) (fuel : nat) :
  wf_handles t A -> bounded A fuel ->
  (forall unique k rest, wf_key k -> get_fs_handle fuel t unique (key_string k ++ rest) 20 = Ret (head (stack t A k), 20)) /\
  (forall e s unique dev ino flags access dir, fresh t A e ->
     exists t' A', sftp_create_fs_handle t (Some e) s unique dev ino flags access dir = Some (Some e, t') /\ wf_handles t' A' /\
       (forall k, stack t' A' k = if decide (k = (unique, dev, ino)) then e :: stack t A k else stack t A k) /\
       (forall f, f <> e -> ht_handles t' !! f = ht_handles t !! f)) /\
  (forall e h, ht_handles t !! e = Some h ->
     exists t' A', free_fs_handle t (Some e) = Some (Some (fh_socket h), t') /\ wf_handles t' A' /\
       (forall k, stack t' A' k = filter (.≠ e) (stack t A k)) /\
       ht_handles t' !! e = None /\ (forall f, f <> e -> ht_handles t' !! f = ht_handles t !! f)).
Proof.
  intros Hwf Hb. split; [| split].
  - intros unique k rest Hk. by apply get_key.
  - intros e s unique dev ino flags access dir Hfr.
    destruct (create_spec t A e s unique dev ino flags access dir Hwf Hfr (proj2 Hb)) as (t' & A' & E & Hwf' & Hh & Hst & _).
    exists t', A'. split; [done |]. split; [done |]. split; [done |]. intros f Hf. rewrite Hh. by apply lookup_insert_ne.
  - intros e h He. destruct (free_spec t A e h Hwf He) as (t' & A' & E & Hwf' & Hh & Hst & _).
    exists t', A'. split; [done |]. split; [done |]. split; [done |]. rewrite Hh. split; [by apply lookup_delete_eq |].
    intros f Hf. by apply lookup_delete_ne.
Qed.

(** a handle that has just been opened is found by the string that is written
    for it, whatever else is in the table and behind the string. *)
Theorem handle_string_roundtrip (t : table) (A : gmap nat (list nat)) (fuel e : nat) (s : sock) (unique dev ino flags access : Z) (dir : bool) (buffer : bytes) :
  wf_handles t A -> bounded A fuel -> fresh t A e -> wf_key (unique, dev, ino) -> 20 <= zlen buffer ->
  exists t' h b, sftp_create_fs_handle t (Some e) s unique dev ino flags access dir = Some (Some e, t') /\
    ht_handles t' !! e = Some h /\ fh_socket h = s /\
    write_handle_default h buffer (zlen buffer) = Some (20, b) /\
    sftp_find_fs_handle (Datatypes.S fuel) t' unique b 20 = Ret (Some e, 20).
Proof.
  intros Hwf Hb Hfr Hk Hl. pose proof Hb as [Hb1 Hb2].
  destruct (create_spec t A e s unique dev ino flags access dir Hwf Hfr Hb2) as (t' & A' & E & Hwf' & Hh & Hst & (r & l & Hr & HA) & _).
  eexists t', _, _. split; [done |]. rewrite Hh, lookup_insert_eq. split; [done |]. split; [done |].
  split; [apply write_handle_spec; lia |]. unfold sftp_find_fs_handle, string_of.
  rewrite (get_spec t' A'); [| done | | apply Hk | apply major_u32 | apply minor_u32 | apply Hk | lia].
  - cbn [fh_connectionid fh_dev fh_ino new_handle]. rewrite makedev_split by apply Hk. rewrite Hst, decide_True by done. done.
  - intros h' l' Hl'. subst A'. destruct (decide (h' = r)) as [->|Hne].
    + rewrite lookup_insert_eq in Hl'. injection Hl' as <-. cbn [length]. pose proof (Hb1 _ _ Hr). lia.
    + rewrite lookup_insert_ne in Hl' by done. pose proof (Hb1 _ _ Hl'). lia.
Qed.

(** The connection that asks plays no part: every connection can use the handles
    of the others. *)
Theorem handle_any_connection (t : table) (fuel : nat) (unique other : Z) (buffer : bytes) (size : Z) :
  sftp_find_fs_handle fuel t unique buffer size = sftp_find_fs_handle fuel t other buffer size.
Proof. done. Qed.

(** A file opened twice over a connection has two handles with one name: until
    the second is closed its string finds the second, never the first. *)
Theorem handle_shadowed (t : table) (A : gmap nat (list nat)) (fuel e e' : nat) (h h' : fs_handle) (rest : bytes) :
  wf_handles t A -> bounded A fuel -> wf_key (key_of h) -> ht_handles t !! e = Some h -> ht_handles t !! e' = Some h' ->
  key_of h' = key_of h -> head (stack t A (key_of h)) = Some e' ->
  string_of h' = string_of h /\ get_fs_handle fuel t (fh_connectionid h) (string_of h ++ rest) 20 = Ret (Some e', 20).
Proof.
  intros Hwf Hb Hk He He' Ek Ht. split; [unfold string_of; unfold key_of in Ek; by injection Ek as -> -> -> |].
  rewrite <- Ht. by apply (get_key t A fuel (fh_connectionid h) (key_of h)).
Qed.

End Handles.
Arguments fs_handle sock : clear implicits.
Arguments table S sock : clear implicits.

(** ** Examples: an empty table, and one with a file opened *)

Definition no_handles {sock} : table heap sock := mk_table (row_store 128 2) ∅.

Lemma no_handles_wf {sock} : exists A, wf_handles (sock := sock) 0 no_handles A /\ bounded A 1 /\ (forall e, (e < 2)%nat -> fresh (sock := sock) no_handles A e).
Proof.
  destruct (row_store_spec 128 2) as (A & HR & Hnil & Hrow & Ha). exists A. split; [| split].
  - constructor; [exact HR | |].
    + intros i Hi. exists []. split; [by apply Hrow | constructor].
    + intros e He. cbn in He. rewrite lookup_empty in He. by destruct He.
  - split; intros h l ->%Hnil; cbn; [lia | done].
  - intros e He. constructor; [done | by apply Ha | intros h l ->%Hnil; set_solver].
Qed.

Lemma no_handles_stack {sock} A k : stack (sock := sock) 0 no_handles A k = [].
Proof. unfold stack. rewrite (filter_ext_in _ (fun _ => False)); [| by intros x _]. by induction (default _ _). Qed.

Lemma handle_table_refines_witness : exists A t' A',
  get_fs_handle (sock := Z) 0 1 no_handles 7 (key_string (7, 2049, 300) ++ [1]) 20 = Ret (None, 20) /\
  sftp_create_fs_handle 0 no_handles (Some 1%nat) 5 7 2049 300 0 0 false = Some (Some 1%nat, t') /\ wf_handles 0 t' A' /\
  stack (sock := Z) 0 no_handles A (7, 2049, 300) = [] /\ stack 0 t' A' (7, 2049, 300) = [1%nat].
Proof.
  destruct (no_handles_wf (sock := Z)) as (A & Hwf & Hb & Hfr). exists A.
  pose proof (no_handles_stack (sock := Z) A (7, 2049, 300)) as Es.
  destruct (handle_table_refines 0 no_handles A 1 Hwf Hb) as (Hget & Hcr & _).
  destruct (Hcr 1%nat 5 7 2049 300 0 0 false (Hfr 1%nat ltac:(lia))) as (t' & A' & E & Hwf' & Hst & _).
  exists t', A'. split; [rewrite Hget by (repeat split; cbn; lia); by rewrite Es |]. split; [done |]. split; [done |].
  split; [done |]. rewrite Hst, decide_True by done. by rewrite Es.
Defined.

Lemma handle_string_roundtrip_witness : exists t' h b,
  sftp_create_fs_handle 0 no_handles (Some 0%nat) 5 7 2049 300 0 0 true = Some (Some 0%nat, t') /\
  ht_handles t' !! 0%nat = Some h /\ fh_socket h = 5 /\
  write_handle_default h (replicate 20 0) (zlen (replicate 20 0)) = Some (20, b) /\
  sftp_find_fs_handle 0 2 t' 7 b 20 = Ret (Some 0%nat, 20).
Proof.
  destruct (no_handles_wf (sock := Z)) as (A & Hwf & Hb & Hfr).
  apply (handle_string_roundtrip 0 no_handles A 1 0 5 7 2049 300 0 0 true (replicate 20 0) Hwf Hb (Hfr 0%nat ltac:(lia)));
    [repeat split; cbn; lia | reflexivity || done].
Defined.

Example handle_string_bytes :
  key_string (7, 2049, 300) = [0;0;0;7; 0;0;0;8; 0;0;0;1; 0;0;0;0;0;0;1;44].
Proof. reflexivity. Qed.

End FsHandle.
