(* ===== verification/SftpReply.v ===== *)
(** * ssh/subsystem/sftp/send.c: the replies of the sftp server

    Every function builds its reply in an array on the stack, the length last,
    and hands it to the write function of the connection.  A reply is the bytes
    handed over.  The file ends with the composition of the two sides: what the
    server writes the client of SftpRecv delivers. *)

From stdpp Require Import base list list_numbers numbers option gmap.
From S2P Require Import Prelude SshUint SshString RequestHash SftpWire SftpRecv.
Import SshUint SshString RequestHash SftpWire RequestTable SftpRecv.

Module SftpReply.

Section Replies.
Context (fill : Z).                 (* what is in an array before it is written *)

Definition reply_sftp_status_simple (id status : Z) : option bytes :=
  sent_patched fill 21 4 (fun w =>
    let? w := put_byte SSH_FXP_STATUS w in
    let? w := put_uint32 id w in
    let? w := put_uint32 status w in
    let? w := put_uint32 0 w in
    put_uint32 0 w).

Definition reply_sftp_bytes_common (id code : Z) (p : bytes) (len : Z) : option bytes :=
  sent_patched fill (u32 (13 + len)) 4 (fun w =>
    let? w := put_byte code w in
    let? w := put_uint32 id w in
    let? w := put_uint32 len w in
    put_bytes p len w).

Definition reply_sftp_attrs (id : Z) (attr : bytes) (len : Z) : option bytes :=
  sent_patched fill (u32 (9 + len)) 4 (fun w =>
    let? w := put_byte SSH_FXP_ATTRS w in
    let? w := put_uint32 id w in
    put_bytes attr len w).

Definition put_eof (eof : Z) (w : writer) : option writer := if eof =? 0 then Some w else put_byte 1 w.

Definition reply_sftp_data (id : Z) (p : bytes) (len eof : Z) : option bytes :=
  sent_patched fill (u32 (14 + len)) 4 (fun w =>
    let? w := put_byte SSH_FXP_DATA w in
    let? w := put_uint32 id w in
    let? w := put_uint32 len w in
    let? w := put_bytes p len w in
    put_eof eof w).

Definition reply_sftp_handle (id : Z) (handle : bytes) (len : Z) : option bytes :=
  reply_sftp_bytes_common id SSH_FXP_HANDLE handle len.

Definition reply_sftp_names (id count : Z) (names : bytes) (len eof : Z) : option bytes :=
  sent_patched fill (u32 (14 + len)) 4 (fun w =>
    let? w := put_byte SSH_FXP_NAME w in
    let? w := put_uint32 id w in
    let? w := put_uint32 count w in
    let? w := put_bytes names len w in
    put_eof eof w).

Definition reply_sftp_extension (id : Z) (p : bytes) (len : Z) : option bytes :=
  sent_patched fill (u32 (9 + len)) 4 (fun w =>
    let? w := put_byte SSH_FXP_EXTENDED_REPLY w in
    let? w := put_uint32 id w in
    put_bytes p len w).

(** ** The replies as messages *)

Inductive reply :=
| RStatus (status : Z)
| RHandle (handle : bytes) (len : Z)
| RData (p : bytes) (len eof : Z)
| RNames (count : Z) (names : bytes) (len eof : Z)
| RAttrs (attr : bytes) (len : Z)
| RExtension (p : bytes) (len : Z).

Definition send_reply (id : Z) (r : reply) : option bytes :=
  match r with
  | RStatus status => reply_sftp_status_simple id status
  | RHandle handle len => reply_sftp_handle id handle len
  | RData p len eof => reply_sftp_data id p len eof
  | RNames count names len eof => reply_sftp_names id count names len eof
  | RAttrs attr len => reply_sftp_attrs id attr len
  | RExtension p len => reply_sftp_extension id p len
  end.

Definition first (len : Z) (p : bytes) : bytes := take (Z.to_nat len) p.
Definition eof_of (eof : Z) : option Z := if eof =? 0 then None else Some 1.

Definition reply_message (r : reply) : message :=
  match r with
  | RStatus status => MStatus status [] [] []
  | RHandle handle len => MHandle (first len handle)
  | RData p len eof => MData (first len p) (eof_of eof)
  | RNames count names len eof => MName count (first len names ++ eof_byte (eof_of eof))
  | RAttrs attr len => MAttrs (first len attr)
  | RExtension p len => MExtendedReply (first len p)
  end.

(** The bytes are there, and the array fits in 32 bits. *)
Definition readable (p : bytes) (len : Z) : Prop := 0 <= len <= zlen p /\ is_u32 (14 + len).

Definition wf_reply (r : reply) : Prop :=
  match r with
  | RStatus status => is_u32 status
  | RHandle p len => readable p len
  | RData p len _ | RAttrs p len | RExtension p len => readable p len
  | RNames count p len _ => readable p len /\ is_u32 count
  end.

Lemma zlen_first p len : readable p len -> zlen (first len p) = len.
Proof. intros [Hl _]. by apply zlen_take. Qed.

Lemma puts_eof eof : puts (put_eof eof) (eof_byte (eof_of eof)).
Proof.
  unfold put_eof, eof_of. destruct (eof =? 0); [| by apply puts_byte].
  intros done free _ _. by rewrite app_nil_r, drop_0.
Qed.

Lemma zlen_eof eof : 0 <= zlen (eof_byte (eof_of eof)) <= 1.
Proof. unfold eof_of, zlen. destruct (eof =? 0); cbn; lia. Qed.

#[local] Hint Resolve puts_eof : puts.

Lemma puts_first p len : readable p len -> puts (put_bytes p len) (first len p).
Proof. intros [Hl _]. by apply puts_bytes. Qed.

#[local] Hint Resolve puts_first : puts.
#[local] Hint Extern 1 (is_u8 _) => done : puts.

Lemma encode_first p len : readable p len -> encode_string (first len p) = be_encode 4 len ++ first len p.
Proof. intros Hp. unfold encode_string. by rewrite zlen_first. Qed.

(** Every reply is one frame with the payload of its message. *)
Lemma send_reply_frame id r :
  wf_reply r -> send_reply id r = Some (frame (message_type (reply_message r)) id (message_payload (reply_message r))).
Proof.
  destruct r as [status | p len | p len eof | count p len eof | p len | p len]; intros Hr; cbn [wf_reply] in Hr;
    cbn [send_reply reply_message message_payload message_type];
    try (assert (readable p len) as Hp by apply Hr; pose proof Hp as [Hl Hu]; unfold is_u32 in Hu; pose proof (zlen_first p len Hp));
    try pose proof (zlen_eof eof).
  - apply sent_patched_frame; [| done | done]. rewrite app_nil_r. unfold encode_string. change (be_encode 4 (zlen [])) with (be_encode 4 0).
    rewrite !app_nil_r. eauto 10 with puts.
  - rewrite encode_first by done. unfold reply_sftp_handle, reply_sftp_bytes_common. rewrite u32_id by (unfold is_u32; lia).
    apply sent_patched_frame; [eauto 10 with puts | rewrite zlen_app, zlen_be_encode; lia | unfold is_u32; lia].
  - rewrite encode_first by done. unfold reply_sftp_data. rewrite u32_id by (unfold is_u32; lia). rewrite <- app_assoc.
    apply sent_patched_frame; [eauto 10 with puts | rewrite !zlen_app, zlen_be_encode; lia | unfold is_u32; lia].
  - unfold reply_sftp_names. rewrite u32_id by (unfold is_u32; lia).
    apply sent_patched_frame; [eauto 10 with puts | rewrite !zlen_app, zlen_be_encode; lia | unfold is_u32; lia].
  - unfold reply_sftp_attrs. rewrite u32_id by (unfold is_u32; lia).
    apply sent_patched_frame; [eauto 10 with puts | lia | unfold is_u32; lia].
  - unfold reply_sftp_extension. rewrite u32_id by (unfold is_u32; lia).
    apply sent_patched_frame; [eauto 10 with puts | lia | unfold is_u32; lia].
Qed.

Lemma zlen_payload r : wf_reply r -> 0 <= zlen (message_payload (reply_message r)) /\ is_u32 (9 + zlen (message_payload (reply_message r))).
Proof.
  intros Hr. split; [apply zlen_nonneg |].
  destruct r as [status | p len | p len eof | count p len eof | p len | p len]; cbn [wf_reply] in Hr;
    cbn [reply_message message_payload]; [done | ..];
    (assert (readable p len) as Hp by apply Hr); pose proof Hp as [Hl Hu]; unfold is_u32 in *; pose proof (zlen_first p len Hp) as Hz;
    try pose proof (zlen_eof eof); rewrite ?encode_first, ?zlen_app, ?zlen_be_encode, ?Hz by done; lia.
Qed.

End Replies.

(** C9: the two sides of the protocol composed: a reply the server writes, with a
    handle of at most 255 bytes, ends the request that waits for it under its id in
    a client of any version, and no other, with its type and the status, the data
    or the names and their count it carries.  The mark of the end of the file
    reaches a client of version 6 with DATA only: the others give no flags, and
    the mark of NAME is not recognised. *)
Theorem server_reply_received `{!RequestTable T} (fill now id size seq : Z) (r : reply) (c : client (T := T)) (W : gmap nat Z) (o : recv_ops) (tail : bytes) :
  wf_reply r -> (forall handle len, r = RHandle handle len -> len <= SFTP_HANDLE_MAXSIZE) ->
  wf_client c W -> cl_receive c = ReceiveReply -> cl_ops c = Some o -> is_u32 id ->
  exists data, send_reply fill id r = Some data /\
    (zlen data <= size <= zlen data + zlen tail -> is_u32 size ->
     answered c W id SFTP_REQUEST_STATUS_FINISH (delivered o (reply_message r)) (receive_sftp_data now c (data ++ tail) size seq)).
Proof.
  intros Hr Hh Hwf Hrc Ho Hid. destruct (zlen_payload r Hr) as [Hz Hu]. eexists. split; [by apply send_reply_frame |].
  rewrite zlen_frame. intros Hsize Hsu. unfold receive_sftp_data. rewrite Hrc.
  destruct (open_frame now c (message_type (reply_message r)) id (message_payload (reply_message r)) tail size seq Hid Hsize Hsu) as (rest & _ & ->).
  apply dispatch_delivers; [done | done | | unfold is_u32 in *; lia].
  destruct r as [status | p len | p len eof | count p len eof | p len | p len]; cbn [wf_reply] in Hr; cbn [reply_message wf_message]; try done.
  - rewrite zlen_first by done. by apply (Hh p).
  - apply Hr.
Qed.

Lemma server_reply_received_witness : exists data, send_reply 0 70 (RData [1; 2; 3; 0; 0] 3 1) = Some data /\
  (zlen data <= 18 <= zlen data + zlen [9; 9] -> is_u32 18 ->
   answered (example_client ReceiveReply RecvV06) ids 70 SFTP_REQUEST_STATUS_FINISH (delivered RecvV06 (MData [1; 2; 3] (Some 1)))
     (receive_sftp_data 0 (example_client ReceiveReply RecvV06) (data ++ [9; 9]) 18 0)).
Proof.
  apply (server_reply_received 0 0 70 18 0 (RData [1; 2; 3; 0; 0] 3 1) (example_client ReceiveReply RecvV06) ids RecvV06 [9; 9]);
    [split; [split; [done |] | split]; unfold zlen; cbn; lia | done | apply example_client_wf | done | done | done].
Defined.

Example reply_data_bytes : send_reply 0 70 (RData [1; 2; 3; 0; 0] 3 1) = Some [0;0;0;13; 103; 0;0;0;70; 0;0;0;3; 1;2;3; 1].
Proof. reflexivity. Qed.

End SftpReply.
