(* ===== verification/SftpServer.v ===== *)
(** * ssh/subsystem/sftp: the sftp server

    The requests of a client are handled one by one: the message is taken apart,
    the path is completed (path.c), the system is called (lib/system/fsoperations.c,
    lib/system/fssocket.c, lib/system/stat.c), handles are entered in and taken from
    their table, and a reply is written.  The system calls are a parameter.  The
    state is the table of handles, the system, and the replies written so far.

    Modelled are the handlers of cb-open.c, cb-close.c, cb-rm.c and cb-readlink.c,
    opendir of cb-opendir.c, and the table of callbacks of init.c.  Arrays on the
    stack hold [fill] before they are written. *)

From stdpp Require Import base list list_numbers numbers option gmap.
From S2P Require Import Prelude SshUint SshString SimpleList ListStore SystemStat FsPath SftpWire SftpSend FsHandle SftpReply.
Import SshUint SshString ListStore SystemStat FsPath SftpWire SftpSend FsHandle SftpReply.

Module SftpServer.

Definition SSH_FX_OK := 0.
Definition SSH_FX_NO_SUCH_FILE := 2.
Definition SSH_FX_PERMISSION_DENIED := 3.
Definition SSH_FX_FAILURE := 4.
Definition SSH_FX_BAD_MESSAGE := 5.
Definition SSH_FX_OP_UNSUPPORTED := 8.
Definition SSH_FX_INVALID_HANDLE := 9.
Definition SSH_FX_NO_SUCH_PATH := 10.
Definition SSH_FX_WRITE_PROTECT := 12.
Definition SSH_FX_NO_SPACE_ON_FILESYSTEM := 14.
Definition SSH_FX_QUOTA_EXCEEDED := 15.
Definition SSH_FX_NOT_A_DIRECTORY := 19.
Definition SSH_FX_INVALID_PARAMETER := 23.
Definition SSH_FX_FILE_IS_A_DIRECTORY := 24.

Definition ENOENT := 2.
Definition EIO := 5.
Definition EBADF := 9.
Definition EACCES := 13.
Definition ENOTDIR := 20.
Definition EINVAL := 22.
Definition EFBIG := 27.
Definition ENOSPC := 28.
Definition EDQUOT := 122.

Definition O_DIRECTORY := 65536.
Definition AT_STATX_SYNC_AS_STAT := 0.
Definition SYSTEM_STAT_BASIC_STATS := 2047.
Definition SYSTEM_STAT_ALL := 4095.
Definition S_IFDIR := 16384.

(** ** The system *)

(** [de_name]: the bytes of the record from [d_name] to its end, with the NUL and
    what fills the record up. *)
Record dirent := mk_dirent { de_ino : Z; de_type : Z; de_name : bytes }.

(** The calls that are used.  An error is [inl errno]; of [pwrite] the result and
    the value of [errno] behind it. *)
Record syscalls (OS : Type) := mk_syscalls {
  sc_statx : OS -> bytes -> Z -> Z -> Z + (system_stat * Z * Z);  (* with the device *)
  sc_fstatx : OS -> Z -> Z -> Z + system_stat;
  sc_open : OS -> bytes -> Z -> (Z + Z) * OS;
  sc_close : OS -> Z -> OS;
  sc_pread : OS -> Z -> Z -> Z -> Z + bytes;
  sc_pwrite : OS -> Z -> bytes -> Z -> (Z * Z) * OS;
  sc_unlink : OS -> bytes -> (Z + unit) * OS;
  sc_rmdir : OS -> bytes -> (Z + unit) * OS;
  sc_readlink : OS -> bytes -> Z + bytes;
  sc_getdents : OS -> Z -> (Z + list dirent) * OS
}.
Arguments sc_statx {OS}. Arguments sc_fstatx {OS}. Arguments sc_open {OS}. Arguments sc_close {OS}. Arguments sc_pread {OS}.
Arguments sc_pwrite {OS}. Arguments sc_unlink {OS}. Arguments sc_rmdir {OS}. Arguments sc_readlink {OS}. Arguments sc_getdents {OS}.

(** ** lib/system/fssocket.c *)

(** [struct fs_socket_directory_data_s]: whether the buffer is allocated, the
    entries in it behind [pos], and [dirent]. *)
Record dir_data := mk_dir { dd_buffer : bool; dd_left : list dirent; dd_dirent : option dirent }.
Definition DIR_INIT := mk_dir false [] None.

Inductive socket_type := SockFile | SockDir.

Record fs_socket := mk_socket { so_type : socket_type; so_fd : Z; so_dir : dir_data }.

Definition init_fs_socket (type : socket_type) : fs_socket := mk_socket type (-1) DIR_INIT.

(** ** The server *)

(** The callbacks that complete a path. *)
Inductive completer := AppendNone | AppendHome | AppendPrefix.
Inductive length_fn := NoPrefix | Prefix.

Record sftp_subsystem := mk_sftp {
  sf_unique : Z;                 (* connection.unique *)
  sf_home : buf;                 (* identity.home *)
  sf_prefix : buf;               (* prefix.path *)
  sf_get_length : length_fn
}.

Record sftp_in_header := mk_inh { inh_len : Z; inh_type : Z; inh_id : Z }.

Section Server.
Context {S OS : Type} `{!ListStore S} (hashtable : nat) (sys : syscalls OS).

Abbreviation handles := (FsHandle.table S fs_socket).

Record server := mk_server { sv_table : handles; sv_os : OS; sv_sent : list bytes }.

Definition sv_set_table t sv := mk_server t (sv_os sv) (sv_sent sv).
Definition sv_set_os os sv := mk_server (sv_table sv) os (sv_sent sv).

(** What the code asks of its surroundings in one call: the fuel of the loops,
    the memory [malloc] gives for a handle and for the target of a link, and the
    contents of fresh arrays. *)
Record env := mk_env { ev_fuel : nat; ev_malloc : option nat; ev_alloc : Z -> bool; ev_fill : Z }.

Context (ev : env).

(** ** lib/system: wrappers *)

(** [open] of a socket without reference and mode. *)
Definition fs_socket_open (os : OS) (path : fs_path) (sock : fs_socket) (flags : Z) : option (Z * fs_socket * OS) :=
  let size := fs_path_get_length path in
  if size =? 0 then Some (-1, sock, os) else
  let go (flags : Z) (sock : fs_socket) :=
    let? (_, tmp) := fs_path_copy path (replicate (Z.to_nat (u32 (size + 1))) 0) size in
    let? name := cstring tmp in
    match sc_open sys os name flags with
    | (inl _, os) => Some (-1, sock, os)
    | (inr fd, os) => Some (fd, mk_socket (so_type sock) fd (so_dir sock), os)
    end in
  match so_type sock with
  | SockFile => if has flags O_DIRECTORY then Some (-1, sock, os) else go flags sock
  | SockDir => go (Z.lor flags O_DIRECTORY) (mk_socket SockDir (so_fd sock) DIR_INIT)
  end.

Definition fs_socket_close (os : OS) (sock : fs_socket) : OS := if 0 <=? so_fd sock then sc_close sys os (so_fd sock) else os.

Definition fs_socket_clear (os : OS) (sock : fs_socket) : OS := fs_socket_close os sock.

Definition FS_DIRECTORY_BUFFER_SIZE := 1024.

(** The result, the entry and the socket. *)
Definition read_dentry (os : OS) (s : fs_socket) : Z * option dirent * fs_socket * OS :=
  let with_dir (d : dir_data) := mk_socket (so_type s) (so_fd s) d in
  let take_first (entries : list dirent) (os : OS) :=
    match entries with
    | d :: rest => (1, Some d, with_dir (mk_dir true rest (Some d)), os)
    | [] => (0, None, with_dir (mk_dir true [] (dd_dirent (so_dir s))), os)
    end in
  if negb (dd_buffer (so_dir s)) && negb (ev_alloc ev FS_DIRECTORY_BUFFER_SIZE) then (-1, None, s, os) else
  match dd_left (so_dir s) with
  | [] =>
      match sc_getdents sys os (so_fd s) with
      | (inl _, os) => (-1, None, with_dir (mk_dir true [] (dd_dirent (so_dir s))), os)
      | (inr ds, os) => take_first ds os
      end
  | entries => take_first entries os
  end.

(** The path is handed to the system as it is in its buffer. *)
Definition system_getstat (os : OS) (path : fs_path) (mask : Z) : option (Z + (system_stat * Z * Z)) :=
  let? b := fp_buffer path in
  let? name := cstring (drop (Z.to_nat (fp_start path)) b) in
  Some (sc_statx sys os name AT_STATX_SYNC_AS_STAT (if mask =? 0 then SYSTEM_STAT_ALL else mask)).

Definition system_stat_test_ISDIR (st : system_stat) : bool := Z.land (sst_mode st) S_IFMT =? S_IFDIR.

Definition get_unique_system_dev (maj min : Z) : Z := u32 (makedev maj min).

Inductive fsaction := Unlink | Rmdir.

Definition system_shared_fsaction (os : OS) (path : fs_path) (code : fsaction) : option (Z * OS) :=
  let size := fs_path_get_length path in
  if 0 <? size then
    let? (n, tmp) := fs_path_copy path (replicate (Z.to_nat (u32 (size + 1))) (ev_fill ev)) size in
    let? tmp := mem_write tmp n [0] in
    let? name := cstring tmp in
    let (r, os) := match code with Unlink => sc_unlink sys os name | Rmdir => sc_rmdir sys os name end in
    Some (match r with inl _ => -1 | inr _ => 0 end, os)
  else Some (-1, os).

(** ** path.c *)

Definition path_append (location : fs_path) (s : buf) : option fs_path :=
  let? (_, location) := fs_path_append_raw ReallocNull location (b_ptr s) (b_len s) in Some location.

Definition path_append_shared (path : buf) (localpath : fs_path) : option fs_path :=
  let? localpath := path_append localpath (mk_buf [slash; 0] 1) in path_append localpath path.

Definition path_append_home (sftp : sftp_subsystem) (path : buf) (localpath : fs_path) : option fs_path :=
  let? localpath := path_append localpath (sf_home sftp) in path_append_shared path localpath.

Definition path_append_prefix (sftp : sftp_subsystem) (path : buf) (localpath : fs_path) : option fs_path :=
  let? localpath := path_append localpath (sf_prefix sftp) in path_append_shared path localpath.

Definition path_append_none (path : buf) (localpath : fs_path) : option fs_path :=
  let? (_, localpath) := fs_path_append ReallocNull localpath (ArgS (Some (b_ptr path)) (b_len path)) in Some localpath.

Definition complete (sftp : sftp_subsystem) (c : completer) (path : buf) (localpath : fs_path) : option fs_path :=
  match c with
  | AppendNone => path_append_none path localpath
  | AppendHome => path_append_home sftp path localpath
  | AppendPrefix => path_append_prefix sftp path localpath
  end.

Definition starts_slash (path : buf) : option bool :=
  if 0 <? b_len path then let? c := b_ptr path !! 0%nat in Some (c =? slash) else Some false.

Definition get_length_fullpath_noprefix (sftp : sftp_subsystem) (path : buf) : option (Z * completer) :=
  let? abs := starts_slash path in
  if abs : bool then Some (b_len path, AppendNone) else Some (u32 (b_len path + 1 + b_len (sf_home sftp)), AppendHome).

Definition get_length_fullpath_prefix (sftp : sftp_subsystem) (path : buf) : option (Z * completer) :=
  let? abs := starts_slash path in
  if abs : bool then Some (u32 (b_len path + 1 + b_len (sf_prefix sftp)), AppendPrefix)
  else Some (u32 (b_len path + 1 + b_len (sf_home sftp)), AppendHome).

Definition get_length_fullpath (sftp : sftp_subsystem) : buf -> option (Z * completer) :=
  match sf_get_length sftp with NoPrefix => get_length_fullpath_noprefix sftp | Prefix => get_length_fullpath_prefix sftp end.

(** The lines every handler with a path starts with: the buffer, of [size + 1]
    bytes, holds [fill]; then the path is completed. *)
Definition full_path (sftp : sftp_subsystem) (fill : Z) (path : buf) : option fs_path :=
  let? (size, convert) := get_length_fullpath sftp path in
  let location := fs_path_assign_buffer (Some (replicate (Z.to_nat (u32 (size + 1))) fill)) (u32 (size + 1)) in
  complete sftp convert path location.

(** ** Replies *)

Definition send_sftp_subsystem (sv : server) (data : bytes) : server := mk_server (sv_table sv) (sv_os sv) (sv_sent sv ++ [data]).

Definition answer (sv : server) (id : Z) (r : reply) : outcome server :=
  let! data := lift (send_reply (ev_fill ev) id r) in Ret (send_sftp_subsystem sv data).

Definition answer_status (sv : server) (inh : sftp_in_header) (status : Z) : outcome server := answer sv (inh_id inh) (RStatus status).

Definition send_sftp_handle (sv : server) (inh : sftp_in_header) (e : nat) : outcome server :=
  let! h := lift (ht_handles (sv_table sv) !! e) in
  let size := get_fs_handle_buffer_size in
  let! (size, buffer) := lift (write_handle_default h (replicate (Z.to_nat size) (ev_fill ev)) size) in
  answer sv (inh_id inh) (RHandle buffer size).

(** [free_fs_handle], with the clearing of the socket. *)
Definition release_handle (sv : server) (e : option nat) : outcome server :=
  let! (sock, t) := lift (free_fs_handle (sv_table sv) e) in
  Ret (mk_server t (match sock with Some s => fs_socket_clear (sv_os sv) s | None => sv_os sv end) (sv_sent sv)).

(** ** cb-open.c *)

Definition rw_access := Z.lor (Z.lor (Z.lor ACE4_WRITE_DATA ACE4_WRITE_ATTRIBUTES) ACE4_READ_DATA) ACE4_READ_ATTRIBUTES.

Definition and_not_access m o := mk_openmode (Z.ldiff (om_access o) m) (om_flags o).
Definition and_not_flags m o := mk_openmode (om_access o) (Z.ldiff (om_flags o) m).

Definition O_RDONLY := 0.

(** [None] for the label [errorinval]. *)
Definition translate_sftp2local (openmode : sftp_openmode) (posix_flags : Z) : option (sftp_openmode * Z) :=
  let? (openmode, posix_flags) :=
    if has (om_access openmode) ACE4_APPEND_DATA then
      if negb (has (om_flags openmode) (Z.lor SSH_FXF_APPEND_DATA SSH_FXF_APPEND_DATA_ATOMIC)) then None
      else if negb (has (om_access openmode) ACE4_WRITE_DATA) then None
      else Some (and_not_flags (Z.lor SSH_FXF_APPEND_DATA SSH_FXF_APPEND_DATA_ATOMIC) (and_not_access ACE4_APPEND_DATA openmode),
                 Z.lor posix_flags O_APPEND)
    else Some (openmode, posix_flags) in
  let access := Z.land (om_access openmode) rw_access in
  let? posix_flags :=
    if access =? rw_access then Some (Z.lor posix_flags O_RDWR)
    else if access =? Z.lor ACE4_WRITE_DATA ACE4_WRITE_ATTRIBUTES then Some (Z.lor posix_flags O_WRONLY)
    else if access =? Z.lor ACE4_READ_DATA ACE4_READ_ATTRIBUTES then Some (Z.lor posix_flags O_RDONLY)
    else None in
  let openmode := and_not_access rw_access openmode in
  if negb (has (om_flags openmode) SSH_FXF_ACCESS_DISPOSITION) then None
  else if has (om_flags openmode) SSH_FXF_CREATE_TRUNCATE
  then Some (and_not_flags SSH_FXF_CREATE_TRUNCATE openmode, Z.lor posix_flags (Z.lor O_CREAT O_TRUNC))
  else if has (om_flags openmode) SSH_FXF_CREATE_NEW
  then Some (and_not_flags SSH_FXF_CREATE_NEW openmode, Z.lor posix_flags (Z.lor O_CREAT O_EXCL))
  else if has (om_flags openmode) SSH_FXF_OPEN_OR_CREATE
  then Some (and_not_flags SSH_FXF_OPEN_OR_CREATE openmode, Z.lor posix_flags O_CREAT)
  else if has (om_flags openmode) SSH_FXF_TRUNCATE_EXISTING
  then Some (and_not_flags SSH_FXF_TRUNCATE_EXISTING openmode, Z.lor posix_flags O_TRUNC)
  else Some (openmode, posix_flags).

Definition translate_read_error (error : Z) : Z := if error =? EBADF then SSH_FX_INVALID_PARAMETER else SSH_FX_FAILURE.

Definition translate_write_error (error : Z) : Z :=
  if error =? EBADF then SSH_FX_PERMISSION_DENIED
  else if error =? EDQUOT then SSH_FX_QUOTA_EXCEEDED
  else if error =? ENOSPC then SSH_FX_NO_SPACE_ON_FILESYSTEM
  else if error =? EINVAL then SSH_FX_WRITE_PROTECT
  else if error =? EFBIG then SSH_FX_INVALID_PARAMETER
  else SSH_FX_FAILURE.

(** The label [error] of the functions that open: the handle is freed. *)
Definition open_failed (sv : server) (inh : sftp_in_header) (e : option nat) (status : Z) : outcome server :=
  let! sv := release_handle sv e in answer_status sv inh status.

(** The socket of a handle is opened in place. *)
Definition open_handle (sv : server) (e : nat) (path : fs_path) (flags : Z) : outcome (Z * server) :=
  let! h := lift (ht_handles (sv_table sv) !! e) in
  let! (fd, sock, os) := lift (fs_socket_open (sv_os sv) path (fh_socket h) flags) in
  Ret (fd, mk_server (mk_table (ht_store (sv_table sv)) (<[e := set_socket sock h]> (ht_handles (sv_table sv)))) os (sv_sent sv)).

Definition sftp_op_open_existing (sftp : sftp_subsystem) (sv : server) (inh : sftp_in_header) (path : fs_path) (openmode : sftp_openmode) (posix_flags : Z) : outcome server :=
  let! r := lift (system_getstat (sv_os sv) path SYSTEM_STAT_SIZE) in
  match r with
  | inl errno => open_failed sv inh None (if errno =? ENOENT then SSH_FX_NO_SUCH_FILE else SSH_FX_FAILURE)
  | inr (st, maj, min) =>
      if system_stat_test_ISDIR st then open_failed sv inh None SSH_FX_FILE_IS_A_DIRECTORY else
      let! (handle, t) := lift (sftp_create_fs_handle hashtable (sv_table sv) (ev_malloc ev) (init_fs_socket SockFile) (sf_unique sftp)
        (get_unique_system_dev maj min) (get_ino_system_stat st) (om_flags openmode) (om_access openmode) false) in
      let sv := sv_set_table t sv in
      match handle with
      | None => open_failed sv inh None SSH_FX_FAILURE
      | Some e =>
          let! (fd, sv) := open_handle sv e path posix_flags in
          if fd =? -1 then open_failed sv inh (Some e) SSH_FX_FAILURE else send_sftp_handle sv inh e
      end
  end.

Definition sftp_op_open (sftp : sftp_subsystem) (sv : server) (inh : sftp_in_header) (data : bytes) : outcome server :=
  if 12 <=? inh_len inh then
    let! len := lift (uint32_at data 0) in
    let path := mk_buf (drop 4 data) len in
    let pos := u32 (4 + len) in
    if u32 (len + 12) <=? inh_len inh then
      let! access := lift (uint32_at data pos) in
      let! flags := lift (uint32_at data (u32 (pos + 4))) in
      let! location := lift (full_path sftp (ev_fill ev) path) in
      match translate_sftp2local (mk_openmode access flags) 0 with
      | None => answer_status sv inh SSH_FX_PERMISSION_DENIED
      | Some (openmode, posix_flags) =>
          if Z.land posix_flags (Z.lor O_CREAT O_EXCL) =? Z.lor O_CREAT O_EXCL then answer_status sv inh SSH_FX_OP_UNSUPPORTED
          else sftp_op_open_existing sftp sv inh location openmode posix_flags
      end
    else answer_status sv inh SSH_FX_BAD_MESSAGE
  else answer_status sv inh SSH_FX_BAD_MESSAGE.

(** The handle at the start of a request: the element and what is behind it, or
    the status to answer with. *)
Definition request_handle (sftp : sftp_subsystem) (sv : server) (data : bytes) : outcome (nat + Z) :=
  let! len := lift (uint32_at data 0) in
  if len =? get_fs_handle_buffer_size then
    let! (handle, _) := get_fs_handle hashtable (ev_fuel ev) (sv_table sv) (sf_unique sftp) (drop 4 data) len in
    match handle with Some e => Ret (inl e) | None => Ret (inr SSH_FX_INVALID_HANDLE) end
  else Ret (inr SSH_FX_INVALID_HANDLE).

(** The socket of a handle used as a file: the functions of a directory are of
    other types. *)
Definition file_fd (sv : server) (e : nat) : option Z :=
  let? h := ht_handles (sv_table sv) !! e in
  match so_type (fh_socket h) with SockFile => Some (so_fd (fh_socket h)) | SockDir => None end.

(** [eof] of a read: past the end, and up to it; 64 bit arithmetic. *)
Definition read_eof (os : OS) (fd size offset n : Z) : Z :=
  if n <? size then
    match sc_fstatx sys os fd SYSTEM_STAT_SIZE with
    | inr st =>
        let filesize := u64 (get_size_system_stat st) in
        if (filesize <? u64 (offset + size)) && (u64 (offset + n) =? filesize) then 1 else 0
    | inl _ => 0
    end
  else 0.

Definition sftp_op_read (sftp : sftp_subsystem) (sv : server) (inh : sftp_in_header) (data : bytes) : outcome server :=
  if get_fs_handle_buffer_size + 16 <=? inh_len inh then
    let! h := request_handle sftp sv data in
    match h with
    | inr status => answer_status sv inh status
    | inl e =>
        let! offset := lift (uint64_at data 24) in
        let! size := lift (uint32_at data 32) in
        if size <=? 16384 then
          let! fd := lift (file_fd sv e) in
          match sc_pread sys (sv_os sv) fd size (sgn 64 offset) with
          | inr got =>
              let! buffer := lift (mem_write (replicate (Z.to_nat size) (ev_fill ev)) 0 got) in
              answer sv (inh_id inh) (RData buffer (zlen got) (read_eof (sv_os sv) fd size offset (zlen got)))
          | inl errno => answer_status sv inh (translate_read_error errno)
          end
        else answer_status sv inh SSH_FX_BAD_MESSAGE
    end
  else answer_status sv inh SSH_FX_BAD_MESSAGE.

Definition sftp_op_write (sftp : sftp_subsystem) (sv : server) (inh : sftp_in_header) (data : bytes) : outcome server :=
  if get_fs_handle_buffer_size + 16 <=? inh_len inh then
    let! h := request_handle sftp sv data in
    match h with
    | inr status => answer_status sv inh status
    | inl e =>
        let! offset := lift (uint64_at data 24) in
        let! size := lift (uint32_at data 32) in
        if size =? 0 then answer_status sv inh SSH_FX_INVALID_PARAMETER else
        let! fd := lift (file_fd sv e) in
        let! d := lift (mem_read data 36 size) in
        let '((n, errno), os) := sc_pwrite sys (sv_os sv) fd d (sgn 64 offset) in
        let sv := sv_set_os os sv in
        if 0 <? n then answer_status sv inh SSH_FX_OK
        else answer_status sv inh (translate_write_error (if errno =? 0 then EIO else errno))
    end
  else answer_status sv inh SSH_FX_BAD_MESSAGE.

(** ** cb-close.c *)

Definition sftp_op_close (sftp : sftp_subsystem) (sv : server) (inh : sftp_in_header) (data : bytes) : outcome server :=
  if 4 + get_fs_handle_buffer_size <=? inh_len inh then
    let! h := request_handle sftp sv data in
    match h with
    | inr status => answer_status sv inh status
    | inl e => let! sv := release_handle sv (Some e) in answer_status sv inh SSH_FX_OK
    end
  else answer_status sv inh SSH_FX_BAD_MESSAGE.

(** ** cb-rm.c *)

(** Behind the reply of a removal the code runs into the label [error]. *)
Definition sftp_op_remove_common (sftp : sftp_subsystem) (sv : server) (inh : sftp_in_header) (data : bytes) (what : fsaction) : outcome server :=
  if 4 <=? inh_len inh then
    let! len := lift (uint32_at data 0) in
    if u32 (len + 4) <=? inh_len inh then
      let! location := lift (full_path sftp (ev_fill ev) (mk_buf (drop 4 data) len)) in
      let! (r, os) := lift (system_shared_fsaction (sv_os sv) location what) in
      let sv := sv_set_os os sv in
      if r =? -1 then answer_status sv inh SSH_FX_FAILURE
      else let! sv := answer_status sv inh SSH_FX_OK in answer_status sv inh SSH_FX_FAILURE
    else answer_status sv inh SSH_FX_BAD_MESSAGE
  else answer_status sv inh SSH_FX_BAD_MESSAGE.

Definition sftp_op_remove sftp sv inh data := sftp_op_remove_common sftp sv inh data Unlink.
Definition sftp_op_rmdir sftp sv inh data := sftp_op_remove_common sftp sv inh data Rmdir.

(** ** cb-readlink.c *)

Definition reply_sftp_readlink (sv : server) (id : Z) (target : fs_path) : outcome server :=
  let len := fs_path_get_length target in
  let! b := lift (fp_buffer target) in
  let! (name, pos) := lift (
    let? w := put_uint32 len (array (ev_fill ev) (u32 (4 + len + 5)) 0) in
    let? w := put_bytes (drop (Z.to_nat (fp_start target)) b) len w in
    put_bytes (replicate 5 0) 5 w) in
  answer sv id (RNames 1 name pos 1).

Definition link_error (result : Z) : Z :=
  let result := Z.abs result in
  if result =? ENOENT then SSH_FX_NO_SUCH_FILE
  else if result =? ENOTDIR then SSH_FX_NO_SUCH_PATH
  else if result =? EACCES then SSH_FX_PERMISSION_DENIED
  else SSH_FX_FAILURE.

(** What [readlink] finds for the copy of the path. *)
Definition link_of (os : OS) (path : fs_path) : option (Z + bytes) :=
  let size := fs_path_get_length path in
  let? (_, tmp) := fs_path_copy path (replicate (Z.to_nat (u32 (size + 1))) 0) size in
  let? name := cstring tmp in Some (sc_readlink sys os name).

Definition sftp_op_readlink (sftp : sftp_subsystem) (sv : server) (inh : sftp_in_header) (data : bytes) : outcome server :=
  if 4 <=? inh_len inh then
    let! len := lift (uint32_at data 0) in
    if u32 (len + 4) <=? inh_len inh then
      let! location := lift (full_path sftp (ev_fill ev) (mk_buf (drop 4 data) len)) in
      let! link := lift (link_of (sv_os sv) location) in
      let! (result, target) := fs_path_get_target_unix_symlink (ev_fuel ev) link (ev_alloc ev) location FS_PATH_INIT in
      if result =? 0 then reply_sftp_readlink sv (inh_id inh) target else answer_status sv inh (link_error result)
    else answer_status sv inh SSH_FX_BAD_MESSAGE
  else answer_status sv inh SSH_FX_BAD_MESSAGE.

(** ** cb-opendir.c *)

Definition HANDLE_FLAG_EOD := 32.

(** [sock->ops.type.dir.read_dentry] on the socket of a handle, and the mark of
    the end of the directory. *)
Definition first_dentry (sv : server) (e : nat) : outcome server :=
  let! h := lift (ht_handles (sv_table sv) !! e) in
  let '(result, _, sock, os) := read_dentry (sv_os sv) (fh_socket h) in
  let h := set_socket sock h in
  let h := if (result =? 0) || (result =? -1) then set_hflags (Z.lor (fh_flags h) HANDLE_FLAG_EOD) h else h in
  Ret (mk_server (mk_table (ht_store (sv_table sv)) (<[e := h]> (ht_handles (sv_table sv)))) os (sv_sent sv)).

Definition _sftp_op_opendir (sftp : sftp_subsystem) (sv : server) (inh : sftp_in_header) (location : fs_path) : outcome server :=
  let! r := lift (system_getstat (sv_os sv) location SYSTEM_STAT_BASIC_STATS) in
  match r with
  | inl errno => open_failed sv inh None (if errno =? ENOENT then SSH_FX_NO_SUCH_FILE else SSH_FX_FAILURE)
  | inr (st, maj, min) =>
      if negb (system_stat_test_ISDIR st) then open_failed sv inh None SSH_FX_NOT_A_DIRECTORY else
      let! (handle, t) := lift (sftp_create_fs_handle hashtable (sv_table sv) (ev_malloc ev) (init_fs_socket SockDir) (sf_unique sftp)
        (get_unique_system_dev maj min) (get_ino_system_stat st) 0 0 true) in
      let sv := sv_set_table t sv in
      match handle with
      | None => open_failed sv inh None SSH_FX_FAILURE
      | Some e =>
          let! (fd, sv) := open_handle sv e location 0 in
          if fd =? -1 then open_failed sv inh (Some e) SSH_FX_FAILURE
          else let! sv := first_dentry sv e in send_sftp_handle sv inh e
      end
  end.

(** Here the array of the path is cleared. *)
Definition sftp_op_opendir (sftp : sftp_subsystem) (sv : server) (inh : sftp_in_header) (data : bytes) : outcome server :=
  if 4 <=? inh_len inh then
    let! len := lift (uint32_at data 0) in
    if u32 (len + 4) <=? inh_len inh then
      let! location := lift (full_path sftp 0 (mk_buf (drop 4 data) len)) in
      _sftp_op_opendir sftp sv inh location
    else answer_status sv inh SSH_FX_BAD_MESSAGE
  else answer_status sv inh SSH_FX_BAD_MESSAGE.

(** ** init.c: the callbacks that are not modelled, extensions among them, are a parameter *)

Definition reply_sftp_notsupported (sftp : sftp_subsystem) (sv : server) (inh : sftp_in_header) (data : bytes) : outcome server :=
  answer_status sv inh SSH_FX_OP_UNSUPPORTED.

Inductive op := OpOpen | OpRead | OpWrite | OpClose | OpRemove | OpRmdir | OpReadlink | OpOpendir | OpUnsupported.

#[export] Instance op_eq_dec : EqDecision op.
Proof. solve_decision. Defined.

(** [init_sftp_subsystem]: the callback of each type that is modelled, and of
    the types that have none. *)
Definition cb (type : Z) : option op :=
  if type =? SSH_FXP_OPENDIR then Some OpOpendir
  else if type =? SSH_FXP_CLOSE then Some OpClose
  else if type =? SSH_FXP_OPEN then Some OpOpen
  else if type =? SSH_FXP_READ then Some OpRead
  else if type =? SSH_FXP_WRITE then Some OpWrite
  else if type =? SSH_FXP_READLINK then Some OpReadlink
  else if type =? SSH_FXP_REMOVE then Some OpRemove
  else if type =? SSH_FXP_RMDIR then Some OpRmdir
  else if bool_decide (type ∈ [SSH_FXP_READDIR; SSH_FXP_LSTAT; SSH_FXP_STAT; SSH_FXP_FSTAT; SSH_FXP_MKDIR; SSH_FXP_EXTENDED]) then None
  else Some OpUnsupported.

Definition run_op (o : op) : sftp_subsystem -> server -> sftp_in_header -> bytes -> outcome server :=
  match o with
  | OpOpen => sftp_op_open
  | OpRead => sftp_op_read
  | OpWrite => sftp_op_write
  | OpClose => sftp_op_close
  | OpRemove => sftp_op_remove
  | OpRmdir => sftp_op_rmdir
  | OpReadlink => sftp_op_readlink
  | OpOpendir => sftp_op_opendir
  | OpUnsupported => reply_sftp_notsupported
  end.

(** receive.c *)
Definition process_sftp_data (sftp : sftp_subsystem) (sv : server) (inh : sftp_in_header) (data : bytes) : option (outcome server) :=
  let? o := cb (inh_type inh) in Some (run_op o sftp sv inh data).

(** ** The invariant of the server *)

(** A handle is what its type says, and its key fits its string. *)
Definition wf_handle (h : fs_handle fs_socket) : Prop :=
  wf_key (key_of h) /\
  (fh_type h = FS_HANDLE_TYPE_FILE /\ so_type (fh_socket h) = SockFile \/ fh_type h = FS_HANDLE_TYPE_DIR /\ so_type (fh_socket h) = SockDir).

Definition wf_server (sv : server) (A : gmap nat (list nat)) : Prop :=
  wf_handles hashtable (sv_table sv) A /\ forall e h, ht_handles (sv_table sv) !! e = Some h -> wf_handle h.

(** What the system documents of an inode number, and what [malloc] gives. *)
Definition statx_ok : Prop := forall os name flags mask st maj min, sc_statx sys os name flags mask = inr (st, maj, min) -> is_u64 (sst_ino st).

Definition malloc_ok (sv : server) (A : gmap nat (list nat)) : Prop :=
  forall e, ev_malloc ev = Some e -> fresh (sv_table sv) A e.

(** The replies [rs] to request [id] have been added. *)
Definition replied (id : Z) (sv sv' : server) (rs : list reply) : Prop :=
  exists ds, Forall2 (fun r d => send_reply (ev_fill ev) id r = Some d) rs ds /\ sv_sent sv' = sv_sent sv ++ ds.

(** If [m] returns, its result satisfies [Q]. *)
Definition ensures {X} (m : outcome X) (Q : X -> Prop) : Prop := forall x, m = Ret x -> Q x.

Lemma ensures_ret {X} (x : X) (Q : X -> Prop) : Q x -> ensures (Ret x) Q.
Proof. by intros ? y [= <-]. Qed.

Lemma ensures_bind {X Y} (m : outcome X) (k : X -> outcome Y) (P : X -> Prop) Q :
  ensures m P -> (forall x, P x -> ensures (k x) Q) -> ensures (outcome_bind m k) Q.
Proof. intros Hm Hk y. destruct m as [x| |]; [| done | done]. apply Hk. by apply Hm. Qed.

Lemma ensures_let {X Y} (m : outcome X) (k : X -> outcome Y) Q : (forall x, m = Ret x -> ensures (k x) Q) -> ensures (outcome_bind m k) Q.
Proof. intros Hk. apply (ensures_bind m k (fun x => m = Ret x)); [by intros x | exact Hk]. Qed.

Lemma lift_Ret {X} (m : option X) x : lift m = Ret x -> m = Some x.
Proof. destruct m; [by intros [= ->] | done]. Qed.

(** A handler has kept the invariant and replied [n] times. *)
Definition step_ok (sv : server) (id : Z) (P : nat -> Prop) (sv' : server) : Prop :=
  (exists A', wf_server sv' A') /\ exists rs, replied id sv sv' rs /\ P (length rs).

Lemma answer_ensures sv0 sv A id r rs (P : nat -> Prop) :
  wf_server sv A -> replied id sv0 sv rs -> P (1 + length rs)%nat -> ensures (answer sv id r) (step_ok sv0 id P).
Proof.
  intros Hwf (ds & Hf & Hs) HP. unfold answer. apply ensures_let. intros d Hd%lift_Ret. apply ensures_ret. split; [by exists A |].
  exists (rs ++ [r]). split; [| rewrite length_app; cbn [length]; by replace (length rs + 1)%nat with (1 + length rs)%nat by lia].
  exists (ds ++ [d]). split; [| unfold send_sftp_subsystem; cbn [sv_sent]; by rewrite Hs, app_assoc].
  apply Forall2_app; [done |]. by constructor.
Qed.

Lemma replied_refl id sv : replied id sv sv [].
Proof. exists []. by rewrite app_nil_r. Qed.

Lemma replied_same id sv0 sv sv' rs : replied id sv0 sv rs -> sv_sent sv' = sv_sent sv -> replied id sv0 sv' rs.
Proof. intros (ds & ? & E) E'. exists ds. by rewrite E', E. Qed.

Lemma status_ensures sv A inh status : wf_server sv A -> ensures (answer_status sv inh status) (step_ok sv (inh_id inh) (eq 1%nat)).
Proof. intros Hwf. by apply (answer_ensures sv sv A _ _ []); [| apply replied_refl |]. Qed.

Lemma release_ensures sv A e :
  wf_server sv A -> ensures (release_handle sv e) (fun sv' => (exists A', wf_server sv' A') /\ sv_sent sv' = sv_sent sv).
Proof.
  intros [Hwf Hh]. unfold release_handle. apply ensures_let. intros [sock t] E%lift_Ret. apply ensures_ret. split; [| done].
  destruct e as [e|]; [| injection E as <- <-; by exists A]. destruct (ht_handles (sv_table sv) !! e) as [h|] eqn:Eh.
  - destruct (free_spec hashtable (sv_table sv) A e h Hwf Eh) as (t' & A' & E' & Hwf' & Hd & _). rewrite E in E'. injection E' as -> ->.
    exists A'. split; [done |]. cbn [sv_table]. intros f g Hg. rewrite Hd in Hg. apply lookup_delete_Some in Hg as [_ Hg]. by apply (Hh f).
  - unfold free_fs_handle in E. by rewrite Eh in E.
Qed.

Lemma open_failed_ensures sv0 sv A inh e status :
  wf_server sv A -> sv_sent sv = sv_sent sv0 -> ensures (open_failed sv inh e status) (step_ok sv0 (inh_id inh) (eq 1%nat)).
Proof.
  intros Hwf Hs. unfold open_failed. eapply ensures_bind; [by apply (release_ensures sv A) |]. intros sv' [(A' & Hwf') Hs'].
  apply (answer_ensures sv0 sv' A' _ _ []); [done | | done]. apply (replied_same _ _ sv0); [apply replied_refl | congruence].
Qed.

(** Changing a handle in place, its key and its kind kept. *)
Lemma wf_change_handle sv A e h h' os sent :
  wf_server sv A -> ht_handles (sv_table sv) !! e = Some h -> key_of h' = key_of h -> wf_handle h' ->
  wf_server (mk_server (mk_table (ht_store (sv_table sv)) (<[e := h']> (ht_handles (sv_table sv)))) os sent) A.
Proof.
  intros [Hwf Hh] He Hk Hh'. split; cbn [sv_table].
  - constructor; cbn [ht_store ht_handles]; [apply Hwf | |].
    + intros i Hi. destruct (wh_rows _ _ _ Hwf i Hi) as (l & Hl & Hf). exists l. split; [done |]. apply (Forall_impl _ _ _ Hf).
      intros f (g & Hg & Hgi). destruct (decide (f = e)) as [->|Hne].
      * exists h'. cbn. rewrite lookup_insert_eq. split; [done |]. rewrite He in Hg. injection Hg as <-. unfold key_of in Hk. by injection Hk as _ _ ->.
      * exists g. cbn. by rewrite lookup_insert_ne.
    + intros f Hf. apply (wh_listed _ _ _ Hwf). destruct (decide (f = e)) as [->|Hne]; [by eexists | by rewrite lookup_insert_ne in Hf].
  - intros f g. cbn. rewrite lookup_insert. case_decide; [by intros [= <-] | apply Hh].
Qed.

Lemma socket_open_type os path sock flags fd sock' os' : fs_socket_open os path sock flags = Some (fd, sock', os') -> so_type sock' = so_type sock.
Proof.
  unfold fs_socket_open. destruct (fs_path_get_length path =? 0); [by intros [= _ <- _] |].
  set (tmp := fs_path_copy _ _ _). destruct (so_type sock) eqn:Et.
  - destruct (has flags O_DIRECTORY); [by intros [= _ <- _] |]. destruct tmp as [[n t]|]; [| done]. opt.
    destruct (cstring t); [| done]. opt. destruct (sc_open _ _ _ _) as [[] ?]; by intros [= _ <- _].
  - destruct tmp as [[n t]|]; [| done]. opt. destruct (cstring t); [| done]. opt. destruct (sc_open _ _ _ _) as [[] ?]; by intros [= _ <- _].
Qed.

Lemma open_handle_ensures sv A e h path flags :
  wf_server sv A -> ht_handles (sv_table sv) !! e = Some h ->
  ensures (open_handle sv e path flags) (fun r => wf_server r.2 A /\ sv_sent r.2 = sv_sent sv /\ is_Some (ht_handles (sv_table r.2) !! e)).
Proof.
  intros Hwf He. unfold open_handle. rewrite He. cbn [lift outcome_bind]. apply ensures_let. intros [[fd sock] os] E%lift_Ret.
  apply ensures_ret. cbn [snd sv_sent sv_table ht_handles]. rewrite lookup_insert_eq. split; [| by eauto].
  destruct (proj2 Hwf e h He) as [Hk Ht]. apply (wf_change_handle sv A e h); [done | done | done |].
  split; [done |]. apply socket_open_type in E. cbn. by rewrite E.
Qed.

Lemma read_dentry_type os s : so_type (read_dentry os s).1.2 = so_type s.
Proof.
  unfold read_dentry. set (b := _ && _). destruct b; [done |]. destruct (dd_left (so_dir s)) as [|d ds]; [| done].
  destruct (sc_getdents sys os (so_fd s)) as [[?|[|? ?]] ?]; done.
Qed.

Lemma first_dentry_ensures sv A e :
  wf_server sv A -> ensures (first_dentry sv e) (fun sv' => wf_server sv' A /\ sv_sent sv' = sv_sent sv /\ is_Some (ht_handles (sv_table sv') !! e)).
Proof.
  intros Hwf. unfold first_dentry. apply ensures_let. intros h He%lift_Ret. destruct (proj2 Hwf e h He) as [Hk Ht].
  pose proof (read_dentry_type (sv_os sv) (fh_socket h)) as Hd. destruct (read_dentry _ _) as [[[r d] sock] os]. cbn in Hd.
  apply ensures_ret. cbn [sv_sent sv_table ht_handles]. rewrite lookup_insert_eq. split; [| by eauto].
  set (h' := if (r =? 0) || (r =? -1) then _ else _). assert (key_of h' = key_of h /\ fh_type h' = fh_type h /\ fh_socket h' = sock) as (Ek & Et & Es)
    by (unfold h'; by destruct ((r =? 0) || (r =? -1))).
  apply (wf_change_handle sv A e h); [done | done | done |]. split; [by rewrite Ek | by rewrite Et, Es, Hd].
Qed.

Lemma send_handle_ensures sv0 sv A inh e :
  wf_server sv A -> sv_sent sv = sv_sent sv0 -> ensures (send_sftp_handle sv inh e) (step_ok sv0 (inh_id inh) (eq 1%nat)).
Proof.
  intros Hwf Hs. unfold send_sftp_handle. apply ensures_let. intros h _. apply ensures_let. intros [size buffer] _.
  apply (answer_ensures sv0 sv A _ _ []); [done | | done]. apply (replied_same _ _ sv0); [apply replied_refl | done].
Qed.

(** A handle is made for what [statx] found. *)
Lemma create_ensures (sftp : sftp_subsystem) sv A st maj min flags access (dir : bool) os name fl mask :
  wf_server sv A -> malloc_ok sv A -> (forall h l, A !! h = Some l -> is_u64 (zlen l + 1)) -> statx_ok -> is_u32 (sf_unique sftp) ->
  sc_statx sys os name fl mask = inr (st, maj, min) ->
  ensures (lift (sftp_create_fs_handle hashtable (sv_table sv) (ev_malloc ev) (init_fs_socket (if dir then SockDir else SockFile)) (sf_unique sftp)
        (get_unique_system_dev maj min) (get_ino_system_stat st) flags access dir))
    (fun r => exists A', wf_server (sv_set_table r.2 sv) A' /\ (forall e, r.1 = Some e -> is_Some (ht_handles r.2 !! e))).
Proof.
  intros [Hwf Hh] Hm Hb Hst Hu Es [handle t] E%lift_Ret. destruct (ev_malloc ev) as [e|] eqn:Em.
  - destruct (create_spec hashtable (sv_table sv) A e (init_fs_socket (if dir then SockDir else SockFile)) (sf_unique sftp)
      (get_unique_system_dev maj min) (get_ino_system_stat st) flags access dir Hwf (Hm e Em) Hb) as (t' & A' & E' & Hwf' & Hd & _).
    rewrite E in E'. injection E' as -> ->. exists A'. split; [split; [done |] |].
    + cbn [sv_table sv_set_table snd fst]. intros f g. rewrite Hd, lookup_insert. case_decide; [| apply Hh]. intros [= <-].
      split; [| destruct dir; [by right | by left]]. pose proof (u32_range (makedev maj min)). unfold get_unique_system_dev.
      repeat split; cbn; try apply Hu; unfold is_u32 in *; try lia; apply (Hst _ _ _ _ _ _ _ Es).
    + cbn. intros f [= <-]. rewrite Hd, lookup_insert_eq. by eexists.
  - injection E as <- <-. exists A. by split.
Qed.

Section Steps.
Context (sftp : sftp_subsystem) (sv : server) (A : gmap nat (list nat)) (inh : sftp_in_header).
Context (Hwf : wf_server sv A) (Hm : malloc_ok sv A) (Hb : forall h l, A !! h = Some l -> is_u64 (zlen l + 1)) (Hst : statx_ok)
  (Hu : is_u32 (sf_unique sftp)).

Abbreviation one := (step_ok sv (inh_id inh) (eq 1%nat)).

Lemma status_one status : ensures (answer_status sv inh status) one.
Proof. by apply (status_ensures sv A). Qed.

Lemma open_existing_ensures path openmode flags : ensures (sftp_op_open_existing sftp sv inh path openmode flags) one.
Proof.
  unfold sftp_op_open_existing. apply ensures_let. intros r Er%lift_Ret. destruct r as [errno | [[st maj] min]]; [by apply (open_failed_ensures sv sv A) |].
  destruct (system_stat_test_ISDIR st); [by apply (open_failed_ensures sv sv A) |].
  unfold system_getstat in Er. destruct (fp_buffer path) as [b|]; [| done]. cbn [mbind option_bind] in Er. destruct (cstring _) as [nm|]; [| done].
  cbn [mbind option_bind] in Er. injection Er as Er.
  eapply ensures_bind; [by apply (create_ensures sftp sv A st maj min _ _ false _ _ _ _ Hwf Hm Hb Hst Hu Er) |].
  intros [handle t] (A' & Hwf' & Hin). cbn [fst snd] in *. destruct handle as [e|]; [| by apply (open_failed_ensures sv (sv_set_table t sv) A')].
  destruct (Hin e eq_refl) as [h Hh]. eapply ensures_bind; [by apply (open_handle_ensures (sv_set_table t sv) A' e h) |].
  intros [fd sv'] (Hwf'' & Hs & _). cbn [snd] in *. destruct (fd =? -1); [by apply (open_failed_ensures sv sv' A') | by apply (send_handle_ensures sv sv' A')].
Qed.

Lemma opendir_ensures path : ensures (_sftp_op_opendir sftp sv inh path) one.
Proof.
  unfold _sftp_op_opendir. apply ensures_let. intros r Er%lift_Ret. destruct r as [errno | [[st maj] min]]; [by apply (open_failed_ensures sv sv A) |].
  destruct (negb (system_stat_test_ISDIR st)); [by apply (open_failed_ensures sv sv A) |].
  unfold system_getstat in Er. destruct (fp_buffer path) as [b|]; [| done]. cbn [mbind option_bind] in Er. destruct (cstring _) as [nm|]; [| done].
  cbn [mbind option_bind] in Er. injection Er as Er.
  eapply ensures_bind; [by apply (create_ensures sftp sv A st maj min _ _ true _ _ _ _ Hwf Hm Hb Hst Hu Er) |].
  intros [handle t] (A' & Hwf' & Hin). cbn [fst snd] in *. destruct handle as [e|]; [| by apply (open_failed_ensures sv (sv_set_table t sv) A')].
  destruct (Hin e eq_refl) as [h Hh]. eapply ensures_bind; [by apply (open_handle_ensures (sv_set_table t sv) A' e h) |].
  intros [fd sv'] (Hwf'' & Hs & _). cbn [snd] in *. destruct (fd =? -1); [by apply (open_failed_ensures sv sv' A') |].
  eapply ensures_bind; [by apply (first_dentry_ensures sv' A') |]. intros sv2 (Hwf2 & Hs2 & _).
  apply (send_handle_ensures sv sv2 A'); [done | by rewrite Hs2, Hs].
Qed.

Lemma wf_set_os os : wf_server (sv_set_os os sv) A.
Proof. exact Hwf. Qed.

Lemma answered_after sv' r : wf_server sv' A -> sv_sent sv' = sv_sent sv -> ensures (answer sv' (inh_id inh) r) one.
Proof. intros Hwf' Hs. apply (answer_ensures sv sv' A _ _ []); [done | | done]. apply (replied_same _ _ sv); [apply replied_refl | done]. Qed.

#[local] Hint Resolve status_one open_existing_ensures opendir_ensures : server.
#[local] Hint Extern 1 (ensures (answer _ _ _) _) => apply answered_after; done : server.
#[local] Hint Extern 1 (ensures (answer_status _ _ _) _) => apply answered_after; done : server.

(** The branches of a handler one by one. *)
Ltac handler :=
  repeat first
    [ progress auto with server
    | lazymatch goal with
      | |- ensures (outcome_bind _ _) _ => apply ensures_let; intros ? ?
      | |- ensures (match ?x with _ => _ end) _ => destruct x
      end ].

Lemma step_one o data : o <> OpRemove -> o <> OpRmdir -> ensures (run_op o sftp sv inh data) one.
Proof.
  destruct o; intros; try done; cbn [run_op].
  - unfold sftp_op_open. handler.
  - unfold sftp_op_read. handler.
  - unfold sftp_op_write. handler.
  - unfold sftp_op_close. destruct (_ <=? _); [| auto with server]. apply ensures_let. intros [e|status] _; [| auto with server].
    eapply ensures_bind; [by apply (release_ensures sv A) |]. intros sv' [(A' & Hwf') Hs].
    apply (answer_ensures sv sv' A' _ _ []); [done | | done]. apply (replied_same _ _ sv); [apply replied_refl | done].
  - unfold sftp_op_readlink, reply_sftp_readlink. handler.
  - unfold sftp_op_opendir. handler.
  - unfold reply_sftp_notsupported. handler.
Qed.

Lemma step_remove data what :
  ensures (sftp_op_remove_common sftp sv inh data what) (step_ok sv (inh_id inh) (fun n => n = 1%nat \/ n = 2%nat)).
Proof.
  assert (forall m, ensures m one -> ensures m (step_ok sv (inh_id inh) (fun n => n = 1%nat \/ n = 2%nat))) as Hone.
  { intros m H sv' E. destruct (H sv' E) as (? & rs & ? & Hn). split; [done |]. exists rs. auto. }
  unfold sftp_op_remove_common. destruct (_ <=? _); [| apply Hone; auto with server]. apply ensures_let. intros len _.
  destruct (_ <=? _); [| apply Hone; auto with server]. apply ensures_let. intros location _. apply ensures_let. intros [r os] _.
  destruct (r =? -1); [apply Hone, answered_after; done |].
  eapply ensures_bind; [by apply (answered_after (sv_set_os os sv)) |]. intros sv' ((A' & Hwf') & rs & Hr & Hn).
  apply (answer_ensures sv sv' A' _ _ rs); [done | done | right; lia].
Qed.

End Steps.

(** every request of this file keeps the invariant of the server: each
    handle is in the list of its inode, its type agrees with its socket and its
    key fits its name on the wire.  It is answered under its own id, with one
    reply, or, a removal, with one or two; nothing written before is lost. *)
Theorem server_invariant (o : op) (sftp : sftp_subsystem) (sv sv' : server) (A : gmap nat (list nat)) (fuel : nat) (inh : sftp_in_header) (data : bytes) :
  wf_server sv A -> malloc_ok sv A -> bounded A fuel -> statx_ok -> is_u32 (sf_unique sftp) ->
  run_op o sftp sv inh data = Ret sv' ->
  (exists A', wf_server sv' A') /\
  exists rs, replied (inh_id inh) sv sv' rs /\ (length rs = 1%nat \/ length rs = 2%nat /\ (o = OpRemove \/ o = OpRmdir)).
Proof.
  intros Hwf Hm [_ Hb] Hst Hu E. destruct (decide (o = OpRemove \/ o = OpRmdir)) as [Ho|Ho].
  - assert (exists what, run_op o sftp sv inh data = sftp_op_remove_common sftp sv inh data what) as [what Ew] by (destruct Ho as [-> | ->]; by eexists).
    rewrite Ew in E. destruct (step_remove sftp sv A inh Hwf data what sv' E) as (? & rs & ? & ?). split; [done |]. exists rs. naive_solver.
  - destruct (step_one sftp sv A inh Hwf Hm Hb Hst Hu o data) with (x := sv') as (? & rs & ? & Hn); [naive_solver | naive_solver | done |].
    split; [done |]. exists rs. naive_solver.
Qed.

(** ** Completed paths *)

(** A path of the bytes [q] in a buffer with [r] more bytes, which hold [fill]. *)
Definition filled (q : bytes) (r fill : Z) : fs_path :=
  mk_path 0 0 (zlen q + r) 0 (zlen q) (Some (q ++ replicate (Z.to_nat r) fill)).

Lemma path_append_spec q r fill s :
  wf_buf s -> b_len s < r -> is_u32 (zlen q + r) ->
  fs_path_append_raw ReallocNull (filled q r fill) (b_ptr s) (b_len s) = Some (b_len s, filled (q ++ str s) (r - b_len s) fill).
Proof.
  intros Hs Hl Hu. pose proof (zlen_str s Hs) as Hz. destruct Hs as [Hs1 Hs2]. pose proof (zlen_nonneg q). unfold is_u32 in Hu.
  unfold fs_path_append_raw, filled. cbn [fp_buffer fp_start fp_len fp_size fp_flags]. opt.
  replace (zlen q + r - 0 - zlen q) with r by lia. rewrite (u32_id r) by (unfold is_u32; lia). rewrite (proj2 (Z.leb_gt r _) Hl).
  rewrite mem_read_Some by lia. opt. rewrite drop_0. change (take _ (b_ptr s)) with (str s).
  assert (mem_write (q ++ replicate (Z.to_nat r) fill) (0 + zlen q) (str s)
    = Some ((q ++ str s) ++ replicate (Z.to_nat (r - b_len s)) fill)) as ->.
  { rewrite mem_write_Some by (rewrite ?zlen_app, ?zlen_replicate; lia). f_equal.
    replace (Z.to_nat (0 + zlen q)) with (length q) by (unfold zlen; lia).
    rewrite take_app_length, drop_app_add, drop_replicate, app_assoc. do 2 f_equal. unfold zlen in Hz. lia. }
  opt. rewrite u32_id by (unfold is_u32; lia). unfold set_len, set_buffer. cbn [fp_flags fp_back fp_size fp_start].
  do 3 f_equal; rewrite ?zlen_app, ?Hz; lia.
Qed.

Definition slash_buf : buf := mk_buf [slash; 0] 1.

(** The path on the server for a path in a request. *)
Definition fullpath (sftp : sftp_subsystem) (path : bytes) : bytes :=
  match path, sf_get_length sftp with
  | c :: _, NoPrefix => if c =? slash then path else str (sf_home sftp) ++ [slash] ++ path
  | c :: _, Prefix => if c =? slash then str (sf_prefix sftp) ++ [slash] ++ path else str (sf_home sftp) ++ [slash] ++ path
  | [], _ => str (sf_home sftp) ++ [slash] ++ path
  end.

Definition wf_sftp (sftp : sftp_subsystem) : Prop := is_u32 (sf_unique sftp) /\ wf_buf (sf_home sftp) /\ wf_buf (sf_prefix sftp).

Lemma append_with q path fill n :
  wf_buf q -> wf_buf path -> n = b_len path + 1 + b_len q + 1 -> is_u32 n ->
  (let? l := path_append (filled [] n fill) q in path_append_shared path l) = Some (filled (str q ++ [slash] ++ str path) 1 fill).
Proof.
  intros Hq Hp -> Hu. pose proof (zlen_str q Hq). pose proof (zlen_str path Hp). pose proof Hq as [? _]. pose proof Hp as [? _]. unfold is_u32 in Hu.
  unfold path_append_shared, path_append. rewrite path_append_spec by (done || change (zlen []) with 0; unfold is_u32; lia). opt. rewrite app_nil_l.
  assert (wf_buf slash_buf) as Hb by (split; unfold zlen; cbn; lia). change (mk_buf [slash; 0] 1) with slash_buf.
  rewrite (path_append_spec _ _ _ slash_buf) by (done || cbn [b_len slash_buf]; unfold is_u32; lia). opt. change (str slash_buf) with [slash].
  rewrite path_append_spec by (done || cbn [b_len slash_buf]; rewrite ?zlen_app; change (zlen [slash]) with 1; unfold is_u32; lia). opt.
  cbn [b_len slash_buf]. rewrite <- app_assoc. do 2 f_equal. lia.
Qed.

Definition absolute (path : bytes) : bool := match path with c :: _ => c =? slash | [] => false end.

Lemma starts_slash_spec path : wf_buf path -> starts_slash path = Some (absolute (str path)).
Proof.
  intros [Hp1 Hp2]. unfold starts_slash, str. destruct (Z.ltb_spec 0 (b_len path)) as [Hl|Hl].
  - destruct (b_ptr path) as [|c p]; [change (zlen []) with 0 in Hp2; lia |]. cbn [lookup list_lookup]. opt.
    by replace (Z.to_nat (b_len path)) with (Datatypes.S (Z.to_nat (b_len path - 1))) by lia.
  - by replace (b_len path) with 0 by lia.
Qed.

Lemma fullpath_cases sftp path : fullpath sftp path =
  if absolute path then match sf_get_length sftp with NoPrefix => path | Prefix => str (sf_prefix sftp) ++ [slash] ++ path end
  else str (sf_home sftp) ++ [slash] ++ path.
Proof. unfold fullpath, absolute. destruct path; [done |]. by destruct (sf_get_length sftp). Qed.

Lemma full_path_spec sftp fill path :
  wf_sftp sftp -> wf_buf path -> is_u32 (b_len path + 2 + b_len (sf_home sftp) + b_len (sf_prefix sftp)) ->
  full_path sftp fill path = Some (filled (fullpath sftp (str path)) 1 fill).
Proof.
  intros (_ & Hh & Hx) Hp Hu. pose proof (zlen_str path Hp) as Hz. pose proof Hh as [? _]. pose proof Hx as [? _]. pose proof Hp as [? _]. unfold is_u32 in Hu.
  assert (forall n, fs_path_assign_buffer (Some (replicate (Z.to_nat n) fill)) n = filled [] n fill) as Ea by (intros n; unfold filled; by rewrite app_nil_l).
  assert (forall q, wf_buf q -> is_u32 (b_len path + 1 + b_len q + 1) ->
    (let? l := path_append (fs_path_assign_buffer (Some (replicate (Z.to_nat (u32 (u32 (b_len path + 1 + b_len q) + 1))) fill))
        (u32 (u32 (b_len path + 1 + b_len q) + 1))) q in path_append_shared path l)
      = Some (filled (str q ++ [slash] ++ str path) 1 fill)) as Hw.
  { intros q Hq Hn. unfold is_u32 in Hn. pose proof Hq as [? _]. rewrite (u32_id (b_len path + 1 + b_len q)) by (unfold is_u32; lia).
    rewrite u32_id by done. rewrite Ea. by apply append_with. }
  rewrite fullpath_cases. unfold full_path, get_length_fullpath, get_length_fullpath_noprefix, get_length_fullpath_prefix.
  destruct (sf_get_length sftp); rewrite starts_slash_spec by done; destruct (absolute (str path)); opt; cbn [complete].
  - unfold path_append_none, fs_path_append. rewrite Ea. cbn [fp_buffer filled arg_view]. opt.
    rewrite u32_id by (unfold is_u32; lia). rewrite path_append_spec; [| done | lia | change (zlen []) with 0; unfold is_u32; lia]. opt.
    rewrite app_nil_l. do 2 f_equal. lia.
  - apply Hw; [done | unfold is_u32; lia].
  - apply Hw; [done | unfold is_u32; lia].
  - apply Hw; [done | unfold is_u32; lia].
Qed.

(** What the system sees of it. *)
Lemma copy_filled q r fill d : zlen d = zlen q + 1 -> fs_path_copy (filled q r fill) d (zlen q) = Some (zlen q, q ++ drop (length q) d).
Proof.
  intros Hd. unfold fs_path_copy, filled. cbn [fp_buffer fp_len fp_start]. rewrite Z.leb_refl. pose proof (zlen_nonneg q).
  rewrite mem_read_Some by (rewrite ?zlen_app; pose proof (zlen_nonneg (replicate (Z.to_nat r) fill)); lia). opt.
  rewrite drop_0. replace (Z.to_nat (zlen q)) with (length q) by (unfold zlen; lia). rewrite take_app_length, mem_write_Some by lia. opt. done.
Qed.

Lemma copy_zeros q r fill :
  is_u32 (zlen q + 1) -> fs_path_copy (filled q r fill) (replicate (Z.to_nat (u32 (zlen q + 1))) 0) (zlen q) = Some (zlen q, q ++ [0]).
Proof.
  intros Hu. rewrite u32_id by done. pose proof (zlen_nonneg q). rewrite copy_filled by (rewrite zlen_replicate; lia).
  rewrite drop_replicate. do 2 f_equal. f_equal. replace (Z.to_nat (zlen q + 1) - length q)%nat with 1%nat by (unfold zlen; lia). done.
Qed.

Lemma system_getstat_spec os q mask : no_nul q ->
  system_getstat os (filled q 1 0) mask = Some (sc_statx sys os q AT_STATX_SYNC_AS_STAT (if mask =? 0 then SYSTEM_STAT_ALL else mask)).
Proof. intros Hq. unfold system_getstat, filled. cbn [fp_buffer fp_start]. opt. rewrite drop_0. change (replicate (Z.to_nat 1) 0) with [0]. by rewrite (cstring_app q []). Qed.

Lemma socket_open_spec os q r fill sock flags : no_nul q -> 0 < zlen q -> is_u32 (zlen q + 1) ->
  fs_socket_open os (filled q r fill) sock flags =
    let opened fl s := match sc_open sys os q fl with
      | (inl _, os) => Some (-1, s, os)
      | (inr fd, os) => Some (fd, mk_socket (so_type sock) fd (so_dir s), os) end in
    match so_type sock with
    | SockFile => if has flags O_DIRECTORY then Some (-1, sock, os) else opened flags sock
    | SockDir => opened (Z.lor flags O_DIRECTORY) (mk_socket SockDir (so_fd sock) DIR_INIT)
    end.
Proof.
  intros Hq Hl Hu. unfold fs_socket_open. change (fs_path_get_length (filled q r fill)) with (zlen q).
  destruct (Z.eqb_spec (zlen q) 0); [lia |]. rewrite copy_zeros by done. opt. rewrite cstring_app by done. opt.
  destruct (so_type sock); [| done]. by destruct (has flags O_DIRECTORY).
Qed.

(** ** What the handlers do *)

Definition reply_bytes (id : Z) (r : reply) : bytes := frame (message_type (reply_message r)) id (message_payload (reply_message r)).

(** [sv] with a reply written. *)
Definition with_reply (sv : server) (inh : sftp_in_header) (r : reply) : server := send_sftp_subsystem sv (reply_bytes (inh_id inh) r).

Lemma server_answer sv inh r : wf_reply r -> answer sv (inh_id inh) r = Ret (with_reply sv inh r).
Proof. intros Hr. unfold answer. by rewrite send_reply_frame. Qed.

Lemma status_spec sv inh status : is_u32 status -> answer_status sv inh status = Ret (with_reply sv inh (RStatus status)).
Proof. apply (server_answer sv inh (RStatus status)). Qed.

Lemma answer_handle sv inh h e : ht_handles (sv_table sv) !! e = Some h ->
  send_sftp_handle sv inh e = Ret (with_reply sv inh (RHandle (string_of h) 20)).
Proof.
  intros He. unfold send_sftp_handle. rewrite He. cbn [lift outcome_bind]. unfold get_fs_handle_buffer_size.
  rewrite write_handle_spec by (rewrite ?zlen_replicate; lia). cbn [lift outcome_bind].
  change (drop 20 (replicate (Z.to_nat 20) (ev_fill ev))) with (@nil Z). rewrite app_nil_r.
  apply server_answer. split; [| by unfold is_u32]. unfold string_of. rewrite zlen_handle_string. lia.
Qed.

(** Fields of a request: a string in front, and numbers behind it. *)
Lemma string_field s rest : is_u32 (zlen s) ->
  uint32_at (encode_string s ++ rest) 0 = Some (zlen s) /\ drop 4 (encode_string s ++ rest) = s ++ rest.
Proof.
  intros Hs. unfold encode_string. rewrite <- app_assoc. split; [by apply uint32_at_0 |].
  by rewrite (drop_app_length' _ _ 4) by (by rewrite length_be_encode).
Qed.

Lemma field32 s v rest pos : is_u32 v -> zlen s = pos -> uint32_at (s ++ be_encode 4 v ++ rest) pos = Some v.
Proof. intros. by apply uint32_at_app. Qed.

Lemma str_front s rest : str (mk_buf (s ++ rest) (zlen s)) = s /\ wf_buf (mk_buf (s ++ rest) (zlen s)).
Proof.
  unfold str, wf_buf. cbn [b_ptr b_len]. rewrite zlen_app. pose proof (zlen_nonneg s). pose proof (zlen_nonneg rest).
  split; [| lia]. replace (Z.to_nat (zlen s)) with (length s) by (unfold zlen; lia). apply take_app_length.
Qed.

Lemma fullpath_pos sftp path : 0 < zlen (fullpath sftp path).
Proof.
  rewrite fullpath_cases. assert (forall q, 0 < zlen (str q ++ [slash] ++ path)) as H.
  { intros q. rewrite !zlen_app. change (zlen [slash]) with 1. pose proof (zlen_nonneg (str q)). pose proof (zlen_nonneg path). lia. }
  destruct (absolute path) eqn:Ea; [| done]. destruct (sf_get_length sftp); [| done].
  destruct path; [done |]. rewrite zlen_cons. pose proof (zlen_nonneg path). lia.
Qed.

(** The size of the buffer for a path, in 32 bits. *)
Definition path_fits (sftp : sftp_subsystem) (path : bytes) : Prop := is_u32 (zlen path + 12 + b_len (sf_home sftp) + b_len (sf_prefix sftp)).

Lemma fullpath_fits sftp path : wf_sftp sftp -> path_fits sftp path -> is_u32 (zlen (fullpath sftp path) + 1).
Proof.
  intros (_ & Hh & Hx) Hf. unfold path_fits, is_u32 in *. pose proof (zlen_nonneg (fullpath sftp path)).
  pose proof (zlen_str _ Hh). pose proof (zlen_str _ Hx). destruct Hh, Hx. pose proof (zlen_nonneg path).
  rewrite fullpath_cases in *. destruct (absolute path); [destruct (sf_get_length sftp) |]; rewrite ?zlen_app in *; change (zlen [slash]) with 1 in *; lia.
Qed.

Lemma request_path sftp fill path rest :
  wf_sftp sftp -> path_fits sftp path -> full_path sftp fill (mk_buf (path ++ rest) (zlen path)) = Some (filled (fullpath sftp path) 1 fill).
Proof.
  intros Hs Hf. destruct (str_front path rest) as [Es Hw]. rewrite full_path_spec; [by rewrite Es | done | done |].
  cbn [b_len]. destruct Hs as (_ & [? _] & [? _]). unfold path_fits, is_u32 in *. pose proof (zlen_nonneg path). lia.
Qed.

Lemma translate_no_directory m m' p : translate_sftp2local m 0 = Some (m', p) -> has p O_DIRECTORY = false.
Proof.
  unfold translate_sftp2local. intros E. repeat (cbn [mbind option_bind] in E; case_match; try discriminate E); cbn [mbind option_bind] in E; try discriminate E; by injection E as <- <-.
Qed.

Definition open_key (sftp : sftp_subsystem) (st : system_stat) (maj min : Z) : Z * Z * Z := (sf_unique sftp, get_unique_system_dev maj min, get_ino_system_stat st).

Definition open_status (errno : Z) : Z := if errno =? ENOENT then SSH_FX_NO_SUCH_FILE else SSH_FX_FAILURE.

(** The table [t'] is [t] with handle [e] on the stack of key [k], opened as [sock]. *)
Definition pushed (t t' : handles) (A : gmap nat (list nat)) (k : Z * Z * Z) (e : nat) (sock : fs_socket) : Prop :=
  exists A' h, wf_handles hashtable t' A' /\ ht_handles t' !! e = Some h /\ fh_socket h = sock /\ key_of h = k /\
    forall k', stack hashtable t' A' k' = if decide (k' = k) then e :: stack hashtable t A k' else stack hashtable t A k'.

(** The stacks of [t'] are those of [t]. *)
Definition same_stacks (t t' : handles) (A : gmap nat (list nat)) : Prop :=
  exists A', wf_handles hashtable t' A' /\ forall k, stack hashtable t' A' k = stack hashtable t A k.

Lemma stack_socket (t : handles) A e h s k : ht_handles t !! e = Some h ->
  stack hashtable (mk_table (ht_store t) (<[e := set_socket s h]> (ht_handles t))) A k = stack hashtable t A k.
Proof.
  intros He. unfold stack. apply filter_ext_in. intros x _. unfold has_key. cbn [ht_handles]. destruct (decide (x = e)) as [->|Hne].
  - by rewrite lookup_insert_eq, He.
  - by rewrite lookup_insert_ne.
Qed.

Lemma stack_fresh (t : handles) A e k : SimpleList.unused A e -> wf_handles hashtable t A -> e ∉ stack hashtable t A k.
Proof.
  intros Hu Hwf [_ Hin]%list_elem_of_filter. destruct (A !! row_header hashtable _) as [l|] eqn:El; cbn in Hin; [by apply (Hu _ _ El) | set_solver].
Qed.

Section Open.
Context (sftp : sftp_subsystem) (sv : server) (A : gmap nat (list nat)) (inh : sftp_in_header) (e : nat).
Context (Hwf : wf_server sv A) (Hb : forall h l, A !! h = Some l -> is_u64 (zlen l + 1)) (Hfr : fresh (sv_table sv) A e)
  (He : ev_malloc ev = Some e) (Hst : statx_ok) (Hsf : wf_sftp sftp).

(** A handle made and its socket opened; then it is kept or freed. *)
Lemma open_new type (dir : bool) flags access q r fill posix st maj min fd os name fl mask :
  no_nul q -> 0 < zlen q -> is_u32 (zlen q + 1) -> sc_statx sys (sv_os sv) name fl mask = inr (st, maj, min) ->
  type = (if dir then SockDir else SockFile) -> has posix O_DIRECTORY = false ->
  (let fl := if dir then Z.lor posix O_DIRECTORY else posix in
   (exists errno, sc_open sys (sv_os sv) q fl = (inl errno, os) /\ fd = -1) \/ sc_open sys (sv_os sv) q fl = (inr fd, os)) ->
  exists t, sftp_create_fs_handle hashtable (sv_table sv) (ev_malloc ev) (init_fs_socket type) (sf_unique sftp)
      (get_unique_system_dev maj min) (get_ino_system_stat st) flags access dir = Some (Some e, t) /\
    exists sv', open_handle (sv_set_table t sv) e (filled q r fill) posix = Ret (fd, sv') /\ sv_os sv' = os /\ sv_sent sv' = sv_sent sv /\
      (exists h, ht_handles (sv_table sv') !! e = Some h /\ so_fd (fh_socket h) = fd) /\
      pushed (sv_table sv) (sv_table sv') A (open_key sftp st maj min) e (mk_socket type fd DIR_INIT).
Proof.
  intros Hq Hl Hu Es -> Hd Ho. destruct Hwf as [Hw Hh]. rewrite He.
  destruct (create_spec hashtable (sv_table sv) A e (init_fs_socket (if dir then SockDir else SockFile)) (sf_unique sftp)
    (get_unique_system_dev maj min) (get_ino_system_stat st) flags access dir Hw Hfr Hb) as (t & A' & E & Hw' & Hd' & Hs & _).
  exists t. split; [done |]. unfold open_handle. cbn [sv_table sv_set_table sv_os]. rewrite Hd', lookup_insert_eq. cbn [lift outcome_bind].
  rewrite socket_open_spec by done.
  assert (wf_server (sv_set_table t sv) A') as Hwt.
  { split; [done |]. cbn [sv_table sv_set_table]. intros f g. rewrite Hd', lookup_insert. case_decide; [| apply Hh]. intros [= <-].
    split; [| destruct dir; [by right | by left]]. pose proof (u32_range (makedev maj min)). unfold get_unique_system_dev.
    destruct Hsf as [Hun _]. repeat split; cbn; try apply Hun; unfold is_u32 in *; try lia; apply (Hst _ _ _ _ _ _ _ Es). }
  assert (forall s' (os' : OS), so_type s' = (if dir then SockDir else SockFile) -> let h := new_handle (init_fs_socket (if dir then SockDir else SockFile)) (sf_unique sftp)
      (get_unique_system_dev maj min) (get_ino_system_stat st) flags access dir in
    pushed (sv_table sv) (mk_table (ht_store t) (<[e := set_socket s' h]> (<[e := h]> (ht_handles (sv_table sv))))) A (open_key sftp st maj min) e s') as Hpush.
  { intros s' os' Ht h. fold h in Hd'. rewrite <- Hd'. assert (ht_handles t !! e = Some h) as Hte by (rewrite Hd'; apply lookup_insert_eq).
    exists A', (set_socket s' h). cbn [ht_handles]. rewrite lookup_insert_eq. split; [| split; [done | split; [done | split; [done |]]]].
    - assert (wf_server (mk_server (mk_table (ht_store t) (<[e := set_socket s' h]> (ht_handles t))) os' []) A') as [Hx _]; [| exact Hx].
      apply (wf_change_handle (sv_set_table t sv) A' e h); [done | done | done |]. destruct (proj2 Hwt e h Hte) as [Hk Hty].
      split; [done |]. cbn [fh_type fh_socket set_socket]. rewrite Ht. by destruct dir; [right | left].
    - intros k'. rewrite stack_socket by done. apply Hs. }
  destruct dir; cbn [so_type init_fs_socket new_handle fh_socket so_dir so_fd]; rewrite ?Hd; cbv zeta;
    destruct Ho as [(errno & -> & ->) | ->]; cbn [lift outcome_bind];
    (eexists; split; [done |]; split; [done |]; split; [done |]; split; [eexists; cbn; rewrite lookup_insert_eq; done |]; by apply (Hpush _ (sv_os sv))).
Qed.

Lemma filter_not_in (l : list nat) : e ∉ l -> filter (.≠ e) l = l.
Proof.
  induction l as [|x l IH]; [done |]. intros [Hx Hl]%not_elem_of_cons. rewrite filter_cons, decide_True by done. by rewrite IH.
Qed.

Lemma release_pushed sv' k sock :
  pushed (sv_table sv) (sv_table sv') A k e sock ->
  exists t', release_handle sv' (Some e) = Ret (mk_server t' (fs_socket_clear (sv_os sv') sock) (sv_sent sv')) /\
    same_stacks (sv_table sv) t' A.
Proof.
  intros (A' & h & Hw & Hh & <- & Hk & Hs). destruct (free_spec hashtable (sv_table sv') A' e h Hw Hh) as (t' & A2 & E & Hw2 & _ & Hs2 & _).
  unfold release_handle. rewrite E. cbn [lift outcome_bind]. exists t'. split; [done |]. exists A2. split; [done |].
  intros k'. rewrite Hs2, Hs. pose proof (stack_fresh (sv_table sv) A e k' (fr_unused _ _ _ Hfr) (proj1 Hwf)) as Hn.
  case_decide; [rewrite filter_cons, decide_False by naive_solver |]; by apply filter_not_in.
Qed.

Lemma release_none sv' : release_handle sv' None = Ret sv'.
Proof. unfold release_handle. by destruct sv'. Qed.

(** The rest of an open, when [statx] has found a file. *)
Lemma open_existing_spec q m posix r :
  no_nul q -> 0 < zlen q -> is_u32 (zlen q + 1) -> has posix O_DIRECTORY = false ->
  r = sc_statx sys (sv_os sv) q AT_STATX_SYNC_AS_STAT SYSTEM_STAT_SIZE ->
  let run := sftp_op_open_existing sftp sv inh (filled q 1 0) m posix in
  match r with
  | inl errno => run = Ret (with_reply sv inh (RStatus (open_status errno)))
  | inr (st, maj, min) =>
      let k := open_key sftp st maj min in
      if system_stat_test_ISDIR st then run = Ret (with_reply sv inh (RStatus SSH_FX_FILE_IS_A_DIRECTORY)) else
      match sc_open sys (sv_os sv) q posix with
      | (inr fd, os) => fd <> -1 ->
          exists t', run = Ret (with_reply (mk_server t' os (sv_sent sv)) inh (RHandle (key_string k) 20)) /\
            pushed (sv_table sv) t' A k e (mk_socket SockFile fd DIR_INIT)
      | (inl _, os) =>
          exists t', run = Ret (with_reply (mk_server t' os (sv_sent sv)) inh (RStatus SSH_FX_FAILURE)) /\ same_stacks (sv_table sv) t' A
      end
  end.
Proof.
  intros Hq Hl Hu Hd -> run. unfold run, sftp_op_open_existing. rewrite system_getstat_spec by done. cbn [lift outcome_bind].
  change (if SYSTEM_STAT_SIZE =? 0 then SYSTEM_STAT_ALL else SYSTEM_STAT_SIZE) with SYSTEM_STAT_SIZE.
  destruct (sc_statx _ _ _ _ _) as [errno | [[st maj] min]] eqn:Es.
  - unfold open_failed. rewrite release_none. cbn [outcome_bind]. apply status_spec. unfold open_status. by destruct (errno =? ENOENT).
  - destruct (system_stat_test_ISDIR st); [unfold open_failed; rewrite release_none; cbn [outcome_bind]; by apply status_spec |].
    cbv zeta. destruct (sc_open sys (sv_os sv) q posix) as [[errno|fd] os] eqn:Eo.
    + destruct (open_new SockFile false (om_flags m) (om_access m) q 1 0 posix st maj min (-1) os q AT_STATX_SYNC_AS_STAT SYSTEM_STAT_SIZE Hq Hl Hu Es eq_refl Hd)
        as (t & -> & sv' & E & Hos & Hse & _ & Hp); [left; by exists errno |]. cbn [lift outcome_bind]. rewrite E. cbn [outcome_bind].
      change (-1 =? -1) with true. cbv iota. unfold open_failed.
      destruct (release_pushed sv' _ _ Hp) as (t' & -> & Hsame). cbn [outcome_bind]. exists t'. split; [| done].
      rewrite status_spec by done. unfold fs_socket_clear, fs_socket_close. cbn [so_fd]. change (0 <=? -1) with false. cbv iota. by rewrite Hos, Hse.
    + intros Hfd. destruct (open_new SockFile false (om_flags m) (om_access m) q 1 0 posix st maj min fd os q AT_STATX_SYNC_AS_STAT SYSTEM_STAT_SIZE Hq Hl Hu Es eq_refl Hd)
        as (t & -> & sv' & E & Hos & Hse & _ & Hp); [by right |]. cbn [lift outcome_bind]. rewrite E. cbn [outcome_bind].
      destruct (Z.eqb_spec fd (-1)); [done |]. pose proof Hp as (A' & h & _ & Hh & _ & Hk & _). rewrite (answer_handle sv' inh h e Hh).
      exists (sv_table sv'). split; [| done]. destruct sv' as [t' os' sent']. cbn in *. subst os' sent'. unfold string_of. unfold key_of in Hk.
      injection Hk as -> -> ->. done.
Qed.

End Open.

(** C40: an open request.  Flags that cannot be translated are refused, as is the
    exclusive creation of a file; otherwise the completed path is looked up, and
    an error, a directory, and a file that the system does not open are answered
    by their status, with the table of handles unchanged.  A file that is opened
    gets a handle: it is pushed on the stack of its connection, device and inode,
    with the descriptor in its socket, and its name is the reply.  The byte that
    happens to be behind the path in its array must be zero (see [open_unterminated]
    for the others), and the memory for the handle is given. *)
Theorem open_correct (sftp : sftp_subsystem) (sv : server) (A : gmap nat (list nat)) (inh : sftp_in_header) (fuel e : nat)
    (path rest : bytes) (access flags : Z) :
  wf_server sv A -> bounded A fuel -> fresh (sv_table sv) A e -> ev_malloc ev = Some e -> ev_fill ev = 0 -> statx_ok -> wf_sftp sftp ->
  path_fits sftp path -> no_nul (fullpath sftp path) -> is_u32 access -> is_u32 flags -> zlen path + 12 <= inh_len inh ->
  let q := fullpath sftp path in
  let run := sftp_op_open sftp sv inh (encode_string path ++ be_encode 4 access ++ be_encode 4 flags ++ rest) in
  match translate_sftp2local (mk_openmode access flags) 0 with
  | None => run = Ret (with_reply sv inh (RStatus SSH_FX_PERMISSION_DENIED))
  | Some (_, posix) =>
      if Z.land posix (Z.lor O_CREAT O_EXCL) =? Z.lor O_CREAT O_EXCL then run = Ret (with_reply sv inh (RStatus SSH_FX_OP_UNSUPPORTED)) else
      match sc_statx sys (sv_os sv) q AT_STATX_SYNC_AS_STAT SYSTEM_STAT_SIZE with
      | inl errno => run = Ret (with_reply sv inh (RStatus (open_status errno)))
      | inr (st, maj, min) =>
          let k := open_key sftp st maj min in
          if system_stat_test_ISDIR st then run = Ret (with_reply sv inh (RStatus SSH_FX_FILE_IS_A_DIRECTORY)) else
          match sc_open sys (sv_os sv) q posix with
          | (inr fd, os) => fd <> -1 ->
              exists t', run = Ret (with_reply (mk_server t' os (sv_sent sv)) inh (RHandle (key_string k) 20)) /\
                pushed (sv_table sv) t' A k e (mk_socket SockFile fd DIR_INIT)
          | (inl _, os) =>
              exists t', run = Ret (with_reply (mk_server t' os (sv_sent sv)) inh (RStatus SSH_FX_FAILURE)) /\ same_stacks (sv_table sv) t' A
          end
      end
  end.
Proof.
  intros Hwf [_ Hb] Hfr He Hf Hst Hsf Hfit Hq Ha Hfl Hl q run. pose proof (fullpath_fits sftp path Hsf Hfit) as Hu.
  assert (is_u32 (zlen path + 12)) as Hp.
  { destruct Hsf as (_ & [? _] & [? _]). unfold path_fits, is_u32 in *. pose proof (zlen_nonneg path). lia. }
  unfold is_u32 in Hp. pose proof (zlen_nonneg path).
  unfold run, sftp_op_open. rewrite (proj2 (Z.leb_le 12 (inh_len inh))) by lia.
  destruct (string_field path (be_encode 4 access ++ be_encode 4 flags ++ rest)) as [-> ->]; [unfold is_u32; lia |]. cbn [lift outcome_bind].
  rewrite (u32_id (zlen path + 12)) by done. rewrite (proj2 (Z.leb_le _ _) Hl).
  rewrite (u32_id (4 + zlen path)) by (unfold is_u32; lia). rewrite (u32_id (4 + zlen path + 4)) by (unfold is_u32; lia).
  rewrite uint32_at_app by (done || rewrite zlen_encode_string; lia). cbn [lift outcome_bind].
  rewrite (app_assoc (encode_string path)), uint32_at_app by (done || rewrite zlen_app, zlen_encode_string, zlen_be_encode; lia). cbn [lift outcome_bind].
  rewrite Hf, request_path by done. cbn [lift outcome_bind].
  destruct (translate_sftp2local _ 0) as [[m posix]|] eqn:Et; [| by apply status_spec].
  destruct (Z.land posix _ =? _); [by apply status_spec |]. apply translate_no_directory in Et.
  apply (open_existing_spec sftp sv A inh e Hwf Hb Hfr He Hst Hsf q m posix _ Hq (fullpath_pos sftp path) Hu Et eq_refl).
Qed.

(** With another byte behind a path without NUL the system reads on past the
    array: whether an open finds its file depends on what the stack holds. *)
Theorem open_unterminated (sftp : sftp_subsystem) (sv : server) (inh : sftp_in_header) (path rest : bytes) (access flags posix : Z) (m : sftp_openmode) :
  wf_sftp sftp -> path_fits sftp path -> no_nul (fullpath sftp path) -> is_u32 access -> is_u32 flags -> zlen path + 12 <= inh_len inh ->
  translate_sftp2local (mk_openmode access flags) 0 = Some (m, posix) ->
  Z.land posix (Z.lor O_CREAT O_EXCL) <> Z.lor O_CREAT O_EXCL -> ev_fill ev <> 0 ->
  sftp_op_open sftp sv inh (encode_string path ++ be_encode 4 access ++ be_encode 4 flags ++ rest) = Ub.
Proof.
  intros Hsf Hfit Hq Ha Hfl Hl Et Hx Hf.
  assert (is_u32 (zlen path + 12)) as Hp.
  { destruct Hsf as (_ & [? _] & [? _]). unfold path_fits, is_u32 in *. pose proof (zlen_nonneg path). lia. }
  unfold is_u32 in Hp. pose proof (zlen_nonneg path).
  unfold sftp_op_open. rewrite (proj2 (Z.leb_le 12 (inh_len inh))) by lia.
  destruct (string_field path (be_encode 4 access ++ be_encode 4 flags ++ rest)) as [-> ->]; [unfold is_u32; lia |]. cbn [lift outcome_bind].
  rewrite (u32_id (zlen path + 12)) by done. rewrite (proj2 (Z.leb_le _ _) Hl).
  rewrite (u32_id (4 + zlen path)) by (unfold is_u32; lia). rewrite (u32_id (4 + zlen path + 4)) by (unfold is_u32; lia).
  rewrite uint32_at_app by (done || rewrite zlen_encode_string; lia). cbn [lift outcome_bind].
  rewrite (app_assoc (encode_string path)), uint32_at_app by (done || rewrite zlen_app, zlen_encode_string, zlen_be_encode; lia). cbn [lift outcome_bind].
  rewrite request_path by done. cbn [lift outcome_bind]. rewrite Et. destruct (Z.eqb_spec (Z.land posix (Z.lor O_CREAT O_EXCL)) (Z.lor O_CREAT O_EXCL)); [done |].
  unfold sftp_op_open_existing, system_getstat, filled. cbn [fp_buffer fp_start]. opt. rewrite drop_0.
  change (replicate (Z.to_nat 1) (ev_fill ev)) with [ev_fill ev]. unfold cstring.
  assert (strlen (fullpath sftp path ++ [ev_fill ev]) = None) as ->; [| done].
  induction Hq as [|c l Hc Hq' IH]; cbn [app strlen]; [by rewrite (proj2 (Z.eqb_neq _ _) Hf) |]. rewrite (proj2 (Z.eqb_neq _ _) Hc). by rewrite IH.
Qed.

(** ** Requests on a handle *)

Lemma zlen_key_string k : zlen (key_string k) = 20.
Proof. apply zlen_handle_string. Qed.

Lemma request_handle_spec sftp sv A k rest :
  wf_server sv A -> bounded A (ev_fuel ev) -> wf_key k ->
  request_handle sftp sv (encode_string (key_string k) ++ rest)
    = Ret (match head (stack hashtable (sv_table sv) A k) with Some e => inl e | None => inr SSH_FX_INVALID_HANDLE end).
Proof.
  intros [Hwf _] Hb Hk. unfold request_handle. pose proof (zlen_key_string k) as Hz.
  destruct (string_field (key_string k) rest) as [-> ->]; [by rewrite Hz |]. cbn [lift outcome_bind]. rewrite Hz.
  change (20 =? get_fs_handle_buffer_size) with true. cbv iota. rewrite (get_key hashtable _ A) by done. cbn [outcome_bind].
  by destruct (head _).
Qed.

Lemma head_handle sv A k e : head (stack hashtable (sv_table sv) A k) = Some e -> exists h, ht_handles (sv_table sv) !! e = Some h /\ key_of h = k.
Proof.
  intros [Hhk _]%head_filter_Some. unfold has_key in Hhk.
  destruct (ht_handles (sv_table sv) !! e) as [h|]; [| done]. exists h. split; [done |]. by injection Hhk.
Qed.

(** a close request.  The handle named is taken out of its stack, and only it,
    its descriptor is closed once, and the reply is OK; a name that has no handle,
    a name of another length and a message that is too short are answered by an
    error and change nothing. *)
Theorem close_correct (sftp : sftp_subsystem) (sv : server) (A : gmap nat (list nat)) (inh : sftp_in_header) (k : Z * Z * Z) (rest : bytes) :
  wf_server sv A -> bounded A (ev_fuel ev) -> wf_key k -> 24 <= inh_len inh ->
  let run := sftp_op_close sftp sv inh (encode_string (key_string k) ++ rest) in
  match head (stack hashtable (sv_table sv) A k) with
  | Some e => exists h t' A', ht_handles (sv_table sv) !! e = Some h /\
      run = Ret (with_reply (mk_server t' (fs_socket_close (sv_os sv) (fh_socket h)) (sv_sent sv)) inh (RStatus SSH_FX_OK)) /\
      wf_handles hashtable t' A' /\ ht_handles t' = delete e (ht_handles (sv_table sv)) /\
      forall k', stack hashtable t' A' k' = filter (.≠ e) (stack hashtable (sv_table sv) A k')
  | None => run = Ret (with_reply sv inh (RStatus SSH_FX_INVALID_HANDLE))
  end /\
  (forall data len, uint32_at data 0 = Some len -> len <> 20 ->
     sftp_op_close sftp sv inh data = Ret (with_reply sv inh (RStatus SSH_FX_INVALID_HANDLE))) /\
  (forall data short id, short < 24 -> sftp_op_close sftp sv (mk_inh short SSH_FXP_CLOSE id) data
     = Ret (with_reply sv (mk_inh short SSH_FXP_CLOSE id) (RStatus SSH_FX_BAD_MESSAGE))).
Proof.
  intros Hwf Hb Hk Hl run. split; [| split].
  - unfold run, sftp_op_close. change (4 + get_fs_handle_buffer_size) with 24. rewrite (proj2 (Z.leb_le _ _) Hl).
    rewrite (request_handle_spec sftp sv A) by done. cbn [outcome_bind].
    destruct (head _) as [e|] eqn:Eh; [| by apply status_spec].
    destruct (head_handle sv A k e Eh) as (h & Hh & _).
    destruct (free_spec hashtable (sv_table sv) A e h (proj1 Hwf) Hh) as (t' & A' & E & Hw & Hd & Hs & _).
    exists h, t', A'. split; [done |]. split; [| done]. unfold release_handle. rewrite E. cbn [lift outcome_bind]. by apply status_spec.
  - intros data len E Hne. unfold sftp_op_close. change (4 + get_fs_handle_buffer_size) with 24. rewrite (proj2 (Z.leb_le _ _) Hl).
    unfold request_handle. rewrite E. cbn [lift outcome_bind]. destruct (Z.eqb_spec len get_fs_handle_buffer_size); [done |]. cbn [outcome_bind]. by apply status_spec.
  - intros data short id Hs. unfold sftp_op_close. change (4 + get_fs_handle_buffer_size) with 24. cbn [inh_len].
    rewrite (proj2 (Z.leb_gt _ _) Hs). by apply (status_spec sv (mk_inh short SSH_FXP_CLOSE id)).
Qed.

(** [pread] gives at most what is asked for. *)
Definition pread_ok : Prop := forall os fd size off got, 0 <= size -> sc_pread sys os fd size off = inr got -> zlen got <= size.

(** The end mark: less than asked for was read, up to the size of the file. *)
Definition at_end_of_file (os : OS) (fd size offset n : Z) : Prop :=
  n < size /\ exists st, sc_fstatx sys os fd SYSTEM_STAT_SIZE = inr st /\
    let filesize := u64 (get_size_system_stat st) in filesize < u64 (offset + size) /\ u64 (offset + n) = filesize.

Lemma read_eof_spec os fd size offset n : read_eof os fd size offset n = 1 /\ at_end_of_file os fd size offset n \/
  read_eof os fd size offset n = 0 /\ ~ at_end_of_file os fd size offset n.
Proof.
  unfold read_eof, at_end_of_file. destruct (Z.ltb_spec n size) as [Hn|Hn]; [| right; split; [done |]; intros [? _]; lia].
  destruct (sc_fstatx sys os fd SYSTEM_STAT_SIZE) as [e|st]; [right; split; [done |]; by intros (_ & st & ? & _) |]. cbv zeta.
  destruct (Z.ltb_spec (u64 (get_size_system_stat st)) (u64 (offset + size))); [| right; split; [done |]; intros (_ & st' & [= <-] & ? & _); lia].
  destruct (Z.eqb_spec (u64 (offset + n)) (u64 (get_size_system_stat st))); [left; split; [done |]; split; [done |]; by exists st |].
  right. split; [done |]. by intros (_ & st' & [= <-] & _ & ?).
Qed.

Lemma read_spec sftp sv A inh k offset size rest e h :
  wf_server sv A -> bounded A (ev_fuel ev) -> wf_key k -> pread_ok -> 36 <= inh_len inh -> is_u64 offset -> is_u32 size ->
  head (stack hashtable (sv_table sv) A k) = Some e -> ht_handles (sv_table sv) !! e = Some h -> so_type (fh_socket h) = SockFile ->
  let fd := so_fd (fh_socket h) in
  sftp_op_read sftp sv inh (encode_string (key_string k) ++ be_encode 8 offset ++ be_encode 4 size ++ rest)
  = Ret (with_reply sv inh (
      if size <=? 16384 then
        match sc_pread sys (sv_os sv) fd size (sgn 64 offset) with
        | inr got => RData got (zlen got) (read_eof (sv_os sv) fd size offset (zlen got))
        | inl errno => RStatus (translate_read_error errno)
        end
      else RStatus SSH_FX_BAD_MESSAGE)).
Proof.
  intros Hwf Hb Hk Hp Hl Ho Hs Ehd Hh Ht fd. unfold sftp_op_read. change (get_fs_handle_buffer_size + 16) with 36. rewrite (proj2 (Z.leb_le _ _) Hl).
  rewrite (request_handle_spec sftp sv A) by done. rewrite Ehd. cbn [outcome_bind].
  assert (zlen (encode_string (key_string k)) = 24) as Hz by (rewrite zlen_encode_string, zlen_key_string; done).
  rewrite uint64_at_app by done. cbn [lift outcome_bind].
  rewrite (app_assoc (encode_string _)), uint32_at_app by (done || rewrite zlen_app, zlen_be_encode; lia). cbn [lift outcome_bind].
  destruct (Z.leb_spec size 16384) as [Hz2|Hz2]; [| by apply status_spec]. unfold file_fd. rewrite Hh. opt. rewrite Ht. cbn [lift outcome_bind]. fold fd.
  destruct (sc_pread sys (sv_os sv) fd size (sgn 64 offset)) as [errno|got] eqn:Ep.
  - apply status_spec. unfold translate_read_error. by destruct (errno =? EBADF).
  - destruct Hs as [Hs _]. pose proof (Hp _ _ _ _ _ Hs Ep) as Hgot. rewrite mem_write_Some by (rewrite ?zlen_replicate; lia). cbn [lift outcome_bind].
    change (Z.to_nat 0) with 0%nat. rewrite take_0, app_nil_l. rewrite server_answer.
    + unfold with_reply, reply_bytes, reply_message, first. pose proof (zlen_nonneg got).
      replace (Z.to_nat (zlen got)) with (length got) by (unfold zlen; lia). by rewrite take_app_length, firstn_all.
    + split; [| unfold is_u32; pose proof (zlen_nonneg got); lia]. rewrite zlen_app. pose proof (zlen_nonneg got).
      pose proof (zlen_nonneg (drop (0 + length got) (replicate (Z.to_nat size) (ev_fill ev)))). lia.
Qed.

(** a read request on the handle of a file.  The system is asked for the bytes
    at the offset, at most 16384 at once; what it gives is the reply, marked as
    the end exactly when it was less than asked for and reaches the size of the
    file; an error is answered by its status.  Nothing changes but the reply
    written.  A name without handle is answered by an error. *)
Theorem read_correct (sftp : sftp_subsystem) (sv : server) (A : gmap nat (list nat)) (inh : sftp_in_header) (k : Z * Z * Z) (offset size : Z) (rest : bytes) :
  wf_server sv A -> bounded A (ev_fuel ev) -> wf_key k -> pread_ok -> 36 <= inh_len inh -> is_u64 offset -> is_u32 size ->
  let run := sftp_op_read sftp sv inh (encode_string (key_string k) ++ be_encode 8 offset ++ be_encode 4 size ++ rest) in
  match head (stack hashtable (sv_table sv) A k) with
  | None => run = Ret (with_reply sv inh (RStatus SSH_FX_INVALID_HANDLE))
  | Some e => exists h, ht_handles (sv_table sv) !! e = Some h /\
      (so_type (fh_socket h) = SockFile ->
         if size <=? 16384 then
           match sc_pread sys (sv_os sv) (so_fd (fh_socket h)) size (sgn 64 offset) with
           | inr got => exists eof, run = Ret (with_reply sv inh (RData got (zlen got) eof)) /\
               (eof = 1 /\ at_end_of_file (sv_os sv) (so_fd (fh_socket h)) size offset (zlen got) \/
                eof = 0 /\ ~ at_end_of_file (sv_os sv) (so_fd (fh_socket h)) size offset (zlen got))
           | inl errno => run = Ret (with_reply sv inh (RStatus (if errno =? EBADF then SSH_FX_INVALID_PARAMETER else SSH_FX_FAILURE)))
           end
         else run = Ret (with_reply sv inh (RStatus SSH_FX_BAD_MESSAGE))) /\
      (so_type (fh_socket h) = SockDir -> size <= 16384 -> run = Ub)
  end.
Proof.
  intros Hwf Hb Hk Hp Hl Ho Hs run. destruct (head _) as [e|] eqn:Eh.
  - destruct (head_handle sv A k e Eh) as (h & Hh & _). exists h. split; [done |]. split.
    { intros Ht. pose proof (read_spec sftp sv A inh k offset size rest e h Hwf Hb Hk Hp Hl Ho Hs Eh Hh Ht) as E. fold run in E. cbv zeta in E.
      destruct (size <=? 16384); [| done]. destruct (sc_pread _ _ _ _ _) as [errno|got]; [done |].
      eexists. split; [exact E |]. apply read_eof_spec. }
    intros Ht Hsz. unfold run, sftp_op_read. change (get_fs_handle_buffer_size + 16) with 36. rewrite (proj2 (Z.leb_le _ _) Hl).
    rewrite (request_handle_spec sftp sv A) by done. rewrite Eh. cbn [outcome_bind].
    assert (zlen (encode_string (key_string k)) = 24) as Hz by (rewrite zlen_encode_string, zlen_key_string; done).
    rewrite uint64_at_app by done. cbn [lift outcome_bind].
    rewrite (app_assoc (encode_string _)), uint32_at_app by (done || rewrite zlen_app, zlen_be_encode; lia). cbn [lift outcome_bind].
    rewrite (proj2 (Z.leb_le _ _) Hsz). unfold file_fd. rewrite Hh. opt. by rewrite Ht.
  - unfold run, sftp_op_read. change (get_fs_handle_buffer_size + 16) with 36. rewrite (proj2 (Z.leb_le _ _) Hl).
    rewrite (request_handle_spec sftp sv A) by done. rewrite Eh. cbn [outcome_bind]. by apply status_spec.
Qed.

(** A write request of [size] bytes: [d] are the [size] bytes behind the request in
    the receive buffer, whether the message has that many or not. *)
Lemma write_spec sftp sv A inh k offset size rest e h :
  wf_server sv A -> bounded A (ev_fuel ev) -> wf_key k -> 36 <= inh_len inh -> is_u64 offset -> is_u32 size -> 0 < size ->
  head (stack hashtable (sv_table sv) A k) = Some e -> ht_handles (sv_table sv) !! e = Some h -> so_type (fh_socket h) = SockFile ->
  sftp_op_write sftp sv inh (encode_string (key_string k) ++ be_encode 8 offset ++ be_encode 4 size ++ rest) =
  if size <=? zlen rest then
    let '((n, errno), os) := sc_pwrite sys (sv_os sv) (so_fd (fh_socket h)) (take (Z.to_nat size) rest) (sgn 64 offset) in
    Ret (with_reply (sv_set_os os sv) inh (RStatus (if 0 <? n then SSH_FX_OK else translate_write_error (if errno =? 0 then EIO else errno))))
  else Ub.
Proof.
  intros Hwf Hb Hk Hl Ho Hs Hpos Ehd Hh Ht. unfold sftp_op_write. change (get_fs_handle_buffer_size + 16) with 36. rewrite (proj2 (Z.leb_le _ _) Hl).
  rewrite (request_handle_spec sftp sv A) by done. rewrite Ehd. cbn [outcome_bind].
  assert (zlen (encode_string (key_string k)) = 24) as Hz by (rewrite zlen_encode_string, zlen_key_string; done).
  rewrite uint64_at_app by done. cbn [lift outcome_bind].
  rewrite (app_assoc (encode_string _)), uint32_at_app by (done || rewrite zlen_app, zlen_be_encode; lia). cbn [lift outcome_bind].
  destruct (Z.eqb_spec size 0); [lia |]. unfold file_fd. rewrite Hh. opt. rewrite Ht. cbn [lift outcome_bind].
  set (front := (encode_string (key_string k) ++ be_encode 8 offset) ++ be_encode 4 size).
  assert (zlen front = 36) as Hfr by (unfold front; rewrite !zlen_app, !zlen_be_encode, Hz; lia).
  rewrite (app_assoc (_ ++ _)). fold front. destruct (Z.leb_spec size (zlen rest)) as [Hle|Hgt].
  - rewrite mem_read_Some by (rewrite ?zlen_app; lia). cbn [lift outcome_bind].
    replace (Z.to_nat 36) with (length front) by (unfold zlen in Hfr; lia). rewrite drop_app_length.
    destruct (sc_pwrite _ _ _ _ _) as [[n2 errno] os]. destruct (0 <? n2); [by apply status_spec |].
    apply status_spec. unfold translate_write_error. repeat case_match; done.
  - rewrite mem_read_None by (rewrite ?zlen_app; lia). done.
Qed.

(** a write request on the handle of a file whose message holds its data: the
    data is written at the offset, and the reply is OK when the system wrote
    something, and the status of the error otherwise. *)
Theorem write_correct (sftp : sftp_subsystem) (sv : server) (A : gmap nat (list nat)) (inh : sftp_in_header) (k : Z * Z * Z) (offset : Z) (d rest : bytes) (e : nat) (h : fs_handle fs_socket) :
  wf_server sv A -> bounded A (ev_fuel ev) -> wf_key k -> is_u64 offset -> is_u32 (zlen d) -> d <> [] ->
  40 + zlen d <= inh_len inh + 4 ->
  head (stack hashtable (sv_table sv) A k) = Some e -> ht_handles (sv_table sv) !! e = Some h -> so_type (fh_socket h) = SockFile ->
  sftp_op_write sftp sv inh (encode_string (key_string k) ++ be_encode 8 offset ++ encode_string d ++ rest) =
  let '((n, errno), os) := sc_pwrite sys (sv_os sv) (so_fd (fh_socket h)) d (sgn 64 offset) in
  Ret (with_reply (sv_set_os os sv) inh (RStatus (if 0 <? n then SSH_FX_OK else translate_write_error (if errno =? 0 then EIO else errno)))).
Proof.
  intros Hwf Hb Hk Ho Hs Hne Hl Ehd Hh Ht. unfold encode_string at 2. rewrite <- app_assoc. pose proof (zlen_nonneg d).
  assert (0 < zlen d) by (destruct d; [done | rewrite zlen_cons; pose proof (zlen_nonneg d); lia]).
  rewrite (write_spec sftp sv A inh k offset (zlen d) (d ++ rest) e h) by (done || lia).
  rewrite (proj2 (Z.leb_le (zlen d) (zlen (d ++ rest)))) by (rewrite zlen_app; pose proof (zlen_nonneg rest); lia).
  replace (Z.to_nat (zlen d)) with (length d) by (unfold zlen; lia). by rewrite take_app_length.
Qed.

(** The size of a write is not compared with the message: bytes behind the
    message, left in the receive buffer by earlier ones, are written to the file,
    and past the buffer the read is undefined. *)
Theorem write_takes_stale (sftp : sftp_subsystem) (sv : server) (A : gmap nat (list nat)) (id : Z) (k : Z * Z * Z) (offset size : Z) (d stale : bytes) (e : nat) (h : fs_handle fs_socket) :
  wf_server sv A -> bounded A (ev_fuel ev) -> wf_key k -> is_u64 offset -> is_u32 size -> zlen d < size ->
  head (stack hashtable (sv_table sv) A k) = Some e -> ht_handles (sv_table sv) !! e = Some h -> so_type (fh_socket h) = SockFile ->
  let run := sftp_op_write sftp sv (mk_inh (36 + zlen d) SSH_FXP_WRITE id) (encode_string (key_string k) ++ be_encode 8 offset ++ be_encode 4 size ++ d ++ stale) in
  (size <= zlen d + zlen stale -> exists sv', run = Ret sv' /\
     sv_os sv' = (sc_pwrite sys (sv_os sv) (so_fd (fh_socket h)) (d ++ take (Z.to_nat (size - zlen d)) stale) (sgn 64 offset)).2) /\
  (zlen d + zlen stale < size -> run = Ub).
Proof.
  intros Hwf Hb Hk Ho Hs Hd Ehd Hh Ht run. pose proof (zlen_nonneg d). unfold run.
  rewrite (write_spec sftp sv A _ k offset size (d ++ stale) e h) by (done || cbn; lia). rewrite zlen_app. split; intros Hle.
  - rewrite (proj2 (Z.leb_le _ _) Hle). replace (Z.to_nat size) with (length d + Z.to_nat (size - zlen d))%nat by (unfold zlen in *; lia).
    rewrite take_app_add. destruct (sc_pwrite _ _ _ _ _) as [[n2 errno] os]. eexists. split; [done |]. done.
  - by rewrite (proj2 (Z.leb_gt _ _) Hle).
Qed.

(** The name that is handed to the system. *)
Lemma action_name {X} q r fill (f : bytes -> option X) : no_nul q -> 0 < zlen q -> is_u32 (zlen q + 1) ->
  (let? (n, tmp) := fs_path_copy (filled q r fill) (replicate (Z.to_nat (u32 (zlen q + 1))) (ev_fill ev)) (zlen q) in
   let? tmp := mem_write tmp n [0] in let? name := cstring tmp in f name) = f q.
Proof.
  intros Hq Hl Hu. rewrite (u32_id (zlen q + 1)) by done. rewrite copy_filled by (rewrite zlen_replicate; lia). opt.
  rewrite drop_replicate. replace (Z.to_nat (zlen q + 1) - length q)%nat with 1%nat by (unfold zlen; lia). cbn [replicate].
  assert (mem_write (q ++ [ev_fill ev]) (zlen q) [0] = Some (q ++ [0])) as ->; [| opt; by rewrite cstring_app].
  rewrite mem_write_Some by (rewrite ?zlen_app; unfold zlen; cbn; lia). f_equal. replace (Z.to_nat (zlen q)) with (length q) by (unfold zlen; lia).
  rewrite take_app_length, drop_app_add. done.
Qed.

Lemma fsaction_spec os q r fill code : no_nul q -> 0 < zlen q -> is_u32 (zlen q + 1) ->
  system_shared_fsaction os (filled q r fill) code =
  let (r, os) := match code with Unlink => sc_unlink sys os q | Rmdir => sc_rmdir sys os q end in
  Some (match r with inl _ => -1 | inr _ => 0 end, os).
Proof.
  intros Hq Hl Hu. unfold system_shared_fsaction. change (fs_path_get_length (filled q r fill)) with (zlen q).
  rewrite (proj2 (Z.ltb_lt _ _) Hl). by rewrite action_name.
Qed.

(** a request to remove a file or a directory: the completed path is handed to
    the system, once.  When the system refuses the reply is a failure; when it
    removes the file there are two replies under the same id, OK and then a
    failure. *)
Theorem remove_replies (sftp : sftp_subsystem) (sv : server) (inh : sftp_in_header) (path rest : bytes) (what : fsaction) :
  wf_sftp sftp -> path_fits sftp path -> no_nul (fullpath sftp path) -> zlen path + 4 <= inh_len inh ->
  let run := sftp_op_remove_common sftp sv inh (encode_string path ++ rest) what in
  match (match what with Unlink => sc_unlink | Rmdir => sc_rmdir end) sys (sv_os sv) (fullpath sftp path) with
  | (inl _, os) => run = Ret (with_reply (sv_set_os os sv) inh (RStatus SSH_FX_FAILURE))
  | (inr _, os) => run = Ret (with_reply (with_reply (sv_set_os os sv) inh (RStatus SSH_FX_OK)) inh (RStatus SSH_FX_FAILURE))
  end.
Proof.
  intros Hsf Hfit Hq Hl run. pose proof (fullpath_fits sftp path Hsf Hfit) as Hu.
  assert (is_u32 (zlen path + 4)) as Hp.
  { destruct Hsf as (_ & [? _] & [? _]). unfold path_fits, is_u32 in *. pose proof (zlen_nonneg path). lia. }
  unfold is_u32 in Hp. pose proof (zlen_nonneg path).
  unfold run, sftp_op_remove_common. rewrite (proj2 (Z.leb_le 4 (inh_len inh))) by lia.
  destruct (string_field path rest) as [-> ->]; [unfold is_u32; lia |]. cbn [lift outcome_bind].
  rewrite (u32_id (zlen path + 4)) by done. rewrite (proj2 (Z.leb_le _ _) Hl), request_path by done. cbn [lift outcome_bind].
  rewrite fsaction_spec by (done || apply fullpath_pos).
  destruct what; [destruct (sc_unlink _ _ _) as [[errno|[]] os] | destruct (sc_rmdir _ _ _) as [[errno|[]] os]]; cbn [lift outcome_bind];
    rewrite ?status_spec by done; cbn [outcome_bind]; by rewrite ?status_spec.
Qed.

(** ** The flags of an open, from client to server *)

(** What the server opens a file with that a client of version 5 or 6 opens with
    [f]. *)
Definition server_flags (f : Z) : option Z :=
  let m := get_sftp_openmode f (mk_openmode 0 0) in snd <$> translate_sftp2local m 0.

(** the flags a client sends for an open are understood by the server as
    follows.  The access mode and appending arrive, an append being a write; but
    a file that is to be opened or created is truncated, a file that is only
    opened may be created, and the exclusive creation is refused: the server
    tests the values of the disposition as if they were bits. *)
Theorem open_flags_translated (f : Z) :
  let bit := has f in
  let writes := bit O_WRONLY || bit O_APPEND in
  let access := if bit O_RDWR then O_RDWR else if writes then (if bit O_APPEND && negb (bit O_WRONLY) then O_RDWR else O_WRONLY) else O_RDONLY in
  let append := if bit O_APPEND then O_APPEND else 0 in
  server_flags f =
    if bit O_CREAT && bit O_EXCL && negb (bit O_TRUNC) then None
    else Some (Z.lor (Z.lor append access)
      (if bit O_CREAT then Z.lor O_CREAT O_TRUNC else if bit O_TRUNC then O_TRUNC else O_CREAT)).
Proof.
  unfold server_flags, get_sftp_openmode. cbv zeta.
  destruct (has f O_RDWR), (has f O_WRONLY), (has f O_APPEND), (has f O_CREAT), (has f O_TRUNC), (has f O_EXCL); reflexivity.
Qed.

End Server.

(** ** Examples: a system with one file, [/a], on device 8:1 *)

Definition file_a : bytes := [slash; 97].

Definition stat_a (size : Z) : system_stat :=
  mk_stat SYSTEM_STAT_ALL 33188 1 0 0 size 300 SYSTEM_TIME_INIT SYSTEM_TIME_INIT SYSTEM_TIME_INIT SYSTEM_TIME_INIT.

(** The state of the system is what the file holds. *)
Definition one_file : syscalls bytes := mk_syscalls bytes
  (fun os name _ _ => if decide (name = file_a) then inr (stat_a (zlen os), 8, 1) else inl ENOENT)
  (fun os fd _ => if fd =? 3 then inr (stat_a (zlen os)) else inl EBADF)
  (fun os name _ => if decide (name = file_a) then (inr 3, os) else (inl ENOENT, os))
  (fun os _ => os)
  (fun os fd size off => if fd =? 3 then inr (take (Z.to_nat size) (drop (Z.to_nat off) os)) else inl EBADF)
  (fun os fd d off => if fd =? 3 then ((zlen d, 0), take (Z.to_nat off) os ++ d ++ drop (Z.to_nat (off + zlen d)) os) else ((-1, EBADF), os))
  (fun os name => if decide (name = file_a) then (inr tt, []) else (inl ENOENT, os))
  (fun os name => (inl ENOTDIR, os))
  (fun os name => inl EINVAL)
  (fun os fd => (inl ENOTDIR, os)).

Definition example_env : env := mk_env 2 (Some 1%nat) (fun _ => true) 0.
Definition example_sftp : sftp_subsystem := mk_sftp 7 (mk_buf [slash; 104] 2) (mk_buf [] 0) NoPrefix.
Definition empty_server : server (S := SimpleList.heap) := mk_server no_handles [1; 2; 3] [].

Lemma one_file_statx : statx_ok one_file.
Proof. intros os name fl mask st maj min. cbn. case_decide; [| done]. by intros [= <- <- <-]. Qed.

Lemma one_file_pread : pread_ok one_file.
Proof.
  intros os fd size off got Hs. cbn. destruct (fd =? 3); [| done]. intros [= <-]. unfold zlen. rewrite length_take. lia.
Qed.

Lemma example_sftp_wf : wf_sftp example_sftp.
Proof. repeat split; unfold zlen; cbn; lia. Qed.

Lemma empty_server_wf : exists A, wf_server 0 empty_server A /\ bounded A 1 /\ malloc_ok example_env empty_server A.
Proof.
  destruct (no_handles_wf (sock := fs_socket)) as (A & Hwf & Hb & Hfr). exists A. split; [| split; [done |]].
  - split; [done |]. intros e h. cbn. by rewrite lookup_empty.
  - intros e [= <-]. apply Hfr. lia.
Qed.

Definition key_a : Z * Z * Z := (7, 2049, 300).

(** The server with one file or directory open. *)
Lemma socket_server_wf fd dd (dir : bool) : let sock := mk_socket (if dir then SockDir else SockFile) fd dd in
  exists t A h, wf_server 0 (mk_server t [1; 2; 3] []) A /\ bounded A (ev_fuel example_env) /\
  head (stack 0 t A key_a) = Some 0%nat /\ ht_handles t !! 0%nat = Some h /\ fh_socket h = sock /\ fh_flags h = HANDLE_FLAG_ALLOC /\
  (forall k, k <> key_a -> head (stack 0 t A k) = None).
Proof.
  intros sock. destruct (no_handles_wf (sock := fs_socket)) as (A & Hwf & [Hb1 Hb2] & Hfr).
  destruct (create_spec 0 no_handles A 0 sock 7 2049 300 0 0 dir Hwf (Hfr 0%nat ltac:(lia)) Hb2)
    as (t & A' & _ & Hwf' & Hh & Hs & (r & l & Hr & ->) & _).
  eexists t, _, _. split_and!.
  - split; [exact Hwf' |]. cbn [sv_table]. intros e h. rewrite Hh, lookup_insert. case_decide; [| cbn [ht_handles no_handles]; by rewrite lookup_empty].
    intros [= <-]. split; [repeat split; cbn; lia | destruct dir; [by right | by left]].
  - split; intros r' l' [[<- <-] | [_ Hl]]%lookup_insert_Some; cbn.
    + pose proof (Hb1 _ _ Hr). lia.
    + pose proof (Hb1 _ _ Hl). lia.
    + pose proof (Hb1 _ _ Hr). rewrite zlen_cons. unfold is_u64, zlen in *. lia.
    + by apply (Hb2 r').
  - rewrite Hs, decide_True by done. done.
  - rewrite Hh. apply lookup_insert_eq.
  - done.
  - done.
  - intros k Hk. rewrite Hs, decide_False by done. by rewrite no_handles_stack.
Qed.

Lemma open_server_wf : exists t A h, wf_server 0 (mk_server t [1; 2; 3] []) A /\ bounded A (ev_fuel example_env) /\
  head (stack 0 t A key_a) = Some 0%nat /\ ht_handles t !! 0%nat = Some h /\ fh_socket h = mk_socket SockFile 3 DIR_INIT.
Proof. destruct (socket_server_wf 3 DIR_INIT false) as (t & A & h & Hwf & Hb & Hs & Hh & Hso & _). by exists t, A, h. Qed.

Definition inh_a (type : Z) : sftp_in_header := mk_inh 40 type 70.

Definition read_a : bytes := encode_string (key_string key_a) ++ be_encode 8 1 ++ be_encode 4 100 ++ [].

Lemma read_a_run : exists t A sv', wf_server 0 (mk_server t [1; 2; 3] []) A /\ bounded A (ev_fuel example_env) /\
  run_op 0 one_file (mk_env 2 None (fun _ => true) 0) OpRead example_sftp (mk_server t [1; 2; 3] []) (inh_a 5) read_a = Ret sv'.
Proof.
  destruct open_server_wf as (t & A & h & Hwf & Hb & Hs & Hh & Hso). exists t, A. eexists. split; [done |]. split; [done |].
  apply (read_spec 0 one_file (mk_env 2 None (fun _ => true) 0) example_sftp (mk_server t [1; 2; 3] []) A (inh_a 5) key_a 1 100 [] 0 h Hwf Hb);
    [repeat split; cbn; lia | apply one_file_pread | cbn; lia | done | done | done | done | by rewrite Hso].
Qed.

Lemma server_invariant_witness : exists (sv sv' : server (S := SimpleList.heap) (OS := bytes)), (exists A', wf_server 0 sv' A') /\
  exists rs, replied (mk_env 2 None (fun _ => true) 0) 70 sv sv' rs /\ (length rs = 1%nat \/ length rs = 2%nat /\ (OpRead = OpRemove \/ OpRead = OpRmdir)).
Proof.
  destruct read_a_run as (t & A & sv' & Hwf & Hb & E). exists (mk_server t [1; 2; 3] []), sv'.
  apply (server_invariant 0 one_file (mk_env 2 None (fun _ => true) 0) OpRead example_sftp (mk_server t [1; 2; 3] []) sv' A 2 (inh_a 5) read_a Hwf);
    [done | exact Hb | apply one_file_statx | done | exact E].
Defined.

Lemma open_correct_witness : exists A t', sftp_op_open 0 one_file example_env example_sftp empty_server (inh_a 3) (encode_string file_a ++ be_encode 4 129 ++ be_encode 4 2 ++ [])
    = Ret (with_reply (mk_server t' [1; 2; 3] []) (inh_a 3) (RHandle (key_string key_a) 20)) /\
  pushed 0 no_handles t' A key_a 1 (mk_socket SockFile 3 DIR_INIT).
Proof.
  destruct empty_server_wf as (A & Hwf & Hb & Hm). exists A.
  apply (open_correct 0 one_file example_env example_sftp empty_server A (inh_a 3) 1 1 file_a [] 129 2 Hwf Hb (Hm 1%nat eq_refl) eq_refl eq_refl
    one_file_statx example_sftp_wf); [done | repeat constructor; done | done | done | done | done].
Defined.

Lemma open_unterminated_witness : sftp_op_open 0 one_file (mk_env 2 (Some 1%nat) (fun _ => true) 5) example_sftp empty_server (inh_a 3)
  (encode_string file_a ++ be_encode 4 129 ++ be_encode 4 2 ++ []) = Ub.
Proof.
  apply (open_unterminated 0 one_file (mk_env 2 (Some 1%nat) (fun _ => true) 5) example_sftp empty_server (inh_a 3) file_a [] 129 2 O_CREAT (mk_openmode 0 0) example_sftp_wf);
    [done | repeat constructor; done | done | done | done | reflexivity | done | done].
Defined.

Lemma close_correct_witness : exists t t', sftp_op_close 0 one_file example_env example_sftp (mk_server t [1; 2; 3] []) (inh_a 4) (encode_string (key_string key_a) ++ [])
    = Ret (with_reply (mk_server t' [1; 2; 3] []) (inh_a 4) (RStatus SSH_FX_OK)) /\ ht_handles t' !! 0%nat = None.
Proof.
  destruct open_server_wf as (t & A & h & Hwf & Hb & Hs & Hh & _).
  destruct (close_correct 0 one_file example_env example_sftp (mk_server t [1; 2; 3] []) A (inh_a 4) key_a [] Hwf Hb) as [H _];
    [repeat split; cbn; lia | cbn; lia |]. cbn [sv_table] in H. rewrite Hs in H. destruct H as (h' & t' & A' & Hh' & E & _ & Hd & _).
  exists t, t'. split; [| rewrite Hd; apply lookup_delete_eq]. rewrite E. unfold fs_socket_close. by destruct (0 <=? _).
Defined.

Lemma read_correct_witness : exists t, sftp_op_read 0 one_file example_env example_sftp (mk_server t [1; 2; 3] []) (inh_a 5)
    (encode_string (key_string key_a) ++ be_encode 8 1 ++ be_encode 4 100 ++ [])
  = Ret (with_reply (mk_server t [1; 2; 3] []) (inh_a 5) (RData [2; 3] 2 1)).
Proof.
  destruct open_server_wf as (t & A & h & Hwf & Hb & Hs & Hh & Hso). exists t.
  pose proof (read_correct 0 one_file example_env example_sftp (mk_server t [1; 2; 3] []) A (inh_a 5) key_a 1 100 [] Hwf Hb ltac:(repeat split; cbn; lia)
    one_file_pread ltac:(cbn; lia) ltac:(done) ltac:(done)) as H. cbn [sv_table] in H. rewrite Hs in H.
  destruct H as (h' & Hh' & H & _). rewrite Hh in Hh'. injection Hh' as <-. rewrite Hso in H. destruct (H eq_refl) as (eof & E & [[-> _] | [_ Hn]]); [exact E |].
  exfalso. apply Hn. split; [done |]. eexists. split; [reflexivity |]. done.
Defined.

Lemma write_correct_witness : exists t, sftp_op_write 0 one_file example_env example_sftp (mk_server t [1; 2; 3] []) (inh_a 6)
    (encode_string (key_string key_a) ++ be_encode 8 1 ++ encode_string [9] ++ [])
  = Ret (with_reply (mk_server t [1; 9; 3] []) (inh_a 6) (RStatus SSH_FX_OK)).
Proof.
  destruct open_server_wf as (t & A & h & Hwf & Hb & Hs & Hh & Hso). exists t.
  rewrite (write_correct 0 one_file example_env example_sftp (mk_server t [1; 2; 3] []) A (inh_a 6) key_a 1 [9] [] 0 h Hwf Hb);
    [by rewrite Hso | repeat split; cbn; lia | done | done | done | done | done | done | by rewrite Hso].
Defined.

Lemma write_takes_stale_witness : exists t, sftp_op_write 0 one_file example_env example_sftp (mk_server t [1; 2; 3] []) (mk_inh 37 SSH_FXP_WRITE 70)
    (encode_string (key_string key_a) ++ be_encode 8 0 ++ be_encode 4 9 ++ [5] ++ [6]) = Ub.
Proof.
  destruct open_server_wf as (t & A & h & Hwf & Hb & Hs & Hh & Hso). exists t.
  apply (write_takes_stale 0 one_file example_env example_sftp (mk_server t [1; 2; 3] []) A 70 key_a 0 9 [5] [6] 0 h Hwf Hb);
    [repeat split; cbn; lia | done | done | done | done | done | by rewrite Hso | done].
Defined.

Lemma remove_replies_witness : sftp_op_remove_common one_file example_env example_sftp empty_server (inh_a 13) (encode_string file_a ++ []) Unlink
  = Ret (with_reply (with_reply (mk_server no_handles [] []) (inh_a 13) (RStatus SSH_FX_OK)) (inh_a 13) (RStatus SSH_FX_FAILURE)).
Proof.
  apply (remove_replies one_file example_env example_sftp empty_server (inh_a 13) file_a [] Unlink example_sftp_wf);
    [done | repeat constructor; done | done].
Defined.

(** Opening a file for writing that need not exist empties one that does. *)
Example open_or_create_truncates : server_flags (Z.lor O_WRONLY O_CREAT) = Some (Z.lor O_WRONLY (Z.lor O_CREAT O_TRUNC)).
Proof. reflexivity. Qed.

End SftpServer.
