(* ===== verification/SocketFrames.v ===== *)
(** * Messages out of a stream

    The default way of the sockets of the program to cut what they receive into
    messages: [cb_copy_socket_default] and [cb_read_socket_default] of
    [lib/socket/event.c], with the callbacks of the fuse socket
    ([lib/fuse/receive.c]) and of the socket of the sftp server
    ([ssh/subsystem/sftp/receive.c]).

    Every event of the socket runs in a thread of its own: it copies what it has
    read under the flag [SOCKET_STATUS_READ], one thread at a time, and then takes
    messages next to the other threads.  The copy is one step; setting
    [SOCKET_RAWDATA_FLAG_WATCHED] under the lock of the list and taking a message
    that is complete are steps of their own, in any order of the threads.  A
    [rawdata] has its bytes up to [rawdata->pos]; what is behind them is not
    read.  Memory is given when it is asked for, and the socket is not closed.
    Integers laid over a buffer have the order of a little endian host. *)
From stdpp Require Import base list list_numbers numbers option sorting sets.
From Stdlib Require Import ZArith Lia.
From S2P Require Import Prelude SshUint SftpWire SftpServer.
Import SshUint SftpWire SftpServer.
Open Scope Z_scope.

Module SocketFrames.

(** [rw_watch]: the thread that has set [SOCKET_RAWDATA_FLAG_WATCHED], by the counter it was given. *)
Record rawdata := mk_raw { rw_ctr : Z; rw_size : Z; rw_data : bytes; rw_finish : bool; rw_watch : option Z }.

Definition rw_pos (r : rawdata) : Z := zlen (rw_data r).

Definition new_rawdata (ctr : Z) : rawdata := mk_raw ctr 0 [] false None.

Section Copy.
Context (headersize : Z) (get_msg_size : bytes -> option Z).

Definition determine_msg_size (r : rawdata) (buffer : bytes) : option Z :=
  if rw_pos r <? headersize then
    let? d := mem_read buffer 0 (headersize - rw_pos r) in get_msg_size (rw_data r ++ d)
  else get_msg_size (rw_data r).

(** The move of [n] bytes behind those that are there, in [size] bytes of memory. *)
Definition move (r : rawdata) (size : Z) (buffer : bytes) (n : Z) : option bytes :=
  if u32 (rw_pos r + n) <=? size then let? d := mem_read buffer 0 n in Some (rw_data r ++ d) else None.

(** The message that is not complete yet, with what belongs to it; and the rest. *)
Definition fill (r : rawdata) (buffer : bytes) : outcome (rawdata * bytes) :=
  let pos := rw_pos r in
  let bytesread := zlen buffer in
  if u32 (pos + bytesread) <? headersize then
    let size := if rw_size r =? 0 then headersize else rw_size r in
    let! d := lift (move r size buffer bytesread) in
    Ret (mk_raw (rw_ctr r) size d (rw_finish r) (rw_watch r), [])
  else
    let! msgsize := lift (determine_msg_size r buffer) in
    let bytes2move := if msgsize <=? u32 (pos + bytesread) then u32 (msgsize - pos) else bytesread in
    let size := if rw_size r <? u32 (pos + bytes2move) then u32 (pos + bytes2move) else rw_size r in
    let! d := lift (move r size buffer bytes2move) in
    Ret (mk_raw (rw_ctr r) size d (rw_finish r || (u32 (pos + bytes2move) =? msgsize)) (rw_watch r), drop (Z.to_nat bytes2move) buffer).

(** The messages in the rest. *)
Fixpoint fill_rest (fuel : nat) (ctr : Z) (buffer : bytes) : outcome (list rawdata) :=
  match fuel with
  | O => NoFuel
  | S fuel =>
      let bytesread := zlen buffer in
      if negb (0 <? bytesread) then Ret []
      else if bytesread <? headersize then Ret [mk_raw ctr headersize buffer false None]
      else
        let! msgsize := lift (get_msg_size buffer) in
        if bytesread <? msgsize then Ret [mk_raw ctr bytesread buffer false None]
        else
          let! l := fill_rest fuel ctr (drop (Z.to_nat msgsize) buffer) in
          Ret (mk_raw ctr msgsize (take (Z.to_nat msgsize) buffer) true None :: l)
  end.

(** The first message that is not complete. *)
Fixpoint searchrawdata (l : list rawdata) : option (list rawdata * rawdata * list rawdata) :=
  match l with
  | [] => None
  | r :: l =>
      if rw_finish r then let? x := searchrawdata l in Some (r :: x.1.1, x.1.2, x.2) else Some ([], r, l)
  end.

Record sock := mk_sock { rd_ctr : Z; rd_in : list rawdata }.

Definition cb_copy_socket_default (fuel : nat) (s : sock) (buffer : bytes) : outcome sock :=
  let ctr := u64 (rd_ctr s + 1) in
  let '(l1, r, l2) := default (rd_in s, new_rawdata ctr, []) (searchrawdata (rd_in s)) in
  let! (r, rest) := fill r buffer in
  let! l := fill_rest fuel ctr rest in
  Ret (mk_sock ctr (l1 ++ r :: l2 ++ l)).

(** [get_socket_rawdata_from_list]: the first that nobody watches, not newer than [ctr], is watched. *)
Fixpoint get_socket_rawdata_from_list (ctr : Z) (l : list rawdata) : option (list rawdata) :=
  match l with
  | [] => None
  | r :: l =>
      if ctr <? rw_ctr r then None
      else match rw_watch r with
           | None => Some (mk_raw (rw_ctr r) (rw_size r) (rw_data r) (rw_finish r) (Some ctr) :: l)
           | Some _ => let? l := get_socket_rawdata_from_list ctr l in Some (r :: l)
           end
  end.

(** The threads that look in the list, by their counter (those that wait are the
    ones that watch a [rawdata]), and the messages handed over with their sizes. *)
Record state := mk_state { st_sock : sock; st_look : list Z; st_out : list (bytes * Z) }.

Inductive label :=
| Copy (buffer : bytes)   (* an event of the socket *)
| Look (i : nat)          (* the [i]-th of the threads that look *)
| Take (k : nat).         (* the thread that watches the [k]-th of the list *)

(** [process_connection_socket_recv_event] with [cb_read_socket_default]; a thread that can not go on does nothing. *)
Definition exec (fuel : nat) (l : label) (s : state) : outcome state :=
  match l with
  | Copy buffer =>
      let! sk := cb_copy_socket_default fuel (st_sock s) buffer in
      Ret (mk_state sk (rd_ctr sk :: st_look s) (st_out s))
  | Look i =>
      match st_look s !! i with
      | None => Ret s
      | Some ctr =>
          let look := delete i (st_look s) in
          let l := default (rd_in (st_sock s)) (get_socket_rawdata_from_list ctr (rd_in (st_sock s))) in
          Ret (mk_state (mk_sock (rd_ctr (st_sock s)) l) look (st_out s))
      end
  | Take k =>
      match rd_in (st_sock s) !! k with
      | Some (mk_raw _ size data true (Some ctr)) =>
          let l := delete k (rd_in (st_sock s)) in
          Ret (mk_state (mk_sock (rd_ctr (st_sock s)) l) (ctr :: st_look s) (st_out s ++ [(data, size)]))
      | _ => Ret s
      end
  end.

Fixpoint execs (fuel : nat) (ls : list label) (s : state) : outcome state :=
  match ls with
  | [] => Ret s
  | l :: ls => let! s := exec fuel l s in execs fuel ls s
  end.

(** No thread can go on: none looks, and those that watch wait for the rest of a message. *)
Definition quiet (s : state) : bool :=
  bool_decide (st_look s = []) && forallb (fun r => negb (rw_finish r && bool_decide (is_Some (rw_watch r)))) (rd_in (st_sock s)).

(** [process_data_buffer]: the header with the new size, and the data. *)
Definition process_data_buffer (set_msg_size : bytes -> Z -> option bytes) (m : bytes * Z) : option (bytes * bytes) :=
  let? header := mem_read m.1 0 headersize in
  let size := u32 (m.2 - headersize) in
  let? data := mem_read m.1 headersize size in
  let? header := set_msg_size header size in Some (header, data).

(** ** Any parts give the messages *)

(** A message that its header announces. *)
Definition framed (m : bytes) : Prop :=
  headersize <= zlen m < 2 ^ 31 /\ forall more, get_msg_size (take (Z.to_nat headersize) m ++ more) = Some (zlen m).

Hypothesis headersize_pos : 0 < headersize.

(** [r] holds the first part [p] of a message, which is not complete. *)
Definition holds (r : rawdata) (p : bytes) : Prop :=
  rw_data r = p /\ rw_finish r = false /\ (rw_size r = Z.max headersize (zlen p) \/ p = [] /\ rw_size r = 0).

Lemma framed_size m x : framed m -> headersize <= zlen x -> (exists y, m = x ++ y) \/ (exists y, x = m ++ y) -> get_msg_size x = Some (zlen m).
Proof.
  intros [Hm Hs] Hx Hcase. rewrite <- (Hs (drop (Z.to_nat headersize) x)). f_equal. rewrite <- (take_drop (Z.to_nat headersize) x) at 1. f_equal.
  destruct Hcase as [[y ->]|[y ->]]; rewrite take_app_le; try done; unfold zlen in *; lia.
Qed.

Lemma move_front r size c n rest : c = n ++ rest -> rw_pos r + zlen n < 2 ^ 32 -> rw_pos r + zlen n <= size ->
  move r size c (zlen n) = Some (rw_data r ++ n).
Proof.
  intros -> H32 Hsz. unfold move. pose proof (zlen_nonneg n). pose proof (zlen_nonneg rest). pose proof (zlen_nonneg (rw_data r)). unfold rw_pos in *.
  rewrite u32_id by (unfold is_u32; lia). rewrite (proj2 (Z.leb_le _ _)) by lia. rewrite mem_read_Some by (rewrite ?zlen_app; lia). opt.
  change (drop (Z.to_nat 0) (n ++ rest)) with (n ++ rest). unfold zlen. by rewrite Nat2Z.id, take_app_length.
Qed.

Lemma determine_eq r c m : framed m -> headersize <= zlen (rw_data r ++ c) ->
  (exists y, m = (rw_data r ++ c) ++ y) \/ (exists y, rw_data r ++ c = m ++ y) -> zlen (rw_data r) < zlen m ->
  determine_msg_size r c = Some (zlen m).
Proof.
  intros Hm Hc Hcase Hlt. unfold determine_msg_size, rw_pos. rewrite zlen_app in Hc. pose proof (zlen_nonneg (rw_data r)). pose proof (zlen_nonneg c).
  assert (forall k, (exists y, m = (rw_data r ++ take k c) ++ y) \/ (exists y, rw_data r ++ take k c = m ++ y)) as Hk.
  { intros k. destruct Hcase as [[y E]|[y E]].
    - left. exists (drop k c ++ y). rewrite E. rewrite <- (take_drop k c) at 1. by rewrite <- !app_assoc.
    - apply app_eq_inv in E as [(z & E1 & _)|(z & -> & ->)]; [rewrite E1, zlen_app in Hlt; pose proof (zlen_nonneg z); lia |].
      destruct (le_lt_dec (length z) k).
      + right. exists (take (k - length z) y). rewrite take_app_ge by lia. by rewrite app_assoc.
      + left. exists (drop k z). rewrite take_app_le by lia. by rewrite <- app_assoc, take_drop. }
  destruct (Z.ltb_spec (zlen (rw_data r)) headersize) as [Hl|Hl].
  - rewrite mem_read_Some by lia. opt. change (drop (Z.to_nat 0) c) with c. apply framed_size; [done | | apply Hk].
    rewrite zlen_app, zlen_take by lia. lia.
  - apply framed_size; [done | lia |]. specialize (Hk O). by rewrite take_0, app_nil_r in Hk.
Qed.

(** The first part of the next message, none of it or less than it. *)
Definition first_part (p : bytes) (ms : list bytes) : Prop :=
  p = [] \/ exists m ms' y, ms = m :: ms' /\ m = p ++ y /\ y <> [].

(** The message is completed ... *)
Lemma fill_done r p c m rest : framed m -> holds r p -> p ++ c = m ++ rest -> zlen p < zlen m -> zlen c < 2 ^ 31 ->
  fill r c = Ret (mk_raw (rw_ctr r) (zlen m) m true (rw_watch r), rest).
Proof.
  intros Hm Hr E Hlt Hc. assert (rw_data r = p /\ rw_finish r = false /\ rw_size r <= zlen m /\ 0 <= rw_size r) as (Ep & Ef & Hs1 & Hs2).
  { destruct Hm as [Hm _]. pose proof (zlen_nonneg p). destruct Hr as (? & ? & [?|[? ?]]); repeat split; try done; lia. }
  apply app_eq_inv in E as [(z & E1 & _)|(z & Em & Ec)]; [rewrite E1, zlen_app in Hlt; pose proof (zlen_nonneg z); lia |].
  assert (zlen m = zlen p + zlen z) as Hz by by rewrite Em, zlen_app. assert (zlen c = zlen z + zlen rest) as Hzc by by rewrite Ec, zlen_app.
  pose proof (zlen_nonneg p). pose proof (zlen_nonneg z). pose proof (zlen_nonneg rest). pose proof Hm as [Hm1 _].
  unfold fill, rw_pos. rewrite Ep, (u32_id (zlen p + zlen c)) by (unfold is_u32; lia).
  destruct (Z.ltb_spec (zlen p + zlen c) headersize); [lia |].
  rewrite (determine_eq r c m) by (rewrite ?Ep, ?zlen_app; try done; try lia; right; exists rest; by rewrite Em, Ec, <- app_assoc). cbn [lift outcome_bind].
  rewrite (proj2 (Z.leb_le _ _)) by lia. replace (zlen m - zlen p) with (zlen z) by lia.
  rewrite (u32_id (zlen z)), (u32_id (zlen p + zlen z)) by (unfold is_u32; lia).
  replace (if rw_size r <? zlen p + zlen z then zlen p + zlen z else rw_size r) with (zlen m) by (destruct (Z.ltb_spec (rw_size r) (zlen p + zlen z)); lia).
  rewrite (move_front r (zlen m) c z rest Ec) by (unfold rw_pos; rewrite Ep; lia). cbn [lift outcome_bind].
  rewrite Ef, Ep, Hz, Z.eqb_refl, <- Em. do 2 f_equal. rewrite Ec. unfold zlen. by rewrite Nat2Z.id, drop_app_length.
Qed.

(** ... or still is not. *)
Lemma fill_part r p c m y : framed m -> holds r p -> c <> [] -> m = (p ++ c) ++ y -> y <> [] ->
  exists r', fill r c = Ret (r', []) /\ holds r' (p ++ c) /\ rw_ctr r' = rw_ctr r /\ rw_watch r' = rw_watch r.
Proof.
  intros Hm Hr Hc Em Hy. destruct Hr as (Ep & Ef & Hs).
  assert (0 < zlen c /\ 0 < zlen y) as [Hc0 Hy0].
  { split; [destruct c | destruct y]; try done; rewrite zlen_cons; match goal with |- context [zlen ?l] => pose proof (zlen_nonneg l); lia end. }
  assert (zlen m = zlen p + zlen c + zlen y) as Hz by by rewrite Em, !zlen_app. pose proof (zlen_nonneg p). pose proof Hm as [Hm1 _].
  assert (c = c ++ []) as Ec by by rewrite app_nil_r.
  unfold fill, rw_pos. rewrite Ep, (u32_id (zlen p + zlen c)) by (unfold is_u32; lia).
  destruct (Z.ltb_spec (zlen p + zlen c) headersize) as [Hl|Hl].
  - set (size := if rw_size r =? 0 then headersize else rw_size r).
    assert (size = headersize) as Hsz by (unfold size; destruct (Z.eqb_spec (rw_size r) 0); [done |]; lia).
    rewrite (move_front r size c c []) by (unfold rw_pos; rewrite ?Ep; try done; lia). cbn [lift outcome_bind]. eexists. split; [done |].
    split; [| done]. unfold holds. cbn. rewrite Ep, zlen_app. repeat split; try done. left. lia.
  - rewrite (determine_eq r c m) by (rewrite ?Ep, ?zlen_app; try done; try lia; left; by exists y). cbn [lift outcome_bind].
    destruct (Z.leb_spec (zlen m) (zlen p + zlen c)); [lia |]. rewrite (u32_id (zlen p + zlen c)) by (unfold is_u32; lia).
    set (size := if rw_size r <? zlen p + zlen c then zlen p + zlen c else rw_size r).
    assert (size = Z.max headersize (zlen p + zlen c)) as Hsz.
    { unfold size. destruct (Z.ltb_spec (rw_size r) (zlen p + zlen c)); [lia |]. destruct Hs as [|[-> ?]]; [lia |]. change (zlen []) with 0 in *. lia. }
    rewrite (move_front r size c c []) by (unfold rw_pos; rewrite ?Ep; try done; lia). cbn [lift outcome_bind]. eexists. split.
    { do 2 f_equal. rewrite drop_ge; [done | unfold zlen; lia]. }
    split; [| done]. unfold holds. cbn. rewrite Ep, Ef, zlen_app. destruct (Z.eqb_spec (zlen p + zlen c) (zlen m)); [lia |]. repeat split; try done. by left.
Qed.

(** What is left of a chunk after its first message. *)
Lemma fill_rest_eq ctr ms p fuel : forall ms', Forall framed ms -> first_part p ms' -> Forall framed ms' -> (length ms < fuel)%nat ->
  zlen (concat ms ++ p) < 2 ^ 32 ->
  fill_rest fuel ctr (concat ms ++ p) =
    Ret (map (fun m => mk_raw ctr (zlen m) m true None) ms ++ (if decide (p = []) then [] else [mk_raw ctr (Z.max headersize (zlen p)) p false None])).
Proof.
  revert ms. induction fuel as [|fuel IH]; intros ms ms' Hms Hp Hms' Hf Hz; [lia |]. cbn [fill_rest].
  destruct ms as [|m ms]; cbn [concat map app].
  - destruct (decide (p = [])) as [->|Hne]; [done |]. destruct Hp as [|(m & ms2 & y & -> & Em & Hy)]; [done |].
    apply Forall_cons_iff in Hms' as [Hm _]. assert (0 < zlen p /\ 0 < zlen y) as [Hp0 Hy0].
    { split; [destruct p | destruct y]; try done; rewrite zlen_cons; match goal with |- context [zlen ?l] => pose proof (zlen_nonneg l); lia end. }
    rewrite (proj2 (Z.ltb_lt 0 (zlen p))) by done. cbn [negb]. destruct (Z.ltb_spec (zlen p) headersize); [by rewrite Z.max_l by lia |].
    rewrite (framed_size m p) by (try done; left; by exists y). cbn [lift outcome_bind].
    assert (zlen m = zlen p + zlen y) by by rewrite Em, zlen_app. destruct (Z.ltb_spec (zlen p) (zlen m)); [| lia]. by rewrite Z.max_r by lia.
  - apply Forall_cons_iff in Hms as [Hm Hms]. pose proof Hm as [Hm1 _]. cbn [concat] in Hz. rewrite <- app_assoc in *. rewrite zlen_app in Hz.
    pose proof (zlen_nonneg (concat ms ++ p)). rewrite zlen_app. rewrite (proj2 (Z.ltb_lt 0 _)) by lia. cbn [negb].
    destruct (Z.ltb_spec (zlen m + zlen (concat ms ++ p)) headersize); [lia |].
    rewrite (framed_size m (m ++ concat ms ++ p)); [| done | rewrite zlen_app; lia | right; by eexists]. cbn [lift outcome_bind].
    destruct (Z.ltb_spec (zlen m + zlen (concat ms ++ p)) (zlen m)); [lia |].
    replace (Z.to_nat (zlen m)) with (length m) by (unfold zlen; lia). rewrite drop_app_length, take_app_length.
    rewrite (IH ms ms') by (try done; cbn in Hf; lia). done.
Qed.

(** A prefix of a stream of messages ends inside one of them. *)
Lemma prefix_messages ms : forall q rest, concat ms = q ++ rest ->
  exists ms1 ms2 p, ms = ms1 ++ ms2 /\ q = concat ms1 ++ p /\ first_part p ms2.
Proof.
  induction ms as [|m ms IH]; intros q rest E; cbn in E.
  - symmetry in E. apply app_nil in E as [-> _]. exists [], [], []. split; [done |]. split; [done | by left].
  - apply app_eq_inv in E as [(z & Em & _)|(z & Eq & Ez)].
    + destruct z as [|x z]; [exists [m], ms, []; rewrite app_nil_r in Em; subst; cbn; rewrite !app_nil_r; split; [done |]; split; [done | by left] |].
      exists [], (m :: ms), q. split; [done |]. split; [done |]. destruct q; [by left | right]. eexists _, _, _. split; [done |]. split; [exact Em | done].
    + destruct (IH z rest Ez) as (ms1 & ms2 & p & -> & -> & Hp). exists (m :: ms1), ms2, p. split; [done |]. split; [| done].
      cbn. by rewrite Eq, app_assoc.
Qed.

(** ** What every run keeps *)

Definition sized (m : bytes) : bytes * Z := (m, zlen m).

(** A complete [rawdata] holds its message; at the end of the list there may be the part [p] of the next one. *)
Definition complete (r : rawdata) (m : bytes) : Prop := rw_finish r = true /\ rw_data r = m /\ rw_size r = zlen m.

Definition ends_in (p : bytes) (l : list rawdata) : Prop := if decide (p = []) then l = [] else exists r, l = [r] /\ holds r p.

(** The threads that look or will look again, as the message they watch is complete. *)
Definition coming (look : list Z) (l : list rawdata) : list Z :=
  look ++ omap (fun r => if rw_finish r then rw_watch r else None) l.

(** Somebody comes for a [rawdata]. *)
Definition covered (look : list Z) (r : rawdata) : Prop := is_Some (rw_watch r) \/ exists c, c ∈ look /\ rw_ctr r <= c.

(** The messages [ms] and the part [p] of the next one have been copied: [here] are the messages in the list. *)
Record inv (s : state) (ms : list bytes) (p : bytes) : Prop := mk_inv {
  iv_list : exists done here l, rd_in (st_sock s) = done ++ l /\ Forall2 complete done here /\ ends_in p l /\
    st_out s ++ map sized here ≡ₚ map sized ms;
  iv_cover : Forall (covered (coming (st_look s) (rd_in (st_sock s)))) (rd_in (st_sock s));
  iv_order : StronglySorted Z.le (map rw_ctr (rd_in (st_sock s)));
  iv_bound : Forall (fun r => rw_ctr r <= rd_ctr (st_sock s)) (rd_in (st_sock s));
  iv_ctr : 0 <= rd_ctr (st_sock s) }.

Lemma search_done done here l : Forall2 complete done here -> searchrawdata (done ++ l) = (let? x := searchrawdata l in Some (done ++ x.1.1, x.1.2, x.2)).
Proof.
  intros H. induction H as [|r m done here [Hr _] _ IH]; cbn [app searchrawdata]; [by destruct (searchrawdata l) as [[[]]|] |].
  rewrite Hr, IH. by destruct (searchrawdata l) as [[[]]|].
Qed.

(** The [rawdata] a copy works on. *)
Lemma search_last ctr done here p l : Forall2 complete done here -> ends_in p l ->
  exists r, default (done ++ l, new_rawdata ctr, []) (searchrawdata (done ++ l)) = (done, r, []) /\ holds r p /\
    (l = [r] \/ l = [] /\ r = new_rawdata ctr).
Proof.
  intros Hd Hl. rewrite (search_done done here l Hd). unfold ends_in in Hl. destruct (decide (p = [])) as [->|Hne].
  - subst l. cbn. exists (new_rawdata ctr). rewrite app_nil_r. split; [done |]. split; [| by right]. unfold holds. cbn. repeat split. by right.
  - destruct Hl as (r & -> & Hr). exists r. cbn [searchrawdata]. destruct Hr as (? & Hf & ?). rewrite Hf. cbn. rewrite app_nil_r. split; [done |]. split; [done | by left].
Qed.

(** What a copy does to the list. *)
Lemma copy_eq fuel sk done here l p c ms1 ms2 p' :
  rd_in sk = done ++ l -> 0 <= rd_ctr sk -> rd_ctr sk + 1 < 2 ^ 64 -> Forall2 complete done here -> ends_in p l ->
  first_part p (ms1 ++ ms2) -> Forall framed (ms1 ++ ms2) -> c <> [] -> zlen c < 2 ^ 31 ->
  p ++ c = concat ms1 ++ p' -> first_part p' ms2 -> (length ms1 < fuel)%nat ->
  exists r new, cb_copy_socket_default fuel sk c = Ret (mk_sock (rd_ctr sk + 1) (done ++ r :: new)) /\
    (exists d2 l2, r :: new = d2 ++ l2 /\ Forall2 complete d2 ms1 /\ ends_in p' l2) /\
    Forall (fun r => rw_ctr r = rd_ctr sk + 1) new /\
    ((exists r0, l = [r0] /\ rw_ctr r = rw_ctr r0 /\ rw_watch r = rw_watch r0) \/ l = [] /\ rw_ctr r = rd_ctr sk + 1).
Proof.
  intros Hin H0 Hctr Hd Hl Hp Hms Hc Hc31 E Hp' Hf. unfold cb_copy_socket_default. rewrite Hin.
  replace (u64 (rd_ctr sk + 1)) with (rd_ctr sk + 1) by (unfold u64; rewrite Z.mod_small; lia). set (ctr := rd_ctr sk + 1).
  destruct (search_last ctr done here p l Hd Hl) as (r & -> & Hr & Hrl).
  assert (forall r', rw_ctr r' = rw_ctr r -> rw_watch r' = rw_watch r ->
    (exists r0, l = [r0] /\ rw_ctr r' = rw_ctr r0 /\ rw_watch r' = rw_watch r0) \/ l = [] /\ rw_ctr r' = ctr) as Hsame.
  { intros r' E1 E2. destruct Hrl as [->|[-> ->]]; [left; by exists r | by right]. }
  apply Forall_app in Hms as [Hms1 Hms2]. destruct ms1 as [|m ms1]; cbn [app concat map] in *.
  - subst p'. destruct Hp' as [Hnil|(m & ms & y & -> & Em & Hy)]; [apply app_nil in Hnil as [_ ->]; done |]. apply Forall_cons_iff in Hms2 as [Hm _].
    destruct (fill_part r p c m y Hm Hr Hc Em Hy) as (r' & -> & Hr' & Ec & Ew). cbn [outcome_bind]. destruct fuel as [|fuel]; [lia |]. cbn [fill_rest outcome_bind].
    change (negb (0 <? zlen [])) with true. cbn [outcome_bind app]. exists r', []. split; [done |]. split; [| auto].
    exists [], [r']. split; [done |]. split; [constructor |]. unfold ends_in. rewrite decide_False by (intros Hnil; apply app_nil in Hnil as [_ ->]; done). by exists r'.
  - apply Forall_cons_iff in Hms1 as [Hm Hms1]. rewrite <- app_assoc in E.
    assert (zlen p < zlen m) as Hlt.
    { destruct Hm as [Hm _]. destruct Hp as [->|(m' & ms' & y & [= <- _] & -> & Hy)]; [change (zlen []) with 0; lia |].
      rewrite zlen_app. destruct y; [done |]. rewrite zlen_cons. pose proof (zlen_nonneg y). lia. }
    rewrite (fill_done r p c m (concat ms1 ++ p') Hm Hr E Hlt Hc31). cbn [outcome_bind].
    rewrite (fill_rest_eq ctr ms1 p' fuel ms2); [| done | done | done | cbn in Hf; lia |].
    2: { apply (f_equal zlen) in E. rewrite !zlen_app in E. rewrite zlen_app. destruct Hm as [? _]. lia. }
    cbn [outcome_bind app]. eexists _, _. split; [done |]. split; [| split; [| by apply Hsame]].
    + eexists (_ :: map _ ms1), _. split; [done |]. split; [constructor; [done |] |].
      * clear. induction ms1; cbn; constructor; done.
      * unfold ends_in. destruct (decide (p' = [])); [done |]. eexists. split; [done |]. repeat split. by left.
    + apply Forall_app. split; [apply Forall_map, Forall_true; done |]. destruct (decide (p' = [])); by repeat constructor.
Qed.

Lemma covered_mono look look' r : (forall c, c ∈ look -> c ∈ look') -> covered look r -> covered look' r.
Proof.
  intros H [|(c & Hc & ?)]; [by left | right; exists c; split; [by apply H | done]].
Qed.

Lemma elem_of_coming c look l : c ∈ coming look l <-> c ∈ look \/ exists r, r ∈ l /\ rw_finish r = true /\ rw_watch r = Some c.
Proof.
  unfold coming. rewrite elem_of_app, list_elem_of_omap. f_equiv. f_equiv. intros r. f_equiv. destruct (rw_finish r); naive_solver.
Qed.

Lemma coming_unfinished look d l p c : ends_in p l -> c ∈ coming look (d ++ l) -> c ∈ coming look d.
Proof.
  unfold ends_in, coming. rewrite omap_app. destruct (decide (p = [])); [intros ->; by rewrite app_nil_r |].
  intros (r & -> & _ & Hr & _). cbn. rewrite Hr. by rewrite app_nil_r.
Qed.

Lemma inv_copy fuel s ms p c ms1 ms2 p' :
  inv s ms p -> rd_ctr (st_sock s) + 1 < 2 ^ 64 -> first_part p (ms1 ++ ms2) -> Forall framed (ms1 ++ ms2) -> c <> [] -> zlen c < 2 ^ 31 ->
  p ++ c = concat ms1 ++ p' -> first_part p' ms2 -> (length ms1 < fuel)%nat ->
  exists s', exec fuel (Copy c) s = Ret s' /\ inv s' (ms ++ ms1) p' /\ rd_ctr (st_sock s') = rd_ctr (st_sock s) + 1.
Proof.
  intros [(d & here & l & Hin & Hd & Hl & Hout) Hcov Hord Hbd H0] Hctr Hp Hms Hc Hc31 E Hp' Hf.
  destruct (copy_eq fuel _ d here l p c ms1 ms2 p' Hin H0 Hctr Hd Hl Hp Hms Hc Hc31 E Hp' Hf) as (r & new & Ecopy & (d2 & l2 & Enew & Hd2 & Hl2) & Hnew & Hsame).
  cbn [exec]. rewrite Ecopy. cbn [outcome_bind]. eexists. split; [done |]. split; [| done]. rewrite Hin in *. set (ctr := rd_ctr (st_sock s) + 1) in *.
  apply Forall_app in Hcov as [Hcov1 Hcov2]. apply Forall_app in Hbd as [Hbd1 Hbd2]. rewrite map_app in Hord. apply StronglySorted_app in Hord as (Hlt & Hord1 & Hord2).
  assert (Forall (fun r' => rw_ctr r' <= ctr) (r :: new)) as Hle.
  { constructor; [| eapply Forall_impl; [exact Hnew | intros ? H; cbn in H; lia]].
    destruct Hsame as [(r0 & -> & -> & _)|[_ ->]]; [| lia]. apply Forall_cons_iff in Hbd2 as [? _]. unfold ctr. lia. }
  split; cbn [st_sock st_look st_out rd_in rd_ctr].
  - exists (d ++ d2), (here ++ ms1), l2. split; [by rewrite Enew, app_assoc |]. split; [by apply Forall2_app |]. split; [done |].
    rewrite !map_app, app_assoc. by rewrite Hout.
  - assert (ctr ∈ coming (ctr :: st_look s) (d ++ r :: new)) as Hself by by left.
    apply Forall_app. split; [| eapply Forall_impl; [exact Hle |]; intros r' Hr'; right; by exists ctr].
    eapply Forall_impl; [exact Hcov1 |]. intros r'. apply covered_mono. intros c' Hc'. right. apply (coming_unfinished _ d l p _ Hl) in Hc'.
    unfold coming. rewrite omap_app. set_solver.
  - rewrite map_app. apply StronglySorted_app_2; [| done |].
    + intros x1 x2 H1 H2. apply list_elem_of_fmap in H1 as (r1 & -> & H1). rewrite Forall_forall in Hbd1. specialize (Hbd1 r1 H1).
      apply list_elem_of_fmap in H2 as (r2 & -> & H2). apply elem_of_cons in H2 as [->|H2].
      * destruct Hsame as [(r0 & -> & -> & _)|[_ ->]]; [| unfold ctr; lia]. apply Hlt; [by apply list_elem_of_fmap_2 | by left].
      * rewrite Forall_forall in Hnew. rewrite (Hnew r2 H2). unfold ctr. lia.
    + cbn [map]. assert (Forall (fun x => x = ctr) (map rw_ctr new)) as Hall by by apply Forall_map.
      constructor; [clear -Hall; induction Hall as [|x l -> Hl IH]; constructor; [done | eapply Forall_impl; [exact Hl | intros ? ->; lia]] |].
      apply Forall_cons_iff in Hle as [Hr _]. eapply Forall_impl; [exact Hall | intros ? ->; lia].
  - apply Forall_app. split; [| done]. eapply Forall_impl; [exact Hbd1 | cbn; unfold ctr; lia].
  - unfold ctr. lia.
Qed.

(** Setting the flag changes nothing else ... *)
Lemma watch_found ctr l l' : get_socket_rawdata_from_list ctr l = Some l' ->
  exists l1 r l2, l = l1 ++ r :: l2 /\ rw_watch r = None /\ Forall (fun r => is_Some (rw_watch r)) l1 /\ l' = l1 ++ mk_raw (rw_ctr r) (rw_size r) (rw_data r) (rw_finish r) (Some ctr) :: l2.
Proof.
  revert l'. induction l as [|r l IH]; intros l'; cbn; [done |]. destruct (ctr <? rw_ctr r); [done |]. destruct (rw_watch r) eqn:Ew.
  - destruct (get_socket_rawdata_from_list ctr l) as [l0|]; [| done]. intros [= <-]. destruct (IH l0 eq_refl) as (l1 & r0 & l2 & -> & ? & ? & ->).
    exists (r :: l1), r0, l2. repeat split; try done. constructor; [by rewrite Ew | done].
  - intros [= <-]. by exists [], r, l.
Qed.

(** ... and when there is none to set, somebody comes for each that is not newer. *)
Lemma watch_none ctr l : StronglySorted Z.le (map rw_ctr l) -> get_socket_rawdata_from_list ctr l = None ->
  Forall (fun r => rw_ctr r <= ctr -> is_Some (rw_watch r)) l.
Proof.
  induction l as [|r l IH]; cbn; intros Hs Hg; [done |]. inversion Hs as [|? ? Hs' Hall]; subst. destruct (Z.ltb_spec ctr (rw_ctr r)) as [Hlt|Hle].
  - constructor; [lia |]. apply (proj1 (List.Forall_map _ _ _)) in Hall. eapply Forall_impl; [exact Hall |]. cbn. intros. lia.
  - destruct (rw_watch r) eqn:Ew; [| done]. constructor; [intros _; by rewrite Ew |]. apply IH; [done |]. by destruct (get_socket_rawdata_from_list ctr l).
Qed.

(** The list with the flag set is the list for all that follows. *)
Definition same (r r' : rawdata) : Prop := rw_ctr r = rw_ctr r' /\ rw_size r = rw_size r' /\ rw_data r = rw_data r' /\ rw_finish r = rw_finish r'.

Lemma same_list s ms p l look : inv s ms p -> Forall2 same (rd_in (st_sock s)) l -> Forall (covered (coming look l)) l ->
  inv (mk_state (mk_sock (rd_ctr (st_sock s)) l) look (st_out s)) ms p.
Proof.
  intros [(d & here & l0 & Hin & Hd & Hl & Hout) Hcov Hord Hbd H0] Hsame Hc. split; cbn [st_sock st_look st_out rd_in rd_ctr]; try done.
  - rewrite Hin in Hsame. apply Forall2_app_inv_l in Hsame as (d' & l' & Hs1 & Hs2 & ->). exists d', here, l'. split; [done |]. split; [| split; [| done]].
    + clear -Hd Hs1. revert d' Hs1. induction Hd as [|r m d here (? & ? & ?) _ IH]; intros d' Hs1; inversion Hs1 as [|? ? ? ? (? & ? & ? & ?)]; subst; constructor; [| by apply IH].
      unfold complete. split; [congruence |]. split; congruence.
    + unfold ends_in in *. destruct (decide (p = [])); [subst; by inversion Hs2 |]. destruct Hl as (r & -> & Hr).
      inversion Hs2 as [|? r' ? ? (? & E2 & E3 & E4) H3]; subst. inversion H3; subst. exists r'. split; [done |]. unfold holds in *. by rewrite <- E2, <- E3, <- E4.
  - replace (map rw_ctr l) with (map rw_ctr (rd_in (st_sock s))); [done |]. clear -Hsame. induction Hsame as [|r r' l l' (? & _) _ IH]; cbn; [done | by f_equal].
  - clear -Hsame Hbd. induction Hsame as [|r r' l l' (E & _) _ IH]; [done |]. apply Forall_cons_iff in Hbd as [? ?]. constructor; [by rewrite <- E | by apply IH].
Qed.

Lemma same_refl l : Forall2 same l l.
Proof.
  induction l; constructor; [| done]. by repeat split.
Qed.

(** A complete message at the end of the list is not the part of the next one. *)
Lemma unfinished_last d here l p l1 r l2 : Forall2 complete d here -> ends_in p l -> d ++ l = l1 ++ r :: l2 -> rw_finish r = false -> l2 = [].
Proof.
  intros Hd Hl E Hr. apply app_eq_inv in E as [(z & -> & Ez)|(z & -> & Ez)].
  - destruct z as [|r' z].
    + cbn in Ez. unfold ends_in in Hl. destruct (decide (p = [])); [subst l; done |]. destruct Hl as (r' & -> & _). by injection Ez.
    + injection Ez as <- _. apply Forall2_app_inv_l in Hd as (? & ? & _ & Hd & _). inversion Hd as [|? ? ? ? (? & _)]; congruence.
  - unfold ends_in in Hl. destruct (decide (p = [])); [subst l; by destruct z |]. destruct Hl as (r' & -> & _).
    destruct z as [|? z]; [by injection Ez |]. injection Ez as _ Ez. by destruct z.
Qed.

Lemma inv_look fuel s ms p i : inv s ms p -> exists s', exec fuel (Look i) s = Ret s' /\ inv s' ms p /\ rd_ctr (st_sock s') = rd_ctr (st_sock s).
Proof.
  intros Hi. cbn [exec]. destruct (st_look s !! i) as [ctr|] eqn:Ei; [| by exists s]. apply list_elem_of_split_length in Ei as (k1 & k2 & Ek & ->).
  eexists. split; [done |]. split; [| done]. rewrite Ek, delete_middle. pose proof (iv_cover _ _ _ Hi) as Hcov. rewrite Ek in Hcov.
  apply same_list; [done | |]; destruct (get_socket_rawdata_from_list ctr (rd_in (st_sock s))) as [l'|] eqn:El; cbn [default].
  - apply watch_found in El as (l1 & r & l2 & -> & _ & _ & ->). apply Forall2_app; [apply same_refl |]. constructor; [by repeat split | apply same_refl].
  - apply same_refl.
  - apply watch_found in El as (l1 & r & l2 & El & Hw & Hl1 & ->). rewrite El in Hcov.
    apply Forall_app. split; [eapply Forall_impl; [exact Hl1 |]; by left |]. constructor; [left; by eexists |].
    destruct (rw_finish r) eqn:Hf.
    + apply Forall_app in Hcov as [_ Hcov]. apply Forall_cons_iff in Hcov as [_ Hcov]. eapply Forall_impl; [exact Hcov |]. intros r'. apply covered_mono.
      intros c. rewrite !elem_of_coming, !elem_of_app, elem_of_cons. intros [[|[->|]]|(r0 & Hr0 & ? & ?)]; [tauto | right | tauto | right].
      * eexists. split; [apply elem_of_app; right; by left | done].
      * exists r0. split; [| done]. apply elem_of_app in Hr0 as [|[->|]%elem_of_cons]; [apply elem_of_app; by left | congruence | apply elem_of_app; right; by right].
    + destruct (iv_list _ _ _ Hi) as (d & here & l & Hin & Hd & Hl & _). rewrite Hin in El. by rewrite (unfinished_last d here l p l1 r l2).
  - apply watch_none in El; [| apply (iv_order _ _ _ Hi)]. rewrite Forall_forall in *. intros r Hr. destruct (Hcov r Hr) as [|(c & Hc & Hle)]; [by left |].
    destruct (Z.le_gt_cases (rw_ctr r) ctr); [left; by apply El |]. right. exists c. split; [| done]. rewrite elem_of_coming, elem_of_app in *. rewrite elem_of_cons in Hc.
    destruct Hc as [[|[->|]]|]; [tauto | lia | tauto | tauto].
Qed.

Lemma inv_take fuel s ms p k : inv s ms p -> exists s', exec fuel (Take k) s = Ret s' /\ inv s' ms p /\ rd_ctr (st_sock s') = rd_ctr (st_sock s).
Proof.
  intros Hi. cbn [exec]. destruct (rd_in (st_sock s) !! k) as [r|] eqn:Ek; [| by exists s].
  destruct r as [rc size data [] [ctr|]]; try by exists s. apply list_elem_of_split_length in Ek as (l1 & l2 & El & ->).
  eexists. split; [done |]. split; [| done]. destruct Hi as [(d & here & l & Hin & Hd & Hl & Hout) Hcov Hord Hbd H0]. rewrite El, delete_middle in *.
  split; cbn [st_sock st_look st_out rd_in rd_ctr]; try done.
  - symmetry in Hin. apply app_eq_inv in Hin as [(z & -> & Ez)|(z & E1 & Ez)].
    + assert (exists z', z = mk_raw rc size data true (Some ctr) :: z' /\ l2 = z' ++ l) as (z' & -> & ->).
      { destruct z as [|? z]; cbn in Ez; [| injection Ez as <- ->; by eexists]. unfold ends_in in Hl. destruct (decide (p = [])); [subst l; done |].
        destruct Hl as (r & -> & _ & Hr & _). injection Ez as <- _. done. }
      apply Forall2_app_inv_l in Hd as (h1 & h2 & Hd1 & Hd2 & ->). inversion Hd2 as [|? m ? h3 Hm Hd3]; subst. destruct Hm as (_ & Hdat & Hsz). cbn in Hdat, Hsz. subst.
      exists (l1 ++ z'), (h1 ++ h3), l. split; [by rewrite app_assoc |]. split; [by apply Forall2_app |]. split; [done |]. rewrite <- Hout, !map_app. cbn.
      rewrite <- app_assoc. f_equiv. cbn. by rewrite <- Permutation_middle.
    + unfold ends_in in Hl. destruct (decide (p = [])); [subst l; by destruct z |]. destruct Hl as (r & -> & _ & Hr & _).
      destruct z as [|? z]; [injection Ez as -> _; done | by injection Ez as _ Ez; destruct z].
  - apply Forall_app in Hcov as [Hc1 Hc2]. apply Forall_cons_iff in Hc2 as [_ Hc2].
    assert (forall r, covered (coming (st_look s) (l1 ++ mk_raw rc size data true (Some ctr) :: l2)) r -> covered (coming (ctr :: st_look s) (l1 ++ l2)) r) as Hmono.
    { intros r. apply covered_mono. intros c. rewrite !elem_of_coming, elem_of_cons. intros [|(r0 & Hr0 & ? & Hw)]; [tauto |].
      apply elem_of_app in Hr0 as [|[->|]%elem_of_cons]; [right; exists r0; by rewrite elem_of_app; auto | left; left; cbn in Hw; congruence |
        right; exists r0; by rewrite elem_of_app; auto]. }
    apply Forall_app. split; (eapply Forall_impl; [eassumption | exact Hmono]).
  - rewrite map_app in *. apply StronglySorted_app in Hord as (Hlt & Ho1 & Ho2). apply StronglySorted_cons in Ho2 as [_ Ho2].
    apply StronglySorted_app_2; [| done | done]. intros x1 x2 H1 H2. apply Hlt; [done | by right].
  - apply Forall_app in Hbd as [? Hb]. apply Forall_cons_iff in Hb as [_ ?]. by apply Forall_app.
Qed.

(** What was read of the socket, in parts. *)
Definition chunks (ls : list label) : list bytes := omap (fun l => match l with Copy buffer => Some buffer | _ => None end) ls.

Lemma run_keeps fuel ls : forall s ms0 p ms rest, inv s ms0 p -> rd_ctr (st_sock s) + zlen ls < 2 ^ 64 -> first_part p ms -> Forall framed ms ->
  Forall (fun c => c <> [] /\ zlen c < 2 ^ 31) (chunks ls) -> concat ms = p ++ concat (chunks ls) ++ rest -> (length ms < fuel)%nat ->
  exists s' ms1 ms2 p', execs fuel ls s = Ret s' /\ ms = ms1 ++ ms2 /\ p ++ concat (chunks ls) = concat ms1 ++ p' /\ first_part p' ms2 /\ inv s' (ms0 ++ ms1) p'.
Proof.
  induction ls as [|l ls IH]; intros s ms0 p ms rest Hi Hctr Hp Hms Hch E Hf; cbn [execs].
  - exists s, [], ms, p. cbn. rewrite !app_nil_r. auto.
  - rewrite zlen_cons in Hctr. pose proof (zlen_nonneg ls). pose proof (iv_ctr _ _ _ Hi). destruct l as [c|i|k].
    + change (chunks (Copy c :: ls)) with (c :: chunks ls) in *. apply Forall_cons_iff in Hch as [[Hc Hc31] Hch]. cbn [concat] in E. rewrite <- app_assoc, app_assoc in E.
      destruct (prefix_messages ms (p ++ c) _ E) as (ms1 & ms2 & p' & -> & Epc & Hp'). rewrite length_app in Hf.
      destruct (inv_copy fuel s ms0 p c ms1 ms2 p' Hi ltac:(lia) Hp Hms Hc Hc31 Epc Hp' ltac:(lia)) as (s1 & -> & Hi1 & Ec). cbn [outcome_bind].
      apply Forall_app in Hms as [_ Hms2].
      destruct (IH s1 (ms0 ++ ms1) p' ms2 rest Hi1) as (s2 & ms3 & ms4 & p2 & E2 & -> & E3 & Hp2 & Hi2); [lia | done | done | done | | lia |].
      * rewrite Epc, concat_app, <- app_assoc in E. by apply app_inv_head in E.
      * exists s2, (ms1 ++ ms3), ms4, p2. split; [done |]. split; [by rewrite app_assoc |]. split; [| by rewrite app_assoc].
        cbn [concat]. by rewrite app_assoc, Epc, concat_app, <- !app_assoc, E3.
    + destruct (inv_look fuel s ms0 p i Hi) as (s1 & -> & Hi1 & Ec). cbn [outcome_bind]. apply (IH s1 ms0 p ms rest); try done. lia.
    + destruct (inv_take fuel s ms0 p k Hi) as (s1 & -> & Hi1 & Ec). cbn [outcome_bind]. apply (IH s1 ms0 p ms rest); try done. lia.
Qed.

(** Threads that do not copy. *)
Lemma threads_keep fuel ls : forall s ms p s', inv s ms p -> chunks ls = [] -> execs fuel ls s = Ret s' -> inv s' ms p.
Proof.
  induction ls as [|l ls IH]; intros s ms p s' Hi Hch; cbn [execs]; [by intros [= <-] |]. destruct l as [c|i|k]; [done | |].
  - destruct (inv_look fuel s ms p i Hi) as (s1 & -> & Hi1 & _). cbn [outcome_bind]. by apply IH.
  - destruct (inv_take fuel s ms p k Hi) as (s1 & -> & Hi1 & _). cbn [outcome_bind]. by apply IH.
Qed.

(** When no thread can go on every complete message was handed over. *)
Lemma quiet_complete s ms p : inv s ms p -> quiet s = true -> st_out s ≡ₚ map sized ms /\ ends_in p (rd_in (st_sock s)).
Proof.
  intros [(d & here & l & Hin & Hd & Hl & Hout) Hcov _ _ _] Hq. unfold quiet in Hq. apply andb_true_iff in Hq as [Hlook Hall]. apply bool_decide_eq_true in Hlook.
  rewrite forallb_forall in Hall. rewrite Hin in *. destruct d as [|r d]; [inversion Hd; subst; by rewrite app_nil_r in Hout |]. exfalso.
  assert (forall r', r' ∈ r :: d ++ l -> is_Some (rw_watch r') -> rw_finish r' = false) as Hno.
  { intros r' Hr' [c Hc]. apply list_elem_of_In in Hr'. specialize (Hall r' Hr'). rewrite Hc, bool_decide_true, andb_true_r in Hall by (by eexists). by destruct (rw_finish r'). }
  assert (rw_finish r = true) as Hr by (inversion Hd as [|? ? ? ? (? & _)]; done).
  apply Forall_cons_iff in Hcov as [Hr0 _]. assert (is_Some (rw_watch r)) as Hw; [| rewrite (Hno r) in Hr; [done | by left | done]].
  destruct Hr0 as [|(c & Hc & _)]; [done |]. apply elem_of_coming in Hc as [Hc|(r0 & Hr0 & Hf & Hc)]; [rewrite Hlook in Hc; by apply elem_of_nil in Hc |].
  rewrite (Hno r0) in Hf; [done | done | by eexists].
Qed.

(** Every step of a thread that can go on brings the end nearer. *)
Definition measure (s : state) : nat := (2 * length (rd_in (st_sock s)) + length (st_look s))%nat.

Lemma watch_length ctr l : length (default l (get_socket_rawdata_from_list ctr l)) = length l.
Proof.
  destruct (get_socket_rawdata_from_list ctr l) as [l'|] eqn:E; cbn; [| done]. apply watch_found in E as (l1 & r & l2 & -> & _ & _ & ->).
  by rewrite !length_app.
Qed.

Lemma settles fuel s : exists ls s', chunks ls = [] /\ execs fuel ls s = Ret s' /\ quiet s' = true.
Proof.
  remember (measure s) as n eqn:En. assert (measure s <= n)%nat as Hn by lia. clear En. revert s Hn.
  induction n as [|n IH]; intros s Hn; (destruct (quiet s) eqn:Hq; [by exists [], s |]); unfold quiet in Hq; apply andb_false_iff in Hq; unfold measure in Hn.
  - destruct (st_look s), (rd_in (st_sock s)); cbn in *; try lia.
  - destruct (st_look s) as [|c look] eqn:El.
    + destruct Hq as [Hq|Hq]; [done |]. apply not_true_iff_false in Hq. rewrite forallb_forall in Hq.
      destruct (decide (Exists (fun r => rw_finish r && bool_decide (is_Some (rw_watch r)) = true) (rd_in (st_sock s)))) as [Hx|Hx].
      * apply Exists_exists in Hx as (r & Hr & Hfin). apply andb_true_iff in Hfin as [Hfin Hw]. apply bool_decide_eq_true in Hw as [c Hw].
        apply list_elem_of_lookup in Hr as [k Hk]. destruct (IH (mk_state (mk_sock (rd_ctr (st_sock s)) (delete k (rd_in (st_sock s)))) (c :: st_look s) (st_out s ++ [(rw_data r, rw_size r)])))
          as (ls & s' & Hch & Hex & Hq').
        { unfold measure. cbn. rewrite length_delete by (by eexists). apply lookup_lt_Some in Hk. rewrite El. cbn. cbn in Hn. lia. }
        exists (Take k :: ls), s'. split; [done |]. split; [| done]. cbn [execs exec]. rewrite Hk. destruct r as [? ? ? ? ?]; cbn in *. subst. cbn [outcome_bind]. done.
      * exfalso. apply Hq. intros r Hr. destruct (rw_finish r && bool_decide (is_Some (rw_watch r))) eqn:E; [| done]. exfalso. apply Hx, Exists_exists.
        exists r. split; [by apply list_elem_of_In | done].
    + destruct (IH (mk_state (mk_sock (rd_ctr (st_sock s)) (default (rd_in (st_sock s)) (get_socket_rawdata_from_list c (rd_in (st_sock s))))) look (st_out s)))
        as (ls & s' & Hch & Hex & Hq').
      { unfold measure. cbn [st_sock rd_in st_look]. rewrite watch_length. cbn in Hn. lia. }
      exists (Look 0 :: ls), s'. split; [done |]. split; [| done]. cbn [execs exec]. rewrite El. exact Hex.
Qed.


(** A message of no size does not end the loop over a chunk: it allocates without end. *)
Lemma fill_rest_spins ctr buffer : headersize <= zlen buffer -> get_msg_size buffer = Some 0 -> forall fuel, fill_rest fuel ctr buffer = NoFuel.
Proof.
  intros Hh Hz fuel. induction fuel as [|fuel IH]; [done |]. cbn [fill_rest]. rewrite (proj2 (Z.ltb_lt 0 (zlen buffer))) by lia. cbn [negb].
  rewrite (proj2 (Z.ltb_ge _ _) Hh), Hz. cbn [lift outcome_bind]. rewrite (proj2 (Z.ltb_ge (zlen buffer) 0)) by lia.
  change (Z.to_nat 0) with 0%nat. rewrite drop_0, IH. done.
Qed.

End Copy.

(** ** The fuse socket and the socket of the sftp server *)

(** An integer of 32 bits laid over the bytes at [i]. *)
Definition le_at (b : bytes) (i : Z) : option Z :=
  let? d := mem_read b i 4 in Some (be_decode (rev d) 0).

Definition get_fuse_msg_header_size : Z := 40.
Definition get_fuse_msg_size (header : bytes) : option Z := le_at header 0.
Definition set_fuse_msg_size (header : bytes) (len : Z) : option bytes := mem_write header 0 (rev (be_encode 4 len)).

(** [struct sftp_in_header_s]: three bytes behind [type], so that [id] is aligned. *)
Definition get_sftp_msg_header_size : Z := 12.
Definition get_sftp_msg_size (buffer : bytes) : option Z := let? len := le_at buffer 0 in Some (u32 (len + 4)).
Definition set_sftp_msg_size (buffer : bytes) (size : Z) : option bytes := mem_write buffer 0 (rev (be_encode 4 size)).
Definition in_header (header : bytes) : option sftp_in_header :=
  let? len := le_at header 0 in let? type := header !! 4%nat in let? id := le_at header 8 in Some (mk_inh len type id).

Lemma le_at_4 a b c d rest : le_at (a :: b :: c :: d :: rest) 0 = Some (a + 256 * b + 65536 * c + 16777216 * d).
Proof.
  unfold le_at. rewrite mem_read_Some by (unfold zlen; cbn [length]; lia). opt.
  change (take (Z.to_nat 4) (drop (Z.to_nat 0) (a :: b :: c :: d :: rest))) with [a; b; c; d]. cbn [rev app be_decode]. f_equal. unfold be_decode. lia.
Qed.

Lemma le_at_encode v rest : is_u32 v -> le_at (rev (be_encode 4 v) ++ rest) 0 = Some v.
Proof.
  intros Hv. assert (zlen (rev (be_encode 4 v)) = 4) as Hz by (unfold zlen; by rewrite length_rev, length_be_encode).
  unfold le_at. rewrite mem_read_Some by (rewrite ?zlen_app; pose proof (zlen_nonneg rest); lia). opt.
  change (drop (Z.to_nat 0) ?l) with l. replace (take (Z.to_nat 4) (rev (be_encode 4 v) ++ rest)) with (rev (be_encode 4 v)) by done.
  rewrite rev_involutive, be_decode_encode; [done |]. exact Hv.
Qed.

(** What the header of a fuse request announces is what is taken ... *)
Lemma fuse_framed len rest : 40 <= len < 2 ^ 31 -> 4 + zlen rest = len -> framed get_fuse_msg_header_size get_fuse_msg_size (rev (be_encode 4 len) ++ rest).
Proof.
  intros Hl Hz. assert (zlen (rev (be_encode 4 len) ++ rest) = len) as Hm by by rewrite zlen_app.
  split; rewrite Hm; [done |]. intros more. unfold get_fuse_msg_size, get_fuse_msg_header_size.
  change (Z.to_nat 40) with (length (rev (be_encode 4 len)) + 36)%nat. rewrite take_app_add, <- app_assoc. apply le_at_encode. unfold is_u32. lia.
Qed.

(** ... and handed over as its header, with the length of the data in it, and the data. *)
Lemma fuse_processed len hdr data : zlen hdr = 36 -> len = 40 + zlen data -> is_u32 len ->
  process_data_buffer get_fuse_msg_header_size set_fuse_msg_size (rev (be_encode 4 len) ++ hdr ++ data, len) =
    Some (rev (be_encode 4 (zlen data)) ++ hdr, data).
Proof.
  intros Hh -> Hlen. set (b := rev (be_encode 4 (40 + zlen data))). assert (zlen b = 4) as Hb by done. unfold process_data_buffer, get_fuse_msg_header_size. cbn [fst snd].
  pose proof (zlen_nonneg data). rewrite app_assoc. assert (zlen (b ++ hdr) = 40) as H40 by (rewrite ?zlen_app in *; lia).
  assert (Z.to_nat 40 = length (b ++ hdr)) as Hn by (unfold zlen in H40; lia).
  rewrite (u32_id (40 + zlen data - 40)) by (unfold is_u32 in *; lia). replace (40 + zlen data - 40) with (zlen data) by lia.
  rewrite (mem_read_Some _ 0 40) by (rewrite ?zlen_app in *; lia). opt. rewrite drop_0, Hn, take_app_length.
  rewrite mem_read_Some by (rewrite ?zlen_app in *; lia). opt. rewrite Hn, drop_app_length. rewrite take_ge by (unfold zlen; lia).
  unfold set_fuse_msg_size. rewrite mem_write0_Some by (rewrite H40; done). opt. done.
Qed.

(** The header of the sftp server over a frame of the protocol. *)
Definition announced (n : Z) : Z := 65536 * (n / 256) + 16777216 * (n mod 256) + 4.

Lemma be_encode_short n : 0 <= n < 2 ^ 16 -> be_encode 4 n = [0; 0; n / 256; n mod 256].
Proof.
  intros Hn. change (be_encode 4 n) with [n / 256 / 256 / 256 mod 256; n / 256 / 256 mod 256; n / 256 mod 256; n mod 256].
  assert (0 <= n / 256 < 256) by (split; [apply Z.div_pos | apply Z.div_lt_upper_bound]; lia).
  rewrite (Z.div_small (n / 256)), (Z.mod_small (n / 256)) by done. done.
Qed.

Lemma announced_size n more : 0 <= n < 2 ^ 16 -> get_sftp_msg_size (be_encode 4 n ++ more) = Some (announced n).
Proof.
  intros Hn. unfold get_sftp_msg_size. rewrite be_encode_short by lia. cbn [app]. rewrite le_at_4. opt.
  pose proof (Z.mod_pos_bound n 256 ltac:(lia)). assert (0 <= n / 256 < 256) by (split; [apply Z.div_pos | apply Z.div_lt_upper_bound]; lia).
  rewrite u32_id; unfold announced; [f_equal; lia | unfold is_u32; lia].
Qed.

Lemma announced_more n : 8 <= n < 2 ^ 16 -> n + 4 < announced n.
Proof.
  intros Hn. unfold announced. pose proof (Z.div_mod n 256 ltac:(lia)). pose proof (Z.mod_pos_bound n 256 ltac:(lia)).
  assert (0 <= n / 256 < 256) by (split; [apply Z.div_pos | apply Z.div_lt_upper_bound]; lia). lia.
Qed.

Lemma announced_framed n rest : 0 <= n < 2 ^ 16 -> n mod 256 < 128 -> 12 <= announced n -> zlen rest = announced n - 4 ->
  framed get_sftp_msg_header_size get_sftp_msg_size (be_encode 4 n ++ rest).
Proof.
  intros Hn Hmod H12 Hz. assert (0 <= n / 256 < 256) by (split; [apply Z.div_pos | apply Z.div_lt_upper_bound]; lia).
  assert (zlen (be_encode 4 n ++ rest) = announced n) as Hl by (rewrite zlen_app, zlen_be_encode; lia).
  split; rewrite Hl; [unfold get_sftp_msg_header_size, announced in *; lia |]. intros more. unfold get_sftp_msg_header_size.
  change (Z.to_nat 12) with (length (be_encode 4 n) + 8)%nat. rewrite take_app_add, <- app_assoc. by apply announced_size.
Qed.

Lemma frame_id type id payload : 3 <= zlen payload ->
  (let? inh := in_header (frame type id payload) in Some (inh_id inh)) = Some (be_decode (rev (id mod 256 :: take 3 payload)) 0).
Proof.
  intros H3. destruct payload as [|p0 [|p1 [|p2 rest]]]; try (unfold zlen in H3; cbn in H3; lia). unfold in_header, frame. set (n := 5 + zlen _).
  change (be_encode 4 n) with [n / 256 / 256 / 256 mod 256; n / 256 / 256 mod 256; n / 256 mod 256; n mod 256].
  change (be_encode 4 id) with [id / 256 / 256 / 256 mod 256; id / 256 / 256 mod 256; id / 256 mod 256; id mod 256].
  cbn [app]. rewrite le_at_4. opt. unfold le_at. rewrite mem_read_Some by (unfold zlen; cbn [length]; lia). opt. done.
Qed.

(** C34: the server lays its header, which is padded and in the order of the host, over
    the requests of the client: a request of less than 2^16 bytes announces a
    length that is not its own, and the id read of it has one byte of the id
    and the first three of the payload; and whatever the parts in which it
    arrives and the order of the threads, a request that is sent alone (its length
    such that the one announced is below 2^31) is never handed over. *)
Theorem requests_misframed (type id : Z) (payload : bytes) (fuel : nat) (ctr : Z) (ls : list label) :
  let n := 5 + zlen payload in
  3 <= zlen payload -> n < 2 ^ 16 -> n mod 256 < 128 -> is_u32 id ->
  0 <= ctr -> ctr + zlen ls < 2 ^ 64 -> Forall (fun c => c <> []) (chunks ls) -> concat (chunks ls) = frame type id payload -> (1 < fuel)%nat ->
  get_sftp_msg_size (frame type id payload) = Some (announced n) /\ zlen (frame type id payload) < announced n /\
  (let? inh := in_header (frame type id payload) in Some (inh_id inh)) = Some (be_decode (rev (id mod 256 :: take 3 payload)) 0) /\
  exists s, execs get_sftp_msg_header_size get_sftp_msg_size fuel ls (mk_state (mk_sock ctr []) [] []) = Ret s /\ st_out s = [].
Proof.
  intros n H3 Hn Hmod Hid H0 Hctr Hch E Hf. assert (zlen (frame type id payload) = n + 4) as Hz by (rewrite zlen_frame; unfold n; lia).
  pose proof (announced_more n ltac:(unfold n in *; lia)) as Hmore. split; [by apply announced_size; lia |]. split; [lia |]. split; [by apply frame_id |].
  set (more := replicate (Z.to_nat (announced n - (n + 4))) 0). assert (zlen more = announced n - (n + 4)) as Hzm by (unfold zlen, more; rewrite length_replicate; lia).
  set (rest := type :: be_encode 4 id ++ payload). assert (frame type id payload = be_encode 4 n ++ rest) as Ef by done.
  assert (framed get_sftp_msg_header_size get_sftp_msg_size (frame type id payload ++ more)) as Hm.
  { rewrite Ef, <- app_assoc. apply announced_framed; [unfold n in *; lia | done | lia |]. rewrite Ef, zlen_app, zlen_be_encode in Hz. rewrite zlen_app. lia. }
  destruct (run_keeps get_sftp_msg_header_size get_sftp_msg_size ltac:(done) fuel ls (mk_state (mk_sock ctr []) [] []) [] [] [frame type id payload ++ more] more)
    as (s & ms1 & ms2 & p & Hex & Ems & Ec & Hp & Hs).
  - split; cbn; try done; [| constructor]. by exists [], [], [].
  - done.
  - by left.
  - by constructor.
  - rewrite Forall_forall in *. intros c Hc. split; [by apply Hch |]. apply list_elem_of_split in Hc as (l1 & l2 & Hc). rewrite Hc, concat_app in E.
    apply (f_equal zlen) in E. cbn [concat] in E. rewrite !zlen_app in E. pose proof (zlen_nonneg (concat l1)). pose proof (zlen_nonneg (concat l2)). lia.
  - cbn. by rewrite E, app_nil_r.
  - done.
  - exists s. split; [done |]. destruct ms1 as [|m ms1].
    + destruct (iv_list _ _ _ _ Hs) as (_ & here & _ & _ & _ & _ & Hout). apply Permutation_nil_r in Hout. by apply app_nil in Hout as [-> _].
    + assert (frame type id payload ++ more = m) as Em by (cbn [app] in Ems; congruence). cbn [app concat] in Ec. rewrite E in Ec. apply (f_equal zlen) in Ec. rewrite !zlen_app in Ec. apply (f_equal zlen) in Em. rewrite zlen_app in Em. pose proof (zlen_nonneg p). pose proof (zlen_nonneg (concat ms1)). lia.
Qed.

(** four bytes of a client keep the server busy for ever: of what the server has
    read at the begin of a message, with fc ff ff ff in front, the copy never ends,
    whatever the number of rounds, and each of them allocates a message of no size. *)
Theorem copy_never_ends (ctr : Z) (rest : bytes) : 8 <= zlen rest -> zlen rest < 2 ^ 31 ->
  forall fuel, cb_copy_socket_default get_sftp_msg_header_size get_sftp_msg_size fuel (mk_sock ctr []) (252 :: 255 :: 255 :: 255 :: rest) = NoFuel.
Proof.
  intros H8 H31 fuel. set (b := 252 :: 255 :: 255 :: 255 :: rest). assert (zlen b = 4 + zlen rest) as Hb by (unfold b; rewrite !zlen_cons; lia).
  assert (forall more, get_sftp_msg_size (b ++ more) = Some 0) as Hs by (intros; unfold get_sftp_msg_size, b; cbn [app]; by rewrite le_at_4).
  unfold cb_copy_socket_default, fill, rw_pos, determine_msg_size, move, rw_pos. cbn [rd_in searchrawdata default new_rawdata rw_data rw_size rw_ctr rw_finish rw_watch].
  change (zlen []) with 0. rewrite u32_id by (unfold is_u32; lia). unfold get_sftp_msg_header_size. rewrite (proj2 (Z.ltb_ge (0 + zlen b) 12)) by lia.
  change (0 <? 12) with true. cbv iota. rewrite (mem_read_Some b 0 (12 - 0)) by lia. opt. cbn [app].
  replace (take (Z.to_nat (12 - 0)) (drop (Z.to_nat 0) b)) with (252 :: 255 :: 255 :: 255 :: take 8 rest) by done.
  unfold get_sftp_msg_size at 1. rewrite le_at_4. opt. cbn [lift outcome_bind]. change (u32 (252 + 256 * 255 + 65536 * 255 + 16777216 * 255 + 4)) with 0.
  rewrite (proj2 (Z.leb_le 0 (0 + zlen b))) by lia. change (u32 (0 - 0)) with 0. change (u32 (0 + 0)) with 0. cbn [Z.ltb Z.leb Z.compare].
  rewrite (mem_read_Some b 0 0) by lia. opt. cbn [lift outcome_bind]. change (Z.to_nat 0) with 0%nat. rewrite !drop_0.
  rewrite fill_rest_spins; [done | lia | lia |]. rewrite <- (app_nil_r b). apply Hs.
Qed.

(** ** Examples *)

Definition ex_fuse (len : Z) (x : Z) : bytes := rev (be_encode 4 len) ++ replicate (Z.to_nat (len - 4)) x.

(** The rest of the first message and the second one arrive together: the second may be handed over first. *)
Definition ex_run : list label :=
  [Copy (take 10 (ex_fuse 42 1)); Look 0; Copy (drop 10 (ex_fuse 42 1) ++ ex_fuse 41 2); Look 0; Take 1; Take 0].

Example ex_overtakes :
  (let! s := execs get_fuse_msg_header_size get_fuse_msg_size 3 ex_run (mk_state (mk_sock 0 []) [] []) in Ret (st_out s)) =
  Ret [(ex_fuse 41 2, 41); (ex_fuse 42 1, 42)].
Proof. vm_compute. reflexivity. Qed.


(** A request READ of 24 + 5 bytes behind the length, in two parts. *)
Definition ex_request : bytes := frame 5 7 (replicate 24 1).
Definition ex_parts : list label := [Copy (take 6 ex_request); Look 0; Copy (drop 6 ex_request); Look 0].

Lemma requests_misframed_witness :
  get_sftp_msg_size ex_request = Some (announced 29) /\ zlen ex_request < announced 29 /\
  (let? inh := in_header ex_request in Some (inh_id inh)) = Some (be_decode (rev [7; 1; 1; 1]) 0) /\
  exists s, execs get_sftp_msg_header_size get_sftp_msg_size 2 ex_parts (mk_state (mk_sock 0 []) [] []) = Ret s /\ st_out s = [].
Proof.
  apply (requests_misframed 5 7 (replicate 24 1) 2 0 ex_parts); try done; try lia. repeat constructor; done.
Defined.

Lemma copy_never_ends_witness :
  cb_copy_socket_default get_sftp_msg_header_size get_sftp_msg_size 100 (mk_sock 0 []) (252 :: 255 :: 255 :: 255 :: replicate 8 0) = NoFuel.
Proof.
  apply (copy_never_ends 0 (replicate 8 0)); done.
Defined.

End SocketFrames.
