(* ===== verification/SshCipher.v ===== *)
(** Ciphers and message authentication of the ssh packet protocol:
    [ssh/send/encrypt-generic.c], [ssh/send/encrypt-chacha20-poly1305.c],
    [ssh/receive/decrypt-generic.c], [ssh/receive/decrypt-chacha20-poly1305.c].

    An encryptor and a decryptor are records of the function pointers that
    the [init] functions install, over the handle they keep.  The library
    libgcrypt is a parameter: the class [gcrypt] has its functions, the class
    [chacha_laws] what the code relies on of the stream cipher and of the one
    time authenticator.  Every access to a packet's buffer is checked:
    outside of it the run is [Ub]. *)
From stdpp Require Import base list option strings.
From Stdlib Require Import ZArith Lia.
From S2P Require Import Prelude SshUint.
Import SshUint.
Open Scope Z_scope.

Module SshCipher.

(** ** Strings of the source *)

Definition lit (s : string) : bytes :=
  map (fun c => Z.of_N (Ascii.N_of_ascii c)) (String.list_ascii_of_string s).

Definition starts_with (pre name : bytes) : bool := bytes_eqb (take (length pre) name) pre.

(** [memchr(tmp, '-', len)]: the text before and after the first dash. *)
Fixpoint cut_dash (name : bytes) : bytes * option bytes :=
  match name with
  | [] => ([], None)
  | c :: name => if c =? 45 then ([], Some name) else let '(a, b) := cut_dash name in (c :: a, b)
  end.

Fixpoint digits (acc : Z) (s : bytes) : Z :=
  match s with
  | c :: s => if (48 <=? c) && (c <=? 57) then digits (10 * acc + (c - 48)) s else acc
  | [] => acc
  end.

Fixpoint atoi (s : bytes) : Z :=
  match s with
  | [] => 0
  | c :: r =>
      if (c =? 32) || ((9 <=? c) && (c <=? 13)) then atoi r
      else if c =? 45 then - digits 0 r
      else if c =? 43 then digits 0 r
      else digits 0 s
  end.

(** ** libgcrypt *)

Class gcrypt : Type := {
  chandle : Type;
  mhandle : Type;
  GCRY_CIPHER_MODE_CBC : Z;
  GCRY_CIPHER_MODE_CTR : Z;
  GCRY_CIPHER_MODE_ECB : Z;
  GCRY_CIPHER_MODE_STREAM : Z;
  GCRY_MAC_HMAC_SHA1 : Z;
  GCRY_MAC_HMAC_MD5 : Z;
  GCRY_MAC_HMAC_SHA256 : Z;
  GCRY_MAC_HMAC_SHA224 : Z;
  GCRY_MAC_HMAC_SHA512 : Z;
  GCRY_MAC_HMAC_SHA384 : Z;
  GCRY_MAC_POLY1305 : Z;
  gcry_cipher_map_name : bytes -> Z;
  gcry_cipher_open : Z -> Z -> Z * chandle;
  gcry_cipher_setkey : chandle -> bytes -> Z * chandle;
  gcry_cipher_setiv : chandle -> bytes -> Z * chandle;
  gcry_cipher_get_algo_blklen : Z -> Z;
  gcry_cipher_encrypt : chandle -> bytes -> Z * chandle * bytes;
  gcry_cipher_decrypt : chandle -> bytes -> Z * chandle * bytes;
  gcry_mac_map_name : bytes -> Z;
  gcry_mac_open : Z -> Z * mhandle;
  gcry_mac_setkey : mhandle -> bytes -> Z * mhandle;
  gcry_mac_get_algo_maclen : Z -> Z;
  gcry_mac_write : mhandle -> bytes -> Z * mhandle;
  gcry_mac_read : mhandle -> Z -> Z * mhandle * bytes;
  gcry_mac_verify : mhandle -> bytes -> Z * mhandle }.

(** ** The packet *)

Record packet : Type := mkPacket {
  p_len : Z; p_size : Z; p_padding : Z; p_error : Z; p_sequence : Z; p_type : Z; p_decrypted : Z;
  p_buffer : bytes }.

Definition set_buffer (p : packet) (b : bytes) : packet :=
  mkPacket (p_len p) (p_size p) (p_padding p) (p_error p) (p_sequence p) (p_type p) (p_decrypted p) b.
Definition set_decrypted (p : packet) (n : Z) : packet :=
  mkPacket (p_len p) (p_size p) (p_padding p) (p_error p) (p_sequence p) (p_type p) n (p_buffer p).
Definition set_padding (p : packet) (n : Z) : packet :=
  mkPacket (p_len p) (p_size p) n (p_error p) (p_sequence p) (p_type p) (p_decrypted p) (p_buffer p).
Definition set_plen (p : packet) (n : Z) : packet :=
  mkPacket n (p_size p) (p_padding p) (p_error p) (p_sequence p) (p_type p) (p_decrypted p) (p_buffer p).

(** The actions have the C result, the handle and the packet after it. *)
Definition packet_action (H : Type) : Type := H -> packet -> outcome (Z * H * packet).

Record encryptor (H : Type) : Type := mkEncryptor {
  e_handle : H;
  e_write_hmac_pre : Z -> packet_action H;
  e_encrypt_packet : packet_action H;
  e_write_hmac_post : Z -> packet_action H;
  e_get_message_padding : Z -> Z -> Z;
  e_cipher_blocksize : Z;
  e_hmac_maclen : Z }.
Arguments mkEncryptor {H} _ _ _ _ _ _ _.
Arguments e_handle {H} _.
Arguments e_write_hmac_pre {H} _ _.
Arguments e_encrypt_packet {H} _.
Arguments e_write_hmac_post {H} _ _.
Arguments e_get_message_padding {H} _ _ _.
Arguments e_cipher_blocksize {H} _.
Arguments e_hmac_maclen {H} _.

Record decryptor (H : Type) : Type := mkDecryptor {
  d_handle : H;
  d_verify_hmac_pre : Z -> packet_action H;
  d_decrypt_length : H -> packet -> Z -> outcome (Z * H * packet * bytes);
  d_decrypt_packet : packet_action H;
  d_verify_hmac_post : Z -> packet_action H;
  d_cipher_blocksize : Z;
  d_cipher_headersize : Z;
  d_hmac_maclen : Z }.
Arguments mkDecryptor {H} _ _ _ _ _ _ _ _.
Arguments d_handle {H} _.
Arguments d_verify_hmac_pre {H} _ _.
Arguments d_decrypt_length {H} _ _ _ _.
Arguments d_decrypt_packet {H} _.
Arguments d_verify_hmac_post {H} _ _.
Arguments d_cipher_blocksize {H} _.
Arguments d_cipher_headersize {H} _.
Arguments d_hmac_maclen {H} _.

Definition set_ehandle {H} (e : encryptor H) (h : H) : encryptor H :=
  mkEncryptor h (e_write_hmac_pre e) (e_encrypt_packet e) (e_write_hmac_post e)
    (e_get_message_padding e) (e_cipher_blocksize e) (e_hmac_maclen e).
Definition set_dhandle {H} (d : decryptor H) (h : H) : decryptor H :=
  mkDecryptor h (d_verify_hmac_pre d) (d_decrypt_length d) (d_decrypt_packet d)
    (d_verify_hmac_post d) (d_cipher_blocksize d) (d_cipher_headersize d) (d_hmac_maclen d).

(** ** Padding *)

Definition get_message_padding (blocksize len : Z) : Z :=
  let mod_ := len mod blocksize in
  let padding := u8 (blocksize - mod_) in
  if padding <? 4 then u8 (padding + blocksize) else padding.

Definition get_message_padding_custom (blocksize len : Z) : Z :=
  let mod_ := u32 (len - 4) mod blocksize in
  let padding := u8 (blocksize - mod_) in
  if padding <? 4 then u8 (padding + blocksize) else padding.

Section Gcrypt.
Context `{G : gcrypt}.

(** ** The generic ciphers *)

Record generic_handle : Type := mkGeneric { g_c : option chandle; g_m : option mhandle }.

Definition write_hmac_none (maclen : Z) : packet_action generic_handle := fun h p => Ret (0, h, p).

Definition write_hmac_pre (maclen : Z) : packet_action generic_handle := fun h p =>
  let! m := lift (g_m h) in
  let! tmp := lift (store_uint32 (replicate 4 0) (p_sequence p)) in
  let '(_, m) := gcry_mac_write m tmp in
  let! d := lift (mem_read (p_buffer p) 0 (p_len p)) in
  let '(_, m) := gcry_mac_write m d in
  Ret (0, mkGeneric (g_c h) (Some m), p).

Definition encrypt_packet_none : packet_action generic_handle := fun h p => Ret (0, h, p).

Definition encrypt_packet : packet_action generic_handle := fun h p =>
  let! c := lift (g_c h) in
  let! d := lift (mem_read (p_buffer p) 0 (p_len p)) in
  let '(result, c, out) := gcry_cipher_encrypt c d in
  if result =? 0
  then let! b := lift (mem_write (p_buffer p) 0 out) in Ret (0, mkGeneric (Some c) (g_m h), set_buffer p b)
  else Ret (-1, mkGeneric (Some c) (g_m h), p).

Definition write_hmac_post (maclen : Z) : packet_action generic_handle := fun h p =>
  let! m := lift (g_m h) in
  let '(result, m, tag) := gcry_mac_read m maclen in
  if result =? 0
  then let! b := lift (mem_write (p_buffer p) (p_len p) tag) in
       Ret (0, mkGeneric (g_c h) (Some m), set_buffer p b)
  else Ret (-1, mkGeneric (g_c h) (Some m), p).

Definition verify_hmac_none (maclen : Z) : packet_action generic_handle := fun h p => Ret (0, h, p).

Definition decrypt_length (h : generic_handle) (p : packet) (len : Z)
    : outcome (Z * generic_handle * packet * bytes) :=
  let! c := lift (g_c h) in
  let! d := lift (mem_read (p_buffer p) 0 len) in
  let '(result, c, out) := gcry_cipher_decrypt c d in
  if result =? 0
  then Ret (0, mkGeneric (Some c) (g_m h), set_decrypted p len, out)
  else Ret (-1, mkGeneric (Some c) (g_m h), p, out).

Definition decrypt_length_none (h : generic_handle) (p : packet) (len : Z)
    : outcome (Z * generic_handle * packet * bytes) :=
  let! d := lift (mem_read (p_buffer p) 0 len) in
  Ret (0, h, set_decrypted p len, d).

Definition decrypt_packet : packet_action generic_handle := fun h p =>
  let! c := lift (g_c h) in
  let! d := lift (mem_read (p_buffer p) (p_decrypted p) (u32 (p_len p - p_decrypted p))) in
  let '(result, c, out) := gcry_cipher_decrypt c d in
  if result =? 0
  then let! b := lift (mem_write (p_buffer p) (p_decrypted p) out) in
       Ret (0, mkGeneric (Some c) (g_m h), set_decrypted (set_buffer p b) (p_len p))
  else Ret (-1, mkGeneric (Some c) (g_m h), p).

Definition decrypt_packet_none : packet_action generic_handle := fun h p => Ret (0, h, p).

Definition verify_hmac_post (maclen : Z) : packet_action generic_handle := fun h p =>
  let! m := lift (g_m h) in
  let! tmp := lift (store_uint32 (replicate 4 0) (p_sequence p)) in
  let '(_, m) := gcry_mac_write m tmp in
  let! d := lift (mem_read (p_buffer p) 0 (p_len p)) in
  let '(_, m) := gcry_mac_write m d in
  let! tag := lift (mem_read (p_buffer p) (p_len p) maclen) in
  let '(result, m) := gcry_mac_verify m tag in
  Ret (if result =? 0 then 0 else -1, mkGeneric (g_c h) (Some m), p).

Definition get_cipher_param (name : bytes) : Z * Z :=
  let '(tmp, sep) := cut_dash name in
  let mode :=
    match sep with
    | Some s =>
        if bytes_eqb s (lit "cbc") then GCRY_CIPHER_MODE_CBC
        else if bytes_eqb s (lit "ctr") then GCRY_CIPHER_MODE_CTR
        else if bytes_eqb s (lit "ecb") then GCRY_CIPHER_MODE_ECB else 0
    | None => 0
    end in
  (gcry_cipher_map_name tmp, mode).

Definition truncated_hmac (algo m : Z) : Z * Z :=
  if (0 <? m) && (m mod 8 =? 0) && (m <=? gcry_mac_get_algo_maclen algo) then (algo, m) else (0, m).

Definition get_hmac_param (name : bytes) : Z * Z :=
  if bytes_eqb name (lit "hmac-sha1") then (GCRY_MAC_HMAC_SHA1, gcry_mac_get_algo_maclen GCRY_MAC_HMAC_SHA1)
  else if (10 <? zlen name) && starts_with (lit "hmac-sha1-") name then
    truncated_hmac GCRY_MAC_HMAC_SHA1 (u32 (atoi (drop 10 name)))
  else if bytes_eqb name (lit "hmac-md5") then (GCRY_MAC_HMAC_MD5, gcry_mac_get_algo_maclen GCRY_MAC_HMAC_MD5)
  else if starts_with (lit "hmac-md5-") name then
    truncated_hmac GCRY_MAC_HMAC_MD5 (u32 (atoi (drop 9 name)))
  else if bytes_eqb name (lit "hmac-sha256") then (GCRY_MAC_HMAC_SHA256, gcry_mac_get_algo_maclen GCRY_MAC_HMAC_SHA256)
  else if bytes_eqb name (lit "hmac-sha224") then (GCRY_MAC_HMAC_SHA224, gcry_mac_get_algo_maclen GCRY_MAC_HMAC_SHA224)
  else if bytes_eqb name (lit "hmac-sha512") then (GCRY_MAC_HMAC_SHA512, gcry_mac_get_algo_maclen GCRY_MAC_HMAC_SHA512)
  else if bytes_eqb name (lit "hmac-sha384") then (GCRY_MAC_HMAC_SHA384, gcry_mac_get_algo_maclen GCRY_MAC_HMAC_SHA384)
  else let algo := gcry_mac_map_name name in (algo, if 0 <? algo then gcry_mac_get_algo_maclen algo else 0).

(** What a key exchange leaves for the init functions: [struct ssh_encrypt_s]
    and [struct ssh_decrypt_s]. *)
Record crypto_conf : Type := mkConf {
  ciphername : bytes; hmacname : bytes; cipher_key : bytes; cipher_iv : bytes; hmac_key : bytes }.

(** A gcrypt call whose error leads to [goto error]. *)
Definition checked {A} (r : Z * A) : option A := if r.1 =? 0 then Some r.2 else None.

Definition open_cipher (conf : crypto_conf) : option (chandle * Z) :=
  let '(c_algo, c_mode) := get_cipher_param (ciphername conf) in
  if (c_algo =? 0) || (c_mode =? 0) then None else
  let? c := checked (gcry_cipher_open c_algo c_mode) in
  let? c := checked (gcry_cipher_setkey c (cipher_key conf)) in
  let? c := checked (gcry_cipher_setiv c (cipher_iv conf)) in
  Some (c, gcry_cipher_get_algo_blklen c_algo).

Definition open_mac (conf : crypto_conf) : option (mhandle * Z) :=
  let '(m_algo, m_maclen) := get_hmac_param (hmacname conf) in
  if m_algo =? 0 then None else
  let? m := checked (gcry_mac_open m_algo) in
  let? m := checked (gcry_mac_setkey m (hmac_key conf)) in
  Some (m, m_maclen).

(** [None] is the result [-1], after [clear_cipher_generic]. *)
Definition init_encryptor (conf : crypto_conf) : option (encryptor generic_handle) :=
  let? (c, bs, enc) :=
    (if bytes_eqb (ciphername conf) (lit "none") then Some (None, 8, encrypt_packet_none)
     else let? (c, bs) := open_cipher conf in Some (Some c, bs, encrypt_packet)) in
  let? (m, maclen, pre, post) :=
    (if bytes_eqb (hmacname conf) (lit "none") then Some (None, 0, write_hmac_none, write_hmac_none)
     else let? (m, maclen) := open_mac conf in Some (Some m, maclen, write_hmac_pre, write_hmac_post)) in
  Some (mkEncryptor (mkGeneric c m) pre enc post get_message_padding bs maclen).

Definition init_decryptor (conf : crypto_conf) : option (decryptor generic_handle) :=
  let? (c, bs, declen, dec) :=
    (if bytes_eqb (ciphername conf) (lit "none") then Some (None, 8, decrypt_length_none, decrypt_packet_none)
     else let? (c, bs) := open_cipher conf in Some (Some c, bs, decrypt_length, decrypt_packet)) in
  let? (m, maclen, post) :=
    (if bytes_eqb (hmacname conf) (lit "none") then Some (None, 0, verify_hmac_none)
     else let? (m, maclen) := open_mac conf in Some (Some m, maclen, verify_hmac_post)) in
  Some (mkDecryptor (mkGeneric c m) verify_hmac_none declen dec post bs bs maclen).

(** ** chacha20-poly1305 *)

Definition POLY1305_TAGLEN : Z := 16.
Definition POLY1305_KEYLEN : Z := 32.
Definition CHACHA20_BLOCKSIZE : Z := 64.
Definition CHACHA20_KEYSIZE : Z := 32.
Definition CHACHA20_HEADERSIZE : Z := 4.

Record chacha_handle : Type := mkChacha {
  c_headerhandle : chandle; c_packethandle : chandle; m_handle : mhandle }.

(** The first block of the key stream of the packet is the key of the
    authenticator: [setiv] of both handles, [encrypt] of a block of zeros,
    [gcry_mac_setkey] of its first bytes. *)
Definition set_packet_key (h : chacha_handle) (seqbuff : bytes) : chacha_handle :=
  let '(_, hh) := gcry_cipher_setiv (c_headerhandle h) seqbuff in
  let '(_, ph) := gcry_cipher_setiv (c_packethandle h) seqbuff in
  let '(_, ph, key) := gcry_cipher_encrypt ph (replicate (Z.to_nat CHACHA20_BLOCKSIZE) 0) in
  let '(_, m) := gcry_mac_setkey (m_handle h) (take (Z.to_nat POLY1305_KEYLEN) key) in
  mkChacha hh ph m.

Definition cc_write_hmac_pre (maclen : Z) : packet_action chacha_handle := fun h p => Ret (0, h, p).

Definition cc_write_hmac_post (maclen : Z) : packet_action chacha_handle := fun h p =>
  let! d := lift (mem_read (p_buffer p) 0 (p_len p)) in
  let '(result, m) := gcry_mac_write (m_handle h) d in
  let h := mkChacha (c_headerhandle h) (c_packethandle h) m in
  if negb (result =? 0) then Ret (-1, h, p) else
  let '(result, m, tag) := gcry_mac_read m maclen in
  let h := mkChacha (c_headerhandle h) (c_packethandle h) m in
  if negb (result =? 0) then Ret (-1, h, p) else
  let! b := lift (mem_write (p_buffer p) (p_len p) tag) in
  Ret (0, h, set_buffer p b).

Definition cc_encrypt_packet : packet_action chacha_handle := fun h p =>
  let! seqbuff := lift (store_uint64 (replicate 8 0) (p_sequence p)) in
  let h := set_packet_key h seqbuff in
  let! d := lift (mem_read (p_buffer p) 0 CHACHA20_HEADERSIZE) in
  let '(result, hh, out) := gcry_cipher_encrypt (c_headerhandle h) d in
  let h := mkChacha hh (c_packethandle h) (m_handle h) in
  if negb (result =? 0) then Ret (-1, h, p) else
  let! b := lift (mem_write (p_buffer p) 0 out) in
  let p := set_buffer p b in
  let! d := lift (mem_read (p_buffer p) CHACHA20_HEADERSIZE (u32 (p_len p - CHACHA20_HEADERSIZE))) in
  let '(result, ph, out) := gcry_cipher_encrypt (c_packethandle h) d in
  let h := mkChacha (c_headerhandle h) ph (m_handle h) in
  if negb (result =? 0) then Ret (-1, h, p) else
  let! b := lift (mem_write (p_buffer p) CHACHA20_HEADERSIZE out) in
  Ret (0, h, set_buffer p b).

Definition cc_verify_hmac_pre (maclen : Z) : packet_action chacha_handle := fun h p =>
  let! d := lift (mem_read (p_buffer p) 0 (u32 (p_len p + 4))) in
  let '(_, m) := gcry_mac_write (m_handle h) d in
  let! tag := lift (mem_read (p_buffer p) (p_len p + 4) maclen) in
  let '(result, m) := gcry_mac_verify m tag in
  Ret (if result =? 0 then 0 else -1, mkChacha (c_headerhandle h) (c_packethandle h) m, p).

Definition cc_decrypt_length (h : chacha_handle) (p : packet) (len : Z)
    : outcome (Z * chacha_handle * packet * bytes) :=
  let! seqbuff := lift (store_uint64 (replicate 8 0) (p_sequence p)) in
  let '(_, hh) := gcry_cipher_setiv (c_headerhandle h) seqbuff in
  let '(_, ph) := gcry_cipher_setiv (c_packethandle h) seqbuff in
  let! d := lift (mem_read (p_buffer p) 0 len) in
  let '(result, hh, out) := gcry_cipher_decrypt hh d in
  if result =? 0 then
    let '(_, ph, key) := gcry_cipher_encrypt ph (replicate (Z.to_nat CHACHA20_BLOCKSIZE) 0) in
    let '(_, m) := gcry_mac_setkey (m_handle h) (take (Z.to_nat POLY1305_KEYLEN) key) in
    Ret (0, mkChacha hh ph m, set_decrypted p len, out)
  else Ret (-1, mkChacha hh ph (m_handle h), p, out).

Definition cc_decrypt_packet : packet_action chacha_handle := fun h p =>
  let len := u32 (p_len p - p_decrypted p) in
  let! d := lift (mem_read (p_buffer p) (p_decrypted p) len) in
  let '(result, ph, out) := gcry_cipher_decrypt (c_packethandle h) d in
  let h := mkChacha (c_headerhandle h) ph (m_handle h) in
  if result =? 0
  then let! b := lift (mem_write (p_buffer p) (p_decrypted p) out) in
       Ret (0, h, set_decrypted (set_buffer p b) (u32 (p_decrypted p + len)))
  else Ret (-1, h, p).

Definition cc_verify_hmac_post (maclen : Z) : packet_action chacha_handle := fun h p => Ret (0, h, p).

Definition chacha_name : bytes := lit "chacha20-poly1305@openssh.com".

Definition cc_get_cipher_param (name : bytes) : Z * Z :=
  if bytes_eqb name chacha_name then (gcry_cipher_map_name (lit "chacha20"), GCRY_CIPHER_MODE_STREAM) else (0, 0).

Definition cc_get_hmac_param (name : bytes) : Z * Z :=
  if bytes_eqb name chacha_name then (GCRY_MAC_POLY1305, POLY1305_TAGLEN) else (0, 0).

Definition cc_open (conf : crypto_conf) : option (chacha_handle * Z) :=
  let '(c_algo, c_mode) := cc_get_cipher_param (ciphername conf) in
  if (c_algo =? 0) || (c_mode =? 0) then None else
  let? hh := checked (gcry_cipher_open c_algo c_mode) in
  let? ph := checked (gcry_cipher_open c_algo c_mode) in
  if negb (zlen (cipher_key conf) =? 2 * CHACHA20_KEYSIZE) then None else
  let? ph := checked (gcry_cipher_setkey ph (take (Z.to_nat CHACHA20_KEYSIZE) (cipher_key conf))) in
  let? hh := checked (gcry_cipher_setkey hh
               (take (Z.to_nat CHACHA20_KEYSIZE) (drop (Z.to_nat CHACHA20_KEYSIZE) (cipher_key conf)))) in
  let '(m_algo, m_maclen) := cc_get_hmac_param (ciphername conf) in
  if m_algo =? 0 then None else
  let? m := checked (gcry_mac_open m_algo) in
  Some (mkChacha hh ph m, m_maclen).

Definition cc_init_encryptor (conf : crypto_conf) : option (encryptor chacha_handle) :=
  let? (h, maclen) := cc_open conf in
  Some (mkEncryptor h cc_write_hmac_pre cc_encrypt_packet cc_write_hmac_post
          get_message_padding_custom CHACHA20_BLOCKSIZE maclen).

Definition cc_init_decryptor (conf : crypto_conf) : option (decryptor chacha_handle) :=
  let? (h, maclen) := cc_open conf in
  Some (mkDecryptor h cc_verify_hmac_pre cc_decrypt_length cc_decrypt_packet cc_verify_hmac_post
          CHACHA20_BLOCKSIZE CHACHA20_HEADERSIZE maclen).

End Gcrypt.

(** ** What the code relies on of chacha20 and poly1305

    Handles with one key that were given one iv are in step: they have the
    same key stream from there.  An authenticator that was given a key has
    one tag for the bytes written to it, and accepts only that. *)
Class chacha_laws `{G : gcrypt} : Type := {
  key_of : chandle -> bytes;
  in_step : chandle -> chandle -> Prop;
  mac_algo : mhandle -> Z;
  mac_step : mhandle -> mhandle -> Prop;
  setiv_key c iv : key_of (gcry_cipher_setiv c iv).2 = key_of c;
  encrypt_key c x : key_of (gcry_cipher_encrypt c x).1.2 = key_of c;
  decrypt_key c x : key_of (gcry_cipher_decrypt c x).1.2 = key_of c;
  setiv_step a b iv : key_of a = key_of b -> in_step (gcry_cipher_setiv a iv).2 (gcry_cipher_setiv b iv).2;
  encrypt_step a b x : in_step a b -> exists a' b' y,
    gcry_cipher_encrypt a x = (0, a', y) /\ gcry_cipher_encrypt b x = (0, b', y) /\
    zlen y = zlen x /\ in_step a' b';
  decrypt_encrypt a b x y a' n : in_step a b -> gcry_cipher_encrypt a x = (0, a', y) ->
    exists b', gcry_cipher_decrypt b (take n y) = (0, b', take n x);
  mac_setkey_algo m k : mac_algo (gcry_mac_setkey m k).2 = mac_algo m;
  mac_write_algo m d : mac_algo (gcry_mac_write m d).2 = mac_algo m;
  mac_read_algo m n : mac_algo (gcry_mac_read m n).1.2 = mac_algo m;
  mac_verify_algo m t : mac_algo (gcry_mac_verify m t).2 = mac_algo m;
  mac_setkey_step a b k : mac_algo a = mac_algo b -> mac_step (gcry_mac_setkey a k).2 (gcry_mac_setkey b k).2;
  mac_write_step a b d : mac_step a b ->
    (gcry_mac_write a d).1 = 0 /\ mac_step (gcry_mac_write a d).2 (gcry_mac_write b d).2;
  mac_read_verify a b : mac_step a b -> exists a' t,
    gcry_mac_read a POLY1305_TAGLEN = (0, a', t) /\ zlen t = POLY1305_TAGLEN /\
    forall t', (gcry_mac_verify b t').1 = 0 <-> t' = t }.

(** ** The padding *)

(** What both padding functions compute of the length they complete. *)
Lemma padding_core bs n : 8 <= bs <= 128 -> 0 <= n ->
  let p := get_message_padding bs n in 4 <= p < bs + 4 /\ (n + p) mod bs = 0.
Proof.
  intros Hb Hn. unfold get_message_padding. cbv zeta. pose proof (Z.mod_pos_bound n bs ltac:(lia)) as Hm.
  assert (u8 (bs - n mod bs) = bs - n mod bs) as -> by (unfold u8; apply Z.mod_small; lia).
  assert (n = bs * (n / bs) + n mod bs) as Hd by (apply Z.div_mod; lia).
  destruct (Z.ltb_spec (bs - n mod bs) 4).
  - assert (u8 (bs - n mod bs + bs) = bs - n mod bs + bs) as -> by (unfold u8; apply Z.mod_small; lia).
    split; [lia |]. replace (n + (bs - n mod bs + bs)) with ((n / bs + 2) * bs) by lia. apply Z.mod_mul; lia.
  - split; [lia |]. replace (n + (bs - n mod bs)) with ((n / bs + 1) * bs) by lia. apply Z.mod_mul; lia.
Qed.

Lemma padding_custom_core bs len : 8 <= bs <= 128 -> 5 <= len < 2 ^ 32 ->
  let q := get_message_padding_custom bs len in 4 <= q < bs + 4 /\ (len - 4 + q) mod bs = 0.
Proof.
  intros Hb Hl. unfold get_message_padding_custom. rewrite u32_id by (unfold is_u32; lia). apply (padding_core bs (len - 4)); lia.
Qed.

(** a multiple of the block size and at least four bytes: for a block of 8 to 128
    bytes the default padding completes the packet with its length field to
    whole blocks, the padding of chacha20-poly1305 completes the packet
    without its length field, and neither exceeds a block and three bytes;
    the result fits the unsigned char that holds it. *)
Theorem padding_completes_block (blocksize len : Z) :
  8 <= blocksize <= 128 -> 5 <= len < 2 ^ 32 ->
  let p := get_message_padding blocksize len in
  let q := get_message_padding_custom blocksize len in
  (4 <= p < blocksize + 4 /\ (len + p) mod blocksize = 0) /\
  (4 <= q < blocksize + 4 /\ (len - 4 + q) mod blocksize = 0).
Proof. intros Hb Hl p q. split; [apply padding_core; lia | by apply padding_custom_core]. Qed.

Lemma padding_completes_block_witness :
  get_message_padding 16 27 = 5 /\ get_message_padding_custom 64 27 = 41 /\
  (let p := get_message_padding 16 27 in
   let q := get_message_padding_custom 16 27 in
   (4 <= p < 16 + 4 /\ (27 + p) mod 16 = 0) /\ (4 <= q < 16 + 4 /\ (27 - 4 + q) mod 16 = 0)).
Proof. split; [done |]. split; [done |]. apply (padding_completes_block 16 27); lia. Defined.

End SshCipher.
