(* ===== verification/SshPacket.v ===== *)
(** The binary packet protocol: [_write_ssh_packet] of [ssh/send/send.c] up
    to the socket, [write_ssh_socket] of [ssh/send/write-socket.c], the part
    of [cb_read_socket_ssh] of [ssh/receive/read-buffer.c] that opens one
    packet, and the compression "none".

    The class [packet_cipher] is what the reader of the stream relies on: a
    packet sealed by an encryptor is opened by the decryptor that is matched
    with it, whatever bytes follow it.  It is discharged for the ciphers
    "none" and "chacha20-poly1305@openssh.com". *)
From stdpp Require Import base list option strings.
From Stdlib Require Import ZArith Lia.
From S2P Require Import Prelude SshUint SshCipher.
Import SshUint SshCipher.
Open Scope Z_scope.

Module SshPacket.

(** ** Payloads *)

Record payload : Type := mkPayload {
  pl_type : Z; pl_sequence : Z; pl_size : Z; pl_len : Z; pl_buffer : bytes }.

(** [compress_payload] of "none". *)
Definition compress_payload (pl : payload) : Z * payload := (0, pl).

(** [decompress_packet] of "none"; [alloc] says whether [malloc] succeeds, and
    [None] goes with [*errcode=ENOMEM]. *)
Definition decompress_packet (alloc : bool) (p : packet) : outcome (option payload) :=
  let len := u32 (p_len p - 1 - p_padding p) in
  if alloc then
    let! d := lift (mem_read (p_buffer p) 5 len) in
    let! type := lift (d !! 0%nat) in
    Ret (Some (mkPayload type (p_sequence p) len len d))
  else Ret None.

(** ** Sending *)

(** The packet before the hmac and the encryption: [junk] is what the stack
    holds in [char buffer[size]], [rnd] what [fill_random] delivers. *)
Definition fill_packet (sequence type padding maclen : Z) (payload rnd junk : bytes) : outcome packet :=
  let len := u32 (5 + zlen payload + padding) in
  let size := u32 (len + maclen) in
  let buffer := resize (Z.to_nat size) 0 junk in
  let! b := lift (store_uint32 buffer (u32 (len - 4))) in
  let! b := lift (mem_write b 4 [padding]) in
  let! b := lift (mem_write b 5 payload) in
  let! b := lift (mem_write b (5 + zlen payload) (resize (Z.to_nat padding) 0 rnd)) in
  Ret (mkPacket len size padding 0 sequence type 0 b).

(** From the encryptor to the call of [write_ssh_socket]: the result is 0 when
    the packet is ready, and -1 when one of the three actions fails. *)
Definition seal {H} (e : encryptor H) (sequence type : Z) (payload rnd junk : bytes)
    : outcome (Z * encryptor H * packet) :=
  let padding := e_get_message_padding e (e_cipher_blocksize e) (u32 (zlen payload + 5)) in
  let! p := fill_packet sequence type padding (e_hmac_maclen e) payload rnd junk in
  let! (r, h, p) := e_write_hmac_pre e (e_hmac_maclen e) (e_handle e) p in
  if negb (r =? 0) then Ret (-1, set_ehandle e h, p) else
  let! (r, h, p) := e_encrypt_packet e h p in
  if negb (r =? 0) then Ret (-1, set_ehandle e h, p) else
  let! (r, h, p) := e_write_hmac_post e (e_hmac_maclen e) h p in
  if negb (r =? 0) then Ret (-1, set_ehandle e h, p) else
  Ret (0, set_ehandle e h, p).

(** One answer of the send operation of the socket: [Sent n], the number of
    bytes it took, or the [errno] that goes with -1. *)
Inductive send_result : Type := Sent (n : Z) | SendErr (errno : Z).

Definition EAGAIN : Z := 11.

(** [write_ssh_socket]: the result with what went out.  The loop is a recursion on the
    answers of the socket; [NoFuel] when they end before it does.  A socket
    takes no more bytes than are offered. *)
Fixpoint write_ssh_socket (answers : list send_result) (p : packet) (pos : Z) (out : bytes)
    : outcome (Z * Z * bytes) :=
  match answers with
  | [] => NoFuel
  | SendErr errno :: answers =>
      if errno =? EAGAIN then write_ssh_socket answers p pos out else Ret (-1, errno, out)
  | Sent n :: answers =>
      let left := p_size p - pos in
      let! d := lift (mem_read (p_buffer p) pos (Z.min n left)) in
      let pos := pos + Z.min n left in
      if 0 <? p_size p - pos then write_ssh_socket answers p pos (out ++ d) else Ret (pos, 0, out ++ d)
  end.

(** ** Receiving one packet *)

Definition first_packet (sequence : Z) (buffer : bytes) : packet := mkPacket 0 0 0 0 sequence 0 0 buffer.

(** The call of [decrypt_length], with [packet.buffer=sock->rd.buffer]. *)
Definition read_header {H} (d : decryptor H) (sequence : Z) (buffer : bytes)
    : outcome (Z * decryptor H * packet * bytes) :=
  let! (r, h, p, tmpheader) :=
    d_decrypt_length d (d_handle d) (first_packet sequence buffer) (d_cipher_headersize d) in
  Ret (r, set_dhandle d h, p, tmpheader).

(** From [verify_hmac_pre] to [verify_hmac_post]: [false] when one fails, and
    the error code is then [EPROTO]. *)
Definition open_packet {H} (d : decryptor H) (p : packet) (tmpheader : bytes)
    : outcome (bool * decryptor H * packet) :=
  let! (r, h, p) := d_verify_hmac_pre d (d_hmac_maclen d) (d_handle d) p in
  if negb (r =? 0) then Ret (false, set_dhandle d h, p) else
  let! b := lift (mem_write (p_buffer p) 0 (take (Z.to_nat (d_cipher_headersize d)) tmpheader)) in
  let! (r, h, p) := d_decrypt_packet d h (set_buffer p b) in
  if negb (r =? 0) then Ret (false, set_dhandle d h, p) else
  let! c := lift (mem_read (p_buffer p) 4 1) in
  let p := set_padding p (default 0 (c !! 0%nat)) in
  let! (r, h, p) := d_verify_hmac_post d (d_hmac_maclen d) h p in
  if negb (r =? 0) then Ret (false, set_dhandle d h, p) else
  Ret (true, set_dhandle d h, p).

(** The total size that the header announces. *)
Definition msgsize {H} (d : decryptor H) (len : Z) : Z := u32 (u32 (len + 4) + d_hmac_maclen d).

(** ** What the reader relies on *)

(** The packet [wire] that [e] sends for the payload [pl] with number [seq] is
    opened by [d] to that payload: its header as soon as that is in the
    buffer, whatever follows it there, and the rest when it is complete. *)
Definition transfers {HE HD} (matched : encryptor HE -> decryptor HD -> Prop)
    (d : decryptor HD) (seq : Z) (pl wire : bytes) (e' : encryptor HE) : Prop :=
  exists d1 pr tmp len d2 p2,
    (forall rest, let b := take (Z.to_nat (d_cipher_headersize d)) wire ++ rest in
       read_header d seq b = Ret (0, d1, set_buffer pr b, tmp)) /\
    get_uint32 tmp = Some len /\ msgsize d len = zlen wire /\
    open_packet d1 (set_plen (set_buffer pr wire) len) tmp = Ret (true, d2, p2) /\
    decompress_packet true p2 = Ret (Some (mkPayload (default 0 (head pl)) seq (zlen pl) (zlen pl) pl)) /\
    matched e' d2.

Class packet_cipher {HE HD} (matched : encryptor HE -> decryptor HD -> Prop) : Prop := {
  pc_headersize e d : matched e d -> 4 <= d_cipher_headersize d;
  pc_transfer e d seq type pl rnd junk :
    matched e d -> is_u32 seq -> 0 < zlen pl < 2 ^ 31 ->
    exists e' p, seal e seq type pl rnd junk = Ret (0, e', p) /\
      p_size p = zlen (p_buffer p) /\ p_size p < 2 ^ 32 /\ d_cipher_headersize d <= zlen (p_buffer p) /\
      transfers matched d seq pl (p_buffer p) e' }.

(** A cipher of which several decryptors can be used at a time: one that did not
    see a packet opens the next packet as well, and so does one that saw only
    its header. *)
Class parallel_cipher {HE HD} (matched : encryptor HE -> decryptor HD -> Prop) : Prop := {
  pl_matched e d seq type pl rnd junk e' p :
    matched e d -> is_u32 seq -> 0 < zlen pl < 2 ^ 31 -> seal e seq type pl rnd junk = Ret (0, e', p) -> matched e' d;
  pl_header e d seq b r d1 p tmp : matched e d -> read_header d seq b = Ret (r, d1, p, tmp) -> matched e d1 }.

(** ** Reads and writes of a buffer in parts *)

Lemma mem_write_at pre rest i d :
  i = zlen pre -> zlen d <= zlen rest -> mem_write (pre ++ rest) i d = Some (pre ++ d ++ drop (length d) rest).
Proof.
  intros -> Hd. rewrite <- (take_drop (length d) rest) at 1. apply mem_write_free.
  unfold zlen in *. rewrite length_take. lia.
Qed.

Lemma mem_read_at pre d post i n :
  i = zlen pre -> n = zlen d -> mem_read (pre ++ d ++ post) i n = Some d.
Proof.
  intros -> ->. pose proof (zlen_nonneg pre). pose proof (zlen_nonneg d). pose proof (zlen_nonneg post).
  rewrite mem_read_Some by (autorewrite with zlen; lia). f_equal. unfold zlen. rewrite !Nat2Z.id.
  by rewrite drop_app_length, take_app_length.
Qed.

Lemma mem_read_0 d post n : n = zlen d -> mem_read (d ++ post) 0 n = Some d.
Proof. intros ->. by apply (mem_read_at [] d post). Qed.

Lemma zlen_resize n (b : bytes) : 0 <= n -> zlen (resize (Z.to_nat n) 0 b) = n.
Proof. intros. unfold zlen. rewrite length_resize. lia. Qed.

(** The packet in clear, without its hmac. *)
Definition body (padding : Z) (pl rnd : bytes) : bytes := padding :: pl ++ resize (Z.to_nat padding) 0 rnd.
Definition plain (padding : Z) (pl rnd : bytes) : bytes :=
  be_encode 4 (1 + zlen pl + padding) ++ body padding pl rnd.

Lemma zlen_body padding pl rnd : 0 <= padding -> zlen (body padding pl rnd) = 1 + zlen pl + padding.
Proof. intros. unfold body. autorewrite with zlen. rewrite zlen_resize by done. lia. Qed.

Lemma zlen_plain padding pl rnd : 0 <= padding -> zlen (plain padding pl rnd) = 5 + zlen pl + padding.
Proof. intros. unfold plain. rewrite zlen_app, zlen_be_encode, zlen_body by done. lia. Qed.

Lemma fill_packet_plain seq type padding maclen pl rnd junk :
  0 <= padding < 256 -> 0 <= maclen -> 5 + zlen pl + padding + maclen < 2 ^ 32 ->
  exists tail, zlen tail = maclen /\
  fill_packet seq type padding maclen pl rnd junk =
    Ret (mkPacket (5 + zlen pl + padding) (5 + zlen pl + padding + maclen) padding 0 seq type 0
           (plain padding pl rnd ++ tail)).
Proof.
  intros Hp Hm Hs. pose proof (zlen_nonneg pl). unfold fill_packet.
  rewrite (u32_id (5 + _ + _)) by (unfold is_u32; lia). rewrite !u32_id by (unfold is_u32; lia).
  set (size := 5 + zlen pl + padding + maclen). pose proof (zlen_resize size junk ltac:(lia)) as Hz.
  set (b := resize (Z.to_nat size) 0 junk) in *. rewrite store_uint32_app by lia. cbn [lift outcome_bind].
  replace (5 + zlen pl + padding - 4) with (1 + zlen pl + padding) by lia.
  set (hd := be_encode 4 _). assert (zlen hd = 4) by by unfold hd; rewrite zlen_be_encode.
  rewrite (mem_write_at hd) by (rewrite ?zlen_cons, ?zlen_nil; try lia; unfold zlen in *; rewrite length_drop; lia).
  cbn [lift outcome_bind]. rewrite app_assoc, (mem_write_at (hd ++ _)).
  2: { autorewrite with zlen. lia. }
  2: { unfold zlen in *. rewrite !length_drop. cbn [length]. lia. }
  cbn [lift outcome_bind]. rewrite app_assoc, (mem_write_at ((hd ++ _) ++ _)).
  2: { autorewrite with zlen. lia. }
  2: { rewrite zlen_resize by lia. unfold zlen in *. rewrite !length_drop. cbn [length]. lia. }
  cbn [lift outcome_bind]. rewrite <- !app_assoc.
  match goal with |- context [resize _ 0 rnd ++ ?t] => exists t end. split.
  2: { unfold plain, body. fold hd. rewrite <- !app_assoc. cbn [app]. by rewrite <- ?app_assoc. }
  unfold zlen in *. rewrite !length_drop, length_resize. cbn [length]. lia.
Qed.

(** The packet after it is opened holds the payload after five bytes. *)
Lemma decompress_plain hd pl x p :
  zlen hd = 4 -> 0 <= p_padding p < 256 -> 0 < zlen pl < 2 ^ 31 ->
  p_len p = 1 + zlen pl + p_padding p -> p_buffer p = hd ++ p_padding p :: pl ++ x ->
  decompress_packet true p =
    Ret (Some (mkPayload (default 0 (head pl)) (p_sequence p) (zlen pl) (zlen pl) pl)).
Proof.
  intros Hh Hp Hpl Hl Hb. unfold decompress_packet. rewrite Hl, Hb.
  replace (1 + zlen pl + p_padding p - 1 - p_padding p) with (zlen pl) by lia.
  rewrite u32_id by (unfold is_u32; lia). change (p_padding p :: pl ++ x) with ([p_padding p] ++ pl ++ x).
  rewrite app_assoc, mem_read_at by (autorewrite with zlen; lia). cbn [lift outcome_bind].
  destruct pl; [change (zlen []) with 0 in Hpl; lia | done].
Qed.

Lemma overwrite_same n (b : bytes) :
  (Z.to_nat n <= length b)%nat ->
  take (Z.to_nat n) (take (Z.to_nat n) b) ++ drop (length (take (Z.to_nat n) (take (Z.to_nat n) b))) b = b.
Proof. intros. rewrite take_take, Nat.min_id, length_take, Nat.min_l by done. apply take_drop. Qed.

Lemma mem_read_padding hd (x : Z) rest : zlen hd = 4 -> mem_read (hd ++ x :: rest) 4 1 = Some [x].
Proof. intros. by apply (mem_read_at hd [x] rest). Qed.

Section Instances.
Context `{G : gcrypt}.

(** ** The cipher "none" *)

Definition none_conf : crypto_conf := mkConf (lit "none") (lit "none") [] [] [].

Definition none_matched (e : encryptor generic_handle) (d : decryptor generic_handle) : Prop :=
  init_encryptor none_conf = Some e /\ init_decryptor none_conf = Some d.

#[export] Instance none_cipher : packet_cipher none_matched.
Proof.
  split; [by intros e d [[= <-] [= <-]] |]. intros e d seq type pl rnd junk [[= <-] [= <-]] Hseq Hpl.
  unfold seal. cbn [e_get_message_padding e_cipher_blocksize e_hmac_maclen e_write_hmac_pre e_encrypt_packet
    e_write_hmac_post e_handle]. rewrite (u32_id (zlen pl + 5)) by (unfold is_u32; lia).
  pose proof (padding_core 8 (zlen pl + 5) ltac:(lia) ltac:(lia)) as [Hp Hmod].
  set (pad := get_message_padding _ _) in *.
  destruct (fill_packet_plain seq type pad 0 pl rnd junk) as (tail & Ht & ->); [lia.. |].
  cbn [outcome_bind]. unfold write_hmac_none at 1, encrypt_packet_none, write_hmac_none at 1.
  cbn -[Z.mul Z.add Z.pow app plain zlen]. eexists _, _. split; [done |]. cbn [p_size p_buffer].
  assert (tail = []) as -> by (destruct tail; [done | rewrite zlen_cons in Ht; pose proof (zlen_nonneg tail); lia]).
  rewrite app_nil_r, Z.add_0_r, zlen_plain by lia. do 2 (split; [lia |]). split; [lia |].
  pose proof (zlen_plain pad pl rnd ltac:(lia)) as Hz.
  eexists _, (mkPacket 0 0 0 0 seq 0 8 []), (take 8 (plain pad pl rnd)), _, _, _. split.
  { intros rest. unfold read_header. cbn [d_decrypt_length d_handle d_cipher_headersize]. unfold decrypt_length_none.
    cbn [p_buffer first_packet].
    rewrite mem_read_0 by (unfold zlen in *; rewrite length_take; lia). done. }
  split. { unfold plain. rewrite take_app_ge by (rewrite length_be_encode; lia). apply get_uint32_encode. unfold is_u32; lia. }
  split. { unfold msgsize. cbn [d_hmac_maclen]. rewrite Z.add_0_r, (u32_id (u32 _)) by apply u32_range.
    rewrite u32_id by (unfold is_u32; lia). lia. }
  split.
  { unfold open_packet. cbn [d_verify_hmac_pre d_hmac_maclen d_handle d_cipher_headersize d_decrypt_packet
      d_verify_hmac_post set_dhandle]. unfold verify_hmac_none, decrypt_packet_none. cbn [outcome_bind Z.eqb negb].
    cbn [p_buffer set_plen set_buffer]. rewrite mem_write0_Some by (unfold zlen in *; rewrite !length_take; lia).
    rewrite overwrite_same by (unfold zlen in *; lia). cbn [lift outcome_bind Z.eqb negb p_buffer set_buffer].
    unfold plain at 1, body at 1. rewrite mem_read_padding by done. reflexivity. }
  split; [| done]. apply (decompress_plain (be_encode 4 (1 + zlen pl + pad)) pl (resize (Z.to_nat pad) 0 rnd)); try done; cbn; lia.
Qed.

(** ** chacha20-poly1305 *)

Context `{L : !chacha_laws}.

Definition chacha_encryptor (h : chacha_handle) : encryptor chacha_handle :=
  mkEncryptor h cc_write_hmac_pre cc_encrypt_packet cc_write_hmac_post
    get_message_padding_custom CHACHA20_BLOCKSIZE POLY1305_TAGLEN.
Definition chacha_decryptor (h : chacha_handle) : decryptor chacha_handle :=
  mkDecryptor h cc_verify_hmac_pre cc_decrypt_length cc_decrypt_packet cc_verify_hmac_post
    CHACHA20_BLOCKSIZE CHACHA20_HEADERSIZE POLY1305_TAGLEN.

Record same_secrets (a b : chacha_handle) : Prop := {
  ss_header : key_of (c_headerhandle a) = key_of (c_headerhandle b);
  ss_packet : key_of (c_packethandle a) = key_of (c_packethandle b);
  ss_mac : mac_algo (m_handle a) = mac_algo (m_handle b) }.

Definition chacha_matched (e : encryptor chacha_handle) (d : decryptor chacha_handle) : Prop :=
  e = chacha_encryptor (e_handle e) /\ d = chacha_decryptor (d_handle d) /\
  same_secrets (e_handle e) (d_handle d).

(** An encryptor and a decryptor made of one configuration are matched. *)
Lemma cc_init_matched conf e d :
  cc_init_encryptor conf = Some e -> cc_init_decryptor conf = Some d -> chacha_matched e d.
Proof.
  unfold cc_init_encryptor, cc_init_decryptor. destruct (cc_open conf) as [[h maclen]|] eqn:E; [| done].
  cbn [mbind option_bind]. intros [= <-] [= <-].
  assert (maclen = POLY1305_TAGLEN) as ->; [| done].
  revert E. unfold cc_open, cc_get_cipher_param, cc_get_hmac_param.
  destruct (bytes_eqb _ _); [| done]. destruct (_ || _); [done |].
  destruct (checked (gcry_cipher_open _ _)); opt; [| done]. destruct (negb _); [done |].
  destruct (checked (gcry_cipher_setkey _ (take _ (cipher_key _)))); opt; [| done].
  destruct (checked (gcry_cipher_setkey _ _)); opt; [| done]. destruct (GCRY_MAC_POLY1305 =? 0); [done |].
  destruct (checked _); opt; [| done]. by intros [= <- <-].
Qed.

(** Both ends derive the keys of a packet from its number: the ciphers and the
    authenticators are then in step. *)
Lemma set_packet_key_step a b iv :
  same_secrets a b ->
  in_step (c_headerhandle (set_packet_key a iv)) (c_headerhandle (set_packet_key b iv)) /\
  in_step (c_packethandle (set_packet_key a iv)) (c_packethandle (set_packet_key b iv)) /\
  mac_step (m_handle (set_packet_key a iv)) (m_handle (set_packet_key b iv)) /\
  same_secrets (set_packet_key a iv) a /\ same_secrets (set_packet_key b iv) b.
Proof.
  intros [Hh Hp Hm]. unfold set_packet_key.
  pose proof (setiv_step _ _ iv Hh) as Sh. pose proof (setiv_step _ _ iv Hp) as Sp.
  pose proof (setiv_key (c_headerhandle a) iv) as Ka. pose proof (setiv_key (c_headerhandle b) iv) as Kb.
  pose proof (setiv_key (c_packethandle a) iv) as Qa. pose proof (setiv_key (c_packethandle b) iv) as Qb.
  destruct (gcry_cipher_setiv (c_headerhandle a) iv) as [? ha], (gcry_cipher_setiv (c_headerhandle b) iv) as [? hb],
    (gcry_cipher_setiv (c_packethandle a) iv) as [? pa], (gcry_cipher_setiv (c_packethandle b) iv) as [? pb].
  cbn [snd] in *. set (zs := replicate _ 0).
  pose proof (encrypt_key pa zs) as Ea. pose proof (encrypt_key pb zs) as Eb.
  destruct (encrypt_step _ _ zs Sp) as (pa' & pb' & y & E1 & E2 & _ & Sp').
  rewrite E1, E2 in *. cbn [fst snd] in *. set (k := take _ y).
  pose proof (mac_setkey_step _ _ k Hm) as Sm.
  pose proof (mac_setkey_algo (m_handle a) k) as Ma. pose proof (mac_setkey_algo (m_handle b) k) as Mb.
  destruct (gcry_mac_setkey (m_handle a) k), (gcry_mac_setkey (m_handle b) k). cbn [snd] in *.
  repeat split; cbn; congruence || done.
Qed.

Lemma cc_decrypt_length_eq h p len iv d hh out :
  store_uint64 (replicate 8 0) (p_sequence p) = Some iv -> mem_read (p_buffer p) 0 len = Some d ->
  gcry_cipher_decrypt (c_headerhandle (set_packet_key h iv)) d = (0, hh, out) ->
  cc_decrypt_length h p len =
    Ret (0, mkChacha hh (c_packethandle (set_packet_key h iv)) (m_handle (set_packet_key h iv)), set_decrypted p len, out).
Proof.
  intros Hiv Hd. unfold cc_decrypt_length, set_packet_key. rewrite Hiv. cbn [lift outcome_bind].
  destruct (gcry_cipher_setiv (c_headerhandle h) iv), (gcry_cipher_setiv (c_packethandle h) iv).
  destruct (gcry_cipher_encrypt _ _) as [[? ?] k]. destruct (gcry_mac_setkey _ _).
  rewrite Hd. cbn [lift outcome_bind c_headerhandle c_packethandle m_handle]. by intros ->.
Qed.

Lemma cc_encrypt_packet_eq h p iv hd bd tail hh hc ph bc :
  store_uint64 (replicate 8 0) (p_sequence p) = Some iv ->
  p_buffer p = hd ++ bd ++ tail -> zlen hd = 4 -> p_len p = 4 + zlen bd -> p_len p < 2 ^ 32 ->
  gcry_cipher_encrypt (c_headerhandle (set_packet_key h iv)) hd = (0, hh, hc) -> zlen hc = zlen hd ->
  gcry_cipher_encrypt (c_packethandle (set_packet_key h iv)) bd = (0, ph, bc) -> zlen bc = zlen bd ->
  cc_encrypt_packet h p = Ret (0, mkChacha hh ph (m_handle (set_packet_key h iv)), set_buffer p (hc ++ bc ++ tail)).
Proof.
  intros Hiv Hb Hhd Hlen Hlt Eh Zh Ep Zp. pose proof (zlen_nonneg bd). unfold cc_encrypt_packet. rewrite Hiv. cbn [lift outcome_bind].
  unfold CHACHA20_HEADERSIZE. rewrite Hb, mem_read_0 by lia. cbn [lift outcome_bind]. rewrite Eh. cbn [Z.eqb negb].
  rewrite mem_write0_Some by (rewrite zlen_app; pose proof (zlen_nonneg (bd ++ tail)); lia).
  rewrite drop_app_length' by (unfold zlen in *; lia). cbn [lift outcome_bind p_buffer set_buffer p_len c_packethandle].
  rewrite Hlen, u32_id by (unfold is_u32; lia). rewrite mem_read_at by lia. cbn [lift outcome_bind]. rewrite Ep.
  cbn [Z.eqb negb]. rewrite mem_write_at by (rewrite ?zlen_app; pose proof (zlen_nonneg tail); lia).
  rewrite drop_app_length' by (unfold zlen in *; lia). done.
Qed.

Lemma cc_write_hmac_post_eq h p d tail m m' tag :
  p_buffer p = d ++ tail -> p_len p = zlen d -> zlen tail = POLY1305_TAGLEN ->
  gcry_mac_write (m_handle h) d = (0, m) -> gcry_mac_read m POLY1305_TAGLEN = (0, m', tag) ->
  zlen tag = POLY1305_TAGLEN ->
  cc_write_hmac_post POLY1305_TAGLEN h p =
    Ret (0, mkChacha (c_headerhandle h) (c_packethandle h) m', set_buffer p (d ++ tag)).
Proof.
  intros Hb Hl Ht Hw Hr Hz. unfold cc_write_hmac_post. rewrite Hb, mem_read_0 by done. cbn [lift outcome_bind].
  rewrite Hw. cbn [Z.eqb negb]. rewrite Hr. cbn [Z.eqb negb]. rewrite mem_write_at by lia.
  rewrite drop_ge by (unfold zlen in *; lia). by rewrite app_nil_r.
Qed.

Lemma cc_verify_hmac_pre_eq h p d tag :
  p_buffer p = d ++ tag -> u32 (p_len p + 4) = zlen d -> p_len p + 4 = zlen d -> zlen tag = POLY1305_TAGLEN ->
  let m := (gcry_mac_write (m_handle h) d).2 in
  cc_verify_hmac_pre POLY1305_TAGLEN h p =
    Ret (if (gcry_mac_verify m tag).1 =? 0 then 0 else -1,
         mkChacha (c_headerhandle h) (c_packethandle h) (gcry_mac_verify m tag).2, p).
Proof.
  intros Hb Hu Hl Ht m. subst m. unfold cc_verify_hmac_pre. rewrite Hb, Hu, Hl, mem_read_0 by done. cbn [lift outcome_bind].
  destruct (gcry_mac_write (m_handle h) d) as [r0 m].
  rewrite <- (app_nil_r tag) at 1. rewrite mem_read_at by done. cbn [lift outcome_bind].
  cbn [snd]. by destruct (gcry_mac_verify m tag).
Qed.

(** The receiver decrypts the body but for its last four bytes, which are
    padding: the length it goes by is that of the packet without its length field. *)
Lemma cc_decrypt_packet_eq h p hd bd bc tag ph :
  p_buffer p = hd ++ bc ++ tag -> zlen hd = 4 -> p_decrypted p = 4 -> p_len p = zlen bd -> zlen bc = zlen bd ->
  4 <= zlen bd < 2 ^ 32 ->
  gcry_cipher_decrypt (c_packethandle h) (take (Z.to_nat (zlen bd - 4)) bc) =
    (0, ph, take (Z.to_nat (zlen bd - 4)) bd) ->
  cc_decrypt_packet h p =
    Ret (0, mkChacha (c_headerhandle h) ph (m_handle h),
         set_decrypted (set_buffer p (hd ++ take (Z.to_nat (zlen bd - 4)) bd ++ drop (Z.to_nat (zlen bd - 4)) bc ++ tag)) (zlen bd)).
Proof.
  intros Hb Hhd Hdec Hlen Zc Hlt Hd. unfold cc_decrypt_packet. rewrite Hb, Hdec, Hlen, u32_id by (unfold is_u32; lia).
  set (n := Z.to_nat (zlen bd - 4)) in *. rewrite <- (take_drop n bc) at 1. rewrite <- app_assoc.
  rewrite mem_read_at by (try done; unfold zlen in *; rewrite length_take; lia). cbn [lift outcome_bind]. rewrite Hd.
  cbn [Z.eqb]. rewrite mem_write_at by (try done; rewrite zlen_app; unfold zlen in *; rewrite length_take; lia).
  cbn [lift outcome_bind]. rewrite length_take_le, drop_app_le by (unfold zlen in *; lia).
  rewrite u32_id by (unfold is_u32; lia). by replace (4 + (zlen bd - 4)) with (zlen bd) by lia.
Qed.

(** One packet through the two ciphers and the authenticator, on both ends. *)
Lemma chacha_channel eh dh iv hd bd n :
  same_secrets eh dh ->
  exists hh hc ph bc m m' tag hh' ph',
    let a := set_packet_key eh iv in let b := set_packet_key dh iv in
    gcry_cipher_encrypt (c_headerhandle a) hd = (0, hh, hc) /\ zlen hc = zlen hd /\
    gcry_cipher_encrypt (c_packethandle a) bd = (0, ph, bc) /\ zlen bc = zlen bd /\
    gcry_mac_write (m_handle a) (hc ++ bc) = (0, m) /\
    gcry_mac_read m POLY1305_TAGLEN = (0, m', tag) /\ zlen tag = POLY1305_TAGLEN /\
    gcry_cipher_decrypt (c_headerhandle b) hc = (0, hh', hd) /\
    gcry_cipher_decrypt (c_packethandle b) (take n bc) = (0, ph', take n bd) /\
    (forall t, (gcry_mac_verify (gcry_mac_write (m_handle b) (hc ++ bc)).2 t).1 = 0 <-> t = tag) /\
    forall t, same_secrets (mkChacha hh ph m')
      (mkChacha hh' ph' (gcry_mac_verify (gcry_mac_write (m_handle b) (hc ++ bc)).2 t).2).
Proof.
  intros Hs. destruct (set_packet_key_step _ _ iv Hs) as (Sh & Sp & Sm & [K1 K2 K3] & [J1 J2 J3]).
  destruct Hs as [Hh Hp Hm]. set (a := set_packet_key eh iv) in *. set (b := set_packet_key dh iv) in *.
  destruct (encrypt_step _ _ hd Sh) as (hh & hb & hc & E1 & _ & Zh & _).
  destruct (encrypt_step _ _ bd Sp) as (ph & pb & bc & E2 & _ & Zp & _).
  destruct (decrypt_encrypt _ _ _ _ _ (length hc) Sh E1) as (hh' & D1).
  destruct (decrypt_encrypt _ _ _ _ _ n Sp E2) as (ph' & D2).
  rewrite firstn_all in D1. rewrite (take_ge hd) in D1 by (unfold zlen in *; lia).
  destruct (mac_write_step _ _ (hc ++ bc) Sm) as [W Sm'].
  pose proof (mac_write_algo (m_handle a) (hc ++ bc)) as A1.
  pose proof (mac_write_algo (m_handle b) (hc ++ bc)) as B1.
  destruct (gcry_mac_write (m_handle a) (hc ++ bc)) as [r m] eqn:Ew. cbn [fst snd] in *. subst r.
  set (mb := (gcry_mac_write (m_handle b) (hc ++ bc)).2) in *.
  destruct (mac_read_verify _ _ Sm') as (m' & tag & R & Zt & V).
  pose proof (mac_read_algo m POLY1305_TAGLEN) as A2. rewrite R in A2. cbn in A2.
  pose proof (encrypt_key (c_headerhandle a) hd) as C1. rewrite E1 in C1. cbn in C1.
  pose proof (encrypt_key (c_packethandle a) bd) as C2. rewrite E2 in C2. cbn in C2.
  pose proof (decrypt_key (c_headerhandle b) hc) as C3. rewrite D1 in C3. cbn in C3.
  pose proof (decrypt_key (c_packethandle b) (take n bc)) as C4. rewrite D2 in C4. cbn in C4.
  exists hh, hc, ph, bc, m, m', tag, hh', ph'. cbv zeta. repeat (split; [done |]).
  intros t. pose proof (mac_verify_algo mb t). split; cbn; try fold mb; congruence.
Qed.

#[export] Instance chacha_cipher : packet_cipher chacha_matched.
Proof.
  split; [by intros e d (_ & -> & _) |]. intros e d seq type pl rnd junk (He & Hd & Hs) Hseq Hpl.
  revert He Hd Hs. generalize (e_handle e) as eh, (d_handle d) as dh. intros eh dh -> -> Hs.
  unfold seal. cbn [e_get_message_padding e_cipher_blocksize e_hmac_maclen e_write_hmac_pre e_encrypt_packet
    e_write_hmac_post e_handle chacha_encryptor]. rewrite (u32_id (zlen pl + 5)) by (unfold is_u32; lia).
  pose proof (padding_custom_core 64 (zlen pl + 5) ltac:(lia) ltac:(lia)) as [Hp Hmod].
  unfold CHACHA20_BLOCKSIZE. set (pad := get_message_padding_custom _ _) in *.
  destruct (fill_packet_plain seq type pad POLY1305_TAGLEN pl rnd junk) as (tail & Ht & ->); [unfold POLY1305_TAGLEN; lia.. |].
  cbn [outcome_bind]. unfold cc_write_hmac_pre. cbn [outcome_bind Z.eqb negb].
  pose proof (store_uint64_app (replicate 8 0) seq ltac:(done)) as Hiv. rewrite drop_ge, app_nil_r in Hiv by done.
  set (iv := be_encode 8 seq) in *. unfold plain. set (hd := be_encode 4 _) in *. set (bd := body pad pl rnd).
  assert (zlen hd = 4) as Zhd by by unfold hd; rewrite zlen_be_encode.
  assert (zlen bd = 1 + zlen pl + pad) as Zbd by (apply zlen_body; lia).
  assert (take (Z.to_nat (zlen bd - 4)) bd = pad :: pl ++ take (Z.to_nat (pad - 4)) (resize (Z.to_nat pad) 0 rnd)) as Hcut.
  { rewrite Zbd. replace (Z.to_nat (1 + zlen pl + pad - 4)) with (S (length pl + Z.to_nat (pad - 4))) by (unfold zlen; lia).
    unfold bd, body. cbn [take]. by rewrite take_app_add'. }
  destruct (chacha_channel eh dh iv hd bd (Z.to_nat (zlen bd - 4)) Hs)
    as (hh & hc & ph & bc & m & m' & tag & hh' & ph' & E1 & Z1 & E2 & Z2 & Ew & Er & Zt & D1 & D2 & V & S').
  rewrite (cc_encrypt_packet_eq eh _ iv hd bd tail hh hc ph bc); try done; cbn [p_len p_buffer]; try lia.
  cbn [outcome_bind Z.eqb negb].
  rewrite (cc_write_hmac_post_eq _ _ (hc ++ bc) tail m m' tag); try done; cbn [p_len p_buffer set_buffer].
  2: { by rewrite app_assoc. }
  2: { rewrite zlen_app. lia. }
  cbn [outcome_bind Z.eqb negb]. eexists _, _. split; [done |]. cbn [p_size p_buffer set_buffer].
  split; [rewrite !zlen_app; lia |]. split; [unfold POLY1305_TAGLEN; lia |].
  split; [rewrite !zlen_app; cbn [d_cipher_headersize chacha_decryptor]; unfold CHACHA20_HEADERSIZE, POLY1305_TAGLEN in *; lia |].
  eexists _, (mkPacket 0 0 0 0 seq 0 4 []), hd, _, _, _. split.
  { intros rest. unfold read_header. cbn [d_decrypt_length d_handle d_cipher_headersize chacha_decryptor].
    unfold CHACHA20_HEADERSIZE. erewrite cc_decrypt_length_eq; [| done | | exact D1].
    2: { cbn [p_buffer first_packet]. rewrite <- !app_assoc.
         rewrite take_app_length' by (unfold zlen in *; lia). apply mem_read_0. lia. }
    done. }
  split. { unfold hd. rewrite <- (app_nil_r (be_encode _ _)). apply get_uint32_encode. unfold is_u32; lia. }
  split. { unfold msgsize. cbn [d_hmac_maclen chacha_decryptor].
    rewrite !u32_id by (unfold is_u32; rewrite ?u32_id by (unfold is_u32; lia); unfold POLY1305_TAGLEN; lia).
    rewrite !zlen_app. lia. }
  split.
  { unfold open_packet. cbn [d_verify_hmac_pre d_hmac_maclen d_handle d_cipher_headersize d_decrypt_packet
      d_verify_hmac_post set_dhandle chacha_decryptor].
    rewrite (cc_verify_hmac_pre_eq _ _ (hc ++ bc) tag); try done; cbn [p_len p_buffer set_plen set_buffer].
    2: { rewrite u32_id by (unfold is_u32; lia). rewrite zlen_app. lia. }
    2: { rewrite zlen_app. lia. }
    cbn [m_handle c_headerhandle c_packethandle]. rewrite (proj2 (V tag) eq_refl). cbn [outcome_bind Z.eqb negb].
    unfold CHACHA20_HEADERSIZE. rewrite (take_ge hd) by (unfold zlen in *; lia).
    rewrite mem_write0_Some by (cbn [p_buffer set_plen set_buffer]; rewrite !zlen_app; unfold POLY1305_TAGLEN in *; lia).
    cbn [p_buffer set_plen set_buffer]. rewrite <- app_assoc, drop_app_length' by (unfold zlen in *; lia).
    cbn [lift outcome_bind].
    erewrite (cc_decrypt_packet_eq _ _ hd bd bc tag ph'); try done; cbn [p_len p_buffer p_decrypted set_plen set_buffer]; try lia.
    cbn [outcome_bind Z.eqb negb p_buffer set_decrypted set_buffer]. rewrite Hcut, <- app_comm_cons, mem_read_padding by done.
    reflexivity. }
  split.
  { apply (decompress_plain hd pl (take (Z.to_nat (pad - 4)) (resize (Z.to_nat pad) 0 rnd) ++
      drop (Z.to_nat (zlen bd - 4)) bc ++ tag)); cbn [p_padding p_len p_buffer set_padding set_decrypted set_buffer set_plen
      default lookup list_lookup from_option id]; try done; try lia.
    by unfold id; rewrite <- app_assoc. }
  split; [done |]. split; [done |]. apply S'.
Qed.

(** ** More than one decryptor *)

#[export] Instance none_parallel : parallel_cipher none_matched.
Proof.
  split; [intros e d seq type pl rnd junk e' p Hm Hseq Hpl Hs |].
  2: { intros e d seq b r d1 p tmp [[= <-] [= <-]]. unfold read_header. cbn [d_decrypt_length d_handle d_cipher_headersize].
       unfold decrypt_length_none. destruct (mem_read _ _ _); [| done]. cbn [lift outcome_bind]. by intros [= <- <- <- <-]. }
  destruct (pc_transfer e d seq type pl rnd junk Hm Hseq Hpl) as (e2 & p2 & Hs2 & _ & _ & _ & H).
  rewrite Hs in Hs2. injection Hs2 as <- <-. destruct H as (_ & _ & _ & _ & _ & _ & _ & _ & _ & _ & _ & [Hm' _]).
  split; [done | apply Hm].
Qed.

Lemma cc_encrypt_packet_secrets h p r h' p' : cc_encrypt_packet h p = Ret (r, h', p') -> same_secrets h' h.
Proof.
  unfold cc_encrypt_packet. destruct (store_uint64 _ _) as [iv|]; [| done]. cbn [lift outcome_bind].
  destruct (set_packet_key_step h h iv ltac:(by split)) as (_ & _ & _ & [S1 S2 S3] & _). set (k := set_packet_key h iv) in *.
  destruct (mem_read _ _ _) as [d|]; [| done]. cbn [lift outcome_bind].
  pose proof (encrypt_key (c_headerhandle k) d) as E1. destruct (gcry_cipher_encrypt _ d) as [[r1 hh] o1]. cbn [fst snd] in E1.
  destruct (negb _); [intros [= <- <- <-]; split; cbn; congruence |].
  destruct (mem_write _ _ _) as [b|]; [| done]. cbn [lift outcome_bind].
  destruct (mem_read _ _ _) as [d2|]; [| done]. cbn [lift outcome_bind c_packethandle].
  pose proof (encrypt_key (c_packethandle k) d2) as E2. destruct (gcry_cipher_encrypt _ d2) as [[r2 ph] o2]. cbn [fst snd] in E2.
  destruct (negb _); [intros [= <- <- <-]; split; cbn; congruence |].
  destruct (mem_write _ _ _) as [b2|]; [| done]. cbn [lift outcome_bind]. intros [= <- <- <-]. split; cbn; congruence.
Qed.

Lemma cc_write_hmac_post_secrets n h p r h' p' : cc_write_hmac_post n h p = Ret (r, h', p') -> same_secrets h' h.
Proof.
  unfold cc_write_hmac_post. destruct (mem_read _ _ _) as [d|]; [| done]. cbn [lift outcome_bind].
  pose proof (mac_write_algo (m_handle h) d) as E1. destruct (gcry_mac_write _ d) as [r1 m1]. cbn [snd] in E1.
  destruct (negb _); [intros [= <- <- <-]; by split |].
  pose proof (mac_read_algo m1 n) as E2. destruct (gcry_mac_read m1 n) as [[r2 m2] tag]. cbn [fst snd] in E2.
  destruct (negb _); [intros [= <- <- <-]; split; cbn; congruence |].
  destruct (mem_write _ _ _) as [b|]; [| done]. cbn [lift outcome_bind]. intros [= <- <- <-]. split; cbn; congruence.
Qed.

Lemma cc_read_header_matched e d seq b r d1 p tmp :
  chacha_matched e d -> read_header d seq b = Ret (r, d1, p, tmp) -> chacha_matched e d1.
Proof.
  intros (He & Hd & [S1 S2 S3]). revert Hd S1 S2 S3. generalize (d_handle d) as h. intros h -> S1 S2 S3.
  unfold read_header. cbn [d_decrypt_length chacha_decryptor d_handle d_cipher_headersize]. unfold cc_decrypt_length.
  destruct (store_uint64 _ _) as [iv|]; [| done]. cbn [lift outcome_bind].
  pose proof (setiv_key (c_headerhandle h) iv) as K1. destruct (gcry_cipher_setiv (c_headerhandle h) iv) as [r1 hh].
  pose proof (setiv_key (c_packethandle h) iv) as K2. destruct (gcry_cipher_setiv (c_packethandle h) iv) as [r2 ph]. cbn [snd] in *.
  destruct (mem_read _ _ _) as [x|]; [| done]. cbn [lift outcome_bind].
  pose proof (decrypt_key hh x) as K3. destruct (gcry_cipher_decrypt hh x) as [[r3 hh'] out]. cbn [fst snd] in K3.
  destruct (r3 =? 0); [| intros [= <- <- <- <-]; split; [done |]; split; [done |]; cbn; split; cbn; congruence].
  pose proof (encrypt_key ph (replicate (Z.to_nat CHACHA20_BLOCKSIZE) 0)) as K4.
  destruct (gcry_cipher_encrypt ph _) as [[r4 ph'] key]. cbn [fst snd] in K4.
  pose proof (mac_setkey_algo (m_handle h) (take (Z.to_nat POLY1305_KEYLEN) key)) as K5.
  destruct (gcry_mac_setkey _ _) as [r5 m]. cbn [snd] in K5. cbn [outcome_bind].
  intros [= <- <- <- <-]; split; [done |]; split; [done |]; cbn; split; cbn; congruence.
Qed.

#[export] Instance chacha_parallel : parallel_cipher chacha_matched.
Proof.
  split; [| intros e d seq b r d1 p tmp; apply cc_read_header_matched].
  intros e d seq type pl rnd junk e' p (He & Hd & [S1 S2 S3]) _ _. revert He S1 S2 S3. generalize (e_handle e) as h. intros h -> S1 S2 S3.
  unfold seal. destruct (fill_packet _ _ _ _ _ _ _) as [p0| |]; try done. cbn [outcome_bind e_write_hmac_pre chacha_encryptor e_handle].
  unfold cc_write_hmac_pre. cbn [outcome_bind Z.eqb negb e_encrypt_packet e_write_hmac_post e_hmac_maclen chacha_encryptor].
  destruct (cc_encrypt_packet h p0) as [[[r1 h1] p1]| |] eqn:E1; try done. apply cc_encrypt_packet_secrets in E1 as [A1 A2 A3].
  cbn [outcome_bind]. destruct (negb _); [done |].
  destruct (cc_write_hmac_post _ h1 p1) as [[[r2 h2] p2]| |] eqn:E2; try done. apply cc_write_hmac_post_secrets in E2 as [B1 B2 B3].
  cbn [outcome_bind]. destruct (negb _); [done |]. intros [= <- <-]. split; [done |]. split; [done |]. cbn. split; congruence.
Qed.

End Instances.

(** ** Sending on the socket *)

(** Answers of a socket for a packet of [size] bytes, of which [pos] went out. *)
Fixpoint progress (answers : list send_result) : Z :=
  match answers with
  | [] => 0
  | Sent n :: answers => n + progress answers
  | SendErr _ :: answers => progress answers
  end.

Definition fair (a : send_result) : Prop :=
  match a with Sent n => 0 < n | SendErr errno => errno = EAGAIN end.

Lemma write_ssh_socket_run answers p pos out :
  zlen (p_buffer p) = p_size p -> 0 <= pos < p_size p -> Forall fair answers ->
  p_size p - pos <= progress answers ->
  write_ssh_socket answers p pos out = Ret (p_size p, 0, out ++ drop (Z.to_nat pos) (p_buffer p)).
Proof.
  intros Hz. revert pos out. induction answers as [|[n|errno] answers IH]; intros pos out Hp Hf Hs; cbn [progress] in Hs; [lia | |].
  - apply Forall_cons_1 in Hf as [Hn Hf]. cbn in Hn. cbn [write_ssh_socket].
    rewrite mem_read_Some by lia. cbn [lift outcome_bind].
    destruct (Z.ltb_spec 0 (p_size p - (pos + Z.min n (p_size p - pos)))).
    + rewrite IH by (try done; lia). rewrite <- app_assoc. do 3 f_equal.
      rewrite Z2Nat.inj_add, <- drop_drop by lia. apply take_drop.
    + rewrite Z.min_r by lia. rewrite take_ge by (unfold zlen in *; rewrite length_drop; lia).
      by replace (pos + (p_size p - pos)) with (p_size p) by lia.
  - apply Forall_cons_1 in Hf as [Hn Hf]. cbn in Hn. subst errno. cbn [write_ssh_socket]. rewrite Z.eqb_refl. by apply IH.
Qed.

(** a packet is sent completely and once: whatever parts the socket
    takes, as long as it takes something or answers EAGAIN, the bytes that go
    out are those of the packet in order and the result is its size; and an
    error other than EAGAIN after any number of such answers gives -1. *)
Theorem write_socket_complete (answers : list send_result) (p : packet) :
  0 < p_size p -> zlen (p_buffer p) = p_size p -> Forall fair answers ->
  (p_size p <= progress answers -> write_ssh_socket answers p 0 [] = Ret (p_size p, 0, p_buffer p)) /\
  (forall errno more, progress answers < p_size p -> errno <> EAGAIN ->
     write_ssh_socket (answers ++ SendErr errno :: more) p 0 [] =
       Ret (-1, errno, take (Z.to_nat (progress answers)) (p_buffer p))).
Proof.
  intros Hs Hz Hf. split.
  - intros Hp. by rewrite write_ssh_socket_run by lia || done.
  - intros errno more Hp He.
    enough (forall pos out, 0 <= pos -> pos + progress answers < p_size p ->
      write_ssh_socket (answers ++ SendErr errno :: more) p pos out =
        Ret (-1, errno, out ++ take (Z.to_nat (progress answers)) (drop (Z.to_nat pos) (p_buffer p)))) as E
      by (rewrite (E 0 []) by lia; done).
    clear Hp. induction Hf as [|[n|e] answers Hn Hf IH]; intros pos out H0 Hp; cbn [progress app write_ssh_socket] in *.
    + destruct (Z.eqb_spec errno EAGAIN); [done |]. by rewrite app_nil_r.
    + cbn in Hn. assert (0 <= progress answers) by (clear -Hf; induction Hf as [|[]]; cbn in *; lia).
      rewrite Z.min_l, mem_read_Some by lia. cbn [lift outcome_bind].
      destruct (Z.ltb_spec 0 (p_size p - (pos + n))); [| lia]. rewrite IH by lia. rewrite <- app_assoc. do 3 f_equal.
      rewrite !Z2Nat.inj_add, <- drop_drop by lia. apply take_take_drop.
    + cbn in Hn. subst e. rewrite Z.eqb_refl. by apply IH.
Qed.

Lemma write_socket_complete_witness :
  write_ssh_socket [Sent 2; SendErr EAGAIN; Sent 9] (mkPacket 4 5 0 0 0 0 0 [1;2;3;4;5]) 0 [] = Ret (5, 0, [1;2;3;4;5]).
Proof.
  apply (write_socket_complete [Sent 2; SendErr EAGAIN; Sent 9] (mkPacket 4 5 0 0 0 0 0 [1;2;3;4;5]));
    [done | done | repeat constructor | done].
Defined.

End SshPacket.
