(* ===== verification/SshGeneric.v ===== *)
(** The generic ciphers between the two ends.

    The sender hands the hmac and the cipher the packet with its length field,
    the receiver goes by the length that the field holds, which is four less:
    [decrypt_packet] and [verify_hmac_post] of [ssh/receive/decrypt-generic.c].
    The theorems say what that does to packets of the generic ciphers.

    [Model] is a small library that satisfies what [SshCipher] asks of
    libgcrypt: the concrete inputs of this and later files run on it. *)
From stdpp Require Import base list option strings.
From Stdlib Require Import ZArith Lia.
From S2P Require Import Prelude SshUint SshCipher SshPacket.
Import SshUint SshCipher SshPacket.
Open Scope Z_scope.

Module SshGeneric.

(** ** A library with a stream cipher and a one time authenticator *)

Module Model.

Definition total (b : bytes) : Z := fold_right Z.add 0 b.

Definition key_byte (key iv : bytes) (i : nat) : Z := (total key * 3 + total iv * 5 + Z.of_nat i * 7 + 11) mod 256.

Fixpoint stream (key iv : bytes) (i : nat) (x : bytes) : bytes :=
  match x with [] => [] | c :: x => Z.lxor c (key_byte key iv i) :: stream key iv (S i) x end.

Definition crypt (c : bytes * bytes * nat) (x : bytes) : Z * (bytes * bytes * nat) * bytes :=
  let '(key, iv, i) := c in (0, (key, iv, (i + length x)%nat), stream key iv i x).

Definition mac_tag (m : Z * bytes * bytes) (n : Z) : bytes :=
  replicate (Z.to_nat n) ((total m.1.2 + 3 * total m.2 + zlen m.2) mod 256).

(** The same for a mode that takes whole blocks of sixteen bytes only. *)
Definition block_crypt (c : bytes * bytes * nat) (x : bytes) : Z * (bytes * bytes * nat) * bytes :=
  if zlen x mod 16 =? 0 then crypt c x else (1, c, x).

Definition library_of (cipher : bytes * bytes * nat -> bytes -> Z * (bytes * bytes * nat) * bytes) : gcrypt := {|
  chandle := bytes * bytes * nat;
  mhandle := Z * bytes * bytes;
  GCRY_CIPHER_MODE_CBC := 3;
  GCRY_CIPHER_MODE_CTR := 6;
  GCRY_CIPHER_MODE_ECB := 1;
  GCRY_CIPHER_MODE_STREAM := 4;
  GCRY_MAC_HMAC_SHA1 := 105;
  GCRY_MAC_HMAC_MD5 := 104;
  GCRY_MAC_HMAC_SHA256 := 101;
  GCRY_MAC_HMAC_SHA224 := 102;
  GCRY_MAC_HMAC_SHA512 := 103;
  GCRY_MAC_HMAC_SHA384 := 106;
  GCRY_MAC_POLY1305 := 501;
  gcry_cipher_map_name name := if bytes_eqb name (lit "chacha20") then 316 else 7;
  gcry_cipher_open algo mode := (0, ([], [], 0%nat));
  gcry_cipher_setkey c key := (0, (key, c.1.2, c.2));
  gcry_cipher_setiv c iv := (0, (c.1.1, iv, 0%nat));
  gcry_cipher_get_algo_blklen algo := 16;
  gcry_cipher_encrypt := cipher;
  gcry_cipher_decrypt := cipher;
  gcry_mac_map_name name := 0;
  gcry_mac_open algo := (0, (algo, [], []));
  gcry_mac_setkey m key := (0, (m.1.1, key, []));
  gcry_mac_get_algo_maclen algo := 16;
  gcry_mac_write m d := (0, (m.1, m.2 ++ d));
  gcry_mac_read m n := (0, m, mac_tag m n);
  gcry_mac_verify m t := (if bytes_eqb t (mac_tag m 16) then 0 else 1, m) |}.

#[export] Instance library : gcrypt := library_of crypt.

Lemma length_stream key iv i x : length (stream key iv i x) = length x.
Proof. revert i. induction x; intros; cbn; auto. Qed.

Lemma stream_back key iv i x n : stream key iv i (take n (stream key iv i x)) = take n x.
Proof.
  revert i n. induction x as [|c x IH]; intros i [|n]; cbn; try done.
  rewrite IH, Z.lxor_assoc, Z.lxor_nilpotent. by rewrite Z.lxor_0_r.
Qed.

#[export] Instance laws : chacha_laws (G := library).
Proof.
  unshelve refine {|
    key_of := (fun c : @chandle library => c.1.1 : bytes); in_step := eq;
    mac_algo := (fun m : @mhandle library => m.1.1 : Z); mac_step := eq |}; try done.
  - by intros [[]].
  - by intros [[]].
  - by intros [[k1 ?] ?] [[k2 ?] ?] iv [= ->].
  - intros a ? x <-. destruct a as [[k iv] i]. eexists _, _, _. do 2 (split; [done |]).
    split; [unfold zlen; by rewrite length_stream | done].
  - intros a ? x y a' n <-. destruct a as [[k iv] i]. intros [= <- <-].
    eexists. cbn. by rewrite stream_back.
  - by intros [[a1 ?] ?] [[a2 ?] ?] k [= ->].
  - by intros a ? d <-.
  - intros a ? <-. eexists _, _. split; [done |]. split; [done |]. intros t.
    cbn -[mac_tag bytes_eqb]. unfold bytes_eqb. change POLY1305_TAGLEN with 16. case_bool_decide; split; congruence.
Defined.

End Model.

Section Generic.
Context `{G : gcrypt}.

(** ** Block ciphers *)

(** the generic decryptor and packets of its own encryptor.  A packet that
    fits one block of the cipher (a payload of at most [bs - 9] bytes, such as
    a one byte message with a block of 16) makes [decrypt_packet] reach
    outside the packet, because the length that remains wraps below zero; any
    longer packet hands the cipher a length that is four short of whole
    blocks, so with a mode that only takes whole blocks the packet is refused. *)
Theorem generic_block_span (h : generic_handle) (c : chandle) (p : packet) (bs : Z) (pl : bytes) :
  8 <= bs <= 128 -> zlen pl < 2 ^ 31 -> g_c h = Some c ->
  p_len p = 1 + zlen pl + get_message_padding bs (zlen pl + 5) -> p_decrypted p = bs ->
  p_len p + 4 <= zlen (p_buffer p) < 2 ^ 32 - 4 ->
  (zlen pl + 9 <= bs -> decrypt_packet h p = Ub) /\
  (bs < zlen pl + 9 -> (forall c x, zlen x mod bs <> 0 -> (gcry_cipher_decrypt c x).1.1 <> 0) ->
     exists h', decrypt_packet h p = Ret (-1, h', p)).
Proof.
  intros Hbs Hpl Hc Hlen Hdec Hz. pose proof (zlen_nonneg pl).
  pose proof (padding_core bs (zlen pl + 5) ltac:(lia) ltac:(lia)) as [Hp Hmod].
  set (pad := get_message_padding _ _) in *. apply Z.mod_divide in Hmod as [k Hk]; [| lia].
  unfold decrypt_packet. rewrite Hc, Hdec. cbn [lift outcome_bind]. split.
  - intros Hs. assert (k = 1) as -> by nia.
    replace (p_len p - bs) with (-4) by lia. change (u32 (-4)) with (2 ^ 32 - 4).
    by rewrite mem_read_None by lia.
  - intros Hs Hlaw. assert (2 <= k) by nia. assert (bs <= p_len p - bs + 4) by nia.
    rewrite u32_id by (unfold is_u32; lia). rewrite mem_read_Some by lia. cbn [lift outcome_bind].
    set (x := take _ _). assert (zlen x = p_len p - bs) as Hx.
    { unfold x. rewrite zlen_take; [done |]. rewrite zlen_drop by lia. lia. }
    assert (zlen x mod bs <> 0) as Hm.
    { rewrite Hx, Hlen. replace (1 + zlen pl + pad - bs) with ((bs - 4) + (k - 2) * bs) by lia.
      rewrite Z.mod_add, Z.mod_small by lia. lia. }
    specialize (Hlaw c x Hm). destruct (gcry_cipher_decrypt c x) as [[r c'] out]. cbn in Hlaw.
    destruct (Z.eqb_spec r 0); [done |]. by eexists.
Qed.

(** ** The hmac *)

Definition authenticated (m : mhandle) (seq : Z) (text : bytes) : mhandle :=
  (gcry_mac_write (gcry_mac_write m (be_encode 4 seq)).2 text).2.

Lemma write_hmac_pre_eq maclen h p m text tail :
  g_m h = Some m -> p_buffer p = text ++ tail -> p_len p = zlen text ->
  write_hmac_pre maclen h p = Ret (0, mkGeneric (g_c h) (Some (authenticated m (p_sequence p) text)), p).
Proof.
  intros Hm Hb Hl. unfold write_hmac_pre. rewrite Hm. cbn [lift outcome_bind].
  rewrite store_uint32_app by done. rewrite drop_ge, app_nil_r by done. cbn [lift outcome_bind].
  unfold authenticated. destruct (gcry_mac_write m _) as [? m1]. rewrite Hb, mem_read_0 by done.
  cbn [lift outcome_bind snd]. by destruct (gcry_mac_write m1 _).
Qed.

Lemma verify_hmac_post_eq maclen h p m text tag more :
  g_m h = Some m -> p_buffer p = text ++ tag ++ more -> p_len p = zlen text -> maclen = zlen tag ->
  let m' := authenticated m (p_sequence p) text in
  verify_hmac_post maclen h p =
    Ret (if (gcry_mac_verify m' tag).1 =? 0 then 0 else -1, mkGeneric (g_c h) (Some (gcry_mac_verify m' tag).2), p).
Proof.
  intros Hm Hb Hl Hn m'. subst m'. unfold verify_hmac_post. rewrite Hm. cbn [lift outcome_bind].
  rewrite store_uint32_app by done. rewrite drop_ge, app_nil_r by done. cbn [lift outcome_bind].
  unfold authenticated. destruct (gcry_mac_write m _) as [? m1]. rewrite Hb, mem_read_0 by done.
  cbn [lift outcome_bind snd]. destruct (gcry_mac_write m1 _) as [? m2]. rewrite mem_read_at by done.
  cbn [lift outcome_bind snd]. by destruct (gcry_mac_verify m2 tag).
Qed.

(** the generic hmac at the two ends, with no cipher between them: the
    sender authenticates the number and the whole packet [text]; the receiver
    authenticates the packet without its last four bytes, and compares with
    those four bytes of padding followed by the tag without its last four.
    The packet is opened only when that comparison happens to succeed. *)
Theorem generic_hmac_span (m : mhandle) (maclen seq type : Z) (pl rnd junk : bytes) :
  8 <= maclen <= 64 -> is_u32 seq -> 0 < zlen pl < 2 ^ 31 ->
  (forall m n, 0 <= n -> (gcry_mac_read m n).1.1 = 0 /\ zlen (gcry_mac_read m n).2 = n) ->
  let h := mkGeneric None (Some m) in
  let e := mkEncryptor h write_hmac_pre encrypt_packet_none write_hmac_post get_message_padding 8 maclen in
  let d := mkDecryptor h verify_hmac_none decrypt_length_none decrypt_packet_none verify_hmac_post 8 8 maclen in
  let text := plain (get_message_padding 8 (zlen pl + 5)) pl rnd in
  let tag := (gcry_mac_read (authenticated m seq text) maclen).2 in
  let n := Z.to_nat (zlen text - 4) in
  exists e' d' p q, seal e seq type pl rnd junk = Ret (0, e', p) /\ p_buffer p = text ++ tag /\
    open_packet d (mkPacket (zlen text - 4) 0 0 0 seq 0 8 (text ++ tag)) (take 8 text) =
      Ret ((gcry_mac_verify (authenticated m seq (take n text))
             (drop n text ++ take (Z.to_nat (maclen - 4)) tag)).1 =? 0, d', q).
Proof.
  intros Hml Hseq Hpl Hread h e d text tag n.
  pose proof (padding_core 8 (zlen pl + 5) ltac:(lia) ltac:(lia)) as [Hp _].
  set (pad := get_message_padding 8 (zlen pl + 5)) in *.
  destruct (fill_packet_plain seq type pad maclen pl rnd junk) as (tail & Ht & Ef); [lia.. |].
  assert (zlen text = 5 + zlen pl + pad) as Hz by (apply zlen_plain; lia).
  destruct (Hread (authenticated m seq text) maclen ltac:(lia)) as [Hr0 Hrz]. fold tag in Hrz.
  assert (exists e' p, seal e seq type pl rnd junk = Ret (0, e', p) /\ p_buffer p = text ++ tag) as (e' & p & Es & Eb).
  { unfold seal. cbn [e_get_message_padding e_cipher_blocksize e_hmac_maclen e_write_hmac_pre e_encrypt_packet
      e_write_hmac_post e_handle e]. rewrite (u32_id (zlen pl + 5)) by (unfold is_u32; lia). fold pad. rewrite Ef.
    cbn [outcome_bind]. fold text. rewrite (write_hmac_pre_eq maclen h _ m text tail) by (done || cbn; lia).
    cbn [outcome_bind Z.eqb negb encrypt_packet_none write_hmac_post g_m g_c h lift p_sequence p_len p_buffer].
    subst tag. destruct (gcry_mac_read _ maclen) as [[r m'] t]. cbn in Hr0, Hrz. subst r. cbn [Z.eqb].
    rewrite mem_write_at by lia. rewrite drop_ge, app_nil_r by (unfold zlen in *; lia).
    eexists _, _. split; [done |]. done. }
  assert (text = take 8 text ++ drop 8 text) as E8 by by rewrite take_drop.
  eexists e', _, p, _. split; [done |]. split; [done |]. unfold open_packet.
  cbn [d_verify_hmac_pre d_hmac_maclen d_handle d_cipher_headersize d_decrypt_packet d_verify_hmac_post set_dhandle d].
  unfold verify_hmac_none. cbn [outcome_bind Z.eqb negb p_buffer].
  rewrite mem_write0_Some by (rewrite zlen_app; unfold zlen in *; rewrite !length_take; lia).
  rewrite take_take, Nat.min_id, drop_app_le, app_assoc, length_take_le, take_drop by (unfold zlen in *; rewrite ?length_take; lia).
  cbn [lift outcome_bind Z.eqb negb decrypt_packet_none p_buffer set_buffer].
  unfold text at 1, plain at 1, body at 1. rewrite <- app_assoc, <- app_comm_cons, mem_read_padding by done.
  cbn [lift outcome_bind]. fold text.
  erewrite (verify_hmac_post_eq maclen h _ m (take n text) (drop n text ++ take (Z.to_nat (maclen - 4)) tag)
    (drop (Z.to_nat (maclen - 4)) tag)); [| done | | | ]; cbn [p_buffer p_len p_sequence set_padding set_buffer].
  2: { rewrite <- app_assoc, take_drop, app_assoc, take_drop. done. }
  2: { unfold n. rewrite zlen_take by lia. lia. }
  2: { unfold n. rewrite zlen_app, zlen_drop, zlen_take by lia. lia. }
  cbn [outcome_bind]. set (r := (gcry_mac_verify _ _).1). destruct (Z.eqb_spec r 0); reflexivity.
Qed.

End Generic.

(** A one byte message in one block, and one of two blocks. *)
Lemma generic_block_span_witness :
  let G := Model.library_of Model.block_crypt in
  let h := mkGeneric (G := G) (Some ([1], [2], 0%nat)) None in
  decrypt_packet (G := G) h (mkPacket 12 0 0 0 0 0 16 (repeat 0 16)) = Ub /\
  (exists h', decrypt_packet (G := G) h (mkPacket 28 0 0 0 0 0 16 (repeat 0 32)) =
     Ret (-1, h', mkPacket 28 0 0 0 0 0 16 (repeat 0 32))).
Proof.
  intros G h. split.
  - apply (generic_block_span (G := G) h ([1], [2], 0%nat) (mkPacket 12 0 0 0 0 0 16 (repeat 0 16)) 16 [21]); done.
  - apply (generic_block_span (G := G) h ([1], [2], 0%nat) (mkPacket 28 0 0 0 0 0 16 (repeat 0 32)) 16 (repeat 90 10));
      try done.
    intros c x Hx. cbn. unfold Model.block_crypt. by destruct (Z.eqb_spec (zlen x mod 16) 0).
Defined.

(** A hmac of sixteen bytes and a payload of three: the packet is refused. *)
Lemma generic_hmac_span_witness :
  let h := mkGeneric (G := Model.library) None (Some (101, [9; 9], [])) in
  let e := mkEncryptor h write_hmac_pre encrypt_packet_none write_hmac_post get_message_padding 8 16 in
  let d := mkDecryptor h verify_hmac_none decrypt_length_none decrypt_packet_none verify_hmac_post 8 8 16 in
  exists e' d' p q, seal e 0 94 [94; 1; 2] (repeat 7 255) [] = Ret (0, e', p) /\
    open_packet d (mkPacket 12 0 0 0 0 0 8 (p_buffer p)) (take 8 (p_buffer p)) = Ret (false, d', q).
Proof.
  intros h e d.
  destruct (generic_hmac_span (G := Model.library) (101, [9; 9], []) 16 0 94 [94; 1; 2] (repeat 7 255) [])
    as (e' & d' & p & q & Es & Eb & Eo); [lia | done | done | | ].
  { intros m n Hn. split; [done |]. cbn. unfold Model.mac_tag, zlen. rewrite length_replicate. lia. }
  exists e', d', p, q. split; [exact Es |]. rewrite Eb. exact Eo.
Defined.

End SshGeneric.
