(* ===== verification/SshReceive.v ===== *)
(** The reader of the ssh stream: [cb_read_socket_ssh] of
    [ssh/receive/read-buffer.c], the copy of received data
    ([cb_copy_socket_ssh] of [ssh/receive/read-socket.c] inside
    [process_connection_socket_recv_event] of [lib/socket/event.c]), and the
    hooks that the phases of a connection install.

    One call of the reader; what other threads do while it waits (data
    that arrives, a timeout, the end of the socket, the new keys, a queued
    worker) is a list of events.  The reader consumes events only where the
    code waits.  Several calls at a time are modelled in SshReaders.v.  [sk_net] is what the peer sent and the kernel still holds;
    [Readable k] is a receive call that returns at most [k] of it. *)
From stdpp Require Import base list option strings.
From Stdlib Require Import ZArith Lia.
From S2P Require Import Prelude SshUint SshCipher SshPacket SshGeneric.
Import SshUint SshCipher SshPacket SshGeneric.
Open Scope Z_scope.

Module SshReceive.

Definition EIO : Z := 5.
Definition ENOMEM : Z := 12.
Definition EPROTO : Z := 71.
Definition ENOTCONN : Z := 107.
Definition ETIMEDOUT : Z := 110.

Definition SSH_MSG_NEWKEYS : Z := 21.

(** ** The socket *)

Record sock : Type := mkSock { rd_buffer : bytes; rd_pos : Z; sk_net : bytes; sk_down : bool }.

Inductive event : Type := Readable (k : Z) | Worker | Newkeys (now : Z) | TimedOut | Down.

(** [process_connection_socket_recv_event]: the receive call is given the place
    [at] and the room after it; the copy callback then adds what was read to
    [rd.pos].  Without room the call has length 0, returns 0, and that is taken
    for the end of the connection; without data there is EAGAIN, and nothing
    happens. *)
Definition recv_call (at_ k : Z) (s : sock) : outcome sock :=
  let room := zlen (rd_buffer s) - at_ in
  if room =? 0 then Ret (mkSock (rd_buffer s) (rd_pos s) (sk_net s) true)
  else
    let bytesread := Z.min (Z.max 1 k) (Z.min room (zlen (sk_net s))) in
    if bytesread =? 0 then Ret s
    else
      let! b := lift (mem_write (rd_buffer s) at_ (take (Z.to_nat bytesread) (sk_net s))) in
      Ret (mkSock b (rd_pos s + bytesread) (drop (Z.to_nat bytesread) (sk_net s)) (sk_down s)).

(** The place is [rd.pos] at the time of the call. *)
Definition recv_event (k : Z) (s : sock) : outcome sock := recv_call (rd_pos s) k s.

(** ** The connection *)

Inductive pre_hook : Type := cb_post_read_header_parallel | cb_post_read_header_ignore.
Inductive post1_hook : Type := cb_pre_process_ignore | cb_pre_process_serial.
Inductive post2_hook : Type := cb_post_process_ignore | cb_post_process_kex.

Record hooks : Type := mkHooks { h_pre : pre_hook; h_post1 : post1_hook; h_post2 : post2_hook }.

(** [r_enabled] says whether [sock->ctx.read] is the reader or the dummy;
    [kexinit] and [newkeys] are the times of the two phases. *)
Record core (H : Type) : Type := mkCore {
  r_sequence_number : Z; r_threads : Z; r_msgsize : Z; r_enabled : bool; r_decryptor : decryptor H;
  r_kexinit : Z; r_newkeys : Z; r_parallel : bool; r_hooks : hooks;
  r_out : list payload; r_disconnected : bool }.
Arguments mkCore {H} _ _ _ _ _ _ _ _ _ _ _.
Arguments r_sequence_number {H} _.
Arguments r_threads {H} _.
Arguments r_msgsize {H} _.
Arguments r_enabled {H} _.
Arguments r_decryptor {H} _.
Arguments r_kexinit {H} _.
Arguments r_newkeys {H} _.
Arguments r_parallel {H} _.
Arguments r_hooks {H} _.
Arguments r_out {H} _.
Arguments r_disconnected {H} _.

Record receive (H : Type) : Type := mkReceive { r_sock : sock; r_workers : Z; r_core : core H }.
Arguments mkReceive {H} _ _ _.
Arguments r_sock {H} _.
Arguments r_workers {H} _.
Arguments r_core {H} _.

Section Reader.
Context {H : Type}.
Implicit Types (c : core H) (r : receive H).

Definition set_sequence c n := mkCore n (r_threads c) (r_msgsize c) (r_enabled c) (r_decryptor c) (r_kexinit c) (r_newkeys c) (r_parallel c) (r_hooks c) (r_out c) (r_disconnected c).
Definition set_busy c n (on : bool) := mkCore (r_sequence_number c) n (r_msgsize c) on (r_decryptor c) (r_kexinit c) (r_newkeys c) (r_parallel c) (r_hooks c) (r_out c) (r_disconnected c).
Definition set_msgsize c n := mkCore (r_sequence_number c) (r_threads c) n (r_enabled c) (r_decryptor c) (r_kexinit c) (r_newkeys c) (r_parallel c) (r_hooks c) (r_out c) (r_disconnected c).
Definition set_decryptor c (d : decryptor H) := mkCore (r_sequence_number c) (r_threads c) (r_msgsize c) (r_enabled c) d (r_kexinit c) (r_newkeys c) (r_parallel c) (r_hooks c) (r_out c) (r_disconnected c).
Definition set_kexinit c n := mkCore (r_sequence_number c) (r_threads c) (r_msgsize c) (r_enabled c) (r_decryptor c) n (r_newkeys c) (r_parallel c) (r_hooks c) (r_out c) (r_disconnected c).
Definition set_newkeys c n := mkCore (r_sequence_number c) (r_threads c) (r_msgsize c) (r_enabled c) (r_decryptor c) (r_kexinit c) n (r_parallel c) (r_hooks c) (r_out c) (r_disconnected c).
Definition set_hooks c k := mkCore (r_sequence_number c) (r_threads c) (r_msgsize c) (r_enabled c) (r_decryptor c) (r_kexinit c) (r_newkeys c) (r_parallel c) k (r_out c) (r_disconnected c).
Definition add_out c pl := mkCore (r_sequence_number c) (r_threads c) (r_msgsize c) (r_enabled c) (r_decryptor c) (r_kexinit c) (r_newkeys c) (r_parallel c) (r_hooks c) (r_out c ++ [pl]) (r_disconnected c).
Definition disconnect c := mkCore (r_sequence_number c) (r_threads c) (r_msgsize c) (r_enabled c) (r_decryptor c) (r_kexinit c) (r_newkeys c) (r_parallel c) (r_hooks c) (r_out c) true.

Definition upd r (f : core H -> core H) : receive H := mkReceive (r_sock r) (r_workers r) (f (r_core r)).

(** [set_ssh_receive_behaviour] for its phases. *)
Inductive phase : Type := Greeter | Session | Kexinit | NewKeysPhase.

Definition set_ssh_receive_behaviour (now : Z) (p : phase) c : core H :=
  match p with
  | Greeter | Session =>
      set_hooks c (mkHooks cb_post_read_header_ignore cb_pre_process_serial cb_post_process_ignore)
  | Kexinit =>
      set_hooks (set_kexinit c now) (mkHooks cb_post_read_header_ignore cb_pre_process_ignore cb_post_process_kex)
  | NewKeysPhase => set_newkeys c now
  end.

(** ** Waiting *)

(** What another thread does while the reader waits.  A worker that finds the
    reader busy leaves at once. *)
Definition apply_event (ev : event) r : outcome (receive H) :=
  match ev with
  | Readable k => let! s := recv_event k (r_sock r) in Ret (mkReceive s (r_workers r) (r_core r))
  | Worker => Ret (mkReceive (r_sock r) (Z.max 0 (r_workers r - 1)) (r_core r))
  | Newkeys now => Ret (upd r (set_ssh_receive_behaviour now NewKeysPhase))
  | TimedOut => Ret r
  | Down => Ret (mkReceive (mkSock (rd_buffer (r_sock r)) (rd_pos (r_sock r)) (sk_net (r_sock r)) true)
                  (r_workers r) (r_core r))
  end.

Inductive wait_result : Type :=
| WReady (r : receive H) (evs : list event)
| WFail (errcode : Z) (r : receive H) (evs : list event)
| WBlocked (r : receive H).

(** The waits of the reader: [signal_condtimedwait] until the condition holds,
    [ETIMEDOUT], or [ENOTCONN] when the socket went down. *)
Fixpoint wait_until (cond : receive H -> bool) (evs : list event) r : outcome wait_result :=
  if cond r then Ret (WReady r evs) else
  match evs with
  | [] => Ret (WBlocked r)
  | TimedOut :: evs => Ret (WFail ETIMEDOUT r evs)
  | ev :: evs =>
      let! r := apply_event ev r in
      if sk_down (r_sock r) then Ret (WFail ENOTCONN r evs) else wait_until cond evs r
  end.

Definition has_bytes (n : Z) r : bool := n <=? rd_pos (r_sock r).

(** ** One packet out of the buffer *)

Inductive read_result : Type :=
| NoWork (r : receive H) (evs : list event)
| Broken (errcode : Z) (r : receive H) (evs : list event)
| Again (r : receive H) (evs : list event)
| Got (p : packet) (tmpheader : bytes) (r : receive H) (evs : list event)
| Starved (r : receive H).

(** The rest of the buffer moves to its start. *)
Definition take_packet (size : Z) (s : sock) : outcome (bytes * sock) :=
  let! data := lift (mem_read (rd_buffer s) 0 size) in
  if rd_pos s =? size then Ret (data, mkSock (rd_buffer s) 0 (sk_net s) (sk_down s))
  else
    let bytesleft := u32 (rd_pos s - size) in
    let! b := lift (memmove (rd_buffer s) 0 size bytesleft) in
    Ret (data, mkSock b bytesleft (sk_net s) (sk_down s)).

(** From the start of the loop to [r->threads--]. *)
Definition read_packet (max_packet_size : Z) (evs : list event) r : outcome read_result :=
  if (0 <? r_threads (r_core r)) || (rd_pos (r_sock r) =? 0) then Ret (NoWork r evs) else
  let r := upd r (fun c => set_busy c (r_threads c + 1) false) in
  let! w := wait_until (has_bytes (d_cipher_headersize (r_decryptor (r_core r)))) evs r in
  match w with
  | WBlocked r => Ret (Starved r)
  | WFail errcode r evs => Ret (Broken errcode r evs)
  | WReady r evs =>
      let sequence := r_sequence_number (r_core r) in
      let r := upd r (fun c => set_sequence c (u32 (sequence + 1))) in
      let! (res, d, p, tmpheader) := read_header (r_decryptor (r_core r)) sequence (rd_buffer (r_sock r)) in
      let r := upd r (fun c => set_decryptor c d) in
      if negb (res =? 0) then Ret (Again r evs) else
      let! len := lift (get_uint32 tmpheader) in
      let size := msgsize d len in
      if max_packet_size <=? size then Ret (Broken EIO r evs) else
      let r := upd r (fun c => set_msgsize c size) in
      let! w := wait_until (has_bytes size) evs r in
      match w with
      | WBlocked r => Ret (Starved r)
      | WFail errcode r evs => Ret (Broken errcode r evs)
      | WReady r evs =>
          let! (data, s) := take_packet size (r_sock r) in
          let r := mkReceive s (r_workers r) (r_core r) in
          let r := upd r (fun c => set_busy (set_msgsize c 0) (r_threads c - 1) true) in
          Ret (Got (set_plen (set_buffer p data) len) tmpheader r evs)
      end
  end.

(** ** Opening and processing it *)

Definition spawn r : receive H :=
  if 0 <? rd_pos (r_sock r) then mkReceive (r_sock r) (r_workers r + 1) (r_core r) else r.

Definition pre_process r : receive H :=
  match h_pre (r_hooks (r_core r)) with cb_post_read_header_parallel => spawn r | _ => r end.
Definition post_process_01 r : receive H :=
  match h_post1 (r_hooks (r_core r)) with cb_pre_process_serial => spawn r | _ => r end.

(** [cb_post_process_kex] waits for the new keys; [None] when no event ends the wait. *)
Definition post_process_02 (type : Z) (evs : list event) r : outcome (option (Z * receive H * list event)) :=
  match h_post2 (r_hooks (r_core r)) with
  | cb_post_process_ignore => Ret (Some (0, r, evs))
  | cb_post_process_kex =>
      if negb (type =? SSH_MSG_NEWKEYS) then Ret (Some (0, r, evs)) else
      let! w := wait_until (fun r => r_kexinit (r_core r) <? r_newkeys (r_core r)) evs r in
      match w with
      | WReady r evs =>
          let k := if r_parallel (r_core r)
                   then mkHooks cb_post_read_header_parallel cb_pre_process_ignore cb_post_process_ignore
                   else mkHooks cb_post_read_header_ignore cb_pre_process_serial cb_post_process_ignore in
          Ret (Some (0, upd r (fun c => set_hooks c k), evs))
      | WFail errcode r evs => Ret (Some (errcode, r, evs))
      | WBlocked r => Ret None
      end
  end.

Inductive process_result : Type :=
| Done (errcode : Z) (r : receive H) (evs : list event)
| Waiting (r : receive H).

(** From [pre_process] to the end of the loop's body; [alloc] tells for a
    number whether the payload can be allocated. *)
Definition process_packet (alloc : Z -> bool) (p : packet) (tmpheader : bytes) (evs : list event) r
    : outcome process_result :=
  let r := pre_process r in
  let! (ok, d, p) := open_packet (r_decryptor (r_core r)) p tmpheader in
  let r := upd r (fun c => set_decryptor c d) in
  if negb ok then Ret (Done EPROTO r evs) else
  let r := post_process_01 r in
  let! o := decompress_packet (alloc (p_sequence p)) p in
  match o with
  | None => Ret (Done ENOMEM r evs)
  | Some pl =>
      let r := upd r (fun c => add_out c pl) in
      let! o := post_process_02 (pl_type pl) evs r in
      match o with
      | Some (errcode, r, evs) => Ret (Done errcode r evs)
      | None => Ret (Waiting r)
      end
  end.

(** ** The loop *)

(** After the loop: some error codes end the connection. *)
Definition outcheck (errcode : Z) r : receive H :=
  if (errcode =? EIO) || (errcode =? ENOTCONN) || (errcode =? ETIMEDOUT) || (errcode =? ENOMEM)
  then upd r disconnect else r.

(** [None] for the events: the thread is still waiting. *)
Fixpoint cb_read_socket_ssh (fuel : nat) (max_packet_size : Z) (alloc : Z -> bool) (evs : list event) r
    : outcome (receive H * option (list event)) :=
  match fuel with
  | O => NoFuel
  | S fuel =>
      let! x := read_packet max_packet_size evs r in
      match x with
      | NoWork r evs => Ret (r, Some evs)
      | Starved r => Ret (r, None)
      | Broken errcode r evs => Ret (outcheck errcode r, Some evs)
      | Again r evs => cb_read_socket_ssh fuel max_packet_size alloc evs r
      | Got p tmpheader r evs =>
          let! y := process_packet alloc p tmpheader evs r in
          match y with
          | Waiting r => Ret (r, None)
          | Done errcode r evs =>
              if errcode =? 0 then cb_read_socket_ssh fuel max_packet_size alloc evs r
              else Ret (outcheck errcode r, Some evs)
          end
      end
  end.

End Reader.

(** ** The buffer is a window on the stream *)

(** What was sent and is not taken by the reader yet. *)
Definition pending (s : sock) : bytes := take (Z.to_nat (rd_pos s)) (rd_buffer s) ++ sk_net s.

Record wf_sock (size : Z) (s : sock) : Prop := {
  ws_size : zlen (rd_buffer s) = size;
  ws_pos : 0 <= rd_pos s <= size }.

Lemma recv_event_window size k s :
  wf_sock size s -> rd_pos s < size ->
  exists s', recv_event k s = Ret s' /\ wf_sock size s' /\ pending s' = pending s /\
    rd_pos s <= rd_pos s' /\ zlen (sk_net s') + (rd_pos s' - rd_pos s) = zlen (sk_net s) /\
    (0 < zlen (sk_net s) -> rd_pos s < rd_pos s') /\ sk_down s' = sk_down s.
Proof.
  intros [Hz Hp] Hlt. pose proof (zlen_nonneg (sk_net s)) as Hn. unfold recv_event, recv_call. rewrite Hz.
  destruct (Z.eqb_spec (size - rd_pos s) 0) as [|_]; [lia |]. set (n := Z.min _ _).
  destruct (Z.eqb_spec n 0) as [En|En].
  - exists s. split; [done |]. repeat split; try done; lia.
  - assert (0 < n <= zlen (sk_net s)) by lia. assert (n <= size - rd_pos s) by lia.
    rewrite mem_write_Some by (rewrite ?zlen_take; lia). cbn [lift outcome_bind]. eexists. split; [done |].
    assert (length (take (Z.to_nat n) (sk_net s)) = Z.to_nat n) as Hl by (rewrite length_take; unfold zlen in *; lia).
    split; [split; cbn; try done; try lia |].
    + unfold zlen in *. rewrite !length_app, Hl, length_take, length_drop. lia.
    + cbn. split; [| rewrite zlen_drop; repeat split; try done; lia]. unfold pending. cbn.
      rewrite app_assoc, take_app_length' by (rewrite length_app, Hl, length_take; unfold zlen in *; lia).
      by rewrite <- app_assoc, take_drop.
Qed.

Lemma zlen_pending size s : wf_sock size s -> zlen (pending s) = rd_pos s + zlen (sk_net s).
Proof. intros [Hz Hp]. unfold pending. rewrite zlen_app, zlen_take by lia. done. Qed.

(** Events that bring data or schedule workers, and how many bring data. *)
Definition good (ev : event) : Prop := match ev with Readable _ | Worker => True | _ => False end.

Fixpoint readables (evs : list event) : Z :=
  match evs with [] => 0 | Readable _ :: evs => 1 + readables evs | _ :: evs => readables evs end.

Lemma readables_nonneg evs : 0 <= readables evs.
Proof. induction evs as [|[] evs IH]; cbn; lia. Qed.

Definition supply (s : sock) (evs : list event) : Prop :=
  Forall good evs /\ zlen (sk_net s) <= readables evs /\ sk_down s = false.

Lemma wait_until_ready {H} size n evs (r : receive H) :
  wf_sock size (r_sock r) -> n <= size -> n <= zlen (pending (r_sock r)) -> supply (r_sock r) evs ->
  exists s w evs', wait_until (has_bytes n) evs r = Ret (WReady (mkReceive s w (r_core r)) evs') /\
    wf_sock size s /\ pending s = pending (r_sock r) /\ n <= rd_pos s /\ rd_pos (r_sock r) <= rd_pos s /\
    supply s evs' /\ (length evs' <= length evs)%nat.
Proof.
  intros Hw Hn. revert r Hw. induction evs as [|ev evs IH]; intros r Hw Hp (Hg & Hs & Hu);
    cbn [wait_until]; unfold has_bytes at 1; rewrite (zlen_pending _ _ Hw) in Hp; pose proof (zlen_nonneg (sk_net (r_sock r))).
  - destruct (Z.leb_spec n (rd_pos (r_sock r))); [| cbn in Hs; lia].
    destruct r as [s w c]. exists s, w, []. done.
  - destruct (Z.leb_spec n (rd_pos (r_sock r))) as [|Hlt].
    { destruct r as [s w c]. by exists s, w, (ev :: evs). }
    apply Forall_cons_1 in Hg as [He Hg]. destruct Hw as [Hz Hr]. destruct ev as [k| | | |]; try done.
    + cbn [apply_event]. destruct (recv_event_window size k (r_sock r)) as (s & -> & Hw & Hpd & Hle & Hnet & Hgt & Hdn); [done | lia |].
      cbn [outcome_bind r_sock]. rewrite Hdn, Hu.
      destruct (IH (mkReceive s (r_workers r) (r_core r))) as (s' & w & evs' & E & Hw' & Hpd' & Hn' & Hle' & Hsup & Hlen); cbn [r_sock] in *.
      * done.
      * rewrite Hpd, (zlen_pending size) by done. lia.
      * cbn in Hs. split; [done |]. split; [| congruence]. destruct (Z.eqb_spec (zlen (sk_net (r_sock r))) 0); lia.
      * exists s', w, evs'. rewrite E. split; [done |]. split; [done |]. split; [congruence |].
        do 2 (split; [lia |]). split; [done |]. cbn; lia.
    + cbn [apply_event outcome_bind r_sock]. rewrite Hu.
      destruct (IH (mkReceive (r_sock r) (Z.max 0 (r_workers r - 1)) (r_core r))) as (s' & w & evs' & E & Hrest); cbn [r_sock] in *.
      * done.
      * rewrite (zlen_pending size) by done. done.
      * by split.
      * exists s', w, evs'. rewrite E. destruct Hrest as (? & ? & ? & ? & ? & ?). repeat (split; [done |]). cbn; lia.
Qed.

(** Taking a packet is taking the head of the stream. *)
Lemma take_packet_head size s w rest :
  wf_sock size s -> pending s = w ++ rest -> 0 < zlen w <= rd_pos s -> rd_pos s < 2 ^ 32 ->
  exists s', take_packet (zlen w) s = Ret (w, s') /\ wf_sock size s' /\ pending s' = rest /\
    sk_net s' = sk_net s /\ sk_down s' = sk_down s.
Proof.
  intros [Hz Hp] Hpd Hw H32. unfold pending in Hpd. unfold take_packet. generalize dependent (rd_buffer s). intros b Hz Hpd.
  assert (exists x, take (Z.to_nat (rd_pos s)) b = w ++ x /\ zlen x = rd_pos s - zlen w /\ x ++ sk_net s = rest) as (x & Hx & Hxl & Hxr).
  { exists (drop (length w) (take (Z.to_nat (rd_pos s)) b)).
    assert (take (length w) (take (Z.to_nat (rd_pos s)) b) = w) as Hw'.
    { apply (f_equal (take (length w))) in Hpd. rewrite take_app_length in Hpd.
      rewrite take_app_le in Hpd; [done |]. rewrite length_take. unfold zlen in *. lia. }
    split; [rewrite <- (take_drop (length w) (take _ b)) at 1; by rewrite Hw' |]. split.
    - unfold zlen in *. rewrite length_drop, length_take. lia.
    - apply (f_equal (drop (length w))) in Hpd. rewrite drop_app_length, drop_app_le in Hpd; [done |].
      rewrite length_take. unfold zlen in *. lia. }
  assert (b = w ++ x ++ drop (Z.to_nat (rd_pos s)) b) as Hb by (rewrite app_assoc, <- Hx; by rewrite take_drop).
  pose proof (zlen_nonneg x).
  replace (mem_read b 0 (zlen w)) with (Some w) by (rewrite Hb; symmetry; by apply mem_read_0). cbn [lift outcome_bind].
  destruct (Z.eqb_spec (rd_pos s) (zlen w)) as [E|E].
  - eexists. split; [done |]. split; [split; cbn; try done; lia |]. split; [| done].
    unfold pending. cbn. assert (x = []) as -> by (destruct x; [done | rewrite zlen_cons in Hxl; pose proof (zlen_nonneg x); lia]).
    done.
  - rewrite u32_id by (unfold is_u32; lia). rewrite <- Hxl, Hb, memmove_front. cbn [lift outcome_bind].
    eexists. split; [done |]. split; [split; cbn |].
    + rewrite Hb in Hz. unfold zlen in *. rewrite length_app, length_drop. rewrite !length_app in *. lia.
    + lia.
    + split; [| done]. unfold pending. cbn. unfold zlen. rewrite Nat2Z.id, take_app_length. done.
Qed.

Lemma window_head size s w rest n :
  wf_sock size s -> pending s = w ++ rest -> 0 <= n <= rd_pos s -> n <= zlen w ->
  rd_buffer s = take (Z.to_nat n) w ++ drop (Z.to_nat n) (rd_buffer s).
Proof.
  intros [Hz Hp] Hpd Hn Hw. rewrite <- (take_drop (Z.to_nat n) (rd_buffer s)) at 1. f_equal.
  apply (f_equal (take (Z.to_nat n))) in Hpd. unfold pending in Hpd.
  rewrite !take_app_le in Hpd by (rewrite ?length_take; unfold zlen in *; lia).
  by rewrite take_take, Nat.min_l in Hpd by lia.
Qed.

Lemma read_header_msgsize {H} (d : decryptor H) seq b res d1 p tmp len :
  read_header d seq b = Ret (res, d1, p, tmp) -> msgsize d1 len = msgsize d len.
Proof.
  unfold read_header. destruct (d_decrypt_length _ _ _ _) as [[[[? ?] ?] ?]| |]; try done. by intros [= <- <- <- <-].
Qed.

(** ** The stream of a sender *)

Section Stream.
Context {HE HD : Type} (matched : encryptor HE -> decryptor HD -> Prop) `{PC : !packet_cipher matched}.

(** The packets that an encryptor seals one after the other. *)
Inductive sealed_stream : encryptor HE -> Z -> list bytes -> list bytes -> Prop :=
| ss_nil e seq : sealed_stream e seq [] []
| ss_cons e seq type pl rnd junk e' p pls wires :
    seal e seq type pl rnd junk = Ret (0, e', p) -> sealed_stream e' (u32 (seq + 1)) pls wires ->
    sealed_stream e seq (pl :: pls) (p_buffer p :: wires).

(** The payloads as they are to be processed, with the numbers of their packets. *)
Fixpoint numbered (seq : Z) (pls : list bytes) : list payload :=
  match pls with
  | [] => []
  | pl :: pls => mkPayload (default 0 (head pl)) seq (zlen pl) (zlen pl) pl :: numbered (u32 (seq + 1)) pls
  end.

Definition sendable (pl : bytes) : Prop := 0 < zlen pl < 2 ^ 31.

(** The reader is idle and the rest of the stream is pending. *)
Record reading (size max : Z) (r : receive HD) (e : encryptor HE) (pls wires : list bytes) : Prop := {
  rg_sock : wf_sock size (r_sock r);
  rg_size : 0 < max <= size /\ size < 2 ^ 32;
  rg_matched : matched e (r_decryptor (r_core r));
  rg_seq : is_u32 (r_sequence_number (r_core r));
  rg_stream : sealed_stream e (r_sequence_number (r_core r)) pls wires;
  rg_pending : pending (r_sock r) = concat wires;
  rg_sendable : Forall sendable pls;
  rg_small : Forall (fun w => zlen w < max) wires;
  rg_idle : r_threads (r_core r) = 0 /\ r_enabled (r_core r) = true /\ r_disconnected (r_core r) = false;
  rg_hook : h_post2 (r_hooks (r_core r)) = cb_post_process_ignore }.

Lemma spawn_eq (r : receive HD) : exists w, spawn r = mkReceive (r_sock r) w (r_core r).
Proof. unfold spawn. destruct r as [s w c]. destruct (0 <? _); by eexists. Qed.

Lemma pre_process_eq (r : receive HD) : exists w, pre_process r = mkReceive (r_sock r) w (r_core r).
Proof. unfold pre_process. destruct (h_pre _); [apply spawn_eq | destruct r; by eexists]. Qed.

Lemma post_process_01_eq (r : receive HD) : exists w, post_process_01 r = mkReceive (r_sock r) w (r_core r).
Proof. unfold post_process_01. destruct (h_post1 _); [destruct r; by eexists | apply spawn_eq]. Qed.

(** What the reader's state is after it took a packet out of the buffer. *)
Definition taken (c : core HD) (d : decryptor HD) : core HD :=
  mkCore (u32 (r_sequence_number c + 1)) (r_threads c + 1 - 1) 0 true d (r_kexinit c) (r_newkeys c)
    (r_parallel c) (r_hooks c) (r_out c) (r_disconnected c).

(** The first half of a turn: with enough events the first packet is taken. *)
Lemma read_packet_got size max evs (r : receive HD) (w rest : bytes) d1 pr tmp len :
  let d := r_decryptor (r_core r) in
  wf_sock size (r_sock r) -> 0 < max <= size /\ size < 2 ^ 32 -> pending (r_sock r) = w ++ rest -> supply (r_sock r) evs ->
  r_threads (r_core r) = 0 -> rd_pos (r_sock r) <> 0 ->
  0 < d_cipher_headersize d <= zlen w -> zlen w < max ->
  (forall more, let b := take (Z.to_nat (d_cipher_headersize d)) w ++ more in
     read_header d (r_sequence_number (r_core r)) b = Ret (0, d1, set_buffer pr b, tmp)) ->
  get_uint32 tmp = Some len -> msgsize d len = zlen w ->
  exists s k evs1,
    read_packet max evs r =
      Ret (Got (set_plen (set_buffer pr w) len) tmp (mkReceive s k (taken (r_core r) d1)) evs1) /\
    wf_sock size s /\ pending s = rest /\ supply s evs1 /\ (length evs1 <= length evs)%nat.
Proof.
  intros d Hw Hsz Hpd Hsup Hth Hpos Hhs Hwl Hrh Hlen Hmsg. pose proof (zlen_nonneg rest).
  unfold read_packet. rewrite Hth. destruct (Z.eqb_spec (rd_pos (r_sock r)) 0); [done |]. cbn [Z.ltb orb Z.compare].
  set (r0 := upd r _).
  destruct (wait_until_ready size (d_cipher_headersize d) evs r0) as (s1 & w1 & evs1 & E1 & [Hz1 Hp1] & Hpd1 & Hn1 & _ & Hsup1 & Hlen1);
    change (r_sock r0) with (r_sock r) in *; try done; try lia.
  { rewrite Hpd, zlen_app. lia. }
  change (r_decryptor (r_core r0)) with d. rewrite E1. cbn [outcome_bind]. rewrite Hpd in Hpd1.
  set (ra := upd (mkReceive s1 w1 (r_core r0)) _). change (r_decryptor (r_core ra)) with d. change (r_sock ra) with s1.
  change (r_sequence_number (r_core (mkReceive s1 w1 (r_core r0)))) with (r_sequence_number (r_core r)).
  pose proof (window_head size s1 w rest (d_cipher_headersize d) ltac:(done) Hpd1 ltac:(lia) ltac:(lia)) as Hbuf.
  specialize (Hrh (drop (Z.to_nat (d_cipher_headersize d)) (rd_buffer s1))). cbv zeta in Hrh. rewrite <- Hbuf in Hrh.
  rewrite Hrh. cbn [outcome_bind Z.eqb negb]. rewrite Hlen. cbn [lift outcome_bind].
  rewrite (read_header_msgsize _ _ _ _ _ _ _ len Hrh), Hmsg. destruct (Z.leb_spec max (zlen w)); [lia |].
  set (rb := upd (upd ra _) _).
  destruct (wait_until_ready size (zlen w) evs1 rb) as (s2 & w2 & evs2 & E2 & Hw2 & Hpd2 & Hn2 & _ & Hsup2 & Hlen2);
    change (r_sock rb) with s1 in *; try done; try lia.
  { rewrite Hpd1, zlen_app. lia. }
  rewrite E2. cbn [outcome_bind r_sock r_workers]. rewrite Hpd1 in Hpd2.
  destruct (take_packet_head size s2 w rest) as (s3 & E3 & Hw3 & Hpd3 & Hnet & Hdn); try done; try lia.
  { destruct Hw2. lia. }
  rewrite E3. cbn [outcome_bind]. exists s3, w2, evs2. split; [reflexivity |]. repeat (split; [done |]).
  split; [| lia]. destruct Hsup2 as (? & ? & ?). unfold supply. by rewrite Hnet, Hdn.
Qed.

(** The second half: a packet that opens is processed. *)
Lemma process_packet_done alloc p tmp evs (r : receive HD) d2 q pl :
  open_packet (r_decryptor (r_core r)) p tmp = Ret (true, d2, q) -> decompress_packet true q = Ret (Some pl) ->
  h_post2 (r_hooks (r_core r)) = cb_post_process_ignore -> alloc (p_sequence q) = true ->
  exists k, process_packet alloc p tmp evs r =
    Ret (Done 0 (mkReceive (r_sock r) k (add_out (set_decryptor (r_core r) d2) pl)) evs).
Proof.
  intros Hopen Hdec Hhook Halloc. unfold process_packet. destruct (pre_process_eq r) as [w1 ->]. cbn [r_core].
  rewrite Hopen. cbn [outcome_bind negb]. rewrite Halloc. set (r1 := upd _ _).
  destruct (post_process_01_eq r1) as [w2 ->]. rewrite Hdec. cbn [outcome_bind].
  unfold post_process_02. cbn [r_core upd]. change (r_hooks _) with (r_hooks (r_core r)). rewrite Hhook.
  cbn [outcome_bind]. by eexists.
Qed.

(** One turn of the loop takes the first packet of the stream. *)
Lemma read_one size max alloc evs r e pl pls w wires :
  reading size max r e (pl :: pls) (w :: wires) -> (forall n, alloc n = true) ->
  rd_pos (r_sock r) <> 0 -> supply (r_sock r) evs ->
  exists p tmp r1 r2 e' evs1,
    read_packet max evs r = Ret (Got p tmp r1 evs1) /\
    process_packet alloc p tmp evs1 r1 = Ret (Done 0 r2 evs1) /\
    reading size max r2 e' pls wires /\ supply (r_sock r2) evs1 /\ (length evs1 <= length evs)%nat /\
    r_sequence_number (r_core r2) = u32 (r_sequence_number (r_core r) + 1) /\
    r_out (r_core r2) = r_out (r_core r) ++
      [mkPayload (default 0 (head pl)) (r_sequence_number (r_core r)) (zlen pl) (zlen pl) pl].
Proof.
  intros [Hw Hsz Hm Hseq Hss Hpd Hsend Hsmall (Hth & Hen & Hdis) Hhook] Halloc Hpos Hsup.
  inversion Hss as [|? ? type ? rnd junk e' p0 ? ? Hseal Hss']; subst. clear Hss.
  apply Forall_cons_1 in Hsend as [Hpl Hsend]. apply Forall_cons_1 in Hsmall as [Hwl Hsmall].
  destruct (pc_transfer e (r_decryptor (r_core r)) (r_sequence_number (r_core r)) type pl rnd junk Hm Hseq Hpl)
    as (e2 & p2 & Hseal2 & _ & _ & Hhs & d1 & pr & tmp & len & d2 & q & Hrh & Hlen & Hmsg & Hopen & Hdec & Hm').
  rewrite Hseal in Hseal2. injection Hseal2 as <- <-. pose proof (pc_headersize _ _ Hm) as Hh4.
  destruct (read_packet_got size max evs r (p_buffer p0) (concat wires) d1 pr tmp len) as (s & k & evs1 & E1 & Hw1 & Hpd1 & Hsup1 & Hlen1);
    try done; try lia.
  destruct (process_packet_done alloc (set_plen (set_buffer pr (p_buffer p0)) len) tmp evs1
    (mkReceive s k (taken (r_core r) d1)) d2 q _ Hopen Hdec Hhook (Halloc _)) as [k2 E2].
  eexists _, _, _, _, e', evs1. split; [exact E1 |]. split; [exact E2 |]. split; [| done].
  split; cbn; try done; [apply u32_range | rewrite Hth; done].
Qed.

Lemma stream_nonempty size max r e pls wires :
  reading size max r e pls wires -> pending (r_sock r) <> [] ->
  exists pl pls' w wires', pls = pl :: pls' /\ wires = w :: wires'.
Proof.
  intros [_ _ _ _ Hss -> _ _ _ _] Hne. destruct Hss; [done |]. by eexists _, _, _, _.
Qed.

(** a call of the reader that no other call overlaps with takes the packets of a
    sender until the buffer is empty, in order and with their numbers: an idle
    reader, with the stream [concat wires] of the payloads [pls] on its way,
    whatever the parts in which it arrives.  What several calls do at a time is
    the subject of the module of the readers. *)
Theorem cb_read_stream size max alloc fuel evs r e pls wires :
  reading size max r e pls wires -> (forall n, alloc n = true) -> supply (r_sock r) evs -> (length pls < fuel)%nat ->
  exists r' e' pls' wires' evs',
    cb_read_socket_ssh fuel max alloc evs r = Ret (r', Some evs') /\
    reading size max r' e' pls' wires' /\ rd_pos (r_sock r') = 0 /\ supply (r_sock r') evs' /\
    (length evs' <= length evs)%nat /\ (length pls' <= length pls)%nat /\
    r_out (r_core r') ++ numbered (r_sequence_number (r_core r')) pls' =
      r_out (r_core r) ++ numbered (r_sequence_number (r_core r)) pls.
Proof.
  intros Hr Halloc. revert evs r e pls wires Hr.
  induction fuel as [|fuel IH]; intros evs r e pls wires Hr Hsup Hf; [lia |]. cbn [cb_read_socket_ssh].
  destruct (Z.eqb_spec (rd_pos (r_sock r)) 0) as [E|E].
  { unfold read_packet. rewrite (proj2 (Z.eqb_eq _ _) E), orb_true_r. cbn [outcome_bind].
    exists r, e, pls, wires, evs. done. }
  destruct (stream_nonempty _ _ _ _ _ _ Hr) as (pl & pls' & w & wires' & -> & ->).
  { intros Hnil. pose proof (zlen_pending size (r_sock r) (rg_sock _ _ _ _ _ _ Hr)) as Hz. rewrite Hnil in Hz.
    pose proof (ws_pos _ _ (rg_sock _ _ _ _ _ _ Hr)). pose proof (zlen_nonneg (sk_net (r_sock r))). change (zlen []) with 0 in Hz. lia. }
  destruct (read_one size max alloc evs r e pl pls' w wires' Hr Halloc E Hsup)
    as (p & tmp & r1 & r2 & e' & evs1 & -> & E2 & Hr2 & Hsup2 & Hl & Hs & Ho).
  cbn [outcome_bind]. rewrite E2. cbn [outcome_bind Z.eqb].
  destruct (IH evs1 r2 e' pls' wires' Hr2 Hsup2 ltac:(cbn in Hf; lia))
    as (r' & e'' & pls'' & wires'' & evs' & -> & Hr' & Hp' & Hsup' & Hl' & Hlp' & Hout).
  exists r', e'', pls'', wires'', evs'. split; [done |]. do 3 (split; [done |]). split; [lia |]. split; [cbn; lia |].
  rewrite Hout, Ho, Hs, <- app_assoc. done.
Qed.

End Stream.

(** ** Packets that break the reader *)

Lemma wait_until_now {H} cond evs (r : receive H) : cond r = true -> wait_until cond evs r = Ret (WReady r evs).
Proof. intros E. destruct evs; cbn [wait_until]; by rewrite E. Qed.

Section Malformed.
Context `{G : gcrypt}.

Definition none_decryptor : decryptor generic_handle :=
  mkDecryptor (mkGeneric None None) verify_hmac_none decrypt_length_none decrypt_packet_none verify_hmac_none 8 8 0.

Lemma none_decryptor_init : init_decryptor none_conf = Some none_decryptor.
Proof. done. Qed.

(** The reader before the key exchange, with a first block in its buffer. *)
Record clear_reader (r : receive generic_handle) (len padding : Z) (rest : bytes) : Prop := {
  cr_decryptor : r_decryptor (r_core r) = none_decryptor;
  cr_idle : r_threads (r_core r) = 0;
  cr_buffer : rd_buffer (r_sock r) = be_encode 4 len ++ padding :: rest;
  cr_pos : 8 <= rd_pos (r_sock r) <= zlen (rd_buffer (r_sock r)) /\ zlen (rd_buffer (r_sock r)) < 2 ^ 31;
  cr_len : is_u32 len;
  cr_padding : is_u8 padding }.

(** A packet that is complete is copied out of the buffer. *)
Lemma clear_read_packet max evs r len padding rest :
  clear_reader r len padding rest -> u32 (len + 4) < max -> u32 (len + 4) <= rd_pos (r_sock r) ->
  exists s, read_packet max evs r =
    Ret (Got (mkPacket len 0 0 0 (r_sequence_number (r_core r)) 0 8 (take (Z.to_nat (u32 (len + 4))) (rd_buffer (r_sock r))))
           (take 8 (rd_buffer (r_sock r))) (mkReceive s (r_workers r) (taken (r_core r) none_decryptor)) evs).
Proof.
  intros [Hd Hth Hb Hp Hlen Hpad] Hmax Hsize. set (size := u32 (len + 4)) in *. pose proof (u32_range (len + 4)) as Hr.
  fold size in Hr. unfold is_u32 in Hr.
  unfold read_packet. rewrite Hth. destruct (Z.eqb_spec (rd_pos (r_sock r)) 0); [lia |]. cbn [Z.ltb orb Z.compare].
  set (r0 := upd r _). change (r_decryptor (r_core r0)) with (r_decryptor (r_core r)). rewrite Hd.
  rewrite wait_until_now by (unfold has_bytes; apply Z.leb_le; cbn; lia). cbn [outcome_bind].
  set (ra := upd r0 _). change (r_decryptor (r_core ra)) with (r_decryptor (r_core r)). rewrite Hd.
  change (r_sock ra) with (r_sock r). unfold read_header. cbn [d_decrypt_length d_handle d_cipher_headersize none_decryptor].
  unfold decrypt_length_none. cbn [p_buffer first_packet]. rewrite mem_read_Some by lia. rewrite drop_0.
  cbn [lift outcome_bind Z.eqb negb]. change (Z.to_nat 8) with 8%nat.
  assert (get_uint32 (take 8 (rd_buffer (r_sock r))) = Some len) as ->.
  { rewrite Hb, take_app_ge by (rewrite length_be_encode; lia). by apply get_uint32_encode. }
  cbn [lift outcome_bind]. unfold msgsize. cbn [d_hmac_maclen none_decryptor set_dhandle]. fold size.
  rewrite Z.add_0_r, (u32_id size) by (unfold is_u32; lia). destruct (Z.leb_spec max size); [lia |].
  set (rb := upd (upd ra _) _). rewrite wait_until_now by (unfold has_bytes; apply Z.leb_le; cbn; lia).
  cbn [outcome_bind]. change (r_sock rb) with (r_sock r). unfold take_packet. rewrite mem_read_Some by lia. rewrite drop_0.
  cbn [lift outcome_bind]. destruct (Z.eqb_spec (rd_pos (r_sock r)) size).
  - cbn [outcome_bind]. eexists. reflexivity.
  - rewrite u32_id by (unfold is_u32; lia). unfold memmove. rewrite mem_read_Some by lia. opt.
    rewrite mem_write_Some.
    + cbn [lift outcome_bind]. eexists. reflexivity.
    + lia.
    + unfold zlen in *. rewrite length_take, length_drop. lia.
Qed.

(** C35: two kinds of packets make the reader of a connection without cipher,
    which every connection is until the key exchange is done, leave the memory
    of the packet: one whose announced size is smaller than the block that is
    copied back over it (also when the size wraps past 2^32), and one whose
    padding leaves no payload, which has a negative length or no type byte. *)
Theorem malformed_packet_escapes r len padding rest max alloc evs fuel :
  clear_reader r len padding rest -> u32 (len + 4) < max -> u32 (len + 4) <= rd_pos (r_sock r) ->
  alloc (r_sequence_number (r_core r)) = true ->
  u32 (len + 4) < 8 \/ (len + 4 < 2 ^ 32 /\ len <= 1 + padding) ->
  cb_read_socket_ssh (S fuel) max alloc evs r = Ub.
Proof.
  intros Hc Hmax Hsize Ha Hbad. cbn [cb_read_socket_ssh].
  destruct (clear_read_packet max evs r len padding rest Hc Hmax Hsize) as [s ->]. destruct Hc as [Hd Hth Hb Hp Hlen Hpad].
  cbn [outcome_bind]. unfold process_packet. set (r1 := mkReceive s _ _). destruct (pre_process_eq r1) as [w ->].
  cbn [r_core r1]. change (r_decryptor (taken (r_core r) none_decryptor)) with none_decryptor.
  set (size := u32 (len + 4)) in *. pose proof (u32_range (len + 4)) as Hr. fold size in Hr. unfold is_u32 in Hr.
  unfold open_packet. cbn [d_verify_hmac_pre d_hmac_maclen d_handle d_cipher_headersize d_decrypt_packet
    d_verify_hmac_post none_decryptor]. unfold verify_hmac_none, decrypt_packet_none. cbn [outcome_bind Z.eqb negb p_buffer].
  change (Z.to_nat 8) with 8%nat.
  rewrite take_take, Nat.min_id. set (b := rd_buffer (r_sock r)) in *.
  assert (zlen (take (Z.to_nat size) b) = size) as Hz by (apply zlen_take; lia).
  assert (zlen (take 8 b) = 8) as H8 by (apply (zlen_take 8 b); lia).
  destruct (Z.ltb_spec size 8) as [Hs|Hs].
  { unfold mem_write. bdestr; try lia. done. }
  destruct Hbad as [?|[Hw Hpb]]; [lia |]. assert (size = len + 4) as Esz by (apply u32_id; unfold is_u32 in *; lia).
  rewrite mem_write0_Some by lia. cbn [lift outcome_bind Z.eqb negb p_buffer set_buffer].
  replace (take 8 b ++ drop (length (take 8 b)) (take (Z.to_nat size) b)) with (take (Z.to_nat size) b).
  2: { rewrite length_take_le by (unfold zlen in *; lia). rewrite <- (take_drop 8 (take (Z.to_nat size) b)) at 1.
       rewrite take_take, Nat.min_l by lia. done. }
  set (data := take (Z.to_nat size) b) in *.
  assert (exists more, data = be_encode 4 len ++ padding :: more) as [more Hdata].
  { unfold data. rewrite Hb, take_app_ge by (rewrite length_be_encode; lia). rewrite length_be_encode.
    destruct (Z.to_nat size - 4)%nat as [|k] eqn:Ek; [lia |]. by eexists. }
  rewrite Hdata at 1. rewrite mem_read_padding by done. cbn [lift outcome_bind lookup list_lookup default from_option id].
  cbn [p_sequence set_padding set_buffer].
  rewrite Ha. unfold decompress_packet. cbn [p_len p_padding p_buffer p_sequence set_padding set_buffer].
  destruct (Z.eqb_spec (len - 1 - padding) 0) as [->|Hne].
  - rewrite mem_read_Some by (change (u32 0) with 0; lia). reflexivity.
  - assert (u32 (len - 1 - padding) = len - 1 - padding + 2 ^ 32) as ->.
    { unfold u32. rewrite <- (Z.mod_add _ 1) by lia. rewrite Z.mod_small; [lia |]. unfold is_u8, is_u32 in *. lia. }
    rewrite mem_read_None by (unfold is_u8, is_u32 in *; lia). done.
Qed.

End Malformed.

(** ** Errors *)

Section Errors.
Context {H : Type}.
Implicit Types (r : receive H).

(** An idle reader with its header in the buffer. *)
Definition header_ready r : Prop :=
  r_threads (r_core r) = 0 /\ rd_pos (r_sock r) <> 0 /\
  d_cipher_headersize (r_decryptor (r_core r)) <= rd_pos (r_sock r).

(** The reader's state once it decrypted the header. *)
Definition header_read r (d : decryptor H) : receive H :=
  mkReceive (r_sock r) (r_workers r)
    (set_decryptor (set_sequence (set_busy (r_core r) (r_threads (r_core r) + 1) false)
       (u32 (r_sequence_number (r_core r) + 1))) d).

Lemma read_packet_header max evs r res d p tmp :
  header_ready r ->
  read_header (r_decryptor (r_core r)) (r_sequence_number (r_core r)) (rd_buffer (r_sock r)) = Ret (res, d, p, tmp) ->
  (res <> 0 -> read_packet max evs r = Ret (Again (header_read r d) evs)) /\
  (forall len, res = 0 -> get_uint32 tmp = Some len -> max <= msgsize d len ->
     read_packet max evs r = Ret (Broken EIO (header_read r d) evs)).
Proof.
  intros (Hth & Hpos & Hhs) Hrh. unfold read_packet. rewrite Hth.
  destruct (Z.eqb_spec (rd_pos (r_sock r)) 0); [done |]. cbn [Z.ltb orb Z.compare]. set (r0 := upd r _).
  rewrite wait_until_now by (unfold has_bytes; apply Z.leb_le; exact Hhs). cbn [outcome_bind].
  set (ra := upd r0 _). change (r_decryptor (r_core ra)) with (r_decryptor (r_core r)). change (r_sock ra) with (r_sock r).
  change (r_sequence_number (r_core r0)) with (r_sequence_number (r_core r)). rewrite Hrh. cbn [outcome_bind]. split.
  - intros Hres. destruct (Z.eqb_spec res 0); [done |]. reflexivity.
  - intros len -> Hlen Hmax. cbn [Z.eqb negb]. rewrite Hlen. cbn [lift outcome_bind].
    destruct (Z.leb_spec max (msgsize d len)); [reflexivity | lia].
Qed.

Lemma wait_until_core cond evs r w :
  wait_until cond evs r = Ret w ->
  match w with
  | WReady r' _ | WFail _ r' _ | WBlocked r' =>
      r_out (r_core r') = r_out (r_core r) /\ r_disconnected (r_core r') = r_disconnected (r_core r)
  end.
Proof.
  revert r. induction evs as [|ev evs IH]; intros r; cbn [wait_until]; (destruct (cond r); [by intros [= <-] |]); [by intros [= <-] |].
  assert (forall r1, apply_event ev r = Ret r1 -> r_out (r_core r1) = r_out (r_core r) /\
    r_disconnected (r_core r1) = r_disconnected (r_core r)) as Hev.
  { destruct ev; cbn [apply_event]; try (by intros ? [= <-]).
    destruct (recv_event k (r_sock r)); try done. by intros ? [= <-]. }
  destruct ev; try (by intros [= <-]); (destruct (apply_event _ r) as [r1| |]; try done; cbn [outcome_bind];
    destruct (Hev r1 eq_refl) as [<- <-]; destruct (sk_down _); [by intros [= <-] | apply IH]).
Qed.

Lemma read_packet_core max evs r q tmp r1 evs1 :
  read_packet max evs r = Ret (Got q tmp r1 evs1) ->
  r_out (r_core r1) = r_out (r_core r) /\ r_disconnected (r_core r1) = r_disconnected (r_core r).
Proof.
  unfold read_packet. destruct (_ || _); [done |]. set (r0 := upd r _).
  destruct (wait_until _ evs r0) as [w| |] eqn:E1; try done. cbn [outcome_bind]. apply wait_until_core in E1.
  destruct w as [r2 evs2| |]; try done. destruct (read_header _ _ _) as [[[[res d] p] t]| |]; try done. cbn [outcome_bind].
  destruct (negb (res =? 0)); [done |]. destruct (get_uint32 t) as [len|]; [| done]. cbn [lift outcome_bind].
  destruct (max <=? msgsize d len); [done |]. set (r3 := upd (upd (upd r2 _) _) _).
  destruct (wait_until _ evs2 r3) as [w| |] eqn:E2; try done. cbn [outcome_bind]. apply wait_until_core in E2.
  destruct w as [r4 evs4| |]; try done. destruct (take_packet _ _) as [[data s]| |]; try done.
  cbn [outcome_bind]. intros [= <- <- <- <-]. cbn in *. destruct E1, E2. split; congruence.
Qed.

(** the errors of the reader.  A failure to decrypt the length leaves the
    reader marked as busy and the socket's read callback switched off, with the
    connection up: nothing of this connection is read any more.  A packet of
    the maximal size or more ends the connection, and nothing of it is
    processed.  A packet that fails its authentication or its decryption is
    dropped, and the connection stays up. *)
Theorem reader_errors r max alloc evs fuel seq d p tmp :
  header_ready r -> r_disconnected (r_core r) = false -> seq = r_sequence_number (r_core r) ->
  (forall res, read_header (r_decryptor (r_core r)) seq (rd_buffer (r_sock r)) = Ret (res, d, p, tmp) -> res <> 0 ->
     exists r', cb_read_socket_ssh (S (S fuel)) max alloc evs r = Ret (r', Some evs) /\
       r_threads (r_core r') = 1 /\ r_enabled (r_core r') = false /\ r_disconnected (r_core r') = false /\
       r_out (r_core r') = r_out (r_core r)) /\
  (forall len, read_header (r_decryptor (r_core r)) seq (rd_buffer (r_sock r)) = Ret (0, d, p, tmp) ->
     get_uint32 tmp = Some len -> max <= msgsize d len ->
     exists r', cb_read_socket_ssh (S fuel) max alloc evs r = Ret (r', Some evs) /\
       r_disconnected (r_core r') = true /\ r_out (r_core r') = r_out (r_core r)) /\
  (forall q tmp' r1 evs1 d' q', read_packet max evs r = Ret (Got q tmp' r1 evs1) ->
     open_packet (r_decryptor (r_core r1)) q tmp' = Ret (false, d', q') ->
     exists r', cb_read_socket_ssh (S fuel) max alloc evs r = Ret (r', Some evs1) /\
       r_disconnected (r_core r') = false /\ r_out (r_core r') = r_out (r_core r)).
Proof.
  intros Hready Hup ->. split; [| split].
  - intros res Hrh Hres. exists (header_read r d). cbn [cb_read_socket_ssh].
    rewrite (proj1 (read_packet_header max evs r res d p tmp Hready Hrh) Hres). cbn [outcome_bind].
    destruct Hready as [Hth _]. assert (r_threads (r_core (header_read r d)) = 1) as Hb by (cbn; by rewrite Hth).
    unfold read_packet. rewrite Hb. cbn [Z.ltb orb Z.compare outcome_bind]. split; [done |]. by split.
  - intros len Hrh Hlen Hmax. exists (upd (header_read r d) disconnect). cbn [cb_read_socket_ssh].
    by rewrite (proj2 (read_packet_header max evs r 0 d p tmp Hready Hrh) len eq_refl Hlen Hmax).
  - intros q tmp' r1 evs1 d' q' Hrp Hop. cbn [cb_read_socket_ssh]. rewrite Hrp. cbn [outcome_bind].
    unfold process_packet. destruct (pre_process_eq r1) as [w ->]. cbn [r_core]. rewrite Hop.
    cbn [outcome_bind negb]. eexists. split; [reflexivity |].
    apply read_packet_core in Hrp as [Ho Hd]. cbn. by rewrite Ho, Hd.
Qed.

End Errors.

(** ** A full buffer *)

(** when the buffer is full the receive call has length zero, and its
    result zero is taken for the end of the connection: the socket goes down
    although the peer sent data that is not received yet. *)
Theorem full_buffer_closes k s :
  rd_pos s = zlen (rd_buffer s) ->
  exists s', recv_event k s = Ret s' /\ sk_down s' = true /\ pending s' = pending s.
Proof.
  intros E. unfold recv_event, recv_call. rewrite E, Z.sub_diag. cbn [Z.eqb]. eexists. split; [done |]. split; [done |].
  unfold pending. cbn. by rewrite E.
Qed.

(** ** Two threads on the buffer *)

(** the place of a receive call is read without the lock under which the
    reader moves the rest of the buffer to its start.  When a packet is taken
    between the call and the copy of its result, the received bytes are at
    the old place, and what is pending is no longer the rest of the stream:
    the reader will see old bytes in place of the new ones. *)
Theorem receive_race_corrupts :
  exists size s w rest k s1 s2,
    wf_sock size s /\ pending s = w ++ rest /\
    take_packet (zlen w) s = Ret (w, s1) /\ pending s1 = rest /\
    recv_call (rd_pos s) k s1 = Ret s2 /\ pending s2 <> rest /\
    (exists s3 s4, recv_event k s = Ret s3 /\ take_packet (zlen w) s3 = Ret (w, s4) /\ pending s4 = rest).
Proof.
  exists 8, (mkSock [1; 2; 3; 4; 5; 0; 0; 0] 5 [6; 7] false), [1; 2; 3; 4], [5; 6; 7], 2.
  eexists _, _. split; [by split |]. do 4 (split; [reflexivity |]). split; [by vm_compute |].
  eexists _, _. split; [reflexivity |]. split; reflexivity.
Qed.

(** ** Concrete runs *)

Module Runs.
Import Model.

Definition conf : crypto_conf := mkConf chacha_name [] (repeat 3 64) [] [].

Definition run_handle : chacha_handle := mkChacha (repeat 3 32, [], 0%nat) (repeat 3 32, [], 0%nat) (501, [], []).

Definition hooks0 : hooks := mkHooks cb_post_read_header_ignore cb_pre_process_serial cb_post_process_ignore.

Definition start {H} (size : nat) (seq : Z) (net : bytes) (d : decryptor H) : receive H :=
  mkReceive (mkSock (repeat 0 size) 0 net false) 0 (mkCore seq 0 0 true d 0 0 true hooks0 [] false).

(** The packet that an encryptor makes of a payload, and the encryptor after it. *)
Definition sealed_by (e : encryptor chacha_handle) (seq : Z) (pl : bytes) : encryptor chacha_handle * packet :=
  match seal e seq 0 pl [] [] with Ret (_, e, p) => (e, p) | _ => (e, mkPacket 0 0 0 0 0 0 0 []) end.

Lemma sealed_by_eq e seq pl :
  match seal e seq 0 pl [] [] with Ret (r, _, _) => r =? 0 | _ => false end = true ->
  seal e seq 0 pl [] [] = Ret (0, (sealed_by e seq pl).1, (sealed_by e seq pl).2).
Proof. unfold sealed_by. destruct (seal e seq 0 pl [] []) as [[[r e'] p]| |]; try done. by intros ->%Z.eqb_eq. Qed.

Definition first : encryptor chacha_handle * packet := sealed_by (chacha_encryptor run_handle) (2 ^ 32 - 1) [94; 1; 2].
Definition second : encryptor chacha_handle * packet := sealed_by first.1 0 [21].
Definition wires : list bytes := [p_buffer first.2; p_buffer second.2].

End Runs.

Lemma run_reading :
  reading (chacha_matched (G := Model.library) (L := Model.laws)) 300 300
    (Runs.start 300 (2 ^ 32 - 1) (concat Runs.wires) (chacha_decryptor Runs.run_handle))
    (chacha_encryptor Runs.run_handle) [[94; 1; 2]; [21]] Runs.wires.
Proof.
  split.
  - split; [reflexivity | cbn; lia].
  - lia.
  - split; [reflexivity |]. split; [reflexivity |]. by split.
  - cbn. unfold is_u32. lia.
  - apply (ss_cons _ _ 0 _ [] [] Runs.first.1); [apply Runs.sealed_by_eq; vm_compute; reflexivity |].
    apply (ss_cons _ 0 0 _ [] [] Runs.second.1); [apply Runs.sealed_by_eq; vm_compute; reflexivity |]. constructor.
  - reflexivity.
  - repeat constructor.
  - repeat constructor; vm_compute; reflexivity.
  - split; [| split]; reflexivity.
  - reflexivity.
Qed.

(** Two packets of chacha20-poly1305 that arrive in parts of 50 bytes; the
    second is the first of the new numbers after 2^32. *)
Lemma cb_read_stream_witness :
  exists r' evs', cb_read_socket_ssh 3 300 (fun _ => true) (repeat (Readable 50) 168)
      (Runs.start 300 (2 ^ 32 - 1) (concat Runs.wires) (chacha_decryptor Runs.run_handle)) = Ret (r', Some evs').
Proof.
  destruct (cb_read_stream (chacha_matched (G := Model.library) (L := Model.laws)) 300 300 (fun _ => true) 3
    (repeat (Readable 50) 168)
    (Runs.start 300 (2 ^ 32 - 1) (concat Runs.wires) (chacha_decryptor Runs.run_handle))
    (chacha_encryptor Runs.run_handle) [[94; 1; 2]; [21]] Runs.wires run_reading) as (r' & _ & _ & _ & evs' & E & _).
  - reflexivity.
  - split; [repeat constructor |]. split; [vm_compute; discriminate | reflexivity].
  - cbn. lia.
  - exists r', evs'. exact E.
Defined.

Lemma malformed_packet_escapes_witness :
  cb_read_socket_ssh 1 32768 (fun _ => true) []
    (mkReceive (mkSock (repeat 0 64) 8 [] false) 0
       (mkCore 0 0 0 true (none_decryptor (G := Model.library)) 0 0 true Runs.hooks0 [] false)) = Ub.
Proof.
  apply (malformed_packet_escapes (G := Model.library) _ 0 0 (repeat 0 59)).
  - split; try reflexivity; vm_compute; intuition discriminate.
  - reflexivity.
  - vm_compute. discriminate.
  - reflexivity.
  - left. reflexivity.
Defined.

(** A packet of sixteen million bytes announced to a reader without cipher. *)
Lemma reader_errors_witness :
  let d := none_decryptor (G := Model.library) in
  let b := 0 :: repeat 255 63 in
  exists r', cb_read_socket_ssh 1 32768 (fun _ => true) []
    (mkReceive (mkSock b 8 [] false) 0 (mkCore 0 0 0 true d 0 0 true Runs.hooks0 [] false)) = Ret (r', Some []) /\
    r_disconnected (r_core r') = true /\ r_out (r_core r') = [].
Proof.
  intros d b. set (r := mkReceive _ _ _).
  destruct (reader_errors r 32768 (fun _ => true) [] 0 0 d (mkPacket 0 0 0 0 0 0 8 b) (0 :: repeat 255 7))
    as (_ & Hbig & _).
  - split; [reflexivity |]. split; [discriminate |]. vm_compute. discriminate.
  - reflexivity.
  - reflexivity.
  - apply (Hbig 16777215); [reflexivity | reflexivity |]. vm_compute. discriminate.
Defined.

Lemma full_buffer_closes_witness :
  exists s', recv_event 10 (mkSock [1; 2; 3] 3 [4; 5] false) = Ret s' /\ sk_down s' = true /\ pending s' = [1; 2; 3; 4; 5].
Proof. apply (full_buffer_closes 10 (mkSock [1; 2; 3] 3 [4; 5] false)). reflexivity. Defined.

End SshReceive.
