(* ===== verification/SshReaders.v ===== *)
(** Several calls of the reader at a time: [cb_read_socket_ssh] of
    [ssh/receive/read-buffer.c] run by the threads that receive data and by the
    workers that the hooks of a phase start.

    Every call goes through its stages; what it does between two of its
    synchronisations is one step.  One call at a time is past the test of
    [r->threads], from there to [r->threads--] it reads the header and takes
    the packet out of the buffer; the packet is opened and its payload handed to
    [process_cb_ssh_payload] after that, while the next call reads.

    Modelled outside a key exchange ([post_process_02] does nothing).  The pool of
    decryptors is [get_cryptoactor], which is not among the sources: it gives an
    idle decryptor or makes one when there may be more; making one does not fail.
    A receive call is one step: [receive_race_corrupts] shows what happens when
    a packet is taken during one. *)
From stdpp Require Import base list option strings relations.
From Stdlib Require Import ZArith Lia.
From S2P Require Import Prelude SshUint SshCipher SshPacket SshGeneric SshReceive.
Import SshUint SshCipher SshPacket SshGeneric SshReceive.
Open Scope Z_scope.

Module SshReaders.

Section Steps.
Context {H : Type}.

(** Where a call is: before [get_decryptor], with a decryptor, counted in
    [r->threads] and waiting for the header, waiting for the rest of the packet,
    packet copied, reading switched on again, no longer counted, packet opened
    and the decryptor given back.  [waited]: it has waited for data. *)
Inductive stage : Type :=
| Entered
| Equipped (d : decryptor H)
| Reading (d : decryptor H) (waited : bool)
| Receiving (d : decryptor H) (p : packet) (tmpheader : bytes) (len size : Z) (waited : bool)
| Taken (d : decryptor H) (p : packet) (tmpheader : bytes)
| Switched (d : decryptor H) (p : packet) (tmpheader : bytes)
| Holding (d : decryptor H) (p : packet) (tmpheader : bytes)
| Opened (p : packet).

(** [q_jobs] are calls of [sock->ctx.read] still to be made: by a thread that
    received data and by queued workers. *)
Record readers : Type := mkReaders {
  q_sock : sock; q_sequence_number : Z; q_threads : Z; q_enabled : bool;
  q_idle : list (decryptor H); q_count : Z; q_jobs : nat; q_stages : list stage;
  q_out : list payload; q_disconnected : bool }.

Inductive label : Type :=
| Arrive (k : Z) | Lose_socket | Call
| Get (i : nat) (idle : option nat) | Test (i : nat) | Await (i : nat) | Expire (i : nat) (timedout : bool)
| Header (i : nat) | Body (i : nat) | Switch (i : nat) | Release (i : nat) | Open (i : nat) | Deliver (i : nat) (alloc : bool).

(** The call [i] goes on, or is over. *)
Definition put (i : nat) (new l : list stage) : list stage := take i l ++ new ++ drop (S i) l.

Definition set_stages (s : readers) (i : nat) (new : list stage) : readers :=
  mkReaders (q_sock s) (q_sequence_number s) (q_threads s) (q_enabled s) (q_idle s) (q_count s) (q_jobs s)
    (put i new (q_stages s)) (q_out s) (q_disconnected s).
Definition set_qsock (s : readers) (k : sock) : readers :=
  mkReaders k (q_sequence_number s) (q_threads s) (q_enabled s) (q_idle s) (q_count s) (q_jobs s)
    (q_stages s) (q_out s) (q_disconnected s).
Definition set_jobs (s : readers) (n : nat) : readers :=
  mkReaders (q_sock s) (q_sequence_number s) (q_threads s) (q_enabled s) (q_idle s) (q_count s) n
    (q_stages s) (q_out s) (q_disconnected s).
Definition set_pool (s : readers) (l : list (decryptor H)) (n : Z) : readers :=
  mkReaders (q_sock s) (q_sequence_number s) (q_threads s) (q_enabled s) l n (q_jobs s)
    (q_stages s) (q_out s) (q_disconnected s).
Definition set_threads (s : readers) (n : Z) (on : bool) : readers :=
  mkReaders (q_sock s) (q_sequence_number s) n on (q_idle s) (q_count s) (q_jobs s)
    (q_stages s) (q_out s) (q_disconnected s).
Definition set_number (s : readers) (n : Z) : readers :=
  mkReaders (q_sock s) n (q_threads s) (q_enabled s) (q_idle s) (q_count s) (q_jobs s)
    (q_stages s) (q_out s) (q_disconnected s).
Definition hand_over (s : readers) (pl : payload) : readers :=
  mkReaders (q_sock s) (q_sequence_number s) (q_threads s) (q_enabled s) (q_idle s) (q_count s) (q_jobs s)
    (q_stages s) (q_out s ++ [pl]) (q_disconnected s).
Definition lose (s : readers) : readers :=
  mkReaders (q_sock s) (q_sequence_number s) (q_threads s) (q_enabled s) (q_idle s) (q_count s) (q_jobs s)
    (q_stages s) (q_out s) true.

(** [common.queue]: the decryptor is idle again. *)
Definition queue_decryptor (s : readers) (d : decryptor H) : readers := set_pool s (q_idle s ++ [d]) (q_count s).

(** The hooks that look for the next packet start a worker when there is more in the buffer. *)
Definition look_next (on : bool) (s : readers) : readers :=
  if on && (0 <? rd_pos (q_sock s)) then set_jobs s (S (q_jobs s)) else s.

Context (max_packet_size max_count : Z) (fresh : decryptor H) (hk : hooks).

Definition parallel_hook : bool := match h_pre hk with cb_post_read_header_parallel => true | _ => false end.
Definition serial_hook : bool := match h_post1 hk with cb_pre_process_serial => true | _ => false end.

(** [get_decryptor] *)
Definition get_decryptor (idle : option nat) (s : readers) : option (decryptor H * readers) :=
  match idle with
  | Some j => let? d := q_idle s !! j in Some (d, set_pool s (take j (q_idle s) ++ drop (S j) (q_idle s)) (q_count s))
  | None =>
      if (max_count =? 0) || (q_count s <? max_count) then Some (fresh, set_pool s (q_idle s) (q_count s + 1)) else None
  end.

(** [decrypt_length] and the test of the size. *)
Definition read_length (i : nat) (d : decryptor H) (s : readers) : outcome readers :=
  let sequence := q_sequence_number s in
  let s := set_number s (u32 (sequence + 1)) in
  let! (res, d, p, tmpheader) := read_header d sequence (rd_buffer (q_sock s)) in
  if negb (res =? 0) then Ret (queue_decryptor (set_stages s i [Entered]) d) else
  let! len := lift (get_uint32 tmpheader) in
  let size := msgsize d len in
  if max_packet_size <=? size then Ret (lose (queue_decryptor (set_stages s i []) d)) else
  Ret (set_stages s i [Receiving d p tmpheader len size false]).

(** A step of the call [i], which is at the stage [st]. *)
Definition go (l : label) (i : nat) (st : stage) (s : readers) : outcome (option readers) :=
  match l, st with
  | Get _ idle, Entered =>
      Ret (match get_decryptor idle s with Some (d, s) => Some (set_stages s i [Equipped d]) | None => None end)
  | Test _, Equipped d =>
      Ret (Some (if (0 <? q_threads s) || (rd_pos (q_sock s) =? 0) then queue_decryptor (set_stages s i []) d
                 else set_threads (set_stages s i [Reading d false]) (q_threads s + 1) false))
  | Await _, Reading d _ =>
      Ret (if rd_pos (q_sock s) <? d_cipher_headersize d then Some (set_stages s i [Reading d true]) else None)
  | Await _, Receiving d p tmp len size _ =>
      Ret (if rd_pos (q_sock s) <? size then Some (set_stages s i [Receiving d p tmp len size true]) else None)
  | Expire _ timedout, Reading d true | Expire _ timedout, Receiving d _ _ _ _ true =>
      Ret (if timedout || sk_down (q_sock s) then Some (lose (queue_decryptor (set_stages s i []) d)) else None)
  | Header _, Reading d _ =>
      if rd_pos (q_sock s) <? d_cipher_headersize d then Ret None else
      let! s := read_length i d s in Ret (Some s)
  | Body _, Receiving d p tmp len size _ =>
      if rd_pos (q_sock s) <? size then Ret None else
      let! (data, k) := take_packet size (q_sock s) in
      Ret (Some (set_stages (set_qsock s k) i [Taken d (set_plen (set_buffer p data) len) tmp]))
  | Switch _, Taken d p tmp => Ret (Some (set_threads (set_stages s i [Switched d p tmp]) (q_threads s) true))
  | Release _, Switched d p tmp =>
      Ret (Some (look_next parallel_hook (set_threads (set_stages s i [Holding d p tmp]) (q_threads s - 1) (q_enabled s))))
  | Open _, Holding d p tmp =>
      let! (ok, d, p) := open_packet d p tmp in
      Ret (Some (if ok : bool then look_next serial_hook (queue_decryptor (set_stages s i [Opened p]) d)
                 else queue_decryptor (set_stages s i []) d))
  | Deliver _ alloc, Opened p =>
      let! o := decompress_packet alloc p in
      Ret (Some (match o with
                 | Some pl => hand_over (set_stages s i [Entered]) pl
                 | None => lose (set_stages s i [])
                 end))
  | _, _ => Ret None
  end.

Definition thread_of (l : label) : option nat :=
  match l with
  | Arrive _ | Lose_socket | Call => None
  | Get i _ | Test i | Await i | Expire i _ | Header i | Body i | Switch i | Release i | Open i | Deliver i _ => Some i
  end.

(** [cb_read_socket_ssh] and the events around it, one step. *)
Definition exec (l : label) (s : readers) : outcome (option readers) :=
  match l with
  | Arrive k =>
      if sk_down (q_sock s) then Ret None else
      let! sk := recv_event k (q_sock s) in
      Ret (Some (set_jobs (set_qsock s sk) (if rd_pos (q_sock s) <? rd_pos sk then S (q_jobs s) else q_jobs s)))
  | Lose_socket =>
      let k := q_sock s in Ret (Some (set_qsock s (mkSock (rd_buffer k) (rd_pos k) (sk_net k) true)))
  | Call =>
      Ret (match q_jobs s with
           | O => None
           | S n => Some (if q_enabled s then set_stages (set_jobs s n) (length (q_stages s)) [Entered] else set_jobs s n)
           end)
  | _ =>
      match thread_of l with
      | Some i => match q_stages s !! i with Some st => go l i st s | None => Ret None end
      | None => Ret None
      end
  end.

Definition step (s s' : readers) : Prop := exists l, exec l s = Ret (Some s').

Fixpoint execs (ls : list label) (s : readers) : outcome readers :=
  match ls with
  | [] => Ret s
  | l :: ls => let! o := exec l s in match o with Some s => execs ls s | None => NoFuel end
  end.

Lemma readers_reachable ls s s' : execs ls s = Ret s' -> rtc step s s'.
Proof.
  revert s. induction ls as [|l ls IH]; intros s; cbn [execs]; [by intros [= <-] |].
  destruct (exec l s) as [[s1|]| |] eqn:E; try done. cbn [outcome_bind]. intros Hs. eapply rtc_l; [by exists l | by apply IH].
Qed.

End Steps.

(** ** The invariant *)

Section Stream.
Context {HE HD : Type} (matched : encryptor HE -> decryptor HD -> Prop) `{PC : !packet_cipher matched} `{PL : !parallel_cipher matched}.
Context (size max max_count : Z) (fresh : decryptor HD) (hk : hooks).
Notation stage := (stage (H := HD)).
Notation readers := (readers (H := HD)).
Implicit Types (s : readers) (e : encryptor HE).

Definition busy (st : stage) : bool :=
  match st with Reading _ _ | Receiving _ _ _ _ _ _ | Taken _ _ _ | Switched _ _ _ => true | _ => false end.

(** The payload that a call carries. *)
Definition unpacked (p : packet) : list payload :=
  match decompress_packet true p with Ret (Some pl) => [pl] | _ => [] end.
Definition content (d : decryptor HD) (p : packet) (tmp : bytes) : list payload :=
  match open_packet d p tmp with Ret (true, _, p) => unpacked p | _ => [] end.
Definition carried (st : stage) : list payload :=
  match st with
  | Taken d p tmp | Switched d p tmp | Holding d p tmp => content d p tmp
  | Opened p => unpacked p
  | _ => []
  end.

(** The packet opens to [pl], and the decryptor is fit for the packets of [e] after that. *)
Definition opens e (d : decryptor HD) (p : packet) (tmp : bytes) (pl : payload) : Prop :=
  exists d2 q, open_packet d p tmp = Ret (true, d2, q) /\ decompress_packet true q = Ret (Some pl) /\ matched e d2.

Definition stage_ok e (st : stage) : Prop :=
  match st with
  | Entered => True
  | Equipped d | Reading d _ | Receiving d _ _ _ _ _ => matched e d
  | Taken d p tmp | Switched d p tmp | Holding d p tmp => exists pl, opens e d p tmp pl
  | Opened q => exists pl, decompress_packet true q = Ret (Some pl)
  end.

Definition entered (st : stage) : bool := match st with Entered => true | _ => false end.
Definition holder (st : stage) : Z := match st with Entered | Opened _ => 0 | _ => 1 end.
Definition holders (l : list stage) : Z := foldr (fun st n => holder st + n) 0 l.

(** What the one call that reads has of the stream; [cur] is the payload of the
    packet whose header it has read. *)
Definition position e (wires : list bytes) (cur : list payload) (bs : list stage) (k : sock) (n : Z) (on dis : bool) : Prop :=
  match bs with
  | [] => cur = [] /\ ((n = 0 /\ on = true /\ pending k = concat wires) \/ (n = 1 /\ dis = true))
  | [Reading _ _] => cur = [] /\ n = 1 /\ pending k = concat wires /\ wires <> []
  | [Receiving d p tmp len m _] =>
      n = 1 /\ exists w pl, pending k = w ++ concat wires /\ zlen w = m /\ 0 < m < max /\ cur = [pl] /\
        opens e d (set_plen (set_buffer p w) len) tmp pl
  | [Taken _ _ _] => cur = [] /\ n = 1 /\ pending k = concat wires
  | [Switched _ _ _] => cur = [] /\ n = 1 /\ on = true /\ pending k = concat wires
  | _ => False
  end.

Definition busy_ones (l : list stage) : list stage := filter (fun st => busy st = true) l.

#[local] Arguments busy_ones : simpl never.

(** [consumed]: the payloads of the packets whose headers have been read; [lost]:
    those of a connection that was given up. *)
Record inv (seq0 : Z) (pls0 : list bytes) s e (pls wires : list bytes) (cur lost consumed : list payload) : Prop := {
  v_sock : wf_sock size (q_sock s);
  v_seq : is_u32 (q_sequence_number s);
  v_stream : sealed_stream e (q_sequence_number s) pls wires;
  v_sendable : Forall sendable pls;
  v_small : Forall (fun w => zlen w < max) wires;
  v_pool : Forall (matched e) (fresh :: q_idle s);
  v_stages : Forall (stage_ok e) (q_stages s);
  v_position : position e wires cur (busy_ones (q_stages s)) (q_sock s) (q_threads s) (q_enabled s) (q_disconnected s);
  v_consumed : numbered seq0 pls0 = consumed ++ numbered (q_sequence_number s) pls;
  v_perm : q_out s ++ flat_map carried (q_stages s) ++ cur ++ lost ≡ₚ consumed;
  v_lost : lost = [] \/ q_disconnected s = true;
  v_wake : 0 < rd_pos (q_sock s) -> (0 < q_jobs s)%nat \/ q_stages s <> [] \/ q_disconnected s = true;
  v_count : q_count s = zlen (q_idle s) + holders (q_stages s) }.

Definition some_inv (seq0 : Z) (pls0 : list bytes) s : Prop :=
  exists e pls wires cur lost consumed, inv seq0 pls0 s e pls wires cur lost consumed.

Lemma put_split (i : nat) (st : stage) (l : list stage) :
  l !! i = Some st -> exists l1 l2, l = l1 ++ st :: l2 /\ forall new, put i new l = l1 ++ new ++ l2.
Proof. intros Hi. exists (take i l), (drop (S i) l). split; [by rewrite take_drop_middle | done]. Qed.

Lemma put_end (l new : list stage) : put (length l) new l = l ++ new.
Proof. unfold put. by rewrite firstn_all, drop_ge, app_nil_r by lia. Qed.

Lemma holders_app l1 l2 : holders (l1 ++ l2) = holders l1 + holders l2.
Proof. induction l1 as [|st l1 IH]; cbn; [done |]. fold (holders (l1 ++ l2)) (holders l1). rewrite IH. lia. Qed.

Lemma busy_ones_app l1 l2 : busy_ones (l1 ++ l2) = busy_ones l1 ++ busy_ones l2.
Proof. apply filter_app. Qed.

Lemma busy_ones_cons st l : busy_ones (st :: l) = (if busy st then [st] else []) ++ busy_ones l.
Proof. unfold busy_ones. rewrite filter_cons. by destruct (busy st). Qed.

Lemma idle_end st l : busy st = false -> busy_ones (l ++ [st]) = busy_ones l.
Proof. intros Hb. rewrite busy_ones_app, busy_ones_cons, Hb. apply app_nil_r. Qed.

Lemma position_lost e wires cur bs k n on dis : position e wires cur bs k n on dis -> position e wires cur bs k n on true.
Proof. destruct bs as [|[] []]; try done. intros [? [?|[? ?]]]; split; auto. Qed.

(** At most one call reads. *)
Lemma position_one e wires cur l1 st l2 k n on dis :
  position e wires cur (l1 ++ st :: l2) k n on dis -> l1 = [] /\ l2 = [].
Proof. destruct l1 as [|x [|y l1]]; [destruct st, l2; done | destruct x; done | destruct x; done]. Qed.

Lemma position_sock e wires cur bs k k' n on dis :
  pending k' = pending k -> position e wires cur bs k n on dis -> position e wires cur bs k' n on dis.
Proof. intros Hp. destruct bs as [|[] []]; try done; cbn; by rewrite Hp. Qed.

Lemma position_nonzero e wires cur bs k n on dis :
  position e wires cur bs k n on dis -> 0 < n -> bs <> [] \/ dis = true.
Proof. destruct bs; [| by left]. intros [_ [(-> & _)|[_ ->]]]; [lia | by right]. Qed.

Lemma position_off e wires cur bs k n dis : position e wires cur bs k n false dis -> bs <> [] \/ dis = true.
Proof. destruct bs; [| by left]. intros [_ [(_ & ? & _)|[_ ->]]]; [done | by right]. Qed.

Lemma busy_ones_nonempty l : busy_ones l <> [] -> l <> [].
Proof. by intros Hl ->. Qed.

(** ** Steps *)

Lemma inv_put seq0 pls0 s e pls wires cur lost consumed l1 st l2 new k n on idle cnt jobs out dis cur' lost' :
  inv seq0 pls0 s e pls wires cur lost consumed -> q_stages s = l1 ++ st :: l2 ->
  wf_sock size k -> Forall (matched e) idle -> Forall (stage_ok e) new ->
  position e wires cur' (busy_ones (l1 ++ new ++ l2)) k n on dis ->
  out ++ flat_map carried new ++ cur' ++ lost' ≡ₚ q_out s ++ carried st ++ cur ++ lost ->
  lost' = [] \/ dis = true -> (0 < rd_pos k -> (0 < jobs)%nat \/ l1 ++ new ++ l2 <> [] \/ dis = true) ->
  cnt - zlen idle - holders new = q_count s - zlen (q_idle s) - holder st ->
  inv seq0 pls0 (mkReaders k (q_sequence_number s) n on idle cnt jobs (l1 ++ new ++ l2) out dis) e pls wires cur' lost' consumed.
Proof.
  intros I Hl Hk Hid Hnew Hpos Hperm Hlost Hwake Hcnt. destruct I as [V1 V2 V3 V4 V5 V6 V7 V8 V9 V10 V11 V12 V13].
  rewrite Hl in V7, V10, V13. apply Forall_app in V7 as [F1 F2]. apply Forall_cons in F2 as [_ F2]. apply Forall_cons in V6 as [Hf _].
  split; cbn; try done.
  - by constructor.
  - rewrite !Forall_app. done.
  - rewrite <- V10. rewrite !flat_map_app. cbn [flat_map]. rewrite <- !app_assoc.
    transitivity (flat_map carried l1 ++ flat_map carried l2 ++ out ++ flat_map carried new ++ cur' ++ lost'); [solve_Permutation |].
    rewrite Hperm. solve_Permutation.
  - revert Hcnt V13. rewrite !holders_app. cbn. fold (holders l2). lia.
Qed.

(** The call that reads is the only one. *)
Lemma busy_here e wires cur l1 st l2 k n on dis :
  position e wires cur (busy_ones (l1 ++ st :: l2)) k n on dis -> busy st = true ->
  position e wires cur [st] k n on dis /\ busy_ones l1 = [] /\ busy_ones l2 = [].
Proof.
  rewrite busy_ones_app, busy_ones_cons. intros Hp Hb. rewrite Hb in Hp. cbn [app] in Hp. destruct (position_one _ _ _ _ _ _ _ _ _ _ Hp) as [E1 E2].
  rewrite E1, E2 in Hp. done.
Qed.

Lemma busy_put l1 st l2 : busy_ones l1 = [] -> busy_ones l2 = [] -> busy_ones (l1 ++ [st] ++ l2) = if busy st then [st] else [].
Proof. intros E1 E2. cbn [app]. rewrite busy_ones_app, busy_ones_cons, E1, E2, app_nil_r. by destruct (busy st). Qed.

Lemma busy_gone l1 l2 : busy_ones l1 = [] -> busy_ones l2 = [] -> busy_ones (l1 ++ [] ++ l2) = [].
Proof. intros E1 E2. cbn [app]. by rewrite busy_ones_app, E1, E2. Qed.

Lemma idle_put l1 st l2 new : busy st = false -> busy_ones new = [] -> busy_ones (l1 ++ new ++ l2) = busy_ones (l1 ++ st :: l2).
Proof. intros Hb Hn. rewrite !busy_ones_app, busy_ones_cons, Hb, Hn. done. Qed.

Lemma content_of e d p tmp pl : opens e d p tmp pl -> content d p tmp = [pl].
Proof. intros (d2 & q & E1 & E2 & _). unfold content, unpacked. by rewrite E1, E2. Qed.

Lemma opens_next e e' d p tmp pl : (forall d, matched e d -> matched e' d) -> opens e d p tmp pl -> opens e' d p tmp pl.
Proof. intros Hm (d2 & q & E1 & E2 & E3). exists d2, q. auto. Qed.

Lemma stage_ok_next e e' st : (forall d, matched e d -> matched e' d) -> stage_ok e st -> stage_ok e' st.
Proof. intros Hm. destruct st; cbn; auto; intros [pl Hp]; exists pl; by apply (opens_next e). Qed.

Lemma decompress_alloc p pl : decompress_packet true p = Ret (Some pl) -> forall a, decompress_packet a p = Ret (if a then Some pl else None).
Proof. intros E [|]; [done |]. done. Qed.

Context (Hsize : 0 < max <= size /\ size < 2 ^ 32).

(** A call that has read the header of the next packet. *)
Lemma read_length_inv seq0 pls0 s e pls wires cur lost consumed i d w :
  inv seq0 pls0 s e pls wires cur lost consumed -> q_stages s !! i = Some (Reading d w) ->
  d_cipher_headersize d <= rd_pos (q_sock s) ->
  exists s' d' p tmp len n, read_length max i d s = Ret s' /\ some_inv seq0 pls0 s' /\
    s' = set_stages (set_number s (u32 (q_sequence_number s + 1))) i [Receiving d' p tmp len n false].
Proof.
  intros I Hi Hhs. destruct (put_split i _ _ Hi) as (l1 & l2 & El & Ep).
  destruct I as [V1 V2 V3 V4 V5 V6 V7 V8 V9 V10 V11 V12 V13]. rewrite El in V7, V8, V10, V12, V13.
  apply busy_here in V8 as ((-> & Hn & Hpd & Hne) & B1 & B2); [| done].
  inversion V3 as [|? ? type pl rnd junk e' p pls' wires' Hseal V3']; subst; [done |]. clear V3.
  apply Forall_cons in V4 as [Hpl V4]. apply Forall_cons in V5 as [Hsm V5].
  assert (matched e d) as Hm by (apply Forall_app in V7 as [_ V7]; by apply Forall_cons in V7 as [V7 _]).
  assert (forall d, matched e d -> matched e' d) as Hnext by (intros d' Hd; by eapply (pl_matched e)).
  destruct (pc_transfer e d (q_sequence_number s) type pl rnd junk Hm V2 Hpl)
    as (e2 & p2 & Hseal2 & _ & _ & Hw & d1 & pr & tmp & len & d2 & q & Hrh & Hlen & Hmsg & Hopen & Hdec & Hm').
  rewrite Hseal in Hseal2. injection Hseal2 as <- <-. pose proof (pc_headersize _ _ Hm) as H4.
  pose proof (window_head size (q_sock s) (p_buffer p) (concat wires') (d_cipher_headersize d) V1 Hpd ltac:(lia) Hw) as Hbuf.
  specialize (Hrh (drop (Z.to_nat (d_cipher_headersize d)) (rd_buffer (q_sock s)))). cbv zeta in Hrh. rewrite <- Hbuf in Hrh.
  unfold read_length. cbn [q_sock set_number]. rewrite Hrh. cbn [outcome_bind Z.eqb negb]. rewrite Hlen. cbn [lift outcome_bind].
  rewrite (read_header_msgsize _ _ _ _ _ _ _ len Hrh), Hmsg. destruct (Z.leb_spec max (zlen (p_buffer p))); [lia |].
  assert (matched e' d1) as Hm1 by (apply Hnext; by eapply (pl_header e d)).
  do 6 eexists. split; [reflexivity |]. split; [| reflexivity].
  set (npl := mkPayload _ _ _ _ _) in Hdec.
  exists e', pls', wires', [npl], lost, (consumed ++ [npl]). unfold set_stages, set_number. cbn. rewrite Ep.
  set (st := Receiving _ _ _ _ _ _). apply Forall_app in V7 as [F1 F2]. apply Forall_cons in F2 as [_ F2].
  split; cbn [q_sock q_sequence_number q_threads q_enabled q_idle q_count q_jobs q_stages q_out q_disconnected]; try done.
  - apply u32_range.
  - apply (Forall_impl _ _ _ V6). exact Hnext.
  - rewrite !Forall_app. split; [| split]; [apply (Forall_impl _ _ _ F1) | by constructor | apply (Forall_impl _ _ _ F2)];
      intros st'; by apply stage_ok_next.
  - rewrite busy_put by done. cbn. split; [done |]. exists (p_buffer p), npl. do 4 (split; [done || lia |]).
    exists d2, q. done.
  - rewrite V9, <- app_assoc. done.
  - rewrite !flat_map_app in *. cbn [flat_map carried st app] in *.
    rewrite <- V10. solve_Permutation.
  - intros _. right. left. by destruct l1.
  - revert V13. rewrite !holders_app. cbn. fold (holders l2). lia.
Qed.

Definition keeps (seq0 : Z) (pls0 : list bytes) (o : outcome (option readers)) : Prop :=
  match o with Ret (Some s) => some_inv seq0 pls0 s | Ret None => True | _ => False end.

(** A call that does not read. *)
Lemma go_idle_inv seq0 pls0 s l i st :
  some_inv seq0 pls0 s -> q_stages s !! i = Some st -> busy st = false -> keeps seq0 pls0 (go max max_count fresh hk l i st s).
Proof.
  intros (e & pls & wires & cur & lost & consumed & I) Hi Hb. destruct (put_split i _ _ Hi) as (l1 & l2 & El & Ep).
  pose proof I as [V1 V2 V3 V4 V5 V6 V7 V8 V9 V10 V11 V12 V13]. rewrite El in V7, V8, V12, V13. apply Forall_cons in V6 as [Hf V6].
  assert (stage_ok e st) as Hst by (apply Forall_app in V7 as [_ V7]; by apply Forall_cons in V7 as [V7 _]).
  assert (forall st' : stage, l1 ++ [st'] ++ l2 <> []) as Hne by (intros st'; by destruct l1).
  destruct l, st; try done; cbn [go keeps].
  - destruct idle as [j|]; cbn [get_decryptor].
    + destruct (q_idle s !! j) as [d|] eqn:Ej; [| done]. opt. cbn [keeps]. unfold set_stages, set_pool. cbn. rewrite Ep.
      assert (q_idle s = take j (q_idle s) ++ d :: drop (S j) (q_idle s)) as Eid by by rewrite take_drop_middle.
      rewrite Eid in V6. apply Forall_app in V6 as [G1 G2]. apply Forall_cons in G2 as [Gd G2].
      exists e, pls, wires, cur, lost, consumed. apply (inv_put _ _ s e pls wires cur lost consumed l1 Entered l2); try done.
      * by apply Forall_app.
      * by repeat constructor.
      * by rewrite (idle_put l1 Entered).
      * intros _. right. by left.
      * rewrite Eid at 3. rewrite !zlen_app, zlen_cons. cbn. lia.
    + destruct (_ || _); [| done]. cbn [keeps]. unfold set_stages, set_pool. cbn. rewrite Ep.
      exists e, pls, wires, cur, lost, consumed. apply (inv_put _ _ s e pls wires cur lost consumed l1 Entered l2); try done.
      * by repeat constructor.
      * by rewrite (idle_put l1 Entered).
      * intros _. right. by left.
      * cbn. lia.
  - destruct ((0 <? q_threads s) || (rd_pos (q_sock s) =? 0)) eqn:Et.
    + unfold queue_decryptor, set_stages, set_pool. cbn. rewrite Ep. exists e, pls, wires, cur, lost, consumed.
      apply (inv_put _ _ s e pls wires cur lost consumed l1 (Equipped d) l2); try done.
      * apply Forall_app. by repeat constructor.
      * by rewrite (idle_put l1 (Equipped d)).
      * intros Hpos. apply orb_true_iff in Et as [Et%Z.ltb_lt|Et%Z.eqb_eq]; [| lia].
        destruct (position_nonzero _ _ _ _ _ _ _ _ V8 Et) as [Hbs|]; [| by right; right]. right. left.
        rewrite busy_ones_app, busy_ones_cons in Hbs. cbn in Hbs. cbn. intros [E1 E2]%app_nil. rewrite E1, E2 in Hbs. done.
      * rewrite zlen_app. change (zlen [d]) with 1. cbn. lia.
    + apply orb_false_iff in Et as [Et%Z.ltb_ge Ez%Z.eqb_neq]. unfold set_threads, set_stages. cbn. rewrite Ep.
      assert (busy_ones l1 = [] /\ busy_ones l2 = [] /\ cur = [] /\ q_threads s = 0 /\ pending (q_sock s) = concat wires) as (B1 & B2 & -> & En & Epd).
      { revert V8. rewrite busy_ones_app, busy_ones_cons. cbn [busy app].
        destruct (busy_ones l1) as [|x bl]; [destruct (busy_ones l2) as [|y bl2] |].
        - intros [? [(? & ? & ?)|[? ?]]]; [done | lia].
        - destruct y, bl2; try done; cbn; intros ?; exfalso; intuition lia.
        - cbn. destruct x, (bl ++ busy_ones l2); try done; cbn; intros ?; exfalso; intuition lia. }
      exists e, pls, wires, [], lost, consumed. apply (inv_put _ _ s e pls wires [] lost consumed l1 (Equipped d) l2); try done.
      * by repeat constructor.
      * rewrite busy_put by done. cbn. split; [done |]. split; [lia |]. split; [done |]. intros ->.
        pose proof (zlen_pending size (q_sock s) V1) as Hz. rewrite Epd in Hz. cbn in Hz. change (zlen []) with 0 in Hz.
        pose proof (ws_pos _ _ V1). pose proof (zlen_nonneg (sk_net (q_sock s))). lia.
      * intros _. right. by left.
  - destruct Hst as (pl & d2 & q & E1 & E2 & E3). rewrite E1. cbn [outcome_bind keeps].
    assert (forall jobs, (q_jobs s <= jobs)%nat -> some_inv seq0 pls0
      (mkReaders (q_sock s) (q_sequence_number s) (q_threads s) (q_enabled s) (q_idle s ++ [d2]) (q_count s) jobs
         (l1 ++ [Opened q] ++ l2) (q_out s) (q_disconnected s))) as Hgo.
    { intros jobs Hj. exists e, pls, wires, cur, lost, consumed.
      apply (inv_put _ _ s e pls wires cur lost consumed l1 (Holding d p tmpheader) l2); try done.
      - apply Forall_app. by repeat constructor.
      - constructor; [by exists pl | done].
      - by rewrite (idle_put l1 (Holding d p tmpheader)).
      - cbn. unfold content. by rewrite E1, app_nil_r.
      - intros _. right. by left.
      - rewrite zlen_app. change (zlen [d2]) with 1. cbn. lia. }
    unfold look_next, queue_decryptor, set_stages, set_pool, set_jobs. cbn. rewrite Ep.
    destruct (_ && _); apply Hgo; lia.
  - destruct Hst as (pl & E). rewrite (decompress_alloc _ _ E). destruct alloc; cbn [outcome_bind keeps];
      unfold hand_over, lose, set_stages; cbn; rewrite Ep.
    + exists e, pls, wires, cur, lost, consumed. apply (inv_put _ _ s e pls wires cur lost consumed l1 (Opened p) l2); try done.
      * by repeat constructor.
      * by rewrite (idle_put l1 (Opened p)).
      * cbn. unfold unpacked. rewrite E. solve_Permutation.
      * intros _. right. by left.
    + exists e, pls, wires, cur, (pl :: lost), consumed. apply (inv_put _ _ s e pls wires cur lost consumed l1 (Opened p) l2); try done.
      * rewrite (idle_put l1 (Opened p)) by done. by eapply position_lost.
      * cbn. unfold unpacked. rewrite E. solve_Permutation.
      * by right.
      * by right; right.
Qed.

(** The call that reads. *)
Lemma go_busy_inv seq0 pls0 s l i st :
  some_inv seq0 pls0 s -> q_stages s !! i = Some st -> busy st = true -> keeps seq0 pls0 (go max max_count fresh hk l i st s).
Proof.
  intros SI Hi Hb. destruct (put_split i _ _ Hi) as (l1 & l2 & El & Ep).
  destruct l as [k| | |j idle|j|j|j timedout|j|j|j|j|j|j alloc]; try (by destruct st); destruct st; try done; cbn [go keeps].
  all: match goal with |- context [read_length] => idtac | _ => destruct SI as (e & pls & wires & cur & lost & consumed & I);
    pose proof I as [V1 V2 V3 V4 V5 V6 V7 V8 V9 V10 V11 V12 V13]; rewrite El in V7, V8, V12, V13; apply Forall_cons in V6 as [Hf V6];
    apply busy_here in V8 as (V8 & B1 & B2); [| done];
    apply Forall_app in V7 as [_ V7]; apply Forall_cons in V7 as [Hst _];
    assert (forall st' : stage, l1 ++ [st'] ++ l2 <> []) as Hne by (intros st'; by destruct l1) end.
  - destruct (_ <? _); [| done]. cbn [keeps]. unfold set_stages. rewrite Ep. exists e, pls, wires, cur, lost, consumed.
    apply (inv_put _ _ s e pls wires cur lost consumed l1 (Reading d waited) l2); try done.
    + by repeat constructor.
    + by rewrite busy_put.
    + intros _. right. by left.
  - destruct (_ <? _); [| done]. cbn [keeps]. unfold set_stages. rewrite Ep. exists e, pls, wires, cur, lost, consumed.
    apply (inv_put _ _ s e pls wires cur lost consumed l1 (Receiving d p tmpheader len size0 waited) l2); try done.
    + by repeat constructor.
    + by rewrite busy_put.
    + intros _. right. by left.
  - destruct waited; [| done]. destruct (_ || _); [| done]. cbn [keeps]. unfold lose, queue_decryptor, set_pool, set_stages. cbn. rewrite Ep.
    destruct V8 as (-> & Hn & _). exists e, pls, wires, [], lost, consumed.
    apply (inv_put _ _ s e pls wires [] lost consumed l1 (Reading d true) l2); try done.
    + apply Forall_app. by repeat constructor.
    + rewrite busy_gone by done. cbn. split; [done |]. by right.
    + by right.
    + intros _. by right; right.
    + rewrite zlen_app. change (zlen [d]) with 1. cbn. lia.
  - destruct waited; [| done]. destruct (_ || _); [| done]. cbn [keeps]. unfold lose, queue_decryptor, set_pool, set_stages. cbn. rewrite Ep.
    destruct V8 as (Hn & w & pl & Hpd & Hw & Hm & -> & _). exists e, pls, wires, [], (pl :: lost), consumed.
    apply (inv_put _ _ s e pls wires [pl] lost consumed l1 (Receiving d p tmpheader len size0 true) l2); try done.
    + apply Forall_app. by repeat constructor.
    + rewrite busy_gone by done. cbn. split; [done |]. by right.
    + by right.
    + intros _. by right; right.
    + rewrite zlen_app. change (zlen [d]) with 1. cbn. lia.
  - destruct (Z.ltb_spec (rd_pos (q_sock s)) (d_cipher_headersize d)); [done |]. cbn [outcome_bind].
    destruct SI as (e & pls & wires & cur & lost & consumed & I).
    destruct (read_length_inv _ _ _ _ _ _ _ _ _ _ _ _ I Hi ltac:(done)) as (s' & _ & _ & _ & _ & _ & -> & Hs' & _). done.
  - destruct (Z.ltb_spec (rd_pos (q_sock s)) size0); [done |]. destruct V8 as (Hn & w & pl & Hpd & <- & Hw & -> & Hop).
    destruct (take_packet_head size (q_sock s) w (concat wires) V1 Hpd) as (k & -> & Hk & Hpk & Hnet & Hdn); [lia | destruct V1; lia |].
    cbn [outcome_bind keeps]. unfold set_qsock, set_stages. cbn. rewrite Ep. exists e, pls, wires, [], lost, consumed.
    apply (inv_put _ _ s e pls wires [pl] lost consumed l1 (Receiving d p tmpheader len (zlen w) waited) l2); try done.
    + constructor; [by exists pl | done].
    + by rewrite busy_put.
    + cbn. rewrite (content_of e _ _ _ pl) by done. solve_Permutation.
    + intros _. right. by left.
  - unfold set_threads, set_stages. cbn. rewrite Ep. exists e, pls, wires, cur, lost, consumed.
    apply (inv_put _ _ s e pls wires cur lost consumed l1 (Taken d p tmpheader) l2); try done.
    + by repeat constructor.
    + rewrite busy_put by done. cbn in *. intuition.
    + by cbn; rewrite app_nil_r.
    + intros _. right. by left.
  - destruct V8 as (-> & Hn & Hon & Hpd).
    assert (forall jobs, (q_jobs s <= jobs)%nat -> some_inv seq0 pls0
      (mkReaders (q_sock s) (q_sequence_number s) (q_threads s - 1) (q_enabled s) (q_idle s) (q_count s) jobs
         (l1 ++ [Holding d p tmpheader] ++ l2) (q_out s) (q_disconnected s))) as Hgo.
    { intros jobs Hj. exists e, pls, wires, [], lost, consumed.
      apply (inv_put _ _ s e pls wires [] lost consumed l1 (Switched d p tmpheader) l2); try done.
      - by repeat constructor.
      - rewrite busy_put by done. cbn. split; [done |]. left. split; [lia | done].
      - by cbn; rewrite app_nil_r.
      - intros _. right. by left. }
    unfold look_next, set_threads, set_stages, set_jobs. cbn. rewrite Ep. destruct (_ && _); apply Hgo; lia.
Qed.

Lemma exec_inv seq0 pls0 s l : some_inv seq0 pls0 s -> keeps seq0 pls0 (exec max max_count fresh hk l s).
Proof.
  intros SI. assert (forall i, thread_of l = Some i ->
    keeps seq0 pls0 (match q_stages s !! i with Some st => go max max_count fresh hk l i st s | None => Ret None end)) as Hgo.
  { intros i _. destruct (q_stages s !! i) as [st|] eqn:Hi; [| done]. destruct (busy st) eqn:Hb; [by apply go_busy_inv | by apply go_idle_inv]. }
  destruct l; cbn [exec thread_of] in *; try (by eapply Hgo); clear Hgo;
    destruct SI as (e & pls & wires & cur & lost & consumed & [V1 V2 V3 V4 V5 V6 V7 V8 V9 V10 V11 V12 V13]).
  - destruct (sk_down (q_sock s)) eqn:Hd; [done |].
    assert (exists k', recv_event k (q_sock s) = Ret k' /\ wf_sock size k' /\ pending k' = pending (q_sock s) /\
      rd_pos (q_sock s) <= rd_pos k') as (k' & -> & Hk & Hpd & Hle).
    { destruct (Z.eqb_spec (rd_pos (q_sock s)) size) as [E|E].
      - unfold recv_event, recv_call. rewrite (ws_size _ _ V1), E, Z.sub_diag. cbn [Z.eqb]. eexists. split; [done |].
        destruct V1 as [? ?]. repeat split; cbn; try done; try lia. unfold pending. cbn. by rewrite E.
      - destruct (recv_event_window size k (q_sock s) V1) as (k' & E1 & E2 & E3 & E4 & _); [destruct V1; lia |]. by exists k'. }
    cbn [outcome_bind keeps]. exists e, pls, wires, cur, lost, consumed. split; cbn; try done.
    + by apply (position_sock _ _ _ _ (q_sock s)).
    + intros Hpos. destruct (Z.ltb_spec (rd_pos (q_sock s)) (rd_pos k')); [left; lia | apply V12; lia].
  - cbn [keeps]. exists e, pls, wires, cur, lost, consumed. split; cbn; try done.
    + by destruct V1.
  - destruct (q_jobs s) as [|n] eqn:Hj; [done |]. cbn [keeps]. exists e, pls, wires, cur, lost, consumed.
    destruct (q_enabled s) eqn:Hon; (split; cbn; try done).
    + rewrite put_end. apply Forall_app. split; [done | by repeat constructor].
    + by rewrite put_end, Hon, idle_end.
    + rewrite put_end, flat_map_app. cbn. by rewrite app_nil_r.
    + intros _. right. left. rewrite put_end. by destruct (q_stages s).
    + rewrite put_end, holders_app. cbn. lia.
    + by rewrite Hon.
    + intros _. right. destruct (position_off _ _ _ _ _ _ _ V8) as [Hbs|]; [| by right]. left. by apply busy_ones_nonempty in Hbs.
Qed.

Lemma readers_inv seq0 pls0 s s' : some_inv seq0 pls0 s -> rtc (step max max_count fresh hk) s s' -> some_inv seq0 pls0 s'.
Proof.
  intros I Hr. induction Hr as [|s s1 s2 [l Hl] _ IH]; [done |]. apply IH. pose proof (exec_inv seq0 pls0 s l I) as Hk. by rewrite Hl in Hk.
Qed.

(** The start: no call, the whole stream [concat wires] on its way. *)
Record at_start s e (pls wires : list bytes) : Prop := {
  st_sock : wf_sock size (q_sock s) /\ rd_pos (q_sock s) = 0 /\ pending (q_sock s) = concat wires;
  st_seq : is_u32 (q_sequence_number s);
  st_stream : sealed_stream e (q_sequence_number s) pls wires;
  st_sendable : Forall sendable pls;
  st_small : Forall (fun w => zlen w < max) wires;
  st_pool : Forall (matched e) (fresh :: q_idle s);
  st_calls : q_stages s = [] /\ q_threads s = 0 /\ q_enabled s = true /\ q_count s = zlen (q_idle s);
  st_up : q_out s = [] /\ q_disconnected s = false /\ sk_down (q_sock s) = false }.

Lemma start_inv s e pls wires : at_start s e pls wires -> some_inv (q_sequence_number s) pls s.
Proof.
  intros [(W1 & W2 & W3) W4 W5 W6 W7 W8 (W9 & W10 & W11 & W12) (W13 & W14 & _)]. exists e, pls, wires, [], [], [].
  split; try done; rewrite ?W9, ?W13, ?W12; try done.
  - split; [done |]. by left.
  - by left.
  - lia.
  - cbn. lia.
Qed.

(** ** Every state can be completed *)

Lemma next_packet e seq pls wires d :
  sealed_stream e seq pls wires -> is_u32 seq -> Forall sendable pls -> matched e d ->
  match wires with [] => pls = [] | w :: _ => 4 <= d_cipher_headersize d <= zlen w end.
Proof.
  intros Hs Hseq Hsend Hm. destruct Hs as [|e seq type pl rnd junk e' p pls wires Hseal Hs]; [done |]. apply Forall_cons in Hsend as [Hpl _].
  destruct (pc_transfer e d seq type pl rnd junk Hm Hseq Hpl) as (e2 & p2 & Hseal2 & _ & _ & Hw & _).
  rewrite Hseal in Hseal2. injection Hseal2 as <- <-. split; [by apply (pc_headersize e) | done].
Qed.

(** Nothing to do any more, and the connection is up. *)
Definition quiet s : Prop := q_stages s = [] /\ q_jobs s = O /\ sk_net (q_sock s) = [].

Lemma quiet_done seq0 pls0 s :
  some_inv seq0 pls0 s -> quiet s -> q_disconnected s = false -> q_out s ≡ₚ numbered seq0 pls0.
Proof.
  intros (e & pls & wires & cur & lost & consumed & [V1 V2 V3 V4 V5 V6 V7 V8 V9 V10 V11 V12 V13]) (Q1 & Q2 & Q3) Hd.
  rewrite Q1, Q2, Hd in *. assert (rd_pos (q_sock s) = 0) as Hp.
  { pose proof (ws_pos _ _ V1). destruct (Z.eqb_spec (rd_pos (q_sock s)) 0); [done |]. destruct V12 as [|[|]]; [lia | lia | done | done]. }
  destruct V8 as (-> & [(_ & _ & Hpd)|[_ ?]]); [| done]. destruct V11 as [->|]; [| done].
  assert (pls = []) as ->.
  { apply Forall_cons in V6 as [Hf _]. pose proof (next_packet _ _ _ _ _ V3 V2 V4 Hf) as Hn. destruct wires as [|w wires]; [done |].
    unfold pending in Hpd. rewrite Hp, Q3 in Hpd. cbn in Hpd. destruct w; [change (zlen []) with 0 in Hn; lia | done]. }
  cbn in V9, V10. rewrite app_nil_r in V9, V10. by rewrite V9.
Qed.

Definition weight (st : stage) : Z :=
  match st with
  | Entered => 4 | Equipped _ => 3 | Reading _ _ => 2 | Receiving _ _ _ _ _ _ => 1
  | Taken _ _ _ => 18 | Switched _ _ _ => 17 | Holding _ _ _ => 11 | Opened _ => 5
  end.
Definition weights (l : list stage) : Z := foldr (fun st n => weight st + n) 0 l.

(** What is left to do. *)
Definition todo s : Z :=
  20 * zlen (pending (q_sock s)) + 6 * zlen (sk_net (q_sock s)) + 5 * Z.of_nat (q_jobs s) + weights (q_stages s).

Lemma weights_app l1 l2 : weights (l1 ++ l2) = weights l1 + weights l2.
Proof. induction l1 as [|st l1 IH]; cbn; [done |]. fold (weights (l1 ++ l2)) (weights l1). rewrite IH. lia. Qed.

Lemma weights_nonneg l : 0 <= weights l.
Proof. induction l as [|st l IH]; cbn; [done |]. fold (weights l). destruct st; cbn; lia. Qed.

Lemma weights_put i st l new : l !! i = Some st -> weights (put i new l) = weights l + weights new - weight st.
Proof.
  intros (l1 & l2 & El & Ep)%put_split. rewrite Ep, El, !weights_app. cbn. fold (weights l2). lia.
Qed.

(** A step towards the end. *)
Definition advances s s' : Prop := todo s' < todo s /\ q_disconnected s' = q_disconnected s /\ sk_down (q_sock s') = sk_down (q_sock s).

Lemma look_next_jobs on s : exists n, look_next on s = set_jobs s n /\ (n <= S (q_jobs s))%nat.
Proof. unfold look_next. destruct (_ && _); [by exists (S (q_jobs s)) |]. exists (q_jobs s). split; [by destruct s | lia]. Qed.

Lemma arrive_advances s :
  wf_sock size (q_sock s) -> sk_down (q_sock s) = false -> rd_pos (q_sock s) < size -> sk_net (q_sock s) <> [] ->
  exists s', exec max max_count fresh hk (Arrive 1) s = Ret (Some s') /\ advances s s'.
Proof.
  intros Hw Hd Hlt Hne. cbn [exec]. rewrite Hd.
  destruct (recv_event_window size 1 (q_sock s) Hw Hlt) as (k & -> & Hk & Hp & _ & Hnet & Hgt & Hdn). cbn [outcome_bind].
  eexists. split; [reflexivity |]. unfold advances, todo. cbn [q_sock q_jobs q_stages set_jobs set_qsock q_disconnected]. rewrite Hp, Hdn.
  assert (0 < zlen (sk_net (q_sock s))) by (destruct (sk_net (q_sock s)) as [|x l]; [done | rewrite zlen_cons; pose proof (zlen_nonneg l); lia]).
  specialize (Hgt ltac:(lia)). destruct (Z.ltb_spec (rd_pos (q_sock s)) (rd_pos k)); [| lia]. split; [lia | done].
Qed.

(** The call that reads goes on, or data arrives for it. *)
Lemma busy_advances seq0 pls0 s i st :
  some_inv seq0 pls0 s -> sk_down (q_sock s) = false -> q_stages s !! i = Some st -> busy st = true ->
  exists l s', exec max max_count fresh hk l s = Ret (Some s') /\ advances s s'.
Proof.
  intros (e & pls & wires & cur & lost & consumed & I) Hd Hi Hb.
  pose proof I as [V1 V2 V3 V4 V5 V6 V7 V8 V9 V10 V11 V12 V13].
  destruct (put_split i _ _ Hi) as (l1 & l2 & El & _). rewrite El in V7, V8. apply busy_here in V8 as (V8 & _ & _); [| done].
  apply Forall_app in V7 as [_ V7]; apply Forall_cons in V7 as [Hst _]. pose proof (zlen_pending size _ V1) as Hz.
  pose proof (zlen_nonneg (sk_net (q_sock s))) as Hn0.
  assert (forall n rest, pending (q_sock s) = rest -> rd_pos (q_sock s) < n -> n <= zlen rest -> sk_net (q_sock s) <> []) as Hmore.
  { intros n rest <- Hlt Hle Hnil. rewrite Hnil in Hz. change (zlen []) with 0 in Hz. lia. }
  destruct st; try done.
  - destruct V8 as (_ & _ & Hpd & Hne). pose proof (next_packet _ _ _ _ _ V3 V2 V4 Hst) as Hnp.
    destruct wires as [|w wires]; [done |]. apply Forall_cons in V5 as [Hsm _].
    destruct (Z.ltb_spec (rd_pos (q_sock s)) (d_cipher_headersize d)) as [Hlt|Hge].
    + exists (Arrive 1). apply arrive_advances; try done; [lia |]. apply (Hmore (d_cipher_headersize d) _ Hpd); [lia |].
      cbn. rewrite zlen_app. pose proof (zlen_nonneg (concat wires)). lia.
    + destruct (read_length_inv _ _ _ _ _ _ _ _ _ _ _ _ I Hi Hge) as (s' & d' & p & tmp & len & n & E & _ & ->).
      exists (Header i). eexists. split; [cbn [exec thread_of]; rewrite Hi; cbn [go];
        rewrite (proj2 (Z.ltb_ge _ _) Hge); rewrite E; reflexivity |].
      split; [| done]. unfold todo. cbn. rewrite (weights_put i _ _ _ Hi). cbn. lia.
  - destruct V8 as (_ & w & pl & Hpd & <- & Hw & _).
    destruct (Z.ltb_spec (rd_pos (q_sock s)) (zlen w)) as [Hlt|Hge].
    + exists (Arrive 1). apply arrive_advances; try done; [lia |]. apply (Hmore (zlen w) _ Hpd); [lia |].
      rewrite zlen_app. pose proof (zlen_nonneg (concat wires)). lia.
    + destruct (take_packet_head size (q_sock s) w (concat wires) V1 Hpd) as (k & E & Hk & Hpk & Hnet & Hdn); [lia | destruct V1; lia |].
      exists (Body i). eexists. split; [cbn [exec thread_of]; rewrite Hi; cbn [go];
        rewrite (proj2 (Z.ltb_ge _ _) Hge); rewrite E; reflexivity |].
      split; [| done]. unfold todo. cbn. rewrite (weights_put i _ _ _ Hi), Hpk, Hnet, Hpd, zlen_app. cbn. lia.
  - exists (Switch i). eexists. split; [cbn [exec thread_of]; rewrite Hi; reflexivity |].
    split; [| done]. unfold todo. cbn. rewrite (weights_put i _ _ _ Hi). cbn. lia.
  - exists (Release i). eexists. split; [cbn [exec thread_of]; rewrite Hi; reflexivity |].
    destruct (look_next_jobs (parallel_hook hk) (set_threads (set_stages s i [Holding d p tmpheader]) (q_threads s - 1) (q_enabled s)))
      as (n & -> & Hn). cbn in Hn. split; [| done]. unfold todo. cbn. rewrite (weights_put i _ _ _ Hi). cbn. lia.
Qed.

(** When no call reads, one that has a packet or a decryptor goes on. *)
Lemma idle_advances seq0 pls0 s i st :
  some_inv seq0 pls0 s -> q_stages s !! i = Some st -> busy st = false -> st <> Entered ->
  exists l s', exec max max_count fresh hk l s = Ret (Some s') /\ advances s s'.
Proof.
  intros (e & pls & wires & cur & lost & consumed & I) Hi Hb Hne.
  assert (stage_ok e st) as Hst.
  { pose proof (v_stages _ _ _ _ _ _ _ _ _ I) as V7. rewrite Forall_forall in V7. apply V7. by apply list_elem_of_lookup_2 in Hi. }
  destruct st; try done.
  - exists (Test i). eexists. split; [cbn [exec thread_of]; rewrite Hi; reflexivity |].
    destruct (_ || _); (split; [| done]); unfold todo; cbn; rewrite (weights_put i _ _ _ Hi); cbn; lia.
  - destruct Hst as (pl & d2 & q & E1 & _). exists (Open i). eexists. split.
    { cbn [exec thread_of]. rewrite Hi. cbn [go]. rewrite E1. reflexivity. }
    destruct (look_next_jobs (serial_hook hk) (queue_decryptor (set_stages s i [Opened q]) d2)) as (n & -> & Hn). cbn in Hn.
    split; [| done]. unfold todo. cbn. rewrite (weights_put i _ _ _ Hi). cbn. lia.
  - destruct Hst as (pl & E). exists (Deliver i true). eexists. split.
    { cbn [exec thread_of]. rewrite Hi. cbn [go]. rewrite E. reflexivity. }
    split; [| done]. unfold todo. cbn. rewrite (weights_put i _ _ _ Hi). cbn. lia.
Qed.

Context (Hmax : 0 <= max_count).

Lemma entered_holders l : Forall (fun st => st = Entered) l -> holders l = 0.
Proof. induction 1 as [|st l -> _ IH]; cbn; [done |]. fold (holders l). lia. Qed.

(** A call that only entered gets a decryptor when all others are there too. *)
Lemma entered_advances seq0 pls0 s :
  some_inv seq0 pls0 s -> q_stages s <> [] -> Forall (fun st => st = Entered) (q_stages s) ->
  exists l s', exec max max_count fresh hk l s = Ret (Some s') /\ advances s s'.
Proof.
  intros (e & pls & wires & cur & lost & consumed & I) Hne Hall. pose proof (v_count _ _ _ _ _ _ _ _ _ I) as V13.
  rewrite (entered_holders _ Hall) in V13. destruct (q_stages s) as [|st l] eqn:El; [done |]. apply Forall_cons in Hall as [-> _].
  assert (exists idle d s1, get_decryptor max_count fresh idle s = Some (d, s1) /\ s1 = set_pool s (q_idle s1) (q_count s1)) as (idle & d & s1 & E & E1).
  { destruct (q_idle s) as [|d rest] eqn:Eid.
    - change (zlen []) with 0 in V13. exists None. cbn [get_decryptor].
      assert ((max_count =? 0) || (q_count s <? max_count) = true) as ->.
      { destruct (Z.eqb_spec max_count 0); [done |]. cbn. apply Z.ltb_lt. lia. }
      by do 2 eexists.
    - exists (Some 0%nat). cbn [get_decryptor]. rewrite Eid. opt. by do 2 eexists. }
  exists (Get 0 idle). eexists. split; [cbn [exec thread_of]; rewrite El; cbn [lookup list_lookup go]; rewrite E; reflexivity |].
  rewrite E1. split; [| done]. unfold todo. cbn [q_sock q_jobs q_stages set_stages set_pool]. rewrite (weights_put 0 Entered) by by rewrite El.
  cbn. lia.
Qed.

Lemma not_quiet_advances seq0 pls0 s :
  some_inv seq0 pls0 s -> sk_down (q_sock s) = false -> q_disconnected s = false -> ~ quiet s ->
  exists l s', exec max max_count fresh hk l s = Ret (Some s') /\ advances s s'.
Proof.
  intros SI Hd Hdis Hq.
  destruct (list_find (fun st => busy st = true) (q_stages s)) as [[i st]|] eqn:Ef.
  { apply list_find_Some in Ef as (Hi & Hb & _). by eapply busy_advances. }
  apply list_find_None in Ef. destruct (list_find (fun st => entered st = false) (q_stages s)) as [[i st]|] eqn:Eg.
  { apply list_find_Some in Eg as (Hi & Hne & _). eapply idle_advances; try done; [| by intros ->].
    rewrite Forall_forall in Ef. specialize (Ef st (list_elem_of_lookup_2 _ _ _ Hi)). by destruct (busy st). }
  apply list_find_None in Eg. destruct (q_stages s) as [|st l] eqn:El.
  2: { eapply entered_advances; [done | by rewrite El |]. rewrite El. apply (Forall_impl _ _ _ Eg). intros []; done. }
  destruct (q_jobs s) as [|n] eqn:Ej.
  - assert (sk_net (q_sock s) <> []) as Hne by (intros Hnil; by apply Hq).
    destruct SI as (e & pls & wires & cur & lost & consumed & [V1 _ _ _ _ _ _ _ _ _ _ V12 _]).
    rewrite El, Ej, Hdis in V12. exists (Arrive 1). apply arrive_advances; try done.
    destruct (Z.ltb_spec 0 (rd_pos (q_sock s))) as [Hp|Hp]; [| destruct V1; lia]. destruct (V12 Hp) as [|[|]]; [lia | done | done].
  - exists Call. cbn [exec]. rewrite Ej. eexists. split; [reflexivity |]. destruct (q_enabled s); (split; [| done]);
      unfold todo; cbn; rewrite ?put_end, ?El, ?Ej; cbn; lia.
Qed.

Lemma completes seq0 pls0 s :
  some_inv seq0 pls0 s -> sk_down (q_sock s) = false -> q_disconnected s = false ->
  exists s', rtc (step max max_count fresh hk) s s' /\ quiet s' /\ q_disconnected s' = false.
Proof.
  remember (Z.to_nat (todo s)) as n eqn:Hn. revert s Hn. induction (lt_wf n) as [n _ IH]. intros s -> SI Hd Hdis.
  assert (0 <= todo s) as H0.
  { unfold todo. pose proof (zlen_nonneg (pending (q_sock s))). pose proof (zlen_nonneg (sk_net (q_sock s))).
    pose proof (weights_nonneg (q_stages s)). lia. }
  destruct (decide (q_stages s = [] /\ q_jobs s = O /\ sk_net (q_sock s) = [])) as [Hq|Hq]; [exists s; by split |].
  destruct (not_quiet_advances seq0 pls0 s SI Hd Hdis Hq) as (l & s1 & E & Hlt & E1 & E2).
  assert (some_inv seq0 pls0 s1) as SI1 by (pose proof (exec_inv seq0 pls0 s l SI) as Hk; by rewrite E in Hk).
  assert (0 <= todo s1).
  { unfold todo. pose proof (zlen_nonneg (pending (q_sock s1))). pose proof (zlen_nonneg (sk_net (q_sock s1))).
    pose proof (weights_nonneg (q_stages s1)). lia. }
  destruct (IH (Z.to_nat (todo s1)) ltac:(lia) s1 eq_refl SI1) as (s2 & Hr & Hrest); [congruence | congruence |].
  exists s2. split; [| done]. eapply rtc_l; [by exists l | done].
Qed.

Lemma stream_safe s s' e pls wires :
  at_start s e pls wires -> rtc (step max max_count fresh hk) s s' ->
  some_inv (q_sequence_number s) pls s' /\ q_out s' ⊆+ numbered (q_sequence_number s) pls /\
  (quiet s' -> q_disconnected s' = false -> q_out s' ≡ₚ numbered (q_sequence_number s) pls).
Proof.
  intros Hs Hr. assert (some_inv (q_sequence_number s) pls s') as SI by (eapply readers_inv; [by eapply start_inv | done]).
  split; [done |]. split; [| by apply quiet_done].
  destruct SI as (e' & pls' & wires' & cur & lost & consumed & I). rewrite (v_consumed _ _ _ _ _ _ _ _ _ I).
  rewrite <- (v_perm _ _ _ _ _ _ _ _ _ I), <- app_assoc. apply submseteq_inserts_r. done.
Qed.


End Stream.

(** ** Concrete runs *)

Module Runs.
Import Model.

(** The hooks of a connection whose cipher works in parallel, after the key exchange. *)
Definition parallel : hooks := mkHooks cb_post_read_header_parallel cb_pre_process_ignore cb_post_process_ignore.

Definition key : decryptor chacha_handle := chacha_decryptor SshReceive.Runs.run_handle.

(** Two packets of chacha20-poly1305 on their way; the second is the first of the
    new numbers after 2^32. *)
Definition start : readers (H := chacha_handle) :=
  mkReaders (mkSock (repeat 0 300) 0 (concat SshReceive.Runs.wires) false) (2 ^ 32 - 1) 0 true [] 0 0 [] [] false.

Definition runs (ls : list label) : outcome (readers (H := chacha_handle)) := execs 300 0 key parallel ls start.

Definition take_one (i : nat) : list label := [Call; Get i None; Test i; Header i; Body i; Switch i; Release i; Open i].

(** The first call opens its packet, and the second its own; then the second is faster. *)
Definition overtaking : list label :=
  Arrive 300 :: take_one 0 ++ take_one 1 ++ [Deliver 1 true; Deliver 0 true] ++
  [Get 0 (Some 0%nat); Test 0; Get 0 (Some 0%nat); Test 0].

Definition end_of (ls : list label) : readers := match runs ls with Ret s => s | _ => start end.

Lemma run_reachable ls : (match runs ls with Ret _ => true | _ => false end) = true -> rtc (step 300 0 key parallel) start (end_of ls).
Proof. unfold end_of. destruct (runs ls) as [s| |] eqn:E; try done. intros _. by apply readers_reachable in E. Qed.

Lemma run_starts :
  at_start (chacha_matched (G := Model.library) (L := Model.laws)) 300 300 key start (chacha_encryptor SshReceive.Runs.run_handle)
    [[94; 1; 2]; [21]] SshReceive.Runs.wires.
Proof.
  pose proof run_reading as [R1 R2 R3 R4 R5 R6 R7 R8 R9 R10]. split.
  - split; [exact R1 |]. split; [reflexivity | exact R6].
  - exact R4.
  - exact R5.
  - exact R7.
  - exact R8.
  - constructor; [exact R3 | constructor].
  - repeat split; reflexivity.
  - repeat split; reflexivity.
Qed.

End Runs.

(** two calls hand their payloads over in the wrong order: reading goes on before
    a payload is handed over, so a later packet can overtake an earlier one. *)
Theorem packets_overtake :
  let s := Runs.end_of Runs.overtaking in
  map pl_sequence (q_out s) = [0; 2 ^ 32 - 1] /\ quiet s /\ q_disconnected s = false /\ rtc (step 300 0 Runs.key Runs.parallel) Runs.start s.
Proof.
  split; [vm_compute; reflexivity |]. split; [unfold quiet; repeat split; vm_compute; reflexivity |]. split; [vm_compute; reflexivity |].
  apply Runs.run_reachable. vm_compute. reflexivity.
Qed.


End SshReaders.
