(* ===== verification/SshSendQueue.v ===== *)
(** The queue of senders: [_write_ssh_packet] of [ssh/send/send.c] run by many
    threads, with its modes "default", "serial" and "disconnect".

    Every call has a sender on its stack, numbered when it enters the list
    [send->senders]; the numbers of the model do not wrap, the packet has
    their low 32 bits.  The actions of a call between two of its
    synchronisations are one step.  [t_epoch] is the number of key exchanges
    that the encryptor it used belongs to.

    The theorems: packets are handed to the socket in the order of their
    numbers, whatever the threads send; as long as the key exchanges are made
    one at a time, every packet is encrypted with the keys of the last NEWKEYS
    handed over before it, also when the write of that NEWKEYS failed; the
    queue does not lock up. *)
From stdpp Require Import base list option gmap sorting.
From Stdlib Require Import ZArith Lia.
From S2P Require Import Prelude.
Open Scope Z_scope.

Module SshSendQueue.

Inductive mode : Type := Default | Serial | Disconnect.
Inductive mtype : Type := Kexinit | Newkeys | Other.

(** Where a call of [_write_ssh_packet] is: waiting in [queue_sender], about
    to encrypt, encrypted, seen as first by [pre_send_default], holding
    SSH_SEND_FLAG_LOCK, also removed from the list, written, past
    [signal_unlock_flag] of [post_send_serial], failed to encrypt, returned,
    returned with its sender left in the list. *)
Inductive pc : Type :=
  Queued | Ready | Sealed | First | Locked | Removed | Written | Unlocked | Failing | Done | Lost.

#[export] Instance mode_eq_dec : EqDecision mode.
Proof. solve_decision. Defined.
#[export] Instance mtype_eq_dec : EqDecision mtype.
Proof. solve_decision. Defined.
#[export] Instance pc_eq_dec : EqDecision pc.
Proof. solve_decision. Defined.

Record thread : Type := mkThread { t_pc : pc; t_mode : mode; t_type : mtype; t_epoch : Z }.

Definition set_pc (t : thread) (p : pc) : thread := mkThread p (t_mode t) (t_type t) (t_epoch t).
Definition set_epoch (t : thread) (n : Z) : thread := mkThread (t_pc t) (t_mode t) (t_type t) n.

(** A call of [write_ssh_socket]: the number, the type and the keys of the packet,
    and if it could be written. *)
Record sent : Type := mkSent { w_seq : Z; w_type : mtype; w_epoch : Z; w_ok : bool }.

Record state : Type := mkState {
  senders : list Z; sequence_number : Z; set_sender : mode; threads : gmap Z thread;
  flag_lock : option Z; kexctr : Z; wire : list sent }.

Definition init_send : state := mkState [] 0 Serial ∅ None 0 [].

Definition sender_is_first (k : Z) (l : list Z) : bool := bool_decide (head l = Some k).
Definition remove_sender (k : Z) (l : list Z) : list Z := filter (fun j => j <> k) l.

Definition in_list (t : thread) : bool :=
  match t_pc t with
  | Queued | Ready | Sealed | First | Locked | Failing | Unlocked | Lost => true
  | Written => bool_decide (t_mode t = Serial)
  | Removed | Done => false
  end.

Inductive label : Type :=
| Enter (ty : mtype) | Queue (k : Z) | Seal (k : Z) (ok : bool) | See_first (k : Z) | Lock (k : Z)
| Unlist (k : Z) | Write (k : Z) (ok : bool) | Unlock (k : Z) | Finish (k : Z) (kex : bool) | Set_disconnect.

Definition move (s : state) (k : Z) (t : thread) : state :=
  mkState (senders s) (sequence_number s) (set_sender s) (<[k := t]> (threads s)) (flag_lock s) (kexctr s) (wire s).

Definition set_flag (s : state) (f : option Z) : state :=
  mkState (senders s) (sequence_number s) (set_sender s) (threads s) f (kexctr s) (wire s).

Definition unlist (s : state) (k : Z) : state :=
  mkState (remove_sender k (senders s)) (sequence_number s) (set_sender s) (threads s) (flag_lock s) (kexctr s) (wire s).

(** [queue_sender] of the three modes. *)
Definition queue_sender (s : state) (k : Z) (t : thread) : option state :=
  match t_pc t, t_mode t with
  | Queued, Default => Some (move s k (set_pc t Ready))
  | Queued, Serial => if sender_is_first k (senders s) then Some (move s k (set_pc t Ready)) else None
  | Queued, Disconnect => Some (move s k (set_pc t Lost))
  | _, _ => None
  end.

(** [pre_send_default]: wait to be first, take the lock, leave the list. *)
Definition pre_send_wait (s : state) (k : Z) (t : thread) : option state :=
  match t_pc t, t_mode t with
  | Sealed, Default => if sender_is_first k (senders s) then Some (move s k (set_pc t First)) else None
  | _, _ => None
  end.

(** The lock, also of [pre_send_serial]. *)
Definition pre_send_lock (s : state) (k : Z) (t : thread) : option state :=
  match flag_lock s, t_pc t, t_mode t with
  | None, First, Default | None, Sealed, Serial => Some (set_flag (move s k (set_pc t Locked)) (Some k))
  | _, _, _ => None
  end.

Definition pre_send_leave (s : state) (k : Z) (t : thread) : option state :=
  match t_pc t, t_mode t with
  | Locked, Default => Some (unlist (move s k (set_pc t Removed)) k)
  | Failing, _ => Some (unlist (move s k (set_pc t Done)) k)
  | _, _ => None
  end.

(** [post_send_default], and the first part of [post_send_serial]. *)
Definition post_send_unlock (s : state) (k : Z) (t : thread) : option state :=
  match t_pc t, t_mode t with
  | Written, Default => Some (set_flag (move s k (set_pc t Done)) None)
  | Written, Serial => Some (set_flag (move s k (set_pc t Unlocked)) None)
  | _, _ => None
  end.

(** The rest of [post_send_serial]: after NEWKEYS the new keys are put in use, also
    when it could not be written; the queue goes back to the default mode when
    [change_ssh_connection_setup] finds the connection in its key exchange ([kex]). *)
Definition post_send_serial (s : state) (k : Z) (t : thread) (kex : bool) : option state :=
  match t_pc t with
  | Unlocked =>
      let s := unlist (move s k (set_pc t Done)) k in
      Some (match t_type t with
            | Newkeys => mkState (senders s) (sequence_number s) (if kex then Default else set_sender s) (threads s) (flag_lock s) (kexctr s + 1) (wire s)
            | _ => s
            end)
  | _ => None
  end.

(** Entering the list, with the mode of the queue; KEXINIT makes it serial first. *)
Definition enter_sender (s : state) (ty : mtype) : state :=
  let k := sequence_number s in
  let m := match ty with Kexinit => Serial | _ => set_sender s end in
  mkState (senders s ++ [k]) (k + 1) m (<[k := mkThread Queued m ty 0]> (threads s)) (flag_lock s) (kexctr s) (wire s).

(** [_write_ssh_packet], a step of one of its callers. *)
Definition exec (l : label) (s : state) : option state :=
  match l with
  | Enter ty => Some (enter_sender s ty)
  | Queue k => let? t := threads s !! k in queue_sender s k t
  | Seal k ok =>
      let? t := threads s !! k in
      match t_pc t with
      | Ready => Some (move s k (if ok then set_epoch (set_pc t Sealed) (kexctr s) else set_pc t Failing))
      | _ => None
      end
  | See_first k => let? t := threads s !! k in pre_send_wait s k t
  | Lock k => let? t := threads s !! k in pre_send_lock s k t
  | Unlist k => let? t := threads s !! k in pre_send_leave s k t
  | Write k ok =>
      let? t := threads s !! k in
      match t_pc t, t_mode t with
      | Removed, Default | Locked, Serial =>
          let s := move s k (set_pc t Written) in
          Some (mkState (senders s) (sequence_number s) (set_sender s) (threads s) (flag_lock s) (kexctr s)
                  (wire s ++ [mkSent k (t_type t) (t_epoch t) ok]))
      | _, _ => None
      end
  | Unlock k => let? t := threads s !! k in post_send_unlock s k t
  | Finish k kex => let? t := threads s !! k in post_send_serial s k t kex
  | Set_disconnect =>
      Some (mkState (senders s) (sequence_number s) Disconnect (threads s) (flag_lock s) (kexctr s) (wire s))
  end.

#[local] Ltac open_call :=
  cbn [exec]; unfold queue_sender, pre_send_wait, pre_send_lock, pre_send_leave, post_send_unlock, post_send_serial, enter_sender.

Definition step (s s' : state) : Prop := exists l, exec l s = Some s'.

(** A NEWKEYS that is still in the queue, and was not turned away from it. *)
Definition pending_newkeys (t : thread) : Prop := t_type t = Newkeys /\ in_list t = true /\ t_mode t <> Disconnect.

#[export] Instance pending_newkeys_dec t : Decision (pending_newkeys t).
Proof. unfold pending_newkeys. apply _. Defined.

(** Key exchanges made one at a time: a NEWKEYS is sent after the KEXINIT of its
    exchange has made the queue serial, and when no other NEWKEYS is under way. *)
Definition one_exchange (l : label) (s : state) : bool :=
  match l with
  | Enter Newkeys =>
      bool_decide (set_sender s <> Default) && bool_decide (map_Forall (fun _ t => ~ pending_newkeys t) (threads s))
  | _ => true
  end.

Definition kex_step (s s' : state) : Prop := exists l, one_exchange l s = true /\ exec l s = Some s'.

Fixpoint execs (ls : list label) (s : state) : option state :=
  match ls with [] => Some s | l :: ls => let? s := exec l s in execs ls s end.

(** ** The invariant *)

Definition holds (t : thread) : bool := match t_pc t with Locked | Removed | Written => true | _ => false end.

Definition at_head (t : thread) : bool :=
  match t_pc t, t_mode t with
  | First, _ | Locked, _ | Unlocked, _ | Ready, Serial | Sealed, Serial | Written, Serial => true
  | _, _ => false
  end.

Definition out_of_list (t : thread) : bool :=
  match t_pc t, t_mode t with Removed, _ | Written, Default => true | _, _ => false end.

Definition encrypted (t : thread) : bool :=
  match t_pc t with Sealed | First | Locked | Removed => true | _ => false end.

Definition wrote (t : thread) : bool := match t_pc t with Written | Unlocked => true | _ => false end.

Definition mode_ok (t : thread) : bool :=
  match t_pc t, t_mode t with
  | Unlocked, Serial | First, Default | Removed, Default | Lost, Disconnect => true
  | Unlocked, _ | First, _ | Removed, _ | Lost, _ => false
  | (Ready | Sealed | Locked | Written), Disconnect => false
  | _, _ => true
  end.

Definition newkeys_in (w : list sent) : Z := zlen (filter (fun x => w_type x = Newkeys) w).

(** The list, the lock and the wire ... *)
Record queue_inv (s : state) : Prop := {
  i_sorted : StronglySorted Z.lt (senders s);
  i_next k t : threads s !! k = Some t -> k < sequence_number s;
  i_mem k : k ∈ senders s <-> exists t, threads s !! k = Some t /\ in_list t = true;
  i_held k : flag_lock s = Some k -> is_Some (threads s !! k);
  i_flag k t : threads s !! k = Some t -> (flag_lock s = Some k <-> holds t = true);
  i_head k t : threads s !! k = Some t -> at_head t = true -> head (senders s) = Some k;
  i_mode k t : threads s !! k = Some t -> mode_ok t = true;
  i_out k t : threads s !! k = Some t -> out_of_list t = true -> forall j, j ∈ senders s -> k < j;
  i_unlocked k t : threads s !! k = Some t -> t_pc t = Unlocked -> flag_lock s = None;
  i_wire_sorted : StronglySorted Z.lt (map w_seq (wire s));
  i_wire_next w : w ∈ wire s -> w_seq w < sequence_number s;
  i_wire w k t : w ∈ wire s -> threads s !! k = Some t -> t_pc t <> Done ->
    w_seq w < k \/ (w_seq w = k /\ wrote t = true) }.

(** ... and the keys. *)
Record key_inv (s : state) : Prop := {
  i_serial k t : threads s !! k = Some t -> t_type t = Newkeys -> t_mode t <> Default;
  i_new n t : threads s !! n = Some t -> pending_newkeys t ->
    set_sender s <> Default /\
    forall k t', threads s !! k = Some t' -> (n < k -> t_mode t' <> Default) /\ (pending_newkeys t' -> k = n);
  i_epoch k t : threads s !! k = Some t -> encrypted t = true -> t_epoch t = kexctr s;
  i_posted n t : threads s !! n = Some t -> pending_newkeys t -> wrote t = true -> newkeys_in (wire s) = kexctr s + 1;
  i_count : (forall n t, threads s !! n = Some t -> pending_newkeys t -> wrote t = false) ->
    newkeys_in (wire s) = kexctr s;
  i_keys pre w post : wire s = pre ++ w :: post -> w_epoch w = newkeys_in pre }.

Definition inv (s : state) : Prop := queue_inv s /\ key_inv s.

(** A lookup in an updated map is the update or the old lookup. *)
Ltac thr :=
  repeat match goal with
  | H : <[?k := _]> _ !! ?k = Some _ |- _ => rewrite lookup_insert_eq in H; injection H as <-
  | H : <[?k := _]> _ !! ?j = Some _ |- _ =>
      destruct (decide (j = k)) as [->|?];
      [rewrite lookup_insert_eq in H; injection H as <- | rewrite lookup_insert_ne in H by done]
  end.

Lemma inv_init : inv init_send.
Proof.
  split; split; cbn [senders sequence_number set_sender threads flag_lock kexctr wire init_send];
    try (intros * E; by rewrite lookup_empty in E); try (intros * _ E; by rewrite lookup_empty in E); try done.
  - constructor.
  - intros k. rewrite elem_of_nil. split; [done |]. intros (t & E & _). by rewrite lookup_empty in E.
  - constructor.
  - intros w Hw. by apply elem_of_nil in Hw.
  - intros pre w post E. by destruct pre.
Qed.

Lemma pending_same t t' :
  (in_list t' = true -> in_list t = true) -> t_type t' = t_type t -> t_mode t' = t_mode t -> pending_newkeys t' -> pending_newkeys t.
Proof. unfold pending_newkeys. intros Hl -> -> (? & ? & ?). auto. Qed.

Lemma elem_of_remove k j l : j ∈ remove_sender k l <-> j ∈ l /\ j <> k.
Proof. unfold remove_sender. rewrite list_elem_of_filter. tauto. Qed.

Lemma head_remove k j l : head l = Some j -> j <> k -> head (remove_sender k l) = Some j.
Proof. intros Hh Hne. destruct l as [|x l]; [done |]. injection Hh as ->. unfold remove_sender. by rewrite filter_cons_True. Qed.

Lemma StronglySorted_filter l (P : Z -> Prop) `{!forall x, Decision (P x)} :
  StronglySorted Z.lt l -> StronglySorted Z.lt (filter P l).
Proof.
  induction 1 as [|x l Hl IH Hx]; [constructor |]. rewrite filter_cons. destruct (decide (P x)); [| done].
  constructor; [done |]. apply Forall_forall. intros y [_ Hy]%list_elem_of_filter. rewrite Forall_forall in Hx. by apply Hx.
Qed.

(** How a call may change the list and the lock when it goes on from [t] to [t']. *)
Definition list_change (s : state) (k : Z) (t t' : thread) (l' : list Z) : Prop :=
  (l' = senders s /\ in_list t' = in_list t) \/
  (l' = remove_sender k (senders s) /\ in_list t = true /\ in_list t' = false).

Definition flag_change (s : state) (k : Z) (t t' : thread) (f' : option Z) : Prop :=
  (f' = flag_lock s /\ holds t' = holds t) \/
  (flag_lock s = None /\ f' = Some k /\ holds t' = true /\ at_head t' = true) \/
  (holds t = true /\ f' = None /\ holds t' = false).

Section Update.
Variables (s : state) (k : Z) (t t' : thread) (l' : list Z) (f' : option Z).
Hypotheses (Ht : threads s !! k = Some t) (Hlc : list_change s k t t' l') (Hty : t_type t' = t_type t)
  (Hm : t_mode t' = t_mode t) (Hok : mode_ok t' = true).

Lemma list_change_in : in_list t' = true -> in_list t = true.
Proof. destruct Hlc as [(_ & ->)|(_ & ? & ->)]; done. Qed.

Lemma list_change_sub j : j ∈ l' -> j ∈ senders s.
Proof. destruct Hlc as [(-> & _)|(-> & _)]; [done |]. by intros [? _]%elem_of_remove. Qed.

Lemma list_change_mem :
  queue_inv s -> forall j, j ∈ l' <-> exists u, <[k := t']> (threads s) !! j = Some u /\ in_list u = true.
Proof.
  intros I j. destruct (decide (j = k)) as [->|Hne].
  - rewrite lookup_insert_eq. assert (k ∈ senders s <-> in_list t = true) as Hk.
    { rewrite (i_mem _ I). rewrite Ht. split; [by intros (u & [= <-] & ?) | eauto]. }
    destruct Hlc as [(-> & El)|(-> & Hl1 & Hl2)].
    + rewrite Hk, <- El. split; [eauto | by intros (u & [= <-] & ?)].
    + rewrite elem_of_remove. split; [by intros [] |]. intros (u & [= <-] & Hin). congruence.
  - assert (j ∈ l' <-> j ∈ senders s) as ->.
    { split; [apply list_change_sub |]. destruct Hlc as [(-> & _)|(-> & _)]; [done |]. intros ?. by apply elem_of_remove. }
    rewrite (i_mem _ I). by setoid_rewrite lookup_insert_ne.
Qed.

(** A call goes on without a change of the wire. *)
Lemma queue_update m' c' :
  queue_inv s -> flag_change s k t t' f' -> t_pc t <> Done ->
  (at_head t' = true -> head l' = Some k) -> (out_of_list t' = true -> forall j, j ∈ l' -> k < j) ->
  (t_pc t' = Unlocked -> f' = None) -> (t_pc t' <> Done -> wrote t = true -> wrote t' = true) ->
  queue_inv (mkState l' (sequence_number s) m' (<[k := t']> (threads s)) f' c' (wire s)).
Proof.
  intros I Hfc Hd Hhd Hout Hun Hwd. assert (Hmem := list_change_mem I).
  destruct I as [I1 I2 I3 I0 I4 I5 I6 I7 I8 I9 I10 I11].
  split; cbn [senders sequence_number set_sender threads flag_lock kexctr wire]; try done.
  - destruct Hlc as [(-> & _)|(-> & _)]; [done | by apply StronglySorted_filter].
  - intros j u Hj. thr; eauto.
  - intros j Hj. destruct (decide (j = k)) as [->|]; [rewrite lookup_insert_eq; by eexists |]. rewrite lookup_insert_ne by done.
    apply I0. destruct Hfc as [(-> & _)|[(_ & -> & _)|(_ & -> & _)]]; congruence.
  - intros j u Hj. thr.
    + destruct Hfc as [(-> & Eh)|[(E1 & -> & Eh & _)|(E1 & -> & Eh)]]; rewrite Eh; try done. by apply I4.
    + rewrite <- (I4 j u Hj). destruct Hfc as [(-> & _)|[(-> & -> & _)|(E1 & -> & _)]]; [done | split; congruence |].
      apply (I4 k t Ht) in E1. split; congruence.
  - intros j u Hj Hj'. thr; [by apply Hhd |]. specialize (I5 j u Hj Hj'). destruct Hlc as [(-> & _)|(-> & _)]; [done | by apply head_remove].
  - intros j u Hj. thr; eauto.
  - intros j u Hj Hj' i Hi. thr; [by apply Hout | apply (I7 j u); auto using list_change_sub].
  - intros j u Hj Hj'. thr; [by apply Hun |]. assert (Hn := I8 j u Hj Hj').
    destruct Hfc as [(-> & _)|[(_ & -> & _ & Eh)|(_ & -> & _)]]; [done | | done]. exfalso.
    assert (head (senders s) = Some j) as Hhj by (apply (I5 j u Hj); unfold at_head; by rewrite Hj').
    specialize (Hhd Eh). destruct Hlc as [(-> & _)|(-> & _)]; [congruence |].
    rewrite (head_remove k j) in Hhd by done. congruence.
  - intros w j u Hin Hj Hp. thr; [| by apply (I11 w j u)]. destruct (I11 w k t Hin Ht Hd) as [|[? ?]]; [by left | right; auto].
Qed.

Lemma key_update :
  key_inv s -> wrote t' = wrote t \/ t_type t <> Newkeys -> (encrypted t' = true -> t_epoch t' = kexctr s) ->
  key_inv (mkState l' (sequence_number s) (set_sender s) (<[k := t']> (threads s)) f' (kexctr s) (wire s)).
Proof.
  intros [Iser I12 I13 I14 I15 I16] Hww He.
  assert (pending_newkeys t' -> pending_newkeys t) as Hp' by (apply pending_same; [apply list_change_in | done ..]).
  split; cbn [senders sequence_number set_sender threads flag_lock kexctr wire]; try done.
  - intros j u Hj. thr; [rewrite Hty, Hm |]; eauto.
  - intros n u Hn Hp. thr.
    + destruct (I12 k t Ht) as [Hs Hall]; [auto |]. split; [done |]. intros j u Hj. thr; [split; [lia | done] | by apply Hall].
    + destruct (I12 n u Hn Hp) as [Hs Hall]. split; [done |]. intros j v Hj. thr; [| by apply Hall].
      destruct (Hall k t Ht) as [H1 H2]. rewrite Hm. split; [done | auto].
  - intros j u Hj Hj'. thr; eauto.
  - intros n u Hn Hp Hwr. thr; [| by apply (I14 n u)].
    destruct Hww as [Hww|Hn']; [| by destruct Hp; congruence]. apply (I14 k t Ht); [auto | congruence].
  - intros Hnone. apply I15. intros n u Hn Hp. destruct (decide (n = k)) as [->|].
    + rewrite Ht in Hn. injection Hn as <-. destruct Hww as [Hww|Hn']; [| by destruct Hp]. rewrite <- Hww.
      destruct (wrote t') eqn:Ew; [| done]. rewrite <- Ew. apply (Hnone k t'); [by rewrite lookup_insert_eq |].
      destruct Hp as (Hp1 & Hp2 & Hp3). split; [congruence |]. split; [| congruence].
      destruct Hlc as [(_ & ->)|(_ & _ & Hl2)]; [done |]. exfalso. assert (Hnd := Iser k t Ht Hp1). rewrite <- Hm in Hnd, Hp3.
      unfold wrote, in_list in Ew, Hl2. destruct (t_pc t'), (t_mode t'); done.
    + apply (Hnone n u); [by rewrite lookup_insert_ne | done].
Qed.

End Update.

(** The threads of the list after one that is at its head have larger numbers. *)
Lemma head_least s k j : queue_inv s -> head (senders s) = Some k -> j ∈ senders s -> j <> k -> k < j.
Proof.
  intros I Hh Hj Hne. assert (Hs := i_sorted _ I). destruct (senders s) as [|x l]; [done |]. injection Hh as ->.
  apply StronglySorted_inv in Hs as [_ Hs]. rewrite Forall_forall in Hs. apply elem_of_cons in Hj as [|Hj]; [done |]. by apply Hs.
Qed.

(** At most one call holds the lock. *)
Lemma holder_unique s j k u t :
  queue_inv s -> threads s !! j = Some u -> threads s !! k = Some t -> holds u = true -> holds t = true -> j = k.
Proof. intros I Hj Hk Hu Ht. apply (i_flag _ I j u Hj) in Hu. apply (i_flag _ I k t Hk) in Ht. congruence. Qed.

(** Nobody else is past the queue when a call writes. *)
Lemma no_other_posting s k t n u :
  queue_inv s -> threads s !! k = Some t -> holds t = true -> wrote t = false ->
  threads s !! n = Some u -> wrote u = false.
Proof.
  intros I Hk Hh Hw Hn. destruct (wrote u) eqn:Eu; [| done]. exfalso.
  destruct (t_pc u) eqn:Ep; unfold wrote in Eu; rewrite Ep in Eu; try done.
  - assert (n = k) as -> by (apply (holder_unique s n k u t I Hn Hk); [unfold holds; by rewrite Ep | done]).
    rewrite Hk in Hn. injection Hn as ->. unfold wrote in Hw. by rewrite Ep in Hw.
  - assert (flag_lock s = None) as E1 by (by apply (i_unlocked _ I n u Hn)).
    apply (i_flag _ I k t Hk) in Hh. congruence.
Qed.

Lemma newkeys_in_app a b : newkeys_in (a ++ b) = newkeys_in a + newkeys_in b.
Proof. unfold newkeys_in. by rewrite filter_app, zlen_app. Qed.

Lemma newkeys_in_one k ty e ok : newkeys_in [mkSent k ty e ok] = if decide (ty = Newkeys) then 1 else 0.
Proof. unfold newkeys_in. rewrite filter_cons. cbn. by destruct (decide (ty = Newkeys)). Qed.

(** A call that writes is the least of those under way. *)
Lemma writer_first s k t :
  queue_inv s -> threads s !! k = Some t ->
  (t_pc t = Removed /\ t_mode t = Default) \/ (t_pc t = Locked /\ t_mode t = Serial) ->
  forall j u, threads s !! j = Some u -> t_pc u <> Done -> j <> k -> k < j.
Proof.
  intros I Ht Hc j u Hj Hp Hne. assert (holds t = true) as Hh by (unfold holds; by destruct Hc as [[-> _]|[-> _]]).
  assert (j ∈ senders s \/ holds u = true) as [Hin|Hhu].
  - destruct (in_list u) eqn:Ei; [left; apply (i_mem _ I); eauto | right].
    unfold in_list, holds in *. by destruct (t_pc u).
  - destruct Hc as [[Ep Emo]|[Ep Emo]].
    + apply (i_out _ I k t Ht); [unfold out_of_list; by rewrite Ep | done].
    + apply (head_least s); try done. apply (i_head _ I k t Ht). unfold at_head. by rewrite Ep.
  - exfalso. apply Hne. by apply (holder_unique s j k u t).
Qed.

Section Writing.
Variables (s : state) (k : Z) (t : thread) (ok : bool).
Hypotheses (I : queue_inv s) (Ht : threads s !! k = Some t)
  (Hc : (t_pc t = Removed /\ t_mode t = Default) \/ (t_pc t = Locked /\ t_mode t = Serial)).

Let t' := set_pc t Written.
Let s' := mkState (senders s) (sequence_number s) (set_sender s) (<[k := t']> (threads s)) (flag_lock s)
            (kexctr s) (wire s ++ [mkSent k (t_type t) (t_epoch t) ok]).

Lemma write_same :
  holds t = true /\ wrote t = false /\ t_pc t <> Done /\ encrypted t = true /\ in_list t' = in_list t /\
  out_of_list t' = out_of_list t /\ mode_ok t' = mode_ok t /\ (at_head t' = true -> at_head t = true).
Proof. destruct t as [p m ty e]. cbn in *. destruct Hc as [[-> ->]|[-> ->]]; cbn; repeat split; try done. Qed.

Lemma queue_write : queue_inv s'.
Proof.
  destruct write_same as (Hh & Hw & Hd & Hen & El & Eo & Em & Eh). assert (Hbefore := writer_first s k t I Ht Hc).
  assert (forall w, w ∈ wire s -> w_seq w < k) as Hlt.
  { intros w Hin. destruct (i_wire _ I w k t Hin Ht Hd) as [|[_ E]]; [done | congruence]. }
  destruct I as [I1 I2 I3 I0 I4 I5 I6 I7 I8 I9 I10 I11].
  split; cbn [senders sequence_number set_sender threads flag_lock kexctr wire s']; try done.
  - intros j u Hj. thr; eauto.
  - intros j. rewrite I3. destruct (decide (j = k)) as [->|Hne]; [| by setoid_rewrite lookup_insert_ne].
    split; intros (u & Hu & Hin); [rewrite Ht in Hu; injection Hu as <-; exists t'; by rewrite lookup_insert_eq, El |].
    thr. exists t. by rewrite <- El.
  - intros j Hj. destruct (decide (j = k)) as [->|]; [rewrite lookup_insert_eq; by eexists |]. rewrite lookup_insert_ne by done. by apply I0.
  - intros j u Hj. thr; [| by apply I4]. rewrite (I4 k t Ht). split; done.
  - intros j u Hj Hj'. thr; [apply (I5 k t Ht); auto | eauto].
  - intros j u Hj. thr; [rewrite Em |]; eauto.
  - intros j u Hj Hj'. thr; [apply (I7 k t Ht); congruence | eauto].
  - intros j u Hj Hj'. thr; [done | eauto].
  - rewrite map_app. cbn. apply StronglySorted_app_2; [| done | by repeat constructor].
    intros x y Hx Hy. apply list_elem_of_singleton in Hy as ->. apply list_elem_of_fmap in Hx as (w & -> & Hw'). by apply Hlt.
  - intros w [Hin|Hin]%elem_of_app; [by apply I10 |]. apply list_elem_of_singleton in Hin as ->. cbn. by apply (I2 k t).
  - intros w j u [Hin|Hin]%elem_of_app Hj Hp.
    + thr; [left; by apply Hlt | by apply (I11 w j u)].
    + apply list_elem_of_singleton in Hin as ->. cbn. thr; [by right | left; by apply (Hbefore j u)].
Qed.

Lemma key_write : key_inv s -> key_inv s'.
Proof.
  intros K. destruct write_same as (Hh & Hw & Hd & Hen & El & Eo & Em & Eh).
  assert (newkeys_in (wire s) = kexctr s) as Hcnt.
  { apply (i_count _ K). intros n u Hn _. by apply (no_other_posting s k t n u). }
  assert (t_epoch t = kexctr s) as Hep by (by apply (i_epoch _ K k t Ht)).
  assert (forall n u, threads s !! n = Some u -> wrote u = false) as Hno by (intros n u; by apply (no_other_posting s k t)).
  assert (pending_newkeys t' -> pending_newkeys t) as Hpp by (apply pending_same; [by rewrite El | done ..]).
  assert (Hnew := i_new _ K). destruct K as [Iser _ I13 I14 I15 I16].
  split; cbn [senders sequence_number set_sender threads flag_lock kexctr wire s'].
  - intros j u Hj. thr; [apply (Iser k t Ht) | eauto].
  - intros n u Hn Hp. thr.
    + destruct (Hnew k t Ht (Hpp Hp)) as [Hs Hall]. split; [done |].
      intros j v Hj. thr; [split; [lia | done] | by apply Hall].
    + destruct (Hnew n u Hn Hp) as [Hs Hall]. split; [done |]. intros j v Hj. thr; [| by apply Hall].
      destruct (Hall k t Ht) as [H1 H2]. split; [done | auto].
  - intros j u Hj Hj'. thr; [done | eauto].
  - intros n u Hn Hp Hwr. rewrite newkeys_in_app, newkeys_in_one, Hcnt. thr.
    + destruct Hp as [Hp _]. cbn in Hp. by rewrite decide_True.
    + by rewrite (Hno n u) in Hwr.
  - intros Hnone. rewrite newkeys_in_app, newkeys_in_one, Hcnt. destruct (decide (t_type t = Newkeys)) as [E|E]; [| lia].
    assert (t_mode t = Serial) as Hms by (assert (Hnd := Iser k t Ht E); destruct Hc as [[_ ?]|[_ ?]]; congruence).
    specialize (Hnone k t'). rewrite lookup_insert_eq in Hnone. specialize (Hnone eq_refl).
    assert (wrote t' = false); [| done]. apply Hnone. split; [done |]. change (t_mode t') with (t_mode t).
    rewrite Hms. split; [| done]. unfold in_list, t'. cbn. by rewrite Hms.
  - intros pre w post E. destruct (decide (post = [])) as [->|Hpost].
    + apply app_inj_tail in E as [<- <-]. cbn. congruence.
    + destruct (exists_last Hpost) as (post' & x & ->). rewrite app_comm_cons, app_assoc in E.
      apply app_inj_tail in E as [E _]. by apply (I16 pre w post').
Qed.

End Writing.

Section Entering.
Variables (s : state) (ty : mtype).
Hypothesis I : queue_inv s.

Let k := sequence_number s.
Let m := match ty with Kexinit => Serial | _ => set_sender s end.
Let t := mkThread Queued m ty 0.

Lemma enter_new : threads s !! k = None.
Proof. destruct (threads s !! k) as [u|] eqn:E; [| done]. apply (i_next _ I) in E. unfold k in E. lia. Qed.

Lemma queue_enter : queue_inv (enter_sender s ty).
Proof.
  assert (Hnone := enter_new).
  assert (forall j u, threads s !! j = Some u -> j < k) as Hlt by (intros j u; apply (i_next _ I)).
  assert (forall j, j ∈ senders s -> j < k) as Hin by (intros j (u & Hj & _)%(i_mem _ I); by apply (Hlt j u)).
  destruct I as [I1 I2 I3 I0 I4 I5 I6 I7 I8 I9 I10 I11].
  split; unfold enter_sender; fold k m t; cbn [senders sequence_number set_sender threads flag_lock kexctr wire]; try done.
  - apply StronglySorted_app_2; [| done | by repeat constructor]. intros x y Hx Hy. apply list_elem_of_singleton in Hy as ->. by apply Hin.
  - intros j u Hj. thr; [lia |]. specialize (Hlt j u Hj). lia.
  - intros j. rewrite elem_of_app, list_elem_of_singleton. destruct (decide (j = k)) as [->|Hne].
    + split; [| by right]. intros _. exists t. by rewrite lookup_insert_eq.
    + rewrite I3. setoid_rewrite lookup_insert_ne; [| done ..]. tauto.
  - intros j Hj. destruct (I0 j Hj) as [u Hu]. destruct (decide (j = k)) as [->|]; [congruence |]. rewrite lookup_insert_ne by done. by eexists.
  - intros j u Hj. thr; [| by apply I4]. split; [| done]. intros Hf. destruct (I0 k Hf) as [u Hu]. congruence.
  - intros j u Hj Hj'. thr; [done |]. specialize (I5 j u Hj Hj'). by destruct (senders s).
  - intros j u Hj. thr; [done | eauto].
  - intros j u Hj Hj' i Hi. thr; [done |]. apply elem_of_app in Hi as [Hi|Hi]; [by apply (I7 j u) |].
    apply list_elem_of_singleton in Hi as ->. by apply (Hlt j u).
  - intros j u Hj Hj'. thr; [done | eauto].
  - intros w Hw. specialize (I10 w Hw). unfold k. lia.
  - intros w j u Hw Hj Hp. thr; [left; by apply I10 | by apply (I11 w j u)].
Qed.

Lemma key_enter : key_inv s -> one_exchange (Enter ty) s = true -> key_inv (enter_sender s ty).
Proof.
  intros K Hme. assert (Hnone := enter_new).
  assert (forall j u, threads s !! j = Some u -> j < k) as Hlt by (intros j u; apply (i_next _ I)).
  assert (ty = Newkeys -> m <> Default /\ forall n u, threads s !! n = Some u -> ~ pending_newkeys u) as Hnk.
  { intros ->. apply andb_true_iff in Hme as [H1%bool_decide_eq_true H2%bool_decide_eq_true]. split; [done |].
    intros n u Hn. by apply (H2 n u). }
  destruct K as [Iser I12 I13 I14 I15 I16].
  split; unfold enter_sender; fold k m t; cbn [senders sequence_number set_sender threads flag_lock kexctr wire]; try done.
  - intros j u Hj Hty. thr; [by apply Hnk | eauto].
  - intros n u Hn Hp. thr.
    + destruct Hp as [Hty _]. destruct (Hnk Hty) as [Em Hall]. split; [done |]. intros j v Hj. thr; [split; [lia | done] |].
      split; [specialize (Hlt j v Hj); lia |]. intros Hp. by destruct (Hall j v Hj).
    + destruct (I12 n u Hn Hp) as [Hs Hall]. assert (m <> Default) as Hm by (unfold m; by destruct ty). split; [done |].
      intros j v Hj. thr; [| by apply Hall]. split; [done |]. intros [Hty _]. by destruct (Hnk Hty) as [_ Hno]; destruct (Hno n u Hn).
  - intros j u Hj Hj'. thr; [done | eauto].
  - intros n u Hn Hp Hwr. thr; [done | by apply (I14 n u)].
  - intros Hno. apply I15. intros n u Hn Hp. apply (Hno n u); [| done]. rewrite lookup_insert_ne; [done |]. intros ->. congruence.
Qed.

End Entering.

Section Switching.
Variables (s : state) (k : Z) (t : thread) (m' : mode).
Hypotheses (I : queue_inv s) (Ht : threads s !! k = Some t) (Hpc : t_pc t = Unlocked) (Hty : t_type t = Newkeys).

Let s' := mkState (remove_sender k (senders s)) (sequence_number s) m' (<[k := set_pc t Done]> (threads s)) (flag_lock s)
            (kexctr s + 1) (wire s).

Lemma queue_finish : queue_inv s'.
Proof.
  assert (Hm := i_mode _ I k t Ht). apply (queue_update s k t (set_pc t Done)); try done.
  - right. split; [done |]. split; [unfold in_list; by rewrite Hpc | done].
  - left. split; [done |]. unfold holds. by rewrite Hpc.
  - congruence.
Qed.

(** Nobody else has encrypted a packet when the keys are replaced. *)
Lemma none_encrypted : key_inv s -> forall j u, threads s !! j = Some u -> j <> k -> encrypted u = false.
Proof.
  intros K j u Hj Hne. destruct (encrypted u) eqn:E; [| done]. exfalso. assert (Hmk := i_mode _ I k t Ht).
  assert (pending_newkeys t) as Hpend.
  { split; [done |]. unfold in_list, mode_ok in *. rewrite Hpc in *. split; [done |]. by destruct (t_mode t). }
  assert (head (senders s) = Some k) as Hhead by (apply (i_head _ I k t Ht); unfold at_head; by rewrite Hpc).
  destruct (i_new _ K k t Ht Hpend) as [_ Hall]. destruct (Hall j u Hj) as [Hserial _].
  assert (flag_lock s = None) as Hfree by (by apply (i_unlocked _ I k t)).
  assert (Hm := i_mode _ I j u Hj).
  destruct (decide (j ∈ senders s)) as [Hin|Hin].
  - assert (k < j) as Hkj by (by apply (head_least s)). specialize (Hserial Hkj).
    assert (head (senders s) = Some j) as Hhj; [| congruence]. apply (i_head _ I j u Hj).
    unfold at_head, encrypted, mode_ok in *. by destruct (t_pc u), (t_mode u).
  - assert (holds u = true) as Hho.
    { destruct (holds u) eqn:Eh; [done |]. exfalso. apply Hin. apply (i_mem _ I). exists u. split; [done |].
      unfold holds, encrypted, in_list in *. by destruct (t_pc u). }
    apply (i_flag _ I j u Hj) in Hho. congruence.
Qed.

Lemma key_finish : key_inv s -> key_inv s'.
Proof.
  intros K. assert (Hnoenc := none_encrypted K). assert (Hm := i_mode _ I k t Ht).
  assert (pending_newkeys t) as Hpend.
  { split; [done |]. unfold in_list, mode_ok in *. rewrite Hpc in *. split; [done |]. by destruct (t_mode t). }
  destruct (i_new _ K k t Ht Hpend) as [_ Huniq].
  assert (newkeys_in (wire s) = kexctr s + 1) as Hcnt by (apply (i_posted _ K k t); try done; unfold wrote; by rewrite Hpc).
  assert (forall n u, <[k := set_pc t Done]> (threads s) !! n = Some u -> ~ pending_newkeys u) as Hnone.
  { intros n u Hn Hp. thr; [by destruct Hp as (_ & Hp & _) |]. destruct (Huniq n u Hn) as [_ Hu]. specialize (Hu Hp). congruence. }
  destruct K as [Iser I12 I13 I14 I15 I16].
  split; cbn [senders sequence_number set_sender threads flag_lock kexctr wire s']; try done.
  - intros j u Hj. thr; [apply (Iser k t Ht) | eauto].
  - intros n u Hn Hp. by destruct (Hnone n u Hn).
  - intros j u Hj Hj'. thr; [done |]. by rewrite (Hnoenc j u) in Hj'.
  - intros n u Hn Hp. by destruct (Hnone n u Hn).
Qed.

End Switching.

(** ** Every step keeps the invariant *)

(** A step keeps the invariant of the queue, and that of the keys with it. *)
Definition keeps (s s' : state) : Prop := queue_inv s' /\ (key_inv s -> key_inv s').

(** A step of the call [k] that only moves its thread, or also takes it off the
    list or changes the lock: the side conditions are computed from where it is. *)
Lemma inv_go s k t t' l' f' :
  queue_inv s -> threads s !! k = Some t -> list_change s k t t' l' -> flag_change s k t t' f' ->
  t_type t' = t_type t -> t_mode t' = t_mode t -> t_pc t <> Done -> mode_ok t' = true ->
  (at_head t' = true -> head l' = Some k) -> (out_of_list t' = true -> forall j, j ∈ l' -> k < j) ->
  (t_pc t' = Unlocked -> f' = None) -> (t_pc t' <> Done -> wrote t = true -> wrote t' = true) ->
  wrote t' = wrote t \/ t_type t <> Newkeys \/ t_mode t = Default -> (encrypted t' = true -> t_epoch t' = kexctr s \/ encrypted t = true /\ t_epoch t' = t_epoch t) ->
  keeps s (mkState l' (sequence_number s) (set_sender s) (<[k := t']> (threads s)) f' (kexctr s) (wire s)).
Proof.
  intros IQ Ht Hlc Hfc Hty Hm Hd Hok Hhd Hout Hun Hwd Hww He.
  split; [by apply (queue_update s k t t') |]. intros K. apply (key_update s k t t'); try done.
  - destruct Hww as [|[|Hdef]]; [by left | by right |]. right. intros Hn. by apply (i_serial _ K k t Ht).
  - intros Hen. destruct (He Hen) as [|[He1 ->]]; [done | by apply (i_epoch _ K k t Ht)].
Qed.

Lemma send_inv_step l s s' :
  queue_inv s -> exec l s = Some s' -> queue_inv s' /\ (key_inv s -> one_exchange l s = true -> key_inv s').
Proof.
  intros IQ E. enough (match l with Enter _ => True | _ => keeps s s' end) as H.
  { destruct l; try (destruct H as [? H]; auto). injection E as <-. split; [by apply queue_enter | intros; by apply key_enter]. }
  revert E. destruct l as [ty|k|k ok|k|k|k|k ok|k|k kex|]; open_call; [done |..].
  - destruct (threads s !! k) as [[p m ty e]|] eqn:Ht; [| done]. opt. cbn [t_pc t_mode].
    assert (Hm := i_mode _ IQ k _ Ht). destruct p, m; try done.
    + intros [= <-]. unfold move. eapply (inv_go s k); try done; by left.
    + unfold sender_is_first. case_bool_decide as Hf; [| done]. intros [= <-]. unfold move.
      eapply (inv_go s k); try done; by left.
    + intros [= <-]. unfold move. eapply (inv_go s k); try done; by left.
  - destruct (threads s !! k) as [[p m ty e]|] eqn:Ht; [| done]. opt. cbn [t_pc].
    assert (Hm := i_mode _ IQ k _ Ht). assert (Hh := i_head _ IQ k _ Ht). destruct p; try done. intros [= <-]. unfold move.
    destruct ok; destruct m; try done; eapply (inv_go s k); try done; by left.
  - destruct (threads s !! k) as [[p m ty e]|] eqn:Ht; [| done]. opt. cbn [t_pc t_mode].
    assert (Hm := i_mode _ IQ k _ Ht). destruct p, m; try done.
    unfold sender_is_first. case_bool_decide as Hf; [| done]. intros [= <-]. unfold move.
    eapply (inv_go s k); try done; try (by left); by right.
  - destruct (threads s !! k) as [[p m ty e]|] eqn:Ht; [| done]. opt. cbn [t_pc t_mode].
    assert (Hm := i_mode _ IQ k _ Ht). assert (Hh := i_head _ IQ k _ Ht).
    destruct (flag_lock s) eqn:Hf; [done |]. destruct p, m; try done; intros [= <-]; unfold set_flag, move; cbn;
      eapply (inv_go s k); try done; try (by left); try (by right); right; left; done.
  - destruct (threads s !! k) as [[p m ty e]|] eqn:Ht; [| done]. opt. cbn [t_pc t_mode].
    assert (Hm := i_mode _ IQ k _ Ht). assert (Hh := i_head _ IQ k _ Ht).
    assert (forall j, j ∈ remove_sender k (senders s) -> head (senders s) = Some k -> k < j) as Hlt.
    { intros j [Hj Hne]%elem_of_remove Hk. by apply (head_least s). }
    destruct p; try done; destruct m; try done; intros [= <-]; unfold unlist, move; cbn;
      eapply (inv_go s k); try done; try (by left); try (by right); auto.
  - destruct (threads s !! k) as [t|] eqn:Ht; [| done]. opt. destruct (t_pc t) eqn:Ep, (t_mode t) eqn:Em; try done;
      intros [= <-]; cbn; split; [apply (queue_write s k t) | apply (key_write s k t) | apply (queue_write s k t) | apply (key_write s k t)]; auto.
  - destruct (threads s !! k) as [[p m ty e]|] eqn:Ht; [| done]. opt. cbn [t_pc t_mode].
    assert (Hm := i_mode _ IQ k _ Ht). assert (Hh := i_head _ IQ k _ Ht).
    destruct p, m; try done; intros [= <-]; unfold set_flag, move; cbn;
      eapply (inv_go s k); try done; try (by left); try (right; right; done).
  - destruct (threads s !! k) as [t|] eqn:Ht; [| done]. opt. destruct (t_pc t) eqn:Ep; try done.
    assert (Hm := i_mode _ IQ k _ Ht). destruct (t_type t) eqn:Ety; intros [= <-]; unfold unlist, move; cbn.
    2: split; [by apply queue_finish | by apply key_finish].
    all: destruct t as [p m ty e]; cbn in *; subst; destruct m; try done;
      eapply (inv_go s k); try done; try (by left); try (by right); right; by left.
  - intros [= <-]. split; [by destruct IQ |]. intros [Iser I12 I13 I14 I15 I16]. split; cbn; try done.
    intros n t Hn Hp. destruct (I12 n t Hn Hp) as [_ Hall]. by split.
Qed.

Lemma queue_reachable s : rtc step init_send s -> queue_inv s.
Proof.
  intros Hr. remember init_send as s0. assert (queue_inv s0) as I by (subst; apply inv_init). clear Heqs0.
  induction Hr as [|s0 s1 s2 [l Hl] _ IH]; [done |]. apply IH. by apply (send_inv_step l s0 s1).
Qed.

Lemma keys_reachable s : rtc kex_step init_send s -> key_inv s.
Proof.
  intros Hr. remember init_send as s0. assert (inv s0) as [I K] by (subst; apply inv_init). clear Heqs0.
  induction Hr as [|s0 s1 s2 (l & Hd & Hl) _ IH]; [done |]. destruct (send_inv_step l s0 s1 I Hl) as [I1 K1]. auto.
Qed.

Lemma execs_reachable ls s s' : execs ls s = Some s' -> rtc step s s'.
Proof.
  revert s. induction ls as [|l ls IH]; cbn; intros s; [by intros [= <-] |].
  destruct (exec l s) as [s1|] eqn:E; [| done]. opt. intros H. eapply rtc_l; [by exists l | by apply IH].
Qed.


(** ** The queue is emptied *)

(** The most steps that a call has before it returns. *)
Definition rank (p : pc) : nat :=
  match p with
  | Queued => 8 | Ready => 7 | Sealed => 6 | First => 5 | Locked => 4 | Removed => 3 | Written => 2
  | Unlocked | Failing => 1 | Done | Lost => 0
  end.

Definition work (m : gmap Z thread) : nat := map_fold (fun _ t n => (rank (t_pc t) + n)%nat) 0%nat m.

Lemma work_insert m k t t' :
  m !! k = Some t -> (work (<[k := t']> m) + rank (t_pc t) = work m + rank (t_pc t'))%nat.
Proof.
  intros Hk. unfold work. rewrite <- (insert_delete_id m k t Hk) at 2. rewrite <- insert_delete_eq.
  rewrite !map_fold_insert_L; try (intros; lia); apply lookup_delete_eq.
Qed.

(** The labels of the calls that are under way. *)
Definition own (l : label) : bool := match l with Enter _ | Set_disconnect => false | _ => true end.

Lemma own_step_work l s s' : own l = true -> exec l s = Some s' -> (work (threads s') < work (threads s))%nat.
Proof.
  destruct l as [ty|k|k ok|k|k|k|k ok|k|k kex|]; try done; intros _; open_call;
    (destruct (threads s !! k) as [[p m ty e]|] eqn:Ht; [| done]); opt; cbn [t_pc t_mode t_type];
    intros E; repeat (case_match; try done); simplify_eq; cbn;
    match goal with |- (work (<[_ := ?t']> _) < _)%nat => pose proof (work_insert _ _ _ t' Ht); cbn in *; lia end.
Qed.

(** Some call can go on as long as one is under way. *)
Lemma own_step_enabled s k t :
  queue_inv s -> (forall j u, threads s !! j = Some u -> t_mode u <> Disconnect) ->
  threads s !! k = Some t -> t_pc t <> Done -> exists l s', own l = true /\ exec l s = Some s'.
Proof.
  intros IQ Hnd Hk Hp. destruct (flag_lock s) as [h|] eqn:Hf.
  - destruct (i_held _ IQ h Hf) as [u Hu]. assert (Hhold := proj1 (i_flag _ IQ h u Hu) Hf).
    assert (Hm := i_mode _ IQ h u Hu). specialize (Hnd h u Hu). destruct u as [p m ty e]. cbn in *.
    unfold holds, mode_ok in *. cbn in *. destruct p, m; try done.
    + exists (Unlist h). eexists. split; [done |]. open_call. by rewrite Hu.
    + exists (Write h true). eexists. split; [done |]. open_call. by rewrite Hu.
    + exists (Write h true). eexists. split; [done |]. open_call. by rewrite Hu.
    + exists (Unlock h). eexists. split; [done |]. open_call. by rewrite Hu.
    + exists (Unlock h). eexists. split; [done |]. open_call. by rewrite Hu.
  - assert (exists h u, head (senders s) = Some h /\ threads s !! h = Some u /\ in_list u = true) as (h & u & Hh & Hu & Hin).
    { assert (k ∈ senders s) as Hks.
      { apply (i_mem _ IQ). exists t. split; [done |]. assert (Hnh := i_flag _ IQ k t Hk). rewrite Hf in Hnh.
        destruct (in_list t) eqn:Ei; [done |]. assert (holds t = true) as Hht; [| by apply Hnh in Hht].
        unfold holds, in_list in *. by destruct (t_pc t). }
      destruct (senders s) as [|h l] eqn:El; [by apply elem_of_nil in Hks |].
      destruct (proj1 (i_mem _ IQ h)) as (u & Hu & Hin); [rewrite El; by left |]. by exists h, u. }
    assert (Hm := i_mode _ IQ h u Hu). assert (Hnh := i_flag _ IQ h u Hu). rewrite Hf in Hnh.
    specialize (Hnd h u Hu). destruct u as [p m ty e]. cbn in *. unfold holds, mode_ok, in_list in *. cbn in *.
    assert (sender_is_first h (senders s) = true) as Hfirst by (unfold sender_is_first; by rewrite bool_decide_eq_true).
    destruct p; try (by destruct Hnh as [_ Hnh]; discriminate (Hnh eq_refl)); destruct m; try done.
    + exists (Queue h). eexists. split; [done |]. open_call. by rewrite Hu.
    + exists (Queue h). eexists. split; [done |]. open_call. rewrite Hu. opt. cbn. by rewrite Hfirst.
    + exists (Seal h true). eexists. split; [done |]. open_call. by rewrite Hu.
    + exists (Seal h true). eexists. split; [done |]. open_call. by rewrite Hu.
    + exists (See_first h). eexists. split; [done |]. open_call. rewrite Hu. opt. cbn. by rewrite Hfirst.
    + exists (Lock h). eexists. split; [done |]. open_call. by rewrite Hu, Hf.
    + exists (Lock h). eexists. split; [done |]. open_call. by rewrite Hu, Hf.
    + exists (Finish h true). eexists. split; [done |]. open_call. by rewrite Hu.
    + exists (Unlist h). eexists. split; [done |]. open_call. by rewrite Hu.
    + exists (Unlist h). eexists. split; [done |]. open_call. by rewrite Hu.
Qed.

Lemma own_step_modes l s s' :
  own l = true -> exec l s = Some s' -> (forall j u, threads s !! j = Some u -> t_mode u <> Disconnect) ->
  forall j u, threads s' !! j = Some u -> t_mode u <> Disconnect.
Proof.
  destruct l as [ty|k|k ok|k|k|k|k ok|k|k kex|]; try done; intros _; open_call;
    (destruct (threads s !! k) as [[p m ty e]|] eqn:Ht; [| done]); opt; cbn [t_pc t_mode t_type];
    intros E; repeat (case_match; try done); simplify_eq; cbn; intros Hnd j u Hj; specialize (Hnd k _ Ht) as Hk; thr; eauto.
Qed.

(** the queue does not lock up: from every state that threads can reach,
    as long as the queue was not set to "disconnect", the calls under way can
    all be completed, after which the list of senders is empty and the lock is
    free; no new call is needed for that. *)
Theorem senders_complete s :
  rtc step init_send s -> (forall k t, threads s !! k = Some t -> t_mode t <> Disconnect) ->
  exists ls s', Forall (fun l => own l = true) ls /\ execs ls s = Some s' /\
    (forall k t, threads s' !! k = Some t -> t_pc t = Done) /\ senders s' = [] /\ flag_lock s' = None.
Proof.
  intros I%queue_reachable. remember (work (threads s)) as n eqn:Hn. revert s I Hn.
  induction (lt_wf n) as [n _ IH]. intros s I -> Hnd.
  destruct (decide (map_Forall (fun _ t => t_pc t = Done) (threads s))) as [Hall|Hsome].
  - exists [], s. split; [done |]. split; [done |]. split; [exact Hall |]. split.
    + destruct (senders s) as [|k l] eqn:E; [done |]. destruct (proj1 (i_mem _ I k)) as (t & Ht & Hin); [rewrite E; by left |].
      specialize (Hall k t Ht). unfold in_list in Hin. by rewrite Hall in Hin.
    + destruct (flag_lock s) as [k|] eqn:E; [| done]. destruct (i_held _ I k E) as [t Ht].
      apply (i_flag _ I k t Ht) in E. specialize (Hall k t Ht). unfold holds in E. by rewrite Hall in E.
  - apply map_not_Forall in Hsome as (k & t & Hk & Hp); [| apply _].
    destruct (own_step_enabled s k t I Hnd Hk Hp) as (l & s1 & Hl & E).
    destruct (IH (work (threads s1)) (own_step_work l s s1 Hl E) s1) as (ls & s2 & Hls & E2 & Hrest); try done.
    + by apply (send_inv_step l s s1).
    + by eapply own_step_modes.
    + exists (l :: ls), s2. split; [by constructor |]. split; [cbn; by rewrite E | done].
Qed.

(** a call that finds the queue set to "disconnect" returns with its sender,
    which lives on its stack, still in the list: no step of any thread takes
    it out again. *)
Theorem disconnected_sender_stays s s' k t :
  rtc step init_send s -> threads s !! k = Some t -> t_pc t = Lost -> rtc step s s' -> k ∈ senders s'.
Proof.
  intros I%queue_reachable Ht Hp Hr. enough (exists u, threads s' !! k = Some u /\ t_pc u = Lost /\ queue_inv s') as (u & Hu & Hl & I').
  { apply (i_mem _ I'). exists u. split; [done |]. unfold in_list. by rewrite Hl. }
  revert t Ht Hp. induction Hr as [s|s s1 s2 [l Hl] _ IH]; intros t Ht Hp; [by exists t |].
  assert (queue_inv s1) as I1 by by apply (send_inv_step l s s1). apply (IH I1 t); [| done]. clear IH.
  assert (k < sequence_number s) by by apply (i_next _ I k t).
  destruct l as [ty|j|j ok|j|j|j|j ok|j|j kex|]; revert Hl; open_call; intros Hl; [| | | | | | | | |by simplify_eq];
    [simplify_eq; cbn; by rewrite lookup_insert_ne by lia |..];
    (destruct (threads s !! j) as [[p m ty e]|] eqn:Hj; [| done]); revert Hl; opt; cbn [t_pc t_mode t_type];
    intros Hl; repeat (case_match; try done); simplify_eq; cbn; rewrite lookup_insert_ne; try done; intros ->; simplify_eq.
Qed.

(** Two threads and a key exchange: the second packet waits for the first, the
    third is encrypted after the new keys are in use. *)
Definition rekey_run : list label :=
  [Enter Kexinit; Enter Newkeys; Enter Other; Queue 0; Seal 0 true; Lock 0; Write 0 true; Unlock 0; Finish 0 true;
   Queue 1; Seal 1 true; Lock 1; Write 1 true; Unlock 1; Finish 1 true; Queue 2; Seal 2 true; Lock 2; Write 2 true].

(** The same, with a NEWKEYS that could not be written. *)
Definition broken_run : list label :=
  take 12 rekey_run ++ [Write 1 false; Unlock 1; Finish 1 true; Queue 2; Seal 2 true; Lock 2; Write 2 true].

Definition end_of (ls : list label) : state := default init_send (execs ls init_send).

Lemma end_of_reachable ls : is_Some (execs ls init_send) -> rtc step init_send (end_of ls).
Proof. intros [s Hs]. unfold end_of. rewrite Hs. by apply execs_reachable in Hs. Qed.

Fixpoint kex_execs (ls : list label) (s : state) : option state :=
  match ls with
  | [] => Some s
  | l :: ls => if one_exchange l s then let? s := exec l s in kex_execs ls s else None
  end.

Lemma kex_execs_reachable ls s s' : kex_execs ls s = Some s' -> rtc kex_step s s'.
Proof.
  revert s. induction ls as [|l ls IH]; cbn; intros s; [by intros [= <-] |].
  destruct (one_exchange l s) eqn:D; [| done]. destruct (exec l s) as [s1|] eqn:E; [| done]. opt.
  intros H. eapply rtc_l; [by exists l | by apply IH].
Qed.

(** A NEWKEYS that could not be written changes the keys all the same: what the
    other side gets next is encrypted with keys it was not told of. *)
Theorem failed_newkeys_switches :
  let s := end_of broken_run in
  map w_ok (wire s) = [true; false; true] /\ map w_type (wire s) = [Kexinit; Newkeys; Other] /\ map w_epoch (wire s) = [0; 0; 1].
Proof. vm_compute. done. Qed.


Lemma senders_complete_witness :
  let s := end_of (take 8 rekey_run) in
  senders s = [0; 1; 2] /\ exists ls s', Forall (fun l => own l = true) ls /\ execs ls s = Some s' /\ senders s' = [].
Proof.
  intros s. split; [vm_compute; reflexivity |].
  destruct (senders_complete s) as (ls & s' & H1 & H2 & _ & H3 & _).
  - apply end_of_reachable. vm_compute. by eexists.
  - apply (map_Forall_to_list (fun _ t => t_mode t <> Disconnect)). vm_compute. repeat constructor; discriminate.
  - by exists ls, s'.
Defined.

Lemma disconnected_sender_stays_witness :
  let s := end_of [Set_disconnect; Enter Other; Queue 0] in 0 ∈ senders s.
Proof.
  intros s. apply (disconnected_sender_stays s s 0 (mkThread Lost Disconnect Other 0)).
  - apply end_of_reachable. vm_compute. by eexists.
  - vm_compute. reflexivity.
  - reflexivity.
  - apply rtc_refl.
Defined.

End SshSendQueue.
