(* ===== verification/SshPayload.v ===== *)
(** * lib/ssh/payload.c: received payloads and the queues they wait in

    A queue is its list of payloads from head to tail: the operations of
    [struct list_header_s] that the code uses on it are shown to be those of
    lists in the file SimpleList.  A thread that waits on a queue is a function
    of what other threads do until it wakes up: they queue a payload, change the
    state that the callback [cb_break] looks at, or the time is over. *)
From stdpp Require Import base list option.
From Stdlib Require Import ZArith Lia.
From S2P Require Import Prelude SshUint SshCipher SshPacket.
Import SshUint SshPacket.
Open Scope Z_scope.

Module SshPayload.

(** [struct ssh_payload_s] with the field [code], which the channels use. *)
Record received : Type := mkReceived {
  rp_type : Z; rp_sequence : Z; rp_code : Z; rp_size : Z; rp_len : Z; rp_buffer : bytes }.

(** A payload as the reader of packets makes it. *)
Definition of_payload (p : payload) : received :=
  mkReceived (pl_type p) (pl_sequence p) 0 (pl_size p) (pl_len p) (pl_buffer p).

Definition init_ssh_payload (size : Z) : received :=
  mkReceived 0 0 0 size 0 (replicate (Z.to_nat size) 0).

Definition set_rtype t p := mkReceived t (rp_sequence p) (rp_code p) (rp_size p) (rp_len p) (rp_buffer p).
Definition set_rcode c p := mkReceived (rp_type p) (rp_sequence p) c (rp_size p) (rp_len p) (rp_buffer p).
Definition set_rlen n p := mkReceived (rp_type p) (rp_sequence p) (rp_code p) (rp_size p) n (rp_buffer p).
Definition set_rbuffer b p := mkReceived (rp_type p) (rp_sequence p) (rp_code p) (rp_size p) (rp_len p) b.

Record wf_received (p : received) : Prop := {
  wr_bytes : wf_bytes (rp_buffer p);
  wr_size : zlen (rp_buffer p) = rp_size p;
  wr_len : 0 <= rp_len p <= rp_size p;
  wr_width : is_u32 (rp_size p) }.

(** The bytes taken out of the payload, and the payload if it is still there.
    In the first function the memory of the payload is reused, in the second
    it is left to its owner and [alloc] says whether [malloc] succeeds. *)
Definition isolate_payload_buffer_dynamic (p : received) (pos size : Z) : option (option bytes * option received) :=
  if u32 (pos + size) <=? rp_size p then
    let? d := mem_read (rp_buffer p) pos size in Some (Some d, None)
  else Some (None, Some p).

Definition isolate_payload_buffer_static (alloc : bool) (p : received) (pos size : Z) : option (option bytes * option received) :=
  if u32 (pos + size) <=? rp_size p then
    if alloc then let? d := mem_read (rp_buffer p) pos size in Some (Some d, None) else Some (None, None)
  else Some (None, Some p).

(** ** The queue *)

Abbreviation queue := (list received).

Definition queue_ssh_payload (q : queue) (p : received) : queue := q ++ [p].

Definition init_payload_queue : queue := [].

(** The payloads that are freed, with the queue afterwards. *)
Fixpoint clear_payload_queue (q : queue) : list received * queue :=
  match q with
  | [] => ([], [])
  | p :: q => let '(freed, q) := clear_payload_queue q in (p :: freed, q)
  end.

(** The result of the last call of [cb_select], the payload that is selected
    and the queue.  A payload selected with -1 stays in the queue. *)
Fixpoint select_requested_payload (cb_select : received -> Z) (result : Z) (q : queue) : Z * option received * queue :=
  match q with
  | [] => (result, None, [])
  | p :: q =>
      let result := cb_select p in
      if (result =? 1) || (result =? -1) then (result, Some p, if result =? 1 then q else p :: q)
      else let '(r, o, q) := select_requested_payload cb_select result q in (r, o, p :: q)
  end.

Definition _cb_select_payload_default (p : received) : Z := 1.

(** ** Waiting for a payload *)

Section Wait.
Context {X : Type}.

(** [X] is the state that [cb_break] looks at. *)
Inductive qevent : Type := Queued (p : received) | Changed (x : X) | Expired.

Inductive get_result : Type :=
| GotPayload (p : received) (x : X) (q : queue) (evs : list qevent)
| Finished (x : X) (q : queue) (evs : list qevent)
| Timedout (x : X) (q : queue) (evs : list qevent)
| Asleep (x : X) (q : queue).

(** [Timedout]: [cb_error] was called with [ETIMEDOUT], and the result is
    NULL, as it is for [Finished].  [Asleep]: nothing more happens. *)
Fixpoint get_ssh_payload (cb_select : received -> Z) (cb_break : X -> queue -> bool) (evs : list qevent) (x : X) (q : queue)
    : get_result :=
  match select_requested_payload cb_select 0 q with
  | (_, Some p, q') => GotPayload p x q' evs
  | (_, None, q') =>
      if cb_break x q' then Finished x q' evs else
      match evs with
      | [] => Asleep x q'
      | Expired :: evs => Timedout x q' evs
      | Queued p :: evs => get_ssh_payload cb_select cb_break evs x (queue_ssh_payload q' p)
      | Changed x :: evs => get_ssh_payload cb_select cb_break evs x q'
      end
  end.

End Wait.
Arguments qevent X : clear implicits.
Arguments get_result X : clear implicits.

(** ** Clearing *)

Lemma clear_payload_queue_all q : clear_payload_queue q = (q, []).
Proof. induction q as [|p q IH]; [done |]. cbn. by rewrite IH. Qed.

(** ** Selection *)

Definition selects (sel : received -> Z) (p : received) : bool := (sel p =? 1) || (sel p =? -1).

Lemma select_none sel q : forall r, Forall (fun p => selects sel p = false) q ->
  exists r', select_requested_payload sel r q = (r', None, q).
Proof.
  induction q as [|p q IH]; intros r Hq; [by eexists |]. apply Forall_cons_1 in Hq as [Hp Hq]. cbn.
  unfold selects in Hp. rewrite Hp. destruct (IH (sel p) Hq) as (r' & ->). by eexists.
Qed.

Lemma select_first sel p q2 q1 : forall r, Forall (fun x => selects sel x = false) q1 -> selects sel p = true ->
  select_requested_payload sel r (q1 ++ p :: q2) =
    (sel p, Some p, q1 ++ (if sel p =? 1 then q2 else p :: q2)).
Proof.
  induction q1 as [|x q1 IH]; intros r Hq Hp; cbn.
  - unfold selects in Hp. by rewrite Hp.
  - apply Forall_cons_1 in Hq as [Hx Hq]. unfold selects in Hx. rewrite Hx. by rewrite (IH (sel x) Hq Hp).
Qed.

(** A queue has a first payload that is selected, or none that is. *)
Lemma queue_split sel (q : queue) :
  Forall (fun p => selects sel p = false) q \/
  exists q1 p q2, q = q1 ++ p :: q2 /\ Forall (fun p => selects sel p = false) q1 /\ selects sel p = true.
Proof.
  induction q as [|p q [IH | (q1 & x & q2 & -> & H1 & Hx)]]; [by left | |].
  - destruct (selects sel p) eqn:E; [right; by exists [], p, q | left; by constructor].
  - destruct (selects sel p) eqn:E.
    + right. by exists [], p, (q1 ++ x :: q2).
    + right. exists (p :: q1), x, q2. split; [done |]. split; [by constructor | done].
Qed.

(** ** The wait *)

Definition arrived {X} (evs : list (qevent X)) : list received :=
  omap (fun ev => match ev with Queued p => Some p | _ => None end) evs.

Definition last_state {X} (evs : list (qevent X)) (x : X) : X :=
  foldl (fun x ev => match ev with Changed y => y | _ => x end) x evs.

Lemma get_skip {X} sel brk (x : X) : forall evs rest q,
  Forall (fun ev => ev <> Expired) evs ->
  Forall (fun p => selects sel p = false) (q ++ arrived evs) ->
  (forall evs1 evs2, evs = evs1 ++ evs2 -> brk (last_state evs1 x) (q ++ arrived evs1) = false) ->
  rest <> [] \/ evs = [] ->
  get_ssh_payload sel brk (evs ++ rest) x q = get_ssh_payload sel brk rest (last_state evs x) (q ++ arrived evs).
Proof.
  intros evs. revert x. induction evs as [|ev evs IH]; intros x rest q Hne Hsel Hbrk Hrest; [by rewrite app_nil_r |].
  apply Forall_cons_1 in Hne as [Hev Hne]. apply Forall_app in Hsel as [Hq Ha].
  assert (brk x q = false) as Hb. { specialize (Hbrk [] (ev :: evs) eq_refl). cbn in Hbrk. by rewrite app_nil_r in Hbrk. }
  destruct (select_none sel q 0 Hq) as (r & E).
  destruct ev as [p|y|]; [| | done].
  - cbn [app get_ssh_payload]. rewrite E, Hb. unfold queue_ssh_payload.
    change (arrived (Queued p :: evs)) with (p :: arrived evs) in *. change (last_state (Queued p :: evs) x) with (last_state evs x).
    rewrite (cons_middle p q (arrived evs)), app_assoc. apply Forall_cons_1 in Ha as [Hp Ha].
    apply IH; [done | | | by destruct Hrest; [left |]].
    + rewrite <- app_assoc. apply Forall_app. split; [done |]. by constructor.
    + intros evs1 evs2 ->. specialize (Hbrk (Queued p :: evs1) evs2 eq_refl). cbn in Hbrk. by rewrite <- app_assoc.
  - cbn [app get_ssh_payload]. rewrite E, Hb. change (arrived (Changed y :: evs)) with (arrived evs) in *.
    change (last_state (Changed y :: evs) x) with (last_state evs y).
    apply IH; [done | by apply Forall_app | | by destruct Hrest; [left |]].
    intros evs1 evs2 ->. apply (Hbrk (Changed y :: evs1) evs2 eq_refl).
Qed.

(** a thread that waits on a queue gets the first payload, in the order of
    the queue and of the arrivals, that it selects.  With [before] already in
    the queue or arriving, none of them selected and no reason to stop, the
    first [p] that is selected ends the wait; it is taken out of the queue
    (when selected with 1) and all others stay there in their order.  When the
    time is over first, or [cb_break] says so, the queue is as it was with the
    arrivals. *)
Theorem get_ssh_payload_first {X} sel brk (x : X) q evs p rest :
  Forall (fun ev => ev <> Expired) evs ->
  Forall (fun p => selects sel p = false) (q ++ arrived evs) ->
  (forall evs1 evs2, evs = evs1 ++ evs2 -> brk (last_state evs1 x) (q ++ arrived evs1) = false) ->
  (selects sel p = true ->
     get_ssh_payload sel brk (evs ++ Queued p :: rest) x q =
       GotPayload p (last_state evs x) (q ++ arrived evs ++ (if sel p =? 1 then [] else [p])) rest) /\
  get_ssh_payload sel brk (evs ++ Expired :: rest) x q = Timedout (last_state evs x) (q ++ arrived evs) rest /\
  (forall y, brk y (q ++ arrived evs) = true ->
     get_ssh_payload sel brk (evs ++ Changed y :: rest) x q = Finished y (q ++ arrived evs) rest).
Proof.
  intros Hne Hsel Hbrk. destruct (select_none sel _ 0 Hsel) as (r & E).
  assert (brk (last_state evs x) (q ++ arrived evs) = false) as Hb by (apply (Hbrk evs []); by rewrite app_nil_r).
  split; [| split].
  - intros Hp. rewrite get_skip by (done || by left). cbn [get_ssh_payload]. rewrite E, Hb.
    assert (select_requested_payload sel 0 (queue_ssh_payload (q ++ arrived evs) p) =
      (sel p, Some p, q ++ arrived evs ++ (if sel p =? 1 then [] else [p]))) as E2.
    { unfold queue_ssh_payload. rewrite (select_first sel p [] (q ++ arrived evs) 0 Hsel Hp). by rewrite <- app_assoc. }
    destruct rest; cbn [get_ssh_payload]; by rewrite E2.
  - rewrite get_skip by (done || by left). cbn [get_ssh_payload]. by rewrite E, Hb.
  - intros y Hy. rewrite get_skip by (done || by left). cbn [get_ssh_payload]. rewrite E, Hb.
    destruct rest; cbn [get_ssh_payload]; by rewrite E, Hy.
Qed.

(** What is in the queue at the start of the wait and is selected is found at once. *)
Lemma get_queued {X} sel brk (x : X) q1 p q2 evs :
  Forall (fun p => selects sel p = false) q1 -> selects sel p = true ->
  get_ssh_payload sel brk evs x (q1 ++ p :: q2) = GotPayload p x (q1 ++ (if sel p =? 1 then q2 else p :: q2)) evs.
Proof. intros H1 Hp. destruct evs; cbn [get_ssh_payload]; by rewrite (select_first sel p q2 q1 0 H1 Hp). Qed.

Lemma get_ssh_payload_first_witness :
  get_ssh_payload (fun p => if rp_type p =? 99 then 1 else 0) (fun (x : bool) _ => x)
    [Queued (mkReceived 94 7 0 0 0 []); Changed false; Queued (mkReceived 99 8 0 0 0 []); Expired] false [mkReceived 95 6 0 0 0 []]
  = GotPayload (mkReceived 99 8 0 0 0 []) false [mkReceived 95 6 0 0 0 []; mkReceived 94 7 0 0 0 []] [Expired].
Proof.
  apply (get_ssh_payload_first (fun p => if rp_type p =? 99 then 1 else 0) (fun (x : bool) _ => x) false
    [mkReceived 95 6 0 0 0 []] [Queued (mkReceived 94 7 0 0 0 []); Changed false] (mkReceived 99 8 0 0 0 []) [Expired]).
  - repeat constructor; discriminate.
  - repeat constructor.
  - intros [|? [|? [|]]] evs2 [= ]; subst; reflexivity.
  - reflexivity.
Defined.

End SshPayload.
