(* ===== verification/SshChannelSend.v ===== *)
(** * ssh/send/msg-channel.c: the messages of a channel

    Every sender takes a payload of the computed size from the stack, fills it
    and hands it to [write_ssh_packet] (file SshPacket and after it
    SshSendQueue); a sender is here the payload it hands over, and [None] is a
    write outside of that payload.  The writers that move a pointer through the
    buffer are functions on a buffer with a position. *)
From stdpp Require Import base list option strings.
From Stdlib Require Import ZArith Lia.
From S2P Require Import Prelude SshUint SshString MsgBuffer SshCipher SshPacket SshPayload.
Import SshUint SshString MsgBuffer SshPayload.
Open Scope Z_scope.

Module SshChannelSend.

Abbreviation lit := SshCipher.lit.

Definition SSH_MSG_CHANNEL_OPEN := 90.
Definition SSH_MSG_CHANNEL_OPEN_CONFIRMATION := 91.
Definition SSH_MSG_CHANNEL_OPEN_FAILURE := 92.
Definition SSH_MSG_CHANNEL_WINDOW_ADJUST := 93.
Definition SSH_MSG_CHANNEL_DATA := 94.
Definition SSH_MSG_CHANNEL_EXTENDED_DATA := 95.
Definition SSH_MSG_CHANNEL_EOF := 96.
Definition SSH_MSG_CHANNEL_CLOSE := 97.
Definition SSH_MSG_CHANNEL_REQUEST := 98.
Definition SSH_MSG_CHANNEL_SUCCESS := 99.
Definition SSH_MSG_CHANNEL_FAILURE := 100.

Definition SSH_CHANNEL_TYPE_SESSION := 1.
Definition SSH_CHANNEL_TYPE_DIRECT := 2.
Definition SSH_CHANNEL_TYPE_FORWARDED := 3.
Definition SSH_CHANNEL_SESSION_TYPE_SHELL := 1.
Definition SSH_CHANNEL_SESSION_TYPE_EXEC := 2.
Definition SSH_CHANNEL_SESSION_TYPE_SUBSYSTEM := 3.
Definition SSH_CHANNEL_SOCKET_TYPE_STREAMLOCAL := 1.
Definition SSH_CHANNEL_SOCKET_TYPE_TCPIP := 2.

(** ** Opening a channel *)

(** [struct ssh_channel_open_data_s]; the constructor is its field [type]. *)
Inductive open_data : Type :=
| OpenLocal (path : ssh_string)
| OpenTcpip (address : ssh_string) (portnr : Z) (orig_ip : ssh_string) (orig_portnr : Z)
| OpenOther (type : Z).

Definition open_data_type (d : open_data) : Z :=
  match d with
  | OpenLocal _ => SSH_CHANNEL_SOCKET_TYPE_STREAMLOCAL
  | OpenTcpip _ _ _ _ => SSH_CHANNEL_SOCKET_TYPE_TCPIP
  | OpenOther t => t
  end.

Record open_msg : Type := mkOpenMsg {
  om_rcnr : Z; om_windowsize : Z; om_maxpacketsize : Z; om_data : option open_data }.

Definition get_name_ssh_channel (type subtype : Z) : bytes :=
  if type =? SSH_CHANNEL_TYPE_SESSION then lit "session"
  else if type =? SSH_CHANNEL_TYPE_DIRECT then
    if subtype =? SSH_CHANNEL_SOCKET_TYPE_TCPIP then lit "direct-tcpip"
    else if subtype =? SSH_CHANNEL_SOCKET_TYPE_STREAMLOCAL then lit "direct-streamlocal@openssh.com"
    else []
  else [].

Definition get_subsys_name_session_channel (type : Z) : bytes :=
  if type =? SSH_CHANNEL_SESSION_TYPE_EXEC then lit "exec"
  else if type =? SSH_CHANNEL_SESSION_TYPE_SHELL then lit "shell"
  else if type =? SSH_CHANNEL_SESSION_TYPE_SUBSYSTEM then lit "subsystem"
  else [].

(** The part that depends on the type; [data] is read when it is needed. *)
Definition send_open_data (mb : msg_buffer) (type : Z) (data : option open_data) : option msg_buffer :=
  if (type =? SSH_CHANNEL_TYPE_DIRECT) || (type =? SSH_CHANNEL_TYPE_FORWARDED) then
    let? d := data in
    match d with
    | OpenLocal path =>
        let? mb := msg_write_ssh_string mb (ArgS path) in
        let? mb := msg_store_uint32 mb 0 in
        msg_store_uint32 mb 0
    | OpenTcpip address portnr orig_ip orig_portnr =>
        let? mb := msg_write_ssh_string mb (ArgS address) in
        let? mb := msg_store_uint32 mb portnr in
        let? mb := msg_write_ssh_string mb (ArgS orig_ip) in
        msg_store_uint32 mb orig_portnr
    | OpenOther _ => Some mb
    end
  else Some mb.

Definition _send_ssh_channel_open_message (mb : msg_buffer) (type lcnr : Z) (m : open_msg) : option msg_buffer :=
  let? mb := msg_write_byte mb SSH_MSG_CHANNEL_OPEN in
  let? mb := msg_write_ssh_string mb
    (ArgC (get_name_ssh_channel type (match om_data m with Some d => open_data_type d | None => 0 end) ++ [0])) in
  let? mb := msg_store_uint32 mb lcnr in
  let? mb := msg_store_uint32 mb (om_windowsize m) in
  let? mb := msg_store_uint32 mb (om_maxpacketsize m) in
  send_open_data mb type (om_data m).

Definition set_msg_buffer_payload (mb : msg_buffer) (p : received) : msg_buffer :=
  set_msg_buffer mb (Some (rp_buffer p)) (rp_size p).

Definition send_ssh_channel_open_msg (type lcnr : Z) (m : open_msg) : option received :=
  let? mb := _send_ssh_channel_open_message init_msg_buffer type lcnr m in
  let p := set_rtype SSH_MSG_CHANNEL_OPEN (init_ssh_payload (mb_pos mb)) in
  let? mb := _send_ssh_channel_open_message (set_msg_buffer_payload mb p) type lcnr m in
  let? b := mb_data mb in
  Some (set_rlen (mb_pos mb) (set_rbuffer b p)).

(** ** Writers with a moving pointer *)

Abbreviation cursor := (bytes * Z)%type.

Definition put_bytes (d : bytes) (c : cursor) : option cursor :=
  let? b := mem_write c.1 c.2 d in Some (b, c.2 + zlen d).

Definition put_byte (v : Z) (c : cursor) : option cursor := put_bytes [u8 v] c.

Definition put_uint32 (v : Z) (c : cursor) : option cursor :=
  let? t := store_uint32 (drop (Z.to_nat c.2) c.1) v in
  Some (take (Z.to_nat c.2) c.1 ++ t, c.2 + 4).

Definition put_ssh_string (s : ssh_string) (c : cursor) : option cursor :=
  let? (n, t) := write_ssh_string (Some (drop (Z.to_nat c.2) c.1)) (ArgS s) in
  let? t := t in
  Some (take (Z.to_nat c.2) c.1 ++ t, c.2 + n).

(** [memcpy (pos, data, len)] *)
Definition put_data (data : bytes) (len : Z) (c : cursor) : option cursor :=
  let? d := mem_read data 0 len in put_bytes d c.

(** A payload of [size] bytes, filled by a writer that returns the length. *)
Definition fill_payload (size type : Z) (write : bytes -> option cursor) : option received :=
  let p := set_rtype type (init_ssh_payload size) in
  let? (b, n) := write (rp_buffer p) in
  Some (set_rlen n (set_rbuffer b p)).

Definition get_length_ssh_channel_open_confirmation_msg : Z := 13.

Definition write_ssh_channel_open_comfirmation_msg (lcnr : Z) (m : open_msg) (buffer : bytes) : option cursor :=
  let? c := put_byte SSH_MSG_CHANNEL_OPEN_CONFIRMATION (buffer, 0) in
  let? c := put_uint32 (om_rcnr m) c in
  let? c := put_uint32 lcnr c in
  let? c := put_uint32 (om_windowsize m) c in
  put_uint32 (om_maxpacketsize m) c.

Definition send_ssh_channel_open_confirmation (lcnr : Z) (m : open_msg) : option received :=
  fill_payload get_length_ssh_channel_open_confirmation_msg SSH_MSG_CHANNEL_OPEN_CONFIRMATION
    (write_ssh_channel_open_comfirmation_msg lcnr m).

Record open_failure_msg : Type := mkOpenFailure { of_reason : Z; of_description : ssh_string; of_language : ssh_string }.

Definition get_length_ssh_channel_open_failure_msg (m : open_failure_msg) : Z :=
  u32 (13 + s_len (of_description m) + s_len (of_language m)).

Definition write_ssh_channel_open_failure_msg (rcnr : Z) (m : open_failure_msg) (buffer : bytes) : option cursor :=
  let? c := put_byte SSH_MSG_CHANNEL_OPEN_FAILURE (buffer, 0) in
  let? c := put_uint32 rcnr c in
  let? c := put_uint32 (of_reason m) c in
  let? c := put_ssh_string (of_description m) c in
  put_ssh_string (of_language m) c.

Definition send_ssh_channel_open_failure_msg (rcnr : Z) (m : open_failure_msg) : option received :=
  fill_payload (get_length_ssh_channel_open_failure_msg m) SSH_MSG_CHANNEL_OPEN_FAILURE
    (write_ssh_channel_open_failure_msg rcnr m).

Definition write_ssh_channel_close_msg (rcnr type : Z) (buffer : bytes) : option cursor :=
  let? c := put_byte type (buffer, 0) in put_uint32 rcnr c.

(** The payload has room for 5 bytes. *)
Definition send_ssh_channel_eofclose_msg (rcnr type : Z) : option received :=
  fill_payload 5 type (write_ssh_channel_close_msg rcnr type).

Definition get_length_ssh_channel_windowadjust_msg : Z := 9.

Definition write_ssh_channel_windowadjust_msg (rcnr increase : Z) (buffer : bytes) : option cursor :=
  let? c := put_byte SSH_MSG_CHANNEL_WINDOW_ADJUST (buffer, 0) in
  let? c := put_uint32 rcnr c in
  put_uint32 increase c.

Definition send_ssh_channel_window_adjust_msg (rcnr increase : Z) : option received :=
  fill_payload get_length_ssh_channel_windowadjust_msg SSH_MSG_CHANNEL_WINDOW_ADJUST
    (write_ssh_channel_windowadjust_msg rcnr increase).

Record request_msg : Type := mkRequestMsg { rq_type : ssh_string; rq_reply : Z; rq_len : Z; rq_data : bytes }.

Definition get_length_ssh_channel_request_msg (m : request_msg) : Z := u32 (10 + s_len (rq_type m) + rq_len m).

Definition write_ssh_channel_request_msg (rcnr : Z) (m : request_msg) (buffer : bytes) : option cursor :=
  let? c := put_byte SSH_MSG_CHANNEL_REQUEST (buffer, 0) in
  let? c := put_uint32 rcnr c in
  let? c := put_ssh_string (rq_type m) c in
  let? c := put_byte (rq_reply m) c in
  if rq_len m =? 0 then Some c else put_data (rq_data m) (rq_len m) c.

Definition send_ssh_channel_request_msg (rcnr : Z) (m : request_msg) : option received :=
  fill_payload (get_length_ssh_channel_request_msg m) SSH_MSG_CHANNEL_REQUEST (write_ssh_channel_request_msg rcnr m).

(** [command] is [channel->target.session.buffer]; the result is -1 for a
    channel of another type, else the message is sent. *)
Definition send_ssh_channel_start_command_msg (type subtype rcnr : Z) (command : bytes) (reply : Z)
    : option (Z + received) :=
  if type =? SSH_CHANNEL_TYPE_SESSION then
    let name := get_subsys_name_session_channel subtype in
    let? n := strlen command in
    let size := u32 n in
    let data := replicate (Z.to_nat (size + 4)) 0 in
    let? (_, data) := write_ssh_string (Some data) (ArgC command) in
    let? data := data in
    let? name := set_ssh_string SSH_STRING_INIT (Some (ArgC (name ++ [0]))) in
    let m := if (subtype =? SSH_CHANNEL_SESSION_TYPE_EXEC) || (subtype =? SSH_CHANNEL_SESSION_TYPE_SUBSYSTEM)
             then mkRequestMsg name reply (size + 4) data else mkRequestMsg name reply 0 [] in
    let? p := send_ssh_channel_request_msg rcnr m in
    Some (inr p)
  else Some (inl (-1)).

Definition get_length_ssh_channel_data_msg (len : Z) : Z := u32 (9 + len).

Definition write_ssh_channel_data_msg (rcnr len : Z) (data buffer : bytes) : option cursor :=
  let? c := put_byte SSH_MSG_CHANNEL_DATA (buffer, 0) in
  let? c := put_uint32 rcnr c in
  let? c := put_uint32 len c in
  put_data data len c.

Definition send_ssh_channel_data_msg (rcnr len : Z) (data : bytes) : option received :=
  fill_payload (get_length_ssh_channel_data_msg len) SSH_MSG_CHANNEL_DATA (write_ssh_channel_data_msg rcnr len data).

Definition get_length_ssh_channel_xdata_msg (len : Z) : Z := u32 (13 + len).

Definition write_ssh_channel_xdata_msg (rcnr code len : Z) (data buffer : bytes) : option cursor :=
  let? c := put_byte SSH_MSG_CHANNEL_EXTENDED_DATA (buffer, 0) in
  let? c := put_uint32 rcnr c in
  let? c := put_uint32 code c in
  let? c := put_uint32 len c in
  put_data data len c.

Definition send_ssh_channel_xdata_msg (rcnr code len : Z) (data : bytes) : option received :=
  fill_payload (get_length_ssh_channel_xdata_msg len) SSH_MSG_CHANNEL_EXTENDED_DATA
    (write_ssh_channel_xdata_msg rcnr code len data).

(** ** The writers fill the buffer from its start *)

(** The cursor is behind [pre] in a buffer of [size] bytes. *)
Definition filled (size : Z) (pre : bytes) (c : cursor) : Prop :=
  zlen c.1 = size /\ c.2 = zlen pre /\ take (length pre) c.1 = pre.

Lemma filled_start b : filled (zlen b) [] (b, 0).
Proof. split; [done |]. split; [done |]. by rewrite take_0. Qed.

Lemma filled_split size pre c : filled size pre c ->
  exists rest, c = (pre ++ rest, zlen pre) /\ zlen rest = size - zlen pre.
Proof.
  destruct c as [b n]. intros (Hz & Hn & Ht); cbn in *. subst n. exists (drop (length pre) b). rewrite <- Ht at 2. rewrite take_drop. split; [done |].
  assert (length pre <= length b)%nat by (pose proof (f_equal length Ht) as Hl; rewrite length_take in Hl; lia).
  unfold zlen in *. rewrite length_drop. lia.
Qed.

Lemma filled_put size pre c d :
  filled size pre c -> zlen pre + zlen d <= size -> exists c', put_bytes d c = Some c' /\ filled size (pre ++ d) c'.
Proof.
  intros (rest & -> & Hr)%filled_split Hl. unfold put_bytes. cbn [fst snd].
  rewrite mem_write_Some by (rewrite ?zlen_app; pose proof (zlen_nonneg pre); lia). opt. eexists. split; [done |].
  unfold filled. cbn [fst snd].
  replace (Z.to_nat (zlen pre)) with (length pre) by (unfold zlen; lia). rewrite take_app_length.
  rewrite drop_app_add, app_assoc. unfold zlen in *. rewrite !length_app, length_drop. split; [lia |].
  split; [lia |]. by rewrite take_app_length' by (by rewrite length_app).
Qed.

Lemma put_uint32_bytes v c : 0 <= c.2 <= zlen c.1 -> put_uint32 v c = put_bytes (be_encode 4 v) c.
Proof.
  destruct c as [b n]. cbn [fst snd]. intros Hn. unfold put_uint32, put_bytes. cbn [fst snd]. rewrite zlen_be_encode.
  rewrite store_uint32_be.
  destruct (Z.leb_spec (n + 4) (zlen b)) as [Hl|Hl].
  - rewrite !mem_write_Some by (rewrite ?zlen_be_encode, ?zlen_drop; lia). opt. f_equal. f_equal.
    change (Z.to_nat 0) with 0%nat. rewrite take_0. cbn [app]. by rewrite length_be_encode, drop_drop.
  - assert (forall a i, 0 <= i -> zlen a < i + 4 -> mem_write a i (be_encode 4 v) = None) as Hout.
    { intros a i Hi Ha. destruct (mem_write a i (be_encode 4 v)) eqn:E; [| done].
      apply mem_write_inv in E. rewrite zlen_be_encode in E. lia. }
    rewrite !Hout by (rewrite ?zlen_drop; lia). done.
Qed.

(** What a writer promises: behind [pre], with room for [d], it appends [d]. *)
Class Puts (f : cursor -> option cursor) (d : bytes) : Prop :=
  puts size pre c : filled size pre c -> zlen pre + zlen d <= size -> exists c', f c = Some c' /\ filled size (pre ++ d) c'.

#[export] Instance puts_bytes d : Puts (put_bytes d) d.
Proof. intros size pre c. apply filled_put. Qed.

#[export] Instance puts_byte v : Puts (put_byte v) [u8 v].
Proof. intros size pre c. apply filled_put. Qed.

#[export] Instance puts_uint32 v : Puts (put_uint32 v) (be_encode 4 v).
Proof.
  intros size pre c Hf Hl. rewrite put_uint32_bytes; [by apply filled_put |].
  destruct Hf as (-> & -> & _). pose proof (zlen_nonneg pre). rewrite zlen_be_encode in Hl. lia.
Qed.

Lemma puts_data data len d : mem_read data 0 len = Some d -> Puts (put_data data len) d.
Proof. intros Hd size pre c Hf Hl. unfold put_data. rewrite Hd. opt. by apply filled_put. Qed.

Lemma puts_ssh_string s d : s_data s = Some d -> is_u32 (4 + zlen d) -> Puts (put_ssh_string s) (encode_string d).
Proof.
  intros Hd Hw size pre c Hf Hl. rewrite zlen_encode_string in Hl.
  destruct (s_data_inv _ _ Hd) as (_ & _ & _ & _ & Hz). destruct (filled_split _ _ _ Hf) as (rest & -> & Hr).
  unfold put_ssh_string. cbn [fst snd].
  replace (Z.to_nat (zlen pre)) with (length pre) by (unfold zlen; lia). rewrite drop_app_length, take_app_length.
  rewrite (write_ssh_string_s s d rest Hd) by (rewrite <- Hz; done || lia). cbn [mbind option_bind].
  eexists. split; [done |]. rewrite <- Hz. pose proof (zlen_nonneg d).
  split; [| split]; cbn [fst snd].
  - rewrite !zlen_app, zlen_be_encode, zlen_drop by lia. lia.
  - rewrite zlen_app, zlen_encode_string. lia.
  - unfold encode_string. rewrite (app_assoc (be_encode 4 _) d), (app_assoc pre (be_encode 4 _ ++ d)). apply take_app_length.
Qed.

Lemma puts_then f g d e : Puts f d -> Puts g e -> Puts (fun c => let? c := f c in g c) (d ++ e).
Proof.
  intros Hf Hg size pre c Hc Hl. rewrite zlen_app in Hl. pose proof (zlen_nonneg e).
  destruct (Hf size pre c Hc ltac:(lia)) as (c1 & -> & H1). opt. rewrite app_assoc.
  apply Hg; [done |]. rewrite zlen_app. lia.
Qed.

Lemma puts_ret : Puts Some [].
Proof. intros size pre c Hc _. exists c. by rewrite app_nil_r. Qed.

Lemma puts_start f d b : Puts f d -> zlen d <= zlen b -> exists c, f (b, 0) = Some c /\ filled (zlen b) d c.
Proof. intros Hf Hl. apply (Hf (zlen b) [] (b, 0) (filled_start b) Hl). Qed.

(** Reads a writer as a function of the cursor it starts with. *)
Ltac writer b :=
  match goal with
  | |- exists c, ?t = Some c /\ _ =>
      match eval pattern (b, 0) in t with ?f _ => apply (puts_start f) end
  end.

(** A full buffer holds just what was written. *)
Lemma filled_full size pre c : filled size pre c -> zlen pre = size -> c = (pre, size).
Proof.
  intros Hf Hs. destruct (filled_split _ _ _ Hf) as (rest & -> & Hr). rewrite Hs in Hr.
  destruct rest as [|x l]; [by rewrite app_nil_r, Hs |]. rewrite zlen_cons in Hr. pose proof (zlen_nonneg l). lia.
Qed.

Lemma fill_payload_full size type write d :
  is_u32 size -> zlen d = size ->
  (forall b, zlen b = size -> exists c, write b = Some c /\ filled (zlen b) d c) ->
  fill_payload size type write = Some (mkReceived type 0 0 size size d).
Proof.
  intros [Hs _] Hd Hw. unfold fill_payload.
  assert (zlen (replicate (Z.to_nat size) 0) = size) as Hr by (unfold zlen; rewrite length_replicate; lia).
  destruct (Hw _ Hr) as (c & E & Hf). rewrite Hr in Hf.
  cbn [set_rtype init_ssh_payload rp_buffer]. rewrite E. apply filled_full in Hf; [| done]. by subst c.
Qed.

(** ** The messages *)

Definition data_bytes (rcnr : Z) (d : bytes) : bytes :=
  [SSH_MSG_CHANNEL_DATA] ++ be_encode 4 rcnr ++ be_encode 4 (zlen d) ++ d.

Definition xdata_bytes (rcnr code : Z) (d : bytes) : bytes :=
  [SSH_MSG_CHANNEL_EXTENDED_DATA] ++ be_encode 4 rcnr ++ be_encode 4 code ++ be_encode 4 (zlen d) ++ d.

Definition adjust_bytes (rcnr increase : Z) : bytes :=
  [SSH_MSG_CHANNEL_WINDOW_ADJUST] ++ be_encode 4 rcnr ++ be_encode 4 increase.

Definition eofclose_bytes (rcnr type : Z) : bytes := [u8 type] ++ be_encode 4 rcnr.

Definition request_bytes (rcnr : Z) (type : bytes) (reply : Z) (d : bytes) : bytes :=
  [SSH_MSG_CHANNEL_REQUEST] ++ be_encode 4 rcnr ++ encode_string type ++ [u8 reply] ++ d.

Definition confirmation_bytes (rcnr lcnr windowsize maxpacketsize : Z) : bytes :=
  [SSH_MSG_CHANNEL_OPEN_CONFIRMATION] ++ be_encode 4 rcnr ++ be_encode 4 lcnr ++ be_encode 4 windowsize ++ be_encode 4 maxpacketsize.

Definition failure_bytes (rcnr reason : Z) (description language : bytes) : bytes :=
  [SSH_MSG_CHANNEL_OPEN_FAILURE] ++ be_encode 4 rcnr ++ be_encode 4 reason ++ encode_string description ++ encode_string language.

(** The payload that is handed over: it is full with the message. *)
Definition message (d : bytes) : received := mkReceived (default 0 (head d)) 0 0 (zlen d) (zlen d) d.

#[export] Hint Rewrite @zlen_be_encode @zlen_encode_string : zlen.

Ltac zl := autorewrite with zlen in *; unfold_width; try lia.

(** ** The senders *)

Ltac sent bs w :=
  unfold message; let E := fresh "E" in
  match goal with |- fill_payload ?n _ _ = Some (mkReceived _ _ _ (zlen ?m) _ _) =>
    assert (zlen m = n) as E by (unfold bs; zl); rewrite E end;
  apply fill_payload_full; [by zl | exact E |];
  let b := fresh "b" in let Hb := fresh "Hb" in
  intros b Hb; unfold w, bs in *; writer b;
  [repeat (apply puts_then; [first [apply puts_byte | apply puts_uint32 | by apply puts_ssh_string] |]);
   first [apply puts_uint32 | by apply puts_data | by apply puts_ssh_string | idtac] | lia].

Lemma send_data_bytes rcnr len data d :
  mem_read data 0 len = Some d -> is_u32 (9 + zlen d) ->
  send_ssh_channel_data_msg rcnr len data = Some (message (data_bytes rcnr d)).
Proof.
  intros Hd Hw. destruct (mem_read_inv _ _ _ _ Hd) as (_ & _ & _ & _ & <-).
  unfold send_ssh_channel_data_msg, get_length_ssh_channel_data_msg. rewrite u32_id by done.
  sent data_bytes write_ssh_channel_data_msg.
Qed.

Lemma send_xdata_bytes rcnr code len data d :
  mem_read data 0 len = Some d -> is_u32 (13 + zlen d) ->
  send_ssh_channel_xdata_msg rcnr code len data = Some (message (xdata_bytes rcnr code d)).
Proof.
  intros Hd Hw. destruct (mem_read_inv _ _ _ _ Hd) as (_ & _ & _ & _ & <-).
  unfold send_ssh_channel_xdata_msg, get_length_ssh_channel_xdata_msg. rewrite u32_id by done.
  sent xdata_bytes write_ssh_channel_xdata_msg.
Qed.

Lemma send_adjust_bytes rcnr increase :
  send_ssh_channel_window_adjust_msg rcnr increase = Some (message (adjust_bytes rcnr increase)).
Proof.
  unfold send_ssh_channel_window_adjust_msg, get_length_ssh_channel_windowadjust_msg.
  sent adjust_bytes write_ssh_channel_windowadjust_msg.
Qed.

Lemma send_eofclose_bytes rcnr type :
  is_u8 type -> send_ssh_channel_eofclose_msg rcnr type = Some (message (eofclose_bytes rcnr type)).
Proof.
  intros Ht. assert (u8 type = type) as Eu by (unfold_width; by rewrite Z.mod_small).
  unfold send_ssh_channel_eofclose_msg. rewrite <- Eu at 1. sent eofclose_bytes write_ssh_channel_close_msg.
Qed.

Lemma send_failure_bytes rcnr m d l :
  s_data (of_description m) = Some d -> s_data (of_language m) = Some l -> is_u32 (17 + zlen d + zlen l) ->
  fill_payload (17 + zlen d + zlen l) SSH_MSG_CHANNEL_OPEN_FAILURE (write_ssh_channel_open_failure_msg rcnr m) =
    Some (message (failure_bytes rcnr (of_reason m) d l)).
Proof.
  intros Hd Hl Hw. pose proof (zlen_nonneg d). pose proof (zlen_nonneg l).
  assert (is_u32 (4 + zlen d) /\ is_u32 (4 + zlen l)) as [? ?] by (unfold_width; lia).
  sent failure_bytes write_ssh_channel_open_failure_msg.
Qed.

Lemma send_request_bytes rcnr m t d :
  s_data (rq_type m) = Some t -> mem_read (rq_data m) 0 (rq_len m) = Some d -> is_u32 (10 + zlen t + zlen d) ->
  send_ssh_channel_request_msg rcnr m = Some (message (request_bytes rcnr t (rq_reply m) d)).
Proof.
  intros Ht Hd Hw. destruct (mem_read_inv _ _ _ _ Hd) as (_ & _ & _ & _ & Hl).
  destruct (s_data_inv _ _ Ht) as (_ & _ & _ & _ & Hz). pose proof (zlen_nonneg d). pose proof (zlen_nonneg t).
  assert (is_u32 (4 + zlen t)) by (unfold_width; lia).
  unfold send_ssh_channel_request_msg, get_length_ssh_channel_request_msg. rewrite <- Hz, <- Hl, u32_id by done.
  sent request_bytes write_ssh_channel_request_msg.
  rewrite <- Hl in *. destruct (Z.eqb_spec (zlen d) 0) as [E0|E0]; [| by apply puts_data].
  destruct d as [|x d]; [apply puts_ret | rewrite zlen_cons in *; pose proof (zlen_nonneg d); lia].
Qed.

(** ** What a full payload does not hold *)

Lemma put_over size pre c d : filled size pre c -> size < zlen pre + zlen d -> put_bytes d c = None.
Proof.
  intros (Hz & Hn & _) Hl. unfold put_bytes. destruct (mem_write c.1 c.2 d) eqn:E; [| done].
  apply mem_write_inv in E. lia.
Qed.

Lemma put_uint32_over size pre c v : filled size pre c -> size < zlen pre + 4 -> put_uint32 v c = None.
Proof.
  intros Hf Hl. rewrite put_uint32_bytes; [by apply (put_over size pre c _ Hf); rewrite zlen_be_encode |].
  destruct (filled_split _ _ _ Hf) as (rest & -> & Hr). cbn [fst snd]. rewrite zlen_app.
  pose proof (zlen_nonneg pre). pose proof (zlen_nonneg rest). lia.
Qed.

Lemma put_ssh_string_over size pre c s d :
  filled size pre c -> s_data s = Some d -> size < zlen pre + 4 + zlen d -> put_ssh_string s c = None.
Proof.
  intros Hf Hd Hl. destruct (s_data_inv _ _ Hd) as (v & Hv & Hs & -> & Hz). rewrite Hz in Hl.
  destruct (filled_split _ _ _ Hf) as (rest & -> & Hr). unfold put_ssh_string. cbn [fst snd].
  replace (Z.to_nat (zlen pre)) with (length pre) by (unfold zlen; lia). rewrite drop_app_length, take_app_length.
  cbn [write_ssh_string]. rewrite Hv. unfold copy_ssh_string_hlpr.
  destruct (store_uint32 rest (s_len s)) as [b|] eqn:E; [| done]. opt. rewrite mem_read_Some by lia. opt.
  destruct (mem_write b 4 _) as [b'|] eqn:E2; [| done]. apply mem_write_inv in E2 as (_ & H2 & _).
  rewrite store_uint32_be in E. apply mem_write_len in E.
  rewrite zlen_take in H2 by (rewrite drop_0; lia). lia.
Qed.

(** C37: the two replies to the opening of a channel do not fit in the payload
    that is made for them.  The confirmation has 17 bytes and the payload room
    for 13; the failure has 17 bytes and its two strings, and the payload room for
    4 less.  Both senders write outside of it, for every message; with the 4
    bytes more they write the message of the protocol. *)
Theorem open_replies_overflow (lcnr rcnr : Z) (m : open_msg) (f : open_failure_msg) (d l : bytes) :
  s_data (of_description f) = Some d -> s_data (of_language f) = Some l -> is_u32 (17 + zlen d + zlen l) ->
  send_ssh_channel_open_confirmation lcnr m = None /\
  send_ssh_channel_open_failure_msg rcnr f = None /\
  fill_payload (get_length_ssh_channel_open_confirmation_msg + 4) SSH_MSG_CHANNEL_OPEN_CONFIRMATION
    (write_ssh_channel_open_comfirmation_msg lcnr m) =
      Some (message (confirmation_bytes (om_rcnr m) lcnr (om_windowsize m) (om_maxpacketsize m))) /\
  fill_payload (get_length_ssh_channel_open_failure_msg f + 4) SSH_MSG_CHANNEL_OPEN_FAILURE
    (write_ssh_channel_open_failure_msg rcnr f) = Some (message (failure_bytes rcnr (of_reason f) d l)).
Proof.
  intros Hd Hl Hw. pose proof (zlen_nonneg d). pose proof (zlen_nonneg l).
  destruct (s_data_inv _ _ Hd) as (_ & _ & _ & _ & Ed). destruct (s_data_inv _ _ Hl) as (_ & _ & _ & _ & El).
  unfold send_ssh_channel_open_failure_msg, get_length_ssh_channel_open_failure_msg. rewrite <- Ed, <- El.
  rewrite u32_id by (unfold_width; lia). split; [| split; [| split]].
  - reflexivity.
  - unfold fill_payload. set (b := rp_buffer _).
    assert (zlen b = 13 + zlen d + zlen l) as Hb.
    { unfold b, zlen. cbn [set_rtype init_ssh_payload rp_buffer]. rewrite length_replicate. unfold zlen. lia. }
    destruct (puts_start (fun c => let? c := put_byte SSH_MSG_CHANNEL_OPEN_FAILURE c in
      let? c := put_uint32 rcnr c in let? c := put_uint32 (of_reason f) c in put_ssh_string (of_description f) c)
      ([SSH_MSG_CHANNEL_OPEN_FAILURE] ++ be_encode 4 rcnr ++ be_encode 4 (of_reason f) ++ encode_string d) b) as (c & E & Hf).
    { apply puts_then; [apply (puts_byte SSH_MSG_CHANNEL_OPEN_FAILURE) |]. do 2 (apply puts_then; [apply _ |]). apply puts_ssh_string; [done | unfold_width; lia]. }
    { zl. }
    unfold write_ssh_channel_open_failure_msg. revert E. destruct (put_byte _ _) as [c1|]; opt; [| done].
    destruct (put_uint32 rcnr c1) as [c2|]; opt; [| done]. destruct (put_uint32 _ c2) as [c3|]; opt; [| done]. intros ->. opt.
    rewrite (put_ssh_string_over _ _ _ _ l Hf Hl); [done |]. zl.
  - unfold get_length_ssh_channel_open_confirmation_msg. change (13 + 4) with 17.
    sent confirmation_bytes write_ssh_channel_open_comfirmation_msg.
  - replace (13 + zlen d + zlen l + 4) with (17 + zlen d + zlen l) by lia. by apply send_failure_bytes.
Qed.

Lemma open_replies_overflow_witness :
  send_ssh_channel_open_confirmation 3 (mkOpenMsg 5 1000 500 None) = None /\
  send_ssh_channel_open_failure_msg 5 (mkOpenFailure 2 (mk_ssh_string 0 2 0 (PMem [110; 111]) []) (mk_ssh_string 0 0 0 (PMem []) [])) = None.
Proof.
  destruct (open_replies_overflow 3 5 (mkOpenMsg 5 1000 500 None)
    (mkOpenFailure 2 (mk_ssh_string 0 2 0 (PMem [110; 111]) []) (mk_ssh_string 0 0 0 (PMem []) [])) [110; 111] [])
    as (H1 & H2 & _); [reflexivity | reflexivity | by vm_compute |].
  by split.
Defined.

(** ** The message that opens a channel *)

Definition open_data_enc (type : Z) (data : option open_data) : option bytes :=
  if (type =? SSH_CHANNEL_TYPE_DIRECT) || (type =? SSH_CHANNEL_TYPE_FORWARDED) then
    let? d := data in
    match d with
    | OpenLocal path => let? x := s_data path in Some (encode_string x ++ be_encode 4 0 ++ be_encode 4 0)
    | OpenTcpip address portnr orig_ip orig_portnr =>
        let? x := s_data address in let? y := s_data orig_ip in
        Some (encode_string x ++ be_encode 4 portnr ++ encode_string y ++ be_encode 4 orig_portnr)
    | OpenOther _ => Some []
    end
  else Some [].

Definition channel_name (type : Z) (m : open_msg) : bytes :=
  get_name_ssh_channel type (match om_data m with Some d => open_data_type d | None => 0 end).

Definition open_bytes (type lcnr : Z) (m : open_msg) (x : bytes) : bytes :=
  [SSH_MSG_CHANNEL_OPEN] ++ encode_string (channel_name type m) ++ be_encode 4 lcnr ++
  be_encode 4 (om_windowsize m) ++ be_encode 4 (om_maxpacketsize m) ++ x.

Lemma channel_name_enc type m : sarg_enc (ArgC (channel_name type m ++ [0])) = Some (encode_string (channel_name type m)).
Proof.
  assert (no_nul (channel_name type m)) as Hn.
  { unfold channel_name, get_name_ssh_channel. bdestr; repeat constructor; discriminate. }
  cbn [sarg_enc]. rewrite strlen_app by done. opt. do 2 f_equal. apply take_app_length'. unfold zlen. lia.
Qed.

(** The calls after the window size as a program of writes, and the last one, an integer. *)
Lemma open_tail_prog type m x :
  open_data_enc type (om_data m) = Some x ->
  exists k r v,
    (forall mb, (let? mb := msg_store_uint32 mb (om_maxpacketsize m) in send_open_data mb type (om_data m)) =
       (let? mb := run k mb in msg_store_uint32 mb v)) /\
    enc k = Some r /\ be_encode 4 (om_maxpacketsize m) ++ x = r ++ be_encode 4 v.
Proof.
  assert (x = [] -> exists k r v, (forall mb, (let? mb := msg_store_uint32 mb (om_maxpacketsize m) in Some mb) =
       (let? mb := run k mb in msg_store_uint32 mb v)) /\
    enc k = Some r /\ be_encode 4 (om_maxpacketsize m) ++ x = r ++ be_encode 4 v) as Hnil.
  { intros ->. exists WNil, [], (om_maxpacketsize m). rewrite app_nil_r. split; [| done].
    intros mb. cbn [run mbind option_bind]. by destruct (msg_store_uint32 mb _). }
  unfold open_data_enc, send_open_data. destruct ((type =? _) || _).
  2: { intros [= <-]. by apply Hnil. }
  destruct (om_data m) as [[path|a pn o opn|t]|]; cbn [mbind option_bind]; [| | intros [= <-]; by apply Hnil | done].
  - destruct (s_data path) as [y|] eqn:Ey; cbn [mbind option_bind]; [| done]. intros [= <-].
    exists (WU32 (om_maxpacketsize m) (WStr (ArgS path) (WU32 0 WNil))), (be_encode 4 (om_maxpacketsize m) ++ encode_string y ++ be_encode 4 0), 0.
    split; [| split; [cbn [enc sarg_enc]; rewrite Ey; cbn [mbind option_bind]; by rewrite app_nil_r | by rewrite <- !app_assoc]].
    intros mb. cbn [run]. destruct (msg_store_uint32 mb _) as [mb1|]; opt; [| done].
    destruct (msg_write_ssh_string mb1 _) as [mb2|]; opt; [| done]. by destruct (msg_store_uint32 mb2 0).
  - destruct (s_data a) as [y|] eqn:Ey; cbn [mbind option_bind]; [| done].
    destruct (s_data o) as [z|] eqn:Ez; cbn [mbind option_bind]; [| done]. intros [= <-].
    exists (WU32 (om_maxpacketsize m) (WStr (ArgS a) (WU32 pn (WStr (ArgS o) WNil)))),
      (be_encode 4 (om_maxpacketsize m) ++ encode_string y ++ be_encode 4 pn ++ encode_string z), opn.
    split; [| split; [cbn [enc sarg_enc]; rewrite Ey, Ez; cbn [mbind option_bind]; by rewrite app_nil_r | by rewrite <- !app_assoc]].
    intros mb. cbn [run]. destruct (msg_store_uint32 mb _) as [mb1|]; opt; [| done].
    destruct (msg_write_ssh_string mb1 _) as [mb2|]; opt; [| done]. destruct (msg_store_uint32 mb2 pn) as [mb3|]; opt; [| done].
    by destruct (msg_write_ssh_string mb3 _).
Qed.

Lemma open_message_prog type lcnr m x :
  open_data_enc type (om_data m) = Some x ->
  exists p d v, (forall mb, _send_ssh_channel_open_message mb type lcnr m = (let? mb := run p mb in msg_store_uint32 mb v)) /\
    enc p = Some d /\ open_bytes type lcnr m x = d ++ be_encode 4 v.
Proof.
  intros (k & r & v & Hk & Hr & Hx)%open_tail_prog.
  exists (WByte SSH_MSG_CHANNEL_OPEN (WStr (ArgC (channel_name type m ++ [0])) (WU32 lcnr (WU32 (om_windowsize m) k)))),
    ([SSH_MSG_CHANNEL_OPEN] ++ encode_string (channel_name type m) ++ be_encode 4 lcnr ++ be_encode 4 (om_windowsize m) ++ r), v.
  split; [| split].
  - intros mb. unfold _send_ssh_channel_open_message. fold (channel_name type m). cbn [run].
    destruct (msg_write_byte mb _) as [mb1|]; opt; [| done]. destruct (msg_write_ssh_string mb1 _) as [mb2|]; opt; [| done].
    destruct (msg_store_uint32 mb2 lcnr) as [mb3|]; opt; [| done]. destruct (msg_store_uint32 mb3 _) as [mb4|]; opt; [| done].
    apply Hk.
  - cbn [enc]. by rewrite Hr, channel_name_enc.
  - unfold open_bytes. by rewrite Hx, <- !app_assoc.
Qed.

(** A message that ends with an integer fills a buffer of its own size. *)
Lemma open_message_exact type lcnr m x :
  open_data_enc type (om_data m) = Some x -> is_u32 (zlen (open_bytes type lcnr m x)) ->
  send_ssh_channel_open_msg type lcnr m = Some (message (open_bytes type lcnr m x)).
Proof.
  intros (p & d & v & Hm & He & Hx)%(open_message_prog type lcnr) Hw. rewrite Hx in *. pose proof (run_writes p d He) as Hp.
  rewrite zlen_app, zlen_be_encode in Hw. pose proof (zlen_nonneg d). unfold send_ssh_channel_open_msg. rewrite Hm.
  rewrite (writes_size (m := run p)) by (done || (unfold_width; cbn; lia)). opt.
  rewrite (writes_size (m := fun mb => msg_store_uint32 mb v)) by
    (rewrite ?zlen_be_encode; done || (unfold_width; cbn; lia)). opt.
  cbn [mb_set_pos mb_pos init_msg_buffer]. rewrite zlen_be_encode, Z.add_0_l. rewrite Hm.
  set (b := replicate (Z.to_nat (zlen d + 4)) 0).
  assert (zlen b = zlen d + 4) as Hb by (unfold b, zlen; rewrite length_replicate; unfold zlen; lia).
  assert (forall mb, set_msg_buffer_payload mb (set_rtype SSH_MSG_CHANNEL_OPEN (init_ssh_payload (zlen d + 4))) = wst [] b) as Eb.
  { intros mb. unfold set_msg_buffer_payload. cbn [set_rtype init_ssh_payload rp_buffer rp_size]. fold b. rewrite <- Hb at 1. done. }
  rewrite Eb. destruct (writes_data (m := run p) [] b) as (mb & -> & [[Hl ->]|[Hl _]]); [rewrite zlen_nil; unfold_width; lia | | lia].
  opt. rewrite <- (app_nil_r (drop (length d) b)).
  rewrite store_uint32_wst by (unfold fits; rewrite ?app_nil_l; unfold_width; replace (Z.of_nat (length d)) with (zlen d) by done;
    replace (length d) with (Z.to_nat (zlen d)) by (unfold zlen; lia); rewrite zlen_drop; lia).
  opt. cbn [wst mb_data mb_pos mbind option_bind]. rewrite app_nil_r. cbn [app]. unfold message.
  assert (head (d ++ be_encode 4 v) = Some SSH_MSG_CHANNEL_OPEN) as Hh by (by rewrite <- Hx).
  by rewrite Hh, zlen_app, zlen_be_encode.
Qed.

(** ** The request that starts a shell, a command or a subsystem *)

Lemma subsys_name_string type rest :
  exists s, set_ssh_string SSH_STRING_INIT (Some (ArgC (get_subsys_name_session_channel type ++ 0 :: rest))) = Some s /\
    s_data s = Some (get_subsys_name_session_channel type) /\ zlen (get_subsys_name_session_channel type) <= 9.
Proof.
  assert (no_nul (get_subsys_name_session_channel type)) as Hn.
  { unfold get_subsys_name_session_channel. bdestr; repeat constructor; discriminate. }
  assert (zlen (get_subsys_name_session_channel type) <= 9) as Hl.
  { unfold get_subsys_name_session_channel. bdestr; vm_compute; discriminate. }
  set (n := get_subsys_name_session_channel type) in *. pose proof (zlen_nonneg n).
  unfold set_ssh_string. rewrite strlen_app by done. opt. rewrite u32_id by (unfold_width; lia). eexists. split; [done |].
  split; [| done]. erewrite s_data_view; [| done | cbn; rewrite zlen_app; pose proof (zlen_nonneg (0 :: rest)); lia].
  cbn [s_len set_ptr set_len]. f_equal. apply take_app_length'. unfold zlen. lia.
Qed.

Lemma start_command_bytes subtype rcnr cmd rest reply :
  no_nul cmd -> is_u32 (32 + zlen cmd) ->
  let d := if (subtype =? SSH_CHANNEL_SESSION_TYPE_EXEC) || (subtype =? SSH_CHANNEL_SESSION_TYPE_SUBSYSTEM)
           then encode_string cmd else [] in
  send_ssh_channel_start_command_msg SSH_CHANNEL_TYPE_SESSION subtype rcnr (cmd ++ 0 :: rest) reply =
    Some (inr (message (request_bytes rcnr (get_subsys_name_session_channel subtype) reply d))).
Proof.
  intros Hc Hw d. pose proof (zlen_nonneg cmd). unfold send_ssh_channel_start_command_msg. rewrite Z.eqb_refl, strlen_app by done. opt.
  rewrite u32_id by (unfold_width; lia). cbn [write_ssh_string]. rewrite strlen_app by done. opt. rewrite u32_id by (unfold_width; lia).
  rewrite (copy_hlpr_spec _ cmd) by (first [done | unfold_width; lia | rewrite zlen_app; pose proof (zlen_nonneg (0 :: rest)); lia |
    unfold zlen; rewrite length_replicate; lia | symmetry; apply take_app_length'; unfold zlen; lia]).
  cbn [mbind option_bind].
  destruct (subsys_name_string subtype []) as (s & -> & Hs & Hl). opt. set (name := get_subsys_name_session_channel subtype) in *.
  pose proof (zlen_nonneg name).
  rewrite drop_ge by (rewrite length_replicate; lia). rewrite app_nil_r. fold (encode_string cmd).
  unfold d. destruct (_ || _).
  - rewrite (send_request_bytes rcnr _ name (encode_string cmd)); [done | done | |].
    + cbn [rq_data rq_len]. rewrite mem_read_Some by (rewrite ?zlen_encode_string; lia). rewrite drop_0. f_equal.
      apply take_ge. pose proof (zlen_encode_string cmd). unfold zlen in *. lia.
    + rewrite zlen_encode_string. unfold_width. lia.
  - rewrite (send_request_bytes rcnr _ name []); [done | done | done |]. rewrite zlen_nil. unfold_width. lia.
Qed.

End SshChannelSend.
