(* ===== verification/SshChannel.v ===== *)
(** * ssh/receive/msg-channel.c: the messages of a channel are received

    The handlers of the channel messages with the callbacks of a channel
    (ssh/channel/init.c, and interface/sftp.c for a channel of the sftp client),
    and the table of handlers of a connection (ssh/receive/init.c).  The
    channels are found in the table of the file ChannelTable, which holds the
    local number and the flags of each; the other fields are kept beside it. *)
From stdpp Require Import base list option strings gmap.
From Stdlib Require Import ZArith Lia.
From S2P Require Import Prelude SshUint SshString MsgBuffer SimpleList ListStore ChannelTable SshCipher SshPacket SshPayload SshChannelSend.
Import SshUint SshString MsgBuffer ListStore ChannelTable SshPayload SshChannelSend.
Open Scope Z_scope.

Module SshChannel.

Definition SSH_CHANNEL_FLAG_SERVER_EOF := 16.
Definition SSH_CHANNEL_FLAG_QUEUE_EOF := 2 ^ 13.
Definition SSH_CHANNEL_FLAG_QUEUE_CLOSE := 2 ^ 14.
Definition SSH_CHANNEL_FLAG_QUEUE_EXIT_STATUS := 2 ^ 15.
Definition SSH_CHANNEL_FLAG_QUEUE_EXIT_SIGNAL := 2 ^ 16.

(** ** A channel *)

(** The functions that [channel->iocb] points to. *)
Inductive iocb : Type :=
| recv_msg_default
| handle_data_ssh_channel_sftp_client
| handle_xdata_ssh_channel_sftp_client
| handle_open_ssh_channel_sftp_client
| handle_request_ssh_channel_sftp_client.

Inductive iocbnr : Type := RECV_DATA | RECV_XDATA | RECV_REQUEST | RECV_OPEN.

(** [ch_passed] are the calls of [recv_data] of the sftp client: the data and
    the number of the packet. *)
Record chan : Type := mkChan {
  ch_type : Z; ch_rcnr : Z; ch_maxpacketsize : Z; ch_lwindowsize : Z; ch_rwindowsize : Z;
  ch_exit_status : Z; ch_exit_signal : Z;
  ch_queue : queue; ch_iocb : iocbnr -> iocb; ch_passed : list (bytes * Z) }.

Definition set_rwindowsize n d := mkChan (ch_type d) (ch_rcnr d) (ch_maxpacketsize d) (ch_lwindowsize d) n
  (ch_exit_status d) (ch_exit_signal d) (ch_queue d) (ch_iocb d) (ch_passed d).
Definition set_exit status signal d := mkChan (ch_type d) (ch_rcnr d) (ch_maxpacketsize d) (ch_lwindowsize d) (ch_rwindowsize d)
  status signal (ch_queue d) (ch_iocb d) (ch_passed d).
Definition set_queue q d := mkChan (ch_type d) (ch_rcnr d) (ch_maxpacketsize d) (ch_lwindowsize d) (ch_rwindowsize d)
  (ch_exit_status d) (ch_exit_signal d) q (ch_iocb d) (ch_passed d).
Definition add_passed x d := mkChan (ch_type d) (ch_rcnr d) (ch_maxpacketsize d) (ch_lwindowsize d) (ch_rwindowsize d)
  (ch_exit_status d) (ch_exit_signal d) (ch_queue d) (ch_iocb d) (ch_passed d ++ [x]).

(** The fields that [init_ssh_channel] sets; the flags are INIT and CONNECTION_REFCOUNT. *)
Definition init_ssh_channel (type : Z) : channel * chan :=
  (mk_channel (2 ^ 32 - 1) (Z.lor 1 (2 ^ 21)),
   mkChan type (2 ^ 32 - 1) 0 0 0 0 0 init_payload_queue (fun _ => recv_msg_default) []).

(** [channel->iocb[nr]] on a channel and a payload; [None]: it took the payload. *)
Definition run_iocb (f : iocb) (d : chan) (p : received) : outcome (chan * option received) :=
  match f with
  | recv_msg_default => Ret (set_queue (queue_ssh_payload (ch_queue d) p) d, None)
  | handle_data_ssh_channel_sftp_client =>
      let! data := lift (mem_read (rp_buffer p) 0 (rp_len p)) in
      Ret (add_passed (data, rp_sequence p) d, Some p)
  | handle_xdata_ssh_channel_sftp_client => Ret (d, Some p)
  | handle_open_ssh_channel_sftp_client => Ret (d, Some p)
  | handle_request_ssh_channel_sftp_client =>
      let! _ := lift (read_ssh_string (rp_buffer p) (rp_len p) None) in Ret (d, Some p)
  end.

(** ** The signal of [exit-signal] *)

Definition is_literal (s : ssh_string) (l : string) : option bool :=
  let? r := compare_ssh_string s (ArgC (lit l ++ [0])) in Some (r =? 0).

Definition exit_signals : list (string * Z) :=
  [("ABRT", 1); ("ALRM", 2); ("FPE", 3); ("HUP", 4); ("ILL", 5); ("INT", 6); ("KILL", 7); ("PIPE", 8); ("QUIT", 9);
   ("SEGV", 10); ("TERM", 11); ("USR1", 12); ("USR2", 13)]%string.

(** The chain of comparisons. *)
Fixpoint first_literal (s : ssh_string) (l : list (string * Z)) : option Z :=
  match l with
  | [] => Some 0
  | (name, n) :: l => let? b : bool := is_literal s name in if b then Some n else first_literal s l
  end.

Definition get_ssh_channel_exit_signal (name : ssh_string) : option Z := first_literal name exit_signals.

(** ** The handlers *)

Section Handlers.
Context {S : Type} `{!ListStore S} (tablehash fuel : nat).

(** [st_freed]: the payloads given to [free_payload]; [st_unimplemented]: the
    numbers for which MSG_UNIMPLEMENTED is sent. *)
Record state : Type := mkState {
  st_table : table (S := S); st_chan : gmap nat chan; st_freed : list received; st_unimplemented : list Z }.

Definition handler : Type := state -> received -> outcome state.

Definition free_payload (p : received) (s : state) : state :=
  mkState (st_table s) (st_chan s) (st_freed s ++ [p]) (st_unimplemented s).

(** [if (payload) free_payload (&payload)] *)
Definition release (o : option received) (s : state) : state :=
  match o with Some p => free_payload p s | None => s end.

Definition callback : Type := channel -> chan -> received -> outcome (channel * chan * option received).

(** [lookup_ssh_channel_for_cb (lcnr, &payload, cb, ptr)]: the state and the payload after it. *)
Definition call_channel (s : state) (lcnr : Z) (p : received) (cb : callback) : outcome (state * option received) :=
  let! (_, e) := lookup_ssh_channel_for_cb tablehash fuel (st_table s) lcnr (fun _ => 0) in
  match e with
  | None => Ret (s, Some p)
  | Some e =>
      let! c := lift (t_channels (st_table s) !! e) in
      let! d := lift (st_chan s !! e) in
      let! (c, d, o) := cb c d p in
      Ret (mkState (t_set_channel e c (st_table s)) (<[e := d]> (st_chan s)) (st_freed s) (st_unimplemented s), o)
  end.

Definition iocb_cb (nr : iocbnr) : callback := fun c d p =>
  let! (d, o) := run_iocb (ch_iocb d nr) d p in Ret (c, d, o).

(** A handler that calls a channel and then frees what is left. *)
Definition deliver (s : state) (lcnr : Z) (p : received) (cb : callback) : outcome state :=
  let! (s, o) := call_channel s lcnr p cb in Ret (release o s).

Definition receive_msg_channel_open : handler := fun s p => Ret s.

Definition receive_msg_channel_open_confirmation : handler := fun s p =>
  if rp_len p <? 17 then Ret (free_payload p s) else
  let! lcnr := lift (get_uint32 (drop 1 (rp_buffer p))) in
  deliver s lcnr p (iocb_cb RECV_OPEN).

Definition receive_msg_channel_open_failure : handler := fun s p =>
  if rp_len p <? 17 then Ret (free_payload p s) else
  let! lcnr := lift (get_uint32 (drop 1 (rp_buffer p))) in
  deliver s lcnr p (iocb_cb RECV_OPEN).

(** [hlpr->size] is a signed integer. *)
Definition set_window_size_cb (size : Z) : callback := fun c d p =>
  Ret (c, set_rwindowsize (u32 (ch_rwindowsize d + sgn 32 size)) d, Some p).

(** The last [free_payload] is unconditional; the callback leaves the payload. *)
Definition receive_msg_channel_window_adjust : handler := fun s p =>
  if rp_len p <? 9 then Ret (free_payload p s) else
  let! lcnr := lift (get_uint32 (drop 1 (rp_buffer p))) in
  let! size := lift (get_uint32 (drop 5 (rp_buffer p))) in
  deliver s lcnr p (set_window_size_cb size).

(** The data is moved to the start of the payload. *)
Definition receive_msg_channel_data : handler := fun s p =>
  if 8 <? rp_len p then
    let! lcnr := lift (get_uint32 (drop 1 (rp_buffer p))) in
    let! len := lift (get_uint32 (drop 5 (rp_buffer p))) in
    if u32 (len + 9) <=? rp_len p then
      let! b := lift (memmove (rp_buffer p) 0 9 len) in
      deliver s lcnr (set_rlen len (set_rbuffer b p)) (iocb_cb RECV_DATA)
    else Ret (free_payload p s)
  else Ret (free_payload p s).

Definition receive_msg_channel_extended_data : handler := fun s p =>
  if 13 <? rp_len p then
    let! lcnr := lift (get_uint32 (drop 1 (rp_buffer p))) in
    let! code := lift (get_uint32 (drop 5 (rp_buffer p))) in
    let! len := lift (get_uint32 (drop 9 (rp_buffer p))) in
    if u32 (len + 13) <=? rp_len p then
      let! b := lift (memmove (rp_buffer p) 0 13 len) in
      deliver s lcnr (set_rcode code (set_rlen len (set_rbuffer b p))) (iocb_cb RECV_XDATA)
    else Ret (free_payload p s)
  else Ret (free_payload p s).

(** [struct set_channel_flag_hlpr_s] *)
Record flag_hlpr : Type := mkHlpr { hl_flags : Z; hl_status : Z; hl_exit_status : Z; hl_exit_signal : Z }.

Definition set_channel_flag_cb (h : flag_hlpr) : callback := fun c d p =>
  let d := set_exit (if hl_exit_status h =? 0 then ch_exit_status d else hl_exit_status h)
                    (if hl_exit_signal h =? 0 then ch_exit_signal d else hl_exit_signal h) d in
  let c := if hl_status h =? 0 then c else mk_channel (c_lcnr c) (Z.lor (c_flags c) (hl_status h)) in
  if has (c_flags c) (hl_flags h) then iocb_cb RECV_OPEN c d p else Ret (c, d, Some p).

Definition receive_msg_channel_open_status (flag status : Z) : handler := fun s p =>
  if rp_len p <? 5 then Ret (free_payload p s) else
  let! lcnr := lift (get_uint32 (drop 1 (rp_buffer p))) in
  deliver s lcnr p (set_channel_flag_cb (mkHlpr flag status 0 0)).

Definition receive_msg_channel_eof : handler :=
  receive_msg_channel_open_status SSH_CHANNEL_FLAG_QUEUE_EOF SSH_CHANNEL_FLAG_SERVER_EOF.

Definition receive_msg_channel_close : handler :=
  receive_msg_channel_open_status SSH_CHANNEL_FLAG_QUEUE_CLOSE SSH_CHANNEL_FLAG_SERVER_CLOSE.

(** [payload->len -= pos; memmove (buffer, &buffer[pos], payload->len)] *)
Definition shift_payload (p : received) (pos : Z) : option received :=
  let n := u32 (rp_len p - pos) in
  let? b := memmove (rp_buffer p) 0 pos n in Some (set_rlen n (set_rbuffer b p)).

Definition receive_msg_channel_request_s : handler := fun s p =>
  if 10 <? rp_len p then
    let! lcnr := lift (get_uint32 (drop 1 (rp_buffer p))) in
    let! (r, request) := lift (read_ssh_string (drop 5 (rp_buffer p)) (u32 (rp_len p - 5)) None) in
    if 0 <? r then
      let! p := lift (shift_payload p 5) in
      deliver s lcnr p (iocb_cb RECV_REQUEST)
    else Ret (free_payload p s)
  else Ret (free_payload p s).

(** The request "exit-status": the value behind the name and the boolean. *)
Definition read_exit_status (p : received) (tmp : Z) : option Z :=
  if u32 (tmp + 4) <=? rp_len p then get_uint32 (drop (Z.to_nat tmp) (rp_buffer p)) else Some 0.

(** The request "exit-signal": both strings are read at [pos], where the name
    of the request is. *)
Definition read_exit_signal (p : received) (pos tmp : Z) : option Z :=
  if u32 (tmp + 13) <=? rp_len p then
    let? (r, name) := read_ssh_string (drop (Z.to_nat pos) (rp_buffer p)) (u32 (rp_len p - tmp)) None in
    let tmp := u32 (u32 (tmp + r) + 1) in
    let? (r, message) := read_ssh_string (drop (Z.to_nat pos) (rp_buffer p)) (u32 (rp_len p - tmp)) None in
    get_ssh_channel_exit_signal name
  else Some 0.

Definition receive_msg_channel_request_c : handler := fun s p =>
  if 10 <? rp_len p then
    let! lcnr := lift (get_uint32 (drop 1 (rp_buffer p))) in
    let! (r, request) := lift (read_ssh_string (drop 5 (rp_buffer p)) (u32 (rp_len p - 5)) None) in
    if 0 <? r then
      let tmp := u32 (u32 (5 + get_ssh_string_length request (Z.lor SSH_STRING_FLAG_HEADER SSH_STRING_FLAG_DATA)) + 1) in
      let! is_status := lift (is_literal request "exit-status") in
      let! is_signal := lift (is_literal request "exit-signal") in
      if (is_status : bool) then
        let! n := lift (read_exit_status p tmp) in
        let! p := lift (shift_payload p 5) in
        deliver s lcnr p (set_channel_flag_cb (mkHlpr SSH_CHANNEL_FLAG_QUEUE_EXIT_STATUS 0 n 0))
      else if (is_signal : bool) then
        let! n := lift (read_exit_signal p 5 tmp) in
        let! p := lift (shift_payload p 5) in
        deliver s lcnr p (set_channel_flag_cb (mkHlpr SSH_CHANNEL_FLAG_QUEUE_EXIT_SIGNAL 0 0 n))
      else Ret (free_payload p s)
    else Ret (free_payload p s)
  else Ret (free_payload p s).

Definition receive_msg_channel_request_reply : handler := fun s p =>
  if rp_len p <? 5 then Ret (free_payload p s) else
  let! lcnr := lift (get_uint32 (drop 1 (rp_buffer p))) in
  let! p := lift (shift_payload p 5) in
  deliver s lcnr p (iocb_cb RECV_REQUEST).

(** ** The handlers of a connection *)

Definition msg_not_supported : handler := fun s p =>
  Ret (mkState (st_table s) (st_chan s) (st_freed s ++ [p]) (st_unimplemented s ++ [rp_sequence p])).

(** [connection->cb] *)
Abbreviation cbs := (Z -> handler).

Definition register_msg_cb (c : cbs) (type : Z) (cb : handler) : cbs := fun t => if t =? type then cb else c t.

Definition process_cb_ssh_payload (c : cbs) : handler := fun s p => c (rp_type p) s p.

Definition register_channel_cb (server enable : bool) (c : cbs) : cbs :=
  if enable then
    let c :=
      if server then
        let c := register_msg_cb c SSH_MSG_CHANNEL_OPEN receive_msg_channel_open in
        register_msg_cb c SSH_MSG_CHANNEL_REQUEST receive_msg_channel_request_s
      else
        let c := register_msg_cb c SSH_MSG_CHANNEL_OPEN_CONFIRMATION receive_msg_channel_open_confirmation in
        let c := register_msg_cb c SSH_MSG_CHANNEL_OPEN_FAILURE receive_msg_channel_open_failure in
        register_msg_cb c SSH_MSG_CHANNEL_REQUEST receive_msg_channel_request_c in
    let c := register_msg_cb c SSH_MSG_CHANNEL_WINDOW_ADJUST receive_msg_channel_window_adjust in
    let c := register_msg_cb c SSH_MSG_CHANNEL_DATA receive_msg_channel_data in
    let c := register_msg_cb c SSH_MSG_CHANNEL_EXTENDED_DATA receive_msg_channel_extended_data in
    let c := register_msg_cb c SSH_MSG_CHANNEL_EOF receive_msg_channel_eof in
    let c := register_msg_cb c SSH_MSG_CHANNEL_CLOSE receive_msg_channel_close in
    let c := register_msg_cb c SSH_MSG_CHANNEL_SUCCESS receive_msg_channel_request_reply in
    register_msg_cb c SSH_MSG_CHANNEL_FAILURE receive_msg_channel_request_reply
  else foldl (fun c i => register_msg_cb c i msg_not_supported) c (seqZ 80 21).

(** A connection on which only the channels are set up. *)
Definition channel_cbs (server : bool) : cbs := register_channel_cb server true (fun _ => msg_not_supported).

(** ** Calling a channel *)

Abbreviation in_table := (row_member tablehash SSH_CHANNELS_TABLE_SIZE).

Record wf_state (s : state) (A : gmap nat (list nat)) : Prop := {
  ws_table : wf_table tablehash (st_table s) A;
  ws_fuel h l : A !! h = Some l -> (length l < fuel)%nat;
  ws_chan e : in_table A e -> is_Some (st_chan s !! e) }.

(** The state after the callback changed channel [e]. *)
Definition put_channel (s : state) (e : nat) (c : channel) (d : chan) : state :=
  mkState (t_set_channel e c (st_table s)) (<[e := d]> (st_chan s)) (st_freed s) (st_unimplemented s).

(** [e] is the channel with local number [lcnr]. *)
Definition at_channel (s : state) (A : gmap nat (list nat)) (lcnr : Z) (e : nat) (c : channel) (d : chan) : Prop :=
  in_table A e /\ t_channels (st_table s) !! e = Some c /\ c_lcnr c = lcnr /\ st_chan s !! e = Some d.

Lemma call_channel_at s A lcnr e c d p cb :
  wf_state s A -> at_channel s A lcnr e c d ->
  call_channel s lcnr p cb = (let! (c, d, o) := cb c d p in Ret (put_channel s e c d, o)).
Proof.
  intros [Ht Hf Hc] (He & Hec & Hl & Hd). unfold call_channel.
  destruct (channel_lookup_correct tablehash (st_table s) A lcnr (fun _ => 0) fuel Ht Hf)
    as [(e' & c' & -> & He' & Hec' & Hl' & Hu) | [_ Hno]]; [| by destruct (Hno e c He Hec Hl)].
  assert (e = e') as <- by (by apply (Hu e c)). cbn [outcome_bind]. by rewrite Hec, Hd.
Qed.

Lemma call_channel_cases s A lcnr p cb :
  wf_state s A ->
  (exists e c d, at_channel s A lcnr e c d /\
     call_channel s lcnr p cb = (let! (c, d, o) := cb c d p in Ret (put_channel s e c d, o))) \/
  call_channel s lcnr p cb = Ret (s, Some p).
Proof.
  intros Hwf. pose proof Hwf as [Ht Hf Hc].
  destruct (channel_lookup_correct tablehash (st_table s) A lcnr (fun _ => 0) fuel Ht Hf)
    as [(e & c & E & He & Hec & Hl & Hu) | [E Hno]].
  - left. destruct (Hc e He) as [d Hd]. exists e, c, d. split; [done |]. by apply (call_channel_at s A).
  - right. unfold call_channel. by rewrite E.
Qed.

(** ** Callbacks keep the payload or take it *)

Class callback_ok (cb : callback) : Prop := {
  cb_keeps c d p c' d' o : cb c d p = Ret (c', d', o) ->
    c_lcnr c' = c_lcnr c /\ (has (c_flags c) SSH_CHANNEL_FLAG_TABLE = true -> has (c_flags c') SSH_CHANNEL_FLAG_TABLE = true) /\
    (o = Some p /\ ch_queue d' = ch_queue d \/ o = None /\ ch_queue d' = ch_queue d ++ [p]);
  cb_defined c d p : wf_received p -> exists x, cb c d p = Ret x }.

Lemma iocb_keeps f d p d' o :
  run_iocb f d p = Ret (d', o) -> o = Some p /\ ch_queue d' = ch_queue d \/ o = None /\ ch_queue d' = ch_queue d ++ [p].
Proof.
  destruct f; cbn [run_iocb].
  - intros [= <- <-]. by right.
  - destruct (mem_read _ _ _); cbn [lift outcome_bind]; [| done]. intros [= <- <-]. by left.
  - intros [= <- <-]. by left.
  - intros [= <- <-]. by left.
  - destruct (read_ssh_string _ _ _); cbn [lift outcome_bind]; [| done]. intros [= <- <-]. by left.
Qed.

Lemma get_uint32_defined b : 4 <= zlen b -> exists n, get_uint32 b = Some n.
Proof. destruct b as [|? [|? [|? [|? b]]]]; intros Hl; try (by vm_compute in Hl). by eexists. Qed.

Lemma read_ssh_string_defined b size : 0 <= size <= zlen b -> exists x, read_ssh_string b size None = Some x.
Proof.
  intros Hs. unfold read_ssh_string. cbn [default s_size SSH_STRING_INIT Z.eqb].
  destruct (Z.leb_spec 4 size); [| by eexists].
  destruct (get_uint32_defined b) as (n & ->); [lia |]. opt. destruct (_ <=? _); by eexists.
Qed.

Lemma iocb_defined f d p : wf_received p -> exists x, run_iocb f d p = Ret x.
Proof.
  intros [Hb Hs Hl Hw]. destruct f; cbn [run_iocb]; try by eexists.
  - rewrite mem_read_Some by lia. by eexists.
  - destruct (read_ssh_string_defined (rp_buffer p) (rp_len p)) as (x & ->); [lia |]. by eexists.
Qed.

#[local] Instance iocb_cb_ok nr : callback_ok (iocb_cb nr).
Proof.
  split; intros c d p; unfold iocb_cb.
  - intros c' d' o. destruct (run_iocb _ d p) as [[d1 o1]| |] eqn:E; cbn [outcome_bind]; [| done | done].
    intros [= <- <- <-]. split; [done |]. split; [done |]. by apply iocb_keeps in E.
  - intros Hp. destruct (iocb_defined (ch_iocb d nr) d p Hp) as ([d1 o1] & ->). by eexists.
Qed.

#[local] Instance set_window_size_cb_ok n : callback_ok (set_window_size_cb n).
Proof. split; [intros c d p c' d' o [= <- <- <-]; by repeat split; try left | intros; by eexists]. Qed.

#[local] Instance set_channel_flag_cb_ok h : callback_ok (set_channel_flag_cb h).
Proof.
  split; intros c d p; unfold set_channel_flag_cb; set (c1 := if hl_status h =? 0 then c else _); set (d1 := set_exit _ _ d).
  - assert (c_lcnr c1 = c_lcnr c /\ (has (c_flags c) SSH_CHANNEL_FLAG_TABLE = true -> has (c_flags c1) SSH_CHANNEL_FLAG_TABLE = true)) as [Hl Ht].
    { unfold c1. destruct (_ =? 0); [done |]. split; [done |]. cbn [c_flags]. intros Hh. by rewrite has_lor, Hh. }
    intros c' d' o. destruct (has (c_flags c1) (hl_flags h)).
    + intros Hcb. apply cb_keeps in Hcb as (? & ? & ?). split; [congruence |]. split; [auto | done].
    + intros [= <- <- <-]. split; [done |]. split; [done |]. by left.
  - intros Hp. destruct (has _ _); [by apply cb_defined | by eexists].
Qed.

(** ** A payload has one owner *)

Definition queue_of (s : state) (e : nat) : queue := from_option ch_queue [] (st_chan s !! e).

(** [p] went to the end of the queue of one channel, or it was freed. *)
Definition owned (s s' : state) (p : received) : Prop :=
  (st_freed s' = st_freed s ++ [p] /\ forall e, queue_of s' e = queue_of s e) \/
  (st_freed s' = st_freed s /\ exists e, is_Some (st_chan s !! e) /\ queue_of s' e = queue_of s e ++ [p] /\
     forall f, f <> e -> queue_of s' f = queue_of s f).

Lemma put_channel_wf s A lcnr e c d c' d' :
  wf_state s A -> at_channel s A lcnr e c d -> c_lcnr c' = c_lcnr c ->
  has (c_flags c') SSH_CHANNEL_FLAG_TABLE = true -> wf_state (put_channel s e c' d') A.
Proof.
  intros [Ht Hf Hc] (He & Hec & Hl & Hd) Hlc Hfl.
  assert (forall f x, <[e:=c']> (t_channels (st_table s)) !! f = Some x ->
    exists y, t_channels (st_table s) !! f = Some y /\ c_lcnr y = c_lcnr x /\
      (has (c_flags x) SSH_CHANNEL_FLAG_TABLE = true -> in_table A f)) as Hold.
  { intros f x [[<- <-] | [Hne Hx]]%lookup_insert_Some; [by exists c |]. exists x. split; [done |]. split; [done |].
    by apply (wt_flag _ _ _ Ht). }
  split; [| done |].
  - split; cbn [put_channel st_table t_set_channel t_store t_channels t_channelctr t_tablecount].
    + apply Ht.
    + intros i Hi. destruct (wt_rows _ _ _ Ht i Hi) as (l & Hlk & Hall). exists l. split; [done |].
      apply (Forall_impl _ _ _ Hall). intros f (x & Hx & Hxf & Hr & Hm). unfold row_channel.
      cbn [t_channels t_set_channel t_channelctr]. destruct (decide (f = e)) as [->|Hne].
      * rewrite lookup_insert_eq. exists c'. rewrite Hec in Hx. injection Hx as <-. rewrite Hlc. done.
      * rewrite lookup_insert_ne by done. by exists x.
    + intros f x Hx Hxf. destruct (Hold f x Hx) as (_ & _ & _ & Hin). by apply Hin.
    + intros f g x y Hif Hig Hx Hy Exy. destruct (Hold f x Hx) as (x0 & Hx0 & Ex & _). destruct (Hold g y Hy) as (y0 & Hy0 & Ey & _).
      apply (wt_unique _ _ _ Ht f g x0 y0); [done | done | done | done | congruence].
    + apply Ht.
    + apply Ht.
  - intros f Hin. cbn [put_channel st_chan]. destruct (decide (f = e)) as [->|Hne].
    + rewrite lookup_insert_eq. by eexists.
    + rewrite lookup_insert_ne by done. by apply Hc.
Qed.

Lemma queue_of_put s e c d f : queue_of (put_channel s e c d) f = if decide (f = e) then ch_queue d else queue_of s f.
Proof.
  unfold queue_of. cbn [put_channel st_chan]. destruct (decide (f = e)) as [->|Hne].
  - by rewrite lookup_insert_eq.
  - by rewrite lookup_insert_ne.
Qed.

Lemma at_channel_queue s A lcnr e c d : at_channel s A lcnr e c d -> queue_of s e = ch_queue d.
Proof. intros (_ & _ & _ & Hd). unfold queue_of. by rewrite Hd. Qed.

Lemma free_wf s A p : wf_state s A -> wf_state (free_payload p s) A.
Proof. intros [? ? ?]. by split. Qed.

Lemma free_owned s A p : wf_state s A -> wf_state (free_payload p s) A /\ owned s (free_payload p s) p.
Proof. intros Hwf. split; [by apply free_wf |]. by left. Qed.

Lemma at_channel_flag s A lcnr e c d : wf_state s A -> at_channel s A lcnr e c d -> has (c_flags c) SSH_CHANNEL_FLAG_TABLE = true.
Proof.
  intros [Ht _ _] (He & Hec & _). destruct (in_table_channel _ _ _ _ Ht He) as (c' & Hc' & Hf & _). congruence.
Qed.

Lemma deliver_owned s A lcnr p cb s' :
  callback_ok cb -> wf_state s A -> deliver s lcnr p cb = Ret s' -> wf_state s' A /\ owned s s' p.
Proof.
  intros Hcb Hwf. unfold deliver.
  destruct (call_channel_cases s A lcnr p cb Hwf) as [(e & c & d & Hat & ->) | ->]; cbn [outcome_bind].
  2: { intros [= <-]. by apply free_owned. }
  destruct (cb c d p) as [[[c' d'] o]| |] eqn:E; cbn [outcome_bind]; [| done | done]. intros [= <-].
  apply cb_keeps in E as (Hl & Hf & Hq). pose proof (at_channel_flag _ _ _ _ _ _ Hwf Hat) as Hfl.
  pose proof (put_channel_wf s A lcnr e c d c' d' Hwf Hat Hl (Hf Hfl)) as Hwf'.
  pose proof (at_channel_queue _ _ _ _ _ _ Hat) as Hqe.
  destruct Hq as [[-> Hq] | [-> Hq]]; cbn [release].
  - split; [by apply free_wf |]. left. split; [done |]. intros f.
    change (queue_of (free_payload p (put_channel s e c' d')) f) with (queue_of (put_channel s e c' d') f).
    rewrite queue_of_put. case_decide as Hd; [| done]. congruence.
  - split; [done |]. right. split; [done |]. exists e. split; [by destruct Hat as (_ & _ & _ & ->) |]. split.
    + rewrite queue_of_put, decide_True by done. congruence.
    + intros f Hne. by rewrite queue_of_put, decide_False.
Qed.

Lemma deliver_defined s A lcnr p cb : callback_ok cb -> wf_state s A -> wf_received p -> exists s', deliver s lcnr p cb = Ret s'.
Proof.
  intros Hcb Hwf Hp. unfold deliver.
  destruct (call_channel_cases s A lcnr p cb Hwf) as [(e & c & d & _ & ->) | ->]; cbn [outcome_bind]; [| by eexists].
  destruct (cb_defined c d p Hp) as ([[c' d'] o] & ->). by eexists.
Qed.

(** The handlers that free every payload or give it to one channel. *)
Definition same_payload (p q : received) : Prop := rp_type q = rp_type p /\ rp_sequence q = rp_sequence p.

Definition owning (h : handler) : Prop :=
  forall s A p s', wf_state s A -> h s p = Ret s' -> wf_state s' A /\ exists q, same_payload p q /\ owned s s' q.

Lemma owning_free s A p s' :
  wf_state s A -> Ret (free_payload p s) = Ret s' -> wf_state s' A /\ exists q, same_payload p q /\ owned s s' q.
Proof. intros Hwf [= <-]. destruct (free_owned s A p Hwf) as [? ?]. split; [done |]. by exists p. Qed.

Lemma owning_deliver s A lcnr p q cb s' :
  callback_ok cb -> same_payload p q -> wf_state s A -> deliver s lcnr q cb = Ret s' ->
  wf_state s' A /\ exists q, same_payload p q /\ owned s s' q.
Proof. intros Hcb Hpq Hwf E. destruct (deliver_owned _ _ _ _ _ _ Hcb Hwf E) as [? ?]. split; [done |]. by exists q. Qed.

Lemma shift_same p pos q : shift_payload p pos = Some q -> same_payload p q.
Proof. unfold shift_payload. destruct (memmove _ _ _ _); opt; [| done]. by intros [= <-]. Qed.

Ltac own :=
  match goal with
  | |- Ret (free_payload _ _) = Ret _ -> _ => by apply owning_free
  | |- deliver _ _ _ _ = Ret _ -> _ => apply owning_deliver; [apply _ | done || by eapply shift_same | done]
  | |- (if ?b then _ else _) = Ret _ -> _ => destruct b
  | |- outcome_bind (lift ?m) _ = Ret _ -> _ => destruct m as [[]|] eqn:?; cbn [lift outcome_bind]; [| done]
  | |- outcome_bind (lift ?m) _ = Ret _ -> _ => destruct m eqn:?; cbn [lift outcome_bind]; [| done]
  end.

Lemma owning_handlers server type : (server = true -> type <> SSH_MSG_CHANNEL_OPEN) -> owning (channel_cbs server type).
Proof.
  intros Hopen s A p s' Hwf. unfold channel_cbs, register_channel_cb, register_msg_cb.
  assert (msg_not_supported s p = Ret s' -> wf_state s' A /\ exists q, same_payload p q /\ owned s s' q) as Hns.
  { intros [= <-]. destruct (free_owned s A p Hwf) as [[? ? ?] Ho]. split; [by split |]. by exists p. }
  destruct server; bdestr; try done; try (by destruct (Hopen eq_refl));
  unfold receive_msg_channel_open_confirmation, receive_msg_channel_open_failure, receive_msg_channel_window_adjust,
    receive_msg_channel_data, receive_msg_channel_extended_data, receive_msg_channel_eof, receive_msg_channel_close,
    receive_msg_channel_open_status, receive_msg_channel_request_s, receive_msg_channel_request_c, receive_msg_channel_request_reply;
  repeat own.
Qed.

(** ** Memory *)

Lemma move_defined b pos n :
  0 <= pos -> 0 <= n -> pos + n <= zlen b -> wf_bytes b ->
  exists b', memmove b 0 pos n = Some b' /\ zlen b' = zlen b /\ wf_bytes b'.
Proof.
  intros Hp Hn Hl Hwf. unfold memmove. rewrite mem_read_Some by lia. cbn [mbind option_bind].
  set (d := take _ _). assert (zlen d = n) as Hd by (unfold d; rewrite zlen_take; rewrite ?zlen_drop; lia).
  destruct (mem_write b 0 d) as [b'|] eqn:E; [| rewrite mem_write_Some in E by lia; done].
  exists b'. split; [done |]. split; [by apply mem_write_len in E |].
  eapply mem_write_wf; [done | done |]. by apply Forall_take, Forall_drop.
Qed.

Lemma shift_defined p pos : wf_received p -> 0 <= pos <= rp_len p -> exists q, shift_payload p pos = Some q /\ wf_received q.
Proof.
  intros [Hb Hs Hl Hw] Hp. unfold shift_payload. rewrite u32_id by (unfold_width; lia).
  destruct (move_defined (rp_buffer p) pos (rp_len p - pos)) as (b & -> & Hz & Hwf); [lia | lia | lia | done |].
  opt. eexists. split; [done |]. split; cbn; [done | lia | lia | done].
Qed.

Lemma read_u32 p (i : nat) : wf_received p -> Z.of_nat i + 4 <= rp_len p ->
  exists n, get_uint32 (drop i (rp_buffer p)) = Some n /\ is_u32 n.
Proof.
  intros [Hb Hs Hl Hw] Hn. destruct (get_uint32_defined (drop i (rp_buffer p))) as (n & E).
  { pose proof (zlen_drop (Z.of_nat i) (rp_buffer p) ltac:(lia)) as Hz. rewrite Nat2Z.id in Hz. lia. }
  exists n. split; [done |]. apply (get_uint32_inv _ _ (Forall_drop _ _ _ Hb)) in E. apply E.
Qed.

Lemma read_string_any b size : 4 <= zlen b -> exists x, read_ssh_string b size None = Some x.
Proof.
  intros Hb. unfold read_ssh_string. cbn [default s_size SSH_STRING_INIT Z.eqb]. destruct (4 <=? size); [| by eexists].
  destruct (get_uint32_defined b Hb) as (n & ->). opt. destruct (_ <=? _); by eexists.
Qed.

(** ** The name of a request *)

Lemma read_string_name b size r s :
  wf_bytes b -> 0 <= size <= zlen b -> is_u32 size -> read_ssh_string b size None = Some (r, s) -> 0 < r ->
  exists n, get_uint32 b = Some n /\ s_len s = n /\ r = u32 (4 + n) /\ is_u32 n /\
    (is_u32 (4 + n) -> s_data s = Some (take (Z.to_nat n) (drop 4 b)) /\ 4 + n <= size).
Proof.
  intros Hwf Hs Hw. unfold read_ssh_string. cbn [default s_size SSH_STRING_INIT Z.eqb].
  destruct (Z.leb_spec 4 size); [| by intros [= <- <-]].
  destruct (get_uint32 b) as [n|] eqn:E; opt; [| done]. destruct (get_uint32_inv _ _ Hwf E) as (Hn & _).
  cbn [s_len set_len]. destruct (Z.leb_spec (u32 (4 + n)) size) as [Hle|]; [| by intros [= <- <-]].
  intros [= <- <-] Hr. exists n. do 4 (split; [done |]). intros Hw4. rewrite u32_id in Hle by done. split; [| done].
  erewrite s_data_view; [done | done |]. cbn [s_len set_len set_ptr]. unfold_width.
  pose proof (zlen_drop 4 b ltac:(lia)) as Hz. change (Z.to_nat 4) with 4%nat in Hz. lia.
Qed.

Lemma is_literal_defined s l x : 
  s_data s = Some x \/ s_len s <> zlen (lit l) -> no_nul (lit l) -> is_u32 (zlen (lit l)) ->
  exists v, is_literal s l = Some v /\ (v = true -> s_len s = zlen (lit l)).
Proof.
  intros Hs Hn Hw. unfold is_literal, compare_ssh_string. rewrite strlen_app by done. opt. rewrite u32_id by done.
  destruct (Z.eqb_spec (zlen (lit l)) (s_len s)) as [E|E]; opt; [| by exists false].
  destruct Hs as [Hs | Hs]; [| congruence]. pose proof (zlen_nonneg (lit l)).
  rewrite <- E, mem_read_Some by (autorewrite with zlen; lia). opt. rewrite Hs. opt. by eexists.
Qed.

(** No signal has a name as long as "exit-signal". *)
Lemma exit_signal_name s : s_len s = 11 -> get_ssh_channel_exit_signal s = Some 0.
Proof.
  intros Hs. unfold get_ssh_channel_exit_signal, exit_signals. cbn [first_literal].
  unfold is_literal, compare_ssh_string. rewrite Hs. reflexivity.
Qed.

Lemma request_literals p r s :
  wf_received p -> 10 < rp_len p -> read_ssh_string (drop 5 (rp_buffer p)) (u32 (rp_len p - 5)) None = Some (r, s) -> 0 < r ->
  exists a b, is_literal s "exit-status" = Some a /\ is_literal s "exit-signal" = Some b /\
    (a = true \/ b = true -> s_len s = 11 /\ r = 15 /\ get_uint32 (drop 5 (rp_buffer p)) = Some 11 /\ 20 <= rp_len p).
Proof.
  intros [Hb Hs Hl Hw] Hlen E Hr. pose proof (zlen_drop 5 (rp_buffer p) ltac:(lia)) as Hz. change (Z.to_nat 5) with 5%nat in Hz.
  assert (u32 (rp_len p - 5) = rp_len p - 5) as Eu by (apply u32_id; unfold_width; lia). rewrite Eu in E.
  destruct (read_string_name (drop 5 (rp_buffer p)) (rp_len p - 5) r s (Forall_drop _ 5 _ Hb) ltac:(lia) ltac:(unfold_width; lia) E Hr) as (n & Hn & Hsl & Hrn & Hnw & Hd).
  assert (s_data s = Some (take (Z.to_nat n) (drop 4 (drop 5 (rp_buffer p)))) \/ s_len s <> 11) as Hcase.
  { destruct (Z.eq_dec n 11) as [->|]; [left; by apply Hd | right; congruence]. }
  destruct (is_literal_defined s "exit-status" _ Hcase) as (a & Ea & Ha); [repeat constructor; discriminate | by vm_compute |].
  destruct (is_literal_defined s "exit-signal" _ Hcase) as (b & Eb & Hb'); [repeat constructor; discriminate | by vm_compute |].
  exists a, b. split; [done |]. split; [done |]. intros Hab.
  assert (s_len s = 11) as H11 by (destruct Hab as [->| ->]; [by apply Ha | by apply Hb']).
  assert (n = 11) as -> by congruence. split; [done |]. split; [by rewrite Hrn |]. split; [done |].
  destruct Hd as [_ ?]; [by vm_compute | lia].
Qed.

Lemma request_tmp s : s_len s = 11 ->
  u32 (u32 (5 + get_ssh_string_length s (Z.lor SSH_STRING_FLAG_HEADER SSH_STRING_FLAG_DATA)) + 1) = 21.
Proof. intros Hs. unfold get_ssh_string_length. rewrite Hs. reflexivity. Qed.

Lemma exit_status_defined p : wf_received p -> exists n, read_exit_status p 21 = Some n.
Proof.
  intros Hp. unfold read_exit_status. change (u32 (21 + 4)) with 25. destruct (Z.leb_spec 25 (rp_len p)); [| by eexists].
  change (Z.to_nat 21) with 21%nat. destruct (read_u32 p 21 Hp) as (n & -> & _); [lia | by eexists].
Qed.

(** What is read for the name of the signal is the name of the request. *)
Lemma exit_signal_defined p :
  wf_received p -> get_uint32 (drop 5 (rp_buffer p)) = Some 11 -> read_exit_signal p 5 21 = Some 0.
Proof.
  intros [Hb Hs Hl Hw] Hg. unfold read_exit_signal. change (u32 (21 + 13)) with 34. change (Z.to_nat 5) with 5%nat.
  destruct (Z.leb_spec 34 (rp_len p)); [| done].
  assert (4 <= zlen (drop 5 (rp_buffer p))) as Hz.
  { pose proof (zlen_drop 5 (rp_buffer p) ltac:(lia)). change (Z.to_nat 5) with 5%nat in *. lia. }
  assert (u32 (rp_len p - 21) = rp_len p - 21) as -> by (apply u32_id; unfold_width; lia).
  change (read_ssh_string (drop 5 (rp_buffer p)) (rp_len p - 21) None)
    with (read_ssh_string (drop 5 (rp_buffer p)) (rp_len p - 21) (Some SSH_STRING_INIT)).
  rewrite (read_ssh_string_spec _ _ SSH_STRING_INIT 11 eq_refl Hg) by lia.
  destruct (_ <=? _); cbn [mbind option_bind];
    match goal with |- context [read_ssh_string ?b ?n None] => destruct (read_string_any b n Hz) as ([] & ->) end; opt;
    by apply exit_signal_name.
Qed.

(** ** Every handler is defined *)

Section Defined.
Context (s : state) (A : gmap nat (list nat)) (p : received) (Hwf : wf_state s A) (Hp : wf_received p).

(** The common part of the data handlers: [pos] is where the data is, and
    [set] what the handler changes besides. *)
Lemma data_defined lcnr len pos nr (set : received -> received) :
  (forall q, wf_received q -> wf_received (set q)) -> is_u32 len -> 0 <= pos < 2 ^ 31 -> pos <= rp_len p ->
  let h := if u32 (len + pos) <=? rp_len p then
             let! b := lift (memmove (rp_buffer p) 0 pos len) in deliver s lcnr (set (set_rlen len (set_rbuffer b p))) (iocb_cb nr)
           else Ret (free_payload p s) in
  (2 ^ 32 <= pos + len -> h = Ub) /\ (pos + len < 2 ^ 32 -> exists s', h = Ret s').
Proof.
  intros Hset Hn Hpos Hpl h. pose proof Hp as [Hb Hs Hl Hw]. unfold h. split; intros Hlen.
  - assert (u32 (len + pos) = len + pos - 2 ^ 32) as ->.
    { unfold u32. unfold_width. rewrite <- (Z.mod_small (len + pos - 2 ^ 32) (2 ^ 32)) by lia.
      rewrite <- (Z.mod_add (len + pos - 2 ^ 32) 1) by lia. f_equal. lia. }
    unfold_width. destruct (Z.leb_spec (len + pos - 2 ^ 32) (rp_len p)); [| lia]. by rewrite memmove_out by lia.
  - rewrite u32_id by (unfold_width; lia). destruct (Z.leb_spec (len + pos) (rp_len p)); [| by eexists].
    unfold_width. destruct (move_defined (rp_buffer p) pos len) as (b & -> & Hz & Hbw); [lia | lia | lia | done |].
    cbn [lift outcome_bind]. apply (deliver_defined s A); [apply _ | done |]. apply Hset. split; cbn; [done | lia | lia | done].
Qed.

Lemma data_handler_defined n :
  8 < rp_len p -> get_uint32 (drop 5 (rp_buffer p)) = Some n ->
  (2 ^ 32 <= 9 + n -> receive_msg_channel_data s p = Ub) /\ (9 + n < 2 ^ 32 -> exists s', receive_msg_channel_data s p = Ret s').
Proof.
  intros Hl Hn. unfold receive_msg_channel_data. destruct (Z.ltb_spec 8 (rp_len p)); [| lia].
  destruct (read_u32 p 1 Hp) as (lcnr & -> & _); [lia |]. cbn [lift outcome_bind].
  destruct (read_u32 p 5 Hp) as (n' & E & Hw); [lia |]. rewrite E in Hn. injection Hn as ->.
  rewrite E. cbn [lift outcome_bind]. apply (data_defined lcnr n 9 RECV_DATA (fun q => q)); [done | done | lia | lia].
Qed.

Lemma xdata_handler_defined n :
  13 < rp_len p -> get_uint32 (drop 9 (rp_buffer p)) = Some n ->
  (2 ^ 32 <= 13 + n -> receive_msg_channel_extended_data s p = Ub) /\
  (13 + n < 2 ^ 32 -> exists s', receive_msg_channel_extended_data s p = Ret s').
Proof.
  intros Hl Hn. unfold receive_msg_channel_extended_data. destruct (Z.ltb_spec 13 (rp_len p)); [| lia].
  destruct (read_u32 p 1 Hp) as (lcnr & -> & _); [lia |]. cbn [lift outcome_bind].
  destruct (read_u32 p 5 Hp) as (code & -> & _); [lia |]. cbn [lift outcome_bind].
  destruct (read_u32 p 9 Hp) as (n' & E & Hw); [lia |]. rewrite E in Hn. injection Hn as ->.
  rewrite E. cbn [lift outcome_bind]. apply (data_defined lcnr n 13 RECV_XDATA (set_rcode code)); [| done | lia | lia].
  intros q [? ? ? ?]. by split.
Qed.

Lemma request_defined server : exists s', channel_cbs server SSH_MSG_CHANNEL_REQUEST s p = Ret s'.
Proof.
  pose proof Hp as [Hb Hs Hl Hw].
  destruct server; cbn; [unfold receive_msg_channel_request_s | unfold receive_msg_channel_request_c];
    (destruct (Z.ltb_spec 10 (rp_len p)) as [Hlen|]; [| by eexists]);
    (destruct (read_u32 p 1 Hp) as (lcnr & -> & _); [lia |]); cbn [lift outcome_bind];
    (destruct (read_string_any (drop 5 (rp_buffer p)) (u32 (rp_len p - 5))) as ([r req] & E);
      [pose proof (zlen_drop 5 (rp_buffer p) ltac:(lia)); change (Z.to_nat 5) with 5%nat in *; lia |]);
    rewrite E; cbn [lift outcome_bind]; (destruct (Z.ltb_spec 0 r) as [Hr|]; [| by eexists]);
    destruct (shift_defined p 5 Hp ltac:(lia)) as (q & Hq & Hqw).
  - rewrite Hq. cbn [lift outcome_bind]. apply (deliver_defined s A); [apply _ | done | done].
  - destruct (request_literals p r req Hp Hlen E Hr) as (a & b & -> & -> & Hab). cbn [lift outcome_bind]. rewrite Hq.
    destruct a; [destruct Hab as (Hreq & _ & Hg & _); [by left |] | destruct b; [destruct Hab as (Hreq & _ & Hg & _); [by right |] | by eexists]];
      rewrite (request_tmp req Hreq).
    + destruct (exit_status_defined p Hp) as (n & ->). cbn [lift outcome_bind]. apply (deliver_defined s A); [apply _ | done | done].
    + rewrite (exit_signal_defined p Hp Hg). cbn [lift outcome_bind]. apply (deliver_defined s A); [apply _ | done | done].
Qed.

Ltac defd :=
  match goal with
  | |- exists s', Ret _ = Ret s' => by eexists
  | |- exists s', deliver _ _ _ _ = Ret s' => apply (deliver_defined s A); [apply _ | done | done]
  | |- exists s', (if ?a <? ?b then _ else _) = Ret s' => destruct (Z.ltb_spec a b)
  | |- exists s', outcome_bind (lift (get_uint32 (drop ?i (rp_buffer p)))) _ = Ret s' =>
      destruct (read_u32 p i Hp) as (? & -> & _); [lia |]; cbn [lift outcome_bind]
  | |- exists s', outcome_bind (lift (shift_payload p 5)) _ = Ret s' =>
      destruct (shift_defined p 5 Hp) as (? & -> & ?); [lia |]; cbn [lift outcome_bind]
  end.

Lemma handlers_defined server :
  ~ (exists n, is_u32 n /\
    (rp_type p = SSH_MSG_CHANNEL_DATA /\ 8 < rp_len p /\ get_uint32 (drop 5 (rp_buffer p)) = Some n /\ 2 ^ 32 <= 9 + n \/
     rp_type p = SSH_MSG_CHANNEL_EXTENDED_DATA /\ 13 < rp_len p /\ get_uint32 (drop 9 (rp_buffer p)) = Some n /\ 2 ^ 32 <= 13 + n)) ->
  exists s', channel_cbs server (rp_type p) s p = Ret s'.
Proof.
  intros Hno. pose proof Hp as [Hb Hs Hl Hw].
  destruct (Z.eq_dec (rp_type p) SSH_MSG_CHANNEL_DATA) as [E|E94].
  { rewrite E. destruct (Z.ltb_spec 8 (rp_len p)) as [H8|H8].
    - destruct (read_u32 p 5 Hp) as (n & Hn & Hnw); [lia |]. destruct server; apply (data_handler_defined n H8 Hn);
        (destruct (Z.ltb_spec (9 + n) (2 ^ 32)); [done |]); destruct Hno; exists n; split; auto.
    - destruct server; cbn; unfold receive_msg_channel_data; (destruct (Z.ltb_spec 8 (rp_len p)); [lia | by eexists]). }
  destruct (Z.eq_dec (rp_type p) SSH_MSG_CHANNEL_EXTENDED_DATA) as [E|E95].
  { rewrite E. destruct (Z.ltb_spec 13 (rp_len p)) as [H8|H8].
    - destruct (read_u32 p 9 Hp) as (n & Hn & Hnw); [lia |]. destruct server; apply (xdata_handler_defined n H8 Hn);
        (destruct (Z.ltb_spec (13 + n) (2 ^ 32)); [done |]); destruct Hno; exists n; split; auto.
    - destruct server; cbn; unfold receive_msg_channel_extended_data; (destruct (Z.ltb_spec 13 (rp_len p)); [lia | by eexists]). }
  destruct (Z.eq_dec (rp_type p) SSH_MSG_CHANNEL_REQUEST) as [->|E98]; [apply request_defined |].
  clear Hno. unfold channel_cbs, register_channel_cb, register_msg_cb.
  destruct server; bdestr; try done; try (by eexists);
  unfold receive_msg_channel_open_confirmation, receive_msg_channel_open_failure, receive_msg_channel_window_adjust,
    receive_msg_channel_eof, receive_msg_channel_close, receive_msg_channel_open_status, receive_msg_channel_request_reply;
  repeat defd.
Qed.

End Defined.

(** C31: the handlers of the channel messages stay inside the payload, with one
    exception.  For every payload, every state of the table and every function
    that a channel has for it, the handler returns; except for a data message
    whose length field is at least 2^32 - 9, or an extended data message
    with one of at least 2^32 - 13: there the sum of the length and the place
    of the data wraps, passes the test, and the move runs out of the payload. *)
Theorem channel_handlers_bounds server s A p :
  wf_state s A -> wf_received p ->
  let overrun := exists n, is_u32 n /\
    (rp_type p = SSH_MSG_CHANNEL_DATA /\ 8 < rp_len p /\ get_uint32 (drop 5 (rp_buffer p)) = Some n /\ 2 ^ 32 <= 9 + n \/
     rp_type p = SSH_MSG_CHANNEL_EXTENDED_DATA /\ 13 < rp_len p /\ get_uint32 (drop 9 (rp_buffer p)) = Some n /\ 2 ^ 32 <= 13 + n) in
  (overrun -> process_cb_ssh_payload (channel_cbs server) s p = Ub) /\
  (~ overrun -> exists s', process_cb_ssh_payload (channel_cbs server) s p = Ret s').
Proof.
  intros Hwf Hp overrun. unfold process_cb_ssh_payload. split.
  - intros (n & Hn & [(-> & Hl & Hg & Hw) | (-> & Hl & Hg & Hw)]).
    + destruct server; by apply (data_handler_defined s A p Hwf Hp n Hl Hg).
    + destruct server; by apply (xdata_handler_defined s A p Hwf Hp n Hl Hg).
  - intros Hno. by apply (handlers_defined s A p Hwf Hp).
Qed.

(** C30: a payload that arrives has one owner afterwards.  Every handler of a
    connection puts it at the end of the queue of one channel or frees it,
    never both and never twice, changes no other queue, and keeps the table of
    channels well formed.  Only the handler of a server for the opening of a
    channel does neither: it does nothing, and the payload is lost. *)
Theorem channel_payload_owned server s A p s' :
  wf_state s A -> process_cb_ssh_payload (channel_cbs server) s p = Ret s' ->
  wf_state s' A /\
  ((server = true /\ rp_type p = SSH_MSG_CHANNEL_OPEN /\ s' = s) \/
   exists q, same_payload p q /\ owned s s' q).
Proof.
  intros Hwf E. unfold process_cb_ssh_payload in E.
  destruct (decide (server = true /\ rp_type p = SSH_MSG_CHANNEL_OPEN)) as [[-> Ht]|Hne].
  - rewrite Ht in E. injection E as <-. split; [done |]. by left.
  - destruct (owning_handlers server (rp_type p) ltac:(naive_solver) s A p s' Hwf E) as [? ?]. split; [done |]. by right.
Qed.

(** ** Sending and receiving *)

(** The payload that the reader makes of the bytes of a message. *)
Definition arrived_as (seq : Z) (b : bytes) : received := mkReceived (default 0 (head b)) seq 0 (zlen b) (zlen b) b.

Definition content (p : received) : option bytes := mem_read (rp_buffer p) 0 (rp_len p).

Inductive chan_message : Type :=
| MData (x : bytes) | MXdata (code : Z) (x : bytes) | MAdjust (n : Z) | MEof | MClose
| MRequest (type : bytes) (reply : Z) (x : bytes).

Definition send_message (rcnr : Z) (m : chan_message) : option received :=
  match m with
  | MData x => send_ssh_channel_data_msg rcnr (zlen x) x
  | MXdata code x => send_ssh_channel_xdata_msg rcnr code (zlen x) x
  | MAdjust n => send_ssh_channel_window_adjust_msg rcnr n
  | MEof => send_ssh_channel_eofclose_msg rcnr SSH_MSG_CHANNEL_EOF
  | MClose => send_ssh_channel_eofclose_msg rcnr SSH_MSG_CHANNEL_CLOSE
  | MRequest type reply x => send_ssh_channel_request_msg rcnr (mkRequestMsg (string_of type) reply (zlen x) x)
  end.

(** An extended data message has at least one byte of data. *)
Definition valid_message (m : chan_message) : Prop :=
  match m with
  | MData x => is_u32 (9 + zlen x)
  | MXdata code x => is_u32 code /\ 0 < zlen x /\ is_u32 (13 + zlen x)
  | MAdjust n => is_u32 n
  | MEof | MClose => True
  | MRequest type reply x => 0 < zlen type /\ is_u32 (10 + zlen type + zlen x)
  end.

(** What the message means for channel [e]. *)
Definition effect (s : state) (e : nat) (c : channel) (d : chan) (p : received) (m : chan_message) (s' : state) : Prop :=
  let queued code x := exists q, s' = put_channel s e c (set_queue (ch_queue d ++ [q]) d) /\
    content q = Some x /\ rp_code q = code /\ same_payload p q in
  match m with
  | MData x => queued 0 x
  | MXdata code x => queued code x
  | MAdjust n => s' = free_payload p (put_channel s e c (set_rwindowsize (u32 (ch_rwindowsize d + n)) d))
  | MEof => s' = free_payload p (put_channel s e (mk_channel (c_lcnr c) (Z.lor (c_flags c) SSH_CHANNEL_FLAG_SERVER_EOF)) d)
  | MClose => s' = free_payload p (put_channel s e (mk_channel (c_lcnr c) (Z.lor (c_flags c) SSH_CHANNEL_FLAG_SERVER_CLOSE)) d)
  | MRequest type reply x => queued 0 (encode_string type ++ [u8 reply] ++ x)
  end.

Lemma has_lor_false x a b : has x (Z.lor a b) = false -> has x a = false /\ has x b = false.
Proof.
  unfold has. rewrite Z.land_lor_distr_r. intros Hf. apply negb_false_iff, Z.eqb_eq, Z.lor_eq_0_iff in Hf as [-> ->]. done.
Qed.

Section Arrive.
Context (s : state) (A : gmap nat (list nat)) (lcnr : Z) (e : nat) (c : channel) (d : chan) (seq : Z).
Context (Hwf : wf_state s A) (Hat : at_channel s A lcnr e c d) (Hlc : is_u32 lcnr).

Lemma deliver_at p cb c' d' o :
  cb c d p = Ret (c', d', o) -> deliver s lcnr p cb = Ret (release o (put_channel s e c' d')).
Proof. intros E. unfold deliver. rewrite (call_channel_at s A lcnr e c d p cb Hwf Hat), E. done. Qed.

Lemma deliver_default nr p : (forall nr, ch_iocb d nr = recv_msg_default) -> deliver s lcnr p (iocb_cb nr) = Ret (put_channel s e c (set_queue (ch_queue d ++ [p]) d)).
Proof. intros Hdef. apply (deliver_at _ _ c _ None). unfold iocb_cb. by rewrite Hdef. Qed.

Lemma drop1 (x : Z) r : drop 1 ([x] ++ r) = r.
Proof. done. Qed.

Lemma drop5 x v r : drop 5 ([x] ++ be_encode 4 v ++ r) = r.
Proof. change (drop 4 (be_encode 4 v ++ r) = r). by apply drop_app_length'. Qed.

Lemma content_front x r p : rp_buffer p = x ++ r -> rp_len p = zlen x -> content p = Some x.
Proof.
  intros Hb Hl. unfold content. rewrite Hb, Hl. rewrite mem_read_Some by (rewrite ?zlen_app; pose proof (zlen_nonneg x); pose proof (zlen_nonneg r); lia).
  rewrite drop_0. f_equal. apply take_app_length'. unfold zlen. lia.
Qed.

Lemma memmove_tail a x n : zlen a = n -> memmove (a ++ x) 0 n (zlen x) = Some (x ++ drop (length x) (a ++ x)).
Proof. intros <-. pose proof (memmove_front a x []) as E. by rewrite app_nil_r in E. Qed.

(** A data message reaches the function of the channel with the data at the start of the payload. *)
Lemma data_delivers x :
  is_u32 (9 + zlen x) -> exists q, receive_msg_channel_data s (arrived_as seq (data_bytes lcnr x)) = deliver s lcnr q (iocb_cb RECV_DATA) /\
    content q = Some x /\ rp_code q = 0 /\ same_payload (arrived_as seq (data_bytes lcnr x)) q.
Proof.
  intros Hw. pose proof (zlen_nonneg x). set (p := arrived_as _ _).
  assert (rp_len p = 9 + zlen x) as Hz by (cbn; unfold data_bytes; zl).
  unfold receive_msg_channel_data. rewrite Hz. destruct (Z.ltb_spec 8 (9 + zlen x)); [| lia].
  change (rp_buffer p) with ([SSH_MSG_CHANNEL_DATA] ++ be_encode 4 lcnr ++ be_encode 4 (zlen x) ++ x).
  rewrite drop1, get_uint32_encode by done. cbn [lift outcome_bind].
  rewrite drop5, get_uint32_encode by (unfold_width; lia). cbn [lift outcome_bind].
  rewrite u32_id by (unfold_width; lia). destruct (Z.leb_spec (zlen x + 9) (9 + zlen x)); [| lia].
  rewrite !app_assoc, memmove_tail by zl. cbn [lift outcome_bind]. eexists. split; [done |]. split; [by eapply content_front |]. done.
Qed.

Lemma data_arrives x :
  (forall nr, ch_iocb d nr = recv_msg_default) -> is_u32 (9 + zlen x) ->
  exists s', receive_msg_channel_data s (arrived_as seq (data_bytes lcnr x)) = Ret s' /\
    effect s e c d (arrived_as seq (data_bytes lcnr x)) (MData x) s'.
Proof.
  intros Hdef (q & -> & Hq)%data_delivers. rewrite deliver_default by done. eexists. split; [done |]. by exists q.
Qed.

(** The sftp client is called with the data, and the payload is freed after it. *)
Lemma data_passed x :
  is_u32 (9 + zlen x) -> ch_iocb d RECV_DATA = handle_data_ssh_channel_sftp_client ->
  exists q, receive_msg_channel_data s (arrived_as seq (data_bytes lcnr x)) =
    Ret (free_payload q (put_channel s e c (add_passed (x, seq) d))).
Proof.
  intros (q & -> & Hq & _ & _ & Hseq)%data_delivers Hio. exists q.
  rewrite (deliver_at q _ c (add_passed (x, seq) d) (Some q)); [done |]. unfold iocb_cb. rewrite Hio. cbn [run_iocb].
  unfold content in Hq. rewrite Hq. cbn [lift outcome_bind]. by rewrite Hseq.
Qed.

Lemma xdata_arrives code x :
  (forall nr, ch_iocb d nr = recv_msg_default) -> is_u32 code -> 0 < zlen x -> is_u32 (13 + zlen x) ->
  exists s', receive_msg_channel_extended_data s (arrived_as seq (xdata_bytes lcnr code x)) = Ret s' /\
    effect s e c d (arrived_as seq (xdata_bytes lcnr code x)) (MXdata code x) s'.
Proof.
  intros Hdef Hc Hx Hw. set (p := arrived_as _ _).
  assert (rp_len p = 13 + zlen x) as Hz by (cbn; unfold xdata_bytes; zl).
  unfold receive_msg_channel_extended_data. rewrite Hz. destruct (Z.ltb_spec 13 (13 + zlen x)); [| lia].
  change (rp_buffer p) with ([SSH_MSG_CHANNEL_EXTENDED_DATA] ++ be_encode 4 lcnr ++ be_encode 4 code ++ be_encode 4 (zlen x) ++ x).
  rewrite drop1, get_uint32_encode by done. cbn [lift outcome_bind].
  rewrite drop5, get_uint32_encode by done. cbn [lift outcome_bind].
  change 9%nat with (5 + 4)%nat. rewrite <- drop_drop, drop5, drop_app_length', get_uint32_encode by (done || unfold_width; lia).
  cbn [lift outcome_bind].
  rewrite u32_id by (unfold_width; lia). destruct (Z.leb_spec (zlen x + 13) (13 + zlen x)); [| lia].
  rewrite !app_assoc, memmove_tail by zl. cbn [lift outcome_bind]. rewrite deliver_default by done. eexists. split; [done |].
  eexists. split; [done |]. split; [by eapply content_front |]. done.
Qed.

Lemma adjust_arrives n :
  is_u32 n -> exists s', receive_msg_channel_window_adjust s (arrived_as seq (adjust_bytes lcnr n)) = Ret s' /\
    effect s e c d (arrived_as seq (adjust_bytes lcnr n)) (MAdjust n) s'.
Proof.
  intros Hn. set (p := arrived_as _ _). assert (rp_len p = 9) as Hz by (cbn; unfold adjust_bytes; zl).
  unfold receive_msg_channel_window_adjust. rewrite Hz. cbn [Z.ltb Z.compare Pos.compare Pos.compare_cont].
  change (rp_buffer p) with ([SSH_MSG_CHANNEL_WINDOW_ADJUST] ++ be_encode 4 lcnr ++ be_encode 4 n).
  rewrite drop1, get_uint32_encode by done. cbn [lift outcome_bind]. rewrite drop5, <- (app_nil_r (be_encode 4 n)), get_uint32_encode by done.
  cbn [lift outcome_bind]. erewrite deliver_at; [| done]. eexists. split; [done |]. cbn [release effect].
  do 3 f_equal. unfold u32. rewrite <- (Zplus_mod_idemp_r (sgn 32 n)). fold (u32 (sgn 32 n)). rewrite u32_sgn32, u32_id by done. done.
Qed.

Lemma status_arrives flag status type :
  is_u8 type -> 0 < status -> has (Z.lor (c_flags c) status) flag = false ->
  receive_msg_channel_open_status flag status s (arrived_as seq (eofclose_bytes lcnr type)) =
    Ret (free_payload (arrived_as seq (eofclose_bytes lcnr type)) (put_channel s e (mk_channel (c_lcnr c) (Z.lor (c_flags c) status)) d)).
Proof.
  intros Ht Hst Hh. set (p := arrived_as _ _). assert (rp_len p = 5) as Hz by (cbn; unfold eofclose_bytes; zl).
  unfold receive_msg_channel_open_status. rewrite Hz. cbn [Z.ltb Z.compare Pos.compare Pos.compare_cont].
  change (rp_buffer p) with ([u8 type] ++ be_encode 4 lcnr).
  rewrite drop1, <- (app_nil_r (be_encode 4 lcnr)), get_uint32_encode by done. cbn [lift outcome_bind].
  rewrite (deliver_at p _ (mk_channel (c_lcnr c) (Z.lor (c_flags c) status)) d (Some p)); [done |]. unfold set_channel_flag_cb. cbn [hl_flags hl_status hl_exit_status hl_exit_signal Z.eqb].
  destruct (Z.eqb_spec status 0); [lia |]. cbn [c_flags]. rewrite Hh. by destruct d.
Qed.

Lemma request_arrives t reply x :
  (forall nr, ch_iocb d nr = recv_msg_default) -> 0 < zlen t -> is_u32 (10 + zlen t + zlen x) ->
  exists s', receive_msg_channel_request_s s (arrived_as seq (request_bytes lcnr t reply x)) = Ret s' /\
    effect s e c d (arrived_as seq (request_bytes lcnr t reply x)) (MRequest t reply x) s'.
Proof.
  intros Hdef Ht Hw. pose proof (zlen_nonneg x). set (p := arrived_as _ _).
  assert (rp_len p = 10 + zlen t + zlen x) as Hz by (cbn; unfold request_bytes; zl).
  unfold receive_msg_channel_request_s, shift_payload. rewrite Hz. destruct (Z.ltb_spec 10 (10 + zlen t + zlen x)); [| lia].
  change (rp_buffer p) with ([SSH_MSG_CHANNEL_REQUEST] ++ be_encode 4 lcnr ++ encode_string t ++ [u8 reply] ++ x).
  rewrite drop1, get_uint32_encode by done. cbn [lift outcome_bind]. rewrite drop5.
  assert (u32 (10 + zlen t + zlen x - 5) = zlen (encode_string t ++ [u8 reply] ++ x)) as ->.
  { rewrite u32_id by (unfold_width; lia). zl. }
  change (read_ssh_string ?b ?n None) with (read_ssh_string b n (Some SSH_STRING_INIT)).
  rewrite read_encode_string by (first [done | unfold_width; lia | zl]). cbn [lift outcome_bind].
  destruct (Z.ltb_spec 0 (4 + zlen t)); [| lia].
  rewrite (app_assoc [SSH_MSG_CHANNEL_REQUEST]), memmove_tail by zl. cbn [mbind option_bind lift outcome_bind].
  rewrite deliver_default by done. eexists. split; [done |]. eexists. split; [done |]. split; [by eapply content_front |]. done.
Qed.

End Arrive.

(** C4: what one side sends on a channel arrives at the channel of the other
    side, when that channel has the default callbacks and does not queue eof and
    close.  The message written by the sender for remote channel [lcnr], as the
    reader delivers it, does to the channel with that local number, and to no
    other, what it stands for: data, extended data of at least a byte (with its
    code) and requests, which only a server takes, go to the end of its queue
    with exactly the bytes that were sent, a window adjustment is added to the
    window modulo 2^32, eof and close set the flag.  The payload of the sender is
    filled exactly. *)
Theorem channel_message_roundtrip server s A lcnr e c d seq m :
  wf_state s A -> at_channel s A lcnr e c d -> is_u32 lcnr ->
  (forall nr, ch_iocb d nr = recv_msg_default) ->
  has (c_flags c) (Z.lor SSH_CHANNEL_FLAG_QUEUE_EOF SSH_CHANNEL_FLAG_QUEUE_CLOSE) = false ->
  valid_message m -> match m with MRequest _ _ _ => server = true | _ => True end ->
  exists pl s', send_message lcnr m = Some pl /\ rp_size pl = zlen (rp_buffer pl) /\ rp_len pl = zlen (rp_buffer pl) /\
    process_cb_ssh_payload (channel_cbs server) s (arrived_as seq (rp_buffer pl)) = Ret s' /\
    effect s e c d (arrived_as seq (rp_buffer pl)) m s'.
Proof.
  intros Hwf Hat Hlc Hdef Hfl Hm Hsrv.
  assert (forall x : bytes, mem_read x 0 (zlen x) = Some x) as Hall.
  { intros x. rewrite mem_read_Some by (pose proof (zlen_nonneg x); lia). rewrite drop_0. f_equal. apply take_ge. unfold zlen. lia. }
  apply has_lor_false in Hfl as [Hf1 Hf2].
  unfold process_cb_ssh_payload.
  destruct m as [x|code x|n| | |t reply x]; cbn [valid_message send_message] in *.
  - rewrite (send_data_bytes lcnr (zlen x) x x) by done.
    destruct (data_arrives s A lcnr e c d seq Hwf Hat Hlc x Hdef Hm) as (s' & E & He).
    exists (message (data_bytes lcnr x)), s'. repeat (split; [done |]). by destruct server.
  - destruct Hm as (Hc & Hx & Hw). rewrite (send_xdata_bytes lcnr code (zlen x) x x) by done.
    destruct (xdata_arrives s A lcnr e c d seq Hwf Hat Hlc code x Hdef Hc Hx Hw) as (s' & E & He).
    exists (message (xdata_bytes lcnr code x)), s'. repeat (split; [done |]). by destruct server.
  - rewrite send_adjust_bytes. destruct (adjust_arrives s A lcnr e c d seq Hwf Hat Hlc n Hm) as (s' & E & He).
    exists (message (adjust_bytes lcnr n)), s'. repeat (split; [done |]). by destruct server.
  - rewrite send_eofclose_bytes by done. eexists _, _. repeat (split; [done |]). split; [| done].
    destruct server; apply (status_arrives s A lcnr e c d seq Hwf Hat Hlc); try done; rewrite has_lor, Hf1; done.
  - rewrite send_eofclose_bytes by done. eexists _, _. repeat (split; [done |]). split; [| done].
    destruct server; apply (status_arrives s A lcnr e c d seq Hwf Hat Hlc); try done; rewrite has_lor, Hf2; done.
  - subst server. destruct Hm as (Ht & Hw).
    rewrite (send_request_bytes lcnr _ t x) by (first [done | apply s_data_string_of | apply Hall]).
    destruct (request_arrives s A lcnr e c d seq Hwf Hat Hlc t reply x Hdef Ht Hw) as (s' & E & He).
    exists (message (request_bytes lcnr t reply x)), s'. by repeat (split; [done |]).
Qed.

Lemma is_literal_spec s x l :
  s_data s = Some x -> no_nul (lit l) -> is_u32 (zlen (lit l)) -> is_literal s l = Some (bytes_eqb (lit l) x).
Proof.
  intros Hs Hn Hw. unfold is_literal. destruct (compare_ssh_string_correct s x Hs) as [_ ->]; [| done | done].
  opt. by destruct (bytes_eqb (lit l) x).
Qed.

Lemma request_c_named s p lcnr t x :
  t = lit "exit-status" \/ t = lit "exit-signal" ->
  rp_buffer p = [SSH_MSG_CHANNEL_REQUEST] ++ be_encode 4 lcnr ++ encode_string t ++ x ->
  rp_len p = zlen (rp_buffer p) -> is_u32 lcnr -> wf_received p -> 0 < zlen x ->
  receive_msg_channel_request_c s p =
    (let! n := lift (if bytes_eqb t (lit "exit-status") then read_exit_status p 21 else read_exit_signal p 5 21) in
     let! q := lift (shift_payload p 5) in
     deliver s lcnr q (set_channel_flag_cb
       (if bytes_eqb t (lit "exit-status") then mkHlpr SSH_CHANNEL_FLAG_QUEUE_EXIT_STATUS 0 n 0
        else mkHlpr SSH_CHANNEL_FLAG_QUEUE_EXIT_SIGNAL 0 0 n))).
Proof.
  intros Ht Hb Hl Hlc Hp Hx. assert (zlen t = 11) as H11 by (destruct Ht as [-> | ->]; done).
  pose proof (wr_size _ Hp). pose proof (wr_width _ Hp) as Hsw.
  assert (rp_len p = 20 + zlen x) as Hz by (rewrite Hl, Hb; zl).
  unfold receive_msg_channel_request_c. destruct (Z.ltb_spec 10 (rp_len p)); [| lia].
  assert (read_ssh_string (drop 5 (rp_buffer p)) (u32 (rp_len p - 5)) None =
    Some (15, mk_ssh_string 0 11 0 (PMem (t ++ x)) [])) as ->.
  { rewrite Hb, drop5, u32_id by (unfold_width; lia). change (read_ssh_string ?b ?n None) with (read_ssh_string b n (Some SSH_STRING_INIT)).
    rewrite read_encode_string by (first [done | unfold_width; lia]). by rewrite H11. }
  rewrite Hb at 1. rewrite drop1, get_uint32_encode by done. cbn [lift outcome_bind Z.ltb Z.compare].
  assert (s_data (mk_ssh_string 0 11 0 (PMem (t ++ x)) []) = Some t) as Hd.
  { erewrite s_data_view; [| done | cbn; rewrite zlen_app; lia]. cbn [s_len]. f_equal. apply take_app_length'. unfold zlen in *. lia. }
  rewrite !(is_literal_spec _ _ _ Hd) by (first [by vm_compute | repeat constructor; discriminate]). cbn [lift outcome_bind].
  rewrite (request_tmp (mk_ssh_string 0 11 0 (PMem (t ++ x)) []) eq_refl). destruct Ht as [-> | ->]; reflexivity.
Qed.

Lemma request_wf lcnr t reply x seq :
  wf_bytes t -> wf_bytes x -> is_u32 (10 + zlen t + zlen x) -> wf_received (arrived_as seq (request_bytes lcnr t reply x)).
Proof.
  intros Ht Hx Hw. pose proof (zlen_nonneg t). pose proof (zlen_nonneg x).
  assert (zlen (request_bytes lcnr t reply x) = 10 + zlen t + zlen x) as Hz by (unfold request_bytes; zl).
  split; cbn [arrived_as rp_buffer rp_size rp_len]; rewrite ?Hz; [| done | unfold_width; lia | done].
  unfold request_bytes, encode_string. repeat apply Forall_app_2; try apply be_encode_wf; try done; repeat constructor; try done;
    apply Z.mod_pos_bound; lia.
Qed.

(** The flag of the helper is not set, so the callback only stores the two values. *)
Lemma set_exit_at s A lcnr e c d q h :
  wf_state s A -> at_channel s A lcnr e c d -> hl_status h = 0 -> has (c_flags c) (hl_flags h) = false ->
  deliver s lcnr q (set_channel_flag_cb h) =
    Ret (free_payload q (put_channel s e c
      (set_exit (if hl_exit_status h =? 0 then ch_exit_status d else hl_exit_status h)
                (if hl_exit_signal h =? 0 then ch_exit_signal d else hl_exit_signal h) d))).
Proof.
  intros Hwf Hat Hs Hf. rewrite (deliver_at s A lcnr e c d Hwf Hat q _ c
    (set_exit (if hl_exit_status h =? 0 then ch_exit_status d else hl_exit_status h)
                (if hl_exit_signal h =? 0 then ch_exit_signal d else hl_exit_signal h) d) (Some q)); [done |].
  unfold set_channel_flag_cb. rewrite Hs, Z.eqb_refl, Hf. done.
Qed.

Lemma read_exit_status_value p lcnr reply n :
  rp_buffer p = request_bytes lcnr (lit "exit-status") reply (be_encode 4 n) -> rp_len p = zlen (rp_buffer p) -> is_u32 n ->
  read_exit_status p 21 = Some n.
Proof.
  intros Hb Hl Hn. unfold read_exit_status. rewrite Hl, Hb. unfold request_bytes.
  assert (zlen ([SSH_MSG_CHANNEL_REQUEST] ++ be_encode 4 lcnr ++ encode_string (lit "exit-status") ++ [u8 reply] ++ be_encode 4 n) = 25)
    as -> by (zl; done).
  change (u32 (21 + 4) <=? 25) with true. cbn [negb].
  change (Z.to_nat 21) with (5 + 16)%nat. rewrite <- drop_drop, drop5, app_assoc, drop_app_length' by done.
  by rewrite <- (app_nil_r (be_encode 4 n)), get_uint32_encode.
Qed.

(** how a command ended.  The request "exit-status" with value [n] sets
    the exit status of the channel it is sent to (a zero leaves it as it is).
    The request "exit-signal" changes nothing, whatever signal it names: the
    name of the signal is read where the name of the request is, and that is
    not the name of a signal. *)
Theorem exit_requests s A lcnr e c d seq reply n x :
  wf_state s A -> at_channel s A lcnr e c d -> is_u32 lcnr -> is_u32 n -> wf_bytes x -> is_u32 (21 + zlen x) ->
  has (c_flags c) (Z.lor SSH_CHANNEL_FLAG_QUEUE_EXIT_STATUS SSH_CHANNEL_FLAG_QUEUE_EXIT_SIGNAL) = false ->
  let answer request data := process_cb_ssh_payload (channel_cbs false) s (arrived_as seq (request_bytes lcnr (lit request) reply data)) in
  (exists q, answer "exit-status"%string (be_encode 4 n) =
     Ret (free_payload q (put_channel s e c (set_exit (if n =? 0 then ch_exit_status d else n) (ch_exit_signal d) d)))) /\
  (exists q, answer "exit-signal"%string x = Ret (free_payload q (put_channel s e c d))).
Proof.
  intros Hwf Hat Hlc Hn Hx Hw Hfl answer. pose proof (zlen_nonneg x).
  apply has_lor_false in Hfl as [Hf1 Hf2].
  split; [set (p := arrived_as seq (request_bytes lcnr (lit "exit-status") reply (be_encode 4 n))) |
          set (p := arrived_as seq (request_bytes lcnr (lit "exit-signal") reply x))].
  - assert (wf_received p) as Hp.
    { apply request_wf; [repeat constructor; vm_compute; done | apply be_encode_wf | done]. }
    destruct (shift_defined p 5 Hp) as (q & Hq & _); [cbn; unfold request_bytes; zl |]. exists q.
    change (receive_msg_channel_request_c s p = Ret (free_payload q (put_channel s e c (set_exit (if n =? 0 then ch_exit_status d else n) (ch_exit_signal d) d)))).
    rewrite (request_c_named s p lcnr (lit "exit-status") ([u8 reply] ++ be_encode 4 n)); [| by left | done | done | done | done | zl].
    change (bytes_eqb (lit "exit-status") (lit "exit-status")) with true. cbn match.
    rewrite (read_exit_status_value p lcnr reply n) by done. cbn [lift outcome_bind]. rewrite Hq. cbn [lift outcome_bind].
    by rewrite (set_exit_at s A lcnr e c d).
  - assert (wf_received p) as Hp.
    { apply request_wf; [repeat constructor; vm_compute; done | done | done]. }
    destruct (shift_defined p 5 Hp) as (q & Hq & _); [cbn; unfold request_bytes; zl |]. exists q.
    change (receive_msg_channel_request_c s p = Ret (free_payload q (put_channel s e c d))).
    rewrite (request_c_named s p lcnr (lit "exit-signal") ([u8 reply] ++ x)); [| by right | done | done | done | done | zl].
    change (bytes_eqb (lit "exit-signal") (lit "exit-status")) with false. cbn match.
    rewrite exit_signal_defined by done. cbn [lift outcome_bind]. rewrite Hq. cbn [lift outcome_bind].
    rewrite (set_exit_at s A lcnr e c d) by done. by destruct d.
Qed.

(** ** A sequence of payloads *)

Fixpoint process_all (c : cbs) (s : state) (ps : list received) : outcome state :=
  match ps with
  | [] => Ret s
  | p :: ps => let! s := process_cb_ssh_payload c s p in process_all c s ps
  end.

(** Data messages in order, with their numbers. *)
Fixpoint with_numbers (seq : Z) (xs : list bytes) : list (bytes * Z) :=
  match xs with [] => [] | x :: xs => (x, seq) :: with_numbers (u32 (seq + 1)) xs end.

(** The payload of a data message with its number. *)
Definition data_arrived (lcnr : Z) (m : bytes * Z) : received := arrived_as m.2 (data_bytes lcnr m.1).

Definition passed_to_client (d : chan) (l : list (bytes * Z)) : chan :=
  mkChan (ch_type d) (ch_rcnr d) (ch_maxpacketsize d) (ch_lwindowsize d) (ch_rwindowsize d)
    (ch_exit_status d) (ch_exit_signal d) (ch_queue d) (ch_iocb d) (ch_passed d ++ l).

Lemma data_all_passed server A lcnr e c ms : forall s d,
  wf_state s A -> at_channel s A lcnr e c d -> is_u32 lcnr -> ch_iocb d RECV_DATA = handle_data_ssh_channel_sftp_client ->
  Forall (fun m => is_u32 (9 + zlen m.1)) ms ->
  exists s', process_all (channel_cbs server) s (map (data_arrived lcnr) ms) = Ret s' /\
    wf_state s' A /\ at_channel s' A lcnr e c (passed_to_client d ms).
Proof.
  induction ms as [|[x seq] ms IH]; intros s d Hwf Hat Hlc Hio Hxs; cbn [map process_all].
  - exists s. split; [done |]. split; [done |]. unfold passed_to_client. rewrite app_nil_r. by destruct d.
  - apply Forall_cons_1 in Hxs as [Hx Hxs]. cbn in Hx. unfold data_arrived at 1. cbn [fst snd].
    destruct (data_passed s A lcnr e c d seq Hwf Hat Hlc x Hx Hio) as (q & E).
    assert (process_cb_ssh_payload (channel_cbs server) s (arrived_as seq (data_bytes lcnr x)) =
      receive_msg_channel_data s (arrived_as seq (data_bytes lcnr x))) as -> by (by destruct server).
    rewrite E. cbn [outcome_bind].
    destruct (IH (free_payload q (put_channel s e c (add_passed (x, seq) d))) (add_passed (x, seq) d))
      as (s' & E' & Hwf' & Hat').
    + apply free_wf, (put_channel_wf s A lcnr e c d); [done | done | done |]. by apply (at_channel_flag s A lcnr e c d).
    + destruct Hat as (He & Hc & Hl & _). split; [done |]. cbn. rewrite !lookup_insert_eq. done.
    + done.
    + done.
    + done.
    + exists s'. split; [done |]. split; [done |]. unfold passed_to_client in *. cbn in Hat'. by rewrite <- app_assoc in Hat'.
Qed.

End Handlers.

(** ** A concrete connection *)

Definition ex_chan (f : iocbnr -> iocb) : chan := mkChan SSH_CHANNEL_TYPE_SESSION 5 32768 0 100 0 0 [] f [].

Definition ex_state (f : iocbnr -> iocb) : state :=
  mkState example_table {[0%nat := ex_chan f; 1%nat := ex_chan f]} [] [].

Lemma ex_channels : t_channels example_table = {[0%nat := mk_channel 0 3; 1%nat := mk_channel 0 1]}.
Proof. vm_compute. reflexivity. Qed.

Lemma ex_state_wf f : exists A, wf_state 0 2 (ex_state f) A /\ at_channel 0 (ex_state f) A 0 0 (mk_channel 0 3) (ex_chan f).
Proof.
  destruct example_table_wf as (A & Hwf & Hlen & He & Hc). exists A. split; [| by repeat split].
  split; [done | done |]. intros e Hin. destruct (in_table_channel _ _ _ _ Hwf Hin) as (c & Hce & _).
  rewrite ex_channels in Hce. apply lookup_insert_Some in Hce as [[<- _] | [_ [<- _]%lookup_singleton_Some]]; by eexists.
Qed.

Lemma channel_handlers_bounds_witness :
  process_cb_ssh_payload (channel_cbs 0 2 false) (ex_state (fun _ => recv_msg_default))
    (arrived_as 7 [94; 0; 0; 0; 0; 255; 255; 255; 255]) = Ub.
Proof.
  destruct (ex_state_wf (fun _ => recv_msg_default)) as (A & Hwf & _).
  apply (channel_handlers_bounds 0 2 false (ex_state (fun _ => recv_msg_default)) A (arrived_as 7 [94; 0; 0; 0; 0; 255; 255; 255; 255])).
  - exact Hwf.
  - split; [vm_compute; repeat constructor; discriminate | reflexivity | by vm_compute | by vm_compute].
  - exists (2 ^ 32 - 1). split; [by vm_compute |]. left. by vm_compute.
Defined.

Definition ex_data : received := arrived_as 7 [94; 0; 0; 0; 0; 0; 0; 0; 1; 65].

Definition ex_after : state :=
  match process_cb_ssh_payload (channel_cbs 0 2 false) (ex_state (fun _ => recv_msg_default)) ex_data with
  | Ret s => s | _ => ex_state (fun _ => recv_msg_default) end.

Lemma channel_payload_owned_witness : exists q, rp_sequence q = 7 /\ owned (ex_state (fun _ => recv_msg_default)) ex_after q.
Proof.
  destruct (ex_state_wf (fun _ => recv_msg_default)) as (A & Hwf & _).
  destruct (channel_payload_owned 0 2 false (ex_state (fun _ => recv_msg_default)) A ex_data ex_after Hwf)
    as [_ [[Hf _] | (q & [_ Hq] & Ho)]]; [vm_compute; reflexivity | discriminate |].
  exists q. by split.
Defined.

Lemma channel_message_roundtrip_witness : exists pl s',
  send_message 0 (MData [104; 105]) = Some pl /\
  process_cb_ssh_payload (channel_cbs 0 2 false) (ex_state (fun _ => recv_msg_default)) (arrived_as 7 (rp_buffer pl)) = Ret s'.
Proof.
  destruct (ex_state_wf (fun _ => recv_msg_default)) as (A & Hwf & Hat).
  destruct (channel_message_roundtrip 0 2 false (ex_state (fun _ => recv_msg_default)) A 0 0 (mk_channel 0 3)
    (ex_chan (fun _ => recv_msg_default)) 7 (MData [104; 105]) Hwf Hat) as (pl & s' & Hs & _ & _ & Hr & _);
    [by vm_compute | reflexivity | reflexivity | by vm_compute | exact I |].
  exists pl, s'. by split.
Defined.

(** The signal KILL is lost. *)
Lemma exit_requests_witness : exists q,
  process_cb_ssh_payload (channel_cbs 0 2 false) (ex_state (fun _ => recv_msg_default))
    (arrived_as 7 (request_bytes 0 (lit "exit-signal") 0 (encode_string (lit "KILL") ++ [0] ++ encode_string [] ++ encode_string []))) =
  Ret (free_payload q (put_channel (ex_state (fun _ => recv_msg_default)) 0 (mk_channel 0 3) (ex_chan (fun _ => recv_msg_default)))).
Proof.
  destruct (ex_state_wf (fun _ => recv_msg_default)) as (A & Hwf & Hat).
  refine (proj2 (exit_requests 0 2 (ex_state (fun _ => recv_msg_default)) A 0 0 (mk_channel 0 3) (ex_chan (fun _ => recv_msg_default))
    7 0 1 (encode_string (lit "KILL") ++ [0] ++ encode_string [] ++ encode_string []) Hwf Hat _ _ _ _ _)).
  - by vm_compute.
  - by vm_compute.
  - vm_compute. repeat constructor; discriminate.
  - by vm_compute.
  - by vm_compute.
Defined.

End SshChannel.
