(* ===== verification/SshChannelOpen.v ===== *)
(** * ssh/channel/startclose.c and utils.c: a channel is opened, used and closed

    The threads that open a channel or start a command on it wait on the queue
    of the channel (file SshPayload) for what the handlers of SshChannel put
    there.  What they look at besides the queue, the flags of the channel and
    whether the connection is gone, is the state that other threads change
    meanwhile.  [write_ssh_packet] is the result it returns. *)
From stdpp Require Import base list option strings gmap.
From Stdlib Require Import ZArith Lia.
From S2P Require Import Prelude SshUint SshString MsgBuffer SimpleList ListStore ChannelTable SshCipher SshPacket SshGeneric SshReceive SshReaders SshPayload SshChannelSend SshChannel.
Import SshUint SshString MsgBuffer ListStore ChannelTable SshPayload SshChannelSend SshChannel.
Open Scope Z_scope.

Module SshChannelOpen.

Definition SSH_CHANNEL_FLAG_OPEN := 4.
Definition SSH_CHANNEL_FLAG_OPENFAILURE := 8.
Definition SSH_CHANNEL_FLAG_CLIENT_EOF := 64.
Definition SSH_CHANNEL_FLAG_NODATA :=
  Z.lor SSH_CHANNEL_FLAG_CLIENT_CLOSE (Z.lor SSH_CHANNEL_FLAG_CLIENT_EOF
    (Z.lor SSH_CHANNEL_FLAG_SERVER_CLOSE SSH_CHANNEL_FLAG_SERVER_EOF)).

Definition EINVAL := 22.
Definition EIO := 5.
Definition ETIMEDOUT := 110.

(** What a waiting thread looks at: [channel->flags] and whether
    [SSH_RECEIVE_STATUS_DISCONNECT] is set. *)
Record shared : Type := mkShared { sh_flags : Z; sh_disconnect : bool }.

Definition set_flag (f : Z) (x : shared) : shared := mkShared (Z.lor (sh_flags x) f) (sh_disconnect x).

(** ** Opening *)

Definition get_window_size : Z := 2 ^ 32 - 1 - 1.

Definition _cb_finish_start_ssh_channel (x : shared) (q : queue) : bool :=
  has (sh_flags x) (Z.lor SSH_CHANNEL_FLAG_SERVER_CLOSE (Z.lor SSH_CHANNEL_FLAG_SERVER_EOF SSH_CHANNEL_FLAG_OPENFAILURE)).

(** The position after the message with the fields read, or -1. *)
Definition read_ssh_channel_open_confirmation_msg (p : received) : option (Z * option open_msg) :=
  if rp_len p <? 13 then Some (-1, None) else
  let? rcnr := get_uint32 (drop 5 (rp_buffer p)) in
  let? windowsize := get_uint32 (drop 9 (rp_buffer p)) in
  let? maxpacketsize := get_uint32 (drop 13 (rp_buffer p)) in
  Some (17, Some (mkOpenMsg rcnr windowsize maxpacketsize None)).

Definition read_ssh_channel_open_failure_msg (p : received) : option (Z * option (Z * ssh_string)) :=
  if rp_len p <? 13 then Some (-1, None) else
  let? reason := get_uint32 (drop 5 (rp_buffer p)) in
  let? (tmp, description) := read_ssh_string (drop 9 (rp_buffer p)) (u32 (rp_len p - 9)) None in
  if tmp <? 4 then Some (-1, None) else Some (9 + tmp, Some (reason, description)).

Definition set_local (lwindowsize maxpacketsize : Z) (d : chan) : chan :=
  mkChan (ch_type d) (ch_rcnr d) maxpacketsize lwindowsize (ch_rwindowsize d)
    (ch_exit_status d) (ch_exit_signal d) (ch_queue d) (ch_iocb d) (ch_passed d).

Definition set_remote (m : open_msg) (d : chan) : chan :=
  mkChan (ch_type d) (om_rcnr m) (om_maxpacketsize m) (ch_lwindowsize d) (om_windowsize m)
    (ch_exit_status d) (ch_exit_signal d) (ch_queue d) (ch_iocb d) (ch_passed d).

Abbreviation events := (list (qevent shared)).

(** The result, and what the channel is then; [StartWaits]: no event ends the wait. *)
Inductive start_result : Type :=
| Started (result : Z) (x : shared) (d : chan) (evs : events)
| StartWaits.

(** From the label [getpayload]; a payload of another type is dropped and the wait starts again. *)
Fixpoint wait_open (fuel : nat) (open : open_msg) (evs : events) (x : shared) (d : chan) : outcome start_result :=
  match fuel with
  | O => NoFuel
  | S fuel =>
      match get_ssh_payload _cb_select_payload_default _cb_finish_start_ssh_channel evs x (ch_queue d) with
      | Asleep _ _ => Ret StartWaits
      | Finished x q evs | Timedout x q evs => Ret (Started (-1) x (set_queue q d) evs)
      | GotPayload p x q evs =>
          let d := set_queue q d in
          if rp_type p =? SSH_MSG_CHANNEL_OPEN_CONFIRMATION then
            let d := set_local (om_windowsize open) (om_maxpacketsize open) d in
            let! (result, m) := lift (read_ssh_channel_open_confirmation_msg p) in
            match m with
            | Some m => Ret (Started result (set_flag SSH_CHANNEL_FLAG_OPEN x) (set_remote m d) evs)
            | None => Ret (Started result x d evs)
            end
          else if rp_type p =? SSH_MSG_CHANNEL_OPEN_FAILURE then
            let! _ := lift (read_ssh_channel_open_failure_msg p) in
            Ret (Started (-1) (set_flag SSH_CHANNEL_FLAG_OPENFAILURE x) d evs)
          else if rp_type p =? SSH_MSG_CHANNEL_CLOSE then Ret (Started (-1) x d evs)
          else wait_open fuel open evs x d
      end
  end.

(** [written]: the result of [write_ssh_packet] on the message; the message is
    the second component. *)
Definition start_ssh_channel (fuel : nat) (lcnr max_packet_size : Z) (data : option open_data) (written : Z)
    (evs : events) (x : shared) (d : chan) : outcome (start_result * option received) :=
  let type := ch_type d in
  if ((type =? SSH_CHANNEL_TYPE_DIRECT) || (type =? SSH_CHANNEL_TYPE_FORWARDED)) && bool_decide (data = None)
  then Ret (Started (-1) x d evs, None) else
  let open := mkOpenMsg 0 get_window_size max_packet_size data in
  let! p := lift (send_ssh_channel_open_msg type lcnr open) in
  if 0 <? written then let! r := wait_open fuel open evs x d in Ret (r, Some p)
  else Ret (Started (-1) x d evs, Some p).

(** ** Closing *)

(** The message that is sent, and the flags. *)
Definition close_ssh_channel (rcnr flags : Z) (x : shared) : option (option received * shared) :=
  if negb (has (sh_flags x) SSH_CHANNEL_FLAG_OPEN) then Some (None, x) else
  let? (m, x) :=
    (if has flags SSH_CHANNEL_FLAG_CLIENT_CLOSE && negb (has (sh_flags x) SSH_CHANNEL_FLAG_CLIENT_CLOSE) then
       let? p := send_ssh_channel_eofclose_msg rcnr SSH_MSG_CHANNEL_CLOSE in
       Some (Some p, set_flag SSH_CHANNEL_FLAG_CLIENT_CLOSE x)
     else Some (None, x)) in
  let x := if has flags SSH_CHANNEL_FLAG_SERVER_CLOSE && negb (has (sh_flags x) SSH_CHANNEL_FLAG_SERVER_CLOSE)
           then set_flag SSH_CHANNEL_FLAG_SERVER_CLOSE x else x in
  Some (m, mkShared (Z.ldiff (sh_flags x) SSH_CHANNEL_FLAG_OPEN) (sh_disconnect x)).

(** ** Starting a command *)

Definition START_REPLY := 1.
Definition START_DATA := 2.
Definition START_ERROR := 4.
Definition START_UNEXPECTED := 8.

(** A call of the function [cb] of the user. *)
Record call : Type := mkCall { cl_payload : option received; cl_flags : Z; cl_errcode : Z }.

Definition _cb_select_payload (flags : Z) (p : received) : Z :=
  if has flags START_UNEXPECTED then 1
  else if (rp_type p =? SSH_MSG_CHANNEL_SUCCESS) || (rp_type p =? SSH_MSG_CHANNEL_FAILURE) then 1
  else if has flags START_DATA && ((rp_type p =? SSH_MSG_CHANNEL_DATA) || (rp_type p =? SSH_MSG_CHANNEL_EXTENDED_DATA)) then 1
  else 0.

Definition _cb_break (x : shared) (q : queue) : bool :=
  (has (sh_flags x) SSH_CHANNEL_FLAG_SERVER_CLOSE || sh_disconnect x) && bool_decide (q = []).

Definition _cb_error (errcode : Z) : call := mkCall None START_ERROR errcode.

Inductive command_result : Type :=
| Command (result : Z) (calls : list call) (x : shared) (q : queue) (evs : events)
| CommandWaits (calls : list call).

(** The loop that waits for the reply.  A payload that is not taken by [cb] is freed. *)
Fixpoint reply_loop (fuel : nat) (calls : list call) (evs : events) (x : shared) (q : queue) : outcome command_result :=
  match fuel with
  | O => NoFuel
  | S fuel =>
      if has (sh_flags x) SSH_CHANNEL_FLAG_CLIENT_CLOSE then Ret (Command (-1) calls x q evs) else
      match get_ssh_payload (_cb_select_payload START_REPLY) _cb_break evs x q with
      | Asleep _ _ => Ret (CommandWaits calls)
      | Finished x q evs => reply_loop fuel calls evs x q
      | Timedout x q evs => reply_loop fuel (calls ++ [_cb_error ETIMEDOUT]) evs x q
      | GotPayload p x q evs =>
          if rp_type p =? SSH_MSG_CHANNEL_SUCCESS then Ret (Command 0 (calls ++ [mkCall (Some p) START_REPLY 0]) x q evs)
          else if rp_type p =? SSH_MSG_CHANNEL_FAILURE then Ret (Command (-1) (calls ++ [mkCall (Some p) START_REPLY 0]) x q evs)
          else reply_loop fuel calls evs x q
      end
  end.

(** The flags with which [cb] is called for a payload, and what that adds to the result. *)
Definition data_call (p : received) : call * Z :=
  if rp_type p =? SSH_MSG_CHANNEL_DATA then (mkCall (Some p) START_DATA 0, 1)
  else if rp_type p =? SSH_MSG_CHANNEL_EXTENDED_DATA then (mkCall (Some p) (Z.lor START_DATA START_ERROR) 0, 1)
  else (mkCall (Some p) START_UNEXPECTED 0, 0).

(** The loop that processes the output. *)
Fixpoint data_loop (fuel : nat) (result : Z) (calls : list call) (evs : events) (x : shared) (q : queue) : outcome command_result :=
  match fuel with
  | O => NoFuel
  | S fuel =>
      if has (sh_flags x) SSH_CHANNEL_FLAG_NODATA && bool_decide (q = []) then Ret (Command result calls x q evs) else
      match get_ssh_payload (_cb_select_payload (Z.lor START_DATA START_UNEXPECTED)) _cb_break evs x q with
      | Asleep _ _ => Ret (CommandWaits calls)
      | GotPayload p x q evs => data_loop fuel (result + (data_call p).2) (calls ++ [(data_call p).1]) evs x q
      | Finished x q evs =>
          if has (sh_flags x) SSH_CHANNEL_FLAG_NODATA then Ret (Command result calls x q evs)
          else data_loop fuel result calls evs x q
      | Timedout x q evs =>
          let calls := calls ++ [_cb_error ETIMEDOUT] in
          if has (sh_flags x) SSH_CHANNEL_FLAG_NODATA then Ret (Command result calls x q evs)
          else data_loop fuel result calls evs x q
      end
  end.

(** [sent] is what [send_ssh_channel_start_command_msg] returns; a channel that
    is NULL is not modelled. *)
Definition ssh_channel_start_command (fuel : nat) (type flags sent : Z) (evs : events) (x : shared) (q : queue) : outcome command_result :=
  if negb (type =? SSH_CHANNEL_TYPE_SESSION) then Ret (Command (-1) [mkCall None START_ERROR EINVAL] x q evs) else
  if (sent =? -1) || has (sh_flags x) (Z.lor SSH_CHANNEL_FLAG_SERVER_CLOSE (Z.lor SSH_CHANNEL_FLAG_SERVER_EOF SSH_CHANNEL_FLAG_OPENFAILURE))
  then Ret (Command sent [mkCall None START_ERROR EIO] x q evs) else
  let! r := (if has flags START_REPLY then reply_loop fuel [] evs x q else Ret (Command sent [] x q evs)) in
  match r with
  | CommandWaits calls => Ret (CommandWaits calls)
  | Command result calls x q evs =>
      if has flags START_DATA then data_loop fuel result calls evs x q else Ret (Command result calls x q evs)
  end.

(** ** Opening a channel *)

Lemma get_next {X} sel brk p evs (x : X) :
  brk x [] = false -> selects sel p = true -> sel p = 1 -> get_ssh_payload sel brk (Queued p :: evs) x [] = GotPayload p x [] evs.
Proof.
  intros Hb Hp H1. cbn [get_ssh_payload select_requested_payload]. rewrite Hb. unfold queue_ssh_payload.
  rewrite (get_queued sel brk x [] p []) by done. by rewrite H1.
Qed.

Definition other_reply (p : received) : Prop :=
  rp_type p <> SSH_MSG_CHANNEL_OPEN_CONFIRMATION /\ rp_type p <> SSH_MSG_CHANNEL_OPEN_FAILURE /\ rp_type p <> SSH_MSG_CHANNEL_CLOSE.

Lemma set_queue_same d : set_queue (ch_queue d) d = d.
Proof. by destruct d. Qed.

Lemma wait_open_skip open x d ps : forall fuel evs,
  ch_queue d = [] -> _cb_finish_start_ssh_channel x [] = false -> Forall other_reply ps ->
  wait_open (length ps + fuel) open (map Queued ps ++ evs) x d = wait_open fuel open evs x d.
Proof.
  induction ps as [|p ps IH]; intros fuel evs Hq Hb Hps; [done |]. apply Forall_cons_1 in Hps as [(H1 & H2 & H3) Hps].
  cbn [length plus wait_open map app]. rewrite Hq, get_next by done. cbn match.
  rewrite (proj2 (Z.eqb_neq _ _) H1), (proj2 (Z.eqb_neq _ _) H2), (proj2 (Z.eqb_neq _ _) H3).
  rewrite <- Hq, set_queue_same. by apply IH.
Qed.

Lemma read_confirmation lcnr rcnr windowsize maxpacketsize seq :
  is_u32 rcnr -> is_u32 windowsize -> is_u32 maxpacketsize ->
  read_ssh_channel_open_confirmation_msg (arrived_as seq (confirmation_bytes lcnr rcnr windowsize maxpacketsize)) =
    Some (17, Some (mkOpenMsg rcnr windowsize maxpacketsize None)).
Proof.
  intros Hr Hw Hm. unfold read_ssh_channel_open_confirmation_msg. set (p := arrived_as _ _).
  assert (rp_len p = 17) as -> by (cbn; unfold confirmation_bytes; zl). cbn [Z.ltb Z.compare Pos.compare Pos.compare_cont].
  change (rp_buffer p) with ([SSH_MSG_CHANNEL_OPEN_CONFIRMATION] ++ be_encode 4 lcnr ++ be_encode 4 rcnr ++ be_encode 4 windowsize ++ be_encode 4 maxpacketsize).
  assert (forall v r, drop 4 (be_encode 4 v ++ r) = r) as D4 by (intros; by apply drop_app_length').
  rewrite drop5, get_uint32_encode by done. opt. change 9%nat with (5 + 4)%nat. rewrite <- (drop_drop _ 4 5), drop5, D4, get_uint32_encode by done.
  opt. change 13%nat with (5 + (4 + 4))%nat. rewrite <- (drop_drop _ (4 + 4) 5), <- (drop_drop _ 4 4), drop5, !D4. opt.
  by rewrite <- (app_nil_r (be_encode 4 maxpacketsize)), get_uint32_encode.
Qed.

Lemma read_failure p : wf_received p -> exists x, read_ssh_channel_open_failure_msg p = Some x.
Proof.
  intros Hp. pose proof Hp as [Hb Hs Hl Hw]. unfold read_ssh_channel_open_failure_msg. destruct (Z.ltb_spec (rp_len p) 13); [by eexists |].
  destruct (read_u32 p 5 Hp) as (n & -> & _); [lia |]. opt.
  destruct (read_string_any (drop 9 (rp_buffer p)) (u32 (rp_len p - 9))) as ([tmp s] & ->).
  { pose proof (zlen_drop 9 (rp_buffer p) ltac:(lia)). change (Z.to_nat 9) with 9%nat in *. lia. }
  opt. destruct (tmp <? 4); by eexists.
Qed.

(** the opening of a session channel.  The message of the protocol is sent
    with the local number, the largest window but one and the maximum packet
    size.  Replies that do not belong to the opening are dropped, and the first
    that does decides: a confirmation sets the remote number, the remote window
    and packet size that it carries and the flag OPEN, with result 17; a failure sets
    the flag OPENFAILURE; a close, the end of the time, and a close or eof
    that was flagged meanwhile end it, all with result -1 and the channel as it was. *)
Theorem start_channel_outcome fuel lcnr mps written x d ps ev rest :
  ch_type d = SSH_CHANNEL_TYPE_SESSION -> ch_queue d = [] -> _cb_finish_start_ssh_channel x [] = false ->
  Forall other_reply ps -> (length ps < fuel)%nat -> 0 < written ->
  let open := mkOpenMsg 0 (2 ^ 32 - 2) mps None in
  exists r, start_ssh_channel fuel lcnr mps None written (map Queued ps ++ ev :: rest) x d =
      (let! r := r in Ret (r, Some (message (open_bytes SSH_CHANNEL_TYPE_SESSION lcnr open [])))) /\
    match ev with
    | Queued p =>
        (forall seq rcnr ws ps, p = arrived_as seq (confirmation_bytes lcnr rcnr ws ps) -> is_u32 rcnr -> is_u32 ws -> is_u32 ps ->
           r = Ret (Started 17 (set_flag SSH_CHANNEL_FLAG_OPEN x)
                 (set_remote (mkOpenMsg rcnr ws ps None) (set_local (2 ^ 32 - 2) mps d)) rest)) /\
        (rp_type p = SSH_MSG_CHANNEL_OPEN_FAILURE -> wf_received p ->
           r = Ret (Started (-1) (set_flag SSH_CHANNEL_FLAG_OPENFAILURE x) d rest)) /\
        (rp_type p = SSH_MSG_CHANNEL_CLOSE -> r = Ret (Started (-1) x d rest))
    | Expired => r = Ret (Started (-1) x d rest)
    | Changed y => _cb_finish_start_ssh_channel y [] = true -> r = Ret (Started (-1) y d rest)
    end.
Proof.
  intros Ht Hq Hb Hps Hf Hw open. exists (wait_open fuel open (map Queued ps ++ ev :: rest) x d). split.
  - unfold start_ssh_channel. rewrite Ht. cbn [Z.eqb Pos.eqb orb andb SSH_CHANNEL_TYPE_SESSION SSH_CHANNEL_TYPE_DIRECT SSH_CHANNEL_TYPE_FORWARDED].
    fold SSH_CHANNEL_TYPE_SESSION. change (mkOpenMsg 0 get_window_size mps None) with open.
    rewrite (open_message_exact SSH_CHANNEL_TYPE_SESSION lcnr open []) by (done || by vm_compute). cbn [lift outcome_bind].
    destruct (Z.ltb_spec 0 written); [done | lia].
  - replace fuel with (length ps + S (fuel - length ps - 1))%nat by lia. rewrite wait_open_skip by done.
    set (f := (fuel - length ps - 1)%nat). cbn [wait_open]. rewrite Hq. destruct ev as [p|y|].
    + rewrite get_next by done. cbn match. rewrite <- Hq, set_queue_same. split; [| split].
      * intros seq rcnr ws pz -> Hr Hws Hpz. change (rp_type (arrived_as seq (confirmation_bytes lcnr rcnr ws pz)) =? 91) with true. cbn match.
        by rewrite read_confirmation.
      * intros -> Hp. cbn [Z.eqb Pos.eqb SSH_MSG_CHANNEL_OPEN_FAILURE SSH_MSG_CHANNEL_OPEN_CONFIRMATION].
        by destruct (read_failure p Hp) as (? & ->).
      * by intros ->.
    + intros Hy. cbn [get_ssh_payload select_requested_payload]. rewrite Hb.
      destruct rest; cbn [get_ssh_payload select_requested_payload]; rewrite Hy, <- Hq, set_queue_same; done.
    + cbn [get_ssh_payload select_requested_payload]. rewrite Hb, <- Hq, set_queue_same. done.
Qed.

(** ** Closing a channel *)

Lemma close_correct_flags rcnr flags x m x' :
  close_ssh_channel rcnr flags x = Some (m, x') ->
  has (sh_flags x') SSH_CHANNEL_FLAG_OPEN = false /\
  (m <> None -> has (sh_flags x) SSH_CHANNEL_FLAG_OPEN = true /\ has (sh_flags x) SSH_CHANNEL_FLAG_CLIENT_CLOSE = false /\
     has (sh_flags x') SSH_CHANNEL_FLAG_CLIENT_CLOSE = true).
Proof.
  unfold close_ssh_channel. destruct (has (sh_flags x) SSH_CHANNEL_FLAG_OPEN) eqn:Ho; cbn [negb]; [| by intros [= <- <-]].
  destruct (has flags SSH_CHANNEL_FLAG_CLIENT_CLOSE && negb (has (sh_flags x) SSH_CHANNEL_FLAG_CLIENT_CLOSE)) eqn:Ec.
  - rewrite send_eofclose_bytes by done. cbn [mbind option_bind]. intros [= <- <-]. cbn [sh_flags]. split; [apply has_ldiff_same |].
    intros _. split; [done |]. apply andb_true_iff in Ec as [_ Ec%negb_true_iff]. split; [done |].
    rewrite has_ldiff by done. destruct (_ && _); cbn [set_flag sh_flags]; rewrite ?has_lor, ?(has_lor_same _ SSH_CHANNEL_FLAG_CLIENT_CLOSE), ?orb_true_r by done; done.
  - cbn [mbind option_bind]. intros [= <- <-]. cbn [sh_flags]. split; [apply has_ldiff_same | done].
Qed.

(** Calls of [close_ssh_channel], one after the other: the messages sent. *)
Fixpoint closes (rcnr : Z) (fs : list Z) (x : shared) : option (list received * shared) :=
  match fs with
  | [] => Some ([], x)
  | f :: fs =>
      let? (m, x) := close_ssh_channel rcnr f x in
      let? (ms, x) := closes rcnr fs x in
      Some (option_list m ++ ms, x)
  end.

Lemma closed_stays_closed rcnr fs : forall x, has (sh_flags x) SSH_CHANNEL_FLAG_OPEN = false -> closes rcnr fs x = Some ([], x).
Proof.
  induction fs as [|f fs IH]; intros x Hx; [done |]. cbn [closes]. unfold close_ssh_channel at 1. rewrite Hx. cbn [negb mbind option_bind].
  by rewrite IH.
Qed.

Lemma close_sends_once rcnr fs x : exists ms x', closes rcnr fs x = Some (ms, x') /\ (length ms <= 1)%nat.
Proof.
  destruct fs as [|f fs]; [by exists [], x; split; [| cbn; lia] |]. cbn [closes].
  destruct (close_ssh_channel rcnr f x) as [[m x1]|] eqn:E.
  - cbn [mbind option_bind]. destruct (close_correct_flags _ _ _ _ _ E) as [Ho _]. rewrite (closed_stays_closed rcnr fs x1 Ho).
    cbn [mbind option_bind]. exists (option_list m ++ []), x1. split; [done |]. destruct m; cbn; lia.
  - exfalso. revert E. unfold close_ssh_channel. destruct (negb _); [done |]. destruct (_ && _); [| done].
    by rewrite send_eofclose_bytes.
Qed.

(** ** Starting a command *)

Definition no_reply (p : received) : Prop := rp_type p <> SSH_MSG_CHANNEL_SUCCESS /\ rp_type p <> SSH_MSG_CHANNEL_FAILURE.

Lemma no_reply_select ps : Forall no_reply ps -> Forall (fun p => selects (_cb_select_payload START_REPLY) p = false) ps.
Proof.
  intros Hps. apply (Forall_impl _ _ _ Hps). intros p [H1 H2]. unfold selects, _cb_select_payload.
  by rewrite (proj2 (Z.eqb_neq _ _) H1), (proj2 (Z.eqb_neq _ _) H2).
Qed.

Lemma arrived_queued {X} ps : arrived (X := X) (map Queued ps) = ps.
Proof. unfold arrived. induction ps as [|p ps IH]; [done |]. cbn. by rewrite IH. Qed.

Lemma last_state_queued {X} ps (x : X) : last_state (map Queued ps) x = x.
Proof. unfold last_state. induction ps as [|p ps IH]; [done |]. apply IH. Qed.

Definition alive (x : shared) : Prop := has (sh_flags x) SSH_CHANNEL_FLAG_SERVER_CLOSE = false /\ sh_disconnect x = false.

Lemma alive_break x q : alive x -> _cb_break x q = false.
Proof. intros [H1 H2]. unfold _cb_break. by rewrite H1, H2. Qed.

Lemma get_reply ps p x rest :
  alive x -> Forall no_reply ps -> rp_type p = SSH_MSG_CHANNEL_SUCCESS \/ rp_type p = SSH_MSG_CHANNEL_FAILURE ->
  get_ssh_payload (_cb_select_payload START_REPLY) _cb_break (map Queued ps ++ Queued p :: rest) x [] = GotPayload p x ps rest.
Proof.
  intros Ha Hps Hp. assert (_cb_select_payload START_REPLY p = 1) as H1.
  { unfold _cb_select_payload. destruct Hp as [-> | ->]; reflexivity. }
  rewrite get_skip.
  - rewrite last_state_queued, arrived_queued. cbn [app].
    destruct (select_none _ _ 0 (no_reply_select _ Hps)) as (r & E). cbn [get_ssh_payload]. rewrite E, alive_break by done.
    unfold queue_ssh_payload. rewrite get_queued; [| by apply no_reply_select | unfold selects; by rewrite H1].
    by rewrite H1, app_nil_r.
  - apply Forall_map, Forall_true. done.
  - rewrite arrived_queued. by apply no_reply_select.
  - intros evs1 evs2 E. apply map_eq_app in E as (l1 & l2 & -> & <- & _). by rewrite last_state_queued, alive_break.
  - by left.
Qed.

Lemma select_all p : _cb_select_payload (Z.lor START_DATA START_UNEXPECTED) p = 1.
Proof. reflexivity. Qed.

Definition data_calls (ps : list received) : list call := map (fun p => (data_call p).1) ps.
Definition data_count (ps : list received) : Z := foldr (fun p n => (data_call p).2 + n) 0 ps.

Lemma data_count_app ps qs : data_count (ps ++ qs) = data_count ps + data_count qs.
Proof. unfold data_count. induction ps as [|p ps IH]; cbn [app foldr]; lia. Qed.

Lemma data_calls_app ps qs : data_calls (ps ++ qs) = data_calls ps ++ data_calls qs.
Proof. apply map_app. Qed.

(** The payloads in the queue and those that arrive are passed on in order. *)
Lemma data_loop_queue q : forall fuel result calls evs x,
  has (sh_flags x) SSH_CHANNEL_FLAG_NODATA = false ->
  data_loop (length q + fuel) result calls evs x q = data_loop fuel (result + data_count q) (calls ++ data_calls q) evs x [].
Proof.
  induction q as [|p q IH]; intros fuel result calls evs x Hx; cbn [length plus data_count data_calls foldr map].
  - by rewrite Z.add_0_r, app_nil_r.
  - cbn [data_loop]. rewrite Hx. cbn [andb].
    rewrite (get_queued _ _ x [] p q) by (done || unfold selects; by rewrite select_all). rewrite select_all. cbn [Z.eqb Pos.eqb app].
    rewrite IH by done. rewrite <- app_assoc. f_equal. unfold data_count. lia.
Qed.

Lemma data_loop_events ps : forall fuel result calls evs x,
  alive x -> has (sh_flags x) SSH_CHANNEL_FLAG_NODATA = false ->
  data_loop (length ps + fuel) result calls (map Queued ps ++ evs) x [] =
    data_loop fuel (result + data_count ps) (calls ++ data_calls ps) evs x [].
Proof.
  induction ps as [|p ps IH]; intros fuel result calls evs x Ha Hx; cbn [length plus data_count data_calls foldr map app].
  - by rewrite Z.add_0_r, app_nil_r.
  - cbn [data_loop]. rewrite Hx. cbn [andb].
    rewrite get_next by (done || by apply alive_break). rewrite IH by done. rewrite <- app_assoc. f_equal. unfold data_count. lia.
Qed.

Definition may_start (x : shared) : Prop :=
  alive x /\ has (sh_flags x) SSH_CHANNEL_FLAG_NODATA = false /\ has (sh_flags x) SSH_CHANNEL_FLAG_OPENFAILURE = false.

Lemma may_start_flags x : may_start x ->
  has (sh_flags x) SSH_CHANNEL_FLAG_CLIENT_CLOSE = false /\
  has (sh_flags x) (Z.lor SSH_CHANNEL_FLAG_SERVER_CLOSE (Z.lor SSH_CHANNEL_FLAG_SERVER_EOF SSH_CHANNEL_FLAG_OPENFAILURE)) = false.
Proof.
  intros ([Hsc _] & Hnd & Hof). unfold SSH_CHANNEL_FLAG_NODATA in Hnd. apply has_lor_false in Hnd as [Hcc Hnd].
  apply has_lor_false in Hnd as [_ Hnd]. apply has_lor_false in Hnd as [_ Heof]. split; [done |].
  unfold has in *. rewrite !Z.land_lor_distr_r. apply negb_false_iff, Z.eqb_eq in Hsc, Heof, Hof. by rewrite Hsc, Heof, Hof.
Qed.

Lemma server_close_nodata y : has (sh_flags y) SSH_CHANNEL_FLAG_SERVER_CLOSE = true -> has (sh_flags y) SSH_CHANNEL_FLAG_NODATA = true.
Proof.
  unfold SSH_CHANNEL_FLAG_NODATA, has. rewrite !Z.land_lor_distr_r. intros Hy%negb_true_iff%Z.eqb_neq.
  apply negb_true_iff, Z.eqb_neq. rewrite !Z.lor_eq_0_iff. tauto.
Qed.

(** a command that is started with a reply and its output asked for.  Until
    the reply comes everything else stays in the queue; the reply is passed on,
    with result 0 for success and -1 for failure; then all the data and extended
    data, those that came before the reply and those after it, are passed on
    in the order of their arrival and counted in the result, until the server closes
    the channel and the queue is empty. *)
Theorem start_command_output fuel x y ps p qs sent :
  may_start x ->
  Forall no_reply ps -> rp_type p = SSH_MSG_CHANNEL_SUCCESS \/ rp_type p = SSH_MSG_CHANNEL_FAILURE ->
  has (sh_flags y) SSH_CHANNEL_FLAG_SERVER_CLOSE = true -> sent <> -1 -> (length ps + length qs + 1 < fuel)%nat ->
  ssh_channel_start_command fuel SSH_CHANNEL_TYPE_SESSION (Z.lor START_REPLY START_DATA) sent
      (map Queued ps ++ Queued p :: map Queued qs ++ [Changed y]) x [] =
    Ret (Command ((if rp_type p =? SSH_MSG_CHANNEL_SUCCESS then 0 else -1) + data_count (ps ++ qs))
      (mkCall (Some p) START_REPLY 0 :: data_calls (ps ++ qs)) y [] []).
Proof.
  intros Hx Hps Hp Hy Hs Hf. destruct (may_start_flags x Hx) as [Hcc Hfl]. pose proof Hx as (Ha & Hnd & _).
  unfold ssh_channel_start_command. rewrite (proj2 (Z.eqb_neq _ _) Hs), Hfl. cbn [negb orb Z.eqb Pos.eqb SSH_CHANNEL_TYPE_SESSION].
  change (has (Z.lor START_REPLY START_DATA) START_REPLY) with true. change (has (Z.lor START_REPLY START_DATA) START_DATA) with true.
  cbn match. destruct fuel as [|fuel]; [lia |]. cbn [reply_loop]. rewrite Hcc, get_reply by done.
  assert (forall r, data_loop (S fuel) r [mkCall (Some p) START_REPLY 0] (map Queued qs ++ [Changed y]) x ps =
    Ret (Command (r + data_count (ps ++ qs)) (mkCall (Some p) START_REPLY 0 :: data_calls (ps ++ qs)) y [] [])) as Hdata.
  { intros r. replace (S fuel) with (length ps + (length qs + S (fuel - length ps - length qs)))%nat by lia.
    rewrite data_loop_queue, data_loop_events by done. cbn [data_loop]. rewrite Hnd. cbn [andb].
    cbn [get_ssh_payload select_requested_payload]. rewrite alive_break by done.
    assert (_cb_break y [] = true) as -> by (unfold _cb_break; by rewrite Hy). cbn match. rewrite server_close_nodata by done.
    rewrite data_count_app, data_calls_app. by rewrite Z.add_assoc, <- app_assoc. }
  destruct Hp as [Hp | Hp]; rewrite Hp; cbn [Z.eqb Pos.eqb SSH_MSG_CHANNEL_SUCCESS SSH_MSG_CHANNEL_FAILURE]; cbn [outcome_bind]; apply Hdata.
Qed.

Lemma reply_loop_spins y fuel : forall calls,
  has (sh_flags y) SSH_CHANNEL_FLAG_SERVER_CLOSE || sh_disconnect y = true -> has (sh_flags y) SSH_CHANNEL_FLAG_CLIENT_CLOSE = false ->
  reply_loop fuel calls [] y [] = NoFuel.
Proof.
  induction fuel as [|fuel IH]; intros calls Hb Hc; [done |]. cbn [reply_loop get_ssh_payload select_requested_payload].
  rewrite Hc. unfold _cb_break. rewrite Hb. by apply IH.
Qed.

(** the wait for the reply does not end when the server closes the channel
    or the connection is lost.  The callback that ends the wait on the queue
    then makes it return nothing, the loop does not look at why, and starts the
    wait again: it never returns, however long it runs, unless this side
    closes the channel itself. *)
Theorem start_command_spins fuel x y sent :
  may_start x ->
  has (sh_flags y) SSH_CHANNEL_FLAG_SERVER_CLOSE || sh_disconnect y = true ->
  has (sh_flags y) SSH_CHANNEL_FLAG_CLIENT_CLOSE = false -> sent <> -1 ->
  ssh_channel_start_command fuel SSH_CHANNEL_TYPE_SESSION START_REPLY sent [Changed y] x [] = NoFuel.
Proof.
  intros Hx Hb Hc Hs. destruct (may_start_flags x Hx) as [Hcc Hfl]. destruct Hx as (Ha & _).
  unfold ssh_channel_start_command. rewrite (proj2 (Z.eqb_neq _ _) Hs), Hfl. cbn [negb orb Z.eqb Pos.eqb SSH_CHANNEL_TYPE_SESSION].
  change (has START_REPLY START_REPLY) with true. cbn match. destruct fuel as [|fuel]; [done |].
  cbn [reply_loop get_ssh_payload select_requested_payload]. rewrite Hcc, alive_break by done.
  assert (_cb_break y [] = true) as -> by (unfold _cb_break; by rewrite Hb). cbn match. by rewrite reply_loop_spins.
Qed.

(** ** From the stream of packets to the sftp client *)

Section Stream.
Import SshReceive SshReaders.
Context {HE HD : Type} (matched : SshCipher.encryptor HE -> SshCipher.decryptor HD -> Prop) `{!SshPacket.packet_cipher matched} `{!SshPacket.parallel_cipher matched}.
Context {S : Type} `{!ListStore S} (tablehash fuel_table : nat).
Context (size max max_count : Z) (fresh : SshCipher.decryptor HD) (hk : hooks).

Definition data_payload (lcnr : Z) (m : bytes * Z) : SshPacket.payload :=
  SshPacket.mkPayload (default 0 (head (data_bytes lcnr m.1))) m.2 (zlen (data_bytes lcnr m.1)) (zlen (data_bytes lcnr m.1)) (data_bytes lcnr m.1).

Lemma numbered_data lcnr seq xs : numbered seq (map (data_bytes lcnr) xs) = map (data_payload lcnr) (with_numbers seq xs).
Proof. revert seq. induction xs as [|x xs IH]; intros seq; [done |]. cbn [map numbered with_numbers]. by rewrite IH. Qed.

Lemma submseteq_map_inv {X Y} (f : X -> Y) (l : list Y) (k : list X) : l ⊆+ map f k -> exists ms, l = map f ms /\ ms ⊆+ k.
Proof.
  intros [l' Hp]%submseteq_Permutation. symmetry in Hp. apply Permutation_map_inv in Hp as (k' & E & Hk).
  symmetry in E. apply map_eq_app in E as (ms & ms' & -> & <- & <-). exists ms. split; [done |]. rewrite Hk. by apply submseteq_inserts_r.
Qed.

Lemma sendable_data lcnr x : sendable (data_bytes lcnr x) -> is_u32 (9 + zlen x).
Proof.
  unfold sendable. assert (zlen (data_bytes lcnr x) = 9 + zlen x) as -> by (unfold data_bytes; zl).
  unfold_width. lia.
Qed.

Lemma with_numbers_in seq xs m : m ∈ with_numbers seq xs -> m.1 ∈ xs.
Proof.
  revert seq. induction xs as [|x xs IH]; intros seq; cbn; [by intros Hm%elem_of_nil |].
  intros [->|Hm]%elem_of_cons; [by left | right; by eapply IH].
Qed.


End Stream.

(** ** Concrete runs *)

Lemma start_channel_outcome_witness : exists r,
  start_ssh_channel 3 0 32768 None 40
    ([Queued (arrived_as 6 [93; 0; 0; 0; 0; 0; 0; 0; 1])] ++
     Queued (arrived_as 7 (confirmation_bytes 0 9 1000 500)) :: []) (mkShared 3 false) (ex_chan (fun _ => recv_msg_default)) =
  Ret (Started 17 (mkShared 7 false) r [], Some (message (open_bytes SSH_CHANNEL_TYPE_SESSION 0 (mkOpenMsg 0 (2 ^ 32 - 2) 32768 None) []))) /\
  ch_rcnr r = 9 /\ ch_rwindowsize r = 1000 /\ ch_maxpacketsize r = 500.
Proof.
  destruct (start_channel_outcome 3 0 32768 40 (mkShared 3 false) (ex_chan (fun _ => recv_msg_default))
    [arrived_as 6 [93; 0; 0; 0; 0; 0; 0; 0; 1]] (Queued (arrived_as 7 (confirmation_bytes 0 9 1000 500))) [])
    as (r & E & H & _); [reflexivity | reflexivity | reflexivity | repeat constructor; discriminate | cbn; lia | lia |].
  rewrite (H 7 9 1000 500 eq_refl) in E by (by vm_compute).
  eexists. split; [exact E |]. split; [reflexivity |]. split; reflexivity.
Defined.

Definition ex_out (t : Z) (b : bytes) : received := mkReceived t 1 0 (zlen b) (zlen b) b.

Lemma start_command_output_witness :
  ssh_channel_start_command 9 SSH_CHANNEL_TYPE_SESSION (Z.lor START_REPLY START_DATA) 40
    (map Queued [ex_out 94 [72]] ++ Queued (ex_out 99 []) :: map Queued [ex_out 95 [69]; ex_out 94 [73]] ++ [Changed (mkShared 39 false)])
    (mkShared 7 false) [] =
  Ret (Command 3 [mkCall (Some (ex_out 99 [])) 1 0; mkCall (Some (ex_out 94 [72])) 2 0; mkCall (Some (ex_out 95 [69])) 6 0;
    mkCall (Some (ex_out 94 [73])) 2 0] (mkShared 39 false) [] []).
Proof.
  apply (start_command_output 9 (mkShared 7 false) (mkShared 39 false) [ex_out 94 [72]] (ex_out 99 []) [ex_out 95 [69]; ex_out 94 [73]] 40).
  - by vm_compute.
  - repeat constructor; discriminate.
  - by left.
  - reflexivity.
  - discriminate.
  - cbn. lia.
Defined.

Lemma start_command_spins_witness :
  ssh_channel_start_command 1000 SSH_CHANNEL_TYPE_SESSION START_REPLY 40 [Changed (mkShared 39 false)] (mkShared 7 false) [] = NoFuel.
Proof.
  apply (start_command_spins 1000 (mkShared 7 false) (mkShared 39 false) 40); [by vm_compute | reflexivity | reflexivity | discriminate].
Defined.

(** One data message for channel 0, of chacha20-poly1305. *)
Module Runs.
Import SshCipher SshPacket SshGeneric SshReceive SshReaders Model.

Definition sealed : encryptor chacha_handle * packet :=
  SshReceive.Runs.sealed_by (chacha_encryptor SshReceive.Runs.run_handle) 5 (data_bytes 0 [104; 105]).

Definition start : readers (H := chacha_handle) :=
  mkReaders (mkSock (repeat 0 300) 0 (p_buffer sealed.2) false) 5 0 true [] 0 0 [] [] false.

Definition reached : readers (H := chacha_handle) :=
  match execs 300 0 SshReaders.Runs.key SshReaders.Runs.parallel
    (Arrive 50 :: Arrive 50 :: SshReaders.Runs.take_one 0 ++ [Deliver 0 true]) start with Ret r => r | _ => start end.

Lemma reached_by_run : rtc (step 300 0 SshReaders.Runs.key SshReaders.Runs.parallel) start reached.
Proof.
  unfold reached. destruct (execs _ _ _ _ _ start) as [r| |] eqn:E; [by apply readers_reachable in E | apply rtc_refl ..].
Qed.

Lemma start_ok :
  at_start (chacha_matched (G := Model.library) (L := Model.laws)) 300 300 SshReaders.Runs.key start
    (chacha_encryptor SshReceive.Runs.run_handle) (map (data_bytes 0) [[104; 105]]) [p_buffer sealed.2].
Proof.
  split.
  - split; [split; [reflexivity | cbn; lia] |]. split; reflexivity.
  - cbn. unfold_width. lia.
  - apply (ss_cons _ _ 0 _ [] [] sealed.1); [apply SshReceive.Runs.sealed_by_eq; vm_compute; reflexivity | constructor].
  - repeat constructor.
  - repeat constructor; vm_compute; reflexivity.
  - constructor; [| constructor]. split; [reflexivity |]. split; [reflexivity |]. by split.
  - repeat split; reflexivity.
  - repeat split; reflexivity.
Qed.

End Runs.
#[local] Existing Instance SshPacket.chacha_cipher.
#[local] Existing Instance SshPacket.chacha_parallel.


End SshChannelOpen.
