(* ===== verification/Names.v ===== *)
(** * lib/datatypes/name.c and name-string.c: names of users, domains and files

    A [struct name_s] is a pointer to the characters, a length and an index
    computed from the first six characters, by which names are ordered before
    the rest of the characters is looked at.  A [struct name_string_s] is the
    name of one byte of length of the messages between the programs. *)

From stdpp Require Import base list list_numbers numbers option.
From S2P Require Import Prelude.

Module Names.

(** ** struct name_s *)

Record name_s := mk_name {
  n_name : option bytes;      (* [None] is NULL *)
  n_len : Z;                  (* size_t *)
  n_index : Z                 (* uint64_t *)
}.

Definition NAMEINDEX_ROOT1 := 92.
Definition NAMEINDEX_ROOT2 := 8464.
Definition NAMEINDEX_ROOT3 := 778688.
Definition NAMEINDEX_ROOT4 := 71639296.
Definition NAMEINDEX_ROOT5 := 6590815232.

Definition init_name (a : name_s) : name_s := mk_name None 0 0.

Definition INIT_NAME : name_s := mk_name None 0 0.

(** [set_name (a, s, len)] for [a] that is not NULL. *)
Definition set_name (a : name_s) (s : option bytes) (len : Z) : name_s :=
  match s with Some _ => mk_name s len (n_index a) | None => a end.

(** [set_name_from (a, 's', s)] for the ssh string [(ptr, len)]; other types do nothing. *)
Definition set_name_from (a : name_s) (type : Z) (s : option bytes * Z) : name_s :=
  if type =? 115 then mk_name (fst s) (snd s) (n_index a) else a.

(** The sign of [strcmp (a, b)]; [None] when one of them runs out of its object. *)
Fixpoint strcmp (a b : bytes) : option Z :=
  match a, b with
  | x :: a, y :: b =>
      if x =? y then (if x =? 0 then Some 0 else strcmp a b)
      else Some (if x <? y then -1 else 1)
  | _, _ => None
  end.

(** [p + i]: a pointer further into the object, or just behind it. *)
Definition offset (p : option bytes) (i : Z) : option bytes :=
  let? p := p in if i <=? zlen p then Some (drop (Z.to_nat i) p) else None.

Definition compare_names (a b : name_s) : option Z :=
  if n_index a =? n_index b then
    if 6 <? n_len b then
      if 6 <? n_len a then
        let? p := offset (n_name a) 6 in let? q := offset (n_name b) 6 in strcmp p q
      else Some (-1)
    else if n_len b =? 6 then Some (if 6 <? n_len a then 1 else 0)
    else Some 0
  else Some (if n_index b <? n_index a then 1 else -1).

(** [buffer[i] - 32] as an [unsigned char]. *)
Definition letter (buffer : bytes) (i : nat) : option Z := let? c := buffer !! i in Some (u8 (c - 32)).

Definition calculate_nameindex_hlp (buffer : bytes) : option Z :=
  let? a := letter buffer 0 in let? b := letter buffer 1 in let? c := letter buffer 2 in
  let? d := letter buffer 3 in let? e := letter buffer 4 in let? f := letter buffer 5 in
  Some (u64 (a * NAMEINDEX_ROOT5 + b * NAMEINDEX_ROOT4 + c * NAMEINDEX_ROOT3 + d * NAMEINDEX_ROOT2 +
             e * NAMEINDEX_ROOT1 + f)).

Definition calculate_nameindex (name : name_s) : option name_s :=
  let count := if 5 <? n_len name then 6 else n_len name in
  let? d := (if count =? 0 then Some [] else let? p := n_name name in mem_read p 0 count) in
  let? buffer := mem_write (replicate 6 32) 0 d in
  let? index := calculate_nameindex_hlp buffer in
  Some (mk_name (n_name name) (n_len name) index).

(** What [compare_name] is given: type 'n', type 'c', another type. *)
Inductive name_arg := ArgName (b : name_s) | ArgChars (p : bytes) | ArgOther.

Definition compare_name (a : name_s) (x : name_arg) : option Z :=
  match x with
  | ArgName b => compare_names a b
  | ArgChars p =>
      let? n := strlen p in
      let? b := calculate_nameindex (mk_name (Some p) n 0) in
      compare_names a b
  | ArgOther => Some (-1)
  end.

(** ** struct name_string_s *)

Record name_string := mk_name_string { ns_len : Z; ns_ptr : option bytes }.

Definition init_name_string : name_string := mk_name_string 0 None.

Inductive string_arg := StrChars (p : bytes) | StrName (s : name_string) | StrOther.

(** [set_name_string (s, type, ptr)]; [ptr] is [None] for NULL. *)
Definition set_name_string (s : name_string) (ptr : option string_arg) : option name_string :=
  match ptr with
  | Some (StrChars p) => let? n := strlen p in Some (mk_name_string (u32 n) (Some p))
  | Some (StrName t) => Some (mk_name_string (ns_len t) (ns_ptr t))
  | Some StrOther => Some s
  | None => Some init_name_string
  end.

(** [memcpy] and [memcmp] of [n] bytes from a pointer that may be NULL when [n] is 0. *)
Definition ptr_read (p : option bytes) (n : Z) : option bytes :=
  if n =? 0 then Some [] else let? p := p in mem_read p 0 n.

Definition compare_name_string (t : name_string) (x : string_arg) : option Z :=
  match x with
  | StrChars data =>
      let? n := strlen data in
      if u32 n =? ns_len t then
        let? a := mem_read data 0 (ns_len t) in let? b := ptr_read (ns_ptr t) (ns_len t) in
        Some (if bytes_eqb a b then 0 else -1)
      else Some (-1)
  | StrName s =>
      if ns_len s =? ns_len t then
        let? a := ptr_read (ns_ptr s) (ns_len t) in let? b := ptr_read (ns_ptr t) (ns_len t) in
        Some (if bytes_eqb a b then 0 else -1)
      else Some (-1)
  | StrOther => Some (-1)
  end.

(** The number of bytes read, and the string. *)
Definition read_name_string (buffer : bytes) (size : Z) : option (Z * name_string) :=
  if 1 <=? size then
    let? c := buffer !! O in
    if u32 (1 + c) <=? size then Some (u32 (1 + c), mk_name_string c (Some (drop 1 buffer)))
    else Some (0, mk_name_string c None)
  else Some (0, init_name_string).

(** The length returned, and the buffer when there is one: [size] is not used. *)
Definition write_name_string (buffer : option bytes) (size : Z) (x : string_arg) : option (Z * option bytes) :=
  let put len data :=
    match buffer with
    | None => Some (u32 (1 + len), None)
    | Some b =>
        let? b := mem_write b 0 [u8 len] in
        let? d := ptr_read data len in
        let? b := mem_write b 1 d in
        Some (u32 (1 + len), Some b)
    end in
  match x with
  | StrChars p => let? n := strlen p in put (u32 n) (Some p)
  | StrName s => put (ns_len s) (ns_ptr s)
  | StrOther => Some (0, buffer)
  end.

Definition COPY_NAME_STRING_FLAG_ALLOW_TRUNCATE := 1.

(** The bytes copied, and the object [s->ptr] points to. *)
Definition copy_name_string_hlpr (s : name_string) (data : option bytes) (size flags : Z) : option (Z * name_string) :=
  let copy n :=
    let? d := ptr_read data n in
    if n =? 0 then Some (0, s) else
    let? p := ns_ptr s in let? p := mem_write p 0 d in Some (n, mk_name_string (ns_len s) (Some p)) in
  if size <=? ns_len s then copy size
  else if has flags COPY_NAME_STRING_FLAG_ALLOW_TRUNCATE then copy (ns_len s)
  else Some (0, s).

Definition copy_name_string (s : name_string) (x : string_arg) (flags : Z) : option (Z * name_string) :=
  match x with
  | StrChars p => let? n := strlen p in copy_name_string_hlpr s (Some p) (u32 n) flags
  | StrName o => copy_name_string_hlpr s (ns_ptr o) (ns_len o) flags
  | StrOther => Some (0, s)
  end.

(** ** The order of names *)

(** The order the index stands for: a name that is a prefix of another comes
    first, else the first different character decides. *)
Fixpoint lex (a b : bytes) : comparison :=
  match a, b with
  | [], [] => Eq
  | [], _ => Lt
  | _, [] => Gt
  | x :: a, y :: b => match x ?= y with Eq => lex a b | c => c end
  end.

Definition sign (c : comparison) : Z := match c with Eq => 0 | Lt => -1 | Gt => 1 end.

Lemma lex_Eq a : forall b, lex a b = Eq <-> a = b.
Proof.
  induction a as [|x a IH]; intros [|y b]; simpl; try done.
  destruct (Z.compare_spec x y) as [-> | |]; [rewrite IH; split; [by intros -> | by intros [=]] | |];
    (split; [done | intros [=]; lia]).
Qed.

Lemma lex_app p a b : lex (p ++ a) (p ++ b) = lex a b.
Proof. induction p as [|x p IH]; [done |]. simpl. by rewrite Z.compare_refl. Qed.

(** The characters the index can tell apart: 92 of them, '!' up to '{'. *)
Definition name_char (c : Z) : Prop := 33 <= c <= 123.

(** A name whose index is computed from its characters: [chars], terminated. *)
Record named (a : name_s) (chars : bytes) : Prop := {
  named_len : n_len a = zlen chars;
  named_chars : Forall name_char chars;
  named_ptr : exists rest, n_name a = Some (chars ++ 0 :: rest);
  named_index : calculate_nameindex a = Some a
}.

(** The first [k] characters as digits, and the number they are. *)
Fixpoint digits (k : nat) (l : bytes) : list Z :=
  match k with
  | O => []
  | S k => match l with [] => 0 :: digits k [] | c :: l => (c - 32) :: digits k l end
  end.

Fixpoint value (ds : list Z) : Z :=
  match ds with [] => 0 | d :: ds => d * 92 ^ zlen ds + value ds end.

Lemma value_range ds : Forall (fun d => 0 <= d < 92) ds -> 0 <= value ds < 92 ^ zlen ds.
Proof.
  induction 1 as [|d ds Hd _ IH]; [done |]. cbn [value]. rewrite zlen_cons, Z.pow_add_r by (pose proof (zlen_nonneg ds); lia). nia.
Qed.

(** Numbers of the same number of digits are ordered as their digits. *)
Lemma value_lex a : forall b, length a = length b ->
  Forall (fun d => 0 <= d < 92) a -> Forall (fun d => 0 <= d < 92) b -> (value a ?= value b) = lex a b.
Proof.
  induction a as [|x a IH]; intros [|y b] Hl Ha Hb; try done. injection Hl as Hl.
  apply Forall_cons_1 in Ha as [Hx Ha]. apply Forall_cons_1 in Hb as [Hy Hb]. cbn [value lex]. rewrite <- (IH b) by done.
  pose proof (value_range a Ha). pose proof (value_range b Hb).
  assert (zlen a = zlen b) as E by (unfold zlen; lia). rewrite E in *. set (m := 92 ^ zlen b) in *.
  destruct (Z.compare_spec x y) as [-> | Hlt | Hgt].
  - destruct (Z.compare_spec (value a) (value b)); [apply Z.compare_eq_iff | apply Z.compare_lt_iff | apply Z.compare_gt_iff]; lia.
  - apply Z.compare_lt_iff. nia.
  - apply Z.compare_gt_iff. nia.
Qed.

Lemma digits_range k : forall l, Forall name_char l -> Forall (fun d => 0 <= d < 92) (digits k l) /\ length (digits k l) = k.
Proof.
  induction k as [|k IH]; intros l Hl; [done |]. destruct Hl as [|c l Hc Hl]; simpl.
  - destruct (IH [] ltac:(constructor)) as [H1 H2]. split; [by constructor | by rewrite H2].
  - destruct (IH l Hl) as [H1 H2]. unfold name_char in Hc. split; [constructor; [lia | done] | by rewrite H2].
Qed.

Lemma digits_lex k : forall a b, Forall name_char a -> Forall name_char b -> lex (digits k a) (digits k b) = lex (take k a) (take k b).
Proof.
  induction k as [|k IH]; intros a b Ha Hb; [done |].
  destruct Ha as [|x a Hx Ha], Hb as [|y b Hy Hb]; unfold name_char in *; cbn [digits lex take].
  - specialize (IH [] []). rewrite IH by constructor. by destruct k.
  - destruct (Z.compare_spec 0 (y - 32)); [lia | done | lia].
  - destruct (Z.compare_spec (x - 32) 0); [lia | lia | done].
  - rewrite IH by done. replace (x - 32 ?= y - 32) with (x ?= y); [done |].
    destruct (Z.compare_spec x y), (Z.compare_spec (x - 32) (y - 32)); try done; lia.
Qed.

(** The first characters, padded with spaces. *)
Definition padded (k : nat) (l : bytes) : bytes := take k l ++ replicate (k - length l) 32.

Lemma padded_digits k : forall l, Forall name_char l -> (fun c => u8 (c - 32)) <$> padded k l = digits k l.
Proof.
  unfold padded. induction k as [|k IH]; intros l Hl; [done |]. destruct Hl as [|c l Hc Hl]; simpl.
  - f_equal. specialize (IH []). rewrite take_nil in IH. simpl in IH. rewrite Nat.sub_0_r in IH. by apply IH.
  - f_equal; [| by apply IH]. unfold u8, name_char in *. apply Z.mod_small. lia.
Qed.

Lemma index_value l : Forall name_char l -> calculate_nameindex_hlp (padded 6 l) = Some (value (digits 6 l)).
Proof.
  intros Hl. destruct (digits_range 6 l Hl) as [Hr Hn]. apply value_range in Hr. pose proof (padded_digits 6 l Hl) as E.
  unfold calculate_nameindex_hlp, letter.
  assert (forall i, (let? c := padded 6 l !! i in Some (u8 (c - 32))) = digits 6 l !! i) as Hi
    by (intros i; rewrite <- E, list_lookup_fmap; by destruct (padded 6 l !! i)).
  rewrite !Hi. clear E Hi. destruct (digits 6 l) as [|a [|b [|c [|d [|e [|f [|]]]]]]]; try done.
  unfold zlen in Hr. simpl lookup. opt. f_equal. rewrite Hn in Hr. clear Hn.
  unfold value in *. unfold zlen in *. simpl in *.
  unfold u64, NAMEINDEX_ROOT5, NAMEINDEX_ROOT4, NAMEINDEX_ROOT3, NAMEINDEX_ROOT2, NAMEINDEX_ROOT1. rewrite Z.mod_small; lia.
Qed.

Lemma named_value a l : named a l -> n_index a = value (digits 6 l).
Proof.
  intros [Hlen Hc [rest Hp] Hi]. unfold calculate_nameindex in Hi. rewrite Hlen, Hp in Hi. pose proof (zlen_nonneg l).
  set (count := if 5 <? zlen l then 6 else zlen l) in *.
  assert (0 <= count <= zlen l /\ count <= 6 /\ take (Z.to_nat count) l = take 6 l /\ (6 - length (take 6 l) = 6 - length l)%nat) as (Hk & Hk6 & Ht & Hpad).
  { unfold count. destruct (Z.ltb_spec 5 (zlen l)); unfold zlen in *; rewrite length_take; repeat split; try lia.
    rewrite Nat2Z.id, !take_ge by lia. done. }
  assert ((if count =? 0 then Some [] else let? p := Some (l ++ 0 :: rest) in mem_read p 0 count) = Some (take 6 l)) as E.
  { destruct (Z.eqb_spec count 0) as [E0|]; [by rewrite <- Ht, E0 |]. opt.
    rewrite mem_read_Some by (autorewrite with zlen; pose proof (zlen_nonneg rest); lia). change (Z.to_nat 0) with O. rewrite drop_0.
    rewrite take_app_le by (unfold zlen in *; lia). by rewrite Ht. }
  rewrite E in Hi. opt. cbn [mbind option_bind] in Hi.
  rewrite mem_write_Some in Hi by (try lia; change (zlen (replicate 6 32)) with 6; unfold zlen; rewrite length_take; lia).
  cbn [mbind option_bind] in Hi. change (Z.to_nat 0) with O in Hi. rewrite take_0, Nat.add_0_l, drop_replicate, Hpad in Hi.
  change ([] ++ ?x) with x in Hi. fold (padded 6 l) in Hi. rewrite index_value in Hi by done. cbn [mbind option_bind] in Hi.
  injection Hi as Hi. by rewrite <- Hi.
Qed.

Lemma strcmp_lex a : forall b r r', Forall name_char a -> Forall name_char b -> strcmp (a ++ 0 :: r) (b ++ 0 :: r') = Some (sign (lex a b)).
Proof.
  induction a as [|x a IH]; intros [|y b] r r' Ha Hb; [done | | |]; simpl; repeat match goal with H : Forall _ (_ :: _) |- _ => apply Forall_cons_1 in H as [? H] end;
    unfold name_char in *.
  - destruct y; done || lia.
  - destruct x; try lia. done.
  - destruct (Z.compare_spec x y) as [-> | |]; destruct (Z.eqb_spec x y) || rewrite Z.eqb_refl; try lia.
    + destruct (Z.eqb_spec y 0); [lia |]. by apply IH.
    + by destruct (Z.ltb_spec x y); [| lia].
    + by destruct (Z.ltb_spec x y); [lia |].
Qed.

Lemma lex_take k : forall a b, lex (take k a) (take k b) <> Eq -> lex a b = lex (take k a) (take k b).
Proof.
  induction k as [|k IH]; intros [|x a] [|y b]; simpl; try done. destruct (x ?= y); auto.
Qed.

Lemma named_offset a l : named a l -> 6 < n_len a -> exists rest, offset (n_name a) 6 = Some (drop 6 l ++ 0 :: rest).
Proof.
  intros [Hlen _ [rest ->] _] Hl. exists rest. unfold offset. opt. autorewrite with zlen. pose proof (zlen_nonneg rest).
  destruct (Z.leb_spec 6 (zlen l + (1 + zlen rest))); [| lia]. f_equal. apply drop_app_le. unfold zlen in *. lia.
Qed.

(** [compare_names] orders names as their characters do: for names with the
    index [calculate_nameindex] gives them, of the characters '!' to '{' and
    terminated, it returns a negative number, zero or a positive number as the
    first is before, equal to or after the second in the lexicographic order,
    and reads nothing outside the names. *)
Theorem compare_names_lex (a b : name_s) (la lb : bytes) :
  named a la -> named b lb -> compare_names a b = Some (sign (lex la lb)).
Proof.
  intros Ha Hb. pose proof (named_chars _ _ Ha) as Ca. pose proof (named_chars _ _ Hb) as Cb.
  unfold compare_names. rewrite (named_value a la Ha), (named_value b lb Hb).
  destruct (digits_range 6 la Ca) as [Ra La], (digits_range 6 lb Cb) as [Rb Lb].
  pose proof (value_lex (digits 6 la) (digits 6 lb) ltac:(lia) Ra Rb) as Hv. rewrite digits_lex in Hv by done.
  destruct (Z.compare_spec (value (digits 6 la)) (value (digits 6 lb))) as [E | E | E]; symmetry in Hv.
  - rewrite E, Z.eqb_refl. apply lex_Eq in Hv. pose proof (named_len _ _ Ha) as Na. pose proof (named_len _ _ Hb) as Nb.
    pose proof (f_equal length Hv) as Hl. rewrite !length_take in Hl. unfold zlen in Na, Nb.
    rewrite <- (take_drop 6 la), <- (take_drop 6 lb), Hv, lex_app.
    destruct (Z.ltb_spec 6 (n_len b)) as [Hb6|Hb6], (Z.ltb_spec 6 (n_len a)) as [Ha6|Ha6].
    + destruct (named_offset a la Ha Ha6) as [ra ->], (named_offset b lb Hb Hb6) as [rb ->]. opt.
      apply strcmp_lex; by apply Forall_drop.
    + rewrite (drop_ge la) by lia. destruct (drop 6 lb) as [|] eqn:Ed; [| done].
      apply (f_equal length) in Ed. rewrite length_drop in Ed. simpl in Ed. lia.
    + rewrite (drop_ge lb) by lia. destruct (Z.eqb_spec (n_len b) 6); [| lia].
      destruct (drop 6 la) as [|] eqn:Ed; [| done]. apply (f_equal length) in Ed. rewrite length_drop in Ed. simpl in Ed. lia.
    + rewrite !drop_ge by lia. by destruct (Z.eqb_spec (n_len b) 6).
  - destruct (Z.eqb_spec (value (digits 6 la)) (value (digits 6 lb))); [lia |].
    rewrite (lex_take 6) by (rewrite Hv; done). rewrite Hv. by destruct (Z.ltb_spec (value (digits 6 lb)) (value (digits 6 la))); [lia |].
  - destruct (Z.eqb_spec (value (digits 6 la)) (value (digits 6 lb))); [lia |].
    rewrite (lex_take 6) by (rewrite Hv; done). rewrite Hv. by destruct (Z.ltb_spec (value (digits 6 lb)) (value (digits 6 la))); [| lia].
Qed.

Definition ascii_name (l : bytes) : name_s :=
  default INIT_NAME (calculate_nameindex (mk_name (Some (l ++ [0])) (zlen l) 0)).

(** "readme.md" is after "readme". *)
Lemma compare_names_lex_witness :
  compare_names (ascii_name [114; 101; 97; 100; 109; 101; 46; 109; 100]) (ascii_name [114; 101; 97; 100; 109; 101]) = Some 1.
Proof.
  apply (compare_names_lex _ _ [114; 101; 97; 100; 109; 101; 46; 109; 100] [114; 101; 97; 100; 109; 101]);
    (split; [done | repeat constructor; done | by exists [] | done]).
Defined.

(** With a character beyond '{' a digit of the index overflows: "A~" and "B" with
    a quote behind it are different names with one index, and compare as equal. *)
Theorem name_index_collides :
  let a := ascii_name [65; 126] in let b := ascii_name [66; 34] in
  n_name a <> n_name b /\ compare_names a b = Some 0.
Proof. split; [done | reflexivity]. Qed.

(** ** Name strings *)

(** A name string with [data] behind its pointer. *)
Definition holds_name (s : name_string) (data : bytes) : Prop :=
  ns_len s = zlen data /\ exists rest, ns_ptr s = Some (data ++ rest).

Lemma ptr_read_app data rest : ptr_read (Some (data ++ rest)) (zlen data) = Some data.
Proof.
  unfold ptr_read. destruct (Z.eqb_spec (zlen data) 0) as [E|]; [destruct data; [done | unfold zlen in E; simpl in E; lia] |]. opt.
  rewrite mem_read_Some by (rewrite ?zlen_app; pose proof (zlen_nonneg rest); unfold zlen; lia).
  unfold zlen. by rewrite Nat2Z.id, drop_0, take_app_length.
Qed.

(** a name of at most 255 bytes written by [write_name_string] is read back by
    [read_name_string], whatever follows it: the length returned by both is that
    of the name and its length byte, which is also what the call without a
    buffer announces, and the string read compares equal to the one written. *)
Theorem name_string_roundtrip (s : name_string) (data pre post : bytes) (size : Z) :
  holds_name s data -> zlen data <= 255 -> zlen pre = 1 + zlen data -> zlen pre <= size < 2 ^ 32 ->
  write_name_string None 0 (StrName s) = Some (zlen pre, None) /\
  exists b t, write_name_string (Some (pre ++ post)) size (StrName s) = Some (zlen pre, Some b) /\
    zlen b = zlen (pre ++ post) /\ drop (length pre) b = post /\
    read_name_string b size = Some (zlen pre, t) /\ holds_name t data /\ compare_name_string t (StrName s) = Some 0.
Proof.
  intros [Hlen [rest Hp]] H255 Hpre Hsize. pose proof (zlen_nonneg data) as H0.
  assert (u32 (1 + zlen data) = zlen pre) as Hu by (rewrite Hpre; apply u32_id; unfold is_u32; lia).
  unfold write_name_string, read_name_string. rewrite Hlen, Hu. split; [done |].
  assert (u8 (zlen data) = zlen data) as Hu8 by (unfold u8; apply Z.mod_small; lia). rewrite Hu8, Hp, ptr_read_app.
  destruct pre as [|x pre]; [rewrite zlen_nil in Hpre; lia |]. rewrite zlen_cons in Hpre.
  pose proof (mem_write_one [] x (zlen data) (pre ++ post)) as E1. change (mem_write ((x :: pre) ++ post) 0 [zlen data] = Some (zlen data :: pre ++ post)) in E1.
  pose proof (mem_write_free [zlen data] pre data post ltac:(lia)) as E2. change (zlen [zlen data]) with 1 in E2. simpl app in E2.
  exists (zlen data :: data ++ post), (mk_name_string (zlen data) (Some (data ++ post))).
  rewrite E1. opt. rewrite E2. opt. split; [done |]. split; [simpl; rewrite !zlen_cons, !zlen_app; lia |].
  split; [simpl; rewrite drop_app_length' by (unfold zlen in *; lia); done |].
  rewrite zlen_cons in *. destruct (Z.leb_spec 1 size); [| lia]. simpl lookup. opt. rewrite Hu.
  destruct (Z.leb_spec (1 + zlen pre) size); [| lia]. split; [done |].
  split; [split; [done | by exists post] |]. unfold compare_name_string. cbn [ns_len ns_ptr]. rewrite Hlen, Z.eqb_refl, Hp, !ptr_read_app. opt.
  unfold bytes_eqb. by rewrite bool_decide_eq_true_2.
Qed.

Lemma name_string_roundtrip_witness :
  exists b t, write_name_string (Some [9; 9; 9; 9; 9]) 5 (StrName (mk_name_string 2 (Some [97; 98]))) = Some (3, Some b) /\
    read_name_string b 5 = Some (3, t) /\ compare_name_string t (StrName (mk_name_string 2 (Some [97; 98]))) = Some 0.
Proof.
  destruct (name_string_roundtrip (mk_name_string 2 (Some [97; 98])) [97; 98] [9; 9; 9] [9; 9] 5) as (_ & b & t & H1 & _ & _ & H2 & _ & H3);
    [split; [done | by exists []] | done | done | by vm_compute |].
  exists b, t. split; [exact H1 |]. split; [exact H2 | exact H3].
Defined.

(** The size of the buffer is ignored: a name that does not fit is written past its end. *)
Theorem write_name_string_overruns (s : name_string) (data b : bytes) (size : Z) :
  holds_name s data -> 0 < zlen b <= zlen data -> write_name_string (Some b) size (StrName s) = None.
Proof.
  intros [Hlen [rest Hp]] Hb. unfold write_name_string. rewrite Hlen, Hp, ptr_read_app.
  rewrite mem_write_Some by (try lia; unfold zlen in *; simpl; lia). opt.
  match goal with |- (let? x := mem_write ?q 1 data in _) = None => assert (zlen q = zlen b) as E end.
  { destruct b; [unfold zlen in Hb; simpl in Hb; lia | done]. }
  unfold mem_write. rewrite E. by destruct (Z.leb_spec (1 + zlen data) (zlen b)); [lia |].
Qed.

End Names.
