(* ===== verification/Runs.v ===== *)
(** * Calls that wait for other threads

    The results of a call that takes locks: it returns, it waits, or it goes wrong. *)

From stdpp Require Import base option.
From S2P Require Import Prelude.

Module Runs.

(** [Done]: the call returns; [Blocked]: it waits for a condition that no other
    thread of the run can make true; [Fault]: it follows NULL or a pointer to
    memory that was freed, or leaves an array; [Out]: the fuel is used up. *)
Inductive run (A : Type) : Type := Done (a : A) | Blocked | Fault | Out.
Arguments Done {A} _.
Arguments Blocked {A}.
Arguments Fault {A}.
Arguments Out {A}.

Definition run_bind {A B} (m : run A) (k : A -> run B) : run B :=
  match m with Done a => k a | Blocked => Blocked | Fault => Fault | Out => Out end.

Notation "'let*' x := m 'in' k" := (run_bind m (fun x => k))
  (at level 10, x pattern, k at level 200) : osns_scope.

Definition ok {A} (m : option A) : run A := match m with Some a => Done a | None => Fault end.

Ltac run := cbn [run_bind ok].

End Runs.
