(* ===== verification/SkipList.v ===== *)
(** * lib/sl: skip lists

    A skip list is a sorted list with lanes above it: a directory node
    ([struct sl_dirnode_s]) points to an element of the list and, per lane it
    takes part in, to the next and previous directory node.  Searching goes along
    the lanes and then along the list; inserting and deleting are callbacks of the
    search.  The directory nodes are objects of a heap of their own, so that a
    pointer to one that was freed is seen; the sorted list is one of the lists of
    the file SimpleList, used through the interface of the file ListStore and its
    extension here.  A call runs to its end, waits for a lock, or goes wrong. *)

From stdpp Require Import base list list_numbers numbers option gmap.
From S2P Require Import Prelude Runs SimpleList ListStore.
Import SimpleList ListStore.

Module SkipList.

Export Runs.

(** ** What the skip list needs of lists beyond [ListStore] *)

Class SortedStore (S : Type) `{!ListStore S} := {
  ls_tail : S -> nat -> option (option nat);
  ls_prev : S -> nat -> option (option nat);
  ls_count : S -> nat -> option Z;
  ls_add_after : S -> nat -> nat -> nat -> option S;     (* header, element, new element *)
  ls_add_before : S -> nat -> nat -> nat -> option S;

  ls_tail_spec s A h l : ls_refines s A -> A !! h = Some l -> ls_tail s h = Some (last l);
  ls_prev_spec s A h l1 e l2 : ls_refines s A -> A !! h = Some (l1 ++ e :: l2) -> ls_prev s e = Some (last l1);
  ls_prev_single s e : ls_single s e -> ls_prev s e = Some None;
  ls_count_spec s A h l : ls_refines s A -> A !! h = Some l -> ls_count s h = Some (zlen l) /\ is_u64 (zlen l);
  ls_add_after_spec s A h l1 x l2 e :
    ls_refines s A -> A !! h = Some (l1 ++ x :: l2) -> ls_alloc s e -> unused A e -> is_u64 (zlen (l1 ++ x :: l2) + 1) ->
    exists s', ls_add_after s h x e = Some s' /\ ls_refines s' (<[h := l1 ++ x :: e :: l2]> A) /\
      forall f, (ls_alloc s f -> ls_alloc s' f) /\ (f <> e -> ls_single s f -> ls_single s' f);
  ls_add_before_spec s A h l1 x l2 e :
    ls_refines s A -> A !! h = Some (l1 ++ x :: l2) -> ls_alloc s e -> unused A e -> is_u64 (zlen (l1 ++ x :: l2) + 1) ->
    exists s', ls_add_before s h x e = Some s' /\ ls_refines s' (<[h := l1 ++ e :: x :: l2]> A) /\
      forall f, (ls_alloc s f -> ls_alloc s' f) /\ (f <> e -> ls_single s f -> ls_single s' f)
}.

Lemma insert_after_element s A h l1 x l2 e :
  refines s A -> A !! h = Some (l1 ++ x :: l2) -> alloc s e -> unused A e -> is_u64 (zlen (l1 ++ x :: l2) + 1) ->
  becomes s e (add_list_element_after s h (Elt x) (Elt e)) A h (l1 ++ x :: e :: l2).
Proof.
  intros HR Hl Ha Hu Hw. apply add_after_init; [done.. |]. intros s1 HR1 Ha1.
  pose proof (ops_insert_after_spec s1 A h (l1 ++ [x]) l2 e) as H. unfold left_of in H.
  rewrite last_snoc, <- !app_assoc in H. by apply H.
Qed.

Lemma insert_before_element s A h l1 x l2 e :
  refines s A -> A !! h = Some (l1 ++ x :: l2) -> alloc s e -> unused A e -> is_u64 (zlen (l1 ++ x :: l2) + 1) ->
  becomes s e (add_list_element_before s h (Elt x) (Elt e)) A h (l1 ++ e :: x :: l2).
Proof.
  intros HR Hl Ha Hu Hw. apply add_after_init; [done.. |]. intros s1 HR1 Ha1.
  by apply (ops_insert_before_spec s1 A h l1 (x :: l2) e).
Qed.

#[export, refine] Instance simple_sorted_store : SortedStore heap := {|
  ls_tail s h := let? e := get_list_tail s h in container e;
  ls_prev s e := let? e := get_prev_element s (Elt e) in container e;
  ls_count s h := let? x := headers s !! h in Some (h_count x);
  ls_add_after s h x e := add_list_element_after s h (Elt x) (Elt e);
  ls_add_before s h x e := add_list_element_before s h (Elt x) (Elt e)
|}.
Proof.
  - intros s A h l HR Hl. rewrite (get_list_tail_spec s h l (HR _ _ Hl)). opt. apply container_Elt.
  - intros s A h l1 e l2 HR Hl. pose proof (rep_nodes _ _ _ (HR _ _ Hl) e ltac:(set_solver)) as Hi. unfold info_of in Hi.
    unfold get_prev_element. destruct (elems s !! Elt e) as [x|] eqn:Ex; [| done]. injection Hi as _ Ho. opt. rewrite Ho. opt.
    rewrite (_get_prev_spec s h l1 e l2) by (by apply HR). opt. apply container_Elt.
  - intros s e H. unfold ls_single in H. simpl in H. unfold single, info_of in H. unfold get_prev_element.
    destruct (elems s !! Elt e); [| done]. injection H as _ Ho. opt. rewrite Ho. done.
  - intros s A h l HR Hl. destruct (rep_header _ _ _ (HR _ _ Hl)) as (fl & -> & _). opt. split; [done | apply (rep_count _ _ _ (HR _ _ Hl))].
  - intros. by apply insert_after_element.
  - intros. by apply insert_before_element.
Defined.

(** ** Constants *)

Definition _SKIPLIST_PROB := 4.
Definition _SKIPLIST_MAXLANES := 10.
Definition _DIRNODE_LOCK_RM := 1.
Definition _DIRNODE_LOCK_PREWRITE := 2.
Definition _DIRNODE_LOCK_WRITE := 4.
Definition _DIRNODE_LOCK_READ := 8.
Definition _SKIPLIST_FLAG_ALLOC := 1.
Definition _DIRNODE_FLAG_START := 1.
Definition _DIRNODE_FLAG_ALLOC := 2.
Definition _SL_MOVE_FLAG_REMOVE := 4.
Definition _SL_MOVE_FLAG_MOVELEFT := 8.
Definition _SL_MOVE_FLAG_MOVERIGHT := 16.
Definition _SL_MOVE_FLAG_DIRNODERIGHT := 32.
Definition SL_SEARCHRESULT_FLAG_FIRST := 1.
Definition SL_SEARCHRESULT_FLAG_LAST := 2.
Definition SL_SEARCHRESULT_FLAG_EXACT := 4.
Definition SL_SEARCHRESULT_FLAG_BEFORE := 8.
Definition SL_SEARCHRESULT_FLAG_AFTER := 16.
Definition SL_SEARCHRESULT_FLAG_NOENT := 32.
Definition SL_SEARCHRESULT_FLAG_DIRNODE := 64.
Definition SL_SEARCHRESULT_FLAG_EMPTY := 128.
Definition SL_SEARCHRESULT_FLAG_EXCLUSIVE := 256.
Definition SL_SEARCHRESULT_FLAG_OK := 512.
Definition SL_SEARCHRESULT_FLAG_ERROR := 2 ^ 20.

(** ** Data *)

Record junction := mk_junction {
  j_step : Z;
  j_n : option nat;          (* a directory node; [None] is NULL *)
  j_p : option nat;
  j_count : Z
}.

(** What [dirnode->compare] points to: the comparison of the user, [compare_end]. *)
Inductive compare_fn := CompareUser | CompareEnd.

Record dirnode := mk_dirnode {
  d_list : option nat;
  d_flags : Z;
  d_lock : Z;
  d_lockers : Z;
  d_level : Z;
  d_compare : option compare_fn;
  d_junction : list junction
}.

Record move_dirnode := mk_move {
  m_flags : Z;
  m_dirnode : option nat;
  m_left : Z;
  m_right : Z;
  m_step : Z;
  m_list : option nat
}.

(** A skip list: [st_ops] says that the callbacks are set, [st_hdr] is the header
    of its list, node 0 is the embedded [sl->dirnode]; [st_brk] is the next node
    that [malloc] returns. *)
Record skiplist (S : Type) := mk_skiplist {
  st_ops : bool;
  st_prob : Z;
  st_flags : Z;
  st_maxlevel : Z;
  st_size : Z;
  st_hdr : nat;
  st_store : S;
  st_dirs : gmap nat dirnode;
  st_brk : nat
}.
Arguments mk_skiplist {S} _ _ _ _ _ _ _ _ _.
Arguments st_ops {S} _.
Arguments st_prob {S} _.
Arguments st_flags {S} _.
Arguments st_maxlevel {S} _.
Arguments st_size {S} _.
Arguments st_hdr {S} _.
Arguments st_store {S} _.
Arguments st_dirs {S} _.
Arguments st_brk {S} _.

Record path := mk_path { p_dirnode : nat; p_lockset : Z; p_lock : Z; p_step : Z }.

Record vector := mk_vector {
  v_maxlevel : Z;
  v_minlevel : Z;
  v_lockset : Z;
  v_level : Z;
  v_path : list path
}.

Record searchresult := mk_result {
  r_found : option nat;
  r_flags : Z;
  r_ctr : Z;
  r_row : Z;
  r_step : Z
}.

Definition init_sl_searchresult (flags : Z) : searchresult := mk_result None flags 0 0 0.

Definition set_found f r := mk_result f (r_flags r) (r_ctr r) (r_row r) (r_step r).
Definition add_flags f r := mk_result (r_found r) (Z.lor (r_flags r) f) (r_ctr r) (r_row r) (r_step r).
Definition set_ctr c r := mk_result (r_found r) (r_flags r) c (r_row r) (r_step r).
Definition set_row n r := mk_result (r_found r) (r_flags r) (r_ctr r) n (r_step r).
Definition set_rstep n r := mk_result (r_found r) (r_flags r) (r_ctr r) (r_row r) n.

Definition set_step n j := mk_junction n (j_n j) (j_p j) (j_count j).
Definition set_n n j := mk_junction (j_step j) n (j_p j) (j_count j).
Definition set_p p j := mk_junction (j_step j) (j_n j) p (j_count j).
Definition set_count n j := mk_junction (j_step j) (j_n j) (j_p j) n.

Definition set_list l d := mk_dirnode l (d_flags d) (d_lock d) (d_lockers d) (d_level d) (d_compare d) (d_junction d).
Definition set_lock x d := mk_dirnode (d_list d) (d_flags d) x (d_lockers d) (d_level d) (d_compare d) (d_junction d).
Definition set_lockers x d := mk_dirnode (d_list d) (d_flags d) (d_lock d) x (d_level d) (d_compare d) (d_junction d).
Definition set_level x d := mk_dirnode (d_list d) (d_flags d) (d_lock d) (d_lockers d) x (d_compare d) (d_junction d).
Definition set_compare x d := mk_dirnode (d_list d) (d_flags d) (d_lock d) (d_lockers d) (d_level d) x (d_junction d).
Definition set_junctions x d := mk_dirnode (d_list d) (d_flags d) (d_lock d) (d_lockers d) (d_level d) (d_compare d) x.

(** ** Vectors *)

Definition vpath (v : vector) (level : Z) : run path := ok (v_path v !! Z.to_nat level).

Definition upd_path (v : vector) (level : Z) (f : path -> path) : run vector :=
  let* p := vpath v level in
  Done (mk_vector (v_maxlevel v) (v_minlevel v) (v_lockset v) (v_level v) (<[Z.to_nat level := f p]> (v_path v))).

Definition set_vlevel (v : vector) (level : Z) : vector :=
  mk_vector (v_maxlevel v) (v_minlevel v) (v_lockset v) level (v_path v).

Definition set_pdirnode d p := mk_path d (p_lockset p) (p_lock p) (p_step p).
Definition set_plock lockset lock p := mk_path (p_dirnode p) lockset lock (p_step p).

(** [create_vector_path (level, dirnode)]; [mem] says whether [malloc] succeeds. *)
Definition create_vector_path (mem : bool) (level : Z) (dirnode : nat) : option vector :=
  if mem then Some (mk_vector level 0 0 level (replicate (Z.to_nat (level + 1)) (mk_path dirnode 0 0 0))) else None.

(** The lock of the current level goes to the level below it ... *)
Definition move_lock_vector_path_down (v : vector) : run vector :=
  let level := v_level v in
  let* p := vpath v level in
  let* v := upd_path v (level - 1) (fun q => set_plock (p_lockset p) (p_lock p) (set_pdirnode (p_dirnode p) q)) in
  let* v := upd_path v level (set_plock 0 0) in
  Done (set_vlevel v (u16 (level - 1))).

(** ... and to the lowest, the levels between getting the directory node. *)
Fixpoint fill_down (n : nat) (dirnode : nat) (v : vector) : run vector :=
  match n with
  | O => Done v
  | S n => let* v := upd_path v (Z.of_nat (S n)) (fun q => set_plock 0 0 (set_pdirnode dirnode q)) in fill_down n dirnode v
  end.

Definition move_lock_vector_down (v : vector) : run vector :=
  let level := v_level v in
  let* p := vpath v level in
  if level =? 0 then Done v else
  let* v := upd_path v 0 (fun q => set_pdirnode (p_dirnode p) (set_plock (p_lockset p) (p_lock p) q)) in
  let* v := upd_path v level (set_plock 0 0) in
  let* v := fill_down (Z.to_nat (level - 1)) (p_dirnode p) v in
  Done (set_vlevel v 0).

(** ** The memory of a skip list *)

Section Ops.
Context {S : Type} `{!ListStore S, !SortedStore S}.
Abbreviation state := (skiplist S).

Definition set_dirs (st : state) (m : gmap nat dirnode) : state :=
  mk_skiplist (st_ops st) (st_prob st) (st_flags st) (st_maxlevel st) (st_size st) (st_hdr st) (st_store st) m (st_brk st).

Definition set_store (st : state) (x : S) : state :=
  mk_skiplist (st_ops st) (st_prob st) (st_flags st) (st_maxlevel st) (st_size st) (st_hdr st) x (st_dirs st) (st_brk st).

Definition deref (st : state) (d : nat) : run dirnode := ok (st_dirs st !! d).

Definition upd_dir (st : state) (d : nat) (f : dirnode -> dirnode) : run state :=
  let* x := deref st d in Done (set_dirs st (<[d := f x]> (st_dirs st))).

(** [d->junction[level]] *)
Definition junc (st : state) (d : nat) (level : Z) : run junction :=
  let* x := deref st d in ok (d_junction x !! Z.to_nat level).

Definition upd_junc (st : state) (d : nat) (level : Z) (f : junction -> junction) : run state :=
  let* x := deref st d in
  let* j := ok (d_junction x !! Z.to_nat level) in
  Done (set_dirs st (<[d := set_junctions (<[Z.to_nat level := f j]> (d_junction x)) x]> (st_dirs st))).

Definition add_step (n : Z) (j : junction) : junction := set_step (u32 (j_step j + n)) j.

(** ** Locks (skiplist-lock.c)

    Each function is entered with the mutex; where the source waits for a
    condition the run is [Blocked] when the condition is false. *)

Definition read_block := Z.lor _DIRNODE_LOCK_WRITE _DIRNODE_LOCK_PREWRITE.

(** [path.lock = 1; lockset = READ; dirnode->lock &= READ; lockers++] once no
    writer is announced. *)
Definition acquire_read (st : state) (v : vector) (dirnode : nat) : run (state * vector) :=
  let* d := deref st dirnode in
  if has (d_lock d) read_block then Blocked else
  let* v := upd_path v (v_level v) (fun p => set_plock _DIRNODE_LOCK_READ 1 (set_pdirnode dirnode p)) in
  let* st := upd_dir st dirnode (fun d => set_lockers (u32 (d_lockers d + 1)) (set_lock (Z.land (d_lock d) _DIRNODE_LOCK_READ) d)) in
  Done (st, v).

Definition readlock_vector_path (st : state) (v : vector) (dirnode : nat) : run (state * vector) := acquire_read st v dirnode.

(** [lockers--], and the last reader clears READ. *)
Definition release_read (st : state) (dirnode : nat) : run state :=
  upd_dir st dirnode (fun d =>
    let d := set_lockers (u32 (d_lockers d - 1)) d in
    if d_lockers d =? 0 then set_lock (Z.ldiff (d_lock d) _DIRNODE_LOCK_READ) d else d).

Definition remove_readlock_vector_path (st : state) (v : vector) : run (state * vector) :=
  let* p := vpath v (v_level v) in
  if p_lock p =? 0 then Done (st, v) else
  let* st := release_read st (p_dirnode p) in
  let* v := upd_path v (v_level v) (set_plock 0 0) in
  Done (st, v).

Definition move_readlock_vector_path (st : state) (v : vector) (dirnode : nat) : run (state * vector) :=
  let* p := vpath v (v_level v) in
  if bool_decide (dirnode = p_dirnode p) then Done (st, v) else
  let* (st, v) :=
    (if p_lock p =? 0 then Done (st, v) else
     let* st := release_read st (p_dirnode p) in
     let* v := upd_path v (v_level v) (set_plock (p_lockset p) 0) in
     Done (st, v)) in
  acquire_read st v dirnode.

(** A writer announces itself with PREWRITE; when another did, it gives up its
    read lock ... *)
Definition upgrade_enter (st : state) (v : vector) (level : Z) : run (bool * state * vector) :=
  let* p := vpath v level in
  let* d := deref st (p_dirnode p) in
  if has (d_lock d) _DIRNODE_LOCK_PREWRITE then
    let* st := release_read st (p_dirnode p) in
    let* v := upd_path v level (fun q => set_plock (Z.ldiff (p_lockset q) _DIRNODE_LOCK_READ) 0 q) in
    Done (false, st, v)
  else
    let* st := upd_dir st (p_dirnode p) (fun d => set_lock (Z.lor (d_lock d) _DIRNODE_LOCK_PREWRITE) d) in
    Done (true, st, v).

(** ... and when it is the only locker left it takes the write lock. *)
Definition upgrade_finish (st : state) (v : vector) (level : Z) : run (state * vector) :=
  let* p := vpath v level in
  let* d := deref st (p_dirnode p) in
  if 1 <? d_lockers d then Blocked else
  let* st := upd_dir st (p_dirnode p) (fun d =>
    let d := set_lock (Z.ldiff (Z.land (d_lock d) _DIRNODE_LOCK_WRITE) _DIRNODE_LOCK_PREWRITE) d in
    let d := set_lockers (u32 (d_lockers d + 1)) d in
    let d := set_lock (Z.ldiff (d_lock d) _DIRNODE_LOCK_READ) d in
    set_lockers (u32 (d_lockers d - 1)) d) in
  let* v := upd_path v level (fun q =>
    set_plock (Z.ldiff (Z.lor (p_lockset q) _DIRNODE_LOCK_WRITE) _DIRNODE_LOCK_READ) (p_lock q) q) in
  Done (st, v).

Definition upgrade_readlock_vector_path (st : state) (v : vector) (level : Z) : run (Z * state * vector) :=
  let* (entered, st, v) := upgrade_enter st v level in
  if entered : bool then let* (st, v) := upgrade_finish st v level in Done (0, st, v)
  else Done (-1, st, v).

(** The loop over the levels [level, level + n); with [move] the read lock is
    moved to the previous directory node. *)
Fixpoint upgrade_levels (n : nat) (st : state) (v : vector) (dirnode : nat) (move : bool) (level : Z)
  : run (Z * state * vector) :=
  match n with
  | O => Done (0, st, v)
  | Datatypes.S n =>
      let* p := vpath v level in
      let* (st, v) :=
        (if move && bool_decide (p_dirnode p = dirnode) then
           let* j := junc st dirnode level in
           let* prev := ok (j_p j) in
           move_readlock_vector_path st v prev
         else Done (st, v)) in
      let* p := vpath v level in
      if p_lock p =? 0 then upgrade_levels n st v dirnode move (level + 1) else
      let* (r, st, v) := upgrade_readlock_vector_path st v level in
      if r =? -1 then Done (-1, st, v) else upgrade_levels n st v dirnode move (level + 1)
  end.

(** The number of levels from the current one to [maxlevel]. *)
Definition levels (v : vector) : nat := Z.to_nat (v_maxlevel v - v_level v + 1).

Definition upgrade_readlock_vector (st : state) (v : vector) (move : bool) : run (Z * state * vector) :=
  let* p := vpath v 0 in
  upgrade_levels (levels v) st v (p_dirnode p) move (v_level v).

(** A correction of the lanes at one level: [correct_dirnodes_insert] and the like.
    The last argument is [insert] or [move], [None] for NULL. *)
Definition correction := state -> vector -> Z -> option move_dirnode -> run (state * option move_dirnode).

Fixpoint unlock_levels (n : nat) (cb : correction) (st : state) (v : vector) (move : option move_dirnode) (i : Z)
  : run (state * vector * option move_dirnode) :=
  match n with
  | O => Done (st, v, move)
  | Datatypes.S n =>
      let* p := vpath v i in
      let* (st, move) := cb st v i move in
      let* p' := vpath v i in
      let* st :=
        (if p_lock p' =? 0 then Done st
         else upd_dir st (p_dirnode p) (fun d => set_lockers (u32 (d_lockers d - 1)) (set_lock (Z.ldiff (d_lock d) (p_lockset p')) d))) in
      let* v := upd_path v i (set_plock 0 0) in
      unlock_levels n cb st v move (i + 1)
  end.

Definition remove_lock_vector (st : state) (v : vector) (cb : correction) (move : option move_dirnode)
  : run (state * vector * option move_dirnode) := unlock_levels (levels v) cb st v move (v_level v).

(** The functions without locks. *)
Definition readlock_vector_path_nolock (st : state) (v : vector) (dirnode : nat) : run (state * vector) :=
  let* v := upd_path v (v_level v) (set_pdirnode dirnode) in Done (st, v).

Definition move_readlock_vector_path_nolock (st : state) (v : vector) (dirnode : nat) : run (state * vector) :=
  let* v := upd_path v (v_level v) (set_pdirnode dirnode) in Done (st, v).

Definition upgrade_readlock_vector_nolock (st : state) (v : vector) (move : bool) : run (Z * state * vector) := Done (0, st, v).

Definition remove_lock_vector_nolock (st : state) (v : vector) (cb : correction) (move : option move_dirnode)
  : run (state * vector * option move_dirnode) := Done (st, v, move).

(** [struct sl_lockops_s], less the member no function calls. *)
Record lockops := mk_lockops {
  lo_remove : state -> vector -> correction -> option move_dirnode -> run (state * vector * option move_dirnode);
  lo_readlock : state -> vector -> nat -> run (state * vector);
  lo_move : state -> vector -> nat -> run (state * vector);
  lo_upgrade : state -> vector -> bool -> run (Z * state * vector)
}.

Definition sl_default_lockops := mk_lockops remove_lock_vector readlock_vector_path move_readlock_vector_path upgrade_readlock_vector.
Definition sl_nolock_lockops :=
  mk_lockops remove_lock_vector_nolock readlock_vector_path_nolock move_readlock_vector_path_nolock upgrade_readlock_vector_nolock.

(** [(flags & EXCLUSIVE) ? get_sl_lockops_nolock () : get_sl_lockops_default ()] *)
Definition lockops_for (flags : Z) : lockops :=
  if has flags SL_SEARCHRESULT_FLAG_EXCLUSIVE then sl_nolock_lockops else sl_default_lockops.

(** ** Searching (skiplist-find.c) *)

Section Search.
Context {L : Type} (compare : nat -> L -> Z) (get_list_element : L -> option nat).

(** [sl->ops.compare (list, lookupdata)], a fault when it is not set. *)
Definition ops_compare (st : state) (list : nat) (k : L) : run Z :=
  if st_ops st then Done (compare list k) else Fault.

(** [next->compare (list, lookupdata)] *)
Definition call_compare (d : dirnode) (list : nat) (k : L) : run Z :=
  match d_compare d with
  | Some CompareUser => Done (compare list k)
  | Some CompareEnd => Done 1
  | None => Fault
  end.

(** How the loop over the lanes ends: [goto out], or [break] at level 0. *)
Inductive lane_end := LaneOut | LaneBreak (list : nat).

Fixpoint search_lanes (fuel : nat) (lo : lockops) (st : state) (v : vector) (k : L) (dirnode list : nat) (r : searchresult)
  : run (lane_end * state * vector * searchresult) :=
  match fuel with
  | O => Out
  | Datatypes.S fuel =>
      let* j := junc st dirnode (v_level v) in
      let* diff :=
        match j_n j with
        | None => Done 1
        | Some next => let* d := deref st next in call_compare d list k
        end in
      if 0 <? diff then
        if v_level v =? 0 then Done (LaneBreak list, st, v, r)
        else let* v := move_lock_vector_path_down v in search_lanes fuel lo st v k dirnode list r
      else if diff =? 0 then
        let* next := ok (j_n j) in
        let r := set_row (u32 (r_row r + u32 (j_step j - 1))) (set_found (Some list) r) in
        let* (st, v) := lo_move lo st v next in
        let r := add_flags (Z.lor SL_SEARCHRESULT_FLAG_EXACT SL_SEARCHRESULT_FLAG_DIRNODE) r in
        let* v := move_lock_vector_down v in
        Done (LaneOut, st, v, r)
      else
        let* next := ok (j_n j) in
        let r := set_row (u32 (r_row r + j_step j)) r in
        let* (st, v) := lo_move lo st v next in
        let* n := ok (ls_next (st_store st) list) in
        match n with
        | None =>
            let r := add_flags (Z.lor SL_SEARCHRESULT_FLAG_NOENT (Z.lor SL_SEARCHRESULT_FLAG_LAST SL_SEARCHRESULT_FLAG_AFTER)) r in
            let* d := deref st next in
            let r := set_found (d_list d) r in
            let* v := move_lock_vector_down v in
            Done (LaneOut, st, v, r)
        | Some list => search_lanes fuel lo st v k next list (set_rstep 1 r)
        end
  end.

Fixpoint search_list (fuel : nat) (st : state) (count : Z) (k : L) (list : nat) (r : searchresult) : run searchresult :=
  match fuel with
  | O => Out
  | Datatypes.S fuel =>
      if r_ctr r <=? count then
        let* diff := ops_compare st list k in
        let r := set_ctr (u32 (r_ctr r + 1)) r in
        if diff <? 0 then
          let* n := ok (ls_next (st_store st) list) in
          let r := set_rstep (u32 (r_step r + 1)) (set_row (u32 (r_row r + 1)) r) in
          match n with
          | None => Done (add_flags (Z.lor SL_SEARCHRESULT_FLAG_NOENT SL_SEARCHRESULT_FLAG_AFTER) r)
          | Some list => search_list fuel st count k list r
          end
        else if diff =? 0 then Done (add_flags SL_SEARCHRESULT_FLAG_EXACT (set_found (Some list) r))
        else Done (add_flags (Z.lor SL_SEARCHRESULT_FLAG_NOENT SL_SEARCHRESULT_FLAG_BEFORE) (set_found (Some list) r))
      else Done r
  end.

(** What is done at the end of a search. *)
Definition search_cb := state -> lockops -> vector -> searchresult -> run (state * searchresult).

(** From [list = get_list_tail] up to the label [out]. *)
Definition search (fuel : nat) (lo : lockops) (st : state) (v : vector) (k : L) (r : searchresult)
  : run (state * vector * searchresult) :=
  let* count := ok (ls_count (st_store st) (st_hdr st)) in
  if count =? 0 then
    let* v := move_lock_vector_down v in Done (st, v, add_flags SL_SEARCHRESULT_FLAG_EMPTY r)
  else
  let* tail := ok (ls_tail (st_store st) (st_hdr st)) in
  let* list := ok tail in
  let* diff := ops_compare st list k in
  if diff <? 0 then
    let r := add_flags (Z.lor SL_SEARCHRESULT_FLAG_NOENT (Z.lor SL_SEARCHRESULT_FLAG_LAST SL_SEARCHRESULT_FLAG_AFTER)) r in
    let* v := move_lock_vector_down v in Done (st, v, set_row (u32 count) (set_found (Some list) r))
  else if diff =? 0 then
    let r := add_flags (Z.lor SL_SEARCHRESULT_FLAG_EXACT SL_SEARCHRESULT_FLAG_LAST) r in
    let* v := move_lock_vector_down v in Done (st, v, set_row (u32 count) (set_found (Some list) r))
  else
  let* head := ok (ls_head (st_store st) (st_hdr st)) in
  let* list := ok head in
  let r := set_row 1 r in
  let* diff := ops_compare st list k in
  if 0 <? diff then
    let r := add_flags (Z.lor SL_SEARCHRESULT_FLAG_NOENT (Z.lor SL_SEARCHRESULT_FLAG_FIRST SL_SEARCHRESULT_FLAG_BEFORE)) r in
    let* v := move_lock_vector_down v in Done (st, v, set_row 0 (set_found (Some list) r))
  else if diff =? 0 then
    let r := add_flags (Z.lor SL_SEARCHRESULT_FLAG_EXACT SL_SEARCHRESULT_FLAG_FIRST) r in
    let* v := move_lock_vector_down v in Done (st, v, set_found (Some list) r)
  else
  let* (e, st, v, r) := search_lanes fuel lo st v k 0 list r in
  match e with
  | LaneOut => Done (st, v, r)
  | LaneBreak list => let* r := search_list fuel st count k list r in Done (st, v, r)
  end.

(** [mem]: [create_vector_path] finds memory. *)
Definition sl_find_generic (mem : bool) (fuel : nat) (lo : lockops) (cb : search_cb) (st : state) (k : L) (r : searchresult)
  : run (state * searchresult) :=
  let* d := deref st 0 in
  match create_vector_path mem (d_level d + 1) 0 with
  | None => Done (st, add_flags SL_SEARCHRESULT_FLAG_ERROR r)
  | Some v =>
      let* (st, v) := lo_readlock lo st v 0 in
      let v := set_vlevel v (u16 (v_level v - 1)) in
      let* v := upd_path v (v_level v) (set_pdirnode 0) in
      let* (st, v, r) := search fuel lo st v k r in
      cb st lo v r
  end.

Definition correct_dirnodes_ignore : correction := fun st v level m => Done (st, m).

Definition sl_find_cb : search_cb := fun st lo v r =>
  let* (st, _, _) := lo_remove lo st v correct_dirnodes_ignore None in Done (st, r).

Definition sl_find (mem : bool) (fuel : nat) (st : state) (k : L) (r : searchresult) : run (state * searchresult) :=
  sl_find_generic mem fuel (lockops_for (r_flags r)) sl_find_cb st k r.

(** ** Directory nodes (skiplist-utils.c) *)

(** The loops that move the element of a directory node; each iteration takes one
    step along the list. *)
Fixpoint move_sl_dirnode_left (fuel : nat) (st : state) (m : move_dirnode) : run (state * move_dirnode) :=
  match fuel with
  | O => Out
  | Datatypes.S fuel =>
      if 1 <? u32 (m_left m - m_right m) then
        let* dirnode := ok (m_dirnode m) in
        let* d := deref st dirnode in
        let* list := ok (d_list d) in
        let* prev := ok (ls_prev (st_store st) list) in
        if bool_decide (prev = None) || bool_decide (prev = m_list m) then Done (st, m) else
        let* st := upd_dir st dirnode (set_list prev) in
        move_sl_dirnode_left fuel st
          (mk_move (m_flags m) (m_dirnode m) (u32 (m_left m - 1)) (u32 (m_right m + 1)) (m_step m - 1) (m_list m))
      else Done (st, m)
  end.

Fixpoint move_sl_dirnode_right (fuel : nat) (st : state) (m : move_dirnode) : run (state * move_dirnode) :=
  match fuel with
  | O => Out
  | Datatypes.S fuel =>
      if 1 <? u32 (m_right m - m_left m) then
        let* dirnode := ok (m_dirnode m) in
        let* d := deref st dirnode in
        let* list := ok (d_list d) in
        let* next := ok (ls_next (st_store st) list) in
        if bool_decide (next = None) || bool_decide (next = m_list m) then Done (st, m) else
        let* st := upd_dir st dirnode (set_list next) in
        move_sl_dirnode_right fuel st
          (mk_move (m_flags m) (m_dirnode m) (u32 (m_left m + 1)) (u32 (m_right m - 1)) (m_step m + 1) (m_list m))
      else Done (st, m)
  end.

(** [_init_sl_dirnode] for [count] junctions. *)
Definition _init_sl_dirnode (d : dirnode) (count : Z) (flag : Z) : run dirnode :=
  if count <=? zlen (d_junction d) then
    Done (mk_dirnode None (Z.lor (d_flags d) flag) 0 0 (u16 (count - 1)) (d_compare d)
            (replicate (Z.to_nat count) (mk_junction 0 (Some O) (Some O) 0) ++ drop (Z.to_nat count) (d_junction d)))
  else Fault.

Definition zero_junction := mk_junction 0 None None 0.
Definition zero_dirnode (count : Z) := mk_dirnode None 0 0 0 0 None (replicate (Z.to_nat count) zero_junction).

(** The node [malloc] returned, or [None]. *)
Definition create_sl_dirnode (mem : bool) (st : state) (level : Z) : run (option nat * state) :=
  if mem then
    let* d := _init_sl_dirnode (zero_dirnode (level + 1)) (level + 1) _DIRNODE_FLAG_ALLOC in
    let d := set_compare (if st_ops st then Some CompareUser else None) d in
    Done (Some (st_brk st),
      mk_skiplist (st_ops st) (st_prob st) (st_flags st) (st_maxlevel st) (st_size st) (st_hdr st) (st_store st)
        (<[st_brk st := d]> (st_dirs st)) (Datatypes.S (st_brk st)))
  else Done (None, st).

(** ** Inserting (skiplist-insert.c) *)

Fixpoint levelup_loop (n : nat) (st : state) (ctr hlp level : Z) : run (Z * Z) :=
  match n with
  | O => Done (hlp, level)
  | Datatypes.S n =>
      let* j := junc st 0 ctr in
      let c := u32 (j_count j + 1) in
      if c =? 0 then Fault else
      let hlp := hlp / c in
      levelup_loop n st (ctr + 1) hlp (if st_prob st <? hlp then ctr else level)
  end.

Definition do_levelup (st : state) : run Z :=
  let* count := ok (ls_count (st_store st) (st_hdr st)) in
  let hlp := u32 count in
  if st_prob st <? hlp then
    let* d := deref st 0 in
    let* (hlp, level) := levelup_loop (Z.to_nat (d_level d + 1)) st 0 hlp (-1) in
    Done (if (level =? d_level d) && (st_prob st <? hlp) then level + 1 else level)
  else Done 0.

(** [new] between [prev] and [next] on this level/lane. *)
Definition link_dirnode (st : state) (new prev next : nat) (level : Z) : run state :=
  let* st := upd_junc st prev level (set_n (Some new)) in
  let* st := upd_junc st new level (set_p (Some prev)) in
  let* st := upd_junc st next level (set_p (Some new)) in
  upd_junc st new level (set_n (Some next)).

(** The steps left and right of the new node, of a level above the lowest. *)
Definition insert_steps (st : state) (v : vector) (prev next : nat) (level : Z) (ins : move_dirnode) : run move_dirnode :=
  if 0 <? level then
    let* q := vpath v (level - 1) in
    let tmp := p_dirnode q in
    let* lft :=
      (if bool_decide (prev = tmp) then Done (m_left ins)
       else let* j := junc st prev (level - 1) in Done (u32 (m_left ins + j_step j))) in
    let* jt := junc st tmp (level - 1) in
    let* rgt :=
      (if bool_decide (Some next = j_n jt) then Done (m_right ins)
       else
         let* jn := junc st next (level - 1) in
         let* tmp2 := ok (j_p jn) in
         let* j := junc st tmp2 (level - 1) in
         Done (u32 (m_right ins + j_step j))) in
    Done (mk_move (m_flags ins) (m_dirnode ins) lft rgt (m_step ins) (m_list ins))
  else Done ins.

Definition correct_dirnodes_insert : correction := fun st v level insert =>
  let* ins := ok insert in
  let* p := vpath v level in
  let prev := p_dirnode p in
  let* new :=
    match m_dirnode ins with
    | None => Done None
    | Some new => let* d := deref st new in Done (if level <=? d_level d then Some new else None)
    end in
  match new with
  | Some new =>
      let* j := junc st prev level in
      let* next := ok (j_n j) in
      let* st := link_dirnode st new prev next level in
      let* ins := insert_steps st v prev next level ins in
      let* st := upd_junc st prev level (set_step (m_left ins)) in
      let* st := upd_junc st new level (set_step (m_right ins)) in
      let* st := upd_junc st 0 level (fun j => set_count (u32 (j_count j + 1)) j) in
      Done (st, Some ins)
  | None =>
      let* st := upd_junc st prev level (add_step 1) in
      Done (st, Some ins)
  end.

(** [insert.dirnode] is the new node, when there is one. *)
Definition insert_sl_dirnode (mem : bool) (st : state) (list : nat) (ins : move_dirnode) : run (state * move_dirnode) :=
  let* newlevel := do_levelup st in
  if 0 <=? newlevel then
    let newlevel := if st_maxlevel st <? newlevel then st_maxlevel st else newlevel in
    let* (new, st) := create_sl_dirnode mem st newlevel in
    match new with
    | Some new =>
        let* st := upd_dir st new (set_list (Some list)) in
        let* d := deref st 0 in
        let* st := (if d_level d <? newlevel then upd_dir st 0 (set_level newlevel) else Done st) in
        Done (st, mk_move (m_flags ins) (Some new) (m_left ins) (m_right ins) (m_step ins) (m_list ins))
    | None => Done (st, ins)
    end
  else Done (st, ins).

Definition insert_sl_dirnode_left (mem : bool) (fuel : nat) (st : state) (list : nat) (ins : move_dirnode) : run (state * move_dirnode) :=
  let* (st, ins) := insert_sl_dirnode mem st list ins in
  if bool_decide (m_dirnode ins = None) then Done (st, ins) else move_sl_dirnode_left fuel st ins.

Definition insert_sl_dirnode_right (mem : bool) (fuel : nat) (st : state) (list : nat) (ins : move_dirnode) : run (state * move_dirnode) :=
  let* (st, ins) := insert_sl_dirnode mem st list ins in
  if bool_decide (m_dirnode ins = None) then Done (st, ins) else move_sl_dirnode_right fuel st ins.

(** Whether and where a directory node is made for the new element. *)
Definition insert_dirnode (mem : bool) (fuel : nat) (st : state) (list : nat) (ins : move_dirnode) : run (state * move_dirnode) :=
  if (st_prob st <=? m_left ins) && (st_prob st <=? m_right ins) then insert_sl_dirnode mem st list ins
  else if (u32 (2 * st_prob st) <=? u32 (m_left ins + m_right ins + 1)) || (u32 (st_prob st + 1) <? m_left ins) then
    if m_right ins <? m_left ins then insert_sl_dirnode_left mem fuel st list ins
    else if m_left ins <? m_right ins then insert_sl_dirnode_right mem fuel st list ins
    else Done (st, ins)
  else Done (st, ins).

Definition no_move : move_dirnode := mk_move 0 None 0 0 0 None.

(** [mem]: [create_sl_dirnode] finds memory. *)
Definition sl_insert_cb (mem : bool) (fuel : nat) (k : L) : search_cb := fun st lo v r =>
  let unlocknothing st v r := let* (st, _, _) := lo_remove lo st v correct_dirnodes_ignore None in Done (st, r) in
  let unlock st v r ins := let* (st, _, _) := lo_remove lo st v correct_dirnodes_insert (Some ins) in Done (st, r) in
  if has (r_flags r) SL_SEARCHRESULT_FLAG_EXACT then unlocknothing st v r else
  let* (e, st, v) := lo_upgrade lo st v false in
  if negb (e =? 0) then unlocknothing st v r else
  if negb (st_ops st) then Fault else
  match get_list_element k with
  | None => unlocknothing st v (add_flags SL_SEARCHRESULT_FLAG_ERROR r)
  | Some list =>
      let* p := vpath v 0 in
      let prev := p_dirnode p in
      let done r := add_flags SL_SEARCHRESULT_FLAG_OK (set_found (Some list) r) in
      if has (r_flags r) SL_SEARCHRESULT_FLAG_EMPTY then
        let* x := ok (ls_add_first (st_store st) (st_hdr st) list) in
        let* st := upd_junc (set_store st x) 0 0 (set_step 1) in
        unlock st v (done r) no_move
      else
        let* (st, r, ins) :=
          (if has (r_flags r) SL_SEARCHRESULT_FLAG_BEFORE then
             let* found := ok (r_found r) in
             let* x := ok (ls_add_before (st_store st) (st_hdr st) found list) in
             let* j := junc st prev 0 in
             Done (set_store st x, done r, mk_move 0 None (r_step r) (u32 (j_step j - r_step r + 1)) 0 None)
           else if has (r_flags r) SL_SEARCHRESULT_FLAG_AFTER then
             let* found := ok (r_found r) in
             let* x := ok (ls_add_after (st_store st) (st_hdr st) found list) in
             let* j := junc st prev 0 in
             Done (set_store st x, done r, mk_move 0 None (u32 (r_step r + 1)) (u32 (j_step j - r_step r)) 0 None)
           else Done (st, r, no_move)) in
        let* (st, ins) := insert_dirnode mem fuel st list ins in
        unlock st v r ins
  end.

Definition sl_insert (mem mem' : bool) (fuel : nat) (st : state) (k : L) (r : searchresult) : run (state * searchresult) :=
  sl_find_generic mem fuel (lockops_for (r_flags r)) (sl_insert_cb mem' fuel k) st k r.

(** ** Deleting (skiplist-delete.c) *)

Definition free_dirnode (st : state) (d : nat) : run state :=
  let* _ := deref st d in Done (set_dirs st (delete d (st_dirs st))).

Definition correct_sl_dirnodes_remove : correction := fun st v level move =>
  let* m := ok move in
  let* old :=
    match m_dirnode m with
    | None => Done None
    | Some old => let* d := deref st old in Done (if level <=? d_level d then Some (old, d_level d) else None)
    end in
  match old with
  | Some (old, olevel) =>
      let* j := junc st old level in
      let* prev := ok (j_p j) in
      let* st := upd_junc st prev level (set_n (j_n j)) in
      let* st := upd_junc st prev level (add_step (u32 (j_step j - 1))) in
      let* st := upd_junc st 0 level (fun j => set_count (u32 (j_count j - 1)) j) in
      if level =? olevel then
        let* st := free_dirnode st old in
        Done (st, Some (mk_move (m_flags m) None (m_left m) (m_right m) (m_step m) (m_list m)))
      else Done (st, Some m)
  | None =>
      let* p := vpath v level in
      let* st := upd_junc st (p_dirnode p) level (add_step (-1)) in
      Done (st, Some m)
  end.

Definition correct_sl_dirnodes_move : correction := fun st v level move =>
  let* m := ok move in
  let* dir :=
    match m_dirnode m with
    | None => Done None
    | Some dirnode => let* d := deref st dirnode in Done (if level <=? d_level d then Some dirnode else None)
    end in
  match dir with
  | Some dirnode =>
      let* j := junc st dirnode level in
      let* prev := ok (j_p j) in
      let* st := upd_junc st prev level (add_step (m_step m)) in
      let* st := upd_junc st dirnode level (add_step (- m_step m)) in
      let* st :=
        (if has (m_flags m) _SL_MOVE_FLAG_DIRNODERIGHT then upd_junc st prev level (add_step (-1))
         else upd_junc st dirnode level (add_step (-1))) in
      Done (st, Some m)
  | None =>
      let* p := vpath v level in
      let* st := upd_junc st (p_dirnode p) level (add_step (-1)) in
      Done (st, Some m)
  end.

(** [move.dirnode = d; move.left = l; move.right = r; move.flags |= f] *)
Definition moving (list : nat) (d : nat) (l r f : Z) : move_dirnode := mk_move f (Some d) l r 0 (Some list).

(** Which directory node moves, and where to, when [list] is removed: the part of
    [sl_delete_cb] between the upgrade of the locks and the removal. *)
Definition delete_dirnode (fuel : nat) (st : state) (list dirnode : nat) (r : searchresult)
  : run (state * correction * move_dirnode) :=
  let nothing := mk_move 0 None 0 0 0 (Some list) in
  let moved (x : run (state * move_dirnode)) := let* (st, m) := x in Done (st, correct_sl_dirnodes_move, m) in
  let* d := deref st dirnode in
  let* j := junc st dirnode 0 in
  if has (r_flags r) SL_SEARCHRESULT_FLAG_DIRNODE then
    let* prev := ok (j_p j) in
    let* jp := junc st prev 0 in
    if u32 (j_step jp + j_step j + 1) <? u32 (2 * st_prob st) then
      Done (st, correct_sl_dirnodes_remove, moving list dirnode (j_step jp) (j_step j) _SL_MOVE_FLAG_REMOVE)
    else if u32 (j_step j + 1) <? j_step jp then
      moved (move_sl_dirnode_left fuel st (moving list dirnode (j_step jp) (j_step j) _SL_MOVE_FLAG_MOVELEFT))
    else if u32 (j_step jp + 1) <? j_step j then
      moved (move_sl_dirnode_right fuel st (moving list dirnode (j_step jp) (j_step j) _SL_MOVE_FLAG_MOVELEFT))
    else Done (st, correct_sl_dirnodes_move, nothing)
  else if j_step j <? u32 (st_prob st - 1) then
    let* next := ok (j_n j) in
    let* dn := deref st next in
    let* jn := junc st next 0 in
    let start := has (d_flags d) _DIRNODE_FLAG_START in
    let nstart := has (d_flags dn) _DIRNODE_FLAG_START in
    let right_left := moving list next (j_step j) (j_step jn) (Z.lor _SL_MOVE_FLAG_DIRNODERIGHT _SL_MOVE_FLAG_MOVELEFT) in
    let right_right := moving list next (j_step j) (j_step jn) (Z.lor _SL_MOVE_FLAG_DIRNODERIGHT _SL_MOVE_FLAG_MOVERIGHT) in
    if negb start && negb nstart then
      let* prev := ok (j_p j) in
      if j_step jn <? j_step j then moved (move_sl_dirnode_left fuel st right_left) else
      let* jp := junc st prev 0 in
      if j_step jn <? j_step jp then
        moved (move_sl_dirnode_left fuel st (moving list dirnode (j_step jp) (j_step j) _SL_MOVE_FLAG_MOVELEFT))
      else if j_step j <? j_step jn then moved (move_sl_dirnode_right fuel st right_right)
      else Done (st, correct_sl_dirnodes_move, nothing)
    else if start && negb nstart then
      if j_step j <? j_step jn then moved (move_sl_dirnode_right fuel st right_right)
      else if j_step jn <? j_step j then moved (move_sl_dirnode_left fuel st right_left)
      else Done (st, correct_sl_dirnodes_move, nothing)
    else if negb start && nstart then
      let* prev := ok (j_p j) in
      let* jp := junc st prev 0 in
      if j_step j <? j_step jp then
        moved (move_sl_dirnode_left fuel st (moving list dirnode (j_step jp) (j_step j) _SL_MOVE_FLAG_MOVERIGHT))
      else Done (st, correct_sl_dirnodes_move, nothing)
    else Done (st, correct_sl_dirnodes_move, nothing)
  else Done (st, correct_sl_dirnodes_move, nothing).

Definition sl_delete_cb (fuel : nat) : search_cb := fun st lo v r =>
  let* p := vpath v 0 in
  let exact := has (r_flags r) SL_SEARCHRESULT_FLAG_EXACT in
  let* (e, st, v) := (if exact then lo_upgrade lo st v (has (r_flags r) SL_SEARCHRESULT_FLAG_DIRNODE) else Done (0, st, v)) in
  if exact && (e =? 0) then
    let* list := ok (r_found r) in
    let* (st, cb, m) := delete_dirnode fuel st list (p_dirnode p) r in
    let* x := ok (ls_remove (st_store st) list) in
    let r := add_flags SL_SEARCHRESULT_FLAG_OK r in
    let* (st, _, _) := lo_remove lo (set_store st x) v cb (Some m) in
    Done (st, r)
  else
    let r := if exact then add_flags SL_SEARCHRESULT_FLAG_ERROR r else r in
    let* (st, _, _) := lo_remove lo st v correct_dirnodes_ignore None in
    Done (st, r).

Definition sl_delete (mem : bool) (fuel : nat) (st : state) (k : L) (r : searchresult) : run (state * searchresult) :=
  sl_find_generic mem fuel (lockops_for (r_flags r)) (sl_delete_cb fuel) st k r.

End Search.

(** ** Creating and clearing (skiplist.c) *)

Section Create.
Context (sizeof_sl sizeof_junction : Z).

(** The struct in [cap] zeroed bytes, its list header being [h]. *)
Definition zeroed (x : S) (h : nat) (cap : Z) : state :=
  mk_skiplist false 0 0 0 0 h x {[O := zero_dirnode ((cap - sizeof_sl) / sizeof_junction)]} 1.

(** [tmp] is an [int] that is converted to [size_t] where it meets a [sizeof]. *)
Definition calc_nrlanes_from_size (size : Z) : Z :=
  let tmp := sgn 32 size in
  if u64 tmp <=? sizeof_sl then 0 else
  let tmp := sgn 32 (u64 tmp - sizeof_sl) in
  let nrlanes := u8 (u64 tmp / sizeof_junction) in
  if nrlanes <=? 1 then 0 else u8 (nrlanes - 1).

(** [sl] is the memory of the caller, or [None]: then [h] is the header in the memory
    that is allocated when [mem]. *)
Definition create_sl_skiplist (mem : bool) (x : S) (h : nat) (sl : option state) (prob size maxlanes : Z) : run (option state) :=
  let prob := if prob =? 0 then _SKIPLIST_PROB else prob in
  let finish (st : state) (nrlanes : Z) :=
    let* x := ok (ls_init_header (st_store st) (st_hdr st)) in
    let* d := deref st 0 in
    let* d := _init_sl_dirnode d (u16 (u32 (size - sizeof_sl) / sizeof_junction)) _DIRNODE_FLAG_START in
    Done (Some (mk_skiplist (st_ops st) prob (st_flags st) (u16 (nrlanes - 1)) (st_size st) (st_hdr st) x
                  (<[O := set_level 0 d]> (st_dirs st)) (st_brk st))) in
  match sl with
  | None =>
      let nrlanes := calc_nrlanes_from_size size in
      if nrlanes =? 0 then Done None else
      if negb mem then Done None else
      let st := zeroed x h size in
      finish (mk_skiplist (st_ops st) (st_prob st) _SKIPLIST_FLAG_ALLOC (st_maxlevel st) size (st_hdr st) (st_store st) (st_dirs st) (st_brk st)) nrlanes
  | Some st =>
      let sz := if st_size st =? 0 then size else st_size st in
      let st := mk_skiplist (st_ops st) (st_prob st) (st_flags st) (st_maxlevel st) sz (st_hdr st) (st_store st) (st_dirs st) (st_brk st) in
      if 0 <? sz then
        let nrlanes := calc_nrlanes_from_size sz in
        if nrlanes =? 0 then Done None else finish st nrlanes
      else finish st 0
  end.

(** The size, and the number of lanes behind [p_maxlanes]. *)
Definition get_size_sl_skiplist (maxlanes : Z) : Z * Z :=
  let maxlanes := if maxlanes =? 0 then _SKIPLIST_MAXLANES else maxlanes in
  (u32 (sizeof_sl + (maxlanes + 1) * sizeof_junction), maxlanes).

End Create.

(** [junction[i].n = junction[i].p = &sl->dirnode] for [n] lanes from [i]. *)
Fixpoint init_junctions (n : nat) (st : state) (i : Z) : run state :=
  match n with
  | O => Done st
  | Datatypes.S n =>
      let* st := upd_junc st 0 i (fun j => set_p (Some O) (set_n (Some O) j)) in init_junctions n st (i + 1)
  end.

(** [init_sl_skiplist] with the callbacks given: [EINVAL] is -1 and nothing done. *)
Definition init_sl_skiplist (sl : option state) (callbacks : bool) : run (Z * option state) :=
  match sl with
  | None => Done (-1, None)
  | Some st =>
      if negb callbacks then Done (-1, Some st) else
      let st := mk_skiplist true (st_prob st) (st_flags st) (st_maxlevel st) (st_size st) (st_hdr st) (st_store st) (st_dirs st) (st_brk st) in
      let* st := init_junctions (Z.to_nat (st_maxlevel st + 2)) st 0 in
      let* d := deref st 0 in
      let* st := upd_dir st 0 (set_compare (Some (if has (d_flags d) _DIRNODE_FLAG_START then CompareEnd else CompareUser))) in
      Done (0, Some st)
  end.

(** [remove_sl_dirnode] on the lanes [i, i + n). *)
Fixpoint remove_sl_dirnode (n : nat) (st : state) (dirnode : nat) (i : Z) : run state :=
  match n with
  | O => Done st
  | Datatypes.S n =>
      let* j := junc st dirnode i in
      let* prev := ok (j_p j) in
      let* next := ok (j_n j) in
      let* st := upd_junc st prev i (add_step (j_step j)) in
      let* st := upd_junc st prev i (set_n (Some next)) in
      let* st := upd_junc st next i (set_p (Some prev)) in
      let* st := upd_junc st 0 i (fun j => set_count (u32 (j_count j - 1)) j) in
      remove_sl_dirnode n st dirnode (i + 1)
  end.

Fixpoint clear_dirnodes (fuel : nat) (st : state) (dirnode : option nat) : run state :=
  match fuel with
  | O => Out
  | Datatypes.S fuel =>
      match dirnode with
      | None => Done st
      | Some dirnode =>
          let* j := junc st dirnode 0 in
          let* d := deref st dirnode in
          if has (d_flags d) _DIRNODE_FLAG_START then Done st else
          let* st := remove_sl_dirnode (Z.to_nat (d_level d + 1)) st dirnode 0 in
          let* _ := deref st dirnode in
          clear_dirnodes fuel (set_dirs st (delete dirnode (st_dirs st))) (j_n j)
      end
  end.

Definition clear_sl_skiplist (fuel : nat) (st : state) : run state :=
  let* j := junc st 0 0 in clear_dirnodes fuel st (j_n j).

End Ops.

End SkipList.
