(* ===== verification/SkipFind.v ===== *)
(** * lib/sl: what a search finds

    The invariant of a skip list, and the search proved against the interface of
    the lock functions: whatever the lanes hold, the search ends at the place the
    key has in the sorted list. *)

From Stdlib Require Import Sorting.Sorted.
From stdpp Require Import base list list_numbers numbers option gmap.
From S2P Require Import Prelude SimpleList ListStore SkipList.
Import SimpleList ListStore SkipList.

Module SkipFind.

(** ** What the skip list needs of the comparison of its user

    [below a b]: the element [a] belongs before [b].  Along a list ordered by it the
    comparison with a key goes from negative to positive, with at most one zero. *)
Class Ordering {L : Type} (compare : nat -> L -> Z) := {
  below : nat -> nat -> Prop;
  below_compare a b k : below a b -> 0 <= compare a k -> 0 < compare b k
}.

(** ** Lemmas on runs *)

Lemma ok_Some {A} (a : A) : ok (Some a) = Done a.
Proof. done. Qed.

(** Directory nodes up to the number of lockers. *)
Definition strip (m : gmap nat dirnode) : gmap nat dirnode := set_lockers 0 <$> m.

(** [d] takes part in lane [i]. *)
Definition on_lane (m : gmap nat dirnode) (i : nat) (d : nat) : Prop :=
  exists x, m !! d = Some x /\ (i < length (d_junction x))%nat.

Lemma strip_lookup m m' d x : strip m = strip m' -> m !! d = Some x -> exists y, m' !! d = Some y /\ x = set_lockers (d_lockers x) y.
Proof.
  intros E Hx. assert (strip m !! d = Some (set_lockers 0 x)) as H by (unfold strip; by rewrite lookup_fmap, Hx).
  rewrite E in H. unfold strip in H. rewrite lookup_fmap in H. destruct (m' !! d) as [y|]; [| done]. injection H as H.
  exists y. split; [done |]. destruct x, y. unfold set_lockers in *. simpl in *. by simplify_eq.
Qed.

Lemma strip_upd m d x f :
  m !! d = Some x -> set_lockers 0 (f x) = set_lockers 0 x -> strip (<[d := f x]> m) = strip m.
Proof. intros Hx E. unfold strip. rewrite fmap_insert, E. apply insert_id. by rewrite lookup_fmap, Hx. Qed.

Lemma on_lane_strip m m' i d : strip m = strip m' -> on_lane m i d -> on_lane m' i d.
Proof.
  intros E (x & Hx & Hi). destruct (strip_lookup m m' d x E Hx) as (y & Hy & Ex). exists y. split; [done |]. rewrite Ex in Hi. by destruct y.
Qed.

Section Order.
Context {L : Type} (compare : nat -> L -> Z) `{!Ordering compare}.

Definition ordered (l : list nat) : Prop := StronglySorted below l.

Lemma ordered_split l1 e l2 : ordered (l1 ++ e :: l2) -> (forall a, a ∈ l1 -> below a e) /\ (forall b, b ∈ l2 -> below e b).
Proof.
  unfold ordered. induction l1 as [|a l1 IH]; simpl; intros H; apply StronglySorted_inv in H as [H HF].
  - split; [set_solver |]. intros b Hb. rewrite Stdlib.Lists.List.Forall_forall in HF. apply HF. by apply list_elem_of_In.
  - destruct (IH H) as [H1 H2]. split; [| done]. intros x [-> | Hx]%elem_of_cons; [| by apply H1].
    rewrite Stdlib.Lists.List.Forall_forall in HF. apply HF. apply list_elem_of_In. set_solver.
Qed.

(** Behind an element that is not before the key all are after it, and before one
    that is not after the key all are before it. *)
Lemma ordered_key l1 e l2 k : ordered (l1 ++ e :: l2) ->
  (0 <= compare e k -> Forall (fun b => 0 < compare b k) l2) /\ (compare e k <= 0 -> Forall (fun a => compare a k < 0) l1).
Proof.
  intros [H1 H2]%ordered_split. split; intros He; apply Forall_forall; intros x Hx.
  - eapply below_compare; [by apply H2 | done].
  - destruct (Z.lt_ge_cases (compare x k) 0) as [|Hge]; [done |]. pose proof (below_compare x e k (H1 x Hx) Hge). lia.
Qed.

(** Where a search is in the list: before [e] everything is before the key. *)
Record reached (l : list nat) (k : L) (l1 : list nat) (e : nat) (l2 : list nat) : Prop := {
  reached_split : l = l1 ++ e :: l2;
  reached_before : Forall (fun a => compare a k < 0) l1
}.

Lemma reached_next l k l1 e f l2 : reached l k l1 e (f :: l2) -> compare e k < 0 -> reached l k (l1 ++ [e]) f l2.
Proof.
  intros [-> Hb] He. split; [by rewrite <- app_assoc |]. apply Forall_app. split; [done |]. by constructor.
Qed.

(** An element before the key has a next one, when the last is after the key. *)
Lemma reached_more l k l1 e l2 t : reached l k l1 e l2 -> last l = Some t -> 0 < compare t k -> compare e k < 0 ->
  exists f l3, l2 = f :: l3.
Proof.
  intros [-> _] Ht Hpos He. destruct l2 as [|f l3]; [| eauto]. rewrite last_snoc in Ht. injection Ht as <-. lia.
Qed.

(** What a search says: the flags it sets, and the element it found. *)
Inductive place (l : list nat) (k : L) : Z -> option nat -> Prop :=
  | PlaceEmpty : l = [] -> place l k SL_SEARCHRESULT_FLAG_EMPTY None
  | PlaceAt l1 e l2 fl : reached l k l1 e l2 -> compare e k = 0 ->
      fl ∈ [0; SL_SEARCHRESULT_FLAG_FIRST; SL_SEARCHRESULT_FLAG_LAST; SL_SEARCHRESULT_FLAG_DIRNODE] ->
      place l k (Z.lor SL_SEARCHRESULT_FLAG_EXACT fl) (Some e)
  | PlaceBefore l1 e l2 fl : reached l k l1 e l2 -> 0 < compare e k -> fl ∈ [0; SL_SEARCHRESULT_FLAG_FIRST] ->
      place l k (Z.lor SL_SEARCHRESULT_FLAG_NOENT (Z.lor fl SL_SEARCHRESULT_FLAG_BEFORE)) (Some e)
  | PlaceAfter l1 e : reached l k l1 e [] -> compare e k < 0 ->
      place l k (Z.lor SL_SEARCHRESULT_FLAG_NOENT (Z.lor SL_SEARCHRESULT_FLAG_LAST SL_SEARCHRESULT_FLAG_AFTER)) (Some e).

End Order.

Section Laws.
Context {S : Type} `{!ListStore S, !SortedStore S}.
Abbreviation state := (skiplist S).

Lemma deref_Some (st : state) d x : st_dirs st !! d = Some x -> deref st d = Done x.
Proof. unfold deref. by intros ->. Qed.

Lemma junc_Some (st : state) d x (i : Z) j :
  st_dirs st !! d = Some x -> d_junction x !! Z.to_nat i = Some j -> junc st d i = Done j.
Proof. intros Hx Hj. unfold junc. rewrite (deref_Some _ _ _ Hx). run. by rewrite Hj. Qed.

(** ** The invariant *)

(** What a search needs: the callbacks are set, the head has the lanes up to
    [maxlevel] and one more, and the lanes lead from node to node. *)
Record searchable (st : state) : Prop := {
  srch_ops : st_ops st = true;
  srch_head : exists x, st_dirs st !! O = Some x /\ d_compare x = Some CompareEnd /\ 0 <= d_level x <= st_maxlevel st /\
    zlen (d_junction x) = st_maxlevel st + 2 /\ st_maxlevel st + 2 < 2 ^ 16 /\ has (d_flags x) _DIRNODE_FLAG_START = true;
  srch_node d x : st_dirs st !! d = Some x -> d <> O -> d_compare x = Some CompareUser;
  srch_next d x i j : st_dirs st !! d = Some x -> d_junction x !! i = Some j ->
    exists n, j_n j = Some n /\ on_lane (st_dirs st) i n
}.

(** No thread is in the list. *)
Definition quiet (m : gmap nat dirnode) : Prop := forall d x, m !! d = Some x -> d_lock x = 0 /\ d_lockers x = 0.

(** The number of locks a vector holds on [d]. *)
Definition held_by (d : nat) (p : path) : Z := if negb (p_lock p =? 0) && bool_decide (p_dirnode p = d) then 1 else 0.

Fixpoint holds (d : nat) (l : list path) : Z := match l with [] => 0 | p :: l => held_by d p + holds d l end.

Lemma holds_insert d l i p q : l !! i = Some p -> holds d (<[i := q]> l) = holds d l - held_by d p + held_by d q.
Proof.
  revert i. induction l as [|x l IH]; intros [|i] Hi; simpl in *; try done; [injection Hi as ->; lia |]. rewrite (IH i Hi). lia.
Qed.

Lemma holds_range d l : 0 <= holds d l <= zlen l.
Proof. induction l as [|p l IH]; [done |]. rewrite zlen_cons. simpl. unfold held_by. case_match; lia. Qed.

(** The functions without locks are used. *)
Context (ex : bool).

(** In the middle of a call: [st] is [st0] but for the locks the vector holds. *)
Record hold (st0 st : state) (v : vector) (lvl : Z) : Prop := {
  hold_frame : st = set_dirs st0 (st_dirs st);
  hold_strip : strip (st_dirs st) = strip (st_dirs st0);
  hold_locks d x : st_dirs st !! d = Some x -> d_lock x = 0 /\ d_lockers x = holds d (v_path v);
  hold_level : 0 <= v_level v <= lvl /\ lvl + 2 < 2 ^ 16;
  hold_max : v_maxlevel v = lvl + 1;
  hold_len : zlen (v_path v) = lvl + 2;
  hold_lane i p : v_path v !! i = Some p -> on_lane (st_dirs st0) i (p_dirnode p);
  hold_shape i p : v_path v !! i = Some p -> p_lock p <> 0 ->
    (Z.of_nat i = lvl + 1 /\ p_dirnode p = O) \/ (Z.of_nat i = v_level v /\ p_dirnode p <> O);
  hold_ex i p : ex = true -> v_path v !! i = Some p -> p_lock p = 0
}.

(** Lanes that hold no directory node: the head points at itself. *)
Definition bare (m : gmap nat dirnode) : Prop :=
  forall x i j, m !! O = Some x -> d_junction x !! i = Some j -> j_n j = Some O /\ j_p j = Some O.

(** The directory node of the current level. *)
Definition cur (v : vector) (d : nat) : Prop := exists p, v_path v !! Z.to_nat (v_level v) = Some p /\ p_dirnode p = d.

Lemma hold_lookup st0 st v lvl d x :
  hold st0 st v lvl -> st_dirs st0 !! d = Some x -> quiet (st_dirs st0) ->
  st_dirs st !! d = Some (set_lockers (holds d (v_path v)) x).
Proof.
  intros Hh Hx Hq. destruct (strip_lookup (st_dirs st0) (st_dirs st) d x) as (y & Hy & E); [by rewrite (hold_strip _ _ _ _ Hh) | done |].
  destruct (hold_locks _ _ _ _ Hh d y Hy) as [_ Hl]. rewrite Hy, E. destruct y. unfold set_lockers in *. simpl in *. by subst.
Qed.

(** ** Vectors *)

Definition with_path (v : vector) (l : list path) : vector :=
  mk_vector (v_maxlevel v) (v_minlevel v) (v_lockset v) (v_level v) l.

Lemma upd_path_Some v i f p :
  v_path v !! Z.to_nat i = Some p -> upd_path v i f = Done (with_path v (<[Z.to_nat i := f p]> (v_path v))).
Proof. intros Hp. unfold upd_path, vpath. by rewrite Hp. Qed.

Lemma path_Some (st0 st : state) v lvl i : hold st0 st v lvl -> 0 <= i <= lvl + 1 -> exists p, v_path v !! Z.to_nat i = Some p.
Proof.
  intros Hh Hi. pose proof (hold_len _ _ _ _ Hh) as Hl. unfold zlen in Hl. apply lookup_lt_is_Some_2. lia.
Qed.

Lemma on_lane_down m i i' d : (i' <= i)%nat -> on_lane m i d -> on_lane m i' d.
Proof. intros ? (x & ? & ?). exists x. split; [done | lia]. Qed.

Lemma held_by_free d p : p_lock p = 0 -> held_by d p = 0.
Proof. intros E. unfold held_by. by rewrite E. Qed.

Lemma held_by_eq d p q : p_lock p = p_lock q -> p_dirnode p = p_dirnode q -> held_by d p = held_by d q.
Proof. intros E1 E2. unfold held_by. by rewrite E1, E2. Qed.

Lemma hold_free (st0 st : state) v lvl i p :
  hold st0 st v lvl -> v_path v !! i = Some p -> (Z.of_nat i <= lvl) -> Z.of_nat i <> v_level v -> p_lock p = 0.
Proof.
  intros Hh Hp Hi Hne. destruct (Z.eq_dec (p_lock p) 0) as [|Hl]; [done |].
  destruct (hold_shape _ _ _ _ Hh i p Hp Hl) as [[? _] | [? _]]; lia.
Qed.

(** A vector with the same locks, at another level. *)
Lemma hold_vector (st0 st : state) v v' lvl d :
  hold st0 st v lvl -> cur v d -> v_maxlevel v' = v_maxlevel v -> length (v_path v') = length (v_path v) ->
  0 <= v_level v' <= v_level v ->
  (forall e, holds e (v_path v') = holds e (v_path v)) ->
  (forall i q, v_path v' !! i = Some q ->
     (p_lock q = 0 \/ Z.of_nat i = v_level v' \/ Z.of_nat i = lvl + 1) /\
     ((v_path v !! i = Some q) \/ (p_dirnode q = d /\ (i <= Z.to_nat (v_level v))%nat /\
       (p_lock q <> 0 -> exists p, v_path v !! Z.to_nat (v_level v) = Some p /\ p_lock p <> 0)))) ->
  hold st0 st v' lvl.
Proof.
  intros Hh (p & Hp & Hd) Hmax Hlen Hlev Hholds Hq. destruct (hold_level _ _ _ _ Hh) as [Hl Hb]. constructor.
  - apply Hh.
  - apply Hh.
  - intros e x Hx. rewrite Hholds. by apply (hold_locks _ _ _ _ Hh).
  - split; [lia | done].
  - rewrite Hmax. apply Hh.
  - unfold zlen. rewrite Hlen. apply Hh.
  - intros i q Hi. destruct (Hq i q Hi) as [_ [Ho | (-> & Hle & _)]]; [by apply (hold_lane _ _ _ _ Hh) |].
    eapply on_lane_down; [exact Hle |]. rewrite <- Hd. by apply (hold_lane _ _ _ _ Hh).
  - intros i q Hi Hlk. destruct (Hq i q Hi) as [[?|[Hi'|Hi']] [Ho | (Hqd & Hle & Hlk')]]; [done | done | | | |].
    + destruct (hold_shape _ _ _ _ Hh i q Ho Hlk) as [?|[? ?]]; [by left | right; done].
    + right. split; [done |]. destruct (Hlk' Hlk) as (p' & Hp' & Hlp). rewrite Hp in Hp'. injection Hp' as <-.
      destruct (hold_shape _ _ _ _ Hh _ p Hp Hlp) as [[? ?]|[? ?]]; [lia | congruence].
    + left. split; [done |]. destruct (hold_shape _ _ _ _ Hh i q Ho Hlk) as [[? ?]|[? ?]]; [done | lia].
    + lia.
  - intros i q Hex Hi. destruct (Hq i q Hi) as [_ [Ho | (_ & _ & Hlk')]]; [by eapply (hold_ex _ _ _ _ Hh) |].
    destruct (Z.eq_dec (p_lock q) 0) as [|Hlk]; [done |]. destruct (Hlk' Hlk) as (p' & Hp' & Hlp).
    destruct Hlp. by eapply (hold_ex _ _ _ _ Hh).
Qed.

Lemma path_down_spec (st0 st : state) v lvl d :
  hold st0 st v lvl -> 0 < v_level v -> cur v d ->
  exists v', move_lock_vector_path_down v = Done v' /\ hold st0 st v' lvl /\ v_level v' = v_level v - 1 /\ cur v' d.
Proof.
  intros Hh Hlev Hcur. pose proof Hcur as (p & Hp & Hd). destruct (hold_level _ _ _ _ Hh) as [Hl Hb].
  destruct (path_Some st0 st v lvl (v_level v - 1) Hh ltac:(lia)) as [q Hq].
  assert (p_lock q = 0) as Hq0 by (eapply (hold_free st0 st v lvl); [done | exact Hq | lia | lia]).
  unfold move_lock_vector_path_down, vpath. rewrite Hp. run. rewrite (upd_path_Some v (v_level v - 1) _ q Hq). run.
  rewrite (upd_path_Some _ (v_level v) _ p); [run | cbn [v_path with_path]; by rewrite list_lookup_insert_ne by lia].
  set (q' := set_plock _ _ _). eexists. split; [reflexivity |].
  assert (u16 (v_level v - 1) = v_level v - 1) as Hu by (unfold u16; apply Z.mod_small; lia).
  split; [| split; [done |]].
  - eapply (hold_vector st0 st v _ lvl d); [done | done | done | | | |]; cbn [v_path with_path set_vlevel v_level v_maxlevel].
    + by rewrite !length_insert.
    + rewrite Hu. lia.
    + intros e. rewrite (holds_insert e _ _ p), (holds_insert e _ _ q) by (rewrite ?list_lookup_insert_ne by lia; done).
      rewrite (held_by_free e q), (held_by_free e (set_plock 0 0 p)) by done. rewrite (held_by_eq e q' p) by done. lia.
    + rewrite Hu. intros i x Hx. apply list_lookup_insert_Some in Hx as [(<- & <- & _) | [Hne Hx]].
      { split; [by left |]. right. split; [done |]. split; [lia | done]. }
      apply list_lookup_insert_Some in Hx as [(<- & <- & _) | [Hne' Hx]].
      { split; [right; left; lia |]. right. split; [by subst q' |]. split; [lia |]. intros. by exists p. }
      split; [| by left]. destruct (Z.eq_dec (p_lock x) 0) as [|Hlk]; [by left |].
      destruct (hold_shape _ _ _ _ Hh i x Hx Hlk) as [[? _]|[? _]]; [right; by right | lia].
  - exists q'. cbn [v_path with_path set_vlevel v_level]. rewrite Hu. split; [| by subst q'].
    rewrite list_lookup_insert_ne by lia. apply list_lookup_insert_eq. eapply lookup_lt_Some. exact Hq.
Qed.

(** [fill_down] sets the entries [1 .. n], which hold no lock. *)
Lemma fill_down_spec d n : forall v,
  (n < length (v_path v))%nat -> (forall i p, (1 <= i <= n)%nat -> v_path v !! i = Some p -> p_lock p = 0) ->
  exists l, fill_down n d v = Done (with_path v l) /\ length l = length (v_path v) /\ l !! O = v_path v !! O /\
    (forall e, holds e l = holds e (v_path v)) /\
    (forall i q, l !! i = Some q -> v_path v !! i = Some q \/ ((1 <= i <= n)%nat /\ p_dirnode q = d /\ p_lock q = 0)).
Proof.
  induction n as [|n IH]; intros v Hn Hfree.
  { exists (v_path v). split; [by destruct v |]. repeat split; try done. intros i q Hq. by left. }
  destruct (lookup_lt_is_Some_2 (v_path v) (Datatypes.S n) Hn) as [p Hp]. cbn [fill_down].
  rewrite (upd_path_Some v _ _ p) by (by rewrite Nat2Z.id). run. rewrite Nat2Z.id.
  set (q0 := set_plock 0 0 (set_pdirnode d p)).
  destruct (IH (with_path v (<[Datatypes.S n := q0]> (v_path v)))) as (l & E & Hl & H0 & Hh & Hq); cbn [v_path with_path] in *.
  - rewrite length_insert. lia.
  - intros i x Hi Hx. rewrite list_lookup_insert_ne in Hx by lia. eapply Hfree; [| exact Hx]. lia.
  - exists l. rewrite length_insert in Hl. split; [exact E |]. split; [done |].
    split; [rewrite H0; by apply list_lookup_insert_ne |]. split.
    + intros e. rewrite Hh, (holds_insert e _ _ p) by done. rewrite (held_by_free e p), (held_by_free e q0); [lia | done |].
      eapply Hfree; [| exact Hp]. lia.
    + intros i x Hx. destruct (Hq i x Hx) as [Hx' | (? & ? & ?)]; [| right; split; [lia | done]].
      apply list_lookup_insert_Some in Hx' as [(<- & <- & _) | [_ Hx']]; [right; split; [lia | done] | by left].
Qed.

Lemma down_spec (st0 st : state) v lvl d :
  hold st0 st v lvl -> cur v d ->
  exists v', move_lock_vector_down v = Done v' /\ hold st0 st v' lvl /\ v_level v' = 0 /\ cur v' d.
Proof.
  intros Hh Hcur. pose proof Hcur as (p & Hp & Hd). destruct (hold_level _ _ _ _ Hh) as [Hl Hb].
  unfold move_lock_vector_down, vpath. rewrite Hp. run. destruct (Z.eqb_spec (v_level v) 0) as [E0|Hne].
  { by exists v. }
  destruct (path_Some st0 st v lvl 0 Hh ltac:(lia)) as [q Hq].
  assert (p_lock q = 0) as Hq0 by (eapply (hold_free st0 st v lvl); [done | exact Hq | lia | lia]).
  rewrite (upd_path_Some v 0 _ q Hq). run.
  rewrite (upd_path_Some _ (v_level v) _ p); [run | cbn [v_path with_path]; by rewrite list_lookup_insert_ne by lia].
  set (q' := set_pdirnode _ _). cbn [with_path v_path].
  set (l1 := <[Z.to_nat (v_level v) := set_plock 0 0 p]> (<[Z.to_nat 0 := q']> (v_path v))).
  pose proof (hold_len _ _ _ _ Hh) as Hlen. unfold zlen in Hlen.
  assert (length l1 = length (v_path v)) as Hl1 by (unfold l1; by rewrite !length_insert).
  assert (forall e, holds e l1 = holds e (v_path v)) as Hholds.
  { intros e. unfold l1. rewrite (holds_insert e _ _ p), (holds_insert e _ _ q) by (rewrite ?list_lookup_insert_ne by lia; done).
    rewrite (held_by_free e q), (held_by_free e (set_plock 0 0 p)) by done. rewrite (held_by_eq e q' p) by done. lia. }
  destruct (fill_down_spec (p_dirnode p) (Z.to_nat (v_level v - 1)) (with_path (with_path v (<[Z.to_nat 0 := q']> (v_path v))) l1))
    as (l & E & Hll & H0 & Hh2 & Hq2); cbn [v_path with_path] in *.
  - rewrite Hl1. lia.
  - intros i x Hi Hx. unfold l1 in Hx. rewrite !list_lookup_insert_ne in Hx by lia. eapply (hold_free st0 st v lvl); [done | exact Hx | lia | lia].
  - rewrite E. run. eexists. split; [reflexivity |]. split; [| split; [done |]].
    + eapply (hold_vector st0 st v _ lvl d); [done | done | done | | | |]; cbn [v_path with_path set_vlevel v_level v_maxlevel].
      * lia.
      * lia.
      * intros e. by rewrite Hh2.
      * intros i x Hx. destruct (Hq2 i x Hx) as [Hx' | (Hi & Hxd & Hx0)].
        2: { split; [by left |]. right. split; [congruence |]. split; [lia | done]. }
        unfold l1 in Hx'. apply list_lookup_insert_Some in Hx' as [(<- & <- & _) | [Hne1 Hx']].
        { split; [by left |]. right. split; [done |]. split; [lia | done]. }
        apply list_lookup_insert_Some in Hx' as [(<- & <- & _) | [Hne2 Hx']].
        { split; [right; left; lia |]. right. split; [by subst q' |]. split; [lia |]. intros. by exists p. }
        split; [| by left]. destruct (Z.eq_dec (p_lock x) 0) as [|Hlk]; [by left |].
        destruct (hold_shape _ _ _ _ Hh i x Hx' Hlk) as [[? _]|[? _]]; [right; by right | lia].
    + exists q'. cbn [v_path with_path set_vlevel v_level]. change (Z.to_nat 0) with O in *. split; [| by subst q'].
      rewrite H0. unfold l1. rewrite list_lookup_insert_ne by lia. apply list_lookup_insert_eq. eapply lookup_lt_Some. exact Hq.
Qed.

(** ** The interface of the lock functions

    What a search and its callbacks need of the functions of [struct sl_lockops_s]
    when no other thread is in the list. *)
Class Lockable (lo : lockops (S := S)) : Prop := {
  lo_readlock_ok st0 v x : searchable st0 -> quiet (st_dirs st0) -> st_dirs st0 !! O = Some x ->
    create_vector_path true (d_level x + 1) 0 = Some v ->
    exists st1 v1, lo_readlock lo st0 v 0 = Done (st1, v1) /\ v_level v1 = d_level x + 1 /\
      hold st0 st1 (set_vlevel v1 (d_level x)) (d_level x) /\ cur (set_vlevel v1 (d_level x)) 0;
  lo_move_ok st0 st v lvl next : quiet (st_dirs st0) -> hold st0 st v lvl -> next <> O ->
    on_lane (st_dirs st0) (Z.to_nat (v_level v)) next ->
    exists st1 v1, lo_move lo st v next = Done (st1, v1) /\ hold st0 st1 v1 lvl /\ v_level v1 = v_level v /\ cur v1 next;
  lo_remove_ok st0 st v lvl m : quiet (st_dirs st0) -> hold st0 st v lvl -> v_level v = 0 ->
    exists v1, lo_remove lo st v correct_dirnodes_ignore m = Done (st0, v1, m)
}.

Lemma quiet_strip m m' : strip m = strip m' -> quiet m -> quiet m' -> m = m'.
Proof.
  intros E Hm Hm'. apply map_eq. intros d. destruct (m !! d) as [x|] eqn:Hx.
  - destruct (strip_lookup m m' d x E Hx) as (y & Hy & Ex). destruct (Hm d x Hx) as [_ H1], (Hm' d y Hy) as [_ H2].
    rewrite Hy, Ex, H1. destruct y. unfold set_lockers. simpl in *. by subst.
  - symmetry. apply (f_equal (fun m => m !! d)) in E. unfold strip in E. rewrite !lookup_fmap, Hx in E. by destruct (m' !! d).
Qed.

(** A step that changes the lockers of one node with the lock it gives or takes. *)
Lemma hold_step (st0 st : state) v v' lvl d y (f : dirnode -> dirnode) :
  hold st0 st v lvl -> st_dirs st !! d = Some y ->
  set_lockers 0 (f y) = set_lockers 0 y -> d_lock (f y) = 0 ->
  (forall e, e <> d -> holds e (v_path v') = holds e (v_path v)) -> d_lockers (f y) = holds d (v_path v') ->
  0 <= v_level v' <= lvl -> v_maxlevel v' = v_maxlevel v -> length (v_path v') = length (v_path v) ->
  (forall i p, v_path v' !! i = Some p -> on_lane (st_dirs st0) i (p_dirnode p)) ->
  (forall i p, v_path v' !! i = Some p -> p_lock p <> 0 ->
    (Z.of_nat i = lvl + 1 /\ p_dirnode p = O) \/ (Z.of_nat i = v_level v' /\ p_dirnode p <> O)) ->
  ex = false ->
  hold st0 (set_dirs st (<[d := f y]> (st_dirs st))) v' lvl.
Proof.
  intros Hh Hy Hf Hlk Hother Hd Hlev Hmax Hlen Hlane Hshape Hex. constructor; try done; [.. | by rewrite Hex].
  - rewrite (hold_frame _ _ _ _ Hh). done.
  - cbn [st_dirs set_dirs]. rewrite (strip_upd _ _ y) by done. apply Hh.
  - cbn [st_dirs set_dirs]. intros e x [[<- <-] | [Hne Hx]]%lookup_insert_Some; [done |].
    rewrite Hother by done. by apply (hold_locks _ _ _ _ Hh).
  - split; [done | apply Hh].
  - rewrite Hmax. apply Hh.
  - unfold zlen. rewrite Hlen. apply Hh.
Qed.

Lemma set_lock_same d : d_lock d = 0 -> set_lock 0 d = d.
Proof. destruct d. unfold set_lock. simpl. by intros ->. Qed.

Lemma acquire_spec (st : state) v d y p :
  st_dirs st !! d = Some y -> d_lock y = 0 -> v_path v !! Z.to_nat (v_level v) = Some p ->
  acquire_read st v d = Done (set_dirs st (<[d := set_lockers (u32 (d_lockers y + 1)) y]> (st_dirs st)),
    with_path v (<[Z.to_nat (v_level v) := mk_path d _DIRNODE_LOCK_READ 1 (p_step p)]> (v_path v))).
Proof.
  intros Hy Hl Hp. unfold acquire_read. rewrite (deref_Some _ _ _ Hy). run. rewrite Hl. cbn.
  rewrite (upd_path_Some v _ _ p Hp). run. unfold upd_dir. rewrite (deref_Some _ _ _ Hy). run. rewrite Hl, Z.land_0_l, set_lock_same by done. done.
Qed.

Lemma release_spec (st : state) d y :
  st_dirs st !! d = Some y -> d_lock y = 0 ->
  release_read st d = Done (set_dirs st (<[d := set_lockers (u32 (d_lockers y - 1)) y]> (st_dirs st))).
Proof.
  intros Hy Hl. unfold release_read, upd_dir. rewrite (deref_Some _ _ _ Hy). run. do 3 f_equal.
  destruct y as [a b c e f g h]. cbn in Hl. subst c. cbn [d_lockers set_lockers]. by destruct (u32 (e - 1) =? 0).
Qed.

Lemma holds_pos l i p : l !! i = Some p -> p_lock p <> 0 -> 1 <= holds (p_dirnode p) l.
Proof.
  intros Hp Hl. pose proof (holds_insert (p_dirnode p) l i p (set_plock 0 0 p) Hp) as H.
  pose proof (holds_range (p_dirnode p) (<[i := set_plock 0 0 p]> l)) as Hr.
  assert (held_by (p_dirnode p) p = 1) as E1.
  { unfold held_by. rewrite bool_decide_eq_true_2 by done. by destruct (Z.eqb_spec (p_lock p) 0). }
  assert (held_by (p_dirnode p) (set_plock 0 0 p) = 0) as E2 by done. lia.
Qed.

Lemma hold_lockers (st0 st : state) v lvl d y :
  hold st0 st v lvl -> st_dirs st !! d = Some y -> d_lock y = 0 /\ d_lockers y = holds d (v_path v) /\
    u32 (d_lockers y + 1) = holds d (v_path v) + 1 /\ (1 <= holds d (v_path v) -> u32 (d_lockers y - 1) = holds d (v_path v) - 1).
Proof.
  intros Hh Hy. destruct (hold_locks _ _ _ _ Hh d y Hy) as [H1 H2]. destruct (hold_level _ _ _ _ Hh) as [_ Hb].
  pose proof (holds_range d (v_path v)) as Hr. rewrite (hold_len _ _ _ _ Hh) in Hr. rewrite H2.
  repeat split; try done; intros; apply u32_id; unfold is_u32; lia.
Qed.

Lemma on_lane_lookup (st0 st : state) v lvl i d : hold st0 st v lvl -> on_lane (st_dirs st0) i d -> exists y, st_dirs st !! d = Some y.
Proof.
  intros Hh Hl. destruct (on_lane_strip (st_dirs st0) (st_dirs st) i d) as (y & Hy & _); [by rewrite (hold_strip _ _ _ _ Hh) | done | eauto].
Qed.

(** Taking a lock on [next] for the current level, which holds none. *)
Lemma hold_acquire (st0 st : state) v lvl next p :
  ex = false -> hold st0 st v lvl -> v_path v !! Z.to_nat (v_level v) = Some p -> p_lock p = 0 -> next <> O ->
  on_lane (st_dirs st0) (Z.to_nat (v_level v)) next ->
  exists st1 v1, acquire_read st v next = Done (st1, v1) /\ hold st0 st1 v1 lvl /\ v_level v1 = v_level v /\ cur v1 next.
Proof.
  intros Hex Hh Hp Hl Hne Hlane. destruct (on_lane_lookup st0 st v lvl _ next Hh Hlane) as [y Hy].
  destruct (hold_lockers st0 st v lvl next y Hh Hy) as (Hy0 & _ & Hu & _). destruct (hold_level _ _ _ _ Hh) as [Hlev _].
  rewrite (acquire_spec st v next y p) by done. do 2 eexists. split; [reflexivity |]. rewrite Hu.
  split; [| split; [done |]].
  - apply (hold_step st0 st v _ lvl next y (set_lockers (holds next (v_path v) + 1))); try done; cbn [with_path v_path v_level].
    + intros e He. rewrite (holds_insert e _ _ p _ Hp), (held_by_free e p Hl). unfold held_by at 1. cbn. rewrite bool_decide_eq_false_2 by done. lia.
    + rewrite (holds_insert next _ _ p _ Hp), (held_by_free next p Hl). unfold held_by at 1. cbn. rewrite bool_decide_eq_true_2 by done. lia.
    + by rewrite length_insert.
    + intros i q [(<- & <- & _) | [_ Hq]]%list_lookup_insert_Some; [done | by apply (hold_lane _ _ _ _ Hh)].
    + intros i q [(<- & <- & _) | [_ Hq]]%list_lookup_insert_Some Hlk; [right; split; [lia | done] | by apply (hold_shape _ _ _ _ Hh)].
  - eexists. cbn [with_path v_path v_level]. split; [apply list_lookup_insert_eq; by eapply lookup_lt_Some | done].
Qed.

(** Giving up the lock of the current level. *)
Lemma hold_release (st0 st : state) v lvl p :
  ex = false -> hold st0 st v lvl -> v_path v !! Z.to_nat (v_level v) = Some p -> p_lock p <> 0 ->
  exists st1, release_read st (p_dirnode p) = Done st1 /\
    hold st0 st1 (with_path v (<[Z.to_nat (v_level v) := set_plock (p_lockset p) 0 p]> (v_path v))) lvl.
Proof.
  intros Hex Hh Hp Hl. set (d := p_dirnode p). destruct (on_lane_lookup st0 st v lvl _ d Hh (hold_lane _ _ _ _ Hh _ _ Hp)) as [y Hy].
  destruct (hold_lockers st0 st v lvl d y Hh Hy) as (Hy0 & _ & _ & Hu). pose proof (holds_pos _ _ _ Hp Hl) as Hpos. specialize (Hu Hpos).
  destruct (hold_level _ _ _ _ Hh) as [Hlev _]. rewrite (release_spec st d y) by done. eexists. split; [reflexivity |]. rewrite Hu.
  assert (forall e, held_by e p = if bool_decide (d = e) then 1 else 0) as Hb
    by (intros e; unfold held_by; destruct (Z.eqb_spec (p_lock p) 0); done).
  apply (hold_step st0 st v _ lvl d y (set_lockers (holds d (v_path v) - 1))); try done; cbn [with_path v_path v_level].
  - intros e He. rewrite (holds_insert e _ _ p _ Hp), Hb, bool_decide_eq_false_2 by done. rewrite held_by_free by done. lia.
  - rewrite (holds_insert d _ _ p _ Hp), Hb, bool_decide_eq_true_2 by done. rewrite held_by_free by done. cbn [d_lockers set_lockers]. lia.
  - by rewrite length_insert.
  - intros i q [(<- & <- & _) | [_ Hq]]%list_lookup_insert_Some; [by apply (hold_lane _ _ _ _ Hh) in Hp | by apply (hold_lane _ _ _ _ Hh)].
  - intros i q [(<- & <- & _) | [_ Hq]]%list_lookup_insert_Some Hlk; [done | by apply (hold_shape _ _ _ _ Hh)].
Qed.

Lemma default_move (st0 st : state) v lvl next :
  ex = false -> hold st0 st v lvl -> next <> O -> on_lane (st_dirs st0) (Z.to_nat (v_level v)) next ->
  exists st1 v1, move_readlock_vector_path st v next = Done (st1, v1) /\ hold st0 st1 v1 lvl /\ v_level v1 = v_level v /\ cur v1 next.
Proof.
  intros Hex Hh Hne Hlane. destruct (hold_level _ _ _ _ Hh) as [Hlev _].
  destruct (path_Some st0 st v lvl (v_level v) Hh ltac:(lia)) as [p Hp]. unfold move_readlock_vector_path, vpath. rewrite Hp. run.
  case_bool_decide as Hd; [exists st, v; do 3 (split; [done |]); by exists p |].
  destruct (Z.eqb_spec (p_lock p) 0) as [Hl|Hl]; run; [by eapply hold_acquire |].
  destruct (hold_release st0 st v lvl p Hex Hh Hp Hl) as (st1 & -> & Hh1). run. rewrite (upd_path_Some v _ _ p Hp). run.
  eapply (hold_acquire st0 st1 (with_path v _) lvl next); cbn [with_path v_path v_level]; [done | done | apply list_lookup_insert_eq; by eapply lookup_lt_Some | done..].
Qed.

(** ** Unlocking

    The locks of the entries from [i] on are the ones still held. *)
Definition accounted (m : gmap nat dirnode) (l : list path) : Prop :=
  forall d x, m !! d = Some x -> d_lock x = 0 /\ d_lockers x = holds d l.

Section Unlock.
Context (cb : correction (S := S)) (I : Z -> state -> option move_dirnode -> Prop) (ds : list nat).
Context (I_locks : forall i st m mv, I i st mv -> strip m = strip (st_dirs st) -> I i (set_dirs st m) mv).
Context (cb_step : forall i st v mv l, p_dirnode <$> v_path v = ds -> 0 <= i < zlen ds -> I i st mv -> accounted (st_dirs st) l ->
  (forall p, head l = Some p -> Some (p_dirnode p) = ds !! Z.to_nat i) ->
  exists st' mv', cb st v i mv = Done (st', mv') /\ I (i + 1) st' mv' /\ accounted (st_dirs st') l /\
    (forall p, head l = Some p -> p_lock p <> 0 -> is_Some (st_dirs st' !! p_dirnode p))).

Lemma unlock_step (st : state) v mv (i : nat) p :
  p_dirnode <$> v_path v = ds -> I (Z.of_nat i) st mv -> v_path v !! i = Some p -> zlen ds < 2 ^ 32 ->
  accounted (st_dirs st) (drop i (v_path v)) -> exists st' v' mv',
    (forall n, unlock_levels (Datatypes.S n) cb st v mv (Z.of_nat i) = unlock_levels n cb st' v' mv' (Z.of_nat (Datatypes.S i))) /\
    p_dirnode <$> v_path v' = ds /\ I (Z.of_nat (Datatypes.S i)) st' mv' /\
    accounted (st_dirs st') (drop (Datatypes.S i) (v_path v')).
Proof.
  intros Hds HI Hp Hlen Hacc. pose proof (f_equal length Hds) as Hl. rewrite length_fmap in Hl.
  pose proof (lookup_lt_Some _ _ _ Hp) as Hi. assert (head (drop i (v_path v)) = Some p) as Hhd by (by rewrite (drop_S _ p) by done).
  destruct (cb_step (Z.of_nat i) st v mv (drop i (v_path v)) Hds ltac:(unfold zlen; lia) HI Hacc) as (st1 & mv1 & E & HI1 & Hacc1 & Hlive).
  { intros q Hq. rewrite Hhd in Hq. injection Hq as <-. rewrite <- Hds, Nat2Z.id, list_lookup_fmap, Hp. done. }
  set (v' := with_path v (<[i := set_plock 0 0 p]> (v_path v))).
  assert (p_dirnode <$> v_path v' = ds) as Hds' by (cbn [v' with_path v_path]; rewrite list_fmap_insert; cbn; rewrite Hds; apply list_insert_id; rewrite <- Hds, list_lookup_fmap, Hp; done).
  assert (drop (Datatypes.S i) (v_path v') = drop (Datatypes.S i) (v_path v)) as Hdrop by (cbn [v' with_path v_path]; apply drop_insert_lt; lia).
  assert (forall d, holds d (drop i (v_path v)) = held_by d p + holds d (drop (Datatypes.S i) (v_path v))) as Hh
    by (intros d; by rewrite (drop_S _ p) by done).
  replace (Z.of_nat i + 1) with (Z.of_nat (Datatypes.S i)) in HI1 by lia.
  destruct (Z.eqb_spec (p_lock p) 0) as [Hlk|Hlk].
  - exists st1, v', mv1. split; [| split; [done |]; split; [done |]].
    + intros n. cbn [unlock_levels]. unfold vpath. rewrite Nat2Z.id, Hp. run. rewrite E. run. destruct (Z.eqb_spec (p_lock p) 0); [| done]. run.
      rewrite (upd_path_Some v _ _ p) by (by rewrite Nat2Z.id). run. rewrite Nat2Z.id. do 2 f_equal. lia.
    + rewrite Hdrop. intros d x Hx. destruct (Hacc1 d x Hx) as [? ->]. rewrite Hh, held_by_free by done. done.
  - destruct (Hlive p Hhd Hlk) as [y Hy]. set (d := p_dirnode p) in *. destruct (Hacc1 d y Hy) as [Hy0 Hyl].
    assert (held_by d p = 1) as Hb.
    { unfold held_by. destruct (Z.eqb_spec (p_lock p) 0); [done |]. by rewrite bool_decide_eq_true_2. }
    assert (u32 (d_lockers y - 1) = holds d (drop (Datatypes.S i) (v_path v))) as Hu.
    { pose proof (holds_range d (drop (Datatypes.S i) (v_path v))) as Hr. unfold zlen in *. rewrite length_drop in Hr.
      rewrite Hyl, Hh, Hb. rewrite u32_id; [lia |]. unfold is_u32. lia. }
    exists (set_dirs st1 (<[d := set_lockers (u32 (d_lockers y - 1)) y]> (st_dirs st1))), v', mv1.
    split; [| split; [done |]; split].
    + intros n. cbn [unlock_levels]. unfold vpath. rewrite Nat2Z.id, Hp. run. rewrite E. run. destruct (Z.eqb_spec (p_lock p) 0); [done |].
      unfold upd_dir. fold d. rewrite (deref_Some _ _ _ Hy). run. rewrite Hy0, Z.ldiff_0_l, set_lock_same by done.
      rewrite (upd_path_Some v _ _ p) by (by rewrite Nat2Z.id). run. rewrite Nat2Z.id. do 2 f_equal. lia.
    + apply I_locks; [done |]. by apply strip_upd.
    + rewrite Hdrop. cbn [st_dirs set_dirs]. intros e x [[<- <-] | [Hne Hx]]%lookup_insert_Some; [done |].
      destruct (Hacc1 e x Hx) as [? ->]. rewrite Hh. unfold held_by. rewrite bool_decide_eq_false_2 by done. by rewrite andb_false_r.
Qed.

Lemma unlock_spec n : forall (st : state) v mv (i : nat),
  p_dirnode <$> v_path v = ds -> I (Z.of_nat i) st mv -> accounted (st_dirs st) (drop i (v_path v)) -> zlen ds < 2 ^ 32 ->
  (i + n = length ds)%nat ->
  exists st' v' mv', unlock_levels n cb st v mv (Z.of_nat i) = Done (st', v', mv') /\ I (zlen ds) st' mv' /\ quiet (st_dirs st').
Proof.
  induction n as [|n IH]; intros st v mv i Hds HI Hacc Hlen Hn; pose proof (f_equal length Hds) as Hl; rewrite length_fmap in Hl.
  - exists st, v, mv. split; [done |]. unfold zlen. replace (length ds) with i by lia. split; [done |].
    intros d x Hx. destruct (Hacc d x Hx) as [? ->]. rewrite drop_ge by lia. done.
  - destruct (lookup_lt_is_Some_2 (v_path v) i) as [p Hp]; [lia |].
    destruct (unlock_step st v mv i p Hds HI Hp Hlen Hacc) as (st1 & v1 & mv1 & E & Hds1 & HI1 & Hacc1).
    destruct (IH st1 v1 mv1 (Datatypes.S i) Hds1 HI1 Hacc1 Hlen ltac:(lia)) as (st2 & v2 & mv2 & E2 & H2). exists st2, v2, mv2.
    by rewrite E.
Qed.

End Unlock.

Lemma hold_accounted (st0 st : state) v lvl : hold st0 st v lvl -> accounted (st_dirs st) (drop 0 (v_path v)).
Proof. intros Hh. rewrite drop_0. exact (hold_locks _ _ _ _ Hh). Qed.

Lemma hold_levels (st0 st : state) v lvl : hold st0 st v lvl -> v_level v = 0 -> levels v = length (v_path v).
Proof.
  intros Hh E. pose proof (hold_len _ _ _ _ Hh) as Hl. unfold levels, zlen in *. rewrite (hold_max _ _ _ _ Hh), E. lia.
Qed.

Lemma hold_zlen (st0 st : state) v lvl : hold st0 st v lvl -> zlen (p_dirnode <$> v_path v) < 2 ^ 32.
Proof.
  intros Hh. destruct (hold_level _ _ _ _ Hh) as [_ Hb]. pose proof (hold_len _ _ _ _ Hh) as Hl. unfold zlen in *. rewrite length_fmap. lia.
Qed.

Lemma set_dirs_id (st : state) : set_dirs st (st_dirs st) = st.
Proof. by destruct st. Qed.

Lemma default_remove (st0 st : state) v lvl m : quiet (st_dirs st0) -> hold st0 st v lvl -> v_level v = 0 ->
  exists v1, remove_lock_vector st v correct_dirnodes_ignore m = Done (st0, v1, m).
Proof.
  intros Hq Hh E. unfold remove_lock_vector. rewrite (hold_levels st0 st v lvl Hh E), E. change 0 with (Z.of_nat 0).
  destruct (unlock_spec correct_dirnodes_ignore
    (fun _ s mv => s = set_dirs st0 (st_dirs s) /\ strip (st_dirs s) = strip (st_dirs st0) /\ mv = m) (p_dirnode <$> v_path v))
    with (n := length (v_path v)) (st := st) (v := v) (mv := m) (i := O) as (st' & v' & mv' & -> & (H1 & H2 & ->) & H3).
  - intros i s mm mv (Hs & Ht & ->) Hm. cbn [st_dirs set_dirs]. rewrite Hs. split; [done |]. split; [by rewrite Hm | done].
  - intros i s w mv l Hds Hi (Hs & Ht & ->) Hacc Hhd. exists s, m. split; [done |]. split; [done |]. split; [done |].
    intros p Hp Hl. specialize (Hhd p Hp). symmetry in Hhd. rewrite list_lookup_fmap in Hhd.
    destruct (v_path v !! Z.to_nat i) as [q|] eqn:Hq'; [| done]. injection Hhd as Hd. rewrite <- Hd.
    destruct (on_lane_strip (st_dirs st0) (st_dirs s) (Z.to_nat i) (p_dirnode q)) as (y & -> & _); [done | | done].
    by apply (hold_lane _ _ _ _ Hh).
  - done.
  - split; [apply Hh |]. split; [apply Hh | done].
  - by apply (hold_accounted st0 st v lvl).
  - by eapply hold_zlen.
  - by rewrite length_fmap.
  - exists v'. do 3 f_equal. rewrite H1, (quiet_strip _ _ H2 H3 Hq). apply set_dirs_id.
Qed.

Lemma holds_replicate e n : holds e (replicate n (mk_path 0 0 0 0)) = 0.
Proof. induction n as [|n IH]; [done |]. simpl. by rewrite IH. Qed.

(** The vector of [create_vector_path], one level down. *)
Lemma hold_start (st0 : state) x v :
  searchable st0 -> quiet (st_dirs st0) -> st_dirs st0 !! O = Some x -> create_vector_path true (d_level x + 1) 0 = Some v ->
  hold st0 st0 (set_vlevel v (d_level x)) (d_level x) /\ v_level v = d_level x + 1 /\
  v_path v = replicate (Z.to_nat (d_level x + 2)) (mk_path 0 0 0 0) /\ v_maxlevel v = d_level x + 1 /\
  (forall i, (Z.of_nat i <= d_level x + 1) -> on_lane (st_dirs st0) i 0) /\ 0 <= d_level x /\ d_level x + 2 < 2 ^ 16.
Proof.
  intros Hg Hq Hx [= <-]. destruct (srch_head _ Hg) as (x' & Hx' & _ & Hlev & Hj & Hb & _). rewrite Hx in Hx'. injection Hx' as <-.
  replace (d_level x + 1 + 1) with (d_level x + 2) by lia.
  assert (forall i, Z.of_nat i <= d_level x + 1 -> on_lane (st_dirs st0) i 0) as Hlane.
  { intros i Hi. exists x. split; [done |]. unfold zlen in Hj. lia. }
  split; [| done || (repeat split; done || lia)].
  constructor; cbn [set_vlevel v_path v_level v_maxlevel].
  - by rewrite set_dirs_id.
  - done.
  - intros d y Hy. rewrite holds_replicate. by apply (Hq d).
  - lia.
  - done.
  - unfold zlen. rewrite length_replicate. lia.
  - intros i p [-> Hi]%lookup_replicate. apply Hlane. lia.
  - by intros i p [-> _]%lookup_replicate.
  - by intros i p _ [-> _]%lookup_replicate.
Qed.

Lemma default_readlock (st0 : state) v x : ex = false -> searchable st0 -> quiet (st_dirs st0) -> st_dirs st0 !! O = Some x ->
  create_vector_path true (d_level x + 1) 0 = Some v ->
  exists st1 v1, readlock_vector_path st0 v 0 = Done (st1, v1) /\ v_level v1 = d_level x + 1 /\
    hold st0 st1 (set_vlevel v1 (d_level x)) (d_level x) /\ cur (set_vlevel v1 (d_level x)) 0.
Proof.
  intros Hex Hg Hq Hx Hv. destruct (hold_start st0 x v Hg Hq Hx Hv) as (Hh & Hlev & Hpath & Hmax & Hlane & H0 & Hb).
  destruct (Hq O x Hx) as [Hx0 Hxl]. set (p := mk_path 0 0 0 0) in *.
  assert (v_path v !! Z.to_nat (v_level v) = Some p) as Hp by (rewrite Hpath, Hlev; apply lookup_replicate_2; lia).
  unfold readlock_vector_path. rewrite (acquire_spec st0 v 0 x p) by done. rewrite Hxl. change (u32 (0 + 1)) with 1.
  do 2 eexists. split; [reflexivity |]. split; [done |].
  split.
  - apply (hold_step st0 st0 (set_vlevel v (d_level x)) _ (d_level x) 0 x (set_lockers 1)); try done; cbn [with_path set_vlevel v_path v_level v_maxlevel].
    + intros e He. rewrite (holds_insert e _ _ p _ Hp). unfold held_by. cbn. rewrite bool_decide_eq_false_2 by done. lia.
    + rewrite (holds_insert 0 _ _ p _ Hp), Hpath, holds_replicate. done.
    + by rewrite length_insert.
    + intros i q [(<- & <- & _) | [_ Hq']]%list_lookup_insert_Some; [apply Hlane; cbn; lia | by apply (hold_lane _ _ _ _ Hh)].
    + intros i q [(<- & <- & _) | [_ Hq']]%list_lookup_insert_Some Hlk; [left; cbn; lia | by apply (hold_shape _ _ _ _ Hh)].
  - exists p. cbn [with_path set_vlevel v_path v_level]. split; [| done]. rewrite list_lookup_insert_ne by lia. rewrite Hpath. apply lookup_replicate_2. lia.
Qed.

Lemma default_lockable : ex = false -> Lockable sl_default_lockops.
Proof.
  intros Hex. constructor; cbn [sl_default_lockops lo_readlock lo_move lo_remove].
  - intros. by apply default_readlock.
  - intros. by apply default_move.
  - intros. by eapply default_remove.
Qed.

Lemma nolock_hold (st0 st : state) v lvl next p :
  ex = true -> hold st0 st v lvl -> v_path v !! Z.to_nat (v_level v) = Some p -> on_lane (st_dirs st0) (Z.to_nat (v_level v)) next ->
  hold st0 st (with_path v (<[Z.to_nat (v_level v) := set_pdirnode next p]> (v_path v))) lvl.
Proof.
  intros Hex Hh Hp Hlane. pose proof (hold_ex _ _ _ _ Hh _ _ Hex Hp) as Hl. constructor; cbn [with_path v_path v_level v_maxlevel]; try apply Hh.
  - intros d x Hx. rewrite (holds_insert d _ _ p _ Hp), !held_by_free by done. destruct (hold_locks _ _ _ _ Hh d x Hx) as [? ->]. split; [done | lia].
  - unfold zlen. rewrite length_insert. apply Hh.
  - intros i q [(<- & <- & _) | [_ Hq]]%list_lookup_insert_Some; [done | by apply (hold_lane _ _ _ _ Hh)].
  - intros i q [(<- & <- & _) | [_ Hq]]%list_lookup_insert_Some Hlk; [done | by apply (hold_shape _ _ _ _ Hh)].
  - intros i q _ [(<- & <- & _) | [_ Hq]]%list_lookup_insert_Some; [done | by eapply (hold_ex _ _ _ _ Hh)].
Qed.

Lemma nolock_lockable : ex = true -> Lockable sl_nolock_lockops.
Proof.
  intros Hex. constructor; cbn [sl_nolock_lockops lo_readlock lo_move lo_remove].
  - intros st0 v x Hg Hq Hx Hv. destruct (hold_start st0 x v Hg Hq Hx Hv) as (Hh & Hlev & Hpath & Hmax & Hlane & H0 & Hb).
    set (p := mk_path 0 0 0 0) in *.
    assert (v_path v !! Z.to_nat (v_level v) = Some p) as Hp by (rewrite Hpath, Hlev; apply lookup_replicate_2; lia).
    unfold readlock_vector_path_nolock. rewrite (upd_path_Some v _ _ p Hp). run. change (set_pdirnode 0 p) with p.
    rewrite list_insert_id by done. do 2 eexists. split; [reflexivity |]. split; [done |]. split; [done |].
    exists p. split; [| done]. cbn [with_path set_vlevel v_path v_level]. rewrite Hpath. apply lookup_replicate_2. lia.
  - intros st0 st v lvl next Hq Hh Hne Hlane. destruct (hold_level _ _ _ _ Hh) as [Hlev _].
    destruct (path_Some st0 st v lvl (v_level v) Hh ltac:(lia)) as [p Hp]. unfold move_readlock_vector_path_nolock.
    rewrite (upd_path_Some v _ _ p Hp). run. do 2 eexists. split; [reflexivity |]. split; [by apply nolock_hold |]. split; [done |].
    eexists. split; [apply list_lookup_insert_eq; by eapply lookup_lt_Some | done].
  - intros st0 st v lvl m Hq Hh E. exists v. unfold remove_lock_vector_nolock. do 3 f_equal.
    rewrite (hold_frame _ _ _ _ Hh), (quiet_strip (st_dirs st) (st_dirs st0)); [apply set_dirs_id | apply Hh | | done].
    intros d x Hx. destruct (hold_locks _ _ _ _ Hh d x Hx) as [? ->]. split; [done |].
    assert (forall l, (forall i p, l !! i = Some p -> p_lock p = 0) -> holds d l = 0) as Hz.
    { clear. induction l as [|p l IH]; intros Hl; [done |]. simpl. rewrite (held_by_free d p) by (by apply (Hl O)). apply IH. intros i q Hi. by apply (Hl (Datatypes.S i)). }
    apply Hz. intros i p Hp. by eapply (hold_ex _ _ _ _ Hh).
Qed.

(** ** The search *)

Context {L : Type} (compare : nat -> L -> Z) `{!Ordering compare}.
Context (lo : lockops (S := S)) `{!Lockable lo}.

Lemma hold_junc (st0 st : state) v lvl i d :
  hold st0 st v lvl -> 0 <= i -> on_lane (st_dirs st0) (Z.to_nat i) d ->
  exists x j, st_dirs st0 !! d = Some x /\ d_junction x !! Z.to_nat i = Some j /\ junc st d i = Done j.
Proof.
  intros Hh Hi (x & Hx & Hl). destruct (lookup_lt_is_Some_2 _ _ Hl) as [j Hj]. exists x, j. split; [done |]. split; [done |].
  destruct (strip_lookup (st_dirs st0) (st_dirs st) d x) as (y & Hy & E); [by rewrite (hold_strip _ _ _ _ Hh) | done |].
  apply (junc_Some st d y); [done |]. rewrite E in Hj. by destruct y.
Qed.

Lemma hold_deref (st0 st : state) v lvl d x :
  hold st0 st v lvl -> st_dirs st0 !! d = Some x ->
  exists y, deref st d = Done y /\ d_compare y = d_compare x /\ d_list y = d_list x.
Proof.
  intros Hh Hx. destruct (strip_lookup (st_dirs st0) (st_dirs st) d x) as (y & Hy & E); [by rewrite (hold_strip _ _ _ _ Hh) | done |].
  exists y. split; [by apply deref_Some |]. rewrite E. by destruct y.
Qed.

Lemma cur_lane (st0 st : state) v lvl d : hold st0 st v lvl -> cur v d -> on_lane (st_dirs st0) (Z.to_nat (v_level v)) d.
Proof. intros Hh (p & Hp & <-). by apply (hold_lane _ _ _ _ Hh). Qed.

Lemma search_lanes_spec (st0 : state) A l k t lvl : searchable st0 -> quiet (st_dirs st0) ->
  ls_refines (st_store st0) A -> A !! st_hdr st0 = Some l -> last l = Some t -> 0 < compare t k ->
  forall fuel st v d l1 e l2 r, hold st0 st v lvl -> cur v d -> reached compare l k l1 e l2 ->
  v_level v + zlen l2 < Z.of_nat fuel ->
  exists x st' v' r' d', search_lanes compare fuel lo st v k d e r = Done (x, st', v', r') /\
    hold st0 st' v' lvl /\ v_level v' = 0 /\ cur v' d' /\
    match x with
    | LaneOut => exists l1' f l2', reached compare l k l1' f l2' /\ compare f k = 0 /\ r_found r' = Some f /\
        r_flags r' = Z.lor (r_flags r) (Z.lor SL_SEARCHRESULT_FLAG_EXACT SL_SEARCHRESULT_FLAG_DIRNODE) /\ d' <> O
    | LaneBreak f => exists l1' l2', reached compare l k l1' f l2' /\ r_flags r' = r_flags r /\ r_ctr r' = r_ctr r
    end /\ (bare (st_dirs st0) -> d = O -> d' = O).
Proof.
  intros Hg Hq HR HA Ht Hpos. induction fuel as [|fuel IH]; intros st v d l1 e l2 r Hh Hcur Hr Hf.
  { destruct (hold_level _ _ _ _ Hh). pose proof (zlen_nonneg l2). lia. }
  destruct (hold_level _ _ _ _ Hh) as [Hlev _].
  destruct (hold_junc st0 st v lvl (v_level v) d Hh ltac:(lia) (cur_lane _ _ _ _ _ Hh Hcur)) as (x & j & Hx & Hj & Ej).
  destruct (srch_next _ Hg d x _ j Hx Hj) as (next & Hn & Hlane). pose proof Hlane as (y & Hy & _).
  destruct (hold_deref st0 st v lvl next y Hh Hy) as (y' & Ey & Ec & _).
  cbn [search_lanes]. rewrite Ej. run. rewrite Hn, Ey. run. unfold call_compare. rewrite Ec.
  assert (exists diff, match d_compare y with Some CompareUser => Done (compare e k) | Some CompareEnd => Done 1 | None => Fault end = Done diff /\
    (0 < diff \/ (next <> O /\ diff = compare e k))) as (diff & -> & Hdiff).
  { destruct (decide (next = O)) as [-> | Hne].
    - destruct (srch_head _ Hg) as (z & Hz & Hc & _). rewrite Hy in Hz. injection Hz as <-. rewrite Hc. exists 1. split; [done | left; lia].
    - pose proof (srch_node _ Hg next y Hy Hne) as Hc. rewrite Hc. eexists. split; [done | by right]. }
  run. destruct (Z.ltb_spec 0 diff) as [Hd|Hd].
  - destruct (Z.eqb_spec (v_level v) 0) as [E0|Hne0].
    + exists (LaneBreak e), st, v, r, d. split; [done |]. split; [done |]. split; [done |]. split; [done |]. split; [eauto | done].
    + destruct (path_down_spec st0 st v lvl d Hh ltac:(lia) Hcur) as (v1 & -> & Hh1 & Hl1 & Hc1). run. eapply IH; [done | done | done | lia].
  - destruct Hdiff as [? | [Hne ->]]; [lia |].
    assert (bare (st_dirs st0) -> d <> O) as Hbare by (intros Hb ->; destruct (Hb _ _ _ Hx Hj); congruence).
    destruct (lo_move_ok st0 st v lvl next Hq Hh Hne Hlane) as (st1 & v1 & Em & Hh1 & Hl1 & Hc1).
    destruct (Z.eqb_spec (compare e k) 0) as [E0|Hne0].
    + run. rewrite Em. run. destruct (down_spec st0 st1 v1 lvl next Hh1 Hc1) as (v2 & -> & Hh2 & Hl2 & Hc2). run.
      do 5 eexists. split; [reflexivity |]. split; [done |]. split; [done |]. split; [done |]. split; [exists l1, e, l2; done |]. intros Hb Hd0. by destruct (Hbare Hb).
    + assert (compare e k < 0) as Hlt by lia. run. rewrite Em. run.
      destruct (reached_more compare l k l1 e l2 t Hr Ht Hpos Hlt) as (f & l3 & ->).
      assert (st_store st1 = st_store st0) as Es by (rewrite (hold_frame _ _ _ _ Hh1); done). rewrite Es.
      rewrite (ls_next_spec _ A (st_hdr st0) l1 e (f :: l3) HR) by (rewrite HA; f_equal; apply Hr). run. cbn [head].
      destruct (IH st1 v1 next (l1 ++ [e]) f l3 (set_rstep 1 (set_row (u32 (r_row r + j_step j)) r))) as (x' & st' & v' & r' & d' & E & H1 & H2 & H3 & H4 & _);
        [done | done | | | exists x', st', v', r', d'; do 5 (split; [done |]); intros Hb Hd0; by destruct (Hbare Hb)].
      * by apply (reached_next compare l k l1 e f l3).
      * rewrite zlen_cons in Hf. lia.
Qed.

Lemma search_list_spec (st : state) A l k t : st_ops st = true ->
  ls_refines (st_store st) A -> A !! st_hdr st = Some l -> last l = Some t -> 0 < compare t k ->
  forall fuel l1 e l2 r, reached compare l k l1 e l2 -> 0 <= r_ctr r <= zlen l1 -> zlen l2 < Z.of_nat fuel ->
  exists r' l1' f l2', search_list compare fuel st (zlen l) k e r = Done r' /\ reached compare l k l1' f l2' /\ r_found r' = Some f /\
    ((compare f k = 0 /\ r_flags r' = Z.lor (r_flags r) SL_SEARCHRESULT_FLAG_EXACT) \/
     (0 < compare f k /\ r_flags r' = Z.lor (r_flags r) (Z.lor SL_SEARCHRESULT_FLAG_NOENT SL_SEARCHRESULT_FLAG_BEFORE))).
Proof.
  intros Hops HR HA Ht Hpos. induction fuel as [|fuel IH]; intros l1 e l2 r Hr Hctr Hf; [pose proof (zlen_nonneg l2); lia |].
  assert (zlen l = zlen l1 + 1 + zlen l2) as Hlen by (rewrite (reached_split _ _ _ _ _ _ Hr), zlen_app, zlen_cons; lia).
  pose proof (zlen_nonneg l2). cbn [search_list]. destruct (Z.leb_spec (r_ctr r) (zlen l)); [| lia]. unfold ops_compare. rewrite Hops. run.
  destruct (Z.ltb_spec (compare e k) 0) as [Hlt|Hge].
  - destruct (reached_more compare l k l1 e l2 t Hr Ht Hpos Hlt) as (f & l3 & ->).
    rewrite (ls_next_spec _ A (st_hdr st) l1 e (f :: l3) HR) by (rewrite HA; f_equal; apply Hr). run. cbn [head].
    set (r1 := set_rstep _ _). destruct (IH (l1 ++ [e]) f l3 r1) as (r' & l1' & g & l2' & ? & ? & ? & ?).
    + by apply (reached_next compare l k l1 e f l3).
    + unfold r1. cbn. rewrite zlen_app. unfold u32, zlen in *. simpl. pose proof (Z.mod_le (r_ctr r + 1) (2 ^ 32)).
      pose proof (Z.mod_pos_bound (r_ctr r + 1) (2 ^ 32)). lia.
    + rewrite zlen_cons in Hf. lia.
    + exists r', l1', g, l2'. done.
  - destruct (Z.eqb_spec (compare e k) 0) as [E0|Hne].
    + do 4 eexists. split; [reflexivity |]. split; [exact Hr |]. split; [done |]. by left.
    + do 4 eexists. split; [reflexivity |]. split; [exact Hr |]. split; [done |]. right. split; [lia | done].
Qed.

(** The state and the vector at the end of a search. *)
Definition arrived (st0 st : state) (v : vector) (lvl : Z) (d : nat) : Prop := hold st0 st v lvl /\ v_level v = 0 /\ cur v d.

Lemma search_spec (st0 : state) A l k lvl fuel st v r : searchable st0 -> quiet (st_dirs st0) ->
  ls_refines (st_store st0) A -> A !! st_hdr st0 = Some l -> ordered compare l ->
  hold st0 st v lvl -> cur v 0 -> r_found r = None -> r_ctr r = 0 -> lvl + zlen l < Z.of_nat fuel ->
  exists st' v' r' d fl, search compare fuel lo st v k r = Done (st', v', r') /\ arrived st0 st' v' lvl d /\
    place compare l k fl (r_found r') /\ r_flags r' = Z.lor (r_flags r) fl /\ (has fl SL_SEARCHRESULT_FLAG_DIRNODE = true -> d <> O) /\ (bare (st_dirs st0) -> d = O).
Proof.
  intros Hg Hq HR HA Hord Hh Hcur Hr0 Hr1 Hfuel. unfold search.
  assert (st_store st = st_store st0 /\ st_hdr st = st_hdr st0 /\ st_ops st = true) as (-> & -> & Eo)
    by (rewrite (hold_frame _ _ _ _ Hh); cbn; rewrite (srch_ops _ Hg); done).
  destruct (ls_count_spec _ A _ l HR HA) as [-> _]. run.
  destruct (down_spec st0 st v lvl 0 Hh Hcur) as (v1 & Ev & Hh1 & Hl1 & Hc1).
  assert (forall r' fl, place compare l k fl (r_found r') -> r_flags r' = Z.lor (r_flags r) fl -> has fl SL_SEARCHRESULT_FLAG_DIRNODE = false ->
    exists st' v' r'' d fl', (let* v := move_lock_vector_down v in Done (st, v, r')) = Done (st', v', r'') /\ arrived st0 st' v' lvl d /\
      place compare l k fl' (r_found r'') /\ r_flags r'' = Z.lor (r_flags r) fl' /\ (has fl' SL_SEARCHRESULT_FLAG_DIRNODE = true -> d <> O) /\ (bare (st_dirs st0) -> d = O)) as Hout.
  { intros r' fl Hp Hfl Hd. exists st, v1, r', O, fl. rewrite Ev. run. split; [done |]. split; [done |]. rewrite Hd. done. }
  destruct (Z.eqb_spec (zlen l) 0) as [E|Hne].
  { eapply (Hout _ SL_SEARCHRESULT_FLAG_EMPTY); [| done | done]. cbn. rewrite Hr0. apply PlaceEmpty. by destruct l. }
  destruct l as [|t l' _] using rev_ind; [done |].
  rewrite (ls_tail_spec _ A _ _ HR HA), last_snoc. run. unfold ops_compare. rewrite Eo. run.
  pose proof (ordered_key compare l' t [] k Hord) as [_ Hbt].
  destruct (Z.ltb_spec (compare t k) 0) as [Ht|Ht].
  { eapply Hout; [| reflexivity | done]. apply (PlaceAfter compare _ k l' t); [| done]. split; [done | apply Hbt; lia]. }
  destruct (Z.eqb_spec (compare t k) 0) as [Ht0|Ht0].
  { eapply Hout; [| reflexivity | done]. apply (PlaceAt compare _ k l' t []); [split; [done | apply Hbt; lia] | done | set_solver]. }
  assert (0 < compare t k) as Hpos by lia. destruct (l' ++ [t]) as [|h rest] eqn:El; [by destruct l' |].
  rewrite (ls_head_spec _ A _ _ HR HA). run. cbn [head]. run.
  assert (reached compare (h :: rest) k [] h rest) as Hr by (split; [done | constructor]).
  destruct (Z.ltb_spec 0 (compare h k)) as [Hh0|Hh0].
  { eapply Hout; [| reflexivity | done]. apply (PlaceBefore compare _ k [] h rest); [done | done | set_solver]. }
  destruct (Z.eqb_spec (compare h k) 0) as [Hhe|Hhe].
  { eapply Hout; [| reflexivity | done]. apply (PlaceAt compare _ k [] h rest); [done | done | set_solver]. }
  assert (last (h :: rest) = Some t) as Hlast by (rewrite <- El; apply last_snoc).
  destruct (hold_level _ _ _ _ Hh) as [Hlev _].
  destruct (search_lanes_spec st0 A _ k t lvl Hg Hq HR HA Hlast Hpos fuel st v 0 [] h rest (set_row 1 r) Hh Hcur Hr)
    as (x & st' & v' & r' & d & -> & Hh' & Hl' & Hc' & Hx & Hbare); [rewrite zlen_cons in Hfuel; lia |]. run. assert (bare (st_dirs st0) -> d = O) as Hb0 by auto.
  destruct x as [|f].
  - destruct Hx as (l1' & f & l2' & Hr' & Hf0 & Hfound & Hfl & Hd). exists st', v', r', d, (Z.lor SL_SEARCHRESULT_FLAG_EXACT SL_SEARCHRESULT_FLAG_DIRNODE). split; [done |]. split; [done |].
    rewrite Hfound, Hfl. split; [apply (PlaceAt compare _ k l1' f l2'); [done | done | set_solver] |]. done.
  - destruct Hx as (l1' & l2' & Hr' & Hfl & Hctr).
    assert (st_store st' = st_store st0 /\ st_hdr st' = st_hdr st0 /\ st_ops st' = true) as (Es & Eh & Eo')
      by (rewrite (hold_frame _ _ _ _ Hh'); cbn; rewrite (srch_ops _ Hg); done).
    destruct (search_list_spec st' A (h :: rest) k t Eo' ltac:(by rewrite Es) ltac:(by rewrite Eh) Hlast Hpos fuel l1' f l2' r' Hr')
      as (r2 & l1'' & g & l2'' & -> & Hr2 & Hfound & Hcase).
    + rewrite Hctr. cbn. rewrite Hr1. pose proof (zlen_nonneg l1'). lia.
    + pose proof (f_equal zlen (reached_split _ _ _ _ _ _ Hr')) as El2. rewrite zlen_app, (zlen_cons f) in El2. pose proof (zlen_nonneg l1'). lia.
    + run. rewrite Hfl in Hcase. cbn in Hcase. exists st', v', r2, d. destruct Hcase as [[Hg0 Hf2] | [Hg0 Hf2]].
      * exists (Z.lor SL_SEARCHRESULT_FLAG_EXACT 0). split; [done |]. split; [done |]. rewrite Hfound.
        split; [apply (PlaceAt compare _ k l1'' g l2''); [done | done | set_solver] |]. split; [exact Hf2 | done].
      * exists (Z.lor SL_SEARCHRESULT_FLAG_NOENT (Z.lor 0 SL_SEARCHRESULT_FLAG_BEFORE)). split; [done |]. split; [done |]. rewrite Hfound.
        split; [apply (PlaceBefore compare _ k l1'' g l2''); [done | done | set_solver] |]. split; [exact Hf2 | done].
Qed.

(** The search and its callback. *)
Lemma generic_spec (st0 : state) A l k x fuel cb r : searchable st0 -> quiet (st_dirs st0) ->
  ls_refines (st_store st0) A -> A !! st_hdr st0 = Some l -> ordered compare l -> st_dirs st0 !! O = Some x ->
  r_found r = None -> r_ctr r = 0 -> d_level x + zlen l < Z.of_nat fuel ->
  exists st' v' r' d fl, sl_find_generic compare true fuel lo cb st0 k r = cb st' lo v' r' /\ arrived st0 st' v' (d_level x) d /\
    place compare l k fl (r_found r') /\ r_flags r' = Z.lor (r_flags r) fl /\ (has fl SL_SEARCHRESULT_FLAG_DIRNODE = true -> d <> O) /\ (bare (st_dirs st0) -> d = O).
Proof.
  intros Hg Hq HR HA Hord Hx Hr0 Hr1 Hfuel. unfold sl_find_generic. rewrite (deref_Some _ _ _ Hx). run.
  destruct (create_vector_path true (d_level x + 1) 0) as [v|] eqn:Hv; [| done].
  destruct (lo_readlock_ok st0 v x Hg Hq Hx Hv) as (st1 & v1 & -> & Hl1 & Hh1 & Hc1). run.
  destruct (hold_level _ _ _ _ Hh1) as [Hlev Hb]. cbn [set_vlevel v_level] in Hlev.
  replace (u16 (v_level v1 - 1)) with (d_level x) by (rewrite Hl1; unfold u16; rewrite Z.mod_small; lia).
  destruct Hc1 as (p & Hp & Hp0). rewrite (upd_path_Some _ _ _ p) by done. run. cbn [set_vlevel v_path v_level] in *.
  replace (set_pdirnode 0 p) with p by (destruct p; unfold set_pdirnode; simpl in *; by subst).
  rewrite list_insert_id by done. change (with_path (set_vlevel v1 (d_level x)) (v_path v1)) with (set_vlevel v1 (d_level x)).
  destruct (search_spec st0 A l k (d_level x) fuel st1 (set_vlevel v1 (d_level x)) r Hg Hq HR HA Hord Hh1) as (st' & v' & r' & d & fl & -> & H);
    [by exists p | done | done | done |]. run. exists st', v', r', d, fl. done.
Qed.

End Laws.

#[export] Instance default_lockable_inst {S} `{!ListStore S, !SortedStore S} : Lockable (S := S) false sl_default_lockops.
Proof. by apply default_lockable. Qed.

#[export] Instance nolock_lockable_inst {S} `{!ListStore S, !SortedStore S} : Lockable (S := S) true sl_nolock_lockops.
Proof. by apply nolock_lockable. Qed.

(** The flags of a call, with and without locks. *)
Definition mode (ex : bool) : Z := if ex then SL_SEARCHRESULT_FLAG_EXCLUSIVE else 0.

#[export] Instance mode_lockable {S} `{!ListStore S, !SortedStore S} (ex : bool) : Lockable (S := S) ex (lockops_for (mode ex)).
Proof. destruct ex; [apply nolock_lockable_inst | apply default_lockable_inst]. Qed.

Lemma sl_find_spec {S} `{!ListStore S, !SortedStore S} {L} (compare : nat -> L -> Z) `{!Ordering compare} (ex : bool)
    (st : skiplist S) A l k x fuel :
  searchable st -> quiet (st_dirs st) -> ls_refines (st_store st) A -> A !! st_hdr st = Some l -> ordered compare l ->
  st_dirs st !! O = Some x -> d_level x + zlen l < Z.of_nat fuel ->
  exists r fl, sl_find compare true fuel st k (init_sl_searchresult (mode ex)) = Done (st, r) /\
    place compare l k fl (r_found r) /\ r_flags r = Z.lor (mode ex) fl.
Proof.
  intros Hg Hq HR HA Hord Hx Hfuel. unfold sl_find. cbn [init_sl_searchresult r_flags].
  destruct (generic_spec ex compare (lockops_for (mode ex)) st A l k x fuel sl_find_cb (init_sl_searchresult (mode ex)) Hg Hq HR HA Hord Hx eq_refl eq_refl Hfuel)
    as (st' & v' & r' & d & fl & -> & (Hh & Hl & _) & Hp & Hfl & _).
  unfold sl_find_cb. destruct (lo_remove_ok ex st st' v' (d_level x) None Hq Hh Hl) as (v1 & ->). run. exists r', fl. done.
Qed.

(** What the flags of a place tell. *)
Lemma place_exact {L} (compare : nat -> L -> Z) `{!Ordering compare} l k fl f ex : ordered compare l -> place compare l k fl f ->
  (has (Z.lor (mode ex) fl) SL_SEARCHRESULT_FLAG_EXACT = true <-> exists e, e ∈ l /\ compare e k = 0) /\
  (forall e, e ∈ l -> compare e k = 0 -> f = Some e).
Proof.
  intros Hord Hp. destruct Hp as [-> | l1 e l2 fl [-> Hb] He Hfl | l1 e l2 fl [-> Hb] He Hfl | l1 e [-> Hb] He].
  - split; [| set_solver]. split; [by destruct ex | set_solver].
  - destruct (ordered_key compare l1 e l2 k Hord) as [Ha _]. specialize (Ha ltac:(lia)). split.
    + split; [intros _; exists e; set_solver |]. intros _. repeat (apply elem_of_cons in Hfl as [-> | Hfl]; [by destruct ex |]). set_solver.
    + intros f [Hf | [-> | Hf]%elem_of_cons]%elem_of_app Hf0; [| done |].
      * rewrite Forall_forall in Hb. specialize (Hb f Hf). lia.
      * rewrite Forall_forall in Ha. specialize (Ha f Hf). lia.
  - destruct (ordered_key compare l1 e l2 k Hord) as [Ha _]. specialize (Ha ltac:(lia)).
    assert (forall f, f ∈ l1 ++ e :: l2 -> compare f k <> 0) as Hno.
    { rewrite Forall_forall in Hb, Ha. intros f [Hf | [-> | Hf]%elem_of_cons]%elem_of_app; [specialize (Hb f Hf) | | specialize (Ha f Hf)]; lia. }
    split; [| intros f Hf Hf0; by destruct (Hno f Hf)].
    split; [| intros (f & Hf & Hf0); by destruct (Hno f Hf)].
    repeat (apply elem_of_cons in Hfl as [-> | Hfl]; [by destruct ex |]). set_solver.
  - assert (forall f, f ∈ l1 ++ [e] -> compare f k <> 0) as Hno.
    { rewrite Forall_forall in Hb. intros f [Hf | ->%list_elem_of_singleton]%elem_of_app; [specialize (Hb f Hf) |]; lia. }
    split; [| intros f Hf Hf0; by destruct (Hno f Hf)].
    split; [by destruct ex | intros (f & Hf & Hf0); by destruct (Hno f Hf)].
Qed.

End SkipFind.
