(* ===== verification/SkipInsert.v ===== *)
(** * lib/sl: inserting

    The full invariant of a skip list, with the lanes linked both ways, and its
    preservation by the insertion: whatever directory node is made, the list is the
    sorted list with the new element. *)

From Stdlib Require Import Sorting.Sorted.
From stdpp Require Import base list list_numbers numbers option gmap.
From S2P Require Import Prelude SimpleList ListStore SkipList SkipFind.
Import SimpleList ListStore SkipList SkipFind.

Module SkipInsert.

(** What the skip list needs of [get_list_element]: the element it gives for a key
    belongs where the key does. *)
Class Insertable {L : Type} (compare : nat -> L -> Z) `{!Ordering compare} (get_list_element : L -> option nat) : Prop := {
  element_after a k e : get_list_element k = Some e -> compare a k < 0 -> below a e;
  element_before b k e : get_list_element k = Some e -> 0 < compare b k -> below e b
}.

(** ** Junctions *)

Definition jget (m : gmap nat dirnode) (d i : nat) : option junction := let? x := m !! d in d_junction x !! i.

Lemma on_lane_jget m i d : on_lane m i d <-> is_Some (jget m d i).
Proof.
  unfold on_lane, jget. split.
  - intros (x & -> & Hi). opt. by apply lookup_lt_is_Some_2.
  - intros Hj. destruct (m !! d) as [x|]; [| by destruct Hj]. exists x. split; [done |]. by apply lookup_lt_is_Some_1.
Qed.

(** A directory node without what its junctions hold. *)
Definition skel (x : dirnode) : dirnode := set_junctions (replicate (length (d_junction x)) zero_junction) x.
Definition same_shape (m m' : gmap nat dirnode) : Prop := skel <$> m = skel <$> m'.

Lemma same_shape_lookup m m' d x : same_shape m m' -> m !! d = Some x -> exists y, m' !! d = Some y /\ skel x = skel y.
Proof.
  intros E Hx. apply (f_equal (fun m => m !! d)) in E. rewrite !lookup_fmap, Hx in E. destruct (m' !! d) as [y|]; [| done].
  exists y. split; [done |]. change (Some (skel x) = Some (skel y)) in E. congruence.
Qed.

Lemma skel_fields x y : skel x = skel y ->
  d_list x = d_list y /\ d_flags x = d_flags y /\ d_lock x = d_lock y /\ d_lockers x = d_lockers y /\ d_level x = d_level y /\
  d_compare x = d_compare y /\ length (d_junction x) = length (d_junction y).
Proof.
  destruct x, y. unfold skel, set_junctions. simpl. intros [= -> -> -> -> -> -> E]. repeat split.
  apply (f_equal length) in E. by rewrite !length_replicate in E.
Qed.

(** What the pointers of a lane are: the next and the previous node. *)
Definition ptrs (m : gmap nat dirnode) (d i : nat) : option (option nat * option nat) := (fun j => (j_n j, j_p j)) <$> jget m d i.

Record linked (w : nat -> nat -> option (option nat * option nat)) : Prop := {
  lk_next d i n p : w d i = Some (n, p) -> exists e, n = Some e /\ is_Some (w e i);
  lk_prev d i n p : w d i = Some (n, p) -> exists e, p = Some e /\ is_Some (w e i);
  lk_inverse d i e p n' p' : w d i = Some (Some e, p) -> e <> O -> w e i = Some (n', p') -> p' = Some d
}.

Lemma linked_ext w w' : (forall d i, w' d i = w d i) -> linked w -> linked w'.
Proof.
  intros E [H1 H2 H3]. split.
  - intros d i n p. rewrite E. intros H. destruct (H1 _ _ _ _ H) as (e & -> & ?). exists e. by rewrite E.
  - intros d i n p. rewrite E. intros H. destruct (H2 _ _ _ _ H) as (e & -> & ?). exists e. by rewrite E.
  - intros d i e p n' p'. rewrite !E. apply H3.
Qed.

(** Lane [i] with [new] put between [prev] and [next]. *)
Definition lane_insert (w : nat -> nat -> option (option nat * option nat)) (i new prev next : nat) (d i' : nat) : option (option nat * option nat) :=
  if decide (i' = i) then
    if decide (d = new) then Some (Some next, Some prev)
    else (fun '(n, p) => (if decide (d = prev) then Some new else n, if decide (d = next) then Some new else p)) <$> w d i
  else w d i'.

Lemma lane_insert_some w i new prev next d i' : is_Some (w d i') -> is_Some (lane_insert w i new prev next d i').
Proof.
  intros [[n p] H]. unfold lane_insert. destruct (decide (i' = i)) as [->|]; [| by eexists].
  destruct (decide (d = new)) as [->|]; [by eexists |]. rewrite H. by eexists.
Qed.

Lemma lane_insert_linked w i new prev next pp :
  linked w -> w prev i = Some (Some next, pp) -> new <> O -> new <> prev -> new <> next ->
  is_Some (w new i) -> (forall d n p, w d i = Some (n, p) -> n <> Some new) ->
  linked (lane_insert w i new prev next).
Proof.
  intros Hw Hprev Hn0 Hnp Hnn Hnew Hunref.
  assert (is_Some (w next i)) as Hnext by (destruct (lk_next _ Hw _ _ _ _ Hprev) as (e & [= <-] & ?); done).
  split.
  - intros d i' n p H. unfold lane_insert in H. destruct (decide (i' = i)) as [->|Hi]; [destruct (decide (d = new)) as [->|Hdn] |].
    + injection H as <- <-. exists next. split; [done | by apply lane_insert_some].
    + destruct (w d i) as [[n0 p0]|] eqn:E; [| done]. injection H as <- <-. destruct (decide (d = prev)).
      * exists new. split; [done | by apply lane_insert_some].
      * destruct (lk_next _ Hw _ _ _ _ E) as (e & -> & ?). exists e. split; [done | by apply lane_insert_some].
    + destruct (lk_next _ Hw _ _ _ _ H) as (e & -> & ?). exists e. split; [done | by apply lane_insert_some].
  - intros d i' n p H. unfold lane_insert in H. destruct (decide (i' = i)) as [->|Hi]; [destruct (decide (d = new)) as [->|Hdn] |].
    + injection H as <- <-. exists prev. split; [done | apply lane_insert_some; by rewrite Hprev].
    + destruct (w d i) as [[n0 p0]|] eqn:E; [| done]. injection H as <- <-. destruct (decide (d = next)).
      all: try (exists new; split; [done | by apply lane_insert_some]).
      all: destruct (lk_prev _ Hw _ _ _ _ E) as (e & -> & ?); exists e; split; [done | by apply lane_insert_some].
    + destruct (lk_prev _ Hw _ _ _ _ H) as (e & -> & ?). exists e. split; [done | by apply lane_insert_some].
  - intros d i' e p n' p' Hd He Hw'. unfold lane_insert in Hd, Hw'. destruct (decide (i' = i)) as [->|Hi]; [| by eapply (lk_inverse _ Hw)].
    destruct (decide (d = new)) as [-> | Hdn].
    + injection Hd as <- <-. rewrite decide_False in Hw' by done. destruct (w next i) as [[n1 p1]|]; [| done].
      injection Hw' as <- <-. by rewrite decide_True.
    + destruct (w d i) as [[n0 p0]|] eqn:E; [| done]. injection Hd as Hn Hp. destruct (decide (d = prev)) as [Hdp|Hdp].
      * injection Hn as <-. rewrite decide_True in Hw' by done. injection Hw' as <- <-. by subst.
      * subst n0. rewrite decide_False in Hw' by (intros ->; by eapply Hunref). destruct (w e i) as [[n1 p1]|] eqn:E'; [| done].
        injection Hw' as <- <-. destruct (decide (e = next)) as [Hen|Hen]; [| by eapply (lk_inverse _ Hw)].
        subst e. pose proof (lk_inverse _ Hw _ _ _ _ _ _ E He E'). pose proof (lk_inverse _ Hw _ _ _ _ _ _ Hprev He E'). congruence.
Qed.

Lemma jget_strip m m' d i : strip m = strip m' -> jget m d i = jget m' d i.
Proof.
  intros E. unfold jget. destruct (m !! d) as [x|] eqn:Hx.
  - destruct (strip_lookup m m' d x E Hx) as (y & -> & Ex). opt. rewrite Ex. by destruct y.
  - apply (f_equal (fun m => m !! d)) in E. unfold strip in E. rewrite !lookup_fmap, Hx in E. by destruct (m' !! d).
Qed.

Section Good.
Context {S : Type} `{!ListStore S, !SortedStore S}.
Abbreviation state := (skiplist S).

(** ** The invariant *)

(** The head of the lanes. *)
Record is_head (maxlevel : Z) (x : dirnode) : Prop := {
  hd_compare : d_compare x = Some CompareEnd;
  hd_level : 0 <= d_level x <= maxlevel;
  hd_junctions : zlen (d_junction x) = maxlevel + 2;
  hd_max : maxlevel + 2 < 2 ^ 16;
  hd_flags : has (d_flags x) _DIRNODE_FLAG_START = true
}.

(** A directory node of a list whose head is of level [lvl]. *)
Record is_node (lvl : Z) (x : dirnode) : Prop := {
  nd_compare : d_compare x = Some CompareUser;
  nd_level : 0 <= d_level x <= lvl;
  nd_junctions : zlen (d_junction x) = d_level x + 1;
  nd_flags : has (d_flags x) _DIRNODE_FLAG_START = false
}.

Record good (st : state) : Prop := {
  good_ops : st_ops st = true;
  good_head : exists x, st_dirs st !! O = Some x /\ is_head (st_maxlevel st) x /\
    (forall d y, st_dirs st !! d = Some y -> d <> O -> is_node (d_level x) y);
  good_fresh d : is_Some (st_dirs st !! d) -> (d < st_brk st)%nat;
  good_linked : linked (ptrs (st_dirs st));
  good_count i j : jget (st_dirs st) 0 i = Some j -> 0 <= j_count j < Z.of_nat (st_brk st);
  good_prob : is_u32 (st_prob st)
}.

Lemma good_searchable st : good st -> searchable st.
Proof.
  intros [Hops (x & Hx & Hhd & Hnd) _ Hl _ _]. split; [done | | |].
  - exists x. destruct Hhd. done.
  - intros d y Hy Hne. by apply (Hnd d y).
  - intros d y i j Hy Hj.
    assert (ptrs (st_dirs st) d i = Some (j_n j, j_p j)) as Hw by (unfold ptrs, jget; rewrite Hy; opt; by rewrite Hj).
    destruct (lk_next _ Hl _ _ _ _ Hw) as (e & -> & He). exists e. split; [done |]. apply on_lane_jget.
    unfold ptrs in He. by rewrite fmap_is_Some in He.
Qed.

(** Everything in the invariant but the links and the counts follows the shape. *)
Lemma good_shape st m : good st -> same_shape m (st_dirs st) -> linked (ptrs m) ->
  (forall i j, jget m 0 i = Some j -> 0 <= j_count j < Z.of_nat (st_brk st)) -> good (set_dirs st m).
Proof.
  intros [Hops (x & Hx & Hhd & Hnd) Hfr _ _ Hp] Hs Hl Hc. split; cbn [set_dirs st_ops st_dirs st_maxlevel st_brk st_prob]; try done.
  - destruct (same_shape_lookup (st_dirs st) m O x) as (y & Hy & E); [done | done |]. exists y. split; [done |].
    destruct (skel_fields x y E) as (El & Ef & Ek & Ekk & Ev & Ec & Ej). split.
    + destruct Hhd. unfold zlen in *. split; unfold zlen; rewrite <- ?Ec, <- ?Ev, <- ?Ej, <- ?Ef; done.
    + intros d z Hz Hne. destruct (same_shape_lookup m (st_dirs st) d z Hs Hz) as (z' & Hz' & E').
      destruct (skel_fields z z' E') as (El' & Ef' & Ek' & Ekk' & Ev' & Ec' & Ej'). destruct (Hnd d z' Hz' Hne). unfold zlen in *.
      split; unfold zlen; rewrite ?Ec', ?Ev', ?Ej', ?Ef', <- ?Ev; done.
  - intros d [z Hz]. destruct (same_shape_lookup m (st_dirs st) d z Hs Hz) as (z' & Hz' & _). apply Hfr. by rewrite Hz'.
Qed.

(** The part of a directory node the invariant is about. *)
Definition core (x : dirnode) := (d_flags x, d_level x, d_compare x, d_junction x).

Lemma good_core st m : good st -> (forall d, core <$> m !! d = core <$> st_dirs st !! d) -> good (set_dirs st m).
Proof.
  intros [Hops (x & Hx & Hhd & Hnd) Hfr Hl Hc Hp] Hs.
  assert (forall d i, jget m d i = jget (st_dirs st) d i) as Hj.
  { intros d i. specialize (Hs d). unfold jget. destruct (m !! d), (st_dirs st !! d); try done. injection Hs as _ _ _ E. opt. by rewrite E. }
  split; cbn [set_dirs st_ops st_dirs st_maxlevel st_brk st_prob]; try done.
  - pose proof (Hs O) as H0. rewrite Hx in H0. destruct (m !! O) as [y|] eqn:Hy; [| done]. injection H0 as Ef Ev Ec Ej. exists y. split; [done |]. split.
    + destruct Hhd. split; rewrite ?Ec, ?Ev, ?Ej, ?Ef; done.
    + intros d z Hz Hne. pose proof (Hs d) as Hd. rewrite Hz in Hd. destruct (st_dirs st !! d) as [z'|] eqn:Hz'; [| done]. injection Hd as Ef' Ev' Ec' Ej'.
      destruct (Hnd d z' Hz' Hne). split; rewrite ?Ec', ?Ev', ?Ej', ?Ef', ?Ev; done.
  - intros d [z Hz]. pose proof (Hs d) as Hd. rewrite Hz in Hd. destruct (st_dirs st !! d) as [z'|] eqn:Hz'; [| done]. apply Hfr. by rewrite Hz'.
  - eapply linked_ext; [| exact Hl]. intros d i. unfold ptrs. by rewrite Hj.
  - intros i j. rewrite Hj. apply Hc.
Qed.

Lemma good_strip st m : good st -> strip m = strip (st_dirs st) -> good (set_dirs st m).
Proof.
  intros Hg Hs. apply good_core; [done |]. intros d. destruct (m !! d) as [x|] eqn:Hx.
  - destruct (strip_lookup m (st_dirs st) d x Hs Hx) as (y & -> & ->). by destruct y.
  - apply (f_equal (fun m => m !! d)) in Hs. unfold strip in Hs. rewrite !lookup_fmap, Hx in Hs. by destruct (st_dirs st !! d).
Qed.

(** ** Updates of junctions *)

Lemma junc_jget (st : state) d i j : jget (st_dirs st) d (Z.to_nat i) = Some j -> junc st d i = Done j.
Proof. unfold jget, junc, deref. destruct (st_dirs st !! d) as [x|]; [| done]. opt. intros E. run. by rewrite E. Qed.

(** [m'] is [m] with junction [i] of [d] replaced by [j]. *)
Record updates (m m' : gmap nat dirnode) (d i : nat) (j : junction) : Prop := {
  upd_shape : same_shape m' m;
  upd_get d' i' : jget m' d' i' = if decide (d' = d /\ i' = i) then Some j else jget m d' i'
}.

Lemma upd_junc_ok (st : state) d i f j : jget (st_dirs st) d (Z.to_nat i) = Some j ->
  exists m, upd_junc st d i f = Done (set_dirs st m) /\ updates (st_dirs st) m d (Z.to_nat i) (f j).
Proof.
  unfold jget, upd_junc, deref. destruct (st_dirs st !! d) as [x|] eqn:Hx; [| done]. opt. intros Hj. run. rewrite Hj. run.
  eexists. split; [reflexivity |]. split.
  - unfold same_shape. apply map_eq. intros d'. rewrite !lookup_fmap. destruct (decide (d' = d)) as [-> | Hne].
    + rewrite lookup_insert_eq, Hx. simpl. f_equal. unfold skel, set_junctions. simpl. by rewrite length_insert.
    + by rewrite lookup_insert_ne by done.
  - intros d' i'. unfold jget. destruct (decide (d' = d)) as [-> | Hne].
    + rewrite lookup_insert_eq. opt. cbn [d_junction set_junctions]. rewrite Hx. opt. destruct (decide (i' = Z.to_nat i)) as [-> | Hi].
      * rewrite decide_True by done. apply list_lookup_insert_eq. by eapply lookup_lt_Some.
      * rewrite decide_False by naive_solver. by rewrite list_lookup_insert_ne by done.
    + rewrite lookup_insert_ne by done. by rewrite decide_False by naive_solver.
Qed.

Lemma upd_ptrs m m' d i j : updates m m' d i j ->
  forall d' i', ptrs m' d' i' = if decide (d' = d /\ i' = i) then Some (j_n j, j_p j) else ptrs m d' i'.
Proof. intros Hu d' i'. unfold ptrs. rewrite (upd_get _ _ _ _ _ Hu). by case_decide. Qed.

(** A change of the lanes at level [i]: the shape, the other levels and, but for
    the head, the counts stay. *)
Record at_level (i : nat) (m m' : gmap nat dirnode) : Prop := {
  al_shape : same_shape m' m;
  al_other d k : k <> i -> jget m' d k = jget m d k
}.

Lemma at_level_refl i m : at_level i m m.
Proof. by split. Qed.

Lemma at_level_trans i m1 m2 m3 : at_level i m1 m2 -> at_level i m2 m3 -> at_level i m1 m3.
Proof. intros [H1 H2] [H3 H4]. split; [by unfold same_shape in *; congruence |]. intros d k Hk. by rewrite H4, H2. Qed.

Lemma updates_level m m' d i j : updates m m' d i j -> at_level i m m'.
Proof. intros [H1 H2]. split; [done |]. intros d' k Hk. rewrite H2, decide_False; [done | naive_solver]. Qed.

(** Changing the steps or the count of a junction leaves the links alone. *)
Lemma updates_linked m m' d i j j' : updates m m' d i j' -> jget m d i = Some j -> j_n j' = j_n j -> j_p j' = j_p j ->
  linked (ptrs m) -> linked (ptrs m').
Proof.
  intros Hu Hj En Ep. apply linked_ext. intros d' i'. rewrite (upd_ptrs _ _ _ _ _ Hu). case_decide as H; [| done].
  destruct H as [-> ->]. unfold ptrs. rewrite Hj, En, Ep. done.
Qed.

(** The counts of the head, up to [extra] more at level [i]. *)
Definition counts (m : gmap nat dirnode) (i : nat) (below above : Z) : Prop :=
  forall k j, jget m 0 k = Some j -> 0 <= j_count j < (if decide (k < i)%nat then below else above).

Lemma link_new (st : state) (i : Z) new prev next j jn jw :
  0 <= i -> jget (st_dirs st) prev (Z.to_nat i) = Some j -> j_n j = Some next ->
  jget (st_dirs st) next (Z.to_nat i) = Some jn -> jget (st_dirs st) new (Z.to_nat i) = Some jw ->
  new <> prev -> new <> next ->
  exists m, link_dirnode st new prev next i = Done (set_dirs st m) /\
    at_level (Z.to_nat i) (st_dirs st) m /\
    (forall d k, ptrs m d k = lane_insert (ptrs (st_dirs st)) (Z.to_nat i) new prev next d k) /\
    (forall d k, j_count <$> jget m d k = j_count <$> jget (st_dirs st) d k).
Proof.
  intros Hi Hj Hn Hjn Hjw Hnp Hnn. unfold link_dirnode. set (l := Z.to_nat i) in *.
  destruct (upd_junc_ok st prev i (set_n (Some new)) j Hj) as (m1 & -> & U1). run. fold l in U1.
  destruct (upd_junc_ok (set_dirs st m1) new i (set_p (Some prev)) jw) as (m2 & -> & U2).
  { cbn [st_dirs set_dirs]. rewrite (upd_get _ _ _ _ _ U1). fold l. by rewrite decide_False by naive_solver. }
  run. fold l in U2. cbn [st_dirs set_dirs] in U2.
  set (jn' := if decide (next = prev) then set_n (Some new) j else jn).
  destruct (upd_junc_ok (set_dirs (set_dirs st m1) m2) next i (set_p (Some new)) jn') as (m3 & -> & U3).
  { cbn [st_dirs set_dirs]. rewrite (upd_get _ _ _ _ _ U2), (upd_get _ _ _ _ _ U1). fold l. rewrite decide_False by naive_solver.
    unfold jn'. destruct (decide (next = prev)); [by rewrite decide_True | by rewrite decide_False by naive_solver]. }
  run. fold l in U3. cbn [st_dirs set_dirs] in U3.
  destruct (upd_junc_ok (set_dirs (set_dirs (set_dirs st m1) m2) m3) new i (set_n (Some next)) (set_p (Some prev) jw)) as (m4 & -> & U4).
  { cbn [st_dirs set_dirs]. rewrite (upd_get _ _ _ _ _ U3), (upd_get _ _ _ _ _ U2). fold l. rewrite decide_False by naive_solver. by rewrite decide_True. }
  fold l in U4. cbn [st_dirs set_dirs] in U4.
  exists m4. split; [done |]. split; [| split].
  - repeat (eapply at_level_trans; [by eapply updates_level |]). apply at_level_refl.
  - intros d k. rewrite (upd_ptrs _ _ _ _ _ U4), (upd_ptrs _ _ _ _ _ U3), (upd_ptrs _ _ _ _ _ U2), (upd_ptrs _ _ _ _ _ U1).
    unfold lane_insert. destruct (decide (k = l)) as [->|Hk].
    2: { rewrite !decide_False by naive_solver. done. }
    destruct (decide (d = new)) as [->|Hdn].
    { rewrite (decide_True (P := new = new /\ l = l)) by done. done. }
    rewrite !(decide_False (P := d = new /\ l = l)) by naive_solver.
    destruct (decide (d = next)) as [->|Hdx].
    + rewrite (decide_True (P := next = next /\ l = l)) by done. unfold ptrs. rewrite Hjn. unfold jn'.
      destruct (decide (next = prev)) as [->|]; simpl; [done |]. done.
    + rewrite (decide_False (P := d = next /\ l = l)) by naive_solver. destruct (decide (d = prev)) as [->|Hdp].
      * rewrite (decide_True (P := prev = prev /\ l = l)) by done. unfold ptrs. rewrite Hj. done.
      * rewrite (decide_False (P := d = prev /\ l = l)) by naive_solver. by destruct (ptrs (st_dirs st) d l) as [[??]|].
  - intros d k. rewrite (upd_get _ _ _ _ _ U4), (upd_get _ _ _ _ _ U3), (upd_get _ _ _ _ _ U2), (upd_get _ _ _ _ _ U1).
    destruct (decide (d = new /\ k = l)) as [[-> ->]|]; [by rewrite Hjw |].
    destruct (decide (d = next /\ k = l)) as [[-> ->]|].
    + rewrite Hjn. unfold jn'. destruct (decide (next = prev)) as [->|]; [| done]. by rewrite Hj in Hjn; injection Hjn as <-.
    + destruct (decide (d = prev /\ k = l)) as [[-> ->]|]; [by rewrite Hj | done].
Qed.

(** The entries of a vector take part in their lanes. *)
Definition on_lanes (m : gmap nat dirnode) (ds : list nat) : Prop := forall k d, ds !! k = Some d -> is_Some (jget m d k).

Lemma jget_down m d k k' : (k' <= k)%nat -> is_Some (jget m d k) -> is_Some (jget m d k').
Proof. intros Hk H. apply on_lane_jget. apply on_lane_jget in H. by eapply on_lane_down. Qed.

Lemma ds_path v ds i d : p_dirnode <$> v_path v = ds -> ds !! Z.to_nat i = Some d -> exists p, vpath v i = Done p /\ p_dirnode p = d.
Proof.
  intros <- H. rewrite list_lookup_fmap in H. unfold vpath. destruct (v_path v !! Z.to_nat i) as [p|]; [| done]. injection H as <-. by exists p.
Qed.

Lemma insert_steps_ok (st : state) v ds prev next i ins :
  p_dirnode <$> v_path v = ds -> on_lanes (st_dirs st) ds -> 0 <= i < zlen ds -> linked (ptrs (st_dirs st)) ->
  is_Some (jget (st_dirs st) prev (Z.to_nat i)) -> is_Some (jget (st_dirs st) next (Z.to_nat i)) ->
  exists ins', insert_steps st v prev next i ins = Done ins' /\ m_dirnode ins' = m_dirnode ins.
Proof.
  intros Hds Hlanes Hi Hl Hp Hn. unfold insert_steps. destruct (Z.ltb_spec 0 i) as [H0|H0]; [| by exists ins].
  destruct (lookup_lt_is_Some_2 ds (Z.to_nat (i - 1))) as [tmp Htmp]; [unfold zlen in *; lia |].
  destruct (ds_path v ds (i - 1) tmp Hds Htmp) as (q & -> & Eq). run. rewrite Eq.
  destruct (jget_down _ prev (Z.to_nat i) (Z.to_nat (i - 1)) ltac:(lia) Hp) as [jp Hjp].
  destruct (jget_down _ next (Z.to_nat i) (Z.to_nat (i - 1)) ltac:(lia) Hn) as [jn Hjn].
  destruct (Hlanes _ _ Htmp) as [jt Hjt]. rewrite (junc_jget st prev _ jp Hjp), (junc_jget st tmp _ jt Hjt), (junc_jget st next _ jn Hjn). run.
  assert (exists tmp2 j2, j_p jn = Some tmp2 /\ junc st tmp2 (i - 1) = Done j2) as (tmp2 & j2 & E2 & E3).
  { destruct (lk_prev _ Hl next (Z.to_nat (i - 1)) (j_n jn) (j_p jn)) as (e & -> & [w He]); [unfold ptrs; by rewrite Hjn |].
    unfold ptrs in He. destruct (jget (st_dirs st) e (Z.to_nat (i - 1))) as [j2|] eqn:Ej; [| done]. exists e, j2. split; [done |]. by apply junc_jget. }
  rewrite E2. run. rewrite E3. run. repeat case_bool_decide; run; eexists; split; reflexivity.
Qed.

(** One level of [correct_dirnodes_insert].  A new node is linked nowhere at this
    level and above it, and the counts leave room for it. *)
Record fresh_from (st : state) (new : nat) (i : nat) : Prop := {
  ff_ne : new <> O;
  ff_live : is_Some (st_dirs st !! new);
  ff_unref d k j : (i <= k)%nat -> jget (st_dirs st) d k = Some j -> j_n j <> Some new;
  ff_count k j : (i <= k)%nat -> jget (st_dirs st) 0 k = Some j -> j_count j + 1 < Z.of_nat (st_brk st)
}.

Lemma insert_plain (st : state) (i : Z) prev : good st -> is_Some (jget (st_dirs st) prev (Z.to_nat i)) ->
  exists m, upd_junc st prev i (add_step 1) = Done (set_dirs st m) /\ at_level (Z.to_nat i) (st_dirs st) m /\ good (set_dirs st m).
Proof.
  intros Hg [j Hj]. destruct (upd_junc_ok st prev i (add_step 1) j Hj) as (m & E & U). exists m. split; [done |].
  split; [by eapply updates_level |]. apply good_shape; [done | apply U | |].
  - eapply updates_linked; [exact U | exact Hj | done | done | apply Hg].
  - intros k x. rewrite (upd_get _ _ _ _ _ U). case_decide as H; [| apply (good_count _ Hg)]. intros [= <-]. destruct H as [<- ->].
    apply (good_count _ Hg _ _ Hj).
Qed.

Lemma updates_counts m m' d i j j' : updates m m' d i j' -> jget m d i = Some j -> j_count j' = j_count j ->
  forall d' k, j_count <$> jget m' d' k = j_count <$> jget m d' k.
Proof.
  intros Hu Hj Ec d' k. rewrite (upd_get _ _ _ _ _ Hu). case_decide as H; [| done]. destruct H as [-> ->]. rewrite Hj. simpl. by rewrite Ec.
Qed.

Lemma at_level_some i m m' d k : at_level i m m' -> is_Some (jget m d k) -> is_Some (jget m' d k).
Proof.
  intros [Hs _] H. apply on_lane_jget in H as (x & Hx & Hk). apply on_lane_jget.
  destruct (same_shape_lookup m m' d x) as (y & Hy & E); [by symmetry | done |]. exists y. split; [done |].
  destruct (skel_fields x y E) as (_ & _ & _ & _ & _ & _ & El). by rewrite <- El.
Qed.

Lemma insert_link (st : state) v ds (i : Z) prev new ins j :
  good st -> Z.of_nat (st_brk st) < 2 ^ 32 -> p_dirnode <$> v_path v = ds -> on_lanes (st_dirs st) ds -> 0 <= i < zlen ds -> zlen ds <= st_maxlevel st + 2 ->
  fresh_from st new (Z.to_nat i) -> new <> prev -> is_Some (jget (st_dirs st) new (Z.to_nat i)) -> jget (st_dirs st) prev (Z.to_nat i) = Some j ->
  exists m ins',
    (let* next := ok (j_n j) in
     let* st := link_dirnode st new prev next i in
     let* ins := insert_steps st v prev next i ins in
     let* st := upd_junc st prev i (set_step (m_left ins)) in
     let* st := upd_junc st new i (set_step (m_right ins)) in
     let* st := upd_junc st 0 i (fun j => set_count (u32 (j_count j + 1)) j) in
     Done (st, Some ins)) = Done (set_dirs st m, Some ins') /\
    at_level (Z.to_nat i) (st_dirs st) m /\ good (set_dirs st m) /\ m_dirnode ins' = m_dirnode ins.
Proof.
  intros Hg Hbrk Hds Hlanes Hi Hmax Hff Hne [jw Hjw] Hj. set (l := Z.to_nat i) in *.
  assert (ptrs (st_dirs st) prev l = Some (j_n j, j_p j)) as Hw by (unfold ptrs; by rewrite Hj).
  destruct (lk_next _ (good_linked _ Hg) _ _ _ _ Hw) as (next & Hn & Hnx). unfold ptrs in Hnx. rewrite fmap_is_Some in Hnx. destruct Hnx as [jn Hjn].
  assert (new <> next) as Hnn by (intros E; apply (ff_unref _ _ _ Hff prev l j); [lia | done | by rewrite Hn, E]).
  rewrite Hn. run. destruct (link_new st i new prev next j jn jw) as (m4 & -> & Hal & Hptr & Hcnt); [lia | done.. |]. run. fold l in Hal, Hptr.
  assert (linked (ptrs m4)) as Hl4.
  { eapply linked_ext; [exact Hptr |]. eapply lane_insert_linked; [apply Hg | rewrite Hn in Hw; exact Hw | apply Hff | done | done | unfold ptrs; by rewrite Hjw |].
    intros d n p H. unfold ptrs in H. destruct (jget (st_dirs st) d l) as [jd|] eqn:Ejd; [| done]. injection H as <- <-. by apply (ff_unref _ _ _ Hff d l jd). }
  assert (forall d k, is_Some (jget (st_dirs st) d k) -> is_Some (jget m4 d k)) as Hsome by (intros; by eapply at_level_some).
  destruct (insert_steps_ok (set_dirs st m4) v ds prev next i ins Hds) as (ins' & -> & Hins); cbn [st_dirs set_dirs]; [| done | done | apply Hsome; eauto.. |].
  { intros k d Hk. apply Hsome. by apply Hlanes. }
  run. destruct (Hsome prev l ltac:(eauto)) as [j5 Hj5].
  destruct (upd_junc_ok (set_dirs st m4) prev i (set_step (m_left ins')) j5 Hj5) as (m5 & -> & U5). run. fold l in U5. cbn [st_dirs set_dirs] in U5.
  pose proof (at_level_trans _ _ _ _ Hal (updates_level _ _ _ _ _ U5)) as Hal5.
  destruct (at_level_some _ _ _ new l Hal5 ltac:(eauto)) as [j6 Hj6].
  destruct (upd_junc_ok (set_dirs (set_dirs st m4) m5) new i (set_step (m_right ins')) j6 Hj6) as (m6 & -> & U6). run. fold l in U6. cbn [st_dirs set_dirs] in U6.
  pose proof (at_level_trans _ _ _ _ Hal5 (updates_level _ _ _ _ _ U6)) as Hal6.
  destruct (good_head _ Hg) as (x & Hx & Hhd & _).
  assert (forall d k, j_count <$> jget m6 d k = j_count <$> jget (st_dirs st) d k) as Hc6.
  { intros d k. rewrite (updates_counts _ _ _ _ _ _ U6 Hj6) by done. rewrite (updates_counts _ _ _ _ _ _ U5 Hj5) by done. apply Hcnt. }
  assert (is_Some (jget m6 0 l)) as [j7 Hj7].
  { apply (at_level_some _ _ _ 0 l Hal6). apply on_lane_jget. exists x. split; [done |]. pose proof (hd_junctions _ _ Hhd). unfold zlen in *. lia. }
  destruct (upd_junc_ok (set_dirs (set_dirs (set_dirs st m4) m5) m6) 0 i (fun j => set_count (u32 (j_count j + 1)) j) j7 Hj7) as (m7 & -> & U7).
  run. fold l in U7. cbn [st_dirs set_dirs] in U7. exists m7, ins'. split; [done |].
  pose proof (at_level_trans _ _ _ _ Hal6 (updates_level _ _ _ _ _ U7)) as Hal7. split; [done |]. split; [| done].
  apply good_shape; [done | apply Hal7 | |].
  - eapply updates_linked; [exact U7 | exact Hj7 | done | done |]. eapply updates_linked; [exact U6 | exact Hj6 | done | done |].
    eapply updates_linked; [exact U5 | exact Hj5 | done | done | exact Hl4].
  - intros k jk. rewrite (upd_get _ _ _ _ _ U7). case_decide as H.
    + intros [= <-]. destruct H as [_ ->]. cbn [set_count j_count]. specialize (Hc6 O l). rewrite Hj7 in Hc6.
      destruct (jget (st_dirs st) 0 l) as [j0|] eqn:Ej0; [| done]. injection Hc6 as Ec. rewrite Ec.
      pose proof (good_count _ Hg _ _ Ej0). pose proof (ff_count _ _ _ Hff l j0 ltac:(lia) Ej0). rewrite u32_id; [lia |]. unfold is_u32. lia.
    + intros Hk. specialize (Hc6 O k). rewrite Hk in Hc6. destruct (jget (st_dirs st) 0 k) as [j0|] eqn:Ej0; [| done].
      injection Hc6 as Ec. rewrite Ec. apply (good_count _ Hg _ _ Ej0).
Qed.

Lemma correct_insert_ok (st : state) v ds (i : Z) ins :
  good st -> Z.of_nat (st_brk st) < 2 ^ 32 -> p_dirnode <$> v_path v = ds -> on_lanes (st_dirs st) ds -> 0 <= i < zlen ds -> zlen ds <= st_maxlevel st + 2 ->
  (forall new, m_dirnode ins = Some new -> fresh_from st new (Z.to_nat i) /\ new ∉ ds) ->
  exists m ins', correct_dirnodes_insert st v i (Some ins) = Done (set_dirs st m, Some ins') /\
    at_level (Z.to_nat i) (st_dirs st) m /\ good (set_dirs st m) /\ m_dirnode ins' = m_dirnode ins.
Proof.
  intros Hg Hbrk Hds Hlanes Hi Hmax Hnew. destruct (lookup_lt_is_Some_2 ds (Z.to_nat i)) as [prev Hprev]; [unfold zlen in *; lia |].
  destruct (ds_path v ds i prev Hds Hprev) as (p & Ep & Ed). pose proof (Hlanes _ _ Hprev) as Hjp.
  assert (exists m, (let* st := upd_junc st prev i (add_step 1) in Done (st, Some ins)) = Done (set_dirs st m, Some ins) /\
    at_level (Z.to_nat i) (st_dirs st) m /\ good (set_dirs st m)) as (m0 & E0 & Hm0).
  { destruct (insert_plain st i prev Hg Hjp) as (m & -> & H). by exists m. }
  unfold correct_dirnodes_insert. run. rewrite Ep. run. rewrite Ed. destruct (m_dirnode ins) as [new|] eqn:En.
  2: { run. rewrite E0. exists m0, ins. naive_solver. }
  destruct (Hnew new eq_refl) as [Hff Hni]. destruct (ff_live _ _ _ Hff) as [y Hy]. rewrite (deref_Some _ _ _ Hy). run.
  destruct (Z.leb_spec i (d_level y)) as [Hle|Hgt]; [| rewrite E0; exists m0, ins; naive_solver].
  destruct Hjp as [j Hj]. rewrite (junc_jget st prev i j Hj). run.
  destruct (insert_link st v ds i prev new ins j) as (m & ins' & E & H1 & H2 & H3); try done.
  - intros ->. apply Hni. by eapply list_elem_of_lookup_2.
  - apply on_lane_jget. exists y. split; [done |]. destruct (good_head _ Hg) as (x & Hx & Hhd & Hnd).
    pose proof (nd_junctions _ _ (Hnd new y Hy (ff_ne _ _ _ Hff))). unfold zlen in *. lia.
  - exists m, ins'. rewrite E. rewrite <- En. done.
Qed.

(** ** Making a directory node *)

Lemma levelup_loop_ok (st : state) lvl n : forall ctr hlp level, good st -> Z.of_nat (st_brk st) < 2 ^ 32 ->
  0 <= ctr -> ctr + Z.of_nat n = lvl + 1 -> lvl <= st_maxlevel st -> -1 <= level <= lvl ->
  exists hlp' level', levelup_loop n st ctr hlp level = Done (hlp', level') /\ -1 <= level' <= lvl.
Proof.
  induction n as [|n IH]; intros ctr hlp level Hg Hbrk H0 Hn Hmax Hlev; [by exists hlp, level |]. cbn [levelup_loop].
  destruct (good_head _ Hg) as (x & Hx & Hhd & _).
  assert (is_Some (jget (st_dirs st) 0 (Z.to_nat ctr))) as [j Hj].
  { apply on_lane_jget. exists x. split; [done |]. pose proof (hd_junctions _ _ Hhd). unfold zlen in *. lia. }
  rewrite (junc_jget st 0 ctr j Hj). run. pose proof (good_count _ Hg _ _ Hj) as Hc.
  rewrite u32_id by (unfold is_u32; lia). destruct (Z.eqb_spec (j_count j + 1) 0); [lia |].
  destruct (IH (ctr + 1) (hlp / (j_count j + 1)) (if st_prob st <? hlp / (j_count j + 1) then ctr else level)) as (h & l & E & ?); try done; try lia.
  { case_match; lia. }
  by exists h, l.
Qed.

Lemma do_levelup_ok (st : state) A l x : good st -> Z.of_nat (st_brk st) < 2 ^ 32 ->
  ls_refines (st_store st) A -> A !! st_hdr st = Some l -> st_dirs st !! O = Some x ->
  exists level, do_levelup st = Done level /\ -1 <= level <= d_level x + 1.
Proof.
  intros Hg Hbrk HR HA Hx. unfold do_levelup. destruct (ls_count_spec _ A _ l HR HA) as [-> _]. run.
  destruct (good_head _ Hg) as (x' & Hx' & Hhd & _). rewrite Hx in Hx'. injection Hx' as <-. pose proof (hd_level _ _ Hhd).
  case_match; [| exists 0; split; [done | lia]]. rewrite (deref_Some _ _ _ Hx). run.
  destruct (levelup_loop_ok st (d_level x) (Z.to_nat (d_level x + 1)) 0 (u32 (zlen l)) (-1)) as (h & lv & -> & ?); try done; try lia.
  run. eexists. split; [reflexivity |]. case_match; lia.
Qed.

(** [st'] is [st] with a new directory node for [e], which is in no lane yet. *)
Record made (st st' : state) (e : nat) : Prop := {
  made_store : st_store st' = st_store st;
  made_hdr : st_hdr st' = st_hdr st;
  made_max : st_maxlevel st' = st_maxlevel st;
  made_brk : st_brk st' = Datatypes.S (st_brk st);
  made_good : good st';
  made_fresh : fresh_from st' (st_brk st) 0;
  made_new : exists y, st_dirs st' !! st_brk st = Some y /\ d_lock y = 0 /\ d_lockers y = 0 /\ d_list y = Some e;
  made_old d y : d <> st_brk st -> st_dirs st' !! d = Some y -> exists z, st_dirs st !! d = Some z /\
    d_lock y = d_lock z /\ d_lockers y = d_lockers z /\ d_list y = d_list z;
  made_lanes d i : d <> st_brk st -> jget (st_dirs st') d i = jget (st_dirs st) d i
}.

Lemma made_list (st st' : state) e e' y : made st st' e -> st_dirs st' !! st_brk st = Some y ->
  made st (set_dirs st' (<[st_brk st := set_list (Some e') y]> (st_dirs st'))) e'.
Proof.
  intros Hm Hy. set (m := <[st_brk st := set_list (Some e') y]> (st_dirs st')).
  assert (forall d, core <$> m !! d = core <$> st_dirs st' !! d) as Hc.
  { intros d. unfold m. destruct (decide (d = st_brk st)) as [->|]; [by rewrite lookup_insert_eq, Hy | by rewrite lookup_insert_ne]. }
  assert (forall d i, jget m d i = jget (st_dirs st') d i) as Hj.
  { intros d i. specialize (Hc d). unfold jget. destruct (m !! d), (st_dirs st' !! d); try done. injection Hc as _ _ _ E. opt. by rewrite E. }
  split; cbn [set_dirs st_store st_hdr st_maxlevel st_brk st_dirs]; try apply Hm.
  - apply good_core; [apply Hm | done].
  - destruct (made_fresh _ _ _ Hm) as [H1 H2 H3 H4]. split; cbn [st_dirs set_dirs st_brk]; [done | | |].
    + unfold m. rewrite lookup_insert_eq. by eexists.
    + intros d k j. rewrite Hj. apply H3.
    + intros k j. rewrite Hj. apply H4.
  - exists (set_list (Some e') y). unfold m. rewrite lookup_insert_eq. destruct (made_new _ _ _ Hm) as (y' & Hy' & ? & ? & _).
    rewrite Hy in Hy'. injection Hy' as <-. done.
  - intros d z Hne. unfold m. rewrite lookup_insert_ne by done. by apply (made_old _ _ _ Hm).
  - intros d i Hne. rewrite Hj. by apply (made_lanes _ _ _ Hm).
Qed.

(** The node of [create_sl_dirnode], with its element. *)
Definition new_dirnode (level : Z) (e : nat) : dirnode :=
  mk_dirnode (Some e) _DIRNODE_FLAG_ALLOC 0 0 level (Some CompareUser) (replicate (Z.to_nat (level + 1)) (mk_junction 0 (Some O) (Some O) 0)).

Definition with_node (st : state) (m : gmap nat dirnode) : state :=
  mk_skiplist (st_ops st) (st_prob st) (st_flags st) (st_maxlevel st) (st_size st) (st_hdr st) (st_store st) m (Datatypes.S (st_brk st)).

Lemma new_dirnode_linked (st : state) m level e :
  good st -> 0 <= level <= st_maxlevel st ->
  (forall d i, jget m d i = if decide (d = st_brk st) then d_junction (new_dirnode level e) !! i else jget (st_dirs st) d i) ->
  linked (ptrs m).
Proof.
  intros Hg Hlev Hj. pose proof (good_linked _ Hg) as Hl. destruct (good_head _ Hg) as (x & Hx & Hhd & _).
  assert (0 < st_brk st)%nat as Hb by (apply (good_fresh _ Hg); by rewrite Hx).
  assert (forall d i, is_Some (jget (st_dirs st) d i) -> d <> st_brk st) as Hold.
  { intros d i H ->. apply on_lane_jget in H as (y & Hy & _). pose proof (good_fresh _ Hg (st_brk st) ltac:(by rewrite Hy)). lia. }
  assert (forall d i n p, ptrs m d i = Some (n, p) -> (d = st_brk st /\ n = Some O /\ p = Some O /\ is_Some (ptrs (st_dirs st) 0 i)) \/
    (d <> st_brk st /\ ptrs (st_dirs st) d i = Some (n, p))) as Hcase.
  { intros d i n p. unfold ptrs at 1. rewrite Hj. case_decide as Hd; [| right; done]. intros H. left. cbn in H.
    destruct (replicate (Z.to_nat (level + 1)) (mk_junction 0 (Some O) (Some O) 0) !! i) as [j|] eqn:E; [| done].
    apply lookup_replicate in E as [-> Hi]. injection H as <- <-. repeat split; [done.. |]. unfold ptrs. rewrite fmap_is_Some.
    apply on_lane_jget. exists x. split; [done |]. pose proof (hd_junctions _ _ Hhd). unfold zlen in *. lia. }
  assert (forall d i, is_Some (ptrs (st_dirs st) d i) -> ptrs m d i = ptrs (st_dirs st) d i) as Hsame.
  { intros d i H. unfold ptrs in *. rewrite fmap_is_Some in H. rewrite Hj, decide_False; [done | by eapply Hold]. }
  split.
  - intros d i n p H. destruct (Hcase _ _ _ _ H) as [(-> & -> & _ & H0) | [_ Ho]]; [exists O; by rewrite Hsame |].
    destruct (lk_next _ Hl _ _ _ _ Ho) as (f & -> & Hf). exists f. by rewrite Hsame.
  - intros d i n p H. destruct (Hcase _ _ _ _ H) as [(-> & _ & -> & H0) | [_ Ho]]; [exists O; by rewrite Hsame |].
    destruct (lk_prev _ Hl _ _ _ _ Ho) as (f & -> & Hf). exists f. by rewrite Hsame.
  - intros d i f p n' p' H Hf Hn. destruct (Hcase _ _ _ _ H) as [(-> & [=] & _) | [_ Ho]]; [done |].
    destruct (lk_next _ Hl _ _ _ _ Ho) as (f' & [= <-] & Hf'). rewrite (Hsame f i Hf') in Hn. by eapply (lk_inverse _ Hl).
Qed.

Lemma make_node (st : state) x level e : good st -> st_dirs st !! O = Some x -> 0 <= level <= st_maxlevel st ->
  let x' := if d_level x <? level then set_level level x else x in
  made st (with_node st (<[O := x']> (<[st_brk st := new_dirnode level e]> (st_dirs st)))) e.
Proof.
  intros Hg Hx Hlev x'. destruct (good_head _ Hg) as (x0 & Hx0 & Hhd & Hnd). rewrite Hx in Hx0. injection Hx0 as <-.
  assert (0 < st_brk st)%nat as Hb by (apply (good_fresh _ Hg); by rewrite Hx). set (new := st_brk st) in *.
  set (m := <[O := x']> (<[new := new_dirnode level e]> (st_dirs st))).
  assert (d_junction x' = d_junction x /\ d_lock x' = d_lock x /\ d_lockers x' = d_lockers x /\ d_list x' = d_list x /\ d_compare x' = d_compare x /\
    d_flags x' = d_flags x /\ d_level x <= d_level x' <= st_maxlevel st /\ level <= d_level x') as (E1 & E2 & E3 & E4 & E5 & E6 & E7 & E8).
  { pose proof (hd_level _ _ Hhd). unfold x'. destruct (Z.ltb_spec (d_level x) level); cbn; repeat split; lia. }
  assert (forall d i, jget m d i = if decide (d = new) then d_junction (new_dirnode level e) !! i else jget (st_dirs st) d i) as Hj.
  { intros d i. unfold jget, m. destruct (decide (d = O)) as [->|].
    - rewrite lookup_insert_eq, decide_False by lia. rewrite Hx. opt. by rewrite E1.
    - rewrite lookup_insert_ne by done. case_decide as Hd; [subst d; by rewrite lookup_insert_eq | by rewrite lookup_insert_ne]. }
  assert (forall d y, d <> O -> d <> new -> m !! d = Some y -> st_dirs st !! d = Some y) as Hold
    by (intros d y ? ?; unfold m; by rewrite !lookup_insert_ne).
  assert (m !! new = Some (new_dirnode level e)) as Hnew by (unfold m; rewrite lookup_insert_ne by lia; by rewrite lookup_insert_eq).
  assert (m !! O = Some x') as Hm0 by (unfold m; by rewrite lookup_insert_eq).
  split; cbn [with_node st_store st_hdr st_maxlevel st_brk st_dirs]; try done.
  - split; cbn [with_node st_ops st_maxlevel st_brk st_dirs st_prob]; [apply Hg | | | | | apply Hg].
    + exists x'. split; [done |]. split.
      * destruct Hhd. split; rewrite ?E1, ?E5, ?E6; try done. lia.
      * intros d y Hy Hne. destruct (decide (d = new)) as [->|Hdn].
        -- rewrite Hnew in Hy. injection Hy as <-. split; cbn; [done | lia | unfold zlen; rewrite length_replicate; lia | done].
        -- destruct (Hnd d y (Hold d y Hne Hdn Hy) Hne). split; try done. lia.
    + intros d [y Hy]. destruct (decide (d = O)) as [->|Hne]; [lia |]. destruct (decide (d = new)) as [->|Hdn]; [lia |].
      pose proof (good_fresh _ Hg d ltac:(by rewrite (Hold d y Hne Hdn Hy))). lia.
    + by apply (new_dirnode_linked st m level e).
    + intros i j. rewrite Hj, decide_False by lia. intros H. pose proof (good_count _ Hg _ _ H). lia.
  - split; cbn [with_node st_dirs st_brk]; [lia | by exists (new_dirnode level e) | |].
    + intros d k j _. rewrite Hj. case_decide as Hd.
      * cbn. intros [-> _]%lookup_replicate. cbn. intros [=]. lia.
      * intros H Hn. destruct (lk_next _ (good_linked _ Hg) d k (j_n j) (j_p j)) as (f & Ef & Hf); [unfold ptrs; by rewrite H |].
        rewrite Hn in Ef. injection Ef as <-. unfold ptrs in Hf. rewrite fmap_is_Some in Hf. apply on_lane_jget in Hf as (y & Hy & _).
        pose proof (good_fresh _ Hg new ltac:(by exists y)). lia.
    + intros k j _. rewrite Hj, decide_False by lia. intros H. pose proof (good_count _ Hg _ _ H). lia.
  - by exists (new_dirnode level e).
  - intros d y Hne Hy. destruct (decide (d = O)) as [->|H0]; [| exists y; by rewrite (Hold d y)].
    rewrite Hm0 in Hy. injection Hy as <-. by exists x.
  - intros d i Hne. rewrite Hj. by rewrite decide_False.
Qed.

Lemma insert_sl_dirnode_ok (st : state) A l mem e ins : good st -> Z.of_nat (st_brk st) < 2 ^ 32 ->
  ls_refines (st_store st) A -> A !! st_hdr st = Some l ->
  exists st' ins', insert_sl_dirnode mem st e ins = Done (st', ins') /\
    ((st' = st /\ m_dirnode ins' = m_dirnode ins) \/ (made st st' e /\ m_dirnode ins' = Some (st_brk st))).
Proof.
  intros Hg Hbrk HR HA. destruct (good_head _ Hg) as (x & Hx & Hhd & _). pose proof (hd_level _ _ Hhd). pose proof (hd_max _ _ Hhd).
  unfold insert_sl_dirnode. destruct (do_levelup_ok st A l x Hg Hbrk HR HA Hx) as (lv & -> & Hlv). run.
  destruct (Z.leb_spec 0 lv); [| eexists _, _; split; [reflexivity | by left]].
  set (level := if st_maxlevel st <? lv then st_maxlevel st else lv).
  assert (0 <= level <= st_maxlevel st) as Hlevel by (unfold level; bdestr; lia).
  destruct mem; [| eexists _, _; split; [reflexivity | by left]].
  assert (0 < st_brk st)%nat as Hb by (apply (good_fresh _ Hg); by rewrite Hx).
  unfold create_sl_dirnode, _init_sl_dirnode, zero_dirnode. cbn [d_junction].
  assert (zlen (replicate (Z.to_nat (level + 1)) zero_junction) = level + 1) as Hz by (unfold zlen; rewrite length_replicate; lia).
  rewrite Hz. destruct (Z.leb_spec (level + 1) (level + 1)); [| lia]. run. rewrite drop_ge by (rewrite length_replicate; lia). rewrite app_nil_r.
  unfold upd_dir at 1, deref at 1. cbn [st_dirs]. rewrite lookup_insert_eq. run. unfold deref at 1. cbn [set_dirs st_dirs].
  rewrite insert_insert_eq, lookup_insert_ne, Hx by lia. run.
  rewrite (good_ops _ Hg). replace (u16 (level + 1 - 1)) with level by (unfold u16; rewrite Z.mod_small; lia).
  pose proof (make_node st x level e Hg Hx Hlevel) as Hmade. unfold new_dirnode, with_node in Hmade. cbn zeta in Hmade. rewrite (good_ops _ Hg) in Hmade.
  destruct (Z.ltb_spec (d_level x) level) as [Hlt|Hge]; run.
  - unfold upd_dir, deref. cbn [set_dirs st_dirs]. rewrite lookup_insert_ne, Hx by lia. run.
    eexists _, _. split; [reflexivity |]. right. split; [exact Hmade | done].
  - eexists _, _. split; [reflexivity |]. right. split; [| done]. rewrite insert_id in Hmade by (rewrite lookup_insert_ne by lia; done). exact Hmade.
Qed.

(** One step of the loops: the node takes the neighbour [f] of its element. *)
Lemma made_step (st st' : state) e f : made st st' e ->
  exists y, deref st' (st_brk st) = Done y /\ d_list y = Some e /\
    exists st'', upd_dir st' (st_brk st) (set_list (Some f)) = Done st'' /\ made st st'' f.
Proof.
  intros Hm. destruct (made_new _ _ _ Hm) as (y & Hy & _ & _ & Hl). exists y. rewrite (deref_Some _ _ _ Hy). split; [done |]. split; [done |].
  unfold upd_dir. rewrite (deref_Some _ _ _ Hy). run. eexists. split; [reflexivity |]. by eapply made_list.
Qed.

Section Moves.
Context (st : state) (A : gmap nat (list nat)) (l : list nat).
Context (HR : ls_refines (st_store st) A) (HA : A !! st_hdr st = Some l).

Lemma move_left_made fuel : forall st' m l1 e l2, made st st' e -> l = l1 ++ e :: l2 -> m_dirnode m = Some (st_brk st) -> (length l1 < fuel)%nat ->
  exists st'' m' e', move_sl_dirnode_left fuel st' m = Done (st'', m') /\ made st st'' e' /\ e' ∈ l /\ m_dirnode m' = m_dirnode m.
Proof.
  induction fuel as [|fuel IH]; intros st' m l1 e l2 Hm Hl Hd Hf; [lia |]. cbn [move_sl_dirnode_left]. rewrite Hd.
  assert (e ∈ l) as He by (rewrite Hl; set_solver). case_match; [| by exists st', m, e].
  run. destruct l1 as [|f l1 _] using rev_ind.
  - destruct (made_step st st' e e Hm) as (y & -> & Hy & _). run. rewrite Hy. run.
    rewrite (made_store _ _ _ Hm), (ls_prev_spec _ A (st_hdr st) [] e l2) by (try done; by rewrite <- Hl). run. by exists st', m, e.
  - destruct (made_step st st' e f Hm) as (y & -> & Hy & st'' & E & Hm''). run. rewrite Hy. run.
    rewrite (made_store _ _ _ Hm), (ls_prev_spec _ A (st_hdr st) (l1 ++ [f]) e l2), last_snoc by (try done; by rewrite <- Hl). run.
    rewrite (bool_decide_eq_false_2 (Some f = None)) by done. simpl orb. case_bool_decide; [by exists st', m, e |].
    rewrite E. run. rewrite length_app in Hf. simpl in Hf.
    destruct (IH st'' (mk_move (m_flags m) (m_dirnode m) (u32 (m_left m - 1)) (u32 (m_right m + 1)) (m_step m - 1) (m_list m)) l1 f (e :: l2) Hm'')
      as (s2 & m2 & e2 & ? & ? & ? & ?); [rewrite Hl, <- app_assoc; done | done | lia |]. rewrite Hd in *. by exists s2, m2, e2.
Qed.

Lemma move_right_made fuel : forall st' m l1 e l2, made st st' e -> l = l1 ++ e :: l2 -> m_dirnode m = Some (st_brk st) -> (length l2 < fuel)%nat ->
  exists st'' m' e', move_sl_dirnode_right fuel st' m = Done (st'', m') /\ made st st'' e' /\ e' ∈ l /\ m_dirnode m' = m_dirnode m.
Proof.
  induction fuel as [|fuel IH]; intros st' m l1 e l2 Hm Hl Hd Hf; [lia |]. cbn [move_sl_dirnode_right]. rewrite Hd.
  assert (e ∈ l) as He by (rewrite Hl; set_solver). case_match; [| by exists st', m, e].
  run. destruct l2 as [|f l2].
  - destruct (made_step st st' e e Hm) as (y & -> & Hy & _). run. rewrite Hy. run.
    rewrite (made_store _ _ _ Hm), (ls_next_spec _ A (st_hdr st) l1 e []) by (try done; by rewrite <- Hl). run. by exists st', m, e.
  - destruct (made_step st st' e f Hm) as (y & -> & Hy & st'' & E & Hm''). run. rewrite Hy. run.
    rewrite (made_store _ _ _ Hm), (ls_next_spec _ A (st_hdr st) l1 e (f :: l2)) by (try done; by rewrite <- Hl). run. cbn [head].
    rewrite (bool_decide_eq_false_2 (Some f = None)) by done. simpl orb. case_bool_decide; [by exists st', m, e |].
    rewrite E. run. simpl in Hf.
    destruct (IH st'' (mk_move (m_flags m) (m_dirnode m) (u32 (m_left m + 1)) (u32 (m_right m - 1)) (m_step m + 1) (m_list m)) (l1 ++ [e]) f l2 Hm'')
      as (s2 & m2 & e2 & ? & ? & ? & ?); [rewrite Hl, <- app_assoc; done | done | lia |]. rewrite Hd in *. by exists s2, m2, e2.
Qed.

(** Whatever the steps are: no node, or one for an element of the list. *)
Lemma insert_dirnode_ok mem fuel e ins : good st -> Z.of_nat (st_brk st) < 2 ^ 32 -> e ∈ l -> (length l < fuel)%nat -> m_dirnode ins = None ->
  exists st' ins', insert_dirnode mem fuel st e ins = Done (st', ins') /\
    ((st' = st /\ m_dirnode ins' = None) \/ (m_dirnode ins' = Some (st_brk st) /\ exists e', e' ∈ l /\ made st st' e')).
Proof.
  intros Hg Hbrk He Hf Hi. unfold insert_dirnode. pose proof He as (l1 & l2 & Hl)%list_elem_of_split.
  assert (length l1 < fuel /\ length l2 < fuel)%nat as [Hf1 Hf2] by (rewrite Hl, length_app in Hf; simpl in Hf; lia).
  destruct (insert_sl_dirnode_ok st A l mem e ins Hg Hbrk HR HA) as (st1 & ins1 & E1 & Hcase).
  assert (m_dirnode ins1 = None -> st1 = st) as Hnone by (destruct Hcase as [[? _]|[_ H]]; [done | by rewrite H]).
  assert (forall P, m_dirnode ins1 = Some P -> made st st1 e /\ m_dirnode ins1 = Some (st_brk st)) as Hsome
    by (intros P HP; destruct Hcase as [[_ H]|[? ?]]; [rewrite H, Hi in HP; done | done]).
  assert (exists st' ins', Done (st1, ins1) = Done (st', ins') /\
    ((st' = st /\ m_dirnode ins' = None) \/ (m_dirnode ins' = Some (st_brk st) /\ exists e', e' ∈ l /\ made st st' e'))) as Hplain.
  { exists st1, ins1. split; [done |]. destruct Hcase as [[-> ->]|[? ?]]; [by left | right; split; [done | by exists e]]. }
  case_match; [by rewrite E1 |]. case_match; [| exists st, ins; split; [done | by left]].
  case_match.
  - unfold insert_sl_dirnode_left. rewrite E1. run. case_bool_decide as Hb; [exact Hplain |]. destruct (m_dirnode ins1) as [d|] eqn:Ed; [| done].
    destruct (Hsome d eq_refl) as [Hmade [= ->]]. destruct (move_left_made fuel st1 ins1 l1 e l2 Hmade Hl Ed Hf1) as (s2 & m2 & e2 & -> & ? & ? & Hd).
    exists s2, m2. split; [done |]. right. rewrite Hd. split; [done | by exists e2].
  - case_match; [| exists st, ins; split; [done | by left]].
    unfold insert_sl_dirnode_right. rewrite E1. run. case_bool_decide as Hb; [exact Hplain |]. destruct (m_dirnode ins1) as [d|] eqn:Ed; [| done].
    destruct (Hsome d eq_refl) as [Hmade [= ->]]. destruct (move_right_made fuel st1 ins1 l1 e l2 Hmade Hl Ed Hf2) as (s2 & m2 & e2 & -> & ? & ? & Hd).
    exists s2, m2. split; [done |]. right. rewrite Hd. split; [done | by exists e2].
Qed.

End Moves.

(** ** The write lock *)

Lemma holds_one d l : (forall i j p q, l !! i = Some p -> l !! j = Some q -> p_lock p <> 0 -> p_lock q <> 0 -> p_dirnode p = d -> p_dirnode q = d -> i = j) ->
  holds d l <= 1.
Proof.
  induction l as [|p l IH]; intros H; [done |]. simpl.
  assert (holds d l <= 1) as Hl by (apply IH; intros i j x y Hx Hy Hlx Hly Hdx Hdy; pose proof (H (Datatypes.S i) (Datatypes.S j) x y Hx Hy Hlx Hly Hdx Hdy); lia).
  unfold held_by. destruct (Z.eqb_spec (p_lock p) 0) as [|Hp]; [simpl; lia |]. simpl. case_bool_decide as Hd; [| lia].
  assert (forall q, q ∈ l -> p_lock q <> 0 -> p_dirnode q <> d) as Hno.
  { intros q (j & Hj)%list_elem_of_lookup Hq Hqd. by pose proof (H O (Datatypes.S j) p q eq_refl Hj Hp Hq Hd Hqd). }
  clear -Hno. assert (holds d l = 0) as ->; [| lia]. induction l as [|q l IH]; [done |]. simpl. rewrite IH by (intros; apply Hno; set_solver).
  unfold held_by. destruct (Z.eqb_spec (p_lock q) 0) as [|Hq]; [done |]. simpl. rewrite bool_decide_eq_false_2; [done |]. apply Hno; [set_solver | done].
Qed.

Lemma hold_one ex (st0 st : state) v lvl d : hold ex st0 st v lvl -> holds d (v_path v) <= 1.
Proof.
  intros Hh. apply holds_one. intros i j p q Hi Hj Hp Hq Hpd Hqd.
  destruct (hold_shape _ _ _ _ _ Hh i p Hi Hp) as [[? ?]|[? ?]], (hold_shape _ _ _ _ _ Hh j q Hj Hq) as [[? ?]|[? ?]]; try lia; congruence.
Qed.

Lemma hold_lockset ex (st0 st : state) v lvl (i : nat) p fl : hold ex st0 st v lvl -> v_path v !! i = Some p ->
  hold ex st0 st (with_path v (<[i := set_plock fl (p_lock p) p]> (v_path v))) lvl.
Proof.
  intros Hh Hp. constructor; cbn [with_path v_path v_level v_maxlevel]; try apply Hh.
  - intros d x Hx. rewrite (holds_insert d _ _ p _ Hp), (held_by_eq d (set_plock fl (p_lock p) p) p) by done.
    destruct (hold_locks _ _ _ _ _ Hh d x Hx) as [? ->]. split; [done | lia].
  - unfold zlen. rewrite length_insert. apply Hh.
  - intros k q [(<- & <- & _) | [_ Hq]]%list_lookup_insert_Some; [by apply (hold_lane _ _ _ _ _ Hh) in Hp | by apply (hold_lane _ _ _ _ _ Hh)].
  - intros k q [(<- & <- & _) | [_ Hq]]%list_lookup_insert_Some; [apply (hold_shape _ _ _ _ _ Hh i p Hp) | by apply (hold_shape _ _ _ _ _ Hh)].
  - intros k q Hex [(<- & <- & _) | [_ Hq]]%list_lookup_insert_Some; [by apply (hold_ex _ _ _ _ _ Hh i p) | by eapply (hold_ex _ _ _ _ _ Hh)].
Qed.

Lemma upgrade_path_ok ex (st0 st : state) v lvl i p : hold ex st0 st v lvl -> v_path v !! Z.to_nat i = Some p ->
  exists fl, upgrade_readlock_vector_path st v i = Done (0, st, with_path v (<[Z.to_nat i := set_plock fl (p_lock p) p]> (v_path v))).
Proof.
  intros Hh Hp. destruct (on_lane_lookup _ _ _ _ _ _ _ Hh (hold_lane _ _ _ _ _ Hh _ _ Hp)) as [y Hy]. set (d := p_dirnode p) in *.
  destruct (hold_locks _ _ _ _ _ Hh d y Hy) as [Hl Hk]. pose proof (hold_one _ _ _ _ _ d Hh) as H1. pose proof (holds_range d (v_path v)) as H0.
  unfold upgrade_readlock_vector_path, upgrade_enter, vpath. rewrite Hp. run. fold d. rewrite (deref_Some _ _ _ Hy). run. rewrite Hl. cbn [has Z.land].
  change (has 0 _DIRNODE_LOCK_PREWRITE) with false. cbn match. unfold upd_dir. rewrite (deref_Some _ _ _ Hy). run.
  unfold upgrade_finish, vpath. rewrite Hp. run. fold d. unfold deref at 1. cbn [set_dirs st_dirs]. rewrite lookup_insert_eq. run. cbn [set_lock d_lockers].
  rewrite Hk. destruct (Z.ltb_spec 1 (holds d (v_path v))); [lia |]. unfold upd_dir, deref. cbn [set_dirs st_dirs]. rewrite lookup_insert_eq. run.
  rewrite (upd_path_Some v i _ p Hp). run. eexists. do 3 f_equal. rewrite insert_insert_eq.
  match goal with |- set_dirs ?s (<[d := ?y']> ?m) = _ => replace y' with y end.
  - rewrite (insert_id (st_dirs st) d y) by done. by destruct st.
  - destruct y as [a b c k e f g]. cbn in Hl, Hk |- *. subst c. unfold set_lock, set_lockers. cbn. f_equal.
    subst k. rewrite (u32_id (holds d (v_path v) + 1)) by (unfold is_u32; lia). rewrite u32_id by (unfold is_u32; lia). lia.
Qed.

Lemma upgrade_levels_ok ex (st0 st : state) lvl dirnode n : forall v (i : nat), hold ex st0 st v lvl -> (i + n = length (v_path v))%nat ->
  exists v', upgrade_levels n st v dirnode false (Z.of_nat i) = Done (0, st, v') /\ hold ex st0 st v' lvl /\ v_level v' = v_level v /\
    p_dirnode <$> v_path v' = p_dirnode <$> v_path v.
Proof.
  induction n as [|n IH]; intros v i Hh Hn; [by exists v |]. cbn [upgrade_levels].
  destruct (lookup_lt_is_Some_2 (v_path v) i) as [p Hp]; [lia |]. unfold vpath. rewrite Nat2Z.id, Hp. run. cbn [andb]. run. rewrite ?Nat2Z.id, ?Hp. run.
  replace (Z.of_nat i + 1) with (Z.of_nat (Datatypes.S i)) by lia. destruct (Z.eqb_spec (p_lock p) 0) as [H0|H0]; [apply IH; [done | lia] |].
  destruct (upgrade_path_ok ex st0 st v lvl (Z.of_nat i) p Hh) as (fl & ->); [by rewrite Nat2Z.id |]. rewrite Nat2Z.id. run.
  set (v1 := with_path v _). destruct (IH v1 (Datatypes.S i)) as (v' & E & Hh' & Hl' & Hp').
  - by apply hold_lockset.
  - cbn. rewrite length_insert. lia.
  - exists v'. split; [exact E |]. split; [done |]. split; [done |]. rewrite Hp'. cbn [v1 with_path v_path]. rewrite list_fmap_insert. cbn.
    apply list_insert_id. by rewrite list_lookup_fmap, Hp.
Qed.

(** ** The interface for writers

    What the callbacks that change the list need of the lock functions. *)
Class Writable (ex : bool) (lo : lockops (S := S)) : Prop := {
  lo_lockable :: Lockable ex lo;
  lo_upgrade_ok st0 st v lvl : hold ex st0 st v lvl -> v_level v = 0 ->
    exists v', lo_upgrade lo st v false = Done (0, st, v') /\ hold ex st0 st v' lvl /\ v_level v' = 0 /\
      p_dirnode <$> v_path v' = p_dirnode <$> v_path v;
  lo_insert_ok st v ins ds : good st -> Z.of_nat (st_brk st) < 2 ^ 32 -> p_dirnode <$> v_path v = ds -> on_lanes (st_dirs st) ds ->
    zlen ds <= st_maxlevel st + 2 -> zlen ds < 2 ^ 32 -> v_level v = 0 -> v_maxlevel v + 1 = zlen ds -> accounted (st_dirs st) (v_path v) ->
    (ex = true -> quiet (st_dirs st)) ->
    (forall new, m_dirnode ins = Some new -> fresh_from st new 0 /\ new ∉ ds) ->
    exists st' v' mv, lo_remove lo st v correct_dirnodes_insert (Some ins) = Done (st', v', mv) /\
      good st' /\ quiet (st_dirs st') /\ st' = set_dirs st (st_dirs st') /\ (forall d, d_list <$> st_dirs st' !! d = d_list <$> st_dirs st !! d) /\
      (ex = true -> st' = st)
}.

Lemma strip_list m m' d : strip m = strip m' -> d_list <$> m !! d = d_list <$> m' !! d.
Proof.
  intros E. destruct (m !! d) as [x|] eqn:Hx.
  - destruct (strip_lookup m m' d x E Hx) as (y & -> & ->). by destruct y.
  - apply (f_equal (fun m => m !! d)) in E. unfold strip in E. rewrite !lookup_fmap, Hx in E. by destruct (m' !! d).
Qed.

Lemma fresh_strip (st : state) m new i : fresh_from st new i -> strip m = strip (st_dirs st) -> fresh_from (set_dirs st m) new i.
Proof.
  intros [H1 [y Hy] H3 H4] Hs. split; cbn [set_dirs st_dirs st_brk]; [done | | |].
  - destruct (strip_lookup (st_dirs st) m new y) as (z & Hz & _); [done | done |]. by exists z.
  - intros d k j Hk. rewrite (jget_strip m (st_dirs st)) by done. by apply H3.
  - intros k j Hk. rewrite (jget_strip m (st_dirs st)) by done. by apply H4.
Qed.

Lemma fresh_level (st : state) m new (i : nat) : fresh_from st new i -> at_level i (st_dirs st) m -> fresh_from (set_dirs st m) new (Datatypes.S i).
Proof.
  intros [H1 [y Hy] H3 H4] [Hs Ho]. split; cbn [set_dirs st_dirs st_brk]; [done | | |].
  - destruct (same_shape_lookup (st_dirs st) m new y) as (z & Hz & _); [done | done |]. by exists z.
  - intros d k j Hk. rewrite Ho by lia. apply H3. lia.
  - intros k j Hk. rewrite Ho by lia. apply H4. lia.
Qed.

Lemma shape_accounted m m' l : same_shape m' m -> accounted m l -> accounted m' l.
Proof.
  intros Hs Ha d x Hx. destruct (same_shape_lookup m' m d x Hs Hx) as (y & Hy & E). destruct (skel_fields x y E) as (_ & _ & E1 & E2 & _).
  rewrite E1, E2. by apply Ha.
Qed.

Lemma shape_list m m' d : same_shape m' m -> d_list <$> m' !! d = d_list <$> m !! d.
Proof.
  intros Hs. apply (f_equal (fun m => m !! d)) in Hs. rewrite !lookup_fmap in Hs. destruct (m' !! d) as [x|], (m !! d) as [y|]; try done.
  change (Some (skel x) = Some (skel y)) in Hs. assert (skel x = skel y) as E by congruence. destruct (skel_fields x y E) as (E0 & _). simpl. by rewrite E0.
Qed.

Lemma default_insert (st : state) v ins ds : good st -> Z.of_nat (st_brk st) < 2 ^ 32 -> p_dirnode <$> v_path v = ds -> on_lanes (st_dirs st) ds ->
  zlen ds <= st_maxlevel st + 2 -> zlen ds < 2 ^ 32 -> v_level v = 0 -> v_maxlevel v + 1 = zlen ds -> accounted (st_dirs st) (v_path v) ->
  (forall new, m_dirnode ins = Some new -> fresh_from st new 0 /\ new ∉ ds) ->
  exists st' v' mv, remove_lock_vector st v correct_dirnodes_insert (Some ins) = Done (st', v', mv) /\
    good st' /\ quiet (st_dirs st') /\ st' = set_dirs st (st_dirs st') /\ (forall d, d_list <$> st_dirs st' !! d = d_list <$> st_dirs st !! d).
Proof.
  intros Hg Hbrk Hds Hlanes Hmax Hlen Hv0 Hvmax Hacc Hnew. unfold remove_lock_vector.
  assert (levels v = length ds) as -> by (unfold levels, zlen in *; rewrite Hv0; lia). rewrite Hv0. change 0 with (Z.of_nat 0).
  set (I := fun (i : Z) (s : state) (mv : option move_dirnode) => 0 <= i /\ exists ins', mv = Some ins' /\ m_dirnode ins' = m_dirnode ins /\
    s = set_dirs st (st_dirs s) /\ good s /\ on_lanes (st_dirs s) ds /\
    (forall new, m_dirnode ins = Some new -> fresh_from s new (Z.to_nat i)) /\ (forall d, d_list <$> st_dirs s !! d = d_list <$> st_dirs st !! d)).
  destruct (unlock_spec correct_dirnodes_insert I ds) with (n := length ds) (st := st) (v := v) (mv := Some ins) (i := O)
    as (st' & v' & mv' & E & (_ & ins' & _ & _ & H1 & H2 & _ & _ & H3) & H4); try done.
  - intros i s m mv (Hi & ins' & -> & Hd & Hs & Hgs & Hl & Hf & Hls) Hm. split; [done |]. exists ins'. split; [done |]. split; [done |].
    split; [by rewrite Hs |]. split; [by apply good_strip |]. split; [| split].
    + intros k d Hk. cbn [set_dirs st_dirs]. rewrite (jget_strip m (st_dirs s)) by done. by apply Hl.
    + intros new Hnw. apply fresh_strip; [by apply Hf | done].
    + intros d. cbn [set_dirs st_dirs]. rewrite (strip_list m (st_dirs s)) by done. apply Hls.
  - intros i s w mv l Hw Hi (_ & ins' & -> & Hd & Hs & Hgs & Hl & Hf & Hls) Ha Hhd.
    assert (st_brk s = st_brk st /\ st_maxlevel s = st_maxlevel st) as [Eb Em] by (rewrite Hs; done).
    destruct (correct_insert_ok s w ds i ins') as (m & ins2 & E & Hal & Hgm & Hd2); [done | by rewrite Eb | done | done | done | by rewrite Em | |].
    { rewrite Hd. intros new Hnw. split; [by apply Hf | by apply Hnew]. }
    exists (set_dirs s m), (Some ins2). split; [exact E |].
    assert (forall d k, is_Some (jget (st_dirs s) d k) -> is_Some (jget m d k)) as Hsome by (intros; by eapply at_level_some).
    split; [| split].
    + split; [lia |]. exists ins2. split; [done |]. split; [congruence |]. cbn [set_dirs st_dirs]. split; [by rewrite Hs |]. split; [done |]. split; [| split].
      * intros k d Hk. apply Hsome. by apply Hl.
      * intros new Hnw. replace (Z.to_nat (i + 1)) with (Datatypes.S (Z.to_nat i)) by lia. apply fresh_level; [by apply Hf | done].
      * intros d. rewrite (shape_list (st_dirs s) m) by apply Hal. apply Hls.
    + cbn [set_dirs st_dirs]. apply (shape_accounted (st_dirs s)); [apply Hal | done].
    + intros p Hp _. specialize (Hhd p Hp). symmetry in Hhd. specialize (Hsome _ _ (Hl _ _ Hhd)). apply on_lane_jget in Hsome as (y & Hy & _).
      cbn [set_dirs st_dirs]. by exists y.
  - split; [done |]. exists ins. do 2 (split; [done |]). split; [by destruct st |]. do 2 (split; [done |]). split; [| done]. intros new Hnw. by apply Hnew.
  - exists st', v', mv'. done.
Qed.

#[export] Instance default_writable : Writable false sl_default_lockops.
Proof.
  split; cbn [sl_default_lockops lo_upgrade lo_remove].
  - apply default_lockable_inst.
  - intros st0 st v lvl Hh H0. unfold upgrade_readlock_vector. destruct (path_Some _ _ _ _ _ 0 Hh) as [p Hp]; [destruct (hold_level _ _ _ _ _ Hh); lia |].
    unfold vpath. rewrite Hp. run. rewrite (hold_levels _ _ _ _ _ Hh H0), H0. change 0 with (Z.of_nat 0).
    destruct (upgrade_levels_ok false st0 st lvl (p_dirnode p) (length (v_path v)) v 0 Hh eq_refl) as (v' & E & H1 & H2 & H3). exists v'.
    split; [exact E |]. split; [done |]. split; [by rewrite H2 | done].
  - intros st v ins ds Hg H1 H2 H3 H4 H5 H6 H7 H8 _ H9. destruct (default_insert st v ins ds Hg H1 H2 H3 H4 H5 H6 H7 H8 H9) as (st' & v' & mv & ? & ? & ? & ? & ?).
    by exists st', v', mv.
Qed.

#[export] Instance nolock_writable : Writable true sl_nolock_lockops.
Proof.
  split; cbn [sl_nolock_lockops lo_upgrade lo_remove].
  - apply nolock_lockable_inst.
  - intros st0 st v lvl Hh H0. by exists v.
  - intros st v ins ds Hg _ _ _ _ _ _ _ _ Hq _. exists st, v, (Some ins). split; [done |]. split; [done |]. split; [by apply Hq |].
    split; [by destruct st |]. done.
Qed.

(** ** The insertion *)

(** Every directory node is at an element of the list: true as long as nothing is
    deleted. *)
Definition pointed (l : list nat) (m : gmap nat dirnode) : Prop :=
  forall d y, d <> O -> m !! d = Some y -> exists f, d_list y = Some f /\ f ∈ l.

(** A skip list between two calls, its list being [l]. *)
Record sound (st : state) (A : gmap nat (list nat)) (l : list nat) : Prop := {
  sound_good : good st;
  sound_quiet : quiet (st_dirs st);
  sound_store : ls_refines (st_store st) A;
  sound_list : A !! st_hdr st = Some l
}.

Lemma good_store (st : state) x : good st -> good (set_store st x).
Proof. by intros [H1 H2 H3 H4 H5 H6]. Qed.

Lemma holds_none d l : (forall p, p ∈ l -> p_lock p <> 0 -> p_dirnode p <> d) -> holds d l = 0.
Proof.
  induction l as [|p l IH]; intros H; [done |]. simpl. rewrite IH by (intros; apply H; [set_solver | done]). unfold held_by.
  destruct (Z.eqb_spec (p_lock p) 0) as [|Hp]; [done |]. simpl. rewrite bool_decide_eq_false_2; [done |]. apply H; [set_solver | done].
Qed.

(** The state of a call, with the changes of the list and of the lanes so far. *)
Record pending (ex : bool) (st0 s : state) (v : vector) (lvl : Z) : Prop := {
  pd_good : good s;
  pd_brk : Z.of_nat (st_brk s) < 2 ^ 32;
  pd_lanes : on_lanes (st_dirs s) (p_dirnode <$> v_path v);
  pd_len : zlen (p_dirnode <$> v_path v) = lvl + 2;
  pd_max : lvl <= st_maxlevel s;
  pd_level : v_level v = 0;
  pd_vmax : v_maxlevel v = lvl + 1;
  pd_acc : accounted (st_dirs s) (v_path v);
  pd_ex : ex = true -> quiet (st_dirs s);
  pd_old d : d ∈ p_dirnode <$> v_path v -> is_Some (st_dirs st0 !! d)
}.

Lemma pending_start ex (st0 s : state) v lvl x : good st0 -> st_dirs st0 !! O = Some x -> d_level x = lvl -> Z.of_nat (st_brk st0) < 2 ^ 32 ->
  hold ex st0 s v lvl -> v_level v = 0 -> pending ex st0 s v lvl.
Proof.
  intros Hg Hx Hlvl Hbrk Hh H0. destruct (good_head _ Hg) as (x' & Hx' & Hhd & _). rewrite Hx in Hx'. injection Hx' as <-.
  pose proof (hd_level _ _ Hhd) as Hlev.
  assert (st_brk s = st_brk st0 /\ st_maxlevel s = st_maxlevel st0) as [Eb Em] by (rewrite (hold_frame _ _ _ _ _ Hh); done).
  assert (forall k d, (p_dirnode <$> v_path v) !! k = Some d -> is_Some (jget (st_dirs st0) d k)) as Hl.
  { intros k d Hk. rewrite list_lookup_fmap in Hk. destruct (v_path v !! k) as [p|] eqn:Hp; [| done]. injection Hk as <-.
    apply on_lane_jget. by apply (hold_lane _ _ _ _ _ Hh). }
  split.
  - rewrite (hold_frame _ _ _ _ _ Hh). apply good_strip; [done | apply Hh].
  - by rewrite Eb.
  - intros k d Hk. rewrite (jget_strip (st_dirs s) (st_dirs st0)) by apply Hh. by apply Hl.
  - unfold zlen. rewrite length_fmap. apply Hh.
  - rewrite Em. lia.
  - done.
  - apply Hh.
  - exact (hold_locks _ _ _ _ _ Hh).
  - intros Hex d y Hy. destruct (hold_locks _ _ _ _ _ Hh d y Hy) as [? ->]. split; [done |]. apply holds_none.
    intros p (i & Hi)%list_elem_of_lookup Hp. by destruct Hp; apply (hold_ex _ _ _ _ _ Hh i p).
  - intros d (k & Hk)%list_elem_of_lookup. apply Hl in Hk. apply on_lane_jget in Hk as (y & Hy & _). by exists y.
Qed.

(** The end of an insertion: [st] is the state at the unlocking. *)
Lemma finish_insert ex lo `{!Writable ex lo} (st0 s : state) v lvl ins : pending ex st0 s v lvl -> lvl + 2 < 2 ^ 16 ->
  (forall new, m_dirnode ins = Some new -> fresh_from s new 0 /\ st_dirs st0 !! new = None) ->
  exists s' v' mv, lo_remove lo s v correct_dirnodes_insert (Some ins) = Done (s', v', mv) /\
    good s' /\ quiet (st_dirs s') /\ s' = set_dirs s (st_dirs s') /\ (forall d, d_list <$> st_dirs s' !! d = d_list <$> st_dirs s !! d) /\ (ex = true -> s' = s).
Proof.
  intros [] Hb Hnew. apply (lo_insert_ok s v ins (p_dirnode <$> v_path v)); try done; try lia.
  intros new Hn. destruct (Hnew new Hn) as [Hf Hnone]. split; [done |]. intros Hin. destruct (pd_old0 new Hin) as [y Hy]. congruence.
Qed.

(** A new node leaves the call in order. *)
Lemma pending_made ex (st0 s s' : state) v lvl e : pending ex st0 s v lvl -> st_brk s = st_brk st0 -> good st0 ->
  Z.of_nat (st_brk s) + 1 < 2 ^ 32 -> made s s' e -> pending ex st0 s' v lvl.
Proof.
  intros [] Eb Hg0 Hbrk Hm.
  assert (forall d, d ∈ p_dirnode <$> v_path v -> d <> st_brk s) as Hne.
  { intros d Hd ->. pose proof (good_fresh _ Hg0 _ (pd_old0 _ Hd)). lia. }
  split; try done.
  - apply Hm.
  - rewrite (made_brk _ _ _ Hm). lia.
  - intros k d Hk. rewrite (made_lanes _ _ _ Hm) by (apply Hne; by eapply list_elem_of_lookup_2). by apply pd_lanes0.
  - by rewrite (made_max _ _ _ Hm).
  - intros d y Hy. destruct (decide (d = st_brk s)) as [->|Hd].
    + destruct (made_new _ _ _ Hm) as (y' & Hy' & H1 & H2 & _). rewrite Hy in Hy'. injection Hy' as <-. rewrite H1, H2. split; [done |].
      symmetry. apply holds_none. intros p Hp _ E. apply (Hne (p_dirnode p)); [by apply list_elem_of_fmap_2 | done].
    + destruct (made_old _ _ _ Hm d y Hd Hy) as (z & Hz & -> & -> & _). by apply pd_acc0.
  - intros Hex d y Hy. destruct (decide (d = st_brk s)) as [->|Hd].
    + destruct (made_new _ _ _ Hm) as (y' & Hy' & H1 & H2 & _). rewrite Hy in Hy'. by injection Hy' as <-.
    + destruct (made_old _ _ _ Hm d y Hd Hy) as (z & Hz & -> & -> & _). by apply (pd_ex0 Hex d z).
Qed.

Lemma made_pointed (s s' : state) l l' e : pointed l (st_dirs s) -> (forall f, f ∈ l -> f ∈ l') -> made s s' e -> e ∈ l' -> pointed l' (st_dirs s').
Proof.
  intros Hp Hsub Hm He d y Hne Hy. destruct (decide (d = st_brk s)) as [->|Hd].
  - destruct (made_new _ _ _ Hm) as (y' & Hy' & _ & _ & Hl). rewrite Hy in Hy'. injection Hy' as <-. by exists e.
  - destruct (made_old _ _ _ Hm d y Hd Hy) as (z & Hz & _ & _ & ->). destruct (Hp d z Hne Hz) as (f & ? & ?). eauto.
Qed.

Lemma list_pointed l m m' : pointed l m -> (forall d, d_list <$> m' !! d = d_list <$> m !! d) -> pointed l m'.
Proof.
  intros Hp He d y Hne Hy. specialize (He d). rewrite Hy in He. destruct (m !! d) as [z|] eqn:Hz; [| done]. injection He as He.
  rewrite He. by apply (Hp d z).
Qed.

(** What an insertion leaves: at most one node more; without locks the lanes stay
    as they were. *)
Record later (ex : bool) (st st' : state) : Prop := {
  later_hdr : st_hdr st' = st_hdr st;
  later_max : st_maxlevel st' = st_maxlevel st;
  later_brk : (st_brk st' <= Datatypes.S (st_brk st))%nat;
  later_bare : ex = true -> bare (st_dirs st) -> bare (st_dirs st')
}.

(** The head of the lanes, seen through [jget]. *)
Lemma bare_jget (m : gmap nat dirnode) : bare m <-> forall i j, jget m 0 i = Some j -> j_n j = Some O /\ j_p j = Some O.
Proof.
  unfold bare, jget. split.
  - intros H i j. destruct (m !! O) as [x|] eqn:Hx; opt; [| done]. by apply (H x).
  - intros H x i j Hx Hj. apply (H i j). rewrite Hx. by opt.
Qed.

(** From the choice of a directory node to the end. *)
Lemma insert_rest ex lo `{!Writable ex lo} (st0 s : state) v lvl A l l' e ins mem fuel (r : searchresult) :
  pending ex st0 s v lvl -> st_brk s = st_brk st0 -> good st0 -> Z.of_nat (st_brk s) + 1 < 2 ^ 32 -> lvl + 2 < 2 ^ 16 ->
  ls_refines (st_store s) A -> A !! st_hdr s = Some l' -> e ∈ l' -> (length l' < fuel)%nat -> m_dirnode ins = None ->
  (forall f, f ∈ l -> f ∈ l') ->
  exists s', (let* (st, ins) := insert_dirnode mem fuel s e ins in
              let* (st, _, _) := lo_remove lo st v correct_dirnodes_insert (Some ins) in Done (st, r)) = Done (s', r) /\
    sound s' A l' /\ later ex s s' /\ st_store s' = st_store s /\ (pointed l (st_dirs s) -> pointed l' (st_dirs s')).
Proof.
  intros Hpd Eb Hg0 Hbrk Hb HR HA He Hf Hi Hsub.
  destruct (insert_dirnode_ok s A l' HR HA mem fuel e ins) as (s1 & ins1 & -> & Hcase); [apply Hpd | lia | done.. |]. run.
  assert (pending ex st0 s1 v lvl /\ st_store s1 = st_store s /\ later ex s s1 /\ (pointed l (st_dirs s) -> pointed l' (st_dirs s1)) /\
    (forall new, m_dirnode ins1 = Some new -> fresh_from s1 new 0 /\ st_dirs st0 !! new = None)) as (Hpd1 & Es & Hlat & Hp1 & Hnew).
  { destruct Hcase as [[-> ->] | (-> & e' & He' & Hm)].
    - split; [done |]. split; [done |]. split; [split; [done | done | lia | done] |]. split; [| done]. intros Hp d y Hd Hy. destruct (Hp d y Hd Hy) as (f & ? & ?). eauto.
    - split; [by eapply pending_made |]. split; [apply Hm |].
      split; [split; [apply Hm | apply Hm | rewrite (made_brk _ _ _ Hm); lia |] |].
      { intros _. rewrite !bare_jget. intros Hbare i j. rewrite (made_lanes _ _ _ Hm); [apply Hbare |]. pose proof (ff_ne _ _ _ (made_fresh _ _ _ Hm)). congruence. }
      split; [intros; by eapply made_pointed |].
      intros new [= <-]. split; [apply Hm |]. destruct (st_dirs st0 !! st_brk s) eqn:Hx; [| done].
      pose proof (good_fresh _ Hg0 (st_brk s) ltac:(by rewrite Hx)). lia. }
  destruct (finish_insert ex lo st0 s1 v lvl ins1 Hpd1 Hb Hnew) as (s' & v' & mv & -> & Hg & Hq & Hfr & Hls & Hsame). run. exists s'. split; [done |].
  assert (st_store s' = st_store s /\ later ex s s') as [Es' Hlat'].
  { rewrite Hfr. split; [done |]. destruct Hlat as [H1 H2 H3 H4]. split; [done | done | done |]. intros Hex Hb0. cbn [set_dirs st_dirs]. rewrite (Hsame Hex). auto. }
  pose proof (later_hdr _ _ _ Hlat') as Eh'. split; [split; [done | done | by rewrite Es' | by rewrite Eh'] |]. split; [done |]. split; [done |].
  intros Hp. eapply list_pointed; [by apply Hp1 | done].
Qed.

Lemma ordered_insert {L} (compare : nat -> L -> Z) `{!Ordering compare} gle `{!Insertable compare gle} k e l1 l2 :
  gle k = Some e -> ordered compare (l1 ++ l2) -> Forall (fun a => compare a k < 0) l1 -> Forall (fun b => 0 < compare b k) l2 ->
  ordered compare (l1 ++ e :: l2).
Proof.
  intros He. unfold ordered. induction l1 as [|a l1 IH]; simpl; intros Hs H1 H2.
  - constructor; [done |]. eapply Forall_impl; [exact H2 |]. intros b Hb. by eapply element_before.
  - apply Forall_cons_1 in H1 as [Ha H1]. apply StronglySorted_inv in Hs as [Hs Hf]. constructor; [by apply IH |].
    apply Forall_app in Hf as [Hf1 Hf2]. apply Forall_app. split; [done |]. constructor; [by eapply element_after | done].
Qed.

(** How the element found splits the list. *)
Lemma place_split {L} (compare : nat -> L -> Z) `{!Ordering compare} l k fl f : ordered compare l -> place compare l k fl f ->
  (forall e, e ∈ l -> compare e k <> 0) ->
  exists l1 l2, l = l1 ++ l2 /\ Forall (fun a => compare a k < 0) l1 /\ Forall (fun b => 0 < compare b k) l2 /\
    ((fl = SL_SEARCHRESULT_FLAG_EMPTY /\ l = []) \/
     (exists e l3, f = Some e /\ l2 = e :: l3 /\ exists fl', fl' ∈ [0; SL_SEARCHRESULT_FLAG_FIRST] /\ fl = Z.lor SL_SEARCHRESULT_FLAG_NOENT (Z.lor fl' SL_SEARCHRESULT_FLAG_BEFORE)) \/
     (exists e l0, f = Some e /\ l1 = l0 ++ [e] /\ l2 = [] /\ fl = Z.lor SL_SEARCHRESULT_FLAG_NOENT (Z.lor SL_SEARCHRESULT_FLAG_LAST SL_SEARCHRESULT_FLAG_AFTER))).
Proof.
  intros Hord Hp Hno. destruct Hp as [-> | l1 e l2 fl [-> Hb] He Hfl | l1 e l2 fl [-> Hb] He Hfl | l1 e [-> Hb] He].
  - exists [], []. split; [done |]. split; [constructor |]. split; [constructor |]. by left.
  - exfalso. eapply Hno; [| exact He]. set_solver.
  - exists l1, (e :: l2). split; [done |]. split; [done |]. split.
    + constructor; [done |]. apply (ordered_key compare l1 e l2 k Hord). lia.
    + right. left. exists e, l2. split; [done |]. split; [done |]. by exists fl.
  - exists (l1 ++ [e]), []. rewrite app_nil_r. split; [done |]. split; [apply Forall_app; split; [done | by constructor] |]. split; [constructor |].
    right. right. by exists e, l1.
Qed.

Section Insert.
Context {L : Type} (compare : nat -> L -> Z) `{!Ordering compare} (gle : L -> option nat) `{!Insertable compare gle}.
Context (ex : bool) (lo : lockops (S := S)) `{!Writable ex lo}.

Lemma pending_store (st0 s : state) v lvl x : pending ex st0 s v lvl -> pending ex st0 (set_store s x) v lvl.
Proof. intros []. split; try done. by apply good_store. Qed.

(** Storing a step: the links and the counts stay. *)
Lemma pending_updates (st0 s : state) v lvl d i j j' m : pending ex st0 s v lvl -> updates (st_dirs s) m d i j' -> jget (st_dirs s) d i = Some j ->
  j_n j' = j_n j -> j_p j' = j_p j -> j_count j' = j_count j -> pending ex st0 (set_dirs s m) v lvl.
Proof.
  intros [] U Hj En Ep Ec. pose proof (updates_level _ _ _ _ _ U) as Hal. split; try done; cbn [set_dirs st_dirs].
  - apply good_shape; [done | apply Hal | eapply updates_linked; [exact U | exact Hj | done | done | apply pd_good0] |].
    intros k jk. rewrite (upd_get _ _ _ _ _ U). case_decide as Hd; [| apply (good_count _ pd_good0)]. intros [= <-]. destruct Hd as [<- ->].
    rewrite Ec. apply (good_count _ pd_good0 _ _ Hj).
  - intros k dk Hk. eapply at_level_some; [exact Hal | by apply pd_lanes0].
  - eapply shape_accounted; [apply Hal | done].
  - intros Hx dk y Hy. destruct (same_shape_lookup m (st_dirs s) dk y (al_shape _ _ _ Hal) Hy) as (z & Hz & E).
    destruct (skel_fields y z E) as (_ & _ & -> & -> & _). by apply (pd_ex0 Hx dk z).
Qed.

(** The first element. *)
Lemma insert_first (st0 s : state) A A' e v lvl x s1 : pending ex st0 s v lvl -> lvl + 2 < 2 ^ 16 -> st_dirs s !! O = Some x ->
  is_head (st_maxlevel s) x -> ls_refines s1 A' -> A' = <[st_hdr s := [e]]> A ->
  forall r : searchresult, exists s', (let* st := upd_junc (set_store s s1) 0 0 (set_step 1) in
    let* (st, _, _) := lo_remove lo st v correct_dirnodes_insert (Some no_move) in Done (st, r)) = Done (s', r) /\ sound s' A' [e] /\ later ex s s' /\ st_store s' = s1 /\
    (pointed [] (st_dirs s) -> pointed [e] (st_dirs s')).
Proof.
  intros Hpd Hb Hx Hhd HR -> r.
  assert (is_Some (jget (st_dirs s) 0 (Z.to_nat 0))) as [j0 Hj0].
  { apply on_lane_jget. exists x. split; [done |]. pose proof (hd_junctions _ _ Hhd). pose proof (hd_level _ _ Hhd). unfold zlen in *. lia. }
  destruct (upd_junc_ok (set_store s s1) 0 0 (set_step 1) j0 Hj0) as (m & -> & U). run. cbn [set_store st_dirs] in U.
  pose proof (pending_updates st0 (set_store s s1) v lvl _ _ j0 _ m (pending_store _ _ _ _ s1 Hpd) U Hj0 eq_refl eq_refl eq_refl) as Hpd2.
  destruct (finish_insert ex lo st0 _ v lvl no_move Hpd2 Hb ltac:(done)) as (s' & v' & mv & -> & Hg' & Hq' & Hfr & Hls & Hsame). run.
  assert (st_store s' = s1 /\ later ex s s') as [Es' Hlat].
  { rewrite Hfr. split; [done |]. split; cbn [set_dirs st_dirs st_hdr st_maxlevel st_brk set_store]; [done | done | lia |]. intros Hex. rewrite (Hsame Hex), !bare_jget.
    cbn [set_dirs st_dirs]. intros Hbare i j. rewrite (upd_get _ _ _ _ _ U). case_decide as Hd; [| apply Hbare]. intros [= <-]. apply (Hbare _ _ Hj0). }
  pose proof (later_hdr _ _ _ Hlat) as Eh'. exists s'. split; [done |].
  split; [split; [done | done | by rewrite Es' | rewrite Eh'; by rewrite lookup_insert_eq] |]. split; [done |]. split; [done |]. intros Hpt.
  eapply list_pointed; [| exact Hls]. cbn [set_dirs st_dirs]. intros di yi Hd Hyi. exfalso.
  destruct (same_shape_lookup m (st_dirs s) di yi (upd_shape _ _ _ _ _ U) Hyi) as (zi & Hzi & _). destruct (Hpt di zi Hd Hzi) as (? & _ & ?). set_solver.
Qed.

Lemma insert_cb_new (st0 s : state) A l k v d fl r mem fuel e x :
  sound st0 A l -> ordered compare l -> st_dirs st0 !! O = Some x -> arrived ex st0 s v (d_level x) d ->
  place compare l k fl (r_found r) -> r_flags r = Z.lor (mode ex) fl -> (forall f, f ∈ l -> compare f k <> 0) ->
  gle k = Some e -> ls_alloc (st_store st0) e -> unused A e -> is_u64 (zlen l + 1) ->
  Z.of_nat (st_brk st0) + 1 < 2 ^ 32 -> (Datatypes.S (length l) < fuel)%nat ->
  exists s' r' l1 l2, sl_insert_cb gle mem fuel k s lo v r = Done (s', r') /\ l = l1 ++ l2 /\
    Forall (fun a => compare a k < 0) l1 /\ Forall (fun b => 0 < compare b k) l2 /\
    sound s' (<[st_hdr st0 := l1 ++ e :: l2]> A) (l1 ++ e :: l2) /\ later ex st0 s' /\
    r_found r' = Some e /\ r_flags r' = Z.lor (r_flags r) SL_SEARCHRESULT_FLAG_OK /\
    (forall f, ls_alloc (st_store st0) f -> ls_alloc (st_store s') f) /\ (pointed l (st_dirs st0) -> pointed (l1 ++ e :: l2) (st_dirs s')).
Proof.
  intros [Hg Hq HR HA] Hord Hx (Hh & H0 & Hcur) Hplace Hfl Hno He Ha Hu Hw Hbrk Hfuel.
  destruct (hold_level _ _ _ _ _ Hh) as [Hlev Hb].
  assert (has (r_flags r) SL_SEARCHRESULT_FLAG_EXACT = false) as Hex.
  { destruct (place_exact compare l k fl (r_found r) ex Hord Hplace) as [[H _] _]. rewrite Hfl.
    destruct (has (Z.lor (mode ex) fl) SL_SEARCHRESULT_FLAG_EXACT); [| done]. destruct (H eq_refl) as (f & Hf & Hf0). by destruct (Hno f Hf). }
  destruct (place_split compare l k fl (r_found r) Hord Hplace Hno) as (l1 & l2 & Hl & H1 & H2 & Hcase).
  unfold sl_insert_cb. rewrite Hex. destruct (lo_upgrade_ok st0 s v (d_level x) Hh H0) as (v1 & -> & Hh1 & Hl1 & Hds). run. cbn [negb].
  change (negb (0 =? 0)) with false. cbn match.
  assert (st_store s = st_store st0 /\ st_hdr s = st_hdr st0 /\ st_ops s = true /\ st_brk s = st_brk st0) as (Es & Eh & Eo & Eb)
    by (rewrite (hold_frame _ _ _ _ _ Hh); cbn; rewrite (good_ops _ Hg); done).
  assert (forall s', later ex s s' -> later ex st0 s') as Hlater.
  { intros s' [H3 H4 H5 H6]. rewrite Eh in H3. rewrite Eb in H5. split; [done | | done |]; [rewrite H4, (hold_frame _ _ _ _ _ Hh); done |].
    intros Hx1 Hb1. apply H6; [done |]. rewrite bare_jget in Hb1 |- *. intros i j. rewrite (jget_strip (st_dirs s) (st_dirs st0)) by apply Hh. apply Hb1. }
  rewrite Eo, He, Es, Eh. cbn [negb]. cbn match.
  pose proof (pending_start ex st0 s v1 (d_level x) x Hg Hx eq_refl ltac:(lia) Hh1 Hl1) as Hpd.
  destruct (path_Some _ _ _ _ _ 0 Hh1 ltac:(lia)) as [p Hp]. unfold vpath. rewrite Hp. run.
  destruct (pd_lanes _ _ _ _ _ Hpd O (p_dirnode p)) as [j Hj]; [change O with (Z.to_nat 0); by rewrite list_lookup_fmap, Hp |].
  assert (pointed l (st_dirs st0) -> pointed l (st_dirs s)) as Hpt1.
  { intros Hpt. eapply list_pointed; [exact Hpt |]. intros f. apply strip_list. apply Hh1. }
  assert (forall f, f ∈ l -> f ∈ l1 ++ e :: l2) as Hsub by (rewrite Hl; set_solver).
  assert (forall s1 A' r1 ins, ls_refines s1 A' -> A' = <[st_hdr st0 := l1 ++ e :: l2]> A -> m_dirnode ins = None ->
    r_found r1 = Some e -> r_flags r1 = Z.lor (r_flags r) SL_SEARCHRESULT_FLAG_OK -> (forall f, ls_alloc (st_store st0) f -> ls_alloc s1 f) ->
    exists s' r' l1 l2, (let* (st, ins) := insert_dirnode mem fuel (set_store s s1) e ins in
      let* (st, _, _) := lo_remove lo st v1 correct_dirnodes_insert (Some ins) in Done (st, r1)) = Done (s', r') /\ l = l1 ++ l2 /\
      Forall (fun a => compare a k < 0) l1 /\ Forall (fun b => 0 < compare b k) l2 /\
      sound s' (<[st_hdr st0 := l1 ++ e :: l2]> A) (l1 ++ e :: l2) /\ later ex st0 s' /\
      r_found r' = Some e /\ r_flags r' = Z.lor (r_flags r) SL_SEARCHRESULT_FLAG_OK /\ (forall f, ls_alloc (st_store st0) f -> ls_alloc (st_store s') f) /\
      (pointed l (st_dirs st0) -> pointed (l1 ++ e :: l2) (st_dirs s'))) as Hrest.
  { intros s1 A' r1 ins HR1 -> Hi Hr1 Hr2 Hal.
    destruct (insert_rest ex lo st0 (set_store s s1) v1 (d_level x) (<[st_hdr st0 := l1 ++ e :: l2]> A) l (l1 ++ e :: l2) e ins mem fuel r1) as (s' & -> & Hs & Hh' & Est & Hpt);
      cbn [set_store st_brk st_store st_hdr st_dirs]; try done; try lia.
    - by apply pending_store.
    - rewrite Eh. by rewrite lookup_insert_eq.
    - set_solver.
    - rewrite Hl in Hfuel. rewrite length_app in *. simpl. lia.
    - exists s', r1, l1, l2. split; [done |]. split; [done |]. split; [done |]. split; [done |]. split; [done |]. split; [apply Hlater; destruct Hh'; by split |]. rewrite Est. split; [done |]. split; [done |]. split; [done |]. auto. }
  destruct Hcase as [[-> ->] | [(f & l3 & Hf & -> & fl' & Hfl' & ->) | (f & l0 & Hf & -> & -> & ->)]].
  - symmetry in Hl. apply app_eq_nil in Hl as [-> ->].
    replace (has (r_flags r) SL_SEARCHRESULT_FLAG_EMPTY) with true by (rewrite Hfl; by destruct ex).
    destruct (ls_add_first_spec _ A (st_hdr st0) [] e HR HA Ha Hu Hw) as (s1 & -> & HR1 & Hkeep). run.
    destruct (good_head _ (pd_good _ _ _ _ _ Hpd)) as (x' & Hx' & Hhd & _).
    destruct (insert_first st0 s A _ e v1 (d_level x) x' s1 Hpd Hb Hx' Hhd HR1 ltac:(by rewrite Eh)
      (add_flags SL_SEARCHRESULT_FLAG_OK (set_found (Some e) r))) as (s' & E & Hs & Hh' & Est & Hpt). rewrite E.
    do 2 eexists. exists [], []. split; [reflexivity |]. split; [done |]. split; [constructor |]. split; [constructor |]. split; [done |].
    split; [by apply Hlater |]. split; [done |]. split; [done |]. rewrite Est. split; [intros f; apply Hkeep | auto].
  - assert (has (r_flags r) SL_SEARCHRESULT_FLAG_EMPTY = false /\ has (r_flags r) SL_SEARCHRESULT_FLAG_BEFORE = true) as [-> ->].
    { rewrite Hfl. repeat (apply elem_of_cons in Hfl' as [-> | Hfl']; [by destruct ex |]). set_solver. }
    rewrite Hf. run. destruct (ls_add_before_spec _ A (st_hdr st0) l1 f l3 e HR) as (s1 & -> & HR1 & Hkeep); [by rewrite HA, Hl | done | done | by rewrite <- Hl |]. run.
    rewrite (junc_jget s (p_dirnode p) 0 j) by done. run. eapply Hrest; [exact HR1 | done | done | done | done | intros g; apply Hkeep].
  - replace (has (r_flags r) SL_SEARCHRESULT_FLAG_EMPTY) with false by (rewrite Hfl; by destruct ex).
    replace (has (r_flags r) SL_SEARCHRESULT_FLAG_BEFORE) with false by (rewrite Hfl; by destruct ex).
    replace (has (r_flags r) SL_SEARCHRESULT_FLAG_AFTER) with true by (rewrite Hfl; by destruct ex).
    rewrite app_nil_r in Hl. rewrite Hf. run.
    destruct (ls_add_after_spec _ A (st_hdr st0) l0 f [] e HR) as (s1 & -> & HR1 & Hkeep); [by rewrite HA, Hl | done | done | by rewrite <- Hl |]. run.
    rewrite (junc_jget s (p_dirnode p) 0 j) by done. run. eapply Hrest; [exact HR1 | by rewrite <- app_assoc | done | done | done | intros g; apply Hkeep].
Qed.

End Insert.

End Good.
End SkipInsert.
