(* ===== verification/SkipSorted.v ===== *)
(** * lib/sl: a skip list is a sorted list

    Creating a skip list gives the empty one; finding and inserting, with and
    without locks and in any order, implement the operations of a sorted list; in
    exclusive use, which is how the repository uses it, deleting too, and every
    history of calls is one of the sorted list.  What the lanes hold does not matter
    for that, because the search compares the element it stands at and never the
    elements of the lanes: the end of the file shows what becomes of the lanes. *)

From Stdlib Require Import Sorting.Sorted.
From stdpp Require Import base list list_numbers numbers option gmap.
From S2P Require Import Prelude SimpleList ListStore SkipList SkipFind SkipInsert.
Import SimpleList ListStore SkipList SkipFind SkipInsert.

Module SkipSorted.

Section Created.
Context {S : Type} `{!ListStore S, !SortedStore S}.
Context (sizeof_sl sizeof_junction : Z) (Hsl : 0 < sizeof_sl) (Hsj : 0 < sizeof_junction).

Lemma size_lanes maxlanes : 1 <= maxlanes <= 254 -> sizeof_sl + 256 * sizeof_junction < 2 ^ 31 ->
  let size := fst (get_size_sl_skiplist sizeof_sl sizeof_junction maxlanes) in
  size = sizeof_sl + (maxlanes + 1) * sizeof_junction /\ 0 < size < 2 ^ 31 /\
  (size - sizeof_sl) / sizeof_junction = maxlanes + 1 /\ calc_nrlanes_from_size sizeof_sl sizeof_junction size = maxlanes.
Proof.
  intros Hm Hs size. unfold size, get_size_sl_skiplist, calc_nrlanes_from_size. destruct (Z.eqb_spec maxlanes 0) as [|Hm0]; [lia |]. cbn [fst].
  rewrite u32_id by (unfold is_u32; nia). set (n := sizeof_sl + (maxlanes + 1) * sizeof_junction).
  assert ((n - sizeof_sl) / sizeof_junction = maxlanes + 1) as E by (unfold n; rewrite Z.add_simpl_l; apply Z.div_mul; lia).
  split; [done |]. split; [unfold n; nia |]. split; [done |].
  assert (forall x, 0 <= x <= n -> sgn 32 x = x /\ u64 x = x) as Hn by (intros x Hx; unfold sgn, u64; rewrite !Z.mod_small; unfold n in Hx; nia).
  destruct (Hn n) as [-> ->]; [unfold n; nia |]. destruct (Z.leb_spec n sizeof_sl); [unfold n in *; nia |].
  destruct (Hn (n - sizeof_sl)) as [-> ->]; [unfold n in *; nia |]. rewrite E. unfold u8. rewrite (Z.mod_small (maxlanes + 1)) by lia.
  destruct (Z.leb_spec (maxlanes + 1) 1); [lia |]. rewrite Z.mod_small; lia.
Qed.

Definition root_junction := mk_junction 0 (Some O) (Some O) 0.

Lemma init_junctions_ok n : forall (st : skiplist S) x (i : nat), st_dirs st !! O = Some x -> (i + n <= length (d_junction x))%nat ->
  Forall (eq root_junction) (d_junction x) -> init_junctions n st (Z.of_nat i) = Done st.
Proof.
  induction n as [|n IH]; intros st x i Hx Hn Hj; [done |]. cbn [init_junctions]. unfold upd_junc. rewrite (deref_Some _ _ _ Hx). run.
  destruct (lookup_lt_is_Some_2 (d_junction x) i) as [j Hi]; [lia |]. rewrite Nat2Z.id, Hi. run.
  pose proof (proj1 (Forall_lookup _ _) Hj i j Hi) as <-. change (set_p (Some O) (set_n (Some O) root_junction)) with root_junction.
  rewrite list_insert_id by done. replace (set_junctions (d_junction x) x) with x by (by destruct x). rewrite insert_id by done. rewrite set_dirs_id.
  replace (Z.of_nat i + 1) with (Z.of_nat (Datatypes.S i)) by lia. by apply (IH st x); [| lia |].
Qed.

Lemma root_linked (x : dirnode) : Forall (eq root_junction) (d_junction x) -> linked (ptrs {[O := x]}).
Proof.
  intros Hj. assert (forall d i n p, ptrs {[O := x]} d i = Some (n, p) -> d = O /\ n = Some O /\ p = Some O) as H.
  { intros d i n p. unfold ptrs, jget. destruct (decide (d = O)) as [->|Hd]; [| by rewrite lookup_singleton_ne].
    rewrite lookup_singleton_eq. opt. destruct (d_junction x !! i) as [j|] eqn:E; [| done].
    pose proof (proj1 (Forall_lookup _ _) Hj i j E) as <-. intros [= <- <-]. done. }
  split.
  - intros d i n p Hw. destruct (H _ _ _ _ Hw) as (-> & -> & ->). exists O. split; [done |]. by rewrite Hw.
  - intros d i n p Hw. destruct (H _ _ _ _ Hw) as (-> & -> & ->). exists O. split; [done |]. by rewrite Hw.
  - intros d i e p n' p' Hw He. destruct (H _ _ _ _ Hw) as (-> & [= ->] & ->). done.
Qed.

(** Memory for a skip list of [maxlanes] lanes: of the caller, or none. *)
Inductive memory_for (x : S) (h : nat) (size : Z) : option (skiplist S) -> Prop :=
  | MemoryNone : memory_for x h size None
  | MemoryGiven : memory_for x h size (Some (zeroed sizeof_sl sizeof_junction x h size)).

(** The head after [create_sl_skiplist]. *)
Definition root_dirnode (maxlanes : Z) : dirnode :=
  mk_dirnode None (Z.lor 0 _DIRNODE_FLAG_START) 0 0 0 None (replicate (Z.to_nat (maxlanes + 1)) root_junction).

Lemma create_ok (x x' : S) (h : nat) (maxlanes prob : Z) (sl : option (skiplist S)) :
  1 <= maxlanes <= 254 -> sizeof_sl + 256 * sizeof_junction < 2 ^ 31 -> ls_init_header x h = Some x' ->
  let size := fst (get_size_sl_skiplist sizeof_sl sizeof_junction maxlanes) in
  memory_for x h size sl ->
  exists fl sz, create_sl_skiplist sizeof_sl sizeof_junction true x h sl prob size maxlanes =
    Done (Some (mk_skiplist false (if prob =? 0 then _SKIPLIST_PROB else prob) fl (maxlanes - 1) sz h x' {[O := root_dirnode maxlanes]} 1)).
Proof.
  intros Hm Hs Ex size Hmem. destruct (size_lanes maxlanes Hm Hs) as (Esz & Hrange & Elanes & Ecalc). fold size in Esz, Hrange, Elanes, Ecalc.
  assert (u16 (u32 (size - sizeof_sl) / sizeof_junction) = maxlanes + 1) as Ecount.
  { rewrite (u32_id (size - sizeof_sl)) by (unfold is_u32; nia). rewrite Elanes. unfold u16. rewrite Z.mod_small; lia. }
  assert (forall d, d = zero_dirnode ((size - sizeof_sl) / sizeof_junction) ->
    (let* d := _init_sl_dirnode d (maxlanes + 1) _DIRNODE_FLAG_START in Done (set_level 0 d)) = Done (root_dirnode maxlanes)) as Hinit.
  { intros d ->. unfold _init_sl_dirnode, zero_dirnode. cbn [d_junction d_flags d_compare]. rewrite Elanes. unfold zlen. rewrite length_replicate.
    destruct (Z.leb_spec (maxlanes + 1) (Z.of_nat (Z.to_nat (maxlanes + 1)))); [| lia]. run. rewrite drop_ge by (rewrite length_replicate; lia). by rewrite app_nil_r. }
  specialize (Hinit _ eq_refl).
  destruct (_init_sl_dirnode (zero_dirnode ((size - sizeof_sl) / sizeof_junction)) (maxlanes + 1) _DIRNODE_FLAG_START) as [d| | |] eqn:Ed; try done.
  cbn [run_bind] in Hinit. assert (set_level 0 d = root_dirnode maxlanes) as Hd by congruence. assert (u16 (maxlanes - 1) = maxlanes - 1) as Em by (unfold u16; rewrite Z.mod_small; lia).
  unfold create_sl_skiplist. destruct Hmem; cbn [zeroed st_store st_hdr st_ops st_prob st_flags st_maxlevel st_size st_dirs st_brk].
  - rewrite Ecalc. destruct (Z.eqb_spec maxlanes 0); [lia |]. cbn [negb].
    rewrite Ex. run. unfold deref. cbn [st_dirs]. rewrite lookup_singleton_eq. run. rewrite Ecount, Ed. run.
    rewrite insert_singleton_eq, Hd, Em. by do 2 eexists.
  - change (0 =? 0) with true. cbn match. destruct (Z.ltb_spec 0 size); [| lia]. rewrite Ecalc. destruct (Z.eqb_spec maxlanes 0); [lia |].
    rewrite Ex. run. unfold deref. cbn [st_dirs]. rewrite lookup_singleton_eq. run. rewrite Ecount, Ed. run.
    rewrite insert_singleton_eq, Hd, Em. by do 2 eexists.
Qed.

Lemma created_spec (x : S) (h : nat) (A : gmap nat (list nat)) (maxlanes prob : Z) (sl : option (skiplist S)) :
  1 <= maxlanes <= 254 -> sizeof_sl + 256 * sizeof_junction < 2 ^ 31 -> is_u8 prob ->
  ls_refines x A -> A !! h = None -> ls_raw_header x h ->
  let size := fst (get_size_sl_skiplist sizeof_sl sizeof_junction maxlanes) in
  memory_for x h size sl ->
  exists st1 st2 y, create_sl_skiplist sizeof_sl sizeof_junction true x h sl prob size maxlanes = Done (Some st1) /\
    init_sl_skiplist (Some st1) true = Done (0, Some st2) /\ sound st2 (<[h := []]> A) [] /\ st_hdr st2 = h /\
    st_dirs st2 !! O = Some y /\ d_level y = 0 /\ bare (st_dirs st2) /\ pointed [] (st_dirs st2) /\ st_maxlevel st2 = maxlanes - 1 /\ st_brk st2 = 1%nat /\
    (forall f, ls_alloc x f -> ls_alloc (st_store st2) f).
Proof.
  intros Hm Hs Hp HR HA Hraw size Hmem. destruct (ls_init_header_spec x A h HR HA Hraw) as (x' & Ex & HR' & Hkeep & _).
  destruct (create_ok x x' h maxlanes prob sl Hm Hs Ex Hmem) as (fl & sz & E). fold size in E.
  set (prob' := if prob =? 0 then _SKIPLIST_PROB else prob) in *. set (d0 := root_dirnode maxlanes) in *.
  rewrite E. set (d1 := set_compare (Some CompareEnd) d0).
  exists (mk_skiplist false prob' fl (maxlanes - 1) sz h x' {[O := d0]} 1), (mk_skiplist true prob' fl (maxlanes - 1) sz h x' {[O := d1]} 1), d1.
  split; [done |]. assert (Forall (eq root_junction) (d_junction d0)) as Hroot by (apply Forall_replicate; done). split.
  { unfold init_sl_skiplist. cbn [negb st_ops st_prob st_flags st_maxlevel st_size st_hdr st_store st_dirs st_brk].
    change 0 with (Z.of_nat 0) at 1. rewrite (init_junctions_ok _ _ d0 O) by (try done; cbn; rewrite ?length_replicate; lia). run.
    unfold deref, upd_dir, deref. cbn [st_dirs]. rewrite lookup_singleton_eq. run. unfold set_dirs. cbn [st_ops st_prob st_flags st_maxlevel st_size st_hdr st_store st_dirs st_brk].
    by rewrite insert_singleton_eq. }
  assert (bare {[O := d1]}) as Hbare.
  { intros y i j. rewrite lookup_singleton_eq. intros [= <-] [-> _]%lookup_replicate. done. }
  assert (forall d y, ({[O := d1]} : gmap nat dirnode) !! d = Some y -> d = O /\ y = d1) as Honly by (intros d y [<- <-]%lookup_singleton_Some; done).
  split; [| cbn; rewrite lookup_singleton_eq; do 4 (split; [done |]); split; [intros d y Hd [-> ->]%Honly; done | done]].
  split; cbn [st_store st_hdr st_dirs]; [| intros d y [-> ->]%Honly; done | done | by rewrite lookup_insert_eq].
  split; cbn [st_ops st_dirs st_maxlevel st_brk st_prob].
  - done.
  - exists d1. split; [by rewrite lookup_singleton_eq |]. split.
    + split; cbn; [done | lia | unfold zlen; rewrite length_replicate; lia | lia | done].
    + intros d y [-> ->]%Honly Hne. done.
  - intros d [y [-> _]%Honly]. lia.
  - by apply root_linked.
  - intros i j. unfold jget. rewrite lookup_singleton_eq. opt. cbn. intros [-> _]%lookup_replicate. cbn. lia.
  - unfold prob', is_u32, is_u8 in *. destruct (prob =? 0); [by vm_compute | lia].
Qed.

(** a skip list made by [get_size_sl_skiplist], [create_sl_skiplist] (in memory of
    its own or of the caller) and [init_sl_skiplist] is sound and empty: its lanes
    are loops at the head, of which there is one more than the levels use, and
    its list is empty; nothing outside the memory is touched. *)
Theorem skiplist_created (x : S) (h : nat) (A : gmap nat (list nat)) (maxlanes prob : Z) (sl : option (skiplist S)) :
  1 <= maxlanes <= 254 -> sizeof_sl + 256 * sizeof_junction < 2 ^ 31 -> is_u8 prob ->
  ls_refines x A -> A !! h = None -> ls_raw_header x h ->
  let size := fst (get_size_sl_skiplist sizeof_sl sizeof_junction maxlanes) in
  memory_for x h size sl ->
  exists st1 st2 y, create_sl_skiplist sizeof_sl sizeof_junction true x h sl prob size maxlanes = Done (Some st1) /\
    init_sl_skiplist (Some st1) true = Done (0, Some st2) /\ sound st2 (<[h := []]> A) [] /\ st_hdr st2 = h /\
    st_dirs st2 !! O = Some y /\ d_level y = 0 /\ bare (st_dirs st2) /\ pointed [] (st_dirs st2) /\ st_maxlevel st2 = maxlanes - 1 /\ st_brk st2 = 1%nat /\
    (forall f, ls_alloc x f -> ls_alloc (st_store st2) f).
Proof. apply created_spec. Qed.

End Created.
Section Operations.
Context {S : Type} `{!ListStore S, !SortedStore S}.
Context {L : Type} (compare : nat -> L -> Z) `{!Ordering compare} (gle : L -> option nat) `{!Insertable compare gle}.

#[export] Instance mode_writable (ex : bool) : Writable (S := S) ex (lockops_for (mode ex)).
Proof. destruct ex; [apply nolock_writable | apply default_writable]. Qed.

(** The levels a search goes down and the elements it goes along. *)
Definition enough (fuel : nat) (st : skiplist S) (l : list nat) : Prop :=
  forall x, st_dirs st !! O = Some x -> d_level x + zlen l + 2 < Z.of_nat fuel.

(** [sl_find] on a skip list that no other thread uses is the search of a sorted
    list, with and without locks and whatever the lanes hold: it ends, leaves the
    skip list as it was, reports EXACT exactly when an element has the key and then
    gives that element, and otherwise NOENT with the element before or after which
    the key belongs, or EMPTY. *)
Theorem sl_find_correct (ex : bool) (st : skiplist S) (A : gmap nat (list nat)) (l : list nat) (k : L) (fuel : nat) :
  searchable st -> quiet (st_dirs st) -> ls_refines (st_store st) A -> A !! st_hdr st = Some l -> ordered compare l -> enough fuel st l ->
  exists r fl, sl_find compare true fuel st k (init_sl_searchresult (mode ex)) = Done (st, r) /\
    r_flags r = Z.lor (mode ex) fl /\ place compare l k fl (r_found r) /\
    (has (r_flags r) SL_SEARCHRESULT_FLAG_EXACT = true <-> exists e, e ∈ l /\ compare e k = 0) /\
    (forall e, e ∈ l -> compare e k = 0 -> r_found r = Some e).
Proof.
  intros Hs Hq HR HA Hord Hf. destruct (srch_head _ Hs) as (x & Hx & _). specialize (Hf x Hx).
  destruct (sl_find_spec compare ex st A l k x fuel Hs Hq HR HA Hord Hx ltac:(lia)) as (r & fl & E & Hp & Hfl). exists r, fl.
  split; [done |]. split; [done |]. split; [done |]. rewrite Hfl. exact (place_exact compare l k fl (r_found r) ex Hord Hp).
Qed.

(** A search never reports OK. *)
Lemma place_not_ok (ex : bool) l k fl f : place compare l k fl f -> has (Z.lor (mode ex) fl) SL_SEARCHRESULT_FLAG_OK = false.
Proof.
  intros [-> | l1 e l2 fl' [-> Hb] He Hfl' | l1 e l2 fl' [-> Hb] He Hfl' | l1 e [-> Hb] He]; try (by destruct ex).
  all: repeat (apply elem_of_cons in Hfl' as [-> | Hfl']; [by destruct ex |]); set_solver.
Qed.

Lemma insert_existing (ex : bool) (st : skiplist S) (A : gmap nat (list nat)) (l : list nat) (k : L) (fuel : nat) (mem : bool) (e0 : nat) :
  sound st A l -> ordered compare l -> enough fuel st l -> e0 ∈ l -> compare e0 k = 0 ->
  exists r, sl_insert compare gle true mem fuel st k (init_sl_searchresult (mode ex)) = Done (st, r) /\ r_found r = Some e0 /\
    has (r_flags r) SL_SEARCHRESULT_FLAG_EXACT = true /\ has (r_flags r) SL_SEARCHRESULT_FLAG_OK = false.
Proof.
  intros [Hg Hq HR HA] Hord Hf He0 Hc. destruct (good_head _ Hg) as (x & Hx & _). specialize (Hf x Hx). unfold sl_insert. cbn [init_sl_searchresult r_flags].
  destruct (generic_spec ex compare (lockops_for (mode ex)) st A l k x fuel (sl_insert_cb gle mem fuel k) (init_sl_searchresult (mode ex)) (good_searchable _ Hg) Hq HR HA Hord Hx eq_refl eq_refl ltac:(lia))
    as (st' & v' & r' & d & fl & -> & (Hh & Hl & _) & Hp & Hfl & _). cbn in Hfl.
  destruct (place_exact compare l k fl (r_found r') ex Hord Hp) as [[_ Hx1] Hx2]. rewrite <- Hfl in Hx1. specialize (Hx1 (ex_intro _ e0 (conj He0 Hc))).
  unfold sl_insert_cb. rewrite Hx1. destruct (lo_remove_ok ex st st' v' (d_level x) None Hq Hh Hl) as (v1 & ->). run. exists r'. split; [done |].
  split; [by apply Hx2 |]. split; [done |]. rewrite Hfl. by apply place_not_ok with l k (r_found r').
Qed.

Lemma insert_new (ex : bool) (st : skiplist S) (A : gmap nat (list nat)) (l : list nat) (k : L) (fuel : nat) (mem : bool) (e : nat) :
  sound st A l -> ordered compare l -> enough fuel st l -> (forall f, f ∈ l -> compare f k <> 0) ->
  gle k = Some e -> ls_alloc (st_store st) e -> unused A e -> is_u64 (zlen l + 1) -> Z.of_nat (st_brk st) + 1 < 2 ^ 32 ->
  exists st' r l1 l2, sl_insert compare gle true mem fuel st k (init_sl_searchresult (mode ex)) = Done (st', r) /\ l = l1 ++ l2 /\
    Forall (fun a => compare a k < 0) l1 /\ Forall (fun b => 0 < compare b k) l2 /\
    sound st' (<[st_hdr st := l1 ++ e :: l2]> A) (l1 ++ e :: l2) /\ later ex st st' /\ ordered compare (l1 ++ e :: l2) /\
    r_found r = Some e /\ has (r_flags r) SL_SEARCHRESULT_FLAG_OK = true /\ has (r_flags r) SL_SEARCHRESULT_FLAG_EXACT = false /\
    (forall f, ls_alloc (st_store st) f -> ls_alloc (st_store st') f) /\ (pointed l (st_dirs st) -> pointed (l1 ++ e :: l2) (st_dirs st')).
Proof.
  intros Hsound Hord Hf Hno He Ha Hu Hw Hbrk. pose proof Hsound as [Hg Hq HR HA]. destruct (good_head _ Hg) as (x & Hx & Hhd & _). specialize (Hf x Hx).
  pose proof (hd_level _ _ Hhd). unfold sl_insert. cbn [init_sl_searchresult r_flags].
  destruct (generic_spec ex compare (lockops_for (mode ex)) st A l k x fuel (sl_insert_cb gle mem fuel k) (init_sl_searchresult (mode ex)) (good_searchable _ Hg) Hq HR HA Hord Hx eq_refl eq_refl ltac:(lia))
    as (st1 & v1 & r1 & d & fl & -> & Harr & Hp & Hfl & _). cbn in Hfl.
  destruct (insert_cb_new compare gle ex (lockops_for (mode ex)) st st1 A l k v1 d fl r1 mem fuel e x) as (st' & r' & l1 & l2 & -> & Hl & H1 & H2 & Hs & Hh & Hr & Hr' & Hk & Hpt); try done; [unfold zlen in *; lia |].
  exists st', r', l1, l2. do 6 (split; [done |]). split; [apply (ordered_insert compare gle k e l1 l2); [done | by rewrite <- Hl | done | done] |]. split; [done |]. rewrite Hr'. split; [by apply has_lor_same |]. split; [| by split].
  rewrite has_lor, orb_false_r. destruct (place_exact compare l k fl (r_found r1) ex Hord Hp) as [[Hex0 _] _]. rewrite <- Hfl in Hex0.
  destruct (has (r_flags r1) SL_SEARCHRESULT_FLAG_EXACT); [| done]. destruct (Hex0 eq_refl) as (f & Hin & Hf0). by destruct (Hno f Hin).
Qed.

(** C24: [sl_insert] on a skip list that no other thread uses, with and without locks,
    is the insertion in a sorted list: it ends; when an element has the key it
    reports EXACT, gives that element and changes nothing; otherwise it reports OK,
    the list becomes the sorted list with the new element at the place of the key,
    whether or not memory for a directory node is found, and the skip list is
    sound again. *)
Theorem sl_insert_correct (ex : bool) (st : skiplist S) (A : gmap nat (list nat)) (l : list nat) (k : L) (fuel : nat) (mem : bool) :
  sound st A l -> ordered compare l -> enough fuel st l ->
  (forall e0, e0 ∈ l -> compare e0 k = 0 ->
    exists r, sl_insert compare gle true mem fuel st k (init_sl_searchresult (mode ex)) = Done (st, r) /\ r_found r = Some e0 /\
      has (r_flags r) SL_SEARCHRESULT_FLAG_EXACT = true /\ has (r_flags r) SL_SEARCHRESULT_FLAG_OK = false) /\
  (forall e, (forall f, f ∈ l -> compare f k <> 0) -> gle k = Some e -> ls_alloc (st_store st) e -> unused A e ->
    is_u64 (zlen l + 1) -> Z.of_nat (st_brk st) + 1 < 2 ^ 32 ->
    exists st' r l1 l2, sl_insert compare gle true mem fuel st k (init_sl_searchresult (mode ex)) = Done (st', r) /\ l = l1 ++ l2 /\
      Forall (fun a => compare a k < 0) l1 /\ Forall (fun b => 0 < compare b k) l2 /\
      sound st' (<[st_hdr st := l1 ++ e :: l2]> A) (l1 ++ e :: l2) /\ later ex st st' /\ ordered compare (l1 ++ e :: l2) /\
      r_found r = Some e /\ has (r_flags r) SL_SEARCHRESULT_FLAG_OK = true /\
      (pointed l (st_dirs st) -> pointed (l1 ++ e :: l2) (st_dirs st'))).
Proof.
  intros Hs Hord Hf. split; [intros; by eapply insert_existing |]. intros e Hno He Ha Hu Hw Hb.
  destruct (insert_new ex st A l k fuel mem e Hs Hord Hf Hno He Ha Hu Hw Hb) as (st' & r & l1 & l2 & ? & ? & ? & ? & ? & ? & ? & ? & ? & _ & _ & ?).
  by exists st', r, l1, l2.
Qed.

(** ** Histories of insertions *)

(** Insertions one after the other: with or without locks, with or without memory
    for a directory node. *)
Fixpoint insert_all (fuel : nat) (st : skiplist S) (reqs : list (bool * bool * L)) : run (skiplist S) :=
  match reqs with
  | [] => Done st
  | (ex, mem, k) :: reqs =>
      let* (st, _) := sl_insert compare gle true mem fuel st k (init_sl_searchresult (mode ex)) in insert_all fuel st reqs
  end.

(** New elements for new keys: [l] are the elements there are. *)
Fixpoint fresh_keys (st : skiplist S) (A : gmap nat (list nat)) (l : list nat) (reqs : list (bool * bool * L)) (es : list nat) : Prop :=
  match reqs, es with
  | [], [] => True
  | (_, _, k) :: reqs, e :: es =>
      (forall f, f ∈ l -> compare f k <> 0) /\ gle k = Some e /\ ls_alloc (st_store st) e /\ unused A e /\ e ∉ l /\ fresh_keys st A (e :: l) reqs es
  | _, _ => False
  end.

Lemma fresh_keys_step st st' A h (l' : list nat) reqs : forall l0 es, (forall f, ls_alloc (st_store st) f -> ls_alloc (st_store st') f) ->
  (forall f, f ∈ l' -> f ∈ l0) -> fresh_keys st A l0 reqs es -> fresh_keys st' (<[h := l']> A) l0 reqs es.
Proof.
  induction reqs as [|[[ex mem] k] reqs IH]; intros l0 [|e1 es] Ha H0 H; simpl in *; try done.
  destruct H as (H1 & H2 & H3 & H4 & H5 & H6). split; [done |]. split; [done |]. split; [auto |]. split.
  - intros h' k' [[<- <-] | [_ Hk]]%lookup_insert_Some; [intros Hin; apply H5; auto | by apply (H4 h')].
  - split; [done |]. apply IH; [done | set_solver | done].
Qed.

Lemma fresh_keys_perm st A reqs : forall es (l l' : list nat), (forall f, f ∈ l <-> f ∈ l') -> fresh_keys st A l reqs es -> fresh_keys st A l' reqs es.
Proof.
  induction reqs as [|[[ex mem] k] reqs IH]; intros [|e es] l l' Hl H; simpl in *; try done.
  destruct H as (H1 & H2 & H3 & H4 & H5 & H6). split; [intros f Hf; apply H1; by apply Hl |]. do 3 (split; [done |]). split; [by rewrite <- Hl |].
  eapply IH; [| exact H6]. set_solver.
Qed.

Lemma insert_all_spec (reqs : list (bool * bool * L)) : forall (st : skiplist S) (A : gmap nat (list nat)) (l es : list nat) (fuel : nat),
  sound st A l -> ordered compare l -> fresh_keys st A l reqs es ->
  st_maxlevel st + zlen l + zlen reqs + 2 < Z.of_nat fuel -> is_u64 (zlen l + zlen reqs) -> Z.of_nat (st_brk st) + zlen reqs < 2 ^ 32 ->
  exists st' l', insert_all fuel st reqs = Done st' /\ sound st' (<[st_hdr st := l']> A) l' /\ st_hdr st' = st_hdr st /\
    ordered compare l' /\ l' ≡ₚ es ++ l.
Proof.
  induction reqs as [|[[ex mem] k] reqs IH]; intros st A l es fuel Hs Hord Hfr Hf Hw Hb.
  { destruct es; [| done]. exists st, l. cbn. rewrite insert_id by apply Hs. split; [done |]. split; [done |]. done. }
  destruct es as [|e es]; [done |]. destruct Hfr as (Hno & He & Ha & Hu & Hni & Hfr). rewrite zlen_cons in *. pose proof (zlen_nonneg reqs). pose proof (zlen_nonneg l).
  assert (enough fuel st l) as Hen.
  { intros x Hx. destruct (good_head _ (sound_good _ _ _ Hs)) as (y & Hy & Hhd & _). rewrite Hx in Hy. injection Hy as <-. pose proof (hd_level _ _ Hhd). lia. }
  destruct (insert_new ex st A l k fuel mem e Hs Hord Hen Hno He Ha Hu ltac:(unfold is_u64 in *; lia) ltac:(lia))
    as (st1 & r & l1 & l2 & E & Hl & H1 & H2 & Hs1 & Hlat & Hord1 & _ & _ & _ & Hk & Hpt1). cbn [insert_all]. rewrite E. run.
  pose proof (later_hdr _ _ _ Hlat) as Eh. pose proof (later_max _ _ _ Hlat) as Em. pose proof (later_brk _ _ _ Hlat) as Eb.
  assert (zlen (l1 ++ e :: l2) = zlen l + 1) as El by (rewrite Hl, !zlen_app, zlen_cons; lia).
  destruct (IH st1 (<[st_hdr st := l1 ++ e :: l2]> A) (l1 ++ e :: l2) es fuel Hs1 Hord1) as (st' & l' & E' & Hs' & Eh' & Hord' & Hperm); try lia.
  - eapply (fresh_keys_perm _ _ _ _ (e :: l)); [set_solver |]. apply (fresh_keys_step st st1 A); [done | rewrite Hl; set_solver | done].
  - unfold is_u64 in *. lia.
  - exists st', l'. split; [done |]. rewrite Eh in Hs'. rewrite insert_insert_eq in Hs'. split; [done |]. split; [congruence |]. split; [done |].
    rewrite Hperm, Hl. cbn. rewrite <- (Permutation_middle l1 l2 e). symmetry. apply Permutation_middle.
Qed.

(** whatever the order of the insertions, with or without locks, with or without
    memory for the directory nodes: after inserting new elements with new keys the
    list of the skip list is the sorted permutation of the old and new elements,
    and the skip list is sound, so that every search is right. *)
Theorem insertions_sort (reqs : list (bool * bool * L)) : forall (st : skiplist S) (A : gmap nat (list nat)) (l es : list nat) (fuel : nat),
  sound st A l -> ordered compare l -> fresh_keys st A l reqs es ->
  st_maxlevel st + zlen l + zlen reqs + 2 < Z.of_nat fuel -> is_u64 (zlen l + zlen reqs) -> Z.of_nat (st_brk st) + zlen reqs < 2 ^ 32 ->
  exists st' l', insert_all fuel st reqs = Done st' /\ sound st' (<[st_hdr st := l']> A) l' /\ st_hdr st' = st_hdr st /\
    ordered compare l' /\ l' ≡ₚ es ++ l.
Proof. apply insert_all_spec. Qed.

(** ** Exclusive use

    The callers of lib/sl pass EXCLUSIVE on every call: the lanes then never hold a
    directory node, and deleting is as safe as the rest. *)

Lemma hold_exclusive (st0 st : skiplist S) v lvl : quiet (st_dirs st0) -> hold true st0 st v lvl -> st = st0.
Proof.
  intros Hq Hh. rewrite (hold_frame _ _ _ _ _ Hh). replace (st_dirs st) with (st_dirs st0); [apply set_dirs_id |].
  apply quiet_strip; [by rewrite (hold_strip _ _ _ _ _ Hh) | done |]. intros d x Hx. destruct (hold_locks _ _ _ _ _ Hh d x Hx) as [? ->].
  split; [done |]. apply holds_none. intros p (i & Hi)%list_elem_of_lookup Hp. by destruct Hp; apply (hold_ex _ _ _ _ _ Hh i p).
Qed.

(** Where the only directory node is the head, none moves. *)
Lemma delete_dirnode_bare (st : skiplist S) fuel list r : good st -> bare (st_dirs st) -> has (r_flags r) SL_SEARCHRESULT_FLAG_DIRNODE = false ->
  exists m, delete_dirnode fuel st list 0 r = Done (st, correct_sl_dirnodes_move, m).
Proof.
  intros Hg Hb Hr. destruct (good_head _ Hg) as (x & Hx & Hhd & _).
  destruct (lookup_lt_is_Some_2 (d_junction x) 0) as [j Hj]; [pose proof (hd_junctions _ _ Hhd); pose proof (hd_level _ _ Hhd); unfold zlen in *; lia |].
  destruct (Hb x O j Hx Hj) as [Hn _]. assert (junc st 0 0 = Done j) as Ej by (by apply (junc_Some st 0 x)).
  unfold delete_dirnode. rewrite (deref_Some _ _ _ Hx). run. rewrite Ej. run. rewrite Hr. destruct (j_step j <? u32 (st_prob st - 1)); [| eauto].
  rewrite Hn. run. rewrite (deref_Some _ _ _ Hx). run. rewrite Ej. run. rewrite (hd_flags _ _ Hhd). cbn [negb andb]. eauto.
Qed.

(** The search, without locks and without lanes. *)
Lemma exclusive_search (st : skiplist S) A l k fuel cb : sound st A l -> bare (st_dirs st) -> ordered compare l -> enough fuel st l ->
  exists v r fl p, sl_find_generic compare true fuel sl_nolock_lockops cb st k (init_sl_searchresult (mode true)) = cb st sl_nolock_lockops v r /\
    vpath v 0 = Done p /\ p_dirnode p = O /\ place compare l k fl (r_found r) /\ r_flags r = Z.lor (mode true) fl /\
    has (r_flags r) SL_SEARCHRESULT_FLAG_DIRNODE = false.
Proof.
  intros [Hg Hq HR HA] Hb Hord Hf. destruct (good_head _ Hg) as (x & Hx & _). specialize (Hf x Hx).
  destruct (generic_spec true compare sl_nolock_lockops st A l k x fuel cb (init_sl_searchresult (mode true)) (good_searchable _ Hg) Hq HR HA Hord Hx eq_refl eq_refl ltac:(lia))
    as (st' & v' & r' & d & fl & -> & (Hh & Hl & p & Hp & Hd) & Hpl & Hfl & Hdir & Hd0). specialize (Hd0 Hb).
  rewrite (hold_exclusive _ _ _ _ Hq Hh). rewrite Hl in Hp. exists v', r', fl, p. unfold vpath. rewrite Hp. do 2 (split; [done || congruence |]).
  split; [congruence |]. split; [done |]. split; [done |]. rewrite Hfl, has_lor. change (has (r_flags _) SL_SEARCHRESULT_FLAG_DIRNODE) with false. simpl.
  destruct (has fl SL_SEARCHRESULT_FLAG_DIRNODE); [by destruct Hdir | done].
Qed.

Lemma delete_found (st : skiplist S) (A : gmap nat (list nat)) l1 e l2 (k : L) (fuel : nat) :
  sound st A (l1 ++ e :: l2) -> bare (st_dirs st) -> ordered compare (l1 ++ e :: l2) -> enough fuel st (l1 ++ e :: l2) -> compare e k = 0 ->
  exists x r, sl_delete compare true fuel st k (init_sl_searchresult (mode true)) = Done (set_store st x, r) /\
    ls_refines x (<[st_hdr st := l1 ++ l2]> A) /\ ls_single x e /\ (forall f, ls_alloc (st_store st) f -> ls_alloc x f) /\
    r_found r = Some e /\ has (r_flags r) SL_SEARCHRESULT_FLAG_EXACT = true /\ has (r_flags r) SL_SEARCHRESULT_FLAG_OK = true.
Proof.
  intros Hs Hb Hord Hf He. unfold sl_delete. cbn [init_sl_searchresult r_flags]. change (lockops_for (mode true)) with (sl_nolock_lockops (S := S)).
  destruct (exclusive_search st A _ k fuel (sl_delete_cb fuel) Hs Hb Hord Hf) as (v & r & fl & p & -> & Hp & Hp0 & Hpl & Hfl & Hdir).
  destruct (place_exact compare _ k fl (r_found r) true Hord Hpl) as [[_ Hx1] Hx2]. rewrite <- Hfl in Hx1.
  assert (e ∈ l1 ++ e :: l2) as Hin by set_solver. specialize (Hx1 (ex_intro _ e (conj Hin He))). specialize (Hx2 e Hin He).
  unfold sl_delete_cb. rewrite Hp. run. rewrite Hx1. cbn [lo_upgrade sl_nolock_lockops andb]. unfold upgrade_readlock_vector_nolock. run. change (0 =? 0) with true. cbn match.
  rewrite Hx2. run. rewrite Hp0. destruct (delete_dirnode_bare st fuel e r (sound_good _ _ _ Hs) Hb Hdir) as (m & ->). run.
  destruct (ls_remove_spec _ A (st_hdr st) l1 e l2 (sound_store _ _ _ Hs) (sound_list _ _ _ Hs)) as (x & -> & HR & H1 & H2). run.
  exists x, (add_flags SL_SEARCHRESULT_FLAG_OK r). split; [done |]. split; [done |]. split; [done |]. split; [intros; by apply H2 |]. split; [done |].
  cbn [add_flags r_flags]. rewrite has_lor, Hx1. split; [done |]. by apply has_lor_same.
Qed.

Lemma delete_missing (st : skiplist S) (A : gmap nat (list nat)) l (k : L) (fuel : nat) :
  sound st A l -> bare (st_dirs st) -> ordered compare l -> enough fuel st l -> (forall e, e ∈ l -> compare e k <> 0) ->
  exists r, sl_delete compare true fuel st k (init_sl_searchresult (mode true)) = Done (st, r) /\
    has (r_flags r) SL_SEARCHRESULT_FLAG_EXACT = false /\ has (r_flags r) SL_SEARCHRESULT_FLAG_OK = false.
Proof.
  intros Hs Hb Hord Hf Hno. unfold sl_delete. cbn [init_sl_searchresult r_flags]. change (lockops_for (mode true)) with (sl_nolock_lockops (S := S)).
  destruct (exclusive_search st A _ k fuel (sl_delete_cb fuel) Hs Hb Hord Hf) as (v & r & fl & p & -> & Hp & Hp0 & Hpl & Hfl & Hdir).
  destruct (place_exact compare _ k fl (r_found r) true Hord Hpl) as [[Hx1 _] _]. rewrite <- Hfl in Hx1.
  assert (has (r_flags r) SL_SEARCHRESULT_FLAG_EXACT = false) as Hex.
  { destruct (has (r_flags r) SL_SEARCHRESULT_FLAG_EXACT); [| done]. destruct (Hx1 eq_refl) as (e & He & He0). by destruct (Hno e He). }
  unfold sl_delete_cb. rewrite Hp. run. rewrite Hex. run. cbn [andb lo_remove sl_nolock_lockops]. unfold remove_lock_vector_nolock. run.
  exists r. split; [done |]. split; [done |]. rewrite Hfl. by apply place_not_ok with l k (r_found r).
Qed.

(** ** Histories

    What a caller asks, and what it looks at in the answer. *)
Inductive request : Type := Find (k : L) | Insert (mem : bool) (k : L) | Delete (k : L).

Record outcome := mk_outcome { o_exact : bool; o_ok : bool; o_element : option nat }.

Definition outcome_of (r : searchresult) : outcome :=
  let exact := has (r_flags r) SL_SEARCHRESULT_FLAG_EXACT in
  let done := has (r_flags r) SL_SEARCHRESULT_FLAG_OK in
  mk_outcome exact done (if exact || done then r_found r else None).

Definition serve (fuel : nat) (st : skiplist S) (q : request) : run (skiplist S * outcome) :=
  let r0 := init_sl_searchresult (mode true) in
  let* (st, r) :=
    match q with
    | Find k => sl_find compare true fuel st k r0
    | Insert mem k => sl_insert compare gle true mem fuel st k r0
    | Delete k => sl_delete compare true fuel st k r0
    end in
  Done (st, outcome_of r).

Fixpoint serve_all (fuel : nat) (st : skiplist S) (qs : list request) : run (skiplist S * list outcome) :=
  match qs with
  | [] => Done (st, [])
  | q :: qs => let* (st, o) := serve fuel st q in let* (st, os) := serve_all fuel st qs in Done (st, o :: os)
  end.

(** The sorted list it stands for. *)
Definition with_key (l : list nat) (k : L) : option nat := List.find (fun e => compare e k =? 0) l.

Definition spec (l : list nat) (q : request) : list nat * outcome :=
  match q with
  | Find k => (l, mk_outcome (bool_decide (is_Some (with_key l k))) false (with_key l k))
  | Insert _ k =>
      match with_key l k with
      | Some e => (l, mk_outcome true false (Some e))
      | None =>
          let smaller := List.filter (fun a => compare a k <? 0) l in
          let larger := List.filter (fun a => 0 <? compare a k) l in
          match gle k with
          | Some e => (smaller ++ e :: larger, mk_outcome false true (Some e))
          | None => (l, mk_outcome false false None)
          end
      end
  | Delete k =>
      match with_key l k with
      | Some e => (List.filter (fun a => negb (compare a k =? 0)) l, mk_outcome true true (Some e))
      | None => (l, mk_outcome false false None)
      end
  end.

Fixpoint spec_all (l : list nat) (qs : list request) : list nat * list outcome :=
  match qs with
  | [] => (l, [])
  | q :: qs => let '(l, o) := spec l q in let '(l, os) := spec_all l qs in (l, o :: os)
  end.

Lemma filter_all {B} (f : B -> bool) l : Forall (fun a => f a = true) l -> List.filter f l = l.
Proof. induction 1 as [|a l Ha _ IH]; [done |]. simpl. by rewrite Ha, IH. Qed.

Lemma filter_none {B} (f : B -> bool) l : Forall (fun a => f a = false) l -> List.filter f l = [].
Proof. induction 1 as [|a l Ha _ IH]; [done |]. simpl. by rewrite Ha. Qed.

Lemma with_key_None l k : (forall e, e ∈ l -> compare e k <> 0) <-> with_key l k = None.
Proof.
  unfold with_key. induction l as [|a l IH]; simpl; [split; [done | set_solver] |]. destruct (Z.eqb_spec (compare a k) 0).
  - split; [| done]. intros H. exfalso. by apply (H a); [left |].
  - rewrite <- IH. set_solver.
Qed.

Lemma with_key_Some l k e : ordered compare l -> with_key l k = Some e ->
  exists l1 l2, l = l1 ++ e :: l2 /\ compare e k = 0 /\ List.filter (fun a => negb (compare a k =? 0)) l = l1 ++ l2.
Proof.
  intros Hord. unfold with_key. intros H. apply List.find_some in H as [Hin He%Z.eqb_eq]. apply list_elem_of_In, list_elem_of_split in Hin as (l1 & l2 & ->).
  exists l1, l2. split; [done |]. split; [done |]. destruct (ordered_key compare l1 e l2 k Hord) as [Ha Hb].
  rewrite List.filter_app. simpl. rewrite He. simpl. rewrite !filter_all; [done | |].
  - eapply Forall_impl; [apply Ha; lia |]. simpl. intros b Hbk. destruct (Z.eqb_spec (compare b k) 0); [lia | done].
  - eapply Forall_impl; [apply Hb; lia |]. simpl. intros b Hbk. destruct (Z.eqb_spec (compare b k) 0); [lia | done].
Qed.

(** The sorted list stays sorted. *)
Lemma ordered_remove l1 e l2 : ordered compare (l1 ++ e :: l2) -> ordered compare (l1 ++ l2).
Proof.
  unfold ordered. induction l1 as [|a l1 IH]; simpl; intros H; apply StronglySorted_inv in H as [Hs Hf]; [done |].
  constructor; [by apply IH |]. apply Forall_app in Hf as [H1 H2]. apply Forall_app. split; [done |]. by apply Forall_cons in H2 as [_ H2].
Qed.

Section Histories.
Context (Hkey : forall k e, gle k = Some e -> compare e k = 0).

(** The elements a history inserts: objects of the program in no other list. *)
Definition admissible (st : skiplist S) (A : gmap nat (list nat)) (q : request) : Prop :=
  match q with
  | Insert _ k => exists e, gle k = Some e /\ ls_alloc (st_store st) e /\ forall h l, h <> st_hdr st -> A !! h = Some l -> e ∉ l
  | _ => True
  end.

(** A skip list in exclusive use, its list being [l]. *)
Record exclusive (st : skiplist S) (A : gmap nat (list nat)) (l : list nat) : Prop := {
  exc_sound : sound st A l;
  exc_bare : bare (st_dirs st);
  exc_ordered : ordered compare l
}.

Lemma exclusive_enough st A l fuel n : exclusive st A l -> st_maxlevel st + zlen l + n + 2 < Z.of_nat fuel -> 0 <= n -> enough fuel st l.
Proof.
  intros [Hs _ _] Hf Hn x Hx. destruct (good_head _ (sound_good _ _ _ Hs)) as (y & Hy & Hhd & _). rewrite Hx in Hy. injection Hy as <-.
  pose proof (hd_level _ _ Hhd). lia.
Qed.

Lemma serve_find st A l k fuel : exclusive st A l -> enough fuel st l -> serve fuel st (Find k) = Done (st, snd (spec l (Find k))).
Proof.
  intros [[Hg Hq HR HA] Hb Hord] Hf. destruct (good_head _ Hg) as (x & Hx & _). specialize (Hf x Hx).
  destruct (sl_find_spec compare true st A l k x fuel (good_searchable _ Hg) Hq HR HA Hord Hx ltac:(lia)) as (r & fl & E & Hp & Hfl).
  unfold serve. rewrite E. run. do 2 f_equal. cbn [spec snd]. unfold outcome_of. destruct (place_exact compare l k fl (r_found r) true Hord Hp) as [Hex Hfound].
  rewrite Hfl, (place_not_ok true l k fl (r_found r)), orb_false_r by done. destruct (with_key l k) as [e|] eqn:Ek.
  - destruct (with_key_Some l k e Hord Ek) as (l1 & l2 & -> & He & _). assert (e ∈ l1 ++ e :: l2) as Hin by set_solver.
    rewrite (proj2 Hex) by eauto. rewrite (Hfound e) by done. done.
  - destruct (has (Z.lor (mode true) fl) SL_SEARCHRESULT_FLAG_EXACT); [| done]. destruct (proj1 Hex eq_refl) as (e & He & He0).
    exfalso. by apply (proj2 (with_key_None l k) Ek e He).
Qed.

Lemma serve_insert st A l mem k fuel : exclusive st A l -> enough fuel st l -> admissible st A (Insert mem k) ->
  is_u64 (zlen l + 1) -> Z.of_nat (st_brk st) + 1 < 2 ^ 32 ->
  exists st', serve fuel st (Insert mem k) = Done (st', snd (spec l (Insert mem k))) /\
    exclusive st' (<[st_hdr st := fst (spec l (Insert mem k))]> A) (fst (spec l (Insert mem k))) /\ later true st st' /\
    (forall f, ls_alloc (st_store st) f -> ls_alloc (st_store st') f).
Proof.
  intros [Hs Hb Hord] Hf (e & He & Ha & Hoth) Hw Hbrk. unfold serve. cbn [spec]. destruct (with_key l k) as [e0|] eqn:Ek.
  - destruct (with_key_Some l k e0 Hord Ek) as (l1 & l2 & -> & He0 & _). assert (e0 ∈ l1 ++ e0 :: l2) as Hin by set_solver.
    destruct (insert_existing true st A _ k fuel mem e0 Hs Hord Hf Hin He0) as (r & -> & H1 & H2 & H3). run. exists st. cbn [fst snd].
    unfold outcome_of. rewrite H1, H2, H3. split; [done |]. rewrite insert_id by apply Hs. split; [done |]. split; [split; [done | done | lia | done] | done].
  - pose proof (proj2 (with_key_None l k) Ek) as Hno.
    assert (unused A e) as Hu.
    { intros h l' Hh Hin. destruct (decide (h = st_hdr st)) as [->|Hne]; [| by apply (Hoth h l')]. rewrite (sound_list _ _ _ Hs) in Hh. injection Hh as <-.
      by apply (Hno e Hin), Hkey. }
    destruct (insert_new true st A l k fuel mem e Hs Hord Hf Hno He Ha Hu Hw Hbrk) as (st' & r & l1 & l2 & -> & Hl & H1 & H2 & Hs' & Hlat & Hord' & Hr & Hok & Hex & Hk & _).
    run. rewrite He. cbn [fst snd]. exists st'.
    assert (List.filter (fun a => compare a k <? 0) l ++ e :: List.filter (fun a => 0 <? compare a k) l = l1 ++ e :: l2) as ->.
    { rewrite Hl, !List.filter_app. rewrite (filter_all _ l1), (filter_none _ l2), (filter_none _ l1), (filter_all _ l2); [by rewrite app_nil_r | ..].
      all: eapply Forall_impl; [eassumption |]; simpl; intros a Ha'; (apply Z.ltb_lt || apply Z.ltb_ge); lia. }
    split; [| split; [split; [done | by apply (later_bare _ _ _ Hlat) | done] | done]].
    unfold outcome_of. by rewrite Hr, Hok, Hex.
Qed.

Lemma serve_delete st A l k fuel : exclusive st A l -> enough fuel st l ->
  exists st', serve fuel st (Delete k) = Done (st', snd (spec l (Delete k))) /\
    exclusive st' (<[st_hdr st := fst (spec l (Delete k))]> A) (fst (spec l (Delete k))) /\ later true st st' /\
    (forall f, ls_alloc (st_store st) f -> ls_alloc (st_store st') f).
Proof.
  intros [Hs Hb Hord] Hf. unfold serve. cbn [spec]. destruct (with_key l k) as [e|] eqn:Ek.
  - destruct (with_key_Some l k e Hord Ek) as (l1 & l2 & -> & He & ->).
    destruct (delete_found st A l1 e l2 k fuel Hs Hb Hord Hf He) as (x & r & -> & HR & _ & Hk & H1 & H2 & H3). run. exists (set_store st x). cbn [fst snd].
    unfold outcome_of. rewrite H1, H2, H3. split; [done |]. split; [| split; [split; [done | done | cbn; lia | done] | done]].
    split; [| done | by apply (ordered_remove l1 e)]. destruct Hs as [Hg Hq _ _]. split; [by apply good_store | done | done | apply lookup_insert_eq].
  - pose proof (proj2 (with_key_None l k) Ek) as Hno. destruct (delete_missing st A l k fuel Hs Hb Hord Hf Hno) as (r & -> & H1 & H2). run. exists st.
    cbn [fst snd]. unfold outcome_of. rewrite H1, H2. split; [done |]. rewrite insert_id by apply Hs. split; [done |]. split; [split; [done | done | lia | done] | done].
Qed.

Lemma serve_ok st A l q fuel n : exclusive st A l -> admissible st A q -> 0 <= n ->
  st_maxlevel st + zlen l + n + 2 < Z.of_nat fuel -> is_u64 (zlen l + 1) -> Z.of_nat (st_brk st) + 1 < 2 ^ 32 ->
  exists st', serve fuel st q = Done (st', snd (spec l q)) /\ exclusive st' (<[st_hdr st := fst (spec l q)]> A) (fst (spec l q)) /\ later true st st' /\
    (forall f, ls_alloc (st_store st) f -> ls_alloc (st_store st') f).
Proof.
  intros He Ha Hn Hf Hw Hb. pose proof (exclusive_enough st A l fuel n He Hf Hn) as Hen. destruct q as [k | mem k | k].
  - exists st. rewrite (serve_find st A l k fuel) by done. cbn [spec fst snd]. rewrite insert_id by apply He. split; [done |]. split; [done |]. split; [split; [done | done | lia | done] | done].
  - by apply serve_insert.
  - by apply serve_delete.
Qed.

Lemma zlen_kept {B} (f : B -> bool) l : zlen (List.filter f l) <= zlen l.
Proof. induction l as [|a l IH]; simpl; [done |]. destruct (f a); rewrite !zlen_cons; lia. Qed.

Lemma spec_length l q : ordered compare l -> zlen (fst (spec l q)) <= zlen l + 1.
Proof.
  intros Hord. destruct q as [k | mem k | k]; cbn [spec]; [simpl; lia | |].
  - destruct (with_key l k) as [e|] eqn:Ek; [simpl; lia |]. destruct (gle k); [| simpl; lia]. simpl. rewrite zlen_app, zlen_cons.
    assert (zlen (List.filter (fun a => compare a k <? 0) l) + zlen (List.filter (fun a => 0 <? compare a k) l) <= zlen l); [| lia].
    clear. induction l as [|a l IH]; simpl; [done |]. destruct (Z.ltb_spec (compare a k) 0), (Z.ltb_spec 0 (compare a k)); rewrite ?zlen_cons; lia.
  - destruct (with_key l k) as [e|]; [| simpl; lia]. pose proof (zlen_kept (fun a => negb (compare a k =? 0)) l). simpl. lia.
Qed.

Lemma serve_all_ok qs : forall st A l fuel, exclusive st A l -> Forall (admissible st A) qs ->
  st_maxlevel st + zlen l + zlen qs + 2 < Z.of_nat fuel -> is_u64 (zlen l + zlen qs) -> Z.of_nat (st_brk st) + zlen qs < 2 ^ 32 ->
  exists st', serve_all fuel st qs = Done (st', snd (spec_all l qs)) /\
    exclusive st' (<[st_hdr st := fst (spec_all l qs)]> A) (fst (spec_all l qs)) /\ st_hdr st' = st_hdr st.
Proof.
  induction qs as [|q qs IH]; intros st A l fuel He Ha Hf Hw Hb.
  { exists st. cbn. rewrite insert_id by apply He. done. }
  apply Forall_cons in Ha as [Hq Ha]. rewrite zlen_cons in *. pose proof (zlen_nonneg qs). pose proof (zlen_nonneg l).
  destruct (serve_ok st A l q fuel (zlen qs + 1) He Hq) as (st1 & E & He1 & [Eh Em Eb _] & Hk); [lia | lia | unfold is_u64 in *; lia | lia |].
  pose proof (spec_length l q (exc_ordered _ _ _ He)) as Hl. cbn [serve_all spec_all]. rewrite E. run.
  destruct (spec l q) as [l1 o] eqn:Eq. cbn [fst snd] in *. pose proof (zlen_nonneg l1).
  destruct (IH st1 (<[st_hdr st := l1]> A) l1 fuel He1) as (st' & -> & He' & Eh'); [| lia | unfold is_u64 in *; lia | lia |].
  - eapply Forall_impl; [exact Ha |]. intros [k | mem k | k]; cbn [admissible]; try done. intros (e & G1 & G2 & G3). exists e. split; [done |]. split; [auto |].
    rewrite Eh. intros h l' Hh. rewrite lookup_insert_ne by done. by apply G3.
  - run. destruct (spec_all l1 qs) as [l2 os]. cbn [fst snd] in *. exists st'. rewrite Eh in He', Eh'. rewrite insert_insert_eq in He'. done.
Qed.

End Histories.
End Operations.

Section FromScratch.
Context {S : Type} `{!ListStore S, !SortedStore S}.
Context {L : Type} (compare : nat -> L -> Z) `{!Ordering compare} (gle : L -> option nat) `{!Insertable compare gle}.
Context (sizeof_sl sizeof_junction : Z).

(** [create_sl_skiplist], [init_sl_skiplist] and then the calls. *)
Definition history (x : S) (h : nat) (sl : option (skiplist S)) (prob maxlanes : Z) (fuel : nat) (qs : list (request (L := L)))
  : run (skiplist S * list outcome) :=
  let size := fst (get_size_sl_skiplist sizeof_sl sizeof_junction maxlanes) in
  let* sl := create_sl_skiplist sizeof_sl sizeof_junction true x h sl prob size maxlanes in
  let* (_, sl) := init_sl_skiplist sl true in
  let* st := ok sl in
  serve_all compare gle fuel st qs.

(** C20: every history of EXCLUSIVE calls of [sl_find], [sl_insert] and [sl_delete] on a
    new skip list is a history of the sorted list: it ends, each call reports what
    the sorted list reports (EXACT, OK and the element), whether or not there is
    memory for directory nodes, and the elements left are those of the sorted
    list, in its order. *)
Theorem skiplist_history (x : S) (h : nat) (A : gmap nat (list nat)) (sl : option (skiplist S)) (prob maxlanes : Z) (fuel : nat) (qs : list request) :
  0 < sizeof_sl -> 0 < sizeof_junction -> 1 <= maxlanes <= 254 -> sizeof_sl + 256 * sizeof_junction < 2 ^ 31 -> is_u8 prob ->
  ls_refines x A -> A !! h = None -> ls_raw_header x h ->
  memory_for sizeof_sl sizeof_junction x h (fst (get_size_sl_skiplist sizeof_sl sizeof_junction maxlanes)) sl ->
  (forall k e, gle k = Some e -> compare e k = 0) ->
  Forall (fun q => match q with Insert _ k => exists e, gle k = Some e /\ ls_alloc x e /\ unused A e | _ => True end) qs ->
  maxlanes + zlen qs + 1 < Z.of_nat fuel -> zlen qs + 1 < 2 ^ 32 ->
  exists st, history x h sl prob maxlanes fuel qs = Done (st, snd (spec_all compare gle [] qs)) /\
    sound st (<[h := fst (spec_all compare gle [] qs)]> A) (fst (spec_all compare gle [] qs)) /\
    ordered compare (fst (spec_all compare gle [] qs)).
Proof.
  intros Hsl Hsj Hm Hs Hp HR HA Hraw Hmem Hkey Hqs Hf Hq. unfold history.
  destruct (created_spec sizeof_sl sizeof_junction Hsl Hsj x h A maxlanes prob sl Hm Hs Hp HR HA Hraw Hmem)
    as (st1 & st2 & y & -> & E2 & Hsound & Eh & _ & _ & Hbare & _ & Em & Eb & Hk). run. rewrite E2. run. pose proof (zlen_nonneg qs).
  destruct (serve_all_ok compare gle Hkey qs st2 (<[h := []]> A) [] fuel) as (st' & -> & [H1 _ H3] & _).
  - split; [done | done | constructor].
  - eapply Forall_impl; [exact Hqs |]. intros [k | mem k | k]; cbn [admissible]; try done. intros (e & H1 & H2 & H3). exists e. split; [done |]. split; [auto |].
    rewrite Eh. intros h' l' Hh. rewrite lookup_insert_ne by done. apply H3.
  - rewrite Em. unfold zlen in *. simpl. lia.
  - unfold is_u64, zlen in *. simpl in *. lia.
  - rewrite Eb. lia.
  - rewrite Eh, insert_insert_eq in H1. eauto.
Qed.

End FromScratch.

(** ** On concrete lists

    Elements that are their own keys, as the cache of users by id has them. *)
Definition by_number (e k : nat) : Z := Z.of_nat e - Z.of_nat k.

#[export, refine] Instance number_ordering : Ordering by_number := {| below a b := (a < b)%nat |}.
Proof. unfold by_number. lia. Defined.

#[export] Instance number_insertable : Insertable by_number Some.
Proof. split; intros a k e [= <-]; unfold by_number, below; simpl; lia. Qed.

Definition fresh_list : run (skiplist heap) :=
  let* sl := create_sl_skiplist 200 32 true (new_heap 1 60) 0 None 0 (fst (get_size_sl_skiplist 200 32 10)) 10 in
  let* (_, sl) := init_sl_skiplist sl true in ok sl.

Definition empty_list : skiplist heap :=
  match fresh_list with Done st => st | _ => zeroed 200 32 (new_heap 1 60) 0 0 end.

Lemma fresh_memory : 1 <= 10 <= 254 /\ 200 + 256 * 32 < 2 ^ 31 /\ is_u8 0 /\ ls_refines (new_heap 1 60) ∅ /\
  (∅ : gmap nat (list nat)) !! O = None /\ ls_raw_header (new_heap 1 60) 0.
Proof. do 2 (split; [lia |]). split; [unfold is_u8; lia |]. split; [by intros ? ? ? |]. split; [done |]. apply new_heap_raw. lia. Qed.

Lemma skiplist_created_witness : exists st1 st2,
  create_sl_skiplist 200 32 true (new_heap 1 60) 0 None 0 (fst (get_size_sl_skiplist 200 32 10)) 10 = Done (Some st1) /\
  init_sl_skiplist (Some st1) true = Done (0, Some st2) /\ sound st2 {[O := []]} [] /\ st_maxlevel st2 = 9.
Proof.
  destruct fresh_memory as (H1 & H2 & H3 & H4 & H5 & H6).
  destruct (skiplist_created 200 32 ltac:(lia) ltac:(lia) (new_heap 1 60) 0 ∅ 10 0 None H1 H2 H3 H4 H5 H6 (MemoryNone _ _ _ _ _))
    as (st1 & st2 & y & E1 & E2 & Hs & _ & _ & _ & _ & _ & Hm & _). by exists st1, st2.
Defined.

Lemma empty_sound : sound empty_list {[O := []]} [] /\ bare (st_dirs empty_list) /\ pointed [] (st_dirs empty_list) /\ st_hdr empty_list = O /\
  st_maxlevel empty_list = 9 /\ st_brk empty_list = 1%nat /\ (forall f, (f < 60)%nat -> ls_alloc (st_store empty_list) f).
Proof.
  destruct fresh_memory as (H1 & H2 & H3 & H4 & H5 & H6).
  destruct (created_spec 200 32 ltac:(lia) ltac:(lia) (new_heap 1 60) 0 ∅ 10 0 None H1 H2 H3 H4 H5 H6 (MemoryNone _ _ _ _ _))
    as (st1 & st2 & y & E1 & E2 & Hs & Eh & _ & _ & Hb & Hp & Hm & Hk & Ha).
  assert (empty_list = st2) as -> by (unfold empty_list, fresh_list; rewrite E1; run; by rewrite E2).
  do 6 (split; [done |]). intros f Hf. by apply Ha, new_heap_alloc.
Qed.

Definition numbers : list nat := [30; 4; 17; 52; 8; 41; 23; 1; 36; 12; 47; 20; 9; 33; 55; 2]%nat.

Definition both_ways (i k : nat) : bool * bool * nat := (Nat.even i, negb (k =? 8)%nat, k).

Lemma empty_fresh (reqs : list (bool * bool * nat)) : forall l0, NoDup (l0 ++ (snd <$> reqs)) -> (forall k, k ∈ snd <$> reqs -> (k < 60)%nat) ->
  fresh_keys by_number Some empty_list {[O := []]} l0 reqs (snd <$> reqs).
Proof.
  induction reqs as [|[[ex mem] k] reqs IH]; intros l0 Hn Hlt; [done |]. cbn [fmap list_fmap] in *. cbn [fresh_keys snd] in *.
  apply NoDup_app in Hn as (Hl & Hd & Hr). split; [| split; [done |]].
  { intros f Hf E. unfold by_number in E. assert (f = k) as -> by lia. apply (Hd k Hf). left. }
  split; [apply empty_sound, Hlt; left |]. split; [intros h l [<- <-]%lookup_singleton_Some; set_solver |].
  split; [intros Hin; apply (Hd k Hin); left |]. apply IH; [| intros; apply Hlt; by right].
  apply NoDup_cons in Hr as [Hk Hr]. apply NoDup_cons. split; [| apply NoDup_app; split; [done |]; split; [intros f Hf Hf'; apply (Hd f Hf); by right | done]].
  intros [Hin | Hin]%elem_of_app; [apply (Hd k Hin); left | done].
Qed.

Lemma insertions_sort_witness : exists st l,
  insert_all by_number Some 40 empty_list (imap both_ways numbers) = Done st /\ sound st {[O := l]} l /\
  ordered by_number l /\ l ≡ₚ numbers.
Proof.
  destruct empty_sound as (Hs & _ & _ & Eh & Em & Eb & _).
  destruct (insertions_sort by_number Some (imap both_ways numbers) empty_list {[O := []]} [] numbers 40) as (st & l & E & H1 & _ & H2 & H3);
    [exact Hs | constructor | | | | | exists st, l; rewrite Eh, insert_singleton_eq in H1; rewrite app_nil_r in H3; exact (conj E (conj H1 (conj H2 H3)))].
  - apply (empty_fresh (imap both_ways numbers) []); [apply (bool_decide_unpack _); vm_compute; exact I |].
    intros k. change (k ∈ numbers -> (k < 60)%nat). intros Hk. apply (proj1 (Forall_forall (fun k => (k < 60)%nat) numbers)); [| done].
    apply (bool_decide_unpack _). vm_compute. exact I.
  - rewrite Em. change (zlen (imap both_ways numbers)) with 16. change (zlen []) with 0. lia.
  - change (zlen (imap both_ways numbers)) with 16. change (zlen []) with 0. unfold is_u64. lia.
  - rewrite Eb. change (zlen (imap both_ways numbers)) with 16. lia.
Defined.

(** The list those insertions leave. *)
Definition sixteen : run (skiplist heap) := insert_all by_number Some 40 empty_list (imap both_ways numbers).

Lemma sixteen_sorted : exists st l, sixteen = Done st /\ sound st {[O := l]} l /\ ordered by_number l /\ l ≡ₚ numbers /\ enough 40 st l.
Proof.
  destruct empty_sound as (Hs & _ & _ & Eh & Em & Eb & _).
  assert (fresh_keys by_number Some empty_list {[O := []]} [] (imap both_ways numbers) numbers) as Hfresh.
  { apply (empty_fresh (imap both_ways numbers) []); [apply (bool_decide_unpack _); vm_compute; exact I |].
    intros k. change (k ∈ numbers -> (k < 60)%nat). intros Hk. apply (proj1 (Forall_forall (fun k => (k < 60)%nat) numbers)); [| done].
    apply (bool_decide_unpack _). vm_compute. exact I. }
  assert (zlen (imap both_ways numbers) = 16) as El by (vm_compute; reflexivity).
  destruct (insert_all_spec by_number Some (imap both_ways numbers) empty_list {[O := []]} [] numbers 40) as (st & l & E & H1 & Eh' & H2 & H3);
    [exact Hs | constructor | exact Hfresh | rewrite Em, El; change (zlen []) with 0; lia | rewrite El; change (zlen []) with 0; unfold is_u64; lia | rewrite Eb, El; lia |].
  exists st, l. rewrite Eh, insert_singleton_eq in H1. rewrite app_nil_r in H3. split; [exact E |]. split; [exact H1 |]. split; [exact H2 |]. split; [exact H3 |].
  intros x Hx. assert (d_level x <= 9) as Hlev.
  { assert (match sixteen with Done st => bool_decide (st_maxlevel st = 9) | _ => false end = true) as Hm by (vm_compute; reflexivity).
    unfold sixteen in Hm. rewrite E in Hm. apply bool_decide_eq_true in Hm. destruct (good_head _ (sound_good _ _ _ H1)) as (y & Hy & Hhd & _).
    pose proof (hd_level _ _ Hhd). congruence || (rewrite Hx in Hy; injection Hy as <-; lia). }
  assert (zlen l = 16) as -> by (unfold zlen; rewrite H3; reflexivity). lia.
Qed.

Local Opaque sixteen.

Lemma sl_find_correct_witness : exists st r, sixteen = Done st /\
  sl_find by_number true 40 st 23%nat (init_sl_searchresult (mode false)) = Done (st, r) /\
  has (r_flags r) SL_SEARCHRESULT_FLAG_EXACT = true /\ r_found r = Some 23%nat.
Proof.
  destruct sixteen_sorted as (st & l & E & Hs & Hord & Hp & Hen).
  assert (23%nat ∈ l) as Hin by (rewrite Hp; apply (bool_decide_unpack _); vm_compute; exact I).
  destruct Hs as [Hg Hq HR HA].
  destruct (sl_find_correct by_number false st {[O := l]} l 23%nat 40 (good_searchable _ Hg) Hq HR HA Hord Hen) as (r & fl & E1 & _ & _ & H1 & H2).
  exists st, r. split; [exact E |]. split; [exact E1 |]. clear E E1 Hg Hq HR HA Hen. split; [exact (proj2 H1 (ex_intro _ 23%nat (conj Hin eq_refl))) | exact (H2 23%nat Hin eq_refl)].
Defined.

Lemma sl_insert_correct_witness : exists st r, sixteen = Done st /\
  sl_insert by_number Some true true 40 st 23%nat (init_sl_searchresult (mode false)) = Done (st, r) /\ r_found r = Some 23%nat /\
  exists st' r' l1 l2, sl_insert by_number Some true true 40 st 24%nat (init_sl_searchresult (mode false)) = Done (st', r') /\
    sound st' {[O := l1 ++ 24%nat :: l2]} (l1 ++ 24%nat :: l2).
Proof.
  destruct sixteen_sorted as (st & l & E & Hs & Hord & Hp & Hen). exists st.
  assert (match sixteen with Done st => bool_decide (is_Some (elems (st_store st) !! Elt 24)) && (st_brk st <? 100)%nat && (st_hdr st =? 0)%nat | _ => false end = true) as Ha
    by (vm_compute; reflexivity). rewrite E in Ha. apply andb_prop in Ha as [[Ha%bool_decide_eq_true Hb%Nat.ltb_lt]%andb_prop Hh%Nat.eqb_eq].
  assert (24%nat ∉ l) as Hout by (rewrite Hp; apply (bool_decide_unpack _); vm_compute; exact I).
  destruct (sl_insert_correct by_number Some false st {[O := l]} l 23%nat 40 true Hs Hord Hen) as [H1 _].
  destruct (H1 23%nat) as (r & E1 & E2 & _); [rewrite Hp; apply (bool_decide_unpack _); vm_compute; exact I | reflexivity |].
  exists r. split; [exact E |]. split; [exact E1 |]. split; [exact E2 |].
  destruct (sl_insert_correct by_number Some false st {[O := l]} l 24%nat 40 true Hs Hord Hen) as [_ H2].
  destruct (H2 24%nat) as (st' & r' & l1 & l2 & E3 & _ & _ & _ & H3 & _).
  - unfold by_number. intros f Hf Ef. assert (f = 24%nat) as -> by lia. exact (Hout Hf).
  - reflexivity.
  - exact Ha.
  - intros h k [<- <-]%lookup_singleton_Some. exact Hout.
  - assert (zlen l = 16) as -> by (unfold zlen; rewrite Hp; reflexivity). unfold is_u64. lia.
  - lia.
  - exists st', r', l1, l2. split; [exact E3 |]. rewrite Hh, insert_singleton_eq in H3. exact H3.
Defined.

Definition some_calls : list (request (L := nat)) :=
  (Insert true <$> numbers) ++ [Find 12; Delete 12; Find 12; Insert false 12; Delete 55; Delete 1; Find 47; Insert true 47]%nat.

Lemma skiplist_history_witness : exists st,
  history by_number Some 200 32 (new_heap 1 60) 0 None 0 10 60 some_calls = Done (st, snd (spec_all by_number Some [] some_calls)) /\
  fst (spec_all by_number Some [] some_calls) = [2; 4; 8; 9; 12; 17; 20; 23; 30; 33; 36; 41; 47; 52]%nat /\
  drop 16 (snd (spec_all by_number Some [] some_calls)) =
    [mk_outcome true false (Some 12%nat); mk_outcome true true (Some 12%nat); mk_outcome false false None; mk_outcome false true (Some 12%nat);
     mk_outcome true true (Some 55%nat); mk_outcome true true (Some 1%nat); mk_outcome true false (Some 47%nat); mk_outcome true false (Some 47%nat)].
Proof.
  destruct fresh_memory as (H1 & H2 & H3 & H4 & H5 & H6).
  destruct (skiplist_history by_number Some 200 32 (new_heap 1 60) 0 ∅ None 0 10 60 some_calls ltac:(lia) ltac:(lia) H1 H2 H3 H4 H5 H6 (MemoryNone _ _ _ _ _))
    as (st & E & _).
  - intros k e [= <-]. unfold by_number. lia.
  - apply Forall_forall. intros [k | mem k | k] Hq; try exact I. exists k. split; [done |]. split; [| by intros ? ? ?]. apply new_heap_alloc.
    assert (Forall (fun q => match q with Insert _ k => (k < 60)%nat | _ => True end) some_calls) as Hall by (repeat constructor).
    exact (proj1 (Forall_forall _ _) Hall _ Hq).
  - change (zlen some_calls) with 24. lia.
  - change (zlen some_calls) with 24. lia.
  - exists st. split; [exact E |]. split; vm_compute; reflexivity.
Defined.

(** ** What becomes of the lanes *)

(** The elements a lane goes along. *)
Fixpoint lane (fuel : nat) (st : skiplist heap) (d i : nat) : list nat :=
  match fuel with
  | O => []
  | Datatypes.S fuel =>
      match jget (st_dirs st) d i with
      | Some j =>
          match j_n j with
          | Some (Datatypes.S n) =>
              match st_dirs st !! Datatypes.S n with
              | Some y => match d_list y with Some e => e :: lane fuel st (Datatypes.S n) i | None => [] end
              | None => []
              end
          | _ => []
          end
      | None => []
      end
  end.

Definition locked (k : nat) : bool * bool * nat := (false, true, k).
Definition unlocked (k : nat) : bool * bool * nat := (true, true, k).

(** Deletions one after the other, with locks. *)
Fixpoint delete_all (fuel : nat) (st : skiplist heap) (ks : list nat) : run (skiplist heap) :=
  match ks with
  | [] => Done st
  | k :: ks => let* (st, _) := sl_delete by_number true fuel st k (init_sl_searchresult (mode false)) in delete_all fuel st ks
  end.

Definition shuffled : list nat := ((fun i => (i * 17 + 1) mod 53) <$> seq 0 53)%nat.

Definition result_of {B} (x : run (skiplist heap)) (f : skiplist heap -> B) (d : B) : B := match x with Done st => f st | _ => d end.

(** A search for a key beyond the last element returns before it goes along the lanes,
    with the head in its vector, so the new node is linked after the head: fifty
    insertions in order, with locks, leave a lane that goes backwards. *)
Theorem lanes_out_of_order :
  result_of (insert_all by_number Some 90 empty_list (locked <$> seq 0 50)) (fun st => lane 60 st 0 0) [] = [47; 41; 35; 29; 23; 17; 11; 5]%nat.
Proof. vm_compute. reflexivity. Qed.

(** Without locks [remove_lock_vector_nolock] drops the corrections of the steps, so no
    directory node is ever made: every search is along the whole list. *)
Theorem exclusive_has_no_lanes :
  result_of (insert_all by_number Some 90 empty_list (unlocked <$> seq 0 50)) (fun st => (st_brk st, lane 60 st 0 0)) (O, []) = (1%nat, []).
Proof. vm_compute. reflexivity. Qed.

(** [correct_sl_dirnodes_remove] takes a node from its lane without the pointer back
    of the next one and frees it; with locks, a later deletion follows that pointer. *)
Theorem delete_follows_freed_node :
  (let* st := insert_all by_number Some 90 empty_list (locked <$> shuffled) in delete_all 90 st [2; 3; 4; 5; 6]%nat) = Fault /\
  result_of (let* st := insert_all by_number Some 90 empty_list (locked <$> shuffled) in delete_all 90 st [2; 3; 4; 5]%nat)
    (fun st => ls_count (st_store st) (st_hdr st)) None = Some 49.
Proof. split; vm_compute; reflexivity. Qed.

End SkipSorted.
