(* ===== verification/SshSetup.v ===== *)
(** * ssh/connections/setup.c: the phases of a connection

    The state of the set up of a connection: the phase it is in, the member of the
    union that belongs to the phase, the flags of what is done, and the queue of
    payloads for the thread that does the set up.  The functions hold the mutex of
    the signal from begin to end and are one step each; a wait is a function of the
    steps of the other threads.  [setup_ssh_session] of ssh/ssh-common.c composes
    them, with the exchange of keys and the authentication as parameters. *)
From stdpp Require Import base list option.
From Stdlib Require Import ZArith Lia.
From S2P Require Import Prelude SshUint SshCipher SshPacket SshPayload.
Import SshUint SshPayload.
Open Scope Z_scope.

Module SshSetup.

Definition SSH_SETUP_PHASE_TRANSPORT := 1.
Definition SSH_SETUP_PHASE_SERVICE := 2.
Definition SSH_TRANSPORT_TYPE_GREETER := 1.
Definition SSH_TRANSPORT_TYPE_KEX := 2.
Definition SSH_SERVICE_TYPE_AUTH := 1.
Definition SSH_SERVICE_TYPE_CONNECTION := 2.

Definition SSH_GREETER_FLAG_C2S := 1.
Definition SSH_GREETER_FLAG_S2C := 2.
Definition SSH_KEX_FLAG_KEXINIT_C2S := 1.
Definition SSH_KEX_FLAG_KEXINIT_S2C := 2.
Definition SSH_KEX_FLAG_KEXDH_C2S := 4.
Definition SSH_KEX_FLAG_KEXDH_S2C := 8.
Definition SSH_KEX_FLAG_NEWKEYS_C2S := 16.
Definition SSH_KEX_FLAG_NEWKEYS_S2C := 32.
Definition SSH_AUTH_METHOD_NONE := 1.
Definition SSH_AUTH_METHOD_PUBLICKEY := 2.
Definition SSH_AUTH_METHOD_PASSWORD := 4.
Definition SSH_AUTH_METHOD_HOSTBASED := 8.
Definition SSH_AUTH_METHOD_UNKNOWN := 16.

Definition SSH_SETUP_FLAG_GREETER := 1.
Definition SSH_SETUP_FLAG_KEX := 2.
Definition SSH_SETUP_FLAG_TRANSPORT := 4.
Definition SSH_SETUP_FLAG_SERVICE_AUTH := 8.
Definition SSH_SETUP_FLAG_SERVICE_CONNECTION := 16.
Definition SSH_SETUP_FLAG_SETUPTHREAD := 2 ^ 27.
Definition SSH_SETUP_FLAG_HOSTINFO := 2 ^ 28.
Definition SSH_SETUP_FLAG_ANALYZETHREAD := 2 ^ 29.
Definition SSH_SETUP_FLAG_DISCONNECTING := 2 ^ 30.
Definition SSH_SETUP_FLAG_DISCONNECTED := 2 ^ 31.
Definition SSH_SETUP_FLAG_DISCONNECT := Z.lor SSH_SETUP_FLAG_DISCONNECTING SSH_SETUP_FLAG_DISCONNECTED.

Definition SSH_SETUP_OPTION_XOR := 1.
Definition SSH_SETUP_OPTION_UNDO := 2.

(** The masks [all] of the functions. *)
Definition all_greeter := Z.lor SSH_GREETER_FLAG_C2S SSH_GREETER_FLAG_S2C.
Definition all_kex := 63.
Definition all_auth := 15.
Definition all_phases := 15.
Definition all_setup := Z.lor SSH_SETUP_FLAG_DISCONNECT (Z.lor SSH_SETUP_FLAG_ANALYZETHREAD (Z.lor SSH_SETUP_FLAG_SETUPTHREAD SSH_SETUP_FLAG_HOSTINFO)).

(** ** The state *)

(** [struct ssh_keyexchange_s]: the flags, the two KEXINIT messages, the six keys
    and the chosen algorithms. *)
Record kex : Type := mkKex { kx_flags : Z; kx_server : bytes; kx_client : bytes; kx_keys : list bytes; kx_chosen : list Z }.

(** [struct ssh_auth_s]; the strings are hostname, ip and the user names. *)
Record auth : Type := mkAuth { au_required : Z; au_done : Z; au_hostname : bytes; au_ip : bytes; au_c_username : bytes; au_s_username : bytes }.

(** The union [phase]: the member that was stored last.  The two fields [status]
    at its start are one word. *)
Inductive member : Type := NoMember | Greeter (flags : Z) | Kex (k : kex) | Auth (a : auth).

Record setup : Type := mkSetup {
  su_status : Z; su_flags : Z; su_error : Z; su_type : Z; su_member : member; su_thread : Z; su_queue : queue }.

Definition set_status x s := mkSetup x (su_flags s) (su_error s) (su_type s) (su_member s) (su_thread s) (su_queue s).
Definition set_flags x s := mkSetup (su_status s) x (su_error s) (su_type s) (su_member s) (su_thread s) (su_queue s).
Definition set_member x s := mkSetup (su_status s) (su_flags s) (su_error s) (su_type s) x (su_thread s) (su_queue s).
Definition set_thread x s := mkSetup (su_status s) (su_flags s) (su_error s) (su_type s) (su_member s) x (su_queue s).
Definition set_squeue x s := mkSetup (su_status s) (su_flags s) (su_error s) (su_type s) (su_member s) (su_thread s) x.

(** Reading a member that was not stored last is undefined here. *)
Definition greeter_of (s : setup) : outcome Z := match su_member s with Greeter f => Ret f | _ => Ub end.
Definition kex_of (s : setup) : outcome kex := match su_member s with Kex k => Ret k | _ => Ub end.
Definition auth_of (s : setup) : outcome auth := match su_member s with Auth a => Ret a | _ => Ub end.

Definition set_kflags x k := mkKex x (kx_server k) (kx_client k) (kx_keys k) (kx_chosen k).
Definition set_done x a := mkAuth (au_required a) x (au_hostname a) (au_ip a) (au_c_username a) (au_s_username a).
Definition set_required x a := mkAuth x (au_done a) (au_hostname a) (au_ip a) (au_c_username a) (au_s_username a).

Definition in_phase (s : setup) (status type : Z) : bool := (su_status s =? status) && (su_type s =? type).

(** ** Clearing *)

Definition clear_ssh_auth (a : auth) : auth := mkAuth (au_required a) (au_done a) [] [] [] [].

Definition clear_ssh_setup (s : setup) : outcome setup :=
  if su_status s =? SSH_SETUP_PHASE_TRANSPORT then
    if su_type s =? SSH_TRANSPORT_TYPE_KEX then
      let! k := kex_of s in
      Ret (set_member (Kex (mkKex (kx_flags k) [] [] (replicate 6 []) (kx_chosen k))) s)
    else Ret s
  else if su_status s =? SSH_SETUP_PHASE_SERVICE then
    if su_type s =? SSH_SERVICE_TYPE_AUTH then
      let! a := auth_of s in Ret (set_member (Auth (clear_ssh_auth a)) s)
    else Ret s
  else Ret s.

(** ** init_ssh_connection_setup *)

Inductive init_phase : Type := InitInit | InitTransport | InitService | InitClear | InitOther.

Definition init_ssh_auth : auth := mkAuth 0 0 [] [] [] [].

Definition SSH_ALGO_TYPES_COUNT : nat := 10.
Definition init_kex : kex := mkKex 0 [] [] (replicate 6 []) (replicate SSH_ALGO_TYPES_COUNT (-1)).

(** [if (setup->flags & f) setup->flags -= f] *)
Definition drop_flag (f : Z) (flags : Z) : Z := if has flags f then u32 (flags - f) else flags.

(** The phase "free", which ends the struct, is left out. *)
Definition init_ssh_connection_setup (s : setup) (phase : init_phase) (type : Z) : outcome setup :=
  match phase with
  | InitInit => Ret (mkSetup 0 0 0 (su_type s) (su_member s) (su_thread s) init_payload_queue)
  | InitTransport =>
      if in_phase s SSH_SETUP_PHASE_TRANSPORT type then Ret s else
      let! s := clear_ssh_setup s in
      if type =? SSH_TRANSPORT_TYPE_GREETER then
        Ret (mkSetup SSH_SETUP_PHASE_TRANSPORT (drop_flag SSH_SETUP_FLAG_GREETER (su_flags s)) (su_error s) type (Greeter 0) (su_thread s) (su_queue s))
      else if type =? SSH_TRANSPORT_TYPE_KEX then
        Ret (mkSetup SSH_SETUP_PHASE_TRANSPORT (drop_flag SSH_SETUP_FLAG_KEX (su_flags s)) (su_error s) type (Kex init_kex) (su_thread s) (su_queue s))
      else Ret s
  | InitService =>
      if in_phase s SSH_SETUP_PHASE_SERVICE type then Ret s else
      let! s := clear_ssh_setup s in
      if type =? SSH_SERVICE_TYPE_AUTH then
        Ret (mkSetup SSH_SETUP_PHASE_SERVICE (drop_flag SSH_SETUP_FLAG_SERVICE_AUTH (su_flags s)) (su_error s) type (Auth init_ssh_auth) (su_thread s) (su_queue s))
      else Ret s
  | InitClear =>
      let! s := clear_ssh_setup s in
      Ret (set_status 0 (set_squeue (snd (clear_payload_queue (su_queue s))) s))
  | InitOther => Ret s
  end.

(** ** finish_ssh_connection_setup *)

(** The strings the functions compare their argument [phase] with; [PhEmpty] is
    NULL or the empty string. *)
Inductive phase_name : Type := PhEmpty | PhTransport | PhService | PhSetup | PhOther.

Definition add_flag (f : Z) (s : setup) : setup := set_flags (Z.lor (su_flags s) f) s.

Definition finish_ssh_connection_setup (self : Z) (s : setup) (phase : phase_name) (type : Z) : outcome setup :=
  match phase with
  | PhTransport =>
      if su_status s =? SSH_SETUP_PHASE_TRANSPORT then
        if type =? SSH_TRANSPORT_TYPE_GREETER then Ret (add_flag SSH_SETUP_FLAG_GREETER s)
        else if type =? SSH_TRANSPORT_TYPE_KEX then Ret (add_flag SSH_SETUP_FLAG_KEX s)
        else if type =? 0 then let! s := clear_ssh_setup (add_flag SSH_SETUP_FLAG_TRANSPORT s) in Ret (set_status 0 s)
        else Ret s
      else Ret s
  | PhService =>
      if su_status s =? SSH_SETUP_PHASE_SERVICE then
        if type =? SSH_SERVICE_TYPE_AUTH then Ret (add_flag SSH_SETUP_FLAG_SERVICE_AUTH s)
        else if type =? 0 then let! s := clear_ssh_setup (add_flag SSH_SETUP_FLAG_SERVICE_CONNECTION s) in Ret (set_status 0 s)
        else Ret s
      else Ret s
  | PhSetup =>
      if (type =? 0) && has (su_flags s) SSH_SETUP_FLAG_SETUPTHREAD && (su_thread s =? self)
      then Ret (set_flags (u32 (su_flags s - SSH_SETUP_FLAG_SETUPTHREAD)) (set_thread 0 s))
      else Ret s
  | PhEmpty | PhOther => clear_ssh_setup s
  end.

(** ** change_ssh_connection_setup *)

(** The treatment of [flag] against the word [cur]: the word and the flag to set
    in it; [None] is the result -1. *)
Definition change_word (cur flag opts : Z) : option (Z * Z) :=
  let common := Z.land cur flag in
  if common =? 0 then Some (cur, flag)
  else if has opts SSH_SETUP_OPTION_XOR then None
  else if has opts SSH_SETUP_OPTION_UNDO then Some (Z.ldiff cur common, Z.ldiff flag common)
  else Some (cur, flag).

(** What a call does: its result, whether [setup_cb] was called, and the state. *)
Record changed : Type := mkChanged { cd_result : Z; cd_called : bool; cd_setup : setup }.

(** [if (setup_cb) result = setup_cb (connection, data)]; [cb] is its result. *)
Definition call_cb (cb : option Z) (s : setup) : changed :=
  match cb with Some r => mkChanged r true s | None => mkChanged 0 false s end.

(** The word of a member: nothing is done when no bit of [flag] is left. *)
Definition change_member (s : setup) (cur flag opts : Z) (cb : option Z) (store : Z -> member) : changed :=
  if flag =? 0 then mkChanged 0 false s else
  match change_word cur flag opts with
  | None => mkChanged (-1) false s
  | Some (cur, flag) => call_cb cb (set_member (store (Z.lor cur flag)) s)
  end.

(** The flags of the set up itself. *)
Definition change_flags (self : Z) (s : setup) (flag opts : Z) (cb : option Z) : changed :=
  let flag := Z.land flag all_setup in
  let flag := if has (su_flags s) SSH_SETUP_FLAG_DISCONNECT && has flag SSH_SETUP_FLAG_DISCONNECTING
              then Z.ldiff flag SSH_SETUP_FLAG_DISCONNECTING else flag in
  if flag =? 0 then mkChanged (-1) false s else
  match change_word (su_flags s) flag opts with
  | None => mkChanged (-1) false s
  | Some (cur, flag) =>
      let s := set_flags cur s in
      let s := if has flag SSH_SETUP_FLAG_SETUPTHREAD then set_thread self s else s in
      let s := if has flag SSH_SETUP_FLAG_DISCONNECTED then set_flags (Z.ldiff (su_flags s) SSH_SETUP_FLAG_DISCONNECTING) s else s in
      call_cb cb (add_flag flag s)
  end.

Definition change_ssh_connection_setup (self : Z) (s : setup) (phase : phase_name) (type flag opts : Z) (cb : option Z) : outcome changed :=
  match phase with
  | PhEmpty => Ret (call_cb cb (add_flag (Z.land flag all_phases) s))
  | PhTransport =>
      if in_phase s SSH_SETUP_PHASE_TRANSPORT type then
        if type =? SSH_TRANSPORT_TYPE_GREETER then
          let! f := greeter_of s in Ret (change_member s f (Z.land flag all_greeter) opts cb Greeter)
        else if type =? SSH_TRANSPORT_TYPE_KEX then
          let! k := kex_of s in Ret (change_member s (kx_flags k) (Z.land flag all_kex) opts cb (fun w => Kex (set_kflags w k)))
        else Ret (mkChanged 0 false s)
      else Ret (mkChanged (-1) false s)
  | PhService =>
      if in_phase s SSH_SETUP_PHASE_SERVICE type then
        if type =? SSH_SERVICE_TYPE_AUTH then
          let! a := auth_of s in Ret (change_member s (au_done a) (Z.land flag all_auth) opts cb (fun w => Auth (set_done w a)))
        else Ret (mkChanged 0 false s)
      else Ret (mkChanged (-1) false s)
  | PhSetup => Ret (change_flags self s flag opts cb)
  | PhOther => Ret (mkChanged 0 false s)
  end.

(** ** Checking and waiting *)

Definition check_flag_bits (flags flag : Z) : Z := if Z.land flags flag =? flag then 1 else 0.

Definition check_ssh_connection_setup (s : setup) (phase : phase_name) (type flag : Z) : outcome Z :=
  match phase with
  | PhEmpty => Ret (check_flag_bits (su_flags s) (if flag =? 0 then all_phases else Z.land flag all_phases))
  | PhTransport =>
      if in_phase s SSH_SETUP_PHASE_TRANSPORT type then
        if type =? SSH_TRANSPORT_TYPE_GREETER then
          let! f := greeter_of s in Ret (check_flag_bits f (if flag =? 0 then all_greeter else flag))
        else if type =? SSH_TRANSPORT_TYPE_KEX then
          let! k := kex_of s in Ret (check_flag_bits (kx_flags k) (if flag =? 0 then all_kex else flag))
        else Ret (-1)
      else Ret (-1)
  | PhService =>
      if in_phase s SSH_SETUP_PHASE_SERVICE type then
        if type =? SSH_SERVICE_TYPE_AUTH then
          let! a := auth_of s in
          let flag := Z.land flag all_auth in
          Ret (check_flag_bits (au_done a) (if flag =? 0 then au_required a else flag))
        else Ret (-1)
      else Ret (-1)
  | PhSetup => Ret (check_flag_bits (su_flags s) (if flag =? 0 then all_setup else flag))
  | PhOther => Ret (-1)
  end.

(** What other threads do to the set up, with the mutex. *)
Inductive op : Type :=
| OpInit (phase : init_phase) (type : Z)
| OpFinish (self : Z) (phase : phase_name) (type : Z)
| OpChange (self : Z) (phase : phase_name) (type flag opts : Z) (cb : option Z)
| OpQueue (p : received).

(** One step, with the result of a change. *)
Definition step (s : setup) (o : op) : outcome (setup * Z) :=
  match o with
  | OpInit phase type => let! s := init_ssh_connection_setup s phase type in Ret (s, 0)
  | OpFinish self phase type => let! s := finish_ssh_connection_setup self s phase type in Ret (s, 0)
  | OpChange self phase type flag opts cb => let! c := change_ssh_connection_setup self s phase type flag opts cb in Ret (cd_setup c, cd_result c)
  | OpQueue p => Ret (set_squeue (queue_ssh_payload (su_queue s) p) s, 0)
  end.

Fixpoint steps (s : setup) (os : list op) : outcome (setup * list Z) :=
  match os with
  | [] => Ret (s, [])
  | o :: os => let! (s, r) := step s o in let! (s, rs) := steps s os in Ret (s, r :: rs)
  end.

(** [None]: nothing more happens and the thread sleeps. *)
Fixpoint wait_ssh_connection_setup_change (s : setup) (phase : phase_name) (type flag : Z) (evs : list op) : outcome (option (Z * setup * list op)) :=
  let! result := check_ssh_connection_setup s phase type flag in
  if result =? 0 then
    match evs with
    | [] => Ret None
    | o :: evs => let! (s, _) := step s o in wait_ssh_connection_setup_change s phase type flag evs
    end
  else Ret (Some (if result =? 1 then 0 else -1, s, evs)).

(** ** setup_ssh_session *)

Section Session.

(** The exchange of keys and the authentication, with what they do to the set up. *)
Context (key_exchange start_ssh_userauth : setup -> outcome (Z * setup)).
Context (self : Z) (server : bool).

(** What a set up ends with: the result, and whether the messages of channels are
    accepted from then on. *)
Record session : Type := mkSession { ss_result : Z; ss_setup : setup; ss_channels : bool }.

Definition out_setup (s : setup) (result : Z) (channels : bool) : outcome (option session) :=
  let! s := finish_ssh_connection_setup self s PhSetup 0 in Ret (Some (mkSession result s channels)).

Definition out_auth (s : setup) (result : Z) (channels : bool) : outcome (option session) :=
  let! s := finish_ssh_connection_setup self s PhService SSH_SERVICE_TYPE_AUTH in
  let! s := finish_ssh_connection_setup self s PhService 0 in
  out_setup s result channels.

Definition start_service (s : setup) : outcome (option session) :=
  let! s := init_ssh_connection_setup s InitService SSH_SERVICE_TYPE_AUTH in
  let! (result, s) := start_ssh_userauth s in
  if result =? -1 then out_auth s (-1) false else
  let! c := check_ssh_connection_setup s PhService SSH_SERVICE_TYPE_AUTH 0 in
  if c <? 1 then out_auth s result false
  else out_auth s 0 (if server then result =? SSH_SERVICE_TYPE_CONNECTION else true).

Definition start_transport (s : setup) : outcome (option session) :=
  let! s := init_ssh_connection_setup s InitTransport SSH_TRANSPORT_TYPE_KEX in
  let! (result, s) := key_exchange s in
  if result =? -1 then out_setup s (-1) false else
  let! c := check_ssh_connection_setup s PhTransport SSH_TRANSPORT_TYPE_KEX 0 in
  if c <? 1 then
    let! s := finish_ssh_connection_setup self s PhTransport 0 in out_setup s result false
  else
    let! s := finish_ssh_connection_setup self s PhTransport SSH_TRANSPORT_TYPE_KEX in
    let! s := finish_ssh_connection_setup self s PhTransport 0 in
    start_service s.

(** [sent]: [send_ssh_greeter] succeeds.  [evs]: what the other threads do until the
    greeters are exchanged.  [None]: the thread waits for ever. *)
Definition setup_ssh_session (sent : bool) (evs : list op) (s : setup) : outcome (option session) :=
  let! c := change_ssh_connection_setup self s PhSetup 0 SSH_SETUP_FLAG_SETUPTHREAD 0 None in
  let! s := init_ssh_connection_setup (cd_setup c) InitTransport SSH_TRANSPORT_TYPE_GREETER in
  if sent then
    let! c := change_ssh_connection_setup self s PhTransport SSH_TRANSPORT_TYPE_GREETER SSH_GREETER_FLAG_C2S 0 None in
    let! w := wait_ssh_connection_setup_change (cd_setup c) PhTransport SSH_TRANSPORT_TYPE_GREETER all_greeter evs in
    match w with
    | None => Ret None
    | Some (r, s, _) => if r =? -1 then out_setup s (-1) false else start_transport s
    end
  else out_setup s (-1) false.

End Session.

(** ** Words of flags *)

Lemma has_bit x k : 0 <= k -> has x (2 ^ k) = Z.testbit x k.
Proof.
  intros Hk. unfold has. destruct (Z.testbit x k) eqn:E.
  - destruct (Z.eqb_spec (Z.land x (2 ^ k)) 0) as [H|]; [| done]. apply (f_equal (fun z => Z.testbit z k)) in H.
    rewrite Z.land_spec, E, Z.bits_0, Z.pow2_bits_true in H by done. done.
  - destruct (Z.eqb_spec (Z.land x (2 ^ k)) 0) as [|H]; [done |]. exfalso. apply H. apply Z.bits_inj'. intros n Hn.
    rewrite Z.land_spec, Z.bits_0. destruct (Z.eq_dec n k) as [->|Hne]; [by rewrite E |]. rewrite Z.pow2_bits_false by done. apply andb_false_r.
Qed.

Lemma bits_are_u32 x : (forall n, 32 <= n -> Z.testbit x n = false) -> is_u32 x.
Proof.
  intros H. assert (u32 x = x) as <-; [| apply u32_range]. unfold u32. apply Z.bits_inj'. intros n Hn. destruct (Z.lt_ge_cases n 32).
  - by rewrite Z.mod_pow2_bits_low by lia.
  - rewrite Z.mod_pow2_bits_high by lia. symmetry. by apply H.
Qed.

Lemma bits_u32 x n : is_u32 x -> 32 <= n -> Z.testbit x n = false.
Proof. intros Hx Hn. rewrite <- (u32_id x Hx). unfold u32. apply Z.mod_pow2_bits_high. lia. Qed.

Lemma lor_u32 x y : is_u32 x -> is_u32 y -> is_u32 (Z.lor x y).
Proof. intros Hx Hy. apply bits_are_u32. intros n Hn. rewrite Z.lor_spec, !bits_u32 by done. done. Qed.

Lemma ldiff_u32 x y : is_u32 x -> is_u32 (Z.ldiff x y).
Proof. intros Hx. apply bits_are_u32. intros n Hn. rewrite Z.ldiff_spec, bits_u32 by done. done. Qed.

Lemma land_u32 x m : is_u32 m -> is_u32 (Z.land x m).
Proof. intros Hm. apply bits_are_u32. intros n Hn. rewrite Z.land_spec, (bits_u32 m) by done. apply andb_false_r. Qed.

Lemma drop_bit x k : is_u32 x -> 0 <= k -> has x (2 ^ k) = true -> u32 (x - 2 ^ k) = Z.ldiff x (2 ^ k).
Proof.
  intros Hx Hk Hb. rewrite has_bit in Hb by done. rewrite Z.sub_nocarry_ldiff; [by apply u32_id, ldiff_u32 |].
  apply Z.bits_inj'. intros n Hn. rewrite Z.ldiff_spec, Z.bits_0. destruct (Z.eq_dec n k) as [->|Hne].
  - by rewrite Hb, andb_false_r.
  - by rewrite Z.pow2_bits_false.
Qed.

Lemma drop_flag_bit x k : is_u32 x -> 0 <= k -> drop_flag (2 ^ k) x = Z.ldiff x (2 ^ k).
Proof.
  intros Hx Hk. unfold drop_flag. destruct (has x (2 ^ k)) eqn:E; [by apply drop_bit |]. rewrite has_bit in E by done.
  symmetry. apply Z.bits_inj'. intros n Hn. rewrite Z.ldiff_spec. destruct (Z.eq_dec n k) as [->|Hne].
  - by rewrite E.
  - rewrite Z.pow2_bits_false by done. by rewrite andb_true_r.
Qed.

(** ** The discipline of the union *)

(** The member in use is the one of the phase. *)
Record su_ok (s : setup) : Prop := {
  so_status : su_status s = 0 \/ su_status s = SSH_SETUP_PHASE_TRANSPORT \/ su_status s = SSH_SETUP_PHASE_SERVICE;
  so_transport : su_status s = SSH_SETUP_PHASE_TRANSPORT ->
    (su_type s = SSH_TRANSPORT_TYPE_GREETER /\ exists f, su_member s = Greeter f) \/ (su_type s = SSH_TRANSPORT_TYPE_KEX /\ exists k, su_member s = Kex k);
  so_service : su_status s = SSH_SETUP_PHASE_SERVICE -> su_type s = SSH_SERVICE_TYPE_AUTH /\ exists a, su_member s = Auth a;
  so_flags : is_u32 (su_flags s)
}.

#[export] Hint Resolve lor_u32 ldiff_u32 land_u32 u32_range : osns.

(** Changes that keep the phase and its member. *)
Definition same_kind (m m' : member) : Prop :=
  match m, m' with NoMember, NoMember | Greeter _, Greeter _ | Kex _, Kex _ | Auth _, Auth _ => True | _, _ => False end.

Lemma same_kind_refl m : same_kind m m.
Proof. by destruct m. Qed.

Lemma su_ok_keep s s' : su_ok s -> su_status s' = su_status s -> su_type s' = su_type s -> same_kind (su_member s) (su_member s') ->
  is_u32 (su_flags s') -> su_ok s'.
Proof.
  intros [H1 H2 H3 H4] E1 E2 Hm Hf. split; rewrite ?E1, ?E2; [done | | | done].
  - intros E. destruct (H2 E) as [[? [f Ef]] | [? [k Ek]]]; [left | right]; (split; [done |]).
    + rewrite Ef in Hm. destruct (su_member s'); try done. by eexists.
    + rewrite Ek in Hm. destruct (su_member s'); try done. by eexists.
  - intros E. destruct (H3 E) as [? [a Ea]]. split; [done |]. rewrite Ea in Hm. destruct (su_member s'); try done. by eexists.
Qed.

Lemma su_ok_idle s : su_status s = 0 -> is_u32 (su_flags s) -> su_ok s.
Proof. intros E Hf. split; [by left | rewrite E; done | rewrite E; done | done]. Qed.

Lemma clear_ok s : su_ok s -> exists m, clear_ssh_setup s = Ret (set_member m s) /\ same_kind (su_member s) m.
Proof.
  intros [H1 H2 H3 H4]. unfold clear_ssh_setup. destruct (Z.eqb_spec (su_status s) SSH_SETUP_PHASE_TRANSPORT) as [E|E].
  - destruct (H2 E) as [[-> [f Ef]] | [-> [k Ek]]]; cbn.
    + exists (su_member s). split; [by destruct s | apply same_kind_refl].
    + unfold kex_of. rewrite Ek. cbn. by eexists.
  - destruct (Z.eqb_spec (su_status s) SSH_SETUP_PHASE_SERVICE) as [E'|E'].
    + destruct (H3 E') as [-> [a Ea]]. cbn. unfold auth_of. rewrite Ea. cbn. by eexists.
    + exists (su_member s). split; [by destruct s | apply same_kind_refl].
Qed.

Lemma drop_flag_u32 f x : is_u32 x -> is_u32 (drop_flag f x).
Proof. intros Hx. unfold drop_flag. destruct (has x f); [apply u32_range | done]. Qed.

Lemma init_ok s phase type : su_ok s -> exists s', init_ssh_connection_setup s phase type = Ret s' /\ su_ok s'.
Proof.
  intros Hs. destruct (clear_ok s Hs) as (m & Em & Hm). pose proof (so_flags _ Hs) as Hf. pose proof (drop_flag_u32) as Hd.
  assert (su_ok (set_member m s)) as Hs1 by (by apply (su_ok_keep s)).
  destruct phase; cbn [init_ssh_connection_setup].
  - eexists. split; [done |]. apply su_ok_idle; [done | unfold is_u32; simpl; lia].
  - destruct (in_phase s _ type); [eauto |]. rewrite Em. cbn [outcome_bind]. destruct (Z.eqb_spec type SSH_TRANSPORT_TYPE_GREETER) as [->|].
    + eexists. split; [done |]. split; cbn; [by right; left | intros _; left; by eauto | done | by apply Hd].
    + destruct (Z.eqb_spec type SSH_TRANSPORT_TYPE_KEX) as [->|]; [| eauto].
      eexists. split; [done |]. split; cbn; [by right; left | intros _; right; by eauto | done | by apply Hd].
  - destruct (in_phase s _ type); [eauto |]. rewrite Em. cbn [outcome_bind]. destruct (Z.eqb_spec type SSH_SERVICE_TYPE_AUTH) as [->|]; [| eauto].
    eexists. split; [done |]. split; cbn; [by right; right | done | intros _; by eauto | by apply Hd].
  - rewrite Em. cbn [outcome_bind]. eexists. split; [done |]. by apply su_ok_idle.
  - eauto.
Qed.

Lemma finish_ok self s phase type : su_ok s -> exists s', finish_ssh_connection_setup self s phase type = Ret s' /\ su_ok s'.
Proof.
  intros Hs. pose proof (so_flags _ Hs) as Hf.
  assert (forall f, is_u32 f -> su_ok (add_flag f s)) as Hadd by (intros f Hf'; apply (su_ok_keep s); try done; [apply same_kind_refl | by apply lor_u32]).
  assert (forall f, is_u32 f -> exists s', (let! s := clear_ssh_setup (add_flag f s) in Ret (set_status 0 s)) = Ret s' /\ su_ok s') as Hend.
  { intros f Hf'. destruct (clear_ok _ (Hadd f Hf')) as (m & -> & _). cbn. eexists. split; [done |]. apply su_ok_idle; [done | by apply lor_u32]. }
  destruct phase; cbn [finish_ssh_connection_setup].
  - destruct (clear_ok s Hs) as (m & -> & Hm). eexists. split; [done |]. by apply (su_ok_keep s).
  - destruct (su_status s =? _); [| eauto]. destruct (type =? _); [eexists; split; [done |]; by apply Hadd |].
    destruct (type =? _); [eexists; split; [done |]; by apply Hadd |]. destruct (type =? 0); [by apply Hend | eauto].
  - destruct (su_status s =? _); [| eauto]. destruct (type =? _); [eexists; split; [done |]; by apply Hadd |]. destruct (type =? 0); [by apply Hend | eauto].
  - destruct (_ && _ && _); [| eauto]. eexists. split; [done |]. apply (su_ok_keep s); try done; [apply same_kind_refl | apply u32_range].
  - destruct (clear_ok s Hs) as (m & -> & Hm). eexists. split; [done |]. by apply (su_ok_keep s).
Qed.

Lemma call_cb_setup cb s : cd_setup (call_cb cb s) = s.
Proof. by destruct cb. Qed.

Lemma change_member_ok s cur flag opts cb store : su_ok s -> (forall w, same_kind (su_member s) (store w)) -> su_ok (cd_setup (change_member s cur flag opts cb store)).
Proof.
  intros Hs Hst. unfold change_member. destruct (flag =? 0); [done |]. destruct (change_word cur flag opts) as [[c f]|]; [| done].
  rewrite call_cb_setup. apply (su_ok_keep s); [done | done | done | apply Hst | apply Hs].
Qed.

Lemma change_word_u32 cur flag opts c f : is_u32 cur -> is_u32 flag -> change_word cur flag opts = Some (c, f) -> is_u32 c /\ is_u32 f.
Proof.
  intros Hc Hf. unfold change_word. destruct (_ =? 0); [by intros [= <- <-] |]. destruct (has opts _); [done |].
  destruct (has opts _); intros [= <- <-]; [| done]. split; by apply ldiff_u32.
Qed.

Lemma change_flags_ok self s flag opts cb : su_ok s -> su_ok (cd_setup (change_flags self s flag opts cb)).
Proof.
  intros Hs. pose proof (so_flags _ Hs) as Hf. unfold change_flags. set (g := if _ && _ then _ else _). destruct (g =? 0); [done |].
  assert (is_u32 g) as Hg. { unfold g. destruct (_ && _); [apply ldiff_u32 |]; apply land_u32; by vm_compute. }
  destruct (change_word (su_flags s) g opts) as [[c f]|] eqn:E; [| done]. rewrite call_cb_setup.
  destruct (change_word_u32 _ _ _ _ _ Hf Hg E) as [Hc Hf']. destruct (has f SSH_SETUP_FLAG_SETUPTHREAD), (has f SSH_SETUP_FLAG_DISCONNECTED);
    (apply (su_ok_keep s); [done | done | done | apply same_kind_refl |]); cbn [su_flags add_flag set_flags set_thread]; apply lor_u32; try done; by apply ldiff_u32.
Qed.

Lemma change_ok self s phase type flag opts cb : su_ok s -> exists c, change_ssh_connection_setup self s phase type flag opts cb = Ret c /\ su_ok (cd_setup c).
Proof.
  intros Hs. pose proof Hs as [H1 H2 H3 H4]. destruct phase; cbn [change_ssh_connection_setup].
  - eexists. split; [done |]. rewrite call_cb_setup. apply (su_ok_keep s); try done; [apply same_kind_refl | apply lor_u32; [done |]; apply land_u32; by vm_compute].
  - unfold in_phase. destruct (Z.eqb_spec (su_status s) SSH_SETUP_PHASE_TRANSPORT) as [E|]; [| by eexists].
    destruct (Z.eqb_spec (su_type s) type) as [<-|]; [| by eexists]. cbn [andb]. destruct (H2 E) as [[-> [f Ef]] | [-> [k Ek]]]; cbn.
    + unfold greeter_of. rewrite Ef. cbn. eexists. split; [done |]. apply change_member_ok; [done |]. by rewrite Ef.
    + unfold kex_of. rewrite Ek. cbn. eexists. split; [done |]. apply change_member_ok; [done |]. by rewrite Ek.
  - unfold in_phase. destruct (Z.eqb_spec (su_status s) SSH_SETUP_PHASE_SERVICE) as [E|]; [| by eexists].
    destruct (Z.eqb_spec (su_type s) type) as [<-|]; [| by eexists]. cbn [andb]. destruct (H3 E) as [-> [a Ea]]. cbn.
    unfold auth_of. rewrite Ea. cbn. eexists. split; [done |]. apply change_member_ok; [done |]. by rewrite Ea.
  - eexists. split; [done |]. by apply change_flags_ok.
  - by eexists.
Qed.

Lemma step_ok s o : su_ok s -> exists s' r, step s o = Ret (s', r) /\ su_ok s'.
Proof.
  intros Hs. destruct o as [phase type | self phase type | self phase type flag opts cb | p]; cbn [step].
  - destruct (init_ok s phase type Hs) as (s' & -> & H). cbn. eauto.
  - destruct (finish_ok self s phase type Hs) as (s' & -> & H). cbn. eauto.
  - destruct (change_ok self s phase type flag opts cb Hs) as (c & -> & H). cbn. eauto.
  - do 2 eexists. split; [done |]. apply (su_ok_keep s); try done; [apply same_kind_refl | apply Hs].
Qed.

Lemma steps_ok os : forall s, su_ok s -> exists s' rs, steps s os = Ret (s', rs) /\ su_ok s' /\ length rs = length os.
Proof.
  induction os as [|o os IH]; intros s Hs; [by exists s, [] |]. cbn [steps]. destruct (step_ok s o Hs) as (s1 & r & -> & H1). cbn [outcome_bind].
  destruct (IH s1 H1) as (s2 & rs & -> & H2 & Hl). cbn. exists s2, (r :: rs). split; [done |]. split; [done |]. simpl. by rewrite Hl.
Qed.

Lemma check_ok s phase type flag : su_ok s -> exists r, check_ssh_connection_setup s phase type flag = Ret r /\ (r = 0 \/ r = 1 \/ r = -1).
Proof.
  intros [H1 H2 H3 H4]. assert (forall a b, check_flag_bits a b = 0 \/ check_flag_bits a b = 1 \/ check_flag_bits a b = -1) as Hb.
  { intros a b. unfold check_flag_bits. destruct (_ =? _); auto. }
  destruct phase; cbn [check_ssh_connection_setup]; eauto.
  - unfold in_phase. destruct (Z.eqb_spec (su_status s) SSH_SETUP_PHASE_TRANSPORT) as [E|]; [| by eauto].
    destruct (Z.eqb_spec (su_type s) type) as [<-|]; [| by eauto]. cbn [andb]. destruct (H2 E) as [[-> [f Ef]] | [-> [k Ek]]]; cbn.
    + unfold greeter_of. rewrite Ef. cbn. eauto.
    + unfold kex_of. rewrite Ek. cbn. eauto.
  - unfold in_phase. destruct (Z.eqb_spec (su_status s) SSH_SETUP_PHASE_SERVICE) as [E|]; [| by eauto].
    destruct (Z.eqb_spec (su_type s) type) as [<-|]; [| by eauto]. cbn [andb]. destruct (H3 E) as [-> [a Ea]]. cbn.
    unfold auth_of. rewrite Ea. cbn. eauto.
Qed.

Lemma wait_ok phase type flag evs : forall s, su_ok s ->
  exists w, wait_ssh_connection_setup_change s phase type flag evs = Ret w /\
    forall r s' evs', w = Some (r, s', evs') -> su_ok s' /\ (r = 0 \/ r = -1) /\
      (r = 0 <-> check_ssh_connection_setup s' phase type flag = Ret 1).
Proof.
  induction evs as [|o evs IH]; intros s Hs; cbn [wait_ssh_connection_setup_change]; destruct (check_ok s phase type flag Hs) as (r & Er & Hr); rewrite Er; cbn [outcome_bind].
  - destruct (Z.eqb_spec r 0) as [->|Hne]; [by eexists |]. eexists. split; [done |]. intros ? ? ? [= <- <- <-]. split; [done |].
    destruct Hr as [-> | [-> | ->]]; [done | |]; (split; [auto |]); rewrite Er; split; (done || intros [=]).
  - destruct (Z.eqb_spec r 0) as [->|Hne].
    + destruct (step_ok s o Hs) as (s1 & r1 & -> & H1). cbn [outcome_bind]. by apply IH.
    + eexists. split; [done |]. intros ? ? ? [= <- <- <-]. split; [done |].
      destruct Hr as [-> | [-> | ->]]; [done | |]; (split; [auto |]); rewrite Er; split; (done || intros [=]).
Qed.

(** whatever the threads do to the set up of a connection, in whatever order and
    with whatever arguments: no function reads a member of the union [phase] that
    is not the one stored last, the member in use stays the one of the phase, and
    every wait ends with the result of its check or goes on waiting. *)
Theorem setup_union_safe (s : setup) : su_ok s ->
  (forall os, exists s' rs, steps s os = Ret (s', rs) /\ su_ok s' /\ length rs = length os) /\
  (forall phase type flag evs, exists w, wait_ssh_connection_setup_change s phase type flag evs = Ret w /\
     forall r s' evs', w = Some (r, s', evs') -> su_ok s' /\ (r = 0 \/ r = -1) /\ (r = 0 <-> check_ssh_connection_setup s' phase type flag = Ret 1)).
Proof. intros Hs. split; [intros os; by apply steps_ok | intros; by apply wait_ok]. Qed.

(** ** Disconnecting *)

Lemma has_lor_mask x a b : has x (Z.lor a b) = has x a || has x b.
Proof.
  unfold has. rewrite Z.land_lor_distr_r. destruct (Z.eqb_spec (Z.lor (Z.land x a) (Z.land x b)) 0) as [E|E].
  - apply Z.lor_eq_0_iff in E as [-> ->]. done.
  - destruct (Z.eqb_spec (Z.land x a) 0) as [E1|]; [| done]. destruct (Z.eqb_spec (Z.land x b) 0) as [E2|]; [| done]. by rewrite E1, E2 in E.
Qed.

Lemma has_sub x y m : has y m = false -> has (Z.ldiff x (Z.land x y)) m = has x m.
Proof.
  intros H. apply has_ldiff. unfold has in H. apply negb_false_iff, Z.eqb_eq in H. rewrite <- Z.land_assoc, H. apply Z.land_0_r.
Qed.

(** Steps that do not take back a disconnect. *)
Definition keeps_disconnect (o : op) : bool :=
  match o with
  | OpInit InitInit _ => false
  | OpChange _ PhSetup _ flag opts _ => negb (has opts SSH_SETUP_OPTION_UNDO) || negb (has flag SSH_SETUP_FLAG_DISCONNECT)
  | _ => true
  end.

(** A thread asks to be the one that disconnects. *)
Definition asks_disconnect (o : op) : bool :=
  match o with
  | OpChange _ PhSetup _ flag _ None => Z.land flag all_setup =? SSH_SETUP_FLAG_DISCONNECTING
  | _ => false
  end.

Definition disconnected (s : setup) : bool := has (su_flags s) SSH_SETUP_FLAG_DISCONNECT.

Lemma drop_flag_disconnect k x : is_u32 x -> 0 <= k < 30 -> has (drop_flag (2 ^ k) x) SSH_SETUP_FLAG_DISCONNECT = has x SSH_SETUP_FLAG_DISCONNECT.
Proof.
  intros Hx Hk. rewrite drop_flag_bit by (done || lia). apply has_ldiff. apply Z.bits_inj'. intros n Hn. rewrite Z.land_spec, Z.bits_0.
  destruct (Z.eq_dec n k) as [->|Hne]; [| by rewrite Z.pow2_bits_false]. rewrite andb_comm. apply andb_false_iff. left.
  unfold SSH_SETUP_FLAG_DISCONNECT, SSH_SETUP_FLAG_DISCONNECTING, SSH_SETUP_FLAG_DISCONNECTED. rewrite Z.lor_spec, !Z.pow2_bits_false by lia. done.
Qed.

Lemma clear_flags s s' : su_ok s -> clear_ssh_setup s = Ret s' -> su_flags s' = su_flags s.
Proof. intros Hs E. destruct (clear_ok s Hs) as (m & E' & _). rewrite E' in E. by injection E as <-. Qed.

Lemma init_disconnect s phase type s' : su_ok s -> phase <> InitInit -> init_ssh_connection_setup s phase type = Ret s' -> disconnected s' = disconnected s.
Proof.
  intros Hs Hne. destruct (clear_ok s Hs) as (m & Em & _). pose proof (so_flags _ Hs) as Hf. unfold disconnected.
  destruct phase; cbn [init_ssh_connection_setup]; try done.
  - destruct (in_phase s _ type); [by intros [= <-] |]. rewrite Em. cbn [outcome_bind]. destruct (type =? _).
    + intros [= <-]. cbn. by apply (drop_flag_disconnect 0).
    + destruct (type =? _); intros [= <-]; cbn; [by apply (drop_flag_disconnect 1) | done].
  - destruct (in_phase s _ type); [by intros [= <-] |]. rewrite Em. cbn [outcome_bind]. destruct (type =? _); intros [= <-]; cbn; [by apply (drop_flag_disconnect 3) | done].
  - rewrite Em. cbn [outcome_bind]. by intros [= <-].
  - by intros [= <-].
Qed.

Lemma finish_disconnect self s phase type s' : su_ok s -> finish_ssh_connection_setup self s phase type = Ret s' -> disconnected s = true -> disconnected s' = true.
Proof.
  intros Hs E Hd. pose proof (so_flags _ Hs) as Hf. unfold disconnected in *.
  assert (forall f, has (Z.lor (su_flags s) f) SSH_SETUP_FLAG_DISCONNECT = true) as Hor by (intros f; by rewrite has_lor, Hd).
  assert (forall f s', is_u32 f -> (let! s := clear_ssh_setup (add_flag f s) in Ret (set_status 0 s)) = Ret s' -> has (su_flags s') SSH_SETUP_FLAG_DISCONNECT = true) as Hend.
  { intros f x Hf'. assert (su_ok (add_flag f s)) as Ha by (apply (su_ok_keep s); try done; [apply same_kind_refl | by apply lor_u32]).
    destruct (clear_ok _ Ha) as (m & -> & _). cbn. intros [= <-]. apply Hor. }
  destruct phase; cbn [finish_ssh_connection_setup] in E.
  - by rewrite (clear_flags _ _ Hs E).
  - destruct (su_status s =? _); [| by injection E as <-]. destruct (type =? _); [injection E as <-; apply Hor |].
    destruct (type =? _); [injection E as <-; apply Hor |]. destruct (type =? 0); [by eapply Hend; [| exact E] | by injection E as <-].
  - destruct (su_status s =? _); [| by injection E as <-]. destruct (type =? _); [injection E as <-; apply Hor |].
    destruct (type =? 0); [by eapply Hend; [| exact E] | by injection E as <-].
  - destruct (type =? 0); [| by injection E as <-]. destruct (has (su_flags s) SSH_SETUP_FLAG_SETUPTHREAD) eqn:Et; [| by injection E as <-].
    destruct (su_thread s =? self); injection E as <-; [| done]. cbn [su_flags set_flags]. unfold SSH_SETUP_FLAG_SETUPTHREAD in *. rewrite drop_bit by (done || lia).
    rewrite <- Hd. apply has_ldiff. by vm_compute.
  - by rewrite (clear_flags _ _ Hs E).
Qed.

Lemma change_flags_disconnect self s flag opts cb : disconnected s = true ->
  has opts SSH_SETUP_OPTION_UNDO = false \/ has flag SSH_SETUP_FLAG_DISCONNECT = false ->
  disconnected (cd_setup (change_flags self s flag opts cb)) = true /\
  (Z.land flag all_setup = SSH_SETUP_FLAG_DISCONNECTING -> cd_result (change_flags self s flag opts cb) = -1).
Proof.
  unfold disconnected. intros Hd Hk. unfold change_flags. rewrite Hd. cbn [andb].
  set (g := if has (Z.land flag all_setup) SSH_SETUP_FLAG_DISCONNECTING then _ else _). split.
  - destruct (g =? 0); [done |]. unfold change_word. destruct (Z.land (su_flags s) g =? 0) eqn:Ec.
    + rewrite call_cb_setup. cbn [add_flag su_flags set_flags]. rewrite has_lor.
      destruct (has g SSH_SETUP_FLAG_DISCONNECTED) eqn:Eg.
      * unfold SSH_SETUP_FLAG_DISCONNECT at 2. rewrite has_lor_mask, Eg. by rewrite !orb_true_r.
      * destruct (has g SSH_SETUP_FLAG_SETUPTHREAD); cbn; by rewrite Hd.
    + destruct (has opts SSH_SETUP_OPTION_XOR); [done |]. destruct (has opts SSH_SETUP_OPTION_UNDO) eqn:Eu.
      * destruct Hk as [|Hk]; [done |]. assert (has g SSH_SETUP_FLAG_DISCONNECT = false) as Hg.
        { unfold has in Hk |- * at 1. apply negb_false_iff, Z.eqb_eq in Hk. apply negb_false_iff, Z.eqb_eq. unfold g.
          assert (Z.land (Z.land flag all_setup) SSH_SETUP_FLAG_DISCONNECT = 0) as E by (rewrite <- Z.land_assoc, (Z.land_comm all_setup), Z.land_assoc, Hk; reflexivity).
          destruct (has (Z.land flag all_setup) SSH_SETUP_FLAG_DISCONNECTING); [| done]. apply Z.bits_inj'. intros n Hn. apply (f_equal (fun z => Z.testbit z n)) in E.
          rewrite !Z.land_spec, ?Z.ldiff_spec, ?Z.land_spec in *. rewrite Z.bits_0 in *.
          destruct (Z.testbit flag n), (Z.testbit all_setup n), (Z.testbit SSH_SETUP_FLAG_DISCONNECT n); simpl in *; try done; by rewrite ?andb_false_r. }
        rewrite call_cb_setup. cbn [add_flag su_flags set_flags]. rewrite has_lor. set (f := Z.ldiff g _).
        assert (has f SSH_SETUP_FLAG_DISCONNECTED = false) as Hf.
        { unfold SSH_SETUP_FLAG_DISCONNECT in Hg. rewrite has_lor_mask in Hg. apply orb_false_iff in Hg as [_ Hg].
          unfold f. unfold has in *. apply negb_false_iff, Z.eqb_eq in Hg. apply negb_false_iff, Z.eqb_eq.
          apply Z.bits_inj'. intros n Hn. apply (f_equal (fun z => Z.testbit z n)) in Hg. rewrite !Z.land_spec, Z.ldiff_spec, Z.bits_0 in *.
          destruct (Z.testbit g n), (Z.testbit SSH_SETUP_FLAG_DISCONNECTED n); simpl in *; try done; by rewrite ?andb_false_r. }
        rewrite Hf. destruct (has f SSH_SETUP_FLAG_SETUPTHREAD); cbn [su_flags set_thread set_flags]; rewrite has_sub by done; by rewrite Hd.
      * rewrite call_cb_setup. cbn [add_flag su_flags set_flags]. rewrite has_lor.
        destruct (has g SSH_SETUP_FLAG_DISCONNECTED) eqn:Eg.
        -- unfold SSH_SETUP_FLAG_DISCONNECT at 2. rewrite has_lor_mask, Eg. by rewrite !orb_true_r.
        -- destruct (has g SSH_SETUP_FLAG_SETUPTHREAD); cbn; by rewrite Hd.
  - intros E. unfold g. rewrite E. change (has SSH_SETUP_FLAG_DISCONNECTING SSH_SETUP_FLAG_DISCONNECTING) with true. cbn match.
    by rewrite Z.ldiff_diag.
Qed.

Lemma step_disconnect s o s' r : su_ok s -> keeps_disconnect o = true -> disconnected s = true -> step s o = Ret (s', r) ->
  disconnected s' = true /\ (asks_disconnect o = true -> r = -1).
Proof.
  intros Hs Hk Hd. destruct o as [phase type | self phase type | self phase type flag opts cb | p]; cbn [step].
  - destruct (init_ok s phase type Hs) as (s1 & E & _). rewrite E. cbn. intros [= <- <-]. split; [| done].
    rewrite (init_disconnect s phase type s1); [done | done | by intros -> | done].
  - destruct (finish_ok self s phase type Hs) as (s1 & E & _). rewrite E. cbn. intros [= <- <-]. split; [| done].
    by apply (finish_disconnect self s phase type).
  - destruct phase; cbn [change_ssh_connection_setup asks_disconnect].
    + intros [= <- <-]. rewrite call_cb_setup. split; [| done]. unfold disconnected in *. cbn. by rewrite has_lor, Hd.
    + destruct (change_ok self s PhTransport type flag opts cb Hs) as (c & E & _). cbn [change_ssh_connection_setup] in E. rewrite E. cbn. intros [= <- <-]. split; [| done].
      destruct (in_phase s _ type); [| by injection E as <-]. destruct (type =? _); [destruct (greeter_of s); try done |
        destruct (type =? _); [destruct (kex_of s); try done | by injection E as <-]]; cbn in E; injection E as <-;
        unfold change_member; destruct (_ =? 0); try done; destruct (change_word _ _ _) as [[? ?]|]; try done; by rewrite call_cb_setup.
    + destruct (change_ok self s PhService type flag opts cb Hs) as (c & E & _). cbn [change_ssh_connection_setup] in E. rewrite E. cbn. intros [= <- <-]. split; [| done].
      destruct (in_phase s _ type); [| by injection E as <-]. destruct (type =? _); [destruct (auth_of s); try done | by injection E as <-]; cbn in E; injection E as <-;
        unfold change_member; destruct (_ =? 0); try done; destruct (change_word _ _ _) as [[? ?]|]; try done; by rewrite call_cb_setup.
    + cbn [outcome_bind]. intros [= <- <-]. destruct (change_flags_disconnect self s flag opts cb Hd) as [H1 H2].
      { cbn in Hk. apply orb_prop in Hk as [H|H]; [left | right]; by apply negb_true_iff. }
      split; [done |]. destruct cb; [done |]. intros E%Z.eqb_eq. by apply H2.
    + by intros [= <- <-].
  - intros [= <- <-]. done.
Qed.

Lemma steps_disconnect os : forall s s' rs, su_ok s -> forallb keeps_disconnect os = true -> disconnected s = true -> steps s os = Ret (s', rs) ->
  disconnected s' = true /\ forall i o r, os !! i = Some o -> rs !! i = Some r -> asks_disconnect o = true -> r = -1.
Proof.
  induction os as [|o os IH]; intros s s' rs Hs Hk Hd; cbn [steps]; [intros [= <- <-]; done |]. cbn [forallb] in Hk. apply andb_prop in Hk as [Ho Hk].
  destruct (step_ok s o Hs) as (s1 & r1 & E1 & Hs1). rewrite E1. cbn [outcome_bind]. destruct (steps_ok os s1 Hs1) as (s2 & rs2 & E2 & _ & _). rewrite E2. cbn.
  intros [= <- <-]. destruct (step_disconnect s o s1 r1 Hs Ho Hd E1) as [Hd1 H1]. destruct (IH s1 s2 rs2 Hs1 Hk Hd1 E2) as [Hd2 H2]. split; [done |].
  intros [|i] o' r'; cbn; [intros [= <-] [= <-]; done | apply H2].
Qed.

(** The first request is granted, and the flags then say so. *)
Lemma first_disconnect s o : disconnected s = false -> asks_disconnect o = true -> exists s', step s o = Ret (s', 0) /\ disconnected s' = true.
Proof.
  intros Hd Ho. destruct o as [| | self phase type flag opts cb |]; try done. cbn in Ho. destruct phase; try done. destruct cb; [done |]. apply Z.eqb_eq in Ho.
  cbn [step change_ssh_connection_setup outcome_bind]. unfold change_flags. rewrite Ho. unfold disconnected in *. rewrite Hd. cbn [andb].
  change (SSH_SETUP_FLAG_DISCONNECTING =? 0) with false. cbn match.
  assert (Z.land (su_flags s) SSH_SETUP_FLAG_DISCONNECTING = 0) as Hc.
  { unfold SSH_SETUP_FLAG_DISCONNECT in Hd. rewrite has_lor_mask in Hd. apply orb_false_iff in Hd as [Hd _]. unfold has in Hd. apply negb_false_iff, Z.eqb_eq in Hd. done. }
  unfold change_word. rewrite Hc. cbn. eexists. split; [done |]. cbn. rewrite has_lor. by rewrite orb_true_r.
Qed.

(** C29: of all threads that ask to disconnect a connection the first is told to do so
    and no other, whatever else happens to its set up in between (but for starting
    it anew, or taking a disconnect back, which no code does); from then on the
    flags say that the connection is disconnected. *)
Theorem disconnect_granted_once (s : setup) (o : op) (os : list op) :
  su_ok s -> disconnected s = false -> asks_disconnect o = true -> forallb keeps_disconnect os = true ->
  exists s1 s2 rs, step s o = Ret (s1, 0) /\ steps s1 os = Ret (s2, rs) /\ disconnected s2 = true /\
    forall i o' r, os !! i = Some o' -> rs !! i = Some r -> asks_disconnect o' = true -> r = -1.
Proof.
  intros Hs Hd Ho Hk. destruct (first_disconnect s o Hd Ho) as (s1 & E1 & Hd1). destruct (step_ok s o Hs) as (s1' & r & E1' & Hs1).
  rewrite E1 in E1'. injection E1' as <- <-. destruct (steps_ok os s1 Hs1) as (s2 & rs & E2 & _ & _).
  destruct (steps_disconnect os s1 s2 rs Hs1 Hk Hd1 E2) as [Hd2 Hr]. exists s1, s2, rs. done.
Qed.

(** ** The set up of a session *)

Section SessionProof.
Context (key_exchange start_ssh_userauth : setup -> outcome (Z * setup)) (self : Z) (server : bool).

(** Channels are reached through this chain of states of the session: the exchange of
    keys starts in [s0] and ends in [s1] with all its flags, [s4] is made of [s1] for
    the authentication, which ends in [s5] with all it required done, and [ses] is made
    of [s5]. *)
Record passed (ses : session) : Prop := {
  passed_states : exists s0 r1 s1 k s2 s3 s4 r2 s5 a,
    key_exchange s0 = Ret (r1, s1) /\ r1 <> -1 /\
    su_member s1 = Kex k /\ Z.land (kx_flags k) all_kex = all_kex /\
    finish_ssh_connection_setup self s1 PhTransport SSH_TRANSPORT_TYPE_KEX = Ret s2 /\ finish_ssh_connection_setup self s2 PhTransport 0 = Ret s3 /\
    init_ssh_connection_setup s3 InitService SSH_SERVICE_TYPE_AUTH = Ret s4 /\
    start_ssh_userauth s4 = Ret (r2, s5) /\ r2 <> -1 /\
    su_member s5 = Auth a /\ Z.land (au_done a) (au_required a) = au_required a /\
    out_auth self s5 0 true = Ret (Some ses)
}.

Lemma bind_Ret {X Y} (m : outcome X) (f : X -> outcome Y) y : outcome_bind m f = Ret y -> exists x, m = Ret x /\ f x = Ret y.
Proof. destruct m as [x| |]; [| done | done]. by exists x. Qed.

Ltac unbind H := let x := fresh "x" in let E := fresh "E" in apply bind_Ret in H as (x & E & H).

Lemma out_setup_ends s result channels ses : out_setup self s result channels = Ret (Some ses) -> ss_channels ses = channels /\ ss_result ses = result.
Proof. intros H. unfold out_setup in H. unbind H. by injection H as <-. Qed.

Lemma out_auth_ends s result channels ses : out_auth self s result channels = Ret (Some ses) -> ss_channels ses = channels /\ ss_result ses = result.
Proof. intros H. unfold out_auth in H. do 2 unbind H. by apply out_setup_ends in H. Qed.

Lemma check_bits f w c : check_flag_bits f w = c -> (c <? 1) = false -> Z.land f w = w.
Proof. unfold check_flag_bits. destruct (Z.eqb_spec (Z.land f w) w); [done |]. by intros <-. Qed.

Lemma start_service_passed s ses : start_service start_ssh_userauth self server s = Ret (Some ses) -> ss_channels ses = true ->
  ss_result ses = 0 /\ exists s4 r2 s5 a, init_ssh_connection_setup s InitService SSH_SERVICE_TYPE_AUTH = Ret s4 /\ start_ssh_userauth s4 = Ret (r2, s5) /\ r2 <> -1 /\
    su_member s5 = Auth a /\ Z.land (au_done a) (au_required a) = au_required a /\ out_auth self s5 0 true = Ret (Some ses).
Proof.
  intros H Hc. unfold start_service in H. apply bind_Ret in H as (s4 & E4 & H). apply bind_Ret in H as ([r2 s5] & E5 & H).
  destruct (Z.eqb_spec r2 (-1)) as [->|Hr]; [apply out_auth_ends in H; naive_solver congruence |].
  apply bind_Ret in H as (c & Ec & H). destruct (c <? 1) eqn:El; [apply out_auth_ends in H; naive_solver congruence |].
  set (ch := if server then _ else _) in H. destruct (out_auth_ends _ _ _ _ H) as [Hch Hres]. rewrite <- Hch, Hc in H. split; [done |].
  cbn [check_ssh_connection_setup] in Ec. destruct (in_phase _ _ _); [| by injection Ec as <-]. rewrite Z.eqb_refl in Ec.
  apply bind_Ret in Ec as (a & Ea & Ec). injection Ec as Ec. unfold auth_of in Ea. destruct (su_member s5) as [| | |a'] eqn:Em; try done. injection Ea as ->.
  exists s4, r2, s5, a. split_and!; try done. by apply (check_bits _ _ c).
Qed.

Lemma start_transport_passed s ses : start_transport key_exchange start_ssh_userauth self server s = Ret (Some ses) -> ss_channels ses = true -> ss_result ses = 0 /\ passed ses.
Proof.
  intros H Hc. unfold start_transport in H. apply bind_Ret in H as (s0 & E0 & H). apply bind_Ret in H as ([r1 s1] & E1 & H).
  destruct (Z.eqb_spec r1 (-1)) as [->|Hr]; [apply out_setup_ends in H; naive_solver congruence |].
  apply bind_Ret in H as (c & Ec & H). destruct (c <? 1) eqn:El; [apply bind_Ret in H as (? & _ & H); apply out_setup_ends in H; naive_solver congruence |].
  apply bind_Ret in H as (s2 & E2 & H). apply bind_Ret in H as (s3 & E3 & H).
  destruct (start_service_passed s3 ses H Hc) as (Hres & s4 & r2 & s5 & a & H4 & H5 & Hr2 & Ha & Hd & Ho). split; [done |]. split.
  cbn [check_ssh_connection_setup] in Ec. destruct (in_phase _ _ _); [| by injection Ec as <-]. change (SSH_TRANSPORT_TYPE_KEX =? SSH_TRANSPORT_TYPE_GREETER) with false in Ec.
  rewrite Z.eqb_refl in Ec. apply bind_Ret in Ec as (k & Ek & Ec). injection Ec as Ec. unfold kex_of in Ek. destruct (su_member s1) as [| |k'|] eqn:Em; try done. injection Ek as ->.
  exists s0, r1, s1, k, s2, s3, s4, r2, s5, a. split_and!; try done. by apply (check_bits _ _ c).
Qed.


End SessionProof.

(** ** On concrete connections *)

Definition new_setup : setup := mkSetup 0 0 0 0 NoMember 0 [].

Lemma new_setup_ok : su_ok new_setup.
Proof. apply su_ok_idle; [done | unfold is_u32; simpl; lia]. Qed.

Lemma setup_union_safe_witness : exists s rs,
  steps new_setup [OpInit InitTransport SSH_TRANSPORT_TYPE_KEX; OpChange 1 PhTransport SSH_TRANSPORT_TYPE_KEX SSH_KEX_FLAG_KEXINIT_C2S 0 None;
    OpFinish 1 PhTransport 0; OpInit InitService SSH_SERVICE_TYPE_AUTH] = Ret (s, rs) /\ su_ok s.
Proof.
  destruct (setup_union_safe new_setup new_setup_ok) as [H _].
  destruct (H [OpInit InitTransport SSH_TRANSPORT_TYPE_KEX; OpChange 1 PhTransport SSH_TRANSPORT_TYPE_KEX SSH_KEX_FLAG_KEXINIT_C2S 0 None;
    OpFinish 1 PhTransport 0; OpInit InitService SSH_SERVICE_TYPE_AUTH]) as (s & rs & E & Hs & _). by exists s, rs.
Defined.

Definition ask (self : Z) : op := OpChange self PhSetup 0 SSH_SETUP_FLAG_DISCONNECTING SSH_SETUP_OPTION_XOR None.

Lemma disconnect_granted_once_witness : exists s1 s2, step new_setup (ask 1) = Ret (s1, 0) /\
  steps s1 [OpInit InitTransport SSH_TRANSPORT_TYPE_KEX; ask 2; OpChange 1 PhSetup 0 SSH_SETUP_FLAG_DISCONNECTED 0 None; ask 3] = Ret (s2, [0; -1; 0; -1]).
Proof.
  destruct (disconnect_granted_once new_setup (ask 1)
    [OpInit InitTransport SSH_TRANSPORT_TYPE_KEX; ask 2; OpChange 1 PhSetup 0 SSH_SETUP_FLAG_DISCONNECTED 0 None; ask 3] new_setup_ok eq_refl eq_refl eq_refl)
    as (s1 & s2 & rs & E1 & E2 & _). vm_compute in E1. injection E1 as <-. vm_compute in E2. injection E2 as <- <-. by do 2 eexists.
Defined.

(** A phase that sets the flags [f] of the member and returns [r]. *)
Definition phase_of (phase : phase_name) (type f r : Z) (s : setup) : outcome (Z * setup) :=
  let! c := change_ssh_connection_setup 1 s phase type f 0 None in Ret (r, cd_setup c).

Definition answered : list op := [OpChange 2 PhTransport SSH_TRANSPORT_TYPE_GREETER SSH_GREETER_FLAG_S2C 0 None].

Definition good_run : outcome (option session) :=
  setup_ssh_session (phase_of PhTransport SSH_TRANSPORT_TYPE_KEX all_kex 0) (phase_of PhService SSH_SERVICE_TYPE_AUTH SSH_AUTH_METHOD_PUBLICKEY 0) 1 false true answered new_setup.

Lemma good_run_ends : exists ses, good_run = Ret (Some ses) /\ ss_channels ses = true.
Proof. eexists. split; [vm_compute; reflexivity | done]. Qed.


(** When the check after the exchange of keys fails, the result is still that of the
    exchange: the set up reports success, with the transport marked as done. *)
Theorem failed_check_reports_success :
  match setup_ssh_session (phase_of PhTransport SSH_TRANSPORT_TYPE_KEX SSH_KEX_FLAG_KEXINIT_C2S 0) (phase_of PhService SSH_SERVICE_TYPE_AUTH 0 0) 1 false true answered new_setup with
  | Ret (Some ses) => ss_result ses = 0 /\ ss_channels ses = false /\ has (su_flags (ss_setup ses)) SSH_SETUP_FLAG_TRANSPORT = true
  | _ => False
  end.
Proof. vm_compute. done. Qed.

(** A connection whose authentication failed is marked as authenticated. *)
Theorem failed_authentication_is_marked :
  match setup_ssh_session (phase_of PhTransport SSH_TRANSPORT_TYPE_KEX all_kex 0) (phase_of PhService SSH_SERVICE_TYPE_AUTH 0 (-1)) 1 false true answered new_setup with
  | Ret (Some ses) => ss_result ses = -1 /\ has (su_flags (ss_setup ses)) SSH_SETUP_FLAG_SERVICE_AUTH = true /\ has (su_flags (ss_setup ses)) SSH_SETUP_FLAG_SERVICE_CONNECTION = true
  | _ => False
  end.
Proof. vm_compute. done. Qed.

End SshSetup.
