(* ===== verification/SshTransport.v ===== *)
(** * ssh/receive/msg-transport.c and msg-userauth.c: the messages of a set up

    The handlers of the messages of the transport and of the authentication.  They
    take the mutex of the signal of the set up, which the whole session shares, to
    look at its phase, and queue the payload for the thread that does the set up,
    or free it, or disconnect.  [cn_locked] says that the mutex is held: taking it
    then waits for ever, and giving it back when it is free is undefined. *)
From stdpp Require Import base list option.
From Stdlib Require Import ZArith Lia.
From S2P Require Import Prelude SshUint SshString SshCipher SshPacket SshPayload Runs SshSetup.
Import SshUint SshString SshPayload Runs SshSetup.
Open Scope Z_scope.

Module SshTransport.

Definition SSH_MSG_DISCONNECT := 1.
Definition SSH_MSG_IGNORE := 2.
Definition SSH_MSG_UNIMPLEMENTED := 3.
Definition SSH_MSG_DEBUG := 4.
Definition SSH_MSG_SERVICE_REQUEST := 5.
Definition SSH_MSG_SERVICE_ACCEPT := 6.
Definition SSH_MSG_EXT_INFO := 7.
Definition SSH_MSG_KEXINIT := 20.
Definition SSH_MSG_NEWKEYS := 21.
Definition SSH_MSG_KEXDH_REPLY := 31.
Definition SSH_MSG_USERAUTH_REQUEST := 50.
Definition SSH_MSG_USERAUTH_FAILURE := 51.
Definition SSH_MSG_USERAUTH_SUCCESS := 52.
Definition SSH_MSG_USERAUTH_BANNER := 53.
Definition SSH_MSG_USERAUTH_PK_OK := 60.
Definition SSH_MSG_GLOBAL_REQUEST := 80.
Definition SSH_MSG_REQUEST_SUCCESS := 81.
Definition SSH_MSG_REQUEST_FAILURE := 82.

Definition SSH_DISCONNECT_PROTOCOL_ERROR := 2.
Definition SSH_DISCONNECT_BY_APPLICATION := 11.
Definition SSH_CONNECTION_FLAG_DISCONNECT_SEND := 2.
Definition SSH_CONNECTION_FLAG_GLOBAL_REQUEST := 4.
Definition EOPNOTSUPP := 95.

(** ** A connection *)

(** [cn_freed]: the payloads that were freed; [cn_sent]: the reasons of the disconnect
    messages that were sent; [cn_unimplemented]: the numbers for which UNIMPLEMENTED is
    sent; [cn_ext]: the payloads handed to [process_msg_ext_info];
    [cn_seqerr]: the field [sequence_error]. *)
Record conn : Type := mkConn {
  cn_setup : setup; cn_locked : bool; cn_flags : Z; cn_closed : bool; cn_seqerr : option (Z * Z);
  cn_freed : list received; cn_sent : list Z; cn_unimplemented : list Z; cn_ext : list received }.

Definition set_setup x c := mkConn x (cn_locked c) (cn_flags c) (cn_closed c) (cn_seqerr c) (cn_freed c) (cn_sent c) (cn_unimplemented c) (cn_ext c).
Definition set_locked x c := mkConn (cn_setup c) x (cn_flags c) (cn_closed c) (cn_seqerr c) (cn_freed c) (cn_sent c) (cn_unimplemented c) (cn_ext c).
Definition set_cflags x c := mkConn (cn_setup c) (cn_locked c) x (cn_closed c) (cn_seqerr c) (cn_freed c) (cn_sent c) (cn_unimplemented c) (cn_ext c).
Definition set_seqerr x c := mkConn (cn_setup c) (cn_locked c) (cn_flags c) (cn_closed c) x (cn_freed c) (cn_sent c) (cn_unimplemented c) (cn_ext c).
Definition add_ext p c := mkConn (cn_setup c) (cn_locked c) (cn_flags c) (cn_closed c) (cn_seqerr c) (cn_freed c) (cn_sent c) (cn_unimplemented c) (cn_ext c ++ [p]).

Definition signal_lock (c : conn) : run conn := if cn_locked c then Blocked else Done (set_locked true c).
Definition signal_unlock (c : conn) : run conn := if cn_locked c then Done (set_locked false c) else Fault.

(** [free_payload (&payload)]; the pointer is NULL afterwards. *)
Definition free_payload (p : received) (c : conn) : conn :=
  mkConn (cn_setup c) (cn_locked c) (cn_flags c) (cn_closed c) (cn_seqerr c) (cn_freed c ++ [p]) (cn_sent c) (cn_unimplemented c) (cn_ext c).

(** [queue_ssh_payload (&setup->queue, payload); queue_ssh_broadcast (&setup->queue)]: the
    broadcast takes the mutex. *)
Definition queue_payload (p : received) (c : conn) : run conn :=
  let c := set_setup (set_squeue (queue_ssh_payload (su_queue (cn_setup c)) p) (cn_setup c)) c in
  let* c := signal_lock c in signal_unlock c.

(** A disconnect message is sent once; the socket is closed.  (The channels of the
    connection, which are closed as well, are not part of this state.) *)
Definition disconnect_ssh_connection (c : conn) : conn :=
  mkConn (cn_setup c) (cn_locked c) (Z.lor (cn_flags c) SSH_CONNECTION_FLAG_DISCONNECT_SEND) true (cn_seqerr c) (cn_freed c)
    (if has (cn_flags c) SSH_CONNECTION_FLAG_DISCONNECT_SEND then cn_sent c else cn_sent c ++ [SSH_DISCONNECT_BY_APPLICATION])
    (cn_unimplemented c) (cn_ext c).

Definition handler : Type := conn -> received -> run conn.

Definition sflag (c : conn) (f : Z) : bool := has (su_flags (cn_setup c)) f.

(** ** Transport *)

(** [char string[len + 1]; memcpy (string, &payload->buffer[i], len)] *)
Definition copy_out (p : received) (i len : Z) : run bytes :=
  if u32 (len + 1) =? 0 then Fault else ok (mem_read (rp_buffer p) i len).

Definition receive_msg_disconnect : handler := fun c p =>
  let* (reason, len) :=
    (if 9 <=? rp_len p then
       let* reason := ok (get_uint32 (drop 1 (rp_buffer p))) in
       let* len := ok (get_uint32 (drop 5 (rp_buffer p))) in Done (reason, len)
     else Done (SSH_DISCONNECT_PROTOCOL_ERROR, 0)) in
  let* _ := (if (0 <? len) && (u32 (9 + len) <=? rp_len p) then copy_out p 9 len else Done []) in
  Done (disconnect_ssh_connection (free_payload p c)).

(** The log call reads [payload->sequence] after [free_payload] set the pointer to NULL. *)
Definition receive_msg_ignore : handler := fun c p =>
  let payload : option received := None in        (* free_payload (&payload) *)
  let* q := ok payload in
  let _ := rp_sequence q in Done (free_payload p c).

Definition receive_msg_unimplemented : handler := fun c p =>
  if 5 <=? rp_len p then
    let* sequence := ok (get_uint32 (drop 1 (rp_buffer p))) in
    Done (free_payload p (set_seqerr (Some (sequence, EOPNOTSUPP)) c))
  else Done (disconnect_ssh_connection (free_payload p c)).

Definition receive_msg_debug : handler := fun c p =>
  if 6 <? rp_len p then
    let* len := ok (get_uint32 (drop 2 (rp_buffer p))) in
    let* _ := (if (0 <? len) && (len <? 65) then copy_out p 6 len else Done []) in
    Done (free_payload p c)
  else Done (disconnect_ssh_connection (free_payload p c)).

Definition receive_msg_service_request (server : bool) : handler := fun c p =>
  if server then
    let* c := signal_lock c in
    if sflag c SSH_SETUP_FLAG_DISCONNECT then let* c := signal_unlock c in Done (free_payload p c)
    else if sflag c SSH_SETUP_FLAG_TRANSPORT then let* c := signal_unlock c in queue_payload p c
    else Done c
  else Done (disconnect_ssh_connection (free_payload p c)).

(** [if (payload) { free_payload (&payload); disconnect_ssh_connection (connection); }] *)
Definition refuse (o : option received) (c : conn) : conn :=
  match o with Some p => disconnect_ssh_connection (free_payload p c) | None => c end.

Definition receive_msg_service_accept : handler := fun c p =>
  let* c := signal_lock c in
  let* (o, c) :=
    (if sflag c SSH_SETUP_FLAG_DISCONNECT then let* c := signal_unlock c in Done (None, free_payload p c)
     else if sflag c SSH_SETUP_FLAG_TRANSPORT then let* c := signal_unlock c in let* c := queue_payload p c in Done (None, c)
     else Done (Some p, c)) in
  Done (refuse o c).

Definition receive_msg_ext_info : handler := fun c p =>
  let* c := signal_lock c in
  let gone := sflag c SSH_SETUP_FLAG_DISCONNECT in
  let c := if gone then free_payload p c else c in
  let* c := signal_unlock c in
  Done (if gone then c else free_payload p (add_ext p c)).

(** The functions of the file SshSetup, which take the mutex for themselves. *)
Definition with_lock (c : conn) (f : setup -> outcome setup) : run conn :=
  let* c := signal_lock c in
  let* s := (match f (cn_setup c) with Ret s => Done s | Ub => Fault | NoFuel => Out end) in
  signal_unlock (set_setup s c).

Section Kexinit.

(** [key_exchange (sshc)] on the connection. *)
Context (key_exchange : conn -> run (Z * conn)) (self : Z).

Definition rekey : handler := fun c p =>
  let s := cn_setup c in
  let c := set_setup (set_thread self (set_flags (Z.lor (su_flags s) SSH_SETUP_FLAG_SETUPTHREAD) s)) c in
  let* c := signal_unlock c in
  let* s := (match init_ssh_connection_setup (cn_setup c) InitTransport SSH_TRANSPORT_TYPE_KEX with Ret s => Done s | Ub => Fault | NoFuel => Out end) in
  let* c := queue_payload p (set_setup s c) in
  let* (result, c) := key_exchange c in
  let* c := with_lock c (fun s => finish_ssh_connection_setup self s PhTransport SSH_TRANSPORT_TYPE_KEX) in
  let* c := with_lock c (fun s => finish_ssh_connection_setup self s PhTransport 0) in
  let* c := with_lock c (fun s => finish_ssh_connection_setup self s PhSetup 0) in
  Done (if result =? -1 then disconnect_ssh_connection c else c).

Definition receive_msg_kexinit : handler := fun c p =>
  let* c := signal_lock c in
  let s := cn_setup c in
  if sflag c SSH_SETUP_FLAG_DISCONNECT then let* c := signal_unlock c in Done (free_payload p c)
  else if su_status s =? SSH_SETUP_PHASE_TRANSPORT then
    if (su_type s =? SSH_TRANSPORT_TYPE_GREETER) || (su_type s =? SSH_TRANSPORT_TYPE_KEX) then
      let* twice :=
        (if su_type s =? SSH_TRANSPORT_TYPE_KEX then
           match kex_of s with Ret k => Done (has (kx_flags k) SSH_KEX_FLAG_KEXINIT_S2C) | Ub => Fault | NoFuel => Out end
         else Done false) in
      let* c := signal_unlock c in
      if twice : bool then Done (disconnect_ssh_connection (free_payload p c)) else queue_payload p c
    else Done (free_payload p c)
  else if sflag c SSH_SETUP_FLAG_TRANSPORT then
    if has (su_flags s) SSH_SETUP_FLAG_SETUPTHREAD then let* c := signal_unlock c in queue_payload p c
    else rekey c p
  else Done (free_payload p c).

End Kexinit.

Definition receive_msg_queue_shared : handler := fun c p =>
  let* c := signal_lock c in
  let s := cn_setup c in
  let* (o, c) :=
    (if sflag c SSH_SETUP_FLAG_DISCONNECT then let* c := signal_unlock c in Done (None, free_payload p c)
     else if su_status s =? SSH_SETUP_PHASE_TRANSPORT then
       if su_type s =? SSH_TRANSPORT_TYPE_KEX then let* c := signal_unlock c in let* c := queue_payload p c in Done (None, c)
       else let* c := signal_unlock c in Done (Some p, c)
     else Done (Some p, c)) in
  Done (refuse o c).

Definition receive_msg_newkeys : handler := receive_msg_queue_shared.
Definition receive_msg_kexdh_reply : handler := receive_msg_queue_shared.

(** The part that the two handlers below share: the payload is queued for the
    connection service. *)
Definition queue_service (c : conn) (p : received) : run (option received * conn) :=
  let* c := signal_lock c in
  if sflag c SSH_SETUP_FLAG_DISCONNECT then let* c := signal_unlock c in Done (None, free_payload p c)
  else if sflag c SSH_SETUP_FLAG_SERVICE_CONNECTION then let* c := signal_unlock c in let* c := queue_payload p c in Done (None, c)
  else Done (Some p, c).

Definition receive_msg_global_request : handler := fun c p =>
  let* _ := ok (read_ssh_string (drop 1 (rp_buffer p)) (u32 (rp_len p - 1)) None) in
  let* (o, c) := queue_service c p in
  Done (match o with Some p => free_payload p c | None => c end).

Definition receive_msg_request_common : handler := fun c p =>
  let* (o, c) := queue_service c p in
  Done (refuse o (set_cflags (Z.ldiff (cn_flags c) SSH_CONNECTION_FLAG_GLOBAL_REQUEST) c)).

(** ** Authentication *)

Definition in_auth (c : conn) : bool := sflag c SSH_SETUP_FLAG_TRANSPORT && in_phase (cn_setup c) SSH_SETUP_PHASE_SERVICE SSH_SERVICE_TYPE_AUTH.

Definition receive_msg_userauth_request (server : bool) : handler := fun c p =>
  let* c := signal_lock c in
  if negb server then let* c := signal_unlock c in Done (refuse (Some p) c)
  else if sflag c SSH_SETUP_FLAG_DISCONNECT then let* c := signal_unlock c in Done (free_payload p c)
  else if in_auth c then
    let* c := signal_unlock c in
    let* (o, c) := (if 13 <? rp_len p then let* c := queue_payload p c in Done (None, c) else Done (Some p, c)) in
    let* c := signal_unlock c in Done (refuse o c)
  else let* c := signal_unlock c in Done (refuse (Some p) c).

Definition receive_msg_userauth_result_common : handler := fun c p =>
  let* c := signal_lock c in
  let* (o, c) :=
    (if sflag c SSH_SETUP_FLAG_DISCONNECT then let* c := signal_unlock c in Done (None, free_payload p c)
     else if in_auth c then let* c := signal_unlock c in let* c := queue_payload p c in Done (None, c)
     else Done (Some p, c)) in
  Done (refuse o c).

Definition receive_msg_userauth_failure : handler := receive_msg_userauth_result_common.
Definition receive_msg_userauth_success : handler := receive_msg_userauth_result_common.
Definition receive_msg_userauth_commonreply : handler := receive_msg_userauth_result_common.

Definition receive_msg_userauth_banner : handler := fun c p =>
  let* _ :=
    (if 9 <? rp_len p then
       let* len := ok (get_uint32 (drop 1 (rp_buffer p))) in
       if u32 (9 + len) <=? rp_len p then copy_out p 5 len else Done []
     else Done []) in
  Done (free_payload p c).

(** ** The table of handlers *)

Abbreviation cbs := (Z -> handler).

Definition msg_not_supported : handler := fun c p =>
  Done (mkConn (cn_setup c) (cn_locked c) (cn_flags c) (cn_closed c) (cn_seqerr c) (cn_freed c ++ [p]) (cn_sent c)
    (cn_unimplemented c ++ [rp_sequence p]) (cn_ext c)).

Definition register_msg_cb (t : cbs) (type : Z) (cb : handler) : cbs := fun ty => if ty =? type then cb else t ty.

Section Table.
Context (key_exchange : conn -> run (Z * conn)) (self : Z) (server : bool).

Definition register_transport_cb (t : cbs) : cbs :=
  let t := register_msg_cb t SSH_MSG_DISCONNECT receive_msg_disconnect in
  let t := register_msg_cb t SSH_MSG_IGNORE receive_msg_ignore in
  let t := register_msg_cb t SSH_MSG_UNIMPLEMENTED receive_msg_unimplemented in
  let t := register_msg_cb t SSH_MSG_DEBUG receive_msg_debug in
  let t := register_msg_cb t SSH_MSG_SERVICE_REQUEST (receive_msg_service_request server) in
  let t := register_msg_cb t SSH_MSG_SERVICE_ACCEPT receive_msg_service_accept in
  let t := register_msg_cb t SSH_MSG_EXT_INFO receive_msg_ext_info in
  let t := register_msg_cb t SSH_MSG_KEXINIT (receive_msg_kexinit key_exchange self) in
  let t := register_msg_cb t SSH_MSG_NEWKEYS receive_msg_newkeys in
  let t := register_msg_cb t SSH_MSG_KEXDH_REPLY receive_msg_kexdh_reply in
  let t := register_msg_cb t SSH_MSG_GLOBAL_REQUEST receive_msg_global_request in
  let t := register_msg_cb t SSH_MSG_REQUEST_SUCCESS receive_msg_request_common in
  register_msg_cb t SSH_MSG_REQUEST_FAILURE receive_msg_request_common.

Definition register_userauth_cb (enable : bool) (t : cbs) : cbs :=
  if enable then
    let t := register_msg_cb t SSH_MSG_USERAUTH_REQUEST (receive_msg_userauth_request server) in
    let t := register_msg_cb t SSH_MSG_USERAUTH_FAILURE receive_msg_userauth_failure in
    let t := register_msg_cb t SSH_MSG_USERAUTH_SUCCESS receive_msg_userauth_success in
    let t := register_msg_cb t SSH_MSG_USERAUTH_BANNER receive_msg_userauth_banner in
    register_msg_cb t SSH_MSG_USERAUTH_PK_OK receive_msg_userauth_commonreply
  else foldl (fun t i => register_msg_cb t i msg_not_supported) t (map Z.of_nat (seq 50 30)).

(** The table of a session: [setup_ssh_session] adds the handlers of the authentication
    when the transport is done, before [start_ssh_userauth]; those of the channels, for
    types from 90 on, come after it and are in SshChannel. *)
Definition session_cbs (registered : bool) : cbs :=
  let t := register_transport_cb (fun _ => msg_not_supported) in if registered then register_userauth_cb true t else t.

Definition process_cb_ssh_payload (registered : bool) : handler := fun c p => session_cbs registered (rp_type p) c p.

End Table.

(** ** What becomes of a message *)

(** A payload as the reader of packets makes it: its bytes are the payload, and far
    fewer than the receive buffer has. *)
Definition payload_ok (p : received) : Prop := wf_bytes (rp_buffer p) /\ rp_len p = zlen (rp_buffer p) /\ 1 <= rp_len p < 2 ^ 31.

Definition field (p : received) (i : nat) : Z := default 0 (get_uint32 (drop i (rp_buffer p))).

Inductive fate : Type := Freed | Queued | Lost | Crash.

(** What the handlers mean to do, and where they miss: the fate of the payload, whether
    the connection is closed, and whether the mutex is still held afterwards. *)
Record verdict : Type := mkVerdict { vd_fate : fate; vd_close : bool; vd_locked : bool }.

Definition drop_it := mkVerdict Freed false false.
Definition close_it := mkVerdict Freed true false.
Definition take_it := mkVerdict Queued false false.
Definition crash_it := mkVerdict Crash false false.
Definition stuck_it := mkVerdict Freed true true.

(** Messages that wait for a condition of the set up. *)
Definition when (s : setup) (ready : bool) (otherwise : verdict) : verdict :=
  if has (su_flags s) SSH_SETUP_FLAG_DISCONNECT then drop_it else if ready then take_it else otherwise.

Definition transported (s : setup) : bool := has (su_flags s) SSH_SETUP_FLAG_TRANSPORT.
Definition authenticating (s : setup) : bool := transported s && in_phase s SSH_SETUP_PHASE_SERVICE SSH_SERVICE_TYPE_AUTH.

Definition judge_kexinit (s : setup) : verdict :=
  if su_status s =? SSH_SETUP_PHASE_TRANSPORT then
    when s (match su_member s with Kex k => negb (has (kx_flags k) SSH_KEX_FLAG_KEXINIT_S2C) | _ => true end) close_it
  else when s (transported s) (mkVerdict Freed false true).

Definition judge_kex (s : setup) : verdict :=
  when s (in_phase s SSH_SETUP_PHASE_TRANSPORT SSH_TRANSPORT_TYPE_KEX) (mkVerdict Freed true (negb (su_status s =? SSH_SETUP_PHASE_TRANSPORT))).

Definition judge_userauth_request (server : bool) (s : setup) : verdict :=
  if server && negb (has (su_flags s) SSH_SETUP_FLAG_DISCONNECT) then (if authenticating s then crash_it else close_it)
  else if server then drop_it else close_it.

(** A length that makes the sum with the 9 bytes before it wrap. *)
Definition wraps (len : Z) : bool := 2 ^ 32 - 9 <=? len.

Definition judge (server registered : bool) (s : setup) (p : received) : verdict :=
  let t := rp_type p in
  if t =? SSH_MSG_DISCONNECT then (if (9 <=? rp_len p) && wraps (field p 5) then crash_it else close_it)
  else if t =? SSH_MSG_IGNORE then crash_it
  else if t =? SSH_MSG_UNIMPLEMENTED then (if 5 <=? rp_len p then drop_it else close_it)
  else if t =? SSH_MSG_DEBUG then
    (if 6 <? rp_len p then (if (0 <? field p 2) && (field p 2 <? 65) && (rp_len p <? 6 + field p 2) then crash_it else drop_it) else close_it)
  else if t =? SSH_MSG_SERVICE_REQUEST then (if server then when s (transported s) (mkVerdict Lost false true) else close_it)
  else if t =? SSH_MSG_SERVICE_ACCEPT then when s (transported s) stuck_it
  else if t =? SSH_MSG_EXT_INFO then drop_it
  else if t =? SSH_MSG_KEXINIT then judge_kexinit s
  else if (t =? SSH_MSG_NEWKEYS) || (t =? SSH_MSG_KEXDH_REPLY) then judge_kex s
  else if t =? SSH_MSG_GLOBAL_REQUEST then when s (has (su_flags s) SSH_SETUP_FLAG_SERVICE_CONNECTION) (mkVerdict Freed false true)
  else if (t =? SSH_MSG_REQUEST_SUCCESS) || (t =? SSH_MSG_REQUEST_FAILURE) then when s (has (su_flags s) SSH_SETUP_FLAG_SERVICE_CONNECTION) stuck_it
  else if negb registered then drop_it
  else if t =? SSH_MSG_USERAUTH_REQUEST then judge_userauth_request server s
  else if (t =? SSH_MSG_USERAUTH_FAILURE) || (t =? SSH_MSG_USERAUTH_SUCCESS) || (t =? SSH_MSG_USERAUTH_PK_OK) then when s (authenticating s) stuck_it
  else if t =? SSH_MSG_USERAUTH_BANNER then (if (9 <? rp_len p) && wraps (field p 1) then crash_it else drop_it)
  else drop_it.

(** A KEXINIT that starts another exchange of keys, in the handler itself. *)
Definition rekeys (s : setup) (p : received) : bool :=
  (rp_type p =? SSH_MSG_KEXINIT) && negb (has (su_flags s) SSH_SETUP_FLAG_DISCONNECT) && negb (su_status s =? SSH_SETUP_PHASE_TRANSPORT)
  && transported s && negb (has (su_flags s) SSH_SETUP_FLAG_SETUPTHREAD).

(** The connection after a message that was judged. *)
Record obeys (c : conn) (p : received) (v : verdict) (c' : conn) : Prop := {
  ob_locked : cn_locked c' = vd_locked v;
  ob_closed : cn_closed c' = cn_closed c || vd_close v;
  ob_freed : cn_freed c' = match vd_fate v with Freed => cn_freed c ++ [p] | _ => cn_freed c end;
  ob_queue : cn_setup c' = match vd_fate v with Queued => set_squeue (su_queue (cn_setup c) ++ [p]) (cn_setup c) | _ => cn_setup c end
}.

Definition follows (c : conn) (p : received) (v : verdict) (r : run conn) : Prop :=
  match vd_fate v with Crash => r = Fault | _ => exists c', r = Done c' /\ obeys c p v c' end.

Ltac obey := cbn; eexists; (split; [reflexivity |]); split; cbn; rewrite ?orb_false_r, ?orb_true_r; done.

Lemma field_get p i : Z.of_nat i + 4 <= zlen (rp_buffer p) -> get_uint32 (drop i (rp_buffer p)) = Some (field p i).
Proof.
  intros H. unfold field. destruct (get_uint32 (drop i (rp_buffer p))) eqn:E; [done |]. exfalso.
  assert (4 <= length (drop i (rp_buffer p)))%nat as Hl by (rewrite length_drop; unfold zlen in H; lia).
  destruct (drop i (rp_buffer p)) as [|? [|? [|? [|? ?]]]]; cbn in Hl; try lia. done.
Qed.

Lemma field_u32 p i : is_u32 (field p i).
Proof.
  unfold field. destruct (drop i (rp_buffer p)) as [|? [|? [|? [|? ?]]]]; try (unfold is_u32; cbn; lia). cbn [get_uint32 default]. apply u32_range.
Qed.

(** The copy of a string after a header of 9 bytes. *)
Lemma copy_out_ok p i len : 0 <= i -> 0 <= len -> i + len <= zlen (rp_buffer p) -> is_u32 (len + 1) -> exists d, copy_out p i len = Done d.
Proof. intros Hi Hl H Hu. unfold copy_out. rewrite u32_id by done. destruct (Z.eqb_spec (len + 1) 0); [lia |]. rewrite mem_read_Some by lia. by eexists. Qed.

Lemma copy_out_fault p i len : is_u32 len -> zlen (rp_buffer p) < i + len -> copy_out p i len = Fault.
Proof. intros Hl H. unfold copy_out. destruct (_ =? 0); [done |]. by rewrite mem_read_None by lia. Qed.

Section Judged.
Context (key_exchange : conn -> run (Z * conn)) (self : Z) (server registered : bool) (c : conn) (p : received).
Context (Hc : cn_locked c = false) (Hs : su_ok (cn_setup c)) (Hp : payload_ok p).

Lemma disconnect_judged : follows c p (if (9 <=? rp_len p) && wraps (field p 5) then crash_it else close_it) (receive_msg_disconnect c p).
Proof.
  destruct Hp as (_ & Hl & H1). unfold receive_msg_disconnect. destruct (Z.leb_spec 9 (rp_len p)) as [H9|H9]; [| obey]. cbn [andb].
  rewrite (field_get p 1), (field_get p 5) by lia. pose proof (field_u32 p 5) as Hf. set (len := field p 5) in *. run. unfold wraps, is_u32 in *.
  destruct (Z.leb_spec (2 ^ 32 - 9) len) as [Hw|Hw].
  - assert (u32 (9 + len) = 9 + len - 2 ^ 32) as -> by (unfold u32; symmetry; apply (Z.mod_unique _ _ 1); lia).
    destruct (Z.ltb_spec 0 len); [| lia]. destruct (Z.leb_spec (9 + len - 2 ^ 32) (rp_len p)); [| lia]. cbn [andb].
    rewrite copy_out_fault; [done | unfold is_u32; lia | lia].
  - rewrite u32_id by (unfold is_u32; lia). destruct (Z.ltb_spec 0 len); cbn [andb]; [| obey].
    destruct (Z.leb_spec (9 + len) (rp_len p)); [| obey]. destruct (copy_out_ok p 9 len) as [d ->]; [lia .. | unfold is_u32; lia |]. obey.
Qed.

Lemma debug_judged : follows c p
  (if 6 <? rp_len p then (if (0 <? field p 2) && (field p 2 <? 65) && (rp_len p <? 6 + field p 2) then crash_it else drop_it) else close_it) (receive_msg_debug c p).
Proof.
  destruct Hp as (_ & Hl & H1). unfold receive_msg_debug. destruct (Z.ltb_spec 6 (rp_len p)) as [H6|H6]; [| obey].
  rewrite (field_get p 2) by lia. pose proof (field_u32 p 2) as Hf. set (len := field p 2) in *. run. unfold is_u32 in *.
  destruct (Z.ltb_spec 0 len); cbn [andb]; [| obey]. destruct (Z.ltb_spec len 65); cbn [andb]; [| obey].
  destruct (Z.ltb_spec (rp_len p) (6 + len)).
  - rewrite copy_out_fault; [done | unfold is_u32; lia | lia].
  - destruct (copy_out_ok p 6 len) as [d ->]; [lia .. | unfold is_u32; lia |]. obey.
Qed.

Lemma banner_judged : follows c p (if (9 <? rp_len p) && wraps (field p 1) then crash_it else drop_it) (receive_msg_userauth_banner c p).
Proof.
  destruct Hp as (_ & Hl & H1). unfold receive_msg_userauth_banner. destruct (Z.ltb_spec 9 (rp_len p)) as [H9|H9]; [| obey]. cbn [andb].
  rewrite (field_get p 1) by lia. pose proof (field_u32 p 1) as Hf. set (len := field p 1) in *. run. unfold wraps, is_u32 in *.
  destruct (Z.leb_spec (2 ^ 32 - 9) len) as [Hw|Hw].
  - assert (u32 (9 + len) = 9 + len - 2 ^ 32) as -> by (unfold u32; symmetry; apply (Z.mod_unique _ _ 1); lia).
    destruct (Z.leb_spec (9 + len - 2 ^ 32) (rp_len p)); [| lia]. rewrite copy_out_fault; [done | unfold is_u32; lia | lia].
  - rewrite u32_id by (unfold is_u32; lia). destruct (Z.leb_spec (9 + len) (rp_len p)); [| obey].
    destruct (copy_out_ok p 5 len) as [d ->]; [lia .. | unfold is_u32; lia |]. obey.
Qed.

(** The mutex is free when a message comes. *)
Lemma locks : signal_lock c = Done (set_locked true c).
Proof. unfold signal_lock. by rewrite Hc. Qed.

Lemma queues : queue_payload p (set_locked false (set_locked true c)) = Done (set_locked false (set_setup (set_squeue (su_queue (cn_setup c) ++ [p]) (cn_setup c)) c)).
Proof. done. Qed.

Lemma service_request_judged : follows c p
  (if server then when (cn_setup c) (transported (cn_setup c)) (mkVerdict Lost false true) else close_it) (receive_msg_service_request server c p).
Proof.
  unfold receive_msg_service_request. destruct server; [| obey]. rewrite locks. unfold when, transported, sflag. cbn.
  destruct (has _ SSH_SETUP_FLAG_DISCONNECT); [obey |]. destruct (has _ SSH_SETUP_FLAG_TRANSPORT); obey.
Qed.

Lemma service_accept_judged : follows c p (when (cn_setup c) (transported (cn_setup c)) stuck_it) (receive_msg_service_accept c p).
Proof.
  unfold receive_msg_service_accept. rewrite locks. unfold when, transported, sflag. cbn.
  destruct (has _ SSH_SETUP_FLAG_DISCONNECT); [obey |]. destruct (has _ SSH_SETUP_FLAG_TRANSPORT); obey.
Qed.

Lemma ext_info_judged : follows c p drop_it (receive_msg_ext_info c p).
Proof. unfold receive_msg_ext_info. rewrite locks. unfold sflag. cbn. destruct (has _ SSH_SETUP_FLAG_DISCONNECT); obey. Qed.

Lemma kexinit_judged : rp_type p = SSH_MSG_KEXINIT -> rekeys (cn_setup c) p = false ->
  follows c p (judge_kexinit (cn_setup c)) (receive_msg_kexinit key_exchange self c p).
Proof.
  intros Ht Hr. unfold rekeys in Hr. rewrite Ht in Hr. unfold receive_msg_kexinit, judge_kexinit. rewrite locks. unfold when, transported, sflag in *. cbn in *.
  destruct (has _ SSH_SETUP_FLAG_DISCONNECT); [destruct (_ =? _); obey |]. cbn in Hr. destruct (Z.eqb_spec (su_status (cn_setup c)) SSH_SETUP_PHASE_TRANSPORT) as [E|E].
  - destruct (so_transport _ Hs E) as [[Et [f Em]]|[Et [k Em]]]; rewrite Et; unfold kex_of; cbn; rewrite Em; [obey |]. cbn.
    destruct (has (kx_flags k) SSH_KEX_FLAG_KEXINIT_S2C); obey.
  - destruct (has _ SSH_SETUP_FLAG_TRANSPORT); [| obey]. cbn in Hr. apply negb_false_iff in Hr. rewrite Hr. obey.
Qed.

Lemma kex_judged : follows c p (judge_kex (cn_setup c)) (receive_msg_queue_shared c p).
Proof.
  unfold receive_msg_queue_shared, judge_kex. rewrite locks. unfold when, in_phase, sflag. cbn. destruct (has _ SSH_SETUP_FLAG_DISCONNECT); [obey |].
  destruct (su_status _ =? _); [| obey]. destruct (su_type _ =? _); obey.
Qed.

Lemma queue_service_judged : exists o c', queue_service c p = Done (o, c') /\
  (if has (su_flags (cn_setup c)) SSH_SETUP_FLAG_DISCONNECT then o = None /\ c' = free_payload p (set_locked false (set_locked true c))
   else if has (su_flags (cn_setup c)) SSH_SETUP_FLAG_SERVICE_CONNECTION then
     o = None /\ c' = set_locked false (set_setup (set_squeue (su_queue (cn_setup c) ++ [p]) (cn_setup c)) c)
   else o = Some p /\ c' = set_locked true c).
Proof.
  unfold queue_service. rewrite locks. unfold sflag. cbn. destruct (has _ SSH_SETUP_FLAG_DISCONNECT); [by do 2 eexists |].
  destruct (has _ SSH_SETUP_FLAG_SERVICE_CONNECTION); by do 2 eexists.
Qed.

Lemma read_name : exists r, read_ssh_string (drop 1 (rp_buffer p)) (u32 (rp_len p - 1)) None = Some r.
Proof.
  destruct Hp as (_ & Hl & H1). unfold read_ssh_string. cbn. rewrite u32_id by (unfold is_u32; lia). destruct (Z.leb_spec 4 (rp_len p - 1)); [| by eexists].
  rewrite (field_get p 1) by lia. cbn. destruct (_ <=? _); by eexists.
Qed.

Lemma global_request_judged : follows c p (when (cn_setup c) (has (su_flags (cn_setup c)) SSH_SETUP_FLAG_SERVICE_CONNECTION) (mkVerdict Freed false true))
  (receive_msg_global_request c p).
Proof.
  unfold receive_msg_global_request. destruct read_name as [r ->]. run. destruct queue_service_judged as (o & c' & -> & H). unfold when.
  destruct (has _ SSH_SETUP_FLAG_DISCONNECT); [destruct H as [-> ->]; obey |]. destruct (has _ SSH_SETUP_FLAG_SERVICE_CONNECTION); destruct H as [-> ->]; obey.
Qed.

Lemma request_common_judged : follows c p (when (cn_setup c) (has (su_flags (cn_setup c)) SSH_SETUP_FLAG_SERVICE_CONNECTION) stuck_it)
  (receive_msg_request_common c p).
Proof.
  unfold receive_msg_request_common. destruct queue_service_judged as (o & c' & -> & H). unfold when.
  destruct (has _ SSH_SETUP_FLAG_DISCONNECT); [destruct H as [-> ->]; obey |]. destruct (has _ SSH_SETUP_FLAG_SERVICE_CONNECTION); destruct H as [-> ->]; obey.
Qed.

Lemma userauth_request_judged : follows c p (judge_userauth_request server (cn_setup c)) (receive_msg_userauth_request server c p).
Proof.
  unfold receive_msg_userauth_request, judge_userauth_request. rewrite locks. destruct server; cbn; [| obey]. unfold sflag, in_auth, authenticating, transported, sflag. cbn.
  destruct (has _ SSH_SETUP_FLAG_DISCONNECT); cbn; [obey |]. destruct (has _ SSH_SETUP_FLAG_TRANSPORT && _); [| obey]. cbn.
  destruct (13 <? rp_len p); done.
Qed.

Lemma userauth_result_judged : follows c p (when (cn_setup c) (authenticating (cn_setup c)) stuck_it) (receive_msg_userauth_result_common c p).
Proof.
  unfold receive_msg_userauth_result_common. rewrite locks. unfold when, sflag, in_auth, authenticating, transported, sflag. cbn.
  destruct (has _ SSH_SETUP_FLAG_DISCONNECT); cbn; [obey |]. destruct (has _ SSH_SETUP_FLAG_TRANSPORT && _); obey.
Qed.

Lemma unimplemented_judged : follows c p (if 5 <=? rp_len p then drop_it else close_it) (receive_msg_unimplemented c p).
Proof.
  destruct Hp as (_ & Hl & H1). unfold receive_msg_unimplemented. destruct (Z.leb_spec 5 (rp_len p)); [| obey]. rewrite (field_get p 1) by lia. obey.
Qed.

End Judged.

(** The table has the handler of each type. *)
Definition handler_of (key_exchange : conn -> run (Z * conn)) (self : Z) (server registered : bool) (t : Z) : handler :=
  if t =? SSH_MSG_DISCONNECT then receive_msg_disconnect
  else if t =? SSH_MSG_IGNORE then receive_msg_ignore
  else if t =? SSH_MSG_UNIMPLEMENTED then receive_msg_unimplemented
  else if t =? SSH_MSG_DEBUG then receive_msg_debug
  else if t =? SSH_MSG_SERVICE_REQUEST then receive_msg_service_request server
  else if t =? SSH_MSG_SERVICE_ACCEPT then receive_msg_service_accept
  else if t =? SSH_MSG_EXT_INFO then receive_msg_ext_info
  else if t =? SSH_MSG_KEXINIT then receive_msg_kexinit key_exchange self
  else if (t =? SSH_MSG_NEWKEYS) || (t =? SSH_MSG_KEXDH_REPLY) then receive_msg_queue_shared
  else if t =? SSH_MSG_GLOBAL_REQUEST then receive_msg_global_request
  else if (t =? SSH_MSG_REQUEST_SUCCESS) || (t =? SSH_MSG_REQUEST_FAILURE) then receive_msg_request_common
  else if negb registered then msg_not_supported
  else if t =? SSH_MSG_USERAUTH_REQUEST then receive_msg_userauth_request server
  else if (t =? SSH_MSG_USERAUTH_FAILURE) || (t =? SSH_MSG_USERAUTH_SUCCESS) || (t =? SSH_MSG_USERAUTH_PK_OK) then receive_msg_userauth_result_common
  else if t =? SSH_MSG_USERAUTH_BANNER then receive_msg_userauth_banner
  else msg_not_supported.

Lemma session_cbs_of key_exchange self server registered t : session_cbs key_exchange self server registered t = handler_of key_exchange self server registered t.
Proof.
  unfold session_cbs, register_userauth_cb, register_transport_cb, register_msg_cb, handler_of,
    SSH_MSG_DISCONNECT, SSH_MSG_IGNORE, SSH_MSG_UNIMPLEMENTED, SSH_MSG_DEBUG, SSH_MSG_SERVICE_REQUEST, SSH_MSG_SERVICE_ACCEPT, SSH_MSG_EXT_INFO, SSH_MSG_KEXINIT,
    SSH_MSG_NEWKEYS, SSH_MSG_KEXDH_REPLY, SSH_MSG_USERAUTH_REQUEST, SSH_MSG_USERAUTH_FAILURE, SSH_MSG_USERAUTH_SUCCESS, SSH_MSG_USERAUTH_BANNER,
    SSH_MSG_USERAUTH_PK_OK, SSH_MSG_GLOBAL_REQUEST, SSH_MSG_REQUEST_SUCCESS, SSH_MSG_REQUEST_FAILURE.
  destruct registered; cbn [negb];
    (repeat match goal with |- context [t =? ?k] => destruct (Z.eqb_spec t k) as [->|]; cbn; [reflexivity |] end); done.
Qed.

Lemma judged key_exchange self server registered c p : cn_locked c = false -> su_ok (cn_setup c) -> payload_ok p -> rekeys (cn_setup c) p = false ->
  follows c p (judge server registered (cn_setup c) p) (process_cb_ssh_payload key_exchange self server registered c p).
Proof.
  intros Hc Hs Hp Hr. unfold process_cb_ssh_payload. rewrite session_cbs_of. unfold handler_of, judge.
  destruct (_ =? SSH_MSG_DISCONNECT); [by apply disconnect_judged |].
  destruct (_ =? SSH_MSG_IGNORE); [done |].
  destruct (_ =? SSH_MSG_UNIMPLEMENTED); [by apply unimplemented_judged |].
  destruct (_ =? SSH_MSG_DEBUG); [by apply debug_judged |].
  destruct (_ =? SSH_MSG_SERVICE_REQUEST); [by apply service_request_judged |].
  destruct (_ =? SSH_MSG_SERVICE_ACCEPT); [by apply service_accept_judged |].
  destruct (_ =? SSH_MSG_EXT_INFO); [by apply ext_info_judged |].
  destruct (Z.eqb_spec (rp_type p) SSH_MSG_KEXINIT); [by apply kexinit_judged |].
  destruct ((_ =? SSH_MSG_NEWKEYS) || _); [by apply kex_judged |].
  destruct (_ =? SSH_MSG_GLOBAL_REQUEST); [by apply global_request_judged |].
  destruct ((_ =? SSH_MSG_REQUEST_SUCCESS) || _); [by apply request_common_judged |].
  destruct registered; cbn [negb]; [| obey].
  destruct (_ =? SSH_MSG_USERAUTH_REQUEST); [by apply userauth_request_judged |].
  destruct ((_ =? SSH_MSG_USERAUTH_FAILURE) || _ || _); [by apply userauth_result_judged |].
  destruct (_ =? SSH_MSG_USERAUTH_BANNER); [by apply banner_judged |].
  obey.
Qed.


(** ** Messages of the phase *)

(** The messages the phases of a set up wait for: KEXINIT, which is taken once, from the
    greeter on; the other messages of an exchange of keys while it lasts; the service
    and the authentication; and the answers of the connection service.  Not among
    them is USERAUTH_REQUEST, which a server waits for as well: its handler faults. *)
Definition awaited (server registered : bool) (s : setup) (t : Z) : bool :=
  if su_status s =? SSH_SETUP_PHASE_TRANSPORT then
    (t =? SSH_MSG_KEXINIT) && match su_member s with Kex k => negb (has (kx_flags k) SSH_KEX_FLAG_KEXINIT_S2C) | _ => true end
    || ((t =? SSH_MSG_NEWKEYS) || (t =? SSH_MSG_KEXDH_REPLY)) && (su_type s =? SSH_TRANSPORT_TYPE_KEX)
  else if authenticating s then
    (t =? (if server then SSH_MSG_SERVICE_REQUEST else SSH_MSG_SERVICE_ACCEPT))
    || negb server && registered && ((t =? SSH_MSG_USERAUTH_FAILURE) || (t =? SSH_MSG_USERAUTH_SUCCESS) || (t =? SSH_MSG_USERAUTH_PK_OK))
  else has (su_flags s) SSH_SETUP_FLAG_SERVICE_CONNECTION
    && ((t =? SSH_MSG_GLOBAL_REQUEST) || (t =? SSH_MSG_REQUEST_SUCCESS) || (t =? SSH_MSG_REQUEST_FAILURE)).

Fixpoint process_all (h : handler) (c : conn) (ps : list received) : run conn :=
  match ps with [] => Done c | p :: ps => let* c := h c p in process_all h c ps end.

Lemma awaited_judged server registered s p : su_ok s -> has (su_flags s) SSH_SETUP_FLAG_DISCONNECT = false -> awaited server registered s (rp_type p) = true ->
  judge server registered s p = take_it /\ rekeys s p = false.
Proof.
  intros Hs Hd Ha. unfold awaited in Ha. destruct (su_status s =? SSH_SETUP_PHASE_TRANSPORT) eqn:Hk.
  - unfold rekeys. rewrite Hk. cbn [negb]. rewrite !andb_false_r. split; [| done].
    apply orb_prop in Ha as [[Ht%Z.eqb_eq Hm]%andb_prop|[Ht Hty]%andb_prop].
    + unfold judge, judge_kexinit, when. rewrite Ht, Hd, Hk, Hm. done.
    + apply orb_prop in Ht as [Ht%Z.eqb_eq|Ht%Z.eqb_eq]; unfold judge, judge_kex, when, in_phase; rewrite Ht, Hd, Hk, Hty; done.
  - destruct (authenticating s) eqn:Hau.
    + pose proof Hau as Ht. unfold authenticating in Ht. apply andb_prop in Ht as [Ht _].
      apply orb_prop in Ha as [Ha%Z.eqb_eq|[[Hn Hr]%andb_prop Ha]%andb_prop].
      * unfold judge, rekeys, when. rewrite Ha, Hd, Ht. by destruct server.
      * destruct server; [done |]. subst registered.
        apply orb_prop in Ha as [[Ha|Ha]%orb_prop|Ha]; apply Z.eqb_eq in Ha; unfold judge, rekeys, when; rewrite Ha; cbn; by rewrite Hd, Hau.
    + apply andb_prop in Ha as [Hc Ha].
      apply orb_prop in Ha as [[Ha|Ha]%orb_prop|Ha]; apply Z.eqb_eq in Ha; unfold judge, rekeys, when; rewrite Ha; cbn; rewrite Hd, Hc; done.
Qed.

Lemma awaited_queue server registered s q t : awaited server registered (set_squeue q s) t = awaited server registered s t.
Proof. done. Qed.

Lemma process_awaited key_exchange self server registered ps : forall c, cn_locked c = false -> su_ok (cn_setup c) -> sflag c SSH_SETUP_FLAG_DISCONNECT = false ->
  Forall payload_ok ps -> forallb (fun p => awaited server registered (cn_setup c) (rp_type p)) ps = true ->
  exists c', process_all (process_cb_ssh_payload key_exchange self server registered) c ps = Done c' /\
    cn_locked c' = false /\ cn_setup c' = set_squeue (su_queue (cn_setup c) ++ ps) (cn_setup c) /\ cn_freed c' = cn_freed c /\ cn_closed c' = cn_closed c.
Proof.
  induction ps as [|p ps IH]; intros c Hc Hs Hd Hps Ha; cbn [process_all].
  { exists c. rewrite app_nil_r. split; [done |]. split; [done |]. split; [by destruct c as [[]] |]. done. }
  cbn [forallb] in Ha. apply andb_prop in Ha as [Hp Ha]. inversion Hps as [|? ? Hok Hps']; subst.
  destruct (awaited_judged server registered _ p Hs Hd Hp) as [Hj Hr]. pose proof (judged key_exchange self server registered c p Hc Hs Hok Hr) as Hf. rewrite Hj in Hf.
  destruct Hf as (c1 & -> & H). run. destruct H as [Hl Hcl Hf Hq]. cbn [take_it vd_locked vd_close vd_fate] in *. rewrite orb_false_r in Hcl.
  assert (su_ok (cn_setup c1)) as Hs1. { rewrite Hq. apply (su_ok_keep (cn_setup c)); try done; [apply same_kind_refl | exact (so_flags _ Hs)]. }
  destruct (IH c1) as (c2 & -> & ? & Hq2 & Hf2 & Hcl2); [done | done | unfold sflag; by rewrite Hq | done | |].
  { rewrite forallb_forall in Ha |- *. intros x Hx. rewrite Hq, awaited_queue. by apply Ha. }
  exists c2. split; [done |]. split; [done |]. rewrite Hq2, Hq, Hf2, Hcl2, Hf, Hcl. cbn. split; [| done]. by rewrite <- app_assoc.
Qed.

(** C28: the messages a phase waits for, but for the USERAUTH_REQUEST of a server, reach
    the thread that does the set up: each is put at the end of the queue, in the order
    of arrival, none is freed, the connection stays open and the mutex is free after
    the last. *)
Theorem awaited_messages_queued (key_exchange : conn -> run (Z * conn)) (self : Z) (server registered : bool) (c : conn) (ps : list received) :
  cn_locked c = false -> su_ok (cn_setup c) -> sflag c SSH_SETUP_FLAG_DISCONNECT = false ->
  Forall payload_ok ps -> forallb (fun p => awaited server registered (cn_setup c) (rp_type p)) ps = true ->
  exists c', process_all (process_cb_ssh_payload key_exchange self server registered) c ps = Done c' /\
    cn_locked c' = false /\ su_queue (cn_setup c') = su_queue (cn_setup c) ++ ps /\ cn_freed c' = cn_freed c /\ cn_closed c' = cn_closed c.
Proof.
  intros Hc Hs Hd Hps Ha. destruct (process_awaited key_exchange self server registered ps c Hc Hs Hd Hps Ha) as (c' & -> & ? & Hq & ? & ?).
  exists c'. rewrite Hq. done.
Qed.

(** ** Messages at the wrong time *)

(** The handlers that take the mutex. *)
Definition takes_mutex (server registered : bool) (t : Z) : bool :=
  (server && (t =? SSH_MSG_SERVICE_REQUEST))
  || existsb (Z.eqb t) [SSH_MSG_SERVICE_ACCEPT; SSH_MSG_EXT_INFO; SSH_MSG_KEXINIT; SSH_MSG_NEWKEYS; SSH_MSG_KEXDH_REPLY; SSH_MSG_GLOBAL_REQUEST;
       SSH_MSG_REQUEST_SUCCESS; SSH_MSG_REQUEST_FAILURE]
  || (registered && existsb (Z.eqb t) [SSH_MSG_USERAUTH_REQUEST; SSH_MSG_USERAUTH_FAILURE; SSH_MSG_USERAUTH_SUCCESS; SSH_MSG_USERAUTH_PK_OK]).

Lemma takes_mutex_blocks key_exchange self server registered c p : cn_locked c = true -> payload_ok p -> takes_mutex server registered (rp_type p) = true ->
  process_cb_ssh_payload key_exchange self server registered c p = Blocked.
Proof.
  intros Hc Hp Ht. unfold process_cb_ssh_payload. rewrite session_cbs_of.
  assert (signal_lock c = Blocked) as Hb by (unfold signal_lock; by rewrite Hc).
  assert (queue_service c p = Blocked) as Hq by (unfold queue_service; by rewrite Hb).
  unfold takes_mutex in Ht. apply orb_prop in Ht as [[Ht|Ht]%orb_prop|Ht].
  - apply andb_prop in Ht as [-> ->%Z.eqb_eq]. cbn. unfold receive_msg_service_request. by rewrite Hb.
  - apply existsb_exists in Ht as (k & Hk & ->%Z.eqb_eq). cbn in Hk.
    repeat (destruct Hk as [<-|Hk]; [cbn;
      unfold receive_msg_service_accept, receive_msg_ext_info, receive_msg_kexinit, receive_msg_queue_shared, receive_msg_global_request,
        receive_msg_request_common; try destruct (read_name p Hp) as [r ->]; run; by rewrite ?Hb, ?Hq |]).
    done.
  - apply andb_prop in Ht as [-> Ht]. apply existsb_exists in Ht as (k & Hk & ->%Z.eqb_eq). cbn in Hk.
    repeat (destruct Hk as [<-|Hk]; [cbn; unfold receive_msg_userauth_request, receive_msg_userauth_result_common; run; by rewrite ?Hb |]).
    done.
Qed.

(** A crash leaves no mutex behind, since nothing goes on. *)
Lemma when_locked s ready o : vd_locked (when s ready o) = true -> when s ready o = o.
Proof. unfold when. destruct (has _ _); [done |]. by destruct ready. Qed.

Lemma judge_locked server registered s p : vd_locked (judge server registered s p) = true -> vd_fate (judge server registered s p) <> Crash.
Proof.
  unfold judge, judge_kexinit, judge_kex, judge_userauth_request.
  repeat match goal with
  | |- vd_locked (if ?b then _ else _) = true -> _ => destruct b
  | |- vd_locked (when _ _ _) = true -> _ => intros H%when_locked; rewrite H; discriminate
  | |- _ => discriminate
  end.
Qed.

(** a message at the wrong time leaves the mutex of the session held: the handler
    returns, and every later message whose handler takes the mutex waits for ever.  A
    NEWKEYS after the set up is such a message, on either side. *)
Theorem stray_message_blocks (key_exchange : conn -> run (Z * conn)) (self : Z) (server registered : bool) (c : conn) (p : received) :
  cn_locked c = false -> su_ok (cn_setup c) -> payload_ok p -> rekeys (cn_setup c) p = false ->
  (su_status (cn_setup c) = 0 -> sflag c SSH_SETUP_FLAG_DISCONNECT = false -> rp_type p = SSH_MSG_NEWKEYS -> vd_locked (judge server registered (cn_setup c) p) = true) /\
  (vd_locked (judge server registered (cn_setup c) p) = true ->
   exists c', process_cb_ssh_payload key_exchange self server registered c p = Done c' /\
     forall p', payload_ok p' -> takes_mutex server registered (rp_type p') = true -> process_cb_ssh_payload key_exchange self server registered c' p' = Blocked).
Proof.
  intros Hc Hs Hp Hr. split.
  - intros H0 Hd Ht. unfold judge. rewrite Ht. cbn. unfold judge_kex, when, in_phase, sflag in *. by rewrite Hd, H0.
  - intros Hv. pose proof (judged key_exchange self server registered c p Hc Hs Hp Hr) as Hf. pose proof (judge_locked _ _ _ _ Hv) as Hn. unfold follows in Hf.
    assert (exists c', process_cb_ssh_payload key_exchange self server registered c p = Done c' /\ obeys c p (judge server registered (cn_setup c) p) c') as (c' & E & Ho)
      by (by destruct (vd_fate (judge server registered (cn_setup c) p))).
    exists c'. split; [done |]. intros p' Hp' Ht. apply takes_mutex_blocks; [| done | done]. by rewrite (ob_locked _ _ _ _ Ho).
Qed.

(** ** A new exchange of keys *)

Section Rekey.
Context (key_exchange : conn -> run (Z * conn)) (self : Z) (server registered : bool).

(** The exchange returns with the mutex free and the set up as the phase has it; the
    thread that does it stays the owner. *)
Definition exchanges : Prop := forall c, cn_locked c = false -> su_ok (cn_setup c) -> in_phase (cn_setup c) SSH_SETUP_PHASE_TRANSPORT SSH_TRANSPORT_TYPE_KEX = true ->
  exists r c', key_exchange c = Done (r, c') /\ cn_locked c' = false /\ su_ok (cn_setup c') /\
    in_phase (cn_setup c') SSH_SETUP_PHASE_TRANSPORT SSH_TRANSPORT_TYPE_KEX = true /\
    su_thread (cn_setup c') = su_thread (cn_setup c) /\ su_flags (cn_setup c') = su_flags (cn_setup c).

Context (Hkex : exchanges).

Lemma with_lock_finish c ph ty : cn_locked c = false -> su_ok (cn_setup c) ->
  exists s', finish_ssh_connection_setup self (cn_setup c) ph ty = Ret s' /\ su_ok s' /\
    with_lock c (fun s => finish_ssh_connection_setup self s ph ty) = Done (set_locked false (set_setup s' (set_locked true c))).
Proof.
  intros Hc Hs. destruct (finish_ok self _ ph ty Hs) as (s' & E & Hs'). exists s'. split; [done |]. split; [done |].
  unfold with_lock. rewrite locks by done. run. cbn [cn_setup set_locked]. rewrite E. done.
Qed.

Lemma drop_thread f : is_u32 f -> has f SSH_SETUP_FLAG_SETUPTHREAD = true -> has f SSH_SETUP_FLAG_KEX = true -> has f SSH_SETUP_FLAG_TRANSPORT = true ->
  has (u32 (f - SSH_SETUP_FLAG_SETUPTHREAD)) SSH_SETUP_FLAG_SETUPTHREAD = false /\
  has (u32 (f - SSH_SETUP_FLAG_SETUPTHREAD)) SSH_SETUP_FLAG_KEX = true /\ has (u32 (f - SSH_SETUP_FLAG_SETUPTHREAD)) SSH_SETUP_FLAG_TRANSPORT = true.
Proof.
  unfold SSH_SETUP_FLAG_SETUPTHREAD. change SSH_SETUP_FLAG_KEX with (2 ^ 1). change SSH_SETUP_FLAG_TRANSPORT with (2 ^ 2). intros Hf Hs Hk Ht.
  rewrite drop_bit by (done || lia). rewrite !has_bit in * by lia. rewrite !Z.ldiff_spec, Hs, Hk, Ht by lia.
  rewrite Z.pow2_bits_true by lia. rewrite !Z.pow2_bits_false by lia. done.
Qed.

(** The three calls that end an exchange. *)
Lemma finish_rekey s : su_ok s -> in_phase s SSH_SETUP_PHASE_TRANSPORT SSH_TRANSPORT_TYPE_KEX = true -> su_thread s = self -> has (su_flags s) SSH_SETUP_FLAG_SETUPTHREAD = true ->
  exists s1 s2 s3, finish_ssh_connection_setup self s PhTransport SSH_TRANSPORT_TYPE_KEX = Ret s1 /\ su_ok s1 /\
    finish_ssh_connection_setup self s1 PhTransport 0 = Ret s2 /\ su_ok s2 /\ finish_ssh_connection_setup self s2 PhSetup 0 = Ret s3 /\ su_ok s3 /\
    su_status s3 = 0 /\ su_thread s3 = 0 /\ has (su_flags s3) SSH_SETUP_FLAG_SETUPTHREAD = false /\
    has (su_flags s3) SSH_SETUP_FLAG_KEX = true /\ has (su_flags s3) SSH_SETUP_FLAG_TRANSPORT = true.
Proof.
  intros Hs Hph Hth Hfl. unfold in_phase in Hph. apply andb_prop in Hph as [Hst _]. cbn [finish_ssh_connection_setup]. rewrite Hst. cbn.
  assert (su_ok (add_flag SSH_SETUP_FLAG_KEX s)) as H1.
  { apply (su_ok_keep s); try done; [apply same_kind_refl |]. cbn. apply lor_u32; [exact (so_flags _ Hs) | by split]. }
  set (s1 := add_flag SSH_SETUP_FLAG_KEX s) in *. assert (su_ok (add_flag SSH_SETUP_FLAG_TRANSPORT s1)) as H2.
  { apply (su_ok_keep s1); try done; [apply same_kind_refl |]. cbn. apply lor_u32; [exact (so_flags _ H1) | by split]. }
  destruct (clear_ok _ H2) as (m & Em & Hm). assert (su_status s1 =? SSH_SETUP_PHASE_TRANSPORT = true) as Hst1 by done.
  set (s2 := set_status 0 (set_member m (add_flag SSH_SETUP_FLAG_TRANSPORT s1))). assert (su_ok s2) as H3 by (apply su_ok_idle; [done | exact (so_flags _ H2)]).
  assert (has (su_flags s2) SSH_SETUP_FLAG_SETUPTHREAD = true) as Hf2 by (cbn; by rewrite !has_lor, Hfl).
  set (s3 := set_flags (u32 (su_flags s2 - SSH_SETUP_FLAG_SETUPTHREAD)) (set_thread 0 s2)). exists s1, s2, s3.
  assert (has (su_flags s2) SSH_SETUP_FLAG_KEX = true /\ has (su_flags s2) SSH_SETUP_FLAG_TRANSPORT = true) as [Hk Ht].
  { cbn. rewrite !has_lor. split; [by rewrite (orb_true_r (has _ _)) | by rewrite orb_true_r]. }
  split; [done |]. split; [done |]. split; [by rewrite Hst1, Em |]. split; [done |]. rewrite Hf2. cbn [su_thread s2 set_status set_member add_flag set_flags s1]. rewrite Hth, Z.eqb_refl.
  split; [done |]. cbn [su_flags s3 set_flags]. split; [apply (su_ok_keep s2); try done; [apply same_kind_refl | cbn; apply u32_range] |].
  split; [done |]. split; [done |]. apply (drop_thread (su_flags s2)); [exact (so_flags _ H3) | done ..].
Qed.

Lemma init_rekey s : su_ok s -> su_status s =? SSH_SETUP_PHASE_TRANSPORT = false -> has (su_flags s) SSH_SETUP_FLAG_SETUPTHREAD = true ->
  exists s', init_ssh_connection_setup s InitTransport SSH_TRANSPORT_TYPE_KEX = Ret s' /\ su_ok s' /\
    in_phase s' SSH_SETUP_PHASE_TRANSPORT SSH_TRANSPORT_TYPE_KEX = true /\ su_thread s' = su_thread s /\ su_queue s' = su_queue s /\
    has (su_flags s') SSH_SETUP_FLAG_SETUPTHREAD = true.
Proof.
  intros Hs H0 Hf. destruct (init_ok s InitTransport SSH_TRANSPORT_TYPE_KEX Hs) as (s' & E & Hs'). exists s'. split; [done |]. split; [done |].
  revert E. cbn [init_ssh_connection_setup]. unfold in_phase at 1. rewrite H0. cbn [andb]. destruct (clear_ok s Hs) as (m & -> & _). cbn. intros [= <-]. cbn.
  split; [done |]. split; [done |]. split; [done |]. change (drop_flag _ _) with (drop_flag (2 ^ 1) (su_flags s)). rewrite drop_flag_bit by (try exact (so_flags _ Hs); lia).
  unfold SSH_SETUP_FLAG_SETUPTHREAD in *. rewrite has_bit in * by lia. rewrite Z.ldiff_spec, Hf, Z.pow2_bits_false by lia. done.
Qed.

(** a KEXINIT on a connection that is set up starts an exchange of keys in the thread
    that received it, with the message queued for it; when the exchange returns, the
    set up is idle again, the keys count as exchanged, the thread is no longer the one
    of the set up, the mutex is free, and the connection is closed when it failed. *)
Theorem rekey_finishes (c : conn) (p : received) : cn_locked c = false -> su_ok (cn_setup c) -> rekeys (cn_setup c) p = true ->
  exists c0 r c1 c', key_exchange c0 = Done (r, c1) /\ su_queue (cn_setup c0) = su_queue (cn_setup c) ++ [p] /\
    in_phase (cn_setup c0) SSH_SETUP_PHASE_TRANSPORT SSH_TRANSPORT_TYPE_KEX = true /\
    process_cb_ssh_payload key_exchange self server registered c p = Done c' /\ cn_locked c' = false /\ su_ok (cn_setup c') /\
    su_status (cn_setup c') = 0 /\ su_thread (cn_setup c') = 0 /\ sflag c' SSH_SETUP_FLAG_SETUPTHREAD = false /\
    sflag c' SSH_SETUP_FLAG_KEX = true /\ sflag c' SSH_SETUP_FLAG_TRANSPORT = true /\ cn_closed c' = cn_closed c1 || (r =? -1).
Proof.
  intros Hc Hs Hr. unfold rekeys in Hr. repeat (apply andb_prop in Hr as [Hr ?]). apply Z.eqb_eq in Hr.
  repeat match goal with H : negb _ = true |- _ => apply negb_true_iff in H end. rename H into Hth, H0 into Htr, H1 into Hst, H2 into Hd.
  set (sth := set_thread self (set_flags (Z.lor (su_flags (cn_setup c)) SSH_SETUP_FLAG_SETUPTHREAD) (cn_setup c))).
  assert (su_ok sth) as Hsth. { apply (su_ok_keep (cn_setup c)); try done; [apply same_kind_refl |]. cbn. apply lor_u32; [exact (so_flags _ Hs) | by split]. }
  assert (has (su_flags sth) SSH_SETUP_FLAG_SETUPTHREAD = true) as Hft by (cbn; by rewrite has_lor, orb_true_r).
  destruct (init_rekey sth Hsth Hst Hft) as (s0 & E0 & Hs0 & Hph & Ht0 & Hq0 & Hf0).
  set (c0 := set_locked false (set_setup (set_squeue (su_queue s0 ++ [p]) s0) (set_setup s0 (set_locked false (set_setup sth (set_locked true c)))))).
  destruct (Hkex c0) as (r & c1 & Ek & Hc1 & Hs1 & Hph1 & Ht1 & Hf1).
  { done. } { apply (su_ok_keep s0); try done; [apply same_kind_refl | exact (so_flags _ Hs0)]. } { done. }
  destruct (finish_rekey (cn_setup c1)) as (s1 & s2 & s3 & F1 & O1 & F2 & O2 & F3 & O3 & Hend); [done | done | by rewrite Ht1; cbn; rewrite Ht0 | by rewrite Hf1 |].
  destruct (with_lock_finish c1 PhTransport SSH_TRANSPORT_TYPE_KEX Hc1 Hs1) as (s1' & F1' & _ & W1). rewrite F1 in F1'. injection F1' as <-.
  set (d1 := set_locked false (set_setup s1 (set_locked true c1))) in *.
  destruct (with_lock_finish d1 PhTransport 0 eq_refl O1) as (s2' & F2' & _ & W2). cbn [cn_setup d1 set_locked set_setup] in F2'. rewrite F2 in F2'. injection F2' as <-.
  set (d2 := set_locked false (set_setup s2 (set_locked true d1))) in *.
  destruct (with_lock_finish d2 PhSetup 0 eq_refl O2) as (s3' & F3' & _ & W3). cbn [cn_setup d2 set_locked set_setup] in F3'. rewrite F3 in F3'. injection F3' as <-.
  set (d3 := set_locked false (set_setup s3 (set_locked true d2))) in *.
  exists c0, r, c1, (if r =? -1 then disconnect_ssh_connection d3 else d3). split; [done |]. split; [cbn; by rewrite Hq0 |]. split; [done |]. split.
  - unfold process_cb_ssh_payload. rewrite session_cbs_of, Hr. cbn [handler_of]. unfold handler_of. cbn. unfold receive_msg_kexinit. rewrite locks by done. run.
    unfold sflag. cbn [cn_setup set_locked]. unfold transported in Htr. rewrite Hd, Hst, Htr, Hth. unfold rekey. cbn [cn_setup set_locked]. fold sth. run.
    unfold signal_unlock at 1. cbn [cn_locked set_setup set_locked]. run. cbn [cn_setup set_locked set_setup]. rewrite E0. run.
    change (queue_payload p _) with (Done c0). run. rewrite Ek. run. rewrite W1. run. rewrite W2. run. rewrite W3. done.
  - destruct Hend as (? & ? & ? & ? & ?). destruct (r =? -1); cbn; rewrite ?orb_true_r, ?orb_false_r; done.
Qed.

End Rekey.

(** ** On concrete connections *)

Definition msg (t : Z) (rest : bytes) : received := mkReceived t 7 0 (1 + zlen rest) (1 + zlen rest) (t :: rest).

Lemma msg_ok t rest : 0 <= t < 256 -> wf_bytes rest -> zlen rest < 2 ^ 31 - 1 -> payload_ok (msg t rest).
Proof.
  intros Ht Hw Hl. pose proof (zlen_nonneg rest). unfold payload_ok. cbn. split; [constructor; [exact Ht | done] |]. split; [unfold zlen; cbn; lia | lia].
Qed.

Definition new_conn (s : setup) : conn := mkConn s false 0 false None [] [] [] [].

(** Set up, and in the exchange of keys. *)
Definition established : setup := mkSetup 0 31 0 0 NoMember 0 [].
Definition exchanging : setup := mkSetup SSH_SETUP_PHASE_TRANSPORT (Z.lor SSH_SETUP_FLAG_GREETER SSH_SETUP_FLAG_SETUPTHREAD) 0 SSH_TRANSPORT_TYPE_KEX (Kex init_kex) 1 [].

Lemma established_ok : su_ok established.
Proof. apply su_ok_idle; [done | by split]. Qed.

Lemma exchanging_ok : su_ok exchanging.
Proof. split; [by right; left | right; split; [done | by eexists] | done | by split]. Qed.

(** An exchange that takes the KEXINIT from the queue and succeeds. *)
Definition quick_exchange (c : conn) : run (Z * conn) := Done (0, set_setup (set_squeue (drop 1 (su_queue (cn_setup c))) (cn_setup c)) c).

Lemma quick_exchanges : exchanges quick_exchange.
Proof.
  intros c Hc Hs Hp. do 2 eexists. split; [done |]. split; [done |]. split; [| done]. apply (su_ok_keep (cn_setup c)); try done; [apply same_kind_refl | exact (so_flags _ Hs)].
Qed.


Lemma awaited_messages_queued_witness : exists c',
  process_all (process_cb_ssh_payload quick_exchange 1 false true) (new_conn exchanging) [msg SSH_MSG_KEXINIT []; msg SSH_MSG_KEXDH_REPLY [0]; msg SSH_MSG_NEWKEYS []] = Done c' /\
  su_queue (cn_setup c') = [msg SSH_MSG_KEXINIT []; msg SSH_MSG_KEXDH_REPLY [0]; msg SSH_MSG_NEWKEYS []].
Proof.
  destruct (awaited_messages_queued quick_exchange 1 false true (new_conn exchanging) [msg SSH_MSG_KEXINIT []; msg SSH_MSG_KEXDH_REPLY [0]; msg SSH_MSG_NEWKEYS []]
    eq_refl exchanging_ok eq_refl) as (c' & E & _ & Hq & _).
  - repeat constructor; done.
  - vm_compute. reflexivity.
  - exists c'. split; [exact E | exact Hq].
Defined.

Lemma stray_message_blocks_witness : exists c', process_cb_ssh_payload quick_exchange 1 false true (new_conn established) (msg SSH_MSG_NEWKEYS []) = Done c' /\
  process_cb_ssh_payload quick_exchange 1 false true c' (msg SSH_MSG_GLOBAL_REQUEST [0; 0; 0; 0; 1]) = Blocked.
Proof.
  destruct (stray_message_blocks quick_exchange 1 false true (new_conn established) (msg SSH_MSG_NEWKEYS []) eq_refl established_ok
    (msg_ok SSH_MSG_NEWKEYS [] ltac:(split; done) ltac:(repeat constructor) ltac:(done)) eq_refl) as [H1 H2].
  destruct (H2 (H1 eq_refl eq_refl eq_refl)) as (c' & E & H). exists c'. split; [exact E |].
  apply H; [apply msg_ok; [split; done | repeat constructor; done | done] | reflexivity].
Defined.

Lemma rekey_finishes_witness : exists c', process_cb_ssh_payload quick_exchange 1 false true (new_conn established) (msg SSH_MSG_KEXINIT []) = Done c' /\
  su_status (cn_setup c') = 0 /\ cn_locked c' = false /\ sflag c' SSH_SETUP_FLAG_SETUPTHREAD = false.
Proof.
  destruct (rekey_finishes quick_exchange 1 false true quick_exchanges (new_conn established) (msg SSH_MSG_KEXINIT []) eq_refl established_ok eq_refl)
    as (? & ? & ? & c' & _ & _ & _ & E & Hl & _ & H0 & _ & Hf & _). exists c'. split; [exact E |]. split; [exact H0 |]. split; [exact Hl | exact Hf].
Defined.

(** A peer that sends IGNORE, which RFC 4253 allows at any time, ends the process. *)
Theorem ignore_crashes : forall c, process_cb_ssh_payload quick_exchange 1 false true c (msg SSH_MSG_IGNORE [0; 0; 0; 0]) = Fault.
Proof. intros c. reflexivity. Qed.

(** A server that gets a request for authentication when it waits for one gives the
    mutex back twice. *)
Theorem userauth_request_unlocks_twice :
  process_cb_ssh_payload quick_exchange 1 true true
    (new_conn (mkSetup SSH_SETUP_PHASE_SERVICE SSH_SETUP_FLAG_TRANSPORT 0 SSH_SERVICE_TYPE_AUTH (Auth init_ssh_auth) 1 []))
    (msg SSH_MSG_USERAUTH_REQUEST (replicate 20 0)) = Fault.
Proof. vm_compute. reflexivity. Qed.

(** The length of a DEBUG message is not compared with that of the payload: 64 bytes are
    read from a payload of 10. *)
Theorem debug_reads_beyond_payload :
  process_cb_ssh_payload quick_exchange 1 false true (new_conn established) (msg SSH_MSG_DEBUG [1; 0; 0; 0; 64; 0; 0; 0; 0]) = Fault.
Proof. vm_compute. reflexivity. Qed.

(** The sum of the length of a description and its header wraps. *)
Theorem disconnect_length_wraps :
  process_cb_ssh_payload quick_exchange 1 false true (new_conn established) (msg SSH_MSG_DISCONNECT [0; 0; 0; 2; 255; 255; 255; 250; 0; 0; 0; 0]) = Fault.
Proof. vm_compute. reflexivity. Qed.

(** A server forgets a SERVICE_REQUEST that comes before the keys: it is neither queued
    nor freed, and the mutex stays held. *)
Theorem early_service_request_lost :
  exists c', process_cb_ssh_payload quick_exchange 1 true false (new_conn exchanging) (msg SSH_MSG_SERVICE_REQUEST [0; 0; 0; 0]) = Done c' /\
    cn_freed c' = [] /\ su_queue (cn_setup c') = [] /\ cn_locked c' = true.
Proof. eexists. split; [vm_compute; reflexivity |]. done. Qed.

End SshTransport.
