(* ===== verification/AlgoExchange.v ===== *)
(** * ssh/keyexchange/algo-exchange.c: the exchange of the lists of algorithms

    The KEXINIT message of ssh/send/msg-transport.c, written from the table of
    supported algorithms in two passes, the two messages that are kept for the
    hash of the exchange, and the comparison with the correction for combined
    ciphers.  [algos] is the array, its end included; reading behind it is
    undefined. *)
From stdpp Require Import base list option strings.
From Stdlib Require Import ZArith Lia.
From S2P Require Import Prelude SshUint SshString MsgBuffer NameList KexCompare SshCipher SshPacket SshPayload SshSetup.
Import SshUint SshString MsgBuffer NameList KexCompare SshPayload SshSetup.
Open Scope Z_scope.

Module AlgoExchange.

Definition SSH_MSG_KEXINIT := 20.
Definition SSH_ALGO_ORDER_HIGH := 3.
Definition SSH_ALGO_TYPE_CIPHER_C2S := 2.
Definition SSH_ALGO_TYPE_CIPHER_S2C := 3.
Definition SSH_ALGO_TYPE_HMAC_C2S := 4.
Definition SSH_ALGO_TYPE_HMAC_S2C := 5.
Definition SSH_KEYEX_FLAG_SERVER := 1.

(** [struct algo_list_s]; [en_ptr] stands for the operations. *)
Record entry : Type := mkEntry { en_type : Z; en_order : Z; en_sshname : bytes; en_ptr : Z }.

Definition algo_of (e : entry) : algo := mk_algo (en_type e) (en_sshname e).

(** ** The message *)

(** [memcpy (&mb->data[mb->pos], d, len); mb->pos += len], which looks at no length. *)
Definition mb_raw (mb : msg_buffer) (d : bytes) : option msg_buffer :=
  let? mb := mb_store mb (mb_pos mb) d in Some (mb_skip (zlen d) mb).

(** One walk over the table; [first]: no name was written yet. *)
Fixpoint write_names (algos : list entry) (type order : Z) (first : bool) (mb : msg_buffer) : option (bool * msg_buffer) :=
  match algos with
  | [] => None
  | e :: algos =>
      if 0 <=? en_type e then
        if (en_type e =? type) && (en_order e =? order) then
          let? len := strlen (en_sshname e) in
          let? mb := (if first then Some mb else mb_raw mb [COMMA]) in
          let? d := mem_read (en_sshname e) 0 len in
          let? mb := mb_raw mb d in
          write_names algos type order false mb
        else write_names algos type order first mb
      else Some (first, mb)
  end.

(** [for (order = SSH_ALGO_ORDER_HIGH; order > 0; order--)] *)
Fixpoint write_orders (n : nat) (algos : list entry) (type : Z) (first : bool) (mb : msg_buffer) : option msg_buffer :=
  match n with
  | O => Some mb
  | S n' => let? (first, mb) := write_names algos type (Z.of_nat n) first mb in write_orders n' algos type first mb
  end.

Fixpoint count_names (algos : list entry) (type : Z) (first : bool) (mb : msg_buffer) : option msg_buffer :=
  match algos with
  | [] => None
  | e :: algos =>
      if 0 <=? en_type e then
        if en_type e =? type then
          let mb := if first then mb else mb_skip 1 mb in
          let? len := strlen (en_sshname e) in
          count_names algos type false (mb_skip len mb)
        else count_names algos type first mb
      else Some mb
  end.

Definition build_kexinit_commalist (algos : list entry) (type : Z) (mb : msg_buffer) : option msg_buffer :=
  match mb_data mb with
  | Some _ => write_orders (Z.to_nat SSH_ALGO_ORDER_HIGH) algos type true mb
  | None => count_names algos type true mb
  end.

(** [for (i = 0; i < SSH_ALGO_TYPES_COUNT; i++)], from [i] on. *)
Fixpoint fill_lists (n : nat) (i : Z) (algos : list entry) (mb : msg_buffer) : option msg_buffer :=
  match n with
  | O => Some mb
  | S n => let? mb := msg_fill_commalist mb (build_kexinit_commalist algos i) in fill_lists n (i + 1) algos mb
  end.

(** [random]: what [fill_random] gives. *)
Definition _send_kexinit (random : bytes) (algos : list entry) (mb : msg_buffer) : option msg_buffer :=
  let? mb := msg_write_byte mb SSH_MSG_KEXINIT in
  let randombytes := match mb_data mb with Some _ => random | None => repeat 0 16 end in
  let? mb := msg_write_bytes mb randombytes 16 in
  let? mb := fill_lists (Z.to_nat KexCompare.SSH_ALGO_TYPES_COUNT) 0 algos mb in
  let? mb := msg_write_byte mb 0 in
  msg_store_uint32 mb 0.

(** The payload that [send_kexinit_message] makes. *)
Definition kexinit_payload (random : bytes) (algos : list entry) : option received :=
  let? mb := _send_kexinit random algos init_msg_buffer in
  let p := init_ssh_payload (mb_pos mb) in
  let? mb := _send_kexinit random algos (set_msg_buffer mb (Some (rp_buffer p)) (rp_size p)) in
  let? b := mb_data mb in
  Some (set_rtype SSH_MSG_KEXINIT (set_rlen (mb_pos mb) (set_rbuffer b p))).

(** ** The two messages *)

Definition set_kclient x k := mkKex (kx_flags k) (kx_server k) x (kx_keys k) (kx_chosen k).
Definition set_kserver x k := mkKex (kx_flags k) x (kx_client k) (kx_keys k) (kx_chosen k).
Definition set_kchosen x k := mkKex (kx_flags k) (kx_server k) (kx_client k) (kx_keys k) x.

(** [mem]: there is memory for the copy; the bytes of the payload up to its length. *)
Definition _store_kexinit_common (mem : bool) (p : received) : option (Z * bytes) :=
  if mem then let? d := mem_read (rp_buffer p) 0 (rp_len p) in Some (0, d) else Some (-1, []).

Definition store_remote_kexinit (mem server : bool) (k : kex) (p : received) : option (Z * kex) :=
  let? (r, d) := _store_kexinit_common mem p in Some (r, if server then set_kclient d k else set_kserver d k).

Definition store_local_kexinit (mem server : bool) (k : kex) (p : received) : option (Z * kex) :=
  let? (r, d) := _store_kexinit_common mem p in Some (r, if server then set_kserver d k else set_kclient d k).

(** ** start_algo_exchange *)

Section Exchange.

(** [write_ssh_packet_kexinit]: its result, and whether the packet got as far as the
    socket, after which the flag KEXINIT_C2S is set.  [in_kex]: whether the set up is in
    the phase of the exchange, without which [change_ssh_connection_setup] returns -1. *)
Context (write_ssh_packet_kexinit : received -> Z * bool) (random : bytes) (mem in_kex : bool).

Definition send_kexinit_message (algos : list entry) (k : kex) : option (Z * kex) :=
  let? p := kexinit_payload random algos in
  let? (r, k) := store_local_kexinit mem (has (kx_flags k) SSH_KEYEX_FLAG_SERVER) k p in
  if r =? 0 then
    let (r, posted) := write_ssh_packet_kexinit p in
    Some (r, if posted then set_kflags (Z.lor (kx_flags k) SSH_KEX_FLAG_KEXINIT_C2S) k else k)
  else Some (-1, k).

(** The cipher and the mac that were chosen: [None] in the result is [goto out]. *)
Definition correct_mac (algos : list entry) (cipher hmac : Z) (k : kex) : option (option kex) :=
  let? index := kx_chosen k !! Z.to_nat cipher in
  let? e := (if 0 <=? index then algos !! Z.to_nat index else None) in
  let? name := cstring (en_sshname e) in
  if bytes_eqb name (SshCipher.lit "chacha20-poly1305@openssh.com") then Some (Some (set_kchosen (<[Z.to_nat hmac := -1]> (kx_chosen k)) k))
  else
    let? index2 := kx_chosen k !! Z.to_nat hmac in
    let? e2 := (if 0 <=? index2 then algos !! Z.to_nat index2 else None) in
    Some (if en_ptr e =? en_ptr e2 then Some k else None).

Definition string_from (d : bytes) : ssh_string := mk_ssh_string 0 (zlen d) 0 (PMem d) [].

(** [reply]: what [receive_message_common] returns.  [main]: the flag of the
    connection.  The result is [result] of the function and the state. *)
Definition start_algo_exchange (fuel : nat) (algos : list entry) (server main : bool) (reply : option received) (k : kex) : outcome (Z * kex) :=
  let! (r, k) := lift (send_kexinit_message algos k) in
  if r =? -1 then Ret (-1, k) else
  match reply with
  | None => Ret (-1, k)
  | Some p =>
      let! (r, k) := lift (store_remote_kexinit mem server k p) in
      let (result, k) := (if (r =? 0) && in_kex then (0, set_kflags (Z.lor (kx_flags k) SSH_KEX_FLAG_KEXINIT_S2C) k) else (-1, k)) : Z * kex in
      let! (r, kc) := compare_msg_kexinit fuel (algo_of <$> algos) main (string_from (kx_client k)) (string_from (kx_server k)) (mk_kex (kx_chosen k) None) in
      let k := set_kchosen (k_chosen kc) k in
      if r =? -1 then Ret (result, k) else
      let! o := lift (correct_mac algos SSH_ALGO_TYPE_CIPHER_C2S SSH_ALGO_TYPE_HMAC_C2S k) in
      match o with
      | None => Ret (result, k)
      | Some k =>
          let! o := lift (correct_mac algos SSH_ALGO_TYPE_CIPHER_S2C SSH_ALGO_TYPE_HMAC_S2C k) in
          match o with None => Ret (result, k) | Some k => Ret (0, k) end
      end
  end.

End Exchange.

(** ** What the message holds *)

Definition name_of (e : entry) : bytes := default [] (cstring (en_sshname e)).

Definition of_type (type : Z) (e : entry) : Prop := en_type e = type.
#[global] Instance of_type_dec type e : Decision (of_type type e) := decide (en_type e = type).
Definition of_order (order : Z) (e : entry) : Prop := en_order e = order.
#[global] Instance of_order_dec order e : Decision (of_order order e) := decide (en_order e = order).

(** The names of a type and an order, and the names of a type in the order of
    preference. *)
Definition ranked (tab : list entry) (type order : Z) : list bytes := name_of <$> filter (of_order order) (filter (of_type type) tab).

Fixpoint preferred (n : nat) (tab : list entry) (type : Z) : list bytes :=
  match n with O => [] | S n' => ranked tab type (Z.of_nat n) ++ preferred n' tab type end.

Definition preference (tab : list entry) (type : Z) : list bytes := preferred (Z.to_nat SSH_ALGO_ORDER_HIGH) tab type.

(** The names with a comma before each but the first. *)
Definition sep (first : bool) (ws : list bytes) : bytes := if first then drop 1 (wrap ws) else wrap ws.
Definition none (first : bool) (ws : list bytes) : bool := first && match ws with [] => true | _ => false end.

Lemma sep_cons first w ws : sep first (w :: ws) = (if first then [] else [COMMA]) ++ w ++ sep false ws.
Proof. destruct first; unfold sep; rewrite wrap_cons; done. Qed.

Lemma sep_app first ws vs : sep first (ws ++ vs) = sep first ws ++ sep (none first ws) vs.
Proof.
  destruct ws as [|w ws]; [by destruct first |]. cbn [app]. rewrite !sep_cons. unfold none. rewrite andb_false_r, <- !app_assoc. do 2 f_equal.
  unfold sep, wrap. by rewrite fmap_app, concat_app.
Qed.

Lemma none_app first ws vs : none first (ws ++ vs) = none (none first ws) vs.
Proof. destruct ws; [by destruct first | by destruct first, vs]. Qed.

(** ** Writers *)

(** [m] adds the bytes [d]: without a buffer it counts them, with one that has room
    for more it writes them. *)
Record emits (m : msg_buffer -> option msg_buffer) (d : bytes) : Prop := {
  emits_size n : 0 <= n -> is_u32 (n + zlen d) -> m (mk_mb None 0 n 0 false) = Some (mk_mb None 0 (n + zlen d) 0 false);
  emits_data pre post : zlen d < zlen post -> is_u32 (zlen pre + zlen d) -> m (wst pre post) = Some (wst (pre ++ d) (drop (length d) post))
}.

Lemma emits_writes m d : Writes m d -> emits m d.
Proof.
  intros Hm. split.
  - intros n Hn Hu. rewrite (writes_size (m := m) (d := d)) by done. done.
  - intros pre post Hl Hu. destruct (writes_data (m := m) (d := d) pre post Hu) as (mb & -> & [[_ ->]|[Ho _]]); [done | lia].
Qed.

Lemma emits_bind m k d e : emits m d -> emits k e -> emits (fun mb => let? mb := m mb in k mb) (d ++ e).
Proof.
  intros [M1 M2] [K1 K2]. pose proof (zlen_nonneg d). pose proof (zlen_nonneg e). split.
  - intros n Hn Hu. rewrite zlen_app in *. rewrite M1 by (unfold_width; lia). opt. rewrite K1 by (unfold_width; lia). do 2 f_equal. lia.
  - intros pre post Hl Hu. rewrite zlen_app in *. pose proof (zlen_nonneg pre). rewrite M2 by (unfold_width; lia). opt.
    rewrite K2 by (rewrite ?zlen_app, ?zlen_drop; unfold zlen, is_u32 in *; rewrite ?length_drop; lia).
    by rewrite <- app_assoc, drop_drop, length_app.
Qed.

Lemma raw_wst pre post d : zlen d <= zlen post -> is_u32 (zlen pre + zlen d) -> mb_raw (wst pre post) d = Some (wst (pre ++ d) (drop (length d) post)).
Proof.
  intros Hl Hu. destruct (free_split post (zlen d)) as (x & post' & -> & Hx); [pose proof (zlen_nonneg d); lia |].
  rewrite drop_app_length' by (unfold zlen in Hx; lia). unfold mb_raw, mb_store, wst at 1 2. cbn [mb_data mb_pos wst]. opt.
    rewrite (mem_write_free pre x d post') by done. opt. unfold mb_skip, mb_set_pos, mb_set_data. cbn [mb_data mb_len mb_pos mb_error mb_write wst].
  by rewrite (wst_eq pre x d post' (zlen d)) by done.
Qed.

Lemma commalist_emits cb e : emits cb e -> emits (fun mb => msg_fill_commalist mb cb) (encode_string e).
Proof.
  intros [C1 C2]. pose proof (zlen_nonneg e). destruct (emits_writes _ _ (writes_ssh_string (ArgL None) (be_encode 4 0) eq_refl)) as [L1 L2].
  assert (zlen (be_encode 4 0) = 4) as Hz by apply zlen_be_encode. split.
  - intros n Hn Hu. rewrite zlen_encode_string in *. unfold msg_fill_commalist, start_ssh_string. rewrite L1 by (rewrite ?Hz; unfold_width; lia). opt.
    rewrite Hz, C1 by (unfold_width; lia). opt. unfold msg_complete_ssh_string, nowrite_complete_ssh_string. cbn [mb_write]. do 2 f_equal. lia.
  - intros pre post Hl Hu. rewrite zlen_encode_string in *. pose proof (zlen_nonneg pre). unfold msg_fill_commalist, start_ssh_string.
    rewrite L2 by (rewrite ?Hz; unfold_width; lia). opt. cbn [mb_pos wst].
    rewrite C2 by (rewrite ?zlen_app, ?Hz, ?zlen_drop; unfold zlen, is_u32 in *; rewrite ?length_drop; lia). opt.
    rewrite complete_ssh_string_wst by (done || unfold is_u32 in *; lia). unfold encode_string. rewrite <- app_assoc, drop_drop, length_app.
    by rewrite !length_be_encode.
Qed.

(** ** The names of a table *)

Definition good_name (w : bytes) : Prop := w <> [] /\ wf_bytes w /\ no_nul w /\ no_comma w /\ zlen w < 65.

(** An entry of a table as the builders make it. *)
Definition good_entry (e : entry) : Prop :=
  0 <= en_type e /\ 1 <= en_order e <= SSH_ALGO_ORDER_HIGH /\ cstring (en_sshname e) = Some (name_of e) /\ good_name (name_of e).

Lemma cstring_read p w : cstring p = Some w -> strlen p = Some (zlen w) /\ mem_read p 0 (zlen w) = Some w.
Proof.
  unfold cstring. destruct (strlen p) as [n|] eqn:E; [| done]. opt. intros [= <-]. destruct (strlen_Some p n E) as ([H0 Hn] & _).
  assert (zlen (take (Z.to_nat n) p) = n) as Hz by (unfold zlen in *; rewrite length_take; lia). rewrite Hz. split; [done |].
  rewrite mem_read_Some by lia. by rewrite drop_0.
Qed.

Section Names.
Context (e : entry) (more : list entry) (type : Z).
Context (He : en_type e < 0).

Lemma write_names_wst order tab : forall first pre post,
  Forall good_entry tab -> zlen (sep first (ranked tab type order)) <= zlen post -> is_u32 (zlen pre + zlen (sep first (ranked tab type order))) ->
  write_names (tab ++ e :: more) type order first (wst pre post) =
    Some (none first (ranked tab type order), wst (pre ++ sep first (ranked tab type order)) (drop (length (sep first (ranked tab type order))) post)).
Proof.
  induction tab as [|a tab IH]; intros first pre post Ht Hl Hu; cbn [app write_names].
  { destruct (Z.leb_spec 0 (en_type e)); [lia |]. unfold ranked, none, sep. cbn. rewrite andb_true_r. destruct first; cbn; by rewrite app_nil_r, drop_0. }
  inversion Ht as [|? ? (Hty & _ & Hs & _) Ht']; subst. destruct (Z.leb_spec 0 (en_type a)); [| lia].
  unfold ranked in *. rewrite filter_cons in *.
  destruct (Z.eqb_spec (en_type a) type) as [E1|E1]; cbn [andb]; [| rewrite decide_False in * by done; by apply IH].
  rewrite decide_True in * by done. rewrite filter_cons in *. destruct (Z.eqb_spec (en_order a) order) as [E2|E2].
  - rewrite decide_True in * by (unfold of_order; done). cbn [fmap list_fmap] in *. fold (ranked tab type order) in *. rewrite sep_cons in *.
    set (w := name_of a) in *. destruct (cstring_read _ _ Hs) as [-> Hr]. opt. rewrite Hr. rewrite !zlen_app in *.
    pose proof (zlen_nonneg w). pose proof (zlen_nonneg pre). pose proof (zlen_nonneg (sep false (ranked tab type order))).
    pose proof (zlen_nonneg (if first then [] else [COMMA])).
    assert ((if first then Some (wst pre post) else mb_raw (wst pre post) [COMMA])
      = Some (wst (pre ++ if first then [] else [COMMA]) (drop (length (if first then [] else [COMMA])) post))) as ->.
    { destruct first; [by rewrite app_nil_r, drop_0 |]. apply raw_wst; [lia | unfold_width; lia]. }
    opt. rewrite raw_wst by (rewrite ?zlen_app, ?zlen_drop; unfold zlen, is_u32 in *; rewrite ?length_drop; lia). opt.
    rewrite IH; [| done | unfold zlen in *; rewrite !length_drop; lia | rewrite !zlen_app; unfold_width; lia].
    unfold none. rewrite andb_false_r. rewrite !drop_drop, !length_app, <- !app_assoc. done.
  - rewrite decide_False in * by (unfold of_order; done). by apply IH.
Qed.

Lemma write_orders_wst n tab : forall first pre post,
  Forall good_entry tab -> zlen (sep first (preferred n tab type)) <= zlen post -> is_u32 (zlen pre + zlen (sep first (preferred n tab type))) ->
  write_orders n (tab ++ e :: more) type first (wst pre post) =
    Some (wst (pre ++ sep first (preferred n tab type)) (drop (length (sep first (preferred n tab type))) post)).
Proof.
  induction n as [|n IH]; intros first pre post Ht Hl Hu; cbn [write_orders preferred] in *.
  { unfold sep, wrap. cbn. destruct first; cbn; by rewrite app_nil_r, drop_0. }
  rewrite sep_app, zlen_app in *. set (r := ranked tab type (Z.of_nat (S n))) in *.
  pose proof (zlen_nonneg (sep first r)). pose proof (zlen_nonneg (sep (none first r) (preferred n tab type))). pose proof (zlen_nonneg pre).
  rewrite write_names_wst by (done || fold r; unfold_width; lia). opt. fold r.
  rewrite IH; [| done | unfold zlen in *; rewrite length_drop; lia | rewrite zlen_app; unfold_width; lia].
  by rewrite drop_drop, length_app, <- app_assoc.
Qed.

Lemma zlen_wrap ws : zlen (wrap ws) = foldr (fun w n => 1 + zlen w + n) 0 ws.
Proof. induction ws as [|w ws IH]; [done |]. rewrite wrap_cons, zlen_cons, zlen_app, IH. cbn [foldr]. lia. Qed.

Lemma zlen_wrap_perm ws vs : ws ≡ₚ vs -> zlen (wrap ws) = zlen (wrap vs).
Proof. rewrite !zlen_wrap. induction 1; cbn [foldr]; lia. Qed.

Lemma zlen_sep_perm first ws vs : ws ≡ₚ vs -> zlen (sep first ws) = zlen (sep first vs).
Proof.
  intros Hp. unfold sep. destruct first; [| by apply zlen_wrap_perm]. pose proof (zlen_wrap_perm _ _ Hp). unfold zlen in *. rewrite !length_drop. lia.
Qed.

Lemma count_names_size tab : forall first n,
  Forall good_entry tab -> 0 <= n -> is_u32 (n + zlen (sep first (name_of <$> filter (of_type type) tab))) ->
  count_names (tab ++ e :: more) type first (mk_mb None 0 n 0 false) = Some (mk_mb None 0 (n + zlen (sep first (name_of <$> filter (of_type type) tab))) 0 false).
Proof.
  induction tab as [|a tab IH]; intros first n Ht Hn Hu; cbn [app count_names].
  { destruct (Z.leb_spec 0 (en_type e)); [lia |]. replace (zlen _) with 0 by (by destruct first). by rewrite Z.add_0_r. }
  inversion Ht as [|? ? (Hty & _ & Hs & _) Ht']; subst. destruct (Z.leb_spec 0 (en_type a)); [| lia].
  rewrite filter_cons in *. destruct (Z.eqb_spec (en_type a) type) as [E1|E1]; [| rewrite decide_False in * by done; by apply IH].
  rewrite decide_True in * by done. cbn [fmap list_fmap] in *. rewrite sep_cons, !zlen_app in *.
  destruct (cstring_read _ _ Hs) as [-> _]. opt. pose proof (zlen_nonneg (name_of a)). set (r := zlen (sep false _)) in *.
  assert (0 <= r) by apply zlen_nonneg. change (zlen (if first then [] else [COMMA])) with (zlen (if first then [] else [COMMA])) in *.
  assert (zlen (if first then [] else [COMMA]) = if first then 0 else 1) as Ez by (by destruct first). rewrite Ez in *.
  assert ((if first then mk_mb None 0 n 0 false else mb_skip 1 (mk_mb None 0 n 0 false)) = mk_mb None 0 (n + if first then 0 else 1) 0 false) as ->.
  { destruct first; unfold mb_skip, mb_set_pos; cbn [mb_data mb_len mb_pos mb_error mb_write]; [f_equal; lia |]. by rewrite u32_id by (unfold_width; lia). }
  unfold mb_skip, mb_set_pos. cbn [mb_data mb_len mb_pos mb_error mb_write]. rewrite u32_id by (destruct first; unfold_width; lia).
  rewrite IH by (done || destruct first; fold r; unfold_width; lia). fold r. do 2 f_equal. lia.
Qed.

(** Every name has one of the orders, so the preference is a permutation of the names. *)
Lemma ranked_all tab : Forall good_entry tab -> preference tab type ≡ₚ name_of <$> filter (of_type type) tab.
Proof.
  intros Ht. unfold preference, SSH_ALGO_ORDER_HIGH. change (Z.to_nat 3) with 3%nat. cbn [preferred]. change (Z.of_nat 3) with 3. change (Z.of_nat 2) with 2. change (Z.of_nat 1) with 1.
  unfold ranked. rewrite app_nil_r, <- !fmap_app. apply fmap_Permutation. assert (Forall good_entry (filter (of_type type) tab)) as Hf.
  { apply Forall_forall. intros x [_ Hx]%list_elem_of_filter. rewrite Forall_forall in Ht. by apply Ht. }
  induction (filter (of_type type) tab) as [|a l IH]; [done |]. inversion Hf as [|? ? (_ & Ho & _) Hf']; subst. rewrite !filter_cons.
  unfold SSH_ALGO_ORDER_HIGH in Ho. assert (en_order a = 1 \/ en_order a = 2 \/ en_order a = 3) as [E|[E|E]] by lia;
    repeat (case_decide; unfold of_order in *; try lia); (etrans; [| apply perm_skip, IH, Hf']); cbn [app].
  - rewrite !app_assoc. by rewrite <- Permutation_middle.
  - by rewrite <- Permutation_middle.
  - done.
Qed.

Lemma commalist_of_table tab : Forall good_entry tab -> emits (build_kexinit_commalist (tab ++ e :: more) type) (sep true (preference tab type)).
Proof.
  intros Ht. split.
  - intros n Hn Hu. unfold build_kexinit_commalist. cbn [mb_data]. rewrite (zlen_sep_perm true _ _ (ranked_all tab Ht)) in *. by apply count_names_size.
  - intros pre post Hl Hu. unfold build_kexinit_commalist. cbn [mb_data wst]. apply write_orders_wst; [done | unfold preference in *; lia | done].
Qed.

End Names.

(** ** The whole message *)

Fixpoint lists_from (n : nat) (i : Z) (tab : list entry) : list bytes :=
  match n with O => [] | S n => sep true (preference tab i) :: lists_from n (i + 1) tab end.

Definition kexinit_bytes (random : bytes) (tab : list entry) : bytes :=
  ([SSH_MSG_KEXINIT] ++ random ++ encode_strings (lists_from 10 0 tab) ++ [0]) ++ be_encode 4 0.

(** A table as the builders make it: its entries, and the end. *)
Definition sane_table (tab : list entry) (e : entry) : Prop := Forall good_entry tab /\ zlen tab <= 10000 /\ en_type e < 0.

Lemma fill_lists_emits tab e more n : forall i, Forall good_entry tab -> en_type e < 0 ->
  emits (fill_lists n i (tab ++ e :: more)) (encode_strings (lists_from n i tab)).
Proof.
  induction n as [|n IH]; intros i Ht He; cbn [fill_lists lists_from].
  - apply emits_writes, writes_nil.
  - rewrite encode_strings_cons.
    apply (emits_bind (fun mb => msg_fill_commalist mb (build_kexinit_commalist (tab ++ e :: more) i)) (fill_lists n (i + 1) (tab ++ e :: more)));
      [by apply commalist_emits, commalist_of_table | by apply IH].
Qed.

Lemma random_emits random : zlen random = 16 ->
  emits (fun mb => msg_write_bytes mb (match mb_data mb with Some _ => random | None => repeat 0 16 end) 16) random.
Proof.
  intros Hr. assert (emits (fun mb => msg_write_bytes mb random 16) random) as [_ H2].
  { apply emits_writes, writes_bytes. rewrite mem_read_Some by lia. rewrite drop_0, take_ge; [done |]. unfold zlen in Hr. lia. }
  assert (emits (fun mb => msg_write_bytes mb (repeat 0 16) 16) (repeat 0 16)) as [H1 _] by (by apply emits_writes, writes_bytes).
  split; [| exact H2]. intros n Hn Hu. rewrite Hr in *. exact (H1 n Hn Hu).
Qed.

Definition send_head (random : bytes) (algos : list entry) (mb : msg_buffer) : option msg_buffer :=
  let? mb := msg_write_byte mb SSH_MSG_KEXINIT in
  let? mb := msg_write_bytes mb (match mb_data mb with Some _ => random | None => repeat 0 16 end) 16 in
  let? mb := fill_lists 10 0 algos mb in
  msg_write_byte mb 0.

Lemma send_kexinit_split random algos mb : _send_kexinit random algos mb = let? mb := send_head random algos mb in msg_store_uint32 mb 0.
Proof.
  unfold _send_kexinit, send_head. change (Z.to_nat KexCompare.SSH_ALGO_TYPES_COUNT) with 10%nat. destruct (msg_write_byte mb SSH_MSG_KEXINIT) as [m|]; [| done]. opt.
  destruct (msg_write_bytes m _ 16) as [m1|]; [| done]. opt. destruct (fill_lists 10 0 algos m1) as [m2|]; [| done]. opt. by destruct (msg_write_byte m2 0).
Qed.

Lemma send_head_emits random tab e more : Forall good_entry tab -> en_type e < 0 -> zlen random = 16 ->
  emits (send_head random (tab ++ e :: more)) ([SSH_MSG_KEXINIT] ++ random ++ encode_strings (lists_from 10 0 tab) ++ [0]).
Proof.
  intros Ht He Hr. unfold send_head. apply (emits_bind (fun mb => msg_write_byte mb SSH_MSG_KEXINIT)); [apply emits_writes, writes_byte |].
  apply (emits_bind (fun mb => msg_write_bytes mb (match mb_data mb with Some _ => random | None => repeat 0 16 end) 16)); [by apply random_emits |].
  apply (emits_bind (fill_lists 10 0 (tab ++ e :: more))); [by apply fill_lists_emits |]. apply emits_writes, writes_byte.
Qed.

Lemma zlen_sep_bound first ws m : Forall (fun w => zlen w < 65) ws -> zlen ws <= m -> 0 <= zlen (sep first ws) <= 65 * m.
Proof.
  intros Hw Hm. split; [apply zlen_nonneg |]. assert (zlen (wrap ws) <= 65 * zlen ws) as Hl.
  { clear Hm. rewrite zlen_wrap. induction Hw as [|w ws Hw _ IH]; [done |]. cbn [foldr]. rewrite zlen_cons. lia. }
  unfold sep. destruct first; [| lia]. unfold zlen in *. rewrite length_drop. lia.
Qed.

Lemma preference_in tab type w : w ∈ preference tab type -> Forall good_entry tab -> exists a, a ∈ tab /\ en_type a = type /\ name_of a = w.
Proof. intros Hw Ht. rewrite ranked_all in Hw by done. apply list_elem_of_fmap in Hw as (a & -> & [Ha Hin]%list_elem_of_filter). by exists a. Qed.

Lemma preference_names tab type : Forall good_entry tab -> Forall good_name (preference tab type).
Proof.
  intros Ht. apply Forall_forall. intros w Hw. destruct (preference_in _ _ _ Hw Ht) as (a & Hin & _ & <-). rewrite Forall_forall in Ht. by destruct (Ht a Hin) as (_ & _ & _ & ?).
Qed.

Lemma preference_length tab type : Forall good_entry tab -> zlen (preference tab type) <= zlen tab.
Proof. intros Ht. unfold zlen. rewrite ranked_all by done. rewrite length_fmap. pose proof (length_filter (of_type type) tab). lia. Qed.

Lemma preference_bound tab type : Forall good_entry tab -> 0 <= zlen (sep true (preference tab type)) <= 65 * zlen tab.
Proof.
  intros Ht. apply zlen_sep_bound; [| by apply preference_length]. eapply Forall_impl; [by apply preference_names |]. by intros w (_ & _ & _ & _ & ?).
Qed.

Lemma lists_bound tab n : forall i, Forall good_entry tab -> 0 <= zlen (encode_strings (lists_from n i tab)) <= Z.of_nat n * (4 + 65 * zlen tab).
Proof.
  induction n as [|n IH]; intros i Ht; [done |]. cbn [lists_from]. rewrite encode_strings_cons, zlen_app, zlen_encode_string.
  pose proof (preference_bound tab i Ht). specialize (IH (i + 1) Ht). lia.
Qed.

Lemma kexinit_payload_spec random tab e more : sane_table tab e -> zlen random = 16 ->
  exists p, kexinit_payload random (tab ++ e :: more) = Some p /\ rp_type p = SSH_MSG_KEXINIT /\ rp_buffer p = kexinit_bytes random tab /\
    rp_len p = zlen (kexinit_bytes random tab) /\ rp_len p < 2 ^ 31.
Proof.
  intros (Ht & Hl & He) Hr. destruct (send_head_emits random tab e more Ht He Hr) as [S1 S2]. pose proof (lists_bound tab 10 0 Ht) as Hb.
  unfold kexinit_payload, kexinit_bytes. set (h := [SSH_MSG_KEXINIT] ++ _) in *.
  assert (18 <= zlen h < 2 ^ 30) as Hh. { unfold h. rewrite !zlen_app, Hr. change (zlen [SSH_MSG_KEXINIT]) with 1. change (zlen [0]) with 1. lia. }
  rewrite send_kexinit_split. change init_msg_buffer with (mk_mb None 0 0 0 false). rewrite S1 by (unfold_width; lia). opt.
  unfold msg_store_uint32 at 1. cbn [mb_write]. unfold nostore_uint32, mb_skip, mb_set_pos. cbn [mb_pos mb_data mb_len mb_error mb_write]. opt. cbn [mb_pos].
  rewrite u32_id by (unfold_width; lia). set (buf := rp_buffer (init_ssh_payload (0 + zlen h + 4))).
  assert (zlen buf = zlen h + 4) as Hbuf by (unfold buf, init_ssh_payload; cbn [rp_buffer]; unfold zlen at 1; rewrite length_replicate; lia).
  assert (forall mb, set_msg_buffer mb (Some buf) (rp_size (init_ssh_payload (0 + zlen h + 4))) = wst [] buf) as Hset
    by (intros mb; unfold set_msg_buffer, set_msg_buffer_write, wst; cbn [mb_data mb_len mb_pos mb_error mb_write]; f_equal; rewrite Hbuf; cbn [rp_size init_ssh_payload]; change (zlen (A := Z) []) with 0; lia).
  rewrite Hset, send_kexinit_split, S2 by (rewrite ?Hbuf; change (zlen (A := Z) []) with 0; unfold_width; lia). opt.
  set (r := drop (length h) buf). assert (zlen r = 4) as Hr4 by (unfold r, zlen in *; rewrite length_drop; lia).
  rewrite <- (app_nil_r r). rewrite store_uint32_wst by (done || unfold fits; rewrite Hr4; cbn [app]; unfold_width; lia). opt. cbn [mb_data wst mb_pos app]. opt.
  eexists. split; [done |]. cbn [rp_type rp_buffer rp_len set_rtype set_rlen set_rbuffer]. rewrite app_nil_r. split; [done |]. split; [done |]. split; [done |].
  rewrite zlen_app, zlen_be_encode. lia.
Qed.

(** ** The agreement *)

(** The first name of the client's preference that the server has too. *)
Definition agreed_name (tc ts : list entry) (i : Z) : option bytes :=
  find (fun w => bool_decide (w ∈ preference ts i)) (preference tc i).

(** Its place in the table [tab]; a language may have none. *)
Definition agreed (tab tc ts : list entry) (i : Z) : option Z :=
  match agreed_name tc ts i with
  | Some w => Some (index_of (algo_of <$> tab) w i)
  | None => if is_lang i then Some (-1) else None
  end.

Fixpoint agreement (n : nat) (i : Z) (tab tc ts : list entry) : option (list Z) :=
  match n with
  | O => Some []
  | S n => let? v := agreed tab tc ts i in let? vs := agreement n (i + 1) tab tc ts in Some (v :: vs)
  end.

Lemma split_sep ws : ws <> [] -> Forall no_comma ws -> split_commas (sep true ws) = ws.
Proof.
  induction ws as [|w ws IH]; [done |]. intros _ H. inversion H as [|? ? Hw Hws]; subst. rewrite sep_cons. cbn [app].
  destruct ws as [|v ws]; [unfold sep, wrap; cbn; rewrite app_nil_r; by apply split_word |].
  assert (sep false (v :: ws) = COMMA :: sep true (v :: ws)) as -> by (rewrite !sep_cons; done). by rewrite split_app_comma, (split_word w Hw), IH.
Qed.

Lemma sep_nil ws : Forall good_name ws -> sep true ws = [] <-> ws = [].
Proof.
  intros H. split; [| by intros ->]. destruct ws as [|w ws]; [done |]. rewrite sep_cons. inversion H as [|? ? (Hw & _) _]; subst. destruct w; [done |]. discriminate.
Qed.

Lemma good_no_comma ws : Forall good_name ws -> Forall no_comma ws.
Proof. intros H. eapply Forall_impl; [exact H |]. by intros w (_ & _ & _ & ? & _). Qed.

Lemma common_agreed tc ts i : Forall good_entry tc -> Forall good_entry ts ->
  common_name (sep true (preference tc i)) (sep true (preference ts i)) = default [] (agreed_name tc ts i).
Proof.
  intros Hc Hs. pose proof (preference_names tc i Hc) as Gc. pose proof (preference_names ts i Hs) as Gs. unfold common_name, agreed_name.
  destruct (decide (preference tc i = [])) as [E|E].
  { rewrite E. by rewrite decide_True by (by left). }
  destruct (decide (preference ts i = [])) as [E2|E2].
  { rewrite E2. rewrite decide_True by (by right). destruct (find _ _) as [w|] eqn:F; [| done]. apply find_some in F as [_ F]. rewrite bool_decide_eq_true in F. by apply not_elem_of_nil in F. }
  rewrite decide_False by (rewrite !sep_nil by done; naive_solver). unfold best_name. rewrite !split_sep by (done || by apply good_no_comma).
  destruct (find _ _) as [w|] eqn:F; [| done]. apply find_some in F as [F%list_elem_of_In _]. rewrite Forall_forall in Gc. destruct (Gc w F) as (_ & _ & _ & _ & Hl).
  destruct (Z.ltb_spec (zlen w) 65); [done | lia].
Qed.

(** A name that was agreed is in the table of either side. *)
Lemma agreed_in tc ts i w : agreed_name tc ts i = Some w -> w ∈ preference tc i /\ w ∈ preference ts i.
Proof. intros [H1%list_elem_of_In H2]%find_some. by rewrite bool_decide_eq_true in H2. Qed.

Lemma index_known tab i w : Forall good_entry tab -> w ∈ preference tab i ->
  exists n a, index_of (algo_of <$> tab) w i = Z.of_nat n /\ tab !! n = Some a /\ en_type a = i /\ name_of a = w.
Proof.
  intros Ht Hw. destruct (preference_in _ _ _ Hw Ht) as (a & Hin & Hty & Hn). unfold index_of.
  destruct (list_find (named i w) (algo_of <$> tab)) as [[n b]|] eqn:E.
  - apply list_find_Some in E as (Hb & [Hb1 Hb2] & _). rewrite list_lookup_fmap in Hb. destruct (tab !! n) as [x|] eqn:Ex; [| done]. cbn in Hb. injection Hb as <-.
    exists n, x. split; [done |]. split; [done |]. split; [done |]. unfold name_of. cbn [algo_of a_sshname] in Hb2. by rewrite Hb2.
  - apply list_find_None in E. rewrite Forall_forall in E. exfalso. apply (E (algo_of a)); [by apply list_elem_of_fmap_2 |]. split; [done |]. cbn [algo_of a_sshname].
    rewrite Forall_forall in Ht. destruct (Ht a Hin) as (_ & _ & -> & _). by f_equal.
Qed.

Lemma choice_agreed tab tc ts i : Forall good_entry tc -> Forall good_entry ts -> tab = tc \/ tab = ts ->
  choice (algo_of <$> tab) i (sep true (preference tc i)) (sep true (preference ts i)) = agreed tab tc ts i.
Proof.
  intros Hc Hs Hsd. unfold choice, agreed. rewrite common_agreed by done. destruct (agreed_name tc ts i) as [w|] eqn:E; cbn [from_option]; [| by rewrite decide_True].
  destruct (agreed_in _ _ _ _ E) as [H1 H2]. pose proof (preference_names tc i Hc) as G. rewrite Forall_forall in G. destruct (G w H1) as (Hne & _).
  change (id w) with w. rewrite decide_False by done. cbv zeta. assert (exists n a, index_of (algo_of <$> tab) w i = Z.of_nat n /\ tab !! n = Some a /\ en_type a = i /\ name_of a = w) as (n & a & -> & _).
  { destruct Hsd as [->| ->]; by apply index_known. }
  destruct (Z.eqb_spec (Z.of_nat n) (-1)); [lia | done].
Qed.

(** The ten pairs of lists. *)
Fixpoint pairs (n : nat) (i : Z) (tc ts : list entry) : list (bytes * bytes) :=
  match n with O => [] | S n => (sep true (preference tc i), sep true (preference ts i)) :: pairs n (i + 1) tc ts end.

Lemma choices_agreement tab tc ts n : forall i, Forall good_entry tc -> Forall good_entry ts -> tab = tc \/ tab = ts ->
  choices (algo_of <$> tab) i (pairs n i tc ts) = agreement n i tab tc ts.
Proof.
  induction n as [|n IH]; intros i Hc Hs Hsd; [done |]. cbn [pairs choices agreement]. rewrite choice_agreed by done. destruct (agreed tab tc ts i); [| done]. opt. by rewrite IH.
Qed.

Lemma pairs_fst n tc ts : forall i, fst <$> pairs n i tc ts = lists_from n i tc.
Proof. induction n as [|n IH]; intros i; [done |]. cbn. by rewrite <- IH. Qed.

Lemma pairs_snd n tc ts : forall i, snd <$> pairs n i tc ts = lists_from n i ts.
Proof. induction n as [|n IH]; intros i; [done |]. cbn. by rewrite <- IH. Qed.

Lemma good_sep ws m : Forall good_name ws -> zlen ws <= m -> m <= 10000 -> good_list (sep true ws).
Proof.
  intros Hw Hl Hm. assert (wf_bytes (wrap ws) /\ no_nul (wrap ws)) as [H1 H2].
  { clear Hl. induction Hw as [|w ws (_ & Hwf & Hnn & _) _ [IH1 IH2]]; [split; constructor |]. rewrite wrap_cons. split.
    - constructor; [done |]. by apply Forall_app.
    - constructor; [done |]. by apply Forall_app. }
  pose proof (zlen_sep_bound true ws m) as Hb. destruct Hb as [Hb0 Hb]; [eapply Forall_impl; [exact Hw |]; by intros w (_ & _ & _ & _ & ?) | done |].
  split; [by apply Forall_drop |]. split; [by apply Forall_drop |]. unfold_width. lia.
Qed.

Lemma pairs_good n tc ts fuel : forall i, Forall good_entry tc -> Forall good_entry ts -> zlen tc <= 10000 -> zlen ts <= 10000 -> 65 * zlen tc < Z.of_nat fuel ->
  Forall (fun p => good_list p.1 /\ good_list p.2 /\ zlen p.1 < Z.of_nat fuel) (pairs n i tc ts).
Proof.
  induction n as [|n IH]; intros i Hc Hs Lc Ls Hf; cbn [pairs]; constructor; [| by apply IH]. cbn [fst snd].
  split; [by eapply good_sep; [by apply preference_names | by apply preference_length | done] |].
  split; [by eapply good_sep; [by apply preference_names | by apply preference_length | done] |]. pose proof (preference_bound tc i Hc). lia.
Qed.

Lemma pairs_length n tc ts : forall i, length (pairs n i tc ts) = n.
Proof. induction n as [|n IH]; intros i; [done |]. cbn. by rewrite IH. Qed.

(** With an agreement the two messages have names in their first lists. *)
Lemma encode_lists_ge tab n : forall i, 4 * Z.of_nat n <= zlen (encode_strings (lists_from n i tab)).
Proof.
  induction n as [|n IH]; intros i; [done |]. cbn [lists_from]. rewrite encode_strings_cons, zlen_app, zlen_encode_string.
  specialize (IH (i + 1)). pose proof (zlen_nonneg (sep true (preference tab i))). lia.
Qed.

Lemma agreed_nonempty tc ts i w : Forall good_entry tc -> Forall good_entry ts -> agreed_name tc ts i = Some w ->
  1 <= zlen (sep true (preference tc i)) /\ 1 <= zlen (sep true (preference ts i)).
Proof.
  intros Hc Hs E. destruct (agreed_in _ _ _ _ E) as [H1 H2].
  assert (forall tab, Forall good_entry tab -> w ∈ preference tab i -> 1 <= zlen (sep true (preference tab i))) as H; [| by auto].
  intros tab Ht Hin. pose proof (preference_names tab i Ht) as G. destruct (preference tab i) as [|v vs]; [by apply not_elem_of_nil in Hin |].
  inversion G as [|? ? (Hv & _) _]; subst. rewrite sep_cons. destruct v; [done |]. cbn [app]. rewrite zlen_cons. pose proof (zlen_nonneg (v ++ sep false vs)). lia.
Qed.

Lemma agreement_long tab tc ts vs rc rs : Forall good_entry tc -> Forall good_entry ts -> zlen rc = 16 -> zlen rs = 16 -> agreement 10 0 tab tc ts = Some vs ->
  63 < zlen (kexinit_bytes rc tc) /\ 63 < zlen (kexinit_bytes rs ts).
Proof.
  intros Hc Hs Hrc Hrs. change (agreement 10 0 tab tc ts) with (let? v := agreed tab tc ts 0 in let? vs := agreement 9 1 tab tc ts in Some (v :: vs)).
  change (agreement 9 1 tab tc ts) with (let? v := agreed tab tc ts 1 in let? vs := agreement 8 2 tab tc ts in Some (v :: vs)). unfold agreed.
  destruct (agreed_name tc ts 0) as [w0|] eqn:E0; [| done]. opt. destruct (agreed_name tc ts 1) as [w1|] eqn:E1; [| done]. intros _.
  destruct (agreed_nonempty _ _ _ _ Hc Hs E0) as [A0 B0]. destruct (agreed_nonempty _ _ _ _ Hc Hs E1) as [A1 B1].
  assert (forall r tab, zlen r = 16 -> 1 <= zlen (sep true (preference tab 0)) -> 1 <= zlen (sep true (preference tab 1)) -> 63 < zlen (kexinit_bytes r tab)) as H; [| by auto].
  intros r t Hr Ha Hb. unfold kexinit_bytes. rewrite !zlen_app, Hr, zlen_be_encode. change (zlen [SSH_MSG_KEXINIT]) with 1. change (zlen [0]) with 1.
  change (lists_from 10 0 t) with (sep true (preference t 0) :: sep true (preference t 1) :: lists_from 8 2 t).
  rewrite !encode_strings_cons, !zlen_app, !zlen_encode_string. pose proof (encode_lists_ge t 8 2). lia.
Qed.

Section Negotiation.
Context (tc ts : list entry) (rc rs : bytes) (fuel : nat) (main : bool).
Context (Hc : Forall good_entry tc) (Hs : Forall good_entry ts) (Lc : zlen tc <= 10000) (Ls : zlen ts <= 10000).
Context (Hrc : zlen rc = 16) (Hrs : zlen rs = 16) (Hf : 65 * zlen tc < Z.of_nat fuel).

Lemma string_from_data d : s_data (string_from d) = Some d.
Proof. pose proof (s_data_read d []). by rewrite app_nil_r in *. Qed.

Lemma string_from_len d : s_len (string_from d) = zlen d.
Proof. done. Qed.

(** The comparison of the two messages, on the side whose table is [tab]. *)
Lemma compare_sides tab e more k : tab = tc \/ tab = ts -> en_type e < 0 -> zlen (k_chosen k) = 10 ->
  exists r k', compare_msg_kexinit fuel (algo_of <$> tab ++ e :: more) main (string_from (kexinit_bytes rc tc)) (string_from (kexinit_bytes rs ts)) k = Ret (r, k') /\
    match agreement 10 0 tab tc ts with Some vs => r = 0 /\ k_chosen k' = vs | None => r = -1 end.
Proof.
  intros Hsd He Hk. assert (Forall good_entry tab) as Ht by (destruct Hsd as [-> | ->]; done).
  destruct (Z.le_gt_cases (zlen (kexinit_bytes rc tc)) 63) as [Hcl|Hcl].
  { exists (-1), k. split.
    - unfold compare_msg_kexinit. cbn [s_view string_from s_ptr]. rewrite !string_from_len. destruct (Z.leb_spec (zlen (kexinit_bytes rc tc)) 63); [done | lia].
    - destruct (agreement 10 0 tab tc ts) as [vs|] eqn:E; [| done]. destruct (agreement_long _ _ _ _ _ _ Hc Hs Hrc Hrs E). lia. }
  destruct (Z.le_gt_cases (zlen (kexinit_bytes rs ts)) 63) as [Hsl|Hsl].
  { exists (-1), k. split.
    - unfold compare_msg_kexinit. cbn [s_view string_from s_ptr]. rewrite !string_from_len. destruct (Z.leb_spec (zlen (kexinit_bytes rc tc)) 63); [done |].
      destruct (Z.leb_spec (zlen (kexinit_bytes rs ts)) 63); [done | lia].
    - destruct (agreement 10 0 tab tc ts) as [vs|] eqn:E; [| done]. destruct (agreement_long _ _ _ _ _ _ Hc Hs Hrc Hrs E). lia. }
  rewrite <- (choices_agreement tab tc ts 10 0 Hc Hs Hsd). rewrite fmap_app. cbn [fmap list_fmap].
  pose proof (lists_bound tc 10 0 Hc). pose proof (lists_bound ts 10 0 Hs).
  assert (forall r t, zlen r = 16 -> 0 <= zlen (encode_strings (lists_from 10 0 t)) <= 10 * (4 + 65 * 10000) -> zlen (kexinit_bytes r t) < 2 ^ 32) as Hlt.
  { intros r t Hr Hb. unfold kexinit_bytes. rewrite !zlen_app, Hr, zlen_be_encode. change (zlen [SSH_MSG_KEXINIT]) with 1. change (zlen [0]) with 1. lia. }
  apply (compare_msg_kexinit_spec (algo_of <$> tab) (algo_of <$> more) (algo_of e) main _ _ ([SSH_MSG_KEXINIT] ++ rc) ([SSH_MSG_KEXINIT] ++ rs)
    ([0] ++ be_encode 4 0) ([0] ++ be_encode 4 0) (pairs 10 0 tc ts) k fuel).
  - split; [| done]. apply Forall_fmap. eapply Forall_impl; [exact Ht |]. intros a (Ha & _ & Hn & _). cbn [a_type a_sshname algo_of compose]. split; [done | by eexists].
  - apply pairs_length.
  - done.
  - rewrite zlen_app, Hrc. done.
  - rewrite zlen_app, Hrs. done.
  - rewrite string_from_data, pairs_fst. unfold kexinit_bytes. by rewrite <- !app_assoc.
  - rewrite string_from_data, pairs_snd. unfold kexinit_bytes. by rewrite <- !app_assoc.
  - cbn [s_len string_from]. split; [lia | apply Hlt; [done | lia]].
  - cbn [s_len string_from]. split; [lia | apply Hlt; [done | lia]].
  - by apply pairs_good.
Qed.

(** What either side chose is the same algorithm. *)
Lemma sides_agree i vc vs : agreed tc tc ts i = Some vc -> agreed ts tc ts i = Some vs ->
  (vc = -1 /\ vs = -1 /\ is_lang i = true) \/
  exists a b, tc !! Z.to_nat vc = Some a /\ ts !! Z.to_nat vs = Some b /\ name_of a = name_of b /\ en_type a = i /\ en_type b = i.
Proof.
  unfold agreed. destruct (agreed_name tc ts i) as [w|] eqn:E.
  - intros [= <-] [= <-]. right. destruct (agreed_in _ _ _ _ E) as [H1 H2]. destruct (index_known tc i w Hc H1) as (n & a & -> & Ha & ? & <-).
    destruct (index_known ts i _ Hs H2) as (m & b & -> & Hb & ? & Hn). exists a, b. by rewrite !Nat2Z.id.
  - destruct (is_lang i); [| done]. intros [= <-] [= <-]. by left.
Qed.

End Negotiation.

Lemma agreement_both tc ts n : forall i,
  match agreement n i tc tc ts, agreement n i ts tc ts with Some _, Some _ | None, None => True | _, _ => False end.
Proof.
  induction n as [|n IH]; intros i; [done |]. cbn [agreement]. unfold agreed. specialize (IH (i + 1)).
  destruct (agreed_name tc ts i); [| destruct (is_lang i); [| done]]; opt; destruct (agreement n (i + 1) tc tc ts), (agreement n (i + 1) ts tc ts); done.
Qed.

(** C16: two sides that write their KEXINIT from their tables and compare the two messages
    come to the same result: both fail when some list but the languages has no common
    name, and otherwise both choose, for each of the ten lists, the entry with the
    first name in the order of preference of the client (order high to low, then the
    place in its table) that the server has too. *)
Theorem negotiation_agrees (tc ts mc ms : list entry) (ec es : entry) (rc rs : bytes) (fuel : nat) (main : bool) (k : kex_state) :
  sane_table tc ec -> sane_table ts es -> zlen rc = 16 -> zlen rs = 16 -> 65 * zlen tc < Z.of_nat fuel -> zlen (k_chosen k) = 10 ->
  exists pc ps r kc ks, kexinit_payload rc (tc ++ ec :: mc) = Some pc /\ kexinit_payload rs (ts ++ es :: ms) = Some ps /\
    compare_msg_kexinit fuel (algo_of <$> tc ++ ec :: mc) main (string_from (rp_buffer pc)) (string_from (rp_buffer ps)) k = Ret (r, kc) /\
    compare_msg_kexinit fuel (algo_of <$> ts ++ es :: ms) main (string_from (rp_buffer pc)) (string_from (rp_buffer ps)) k = Ret (r, ks) /\
    match agreement 10 0 tc tc ts, agreement 10 0 ts tc ts with
    | Some vc, Some vs => r = 0 /\ k_chosen kc = vc /\ k_chosen ks = vs
    | None, None => r = -1
    | _, _ => False
    end /\
    forall i vc vs, agreed tc tc ts i = Some vc -> agreed ts tc ts i = Some vs ->
      (vc = -1 /\ vs = -1 /\ is_lang i = true) \/
      exists a b, tc !! Z.to_nat vc = Some a /\ ts !! Z.to_nat vs = Some b /\ name_of a = name_of b /\ en_type a = i /\ en_type b = i.
Proof.
  intros Htc Hts Hrc Hrs Hf Hk. destruct (kexinit_payload_spec rc tc ec mc Htc Hrc) as (pc & Epc & _ & Hpc & _). destruct (kexinit_payload_spec rs ts es ms Hts Hrs) as (ps & Eps & _ & Hps & _).
  destruct Htc as (Hc & Lc & Hec), Hts as (Hs & Ls & Hes).
  destruct (compare_sides tc ts rc rs fuel main Hc Hs Lc Ls Hrc Hrs Hf tc ec mc k (or_introl eq_refl) Hec Hk) as (r & kc & Ec & Hr).
  destruct (compare_sides tc ts rc rs fuel main Hc Hs Lc Ls Hrc Hrs Hf ts es ms k (or_intror eq_refl) Hes Hk) as (r' & ks & Es & Hr').
  pose proof (agreement_both tc ts 10 0) as Hboth. exists pc, ps, r, kc, ks. rewrite Hpc, Hps. split; [done |]. split; [done |]. split; [done |].
  destruct (agreement 10 0 tc tc ts), (agreement 10 0 ts tc ts).
  - destruct Hr as [-> ?], Hr' as [-> ?]. split; [done |]. split; [done |]. exact (sides_agree tc ts Hc Hs).
  - done.
  - done.
  - subst. split; [done |]. split; [done |]. exact (sides_agree tc ts Hc Hs).
Qed.

(** ** The exchange *)

Lemma agreement_lookup tab tc ts n : forall i vs, agreement n i tab tc ts = Some vs -> length vs = n /\ forall j, (j < n)%nat -> vs !! j = agreed tab tc ts (i + Z.of_nat j).
Proof.
  induction n as [|n IH]; intros i vs; cbn [agreement]; [intros [= <-]; split; [done | lia] |].
  destruct (agreed tab tc ts i) as [v|] eqn:Ev; [| done]. opt. destruct (agreement n (i + 1) tab tc ts) as [l|] eqn:El; [| done]. opt. intros [= <-].
  destruct (IH _ _ El) as [Hl Hj]. split; [cbn; by rewrite Hl |]. intros [|j] Hlt; cbn; [by rewrite Z.add_0_r |]. rewrite Hj by lia. f_equal. lia.
Qed.

Definition chacha : bytes := SshCipher.lit "chacha20-poly1305@openssh.com".

(** The correction keeps all but the mac of a combined cipher. *)
Definition corrected (tab : list entry) (c h : nat) (vs vs' : list Z) : Prop :=
  vs' = vs \/ (vs' = <[h := -1]> vs /\ exists n a, vs !! c = Some (Z.of_nat n) /\ tab !! n = Some a /\ name_of a = chacha).

Lemma correct_mac_ok tab e more c h k nc ac nh ah : Forall good_entry tab -> kx_chosen k !! Z.to_nat c = Some (Z.of_nat nc) -> tab !! nc = Some ac ->
  kx_chosen k !! Z.to_nat h = Some (Z.of_nat nh) -> tab !! nh = Some ah ->
  exists o, correct_mac (tab ++ e :: more) c h k = Some o /\
    match o with None => True | Some k' => exists vs', k' = set_kchosen vs' k /\ corrected tab (Z.to_nat c) (Z.to_nat h) (kx_chosen k) vs' end.
Proof.
  intros Ht Hc Hac Hh Hah. unfold correct_mac. rewrite Hc. opt. destruct (Z.leb_spec 0 (Z.of_nat nc)); [| lia]. rewrite Nat2Z.id, (lookup_app_l_Some _ _ _ _ Hac). opt.
  assert (cstring (en_sshname ac) = Some (name_of ac)) as -> by (rewrite Forall_forall in Ht; apply list_elem_of_lookup_2 in Hac; by destruct (Ht ac Hac) as (_ & _ & ? & _)). opt.
  unfold bytes_eqb. case_bool_decide as Hn.
  - eexists. split; [done |]. eexists. split; [done |]. right. split; [done |]. by exists nc, ac.
  - rewrite Hh. opt. destruct (Z.leb_spec 0 (Z.of_nat nh)); [| lia]. rewrite Nat2Z.id, (lookup_app_l_Some _ _ _ _ Hah). opt. eexists. split; [done |].
    destruct (en_ptr ac =? en_ptr ah); [| done]. exists (kx_chosen k). split; [by destruct k | by left].
Qed.

(** C26: on a client in the phase of the exchange, the exchange of the lists never fails once both messages are there:
    the result is 0 with the two messages kept for the hash; when there is an
    agreement the algorithms are those agreed (without a mac for a cipher that has
    its own), and when there is none the result is 0 all the same. *)
Theorem exchange_result (write : received -> Z * bool) (tc ts mc ms : list entry) (ec es : entry) (rc rs : bytes) (fuel : nat) (main : bool) (k : kex) (ps : received) :
  sane_table tc ec -> sane_table ts es -> zlen rc = 16 -> zlen rs = 16 -> 65 * zlen tc < Z.of_nat fuel -> zlen (kx_chosen k) = 10 ->
  kx_flags k = 0 -> kexinit_payload rs (ts ++ es :: ms) = Some ps -> (forall p, (write p).1 <> -1) ->
  exists pc k', kexinit_payload rc (tc ++ ec :: mc) = Some pc /\
    start_algo_exchange write rc true true fuel (tc ++ ec :: mc) false main (Some ps) k = Ret (0, k') /\
    kx_client k' = rp_buffer pc /\ kx_server k' = rp_buffer ps /\
    forall vs, agreement 10 0 tc tc ts = Some vs -> exists v1, corrected tc 2 4 vs v1 /\ corrected tc 3 5 v1 (kx_chosen k').
Proof.
  intros Htc Hts Hrc Hrs Hf Hk Hfl Hps Hw. destruct (kexinit_payload_spec rc tc ec mc Htc Hrc) as (pc & Epc & _ & Hpc & Hlc & _).
  destruct (kexinit_payload_spec rs ts es ms Hts Hrs) as (ps' & Eps & _ & Hps' & Hls & _). rewrite Hps in Eps. injection Eps as <-.
  destruct Htc as (Hc & Lc & Hec), Hts as (Hs & Ls & Hes). exists pc. unfold start_algo_exchange, send_kexinit_message. rewrite Epc. opt. rewrite Hfl.
  assert (forall p d, rp_buffer p = d -> rp_len p = zlen d -> mem_read (rp_buffer p) 0 (rp_len p) = Some d) as Hread.
  { intros p d -> ->. pose proof (zlen_nonneg d). rewrite mem_read_Some by lia. rewrite drop_0, take_ge; [done | unfold zlen; lia]. }
  unfold store_local_kexinit, store_remote_kexinit, _store_kexinit_common. rewrite (Hread pc _ Hpc Hlc), (Hread ps _ Hps' Hls). opt.
  change (has 0 SSH_KEYEX_FLAG_SERVER) with false. cbn [Z.eqb]. destruct (write pc) as [w posted] eqn:Ew. opt. cbn [lift outcome_bind].
  assert (w <> -1) as Hwn by (pose proof (Hw pc) as H; by rewrite Ew in H). destruct (Z.eqb_spec w (-1)); [done |].
  set (k1 := if posted then _ else _). cbn [lift outcome_bind Z.eqb andb].
  assert (kx_client k1 = kexinit_bytes rc tc /\ kx_chosen k1 = kx_chosen k) as [Hk1 Hk1c] by (unfold k1; by destruct posted).
  set (k2 := set_kflags _ (set_kserver _ k1)). assert (kx_client k2 = kexinit_bytes rc tc /\ kx_server k2 = kexinit_bytes rs ts /\ kx_chosen k2 = kx_chosen k) as (H2c & H2s & H2k) by done.
  rewrite H2c, H2s, H2k.
  destruct (compare_sides tc ts rc rs fuel main Hc Hs Lc Ls Hrc Hrs Hf tc ec mc (mk_kex (kx_chosen k) None) (or_introl eq_refl) Hec Hk) as (r & kc & -> & Hr). cbn [outcome_bind].
  set (k3 := set_kchosen (k_chosen kc) k2). destruct (agreement 10 0 tc tc ts) as [vs|] eqn:Ea.
  2: { subst r. cbn [Z.eqb]. exists k3. rewrite Hpc, Hps'. do 4 (split; [done |]). by intros. }
  destruct Hr as [-> Hvs]. cbn [Z.eqb]. destruct (agreement_lookup _ _ _ _ _ _ Ea) as [_ Hj].
  assert (forall j, (j < 8)%nat -> exists n a, vs !! j = Some (Z.of_nat n) /\ tc !! n = Some a) as Hidx.
  { intros j Hlt. pose proof (Hj j ltac:(lia)) as Hv. assert (is_lang (0 + Z.of_nat j) = false) as Hl by (unfold is_lang, SSH_ALGO_TYPE_LANG_C2S, SSH_ALGO_TYPE_LANG_S2C; bdestr; lia || done).
    destruct (lookup_lt_is_Some_2 vs j) as [v Hvj]; [destruct (agreement_lookup _ _ _ _ _ _ Ea); lia |]. rewrite Hvj in Hv. unfold agreed in Hv. rewrite Hl in Hv.
    destruct (agreed_name tc ts (0 + Z.of_nat j)) as [w'|] eqn:En; [| done]. injection Hv as ->. destruct (agreed_in _ _ _ _ En) as [H1 _].
    destruct (index_known tc _ w' Hc H1) as (n' & a & E & Ha & _). exists n', a. by rewrite Hvj, E. }
  destruct (Hidx 2%nat ltac:(lia)) as (n2 & a2 & V2 & A2). destruct (Hidx 3%nat ltac:(lia)) as (n3 & a3 & V3 & A3).
  destruct (Hidx 4%nat ltac:(lia)) as (n4 & a4 & V4 & A4). destruct (Hidx 5%nat ltac:(lia)) as (n5 & a5 & V5 & A5). subst vs.
  destruct (correct_mac_ok tc ec mc SSH_ALGO_TYPE_CIPHER_C2S SSH_ALGO_TYPE_HMAC_C2S k3 n2 a2 n4 a4 Hc V2 A2 V4 A4) as (o & -> & Ho). cbn [lift outcome_bind].
  destruct o as [k4|]; [| exists k3; rewrite Hpc, Hps'; do 4 (split; [done |]); intros vs [= <-]; exists (k_chosen kc); split; by left].
  destruct Ho as (v1 & -> & Hv1).
  assert (v1 !! 3%nat = Some (Z.of_nat n3) /\ v1 !! 5%nat = Some (Z.of_nat n5)) as [W3 W5].
  { destruct Hv1 as [-> | [-> _]]; [done |]. change (Z.to_nat SSH_ALGO_TYPE_HMAC_C2S) with 4%nat. by rewrite !list_lookup_insert_ne by lia. }
  destruct (correct_mac_ok tc ec mc SSH_ALGO_TYPE_CIPHER_S2C SSH_ALGO_TYPE_HMAC_S2C (set_kchosen v1 k3) n3 a3 n5 a5 Hc W3 A3 W5 A5) as (o & -> & Ho). cbn [lift outcome_bind].
  destruct o as [k5|].
  - destruct Ho as (v2 & -> & Hv2). exists (set_kchosen v2 (set_kchosen v1 k3)). rewrite Hpc, Hps'. do 4 (split; [done |]). intros vs [= <-]. by exists v1.
  - exists (set_kchosen v1 k3). rewrite Hpc, Hps'. do 4 (split; [done |]). intros vs [= <-]. exists v1. split; [done | by left].
Qed.

(** ** On concrete tables *)

Definition the_end : entry := mkEntry (-1) 0 [0] 0.

(** Two names for the exchange, one for each other list; the preferred one is last. *)
Definition client_table : list entry :=
  (fun i => mkEntry (Z.of_nat i) 2 [Z.of_nat (97 + i); 0] 1) <$> seq 0 8 ++ [0%nat].
Definition client_algos : list entry := mkEntry 0 1 [120; 0] 1 :: client_table ++ [mkEntry 0 3 [121; 0] 1].
Definition server_algos : list entry := client_table ++ [mkEntry 0 3 [120; 0] 1].

Lemma good_entry_b a : 0 <= en_type a -> 1 <= en_order a <= 3 -> (exists x, en_sshname a = [x; 0] /\ 45 <= x < 123) -> good_entry a.
Proof.
  intros H1 H2 (x & Hx & Hr). assert (cstring (en_sshname a) = Some [x]) as E.
  { rewrite Hx. apply (cstring_app [x] []). constructor; [lia | constructor]. }
  unfold good_entry, name_of. rewrite E. cbn [from_option]. split; [done |]. split; [done |]. split; [done |].
  split; [done |]. split; [constructor; [unfold is_u8; lia | constructor] |]. split; [constructor; [lia | constructor] |]. split; [constructor; [unfold COMMA; lia | constructor] | done].
Qed.

Lemma tables_sane : sane_table client_algos the_end /\ sane_table server_algos the_end.
Proof.
  assert (forall l, Forall (fun a => 0 <= en_type a /\ 1 <= en_order a <= 3 /\ (exists x, en_sshname a = [x; 0] /\ 45 <= x < 123)) l -> zlen l <= 10000 -> sane_table l the_end) as H.
  { intros l Hl Hz. split; [| split; [done | done]]. eapply Forall_impl; [exact Hl |]. intros a (? & ? & ?). by apply good_entry_b. }
  split; (apply H; [| done]); unfold client_algos, server_algos, client_table; cbn; repeat constructor; cbn; try lia; eexists; split; done || lia.
Qed.

Definition random16 : bytes := repeat 9 16.

Lemma negotiation_agrees_witness : exists pc ps r kc ks,
  kexinit_payload random16 (client_algos ++ [the_end]) = Some pc /\ kexinit_payload random16 (server_algos ++ [the_end]) = Some ps /\
  compare_msg_kexinit 800 (algo_of <$> client_algos ++ [the_end]) true (string_from (rp_buffer pc)) (string_from (rp_buffer ps)) (mk_kex (repeat 0 10) None) = Ret (r, kc) /\
  compare_msg_kexinit 800 (algo_of <$> server_algos ++ [the_end]) true (string_from (rp_buffer pc)) (string_from (rp_buffer ps)) (mk_kex (repeat 0 10) None) = Ret (r, ks) /\
  r = 0 /\ k_chosen kc = [1; 2; 3; 4; 5; 6; 7; 8; -1; -1] /\ k_chosen ks = [0; 1; 2; 3; 4; 5; 6; 7; -1; -1].
Proof.
  destruct tables_sane as [H1 H2].
  destruct (negotiation_agrees client_algos server_algos [] [] the_end the_end random16 random16 800 true (mk_kex (repeat 0 10) None) H1 H2 eq_refl eq_refl)
    as (pc & ps & r & kc & ks & E1 & E2 & E3 & E4 & E5 & _); [by vm_compute | done |].
  exists pc, ps, r, kc, ks. split; [exact E1 |]. split; [exact E2 |]. split; [exact E3 |]. split; [exact E4 |].
  replace (agreement 10 0 client_algos client_algos server_algos) with (Some [1; 2; 3; 4; 5; 6; 7; 8; -1; -1]) in E5 by (vm_compute; reflexivity).
  replace (agreement 10 0 server_algos client_algos server_algos) with (Some [0; 1; 2; 3; 4; 5; 6; 7; -1; -1]) in E5 by (vm_compute; reflexivity). exact E5.
Defined.

Definition new_kex : kex := mkKex 0 [] [] (repeat [] 6) (repeat (-1) 10).

Lemma exchange_result_witness : exists ps k', kexinit_payload random16 (server_algos ++ [the_end]) = Some ps /\
  start_algo_exchange (fun _ => (1, true)) random16 true true 800 (client_algos ++ [the_end]) false true (Some ps) new_kex = Ret (0, k') /\ kx_server k' = rp_buffer ps.
Proof.
  destruct tables_sane as [H1 H2]. destruct (kexinit_payload_spec random16 server_algos the_end [] H2 eq_refl) as (ps & E & _).
  destruct (exchange_result (fun _ => (1, true)) client_algos server_algos [] [] the_end the_end random16 random16 800 true new_kex ps H1 H2 eq_refl eq_refl)
    as (pc & k' & _ & E2 & _ & E3 & _); [by vm_compute | done | done | exact E | done |].
  exists ps, k'. split; [exact E |]. split; [exact E2 | exact E3].
Defined.

(** The server has no cipher of the client: the exchange returns 0, and the ciphers that
    were chosen have the index -1 in an array. *)
Theorem failed_negotiation_goes_on :
  match kexinit_payload random16 ((filter (fun a => en_type a <> 2) server_algos) ++ [the_end]) with
  | Some ps =>
      match start_algo_exchange (fun _ => (1, true)) random16 true true 800 (client_algos ++ [the_end]) false true (Some ps) new_kex with
      | Ret (r, k') => r = 0 /\ kx_chosen k' = [1; 2; -1; -1; -1; -1; -1; -1; -1; -1]
      | _ => False
      end
  | None => False
  end.
Proof. vm_compute. done. Qed.

(** On a server the message of the client replaces its own, since the flag that is
    looked at is not the one of a server: the comparison has no message of the server. *)
Theorem server_loses_own_kexinit :
  match kexinit_payload random16 (client_algos ++ [the_end]) with
  | Some pc =>
      match start_algo_exchange (fun _ => (1, true)) random16 true true 800 (server_algos ++ [the_end]) true true (Some pc) new_kex with
      | Ret (r, k') => r = 0 /\ kx_client k' = rp_buffer pc /\ kx_server k' = [] /\ kx_chosen k' = repeat (-1) 10
      | _ => False
      end
  | None => False
  end.
Proof. vm_compute. done. Qed.

End AlgoExchange.
