(* ===== verification/SshTransportSend.v ===== *)
(** * ssh/send/msg-transport.c: the messages of the transport

    The senders of the messages of the transport but KEXINIT (file AlgoExchange), as
    the payload they hand to [write_ssh_packet], and the choice of the answer to a
    request for a service in ssh/send/send.c. *)
From stdpp Require Import base list option strings.
From Stdlib Require Import ZArith Lia.
From S2P Require Import Prelude SshUint SshString MsgBuffer SshCipher SshPacket SshPayload SshChannelSend Runs SshSetup SshTransport.
Import SshUint SshString MsgBuffer SshPayload SshChannelSend Runs SshSetup SshTransport.
Open Scope Z_scope.

Module SshTransportSend.

(** ** Disconnecting *)

Definition d_reasons : list bytes := lit <$> [
  ""; "Host is not allowed to connect."; "Protocol error."; "Key exchange failed."; "Reserved."; "MAC error,"; "Compression error.";
  "Service not available."; "Protocol version is not supported."; "Host key is not verifiable."; "Connection is lost."; "Disconnected by application.";
  "Too many connections."; "Authorization cancelled by user."; "No more authorization methods are available."; "Illegal user name."]%string.

Definition SSH_DISCONNECT_ILLEGAL_USER_NAME := 15.

Definition get_disconnect_reason (reason : Z) : option bytes :=
  if (0 <=? reason) && (reason <=? SSH_DISCONNECT_ILLEGAL_USER_NAME) then d_reasons !! Z.to_nat reason else None.

(** [if (size > 0) { memcpy (pos, d, size); pos += size; }] *)
Definition put_opt (d : bytes) (c : cursor) : option cursor := if 0 <? zlen d then put_bytes d c else Some c.

Definition write_disconnect (reason : Z) (d : bytes) (buffer : bytes) : option cursor :=
  let? c := put_byte SSH_MSG_DISCONNECT (buffer, 0) in
  let? c := put_uint32 reason c in
  let? c := put_uint32 (zlen d) c in
  let? c := put_opt d c in
  put_uint32 0 c.

Definition send_disconnect_message (reason : Z) : option received :=
  let description := default [] (get_disconnect_reason reason) in
  fill_payload (u32 (13 + zlen description)) SSH_MSG_DISCONNECT (write_disconnect reason description).

(** ** Messages with a string; NULL is an empty string *)

Definition arg_size (data : option ssh_string) : Z := match data with Some s => s_len s | None => 0 end.

(** [memcpy (pos, data->ptr, size)] when there is something to copy. *)
Definition put_arg (data : option ssh_string) (c : cursor) : option cursor :=
  if 0 <? arg_size data then let? s := data in let? v := s_view s in put_data v (arg_size data) c else Some c.

Definition write_ignore (data : option ssh_string) (buffer : bytes) : option cursor :=
  let? c := put_byte SSH_MSG_IGNORE (buffer, 0) in
  let? c := put_uint32 (arg_size data) c in
  put_arg data c.

Definition send_ignore_message (data : option ssh_string) : option received :=
  fill_payload (u32 (5 + arg_size data)) SSH_MSG_IGNORE (write_ignore data).

Definition write_debug (debug : option ssh_string) (buffer : bytes) : option cursor :=
  let? c := put_byte SSH_MSG_DEBUG (buffer, 0) in
  let? c := put_byte 1 c in
  let? c := put_uint32 (arg_size debug) c in
  let? c := put_arg debug c in
  put_uint32 0 c.

Definition send_debug_message (debug : option ssh_string) : option received :=
  fill_payload (u32 (10 + arg_size debug)) SSH_MSG_DEBUG (write_debug debug).

Definition write_unimplemented (number : Z) (buffer : bytes) : option cursor :=
  let? c := put_byte SSH_MSG_UNIMPLEMENTED (buffer, 0) in put_uint32 number c.

Definition send_unimplemented_message (number : Z) : option received :=
  fill_payload 5 SSH_MSG_UNIMPLEMENTED (write_unimplemented number).

Definition send_newkeys_message : option received :=
  fill_payload 1 SSH_MSG_NEWKEYS (fun buffer => put_byte SSH_MSG_NEWKEYS (buffer, 0)).

(** ** Services *)

(** [service] is a C string. *)
Definition write_service (code : Z) (service : bytes) (size : Z) (buffer : bytes) : option cursor :=
  let? c := put_byte code (buffer, 0) in
  let? c := put_uint32 size c in
  put_data service size c.

Definition _send_service_common_message (code : Z) (service : bytes) : option received :=
  let? n := strlen service in
  fill_payload (u32 (5 + n)) code (write_service code service n).

Definition send_service_request_message : bytes -> option received := _send_service_common_message SSH_MSG_SERVICE_REQUEST.
Definition send_service_accept_message : bytes -> option received := _send_service_common_message SSH_MSG_SERVICE_ACCEPT.

(** [memcmp] looks at as many bytes as the name has. *)
Definition select_payload_service_accept (p : received) (service : bytes) : option bool :=
  if rp_type p =? SSH_MSG_SERVICE_ACCEPT then
    let? len := strlen service in
    if u32 (5 + len) <=? rp_len p then
      let? d := mem_read service 0 len in
      let buffer := [SSH_MSG_SERVICE_ACCEPT] ++ be_encode 4 len ++ d in
      let? a := mem_read (rp_buffer p) 0 len in
      let? b := mem_read buffer 0 len in
      Some (bytes_eqb a b)
    else Some false
  else Some false.

(** ** Global requests *)

(** [memcpy (pos, service, size); pos += len]: the position moves by the length of the
    data, not of the name. *)
Definition put_moved (service : bytes) (size len : Z) (c : cursor) : option cursor :=
  let? c' := put_data service size c in Some (c'.1, c.2 + len).

Definition write_global_request (service : bytes) (size : Z) (data : option bytes) (len : Z) (buffer : bytes) : option cursor :=
  let? c := put_byte SSH_MSG_GLOBAL_REQUEST (buffer, 0) in
  let? c := put_uint32 size c in
  let? c := put_moved service size len c in
  let? c := put_byte 1 c in
  match data with Some d => put_data d len c | None => Some c end.

(** The payload, before the wait for the answer to an earlier request. *)
Definition send_global_request_message (service : bytes) (data : option bytes) (len : Z) : option received :=
  let? size := strlen service in
  fill_payload (u32 (5 + len + 1 + size)) SSH_MSG_GLOBAL_REQUEST (write_global_request service size data len).

Definition write_request_success (data : bytes) (size : Z) (buffer : bytes) : option cursor :=
  let? c := put_byte SSH_MSG_REQUEST_SUCCESS (buffer, 0) in
  let? c := put_uint32 size c in
  put_data data size c.

Definition send_request_success_message (data : bytes) (size : Z) : option received :=
  fill_payload (u32 (5 + size)) SSH_MSG_REQUEST_SUCCESS (write_request_success data size).

Definition send_request_failure_message : option received :=
  fill_payload 1 SSH_MSG_REQUEST_FAILURE (fun buffer => put_byte SSH_MSG_REQUEST_FAILURE (buffer, 0)).

(** ** The bytes *)

Definition disconnect_bytes (reason : Z) (d : bytes) : bytes := [SSH_MSG_DISCONNECT] ++ be_encode 4 reason ++ be_encode 4 (zlen d) ++ d ++ be_encode 4 0.
Definition ignore_bytes (d : bytes) : bytes := [SSH_MSG_IGNORE] ++ be_encode 4 (zlen d) ++ d.
Definition debug_bytes (d : bytes) : bytes := [SSH_MSG_DEBUG] ++ [1] ++ be_encode 4 (zlen d) ++ d ++ be_encode 4 0.
Definition unimplemented_bytes (n : Z) : bytes := [SSH_MSG_UNIMPLEMENTED] ++ be_encode 4 n.
Definition service_bytes (code : Z) (w : bytes) : bytes := [u8 code] ++ be_encode 4 (zlen w) ++ w.

Lemma puts_opt d : Puts (put_opt d) d.
Proof.
  unfold put_opt. intros size pre c. destruct (Z.ltb_spec 0 (zlen d)); [apply puts_bytes |]. destruct d as [|x d]; [apply puts_ret |].
  rewrite zlen_cons in *. pose proof (zlen_nonneg d). lia.
Qed.

Lemma puts_arg s d : s_data s = Some d -> Puts (put_arg (Some s)) d.
Proof.
  intros Hd. destruct (s_data_inv _ _ Hd) as (v & Hv & Hl & Hdv & Hz). unfold put_arg, arg_size. intros size pre c.
  destruct (Z.ltb_spec 0 (s_len s)) as [H|H].
  - opt. rewrite Hv. opt. apply puts_data. rewrite mem_read_Some by lia. by rewrite Hdv, drop_0.
  - destruct d as [|x d]; [apply puts_ret |]. rewrite zlen_cons in *. pose proof (zlen_nonneg d). lia.
Qed.

Ltac sent2 bs w :=
  unfold message; let E := fresh "E" in
  match goal with |- fill_payload ?n _ _ = Some (mkReceived _ _ _ (zlen ?m) _ _) =>
    assert (zlen m = n) as E by (unfold bs; zl); rewrite E end;
  apply fill_payload_full; [by zl | exact E |];
  let b := fresh "b" in let Hb := fresh "Hb" in
  intros b Hb; unfold w, bs in *; writer b;
  [repeat (apply puts_then; [first [apply puts_byte | apply puts_uint32 | apply puts_opt | by apply puts_arg] |]);
   first [apply puts_uint32 | by apply puts_arg | by apply puts_data] | lia].

Lemma send_disconnect_bytes reason : is_u32 reason ->
  send_disconnect_message reason = Some (message (disconnect_bytes reason (default [] (get_disconnect_reason reason)))) /\
  zlen (default [] (get_disconnect_reason reason)) < 100 /\ wf_bytes (default [] (get_disconnect_reason reason)).
Proof.
  intros Hr. assert (Forall (fun d => zlen d < 100 /\ wf_bytes d) d_reasons) as Hall.
  { unfold d_reasons. cbn. repeat constructor; cbn; repeat constructor; try lia; done. }
  assert (zlen (default [] (get_disconnect_reason reason)) < 100 /\ wf_bytes (default [] (get_disconnect_reason reason))) as [Hz Hw].
  { unfold get_disconnect_reason. destruct (_ && _); [| split; [done | constructor]]. destruct (d_reasons !! Z.to_nat reason) eqn:E; [| split; [done | constructor]].
    rewrite Forall_forall in Hall. by apply Hall, (list_elem_of_lookup_2 _ _ _ E). }
  split; [| done]. unfold send_disconnect_message. set (d := default [] _) in *. pose proof (zlen_nonneg d). rewrite u32_id by (unfold_width; lia).
  sent2 disconnect_bytes write_disconnect.
Qed.

Lemma send_ignore_bytes s d : s_data s = Some d -> is_u32 (5 + zlen d) -> send_ignore_message (Some s) = Some (message (ignore_bytes d)).
Proof.
  intros Hd Hw. destruct (s_data_inv _ _ Hd) as (_ & _ & _ & _ & Hz). unfold send_ignore_message. cbn [arg_size]. rewrite <- Hz, u32_id by done.
  unfold write_ignore. cbn [arg_size]. rewrite <- Hz. sent2 ignore_bytes write_ignore.
Qed.

Lemma send_debug_bytes s d : s_data s = Some d -> is_u32 (10 + zlen d) -> send_debug_message (Some s) = Some (message (debug_bytes d)).
Proof.
  intros Hd Hw. destruct (s_data_inv _ _ Hd) as (_ & _ & _ & _ & Hz). unfold send_debug_message. cbn [arg_size]. rewrite <- Hz, u32_id by done.
  unfold write_debug. cbn [arg_size]. rewrite <- Hz. sent2 debug_bytes write_debug.
Qed.

Lemma send_unimplemented_bytes n : send_unimplemented_message n = Some (message (unimplemented_bytes n)).
Proof. unfold send_unimplemented_message. sent2 unimplemented_bytes write_unimplemented. Qed.

Lemma send_service_bytes code w rest : is_u8 code -> no_nul w -> is_u32 (5 + zlen w) ->
  _send_service_common_message code (w ++ 0 :: rest) = Some (message (service_bytes code w)).
Proof.
  intros Hc Hn Hw. assert (u8 code = code) as Eu by (unfold_width; by rewrite Z.mod_small). unfold _send_service_common_message. rewrite strlen_app by done. opt.
  rewrite u32_id by done. pose proof (zlen_nonneg w). pose proof (zlen_nonneg rest).
  assert (mem_read (w ++ 0 :: rest) 0 (zlen w) = Some w) as Hr.
  { rewrite mem_read_Some by (rewrite ?zlen_app, ?zlen_cons; lia). rewrite drop_0, take_app_length'; [done | unfold zlen; lia]. }
  rewrite <- Eu at 1. sent2 service_bytes write_service.
Qed.

(** ** At the other side *)

Lemma field_at pre v rest t seq code size len : is_u32 v -> field (mkReceived t seq code size len (pre ++ be_encode 4 v ++ rest)) (length pre) = v.
Proof. intros Hv. unfold field. cbn [rp_buffer]. by rewrite drop_app_length, get_uint32_encode. Qed.

Lemma message_ok d : wf_bytes d -> 1 <= zlen d < 2 ^ 31 -> payload_ok (message d).
Proof. intros Hw Hl. done. Qed.

Ltac wf_msg := cbn [app]; repeat first [apply be_encode_wf | assumption | apply Forall_cons_2; [by vm_compute |] | apply Forall_app_2].

Section Received.
Context (c : conn) (Hc : cn_locked c = false) (Hs : su_ok (cn_setup c)).

Lemma unimplemented_received n : is_u32 n ->
  exists c', receive_msg_unimplemented c (message (unimplemented_bytes n)) = Done c' /\ cn_seqerr c' = Some (n, EOPNOTSUPP) /\ cn_closed c' = cn_closed c /\
    cn_freed c' = cn_freed c ++ [message (unimplemented_bytes n)].
Proof.
  intros Hn. unfold receive_msg_unimplemented. assert (rp_len (message (unimplemented_bytes n)) = 5) as -> by (cbn [rp_len message]; unfold unimplemented_bytes; zl).
  change (5 <=? 5) with true. cbn match. pose proof (field_at [SSH_MSG_UNIMPLEMENTED] n [] 3 0 0 5 5 Hn) as Hf. rewrite (field_get (message (unimplemented_bytes n)) 1).
  - run. eexists. split; [done |]. cbn [cn_seqerr free_payload set_seqerr cn_closed cn_freed]. rewrite app_nil_r in Hf. split; [by f_equal; f_equal | done].
  - cbn [rp_buffer message]. unfold unimplemented_bytes. zl.
Qed.

Lemma disconnect_received reason d : is_u32 reason -> zlen d < 2 ^ 30 -> wf_bytes d ->
  exists c', receive_msg_disconnect c (message (disconnect_bytes reason d)) = Done c' /\ cn_closed c' = true /\ cn_freed c' = cn_freed c ++ [message (disconnect_bytes reason d)].
Proof.
  intros Hr Hz Hw. pose proof (zlen_nonneg d). assert (payload_ok (message (disconnect_bytes reason d))) as Hp.
  { apply message_ok; [| unfold disconnect_bytes; zl]. unfold disconnect_bytes. wf_msg. }
  pose proof (disconnect_judged c _ Hc Hp) as Hj. cbn [rp_len message] in Hj.
  assert (field (message (disconnect_bytes reason d)) 5 = zlen d) as Hf.
  { unfold disconnect_bytes. rewrite app_assoc. apply (field_at ([SSH_MSG_DISCONNECT] ++ be_encode 4 reason)). unfold_width. lia. }
  rewrite Hf in Hj. unfold wraps in Hj. destruct (Z.leb_spec (2 ^ 32 - 9) (zlen d)); [lia |]. rewrite andb_false_r in Hj. destruct Hj as (c' & E & Ho). exists c'. split; [done |].
  rewrite (ob_closed _ _ _ _ Ho), (ob_freed _ _ _ _ Ho). cbn. by rewrite orb_true_r.
Qed.

Lemma debug_received d : zlen d < 2 ^ 30 -> wf_bytes d ->
  exists c', receive_msg_debug c (message (debug_bytes d)) = Done c' /\ cn_closed c' = cn_closed c /\ cn_freed c' = cn_freed c ++ [message (debug_bytes d)].
Proof.
  intros Hz Hw. pose proof (zlen_nonneg d). assert (payload_ok (message (debug_bytes d))) as Hp.
  { apply message_ok; [| unfold debug_bytes; zl]. unfold debug_bytes. wf_msg. }
  pose proof (debug_judged c _ Hc Hp) as Hj. assert (field (message (debug_bytes d)) 2 = zlen d) as Hf.
  { unfold debug_bytes. rewrite app_assoc. apply (field_at ([SSH_MSG_DEBUG] ++ [1])). unfold_width. lia. }
  assert (rp_len (message (debug_bytes d)) = 10 + zlen d) as Hl by (cbn [rp_len message]; unfold debug_bytes; zl). rewrite Hf, Hl in Hj.
  destruct (Z.ltb_spec 6 (10 + zlen d)); [| lia]. destruct (Z.ltb_spec (10 + zlen d) (6 + zlen d)); [lia |]. rewrite andb_false_r in Hj. destruct Hj as (c' & E & Ho).
  exists c'. split; [done |]. rewrite (ob_closed _ _ _ _ Ho), (ob_freed _ _ _ _ Ho). cbn. by rewrite orb_false_r.
Qed.

End Received.

(** what is sent is what arrives: the number in an UNIMPLEMENTED message is noted as
    the one that failed, a DISCONNECT closes the connection whatever the reason, a
    DEBUG message of any length is dropped, each payload is freed once; and an IGNORE
    message, of any content, ends the process of the other side. *)
Theorem transport_messages_received (c : conn) (n reason : Z) (s : ssh_string) (d : bytes) :
  cn_locked c = false -> is_u32 n -> is_u32 reason -> s_data s = Some d -> wf_bytes d -> zlen d < 2 ^ 30 ->
  (exists p c', send_unimplemented_message n = Some p /\ receive_msg_unimplemented c p = Done c' /\
    cn_seqerr c' = Some (n, EOPNOTSUPP) /\ cn_closed c' = cn_closed c /\ cn_freed c' = cn_freed c ++ [p]) /\
  (exists p c', send_disconnect_message reason = Some p /\ receive_msg_disconnect c p = Done c' /\ cn_closed c' = true /\ cn_freed c' = cn_freed c ++ [p]) /\
  (exists p c', send_debug_message (Some s) = Some p /\ receive_msg_debug c p = Done c' /\ cn_closed c' = cn_closed c /\ cn_freed c' = cn_freed c ++ [p]) /\
  (exists p, send_ignore_message (Some s) = Some p /\ receive_msg_ignore c p = Fault).
Proof.
  intros Hc Hn Hr Hd Hw Hz. pose proof (zlen_nonneg d). destruct (send_disconnect_bytes reason Hr) as (Ed & Hdz & Hdw). split; [| split; [| split]].
  - destruct (unimplemented_received c n Hn) as (c' & H'). exists (message (unimplemented_bytes n)), c'. split; [apply send_unimplemented_bytes | done].
  - destruct (disconnect_received c Hc reason (default [] (get_disconnect_reason reason)) Hr ltac:(lia) Hdw) as (c' & H'). by exists (message (disconnect_bytes reason (default [] (get_disconnect_reason reason)))), c'.
  - destruct (debug_received c Hc d Hz Hw) as (c' & H'). exists (message (debug_bytes d)), c'. split; [apply send_debug_bytes; [done | unfold_width; lia] | done].
  - exists (message (ignore_bytes d)). split; [apply send_ignore_bytes; [done | unfold_width; lia] | done].
Qed.

Lemma transport_messages_received_witness : exists p c', send_disconnect_message 11 = Some p /\ receive_msg_disconnect (new_conn established) p = Done c' /\ cn_closed c' = true.
Proof.
  destruct (transport_messages_received (new_conn established) 5 11 (mk_ssh_string 0 1 0 (PMem [65]) []) [65] eq_refl) as (_ & (p & c' & H1 & H2 & H3 & _) & _);
    [by split | by split | reflexivity | constructor; [by split | constructor] | done |]. exists p, c'. split; [exact H1 |]. split; [exact H2 | exact H3].
Defined.

(** ** The answer to a request for a service *)

Lemma service_selected code w v rest rest' : no_nul w -> no_nul v -> is_u8 code -> is_u32 (5 + zlen w) -> is_u32 (5 + zlen v) ->
  exists p, _send_service_common_message code (w ++ 0 :: rest) = Some p /\
    select_payload_service_accept p (v ++ 0 :: rest') =
      Some ((code =? SSH_MSG_SERVICE_ACCEPT) && (zlen v <=? zlen w) &&
            bytes_eqb (take (length v) (service_bytes SSH_MSG_SERVICE_ACCEPT w)) (take (length v) (service_bytes SSH_MSG_SERVICE_ACCEPT v))).
Proof.
  intros Hw Hv Hc Hzw Hzv. exists (message (service_bytes code w)). split; [by apply send_service_bytes |]. assert (u8 code = code) as Eu by (unfold_width; by rewrite Z.mod_small).
  unfold select_payload_service_accept. cbn [rp_type message]. change (default 0 (head (service_bytes code w))) with (u8 code). rewrite Eu.
  destruct (Z.eqb_spec code SSH_MSG_SERVICE_ACCEPT) as [->|]; [| done]. rewrite strlen_app by done. opt. rewrite u32_id by done.
  cbn [rp_len message rp_buffer]. assert (forall x, zlen (service_bytes SSH_MSG_SERVICE_ACCEPT x) = 5 + zlen x) as Hl by (intros x; unfold service_bytes; zl). rewrite Hl.
  pose proof (zlen_nonneg v). pose proof (zlen_nonneg w). pose proof (zlen_nonneg rest').
  destruct (Z.leb_spec (5 + zlen v) (5 + zlen w)), (Z.leb_spec (zlen v) (zlen w)); try lia; [| done]. cbn [andb].
  rewrite (mem_read_Some (v ++ 0 :: rest') 0 (zlen v)) by (rewrite ?zlen_app, ?zlen_cons; lia). rewrite drop_0, take_app_length' by (unfold zlen; lia). opt.
  change ([SSH_MSG_SERVICE_ACCEPT] ++ be_encode 4 (zlen v) ++ v) with (service_bytes SSH_MSG_SERVICE_ACCEPT v).
  rewrite !mem_read_Some by (rewrite ?Hl; lia). opt. rewrite !drop_0.
  replace (Z.to_nat (zlen v)) with (length v) by (unfold zlen; lia). done.
Qed.

(** The acceptance of the service that was asked for is taken. *)
Theorem service_accept_taken (w rest rest' : bytes) : no_nul w -> is_u32 (5 + zlen w) ->
  exists p, send_service_accept_message (w ++ 0 :: rest) = Some p /\ select_payload_service_accept p (w ++ 0 :: rest') = Some true.
Proof.
  intros Hw Hz. destruct (service_selected SSH_MSG_SERVICE_ACCEPT w w rest rest') as (p & E & Hsel); [done | done | by split | done | done |]. exists p. split; [done |].
  rewrite Hsel. rewrite Z.leb_refl. unfold bytes_eqb. by rewrite bool_decide_true.
Qed.

(** The comparison stops 5 bytes before the end of the name: the acceptance of another
    service is taken as well. *)
Theorem service_accept_other_name :
  match send_service_accept_message (lit "ssh-useXXXXX" ++ [0]) with
  | Some p => select_payload_service_accept p (lit "ssh-userauth" ++ [0]) = Some true
  | None => False
  end.
Proof. vm_compute. done. Qed.

(** ** Global requests *)

(** With data longer than the name of the request the payload is too small. *)
Theorem global_request_overflows :
  send_global_request_message (lit "no-more-sessions" ++ [0]) (Some (repeat 0 32)) 32 = None.
Proof. vm_compute. done. Qed.

(** Without data the byte for the reply replaces the first letter of the name. *)
Theorem global_request_loses_name :
  match send_global_request_message (lit "keepalive" ++ [0]) None 0 with
  | Some p => rp_len p = 6 /\ take 6 (rp_buffer p) = [SSH_MSG_GLOBAL_REQUEST; 0; 0; 0; 9; 1]
  | None => False
  end.
Proof. vm_compute. done. Qed.

End SshTransportSend.
