(* ===== verification/SshUserauth.v ===== *)
(** * ssh/ssh-userauth.c and ssh/userauth/: the authentication of a user

    The list of methods in the answers of a server, the messages for the methods
    "none" and "password" with their answers, the answers of the server, and the loop
    of the client that tries the methods the server asks for.  The exchange for
    "publickey" and "hostbased" is an argument of the loop, as the user, if there is
    one, that belongs to the identity that was accepted and what it does to the
    methods still required. *)
From stdpp Require Import base list option strings.
From Stdlib Require Import ZArith Lia.
From S2P Require Import Prelude SshUint SshString MsgBuffer NameList KexCompare SshCipher SshPacket SshPayload SshSetup SshTransport SshChannelSend.
Import SshUint SshString MsgBuffer NameList SshPayload SshSetup.
Open Scope Z_scope.

Module SshUserauth.

Abbreviation lit := SshCipher.lit.
Definition SSH_MSG_USERAUTH_REQUEST := 50.
Definition SSH_MSG_USERAUTH_FAILURE := 51.
Definition SSH_MSG_USERAUTH_SUCCESS := 52.

(** ** The list of methods *)

Definition method_bit (w : bytes) : Z :=
  if bytes_eqb w (lit "publickey") then SSH_AUTH_METHOD_PUBLICKEY
  else if bytes_eqb w (lit "password") then SSH_AUTH_METHOD_PASSWORD
  else if bytes_eqb w (lit "hostbased") then SSH_AUTH_METHOD_HOSTBASED
  else SSH_AUTH_METHOD_UNKNOWN.

(** From [findmethod] on: [l] is the array from [pos] to its end. *)
Fixpoint findmethod (fuel : nat) (l : bytes) (methods : Z) : outcome Z :=
  match fuel with
  | O => NoFuel
  | S fuel =>
      let! sep := lift (strchr l COMMA) in
      match sep with
      | Some n =>
          let! l0 := lift (mem_write l n [0]) in
          let! name := lift (cstring l0) in
          findmethod fuel (drop (Z.to_nat (n + 1)) l) (Z.lor methods (method_bit name))
      | None => let! name := lift (cstring l) in Ret (Z.lor methods (method_bit name))
      end
  end.

(** Every turn of the loop moves [pos] behind a comma. *)
Definition get_required_auth_methods (namelist : bytes) (len : Z) : outcome Z :=
  let! d := lift (mem_read namelist 0 len) in findmethod (S (length d)) (d ++ [0]) 0.

(** [snprintf (&buffer[pos], size, ...)] of the string [s]: its length, and the memory. *)
Definition snprintf_at (buffer : bytes) (pos size : Z) (s : bytes) : option (Z * bytes) :=
  if size =? 0 then Some (zlen s, buffer)
  else let? b := mem_write buffer pos (take (Z.to_nat (size - 1)) s ++ [0]) in Some (zlen s, b).

(** One of the three lines: without a buffer a comma and the end are counted. *)
Definition write_method (bit : Z) (name : bytes) (methods size : Z) (st : Z * option bytes) : option (Z * option bytes) :=
  if has methods bit then
    match st.2 with
    | Some b =>
        let? (n, b) := snprintf_at b st.1 (u32 (size - st.1)) ((if 0 <? st.1 then [COMMA] else []) ++ name) in Some (u32 (st.1 + n), Some b)
    | None => Some (u32 (st.1 + zlen name + 2), None)
    end
  else Some st.

Definition write_required_auth_methods (buffer : option bytes) (size methods : Z) : option (Z * option bytes) :=
  let? st := write_method SSH_AUTH_METHOD_PUBLICKEY (lit "publickey") methods size (0, buffer) in
  let? st := write_method SSH_AUTH_METHOD_PASSWORD (lit "password") methods size st in
  write_method SSH_AUTH_METHOD_HOSTBASED (lit "hostbased") methods size st.

(** The answer of a server to a request: success, or the methods that can go on. *)
Definition handle_auth_failure (p : received) (a : auth) : outcome (Z * auth) :=
  if 6 <? rp_len p then
    let! len := lift (get_uint32 (drop 1 (rp_buffer p))) in
    if (0 <? len) && (rp_len p =? u32 (6 + len)) then
      let! partial := lift (rp_buffer p !! Z.to_nat (5 + len)) in
      let! required := get_required_auth_methods (drop 5 (rp_buffer p)) len in
      Ret (if 0 <? partial then 0 else -1, set_required required a)
    else Ret (-1, a)
  else Ret (-1, a).

Definition select_userauth_reply (p : received) : bool := (rp_type p =? SSH_MSG_USERAUTH_SUCCESS) || (rp_type p =? SSH_MSG_USERAUTH_FAILURE).

(** ** Messages *)

Abbreviation set_msg_buffer_payload := SshChannelSend.SshChannelSend.set_msg_buffer_payload.

(** The two passes of a message, with [extra] bytes more than were counted. *)
Definition two_passes (write : msg_buffer -> option msg_buffer) (extra type : Z) : option received :=
  let? mb := write init_msg_buffer in
  let p := set_rtype type (init_ssh_payload (u32 (mb_pos mb + extra))) in
  let? mb := write (set_msg_buffer_payload mb p) in
  let? b := mb_data mb in
  Some (set_rlen (mb_pos mb) (set_rbuffer b p)).

Definition _msg_write_userauth_none_message (user service : ssh_string) (mb : msg_buffer) : option msg_buffer :=
  let? mb := msg_write_byte mb SSH_MSG_USERAUTH_REQUEST in
  let? mb := msg_write_ssh_string mb (ArgS user) in
  let? mb := msg_write_ssh_string mb (ArgS service) in
  msg_write_ssh_string mb (ArgC (lit "none" ++ [0])).

Definition send_userauth_none_message (user service : ssh_string) : option received :=
  two_passes (_msg_write_userauth_none_message user service) 0 SSH_MSG_USERAUTH_REQUEST.

Definition _msg_write_userauth_password_message (user pw : bytes) (service : ssh_string) (mb : msg_buffer) : option msg_buffer :=
  let? mb := msg_write_byte mb SSH_MSG_USERAUTH_REQUEST in
  let? mb := msg_write_ssh_string mb (ArgC user) in
  let? mb := msg_write_ssh_string mb (ArgS service) in
  let? mb := msg_write_ssh_string mb (ArgC (lit "password" ++ [0])) in
  let? mb := msg_write_byte mb 0 in
  msg_write_ssh_string mb (ArgC pw).

(** The size is counted before the arguments are compared with NULL. *)
Definition send_userauth_password_message (user pw : bytes) (service : ssh_string) : option received :=
  two_passes (_msg_write_userauth_password_message user pw service) 64 SSH_MSG_USERAUTH_REQUEST.

(** The message with the list of methods, in a payload with 8 bytes more. *)
Definition write_failure (namelist : bytes) (size success : Z) : option received :=
  let p := set_rtype SSH_MSG_USERAUTH_FAILURE (init_ssh_payload (u32 (size + 8))) in
  let? mb := msg_write_byte (set_msg_buffer_payload init_msg_buffer p) SSH_MSG_USERAUTH_FAILURE in
  let? mb := msg_write_ssh_string mb (ArgC namelist) in
  let? mb := msg_write_byte mb success in
  let? b := mb_data mb in
  Some (set_rlen (mb_pos mb) (set_rbuffer b p)).

Definition send_userauth_request_reply (methods success : Z) : option received :=
  if (success =? 1) && (methods =? 0) then
    let p := set_rtype SSH_MSG_USERAUTH_SUCCESS (init_ssh_payload 8) in
    let? mb := msg_write_byte (set_msg_buffer_payload init_msg_buffer p) SSH_MSG_USERAUTH_SUCCESS in
    let? b := mb_data mb in
    Some (set_rlen (mb_pos mb) (set_rbuffer b p))
  else
    let? (size, _) := write_required_auth_methods None 0 methods in
    let namelist := replicate (Z.to_nat size) 0 in
    let? (_, namelist) := write_required_auth_methods (Some namelist) size methods in
    let? namelist := namelist in
    write_failure namelist size success.

(** ** The client *)

(** What comes of a message: it cannot be sent, no answer comes in time, or the answer. *)
Inductive answer : Type := SendFailed | NoReply | Reply (p : received).

Definition send_userauth_none_request (ans : answer) (a : auth) : outcome (Z * auth) :=
  match ans with
  | SendFailed | NoReply => Ret (-1, a)
  | Reply p =>
      if rp_type p =? SSH_MSG_USERAUTH_SUCCESS then Ret (0, a)
      else if rp_type p =? SSH_MSG_USERAUTH_FAILURE then let! (_, a) := handle_auth_failure p a in Ret (0, a)
      else Ret (-1, a)
  end.

(** The walk over the list of passwords; [answers] has one answer for each. *)
Fixpoint send_userauth_password_request (answers : list answer) (result : Z) (a : auth) : outcome (Z * auth) :=
  match answers with
  | [] => Ret (result, a)
  | SendFailed :: answers => send_userauth_password_request answers result a
  | NoReply :: _ => Ret (result, a)
  | Reply p :: answers =>
      if rp_type p =? SSH_MSG_USERAUTH_SUCCESS then send_userauth_password_request answers 0 (set_required 0 a)
      else if rp_type p =? SSH_MSG_USERAUTH_FAILURE then
        let! (result, a) := handle_auth_failure p a in send_userauth_password_request answers result a
      else send_userauth_password_request answers result a
  end.

(** ** Keys *)

(** A key of the list, with what becomes of it: the user it is for; whether its public
    part can be read, and the message [write_userauth_pubkey_ok_message] makes of it;
    what comes of asking for it; whether its private part can be read and the signature
    be made; and what comes of sending that. *)
Record identity : Type := mkIdentity {
  id_user : option bytes; id_public : bool; id_ok_message : bytes; id_ask : answer; id_private : bool; id_signs : bool; id_signed : answer }.

Definition check_received_pubkey_pk (p : received) (ok_message : bytes) : outcome Z :=
  if zlen ok_message =? rp_len p then
    let! d := lift (mem_read (rp_buffer p) 0 (zlen ok_message)) in Ret (if bytes_eqb ok_message d then 0 else -1)
  else Ret (-1).

Definition send_userauth_pubkey (id : identity) : outcome Z :=
  match id_ask id with
  | Reply p => if rp_type p =? SshTransport.SshTransport.SSH_MSG_USERAUTH_PK_OK then check_received_pubkey_pk p (id_ok_message id) else Ret (-1)
  | SendFailed | NoReply => Ret (-1)
  end.

(** The answer to a signature. *)
Definition signature_reply (ans : answer) (a : auth) : outcome (Z * auth) :=
  match ans with
  | Reply p =>
      if rp_type p =? SSH_MSG_USERAUTH_SUCCESS then Ret (0, set_required 0 a)
      else if rp_type p =? SSH_MSG_USERAUTH_FAILURE then handle_auth_failure p a
      else Ret (-1, a)
  | SendFailed | NoReply => Ret (-1, a)
  end.

Definition ssh_send_pk_signature (id : identity) (a : auth) : outcome (Z * auth) :=
  if id_signs id then signature_reply (id_signed id) a else Ret (-1, a).

Fixpoint send_userauth_pubkey_request (ids : list identity) (a : auth) : outcome (option identity * auth) :=
  match ids with
  | [] => Ret (None, a)
  | id :: ids =>
      let! (result, a) :=
        (if id_public id then
           let! accepted := send_userauth_pubkey id in
           if (accepted =? 0) && id_private id then ssh_send_pk_signature id a else Ret (-1, a)
         else Ret (-1, a)) in
      if result =? 0 then Ret (Some id, a) else send_userauth_pubkey_request ids a
  end.

(** What [write_ssh_packet] returns: the number of bytes that were written, of which
    only the sign matters, or -1. *)
Definition written (ans : answer) : Z := match ans with SendFailed => -1 | _ => 1 end.

(** The result of sending is compared with 0 here. *)
Definition ssh_send_hb_signature (id : identity) (a : auth) : outcome (Z * auth) :=
  if id_signs id then if written (id_signed id) =? 0 then signature_reply (id_signed id) a else Ret (-1, a) else Ret (-1, a).

Fixpoint send_userauth_hostbased_request (ids : list identity) (a : auth) : outcome (option identity * auth) :=
  match ids with
  | [] => Ret (None, a)
  | id :: ids =>
      let! (result, a) := (if id_public id && id_private id then ssh_send_hb_signature id a else Ret (-1, a)) in
      if result =? 0 then Ret (Some id, a) else send_userauth_hostbased_request ids a
  end.

(** ** The loop *)

(** [methods &= ~(...); return (methods > 0) ? -1 : 0], with the word of 32 bits. *)
Definition ssh_auth_method_supported (methods : Z) : Z := if 0 <? Z.ldiff methods all_auth then -1 else 0.

Definition set_s_username x a := mkAuth (au_required a) (au_done a) (au_hostname a) (au_ip a) (au_c_username a) x.
Definition set_c_username x a := mkAuth (au_required a) (au_done a) (au_hostname a) (au_ip a) x (au_s_username a).
Definition set_host h ip a := mkAuth (au_required a) (au_done a) h ip (au_c_username a) (au_s_username a).

Section Client.

(** The keys of the user and of the host and how many there are, the answers for the
    passwords of the file, the name of the user, the names of the host. *)
Context (users hosts : list identity) (user_keys host_keys : Z) (passwords : list answer) (pw_name : bytes) (local : option (bytes * bytes)).

(** [finish]: the result, and the user of the other side when it is known. *)
Definition finish_userauth (identity : option (option bytes)) (a : auth) : Z * option bytes * auth :=
  if au_required a =? 0 then
    let a := match au_s_username a, identity with [], Some (Some u) => set_s_username u a | _, _ => a end in
    (0, Some (au_s_username a), a)
  else (-1, None, a).

Fixpoint tryuserauth (fuel : nat) (identity : option (option bytes)) (a : auth) : outcome (Z * option bytes * auth) :=
  match fuel with
  | O => NoFuel
  | S fuel' =>
      let next identity a :=
        if au_required a =? 0 then Ret (finish_userauth identity a)
        else if ssh_auth_method_supported (au_required a) =? -1 then Ret (finish_userauth identity a)
        else tryuserauth fuel' identity a in
      if has (au_required a) SSH_AUTH_METHOD_PUBLICKEY then
        if has (au_done a) SSH_AUTH_METHOD_PUBLICKEY then Ret (finish_userauth identity a)
        else if user_keys =? 0 then Ret (finish_userauth identity a)
        else
          let! (id, a) := send_userauth_pubkey_request users a in
          match id with
          | None => Ret (finish_userauth None a)
          | Some id =>
              let u := id_user id in
              let user := default pw_name u in
              let a := match au_s_username a with [] => set_s_username user a | _ => a end in
              next (Some u) (set_done (Z.lor (au_done a) SSH_AUTH_METHOD_PUBLICKEY) a)
          end
      else if has (au_required a) SSH_AUTH_METHOD_PASSWORD then
        if has (au_done a) SSH_AUTH_METHOD_PASSWORD then Ret (finish_userauth identity a)
        else match passwords with
        | [] => Ret (finish_userauth identity a)
        | _ =>
            let! (r, a) := send_userauth_password_request passwords (-1) a in
            if r =? -1 then Ret (finish_userauth identity a)
            else next identity (set_done (Z.lor (au_done a) SSH_AUTH_METHOD_PASSWORD) a)
        end
      else if has (au_required a) SSH_AUTH_METHOD_HOSTBASED then
        if has (au_done a) SSH_AUTH_METHOD_HOSTBASED then Ret (finish_userauth identity a)
        else if host_keys =? 0 then Ret (finish_userauth identity a)
        else
          let! (id, a) := send_userauth_hostbased_request hosts a in
          match id with
          | None => Ret (finish_userauth identity a)
          | Some _ => next identity (set_done (Z.lor (au_done a) SSH_AUTH_METHOD_HOSTBASED) a)
          end
      else next identity a
  end.

(** [accepted]: the service was accepted; [ans]: the answer to "none". *)
Definition start_ssh_userauth_client (fuel : nat) (accepted : bool) (ans : answer) (a : auth) : outcome (Z * option bytes * auth) :=
  if accepted then
    let a := set_c_username pw_name a in
    let! (r, a) := send_userauth_none_request ans a in
    if r =? -1 then Ret (-1, None, a)
    else if au_required a =? 0 then Ret (finish_userauth None a)
    else if ssh_auth_method_supported (au_required a) =? -1 then Ret (finish_userauth None a)
    else match local with
    | None => Ret (finish_userauth None a)
    | Some (hostname, ip) => tryuserauth fuel None (set_host hostname ip a)
    end
  else Ret (-1, None, a).

End Client.

(** ** The methods that can go on *)

Definition methods_of (x : bytes) : Z := foldr (fun w m => Z.lor (method_bit w) m) 0 (split_commas x).

Lemma strchr_none w rest : no_nul w -> no_comma w -> strchr (w ++ 0 :: rest) COMMA = Some None.
Proof.
  intros Hn Hc. induction w as [|c w IH]; [done |]. apply Forall_cons_1 in Hn as [? Hn]. apply Forall_cons_1 in Hc as [? Hc]. cbn [app strchr].
  destruct (Z.eqb_spec c COMMA); [done |]. destruct (Z.eqb_spec c 0); [done |]. by rewrite IH.
Qed.

Lemma comma_cases (x : bytes) : no_comma x \/ exists w y, x = w ++ COMMA :: y /\ no_comma w.
Proof.
  induction x as [|c x IH]; [left; constructor |]. destruct (decide (c = COMMA)) as [->|Hc]; [right; by exists [], x; split; [| constructor] |].
  destruct IH as [H|(w & y & -> & Hw)]; [left; by constructor | right]. exists (c :: w), y. split; [done | by constructor].
Qed.

Lemma findmethod_spec fuel : forall x rest m, no_nul x -> (length x < fuel)%nat -> findmethod fuel (x ++ 0 :: rest) m = Ret (Z.lor m (methods_of x)).
Proof.
  induction fuel as [|fuel IH]; intros x rest m Hn Hf; [lia |]. cbn [findmethod]. destruct (comma_cases x) as [Hc|(w & y & -> & Hc)].
  - rewrite strchr_none by done. cbn [lift outcome_bind]. rewrite cstring_app by done. cbn [lift outcome_bind]. unfold methods_of. rewrite split_word by done. cbn [foldr]. by rewrite Z.lor_0_r.
  - apply Forall_app in Hn as [Hw Hy]. apply Forall_cons_1 in Hy as [_ Hy]. rewrite <- app_assoc. cbn [app]. rewrite KexCompare.KexCompare.strchr_comma by done. cbn [lift outcome_bind].
    change (w ++ COMMA :: y ++ 0 :: rest) with (w ++ [COMMA] ++ y ++ 0 :: rest). rewrite (mem_write_free w [COMMA] [0] (y ++ 0 :: rest)) by done. cbn [lift outcome_bind app]. rewrite cstring_app by done. cbn [lift outcome_bind].
    replace (drop (Z.to_nat (zlen w + 1)) (w ++ COMMA :: y ++ 0 :: rest)) with (y ++ 0 :: rest).
    + rewrite IH; [| done | rewrite length_app in Hf; cbn in Hf; lia]. f_equal. unfold methods_of. rewrite split_app_comma, (split_word w Hc). cbn [app foldr]. by rewrite Z.lor_assoc.
    + replace (Z.to_nat (zlen w + 1)) with (length (w ++ [COMMA])) by (rewrite length_app; unfold zlen; cbn; lia).
      change (w ++ COMMA :: y ++ 0 :: rest) with (w ++ [COMMA] ++ y ++ 0 :: rest). by rewrite app_assoc, drop_app_length.
Qed.

(** The part of a list before a byte 0. *)
Fixpoint until_nul (d : bytes) : bytes := match d with [] => [] | c :: d => if c =? 0 then [] else c :: until_nul d end.

Lemma until_nul_spec d : no_nul (until_nul d) /\ (length (until_nul d) <= length d)%nat /\ exists rest, d ++ [0] = until_nul d ++ 0 :: rest.
Proof.
  induction d as [|c d (IH1 & IH2 & rest & IH3)]; [split; [constructor | split; [done | by exists []]] |]. cbn [until_nul]. destruct (Z.eqb_spec c 0) as [->|Hc].
  - split; [constructor |]. split; [cbn; lia |]. by exists (d ++ [0]).
  - split; [by constructor |]. split; [cbn; lia |]. exists rest. cbn. by rewrite IH3.
Qed.

Lemma required_methods namelist len d : mem_read namelist 0 len = Some d -> get_required_auth_methods namelist len = Ret (methods_of (until_nul d)).
Proof.
  intros Hd. unfold get_required_auth_methods. rewrite Hd. cbn [lift outcome_bind]. destruct (until_nul_spec d) as (Hn & Hl & rest & E). rewrite E.
  rewrite findmethod_spec by (done || lia). done.
Qed.

(** The bit of "none" is never among them. *)
Lemma method_bit_none w : Z.testbit (method_bit w) 0 = false.
Proof. unfold method_bit. repeat case_match; done. Qed.

Lemma methods_none x : has (methods_of x) SSH_AUTH_METHOD_NONE = false.
Proof.
  change SSH_AUTH_METHOD_NONE with (2 ^ 0). rewrite has_bit by lia. unfold methods_of. induction (split_commas x) as [|w ws IH]; [done |]. cbn [foldr].
  by rewrite Z.lor_spec, method_bit_none, IH.
Qed.

(** What an answer does: nothing, or it replaces the methods that are required. *)
Definition judged_failure (p : received) (a : auth) : Z * auth :=
  let len := SshTransport.SshTransport.field p 1 in
  if (6 <? rp_len p) && (0 <? len) && (rp_len p =? 6 + len) then
    (if 0 <? default 0 (rp_buffer p !! Z.to_nat (5 + len)) then 0 else -1, set_required (methods_of (until_nul (take (Z.to_nat len) (drop 5 (rp_buffer p))))) a)
  else (-1, a).

Lemma failure_handled p a : SshTransport.SshTransport.payload_ok p -> handle_auth_failure p a = Ret (judged_failure p a).
Proof.
  intros (_ & Hl & Hb). unfold handle_auth_failure, judged_failure. destruct (Z.ltb_spec 6 (rp_len p)) as [H6|H6]; [| done]. cbn [andb].
  rewrite (SshTransport.SshTransport.field_get p 1) by lia. cbn [lift outcome_bind]. pose proof (SshTransport.SshTransport.field_u32 p 1) as Hf.
  set (len := SshTransport.SshTransport.field p 1) in *. destruct (Z.ltb_spec 0 len) as [H0|H0]; [| done]. cbn [andb].
  destruct (Z.eqb_spec (rp_len p) (6 + len)) as [E|E].
  - rewrite u32_id by (unfold_width; lia). rewrite E, Z.eqb_refl. destruct (lookup_lt_is_Some_2 (rp_buffer p) (Z.to_nat (5 + len))) as [x Hx]; [unfold zlen in Hl; lia |].
    rewrite Hx. cbn [lift outcome_bind default]. rewrite (required_methods _ _ (take (Z.to_nat len) (drop 5 (rp_buffer p)))); [done |].
    change 5%nat with (Z.to_nat 5). rewrite mem_read_Some by (rewrite ?zlen_drop; lia). by rewrite drop_0.
  - destruct (Z.eqb_spec (rp_len p) (u32 (6 + len))) as [E2|E2]; [| done]. exfalso. destruct (Z.lt_ge_cases (6 + len) (2 ^ 32)).
    + rewrite u32_id in E2 by (unfold_width; lia). lia.
    + assert (u32 (6 + len) = 6 + len - 2 ^ 32) as Eu by (unfold u32; symmetry; apply (Z.mod_unique _ _ 1); unfold_width; lia). unfold_width. lia.
Qed.

(** an answer of the server that asks for other methods is read inside the payload,
    whatever its bytes: when it has the form of the protocol the methods named in it
    are required from then on, each name of the list for itself and unknown names as
    such, and the result says whether the last method was accepted; any other message
    changes nothing. *)
Theorem auth_failure_handled (p : received) (a : auth) : SshTransport.SshTransport.payload_ok p ->
  exists r a', handle_auth_failure p a = Ret (r, a') /\ (r, a') = judged_failure p a /\ au_done a' = au_done a /\
    (au_required a' = au_required a \/ has (au_required a') SSH_AUTH_METHOD_NONE = false).
Proof.
  intros Hp. exists (judged_failure p a).1, (judged_failure p a).2. rewrite failure_handled by done. split; [by destruct (judged_failure p a) |].
  split; [by destruct (judged_failure p a) |]. unfold judged_failure. destruct (_ && _ && _); [| auto]. split; [done | right; apply methods_none].
Qed.

(** ** The answers of the server *)

(** The three methods that have a name. *)
Definition named_methods (m : Z) : Z := Z.land m 14.

Lemma has_named m k : k = 2 \/ k = 4 \/ k = 8 -> has (named_methods m) k = has m k.
Proof. intros H. unfold has, named_methods. rewrite <- Z.land_assoc. destruct H as [->|[->| ->]]; done. Qed.

Lemma write_required_named b n m : write_required_auth_methods b n m = write_required_auth_methods b n (named_methods m).
Proof.
  assert (forall k name size st, k = 2 \/ k = 4 \/ k = 8 -> write_method k name m size st = write_method k name (named_methods m) size st) as H
    by (intros k name size st Hk; unfold write_method; by rewrite has_named).
  unfold write_required_auth_methods. rewrite H by (by left). destruct (write_method _ _ (named_methods m) n (0, b)) as [st|]; [| done]. opt. rewrite H by (by right; left).
  destruct (write_method _ _ (named_methods m) n st) as [st2|]; [| done]. opt. apply H. by right; right.
Qed.

Lemma named_cases m : In (named_methods m) [0; 2; 4; 6; 8; 10; 12; 14].
Proof.
  assert (named_methods m = Z.land (Z.land m 15) 14) as -> by (unfold named_methods; by rewrite <- Z.land_assoc).
  assert (0 <= Z.land m 15 < 16) as Hr by (change 15 with (Z.ones 4); rewrite Z.land_ones by lia; apply Z.mod_pos_bound; lia).
  set (x := Z.land m 15) in *. assert (x = 0 \/ x = 1 \/ x = 2 \/ x = 3 \/ x = 4 \/ x = 5 \/ x = 6 \/ x = 7 \/ x = 8 \/ x = 9 \/ x = 10 \/ x = 11 \/ x = 12 \/ x = 13 \/ x = 14 \/ x = 15) as Hx by lia.
  clearbody x. repeat (destruct Hx as [->|Hx]; [vm_compute; tauto |]). subst x. vm_compute. tauto.
Qed.

(** What the other side receives of a payload. *)
Definition arrives (p : received) : received := SshChannelSend.SshChannelSend.message (take (Z.to_nat (rp_len p)) (rp_buffer p)).

Lemma reply_of m success a : m <> 0 -> In m [0; 2; 4; 6; 8; 10; 12; 14] ->
  exists size n namelist p, write_required_auth_methods None 0 m = Some (size, None) /\
    write_required_auth_methods (Some (replicate (Z.to_nat size) 0)) size m = Some (n, Some namelist) /\
    write_failure namelist size success = Some p /\ rp_type p = SSH_MSG_USERAUTH_FAILURE /\
    handle_auth_failure (arrives p) a = Ret (if 0 <? success then 0 else -1, set_required m a).
Proof.
  intros Hm Hc. cbn in Hc. destruct Hc as [<-|Hc]; [done |]. repeat (destruct Hc as [<-|Hc]; [do 4 eexists; (split; [vm_compute; reflexivity |]);
    (split; [vm_compute; reflexivity |]); (split; [vm_compute; reflexivity |]); split; [reflexivity | vm_compute; reflexivity] |]). done.
Qed.

(** C23: the answer of a server reaches the client: without a method left and with success
    it is the SUCCESS message; otherwise the client takes over just the methods the
    server still requires, of the three there are, and is told whether its last method
    was accepted. *)
Theorem auth_reply_roundtrip (methods success : Z) (a : auth) :
  (exists p, send_userauth_request_reply 0 1 = Some p /\ arrives p = SshChannelSend.SshChannelSend.message [SSH_MSG_USERAUTH_SUCCESS]) /\
  (named_methods methods <> 0 -> exists p, send_userauth_request_reply methods success = Some p /\ rp_type p = SSH_MSG_USERAUTH_FAILURE /\
     handle_auth_failure (arrives p) a = Ret (if 0 <? success then 0 else -1, set_required (named_methods methods) a)).
Proof.
  split; [by eexists |]. intros Hm. unfold send_userauth_request_reply. destruct (Z.eqb_spec methods 0) as [->|_]; [done |]. rewrite andb_false_r.
  destruct (reply_of (named_methods methods) success a Hm (named_cases methods)) as (size & n & namelist & p & E1 & E2 & E3 & E4 & E5).
  rewrite write_required_named, E1. opt. rewrite write_required_named, E2. opt. rewrite E3. by exists p.
Qed.

(** ** The loop of the client ends *)

(** Methods as the answers of a server give them. *)
Definition methods_ok (m : Z) : Prop := 0 <= m /\ has m SSH_AUTH_METHOD_NONE = false.

Lemma methods_of_ok x : methods_ok (methods_of x).
Proof.
  split; [| apply methods_none]. unfold methods_of. induction (split_commas x) as [|w ws IH]; [done |]. cbn [foldr]. apply Z.lor_nonneg. split; [| done].
  unfold method_bit. repeat case_match; done.
Qed.

Definition answer_ok (r : answer) : Prop := match r with Reply p => SshTransport.SshTransport.payload_ok p | _ => True end.

Lemma failure_ok p a : SshTransport.SshTransport.payload_ok p -> methods_ok (au_required a) ->
  exists r a', handle_auth_failure p a = Ret (r, a') /\ methods_ok (au_required a') /\ au_done a' = au_done a.
Proof.
  intros Hp Ha. rewrite failure_handled by done. unfold judged_failure. destruct (_ && _ && _); do 2 eexists; (split; [done |]); [| done]. split; [apply methods_of_ok | done].
Qed.

Lemma passwords_ok answers : forall r a, Forall answer_ok answers -> methods_ok (au_required a) ->
  exists r' a', send_userauth_password_request answers r a = Ret (r', a') /\ methods_ok (au_required a') /\ au_done a' = au_done a.
Proof.
  induction answers as [|x answers IH]; intros r a Hx Ha; cbn [send_userauth_password_request]; [by do 2 eexists |]. inversion Hx as [|? ? Hp Hx']; subst.
  destruct x as [| |p]; [by apply IH | by do 2 eexists |]. destruct (_ =? SSH_MSG_USERAUTH_SUCCESS); [apply (IH 0 (set_required 0 a)); [done | by split] |].
  destruct (_ =? SSH_MSG_USERAUTH_FAILURE); [| by apply IH]. destruct (failure_ok p a Hp Ha) as (r1 & a1 & -> & H1 & Hd). cbn [outcome_bind].
  destruct (IH r1 a1 Hx' H1) as (r2 & a2 & -> & H2 & Hd2). do 2 eexists. split; [done |]. split; [done | by rewrite Hd2].
Qed.

Definition identity_ok (id : identity) : Prop := answer_ok (id_ask id) /\ answer_ok (id_signed id).

Lemma signature_ok ans a : answer_ok ans -> methods_ok (au_required a) ->
  exists r a', signature_reply ans a = Ret (r, a') /\ methods_ok (au_required a') /\ au_done a' = au_done a.
Proof.
  intros Hx Ha. destruct ans as [| |p]; cbn [signature_reply]; [by do 2 eexists .. |]. destruct (_ =? SSH_MSG_USERAUTH_SUCCESS); [do 2 eexists; split; [done |]; by split |].
  destruct (_ =? SSH_MSG_USERAUTH_FAILURE); [by apply failure_ok | by do 2 eexists].
Qed.

Lemma ask_ok id : identity_ok id -> exists x, send_userauth_pubkey id = Ret x.
Proof.
  intros [Hx _]. unfold send_userauth_pubkey. destruct (id_ask id) as [| |p]; [by eexists .. |]. destruct (_ =? _); [| by eexists].
  unfold check_received_pubkey_pk. destruct (Z.eqb_spec (zlen (id_ok_message id)) (rp_len p)) as [E|]; [| by eexists].
  destruct Hx as (_ & Hl & _). pose proof (zlen_nonneg (id_ok_message id)). rewrite mem_read_Some by lia. cbn [lift outcome_bind]. by eexists.
Qed.

Lemma pubkeys_ok ids : forall a, Forall identity_ok ids -> methods_ok (au_required a) ->
  exists o a', send_userauth_pubkey_request ids a = Ret (o, a') /\ methods_ok (au_required a') /\ au_done a' = au_done a.
Proof.
  induction ids as [|id ids IH]; intros a Hi Ha; cbn [send_userauth_pubkey_request]; [by do 2 eexists |]. inversion Hi as [|? ? Hx Hi']; subst.
  set (one := if id_public id then _ else _).
  assert (exists r a1, one = Ret (r, a1) /\ methods_ok (au_required a1) /\ au_done a1 = au_done a) as (r & a1 & -> & H1 & Hd).
  { unfold one. destruct (id_public id); [| by do 2 eexists]. destruct (ask_ok id Hx) as (x & ->). cbn [outcome_bind].
    destruct (_ && _); [| by do 2 eexists]. unfold ssh_send_pk_signature. destruct (id_signs id); [| by do 2 eexists]. by apply signature_ok, Ha; apply Hx. }
  cbn [outcome_bind]. destruct (r =? 0); [by do 2 eexists |]. destruct (IH a1 Hi' H1) as (o & a2 & -> & H2 & Hd2). do 2 eexists. split; [done |]. split; [done | by rewrite Hd2].
Qed.

(** No key of the host is ever accepted: a packet that is sent has more than no bytes. *)
Lemma hostbased_fails ids : forall a, send_userauth_hostbased_request ids a = Ret (None, a).
Proof.
  induction ids as [|id ids IH]; intros a; [done |]. cbn [send_userauth_hostbased_request]. unfold ssh_send_hb_signature.
  destruct (_ && _); [destruct (id_signs id); [destruct (id_signed id) |] |]; cbn; apply IH.
Qed.

(** Supported methods that are not all done leave one of the three to try. *)
Lemma method_left m : methods_ok m -> m <> 0 -> ssh_auth_method_supported m =? -1 = false ->
  has m SSH_AUTH_METHOD_PUBLICKEY || has m SSH_AUTH_METHOD_PASSWORD || has m SSH_AUTH_METHOD_HOSTBASED = true.
Proof.
  intros [H0 Hn] Hne Hs. unfold ssh_auth_method_supported in Hs. destruct (Z.ltb_spec 0 (Z.ldiff m all_auth)) as [|Hl]; [done |].
  assert (Z.ldiff m all_auth = 0) as Hz. { assert (0 <= Z.ldiff m all_auth) by (apply Z.ldiff_nonneg; by left). lia. }
  assert (m = Z.land m 15) as Hm. { apply Z.ldiff_le in Hz; [| done]. apply Z.bits_inj'. intros n Hb. rewrite Z.land_spec. destruct (Z.testbit m n) eqn:E; [| done]. cbn.
    destruct (Z.testbit 15 n) eqn:E15; [done |]. exfalso. assert (Z.testbit (Z.ldiff m all_auth) n = true) as Ht by (rewrite Z.ldiff_spec, E; unfold all_auth; by rewrite E15).
    assert (Z.ldiff m all_auth = 0) as Hz' by (assert (0 <= Z.ldiff m all_auth) by (apply Z.ldiff_nonneg; by left); lia). by rewrite Hz', Z.bits_0 in Ht. }
  assert (0 <= Z.land m 15 < 16) as Hr by (change 15 with (Z.ones 4); rewrite Z.land_ones by lia; apply Z.mod_pos_bound; lia). rewrite <- Hm in Hr. clear Hm Hz Hl Hs H0.
  assert (m = 1 \/ m = 2 \/ m = 3 \/ m = 4 \/ m = 5 \/ m = 6 \/ m = 7 \/ m = 8 \/ m = 9 \/ m = 10 \/ m = 11 \/ m = 12 \/ m = 13 \/ m = 14 \/ m = 15) as Hx by lia.
  repeat (destruct Hx as [->|Hx]; [done |]). by subst m.
Qed.

Definition todo (done : Z) : nat :=
  (if has done SSH_AUTH_METHOD_PUBLICKEY then 0 else 1) + (if has done SSH_AUTH_METHOD_PASSWORD then 0 else 1) + (if has done SSH_AUTH_METHOD_HOSTBASED then 0 else 1).

Lemma todo_less d k : k = SSH_AUTH_METHOD_PUBLICKEY \/ k = SSH_AUTH_METHOD_PASSWORD \/ k = SSH_AUTH_METHOD_HOSTBASED -> has d k = false -> (todo (Z.lor d k) < todo d)%nat.
Proof.
  intros Hk Hd. unfold todo, SSH_AUTH_METHOD_PUBLICKEY, SSH_AUTH_METHOD_PASSWORD, SSH_AUTH_METHOD_HOSTBASED in *. rewrite !has_lor.
  destruct Hk as [->|[->| ->]]; rewrite Hd;
    [change (has 2 2) with true; change (has 2 4) with false; change (has 2 8) with false
    |change (has 4 2) with false; change (has 4 4) with true; change (has 4 8) with false
    |change (has 8 2) with false; change (has 8 4) with false; change (has 8 8) with true];
    rewrite ?orb_false_r; repeat match goal with |- context [has d ?k] => destruct (has d k) end; cbn; lia.
Qed.

Section ClientProof.
Context (users hosts : list identity) (user_keys host_keys : Z) (passwords : list answer) (pw_name : bytes) (local : option (bytes * bytes)).
Context (Hid : Forall identity_ok users) (Hpw : Forall answer_ok passwords).

Definition ended (o : outcome (Z * option bytes * auth)) : Prop :=
  exists r user a, o = Ret (r, user, a) /\ ((r = 0 /\ au_required a = 0 /\ user = Some (au_s_username a)) \/ (r = -1 /\ au_required a <> 0 /\ user = None)).

Lemma finish_ended id a : ended (Ret (finish_userauth id a)).
Proof.
  unfold finish_userauth. destruct (Z.eqb_spec (au_required a) 0) as [E|E]; [| do 3 eexists; split; [done | by right]]. do 3 eexists. split; [done |]. left. split; [done |]. split; [| done].
  destruct (au_s_username a), id as [[u|]|]; done.
Qed.

Abbreviation loop := (tryuserauth users hosts user_keys host_keys passwords pw_name).

Lemma tryuserauth_ends fuel : forall id a, (todo (au_done a) < fuel)%nat -> methods_ok (au_required a) -> au_required a <> 0 ->
  ssh_auth_method_supported (au_required a) =? -1 = false -> ended (loop fuel id a).
Proof.
  induction fuel as [|fuel IH]; intros id a Hf Hm H0 Hs; [lia |]. cbn [tryuserauth].
  assert (forall id' a', (todo (au_done a') < fuel)%nat -> methods_ok (au_required a') ->
    ended (if au_required a' =? 0 then Ret (finish_userauth id' a') else if ssh_auth_method_supported (au_required a') =? -1 then Ret (finish_userauth id' a') else loop fuel id' a')) as Hnext.
  { intros id' a' Ht Hm'. destruct (Z.eqb_spec (au_required a') 0); [apply finish_ended |].
    destruct (ssh_auth_method_supported (au_required a') =? -1) eqn:Es; [apply finish_ended | by apply IH]. }
  pose proof (method_left _ Hm H0 Hs) as Hleft. destruct (has (au_required a) SSH_AUTH_METHOD_PUBLICKEY) eqn:E1.
  - destruct (has (au_done a) SSH_AUTH_METHOD_PUBLICKEY) eqn:D1; [apply finish_ended |]. destruct (user_keys =? 0); [apply finish_ended |].
    destruct (pubkeys_ok users a Hid Hm) as (id' & a1 & -> & Hm1 & Hd). cbn [outcome_bind]. destruct id' as [u|]; [| apply finish_ended].
    pose proof (todo_less (au_done a) _ (or_introl eq_refl) D1). apply Hnext.
    + destruct (au_s_username _); cbn; rewrite Hd; lia.
    + destruct (au_s_username _); done.
  - destruct (has (au_required a) SSH_AUTH_METHOD_PASSWORD) eqn:E2.
    + destruct (has (au_done a) SSH_AUTH_METHOD_PASSWORD) eqn:D2; [apply finish_ended |]. destruct passwords as [|x xs] eqn:Ep; [apply finish_ended |]. rewrite <- Ep in *.
      destruct (passwords_ok passwords (-1) a Hpw Hm) as (r & a1 & -> & Hm1 & Hd). cbn [outcome_bind]. destruct (r =? -1); [apply finish_ended |].
      pose proof (todo_less (au_done a) _ (or_intror (or_introl eq_refl)) D2). apply Hnext; [cbn; rewrite Hd; lia | done].
    + destruct (has (au_required a) SSH_AUTH_METHOD_HOSTBASED) eqn:E3; [| done]. destruct (has (au_done a) SSH_AUTH_METHOD_HOSTBASED) eqn:D3; [apply finish_ended |].
      destruct (host_keys =? 0); [apply finish_ended |]. rewrite hostbased_fails. apply finish_ended.
Qed.


End ClientProof.

(** ** On concrete answers *)

Definition failure_msg (names : bytes) (partial : Z) : received :=
  SshChannelSend.SshChannelSend.message ([SSH_MSG_USERAUTH_FAILURE] ++ be_encode 4 (zlen names) ++ names ++ [partial]).
Definition success_msg : received := SshChannelSend.SshChannelSend.message [SSH_MSG_USERAUTH_SUCCESS].

Lemma failure_msg_ok names partial : wf_bytes names -> is_u8 partial -> zlen names < 1000 -> SshTransport.SshTransport.payload_ok (failure_msg names partial).
Proof.
  intros Hn Hp Hl. pose proof (zlen_nonneg names). unfold SshTransport.SshTransport.payload_ok, failure_msg. cbn [rp_buffer rp_len SshChannelSend.SshChannelSend.message].
  split; [| split; [done |]].
  - constructor; [by vm_compute |]. apply Forall_app_2; [apply be_encode_wf |]. apply Forall_app_2; [done |]. by constructor; [| constructor].
  - rewrite !zlen_app, zlen_be_encode. change (zlen [SSH_MSG_USERAUTH_FAILURE]) with 1. change (zlen [partial]) with 1. lia.
Qed.

Lemma lit_wf : wf_bytes (lit "publickey,password").
Proof. vm_compute. repeat constructor; done. Qed.

Lemma auth_failure_handled_witness : exists r a', handle_auth_failure (failure_msg (lit "publickey,password") 1) init_ssh_auth = Ret (r, a') /\ au_done a' = 0.
Proof.
  destruct (auth_failure_handled (failure_msg (lit "publickey,password") 1) init_ssh_auth) as (r & a' & E & _ & Hd & _).
  - apply failure_msg_ok; [apply lit_wf | by split | by vm_compute].
  - exists r, a'. split; [exact E | exact Hd].
Defined.

Lemma auth_reply_roundtrip_witness : exists p, send_userauth_request_reply 6 0 = Some p /\
  handle_auth_failure (arrives p) init_ssh_auth = Ret (-1, set_required 6 init_ssh_auth).
Proof.
  destruct (auth_reply_roundtrip 6 0 init_ssh_auth) as [_ H]. destruct (H ltac:(done)) as (p & E & _ & Hh). exists p. split; [exact E | exact Hh].
Defined.

(** A server that wants a key, and accepts the one there is. *)
Definition pk_ok_msg : received := SshChannelSend.SshChannelSend.message [SshTransport.SshTransport.SSH_MSG_USERAUTH_PK_OK; 7; 7].
Definition guest_key : identity := mkIdentity (Some (lit "guest")) true [60; 7; 7] (Reply pk_ok_msg) true true (Reply success_msg).

Lemma guest_key_ok : Forall identity_ok [guest_key].
Proof.
  constructor; [| constructor]. split; (split; [repeat constructor; by vm_compute | split; [done | by vm_compute]]).
Qed.


(** A key of the host is never looked at by a client, whatever the server answers. *)
Theorem hostbased_never_accepted (ids : list identity) (a : auth) : send_userauth_hostbased_request ids a = Ret (None, a).
Proof. apply hostbased_fails. Qed.

(** The request "none" has the size that was counted and the last string does not fit
    in it: the server gets zeros instead of the name of the method. *)
Theorem none_request_loses_method :
  match send_userauth_none_message (string_of (lit "me")) (string_of (lit "ssh-connection")) with
  | Some p => rp_len p = 33 /\ rp_buffer p = [SSH_MSG_USERAUTH_REQUEST] ++ encode_string (lit "me") ++ encode_string (lit "ssh-connection") ++ repeat 0 8
  | None => False
  end.
Proof. vm_compute. done. Qed.

(** An answer without a list of methods counts as the end of the authentication: the
    client reports success. *)
Theorem malformed_failure_authenticates :
  match start_ssh_userauth_client [] [] 1 0 [] (lit "me") (Some ([], [])) 4 true
          (Reply (SshChannelSend.SshChannelSend.message [SSH_MSG_USERAUTH_FAILURE])) init_ssh_auth with
  | Ret (r, _, a) => r = 0 /\ au_done a = 0
  | _ => False
  end.
Proof. vm_compute. done. Qed.

(** A password that was accepted does not end the walk: the next one is sent, and its
    refusal is the result. *)
Theorem password_accepted_and_refused :
  match send_userauth_password_request [Reply success_msg; Reply (failure_msg (lit "password") 0)] (-1) init_ssh_auth with
  | Ret (r, a) => r = -1 /\ au_required a = SSH_AUTH_METHOD_PASSWORD
  | _ => False
  end.
Proof. vm_compute. done. Qed.

(** A server that requires nothing any more and refuses reads an array of no bytes. *)
Theorem reply_without_methods_undefined : send_userauth_request_reply 0 0 = None.
Proof. vm_compute. done. Qed.

End SshUserauth.
