(* ===== verification/UserMap.v ===== *)
(** * lib/users and ssh/users/mapping.c: users of the other side

    Files come with the owner and group of the other side, an id in version 3 of
    the sftp protocol and a name in later versions.  A mapping translates them to
    local ids ([p2l]) and back ([l2p]).  Modelled are the two records of the remote
    user ([getent.c]), the lookups ([local.c], [lookup.c]) over an abstract user
    database, the eight translations ([mapcb_p2l.c], [mapcb_l2p.c]), their choice
    ([mapcb.c], [mapping.c]) and the set up on both sides.

    A name is a pointer into a message: the memory from it to the end of the
    message, which the translation changes where it cuts the name.  The cache of
    users is known by its table of functions only. *)

From stdpp Require Import strings base list list_numbers numbers option.
From S2P Require Import Prelude SshUint SshString NameList SshCipher.
Import SshUint SshString NameList.

Module UserMap.

Definition lit : string -> bytes := SshCipher.lit.

Definition NET_IDMAPPING_FLAG_INIT := 1.
Definition NET_IDMAPPING_FLAG_SETUP := 2.
Definition NET_IDMAPPING_FLAG_STARTED := 4.
Definition NET_IDMAPPING_FLAG_COMPLETE := 8.
Definition NET_IDMAPPING_FLAG_CLIENT := 2 ^ 8.
Definition NET_IDMAPPING_FLAG_SERVER := 2 ^ 9.
Definition NET_IDMAPPING_FLAG_SHARED := 2 ^ 10.
Definition NET_IDMAPPING_FLAG_MAPBYID := 2 ^ 20.
Definition NET_IDMAPPING_FLAG_MAPBYNAME := 2 ^ 21.
Definition NET_IDMAPPING_FLAG_NONSTRICT := 2 ^ 22.
Definition NET_IDMAPPING_FLAG_CACHE := 2 ^ 23.

Definition NET_ENTITY_FLAG_USER := 1.
Definition NET_ENTITY_FLAG_GROUP := 2.

Definition GETENT_FLAG_USER := 1.
Definition GETENT_FLAG_GROUP := 2.

Definition ENOENT := 2.
Definition COLON := 58.

(** [atoi]: [strtol] in base 10, which stops at the bounds of a [long], converted
    to an [int]. *)
Definition atoi (p : bytes) : option Z :=
  let? s := cstring p in Some (sgn 32 (Z.max (- 2 ^ 63) (Z.min (2 ^ 63 - 1) (SshCipher.atoi s)))).

(** ** getent.c *)

(** The pointers are places in the memory of the string with the record; [gf_id]
    is the first word of the union: [user.uid] and [group.gid]. *)
Record getent_fields := mk_getent {
  gf_flags : Z;
  gf_data : bytes;
  gf_name : option Z;
  gf_len : Z;
  gf_id : Z;
  gf_fullname : option Z;
  gf_home : option Z
}.

Definition init_getent_fields : getent_fields := mk_getent 0 [] None 0 0 None None.

Definition set_data (f : getent_fields) (m : bytes) : getent_fields := mk_getent (gf_flags f) m (gf_name f) (gf_len f) (gf_id f) (gf_fullname f) (gf_home f).
Definition set_getname (f : getent_fields) (m : bytes) : getent_fields := mk_getent (gf_flags f) m (Some 0) (gf_len f) (gf_id f) (gf_fullname f) (gf_home f).
Definition set_len (f : getent_fields) (n : Z) : getent_fields := mk_getent (gf_flags f) (gf_data f) (gf_name f) n (gf_id f) (gf_fullname f) (gf_home f).
Definition set_id (f : getent_fields) (id : Z) : getent_fields := mk_getent (gf_flags f) (gf_data f) (gf_name f) (gf_len f) id (gf_fullname f) (gf_home f).
Definition set_fullname (f : getent_fields) (p : Z) : getent_fields := mk_getent (gf_flags f) (gf_data f) (gf_name f) (gf_len f) (gf_id f) (Some p) (gf_home f).
Definition set_home (f : getent_fields) (p : Z) : getent_fields := mk_getent (gf_flags f) (gf_data f) (gf_name f) (gf_len f) (gf_id f) (gf_fullname f) (Some p).

Definition at_place (m : bytes) (pos : Z) : bytes := drop (Z.to_nat pos) m.

(** The memory, the place behind the next colon or NULL, and the new size. *)
Definition get_next_field (m : bytes) (pos size : Z) : option (bytes * option Z * Z) :=
  if size <=? 0 then Some (m, None, size) else
  let? sep := memchr (at_place m pos) COLON (Z.to_nat size) in
  match sep with
  | Some i =>
      let? m := mem_write m (pos + i) [0] in
      Some (m, Some (pos + i + 1), sgn 32 (size - u32 (i + 1)))
  | None => Some (m, None, size)
  end.

(** [pos=get_next_field(pos, &left); if (pos==NULL) goto error;] *)
Definition next_field (f : getent_fields) (pos left : Z) (k : getent_fields -> Z -> Z -> option (Z * getent_fields)) : option (Z * getent_fields) :=
  let? r := get_next_field (gf_data f) pos left in
  let '(m, p, size) := r in
  match p with Some p => k (set_data f m) p size | None => Some (-1, set_data f m) end.

Definition get_getent_fields (m : bytes) (len : Z) (f : getent_fields) : option (Z * getent_fields) :=
  next_field (set_getname f m) 0 (sgn 32 len) (fun f pos left =>
  let? n := strlen (gf_data f) in
  let f := set_len f (u32 n) in
  next_field f pos left (fun f pos left =>
  let tmp := pos in
  next_field f pos left (fun f pos left =>
  let? id := atoi (at_place (gf_data f) tmp) in
  let f := set_id f (u32 id) in
  if has (gf_flags f) GETENT_FLAG_GROUP then Some (0, f) else
  let tmp := pos in
  next_field f pos left (fun f pos left =>
  let? id := atoi (at_place (gf_data f) tmp) in
  let f := set_fullname (set_id f (u32 id)) pos in
  next_field f pos left (fun f pos left =>
  let f := set_home f pos in
  let? r := get_next_field (gf_data f) pos left in
  Some (0, set_data f r.1.1)))))).

(** The bytes [name .. name + len - 1] of the record. *)
Definition getent_name (f : getent_fields) : option bytes :=
  match gf_name f with Some p => mem_read (gf_data f) p (gf_len f) | None => if gf_len f =? 0 then Some [] else None end.

(** ** Entities *)

(** The name and the domain are the memory from their pointers on. *)
Record net_entity := mk_ent {
  ne_flags : Z;
  ne_name : option bytes;
  ne_len : Z;
  ne_domain : option bytes;
  ne_domain_len : Z;
  ne_id : Z;
  ne_localid : Z
}.

Definition set_localid (e : net_entity) (id : Z) : net_entity := mk_ent (ne_flags e) (ne_name e) (ne_len e) (ne_domain e) (ne_domain_len e) (ne_id e) id.
Definition set_netid (e : net_entity) (id : Z) : net_entity := mk_ent (ne_flags e) (ne_name e) (ne_len e) (ne_domain e) (ne_domain_len e) id (ne_localid e).
Definition set_netname (e : net_entity) (m : option bytes) (len : Z) : net_entity := mk_ent (ne_flags e) m len (ne_domain e) (ne_domain_len e) (ne_id e) (ne_localid e).

(** ** local.c: the user database *)

Record userdb := mk_db {
  getpwnam : bytes -> option (Z * Z);      (* pw_uid, pw_gid *)
  getpwuid : Z -> option bytes;            (* pw_name *)
  getgrnam : bytes -> option Z;
  getgrgid : Z -> option bytes
}.

(** What the set up gets from outside: the table of functions of the cache. *)
Record userscache (C : Type) := mk_uc {
  find_user_ent2local : C -> net_entity -> Z -> option (net_entity * Z);
  find_group_ent2local : C -> net_entity -> Z -> option (net_entity * Z);
  add_net2local_map : C -> net_entity -> option (Z * C)
}.
Arguments find_user_ent2local {C}.
Arguments find_group_ent2local {C}.
Arguments add_net2local_map {C}.

(** The values of the function pointers of a mapping. *)
Inductive p2l_cb := P2lNull | P2lSharedById | P2lSharedByName | P2lNonsharedById | P2lNonsharedByName.
Inductive l2p_cb := L2pNull | L2pById | L2pByNameClient | L2pByNameServer.
Inductive lookup_cb := LookupNull | LookupDummy | LookupByIdMap | LookupByIdSystem | LookupByNameSystem | LookupCache.

Record net_idmapping (C : Type) := mk_map {
  m_flags : Z;
  m_pwd : option (Z * Z);                  (* pw_uid, pw_gid *)
  m_su : getent_fields;
  m_sg : getent_fields;
  m_unknown_uid : Z;
  m_unknown_gid : Z;
  m_user_p2l : p2l_cb;
  m_group_p2l : p2l_cb;
  m_user_l2p : l2p_cb;
  m_group_l2p : l2p_cb;
  m_lookup_user : lookup_cb;
  m_lookup_group : lookup_cb;
  m_setup_done : bool;                     (* mapping->setup is setup_net_usermapping_done *)
  m_cache : option C
}.
Arguments mk_map {C}.
Arguments m_flags {C}.
Arguments m_pwd {C}.
Arguments m_su {C}.
Arguments m_sg {C}.
Arguments m_unknown_uid {C}.
Arguments m_unknown_gid {C}.
Arguments m_user_p2l {C}.
Arguments m_group_p2l {C}.
Arguments m_user_l2p {C}.
Arguments m_group_l2p {C}.
Arguments m_lookup_user {C}.
Arguments m_lookup_group {C}.
Arguments m_setup_done {C}.
Arguments m_cache {C}.

Section Mapping.
Context (db : userdb) {C : Type} (uc : userscache C).

Implicit Types (m : net_idmapping C) (e : net_entity).

(** *** The functions of local.c: the id and the error, as they are left *)

Definition get_local_uid_byname (name : bytes) (uid error : Z) : option (Z * Z) :=
  let? n := cstring name in
  Some (match getpwnam db n with Some pwd => (pwd.1, 0) | None => (uid, ENOENT) end).

Definition get_local_uid_byid (id uid error : Z) : Z * Z :=
  match getpwuid db id with Some _ => (id, error) | None => (uid, ENOENT) end.

Definition get_local_gid_byname (name : bytes) (gid error : Z) : option (Z * Z) :=
  let? n := cstring name in
  Some (match getgrnam db n with Some g => (g, 0) | None => (gid, ENOENT) end).

Definition get_local_gid_byid (id gid error : Z) : Z * Z :=
  match getgrgid db id with Some _ => (id, error) | None => (gid, ENOENT) end.

(** *** lookup.c *)

Definition lookup_user_byid_map (e : net_entity) (error : Z) : net_entity * Z := (set_localid e (ne_id e), 0).
Definition lookup_group_byid_map (e : net_entity) (error : Z) : net_entity * Z := (set_localid e (ne_id e), 0).

Definition lookup_user_byid_system (e : net_entity) (error : Z) : net_entity * Z :=
  let r := get_local_uid_byid (ne_id e) (ne_localid e) 0 in (set_localid e r.1, r.2).
Definition lookup_group_byid_system (e : net_entity) (error : Z) : net_entity * Z :=
  let r := get_local_gid_byid (ne_id e) (ne_localid e) 0 in (set_localid e r.1, r.2).

(** [tmp]: the name with a NUL behind it. *)
Definition name_copy (e : net_entity) : option bytes :=
  let? p := ne_name e in let? d := mem_read p 0 (ne_len e) in Some (d ++ [0]).

Definition lookup_user_byname_system (e : net_entity) (error : Z) : option (net_entity * Z) :=
  let? tmp := name_copy e in
  let? r := get_local_uid_byname tmp (ne_localid e) error in Some (set_localid e r.1, r.2).
Definition lookup_group_byname_system (e : net_entity) (error : Z) : option (net_entity * Z) :=
  let? tmp := name_copy e in
  let? r := get_local_gid_byname tmp (ne_localid e) error in Some (set_localid e r.1, r.2).

(** A NULL [mapping->cache] is followed. *)
Definition lookup_user_cache (m : net_idmapping C) (e : net_entity) (error : Z) : option (net_entity * Z) :=
  let? c := m_cache m in find_user_ent2local uc c e error.
Definition lookup_group_cache (m : net_idmapping C) (e : net_entity) (error : Z) : option (net_entity * Z) :=
  let? c := m_cache m in find_group_ent2local uc c e error.

Definition lookup_user (m : net_idmapping C) (e : net_entity) (error : Z) : option (net_entity * Z) :=
  match m_lookup_user m with
  | LookupNull => None
  | LookupDummy => Some (e, error)
  | LookupByIdMap => Some (lookup_user_byid_map e error)
  | LookupByIdSystem => Some (lookup_user_byid_system e error)
  | LookupByNameSystem => lookup_user_byname_system e error
  | LookupCache => lookup_user_cache m e error
  end.

Definition lookup_group (m : net_idmapping C) (e : net_entity) (error : Z) : option (net_entity * Z) :=
  match m_lookup_group m with
  | LookupNull => None
  | LookupDummy => Some (e, error)
  | LookupByIdMap => Some (lookup_group_byid_map e error)
  | LookupByIdSystem => Some (lookup_group_byid_system e error)
  | LookupByNameSystem => lookup_group_byname_system e error
  | LookupCache => lookup_group_cache m e error
  end.

(** *** mapcb_p2l.c *)

Definition get_user_p2l_shared_byid (m : net_idmapping C) (e : net_entity) : option net_entity :=
  let? r := lookup_user m (set_localid e (m_unknown_uid m)) 0 in Some r.1.
Definition get_group_p2l_shared_byid (m : net_idmapping C) (e : net_entity) : option net_entity :=
  let? r := lookup_group m (set_localid e (m_unknown_gid m)) 0 in Some r.1.

(** [sep=memchr(ptr, len, '@')] and what is done when it is found: the byte that
    is looked for is the length, in the first 64 bytes. *)
Definition cut_domain (e : net_entity) : option (bool * net_entity) :=
  let? p := ne_name e in
  let? sep := memchr p (u8 (ne_len e)) 64 in
  match sep with
  | Some i =>
      let? p := mem_write p i [0] in
      Some (true, mk_ent (ne_flags e) (Some p) (u32 i) (Some (at_place p (i + 1))) (u32 (ne_len e - i - 1)) (ne_id e) (ne_localid e))
  | None => Some (false, e)
  end.

Definition get_user_p2l_shared_byname (m : net_idmapping C) (e : net_entity) : option net_entity :=
  let? r := cut_domain (set_localid e (m_unknown_uid m)) in
  let? r := lookup_user m r.2 0 in Some r.1.
Definition get_group_p2l_shared_byname (m : net_idmapping C) (e : net_entity) : option net_entity :=
  let? r := cut_domain (set_localid e (m_unknown_gid m)) in
  let? r := lookup_group m r.2 0 in Some r.1.

Definition get_user_p2l_nonshared_byid (m : net_idmapping C) (e : net_entity) : option net_entity :=
  let e := set_localid e (m_unknown_uid m) in
  if ne_id e =? gf_id (m_su m) then let? pwd := m_pwd m in Some (set_localid e pwd.1)
  else if ne_id e =? 0 then Some (set_localid e 0)
  else let? r := lookup_user m e 0 in Some r.1.
Definition get_group_p2l_nonshared_byid (m : net_idmapping C) (e : net_entity) : option net_entity :=
  let e := set_localid e (m_unknown_gid m) in
  if ne_id e =? gf_id (m_sg m) then let? pwd := m_pwd m in Some (set_localid e pwd.2)
  else if ne_id e =? 0 then Some (set_localid e 0)
  else let? r := lookup_group m e 0 in Some r.1.

(** [len==n && memcmp(ptr, name, n)==0] *)
Definition same_name (e : net_entity) (n : Z) (name : option bytes) : option bool :=
  if ne_len e =? n then
    let? p := ne_name e in let? a := mem_read p 0 n in let? b := name in Some (bytes_eqb a b)
  else Some false.

Definition get_user_p2l_nonshared_byname (m : net_idmapping C) (e : net_entity) : option net_entity :=
  let? r := cut_domain (set_localid e (m_unknown_uid m)) in
  let e := r.2 in
  if (r.1 : bool) then let? r := lookup_user m e 0 in Some r.1 else
  let? (own : bool) := same_name e (gf_len (m_su m)) (getent_name (m_su m)) in
  if own then let? pwd := m_pwd m in Some (set_localid e pwd.1) else
  let? (root : bool) := same_name e 4 (Some (lit "root")) in
  if root then Some (set_localid e 0) else
  let? r := lookup_user m e 0 in Some r.1.
Definition get_group_p2l_nonshared_byname (m : net_idmapping C) (e : net_entity) : option net_entity :=
  let? r := cut_domain (set_localid e (m_unknown_gid m)) in
  let e := r.2 in
  if (r.1 : bool) then let? r := lookup_group m e 0 in Some r.1 else
  let? (own : bool) := same_name e (gf_len (m_sg m)) (getent_name (m_sg m)) in
  if own then let? pwd := m_pwd m in Some (set_localid e pwd.2) else
  let? (root : bool) := same_name e 4 (Some (lit "root")) in
  if root then Some (set_localid e 0) else
  let? r := lookup_group m e 0 in Some r.1.

(** *** mapcb_l2p.c *)

Definition get_user_l2p_byid (m : net_idmapping C) (e : net_entity) : net_entity :=
  set_netid e (if ne_localid e =? 0 then 0 else gf_id (m_su m)).
Definition get_group_l2p_byid (m : net_idmapping C) (e : net_entity) : net_entity :=
  set_netid e (if ne_localid e =? 0 then 0 else gf_id (m_sg m)).

(** The length is set and, where there is a pointer, the name is copied to it. *)
Definition put_name (e : net_entity) (len : Z) (name : option bytes) : option net_entity :=
  match ne_name e with
  | Some p => let? d := name in let? p := mem_write p 0 d in Some (set_netname e (Some p) len)
  | None => Some (set_netname e None len)
  end.

Definition get_user_l2p_byname_client (m : net_idmapping C) (e : net_entity) : option net_entity :=
  if ne_localid e =? 0 then put_name e 4 (Some (lit "root")) else put_name e (gf_len (m_su m)) (getent_name (m_su m)).
Definition get_group_l2p_byname_client (m : net_idmapping C) (e : net_entity) : option net_entity :=
  if ne_localid e =? 0 then put_name e 4 (Some (lit "root")) else put_name e (gf_len (m_sg m)) (getent_name (m_sg m)).

(** A NULL pointer is not tested here. *)
Definition _cb_id_found (e : net_entity) (name : bytes) : option net_entity :=
  let? p := ne_name e in let? p := mem_write p 0 name in Some (set_netname e (Some p) (u32 (zlen name))).
Definition _cb_id_notfound (e : net_entity) : net_entity := set_netname e (ne_name e) 0.

Definition get_user_l2p_byname_server (e : net_entity) : option net_entity :=
  match getpwuid db (ne_localid e) with Some name => _cb_id_found e name | None => Some (_cb_id_notfound e) end.
Definition get_group_l2p_byname_server (e : net_entity) : option net_entity :=
  match getgrgid db (ne_localid e) with Some name => _cb_id_found e name | None => Some (_cb_id_notfound e) end.

(** *** The calls through [mapping->mapcb] *)

Definition get_user_p2l (m : net_idmapping C) (e : net_entity) : option net_entity :=
  match m_user_p2l m with
  | P2lNull => None
  | P2lSharedById => get_user_p2l_shared_byid m e
  | P2lSharedByName => get_user_p2l_shared_byname m e
  | P2lNonsharedById => get_user_p2l_nonshared_byid m e
  | P2lNonsharedByName => get_user_p2l_nonshared_byname m e
  end.
Definition get_group_p2l (m : net_idmapping C) (e : net_entity) : option net_entity :=
  match m_group_p2l m with
  | P2lNull => None
  | P2lSharedById => get_group_p2l_shared_byid m e
  | P2lSharedByName => get_group_p2l_shared_byname m e
  | P2lNonsharedById => get_group_p2l_nonshared_byid m e
  | P2lNonsharedByName => get_group_p2l_nonshared_byname m e
  end.
Definition get_user_l2p (m : net_idmapping C) (e : net_entity) : option net_entity :=
  match m_user_l2p m with
  | L2pNull => None
  | L2pById => Some (get_user_l2p_byid m e)
  | L2pByNameClient => get_user_l2p_byname_client m e
  | L2pByNameServer => get_user_l2p_byname_server e
  end.
Definition get_group_l2p (m : net_idmapping C) (e : net_entity) : option net_entity :=
  match m_group_l2p m with
  | L2pNull => None
  | L2pById => Some (get_group_l2p_byid m e)
  | L2pByNameClient => get_group_l2p_byname_client m e
  | L2pByNameServer => get_group_l2p_byname_server e
  end.

(** *** mapcb.c *)

Definition set_callbacks (m : net_idmapping C) (p2l : p2l_cb) (l2p : l2p_cb) (lk : lookup_cb) (flag : Z) : net_idmapping C :=
  mk_map (Z.lor (m_flags m) flag) (m_pwd m) (m_su m) (m_sg m) (m_unknown_uid m) (m_unknown_gid m) p2l p2l l2p l2p lk lk (m_setup_done m) (m_cache m).

Definition set_lookup (m : net_idmapping C) (lk : lookup_cb) : net_idmapping C :=
  mk_map (m_flags m) (m_pwd m) (m_su m) (m_sg m) (m_unknown_uid m) (m_unknown_gid m) (m_user_p2l m) (m_group_p2l m) (m_user_l2p m) (m_group_l2p m) lk lk (m_setup_done m) (m_cache m).

Definition set_net_entity_map_func (m : net_idmapping C) (flags : Z) : net_idmapping C :=
  let m := set_lookup m LookupDummy in
  let byname := if has (m_flags m) NET_IDMAPPING_FLAG_CLIENT then L2pByNameClient else L2pByNameServer in
  if has (m_flags m) NET_IDMAPPING_FLAG_SHARED then
    if has flags NET_IDMAPPING_FLAG_MAPBYID then set_callbacks m P2lSharedById L2pById LookupByIdMap NET_IDMAPPING_FLAG_MAPBYID
    else if has flags NET_IDMAPPING_FLAG_MAPBYNAME then set_callbacks m P2lSharedByName byname LookupByNameSystem NET_IDMAPPING_FLAG_MAPBYNAME
    else m
  else
    if has flags NET_IDMAPPING_FLAG_MAPBYID then
      let lk := if has (m_flags m) NET_IDMAPPING_FLAG_CACHE then LookupCache
                else if has (m_flags m) NET_IDMAPPING_FLAG_NONSTRICT then LookupByIdMap else LookupByIdSystem in
      set_callbacks m P2lNonsharedById L2pById lk NET_IDMAPPING_FLAG_MAPBYID
    else if has flags NET_IDMAPPING_FLAG_MAPBYNAME then set_callbacks m P2lNonsharedByName byname LookupByNameSystem NET_IDMAPPING_FLAG_MAPBYNAME
    else m.

(** *** mapping.c *)

Definition init_net_idmapping (pwd : Z * Z) : net_idmapping C :=
  set_net_entity_map_func
    (mk_map NET_IDMAPPING_FLAG_INIT (Some pwd) init_getent_fields init_getent_fields (u32 (-1)) (u32 (-1))
       P2lNull P2lNull L2pNull L2pNull LookupNull LookupNull false None) NET_IDMAPPING_FLAG_MAPBYID.

(** *** The set up of the server: ssh/subsystem/sftp/init.c *)

Definition setup_sftp_idmapping (version : Z) (m : net_idmapping C) : net_idmapping C :=
  set_net_entity_map_func m
    (Z.lor NET_IDMAPPING_FLAG_SERVER (if 3 <? version then NET_IDMAPPING_FLAG_MAPBYNAME else NET_IDMAPPING_FLAG_MAPBYID)).

(** *** The set up of the client: ssh/users/mapping.c

    What the context and the other side answer are arguments: the options for the
    unknown user, the records of the remote user and group, the type of the
    mapping, and of the list of users the rows and the result. *)

Definition set_unknown (m : net_idmapping C) (uid gid : Z) : net_idmapping C :=
  mk_map (m_flags m) (m_pwd m) (m_su m) (m_sg m) uid gid (m_user_p2l m) (m_group_p2l m) (m_user_l2p m) (m_group_l2p m) (m_lookup_user m) (m_lookup_group m) (m_setup_done m) (m_cache m).
Definition set_flags (m : net_idmapping C) (fl : Z) : net_idmapping C :=
  mk_map fl (m_pwd m) (m_su m) (m_sg m) (m_unknown_uid m) (m_unknown_gid m) (m_user_p2l m) (m_group_p2l m) (m_user_l2p m) (m_group_l2p m) (m_lookup_user m) (m_lookup_group m) (m_setup_done m) (m_cache m).
Definition set_getents (m : net_idmapping C) (su sg : getent_fields) : net_idmapping C :=
  mk_map (m_flags m) (m_pwd m) su sg (m_unknown_uid m) (m_unknown_gid m) (m_user_p2l m) (m_group_p2l m) (m_user_l2p m) (m_group_l2p m) (m_lookup_user m) (m_lookup_group m) (m_setup_done m) (m_cache m).
Definition set_cache (m : net_idmapping C) (c : option C) : net_idmapping C :=
  mk_map (m_flags m) (m_pwd m) (m_su m) (m_sg m) (m_unknown_uid m) (m_unknown_gid m) (m_user_p2l m) (m_group_p2l m) (m_user_l2p m) (m_group_l2p m) (m_lookup_user m) (m_lookup_group m) (m_setup_done m) c.
Definition setup_done (m : net_idmapping C) : net_idmapping C :=
  mk_map (m_flags m) (m_pwd m) (m_su m) (m_sg m) (m_unknown_uid m) (m_unknown_gid m) (m_user_p2l m) (m_group_p2l m) (m_user_l2p m) (m_group_l2p m) (m_lookup_user m) (m_lookup_group m) true (m_cache m).

(** The first of the candidates the database has; the options are C strings. *)
Definition unknown_user (unknown nobody : option bytes) : option (Z * Z) :=
  let try_ (n : option bytes) (other : option (Z * Z)) := match n ≫= getpwnam db with Some pwd => Some pwd | None => other end in
  try_ unknown (try_ nobody (try_ (Some (lit "unknown")) (try_ (Some (lit "nobody")) None))).

Definition get_local_unknown_user (unknown nobody : option bytes) (m : net_idmapping C) : net_idmapping C :=
  match unknown_user unknown nobody with
  | Some pwd => set_unknown m pwd.1 pwd.2
  | None => set_unknown m (u32 (-1)) (u32 (-1))
  end.

(** One record: the buffer of the answer, or none and an empty string. *)
Definition get_remote_getent (answer : option bytes) (f : getent_fields) (flag : Z) : option (Z * getent_fields) :=
  let f := mk_getent (Z.lor (gf_flags f) flag) (gf_data f) (gf_name f) (gf_len f) (gf_id f) (gf_fullname f) (gf_home f) in
  match answer with
  | Some b => get_getent_fields b (zlen b) f
  | None => let? r := get_getent_fields [] 0 f in Some (-1, r.2)
  end.

Definition get_remote_identity_getents (user group : option bytes) (m : net_idmapping C) : option (Z * net_idmapping C) :=
  let? u := get_remote_getent user (m_su m) GETENT_FLAG_USER in
  let? g := get_remote_getent group (m_sg m) GETENT_FLAG_GROUP in
  Some (if (u.1 =? 0) && (g.1 =? 0) then 0 else -1, set_getents m u.2 g.2).

(** [scan_str2array]: the places of the parts, at most [count] of them are kept,
    the memory, in which the colons are only replaced when [count] is not 0, and
    the number of parts. *)
Fixpoint scan_parts (fuel : nat) (data : bytes) (len count pos : Z) (ctr : Z) (ptr : list Z) : outcome (bytes * list Z * Z) :=
  match fuel with
  | O => NoFuel
  | S fuel =>
      let! sep := lift (memchr (at_place data pos) COLON (Z.to_nat (len - pos))) in
      let ptr := if ctr <? count then ptr ++ [pos] else ptr in
      match sep with
      | Some i =>
          let! data := if 0 <? count then lift (mem_write data (pos + i) [0]) else Ret data in
          if pos + i + 1 <? len then scan_parts fuel data len count (pos + i + 1) (ctr + 1) ptr else Ret (data, ptr, ctr + 1)
      | None => Ret (data, ptr, ctr + 1)
      end
  end.

Definition scan_str2array (data : bytes) (len count : Z) : outcome (bytes * list Z * Z) := scan_parts (S (length data)) data len count 0 0 [].

(** The entity of a row of the list of users or groups. *)
Definition row_entity (flag unknown : Z) (data : bytes) (places : list Z) : option net_entity :=
  let? p0 := places !! 0%nat in
  let? p2 := places !! 2%nat in
  let? n := strlen (at_place data p0) in
  let? id := atoi (at_place data p2) in
  Some (mk_ent flag (Some (at_place data p0)) (u32 n) None 0 (u32 id) unknown).

Definition add_user2cache (m : net_idmapping C) (buffer : bytes) (len : Z) : outcome (net_idmapping C) :=
  let! r := scan_str2array buffer len 0 in
  let count := r.2 in
  if (3 <=? count) && (count <=? 20) then
    let! r := scan_str2array buffer len count in
    let! e := lift (row_entity NET_ENTITY_FLAG_USER (m_unknown_uid m) r.1.1 r.1.2) in
    let! l := lift (lookup_user_byname_system e 0) in
    let! c := lift (m_cache m) in
    let! q := lift (add_net2local_map uc c l.1) in Ret (set_cache m (Some q.2))
  else Ret m.

Definition add_group2cache (m : net_idmapping C) (buffer : bytes) (len : Z) : outcome (net_idmapping C) :=
  let! r := scan_str2array buffer len 0 in
  let count := r.2 in
  if (3 <=? count) && (count <=? 20) then
    let! r := scan_str2array buffer len count in
    let! e := lift (row_entity NET_ENTITY_FLAG_GROUP (m_unknown_gid m) r.1.1 r.1.2) in
    let! l := lift (lookup_group_byname_system e 0) in
    let! c := lift (m_cache m) in
    let! q := lift (add_net2local_map uc c l.1) in Ret (set_cache m (Some q.2))
  else Ret m.

(** One row; the buffer of the payload with the row is moved to its front, and
    what is behind the row there is left over: a read beyond the row is [Ub]. *)
Definition _cb_enumusers_exec (m : net_idmapping C) (row : bytes) : outcome (net_idmapping C) :=
  if 5 <? zlen row then
    if bytes_eqb (take 5 row) (lit "0001:") then add_user2cache m (drop 5 row) (zlen row - 5)
    else if bytes_eqb (take 5 row) (lit "0002:") then add_group2cache m (drop 5 row) (zlen row - 5)
    else Ret m
  else Ret m.

Fixpoint enumusers (m : net_idmapping C) (rows : list bytes) : outcome (net_idmapping C) :=
  match rows with [] => Ret m | row :: rows => let! m := _cb_enumusers_exec m row in enumusers m rows end.

Record answers := mk_answers {
  an_unknown : option bytes;        (* option:net.usermapping.user-unknown *)
  an_nobody : option bytes;         (* option:net.usermapping.user-nobody *)
  an_user : option bytes;           (* info:getentuser: *)
  an_group : option bytes;          (* info:getentgroup: *)
  an_type : option bytes;           (* option:net.usermapping.type *)
  an_rows : list bytes;             (* info:enumusers: *)
  an_result : Z
}.

(** The flag SHARED after the option for the type. *)
Definition mapping_type (fl : Z) (type : option bytes) : Z :=
  match type with
  | Some t =>
      if bytes_eqb t (lit "none") || bytes_eqb t (lit "shared") then Z.lor fl NET_IDMAPPING_FLAG_SHARED
      else if bytes_eqb t (lit "map") || bytes_eqb t (lit "nonshared") then Z.ldiff fl NET_IDMAPPING_FLAG_SHARED
      else fl
  | None => Z.ldiff fl NET_IDMAPPING_FLAG_SHARED
  end.

(** [create_net_userscache] gives a cache or NULL. *)
Definition setup_cache (create : Z -> option C) (a : answers) (m : net_idmapping C) : outcome (net_idmapping C) :=
  if has (m_flags m) NET_IDMAPPING_FLAG_SHARED then Ret m else
  let m := set_cache m (create (m_flags m)) in
  match m_cache m with
  | Some _ =>
      let! m := enumusers m (an_rows a) in
      Ret (if 0 <? an_result a then set_flags m (Z.lor (m_flags m) NET_IDMAPPING_FLAG_CACHE) else m)
  | None => Ret m
  end.

Definition setup_out (m : net_idmapping C) (flags : Z) : net_idmapping C :=
  let m := setup_done (set_net_entity_map_func m flags) in
  set_flags m (Z.lor (Z.ldiff (m_flags m) NET_IDMAPPING_FLAG_STARTED) NET_IDMAPPING_FLAG_COMPLETE).

Definition MAPBY : Z := Z.lor NET_IDMAPPING_FLAG_MAPBYID NET_IDMAPPING_FLAG_MAPBYNAME.

Definition setup_net_usermapping (create : Z -> option C) (a : answers) (m : net_idmapping C) (flags : Z) : outcome (Z * net_idmapping C) :=
  if negb (has flags MAPBY) then Ret (-1, m)
  else if has (m_flags m) (Z.lor NET_IDMAPPING_FLAG_STARTED NET_IDMAPPING_FLAG_COMPLETE) then Ret (0, setup_done m)
  else
    let m := set_flags m (Z.lor (m_flags m) NET_IDMAPPING_FLAG_STARTED) in
    let m := get_local_unknown_user (an_unknown a) (an_nobody a) m in
    let! r := lift (get_remote_identity_getents (an_user a) (an_group a) m) in
    let m := r.2 in
    if r.1 =? 0 then
      let m := set_flags m (mapping_type (m_flags m) (an_type a)) in
      let! m := setup_cache create a m in
      let m := set_flags m (Z.lor (m_flags m) (Z.land flags (Z.lor MAPBY (Z.lor NET_IDMAPPING_FLAG_CLIENT NET_IDMAPPING_FLAG_SERVER)))) in
      Ret (1, setup_out m flags)
    else Ret (1, setup_out m flags).

(** The call of [mapping->setup] of sftp/usermapping.c. *)
Definition get_sftp_usermapping (create : Z -> option C) (a : answers) (version : Z) (m : net_idmapping C) : outcome (Z * net_idmapping C) :=
  let flag := if 3 <? version then NET_IDMAPPING_FLAG_MAPBYNAME else NET_IDMAPPING_FLAG_MAPBYID in
  if m_setup_done m then Ret (0, m) else setup_net_usermapping create a m flag.

End Mapping.

(** ** Searching *)

(** What [memchr] finds in memory that is large enough. *)
Lemma memchr_found a c b n : Forall (fun x => x <> c) a -> (length a < n)%nat -> memchr (a ++ c :: b) c n = Some (Some (zlen a)).
Proof.
  intros Ha. revert n. induction Ha as [|x a Hx _ IH]; intros [|n] Hn; cbn [length] in Hn; try lia; cbn [app memchr].
  - by rewrite Z.eqb_refl.
  - destruct (Z.eqb_spec x c); [done |]. rewrite IH by lia. opt. cbn [option_map]. by rewrite zlen_cons.
Qed.

Lemma memchr_absent p c n : Forall (fun x => x <> c) (take n p) -> (n <= length p)%nat -> memchr p c n = Some None.
Proof.
  revert p. induction n as [|n IH]; intros p Hp Hn; [by destruct p |]. destruct p as [|x p]; cbn [length] in Hn; [lia |]. cbn [take] in Hp.
  inversion Hp as [|? ? Hx Hp']; subst. cbn [memchr]. destruct (Z.eqb_spec x c); [done |]. rewrite IH by (done || lia). done.
Qed.

Lemma memchr_cases p c n : (n <= length p)%nat ->
  memchr p c n = Some None \/ exists a b, p = a ++ c :: b /\ Forall (fun x => x <> c) a /\ (length a < n)%nat /\ memchr p c n = Some (Some (zlen a)).
Proof.
  revert p. induction n as [|n IH]; intros p Hn; [left; by destruct p |]. destruct p as [|x p]; cbn [length] in Hn; [lia |]. cbn [memchr].
  destruct (Z.eqb_spec x c) as [-> |Hx].
  - right. exists [], p. split_and!; [done | constructor | cbn; lia | done].
  - destruct (IH p) as [-> |(a & b & -> & Ha & Hl & ->)]; [lia | by left |]. right. exists (x :: a), b.
    split_and!; [done | by constructor | cbn; lia |]. opt. cbn [option_map]. by rewrite zlen_cons.
Qed.

Lemma at_place_app a b : at_place (a ++ b) (zlen a) = b.
Proof. unfold at_place, zlen. rewrite Nat2Z.id. apply drop_app_length. Qed.

(** ** One field *)

Definition no_colon (l : bytes) : Prop := Forall (fun x => x <> COLON) l.

(** The field [a] at the place behind [pre]. *)
Lemma next_field_found f pre a b k : gf_data f = pre ++ a ++ COLON :: b -> no_colon a -> zlen (gf_data f) < 2 ^ 31 ->
  next_field f (zlen pre) (zlen (a ++ COLON :: b)) k =
  k (set_data f (pre ++ a ++ 0 :: b)) (zlen (pre ++ a ++ [0])) (zlen b).
Proof.
  intros Hd Ha Hn. unfold next_field, get_next_field. rewrite Hd.
  pose proof (zlen_nonneg a). pose proof (zlen_nonneg b). pose proof (zlen_nonneg pre).
  rewrite Hd in Hn. rewrite !zlen_app, zlen_cons in *. rewrite (proj2 (Z.leb_gt _ _)) by lia.
  rewrite at_place_app, memchr_found; [| exact Ha | unfold zlen in *; lia]. opt.
  replace (pre ++ a ++ COLON :: b) with ((pre ++ a) ++ COLON :: b) by by rewrite <- app_assoc.
  replace (zlen pre + zlen a) with (zlen (pre ++ a)) by by rewrite zlen_app.
  rewrite mem_write_one. opt. rewrite <- app_assoc. cbn [app]. f_equal; [rewrite !zlen_app, zlen_cons, (zlen_nil (A := Z)); lia |].
  rewrite u32_id by (unfold is_u32; lia). rewrite sgn_small by lia. lia.
Qed.

(** Whatever the bytes are, a field is found or not, inside the memory. *)
Lemma get_next_field_total m pos size : 0 <= pos -> zlen m = pos + Z.max 0 size -> zlen m < 2 ^ 31 ->
  (get_next_field m pos size = Some (m, None, size)) \/
  (exists a b, at_place m pos = a ++ COLON :: b /\ no_colon a /\ get_next_field m pos size =
     Some (take (Z.to_nat pos) m ++ a ++ 0 :: b, Some (pos + zlen a + 1), zlen b)).
Proof.
  intros Hp Hm Hn. unfold get_next_field. destruct (Z.leb_spec size 0) as [Hs|Hs]; [by left |].
  set (t := take (Z.to_nat pos) m). assert (m = t ++ at_place m pos) as Em by (symmetry; apply take_drop).
  assert (zlen t = pos) as Et by (apply zlen_take; lia).
  assert (zlen (at_place m pos) = size) as Es by (unfold at_place; rewrite zlen_drop; lia).
  destruct (memchr_cases (at_place m pos) COLON (Z.to_nat size)) as [-> |(a & b & Ep & Ha & Hl & ->)]; [unfold zlen in Es; lia | by left |].
  right. exists a, b. split_and!; [done | done |]. opt. rewrite Ep in Em, Es. rewrite zlen_app, zlen_cons in Es.
  pose proof (zlen_nonneg a). pose proof (zlen_nonneg b).
  assert (m = (t ++ a) ++ COLON :: b) as Em2 by by rewrite <- app_assoc. rewrite Em2 at 1.
  replace (pos + zlen a) with (zlen (t ++ a)) by (rewrite zlen_app; lia). rewrite mem_write_one. opt. rewrite <- app_assoc.
  do 3 f_equal. rewrite u32_id by (unfold is_u32; lia). rewrite sgn_small by lia. lia.
Qed.

Lemma strlen_exists p (i : nat) : p !! i = Some 0 -> exists n, strlen p = Some n /\ 0 <= n <= Z.of_nat i /\ no_nul (take (Z.to_nat n) p).
Proof.
  revert i. induction p as [|c p IH]; intros i Hi; [done |]. cbn [strlen]. destruct (Z.eqb_spec c 0) as [-> |Hc].
  - exists 0. split_and!; [done | lia | lia | constructor].
  - destruct i as [|i]; [by injection Hi |]. destruct (IH i Hi) as (n & -> & Hn & Hz). exists (1 + n). split_and!; [done | lia | lia |].
    replace (Z.to_nat (1 + n)) with (S (Z.to_nat n)) by lia. by constructor.
Qed.

(** A field that ended in front of the place [p] is a number. *)
Lemma atoi_field m tmp p : 0 <= tmp < p -> m !! Z.to_nat (p - 1) = Some 0 -> exists id, atoi (at_place m tmp) = Some id.
Proof.
  intros Ht Hz. destruct (strlen_exists (at_place m tmp) (Z.to_nat (p - 1 - tmp))) as (n & Hn & _).
  { unfold at_place. rewrite lookup_drop. rewrite <- Hz. f_equal. lia. }
  unfold atoi, cstring. rewrite Hn. opt. by eexists.
Qed.

(** The name that was found is kept in front of the place [p]. *)
Definition name_kept (f : getent_fields) (p : Z) : Prop :=
  gf_name f = Some 0 /\ 0 <= gf_len f < p /\ no_nul (take (Z.to_nat (gf_len f)) (gf_data f)).

Lemma name_kept_data f m pos p : name_kept f pos -> pos <= p -> take (Z.to_nat pos) m = take (Z.to_nat pos) (gf_data f) -> name_kept (set_data f m) p.
Proof.
  intros (Hn & Hl & Hz) Hp Ht. split_and!; [done | cbn; lia | cbn; lia |]. cbn [gf_data gf_len set_data].
  assert (take (Z.to_nat (gf_len f)) m = take (Z.to_nat (gf_len f)) (gf_data f)) as ->; [| done].
  replace (Z.to_nat (gf_len f)) with (Z.to_nat (gf_len f) `min` Z.to_nat pos)%nat by lia. by rewrite <- !take_take, Ht.
Qed.

Lemma next_field_total (P : Z * getent_fields -> Prop) f pos size k :
  0 <= pos -> zlen (gf_data f) = pos + Z.max 0 size -> zlen (gf_data f) < 2 ^ 31 -> P (-1, f) ->
  (forall m p s, zlen m = zlen (gf_data f) -> pos < p -> 0 <= s -> zlen m = p + s -> m !! Z.to_nat (p - 1) = Some 0 ->
     take (Z.to_nat pos) m = take (Z.to_nat pos) (gf_data f) -> exists r, k (set_data f m) p s = Some r /\ P r) ->
  exists r, next_field f pos size k = Some r /\ P r.
Proof.
  intros Hp Hm Hn H1 Hk. unfold next_field. destruct (get_next_field_total (gf_data f) pos size Hp Hm Hn) as [-> |(a & b & Ea & Ha & ->)]; opt.
  - eexists. split; [reflexivity |]. replace (set_data f (gf_data f)) with f by by destruct f. done.
  - pose proof (zlen_nonneg a). pose proof (zlen_nonneg b). set (t := take (Z.to_nat pos) (gf_data f)).
    assert (zlen t = pos) as Et by (apply zlen_take; lia). assert (length t = Z.to_nat pos) as El by (unfold zlen in Et; lia).
    assert (gf_data f = t ++ a ++ COLON :: b) as Ed by (unfold t; rewrite <- Ea; symmetry; apply take_drop).
    apply Hk.
    + rewrite Ed. by rewrite !zlen_app, !zlen_cons.
    + lia.
    + done.
    + rewrite !zlen_app, zlen_cons. lia.
    + rewrite app_assoc. apply lookup_app_Some. right. rewrite length_app. unfold zlen in *. split; [lia |].
      replace (_ - _)%nat with 0%nat by lia. done.
    + change (take (Z.to_nat pos) (gf_data f)) with t. rewrite <- El. by rewrite take_app_length.
Qed.

(** a record of the other side is read inside its memory whatever its bytes.
    [get_getent_fields] returns 0 or -1 for any record, the memory keeps its size,
    and when it returns 0 the name is a string without a NUL inside the memory. *)
Theorem getent_fields_bounds (m : bytes) (f : getent_fields) : zlen m < 2 ^ 31 ->
  exists r f', get_getent_fields m (zlen m) f = Some (r, f') /\ (r = 0 \/ r = -1) /\ zlen (gf_data f') = zlen m /\
    (r = 0 -> exists n, getent_name f' = Some n /\ no_nul n /\ zlen n = gf_len f').
Proof.
  intros Hm. pose proof (zlen_nonneg m) as Hm0.
  set (P := fun x : Z * getent_fields => (x.1 = 0 \/ x.1 = -1) /\ zlen (gf_data x.2) = zlen m /\ (x.1 = 0 -> name_kept x.2 (1 + zlen m))).
  assert (exists x, get_getent_fields m (zlen m) f = Some x /\ P x) as ([r f'] & E & Hr & Hl & Hk).
  2: { exists r, f'. split_and!; [done | done | done |]. intros E0. destruct (Hk E0) as (Hn & Hlen & Hz). cbn [fst snd] in *.
       unfold getent_name. rewrite Hn, mem_read_Some by lia. eexists. split; [reflexivity |]. split; [exact Hz |]. change (drop (Z.to_nat 0) (gf_data f')) with (gf_data f'). apply zlen_take. lia. }
  assert (forall g, zlen (gf_data g) = zlen m -> P (-1, g)) as Hbad by (intros g Hg; split_and!; [by right | done | done]).
  unfold get_getent_fields. rewrite (sgn_small 32 (zlen m)) by lia. apply next_field_total; [lia | cbn; lia | done | by apply Hbad |].
  intros m1 p1 s1 L1 Hp1 Hs1 E1 Z1 _. cbn [gf_data set_data set_getname] in *.
  destruct (strlen_exists _ _ Z1) as (n & -> & Hn & Hz). opt. rewrite u32_id by (unfold is_u32; lia).
  set (f1 := UserMap.set_len (set_data (set_getname f m) m1) n). assert (name_kept f1 p1) as K1 by (split_and!; cbn; [done | lia | lia | done]).
  apply next_field_total; [lia | cbn; lia | cbn; lia | by apply Hbad |].
  intros m2 p2 s2 L2 Hp2 Hs2 E2 Z2 T2. cbn [gf_data set_data UserMap.set_len f1] in L2, T2.
  pose proof (name_kept_data f1 m2 p1 p2 K1 ltac:(lia) T2) as K2. set (f2 := set_data f1 m2) in *.
  apply next_field_total; [lia | cbn; lia | cbn; lia | apply Hbad; cbn; lia |].
  intros m3 p3 s3 L3 Hp3 Hs3 E3 Z3 T3. cbn [gf_data set_data f2] in L3, T3.
  pose proof (name_kept_data f2 m3 p2 p3 K2 ltac:(lia) T3) as K3. set (f3 := set_data f2 m3) in *.
  change (gf_data f3) with m3. destruct (atoi_field m3 p2 p3) as [id ->]; [lia | done |]. opt. cbn [gf_flags set_id set_data UserMap.set_len set_getname f1 f2 f3].
  destruct (has (gf_flags f) GETENT_FLAG_GROUP).
  { eexists. split; [reflexivity |]. split_and!; [by left | cbn; lia |]. intros _. destruct K3 as (? & ? & ?). split_and!; [done | cbn in *; lia | cbn in *; lia | done]. }
  apply next_field_total; [lia | cbn; lia | cbn; lia | apply Hbad; cbn; lia |].
  intros m4 p4 s4 L4 Hp4 Hs4 E4 Z4 T4. cbn [gf_data set_data set_id f3] in L4, T4.
  pose proof (name_kept_data f3 m4 p3 p4 K3 ltac:(lia) T4) as K4. destruct (atoi_field m4 p3 p4) as [id2 E5]; [lia | done |].
  change (gf_data (set_data (set_id f3 (u32 id)) m4)) with m4. rewrite E5. opt.
  apply next_field_total; [lia | cbn; lia | cbn; lia | apply Hbad; cbn; lia |].
  intros m5 p5 s5 L5 Hp5 Hs5 E6 Z5 T5. cbn [gf_data set_data set_id set_fullname] in L5, T5. cbn [gf_data set_data set_home].
  pose proof (name_kept_data (set_data f3 m4) m5 p4 p5 K4 ltac:(lia) T5) as K5.
  destruct (get_next_field_total m5 p5 s5) as [-> |(a & b & Ea & _ & ->)]; [lia | lia | lia | |]; opt; eexists; (split; [reflexivity |]).
  - split_and!; [by left | cbn; lia |]. intros _. destruct K5 as (? & ? & ?). split_and!; [done | cbn in *; lia | cbn in *; lia | done].
  - assert (zlen (take (Z.to_nat p5) m5) = p5) as Et by (apply zlen_take; lia).
    split_and!; [by left | |].
    + cbn [snd set_data gf_data fst]. rewrite zlen_app, Et.
      assert (zlen (at_place m5 p5) = zlen m5 - p5) as Ez by (apply zlen_drop; lia). rewrite Ea in Ez. rewrite !zlen_app, !zlen_cons in *. lia.
    + intros _. cbn [snd fst]. apply (name_kept_data (set_data (set_data f3 m4) m5) (take (Z.to_nat p5) m5 ++ a ++ 0 :: b) p5 _ K5); [lia |].
      cbn [gf_data set_data]. assert (length (take (Z.to_nat p5) m5) = Z.to_nat p5) as El by (unfold zlen in Et; lia). rewrite <- El at 1. by rewrite take_app_length.
Qed.

(** ** Rows of the list of users *)

(** The scan of a row ends, inside the row, whatever its bytes: the fuel, the length
    of the row and one more, is enough, and as many places are kept as there is
    room for. *)
Lemma scan_parts_total fuel : forall data len count pos ctr ptr, zlen data = len -> 0 <= pos <= len -> 0 <= ctr ->
  (Z.to_nat (len - pos) < fuel)%nat -> 0 <= count -> zlen ptr = Z.min ctr count ->
  exists data' ptr' n, scan_parts fuel data len count pos ctr ptr = Ret (data', ptr', n) /\ zlen data' = len /\ ctr < n /\ zlen ptr' = Z.min n count.
Proof.
  induction fuel as [|fuel IH]; intros data len count pos ctr ptr Hd Hp Hc Hf Hn Hl; [lia |]. cbn [scan_parts].
  assert (zlen (if ctr <? count then ptr ++ [pos] else ptr) = Z.min (ctr + 1) count) as Hl'.
  { destruct (Z.ltb_spec ctr count); [rewrite zlen_app, zlen_cons, (zlen_nil (A := Z)) |]; lia. }
  assert (zlen (at_place data pos) = len - pos) as Ez by (unfold at_place; rewrite zlen_drop; lia).
  destruct (memchr_cases (at_place data pos) COLON (Z.to_nat (len - pos))) as [-> |(a & b & Ea & _ & Hla & ->)]; [unfold zlen in Ez; lia | |]; cbn [lift outcome_bind].
  - eexists _, _, _. split; [reflexivity |]. split_and!; [done | lia | done].
  - pose proof (zlen_nonneg a). assert (pos + zlen a < len) as Hlt by (unfold zlen; lia).
    assert (exists data', (if 0 <? count then lift (mem_write data (pos + zlen a) [0]) else Ret data) = Ret data' /\ zlen data' = len) as (data' & -> & Hd').
    { destruct (0 <? count); [| by exists data]. destruct (mem_write data (pos + zlen a) [0]) as [d|] eqn:E.
      - exists d. split; [done |]. by rewrite (mem_write_len _ _ _ _ E).
      - rewrite mem_write_Some in E by (rewrite ?zlen_cons, ?(zlen_nil (A := Z)); lia). done. }
    cbn [outcome_bind]. destruct (Z.ltb_spec (pos + zlen a + 1) len).
    + destruct (IH data' len count (pos + zlen a + 1) (ctr + 1) (if ctr <? count then ptr ++ [pos] else ptr)) as (d & p & n & -> & ? & ? & ?); [done | lia | lia | lia | done | done |].
      exists d, p, n. split_and!; [done | done | lia | done].
    + eexists _, _, _. split; [reflexivity |]. split_and!; [done | lia | done].
Qed.

Lemma scan_total data count : 0 <= count ->
  exists data' ptr n, scan_str2array data (zlen data) count = Ret (data', ptr, n) /\ zlen data' = zlen data /\ 0 < n /\ zlen ptr = Z.min n count.
Proof.
  intros Hc. pose proof (zlen_nonneg data). apply scan_parts_total; [done | lia | done | unfold zlen; lia | done | rewrite (zlen_nil (A := Z)); lia].
Qed.

(** ** Well formed records *)

Definition passwd_line (name pw uid gid gecos rest : bytes) : bytes :=
  name ++ COLON :: pw ++ COLON :: uid ++ COLON :: gid ++ COLON :: gecos ++ COLON :: rest.
Definition group_line (name pw gid members : bytes) : bytes := name ++ COLON :: pw ++ COLON :: gid ++ COLON :: members.

(** The number a field stands for. *)
Definition number (s : bytes) : Z := u32 (sgn 32 (Z.max (- 2 ^ 63) (Z.min (2 ^ 63 - 1) (SshCipher.atoi s)))).

Definition field_ok (s : bytes) : Prop := no_colon s /\ no_nul s.

Lemma atoi_at pre s b : no_nul s -> exists id, atoi (at_place ((pre ++ s ++ [0]) ++ b) (zlen pre)) = Some id /\ u32 id = number s.
Proof.
  intros Hs. unfold atoi. rewrite <- app_assoc, at_place_app, <- app_assoc. cbn [app]. rewrite cstring_app by done. opt. by eexists.
Qed.

Lemma getent_name_front f name b : gf_name f = Some 0 -> gf_len f = zlen name -> gf_data f = name ++ b -> getent_name f = Some name.
Proof.
  intros Hn Hl Hd. unfold getent_name. pose proof (zlen_nonneg name). pose proof (zlen_nonneg b).
  rewrite Hn, Hl, Hd, mem_read_Some by (rewrite ?zlen_app; lia). f_equal. change (drop (Z.to_nat 0) (name ++ b)) with (name ++ b).
  unfold zlen. by rewrite Nat2Z.id, take_app_length.
Qed.

(** One step over the field [a] of a record that is known up to [pre]. *)
Lemma field_step f pre a b k : gf_data f = pre ++ a ++ COLON :: b -> field_ok a -> zlen (gf_data f) < 2 ^ 31 ->
  next_field f (zlen pre) (zlen (a ++ COLON :: b)) k = k (set_data f ((pre ++ a ++ [0]) ++ b)) (zlen (pre ++ a ++ [0])) (zlen b).
Proof. intros Hd [Ha _] Hn. rewrite <- !app_assoc. by apply next_field_found. Qed.

Lemma step_len (pre a b : bytes) : zlen ((pre ++ a ++ [0]) ++ b) = zlen (pre ++ a ++ COLON :: b).
Proof. rewrite !zlen_app, !zlen_cons, (zlen_nil (A := Z)). lia. Qed.

(** The first two fields: the name and what is ignored. *)
Lemma first_fields f name pw b k : field_ok name -> field_ok pw -> let line := name ++ COLON :: pw ++ COLON :: b in zlen line < 2 ^ 31 ->
  let pre := ([] ++ name ++ [0]) ++ pw ++ [0] in
  let f2 := set_data (UserMap.set_len (set_data (set_getname f line) (([] ++ name ++ [0]) ++ pw ++ COLON :: b)) (zlen name)) (pre ++ b) in
  next_field (set_getname f line) 0 (sgn 32 (zlen line)) (fun f pos left =>
    let? n := strlen (gf_data f) in next_field (UserMap.set_len f (u32 n)) pos left k) = k f2 (zlen pre) (zlen b) /\
  zlen (gf_data f2) < 2 ^ 31.
Proof.
  intros Hn Hp line Hl pre f2. pose proof (zlen_nonneg line). pose proof (zlen_nonneg name).
  assert (zlen name <= zlen line) as Hnl by (unfold line; rewrite zlen_app; match goal with |- context [_ + zlen ?x] => pose proof (zlen_nonneg x) end; lia).
  split; [| unfold f2, pre; cbn [gf_data set_data]; rewrite step_len, step_len; exact Hl].
  rewrite (sgn_small 32) by lia. rewrite (field_step (set_getname f line) [] name (pw ++ COLON :: b)) by done. cbn [gf_data set_data].
  rewrite <- app_assoc. cbn [app]. rewrite <- app_assoc. cbn [app]. rewrite strlen_app by apply Hn. opt. rewrite u32_id by (unfold is_u32; lia).
  change (name ++ 0 :: pw ++ COLON :: b) with (name ++ [0] ++ pw ++ COLON :: b). rewrite (app_assoc name [0]). change (name ++ [0]) with ([] ++ name ++ [0]).
  rewrite (field_step _ ([] ++ name ++ [0]) pw b); [done | done | done |]. cbn [gf_data set_data UserMap.set_len]. rewrite step_len. exact Hl.
Qed.

Lemma get_group_line f name pw gid members : has (gf_flags f) GETENT_FLAG_GROUP = true ->
  field_ok name -> field_ok pw -> field_ok gid -> zlen (group_line name pw gid members) < 2 ^ 31 ->
  exists f', get_getent_fields (group_line name pw gid members) (zlen (group_line name pw gid members)) f = Some (0, f') /\
    getent_name f' = Some name /\ gf_len f' = zlen name /\ gf_id f' = number gid.
Proof.
  intros Hf Hn Hp Hg Hz. unfold get_getent_fields, group_line in *.
  match goal with |- context [next_field _ _ _ (fun f pos left => let? n := _ in next_field _ pos left ?k)] =>
    destruct (first_fields f name pw (gid ++ COLON :: members) k Hn Hp Hz) as [E Hl] end.
  rewrite E. clear E. rewrite field_step by done. cbn [gf_data set_data].
  destruct (atoi_at (([] ++ name ++ [0]) ++ pw ++ [0]) gid members) as (id & -> & Eid); [apply Hg |]. opt.
  cbn [gf_flags set_id set_data UserMap.set_len set_getname]. rewrite Hf. eexists. split; [reflexivity |]. split; [| done].
  eapply getent_name_front; [done | done |]. cbn [gf_data set_data set_id app]. by rewrite <- !app_assoc.
Qed.

Lemma get_passwd_line f name pw uid gid gecos rest : has (gf_flags f) GETENT_FLAG_GROUP = false ->
  field_ok name -> field_ok pw -> field_ok uid -> field_ok gid -> field_ok gecos -> zlen (passwd_line name pw uid gid gecos rest) < 2 ^ 31 ->
  exists f', get_getent_fields (passwd_line name pw uid gid gecos rest) (zlen (passwd_line name pw uid gid gecos rest)) f = Some (0, f') /\
    getent_name f' = Some name /\ gf_len f' = zlen name /\ gf_id f' = number gid.
Proof.
  intros Hf Hn Hp Hu Hg Hc Hz. unfold get_getent_fields, passwd_line in *.
  match goal with |- context [next_field _ _ _ (fun f pos left => let? n := _ in next_field _ pos left ?k)] =>
    destruct (first_fields f name pw (uid ++ COLON :: gid ++ COLON :: gecos ++ COLON :: rest) k Hn Hp Hz) as [E Hl] end.
  rewrite E. clear E. rewrite field_step by done. cbn [gf_data set_data] in *. set (pre := ([] ++ name ++ [0]) ++ pw ++ [0]) in *.
  destruct (atoi_at pre uid (gid ++ COLON :: gecos ++ COLON :: rest)) as (id & -> & _); [apply Hu |]. opt.
  cbn [gf_flags set_id set_data UserMap.set_len set_getname]. rewrite Hf.
  rewrite field_step; [| done | done | cbn [gf_data set_data set_id]; by rewrite step_len]. cbn [gf_data set_data].
  destruct (atoi_at (pre ++ uid ++ [0]) gid (gecos ++ COLON :: rest)) as (id2 & -> & Eid); [apply Hg |]. opt.
  rewrite field_step; [| done | done | cbn [gf_data set_data set_id set_fullname]; by rewrite !step_len].
  set (pre3 := ((pre ++ uid ++ [0]) ++ gid ++ [0]) ++ gecos ++ [0]). cbn [gf_data set_data set_home].
  assert (exists b, pre3 = name ++ b) as [b Eb] by (unfold pre3, pre; cbn [app]; rewrite <- !app_assoc; by eexists).
  destruct (get_next_field_total (pre3 ++ rest) (zlen pre3) (zlen rest)) as [-> |(a & c & _ & _ & ->)];
    [apply zlen_nonneg | rewrite zlen_app; pose proof (zlen_nonneg rest); lia | unfold pre3; by rewrite !step_len | |]; opt.
  all: eexists; (split; [reflexivity |]); (split; [| done]); eapply getent_name_front; [done | done | cbn [gf_data set_data fst]].
  - rewrite Eb. by rewrite <- app_assoc.
  - replace (take (Z.to_nat (zlen pre3)) (pre3 ++ rest)) with pre3 by (unfold zlen; by rewrite Nat2Z.id, take_app_length). rewrite Eb. by rewrite <- app_assoc.
Qed.

(** ** The client *)

Section Client.
Context (db : userdb) {C : Type} (uc : userscache C) (pwd : Z * Z) (a : answers).
Context (name pw uid gid gecos rest gname gpw ggid members : bytes).

Definition records_received : Prop :=
  an_user a = Some (passwd_line name pw uid gid gecos rest) /\ an_group a = Some (group_line gname gpw ggid members) /\
  Forall field_ok [name; pw; uid; gid; gecos; gname; gpw; ggid] /\
  zlen (passwd_line name pw uid gid gecos rest) < 2 ^ 31 /\ zlen (group_line gname gpw ggid members) < 2 ^ 31.

Hypothesis received : records_received.

Definition unknown_ids : Z * Z := default (2 ^ 32 - 1, 2 ^ 32 - 1) (unknown_user db (an_unknown a) (an_nobody a)).

(** What is known of the other side after the two records. *)
Definition remote_known (m : net_idmapping C) : Prop :=
  m_pwd m = Some pwd /\ m_unknown_uid m = unknown_ids.1 /\ m_unknown_gid m = unknown_ids.2 /\ m_cache m = None /\
  gf_id (m_su m) = number gid /\ getent_name (m_su m) = Some name /\ gf_len (m_su m) = zlen name /\
  gf_id (m_sg m) = number ggid /\ getent_name (m_sg m) = Some gname /\ gf_len (m_sg m) = zlen gname.

Lemma identity_received fl : let m := set_flags (init_net_idmapping (C := C) pwd) fl in
  exists m', get_remote_identity_getents (an_user a) (an_group a) (get_local_unknown_user db (an_unknown a) (an_nobody a) m) = Some (0, m') /\
    remote_known m' /\ m_flags m' = fl /\ m_setup_done m' = false.
Proof.
  intros m. destruct received as (-> & -> & Hf & Hl & Hgl).
  do 8 (apply Forall_cons_iff in Hf; destruct Hf as [? Hf]).
  unfold get_remote_identity_getents, get_remote_getent.
  set (m1 := get_local_unknown_user db (an_unknown a) (an_nobody a) m).
  assert (m_su m1 = init_getent_fields /\ m_sg m1 = init_getent_fields /\ m_unknown_uid m1 = unknown_ids.1 /\ m_unknown_gid m1 = unknown_ids.2 /\
    m_pwd m1 = Some pwd /\ m_cache m1 = None /\ m_flags m1 = fl /\ m_setup_done m1 = false) as (-> & -> & Hu & Hg & Hp & Hc & Hfl & Hs).
  { unfold m1, get_local_unknown_user, unknown_ids. by destruct (unknown_user db _ _). }
  match goal with |- context [get_getent_fields (passwd_line _ _ _ _ _ _) _ ?f] => destruct (get_passwd_line f name pw uid gid gecos rest) as (u & -> & Hu1 & Hu2 & Hu3) end; try done.
  opt. match goal with |- context [get_getent_fields (group_line _ _ _ _) _ ?f] => destruct (get_group_line f gname gpw ggid members) as (g & -> & Hg1 & Hg2 & Hg3) end; try done.
  opt. eexists. split; [reflexivity |]. unfold remote_known. cbn. by rewrite Hu, Hg, Hp.
Qed.

(** The callbacks a set up ends with. *)
Lemma mapping_set_up create flags (shared : bool) : (forall fl, create fl = None) ->
  an_type a = Some (lit (if shared then "shared" else "nonshared")) -> flags = NET_IDMAPPING_FLAG_MAPBYID \/ flags = NET_IDMAPPING_FLAG_MAPBYNAME ->
  exists m, setup_net_usermapping db uc create a (init_net_idmapping pwd) flags = Ret (1, m) /\ remote_known m /\ m_setup_done m = true /\
    let byid := flags =? NET_IDMAPPING_FLAG_MAPBYID in
    m_user_p2l m = (match shared, byid with true, true => P2lSharedById | true, false => P2lSharedByName | false, true => P2lNonsharedById | false, false => P2lNonsharedByName end) /\
    m_group_p2l m = m_user_p2l m /\ m_user_l2p m = (if byid then L2pById else L2pByNameServer) /\ m_group_l2p m = m_user_l2p m /\
    m_lookup_user m = (match shared, byid with true, true => LookupByIdMap | false, true => LookupByIdSystem | _, false => LookupByNameSystem end) /\ m_lookup_group m = m_lookup_user m.
Proof.
  intros Hc Ht Hfl. unfold setup_net_usermapping.
  replace (negb (has flags MAPBY)) with false by (by destruct Hfl as [-> | ->]).
  change (has (m_flags (init_net_idmapping (C := C) pwd)) (Z.lor NET_IDMAPPING_FLAG_STARTED NET_IDMAPPING_FLAG_COMPLETE)) with false. cbv iota zeta.
  set (fl0 := Z.lor (m_flags (init_net_idmapping (C := C) pwd)) NET_IDMAPPING_FLAG_STARTED).
  destruct (identity_received fl0) as (m & -> & Hk & Hf & Hs). cbn [lift outcome_bind fst snd Z.eqb].
  rewrite Hf, Ht. unfold setup_cache. cbn [m_flags set_flags]. destruct Hk as (K1 & K2 & K3 & K4 & K5).
  destruct shared, Hfl as [-> | ->];
    match goal with |- context [has (mapping_type ?x ?y) ?z] => let b := eval vm_compute in (has (mapping_type x y) z) in change (has (mapping_type x y) z) with b end;
    cbv iota; rewrite ?Hc; cbn [m_cache set_cache outcome_bind];
    (eexists; split; [reflexivity |]; split; [split_and!; try done; apply K5 | done]).
Qed.

(** a client of version 3 gives every remote owner a local one. After the set
    up without a shared database, the id of the record is the connecting user, 0
    is root, an id the local database knows is itself, and any other is the user
    "unknown" or "nobody"; the same for groups. The id of the record of the user
    is that of its group: [get_getent_fields] writes it over the uid. A second
    set up changes nothing. *)
Theorem client_ids_mapped (create : Z -> option C) (version : Z) : version <= 3 -> (forall fl, create fl = None) -> an_type a = Some (lit "nonshared") ->
  exists m, get_sftp_usermapping db uc create a version (init_net_idmapping pwd) = Ret (1, m) /\
    (forall e, exists e', get_user_p2l db uc m e = Some e' /\ ne_localid e' =
       if ne_id e =? number gid then pwd.1 else if ne_id e =? 0 then 0 else match getpwuid db (ne_id e) with Some _ => ne_id e | None => unknown_ids.1 end) /\
    (forall e, exists e', get_group_p2l db uc m e = Some e' /\ ne_localid e' =
       if ne_id e =? number ggid then pwd.2 else if ne_id e =? 0 then 0 else match getgrgid db (ne_id e) with Some _ => ne_id e | None => unknown_ids.2 end) /\
    forall create' a' v', get_sftp_usermapping db uc create' a' v' m = Ret (0, m).
Proof.
  intros Hv Hc Ht. unfold get_sftp_usermapping at 1. rewrite (proj2 (Z.ltb_ge _ _)) by lia.
  change (m_setup_done (init_net_idmapping (C := C) pwd)) with false. cbv iota.
  destruct (mapping_set_up create NET_IDMAPPING_FLAG_MAPBYID false Hc Ht) as (m & -> & (Hp & Hu & Hg & _ & Hsu & _ & _ & Hsg & _) & Hd & Epu & Epg & _ & _ & Elu & Elg); [by left |].
  exists m. split; [done |]. cbn in Epu, Elu. split_and!.
  - intros e. unfold get_user_p2l. rewrite Epu. unfold get_user_p2l_nonshared_byid. cbn [ne_id set_localid]. rewrite Hsu.
    destruct (ne_id e =? number gid); [rewrite Hp; opt; by (eexists; split) |]. destruct (ne_id e =? 0); [by (eexists; split) |]. unfold lookup_user. rewrite Elu. opt.
    unfold lookup_user_byid_system, get_local_uid_byid. cbn [ne_id set_localid ne_localid]. eexists. split; [reflexivity |].
    rewrite Hu. by destruct (getpwuid db (ne_id e)).
  - intros e. unfold get_group_p2l. rewrite Epg, Epu. unfold get_group_p2l_nonshared_byid. cbn [ne_id set_localid]. rewrite Hsg.
    destruct (ne_id e =? number ggid); [rewrite Hp; opt; by (eexists; split) |]. destruct (ne_id e =? 0); [by (eexists; split) |]. unfold lookup_group. rewrite Elg, Elu. opt.
    unfold lookup_group_byid_system, get_local_gid_byid. cbn [ne_id set_localid ne_localid]. eexists. split; [reflexivity |].
    rewrite Hg. by destruct (getgrgid db (ne_id e)).
  - intros create' a' v'. unfold get_sftp_usermapping. by rewrite Hd.
Qed.

(** *** Names *)

(** The byte that is looked for is not there. *)
Definition uncut (p : bytes) (len : Z) : Prop := (64 <= length p)%nat /\ Forall (fun x => x <> u8 len) (take 64 p).

(** The name [n] in front of the memory of an entity. *)
Definition named (e : net_entity) (n : bytes) : Prop :=
  exists post, ne_name e = Some (n ++ post) /\ ne_len e = zlen n /\ uncut (n ++ post) (zlen n).

Lemma cut_absent e n id : named e n -> cut_domain (set_localid e id) = Some (false, set_localid e id).
Proof.
  intros (post & Hp & Hl & Hn & Hu). unfold cut_domain. cbn [ne_name ne_len set_localid]. rewrite Hp, Hl. opt.
  by rewrite memchr_absent.
Qed.

Lemma read_front (n post : bytes) : mem_read (n ++ post) 0 (zlen n) = Some n.
Proof.
  pose proof (zlen_nonneg n). pose proof (zlen_nonneg post). rewrite mem_read_Some by (rewrite ?zlen_app; lia). f_equal.
  change (drop (Z.to_nat 0) (n ++ post)) with (n ++ post). unfold zlen. by rewrite Nat2Z.id, take_app_length.
Qed.

Lemma write_front (n p : bytes) : zlen n <= zlen p -> mem_write p 0 n = Some (n ++ drop (length n) p).
Proof. intros H. by rewrite mem_write_Some by lia. Qed.

Lemma same_name_eq e n x id : named e n -> same_name (set_localid e id) (zlen x) (Some x) = Some (bytes_eqb n x).
Proof.
  intros (post & Hp & Hl & _). unfold same_name. cbn [ne_name ne_len set_localid]. rewrite Hp, Hl. destruct (Z.eqb_spec (zlen n) (zlen x)) as [E|E].
  - opt. rewrite <- E, read_front. by opt.
  - symmetry. f_equal. apply bool_decide_eq_false_2. intros ->. done.
Qed.

Lemma name_copied e n id : named e n -> no_nul n -> exists tmp, name_copy (set_localid e id) = Some tmp /\ cstring tmp = Some n.
Proof.
  intros (post & Hp & Hl & _) Hn. unfold name_copy. cbn [ne_name ne_len set_localid]. rewrite Hp, Hl. opt. rewrite read_front. opt.
  eexists. split; [reflexivity |]. by apply (cstring_app n []).
Qed.

(** C25: a client of a later version maps names. After the set up without a shared
    database, the name of the record is the connecting user, "root" is 0, a name
    the local database has is its user, any other is the unknown user; the same
    for groups; the message is not changed. It needs that the byte with the value
    of the length of the name is not among the 64 bytes from the name on: the
    search for an '@' has its arguments in the wrong order. *)
Theorem client_names_mapped (create : Z -> option C) (version : Z) : 3 < version -> (forall fl, create fl = None) -> an_type a = Some (lit "nonshared") ->
  exists m, get_sftp_usermapping db uc create a version (init_net_idmapping pwd) = Ret (1, m) /\
    (forall e n, named e n -> no_nul n -> exists e', get_user_p2l db uc m e = Some e' /\ ne_name e' = ne_name e /\ ne_localid e' =
       if bytes_eqb n name then pwd.1 else if bytes_eqb n (lit "root") then 0 else match getpwnam db n with Some x => x.1 | None => unknown_ids.1 end) /\
    (forall e n, named e n -> no_nul n -> exists e', get_group_p2l db uc m e = Some e' /\ ne_name e' = ne_name e /\ ne_localid e' =
       if bytes_eqb n gname then pwd.2 else if bytes_eqb n (lit "root") then 0 else match getgrnam db n with Some x => x | None => unknown_ids.2 end).
Proof.
  intros Hv Hc Ht. unfold get_sftp_usermapping. rewrite (proj2 (Z.ltb_lt _ _)) by lia.
  change (m_setup_done (init_net_idmapping (C := C) pwd)) with false. cbv iota.
  destruct (mapping_set_up create NET_IDMAPPING_FLAG_MAPBYNAME false Hc Ht) as (m & -> & (Hp & Hu & Hg & _ & _ & Hsn & Hsl & _ & Hgn & Hgl) & Hd & Epu & Epg & _ & _ & Elu & Elg); [by right |].
  exists m. split; [done |]. cbn in Epu, Elu. split.
  - intros e n He Hn. unfold get_user_p2l. rewrite Epu. unfold get_user_p2l_nonshared_byname. rewrite (cut_absent e n) by done. opt. cbn [fst snd].
    rewrite Hsl, Hsn, (same_name_eq e n) by done. opt. destruct (bytes_eqb n name); [rewrite Hp; opt; by (eexists; split) |].
    change 4 with (zlen (lit "root")). rewrite (same_name_eq e n) by done. opt. destruct (bytes_eqb n _); [by (eexists; split) |].
    unfold lookup_user. rewrite Elu. unfold lookup_user_byname_system. destruct (name_copied e n (m_unknown_uid m) He Hn) as (tmp & -> & Et). opt.
    unfold get_local_uid_byname. rewrite Et. opt. eexists. split; [reflexivity |]. cbn. rewrite Hu. by destruct (getpwnam db n).
  - intros e n He Hn. unfold get_group_p2l. rewrite Epg, Epu. unfold get_group_p2l_nonshared_byname. rewrite (cut_absent e n) by done. opt. cbn [fst snd].
    rewrite Hgl, Hgn, (same_name_eq e n) by done. opt. destruct (bytes_eqb n gname); [rewrite Hp; opt; by (eexists; split) |].
    change 4 with (zlen (lit "root")). rewrite (same_name_eq e n) by done. opt. destruct (bytes_eqb n _); [by (eexists; split) |].
    unfold lookup_group. rewrite Elg, Elu. unfold lookup_group_byname_system. destruct (name_copied e n (m_unknown_gid m) He Hn) as (tmp & -> & Et). opt.
    unfold get_local_gid_byname. rewrite Et. opt. eexists. split; [reflexivity |]. cbn. rewrite Hg. by destruct (getgrnam db n).
Qed.

(** A name that is found is put in front of the space the entity has. *)
Lemma name_put e p n : ne_name e = Some p -> zlen n <= zlen p -> zlen n < 2 ^ 32 ->
  exists w, _cb_id_found e n = Some w /\ ne_name w = Some (n ++ drop (length n) p) /\ ne_len w = zlen n.
Proof.
  intros Hp Hl Hl2. pose proof (zlen_nonneg n). unfold _cb_id_found. rewrite Hp. opt. rewrite write_front by done. opt.
  rewrite u32_id by (unfold is_u32; lia). by eexists.
Qed.

(** The server of a later version writes names. *)
Lemma server_names v pwd' e : 3 < v ->
  get_user_l2p db (setup_sftp_idmapping (C := C) v (init_net_idmapping pwd')) e = get_user_l2p_byname_server db e /\
  get_group_l2p db (setup_sftp_idmapping (C := C) v (init_net_idmapping pwd')) e = get_group_l2p_byname_server db e.
Proof. intros Hv. unfold setup_sftp_idmapping. by rewrite (proj2 (Z.ltb_lt _ _)) by lia. Qed.

(** The names of a shared database are those of the system. *)
Lemma shared_user_read (m : net_idmapping C) r n i g : m_user_p2l m = P2lSharedByName -> m_lookup_user m = LookupByNameSystem ->
  named r n -> no_nul n -> getpwnam db n = Some (i, g) -> get_user_p2l db uc m r = Some (set_localid r i).
Proof.
  intros Epu Elu Hr Hz Hn. unfold get_user_p2l. rewrite Epu. cbn iota. unfold get_user_p2l_shared_byname. rewrite (cut_absent r n) by done. opt. cbn [snd].
  unfold lookup_user. rewrite Elu. cbn iota. unfold lookup_user_byname_system. destruct (name_copied r n (m_unknown_uid m) Hr Hz) as (tmp & -> & Et). opt.
  unfold get_local_uid_byname. rewrite Et. opt. by rewrite Hn.
Qed.

Lemma shared_group_read (m : net_idmapping C) r n i : m_group_p2l m = P2lSharedByName -> m_lookup_group m = LookupByNameSystem ->
  named r n -> no_nul n -> getgrnam db n = Some i -> get_group_p2l db uc m r = Some (set_localid r i).
Proof.
  intros Epu Elu Hr Hz Hn. unfold get_group_p2l. rewrite Epu. cbn iota. unfold get_group_p2l_shared_byname. rewrite (cut_absent r n) by done. opt. cbn [snd].
  unfold lookup_group. rewrite Elu. cbn iota. unfold lookup_group_byname_system. destruct (name_copied r n (m_unknown_gid m) Hr Hz) as (tmp & -> & Et). opt.
  unfold get_local_gid_byname. rewrite Et. opt. by rewrite Hn.
Qed.

(** names go to the client and back to the same id. The server of a later
    version writes the name of the owner in front of the space it is given; a
    client with the same database ("shared") that reads it, where the search does
    not find the length, gets the id of the owner again. *)
Theorem shared_names_roundtrip (create : Z -> option C) (v : Z) (pwd' : Z * Z) (e : net_entity) (p n : bytes) (g : Z) :
  3 < v -> (forall fl, create fl = None) -> an_type a = Some (lit "shared") ->
  getpwuid db (ne_localid e) = Some n -> getpwnam db n = Some (ne_localid e, g) -> no_nul n ->
  ne_name e = Some p -> zlen n <= zlen p -> zlen n < 2 ^ 32 -> uncut (n ++ drop (length n) p) (zlen n) ->
  exists w m, get_user_l2p db (setup_sftp_idmapping (C := C) v (init_net_idmapping pwd')) e = Some w /\
    ne_name w = Some (n ++ drop (length n) p) /\ ne_len w = zlen n /\
    get_sftp_usermapping db uc create a v (init_net_idmapping pwd) = Ret (1, m) /\
    (forall r, ne_name r = ne_name w -> ne_len r = ne_len w -> get_user_p2l db uc m r = Some (set_localid r (ne_localid e))).
Proof.
  intros Hv Hc Ht Hu Hn Hz Hp Hl Hl2 Hcut.
  destruct (mapping_set_up create NET_IDMAPPING_FLAG_MAPBYNAME true Hc Ht) as (m & Em & _ & _ & Epu & _ & _ & _ & Elu & _); [by right |].
  destruct (server_names v pwd' e Hv) as [-> _]. unfold get_user_l2p_byname_server. rewrite Hu.
  destruct (name_put e p n Hp Hl Hl2) as (w & -> & Hw & Hwl). exists w, m. split_and!; [done | done | done | |].
  - unfold get_sftp_usermapping. rewrite (proj2 (Z.ltb_lt _ _)) by lia. exact Em.
  - intros r Hr Hrl. rewrite Hw in Hr. rewrite Hwl in Hrl. eapply (shared_user_read m r n); [exact Epu | exact Elu | | done | exact Hn].
    exists (drop (length n) p). by split_and!.
Qed.

End Client.

(** ** Where the code does something else *)

(** the server of version 3 tells every client that root owns everything: the
    record of the remote user, which [get_user_l2p_byid] sends, is never filled on
    the side of the server. *)
Theorem server_ids_zero (C : Type) (db : userdb) (pwd : Z * Z) (version : Z) (e : net_entity) : version <= 3 ->
  let m := setup_sftp_idmapping (C := C) version (init_net_idmapping pwd) in
  get_user_l2p db m e = Some (set_netid e 0) /\ get_group_l2p db m e = Some (set_netid e 0).
Proof.
  intros Hv m. assert (m_user_l2p m = L2pById /\ m_group_l2p m = L2pById /\ gf_id (m_su m) = 0 /\ gf_id (m_sg m) = 0) as (Eu & Eg & Iu & Ig).
  { unfold m, setup_sftp_idmapping. by rewrite (proj2 (Z.ltb_ge _ _)) by lia. }
  unfold get_user_l2p, get_group_l2p, get_user_l2p_byid, get_group_l2p_byid. rewrite Eu, Eg, Iu, Ig. by destruct (ne_localid e =? 0).
Qed.

Lemma server_ids_zero_witness :
  let m := setup_sftp_idmapping (C := unit) 3 (init_net_idmapping (1000, 1000)) in
  get_user_l2p (mk_db (fun _ => None) (fun _ => None) (fun _ => None) (fun _ => None)) m (mk_ent 0 None 0 None 0 7 1000) = Some (mk_ent 0 None 0 None 0 0 1000) /\
  get_group_l2p (mk_db (fun _ => None) (fun _ => None) (fun _ => None) (fun _ => None)) m (mk_ent 0 None 0 None 0 7 1000) = Some (mk_ent 0 None 0 None 0 0 1000).
Proof. apply (server_ids_zero unit _ (1000, 1000) 3 (mk_ent 0 None 0 None 0 7 1000)). done. Defined.

(** an owner and a group with names of the same length: the search for an '@'
    finds the last byte of the length of the group, which is overwritten with 0,
    so that the message has a group without a name, and the name of the owner is
    taken to be three bytes longer. *)
Theorem separator_is_length (e : net_entity) (n post : bytes) : 0 < zlen n < 60 -> Forall (fun x => x <> zlen n) n ->
  ne_name e = Some (n ++ be_encode 4 (zlen n) ++ post) -> ne_len e = zlen n ->
  exists e', cut_domain e = Some (true, e') /\ ne_name e' = Some (n ++ be_encode 4 0 ++ post) /\ ne_len e' = zlen n + 3 /\ ne_domain_len e' = 2 ^ 32 - 4.
Proof.
  intros Hn Hf Hp Hl. unfold cut_domain. rewrite Hp, Hl. opt. unfold u8. rewrite (Z.mod_small (zlen n)) by lia.
  assert (be_encode 4 (zlen n) = [0; 0; 0; zlen n]) as Eb.
  { unfold be_encode. cbn [app]. rewrite (Z.mod_small (zlen n) 256) by lia. rewrite (Z.div_small (zlen n) 256) by lia. done. }
  assert (zlen (n ++ [0; 0; 0]) = zlen n + 3) as El by by rewrite zlen_app.
  rewrite Eb. replace (n ++ [0; 0; 0; zlen n] ++ post) with ((n ++ [0; 0; 0]) ++ zlen n :: post) by by rewrite <- app_assoc.
  rewrite (memchr_found (n ++ [0; 0; 0]) (zlen n) post 64).
  - opt. rewrite mem_write_one. opt. eexists. split; [reflexivity |]. cbn [ne_name ne_len ne_domain_len]. rewrite El. split_and!.
    + by rewrite <- app_assoc.
    + apply u32_id. unfold is_u32. lia.
    + replace (zlen n - (zlen n + 3) - 1) with (-4) by lia. done.
  - apply Forall_app. split; [done |]. repeat constructor; lia.
  - rewrite length_app. unfold zlen in Hn. cbn [length]. lia.
Qed.

(** A file of root and root, as it is in a message. *)
Lemma separator_is_length_witness :
  exists e', cut_domain (mk_ent 1 (Some (lit "root" ++ be_encode 4 4 ++ lit "root")) 4 None 0 0 0) = Some (true, e') /\
    ne_name e' = Some (lit "root" ++ be_encode 4 0 ++ lit "root") /\ ne_len e' = 7 /\ ne_domain_len e' = 2 ^ 32 - 4.
Proof. apply (separator_is_length _ (lit "root") (lit "root")); [by vm_compute | repeat constructor; by vm_compute | done | done]. Defined.

(** ** Examples *)

Definition ex_db : userdb :=
  mk_db (fun n => if bytes_eqb n (lit "nobody") then Some (65534, 65533) else if bytes_eqb n (lit "alice") then Some (1000, 1001) else None)
        (fun u => if u =? 1000 then Some (lit "alice") else None)
        (fun n => if bytes_eqb n (lit "users") then Some 100 else None) (fun g => if g =? 100 then Some (lit "users") else None).

Definition ex_answers (type : string) : answers :=
  mk_answers None None (Some (passwd_line (lit "sftp") (lit "x") (lit "500") (lit "501") (lit "Sftp user") (lit "/home/sftp:/bin/sh")))
    (Some (group_line (lit "sftp") (lit "x") (lit "501") [])) (Some (lit type)) [] 0.

Definition no_cache : userscache unit := mk_uc unit (fun _ _ _ => None) (fun _ _ _ => None) (fun _ _ => None).

Lemma field_okb s : forallb (fun x => negb (x =? COLON) && negb (x =? 0)) s = true -> field_ok s.
Proof.
  intros H. split; apply Forall_forall; intros x Hx; rewrite forallb_forall in H; apply H in Hx; apply andb_true_iff in Hx as [H1 H2].
  - by apply negb_true_iff, Z.eqb_neq in H1.
  - by apply negb_true_iff, Z.eqb_neq in H2.
Qed.

Lemma ex_received type : records_received (ex_answers type) (lit "sftp") (lit "x") (lit "500") (lit "501") (lit "Sftp user") (lit "/home/sftp:/bin/sh") (lit "sftp") (lit "x") (lit "501") [].
Proof. split_and!; [done | done | repeat (apply List.Forall_cons; [by apply field_okb |]); constructor | by vm_compute | by vm_compute]. Qed.

Lemma getent_fields_bounds_witness :
  exists r f', get_getent_fields (lit "a:b:c") (zlen (lit "a:b:c")) init_getent_fields = Some (r, f') /\ (r = 0 \/ r = -1) /\ zlen (gf_data f') = zlen (lit "a:b:c") /\
    (r = 0 -> exists n, getent_name f' = Some n /\ no_nul n /\ zlen n = gf_len f').
Proof. apply (getent_fields_bounds (lit "a:b:c") init_getent_fields). by vm_compute. Defined.

(** The id of the group of the remote user, 501, is taken for the user. *)
Lemma client_ids_mapped_witness :
  exists m, get_sftp_usermapping ex_db no_cache (fun _ => None) (ex_answers "nonshared") 3 (init_net_idmapping (1000, 1001)) = Ret (1, m) /\
    exists e', get_user_p2l ex_db no_cache m (mk_ent 1 None 0 None 0 501 0) = Some e' /\ ne_localid e' = 1000.
Proof.
  destruct (client_ids_mapped ex_db no_cache (1000, 1001) (ex_answers "nonshared") _ _ _ _ _ _ _ _ _ _ (ex_received "nonshared") (fun _ => None) 3) as (m & E & Hu & _); [lia | done | done |].
  exists m. split; [exact E |]. destruct (Hu (mk_ent 1 None 0 None 0 501 0)) as (e' & E1 & E2). exists e'. split; [exact E1 |]. rewrite E2. by vm_compute.
Defined.

Definition ex_message : bytes := lit "alice" ++ be_encode 4 4 ++ lit "root" ++ repeat 0 60.

Lemma ex_uncut : uncut ex_message 5.
Proof. split; [vm_compute; lia |]. apply Forall_forall. intros x Hx ->. vm_compute in Hx. intuition discriminate. Qed.

Lemma client_names_mapped_witness :
  exists m, get_sftp_usermapping ex_db no_cache (fun _ => None) (ex_answers "nonshared") 4 (init_net_idmapping (1000, 1001)) = Ret (1, m) /\
    exists e', get_user_p2l ex_db no_cache m (mk_ent 1 (Some ex_message) 5 None 0 0 0) = Some e' /\ ne_localid e' = 1000.
Proof.
  destruct (client_names_mapped ex_db no_cache (1000, 1001) (ex_answers "nonshared") _ _ _ _ _ _ _ _ _ _ (ex_received "nonshared") (fun _ => None) 4) as (m & E & Hu & _); [lia | done | done |].
  exists m. split; [exact E |]. destruct (Hu (mk_ent 1 (Some ex_message) 5 None 0 0 0) (lit "alice")) as (e' & E1 & _ & E2).
  - exists (be_encode 4 4 ++ lit "root" ++ repeat 0 60). split_and!; [reflexivity | done | exact ex_uncut].
  - exact (proj2 (field_okb (lit "alice") eq_refl)).
  - exists e'. split; [exact E1 |]. rewrite E2. by vm_compute.
Defined.

Lemma shared_names_roundtrip_witness :
  exists w m, get_user_l2p ex_db (setup_sftp_idmapping (C := unit) 4 (init_net_idmapping (0, 0))) (mk_ent 1 (Some (repeat 0 90)) 90 None 0 0 1000) = Some w /\
    ne_len w = 5 /\ get_sftp_usermapping ex_db no_cache (fun _ => None) (ex_answers "shared") 4 (init_net_idmapping (7, 8)) = Ret (1, m) /\
    forall r, ne_name r = ne_name w -> ne_len r = ne_len w -> get_user_p2l ex_db no_cache m r = Some (set_localid r 1000).
Proof.
  destruct (shared_names_roundtrip ex_db no_cache (7, 8) (ex_answers "shared") _ _ _ _ _ _ _ _ _ _ (ex_received "shared") (fun _ => None) 4 (0, 0)
    (mk_ent 1 (Some (repeat 0 90)) 90 None 0 0 1000) (repeat 0 90) (lit "alice") 1001) as (w & m & E1 & _ & E2 & E3 & E4);
    [lia | done | done | done | done | exact (proj2 (field_okb (lit "alice") eq_refl)) | done | by vm_compute | by vm_compute | | exists w, m; by split_and!].
  split; [vm_compute; lia |]. apply Forall_forall. intros x Hx ->. vm_compute in Hx. intuition discriminate.
Defined.

End UserMap.
