(* ===== verification/SftpAttrNames.v ===== *)
(** * lib/sftp/attr: the attributes of versions 4 to 6

    From version 4 on the type is a byte of its own, owner and group are names and
    the times have 64 bits, with nanoseconds where the flag for them is set.  The
    callbacks of [read-attr-v04.c] to [read-attr-v06.c] and [write-attr-v04.c] to
    [write-attr-v06.c], their tables and orders of [init-attr-v04.c] to
    [init-attr-v06.c], on the generic part of SftpAttr.

    The names of the message are the memory of the buffer itself: the callbacks of
    the mapping, which are a record of functions here and those of UserMap in the
    last part, change it. *)

From stdpp Require Import strings base list list_numbers numbers option.
From S2P Require Import Prelude SshUint SshString NameList AttrBuffer SystemStat SftpAttr UserMap.
Import SshUint SshString AttrBuffer SystemStat SftpAttr.

Module SftpAttrNames.

Import UserMap (net_entity, mk_ent, ne_name, ne_len, ne_localid, ne_id).

Definition SSH_FILEXFER_INDEX_TYPE : nat := 32.
Definition SSH_FILEXFER_INDEX_ACCESSTIME : nat := 3.
Definition SSH_FILEXFER_INDEX_CREATETIME : nat := 4.
Definition SSH_FILEXFER_INDEX_MODIFYTIME : nat := 5.
Definition SSH_FILEXFER_INDEX_ACL : nat := 6.
Definition SSH_FILEXFER_INDEX_OWNERGROUP : nat := 7.
Definition SSH_FILEXFER_INDEX_BITS : nat := 9.
Definition SSH_FILEXFER_INDEX_ALLOCATION_SIZE : nat := 10.
Definition SSH_FILEXFER_INDEX_TEXT_HINT : nat := 11.
Definition SSH_FILEXFER_INDEX_MIME_TYPE : nat := 12.
Definition SSH_FILEXFER_INDEX_LINK_COUNT : nat := 13.
Definition SSH_FILEXFER_INDEX_UNTRANSLATED_NAME : nat := 14.
Definition SSH_FILEXFER_INDEX_CHANGETIME : nat := 15.
Definition SSH_FILEXFER_INDEX_NSEC_ATIME : nat := 33.
Definition SSH_FILEXFER_INDEX_NSEC_MTIME : nat := 34.
Definition SSH_FILEXFER_INDEX_NSEC_BTIME : nat := 35.
Definition SSH_FILEXFER_INDEX_NSEC_CTIME : nat := 36.

Definition SSH_FILEXFER_ATTR_TYPE := 0.
Definition SSH_FILEXFER_ATTR_ACCESSTIME := 2 ^ 3.
Definition SSH_FILEXFER_ATTR_CREATETIME := 2 ^ 4.
Definition SSH_FILEXFER_ATTR_MODIFYTIME := 2 ^ 5.
Definition SSH_FILEXFER_ATTR_ACL := 2 ^ 6.
Definition SSH_FILEXFER_ATTR_OWNERGROUP := 2 ^ 7.
Definition SSH_FILEXFER_ATTR_BITS := 2 ^ 9.
Definition SSH_FILEXFER_ATTR_ALLOCATION_SIZE := 2 ^ 10.
Definition SSH_FILEXFER_ATTR_TEXT_HINT := 2 ^ 11.
Definition SSH_FILEXFER_ATTR_MIME_TYPE := 2 ^ 12.
Definition SSH_FILEXFER_ATTR_LINK_COUNT := 2 ^ 13.
Definition SSH_FILEXFER_ATTR_UNTRANSLATED_NAME := 2 ^ 14.
Definition SSH_FILEXFER_ATTR_CHANGETIME := 2 ^ 15.

Definition FATTR_CTIME := 1024.

Definition SSH_FILEXFER_TYPE_REGULAR := 1.
Definition SSH_FILEXFER_TYPE_DIRECTORY := 2.
Definition SSH_FILEXFER_TYPE_SYMLINK := 3.
Definition SSH_FILEXFER_TYPE_UNKNOWN := 5.
Definition SSH_FILEXFER_TYPE_SOCKET := 6.
Definition SSH_FILEXFER_TYPE_CHAR_DEVICE := 7.
Definition SSH_FILEXFER_TYPE_BLOCK_DEVICE := 8.
Definition SSH_FILEXFER_TYPE_FIFO := 9.

Definition S_IFIFO := 4096.
Definition S_IFCHR := 8192.
Definition S_IFDIR := 16384.
Definition S_IFBLK := 24576.
Definition S_IFREG := 32768.
Definition S_IFLNK := 40960.
Definition S_IFSOCK := 49152.

Definition IFTODT (mode : Z) : Z := Z.shiftr (Z.land mode S_IFMT) 12.

(** The callbacks [mapping->mapcb]; the mapping is part of the functions. *)
Record mapcb := mk_mapcb {
  mc_user_p2l : net_entity -> option net_entity;
  mc_group_p2l : net_entity -> option net_entity;
  mc_user_l2p : net_entity -> option net_entity;
  mc_group_l2p : net_entity -> option net_entity
}.

(** The functions of the reading table called through [ops->rw.read]: with another
    table it is the function of that table in the same place, of another type. *)
Definition reading {A} (op : attr_buffer -> option (A * attr_buffer)) (ab : attr_buffer) : option (A * attr_buffer) :=
  match ab_ops ab with AbRead => op ab | _ => None end.

Definition rd_uchar : attr_buffer -> option (Z * attr_buffer) := reading read_uchar.
Definition rd_uint32 : attr_buffer -> option (Z * attr_buffer) := reading read_uint32.
Definition rd_uint64 : attr_buffer -> option (Z * attr_buffer) := reading read_uint64.
Definition rd_int64 : attr_buffer -> option (Z * attr_buffer) := reading read_int64.

(** [read_string] with its callback on the string, the memory from its pointer on
    and its length; the callback may change that memory. *)
Definition rd_string {A} (cb : bytes -> Z -> A -> option (bytes * A)) (x : A) (ab : attr_buffer) : option (A * attr_buffer) :=
  match ab_ops ab with
  | AbRead =>
      let? r := read_string ab SSH_STRING_INIT in
      let '(_, s, called, ab') := r in
      if (called : bool) then
        let? p := s_view s in
        let? q := cb p (s_len s) x in
        let start := Z.to_nat (ab_pos ab' - s_len s) in
        Some (q.2, set_cursor ab' (take start (ab_buffer ab') ++ q.1) (ab_pos ab') (ab_left ab'))
      else Some (x, ab')
  | _ => None
  end.

Section Callbacks.
Context (mc : mapcb).

(** ** Reading *)

Definition type_mapping_v04 : list Z := [0; S_IFREG; S_IFDIR; S_IFLNK; 0; 0].
Definition type_mapping_v05 : list Z := [0; S_IFREG; S_IFDIR; S_IFLNK; 0; 0; S_IFSOCK; S_IFCHR; S_IFBLK; S_IFIFO].

Definition read_attr_type_v04 : rw_attr_cb := fun ab st =>
  let? r := rd_uchar ab in
  let? type := if r.1 <? 5 then type_mapping_v04 !! Z.to_nat r.1 else Some 0 in
  Some (r.2, set_type_system_stat st type).

Definition read_attr_type_v05 : rw_attr_cb := fun ab st =>
  let? r := rd_uchar ab in
  let? type := if r.1 <? 10 then type_mapping_v05 !! Z.to_nat r.1 else Some 0 in
  Some (r.2, set_type_system_stat st type).

(** The same text as in version 5. *)
Definition read_attr_type_v06 : rw_attr_cb := fun ab st =>
  let? r := rd_uchar ab in
  let? type := if r.1 <? 10 then type_mapping_v05 !! Z.to_nat r.1 else Some 0 in
  Some (r.2, set_type_system_stat st type).

(** The memory of a name after a translation; the pointer itself stays. *)
Definition _attr_cb_user (p : bytes) (len : Z) (st : system_stat) : option (bytes * system_stat) :=
  let? e := mc_user_p2l mc (mk_ent 0 (Some p) len None 0 0 0) in
  let? p := ne_name e in Some (p, set_uid_system_stat st (ne_localid e)).

Definition _attr_cb_group (p : bytes) (len : Z) (st : system_stat) : option (bytes * system_stat) :=
  let? e := mc_group_p2l mc (mk_ent 0 (Some p) len None 0 0 0) in
  let? p := ne_name e in Some (p, set_gid_system_stat st (ne_localid e)).

Definition read_attr_ownergroup_v04 : rw_attr_cb := fun ab st =>
  let? r := rd_string _attr_cb_user st ab in
  let? r := rd_string _attr_cb_group r.1 r.2 in Some (r.2, r.1).

Definition read_attr_permissions_v04 : rw_attr_cb := fun ab st =>
  let? r := rd_uint32 ab in Some (r.2, set_mode_system_stat st (u16 (Z.land r.1 S_IRWXALL))).

Definition read_attr_accesstime_v04 : rw_attr_cb := fun ab st =>
  let? r := rd_int64 ab in Some (r.2, set_atime_sec_system_stat st r.1).
Definition read_attr_accesstime_n_v04 : rw_attr_cb := fun ab st =>
  let? r := rd_uint32 ab in Some (r.2, set_atime_nsec_system_stat st r.1).
Definition read_attr_createtime_v04 : rw_attr_cb := fun ab st =>
  let? r := rd_int64 ab in Some (r.2, set_btime_sec_system_stat st r.1).
Definition read_attr_createtime_n_v04 : rw_attr_cb := fun ab st =>
  let? r := rd_uint32 ab in Some (r.2, set_btime_nsec_system_stat st r.1).
Definition read_attr_modifytime_v04 : rw_attr_cb := fun ab st =>
  let? r := rd_int64 ab in Some (r.2, set_mtime_sec_system_stat st r.1).
Definition read_attr_modifytime_n_v04 : rw_attr_cb := fun ab st =>
  let? r := rd_uint32 ab in Some (r.2, set_mtime_nsec_system_stat st r.1).

(** One entry of an acl: four words and the name; nothing is done with them, and
    what is left of the block is not tested. *)
Fixpoint read_aces (count : nat) (p : bytes) : option bytes :=
  match count with
  | O => Some p
  | S count =>
      let? _ := get_uint32 p in
      let? _ := get_uint32 (drop 4 p) in
      let? _ := get_uint32 (drop 8 p) in
      let? len := get_uint32 (drop 12 p) in
      let? q := if len <=? zlen p - 16 then Some (drop (Z.to_nat len) (drop 16 p)) else None in
      read_aces count q
  end.

Definition _attr_acl_string_cb (p : bytes) (len : Z) (st : system_stat) : option (bytes * system_stat) :=
  let? count := get_uint32 p in
  let? _ := read_aces (Z.to_nat count) (drop 4 p) in Some (p, st).

Definition read_attr_acl_v04 : rw_attr_cb := fun ab st =>
  let? r := rd_string _attr_acl_string_cb st ab in Some (r.2, r.1).

(** The callback of version 6 has the same text: the word with the flags in front
    of the count is not read. *)
Definition read_attr_acl_v06 : rw_attr_cb := fun ab st =>
  let? r := rd_string _attr_acl_string_cb st ab in Some (r.2, r.1).

Definition read_attr_bits_v05 : rw_attr_cb := fun ab st => let? r := rd_uint32 ab in Some (r.2, st).
Definition read_attr_bits_v06 : rw_attr_cb := fun ab st =>
  let? r := rd_uint32 ab in let? r := rd_uint32 r.2 in Some (r.2, st).
Definition read_attr_alloc_size_v06 : rw_attr_cb := fun ab st => let? r := rd_uint64 ab in Some (r.2, st).
Definition read_attr_changetime_v06 : rw_attr_cb := fun ab st =>
  let? r := rd_int64 ab in Some (r.2, set_ctime_sec_system_stat st r.1).
Definition read_attr_changetime_n_v06 : rw_attr_cb := fun ab st =>
  let? r := rd_uint32 ab in Some (r.2, set_ctime_nsec_system_stat st r.1).
Definition read_attr_text_hint_v06 : rw_attr_cb := fun ab st => let? r := rd_uchar ab in Some (r.2, st).

(** [_attr_cb_mimetype] and [_attr_cb_untrans_name] do nothing. *)
Definition _attr_cb_ignore (p : bytes) (len : Z) (st : system_stat) : option (bytes * system_stat) := Some (p, st).
Definition read_attr_mime_type_v06 : rw_attr_cb := fun ab st =>
  let? r := rd_string _attr_cb_ignore st ab in Some (r.2, r.1).
Definition read_attr_link_count_v06 : rw_attr_cb := fun ab st => let? r := rd_uint32 ab in Some (r.2, st).
Definition read_attr_untranslated_name_v06 : rw_attr_cb := fun ab st =>
  let? r := rd_string _attr_cb_ignore st ab in Some (r.2, r.1).

Definition read_name_name_response_v04 (ab : attr_buffer) (name : ssh_string) : option (ssh_string * attr_buffer) :=
  let? r := read_string ab name in
  let '(_, name, _, ab) := r in Some (name, ab).

(** ** Writing *)

Definition type_reverse_v04 : list Z :=
  [SSH_FILEXFER_TYPE_UNKNOWN; 0; 0; SSH_FILEXFER_TYPE_UNKNOWN; SSH_FILEXFER_TYPE_DIRECTORY; SSH_FILEXFER_TYPE_UNKNOWN; 0; SSH_FILEXFER_TYPE_UNKNOWN;
   SSH_FILEXFER_TYPE_REGULAR; SSH_FILEXFER_TYPE_UNKNOWN; SSH_FILEXFER_TYPE_SYMLINK; SSH_FILEXFER_TYPE_UNKNOWN; 0].
Definition type_reverse_v05 : list Z :=
  [SSH_FILEXFER_TYPE_UNKNOWN; SSH_FILEXFER_TYPE_FIFO; SSH_FILEXFER_TYPE_CHAR_DEVICE; SSH_FILEXFER_TYPE_UNKNOWN; SSH_FILEXFER_TYPE_DIRECTORY; SSH_FILEXFER_TYPE_UNKNOWN;
   SSH_FILEXFER_TYPE_BLOCK_DEVICE; SSH_FILEXFER_TYPE_UNKNOWN; SSH_FILEXFER_TYPE_REGULAR; SSH_FILEXFER_TYPE_UNKNOWN; SSH_FILEXFER_TYPE_SYMLINK; SSH_FILEXFER_TYPE_UNKNOWN;
   SSH_FILEXFER_TYPE_SOCKET].

(** [(type<13) ? type_reverse[type] : SSH_FILEXFER_TYPE_UNKNOWN] *)
Definition reverse_type (table : list Z) (st : system_stat) : option Z :=
  let type := IFTODT (get_type_system_stat st) in
  if type <? 13 then table !! Z.to_nat type else Some SSH_FILEXFER_TYPE_UNKNOWN.

Definition write_attr_type_v04 : rw_attr_cb := fun ab st =>
  let? type := reverse_type type_reverse_v04 st in let? ab := ops_uchar ab type in Some (ab, st).
Definition write_attr_type_v05 : rw_attr_cb := fun ab st =>
  let? type := reverse_type type_reverse_v05 st in let? ab := ops_uchar ab type in Some (ab, st).
Definition write_attr_type_v06 : rw_attr_cb := fun ab st =>
  let? type := reverse_type type_reverse_v05 st in let? ab := ops_uchar ab type in Some (ab, st).

(** A name is written by the mapping in the buffer, behind the place of its length. *)
Definition write_entity (l2p : net_entity -> option net_entity) (localid : Z) (ab : attr_buffer) : option attr_buffer :=
  let start := Z.to_nat (ab_pos ab + 4) in
  let? p := if ab_pos ab + 4 <=? zlen (ab_buffer ab) then Some (drop start (ab_buffer ab)) else None in
  let? e := l2p (mk_ent 0 (Some p) (u32 (ab_left ab - 4)) None 0 0 localid) in
  let? p := ne_name e in
  let? ab := ops_uint32 (set_cursor ab (take start (ab_buffer ab) ++ p) (ab_pos ab) (ab_left ab)) (ne_len e) in
  ops_skip ab (ne_len e).

Definition write_attr_ownergroup_v04 : rw_attr_cb := fun ab st =>
  let? ab := write_entity (mc_user_l2p mc) (get_uid_system_stat st) ab in
  let? ab := write_entity (mc_group_l2p mc) (get_gid_system_stat st) ab in Some (ab, st).

Definition write_attr_permissions_v04 : rw_attr_cb := fun ab st =>
  let? ab := ops_uint32 ab (Z.land (get_mode_system_stat st) S_IRWXALL) in Some (ab, st).

Definition write_attr_accesstime_v04 : rw_attr_cb := fun ab st =>
  let? ab := ops_int64 ab (get_atime_sec_system_stat st) in Some (ab, st).
Definition write_attr_accesstime_n_v04 : rw_attr_cb := fun ab st =>
  let? ab := ops_uint32 ab (get_atime_nsec_system_stat st) in Some (ab, st).
Definition write_attr_modifytime_v04 : rw_attr_cb := fun ab st =>
  let? ab := ops_int64 ab (get_mtime_sec_system_stat st) in Some (ab, st).
Definition write_attr_modifytime_n_v04 : rw_attr_cb := fun ab st =>
  let? ab := ops_uint32 ab (get_mtime_nsec_system_stat st) in Some (ab, st).
Definition write_attr_changetime_v06 : rw_attr_cb := fun ab st =>
  let? ab := ops_int64 ab (get_ctime_sec_system_stat st) in Some (ab, st).
Definition write_attr_changetime_n_v06 : rw_attr_cb := fun ab st =>
  let? ab := ops_uint32 ab (get_ctime_nsec_system_stat st) in Some (ab, st).

Definition write_name_name_response_v04 (ab : attr_buffer) (name : ssh_string) : option attr_buffer := write_string ab name.

(** ** The tables *)

Definition get_maxlength_username := 32.
Definition get_maxlength_groupname := 32.
Definition get_maxlength_domainname := 253.

Definition ownergroup_maxlength : Z :=
  get_maxlength_username + 5 + get_maxlength_groupname + 5 + 2 * get_maxlength_domainname.

Definition fill_attrcb (entries : list (nat * rw_attrcb)) : list rw_attrcb :=
  foldl (fun t x => <[x.1 := x.2]> t) (init_attrcb_zero ATTR_CONTEXT_COUNT_ATTR_CB) entries.

(** The entries versions 4 to 6 have in common, with the callbacks of the type. *)
Definition common_attrcb (r_type w_type : rw_attr_cb) : list (nat * rw_attrcb) :=
  [(SSH_FILEXFER_INDEX_TYPE, mk_attrcb SSH_FILEXFER_ATTR_TYPE SYSTEM_STAT_TYPE (Some r_type) (Some w_type) 1 0);
   (SSH_FILEXFER_INDEX_SIZE, mk_attrcb SSH_FILEXFER_ATTR_SIZE SYSTEM_STAT_SIZE (Some read_attr_size_v03) (Some write_attr_size_v03) 8 FATTR_SIZE);
   (SSH_FILEXFER_INDEX_OWNERGROUP, mk_attrcb SSH_FILEXFER_ATTR_OWNERGROUP (Z.lor SYSTEM_STAT_UID SYSTEM_STAT_GID)
      (Some read_attr_ownergroup_v04) (Some write_attr_ownergroup_v04) ownergroup_maxlength (Z.lor FATTR_UID FATTR_GID));
   (SSH_FILEXFER_INDEX_PERMISSIONS, mk_attrcb SSH_FILEXFER_ATTR_PERMISSIONS SYSTEM_STAT_MODE (Some read_attr_permissions_v04) (Some write_attr_permissions_v04) 4 FATTR_MODE);
   (SSH_FILEXFER_INDEX_ACCESSTIME, mk_attrcb SSH_FILEXFER_ATTR_ACCESSTIME SYSTEM_STAT_ATIME (Some read_attr_accesstime_v04) (Some write_attr_accesstime_v04) 8 FATTR_ATIME);
   (SSH_FILEXFER_INDEX_CREATETIME, mk_attrcb SSH_FILEXFER_ATTR_CREATETIME SYSTEM_STAT_BTIME (Some read_attr_createtime_v04) None 8 0);
   (SSH_FILEXFER_INDEX_MODIFYTIME, mk_attrcb SSH_FILEXFER_ATTR_MODIFYTIME SYSTEM_STAT_MTIME (Some read_attr_modifytime_v04) (Some write_attr_modifytime_v04) 8 FATTR_MTIME)].

Definition extended_attrcb : nat * rw_attrcb :=
  (SSH_FILEXFER_INDEX_EXTENDED, mk_attrcb SSH_FILEXFER_ATTR_EXTENDED 0 (Some read_attr_extensions_v03) None 0 0).

(** The nanoseconds in versions 4 and 5: for two of them [w_cb] is set twice, so
    that it is the callback that reads, and [r_cb] is the one that does nothing. *)
Definition nsec_attrcb_v04 : list (nat * rw_attrcb) :=
  [(SSH_FILEXFER_INDEX_NSEC_ATIME, mk_attrcb 0 0 (Some rw_attr_cb_zero) (Some read_attr_accesstime_n_v04) 4 0);
   (SSH_FILEXFER_INDEX_NSEC_BTIME, mk_attrcb 0 0 (Some rw_attr_cb_zero) (Some read_attr_createtime_n_v04) 4 0);
   (SSH_FILEXFER_INDEX_NSEC_MTIME, mk_attrcb 0 0 (Some read_attr_modifytime_n_v04) (Some write_attr_modifytime_n_v04) 4 0)].

Definition attrcb_v04 : list rw_attrcb :=
  fill_attrcb (common_attrcb read_attr_type_v04 write_attr_type_v04 ++
    [(SSH_FILEXFER_INDEX_ACL, mk_attrcb SSH_FILEXFER_ATTR_ACL 0 (Some read_attr_acl_v04) None 0 0); extended_attrcb] ++ nsec_attrcb_v04).

Definition attrcb_v05 : list rw_attrcb :=
  fill_attrcb (common_attrcb read_attr_type_v05 write_attr_type_v05 ++
    [(SSH_FILEXFER_INDEX_ACL, mk_attrcb SSH_FILEXFER_ATTR_ACL 0 (Some read_attr_acl_v04) None 0 0);
     (SSH_FILEXFER_INDEX_BITS, mk_attrcb SSH_FILEXFER_ATTR_BITS 0 (Some read_attr_bits_v05) None 4 0); extended_attrcb] ++ nsec_attrcb_v04).

Definition attrcb_v06 : list rw_attrcb :=
  fill_attrcb (common_attrcb read_attr_type_v06 write_attr_type_v06 ++
    [(SSH_FILEXFER_INDEX_ACL, mk_attrcb SSH_FILEXFER_ATTR_ACL 0 (Some read_attr_acl_v06) None 0 0);
     (SSH_FILEXFER_INDEX_BITS, mk_attrcb SSH_FILEXFER_ATTR_BITS 0 (Some read_attr_bits_v06) None 8 0);
     (SSH_FILEXFER_INDEX_ALLOCATION_SIZE, mk_attrcb SSH_FILEXFER_ATTR_ALLOCATION_SIZE 0 (Some read_attr_alloc_size_v06) None 8 0);
     (SSH_FILEXFER_INDEX_TEXT_HINT, mk_attrcb SSH_FILEXFER_ATTR_TEXT_HINT 0 (Some read_attr_text_hint_v06) None 1 0);
     (SSH_FILEXFER_INDEX_MIME_TYPE, mk_attrcb SSH_FILEXFER_ATTR_MIME_TYPE 0 (Some read_attr_mime_type_v06) None 0 0);
     (SSH_FILEXFER_INDEX_LINK_COUNT, mk_attrcb SSH_FILEXFER_ATTR_LINK_COUNT 0 (Some read_attr_link_count_v06) None 4 0);
     (SSH_FILEXFER_INDEX_UNTRANSLATED_NAME, mk_attrcb SSH_FILEXFER_ATTR_UNTRANSLATED_NAME 0 (Some read_attr_untranslated_name_v06) None 0 0);
     (SSH_FILEXFER_INDEX_CHANGETIME, mk_attrcb SSH_FILEXFER_ATTR_CHANGETIME SYSTEM_STAT_CTIME (Some read_attr_changetime_v06) (Some write_attr_changetime_v06) 8 FATTR_CTIME);
     extended_attrcb;
     (SSH_FILEXFER_INDEX_NSEC_ATIME, mk_attrcb 0 0 (Some read_attr_accesstime_n_v04) (Some write_attr_accesstime_n_v04) 4 0);
     (SSH_FILEXFER_INDEX_NSEC_BTIME, mk_attrcb 0 0 (Some read_attr_createtime_n_v04) None 4 0);
     (SSH_FILEXFER_INDEX_NSEC_MTIME, mk_attrcb 0 0 (Some read_attr_modifytime_n_v04) (Some write_attr_modifytime_n_v04) 4 0);
     (SSH_FILEXFER_INDEX_NSEC_CTIME, mk_attrcb 0 0 (Some read_attr_changetime_n_v06) (Some write_attr_changetime_n_v06) 4 0)]).

(** ** The orders *)

(** A time and, where the flag for them is set, its nanoseconds. *)
Definition parse_time (f : parse_cb) (code : Z) (ctr nsec : nat) (s : pstate) : option pstate :=
  if has (r_todo (ps_r s)) code then
    let? s := f s ctr in
    if has (v_flags (r_valid (ps_r s))) SSH_FILEXFER_ATTR_SUBSECOND_TIMES then f s nsec else Some s
  else Some s.

Definition parse_attributes_v04 (f : parse_cb) (s : pstate) : option pstate :=
  let? s := f s SSH_FILEXFER_INDEX_TYPE in
  let? s := parse_one f SSH_FILEXFER_ATTR_SIZE SSH_FILEXFER_INDEX_SIZE s in
  let? s := parse_one f SSH_FILEXFER_ATTR_OWNERGROUP SSH_FILEXFER_INDEX_OWNERGROUP s in
  let? s := parse_one f SSH_FILEXFER_ATTR_PERMISSIONS SSH_FILEXFER_INDEX_PERMISSIONS s in
  let? s := parse_time f SSH_FILEXFER_ATTR_ACCESSTIME SSH_FILEXFER_INDEX_ACCESSTIME SSH_FILEXFER_INDEX_NSEC_ATIME s in
  let? s := parse_time f SSH_FILEXFER_ATTR_CREATETIME SSH_FILEXFER_INDEX_CREATETIME SSH_FILEXFER_INDEX_NSEC_BTIME s in
  let? s := parse_time f SSH_FILEXFER_ATTR_MODIFYTIME SSH_FILEXFER_INDEX_MODIFYTIME SSH_FILEXFER_INDEX_NSEC_MTIME s in
  let? s := parse_one f SSH_FILEXFER_ATTR_ACL SSH_FILEXFER_INDEX_ACL s in
  parse_one f SSH_FILEXFER_ATTR_EXTENDED SSH_FILEXFER_INDEX_EXTENDED s.

Definition parse_attributes_v05 (f : parse_cb) (s : pstate) : option pstate :=
  let? s := f s SSH_FILEXFER_INDEX_TYPE in
  let? s := parse_one f SSH_FILEXFER_ATTR_SIZE SSH_FILEXFER_INDEX_SIZE s in
  let? s := parse_one f SSH_FILEXFER_ATTR_OWNERGROUP SSH_FILEXFER_INDEX_OWNERGROUP s in
  let? s := parse_one f SSH_FILEXFER_ATTR_PERMISSIONS SSH_FILEXFER_INDEX_PERMISSIONS s in
  let? s := parse_time f SSH_FILEXFER_ATTR_ACCESSTIME SSH_FILEXFER_INDEX_ACCESSTIME SSH_FILEXFER_INDEX_NSEC_ATIME s in
  let? s := parse_time f SSH_FILEXFER_ATTR_CREATETIME SSH_FILEXFER_INDEX_CREATETIME SSH_FILEXFER_INDEX_NSEC_BTIME s in
  let? s := parse_time f SSH_FILEXFER_ATTR_MODIFYTIME SSH_FILEXFER_INDEX_MODIFYTIME SSH_FILEXFER_INDEX_NSEC_MTIME s in
  let? s := parse_one f SSH_FILEXFER_ATTR_ACL SSH_FILEXFER_INDEX_ACL s in
  let? s := parse_one f SSH_FILEXFER_ATTR_BITS SSH_FILEXFER_INDEX_BITS s in
  parse_one f SSH_FILEXFER_ATTR_EXTENDED SSH_FILEXFER_INDEX_EXTENDED s.

Definition parse_attributes_v06 (f : parse_cb) (s : pstate) : option pstate :=
  let? s := f s SSH_FILEXFER_INDEX_TYPE in
  let? s := parse_one f SSH_FILEXFER_ATTR_SIZE SSH_FILEXFER_INDEX_SIZE s in
  let? s := parse_one f SSH_FILEXFER_ATTR_ALLOCATION_SIZE SSH_FILEXFER_INDEX_ALLOCATION_SIZE s in
  let? s := parse_one f SSH_FILEXFER_ATTR_OWNERGROUP SSH_FILEXFER_INDEX_OWNERGROUP s in
  let? s := parse_one f SSH_FILEXFER_ATTR_PERMISSIONS SSH_FILEXFER_INDEX_PERMISSIONS s in
  let? s := parse_time f SSH_FILEXFER_ATTR_ACCESSTIME SSH_FILEXFER_INDEX_ACCESSTIME SSH_FILEXFER_INDEX_NSEC_ATIME s in
  let? s := parse_time f SSH_FILEXFER_ATTR_CREATETIME SSH_FILEXFER_INDEX_CREATETIME SSH_FILEXFER_INDEX_NSEC_BTIME s in
  let? s := parse_time f SSH_FILEXFER_ATTR_MODIFYTIME SSH_FILEXFER_INDEX_MODIFYTIME SSH_FILEXFER_INDEX_NSEC_MTIME s in
  let? s := parse_time f SSH_FILEXFER_ATTR_CHANGETIME SSH_FILEXFER_INDEX_CHANGETIME SSH_FILEXFER_INDEX_NSEC_CTIME s in
  let? s := parse_one f SSH_FILEXFER_ATTR_ACL SSH_FILEXFER_INDEX_ACL s in
  let? s := parse_one f SSH_FILEXFER_ATTR_BITS SSH_FILEXFER_INDEX_BITS s in
  let? s := parse_one f SSH_FILEXFER_ATTR_TEXT_HINT SSH_FILEXFER_INDEX_TEXT_HINT s in
  let? s := parse_one f SSH_FILEXFER_ATTR_MIME_TYPE SSH_FILEXFER_INDEX_MIME_TYPE s in
  let? s := parse_one f SSH_FILEXFER_ATTR_LINK_COUNT SSH_FILEXFER_INDEX_LINK_COUNT s in
  let? s := parse_one f SSH_FILEXFER_ATTR_UNTRANSLATED_NAME SSH_FILEXFER_INDEX_UNTRANSLATED_NAME s in
  parse_one f SSH_FILEXFER_ATTR_EXTENDED SSH_FILEXFER_INDEX_EXTENDED s.

(** ** The contexts *)

Definition w_mask_v04 : Z :=
  foldl Z.lor SSH_FILEXFER_ATTR_TYPE [SSH_FILEXFER_ATTR_SIZE; SSH_FILEXFER_ATTR_OWNERGROUP; SSH_FILEXFER_ATTR_PERMISSIONS; SSH_FILEXFER_ATTR_ACCESSTIME; SSH_FILEXFER_ATTR_MODIFYTIME].
Definition r_mask_v04 : Z := foldl Z.lor w_mask_v04 [SSH_FILEXFER_ATTR_ACL; SSH_FILEXFER_ATTR_EXTENDED].
Definition r_mask_v05 : Z := foldl Z.lor w_mask_v04 [SSH_FILEXFER_ATTR_ACL; SSH_FILEXFER_ATTR_BITS; SSH_FILEXFER_ATTR_EXTENDED].
Definition w_mask_v06 : Z := Z.lor w_mask_v04 SSH_FILEXFER_ATTR_CHANGETIME.
Definition r_mask_v06 : Z :=
  foldl Z.lor w_mask_v06 [SSH_FILEXFER_ATTR_CREATETIME; SSH_FILEXFER_ATTR_ACL; SSH_FILEXFER_ATTR_BITS; SSH_FILEXFER_ATTR_ALLOCATION_SIZE; SSH_FILEXFER_ATTR_TEXT_HINT;
    SSH_FILEXFER_ATTR_MIME_TYPE; SSH_FILEXFER_ATTR_LINK_COUNT; SSH_FILEXFER_ATTR_UNTRANSLATED_NAME; SSH_FILEXFER_ATTR_EXTENDED].

Definition SUB : Z := SSH_FILEXFER_ATTR_SUBSECOND_TIMES.

Definition init_attr_context_v04 : attr_context :=
  mk_context 4 (mk_valid SUB w_mask_v04) 8 (mk_valid SUB r_mask_v04) 10 attrcb_v04 parse_attributes_v04.
Definition init_attr_context_v05 : attr_context :=
  mk_context 5 (mk_valid SUB w_mask_v04) 8 (mk_valid SUB r_mask_v05) 10 attrcb_v05 parse_attributes_v05.
Definition init_attr_context_v06 : attr_context :=
  mk_context 6 (mk_valid SUB w_mask_v06) 10 (mk_valid SUB r_mask_v06) 20 attrcb_v06 parse_attributes_v06.

(** [set_sftp_attr_context]: the context of a version; above 6 none is set. *)
Definition set_sftp_attr_context (ids : idmapping) (version : Z) : option attr_context :=
  if version <=? 3 then Some (init_attr_context_v03 ids version)
  else if version =? 4 then Some init_attr_context_v04
  else if version =? 5 then Some init_attr_context_v05
  else if version =? 6 then Some init_attr_context_v06
  else None.

End Callbacks.

Definition enable_flags (p : sftp_valid) (code : Z) : Z * sftp_valid := (1, mk_valid (Z.lor (v_flags p) code) (v_mask p)).

(** Every name is compared until one is equal; a name without a NUL is undefined. *)
Definition enable_attr_v04 (p : sftp_valid) (name : bytes) : option (Z * sftp_valid) :=
  let? n := cstring name in
  let eqs s := bytes_eqb n (UserMap.lit s) in
  Some (if eqs "size"%string then enable p SSH_FILEXFER_ATTR_SIZE
        else if eqs "permissions"%string then enable p SSH_FILEXFER_ATTR_PERMISSIONS
        else if eqs "user"%string || eqs "group"%string then enable p SSH_FILEXFER_ATTR_OWNERGROUP
        else if eqs "atime"%string then enable p SSH_FILEXFER_ATTR_ACCESSTIME
        else if eqs "btime"%string then enable p SSH_FILEXFER_ATTR_CREATETIME
        else if eqs "mtime"%string then enable p SSH_FILEXFER_ATTR_MODIFYTIME
        else if eqs "subseconds"%string then enable_flags p SSH_FILEXFER_ATTR_SUBSECOND_TIMES
        else if eqs "extended"%string then enable p SSH_FILEXFER_ATTR_EXTENDED
        else (0, p)).

Definition enable_attr_v05 (p : sftp_valid) (name : bytes) : option (Z * sftp_valid) := enable_attr_v04 p name.
Definition enable_attr_v06 (p : sftp_valid) (name : bytes) : option (Z * sftp_valid) :=
  let? n := cstring name in
  if bytes_eqb n (UserMap.lit "ctime") then Some (enable p SSH_FILEXFER_ATTR_CHANGETIME) else enable_attr_v04 p name.

Definition SFTP_ATTR_PROPERTY_VALIDFIELD_STAT := 1.
Definition get_property_v04 (flag : Z) : Z := if has flag SFTP_ATTR_PROPERTY_VALIDFIELD_STAT then SFTP_ATTR_PROPERTY_VALIDFIELD_STAT else 0.
Definition get_property_v05 (flag : Z) : Z := get_property_v04 flag.
Definition get_property_v06 (flag : Z) : Z := get_property_v05 flag.

(** ** An order as a list of attributes *)

Record item := mk_item { it_code : Z; it_ctr : nat; it_nsec : option nat }.

(** What the callbacks run over for an attribute of the mask [todo]. *)
Definition item_order (flags todo : Z) (it : item) : list nat :=
  if has todo (it_code it) then
    it_ctr it :: (match it_nsec it with Some n => if has flags SSH_FILEXFER_ATTR_SUBSECOND_TIMES then [n] else [] | None => [] end)
  else [].

Definition items_order (items : list item) (flags todo : Z) : list nat := concat (item_order flags todo <$> items).

Definition parse_item (f : parse_cb) (it : item) (s : pstate) : option pstate :=
  match it_nsec it with
  | Some n => parse_time f (it_code it) (it_ctr it) n s
  | None => parse_one f (it_code it) (it_ctr it) s
  end.

Fixpoint parse_items (f : parse_cb) (items : list item) (s : pstate) : option pstate :=
  match items with [] => Some s | it :: items => let? s := parse_item f it s in parse_items f items s end.

Definition plain (code : Z) (ctr : nat) : item := mk_item code ctr None.
Definition time (code : Z) (ctr nsec : nat) : item := mk_item code ctr (Some nsec).

Definition times_v04 : list item :=
  [time SSH_FILEXFER_ATTR_ACCESSTIME SSH_FILEXFER_INDEX_ACCESSTIME SSH_FILEXFER_INDEX_NSEC_ATIME;
   time SSH_FILEXFER_ATTR_CREATETIME SSH_FILEXFER_INDEX_CREATETIME SSH_FILEXFER_INDEX_NSEC_BTIME;
   time SSH_FILEXFER_ATTR_MODIFYTIME SSH_FILEXFER_INDEX_MODIFYTIME SSH_FILEXFER_INDEX_NSEC_MTIME].

Definition size_it := plain SSH_FILEXFER_ATTR_SIZE SSH_FILEXFER_INDEX_SIZE.
Definition ownergroup_it := plain SSH_FILEXFER_ATTR_OWNERGROUP SSH_FILEXFER_INDEX_OWNERGROUP.
Definition permissions_it := plain SSH_FILEXFER_ATTR_PERMISSIONS SSH_FILEXFER_INDEX_PERMISSIONS.
Definition acl_it := plain SSH_FILEXFER_ATTR_ACL SSH_FILEXFER_INDEX_ACL.
Definition bits_it := plain SSH_FILEXFER_ATTR_BITS SSH_FILEXFER_INDEX_BITS.
Definition extended_it := plain SSH_FILEXFER_ATTR_EXTENDED SSH_FILEXFER_INDEX_EXTENDED.

Inductive ver := V4 | V5 | V6.

Definition items_of (v : ver) : list item :=
  match v with
  | V4 => [size_it; ownergroup_it; permissions_it] ++ times_v04 ++ [acl_it; extended_it]
  | V5 => [size_it; ownergroup_it; permissions_it] ++ times_v04 ++ [acl_it; bits_it; extended_it]
  | V6 => [size_it; plain SSH_FILEXFER_ATTR_ALLOCATION_SIZE SSH_FILEXFER_INDEX_ALLOCATION_SIZE; ownergroup_it; permissions_it] ++ times_v04 ++
          [time SSH_FILEXFER_ATTR_CHANGETIME SSH_FILEXFER_INDEX_CHANGETIME SSH_FILEXFER_INDEX_NSEC_CTIME; acl_it; bits_it;
           plain SSH_FILEXFER_ATTR_TEXT_HINT SSH_FILEXFER_INDEX_TEXT_HINT; plain SSH_FILEXFER_ATTR_MIME_TYPE SSH_FILEXFER_INDEX_MIME_TYPE;
           plain SSH_FILEXFER_ATTR_LINK_COUNT SSH_FILEXFER_INDEX_LINK_COUNT;
           plain SSH_FILEXFER_ATTR_UNTRANSLATED_NAME SSH_FILEXFER_INDEX_UNTRANSLATED_NAME; extended_it]
  end.

Definition order_v (v : ver) (valid : sftp_valid) : list nat :=
  SSH_FILEXFER_INDEX_TYPE :: items_order (items_of v) (v_flags valid) (v_mask valid).

Lemma run_cbs_app f a b s : run_cbs f (a ++ b) s = (let? s := run_cbs f a s in run_cbs f b s).
Proof. revert s. induction a as [|c a IH]; intros s; [done |]. cbn [app run_cbs]. destruct (f s c); opt; [apply IH | done]. Qed.

Section Orders.
Context (mc : mapcb).

Definition actx (v : ver) : attr_context :=
  match v with V4 => init_attr_context_v04 mc | V5 => init_attr_context_v05 mc | V6 => init_attr_context_v06 mc end.

(** A callback that keeps the valid bits and clears at most those of its attribute. *)
Definition calm (ctx : attr_context) (f : parse_cb) : Prop :=
  forall s s' ctr, f s ctr = Some s' -> r_valid (ps_r s') = r_valid (ps_r s) /\
    exists e, ac_attrcb ctx !! ctr = Some e /\ (r_todo (ps_r s') = Z.ldiff (r_todo (ps_r s)) (cb_code e) \/ r_todo (ps_r s') = r_todo (ps_r s)).

Definition code_of (ctx : attr_context) (ctr : nat) : option Z := cb_code <$> ac_attrcb ctx !! ctr.

Definition item_ok (ctx : attr_context) (it : item) : Prop :=
  code_of ctx (it_ctr it) = Some (it_code it) /\ (forall n, it_nsec it = Some n -> code_of ctx n = Some 0).

Lemma calm_todo ctx f s s' ctr code c : calm ctx f -> code_of ctx ctr = Some c -> Z.land c code = 0 -> f s ctr = Some s' ->
  has (r_todo (ps_r s')) code = has (r_todo (ps_r s)) code /\ v_flags (r_valid (ps_r s')) = v_flags (r_valid (ps_r s)).
Proof.
  intros Hf Hc Hd H. destruct (Hf s s' ctr H) as (Hv & e & He & Ht). unfold code_of in Hc. rewrite He in Hc. injection Hc as <-.
  split; [| by rewrite Hv]. destruct Ht as [-> | ->]; [by apply has_ldiff | done].
Qed.

Lemma items_same items flags m m' : Forall (fun it => has m' (it_code it) = has m (it_code it)) items -> items_order items flags m' = items_order items flags m.
Proof.
  intros H. unfold items_order. f_equal. induction H as [|it items Hi _ IH]; [done |]. cbn [fmap list_fmap]. f_equal; [| exact IH]. unfold item_order. by rewrite Hi.
Qed.

(** One attribute, with its nanoseconds. *)
Lemma parse_item_run ctx f it s : calm ctx f -> item_ok ctx it ->
  parse_item f it s = run_cbs f (item_order (v_flags (r_valid (ps_r s))) (r_todo (ps_r s)) it) s /\
  (forall s' code, parse_item f it s = Some s' -> Z.land (it_code it) code = 0 ->
     has (r_todo (ps_r s')) code = has (r_todo (ps_r s)) code /\ v_flags (r_valid (ps_r s')) = v_flags (r_valid (ps_r s))).
Proof.
  intros Hf [Hc Hn]. unfold parse_item, item_order, parse_time, parse_one. destruct (it_nsec it) as [n|].
  - specialize (Hn n eq_refl). destruct (has (r_todo (ps_r s)) (it_code it)); [| split; [done | intros s' code [= <-] _; done]].
    cbn [run_cbs]. destruct (f s (it_ctr it)) as [s1|] eqn:E1; opt; [| by split].
    destruct (calm_todo ctx f s s1 _ 0 _ Hf Hc (Z.land_0_r _) E1) as [_ Hfl]. rewrite Hfl. destruct (has _ SSH_FILEXFER_ATTR_SUBSECOND_TIMES).
    + cbn [run_cbs]. split; [by destruct (f s1 n) |]. intros s' code E2 Hd.
      destruct (calm_todo ctx f s1 s' n code 0 Hf Hn (Z.land_0_l _) E2) as [-> ->]. destruct (calm_todo ctx f s s1 _ code _ Hf Hc Hd E1) as [-> ->]. done.
    + split; [done |]. intros s' code [= <-] Hd. by apply (calm_todo ctx f s s1 _ code _ Hf Hc Hd E1).
  - destruct (has (r_todo (ps_r s)) (it_code it)); [| split; [done | intros s' code [= <-] _; done]].
    cbn [run_cbs]. split; [by destruct (f s (it_ctr it)) |]. intros s' code E Hd. by apply (calm_todo ctx f s s' _ code _ Hf Hc Hd E).
Qed.

Lemma parse_items_run ctx f items : calm ctx f -> Forall (item_ok ctx) items -> ForallOrdPairs (fun a b => Z.land (it_code a) (it_code b) = 0) items ->
  forall s, parse_items f items s = run_cbs f (items_order items (v_flags (r_valid (ps_r s))) (r_todo (ps_r s))) s.
Proof.
  intros Hf Hok Hd. induction Hd as [|it items Hit _ IH]; intros s; [done |]. inversion Hok as [|? ? Hi Hok']; subst. cbn [parse_items].
  destruct (parse_item_run ctx f it s Hf Hi) as [E H]. unfold items_order. cbn [fmap list_fmap concat]. rewrite run_cbs_app, <- E.
  destruct (parse_item f it s) as [s1|]; opt; [| done]. rewrite IH by done. f_equal.
  destruct (H s1 0 eq_refl (Z.land_0_r _)) as [_ ->]. apply items_same.
  eapply Forall_impl; [| exact Hit]. intros b Hb. cbn in Hb. by apply (H s1).
Qed.

Lemma items_disjoint v : ForallOrdPairs (fun a b => Z.land (it_code a) (it_code b) = 0) (items_of v).
Proof. destruct v; repeat constructor. Qed.

Lemma items_ok v : Forall (item_ok (actx v)) (items_of v).
Proof. destruct v; repeat (apply List.Forall_cons; [split; [reflexivity | intros n [= <-]; reflexivity] |]); constructor. Qed.

(** The order of the source is the order of the list. *)
Lemma parse_v_order v f s : calm (actx v) f -> r_todo (ps_r s) = v_mask (r_valid (ps_r s)) ->
  ac_parse_attributes (actx v) f s = run_cbs f (order_v v (r_valid (ps_r s))) s.
Proof.
  intros Hf Ht. assert (ac_parse_attributes (actx v) f s = (let? s := f s SSH_FILEXFER_INDEX_TYPE in parse_items f (items_of v) s)) as ->.
  { destruct v; cbn [actx ac_parse_attributes init_attr_context_v04 init_attr_context_v05 init_attr_context_v06];
      unfold parse_attributes_v04, parse_attributes_v05, parse_attributes_v06; destruct (f s _) as [s0|]; opt; try done;
      cbn [parse_items items_of app times_v04]; unfold parse_item;
      cbn [it_nsec it_code it_ctr size_it ownergroup_it permissions_it acl_it bits_it extended_it plain time];
      repeat (match goal with |- (let? _ := ?x in _) = _ => destruct x as [?|]; opt; [| done] end);
      match goal with |- ?x = _ => by destruct x end. }
  unfold order_v. cbn [run_cbs]. destruct (f s SSH_FILEXFER_INDEX_TYPE) as [s1|] eqn:E; opt; [| done].
  rewrite (parse_items_run (actx v)) by (done || apply items_ok || apply items_disjoint).
  assert (code_of (actx v) SSH_FILEXFER_INDEX_TYPE = Some 0) as Hc by by destruct v.
  destruct (calm_todo _ _ _ _ _ 0 _ Hf Hc (Z.land_0_r _) E) as [_ ->]. f_equal. rewrite <- Ht. apply items_same. apply Forall_forall. intros it _.
  by apply (calm_todo _ _ _ _ _ (it_code it) _ Hf Hc (Z.land_0_l _) E).
Qed.

(** ** The cache *)

(** Every entry of the version has the order of its valid bits. *)
Record cached_ok (v : ver) (c : attr_cache) : Prop := {
  ca_rows : length c = Z.to_nat HASH_ATTRCB_TABLE_SIZE;
  ca_order i row h : c !! i = Some row -> h ∈ row -> h_version h = ac_version (actx v) -> h_cb h = order_v v (h_valid h)
}.

Lemma cached_init v : cached_ok v init_hashattr_generic.
Proof. split; [done |]. intros i row h Hr Hh _. apply lookup_replicate in Hr as [-> _]. by apply elem_of_nil in Hh. Qed.

Lemma cached_row v c valid : cached_ok v c -> exists row, c !! row_of valid = Some row.
Proof.
  intros Hc. apply lookup_lt_is_Some_2. rewrite (ca_rows v c Hc). unfold row_of, HASH_ATTRCB_TABLE_SIZE.
  pose proof (Z.mod_pos_bound (v_mask valid) 17 ltac:(lia)). lia.
Qed.

Lemma cached_run v c f s valid : cached_ok v c -> calm (actx v) f -> flagless f ->
  exists fl, parse_attributes_generic (actx v) c f s valid =
    option_map (with_flags fl) (run_cbs f (order_v v (selected (actx v) (ps_r s) valid)) (set_r s (start_result (actx v) (ps_r s) valid))).
Proof.
  intros Hc Hm Hf. unfold parse_attributes_generic, lookup_hashed_attrcb.
  fold (selected (actx v) (ps_r s) valid). set (sel := selected (actx v) (ps_r s) valid).
  destruct (cached_row v c sel Hc) as [row Hr]. rewrite Hr. opt. destruct (find (same_key sel (ac_version (actx v))) row) as [h|] eqn:Eh.
  - apply find_key in Eh as (Hin & Hv & Hver). rewrite (ca_order v c Hc _ row h Hr Hin Hver), Hv.
    exists (Z.lor (r_flags (ps_r s)) RW_ATTR_RESULT_FLAG_CACHED). rewrite <- run_flagless by done. done.
  - exists (r_flags (ps_r s)). rewrite <- run_flagless by done. rewrite parse_v_order by done. done.
Qed.

Lemma cached_add v c h : cached_ok v c -> (h_version h = ac_version (actx v) -> h_cb h = order_v v (h_valid h)) ->
  exists c', add_attrcb_hashtable c h = Some c' /\ cached_ok v c'.
Proof.
  intros Hc Hh. unfold add_attrcb_hashtable. destruct (cached_row v c (h_valid h) Hc) as [row Hr]. rewrite Hr. opt.
  destruct (find _ row); [by exists c |]. eexists. split; [done |]. split; [rewrite length_insert; apply Hc |].
  intros i row' h' Hi Hin. destruct (decide (i = row_of (h_valid h))) as [-> |Hn].
  - rewrite list_lookup_insert_eq in Hi by by eapply lookup_lt_Some. injection Hi as <-.
    apply elem_of_cons in Hin as [-> |Hin]; [done |]. by eapply (ca_order v c Hc).
  - rewrite list_lookup_insert_ne in Hi by done. by eapply (ca_order v c Hc).
Qed.

Lemma cached_remember v mem c s : cached_ok v c -> ps_cb s = order_v v (r_valid (ps_r s)) ->
  exists c', remember mem (actx v) c s = Some c' /\ cached_ok v c'.
Proof.
  intros Hc Hs. unfold remember, create_hashed_attrcb. destruct (_ && _); [| by exists c]. destruct mem; [| by exists c]. by apply cached_add.
Qed.

(** *** The three callbacks of the generic part *)

Lemma read_calm v : calm (actx v) (_attr_read_cb (actx v)).
Proof.
  intros s s' ctr H. unfold _attr_read_cb in H. destruct (ac_attrcb (actx v) !! ctr) as [e|]; cbn [mbind option_bind] in H; [| done].
  unfold note_cb in H. case_bool_decide; cbn [mbind option_bind] in H; [| done]. destruct (cb_r_cb e) as [cb|]; cbn [mbind option_bind] in H; [| done].
  destruct (cb _ _) as [q|]; cbn [mbind option_bind] in H; [| done]. injection H as <-. split; [done |]. exists e. split; [done | by left].
Qed.

Lemma write_calm v : calm (actx v) (_attr_write_cb (actx v)).
Proof.
  intros s s' ctr H. unfold _attr_write_cb in H. destruct (ac_attrcb (actx v) !! ctr) as [e|]; cbn [mbind option_bind] in H; [| done].
  destruct (cb_w_cb e) as [cb|]; cbn [mbind option_bind] in H; [| done].
  destruct (cb _ _) as [q|]; cbn [mbind option_bind] in H; [| done]. injection H as <-. split; [done |]. exists e. split; [done | by left].
Qed.

Lemma prepare_calm v : calm (actx v) (_prepare_write_cb (actx v)).
Proof.
  intros s s' ctr H. unfold _prepare_write_cb in H. destruct (ac_attrcb (actx v) !! ctr) as [e|]; cbn [mbind option_bind] in H; [| done].
  unfold note_cb in H. case_bool_decide; [| done]. injection H as <-. split; [done |]. exists e. split; [done | by left].
Qed.

Lemma read_no_flags v : flagless (_attr_read_cb (actx v)).
Proof.
  intros fl s ctr. unfold _attr_read_cb. destruct (ac_attrcb (actx v) !! ctr) as [e|]; opt; [| done].
  unfold note_cb. change (ps_cb (with_flags fl s)) with (ps_cb s). case_bool_decide; opt; [| done].
  destruct (cb_r_cb e) as [cb|]; opt; [| done]. cbn. by destruct (cb _ _).
Qed.

Lemma write_no_flags v : flagless (_attr_write_cb (actx v)).
Proof.
  intros fl s ctr. unfold _attr_write_cb. destruct (ac_attrcb (actx v) !! ctr) as [e|]; opt; [| done].
  destruct (cb_w_cb e) as [cb|]; opt; [| done]. cbn. by destruct (cb _ _).
Qed.

Lemma prepare_no_flags v : flagless (_prepare_write_cb (actx v)).
Proof.
  intros fl s ctr. unfold _prepare_write_cb. destruct (ac_attrcb (actx v) !! ctr) as [e|]; opt; [| done].
  unfold note_cb. change (ps_cb (with_flags fl s)) with (ps_cb s). by case_bool_decide.
Qed.

(** The counting callback adds up the lengths of the table. *)
Lemma run_lengths v cbs : forall s s', run_cbs (_prepare_write_cb (actx v)) cbs s = Some s' ->
  ps_cb s' = ps_cb s ++ cbs /\ r_valid (ps_r s') = r_valid (ps_r s) /\
  (0 <= ps_len s -> Forall (fun ctr => forall e, ac_attrcb (actx v) !! ctr = Some e -> 0 <= cb_maxlength e) cbs ->
   ps_len s + foldr (fun ctr n => default 0 (cb_maxlength <$> ac_attrcb (actx v) !! ctr) + n) 0 cbs < 2 ^ 32 ->
   ps_len s' = ps_len s + foldr (fun ctr n => default 0 (cb_maxlength <$> ac_attrcb (actx v) !! ctr) + n) 0 cbs).
Proof.
  induction cbs as [|ctr cbs IH]; intros s s' H; cbn [run_cbs] in H.
  - injection H as <-. rewrite app_nil_r. split_and!; [done | done |]. cbn. lia.
  - unfold _prepare_write_cb at 2 in H. destruct (ac_attrcb (actx v) !! ctr) as [e|] eqn:He; cbn [mbind option_bind] in H; [| done].
    unfold note_cb in H. case_bool_decide; cbn [mbind option_bind] in H; [| done]. destruct (IH _ _ H) as (H1 & H2 & H3).
    cbn [ps_cb ps_r ps_len mark r_valid] in H1, H2, H3. rewrite H1, H2, <- app_assoc. split_and!; [done | done |].
    intros Hl0 Hm Hs. inversion Hm as [|? ? Hc Hm']; subst. specialize (Hc e He). cbn [foldr] in *. rewrite He in *. cbn [fmap option_fmap option_map default] in *.
    assert (0 <= foldr (fun ctr n => default 0 (cb_maxlength <$> ac_attrcb (actx v) !! ctr) + n) 0 cbs) as Hr.
    { clear -Hm'. induction Hm' as [|c cbs Hc _ IH]; [done |]. cbn [foldr]. destruct (ac_attrcb (actx v) !! c) as [e|]; cbn; [specialize (Hc e eq_refl); lia | lia]. }
    cbn [id] in *. rewrite u32_id in H3 by (unfold is_u32; lia). rewrite H3; [lia | lia | done | lia].
Qed.

End Orders.

(** ** What an operation writes *)

(** With the writing table the next bytes of the buffer are replaced by [enc]. *)
Definition Writes (op : attr_buffer -> option attr_buffer) (enc : bytes) : Prop :=
  forall ab pre x post, ab_ops ab = AbWrite -> ab_buffer ab = pre ++ x ++ post -> ab_pos ab = zlen pre ->
    zlen x = zlen enc -> zlen (ab_buffer ab) < 2 ^ 32 -> - 2 ^ 31 <= ab_left ab < 2 ^ 31 ->
    op ab = Some (moved ab (pre ++ enc ++ post) (zlen enc)).

Lemma writes_emits op enc : Emits op enc -> Writes op enc.
Proof. intros H ab pre x post. apply (emits_write (Emits := H)). Qed.

Lemma split_at (x : bytes) n m : zlen x = n + m -> 0 <= n -> 0 <= m -> exists x1 x2, x = x1 ++ x2 /\ zlen x1 = n /\ zlen x2 = m.
Proof.
  intros Hx Hn Hm. exists (take (Z.to_nat n) x), (drop (Z.to_nat n) x). rewrite take_drop. split; [done |].
  split; [apply zlen_take; lia | rewrite zlen_drop; lia].
Qed.

Lemma writes_then op1 op2 e1 e2 : Writes op1 e1 -> Writes op2 e2 -> Writes (fun ab => let? ab := op1 ab in op2 ab) (e1 ++ e2).
Proof.
  intros H1 H2 ab pre x post Hm Hb Hp Hx Hl Hr. rewrite zlen_app in Hx.
  destruct (split_at x (zlen e1) (zlen e2) Hx (zlen_nonneg _) (zlen_nonneg _)) as (x1 & x2 & -> & Hx1 & Hx2).
  rewrite (H1 ab pre x1 (x2 ++ post)); [opt | done | by rewrite Hb, <- !app_assoc | done..].
  rewrite (H2 _ (pre ++ e1) x2 post); [| done | cbn; by rewrite <- !app_assoc | cbn; rewrite zlen_app; lia | done | | by apply (sgn_range 32)].
  - rewrite moved_moved, zlen_app, <- !app_assoc. done.
  - cbn [moved set_cursor ab_buffer]. rewrite Hb in Hl. rewrite !zlen_app in *. lia.
Qed.

(** The translation of a local id that writes the name [n] where it is told. *)
Definition writes_name (l2p : net_entity -> option net_entity) (localid : Z) (n : bytes) : Prop :=
  forall p len, zlen n <= zlen p -> exists e, l2p (mk_ent 0 (Some p) len None 0 0 localid) = Some e /\
    ne_name e = Some (n ++ drop (length n) p) /\ ne_len e = zlen n.

Lemma writes_entity l2p localid n : writes_name l2p localid n -> zlen n < 2 ^ 31 -> Writes (write_entity l2p localid) (be_encode 4 (zlen n) ++ n).
Proof.
  intros Hn Hn31 ab pre x post Hm Hb Hp Hx Hl Hr. rewrite zlen_app, zlen_be_encode in Hx.
  pose proof (zlen_nonneg n). pose proof (zlen_nonneg pre). pose proof (zlen_nonneg post).
  destruct (split_at x 4 (zlen n) Hx ltac:(lia) (zlen_nonneg _)) as (x1 & x2 & -> & Hx1 & Hx2).
  unfold write_entity. rewrite Hp, Hb. rewrite Hb, !zlen_app in Hl. rewrite (proj2 (Z.leb_le _ _)) by (rewrite !zlen_app; lia). opt.
  assert (Z.to_nat (zlen pre + 4) = length (pre ++ x1)) as Es by (rewrite length_app; unfold zlen in *; lia).
  replace (pre ++ (x1 ++ x2) ++ post) with ((pre ++ x1) ++ x2 ++ post) by by rewrite <- !app_assoc.
  rewrite Es, drop_app_length, take_app_length.
  destruct (Hn (x2 ++ post) (u32 (ab_left ab - 4))) as (e & E1 & E2 & E3); [rewrite zlen_app; lia |]. rewrite E1. opt. rewrite E2. opt. rewrite E3.
  replace (drop (length n) (x2 ++ post)) with post by (symmetry; apply drop_app_length'; unfold zlen in Hx2; lia).
  rewrite (writes_emits _ _ (emits_uint32 (zlen n)) _ pre x1 (n ++ post)); cbn [set_cursor ab_ops ab_buffer ab_pos ab_left].
  - opt. rewrite zlen_be_encode. unfold ops_skip. change (ab_ops (moved _ _ _)) with (ab_ops ab). rewrite Hm. unfold write_skip, moved, set_cursor.
    cbn [ab_flags ab_buffer ab_pos ab_left ab_len ab_count ab_ops]. rewrite Hp, u32_id, <- (app_assoc _ n post), (zlen_app _ n), zlen_be_encode by (unfold is_u32; lia).
    replace (sgn 32 (ab_left ab - Z.of_nat 4) - zlen n) with (sgn 32 (ab_left ab - Z.of_nat 4) + - zlen n) by lia. rewrite sgn_add.
    replace (ab_left ab - Z.of_nat 4 + - zlen n) with (ab_left ab - (Z.of_nat 4 + zlen n)) by lia.
    replace (zlen pre + Z.of_nat 4 + zlen n) with (zlen pre + (Z.of_nat 4 + zlen n)) by lia. by rewrite Hm.
  - done.
  - by rewrite <- app_assoc.
  - done.
  - by rewrite zlen_be_encode.
  - rewrite !zlen_app. lia.
  - done.
Qed.

Lemma convert_int64 z : - 2 ^ 63 < z < 2 ^ 63 -> convert_int64_2c z = Some (u64 z).
Proof.
  intros Hz. unfold convert_int64_2c. destruct (Z.leb_spec 0 z); [done |]. rewrite (proj2 (Z.eqb_neq _ _)) by lia. f_equal.
  unfold u64. rewrite (Z.mod_small (- z)) by lia. rewrite Zplus_mod_idemp_l. f_equal. unfold Z.lnot. lia.
Qed.

Lemma writes_int64 z : - 2 ^ 63 < z < 2 ^ 63 -> Writes (fun ab => ops_int64 ab z) (be_encode 8 (u64 z)).
Proof.
  intros Hz ab pre x post Hm Hb Hp Hx Hl Hr. unfold ops_int64. rewrite Hm. unfold write_int64. rewrite convert_int64 by done. opt.
  assert (ops_uint64 ab (u64 z) = write_uint64 ab (u64 z)) as <- by (unfold ops_uint64; by rewrite Hm).
  by apply (writes_emits _ _ (emits_uint64 (u64 z)) ab pre x post).
Qed.

(** ** What versions 4 to 6 write *)

Definition type_table (v : ver) : list Z := match v with V4 => type_reverse_v04 | _ => type_reverse_v05 end.
Definition type_byte (v : ver) (st : system_stat) : Z := default SSH_FILEXFER_TYPE_UNKNOWN (reverse_type (type_table v) st).

Lemma reverse_type_some v st : reverse_type (type_table v) st = Some (type_byte v st) /\ is_u8 (type_byte v st).
Proof.
  unfold type_byte. assert (exists t, reverse_type (type_table v) st = Some t /\ is_u8 t) as (t & -> & Ht); [| done].
  unfold reverse_type. destruct (Z.ltb_spec (IFTODT (get_type_system_stat st)) 13) as [H|H]; [| by eexists].
  destruct (lookup_lt_is_Some_2 (type_table v) (Z.to_nat (IFTODT (get_type_system_stat st)))) as [t Ht].
  { change (length (type_table v)) with (length (type_table v)). assert (length (type_table v) = 13%nat) as -> by by destruct v. lia. }
  exists t. split; [done |]. assert (Forall is_u8 (type_table v)) as Hf by (destruct v; repeat constructor; vm_compute; done).
  by apply (Forall_lookup_1 _ _ _ _ Hf Ht).
Qed.

Definition w_mask_of (v : ver) : Z := match v with V6 => w_mask_v06 | _ => w_mask_v04 end.
Definition r_mask_of (v : ver) : Z := match v with V4 => r_mask_v04 | V5 => r_mask_v05 | V6 => r_mask_v06 end.

(** The bytes of the attribute with the index [ctr], with the names of the owner
    and the group. *)
Definition encode_names (v : ver) (st : system_stat) (un gn : bytes) (ctr : nat) : bytes :=
  match ctr with
  | 0 => be_encode 8 (u64 (get_size_system_stat st))
  | 2 => be_encode 4 (Z.land (get_mode_system_stat st) S_IRWXALL)
  | 3 => be_encode 8 (u64 (get_atime_sec_system_stat st))
  | 5 => be_encode 8 (u64 (get_mtime_sec_system_stat st))
  | 7 => (be_encode 4 (zlen un) ++ un) ++ (be_encode 4 (zlen gn) ++ gn)
  | 15 => be_encode 8 (u64 (get_ctime_sec_system_stat st))
  | 32 => [u8 (type_byte v st)]
  | 33 => be_encode 4 (get_atime_nsec_system_stat st)
  | 34 => be_encode 4 (get_mtime_nsec_system_stat st)
  | 36 => be_encode 4 (get_ctime_nsec_system_stat st)
  | _ => []
  end%nat.

Definition encoding_names (v : ver) (st : system_stat) (un gn : bytes) (cbs : list nat) : bytes := concat (encode_names v st un gn <$> cbs).

(** The indices with a callback that writes. *)
Definition writable_names (v : ver) : list nat :=
  [0; 2; 3; 5; 7; 32; 34]%nat ++ match v with V6 => [15; 33; 36]%nat | _ => [] end.

Definition times_ok (st : system_stat) : Prop :=
  - 2 ^ 63 < get_atime_sec_system_stat st < 2 ^ 63 /\ - 2 ^ 63 < get_mtime_sec_system_stat st < 2 ^ 63 /\ - 2 ^ 63 < get_ctime_sec_system_stat st < 2 ^ 63.

(** The announced lengths of a table. *)
Lemma fill_small entries : Forall (fun x => 0 <= cb_maxlength x.2 <= 1000) entries -> Forall (fun e => 0 <= cb_maxlength e <= 1000) (fill_attrcb entries).
Proof.
  unfold fill_attrcb. assert (Forall (fun e => 0 <= cb_maxlength e <= 1000) (init_attrcb_zero ATTR_CONTEXT_COUNT_ATTR_CB)) as H.
  { apply Forall_forall. intros e He. apply list_elem_of_In, elem_of_replicate in He as [-> _]. done. }
  revert H. generalize (init_attrcb_zero ATTR_CONTEXT_COUNT_ATTR_CB) as t. induction entries as [|x l IH]; intros t Ht Hl; [done |].
  inversion Hl; subst. cbn [foldl]. apply IH; [by apply Forall_insert | done].
Qed.

(** A callback that only writes one number. *)
Ltac plain_writer op tac :=
  repeat match goal with v : ver |- _ => destruct v end; eexists _, _, op;
  (split; [reflexivity | split; [reflexivity | split; [intros ab; reflexivity | split; [tac | rewrite zlen_be_encode; reflexivity || discriminate]]]]).

(** ** The announced size *)

Section Sizes.
Context (mc : mapcb).

Definition announced (v : ver) (cbs : list nat) : Z := foldr (fun ctr n => default 0 (cb_maxlength <$> ac_attrcb (actx mc v) !! ctr) + n) 0 cbs.

(** Nanoseconds of the access time can be written in version 6 only. *)
Definition subseconds_ok (v : ver) (fl m : Z) : Prop := v = V6 \/ has fl SUB = false \/ has m SSH_FILEXFER_ATTR_ACCESSTIME = false.

Lemma has_zero m : has m 0 = false.
Proof. unfold has. by rewrite Z.land_0_r. Qed.

Lemma item_writable v fl m it : it ∈ items_of v -> subseconds_ok v fl m ->
  Forall (fun ctr => ctr ∈ writable_names v) (item_order (Z.land fl SUB) (Z.land m (w_mask_of v)) it).
Proof.
  intros Hit Hs. unfold item_order. rewrite !has_land. change (Z.land SUB SSH_FILEXFER_ATTR_SUBSECOND_TIMES) with SUB.
  destruct v; cbn [items_of app times_v04] in Hit; repeat (apply elem_of_cons in Hit as [-> |Hit]); try (by apply elem_of_nil in Hit);
    cbn [it_code it_ctr it_nsec plain time size_it ownergroup_it permissions_it acl_it bits_it extended_it w_mask_of];
    match goal with |- context [has m (Z.land ?a ?b)] => let x := eval vm_compute in (Z.land a b) in change (Z.land a b) with x end;
    rewrite ?has_zero; try constructor;
    (destruct (has m _) eqn:Em; [| constructor]); repeat case_match; repeat (apply List.Forall_cons; [apply (bool_decide_unpack _); vm_compute; exact I |]); try apply List.Forall_nil.
  all: destruct Hs as [Hs|[Hs|Hs]]; [done | congruence | change SSH_FILEXFER_ATTR_ACCESSTIME with 8 in Hs; congruence].
Qed.

Lemma order_writable_names v fl m : subseconds_ok v fl m ->
  Forall (fun ctr => ctr ∈ writable_names v) (order_v v (mk_valid (Z.land fl SUB) (Z.land m (w_mask_of v)))).
Proof.
  intros Hs. unfold order_v. apply List.Forall_cons; [apply (bool_decide_unpack _); destruct v; vm_compute; exact I |]. unfold items_order.
  apply Forall_concat, Forall_fmap, Forall_forall. intros it Hit. apply item_writable; [| done]. by apply list_elem_of_In.
Qed.

Lemma items_order_length items fl m : (length (items_order items fl m) <= 2 * length items)%nat.
Proof.
  unfold items_order. induction items as [|it items IH]; [done |]. cbn [fmap list_fmap concat length]. rewrite length_app.
  enough (length (item_order fl m it) <= 2)%nat by lia. unfold item_order. repeat case_match; cbn; lia.
Qed.

Lemma order_length v valid : (length (order_v v valid) <= ATTR_CONTEXT_COUNT_ATTR_CB)%nat.
Proof.
  unfold order_v, ATTR_CONTEXT_COUNT_ATTR_CB. cbn [length]. pose proof (items_order_length (items_of v) (v_flags valid) (v_mask valid)).
  assert (length (items_of v) <= 16)%nat by (destruct v; vm_compute; lia). lia.
Qed.

Lemma entry_small v ctr e : ac_attrcb (actx mc v) !! ctr = Some e -> 0 <= cb_maxlength e <= 1000.
Proof.
  intros He. assert (Forall (fun e => 0 <= cb_maxlength e <= 1000) (ac_attrcb (actx mc v))) as H; [| by apply (Forall_lookup_1 _ _ _ _ H He)].
  destruct v; apply fill_small; repeat (apply List.Forall_cons; [vm_compute; split; discriminate |]); apply List.Forall_nil.
Qed.

Lemma announced_small v cbs : 0 <= announced v cbs <= 1000 * zlen cbs.
Proof.
  unfold announced. induction cbs as [|ctr cbs IH]; [done |]. cbn [foldr]. rewrite zlen_cons.
  destruct (ac_attrcb (actx mc v) !! ctr) as [e|] eqn:He; cbn; [apply entry_small in He; lia | lia].
Qed.

Lemma writable_entry v ctr : ctr ∈ writable_names v -> is_Some (ac_attrcb (actx mc v) !! ctr).
Proof.
  intros Hc. assert (Forall (fun ctr => is_Some (ac_attrcb (actx mc v) !! ctr)) (writable_names v)) as Hw by (destruct v; repeat constructor; by eexists).
  rewrite List.Forall_forall in Hw. apply Hw. by apply list_elem_of_In.
Qed.

Lemma run_prepared v cbs : Forall (fun ctr => ctr ∈ writable_names v) cbs -> forall s, (length (ps_cb s) + length cbs <= ATTR_CONTEXT_COUNT_ATTR_CB)%nat ->
  is_Some (run_cbs (_prepare_write_cb (actx mc v)) cbs s).
Proof.
  induction 1 as [|ctr cbs Hctr _ IH]; intros s Hl; [by eexists |]. cbn [length] in Hl.
  destruct (writable_entry v ctr Hctr) as [e He]. cbn [run_cbs]. unfold _prepare_write_cb at 2. rewrite He. opt.
  unfold note_cb. rewrite bool_decide_eq_true_2 by lia. opt. apply IH. cbn. rewrite length_app. cbn. lia.
Qed.

Lemma selected_write v r fl m : selected (actx mc v) (or_flag r RW_ATTR_RESULT_FLAG_WRITE) (mk_valid fl m) = mk_valid (Z.land fl SUB) (Z.land m (w_mask_of v)).
Proof. unfold selected. cbn [or_flag r_flags]. rewrite has_lor_same by done. by destruct v. Qed.

Lemma size_announced st v c mem fl m ab0 : cached_ok mc v c -> subseconds_ok v fl m ->
  let cbs := order_v v (mk_valid (Z.land fl SUB) (Z.land m (w_mask_of v))) in
  exists s1 c1, get_size_buffer_write_attributes mem (actx mc v) c ab0 RW_ATTR_RESULT_INIT st (mk_valid fl m) = Some (announced v cbs, s1, c1) /\ cached_ok mc v c1 /\
    r_valid (ps_r s1) = mk_valid (Z.land fl SUB) (Z.land m (w_mask_of v)).
Proof.
  intros Hc Hs cbs. pose proof (order_writable_names v fl m Hs) as Hw. fold cbs in Hw. unfold get_size_buffer_write_attributes.
  match goal with |- context [parse_attributes_generic _ c ?f ?s ?w] => destruct (cached_run mc v c f s w Hc (prepare_calm mc v) (prepare_no_flags mc v)) as [fl' ->] end.
  cbn [ps_r]. rewrite selected_write. fold cbs. pose proof (order_length v (mk_valid (Z.land fl SUB) (Z.land m (w_mask_of v)))) as Hl. fold cbs in Hl.
  match goal with |- context [run_cbs _ _ ?x] => destruct (run_prepared v cbs Hw x) as [s1 Hs1] end; [cbn [set_r ps_cb length]; lia |]. rewrite Hs1. cbn [option_map]. opt.
  destruct (run_lengths mc v cbs _ _ Hs1) as (H1 & H2 & H3).
  destruct (cached_remember mc v mem c (with_flags fl' s1) Hc) as (c1 & -> & Hc1).
  { cbn [with_flags set_r ps_cb ps_r r_valid]. rewrite H1, H2. cbn [set_r ps_cb ps_r start_result r_valid app]. by rewrite selected_write. }
  assert (ps_len (with_flags fl' s1) = announced v cbs) as Hn.
  2: { opt. rewrite Hn. eexists _, c1. split; [reflexivity |]. split; [done |]. cbn [with_flags set_r ps_r r_valid]. rewrite H2. cbn [set_r ps_r start_result r_valid]. by rewrite selected_write. }
  change (ps_len (with_flags fl' s1)) with (ps_len s1). rewrite H3; [done | done | |].
  - apply Forall_forall. intros ctr _ e He. apply entry_small in He. lia.
  - change (0 + announced v cbs < 2 ^ 32). pose proof (announced_small v cbs). unfold zlen, ATTR_CONTEXT_COUNT_ATTR_CB in *. lia.
Qed.

End Sizes.

Section Written.
Context (mc : mapcb) (st : system_stat) (un gn : bytes).

(** What is written for the owner and the group of [st]. *)
Hypothesis user_named : writes_name (mc_user_l2p mc) (get_uid_system_stat st) un.
Hypothesis group_named : writes_name (mc_group_l2p mc) (get_gid_system_stat st) gn.
Hypothesis names_short : zlen un + zlen gn + 8 <= ownergroup_maxlength.
Hypothesis times_fit : times_ok st.

Lemma writer_of v ctr : ctr ∈ writable_names v -> exists e cb op, ac_attrcb (actx mc v) !! ctr = Some e /\ cb_w_cb e = Some cb /\
  (forall ab, cb ab st = (let? ab := op ab in Some (ab, st))) /\ Writes op (encode_names v st un gn ctr) /\
  zlen (encode_names v st un gn ctr) <= cb_maxlength e.
Proof.
  intros Hc. destruct times_fit as (Ha & Hm & Hch). pose proof (zlen_nonneg un). pose proof (zlen_nonneg gn).
  assert (zlen un < 2 ^ 31 /\ zlen gn < 2 ^ 31) as [Hun Hgn] by (assert (ownergroup_maxlength = 580) by reflexivity; lia).
  destruct (reverse_type_some v st) as [Et _].
  unfold writable_names in Hc.
  assert (ctr = 0 \/ ctr = 2 \/ ctr = 3 \/ ctr = 5 \/ ctr = 7 \/ ctr = 32 \/ ctr = 34 \/ (v = V6 /\ (ctr = 15 \/ ctr = 33 \/ ctr = 36)))%nat as Hcase.
  { destruct v; cbn [app] in Hc; repeat (apply elem_of_cons in Hc as [-> |Hc]; [tauto |]); by apply elem_of_nil in Hc. }
  clear Hc. destruct Hcase as [-> |[-> |[-> |[-> |[-> |[-> |[-> |[-> [-> |[-> | ->]]]]]]]]]]; cbn [encode_names].
  - plain_writer (fun ab => ops_uint64 ab (u64 (get_size_system_stat st))) ltac:(apply writes_emits, emits_uint64).
  - plain_writer (fun ab => ops_uint32 ab (Z.land (get_mode_system_stat st) S_IRWXALL)) ltac:(apply writes_emits, emits_uint32).
  - plain_writer (fun ab => ops_int64 ab (get_atime_sec_system_stat st)) ltac:(apply (writes_int64 _ Ha)).
  - plain_writer (fun ab => ops_int64 ab (get_mtime_sec_system_stat st)) ltac:(apply (writes_int64 _ Hm)).
  - assert (exists e, ac_attrcb (actx mc v) !! 7%nat = Some e /\ cb_w_cb e = Some (write_attr_ownergroup_v04 mc) /\ cb_maxlength e = ownergroup_maxlength) as (e & He & Hw & Hl) by by (destruct v; eexists).
    exists e, (write_attr_ownergroup_v04 mc), (fun ab => let? ab := write_entity (mc_user_l2p mc) (get_uid_system_stat st) ab in write_entity (mc_group_l2p mc) (get_gid_system_stat st) ab).
    split_and!; [done | done | | |].
    + intros ab. unfold write_attr_ownergroup_v04. by destruct (write_entity _ _ ab); opt.
    + apply writes_then; by apply writes_entity.
    + rewrite Hl, !zlen_app, !zlen_be_encode. lia.
  - assert (exists e cb, ac_attrcb (actx mc v) !! 32%nat = Some e /\ cb_w_cb e = Some cb /\ cb_maxlength e = 1 /\
      forall ab, cb ab st = (let? type := reverse_type (type_table v) st in let? ab := ops_uchar ab type in Some (ab, st))) as (e & cb & He & Hw & Hl & Hcb).
    { destruct v; (eexists _, _; split; [reflexivity | split; [reflexivity | split; [reflexivity | intros ab; reflexivity]]]). }
    exists e, cb, (fun ab => ops_uchar ab (type_byte v st)). split_and!; [done | done | | apply writes_emits, emits_uchar | by rewrite Hl].
    intros ab. by rewrite Hcb, Et.
  - plain_writer (fun ab => ops_uint32 ab (get_mtime_nsec_system_stat st)) ltac:(apply writes_emits, emits_uint32).
  - plain_writer (fun ab => ops_int64 ab (get_ctime_sec_system_stat st)) ltac:(apply (writes_int64 _ Hch)).
  - plain_writer (fun ab => ops_uint32 ab (get_atime_nsec_system_stat st)) ltac:(apply writes_emits, emits_uint32).
  - plain_writer (fun ab => ops_uint32 ab (get_ctime_nsec_system_stat st)) ltac:(apply writes_emits, emits_uint32).
Qed.

Lemma run_writes_names v cbs : Forall (fun ctr => ctr ∈ writable_names v) cbs -> exists op, Writes op (encoding_names v st un gn cbs) /\
  forall s, ps_stat s = st -> exists r', run_cbs (_attr_write_cb (actx mc v)) cbs s =
    (let? ab := op (ps_ab s) in Some (mk_pstate ab r' st (ps_cb s) (ps_len s))).
Proof.
  induction 1 as [|ctr cbs Hctr _ (op2 & He2 & H2)].
  - exists Some. split; [apply writes_emits, emits_some |]. intros s <-. exists (ps_r s). by destruct s.
  - destruct (writer_of v ctr Hctr) as (e & cb & op1 & Hcb & Hw & Hop & He1 & _).
    exists (fun ab => let? ab := op1 ab in op2 ab). split; [by apply writes_then |]. intros s Hs. cbn [run_cbs].
    unfold _attr_write_cb at 2. rewrite Hcb. opt. rewrite Hw. opt. cbn [ps_ab ps_stat set_r]. rewrite Hs, Hop.
    destruct (op1 (ps_ab s)) as [ab1|]; opt; [| by exists (ps_r s)]. cbn [fst snd set_io set_r ps_r ps_cb ps_len].
    match goal with |- context [run_cbs _ cbs ?x] => destruct (H2 x eq_refl) as [r' ->] end. by exists r'.
Qed.

Lemma announced_enough v cbs : Forall (fun ctr => ctr ∈ writable_names v) cbs -> zlen (encoding_names v st un gn cbs) <= announced mc v cbs.
Proof.
  induction 1 as [|ctr cbs Hctr _ IH]; [done |]. destruct (writer_of v ctr Hctr) as (e & cb & op1 & He & _ & _ & _ & Hl).
  unfold encoding_names, announced in *. cbn [fmap list_fmap concat foldr]. rewrite zlen_app, He. cbn. lia.
Qed.

(** Writing at any place of a buffer, with any result left by another call. *)
Lemma names_written_at v c r fl m ab pre x post : cached_ok mc v c -> subseconds_ok v fl m ->
  let enc := encoding_names v st un gn (order_v v (mk_valid (Z.land fl SUB) (Z.land m (w_mask_of v)))) in
  ab_ops ab = AbWrite -> ab_buffer ab = pre ++ x ++ post -> ab_pos ab = zlen pre -> zlen x = zlen enc -> zlen (ab_buffer ab) < 2 ^ 32 -> - 2 ^ 31 <= ab_left ab < 2 ^ 31 ->
  exists s2, write_attributes_generic (actx mc v) c ab r st (mk_valid fl m) = Some s2 /\ ps_ab s2 = moved ab (pre ++ enc ++ post) (zlen enc).
Proof.
  intros Hc Hs enc Hm Hb Hp Hx Hl Hr. pose proof (order_writable_names v fl m Hs) as Hw. unfold write_attributes_generic.
  match goal with |- context [parse_attributes_generic _ c ?f ?s ?w] => destruct (cached_run mc v c f s w Hc (write_calm mc v) (write_no_flags mc v)) as [fl' ->] end.
  cbn [ps_r]. rewrite selected_write. destruct (run_writes_names v _ Hw) as (op & Hop & Hrun). fold enc in Hop.
  match goal with |- context [run_cbs _ _ ?x] => destruct (Hrun x eq_refl) as [r' ->] end. cbn [set_r ps_ab].
  rewrite (Hop ab pre x post) by done. cbn [mbind option_bind option_map]. by eexists.
Qed.

Lemma names_written v c fl m ab0 buffer : cached_ok mc v c -> subseconds_ok v fl m ->
  let cbs := order_v v (mk_valid (Z.land fl SUB) (Z.land m (w_mask_of v))) in
  let enc := encoding_names v st un gn cbs in
  zlen buffer = announced mc v cbs -> exists s2,
    write_attributes_generic (actx mc v) c (set_attr_buffer_write ab0 buffer (zlen buffer)) RW_ATTR_RESULT_INIT st (mk_valid fl m) = Some s2 /\
    ab_buffer (ps_ab s2) = enc ++ drop (length enc) buffer /\ ab_pos (ps_ab s2) = zlen enc /\ ab_left (ps_ab s2) = zlen buffer - zlen enc /\ zlen enc <= zlen buffer.
Proof.
  intros Hc Hs cbs enc Hb. pose proof (order_writable_names v fl m Hs) as Hw. fold cbs in Hw.
  pose proof (announced_enough v cbs Hw) as He. fold enc in He. pose proof (announced_small mc v cbs) as Ha. pose proof (order_length v (mk_valid (Z.land fl SUB) (Z.land m (w_mask_of v)))) as Hl. fold cbs in Hl.
  assert (zlen buffer < 2 ^ 31) as Hb31 by (rewrite Hb; unfold ATTR_CONTEXT_COUNT_ATTR_CB in Hl; unfold zlen in Ha; lia).
  pose proof (zlen_nonneg enc).
  destruct (names_written_at v c RW_ATTR_RESULT_INIT fl m (set_attr_buffer_write ab0 buffer (zlen buffer)) [] (take (length enc) buffer) (drop (length enc) buffer)) as (s2 & E & Eab);
    [done | done | done | cbn; by rewrite take_drop | done | fold cbs; fold enc; unfold zlen in *; rewrite length_take; lia | cbn; lia | by apply (sgn_range 32) |].
  fold cbs in Eab. fold enc in Eab. exists s2. split; [exact E |]. rewrite Eab. cbn [moved set_cursor ab_buffer ab_pos ab_left set_attr_buffer_write app].
  split_and!; [done | done | rewrite !sgn_small by (rewrite ?sgn_small; lia); done | lia].
Qed.

End Written.

(** ** What an operation reads *)

(** With the reading table and [enc] in front of [post] at the position, the result
    is [y] and the position behind [enc]. *)
Definition Reads {A} (op : attr_buffer -> option (A * attr_buffer)) (enc post : bytes) (y : A) : Prop :=
  forall ab pre, ab_ops ab = AbRead -> ab_buffer ab = pre ++ enc ++ post -> ab_pos ab = zlen pre -> zlen (ab_buffer ab) < 2 ^ 32 ->
    zlen enc <= ab_left ab < 2 ^ 31 -> op ab = Some (y, moved ab (ab_buffer ab) (zlen enc)).

Lemma reads_accepts {A} (op : attr_buffer -> option (A * attr_buffer)) enc post y : Accepts op enc y -> Reads (reading op) enc post y.
Proof. intros H ab pre Hm Hb Hp Hn Hl. unfold reading. rewrite Hm. by apply (H ab pre post). Qed.

Lemma reads_bind {A B} (op1 : attr_buffer -> option (A * attr_buffer)) (op2 : A -> attr_buffer -> option (B * attr_buffer)) e1 e2 post y1 y2 :
  Reads op1 e1 (e2 ++ post) y1 -> Reads (op2 y1) e2 post y2 -> Reads (fun ab => let? r := op1 ab in op2 r.1 r.2) (e1 ++ e2) post y2.
Proof.
  intros H1 H2 ab pre Hm Hb Hp Hn Hl. rewrite zlen_app in Hl. pose proof (zlen_nonneg e1). pose proof (zlen_nonneg e2).
  rewrite (H1 ab pre); [opt; cbn [fst snd] | done | by rewrite Hb, <- app_assoc | done | done | lia].
  rewrite (H2 _ (pre ++ e1)); cbn [moved set_cursor ab_buffer ab_pos ab_left ab_ops].
  - f_equal. f_equal. fold (moved ab (ab_buffer ab) (zlen e1)). by rewrite moved_moved, zlen_app.
  - done.
  - by rewrite Hb, <- !app_assoc.
  - rewrite zlen_app. lia.
  - done.
  - rewrite sgn_small; lia.
Qed.

(** A string whose callback leaves the memory as it is. *)
Lemma reads_string {A} (cb : bytes -> Z -> A -> option (bytes * A)) x y d post : 0 < zlen d < 2 ^ 31 ->
  cb (d ++ post) (zlen d) x = Some (d ++ post, y) -> Reads (rd_string cb x) (be_encode 4 (zlen d) ++ d) post y.
Proof.
  intros Hd Hcb ab pre Hm Hb Hp Hn Hl. rewrite zlen_app, zlen_be_encode in Hl. unfold rd_string. rewrite Hm. unfold read_string.
  assert (Accepts read_uint32 (be_encode 4 (zlen d)) (zlen d)) as Ha by (apply accepts_uint32; unfold is_u32; lia).
  rewrite (Ha ab pre (d ++ post)); [opt | by rewrite Hb, <- app_assoc | done | done | rewrite zlen_be_encode; lia].
  set (ab1 := moved ab (ab_buffer ab) (zlen (be_encode 4 (zlen d)))).
  assert (ab_buffer ab1 = (pre ++ be_encode 4 (zlen d)) ++ d ++ post) as Hb1 by (cbn; by rewrite Hb, <- !app_assoc).
  assert (ab_pos ab1 = zlen (pre ++ be_encode 4 (zlen d))) as Hp1 by (cbn [ab1 moved set_cursor ab_pos]; rewrite Hp, zlen_app; done).
  assert (ab_left ab1 = ab_left ab - 4) as Hl1 by (cbn [ab1 moved set_cursor ab_left]; rewrite zlen_be_encode, sgn_small; lia).
  assert (zlen (ab_buffer ab1) < 2 ^ 32) as Hn1 by done.
  rewrite Hl1, u32_id, (proj2 (Z.ltb_lt _ _)), (proj2 (Z.leb_le _ _)), (proj2 (Z.leb_le _ _)); cbn [andb]; try (unfold is_u32; lia).
  2: { rewrite Hb1, Hp1, !zlen_app. pose proof (zlen_nonneg post). lia. }
  opt. cbn [s_view s_ptr set_ptr s_len SshString.set_len]. opt. rewrite (at_pos_app _ _ _ Hb1 Hp1), Hcb. opt. cbn [fst snd].
  rewrite (advance_moved _ _ d post Hb1 Hp1 Hn1). cbn [moved set_cursor ab_pos ab_left ab_buffer].
  replace (ab_pos ab1 + zlen d - zlen d) with (ab_pos ab1) by lia. rewrite Hp1, Hb1.
  replace (Z.to_nat (zlen (pre ++ be_encode 4 (zlen d)))) with (length (pre ++ be_encode 4 (zlen d))) by (unfold zlen; lia).
  rewrite take_app_length, <- Hb1. change (ab_buffer ab1) with (ab_buffer ab). f_equal. f_equal.
  rewrite <- Hp1. change (moved ab1 (ab_buffer ab) (zlen d) = moved ab (ab_buffer ab) (zlen (be_encode 4 (zlen d) ++ d))).
  unfold ab1. by rewrite moved_moved, zlen_app.
Qed.

(** ** What versions 4 to 6 read back *)

Definition type_back (v : ver) (t : Z) : Z :=
  match v with V4 => if t <? 5 then default 0 (type_mapping_v04 !! Z.to_nat t) else 0 | _ => if t <? 10 then default 0 (type_mapping_v05 !! Z.to_nat t) else 0 end.

(** The types a version can tell apart. *)
Definition known_type (v : ver) (type : Z) : bool :=
  bool_decide (type ∈ [S_IFREG; S_IFDIR; S_IFLNK] ++ match v with V4 => [] | _ => [S_IFSOCK; S_IFCHR; S_IFBLK; S_IFIFO] end).

Lemma type_kept v st : wf_stat st -> type_back v (type_byte v st) = if known_type v (get_type_system_stat st) then get_type_system_stat st else 0.
Proof.
  intros (Hm & _). unfold type_byte, reverse_type. rewrite get_type_value by done. pose proof (mode_split _ Hm) as (Ht & _ & _).
  set (t := sst_mode st / 4096) in *.
  assert (t = 0 \/ t = 1 \/ t = 2 \/ t = 3 \/ t = 4 \/ t = 5 \/ t = 6 \/ t = 7 \/ t = 8 \/ t = 9 \/ t = 10 \/ t = 11 \/ t = 12 \/ t = 13 \/ t = 14 \/ t = 15) as Hc by lia.
  clearbody t. repeat (destruct Hc as [-> |Hc]; [by destruct v |]). subst t. by destruct v.
Qed.

(** The translation of the name [n] in front of [post]. *)
Definition reads_name (p2l : net_entity -> option net_entity) (n post : bytes) (id : Z) : Prop :=
  exists e, p2l (mk_ent 0 (Some (n ++ post)) (zlen n) None 0 0 0) = Some e /\ ne_name e = Some (n ++ post) /\ ne_localid e = id.

(** The attributes [st0] after the attribute [ctr] of [st] has been read. *)
Definition apply_names (v : ver) (st st0 : system_stat) (ctr : nat) : system_stat :=
  match ctr with
  | 0 => set_size_system_stat st0 (sgn 64 (u64 (get_size_system_stat st)))
  | 2 => set_mode_system_stat st0 (u16 (Z.land (Z.land (get_mode_system_stat st) S_IRWXALL) S_IRWXALL))
  | 7 => set_gid_system_stat (set_uid_system_stat st0 (get_uid_system_stat st)) (get_gid_system_stat st)
  | 32 => set_type_system_stat st0 (type_back v (type_byte v st))
  | _ => st0
  end%nat.

Section ReadBack.
Context (mc : mapcb) (st : system_stat) (un gn : bytes).
Hypothesis st_ok : wf_stat st.
Hypothesis names_fit : 0 < zlen un < 2 ^ 31 /\ 0 < zlen gn < 2 ^ 31.

(** The two names are read where [post] follows them. *)
Definition names_read (post : bytes) : Prop :=
  reads_name (mc_user_p2l mc) un ((be_encode 4 (zlen gn) ++ gn) ++ post) (get_uid_system_stat st) /\
  reads_name (mc_group_p2l mc) gn post (get_gid_system_stat st).

Lemma reads_map {A} (g : A -> system_stat) (op : attr_buffer -> option (A * attr_buffer)) (cb : rw_attr_cb) st0 enc post y :
  (forall ab, cb ab st0 = (let? r := op ab in Some (r.2, g r.1))) -> Reads op enc post y -> Reads (stat_reader cb st0) enc post (g y).
Proof. intros Hcb H ab pre Hm Hb Hp Hn Hl. unfold stat_reader. rewrite Hcb, (H ab pre) by done. done. Qed.

Lemma read_size ab st0 : read_attr_size_v03 ab st0 = (let? r := read_uint64 ab in Some (r.2, set_size_system_stat st0 (sgn 64 r.1))).
Proof. done. Qed.

Lemma reader_of v ctr st0 post : ctr ∈ [0; 2; 7; 32]%nat -> (ctr = 7%nat -> names_read post) ->
  exists e cb, ac_attrcb (actx mc v) !! ctr = Some e /\ cb_r_cb e = Some cb /\
    Reads (stat_reader cb st0) (encode_names v st un gn ctr) post (apply_names v st st0 ctr).
Proof.
  intros Hc H7. pose proof st_ok as (Hm & _). destruct names_fit as [Hun Hgn].
  repeat (apply elem_of_cons in Hc as [-> |Hc]); [| | | | by apply elem_of_nil in Hc]; cbn [encode_names apply_names].
  - assert (exists e, ac_attrcb (actx mc v) !! 0%nat = Some e /\ cb_r_cb e = Some read_attr_size_v03) as (e & He & Hr) by by (destruct v; eexists).
    exists e, read_attr_size_v03. split_and!; [done | done |]. intros ab pre Hab Hb Hp Hn Hl. unfold stat_reader. rewrite read_size.
    assert (Accepts read_uint64 (be_encode 8 (u64 (get_size_system_stat st))) (u64 (get_size_system_stat st))) as Ha.
    { apply accepts_uint64. unfold is_u64, u64. apply Z.mod_pos_bound. lia. }
    by rewrite (Ha ab pre post).
  - assert (exists e, ac_attrcb (actx mc v) !! 2%nat = Some e /\ cb_r_cb e = Some read_attr_permissions_v04) as (e & He & Hr) by by (destruct v; eexists).
    exists e, read_attr_permissions_v04. split_and!; [done | done |].
    apply (reads_map (fun x => set_mode_system_stat st0 (u16 (Z.land x S_IRWXALL))) rd_uint32); [done |]. apply reads_accepts, accepts_uint32.
    rewrite land_rwx. pose proof (Z.mod_pos_bound (get_mode_system_stat st) 512 ltac:(lia)). unfold is_u32. lia.
  - assert (exists e, ac_attrcb (actx mc v) !! 7%nat = Some e /\ cb_r_cb e = Some (read_attr_ownergroup_v04 mc)) as (e & He & Hr) by by (destruct v; eexists).
    exists e, (read_attr_ownergroup_v04 mc). split_and!; [done | done |]. destruct (H7 eq_refl) as [(eu & Eu1 & Eu2 & Eu3) (eg & Eg1 & Eg2 & Eg3)].
    assert (Reads (fun ab => let? r := rd_string (_attr_cb_user mc) st0 ab in rd_string (_attr_cb_group mc) r.1 r.2)
      ((be_encode 4 (zlen un) ++ un) ++ be_encode 4 (zlen gn) ++ gn) post (set_gid_system_stat (set_uid_system_stat st0 (get_uid_system_stat st)) (get_gid_system_stat st))) as H.
    { apply (reads_bind (rd_string (_attr_cb_user mc) st0) (rd_string (_attr_cb_group mc)) _ _ _ (set_uid_system_stat st0 (get_uid_system_stat st))); apply reads_string; try done.
      - unfold _attr_cb_user. rewrite Eu1. opt. rewrite Eu2. opt. by rewrite Eu3.
      - unfold _attr_cb_group. rewrite Eg1. opt. rewrite Eg2. opt. by rewrite Eg3. }
    intros ab pre Hab Hb Hp Hn Hl. specialize (H ab pre Hab Hb Hp Hn Hl). cbv beta in H. unfold stat_reader, read_attr_ownergroup_v04.
    destruct (rd_string (_attr_cb_user mc) st0 ab) as [r|]; cbn [mbind option_bind] in H |- *; [| done]. by rewrite H.
  - destruct (reverse_type_some v st) as [_ Ht].
    assert (u8 (type_byte v st) = type_byte v st) as Eu by (apply Z.mod_small; exact Ht). rewrite Eu.
    assert (exists e cb, ac_attrcb (actx mc v) !! 32%nat = Some e /\ cb_r_cb e = Some cb /\
      forall ab, cb ab st0 = (let? r := rd_uchar ab in Some (r.2, set_type_system_stat st0 (type_back v r.1)))) as (e & cb & He & Hr & Hcb).
    { destruct v; (eexists _, _; split; [reflexivity | split; [reflexivity |]]); intros ab.
      - unfold read_attr_type_v04, type_back. destruct (rd_uchar ab) as [[t ab1]|]; opt; [| done]. cbn [fst snd].
        destruct (Z.ltb_spec t 5); [| done]. destruct (lookup_lt_is_Some_2 type_mapping_v04 (Z.to_nat t)) as [x ->]; [vm_compute type_mapping_v04; cbn; lia | done].
      - unfold read_attr_type_v05, type_back. destruct (rd_uchar ab) as [[t ab1]|]; opt; [| done]. cbn [fst snd].
        destruct (Z.ltb_spec t 10); [| done]. destruct (lookup_lt_is_Some_2 type_mapping_v05 (Z.to_nat t)) as [x ->]; [vm_compute type_mapping_v05; cbn; lia | done].
      - unfold read_attr_type_v06, type_back. destruct (rd_uchar ab) as [[t ab1]|]; opt; [| done]. cbn [fst snd].
        destruct (Z.ltb_spec t 10); [| done]. destruct (lookup_lt_is_Some_2 type_mapping_v05 (Z.to_nat t)) as [x ->]; [vm_compute type_mapping_v05; cbn; lia | done]. }
    exists e, cb. split_and!; [done | done |]. apply (reads_map (fun x => set_type_system_stat st0 (type_back v x)) rd_uchar); [done |]. apply reads_accepts, accepts_uchar.
Qed.

Lemma reads_ret {A} (y : A) post : Reads (fun ab => Some (y, ab)) [] post y.
Proof. intros ab pre Hm Hb Hp Hn Hl. by apply (accepts_ret y ab pre post). Qed.

(** The names are readable wherever they come. *)
Fixpoint names_ok (v : ver) (cbs : list nat) (tail : bytes) : Prop :=
  match cbs with
  | [] => True
  | ctr :: cbs => (ctr = 7%nat -> names_read (encoding_names v st un gn cbs ++ tail)) /\ names_ok v cbs tail
  end.

Lemma run_reads v cbs tail : Forall (fun ctr => ctr ∈ [0; 2; 7; 32]%nat) cbs -> names_ok v cbs tail -> forall s st0,
  (length (ps_cb s) + length cbs <= ATTR_CONTEXT_COUNT_ATTR_CB)%nat ->
  Reads (fun ab => let? s' := run_cbs (_attr_read_cb (actx mc v)) cbs (set_io s ab st0) in Some (ps_stat s', ps_ab s'))
    (encoding_names v st un gn cbs) tail (foldl (apply_names v st) st0 cbs).
Proof.
  intros Hcbs. induction Hcbs as [|ctr cbs Hctr _ IH]; intros Hok s st0 Hl; [exact (reads_ret st0 tail) |]. destruct Hok as [H7 Hok].
  destruct (reader_of v ctr st0 (encoding_names v st un gn cbs ++ tail) Hctr H7) as (e & cb & He & Hcb & Ha). cbn [length] in Hl. cbn [foldl].
  set (s1 := mk_pstate (ps_ab s) (mark (ps_r s) e) (ps_stat s) (ps_cb s ++ [ctr]) (u32 (ps_len s + cb_maxlength e))).
  assert (Reads (fun ab => let? q := stat_reader cb st0 ab in
    (fun x ab => let? s' := run_cbs (_attr_read_cb (actx mc v)) cbs (set_io s1 ab x) in Some (ps_stat s', ps_ab s')) q.1 q.2)
    (encoding_names v st un gn (ctr :: cbs)) tail (foldl (apply_names v st) (apply_names v st st0 ctr) cbs)) as H.
  { unfold encoding_names. cbn [fmap list_fmap concat].
    apply (reads_bind (stat_reader cb st0) (fun x ab => let? s' := run_cbs (_attr_read_cb (actx mc v)) cbs (set_io s1 ab x) in Some (ps_stat s', ps_ab s')) _ _ _ (apply_names v st st0 ctr));
      [exact Ha |]. apply IH; [done |]. cbn [s1 ps_cb]. rewrite length_app. cbn [length]. lia. }
  intros ab pre Hm Hb Hp Hn Hlf. rewrite <- (H ab pre Hm Hb Hp Hn Hlf). cbn [run_cbs]. unfold _attr_read_cb at 2.
  rewrite He. opt. unfold note_cb. cbn [ps_cb set_io]. rewrite bool_decide_eq_true_2 by lia. opt.
  rewrite Hcb. opt. cbn [ps_ab ps_stat set_io]. unfold stat_reader. destruct (cb ab st0) as [q|]; opt; done.
Qed.

(** The bits of the times a writer can send. *)
Definition TIMES : Z := foldl Z.lor 0 [SSH_FILEXFER_ATTR_ACCESSTIME; SSH_FILEXFER_ATTR_MODIFYTIME; SSH_FILEXFER_ATTR_CHANGETIME].

Definition order_plain (m : Z) : list nat :=
  SSH_FILEXFER_INDEX_TYPE :: (if has m SSH_FILEXFER_ATTR_SIZE then [0%nat] else []) ++ (if has m SSH_FILEXFER_ATTR_OWNERGROUP then [7%nat] else []) ++
  (if has m SSH_FILEXFER_ATTR_PERMISSIONS then [2%nat] else []).

Lemma has_part m k c : has m k = false -> Z.land k c = c -> has m c = false.
Proof. unfold has. rewrite !negb_false_iff, !Z.eqb_eq. intros H E. by rewrite <- E, Z.land_assoc, H, Z.land_0_l. Qed.

Lemma order_no_times v fl m : has m TIMES = false -> order_v v (mk_valid fl (Z.land m (w_mask_of v))) = order_plain m.
Proof.
  intros Ht. assert (has m SSH_FILEXFER_ATTR_ACCESSTIME = false /\ has m SSH_FILEXFER_ATTR_MODIFYTIME = false /\ has m SSH_FILEXFER_ATTR_CHANGETIME = false) as (T1 & T2 & T3).
  { split_and!; by apply (has_part m TIMES). }
  assert (forall c, has (Z.land m (w_mask_of v)) c = has m (Z.land (w_mask_of v) c)) as Hm by (intros c; apply has_land).
  unfold order_v, order_plain, items_order. f_equal. cbn [v_flags v_mask].
  destruct v; cbn [items_of app times_v04 fmap list_fmap concat]; unfold item_order;
    cbn [it_code it_ctr it_nsec plain time size_it ownergroup_it permissions_it acl_it bits_it extended_it]; rewrite !Hm; cbn [w_mask_of];
    repeat match goal with |- context [has m (Z.land ?a ?b)] => let x := eval vm_compute in (Z.land a b) in change (Z.land a b) with x end;
    change (has m 8) with (has m SSH_FILEXFER_ATTR_ACCESSTIME); change (has m 32) with (has m SSH_FILEXFER_ATTR_MODIFYTIME);
    try change (has m 32768) with (has m SSH_FILEXFER_ATTR_CHANGETIME); rewrite ?T1, ?T2, ?T3, ?has_zero;
    change (has m 1) with (has m SSH_FILEXFER_ATTR_SIZE); change (has m 128) with (has m SSH_FILEXFER_ATTR_OWNERGROUP); change (has m 4) with (has m SSH_FILEXFER_ATTR_PERMISSIONS);
    by destruct (has m SSH_FILEXFER_ATTR_SIZE), (has m SSH_FILEXFER_ATTR_OWNERGROUP), (has m SSH_FILEXFER_ATTR_PERMISSIONS).
Qed.

(** The attributes after reading: those of [st] that the mask names, as far as the
    version carries them, the type always, and those of [st0] for the rest. *)
Record agree_names (v : ver) (m : Z) (st0 st' : system_stat) : Prop := {
  an_size : sst_size st' = if has m SSH_FILEXFER_ATTR_SIZE then sst_size st else sst_size st0;
  an_uid : sst_uid st' = if has m SSH_FILEXFER_ATTR_OWNERGROUP then sst_uid st else sst_uid st0;
  an_gid : sst_gid st' = if has m SSH_FILEXFER_ATTR_OWNERGROUP then sst_gid st else sst_gid st0;
  an_type_of : get_type_system_stat st' = if known_type v (get_type_system_stat st) then get_type_system_stat st else 0;
  an_mode : get_mode_system_stat st' = if has m SSH_FILEXFER_ATTR_PERMISSIONS then Z.land (get_mode_system_stat st) S_IRWXALL else get_mode_system_stat st0;
  an_rest : sst_nlink st' = sst_nlink st0 /\ sst_ino st' = sst_ino st0 /\ sst_atime st' = sst_atime st0 /\ sst_mtime st' = sst_mtime st0 /\
            sst_ctime st' = sst_ctime st0 /\ sst_btime st' = sst_btime st0
}.

Lemma type_back_value v : exists t, type_back v (type_byte v st) = 4096 * t /\ 0 <= t < 16.
Proof.
  pose proof st_ok as (Hm & _). rewrite (type_kept v st st_ok). destruct (known_type v (get_type_system_stat st)); [| exists 0; split; [done | lia]].
  rewrite get_type_value by done. exists (sst_mode st / 4096). split; [done |]. apply mode_split in Hm as [Hm _]. exact Hm.
Qed.

(** Type and permissions of a word of which the type was read first. *)
Lemma type_then_mode v s1 : is_u16 (sst_mode s1) -> let s2 := set_type_system_stat s1 (type_back v (type_byte v st)) in
  is_u16 (sst_mode s2) /\ get_type_system_stat s2 = type_back v (type_byte v st) /\ get_mode_system_stat s2 = get_mode_system_stat s1 /\
  (forall s3, sst_mode s3 = sst_mode s2 -> let s4 := apply_names v st s3 2 in
     get_type_system_stat s4 = type_back v (type_byte v st) /\ get_mode_system_stat s4 = Z.land (get_mode_system_stat st) S_IRWXALL).
Proof.
  intros Hm1 s2. destruct (type_back_value v) as (t & Et & Ht). pose proof (mode_split _ Hm1) as (_ & Hp1 & _).
  assert (sst_mode s2 = 4096 * t + sst_mode s1 mod 4096) as E2.
  { unfold s2. rewrite Et, set_type_value; [| done | unfold is_u16; lia]. f_equal. f_equal. rewrite Z.mul_comm. by apply Z.div_mul. }
  assert (is_u16 (sst_mode s2)) as Hm2 by (rewrite E2; unfold is_u16; lia).
  assert (forall p, 0 <= p < 4096 -> (4096 * t + p) / 4096 = t /\ (4096 * t + p) mod 4096 = p) as Hdiv.
  { intros p Hp. split; [symmetry; apply (Z.div_unique _ _ _ p); lia | symmetry; apply (Z.mod_unique _ _ t); lia]. }
  destruct (Hdiv _ Hp1) as [Hd Hmod]. split_and!; [done | by rewrite get_type_value, E2, Hd, Et | by rewrite !get_mode_value, E2, Hmod |].
  intros s3 E3 s4. pose proof (Z.mod_pos_bound (get_mode_system_stat st) 512 ltac:(lia)) as Hp. set (p := get_mode_system_stat st mod 512) in *.
  assert (u16 (Z.land (Z.land (get_mode_system_stat st) S_IRWXALL) S_IRWXALL) = p) as Ep.
  { rewrite !land_rwx, Z.mod_mod by lia. apply Z.mod_small. unfold p in Hp. lia. }
  assert (sst_mode s4 = 4096 * t + p) as E4.
  { unfold s4. cbn [apply_names]. rewrite Ep, set_mode_value; [| by rewrite E3 | unfold is_u16; lia]. rewrite E3, E2, Hd. f_equal. apply Z.mod_small. lia. }
  destruct (Hdiv p ltac:(lia)) as [Hd4 Hm4]. assert (is_u16 (sst_mode s4)) as Hu4 by (rewrite E4; unfold is_u16; lia).
  split; [by rewrite get_type_value, E4, Hd4, Et | by rewrite get_mode_value, E4, Hm4, land_rwx].
Qed.

Lemma agree_plain v m st0 : wf_stat st0 -> agree_names v m st0 (foldl (apply_names v st) st0 (order_plain m)).
Proof.
  intros (Hm0 & _). pose proof st_ok as (_ & _ & _ & Hz). pose proof (size_back _ Hz) as Hsz.
  unfold order_plain. cbn [foldl]. rewrite !foldl_app. destruct (type_then_mode v st0 Hm0) as (Hu & Ht & Hmo & H3).
  change (apply_names v st st0 SSH_FILEXFER_INDEX_TYPE) with (set_type_system_stat st0 (type_back v (type_byte v st))).
  set (s1 := set_type_system_stat st0 _) in *.
  set (s3 := foldl (apply_names v st) (foldl (apply_names v st) s1 (if has m SSH_FILEXFER_ATTR_SIZE then _ else _)) (if has m SSH_FILEXFER_ATTR_OWNERGROUP then _ else _)).
  assert (sst_mode s3 = sst_mode s1) as Em by (subst s3; by destruct (has m SSH_FILEXFER_ATTR_SIZE), (has m SSH_FILEXFER_ATTR_OWNERGROUP)).
  destruct (H3 s3 Em) as [Ht4 Hm4]. rewrite (type_kept v st st_ok) in Ht, Ht4.
  assert (get_type_system_stat s3 = get_type_system_stat s1 /\ get_mode_system_stat s3 = get_mode_system_stat s1) as [Et3 Em3].
  { unfold get_type_system_stat, get_mode_system_stat. by rewrite Em. }
  split.
  all: destruct (has m SSH_FILEXFER_ATTR_PERMISSIONS); cbn [foldl]; try (exact Ht4 || exact Hm4 || by rewrite Et3, Ht || by rewrite Em3, Hmo).
  all: subst s3; by destruct (has m SSH_FILEXFER_ATTR_SIZE), (has m SSH_FILEXFER_ATTR_OWNERGROUP).
Qed.

Lemma names_ok_plain v m tail :
  (has m SSH_FILEXFER_ATTR_OWNERGROUP = true ->
   names_read ((if has m SSH_FILEXFER_ATTR_PERMISSIONS then be_encode 4 (Z.land (get_mode_system_stat st) S_IRWXALL) else []) ++ tail)) ->
  names_ok v (order_plain m) tail /\ Forall (fun ctr => ctr ∈ [0; 2; 7; 32]%nat) (order_plain m).
Proof.
  intros H. unfold order_plain. split.
  - destruct (has m SSH_FILEXFER_ATTR_SIZE), (has m SSH_FILEXFER_ATTR_OWNERGROUP), (has m SSH_FILEXFER_ATTR_PERMISSIONS); cbn [app names_ok]; split_and!; try done;
      intros _; specialize (H eq_refl); unfold encoding_names; cbn [fmap list_fmap concat encode_names]; rewrite ?app_nil_r; exact H.
  - destruct (has m SSH_FILEXFER_ATTR_SIZE), (has m SSH_FILEXFER_ATTR_OWNERGROUP), (has m SSH_FILEXFER_ATTR_PERMISSIONS); cbn [app];
      repeat (apply List.Forall_cons; [apply (bool_decide_unpack _); vm_compute; exact I |]); apply List.Forall_nil.
Qed.

Lemma selected_read v m : v_mask (selected (actx mc v) (or_flag RW_ATTR_RESULT_INIT RW_ATTR_RESULT_FLAG_READ)
    (mk_valid (Z.land (Z.land m (w_mask_of v)) SUB) (Z.ldiff (Z.land m (w_mask_of v)) SUB))) = Z.land m (w_mask_of v).
Proof.
  assert (forall k w, Z.ldiff (Z.land m w) k = Z.land m (Z.ldiff w k)) as Hl.
  { intros k w. apply Z.bits_inj'. intros n _. rewrite !Z.land_spec, !Z.ldiff_spec, Z.land_spec. by destruct (Z.testbit m n). }
  unfold selected. cbn [v_mask]. rewrite Hl.
  destruct v; cbn [actx ac_r_valid ac_w_valid init_attr_context_v04 init_attr_context_v05 init_attr_context_v06 w_mask_of];
    match goal with |- context [if has ?a ?b then _ else _] => change (has a b) with false end; cbn [v_mask]; by rewrite <- Z.land_assoc.
Qed.

Lemma run_noted v cbs : forall s s', run_cbs (_attr_read_cb (actx mc v)) cbs s = Some s' -> ps_cb s' = ps_cb s ++ cbs /\ r_valid (ps_r s') = r_valid (ps_r s).
Proof.
  induction cbs as [|ctr cbs IH]; intros s s' H; cbn [run_cbs] in H; [injection H as <-; by rewrite app_nil_r |].
  destruct (_attr_read_cb (actx mc v) s ctr) as [s1|] eqn:E; cbn [mbind option_bind] in H; [| done]. destruct (IH s1 s' H) as [-> ->].
  unfold _attr_read_cb in E. destruct (_ !! ctr) as [e|]; cbn [mbind option_bind] in E; [| done]. unfold note_cb in E. case_bool_decide; cbn [mbind option_bind] in E; [| done].
  destruct (cb_r_cb e) as [cb|]; cbn [mbind option_bind] in E; [| done]. destruct (cb _ _); cbn [mbind option_bind] in E; [| done]. injection E as <-. cbn. by rewrite <- app_assoc.
Qed.

(** Reading at any place of a buffer. *)
Lemma names_read_at v c mem m st0 ab pre tail : cached_ok mc v c -> wf_stat st0 -> has m TIMES = false ->
  (has m SSH_FILEXFER_ATTR_OWNERGROUP = true ->
   names_read ((if has m SSH_FILEXFER_ATTR_PERMISSIONS then be_encode 4 (Z.land (get_mode_system_stat st) S_IRWXALL) else []) ++ tail)) ->
  let enc := encoding_names v st un gn (order_plain m) in
  ab_ops ab = AbRead -> ab_buffer ab = pre ++ enc ++ tail -> ab_pos ab = zlen pre -> zlen (ab_buffer ab) < 2 ^ 32 -> zlen enc <= ab_left ab < 2 ^ 31 ->
  exists s3 c3, read_attributes_generic mem (actx mc v) c ab RW_ATTR_RESULT_INIT st0 (Z.land m (w_mask_of v)) = Some (s3, c3) /\
    cached_ok mc v c3 /\ ps_ab s3 = moved ab (ab_buffer ab) (zlen enc) /\ agree_names v m st0 (ps_stat s3).
Proof.
  intros Hc Hs0 Ht Hn enc Hm Hb Hp Hz Hl. destruct (names_ok_plain v m tail Hn) as [Hok Hf]. unfold read_attributes_generic.
  match goal with |- context [parse_attributes_generic _ c ?f ?s ?w] => destruct (cached_run mc v c f s w Hc (read_calm mc v) (read_no_flags mc v)) as [fl' Er] end.
  rewrite Er. clear Er. cbn [ps_r]. change SSH_FILEXFER_ATTR_SUBSECOND_TIMES with SUB.
  set (sel := selected (actx mc v) _ _). assert (v_mask sel = Z.land m (w_mask_of v)) as Hsel by apply selected_read.
  assert (order_v v sel = order_plain m) as Eo by (destruct sel as [sf sm]; cbn in Hsel; subst sm; by apply order_no_times). rewrite Eo.
  match goal with |- context [run_cbs _ _ ?x] => set (s0 := x) end.
  pose proof (order_length v sel) as Hlen. rewrite Eo in Hlen.
  pose proof (run_reads v (order_plain m) tail Hf Hok s0 st0 ltac:(exact Hlen)) as Hr. fold enc in Hr.
  specialize (Hr (ps_ab s0) pre). cbv beta in Hr. replace (set_io s0 (ps_ab s0) st0) with s0 in Hr by done.
  specialize (Hr Hm Hb Hp Hz Hl).
  destruct (run_cbs (_attr_read_cb (actx mc v)) (order_plain m) s0) as [s1|] eqn:E1; [| done].
  assert (ps_cb s1 = order_plain m /\ r_valid (ps_r s1) = sel) as [Hcb Hv].
  { destruct (run_noted v _ _ _ E1) as [-> ->]. done. }
  cbn [option_map]. opt. destruct (cached_remember mc v mem c (with_flags fl' s1) Hc) as (c3 & -> & Hc3).
  { cbn [with_flags set_r ps_cb ps_r r_valid]. by rewrite Hcb, Hv. }
  cbn [option_map mbind option_bind]. eexists _, c3. split; [reflexivity |]. split; [done |]. cbn [with_flags set_r ps_ab ps_stat].
  cbn [mbind option_bind] in Hr. injection Hr as Hst Hab.
  rewrite Hst, Hab. split; [done |]. by apply agree_plain.
Qed.

Lemma names_read_back v c mem m st0 ab0 tail : cached_ok mc v c -> wf_stat st0 -> has m TIMES = false ->
  (has m SSH_FILEXFER_ATTR_OWNERGROUP = true ->
   names_read ((if has m SSH_FILEXFER_ATTR_PERMISSIONS then be_encode 4 (Z.land (get_mode_system_stat st) S_IRWXALL) else []) ++ tail)) ->
  let enc := encoding_names v st un gn (order_plain m) in zlen (enc ++ tail) < 2 ^ 31 ->
  exists s3 c3, read_attributes_generic mem (actx mc v) c (set_attr_buffer_read ab0 (enc ++ tail) (zlen (enc ++ tail))) RW_ATTR_RESULT_INIT st0 (Z.land m (w_mask_of v)) = Some (s3, c3) /\
    cached_ok mc v c3 /\ ab_pos (ps_ab s3) = zlen enc /\ agree_names v m st0 (ps_stat s3).
Proof.
  intros Hc Hs0 Ht Hn enc Hl. pose proof (zlen_nonneg enc). pose proof (zlen_nonneg tail). rewrite zlen_app in Hl.
  destruct (names_read_at v c mem m st0 (set_attr_buffer_read ab0 (enc ++ tail) (zlen (enc ++ tail))) [] tail Hc Hs0 Ht Hn) as (s3 & c3 & E & H3 & Eab & Ha);
    [done | done | done | | | exists s3, c3; rewrite Eab; by split_and!];
    cbn [set_attr_buffer_read ab_buffer ab_left]; fold enc; rewrite zlen_app, ?sgn_small; lia.
Qed.

End ReadBack.

(** The attributes of versions 4 to 6 but for the times, with any mappings, where that
    of the reader reads the two names. *)
Lemma attr_names_carried (v : ver) (mcw mcr : mapcb) (cw cr : attr_cache) (mem : bool) (fl m : Z) (st st0 : system_stat) (un gn : bytes) (ab0 : attr_buffer) :
  cached_ok mcw v cw -> cached_ok mcr v cr -> wf_stat st -> wf_stat st0 -> times_ok st -> has m TIMES = false ->
  writes_name (mc_user_l2p mcw) (get_uid_system_stat st) un -> writes_name (mc_group_l2p mcw) (get_gid_system_stat st) gn ->
  0 < zlen un -> 0 < zlen gn -> zlen un + zlen gn + 8 <= ownergroup_maxlength ->
  exists n s1 c1, get_size_buffer_write_attributes mem (actx mcw v) cw ab0 RW_ATTR_RESULT_INIT st (mk_valid fl m) = Some (n, s1, c1) /\ cached_ok mcw v c1 /\
    forall buffer, zlen buffer = n -> exists s2,
      write_attributes_generic (actx mcw v) c1 (set_attr_buffer_write ab0 buffer n) RW_ATTR_RESULT_INIT st (mk_valid fl m) = Some s2 /\
      let b := ab_buffer (ps_ab s2) in
      let tail := drop (Z.to_nat (ab_pos (ps_ab s2))) b in
      zlen b = n /\
      ((has m SSH_FILEXFER_ATTR_OWNERGROUP = true ->
        names_read mcr st un gn ((if has m SSH_FILEXFER_ATTR_PERMISSIONS then be_encode 4 (Z.land (get_mode_system_stat st) S_IRWXALL) else []) ++ tail)) ->
       exists s3 c3, read_attributes_generic mem (actx mcr v) cr (set_attr_buffer_read ab0 b n) RW_ATTR_RESULT_INIT st0 (Z.land m (w_mask_of v)) = Some (s3, c3) /\
         cached_ok mcr v c3 /\ ab_pos (ps_ab s3) = ab_pos (ps_ab s2) /\ agree_names st v m st0 (ps_stat s3)).
Proof.
  intros Hcw Hcr Hs Hs0 Ht Hm Hu Hg Hun Hgn Hlen.
  assert (subseconds_ok v fl m) as Hsub by (right; right; by apply (has_part m TIMES)).
  destruct (size_announced mcw st v cw mem fl m ab0 Hcw Hsub) as (s1 & c1 & E1 & Hc1 & _). eexists _, s1, c1. split; [exact E1 |]. split; [done |].
  intros buffer Hb. destruct (names_written mcw st un gn Hu Hg Hlen Ht v c1 fl m ab0 buffer Hc1 Hsub Hb) as (s2 & E2 & Eb & Ep & El & Hle).
  rewrite (order_no_times v _ m Hm) in Eb, Ep, Hle. rewrite <- Hb. exists s2. split; [exact E2 |]. set (enc := encoding_names v st un gn (order_plain m)) in *.
  assert (zlen (enc ++ drop (length enc) buffer) = zlen buffer) as Ez.
  { rewrite zlen_app. unfold zlen in *. rewrite length_drop. lia. }
  split; [by rewrite Eb |]. rewrite Ep, Eb. replace (drop (Z.to_nat (zlen enc)) (enc ++ drop (length enc) buffer)) with (drop (length enc) buffer)
    by (unfold zlen; by rewrite Nat2Z.id, drop_app_length).
  intros Hn. pose proof (announced_small mcw v (order_plain m)) as Ha. pose proof (order_length v (mk_valid (Z.land fl SUB) (Z.land m (w_mask_of v)))) as Hl.
  rewrite (order_no_times v _ m Hm) in Hl, Hb. unfold ATTR_CONTEXT_COUNT_ATTR_CB in Hl. assert (ownergroup_maxlength = 580) as E580 by reflexivity.
  assert (zlen (order_plain m) <= 37) as Hl37 by (unfold zlen; lia). assert (zlen buffer < 2 ^ 31) as Hb31 by lia.
  destruct (names_read_back mcr st un gn Hs ltac:(lia) v cr mem m st0 ab0 (drop (length enc) buffer) Hcr Hs0 Hm Hn) as (s3 & c3 & E3 & H3 & Hp & Hagr); [fold enc; by rewrite Ez |].
  fold enc in E3, Hp. rewrite Ez in E3. by exists s3, c3.
Qed.

(** ** With the mapping of users *)

Section Mapped.
Context (db : UserMap.userdb) {C : Type} (uc : UserMap.userscache C).

(** The callbacks of a mapping. *)
Definition mapcb_of (m : UserMap.net_idmapping C) : mapcb :=
  mk_mapcb (UserMap.get_user_p2l db uc m) (UserMap.get_group_p2l db uc m) (UserMap.get_user_l2p db m) (UserMap.get_group_l2p db m).

Definition server_mapping (v : Z) (pwd : Z * Z) : mapcb := mapcb_of (UserMap.setup_sftp_idmapping v (UserMap.init_net_idmapping pwd)).

(** The server writes the names its database has. *)
Lemma server_writes_user v pwd uid n : 3 < v -> UserMap.getpwuid db uid = Some n -> zlen n < 2 ^ 32 -> writes_name (mc_user_l2p (server_mapping v pwd)) uid n.
Proof.
  intros Hv Hn Hl p len Hp. cbn [server_mapping mapcb_of mc_user_l2p].
  rewrite (proj1 (UserMap.server_names db v pwd (mk_ent 0 (Some p) len None 0 0 uid) Hv)).
  unfold UserMap.get_user_l2p_byname_server. cbn [ne_localid]. rewrite Hn. by apply UserMap.name_put.
Qed.

Lemma server_writes_group v pwd gid n : 3 < v -> UserMap.getgrgid db gid = Some n -> zlen n < 2 ^ 32 -> writes_name (mc_group_l2p (server_mapping v pwd)) gid n.
Proof.
  intros Hv Hn Hl p len Hp. cbn [server_mapping mapcb_of mc_group_l2p].
  rewrite (proj2 (UserMap.server_names db v pwd (mk_ent 0 (Some p) len None 0 0 gid) Hv)).
  unfold UserMap.get_group_l2p_byname_server. cbn [ne_localid]. rewrite Hn. by apply UserMap.name_put.
Qed.

(** A mapping of a client whose database is the server's. *)
Definition shared_names (m : UserMap.net_idmapping C) : Prop :=
  UserMap.m_user_p2l m = UserMap.P2lSharedByName /\ UserMap.m_group_p2l m = UserMap.P2lSharedByName /\
  UserMap.m_lookup_user m = UserMap.LookupByNameSystem /\ UserMap.m_lookup_group m = UserMap.LookupByNameSystem.

Lemma shared_reads_user m n post i g : shared_names m -> no_nul n -> UserMap.uncut (n ++ post) (zlen n) -> UserMap.getpwnam db n = Some (i, g) ->
  reads_name (mc_user_p2l (mapcb_of m)) n post i.
Proof.
  intros (Hp & _ & Hl & _) Hz Hu Hn. eexists. split.
  - cbn [mapcb_of mc_user_p2l]. eapply (UserMap.shared_user_read db uc m _ n); [done | done | by exists post | done | exact Hn].
  - done.
Qed.

Lemma shared_reads_group m n post i : shared_names m -> no_nul n -> UserMap.uncut (n ++ post) (zlen n) -> UserMap.getgrnam db n = Some i ->
  reads_name (mc_group_p2l (mapcb_of m)) n post i.
Proof.
  intros (_ & Hp & _ & Hl) Hz Hu Hn. eexists. split.
  - cbn [mapcb_of mc_group_p2l]. eapply (UserMap.shared_group_read db uc m _ n); [done | done | by exists post | done | exact Hn].
  - done.
Qed.

(** The set up of a client of a later version that shares the database, without a cache. *)
Lemma shared_set_up pwd a name pw uid gid gecos rest gname gpw ggid members (create : Z -> option C) (version : Z) :
  UserMap.records_received a name pw uid gid gecos rest gname gpw ggid members -> 3 < version -> (forall fl, create fl = None) ->
  UserMap.an_type a = Some (UserMap.lit "shared") ->
  exists m, UserMap.get_sftp_usermapping db uc create a version (UserMap.init_net_idmapping pwd) = Ret (1, m) /\ shared_names m.
Proof.
  intros Hrec Hv Hc Ht. destruct (UserMap.mapping_set_up db uc pwd a name pw uid gid gecos rest gname gpw ggid members Hrec create UserMap.NET_IDMAPPING_FLAG_MAPBYNAME true Hc Ht)
    as (m & Em & _ & _ & Epu & Epg & _ & _ & Elu & Elg); [by right |].
  exists m. split; [unfold UserMap.get_sftp_usermapping; rewrite (proj2 (Z.ltb_lt _ _)) by lia; exact Em |].
  unfold shared_names. rewrite Epg, Elg. by split_and!.
Qed.

(** The owner and the group of a file, with their names in the database. *)
Record known (uid gid : Z) (un gn : bytes) : Prop := {
  kn_user : UserMap.getpwuid db uid = Some un;
  kn_uid : exists g, UserMap.getpwnam db un = Some (uid, g);
  kn_group : UserMap.getgrgid db gid = Some gn;
  kn_gid : UserMap.getgrnam db gn = Some gid;
  kn_names : no_nul un /\ no_nul gn;
  kn_lengths : 0 < zlen un /\ 0 < zlen gn /\ zlen un + zlen gn + 12 <= ownergroup_maxlength }.

(** The search for an '@' in the two names of a message, which looks for their lengths
    in the 64 bytes from the name on, finds nothing. *)
Definition lengths_absent (un gn post : bytes) : Prop :=
  UserMap.uncut (un ++ (be_encode 4 (zlen gn) ++ gn) ++ post) (zlen un) /\ UserMap.uncut (gn ++ post) (zlen gn).

Lemma known_read m st un gn post :
  shared_names m -> known (get_uid_system_stat st) (get_gid_system_stat st) un gn -> lengths_absent un gn post ->
  names_read (mapcb_of m) st un gn post.
Proof.
  intros Hm [_ [g Hu] _ Hg [Hz1 Hz2] _] [C1 C2]. split.
  - by apply (shared_reads_user m un _ (get_uid_system_stat st) g).
  - by apply (shared_reads_group m gn _ (get_gid_system_stat st)).
Qed.

(** C8: the attributes of versions 4 to 6 survive the wire but for the times, between
    a server and a client that shares its database. For every mask without times,
    every cache the two sides can have and an owner and group with names in the
    database that fit in the message: the size that is computed beforehand is
    enough, the writer puts the attributes in front of a buffer of that size, and
    the client gets size, owner, group and permissions of the mask, the type as
    far as the version knows it, and changes nothing else. When owner and group
    are in the mask this needs that the search for an '@' (its arguments are
    swapped: it looks for the length of the name) finds nothing; names of the same
    length are an example where it does. *)
Theorem attr_names_roundtrip (v : ver) (nv : Z) (pwd : Z * Z) (cm : UserMap.net_idmapping C) (cw cr : attr_cache) (mem : bool) (fl m : Z)
    (st st0 : system_stat) (un gn : bytes) (ab0 : attr_buffer) :
  let mcw := server_mapping nv pwd in let mcr := mapcb_of cm in
  3 < nv -> shared_names cm -> known (get_uid_system_stat st) (get_gid_system_stat st) un gn ->
  cached_ok mcw v cw -> cached_ok mcr v cr -> wf_stat st -> wf_stat st0 -> times_ok st -> has m TIMES = false ->
  exists n s1 c1, get_size_buffer_write_attributes mem (actx mcw v) cw ab0 RW_ATTR_RESULT_INIT st (mk_valid fl m) = Some (n, s1, c1) /\ cached_ok mcw v c1 /\
    forall buffer, zlen buffer = n -> exists s2,
      write_attributes_generic (actx mcw v) c1 (set_attr_buffer_write ab0 buffer n) RW_ATTR_RESULT_INIT st (mk_valid fl m) = Some s2 /\
      let b := ab_buffer (ps_ab s2) in
      let tail := drop (Z.to_nat (ab_pos (ps_ab s2))) b in
      zlen b = n /\
      ((has m SSH_FILEXFER_ATTR_OWNERGROUP = true ->
        lengths_absent un gn ((if has m SSH_FILEXFER_ATTR_PERMISSIONS then be_encode 4 (Z.land (get_mode_system_stat st) S_IRWXALL) else []) ++ tail)) ->
       exists s3 c3, read_attributes_generic mem (actx mcr v) cr (set_attr_buffer_read ab0 b n) RW_ATTR_RESULT_INIT st0 (Z.land m (w_mask_of v)) = Some (s3, c3) /\
         cached_ok mcr v c3 /\ ab_pos (ps_ab s3) = ab_pos (ps_ab s2) /\ agree_names st v m st0 (ps_stat s3)).
Proof.
  intros mcw mcr Hnv Hsh Hk Hcw Hcr Hs Hs0 Ht Hm. pose proof Hk as [Ku _ Kg _ _ (Hun & Hgn & Hlen)].
  change ownergroup_maxlength with 580 in Hlen.
  destruct (attr_names_carried v mcw mcr cw cr mem fl m st st0 un gn ab0 Hcw Hcr Hs Hs0 Ht Hm) as (n & s1 & c1 & E1 & Hc1 & H); try done.
  - apply server_writes_user; [done | done | lia].
  - apply server_writes_group; [done | done | lia].
  - change ownergroup_maxlength with 580. lia.
  - exists n, s1, c1. split; [done |]. split; [done |]. intros buffer Hb. destruct (H buffer Hb) as (s2 & E2 & Hz & H3). exists s2. split; [done |].
    split; [done |]. intros Hn. apply H3. intros Ho. apply known_read; auto.
Qed.

End Mapped.

(** ** Where the code does something else *)

Lemma run_undefined f ctr cbs : ctr ∈ cbs -> (forall s, f s ctr = None) -> forall s, run_cbs f cbs s = None.
Proof.
  intros Hin Hf. induction Hin as [cbs|ctr x cbs Hin IH]; intros s; cbn [run_cbs]; [by rewrite Hf |].
  destruct (f s x) as [s1|]; opt; [by apply IH | done].
Qed.

Lemma item_in_order v fl m it : it ∈ items_of v -> has m (it_code it) = true -> it_ctr it ∈ order_v v (mk_valid fl m) /\
  (forall n, it_nsec it = Some n -> has fl SUB = true -> n ∈ order_v v (mk_valid fl m)).
Proof.
  intros Hin Hm. assert (forall c, c ∈ item_order fl m it -> c ∈ order_v v (mk_valid fl m)) as H.
  { intros c Hc. unfold order_v. apply elem_of_cons. right. unfold items_order. cbn [v_flags v_mask]. apply list_elem_of_In, in_concat.
    exists (item_order fl m it). split; [| by apply list_elem_of_In]. apply list_elem_of_In, list_elem_of_fmap. by exists it. }
  split; [apply H | intros n Hn Hf; apply H]; unfold item_order; rewrite Hm; [apply elem_of_cons; by left |].
  rewrite Hn. change SSH_FILEXFER_ATTR_SUBSECOND_TIMES with SUB. rewrite Hf. apply elem_of_cons. right. by apply list_elem_of_singleton.
Qed.

Lemma int64_unread ab : rd_int64 ab = None.
Proof. unfold rd_int64, reading, read_int64. destruct (ab_ops ab); try done. by destruct (at_pos ab) as [|? [|? [|? [|? [|? [|? [|? [|? ?]]]]]]]]. Qed.

Lemma time_unread mc v s ctr : ctr = SSH_FILEXFER_INDEX_ACCESSTIME \/ ctr = SSH_FILEXFER_INDEX_MODIFYTIME -> _attr_read_cb (actx mc v) s ctr = None.
Proof.
  intros [-> | ->]; unfold _attr_read_cb.
  - assert (cb_r_cb <$> ac_attrcb (actx mc v) !! SSH_FILEXFER_INDEX_ACCESSTIME = Some (Some read_attr_accesstime_v04)) as E by by destruct v.
    destruct (_ !! SSH_FILEXFER_INDEX_ACCESSTIME) as [e|]; [| done]. injection E as E. unfold note_cb. opt. case_bool_decide; opt; [| done].
    rewrite E. opt. unfold read_attr_accesstime_v04. by rewrite int64_unread.
  - assert (cb_r_cb <$> ac_attrcb (actx mc v) !! SSH_FILEXFER_INDEX_MODIFYTIME = Some (Some read_attr_modifytime_v04)) as E by by destruct v.
    destruct (_ !! SSH_FILEXFER_INDEX_MODIFYTIME) as [e|]; [| done]. injection E as E. unfold note_cb. opt. case_bool_decide; opt; [| done].
    rewrite E. opt. unfold read_attr_modifytime_v04. by rewrite int64_unread.
Qed.

(** a message of version 4 to 6 with a time of access or modification cannot be
    read, whatever it holds: [read_int64] shifts a byte, which is an [int] there,
    over more bits than it has. *)
Theorem times_unreadable (mc : mapcb) (v : ver) (c : attr_cache) (mem : bool) (ab : attr_buffer) (st : system_stat) (bits code : Z) :
  cached_ok mc v c -> code = SSH_FILEXFER_ATTR_ACCESSTIME \/ code = SSH_FILEXFER_ATTR_MODIFYTIME -> has bits code = true ->
  read_attributes_generic mem (actx mc v) c ab RW_ATTR_RESULT_INIT st bits = None.
Proof.
  intros Hc Hcode Hb. unfold read_attributes_generic.
  match goal with |- context [parse_attributes_generic _ c ?f ?s ?w] => destruct (cached_run mc v c f s w Hc (read_calm mc v) (read_no_flags mc v)) as [fl' ->] end.
  set (sel := selected _ _ _). set (s0 := set_r _ _).
  assert (has (v_mask sel) code = true) as Hm.
  { unfold sel, selected. cbn [v_mask]. assert (forall w, Z.land w code = code -> has (Z.land (Z.ldiff bits SSH_FILEXFER_ATTR_SUBSECOND_TIMES) w) code = true) as H.
    { intros w Hw. rewrite has_land, Hw, has_ldiff; [done | by destruct Hcode as [-> | ->]]. }
    by destruct v, Hcode as [-> | ->]; apply H. }
  assert (exists ctr, ctr ∈ order_v v sel /\ (ctr = SSH_FILEXFER_INDEX_ACCESSTIME \/ ctr = SSH_FILEXFER_INDEX_MODIFYTIME)) as (ctr & Hin & Hctr).
  { destruct sel as [sf sm]. destruct Hcode as [-> | ->].
    - eexists. split; [apply (proj1 (item_in_order v sf sm (time SSH_FILEXFER_ATTR_ACCESSTIME SSH_FILEXFER_INDEX_ACCESSTIME SSH_FILEXFER_INDEX_NSEC_ATIME) ltac:(apply list_elem_of_In; destruct v; cbn; tauto) Hm)) | by left].
    - eexists. split; [apply (proj1 (item_in_order v sf sm (time SSH_FILEXFER_ATTR_MODIFYTIME SSH_FILEXFER_INDEX_MODIFYTIME SSH_FILEXFER_INDEX_NSEC_MTIME) ltac:(apply list_elem_of_In; destruct v; cbn; tauto) Hm)) | by right]. }
  by rewrite (run_undefined _ ctr _ Hin (fun s => time_unread mc v s ctr Hctr)).
Qed.

(** ** Examples *)

(** The database of a server and of a client that shares it. *)
Definition ex_users : UserMap.userdb :=
  UserMap.mk_db (fun n => if bytes_eqb n (UserMap.lit "alice") then Some (1000, 100) else if bytes_eqb n (UserMap.lit "root") then Some (0, 0) else None)
    (fun u => if u =? 1000 then Some (UserMap.lit "alice") else if u =? 0 then Some (UserMap.lit "root") else None)
    (fun n => if bytes_eqb n (UserMap.lit "adm") then Some 100 else if bytes_eqb n (UserMap.lit "root") then Some 0 else None)
    (fun g => if g =? 100 then Some (UserMap.lit "adm") else if g =? 0 then Some (UserMap.lit "root") else None).

Definition ex_server : mapcb := server_mapping ex_users UserMap.no_cache 4 (0, 0).

(** The mapping of the client after its set up. *)
Definition ex_client_mapping : UserMap.net_idmapping unit :=
  match UserMap.get_sftp_usermapping ex_users UserMap.no_cache (fun _ => None) (UserMap.ex_answers "shared") 4 (UserMap.init_net_idmapping (7, 8)) with
  | Ret (_, m) => m
  | _ => UserMap.init_net_idmapping (7, 8)
  end.
Definition ex_client : mapcb := mapcb_of ex_users UserMap.no_cache ex_client_mapping.

Lemma ex_shared : shared_names ex_client_mapping.
Proof. by vm_compute. Qed.

Definition ex_mask : Z := 133.

Definition ex_buffer : bytes := repeat 0 (Z.to_nat 593).

(** What follows the group in the buffer: the permissions and the zeros left. *)
Definition ex_after : bytes :=
  (if has ex_mask SSH_FILEXFER_ATTR_PERMISSIONS then be_encode 4 (Z.land (get_mode_system_stat ex_stat) S_IRWXALL) else []) ++ drop 29 ex_buffer.

Lemma ex_known : known ex_users (get_uid_system_stat ex_stat) (get_gid_system_stat ex_stat) (UserMap.lit "alice") (UserMap.lit "adm").
Proof.
  split; [done | by exists 100 | done | done | | by vm_compute].
  split; [exact (proj2 (UserMap.field_okb (UserMap.lit "alice") eq_refl)) | exact (proj2 (UserMap.field_okb (UserMap.lit "adm") eq_refl))].
Qed.

Lemma ex_lengths_absent : lengths_absent (UserMap.lit "alice") (UserMap.lit "adm") ex_after.
Proof.
  split; (split; [vm_compute; lia |]; apply Forall_forall; intros x Hx ->; vm_compute in Hx; intuition discriminate).
Qed.

(** The size, the cache after it and the message of the server. *)
Definition ex_cache1 : attr_cache :=
  default [] (snd <$> get_size_buffer_write_attributes true (actx ex_server V4) init_hashattr_generic init_read_attr_buffer RW_ATTR_RESULT_INIT ex_stat (mk_valid 0 ex_mask)).

Lemma ex_size : option_map (fun x => (x.1.1, x.2))
  (get_size_buffer_write_attributes true (actx ex_server V4) init_hashattr_generic init_read_attr_buffer RW_ATTR_RESULT_INIT ex_stat (mk_valid 0 ex_mask)) = Some (593, ex_cache1).
Proof. by vm_compute. Qed.

Lemma ex_rest : option_map (fun s => drop (Z.to_nat (ab_pos (ps_ab s))) (ab_buffer (ps_ab s)))
  (write_attributes_generic (actx ex_server V4) ex_cache1 (set_attr_buffer_write init_read_attr_buffer ex_buffer 593) RW_ATTR_RESULT_INIT ex_stat (mk_valid 0 ex_mask)) = Some (drop 29 ex_buffer).
Proof. by vm_compute. Qed.

(** A file of alice and adm, from a server of version 4 to a client. *)
Lemma attr_names_roundtrip_witness :
  exists s2 s3 c3,
    write_attributes_generic (actx ex_server V4) ex_cache1 (set_attr_buffer_write init_read_attr_buffer ex_buffer 593) RW_ATTR_RESULT_INIT ex_stat (mk_valid 0 ex_mask) = Some s2 /\
    read_attributes_generic true (actx ex_client V4) init_hashattr_generic (set_attr_buffer_read init_read_attr_buffer (ab_buffer (ps_ab s2)) 593) RW_ATTR_RESULT_INIT zero_stat (Z.land ex_mask (w_mask_of V4)) = Some (s3, c3) /\
    agree_names ex_stat V4 ex_mask zero_stat (ps_stat s3).
Proof.
  destruct (attr_names_roundtrip ex_users UserMap.no_cache V4 4 (0, 0) ex_client_mapping init_hashattr_generic init_hashattr_generic true 0 ex_mask ex_stat zero_stat
    (UserMap.lit "alice") (UserMap.lit "adm") init_read_attr_buffer) as (n & s1 & c1 & E1 & _ & H);
    [done | exact ex_shared | exact ex_known | apply cached_init | apply cached_init | apply ex_stat_wf | apply zero_stat_wf | by vm_compute | by vm_compute |].
  fold ex_server ex_client in E1, H. pose proof ex_size as Es. rewrite E1 in Es. injection Es as -> ->.
  destruct (H ex_buffer eq_refl) as (s2 & E2 & _ & H3). exists s2. pose proof ex_rest as Er. rewrite E2 in Er. injection Er as Er.
  destruct H3 as (s3 & c3 & E3 & _ & _ & Ha); [| exists s3, c3; exact (conj E2 (conj E3 Ha))].
  intros _. rewrite Er. fold ex_after. exact ex_lengths_absent.
Defined.

Lemma times_unreadable_witness :
  read_attributes_generic true (actx ex_client V5) init_hashattr_generic (set_attr_buffer_read init_read_attr_buffer (repeat 0 20) 20) RW_ATTR_RESULT_INIT zero_stat 8 = None.
Proof. apply (times_unreadable ex_client V5 _ true _ _ 8 SSH_FILEXFER_ATTR_ACCESSTIME (cached_init _ _)); [by left | done]. Defined.

(** The nanoseconds of the access time cannot be written in versions 4 and 5, whose
    callback is the one that reads; in version 6 they are. *)
Lemma ex_access_nanoseconds :
  let written v := bool_decide (is_Some (write_attributes_generic (actx ex_server v) init_hashattr_generic (set_attr_buffer_write init_read_attr_buffer (repeat 0 40) 40)
    RW_ATTR_RESULT_INIT ex_stat (mk_valid SUB SSH_FILEXFER_ATTR_ACCESSTIME))) in
  written V4 = false /\ written V5 = false /\ written V6 = true.
Proof. by vm_compute. Qed.

(** A file of root and root with the mode 0644 that a client with the database of
    the server reads: the group has no name any more and stays what it was, and the
    permissions are taken from the letters of its name. *)
Lemma ex_root_misread : exists s c,
  read_attributes_generic true (actx ex_client V4) init_hashattr_generic
    (set_attr_buffer_read init_read_attr_buffer ([1] ++ be_encode 4 4 ++ UserMap.lit "root" ++ be_encode 4 4 ++ UserMap.lit "root" ++ be_encode 4 420 ++ repeat 0 100) 121)
    RW_ATTR_RESULT_INIT ex_stat 132 = Some (s, c) /\
  get_uid_system_stat (ps_stat s) = 0 /\ get_gid_system_stat (ps_stat s) = get_gid_system_stat ex_stat /\ get_gid_system_stat ex_stat = 100 /\
  get_mode_system_stat (ps_stat s) = Z.land (be_decode (UserMap.lit "root") 0) S_IRWXALL /\ get_mode_system_stat (ps_stat s) = 372.
Proof. eexists _, _. split; [vm_compute; reflexivity |]. by vm_compute. Qed.

(** An acl that says it has one entry and has none: the entry is read behind it. *)
Lemma ex_acl_overread st : read_attr_acl_v04 (set_attr_buffer_read init_read_attr_buffer (be_encode 4 4 ++ be_encode 4 1) 8) st = None.
Proof. by vm_compute. Qed.

(** The time of creation a server of version 4 sends is not skipped: the reader
    stands behind the type. *)
Lemma ex_createtime_left : exists s c,
  read_attributes_generic true (actx ex_client V4) init_hashattr_generic (set_attr_buffer_read init_read_attr_buffer (repeat 0 9) 9) RW_ATTR_RESULT_INIT zero_stat
    SSH_FILEXFER_ATTR_CREATETIME = Some (s, c) /\ ab_pos (ps_ab s) = 1.
Proof. eexists _, _. split; [vm_compute; reflexivity |]. done. Qed.

End SftpAttrNames.
