(* ===== verification/SftpServerAttr.v ===== *)
(** * ssh/subsystem/sftp: the requests with attributes

    [stat], [lstat] and [fstat] of cb-stat.c, [mkdir] of cb-mk.c and [readdir] of
    cb-opendir.c: the handlers of the server that read or write attributes, on the
    server of SftpServer and the attributes of SftpAttr and SftpAttrNames.  To
    the state of the server comes the cache of the orders of callbacks.  The calls
    of the system they need besides those of SftpServer are a second record. *)

From stdpp Require Import base list list_numbers numbers option gmap strings.
From S2P Require Import Prelude SshUint SshString SimpleList ListStore SystemStat FsPath SftpWire SftpSend FsHandle SftpReply AttrBuffer SftpAttr UserMap SftpAttrNames SftpServer.
Import SshUint SshString ListStore SystemStat FsPath SftpWire SftpSend FsHandle SftpReply AttrBuffer SftpAttr SftpAttrNames SftpServer.

Module SftpServerAttr.

Definition SSH_FX_EOF := 1.
Definition AT_SYMLINK_NOFOLLOW := 256.
Definition AT_STATX_DONT_SYNC := 16384.
Definition S_IRWXU := 448.
Definition S_IRWXO := 7.
Definition S_IROTH := 4.
Definition S_IXOTH := 1.
Definition S_IFLNK := 40960.
Definition SFTP_READDIR_NAMES_SIZE := 4096.
Definition SFTP_PREFIX_FLAG_IGNORE_XDEV_SYMLINKS := 1.

(** The calls of the handlers of this file; [readlinkat] is told the size of the
    buffer, and the link in /proc of a descriptor is a call of its own. *)
Record attrcalls (OS : Type) := mk_attrcalls {
  ac_mkdir : OS -> bytes -> Z -> (Z + unit) * OS;
  ac_statxat : OS -> Z -> bytes -> Z -> Z -> Z + system_stat;
  ac_readlinkat : OS -> Z -> bytes -> Z -> Z + bytes;
  ac_readlink_fd : OS -> Z -> Z + bytes
}.
Arguments ac_mkdir {OS}. Arguments ac_statxat {OS}. Arguments ac_readlinkat {OS}. Arguments ac_readlink_fd {OS}.

(** What the handlers see of the subsystem besides [sftp_subsystem]: the context of
    the attributes, the identity and the flags of the prefix. *)
Record sftp_attrs := mk_sftp_attrs {
  sa_sftp : sftp_subsystem;
  sa_actx : attr_context;
  sa_uid : Z;
  sa_gid : Z;
  sa_prefix_flags : Z
}.

Section Handlers.
Context {S OS : Type} `{!ListStore S} (hashtable : nat) (sys : syscalls OS) (asys : attrcalls OS) (ev : env) (mem : bool).

Record aserver := mk_aserver { as_sv : server (S := S) (OS := OS); as_cache : attr_cache }.

Definition status_of (sa : aserver) (inh : sftp_in_header) (status : Z) : outcome aserver :=
  let! sv := answer_status ev (as_sv sa) inh status in Ret (mk_aserver sv (as_cache sa)).

(** ** cb-stat.c *)

(** The array has the size that was computed for the attributes, [fill] in it; the
    valid bits are written to it in front of them. *)
Definition reply_sftp_attr_from_stat (sftp : sftp_attrs) (sa : aserver) (id : Z) (valid : sftp_valid) (st : system_stat) : outcome aserver :=
  let! r := lift (get_size_buffer_write_attributes mem (sa_actx sftp) (as_cache sa) init_read_attr_buffer RW_ATTR_RESULT_INIT st valid) in
  let '(size, s1, c) := r in
  let abuff := set_attr_buffer_write init_read_attr_buffer (replicate (Z.to_nat size) (ev_fill ev)) size in
  let! abuff := lift (ops_uint32 abuff (Z.lor (v_mask (r_valid (ps_r s1))) (v_flags (r_valid (ps_r s1))))) in
  let! s2 := lift (write_attributes_generic (sa_actx sftp) c abuff (ps_r s1) st valid) in
  let! sv := answer ev (as_sv sa) id (RAttrs (ab_buffer (ps_ab s2)) (ab_len (ps_ab s2))) in
  Ret (mk_aserver sv c).

Definition system_getlstat (os : OS) (path : fs_path) (mask : Z) : option (Z + (system_stat * Z * Z)) :=
  let? b := fp_buffer path in
  let? name := cstring (drop (Z.to_nat (fp_start path)) b) in
  Some (sc_statx sys os name (Z.lor AT_STATX_DONT_SYNC AT_SYMLINK_NOFOLLOW) (if mask =? 0 then SYSTEM_STAT_ALL else mask)).

Definition stat_mask_of (sftp : sftp_attrs) (sa : aserver) (valid : sftp_valid) : option Z :=
  translate_valid_2_stat_mask (sa_actx sftp) (as_cache sa) valid DirWrite init_read_attr_buffer zero_stat.

Definition sftp_op_stat_generic (cb_stat : OS -> fs_path -> Z -> option (Z + (system_stat * Z * Z))) (sftp : sftp_attrs) (sa : aserver) (inh : sftp_in_header) (data : bytes) : outcome aserver :=
  if 8 <=? inh_len inh then
    let! len := lift (uint32_at data 0) in
    if u32 (len + 8) <=? inh_len inh then
      let! location := lift (full_path (sa_sftp sftp) (ev_fill ev) (mk_buf (drop 4 data) len)) in
      let! validbits := lift (uint32_at data (u32 (4 + len))) in
      let valid := convert_sftp_valid_w (sa_actx sftp) validbits in
      let! mask := lift (stat_mask_of sftp sa valid) in
      let! result := lift (cb_stat (sv_os (as_sv sa)) location mask) in
      match result with
      | inr (st, _, _) => reply_sftp_attr_from_stat sftp sa (inh_id inh) valid st
      | inl errno => status_of sa inh (link_error errno)
      end
    else status_of sa inh SSH_FX_BAD_MESSAGE
  else status_of sa inh SSH_FX_BAD_MESSAGE.

Definition sftp_op_stat := sftp_op_stat_generic (system_getstat sys).
Definition sftp_op_lstat := sftp_op_stat_generic system_getlstat.

(** [get_fs_handle] reads 20 bytes behind the length. *)
Definition sftp_op_fstat (sftp : sftp_attrs) (sa : aserver) (inh : sftp_in_header) (data : bytes) : outcome aserver :=
  if 8 + get_fs_handle_buffer_size <=? inh_len inh then
    let! h := request_handle hashtable ev (sa_sftp sftp) (as_sv sa) data in
    match h with
    | inr status => status_of sa inh status
    | inl e =>
        let! h := lift (ht_handles (sv_table (as_sv sa)) !! e) in
        let! validbits := lift (uint32_at data 24) in
        let valid := convert_sftp_valid_w (sa_actx sftp) validbits in
        let! mask := lift (stat_mask_of sftp sa valid) in
        match sc_fstatx sys (sv_os (as_sv sa)) (so_fd (fh_socket h)) (if mask =? 0 then SYSTEM_STAT_ALL else mask) with
        | inr st => reply_sftp_attr_from_stat sftp sa (inh_id inh) valid st
        | inl errno => status_of sa inh (link_error errno)
        end
    end
  else status_of sa inh SSH_FX_BAD_MESSAGE.

(** ** cb-mk.c *)

Definition system_create_dir (os : OS) (path : fs_path) (mode : Z) : option (Z * OS) :=
  let size := fs_path_get_length path in
  if 0 <? size then
    let? (n, tmp) := fs_path_copy path (replicate (Z.to_nat (u32 (size + 1))) (ev_fill ev)) size in
    let? tmp := mem_write tmp n [0] in
    let? name := cstring tmp in
    let (r, os) := ac_mkdir asys os name mode in
    Some (match r with inl _ => -1 | inr _ => 0 end, os)
  else Some (-1, os).

(** The attributes a new directory starts with. *)
Definition mkdir_stat (sftp : sftp_attrs) : system_stat :=
  set_mode_system_stat (set_gid_system_stat (set_uid_system_stat zero_stat (sa_uid sftp)) (sa_gid sftp)) (Z.lor (Z.lor (Z.lor S_IRWXU S_IRWXO) S_IROTH) S_IXOTH).

Definition sftp_op_mkdir (sftp : sftp_attrs) (sa : aserver) (inh : sftp_in_header) (data : bytes) : outcome aserver :=
  if 8 <=? inh_len inh then
    let! len := lift (uint32_at data 0) in
    if u32 (len + 8) <=? inh_len inh then
      let! location := lift (full_path (sa_sftp sftp) (ev_fill ev) (mk_buf (drop 4 data) len)) in
      let pos := u32 (4 + len) in
      let abuff := set_attr_buffer_read init_read_attr_buffer (drop (Z.to_nat pos) data) (u32 (inh_len inh - pos)) in
      let! (valid_bits, abuff) := lift (read_uint32 abuff) in
      let! (s, c) := lift (read_attributes_generic mem (sa_actx sftp) (as_cache sa) abuff RW_ATTR_RESULT_INIT (mkdir_stat sftp) valid_bits) in
      let! (result, os) := lift (system_create_dir (sv_os (as_sv sa)) location (get_mode_system_stat (ps_stat s))) in
      let sa := mk_aserver (sv_set_os os (as_sv sa)) c in
      status_of sa inh (if result =? 0 then SSH_FX_OK else SSH_FX_FAILURE)
    else status_of sa inh SSH_FX_BAD_MESSAGE
  else status_of sa inh SSH_FX_BAD_MESSAGE.

(** ** lib/system/fssocket.c and fssocket-stat.c: entries of a directory *)

(** The flags of [stat] are 0 here, so that a link is not followed; an empty path
    and an error of the system are [inl]. *)
Definition fs_socket_fgetstatat (os : OS) (sock : fs_socket) (path : fs_path) (mask flags : Z) : option (Z + system_stat) :=
  let size := fs_path_get_length path in
  if size =? 0 then Some (inl (-1)) else
  let? (_, name) := fs_path_copy path (replicate (Z.to_nat (u32 (size + 1))) 0) size in
  let? name := cstring name in
  Some (ac_statxat asys os (so_fd sock) name (Z.lor flags AT_SYMLINK_NOFOLLOW) (if mask =? 0 then SYSTEM_STAT_ALL else mask)).

(** The loop over growing sizes: the result, the buffer, which does not grow, and
    the length of the target. *)
Fixpoint readlinkat_loop (fuel : nat) (os : OS) (fd : Z) (name buffer : bytes) (size len : Z) : outcome (Z * bytes * Z) :=
  match fuel with
  | O => NoFuel
  | Datatypes.S fuel =>
      if size <? 4096 then
        match ac_readlinkat asys os fd name size with
        | inl errno => Ret (- errno, buffer, 0)
        | inr t =>
            let! buffer := lift (mem_write buffer 0 t) in
            if zlen t <? size then let! buffer := lift (mem_write buffer (zlen t) [0]) in Ret (zlen t, buffer, zlen t)
            else readlinkat_loop fuel os fd name buffer (u32 (size + 512)) (zlen t)
        end
      else Ret (len, buffer, 0)
  end.

(** [size] becomes the length of the name that was copied. *)
Definition fs_socket_readlinkat (os : OS) (sock : fs_socket) (path : fs_path) : outcome (Z * fs_path) :=
  let tmp := fs_path_get_length path in
  if tmp =? 0 then Ret (-1, FS_PATH_INIT) else
  let! (size, name) := lift (fs_path_copy path (replicate (Z.to_nat (u32 (tmp + 1))) 0) tmp) in
  if negb (ev_alloc ev size) then Ret (-1, FS_PATH_INIT) else
  let! name := lift (cstring name) in
  let! r := readlinkat_loop (ev_fuel ev) os (so_fd sock) name (replicate (Z.to_nat size) (ev_fill ev)) size (-1) in
  Ret (r.1.1, mk_path FS_PATH_FLAG_BUFFER_ALLOC 0 size 0 r.2 (Some r.1.2)).

(** ** cb-opendir.c *)

(** 0 when the path is the prefix or lies below it; other results are told apart
    from 0 only. *)
Definition fs_path_compare_prefix (target : fs_path) (prefix : buf) : option Z :=
  let? b := fp_buffer target in
  let? (below : bool) := (if fp_len target =? b_len prefix then Some true
    else if b_len prefix <? fp_len target then let? c := b !! Z.to_nat (fp_start target + b_len prefix) in Some (c =? slash) else Some false) in
  if below then
    let? x := mem_read b (fp_start target) (b_len prefix) in let? y := mem_read (b_ptr prefix) 0 (b_len prefix) in
    Some (if bytes_eqb x y then 0 else 1)
  else Some (-1).

(** The path of the array has no length; what is printed to it plays no part. *)
Definition construct_full_path (rr : realloc_result) (os : OS) (sock : fs_socket) (path result : fs_path) : outcome (Z * fs_path) :=
  let symlink := fs_path_assign_buffer (Some (replicate 64 (ev_fill ev))) 64 in
  let! (r, result) := fs_path_get_target_unix_symlink (ev_fuel ev) (ac_readlink_fd asys os (so_fd sock)) (ev_alloc ev) symlink result in
  if r =? 0 then
    let! b := lift (fp_buffer path) in lift (fs_path_append_raw rr result (drop (Z.to_nat (fp_start path)) b) (fp_len path))
  else Ret (0, result).

Definition get_maxlength_filename := 256.

Definition get_write_max_buffersize (actx : attr_context) (c : attr_cache) (valid : sftp_valid) : option (Z * rw_attr_result * attr_cache) :=
  let size := 4 + get_maxlength_filename in
  let size := if ac_version actx =? 3 then size + 4 else size in
  let? r := get_size_buffer_write_attributes mem actx c init_read_attr_buffer RW_ATTR_RESULT_INIT zero_stat valid in
  let '(n, s, c) := r in Some (u32 (size + 4 + n), ps_r s, c).

Definition check_target_symlink (rr : realloc_result) (sftp : sftp_attrs) (os : OS) (sock : fs_socket) (path : fs_path) : outcome Z :=
  let! (len, target) := fs_socket_readlinkat os sock path in
  if 0 <? len then
    let! b := lift (fp_buffer target) in
    let! c := lift (b !! 0%nat) in
    if c =? slash then lift (fs_path_compare_prefix target (sf_prefix (sa_sftp sftp)))
    else
      let! (n, tmp) := construct_full_path rr os sock target FS_PATH_INIT in
      if 0 <? n then lift (fs_path_compare_prefix tmp (sf_prefix (sa_sftp sftp))) else Ret (-1)
  else Ret (-1).

Definition system_stat_test_ISLNK (st : system_stat) : bool := Z.land (sst_mode st) S_IFMT =? S_IFLNK.

Definition write_name_name_response (actx : attr_context) : attr_buffer -> ssh_string -> option attr_buffer :=
  if ac_version actx <=? 3 then write_name_name_response_v03 else write_name_name_response_v04.

(** No handler sets the valid bits of a handle, which is cleared when it is made. *)
Definition sftp_get_valid_fs_handle (h : fs_handle fs_socket) : sftp_valid := mk_valid 0 0.

(** [copy_dirent_2_dentry]: [d_reclen] less the offset of [d_name] in the other
    struct of a record, which is 18 and not 19, and 1: all that is left of the
    record. *)
Definition dentry_name (d : dirent) : bytes := de_name d.

(** The bytes of one entry: the array [tmp], its name and its attributes. *)
Definition entry_bytes (sftp : sftp_attrs) (c : attr_cache) (len : Z) (r : rw_attr_result) (valid : sftp_valid) (d : dirent) (st : system_stat) : option (bytes * Z * rw_attr_result) :=
  let abuff := set_attr_buffer_write init_read_attr_buffer (replicate (Z.to_nat len) (ev_fill ev)) len in
  let name := mk_ssh_string 0 (zlen (dentry_name d)) 0 (PMem (dentry_name d)) [] in
  let? abuff := write_name_name_response (sa_actx sftp) abuff name in
  let? abuff := ops_uint32 abuff (Z.lor (v_mask valid) (v_flags valid)) in
  let? s := write_attributes_generic (sa_actx sftp) c abuff r st valid in
  Some (ab_buffer (ps_ab s), ab_pos (ps_ab s), ps_r s).

(** [handle->flags] and the socket after [read_dentry]. *)
Definition next_dentry (sv : server (S := S) (OS := OS)) (e : nat) (h : fs_handle fs_socket) : bool * server (S := S) (OS := OS) :=
  let '(result, _, sock, os) := read_dentry sys ev (sv_os sv) (fh_socket h) in
  let h := set_socket sock h in
  let eod := (result =? -1) || (result =? 0) in
  let h := if eod then set_hflags (Z.lor (fh_flags h) HANDLE_FLAG_EOD) h else h in
  (eod, mk_server (mk_table (ht_store (sv_table sv)) (<[e := h]> (ht_handles (sv_table sv)))) os (sv_sent sv)).

(** The loop: the names so far and their number.  The entry at hand is in the
    socket; [continue] and an entry that is not there leave everything as it is. *)
Fixpoint readdir_loop (rr : realloc_result) (fuel : nat) (sftp : sftp_attrs) (c : attr_cache) (len mask : Z) (valid : sftp_valid) (e : nat)
    (r : rw_attr_result) (sv : server (S := S) (OS := OS)) (buffer : bytes) (count : Z) : outcome (server (S := S) (OS := OS) * bytes * Z) :=
  match fuel with
  | O => NoFuel
  | Datatypes.S fuel =>
      let! h := lift (ht_handles (sv_table sv) !! e) in
      let again r sv buffer count := readdir_loop rr fuel sftp c len mask valid e r sv buffer count in
      if (zlen buffer <? SFTP_READDIR_NAMES_SIZE) && negb (has (fh_flags h) HANDLE_FLAG_EOD) then
        match dd_dirent (so_dir (fh_socket h)) with
        | None => again r sv buffer count
        | Some d =>
            let path := fs_path_assign_buffer (Some (dentry_name d)) (zlen (dentry_name d)) in
            let next r buffer count := let (eod, sv) := next_dentry sv e h in if eod : bool then Ret (sv, buffer, count) else again r sv buffer count in
            let! st := lift (fs_socket_fgetstatat (sv_os sv) (fh_socket h) path mask 0) in
            match st with
            | inl _ => next r buffer count
            | inr st =>
                let! ignore := (if system_stat_test_ISLNK st && has (sa_prefix_flags sftp) SFTP_PREFIX_FLAG_IGNORE_XDEV_SYMLINKS
                  then let! x := check_target_symlink rr sftp (sv_os sv) (fh_socket h) path in Ret (x =? 0) else Ret false) in
                if ignore : bool then again r sv buffer count else
                let! (tmp, size, r) := lift (entry_bytes sftp c len r valid d st) in
                if SFTP_READDIR_NAMES_SIZE <? zlen buffer + size then Ret (sv, buffer, count)
                else let! x := lift (mem_read tmp 0 size) in next r (buffer ++ x) (count + 1)
            end
        end
      else Ret (sv, buffer, count)
  end.

Definition _sftp_op_readdir (rr : realloc_result) (sftp : sftp_attrs) (sa : aserver) (e : nat) (inh : sftp_in_header) : outcome aserver :=
  let! h := lift (ht_handles (sv_table (as_sv sa)) !! e) in
  let valid := sftp_get_valid_fs_handle h in
  let! (len, r, c) := lift (get_write_max_buffersize (sa_actx sftp) (as_cache sa) valid) in
  let! (sv, buffer, count) := readdir_loop rr (ev_fuel ev) sftp c len (r_stat_mask r) valid e r (as_sv sa) [] 0 in
  let! h := lift (ht_handles (sv_table sv) !! e) in
  let eod := has (fh_flags h) HANDLE_FLAG_EOD in
  if eod && (zlen buffer =? 0) then status_of (mk_aserver sv c) inh SSH_FX_EOF
  else
    let! sv := answer ev sv (inh_id inh) (RNames count buffer (zlen buffer) (if eod then 1 else 0)) in
    Ret (mk_aserver sv c).

(** A handle that is not found is used all the same. *)
Definition sftp_op_readdir (rr : realloc_result) (sftp : sftp_attrs) (sa : aserver) (inh : sftp_in_header) (data : bytes) : outcome aserver :=
  if 4 + get_fs_handle_buffer_size <=? inh_len inh then
    let! len := lift (uint32_at data 0) in
    if get_fs_handle_buffer_size <=? len then
      let! (handle, _) := get_fs_handle hashtable (ev_fuel ev) (sv_table (as_sv sa)) (sf_unique (sa_sftp sftp)) (drop 4 data) len in
      let! e := lift handle in
      let! h := lift (ht_handles (sv_table (as_sv sa)) !! e) in
      if has (fh_flags h) HANDLE_FLAG_EOD then status_of sa inh SSH_FX_EOF
      else
        match so_type (fh_socket h) with
        | SockDir => _sftp_op_readdir rr sftp sa e inh
        | SockFile => Ub
        end
    else status_of sa inh SSH_FX_BAD_MESSAGE
  else status_of sa inh SSH_FX_BAD_MESSAGE.

(** ** init.c: the table of callbacks with those of this file *)

Inductive aop := OpStat | OpLstat | OpFstat | OpMkdir | OpReaddir | OpOther (o : op).

#[global] Instance other_dec (o : aop) : Decision (exists o', o = OpOther o').
Proof. destruct o; first [by left; eexists | by right; intros [? ?]]. Defined.

(** What is left out are the extensions. *)
Definition acb (type : Z) : option aop :=
  if type =? SSH_FXP_READDIR then Some OpReaddir
  else if type =? SSH_FXP_LSTAT then Some OpLstat
  else if type =? SSH_FXP_STAT then Some OpStat
  else if type =? SSH_FXP_FSTAT then Some OpFstat
  else if type =? SSH_FXP_MKDIR then Some OpMkdir
  else OpOther <$> cb type.

Definition run_aop (rr : realloc_result) (o : aop) (sftp : sftp_attrs) (sa : aserver) (inh : sftp_in_header) (data : bytes) : outcome aserver :=
  match o with
  | OpStat => sftp_op_stat sftp sa inh data
  | OpLstat => sftp_op_lstat sftp sa inh data
  | OpFstat => sftp_op_fstat sftp sa inh data
  | OpMkdir => sftp_op_mkdir sftp sa inh data
  | OpReaddir => sftp_op_readdir rr sftp sa inh data
  | OpOther o => let! sv := run_op hashtable sys ev o (sa_sftp sftp) (as_sv sa) inh data in Ret (mk_aserver sv (as_cache sa))
  end.

(** ** The invariant of the server *)

Section Invariant.
Context (sftp : sftp_attrs) (sa : aserver) (A : gmap nat (list nat)) (inh : sftp_in_header) (Hwf : wf_server hashtable (as_sv sa) A).

(** One more reply, under the id of the request. *)
Abbreviation one := (fun sa' => step_ok hashtable ev (as_sv sa) (inh_id inh) (eq 1%nat) (as_sv sa')).

Lemma answered sv' r c : wf_server hashtable sv' A -> sv_sent sv' = sv_sent (as_sv sa) -> ensures (let! sv := answer ev sv' (inh_id inh) r in Ret (mk_aserver sv c)) one.
Proof.
  intros Hwf' Hs. eapply ensures_bind; [by apply (answered_after hashtable ev (as_sv sa) A inh sv' r) |]. intros sv2 H. by apply ensures_ret.
Qed.

Lemma status_kept status : ensures (status_of sa inh status) one.
Proof. by apply answered. Qed.

Lemma reply_kept valid st : ensures (reply_sftp_attr_from_stat sftp sa (inh_id inh) valid st) one.
Proof.
  unfold reply_sftp_attr_from_stat. apply ensures_let. intros [[size s1] c] _. apply ensures_let. intros ab _. apply ensures_let. intros s2 _. by apply answered.
Qed.

Lemma next_dentry_kept (sv : server) e h : wf_server hashtable sv A -> ht_handles (sv_table sv) !! e = Some h ->
  wf_server hashtable (next_dentry sv e h).2 A /\ sv_sent (next_dentry sv e h).2 = sv_sent sv.
Proof.
  intros Hw He. destruct (proj2 Hw e h He) as [Hk Ht]. unfold next_dentry.
  pose proof (read_dentry_type sys ev (sv_os sv) (fh_socket h)) as Hd. destruct (read_dentry _ _ _ _) as [[[r d] sock] os]. cbn in Hd.
  cbn [snd sv_sent]. split; [| done]. set (h' := if _ || _ then _ else _).
  assert (key_of h' = key_of h /\ fh_type h' = fh_type h /\ fh_socket h' = sock) as (Ek & Et & Es) by (unfold h'; by destruct (_ || _)).
  apply (wf_change_handle hashtable sv A e h); [done | done | done |]. split; [by rewrite Ek | by rewrite Et, Es, Hd].
Qed.

Abbreviation kept sv0 := (fun x : server (S := S) (OS := OS) * bytes * Z => wf_server hashtable x.1.1 A /\ sv_sent x.1.1 = sv_sent sv0).

Lemma readdir_loop_kept rr c len mask valid e : forall fuel r (sv : server (S := S) (OS := OS)) buffer count, wf_server hashtable sv A ->
  ensures (readdir_loop rr fuel sftp c len mask valid e r sv buffer count) (kept sv).
Proof.
  induction fuel as [|fuel IH]; intros r sv buffer count Hw; [done |]. cbn [readdir_loop]. apply ensures_let. intros h He%lift_Ret.
  destruct (next_dentry_kept sv e h Hw He) as [Hw' Hs'].
  assert (forall r b n, ensures (let (eod, sv) := next_dentry sv e h in if eod : bool then Ret (sv, b, n) else readdir_loop rr fuel sftp c len mask valid e r sv b n) (kept sv)) as Hnext.
  { intros r' b n. destruct (next_dentry sv e h) as [eod sv']. cbn [snd] in *. destruct eod; [by apply ensures_ret |].
    intros x Hx. apply (IH r' sv' b n Hw') in Hx. by rewrite <- Hs'. }
  destruct (_ && _); [| by apply ensures_ret]. destruct (dd_dirent _) as [d|]; [| by apply IH]. apply ensures_let. intros [errno|st] _; [apply Hnext |].
  apply ensures_let. intros ignore _. destruct ignore; [by apply IH |]. apply ensures_let. intros [[tmp size] r'] _.
  destruct (_ <? _); [by apply ensures_ret |]. apply ensures_let. intros x _. apply Hnext.
Qed.

Lemma readdir_kept rr e : ensures (_sftp_op_readdir rr sftp sa e inh) one.
Proof.
  unfold _sftp_op_readdir. apply ensures_let. intros h _. apply ensures_let. intros [[len r] c] _.
  eapply ensures_bind; [by apply readdir_loop_kept |]. intros [[sv buffer] count] [Hw Hs]. cbn [fst] in *.
  apply ensures_let. intros h' _. destruct (_ && _); by apply answered.
Qed.

#[local] Hint Resolve status_kept reply_kept readdir_kept : server.

Ltac branches :=
  repeat first
    [ progress auto with server
    | done
    | lazymatch goal with
      | |- ensures (outcome_bind _ _) _ => apply ensures_let; intros ? ?
      | |- ensures (match ?x with _ => _ end) _ => destruct x
      end ].

Lemma attr_step_kept rr o data : (forall o', o <> OpOther o') -> ensures (run_aop rr o sftp sa inh data) one.
Proof.
  intros Ho. destruct o; cbn [run_aop].
  - unfold sftp_op_stat, sftp_op_stat_generic. branches.
  - unfold sftp_op_lstat, sftp_op_stat_generic. branches.
  - unfold sftp_op_fstat. branches.
  - unfold sftp_op_mkdir. destruct (_ <=? _); [| apply status_kept]. apply ensures_let. intros len _. destruct (_ <=? _); [| apply status_kept].
    apply ensures_let. intros location _. cbv zeta. apply ensures_let. intros [bits ab] _. apply ensures_let. intros [s c] _. apply ensures_let. intros [result os] _.
    by apply answered.
  - unfold sftp_op_readdir. branches.
  - by destruct (Ho o).
Qed.

End Invariant.


(** ** Directories *)

(** The system gives [n] more entries of the directory [fd], in any portions, and
    then the end or an error. *)
Inductive drained (fd : Z) : OS -> nat -> OS -> Prop :=
| drained_error os os' errno : sc_getdents sys os fd = (inl errno, os') -> drained fd os 0 os'
| drained_end os os' : sc_getdents sys os fd = (inr [], os') -> drained fd os 0 os'
| drained_more os os' os'' ds n : sc_getdents sys os fd = (inr ds, os') -> ds <> [] -> drained fd os' n os'' -> drained fd os (length ds + n) os''.

(** An open directory with an entry at hand. *)
Definition open_dir (h : fs_handle fs_socket) : Prop :=
  so_type (fh_socket h) = SockDir /\ dd_buffer (so_dir (fh_socket h)) = true /\ is_Some (dd_dirent (so_dir (fh_socket h))).

(** The path of an entry has no length, so that it is never looked up. *)
Lemma entry_not_found os sock d mask : fs_socket_fgetstatat os sock (fs_path_assign_buffer (Some (dentry_name d)) (zlen (dentry_name d))) mask 0 = Some (inl (-1)).
Proof. done. Qed.

Abbreviation set_handle t e h := (mk_table (ht_store t) (<[e := h]> (ht_handles t))).

(** One entry is passed over: either there is another one, or the end is marked. *)
Lemma next_dentry_cases (sv : server (S := S) (OS := OS)) e h n os' : open_dir h -> drained (so_fd (fh_socket h)) (sv_os sv) n os' ->
  (exists sock os1 k, next_dentry sv e h = (false, mk_server (set_handle (sv_table sv) e (set_socket sock h)) os1 (sv_sent sv)) /\
     open_dir (set_socket sock h) /\ so_fd sock = so_fd (fh_socket h) /\ drained (so_fd sock) os1 k os' /\
     (length (dd_left (so_dir (fh_socket h))) + n = Datatypes.S (length (dd_left (so_dir sock)) + k))%nat) \/
  (exists sock, next_dentry sv e h = (true, mk_server (set_handle (sv_table sv) e (set_hflags (Z.lor (fh_flags h) HANDLE_FLAG_EOD) (set_socket sock h))) os' (sv_sent sv)) /\
     (length (dd_left (so_dir (fh_socket h))) + n = 0)%nat).
Proof.
  intros (Ht & Hb & d & Hd) Hdr. unfold next_dentry, read_dentry. rewrite Hb. cbn [negb andb].
  destruct (dd_left (so_dir (fh_socket h))) as [|d1 rest] eqn:El.
  - inversion Hdr as [? ? errno E|? ? E|? os1 ? ds k E Hne Hk]; subst; rewrite E.
    + right. eexists. by split.
    + right. eexists. by split.
    + destruct ds as [|d1 rest]; [done |]. left. eexists _, os1, k. split; [reflexivity |]. split_and!; [split_and!; [done | done | by eexists] | done | done | cbn; lia].
  - left. eexists _, (sv_os sv), n. split; [reflexivity |]. split_and!; [split_and!; [done | done | by eexists] | done | done | cbn; lia].
Qed.

Lemma readdir_passes rr sftp c len mask valid e r : forall fuel (sv : server (S := S) (OS := OS)) h n os',
  ht_handles (sv_table sv) !! e = Some h -> open_dir h -> has (fh_flags h) HANDLE_FLAG_EOD = false ->
  drained (so_fd (fh_socket h)) (sv_os sv) n os' -> (length (dd_left (so_dir (fh_socket h))) + n < fuel)%nat ->
  exists sock, readdir_loop rr fuel sftp c len mask valid e r sv [] 0 =
    Ret (mk_server (set_handle (sv_table sv) e (set_hflags (Z.lor (fh_flags h) HANDLE_FLAG_EOD) (set_socket sock h))) os' (sv_sent sv), [], 0).
Proof.
  induction fuel as [|fuel IH]; intros sv h n os' Hh Ho He Hdr Hf; [lia |]. cbn [readdir_loop]. rewrite Hh. cbn [lift outcome_bind].
  rewrite He. change (zlen [] <? SFTP_READDIR_NAMES_SIZE) with true. cbn [andb negb].
  pose proof Ho as (_ & _ & d & Hd). rewrite Hd, entry_not_found. cbn [lift outcome_bind].
  destruct (next_dentry_cases sv e h n os' Ho Hdr) as [(sock & os1 & k & -> & Ho1 & Hfd & Hk & Hlen)|(sock & -> & _)].
  - destruct (IH (mk_server (set_handle (sv_table sv) e (set_socket sock h)) os1 (sv_sent sv)) (set_socket sock h) k os') as (sock2 & ->);
      [cbn [sv_table ht_handles]; by rewrite lookup_insert_eq | done | done | done | cbn; lia |].
    exists sock2. cbn [sv_table sv_sent]. f_equal. f_equal. f_equal. f_equal. cbn [ht_store ht_handles]. by rewrite insert_insert_eq.
  - by exists sock.
Qed.

(** The size of the array of an entry, with the valid bits of a handle. *)
Lemma max_size mc v c : cached_ok mc v c ->
  exists len r c', get_write_max_buffersize (actx mc v) c (mk_valid 0 0) = Some (len, r, c') /\ cached_ok mc v c'.
Proof.
  intros Hc. unfold get_write_max_buffersize, get_size_buffer_write_attributes.
  match goal with |- context [parse_attributes_generic _ c ?f ?s ?w] =>
    destruct (cached_run mc v c f s w Hc (prepare_calm mc v) (prepare_no_flags mc v)) as [fl ->] end.
  cbn [ps_r]. rewrite selected_write. rewrite !Z.land_0_l.
  assert (order_v v (mk_valid 0 0) = [32%nat]) as Eo by by destruct v. rewrite Eo.
  match goal with |- context [run_cbs ?f ?l ?x] => set (s0 := x); assert (exists s1, run_cbs f l s0 = Some s1) as [s1 E1] by (destruct v; by eexists) end.
  rewrite E1. cbn [option_map]. opt. destruct (run_lengths mc v _ _ _ E1) as (H1 & H2 & _).
  destruct (cached_remember mc v mem c (with_flags fl s1) Hc) as (c1 & -> & Hc1).
  { cbn [with_flags set_r ps_cb ps_r r_valid]. rewrite H1, H2. subst s0. cbn [set_r ps_cb ps_r start_result r_valid app]. by rewrite selected_write, !Z.land_0_l, Eo. }
  opt. by eexists _, _, c1.
Qed.

Section Readdir.
Context (rr : realloc_result) (sftp : sftp_attrs) (sa : aserver) (A : gmap nat (list nat)) (inh : sftp_in_header) (k : Z * Z * Z).
Context (Hwf : wf_server hashtable (as_sv sa) A) (Hb : bounded A (ev_fuel ev)) (Hk : wf_key k) (Hl : 24 <= inh_len inh).

Lemma readdir_handle rest : sftp_op_readdir rr sftp sa inh (encode_string (key_string k) ++ rest) =
  let! e := lift (head (stack hashtable (sv_table (as_sv sa)) A k)) in
  let! h := lift (ht_handles (sv_table (as_sv sa)) !! e) in
  if has (fh_flags h) HANDLE_FLAG_EOD then status_of sa inh SSH_FX_EOF
  else match so_type (fh_socket h) with SockDir => _sftp_op_readdir rr sftp sa e inh | SockFile => Ub end.
Proof.
  unfold sftp_op_readdir. change (4 + get_fs_handle_buffer_size) with 24. rewrite (proj2 (Z.leb_le _ _) Hl).
  pose proof (zlen_key_string k) as Hz. destruct (string_field (key_string k) rest) as [-> ->]; [by rewrite Hz |]. cbn [lift outcome_bind]. rewrite Hz.
  change (get_fs_handle_buffer_size <=? 20) with true. cbv iota. rewrite (get_key hashtable _ A) by (done || apply Hwf). done.
Qed.

End Readdir.

(** C36: a READDIR lists nothing.  For every open directory, whatever entries it has
    and in whatever portions the system gives them: every entry is passed over,
    because its path is made without a length and is never looked up, the end is
    marked and the answer is EOF.  The handler ends once the entries are used up. *)
Theorem readdir_lists_nothing (rr : realloc_result) (mc : mapcb) (v : ver) (sftp : sftp_attrs) (sa : aserver)
    (A : gmap nat (list nat)) (inh : sftp_in_header) (k : Z * Z * Z) (rest : bytes) (e n : nat) (h : fs_handle fs_socket) (os' : OS) :
  wf_server hashtable (as_sv sa) A -> bounded A (ev_fuel ev) -> wf_key k -> 24 <= inh_len inh ->
  sa_actx sftp = actx mc v -> cached_ok mc v (as_cache sa) ->
  head (stack hashtable (sv_table (as_sv sa)) A k) = Some e -> ht_handles (sv_table (as_sv sa)) !! e = Some h -> open_dir h ->
  has (fh_flags h) HANDLE_FLAG_EOD = false ->
  drained (so_fd (fh_socket h)) (sv_os (as_sv sa)) n os' -> (length (dd_left (so_dir (fh_socket h))) + n < ev_fuel ev)%nat ->
  exists sock c', cached_ok mc v c' /\
    sftp_op_readdir rr sftp sa inh (encode_string (key_string k) ++ rest) =
      Ret (mk_aserver (with_reply (mk_server (set_handle (sv_table (as_sv sa)) e (set_hflags (Z.lor (fh_flags h) HANDLE_FLAG_EOD) (set_socket sock h))) os' (sv_sent (as_sv sa)))
        inh (RStatus SSH_FX_EOF)) c').
Proof.
  intros Hwf Hb Hk Hl Hx Hc Hst Hh Ho Hf Hd Hn. rewrite (readdir_handle rr sftp sa A inh k Hwf Hb Hk Hl), Hst. cbn [lift outcome_bind]. rewrite Hh. cbn [lift outcome_bind].
  rewrite Hf. rewrite (proj1 Ho). unfold _sftp_op_readdir. rewrite Hh. cbn [lift outcome_bind]. unfold sftp_get_valid_fs_handle. rewrite Hx.
  destruct (max_size mc v (as_cache sa) Hc) as (len & r & c' & -> & Hc'). cbn [lift outcome_bind].
  destruct (readdir_passes rr sftp c' len (r_stat_mask r) (mk_valid 0 0) e r (ev_fuel ev) (as_sv sa) h n os' Hh Ho Hf Hd Hn) as (sock & ->). cbn [outcome_bind].
  cbn [sv_table ht_handles]. rewrite lookup_insert_eq. cbn [lift outcome_bind fh_flags set_hflags]. rewrite has_lor_same by done.
  exists sock, c'. split; [done |]. cbn [andb]. change (zlen [] =? 0) with true. cbv iota. unfold status_of. cbn [as_sv]. by rewrite status_spec.
Qed.

(** a READDIR with the name of no handle follows the NULL it got. *)
Theorem readdir_unknown_handle (rr : realloc_result) (sftp : sftp_attrs) (sa : aserver) (A : gmap nat (list nat)) (inh : sftp_in_header) (k : Z * Z * Z) (rest : bytes) :
  wf_server hashtable (as_sv sa) A -> bounded A (ev_fuel ev) -> wf_key k -> 24 <= inh_len inh ->
  head (stack hashtable (sv_table (as_sv sa)) A k) = None -> sftp_op_readdir rr sftp sa inh (encode_string (key_string k) ++ rest) = Ub.
Proof. intros Hwf Hb Hk Hl Hst. by rewrite (readdir_handle rr sftp sa A inh k Hwf Hb Hk Hl), Hst. Qed.

(** ** Attributes of a file *)

Section Stat.
Context (mc : mapcb) (v : ver).

(** The attributes of the system that the valid bits ask for. *)
Definition asked (valid : sftp_valid) : Z :=
  foldl (fun x ctr => Z.lor x (default 0 (cb_stat_mask <$> ac_attrcb (actx mc v) !! ctr))) 0 (order_v v valid).

Lemma mask_calm : calm (actx mc v) (_read_stat_mask_cb (actx mc v)).
Proof.
  intros s s' ctr H. unfold _read_stat_mask_cb in H. destruct (_ !! ctr) as [e|] eqn:E; cbn [mbind option_bind] in H; [| done]. injection H as <-.
  split; [done |]. exists e. split; [done | by right].
Qed.

Lemma mask_flagless : flagless (_read_stat_mask_cb (actx mc v)).
Proof. intros fl s ctr. unfold _read_stat_mask_cb. by destruct (_ !! ctr) as [e|]. Qed.

Lemma run_mask cbs : Forall (fun ctr => is_Some (ac_attrcb (actx mc v) !! ctr)) cbs -> forall s, exists s',
  run_cbs (_read_stat_mask_cb (actx mc v)) cbs s = Some s' /\
  r_stat_mask (ps_r s') = foldl (fun x ctr => Z.lor x (default 0 (cb_stat_mask <$> ac_attrcb (actx mc v) !! ctr))) (r_stat_mask (ps_r s)) cbs.
Proof.
  induction 1 as [|ctr cbs [e He] _ IH]; intros s; [by exists s |]. cbn [run_cbs foldl]. unfold _read_stat_mask_cb at 2. rewrite He. opt.
  match goal with |- context [run_cbs _ cbs ?x] => destruct (IH x) as (s' & -> & Hm) end. exists s'. split; [done |]. rewrite Hm. done.
Qed.

Lemma stat_mask_asked sftp sa fl m : sa_actx sftp = actx mc v -> cached_ok mc v (as_cache sa) -> subseconds_ok v fl m ->
  let valid := mk_valid (Z.land fl SUB) (Z.land m (w_mask_of v)) in
  stat_mask_of sftp sa (mk_valid fl m) = Some (asked valid).
Proof.
  intros Hx Hc Hs valid. unfold stat_mask_of, translate_valid_2_stat_mask. rewrite Hx.
  match goal with |- context [parse_attributes_generic _ ?c ?f ?s ?w] => destruct (cached_run mc v c f s w Hc mask_calm mask_flagless) as [fl' ->] end.
  cbn [ps_r direction_flag]. rewrite selected_write. fold valid.
  assert (Forall (fun ctr => is_Some (ac_attrcb (actx mc v) !! ctr)) (order_v v valid)) as Hf.
  { eapply Forall_impl; [apply (order_writable_names v fl m Hs) |]. intros ctr Hctr. cbn in Hctr.
    by apply writable_entry. }
  match goal with |- context [run_cbs _ _ ?x] => destruct (run_mask _ Hf x) as (s' & -> & Hm) end. cbn [option_map]. opt.
  cbn [with_flags set_r ps_r r_stat_mask]. by rewrite Hm.
Qed.

Lemma announced_bound valid : 0 <= announced mc v (order_v v valid) <= 37000.
Proof.
  pose proof (announced_small mc v (order_v v valid)). pose proof (order_length v valid) as Hl.
  unfold ATTR_CONTEXT_COUNT_ATTR_CB in Hl. unfold zlen in *. lia.
Qed.

Section Reply.
Context (st : system_stat) (un gn : bytes).
Hypothesis user_named : writes_name (mc_user_l2p mc) (get_uid_system_stat st) un.
Hypothesis group_named : writes_name (mc_group_l2p mc) (get_gid_system_stat st) gn.
Hypothesis names_short : zlen un + zlen gn + 8 <= ownergroup_maxlength.
Hypothesis times_fit : times_ok st.

(** The bytes of an ATTRS reply: the valid bits, the attributes, and what is left of
    the array. *)
Definition attrs_payload (fl m : Z) : bytes :=
  let valid := mk_valid (Z.land fl SUB) (Z.land m (w_mask_of v)) in
  let enc := encoding_names v st un gn (order_v v valid) in
  be_encode 4 (Z.lor (v_mask valid) (v_flags valid)) ++ enc ++
  replicate (Z.to_nat (announced mc v (order_v v valid) - 4 - zlen enc)) (ev_fill ev).

Lemma reply_attrs sftp sa inh fl m : sa_actx sftp = actx mc v -> cached_ok mc v (as_cache sa) -> subseconds_ok v fl m ->
  let cbs := order_v v (mk_valid (Z.land fl SUB) (Z.land m (w_mask_of v))) in
  4 + zlen (encoding_names v st un gn cbs) <= announced mc v cbs ->
  zlen (attrs_payload fl m) = announced mc v cbs /\
  exists c1, cached_ok mc v c1 /\
    reply_sftp_attr_from_stat sftp sa (inh_id inh) (mk_valid fl m) st =
      Ret (mk_aserver (with_reply (as_sv sa) inh (RAttrs (attrs_payload fl m) (zlen (attrs_payload fl m)))) c1).
Proof.
  intros Hx Hc Hs cbs Hfit. set (enc := encoding_names v st un gn cbs) in *. pose proof (zlen_nonneg enc).
  pose proof (announced_bound (mk_valid (Z.land fl SUB) (Z.land m (w_mask_of v)))) as Ha. fold cbs in Ha.
  set (n := announced mc v cbs) in *.
  set (word := Z.lor (Z.land m (w_mask_of v)) (Z.land fl SUB)).
  assert (attrs_payload fl m = be_encode 4 word ++ enc ++ replicate (Z.to_nat (n - 4 - zlen enc)) (ev_fill ev)) as Ep by done.
  assert (zlen (attrs_payload fl m) = n) as Ez by (rewrite Ep, !zlen_app, zlen_be_encode, zlen_replicate; lia).
  split; [done |]. unfold reply_sftp_attr_from_stat. rewrite Hx.
  destruct (size_announced mc st v (as_cache sa) mem fl m init_read_attr_buffer Hc Hs) as (s1 & c1 & -> & Hc1 & Hv).
  exists c1. split; [done |]. cbn [lift outcome_bind]. fold cbs n. rewrite Hv. cbn [v_mask v_flags]. fold word.
  set (buf0 := replicate (Z.to_nat n) (ev_fill ev)). assert (zlen buf0 = n) as Eb by (unfold buf0; rewrite zlen_replicate; lia).
  rewrite (writes_emits _ _ (emits_uint32 word) _ [] (take 4 buf0) (drop 4 buf0));
    [| done | cbn; by rewrite take_drop | done | rewrite zlen_be_encode; unfold zlen in *; rewrite length_take; lia | cbn; lia | by apply (sgn_range 32)].
  cbn [lift outcome_bind app].
  destruct (names_written_at mc st un gn user_named group_named names_short times_fit v c1 (ps_r s1) fl m
    (moved (set_attr_buffer_write init_read_attr_buffer buf0 n) (be_encode 4 word ++ drop 4 buf0) (zlen (be_encode 4 word)))
    (be_encode 4 word) (take (length enc) (drop 4 buf0)) (drop (length enc) (drop 4 buf0))) as (s2 & -> & Eab);
    [done | done | done | cbn; by rewrite take_drop | done | | | by apply (sgn_range 32) |].
  - fold cbs enc. unfold zlen in *. rewrite length_take, length_drop. lia.
  - cbn [moved set_cursor ab_buffer]. rewrite zlen_app, zlen_be_encode. unfold zlen in *. rewrite length_drop. lia.
  - cbn [lift outcome_bind]. fold cbs enc in Eab. rewrite Eab. cbn [moved set_cursor ab_buffer ab_len set_attr_buffer_write].
    replace (drop (length enc) (drop 4 buf0)) with (replicate (Z.to_nat (n - 4 - zlen enc)) (ev_fill ev)).
    + rewrite <- Ep. pose proof (server_answer ev (as_sv sa) inh (RAttrs (attrs_payload fl m) n)) as Hans. rewrite Ez, Hans; [done |].
      split; [lia | unfold is_u32; lia].
    + unfold buf0. rewrite !drop_replicate. f_equal. unfold zlen. lia.
Qed.

End Reply.

(** The parts of the message of a STAT. *)
Lemma stat_request cb_stat sftp sa inh path bits rest : wf_sftp (sa_sftp sftp) -> path_fits (sa_sftp sftp) path -> is_u32 bits -> zlen path + 8 <= inh_len inh ->
  sftp_op_stat_generic cb_stat sftp sa inh (encode_string path ++ be_encode 4 bits ++ rest) =
    let valid := convert_sftp_valid_w (sa_actx sftp) bits in
    let! mask := lift (stat_mask_of sftp sa valid) in
    let! result := lift (cb_stat (sv_os (as_sv sa)) (filled (fullpath (sa_sftp sftp) path) 1 (ev_fill ev)) mask) in
    match result with
    | inr (st, _, _) => reply_sftp_attr_from_stat sftp sa (inh_id inh) valid st
    | inl errno => status_of sa inh (link_error errno)
    end.
Proof.
  intros Hsf Hfit Hbits Hl. assert (is_u32 (zlen path + 12)) as Hp.
  { destruct Hsf as (_ & [? _] & [? _]). unfold path_fits, is_u32 in *. pose proof (zlen_nonneg path). lia. }
  unfold is_u32 in Hp. pose proof (zlen_nonneg path).
  unfold sftp_op_stat_generic. rewrite (proj2 (Z.leb_le 8 (inh_len inh))) by lia.
  destruct (string_field path (be_encode 4 bits ++ rest)) as [-> ->]; [unfold is_u32; lia |]. cbn [lift outcome_bind].
  rewrite (u32_id (zlen path + 8)) by (unfold is_u32; lia). rewrite (proj2 (Z.leb_le _ _) Hl), request_path by done. cbn [lift outcome_bind].
  rewrite (u32_id (4 + zlen path)) by (unfold is_u32; lia). by rewrite uint32_at_app by (done || rewrite zlen_encode_string; lia).
Qed.

Lemma convert_valid bits : convert_sftp_valid_w (actx mc v) bits = mk_valid (Z.land bits SUB) (Z.land bits (w_mask_of v)).
Proof. by destruct v. Qed.

Lemma selected_again fl m : mk_valid (Z.land (Z.land fl SUB) SUB) (Z.land (Z.land m (w_mask_of v)) (w_mask_of v)) =
  mk_valid (Z.land fl SUB) (Z.land m (w_mask_of v)).
Proof. by rewrite <- !Z.land_assoc, !Z.land_diag. Qed.

(** What a reader of the other side gets out of the [len] bytes of the payload. *)
Definition payload_read (mcr : mapcb) (st : system_stat) (bits : Z) (payload : bytes) (len : Z) : Prop :=
  forall cr st0 ab0, cached_ok mcr v cr -> wf_stat st0 -> exists ab1 s3 c3,
    read_uint32 (set_attr_buffer_read ab0 payload len) = Some (Z.land bits (w_mask_of v), ab1) /\
    read_attributes_generic mem (actx mcr v) cr ab1 RW_ATTR_RESULT_INIT st0 (Z.land bits (w_mask_of v)) = Some (s3, c3) /\
    cached_ok mcr v c3 /\ agree_names st v bits st0 (ps_stat s3).

Lemma payload_back mcr st un gn bits tail len : wf_stat st -> 0 < zlen un < 2 ^ 31 /\ 0 < zlen gn < 2 ^ 31 -> is_u32 bits -> has bits TIMES = false ->
  (has bits SSH_FILEXFER_ATTR_OWNERGROUP = true ->
   names_read mcr st un gn ((if has bits SSH_FILEXFER_ATTR_PERMISSIONS then be_encode 4 (Z.land (get_mode_system_stat st) S_IRWXALL) else []) ++ tail)) ->
  let payload := be_encode 4 (Z.land bits (w_mask_of v)) ++ encoding_names v st un gn (order_plain bits) ++ tail in
  zlen payload < 2 ^ 32 -> zlen payload - zlen tail <= len < 2 ^ 31 -> payload_read mcr st bits payload len.
Proof.
  intros Hst Hnames Hbits Ht Hn payload Hlp Hl cr st0 ab0 Hc Hs0. set (enc := encoding_names v st un gn _) in *.
  set (word := Z.land bits (w_mask_of v)) in *. pose proof (zlen_nonneg enc). pose proof (zlen_nonneg tail).
  assert (is_u32 word) as Hw.
  { unfold word, is_u32 in *. split; [apply Z.land_nonneg; left; lia |].
    assert (0 <= w_mask_of v < 2 ^ 32) as Hm by (destruct v; vm_compute; (split; [discriminate | reflexivity])).
    destruct (Z.eq_dec (Z.land bits (w_mask_of v)) 0) as [-> |Hz]; [lia |].
    assert (0 <= Z.land bits (w_mask_of v)) by (apply Z.land_nonneg; left; lia).
    apply Z.log2_lt_pow2; [lia |]. eapply Z.le_lt_trans; [apply Z.log2_land; lia |].
    apply Z.min_lt_iff. right. destruct (Z.eq_dec (w_mask_of v) 0) as [E|E]; [by rewrite E |]. apply Z.log2_lt_pow2; lia. }
  assert (zlen payload = 4 + zlen enc + zlen tail) as Ez by (unfold payload; rewrite !zlen_app, zlen_be_encode; lia).
  pose proof (accepts_uint32 word Hw) as Hacc.
  assert (read_uint32 (set_attr_buffer_read ab0 payload len) = Some (word, moved (set_attr_buffer_read ab0 payload len) payload (zlen (be_encode 4 word)))) as Er.
  { apply (Hacc (set_attr_buffer_read ab0 payload len) [] (enc ++ tail)); [done | done | cbn; lia |]. rewrite zlen_be_encode. cbn [set_attr_buffer_read ab_left]. rewrite sgn_small; lia. }
  destruct (names_read_at mcr st un gn Hst Hnames v cr mem bits st0 (moved (set_attr_buffer_read ab0 payload len) payload (zlen (be_encode 4 word)))
    (be_encode 4 word) tail Hc Hs0 Ht Hn) as (s3 & c3 & E & Hc3 & _ & Ha).
  - done.
  - done.
  - done.
  - cbn. lia.
  - cbn [moved set_cursor ab_left set_attr_buffer_read]. fold enc. rewrite zlen_be_encode, !sgn_small; rewrite ?sgn_small; lia.
  - by eexists _, s3, c3.
Qed.

Lemma status_answer sa inh status : is_u32 status -> status_of sa inh status = Ret (mk_aserver (with_reply (as_sv sa) inh (RStatus status)) (as_cache sa)).
Proof. intros Hs. unfold status_of. by rewrite status_spec. Qed.

Lemma link_error_u32 errno : is_u32 (link_error errno).
Proof. unfold link_error. repeat case_match; done. Qed.

(** With the names in the mask the computed size has room for the valid bits too. *)
Lemma names_leave_room st un gn m : has m SSH_FILEXFER_ATTR_OWNERGROUP = true -> zlen un + zlen gn + 12 <= ownergroup_maxlength ->
  4 + zlen (encoding_names v st un gn (order_plain m)) <= announced mc v (order_plain m).
Proof.
  intros Ho Hl. unfold order_plain. rewrite Ho. change ownergroup_maxlength with 580 in Hl.
  assert (forall l, announced mc v (7%nat :: l) = 580 + announced mc v l) as E7 by by destruct v.
  assert (forall l, announced mc v (32%nat :: l) = 1 + announced mc v l) as E32 by by destruct v.
  assert (forall l, announced mc v (0%nat :: l) = 8 + announced mc v l) as E0 by by destruct v.
  assert (forall l, announced mc v (2%nat :: l) = 4 + announced mc v l) as E2 by by destruct v.
  unfold encoding_names.
  destruct (has m SSH_FILEXFER_ATTR_SIZE), (has m SSH_FILEXFER_ATTR_PERMISSIONS); cbn [app fmap list_fmap concat encode_names];
    change SSH_FILEXFER_INDEX_TYPE with 32%nat; change SSH_FILEXFER_INDEX_SIZE with 0%nat; change SSH_FILEXFER_INDEX_OWNERGROUP with 7%nat; change SSH_FILEXFER_INDEX_PERMISSIONS with 2%nat;
    rewrite ?E32, ?E0, ?E7, ?E2; change (announced mc v []) with 0; cbn [encode_names]; rewrite ?zlen_app, ?zlen_be_encode, ?zlen_cons, ?(zlen_nil (A := Z)); lia.
Qed.

End Stat.

(** A STAT with any mappings of the two sides. *)
Lemma stat_carried (mc mcr : mapcb) (v : ver) (sftp : sftp_attrs) (sa : aserver) (inh : sftp_in_header) (path rest : bytes) (bits : Z) :
  sa_actx sftp = actx mc v -> cached_ok mc v (as_cache sa) ->
  wf_sftp (sa_sftp sftp) -> path_fits (sa_sftp sftp) path -> no_nul (fullpath (sa_sftp sftp) path) -> ev_fill ev = 0 -> zlen path + 8 <= inh_len inh ->
  is_u32 bits -> has bits TIMES = false -> has bits SUB = false -> has bits SSH_FILEXFER_ATTR_OWNERGROUP = true ->
  let ask := asked mc v (mk_valid 0 (Z.land bits (w_mask_of v))) in
  let run := sftp_op_stat sftp sa inh (encode_string path ++ be_encode 4 bits ++ rest) in
  match sc_statx sys (sv_os (as_sv sa)) (fullpath (sa_sftp sftp) path) AT_STATX_SYNC_AS_STAT (if ask =? 0 then SYSTEM_STAT_ALL else ask) with
  | inl errno => run = Ret (mk_aserver (with_reply (as_sv sa) inh (RStatus (link_error errno))) (as_cache sa))
  | inr (st, _, _) => forall un gn,
      writes_name (mc_user_l2p mc) (get_uid_system_stat st) un -> writes_name (mc_group_l2p mc) (get_gid_system_stat st) gn ->
      wf_stat st -> times_ok st -> 0 < zlen un -> 0 < zlen gn -> zlen un + zlen gn + 12 <= ownergroup_maxlength ->
      let tail := replicate (Z.to_nat (announced mc v (order_plain bits) - 4 - zlen (encoding_names v st un gn (order_plain bits)))) 0 in
      exists payload c1, cached_ok mc v c1 /\ run = Ret (mk_aserver (with_reply (as_sv sa) inh (RAttrs payload (zlen payload))) c1) /\
        payload = be_encode 4 (Z.land bits (w_mask_of v)) ++ encoding_names v st un gn (order_plain bits) ++ tail /\
        (names_read mcr st un gn ((if has bits SSH_FILEXFER_ATTR_PERMISSIONS then be_encode 4 (Z.land (get_mode_system_stat st) S_IRWXALL) else []) ++ tail) ->
         payload_read v mcr st bits payload (zlen payload))
  end.
Proof.
  intros Hx Hc Hsf Hfit Hq Hf Hl Hb Ht Hsub Ho ask run.
  assert (Z.land bits SUB = 0) as E0 by (unfold has in Hsub; apply negb_false_iff in Hsub; by apply Z.eqb_eq).
  assert (subseconds_ok v 0 (Z.land bits (w_mask_of v))) as Hs by (right; left; done).
  unfold run, sftp_op_stat. rewrite stat_request by done. rewrite Hx, convert_valid, E0. cbn zeta.
  rewrite (stat_mask_asked mc v sftp sa 0 _ Hx Hc Hs). cbn [lift outcome_bind].
  replace (mk_valid (Z.land 0 SUB) (Z.land (Z.land bits (w_mask_of v)) (w_mask_of v))) with (mk_valid 0 (Z.land bits (w_mask_of v)))
    by by rewrite <- Z.land_assoc, Z.land_diag.
  fold ask. rewrite Hf, system_getstat_spec by done. cbn [lift outcome_bind].
  destruct (sc_statx _ _ _ _ _) as [errno|[[st maj] min]]; [by apply status_answer, link_error_u32 |].
  intros un gn Hun Hgn Hst Htok Hu0 Hg0 Hlen. set (tail := replicate _ 0).
  pose proof (names_leave_room mc v st un gn bits Ho Hlen) as Hroom. rewrite <- (order_no_times v 0 bits Ht) in Hroom.
  assert (Z.land (Z.land bits (w_mask_of v)) (w_mask_of v) = Z.land bits (w_mask_of v)) as Ew by by rewrite <- Z.land_assoc, Z.land_diag.
  destruct (reply_attrs mc v st un gn Hun Hgn ltac:(lia) Htok sftp sa inh 0 (Z.land bits (w_mask_of v)) Hx Hc Hs) as (Ez & c1 & Hc1 & ->); [by rewrite Ew |].
  rewrite Ew in Ez. eexists _, c1. split; [done |]. split; [reflexivity |].
  assert (attrs_payload mc v st un gn 0 (Z.land bits (w_mask_of v)) =
    be_encode 4 (Z.land bits (w_mask_of v)) ++ encoding_names v st un gn (order_plain bits) ++ tail) as Ep.
  { unfold attrs_payload. rewrite Ew, Hf. cbn [v_mask v_flags]. rewrite Z.land_0_l, Z.lor_0_r, (order_no_times v 0 bits Ht). done. }
  split; [exact Ep |]. intros Hn. rewrite Ep. change ownergroup_maxlength with 580 in Hlen.
  eapply payload_back; [done | lia | done | done | intros _; exact Hn | |]; rewrite <- Ep, Ez;
    pose proof (announced_bound mc v (mk_valid (Z.land 0 SUB) (Z.land bits (w_mask_of v)))); [lia |].
  match goal with |- context [zlen ?t] => pose proof (zlen_nonneg t) end. lia.
Qed.


(** ** Where the valid bits do not fit *)

(** [op] writes [n] bytes, inside the buffer when it is defined. *)
Definition grows (op : attr_buffer -> option attr_buffer) (n : Z) : Prop := forall ab ab', ab_ops ab = AbWrite -> 0 <= ab_pos ab -> ab_pos ab + n < 2 ^ 32 -> op ab = Some ab' ->
  ab_pos ab + n <= zlen (ab_buffer ab) /\ ab_pos ab' = ab_pos ab + n /\ zlen (ab_buffer ab') = zlen (ab_buffer ab) /\ ab_ops ab' = AbWrite.

Lemma grows_copy ab ab' d : 0 <= ab_pos ab -> ab_pos ab + zlen d < 2 ^ 32 -> copy_buffer_data ab d = Some ab' ->
  ab_pos ab + zlen d <= zlen (ab_buffer ab) /\ ab_pos ab' = ab_pos ab + zlen d /\ zlen (ab_buffer ab') = zlen (ab_buffer ab) /\ ab_ops ab' = ab_ops ab.
Proof.
  intros Hp Hu E. unfold copy_buffer_data in E. destruct (mem_write (ab_buffer ab) (ab_pos ab) d) as [b|] eqn:Em; cbn [mbind option_bind] in E; [| done].
  injection E as <-. cbn [set_cursor ab_pos ab_buffer ab_ops]. pose proof (mem_write_len _ _ _ _ Em). pose proof (zlen_nonneg d).
  split_and!; [| by rewrite u32_id by (unfold is_u32; lia) | done | done].
  unfold mem_write in Em. case_match; [lia | done].
Qed.

Lemma grows_uint32 x : grows (fun ab => ops_uint32 ab x) 4.
Proof. intros ab ab' Hm Hp Hu E. unfold ops_uint32 in E. rewrite Hm in E. unfold write_uint32 in E. apply grows_copy in E as (? & ? & ? & ->); [done | done | exact Hu]. Qed.
Lemma grows_uint64 x : grows (fun ab => ops_uint64 ab x) 8.
Proof. intros ab ab' Hm Hp Hu E. unfold ops_uint64 in E. rewrite Hm in E. unfold write_uint64 in E. apply grows_copy in E as (? & ? & ? & ->); [done | done | exact Hu]. Qed.
Lemma grows_uchar x : grows (fun ab => ops_uchar ab x) 1.
Proof. intros ab ab' Hm Hp Hu E. unfold ops_uchar in E. rewrite Hm in E. unfold write_uchar in E. apply grows_copy in E as (? & ? & ? & ->); [done | done | exact Hu]. Qed.
Lemma grows_int64 x : grows (fun ab => ops_int64 ab x) 8.
Proof.
  intros ab ab' Hm Hp Hu E. unfold ops_int64 in E. rewrite Hm in E. unfold write_int64 in E. destruct (convert_int64_2c x) as [y|]; cbn [mbind option_bind] in E; [| done].
  apply (grows_uint64 y ab ab' Hm Hp Hu). unfold ops_uint64. by rewrite Hm.
Qed.

Lemma grows_then op1 op2 n1 n2 : 0 <= n1 -> 0 <= n2 -> grows op1 n1 -> grows op2 n2 -> grows (fun ab => let? ab := op1 ab in op2 ab) (n1 + n2).
Proof.
  intros H1 H2 G1 G2 ab ab' Hm Hp Hu E. destruct (op1 ab) as [ab1|] eqn:E1; cbn [mbind option_bind] in E; [| done].
  apply G1 in E1 as (L1 & P1 & Z1 & O1); [| done | done | lia]. apply G2 in E as (L2 & P2 & Z2 & O2); [| done | lia | lia]. split_and!; [lia | lia | lia | done].
Qed.

(** An attribute that takes as much as its table says. *)
Definition exactly (ctx : attr_context) (ctr : nat) : Prop := exists e cb, ac_attrcb ctx !! ctr = Some e /\ cb_w_cb e = Some cb /\ 0 <= cb_maxlength e /\
  forall st, exists op, grows op (cb_maxlength e) /\ forall ab ab' st', cb ab st = Some (ab', st') -> op ab = Some ab'.

Definition total (ctx : attr_context) (cbs : list nat) : Z := foldr (fun ctr n => default 0 (cb_maxlength <$> ac_attrcb ctx !! ctr) + n) 0 cbs.

Lemma total_nonneg ctx cbs : Forall (exactly ctx) cbs -> 0 <= total ctx cbs.
Proof. induction 1 as [|ctr cbs (e & cb & He & _ & Hl & _) _ IH]; [done |]. unfold total in *. cbn [foldr]. rewrite He. cbn. lia. Qed.

Lemma run_exact ctx cbs : Forall (exactly ctx) cbs -> forall s s', ab_ops (ps_ab s) = AbWrite -> 0 <= ab_pos (ps_ab s) <= zlen (ab_buffer (ps_ab s)) ->
  ab_pos (ps_ab s) + total ctx cbs < 2 ^ 32 -> run_cbs (_attr_write_cb ctx) cbs s = Some s' -> ab_pos (ps_ab s) + total ctx cbs <= zlen (ab_buffer (ps_ab s)).
Proof.
  induction 1 as [|ctr cbs (e & cb & He & Hw & Hl & Hop) Hcbs IH]; intros s s' Hm Hp Hu H; [unfold total; cbn [foldr]; lia |].
  pose proof (total_nonneg ctx cbs Hcbs). unfold total in Hu |- *. cbn [foldr] in Hu |- *. rewrite He in Hu |- *. cbn [fmap option_fmap option_map default id] in Hu |- *. fold (total ctx cbs) in Hu |- *.
  cbn [run_cbs] in H. unfold _attr_write_cb at 2 in H. rewrite He in H. cbn [mbind option_bind] in H. rewrite Hw in H. cbn [mbind option_bind set_r ps_ab ps_stat] in H.
  destruct (cb (ps_ab s) (ps_stat s)) as [[ab1 st1]|] eqn:E; cbn [mbind option_bind] in H; [| done]. destruct (Hop (ps_stat s)) as (op & Hg & Hcb). apply Hcb in E.
  apply Hg in E as (L1 & P1 & Z1 & O1); [| done | lia | lia]. apply IH in H; cbn [set_io set_r ps_ab] in *; [cbn in H; lia | done | cbn; lia | cbn; lia].
Qed.

(** A context of which every attribute to be written takes exactly its length. *)
Lemma reply_overflows sftp sa id valid st cbs s1 c1 :
  get_size_buffer_write_attributes mem (sa_actx sftp) (as_cache sa) init_read_attr_buffer RW_ATTR_RESULT_INIT st valid = Some (total (sa_actx sftp) cbs, s1, c1) ->
  (forall ab, exists fl s0, write_attributes_generic (sa_actx sftp) c1 ab (ps_r s1) st valid = option_map (with_flags fl) (run_cbs (_attr_write_cb (sa_actx sftp)) cbs s0) /\ ps_ab s0 = ab) ->
  Forall (exactly (sa_actx sftp)) cbs -> total (sa_actx sftp) cbs < 2 ^ 31 -> reply_sftp_attr_from_stat sftp sa id valid st = Ub.
Proof.
  intros E Hw Hcbs Hn. pose proof (total_nonneg _ _ Hcbs) as H0. unfold reply_sftp_attr_from_stat. rewrite E. cbn [lift outcome_bind].
  set (n := total (sa_actx sftp) cbs) in *. set (ab0 := set_attr_buffer_write _ _ n). assert (zlen (ab_buffer ab0) = n) as Eb by (unfold ab0; cbn; rewrite zlen_replicate; lia).
  match goal with |- context [ops_uint32 ab0 ?w] => destruct (ops_uint32 ab0 w) as [ab1|] eqn:E1; [| done]; apply (grows_uint32 w) in E1 as (L1 & P1 & Z1 & O1); [| done | done | cbn; lia] end.
  cbn [lift outcome_bind]. destruct (Hw ab1) as (fl & s0 & -> & Es). destruct (run_cbs _ cbs s0) as [s2|] eqn:E2; [exfalso | done].
  change (ab_pos ab0) with 0 in *. apply (run_exact _ _ Hcbs) in E2; rewrite Es in *; [lia | done | lia | lia].
Qed.

Lemma exactly_intro ctx ctr cb n (op : system_stat -> attr_buffer -> option attr_buffer) :
  cb_w_cb <$> ac_attrcb ctx !! ctr = Some (Some cb) -> cb_maxlength <$> ac_attrcb ctx !! ctr = Some n -> 0 <= n -> (forall st, grows (op st) n) ->
  (forall ab st, cb ab st = (let? ab := op st ab in Some (ab, st))) -> exactly ctx ctr.
Proof.
  intros E1 E2 Hn Hg Hcb. destruct (ac_attrcb ctx !! ctr) as [e|] eqn:He; [| done]. injection E1 as E1. injection E2 as E2. exists e, cb. rewrite E2. split_and!; [done | done | done |].
  intros st. exists (op st). split; [apply Hg |]. intros ab ab' st' H. rewrite Hcb in H. destruct (op st ab); cbn [mbind option_bind] in H; [by injection H as <- <- | done].
Qed.

Lemma exactly_v03 ids version ctr : SftpAttr.writable ctr -> exactly (init_attr_context_v03 ids version) ctr.
Proof.
  intros Hc. assert (forall x y, grows (fun ab => let? ab := ops_uint32 ab x in ops_uint32 ab y) 8) as G8 by (intros x y; apply (grows_then _ _ 4 4); [lia | lia | apply grows_uint32 | apply grows_uint32]).
  assert (ctr = 0 \/ ctr = 1 \/ ctr = 2 \/ ctr = 3)%nat as [-> |[-> |[-> | ->]]] by (unfold SftpAttr.writable in Hc; lia).
  - apply (exactly_intro _ _ write_attr_size_v03 8 (fun st ab => ops_uint64 ab (u64 (get_size_system_stat st)))); [done | done | lia | intros st; apply grows_uint64 | done].
  - apply (exactly_intro _ _ (write_attr_uidgid_v03 ids) 8 (fun st ab => let? ab := ops_uint32 ab (user_l2p ids (get_uid_system_stat st)) in ops_uint32 ab (group_l2p ids (get_gid_system_stat st))));
      [done | done | lia | intros st; apply G8 |]. intros ab st. unfold write_attr_uidgid_v03. by destruct (ops_uint32 ab _); opt.
  - apply (exactly_intro _ _ write_attr_permissions_v03 4 (fun st ab => ops_uint32 ab (Z.lor (Z.land (get_mode_system_stat st) S_IRWXALL) (get_type_system_stat st)))); [done | done | lia | intros st; apply grows_uint32 | done].
  - apply (exactly_intro _ _ write_attr_acmodtime_v03 8 (fun st ab => let? ab := ops_uint32 ab (u32 (st_sec (get_atime_system_stat st))) in ops_uint32 ab (u32 (st_sec (get_mtime_system_stat st)))));
      [done | done | lia | intros st; apply G8 |]. intros ab st. unfold write_attr_acmodtime_v03. by destruct (ops_uint32 ab _); opt.
Qed.

Ltac each_version := first [done | match goal with v : ver |- _ => by destruct v end].
Ltac exactly_by cb n op g := apply (exactly_intro _ _ cb n op); [each_version | each_version | lia | intros ?; apply g | done].

Lemma exactly_names mc v ctr : ctr ∈ writable_names v -> ctr <> 7%nat -> exactly (actx mc v) ctr.
Proof.
  intros Hc H7. unfold writable_names in Hc.
  assert (ctr = 0 \/ ctr = 2 \/ ctr = 3 \/ ctr = 5 \/ ctr = 32 \/ ctr = 34 \/ (v = V6 /\ (ctr = 15 \/ ctr = 33 \/ ctr = 36)))%nat as Hcase.
  { destruct v; cbn [app] in Hc; repeat (apply elem_of_cons in Hc as [-> |Hc]; [tauto |]); by apply elem_of_nil in Hc. }
  clear Hc H7. destruct Hcase as [-> |[-> |[-> |[-> |[-> |[-> |[-> [-> |[-> | ->]]]]]]]]].
  - exactly_by write_attr_size_v03 8 (fun st ab => ops_uint64 ab (u64 (get_size_system_stat st))) grows_uint64.
  - exactly_by write_attr_permissions_v04 4 (fun st ab => ops_uint32 ab (Z.land (get_mode_system_stat st) S_IRWXALL)) grows_uint32.
  - exactly_by write_attr_accesstime_v04 8 (fun st ab => ops_int64 ab (get_atime_sec_system_stat st)) grows_int64.
  - exactly_by write_attr_modifytime_v04 8 (fun st ab => ops_int64 ab (get_mtime_sec_system_stat st)) grows_int64.
  - apply (exactly_intro _ _ (match v with V4 => write_attr_type_v04 | V5 => write_attr_type_v05 | V6 => write_attr_type_v06 end) 1 (fun st ab => ops_uchar ab (type_byte v st)));
      [by destruct v | by destruct v | lia | intros st; apply grows_uchar |]. intros ab st. destruct (reverse_type_some v st) as [Et _].
    destruct v; [unfold write_attr_type_v04 | unfold write_attr_type_v05 | unfold write_attr_type_v06]; cbn [type_table] in Et; by rewrite Et.
  - exactly_by write_attr_modifytime_n_v04 4 (fun st ab => ops_uint32 ab (get_mtime_nsec_system_stat st)) grows_uint32.
  - exactly_by write_attr_changetime_v06 8 (fun st ab => ops_int64 ab (get_ctime_sec_system_stat st)) grows_int64.
  - exactly_by write_attr_accesstime_n_v04 4 (fun st ab => ops_uint32 ab (get_atime_nsec_system_stat st)) grows_uint32.
  - exactly_by write_attr_changetime_n_v06 4 (fun st ab => ops_uint32 ab (get_ctime_nsec_system_stat st)) grows_uint32.
Qed.

(** The sizes of the attributes of version 3. *)
Lemma total_v03 ids version st m : zlen (encoding ids st (order_v03 (Z.land m w_mask_v03))) = total (init_attr_context_v03 ids version) (order_v03 (Z.land m w_mask_v03)).
Proof.
  rewrite order_selected. destruct (has m SSH_FILEXFER_ATTR_SIZE), (has m SSH_FILEXFER_ATTR_UIDGID), (has m SSH_FILEXFER_ATTR_PERMISSIONS), (has m SSH_FILEXFER_ATTR_ACMODTIME);
    unfold encoding; cbn [app fmap list_fmap concat encode_v03]; rewrite ?zlen_app, ?zlen_be_encode; reflexivity.
Qed.

Lemma replies_overflow_v03 ids version sftp sa id m st : sa_actx sftp = init_attr_context_v03 ids version -> cache_ok version (as_cache sa) ->
  reply_sftp_attr_from_stat sftp sa id (mk_valid 0 m) st = Ub.
Proof.
  intros Hx Hc. destruct (proj1 (size_and_write ids version (as_cache sa) mem m st init_read_attr_buffer Hc)) as (s1 & c1 & E & Hc1).
  rewrite (total_v03 ids version) in E.
  apply (reply_overflows sftp sa id (mk_valid 0 m) st (order_v03 (Z.land m w_mask_v03)) s1 c1); rewrite Hx.
  - exact E.
  - intros ab. unfold write_attributes_generic.
    match goal with |- context [parse_attributes_generic _ c1 ?f ?s ?w] => destruct (generic_run ids version c1 f s w Hc1 (write_marking ids version) (write_flagless ids version)) as [fl ->] end.
    cbn [ps_r]. unfold selected. cbn [or_flag r_flags]. rewrite has_lor_same by done. cbn [v_mask ac_w_valid init_attr_context_v03]. by eexists _, _.
  - eapply Forall_impl; [apply (order_writable m) |]. intros ctr Hctr. by apply exactly_v03.
  - rewrite <- (total_v03 ids version st). pose proof (encoding_short ids m st). lia.
Qed.

Lemma replies_overflow_names mc v sftp sa id fl m st : sa_actx sftp = actx mc v -> cached_ok mc v (as_cache sa) -> subseconds_ok v fl m ->
  has m SSH_FILEXFER_ATTR_OWNERGROUP = false -> reply_sftp_attr_from_stat sftp sa id (mk_valid fl m) st = Ub.
Proof.
  intros Hx Hc Hs Ho. destruct (size_announced mc st v (as_cache sa) mem fl m init_read_attr_buffer Hc Hs) as (s1 & c1 & E & Hc1 & _).
  set (valid := mk_valid (Z.land fl SUB) (Z.land m (w_mask_of v))) in *. pose proof (announced_bound mc v valid) as Hb.
  apply (reply_overflows sftp sa id (mk_valid fl m) st (order_v v valid) s1 c1); rewrite Hx.
  - exact E.
  - intros ab. unfold write_attributes_generic.
    match goal with |- context [parse_attributes_generic _ c1 ?f ?s ?w] => destruct (cached_run mc v c1 f s w Hc1 (write_calm mc v) (write_no_flags mc v)) as [fl' ->] end.
    cbn [ps_r]. rewrite selected_write. by eexists _, _.
  - apply List.Forall_forall. intros ctr Hctr. apply list_elem_of_In in Hctr. pose proof (order_writable_names v fl m Hs) as Hw. rewrite List.Forall_forall in Hw.
    apply exactly_names; [apply Hw; by apply list_elem_of_In |]. intros ->. revert Hctr. unfold valid, order_v. cbn [v_flags v_mask]. apply not_elem_of_cons. split; [done |].
    unfold items_order. intros Hin. apply list_elem_of_In, in_concat in Hin as (l & Hl & Hin). apply list_elem_of_In, list_elem_of_fmap in Hl as (it & -> & Hit).
    assert (has (Z.land m (w_mask_of v)) SSH_FILEXFER_ATTR_OWNERGROUP = false) as Hm.
    { rewrite has_land. destruct v; exact Ho. }
    unfold item_order in Hin. destruct (has (Z.land m (w_mask_of v)) (it_code it)) eqn:Ec; [| done].
    destruct v; cbn [items_of app times_v04] in Hit; repeat (apply elem_of_cons in Hit as [-> |Hit]); try (by apply elem_of_nil in Hit);
      cbn [it_code plain time size_it ownergroup_it permissions_it acl_it bits_it extended_it it_ctr it_nsec] in Ec, Hin; try congruence;
      repeat (destruct Hin as [Hin|Hin]; [discriminate Hin |]); try (by destruct Hin); repeat case_match; repeat (destruct Hin as [Hin|Hin]; [discriminate Hin |]); by destruct Hin.
  - change (total (actx mc v) (order_v v valid)) with (announced mc v (order_v v valid)). lia.
Qed.

(** C38: a STAT for attributes without names ends outside its array.  Version 3 has
    no names; in versions 4 to 6 it is every STAT whose bits leave out the owner.
    The array has the size of the attributes alone and the valid bits are put in
    front of them, so that for every file that exists the last four bytes are
    written behind it. *)
Theorem stat_overflows (sftp : sftp_attrs) (sa : aserver) (inh : sftp_in_header) (path rest : bytes) (bits : Z) :
  (exists ids version, sa_actx sftp = init_attr_context_v03 ids version /\ cache_ok version (as_cache sa)) \/
  (exists mc v, sa_actx sftp = actx mc v /\ cached_ok mc v (as_cache sa) /\ has bits SSH_FILEXFER_ATTR_OWNERGROUP = false /\ subseconds_ok v bits bits) ->
  wf_sftp (sa_sftp sftp) -> path_fits (sa_sftp sftp) path -> no_nul (fullpath (sa_sftp sftp) path) -> ev_fill ev = 0 -> zlen path + 8 <= inh_len inh -> is_u32 bits ->
  (forall mask, is_Some (match sc_statx sys (sv_os (as_sv sa)) (fullpath (sa_sftp sftp) path) AT_STATX_SYNC_AS_STAT mask with inr r => Some r | inl _ => None end)) ->
  sftp_op_stat sftp sa inh (encode_string path ++ be_encode 4 bits ++ rest) = Ub.
Proof.
  intros Hx Hsf Hfit Hq Hf Hl Hb Hst. unfold sftp_op_stat. rewrite stat_request by done. cbn zeta.
  assert (exists fl m mask, convert_sftp_valid_w (sa_actx sftp) bits = mk_valid fl m /\ stat_mask_of sftp sa (mk_valid fl m) = Some mask /\
    forall st, reply_sftp_attr_from_stat sftp sa (inh_id inh) (mk_valid fl m) st = Ub) as (fl & m & mask & -> & -> & Hr).
  { destruct Hx as [(ids & version & Hx & Hc)|(mc & v & Hx & Hc & Ho & Hs)].
    - eexists 0, _, _. split; [rewrite Hx; unfold convert_sftp_valid_w; cbn [ac_w_valid init_attr_context_v03 v_flags v_mask]; by rewrite Z.land_0_r |].
      split; [unfold stat_mask_of; rewrite Hx; by apply valid_2_stat_mask_run |]. intros st. by apply (replies_overflow_v03 ids version).
    - assert (subseconds_ok v (Z.land bits SUB) (Z.land bits (w_mask_of v))) as Hs'.
      { destruct Hs as [Hs|[Hs|Hs]]; [by left | right; left; rewrite has_land; exact Hs | right; right; rewrite has_land; by destruct v]. }
      eexists _, _, _. split; [rewrite Hx; apply convert_valid |]. split; [by apply (stat_mask_asked mc v) |]. intros st. apply (replies_overflow_names mc v); [done | done | done |].
      rewrite has_land. by destruct v. }
  cbn [lift outcome_bind]. rewrite Hf, system_getstat_spec by done. cbn [lift outcome_bind].
  match goal with |- context [sc_statx sys ?a ?b ?c ?d] => destruct (Hst d) as [r Er]; destruct (sc_statx sys a b c d) as [errno|[[st maj] min]]; [done | apply Hr] end.
Qed.

(** ** A new directory *)

Lemma create_dir_spec os q r fill mode : no_nul q -> 0 < zlen q -> is_u32 (zlen q + 1) ->
  system_create_dir os (filled q r fill) mode =
  let (r, os) := ac_mkdir asys os q mode in Some (match r with inl _ => -1 | inr _ => 0 end, os).
Proof.
  intros Hq Hl Hu. unfold system_create_dir. change (fs_path_get_length (filled q r fill)) with (zlen q).
  rewrite (proj2 (Z.ltb_lt _ _) Hl). by rewrite action_name.
Qed.

(** a MKDIR with the attributes of a client.  The directory is made under the
    full path, with the permissions of the message when it has them, and otherwise
    with 707: all for the owner and for the others, and nothing for the group.  The
    status tells what the system said. *)
Theorem mkdir_correct (mc : mapcb) (v : ver) (sftp : sftp_attrs) (sa : aserver) (inh : sftp_in_header) (path rest un gn : bytes) (bits : Z) (st : system_stat) :
  sa_actx sftp = actx mc v -> cached_ok mc v (as_cache sa) ->
  wf_sftp (sa_sftp sftp) -> path_fits (sa_sftp sftp) path -> no_nul (fullpath (sa_sftp sftp) path) -> is_u32 (sa_uid sftp) -> is_u32 (sa_gid sftp) ->
  wf_stat st -> 0 < zlen un < 2 ^ 31 -> 0 < zlen gn < 2 ^ 31 -> is_u32 bits -> has bits TIMES = false ->
  (has bits SSH_FILEXFER_ATTR_OWNERGROUP = true ->
   names_read mc st un gn ((if has bits SSH_FILEXFER_ATTR_PERMISSIONS then be_encode 4 (Z.land (get_mode_system_stat st) S_IRWXALL) else []) ++ rest)) ->
  let attrs := be_encode 4 (Z.land bits (w_mask_of v)) ++ encoding_names v st un gn (order_plain bits) in
  inh_len inh = 4 + zlen path + zlen attrs -> zlen attrs + zlen rest < 2 ^ 31 ->
  let mode := if has bits SSH_FILEXFER_ATTR_PERMISSIONS then Z.land (get_mode_system_stat st) S_IRWXALL else 455 in
  exists c', cached_ok mc v c' /\
    sftp_op_mkdir sftp sa inh (encode_string path ++ attrs ++ rest) =
      let r := ac_mkdir asys (sv_os (as_sv sa)) (fullpath (sa_sftp sftp) path) mode in
      Ret (mk_aserver (with_reply (sv_set_os r.2 (as_sv sa)) inh (RStatus (match r.1 with inl _ => SSH_FX_FAILURE | inr _ => SSH_FX_OK end))) c').
Proof.
  intros Hx Hc Hsf Hfit Hq Hu Hg Hst Hun Hgn Hbits Ht Hn attrs Hl Hz mode. pose proof (fullpath_fits _ path Hsf Hfit) as Hfu.
  assert (0 <= zlen path /\ zlen path + 12 < 2 ^ 32) as [Hp0 Hp].
  { destruct Hsf as (_ & [? _] & [? _]). unfold path_fits, is_u32 in *. pose proof (zlen_nonneg path). lia. }
  assert (zlen attrs = 4 + zlen (encoding_names v st un gn (order_plain bits))) as Ez by (unfold attrs; rewrite zlen_app, zlen_be_encode; lia).
  pose proof (zlen_nonneg (encoding_names v st un gn (order_plain bits))). pose proof (zlen_nonneg rest).
  assert (wf_stat (mkdir_stat sftp)) as Hms by (split_and!; done).
  destruct (payload_back v mc st un gn bits rest (zlen attrs) Hst (conj Hun Hgn) Hbits Ht Hn) with (cr := as_cache sa) (st0 := mkdir_stat sftp) (ab0 := init_read_attr_buffer)
    as (ab1 & s3 & c3 & E1 & E2 & Hc3 & Ha); [rewrite app_assoc; fold attrs; rewrite zlen_app; lia | rewrite app_assoc; fold attrs; rewrite zlen_app; lia | done | done |].
  rewrite app_assoc in E1. fold attrs in E1. exists c3. split; [done |].
  unfold sftp_op_mkdir. rewrite (proj2 (Z.leb_le 8 (inh_len inh))) by lia.
  destruct (string_field path (attrs ++ rest)) as [-> Ed]; [unfold is_u32; lia |]. rewrite Ed. cbn [lift outcome_bind].
  rewrite (u32_id (zlen path + 8)) by (unfold is_u32; lia). rewrite (proj2 (Z.leb_le (zlen path + 8) (inh_len inh))) by lia. rewrite request_path by done. cbn [lift outcome_bind].
  rewrite (u32_id (4 + zlen path)) by (unfold is_u32; lia). rewrite (u32_id (inh_len inh - _)) by (unfold is_u32; lia).
  replace (inh_len inh - (4 + zlen path)) with (zlen attrs) by lia.
  rewrite (drop_app_length' (encode_string path)) by (pose proof (zlen_encode_string path); unfold zlen in *; lia).
  rewrite E1. cbn [lift outcome_bind]. rewrite Hx, E2. cbn [lift outcome_bind]. rewrite create_dir_spec by (done || apply fullpath_pos).
  rewrite (an_mode _ _ _ _ _ Ha). change (get_mode_system_stat (mkdir_stat sftp)) with 455. fold mode.
  destruct (ac_mkdir asys _ _ mode) as [[errno|[]] os]; cbn [lift outcome_bind]; by rewrite status_answer.
Qed.

End Handlers.

(** ** Examples *)

(** A server with one file, [ex_stat], and a client of version 4. *)
Definition one_stat : syscalls bytes := mk_syscalls bytes
  (fun os name _ _ => if decide (name = file_a) then inr (ex_stat, 8, 1) else inl ENOENT)
  (sc_fstatx one_file) (sc_open one_file) (sc_close one_file) (sc_pread one_file) (sc_pwrite one_file) (sc_unlink one_file) (sc_rmdir one_file)
  (sc_readlink one_file) (fun os fd => (inr [], os)).

(** A directory is made when there is nothing. *)
Definition one_dir : attrcalls bytes := mk_attrcalls bytes
  (fun os name mode => if decide (name = file_a) then (inl EINVAL, os) else (inr tt, mode :: os))
  (fun os fd name _ _ => inl ENOENT) (fun os fd name size => inl EINVAL) (fun os fd => inl EINVAL).

Definition example_attrs : sftp_attrs := mk_sftp_attrs example_sftp (actx ex_server V4) 1000 100 0.
Definition example_server : aserver (S := SimpleList.heap) (OS := bytes) := mk_aserver empty_server init_hashattr_generic.

Definition example_tail : bytes := replicate (Z.to_nat (announced ex_server V4 (order_plain ex_mask) - 4 - zlen (encoding_names V4 ex_stat (UserMap.lit "alice"%string) (UserMap.lit "adm"%string) (order_plain ex_mask)))) 0.

Lemma example_lengths : lengths_absent (UserMap.lit "alice") (UserMap.lit "adm")
  ((if has ex_mask SSH_FILEXFER_ATTR_PERMISSIONS then be_encode 4 (Z.land (get_mode_system_stat ex_stat) S_IRWXALL) else []) ++ example_tail).
Proof.
  split; (split; [vm_compute; lia |]; apply List.Forall_forall; intros x Hx ->; vm_compute in Hx; intuition discriminate).
Qed.


(** Version 3, with the numbers of users as they are. *)
Definition plain_attrs : sftp_attrs := mk_sftp_attrs example_sftp (init_attr_context_v03 same_ids 3) 1000 100 0.

Lemma stat_overflows_witness : sftp_op_stat one_stat example_env true plain_attrs example_server (inh_a 17) (encode_string file_a ++ be_encode 4 ex_mask ++ []) = Ub.
Proof.
  apply (stat_overflows one_stat example_env true plain_attrs example_server (inh_a 17) file_a [] ex_mask);
    [left; exists same_ids, 3; split; [done | apply cache_init] | apply example_sftp_wf | done | repeat constructor; done | done | done | done | by eexists].
Defined.

(** A directory with an entry at hand and another one in the buffer. *)
Definition dir_two : dir_data := mk_dir true [mk_dirent 6 8 [98]] (Some (mk_dirent 5 8 [97])).

Lemma readdir_lists_nothing_witness : exists t t' c',
  sftp_op_readdir 0 one_stat one_dir example_env true ReallocNull example_attrs (mk_aserver (mk_server t [1; 2; 3] []) init_hashattr_generic) (inh_a 12) (encode_string (key_string key_a) ++ []) =
    Ret (mk_aserver (with_reply (mk_server t' [1; 2; 3] []) (inh_a 12) (RStatus SSH_FX_EOF)) c').
Proof.
  destruct (socket_server_wf 3 dir_two true) as (t & A & h & Hwf & Hb & Hs & Hh & Hso & Hf & _). exists t.
  destruct (readdir_lists_nothing 0 one_stat one_dir example_env true ReallocNull ex_server V4 example_attrs (mk_aserver (mk_server t [1; 2; 3] []) init_hashattr_generic)
    A (inh_a 12) key_a [] 0 0 h [1; 2; 3] Hwf Hb) as (sock & c' & _ & E);
    [repeat split; cbn; lia | done | done | apply cached_init | exact Hs | exact Hh | unfold open_dir; rewrite Hso; repeat split; by eexists | by rewrite Hf | by apply drained_end | rewrite Hso; cbn; lia |].
  eexists _, c'. exact E.
Defined.

Lemma readdir_unknown_handle_witness : exists t,
  sftp_op_readdir 0 one_stat one_dir example_env true ReallocNull example_attrs (mk_aserver (mk_server t [1; 2; 3] []) init_hashattr_generic) (inh_a 12) (encode_string (key_string (7, 2049, 301)) ++ []) = Ub.
Proof.
  destruct (socket_server_wf 3 dir_two true) as (t & A & h & Hwf & Hb & _ & _ & _ & _ & Hn). exists t.
  apply (readdir_unknown_handle 0 one_stat one_dir example_env true ReallocNull example_attrs (mk_aserver (mk_server t [1; 2; 3] []) init_hashattr_generic) A (inh_a 12) (7, 2049, 301) [] Hwf Hb);
    [repeat split; cbn; lia | done | by apply Hn].
Defined.

Definition dir_b : bytes := [slash; 98].
Definition mkdir_b : bytes := encode_string dir_b ++ be_encode 4 5 ++ [2] ++ be_encode 8 0 ++ be_encode 4 493.

Definition mkdir_b_outcome := run_aop 0 one_stat one_dir example_env true ReallocNull OpMkdir example_attrs example_server (mk_inh 23 14 70) mkdir_b.

Lemma mkdir_b_run : exists sa', mkdir_b_outcome = Ret sa'.
Proof.
  assert (match mkdir_b_outcome with Ret _ => true | _ => false end = true) as H by (vm_compute; reflexivity).
  destruct mkdir_b_outcome as [sa'| |]; [by exists sa' | discriminate H | discriminate H].
Qed.

Lemma example_unique : is_u32 (sf_unique (sa_sftp example_attrs)).
Proof. split; [by vm_compute | by vm_compute]. Qed.

Lemma one_stat_statx : statx_ok one_stat.
Proof. intros os name fl mask st maj min. cbn. case_decide; [| done]. by intros [= <- <- <-]. Qed.


Lemma mkdir_correct_witness : exists c',
  let attrs := be_encode 4 (Z.land 5 (w_mask_of V4)) ++ encoding_names V4 ex_stat [97] [98] (order_plain 5) in
  sftp_op_mkdir one_dir example_env true example_attrs example_server (mk_inh 23 14 70) (encode_string dir_b ++ attrs ++ []) =
    Ret (mk_aserver (with_reply (mk_server no_handles [420; 1; 2; 3] []) (mk_inh 23 14 70) (RStatus SSH_FX_OK)) c').
Proof.
  destruct (mkdir_correct one_dir example_env true ex_server V4 example_attrs example_server (mk_inh 23 14 70) dir_b [] [97] [98] 5 ex_stat eq_refl (cached_init _ _) example_sftp_wf)
    as (c' & _ & E); [done | repeat constructor; done | done | done | exact ex_stat_wf | done | done | done | done | done | by vm_compute | by vm_compute |].
  exists c'. exact E.
Defined.

End SftpServerAttr.
